(* ===== verification/_CoqProject ===== *)
-Q . S2P
Prelude.v
Backoff.v
StrSearch.v
CircBuf.v
StrSet.v
Types.v
MtcFormat.v
UrlCodec.v
LinkList.v
HttpMatch.v
HttpState.v
HttpSafety.v
HttpFrames.v
HttpHeaders.v
HttpAgg.v
Cfg.v
CfgStore.v
EvtUtils.v
JavaBci.v
JavaClass.v
JavaEdits.v
Dns.v
CJson.v
CJsonText.v
CJsonPrint.v
CJsonSafe.v
IpcResp.v
Ipc.v
IpcFrames.v
IpcService.v
IpcSafe.v
Sys.v
Transport.v
TransportSafe.v
TransportLife.v
TransportSend.v
StackPool.v
EvtFormat.v
CtlMsg.v
Ctl.v
CtlLog.v
CfgParse.v
CfgYaml.v
CfgJson.v
CfgRound.v
CfgTrip.v
CfgExchange.v
CfgEnv.v
Rules.v
StateData.v
State.v
Report.v
Account.v
AccountRun.v
Traffic.v
Descriptors.v
Session.v
StateGaps.v
ReportTotal.v
HttpReport.v
HttpPairs.v
HttpExchange.v
H2Pairs.v
HttpGaps.v
