(* ===== verification/Prelude.v ===== *)
(** * Verification of the AppView library core

    AppView is a library that is loaded into other processes.  Interposed
    system calls hand it the data a process reads and writes; it recognises
    HTTP in that data, keeps counters, and a reporting thread turns both into
    metrics and events that a transport sends out.  This library models the
    parts of src/ that carry that logic and proves them correct.

    ** Parts of the program and where they are modelled

    - HTTP recognition, src/httpstate.c ([HttpState]; theorems in [HttpSafety],
      [HttpFrames], [HttpHeaders]).  [http_state_t] is one direction of a
      connection: [parseHttp1] accumulates a header block line by line with
      [appendHeader] and posts it with [reportHttp1]; [parseHttp2] joins the
      stash of an incomplete frame with the buffer and posts header-carrying
      frames with [reportHttp2]; [doHttpBuffer] detects the version and the
      upgrade to HTTP/2; [doHttp] splits the three payload forms (buffer,
      message header, iovec array) into buffers.  Line ends and prefixes are
      found by the Horspool search of src/strsearch.c ([StrSearch]).
    - Event memory, src/evtutils.c ([EvtUtils]): blocks of the posted events.
    - The event queue, src/circbuf.c ([CircBuf]): the data path posts with
      [cbufPut], the reporting thread drains with [cbufGet].
    - Matching of requests and responses, src/httpmatch.c ([HttpMatch]), a hash
      table of lists keyed by socket id, with expiry; and src/linklist.c
      ([LinkList]), the lock-free ordered list that serves as the directory of
      sockets beyond the fixed table.  The class [HttpMatch.NetDirectory] is the
      lookup the store needs of that directory; the list is an instance.
    - Aggregation of HTTP metrics, src/httpagg.c ([HttpAgg]), and the metric
      formatter, src/mtcformat.c ([MtcFormat] for statsd lines, [UrlCodec] for
      percent encoding), which uses the set of src/strset.c ([StrSet]).
    - Configuration, src/cfg.c ([Cfg]; theorems in [CfgStore]), and the
      reconnection back-off, src/backoff.c ([Backoff]).
    - Java instrumentation, src/javabci.c and the class load hook of
      src/javaagent.c ([JavaBci] has the definitions over a block memory,
      [JavaClass] reading and writing, [JavaEdits] the editing functions and
      the hook).
    - DNS requests, [getDNSName] of src/state.c ([Dns]).
    - The state of files and connections, src/state.c.  [StateData] has the
      counters (each twice, for metrics and for events), the tables [g_netinfo]
      and [g_fsinfo], the summaries that [setVerbosity] sets, and the posted
      events; the class [Env] is what the code asks of the kernel, the clock, the
      settings and the other components.  [State] has [doUpdateState] with the
      functions that post, and the calls that open, close and duplicate;
      [Traffic] the calls that read, write, send and receive, the detection of
      protocols ([doProtocol], which feeds [HttpState.doHttp]), the capture of
      StatsD metrics of src/metriccapture.c, and the refusal of connections; its
      class [Detect] has the regular expressions and the protocol definitions.
    - Reports, src/report.c ([Report]): the loop over the posted events, the
      metrics and events of files, connections, DNS, errors and the process, the
      totals, the report by descriptor, captured metrics; and
      [reportPeriodicStuff] of src/wrap.c, which composes them.
    - [Account] and [AccountRun] have the steps of the data path and of the
      reporting thread and what they do to each counted quantity; [Descriptors]
      the specification of the calls by the files and sockets that are open;
      [Session] the sequences of calls and reports; [ReportTotal] the
      termination of a report; [StateGaps] small sessions with wrong reports.
    - Reports of HTTP, src/report.c ([HttpReport]): [doHttp1Header] cuts the
      posted header block into fields, keeps a request in the store of
      [HttpMatch] until its response and hands the response to [HttpAgg];
      [doHttp2Frame] keeps a channel for each connection, with the decoder of its
      header blocks and its streams, and builds the document of the event with
      the constructors of [CJson].  [HttpPairs] and [H2Pairs] have the
      specifications by messages and their refinement, [HttpExchange] the
      composition with the parser of [HttpState], [HttpGaps] inputs with wrong
      reports.  The class [HttpEnv] is the HPACK decoder of lshpack - a function
      from its state and a block to a header and the number of bytes it used,
      at least one - and the filters of the configuration.
    - Inter-process requests: a peer queues JSON frames, src/ipc.c joins their
      parts, src/ipc_resp.c processes the request and the answer goes back in
      frames.  [CJson] and [CJsonPrint] have the parser and the printer of
      contrib/cJSON/cJSON.c that both directions use (theorems in [CJsonText],
      [CJsonPrint], [CJsonSafe]); [IpcResp] the processors, [Ipc] the frames and
      [ipcCommunication] of src/wrap.c, [IpcFrames], [IpcService] and [IpcSafe]
      the theorems.  The class [CJson.Double] with its laws [DoubleLaws] is what
      cJSON relies on of the C library's conversions between text and double
      (the instance [integral] of the integers shows the laws can hold); the
      class [IpcResp.Process] is what the processors ask of other components.
    - Transports, src/transport.c ([Transport]; theorems in [TransportSafe],
      [TransportLife], [TransportSend]).  [Sys] is the world of the system calls:
      a table of descriptors, the blocks in use, and the scripted answers of the
      kernel and of OpenSSL; an operation is a program of its state monad.
    - Events and control: src/evtformat.c turns events into JSON objects
      ([EvtFormat]); src/ctl.c parses requests and builds messages ([CtlMsg]) and
      keeps the queues and the aggregation of log data ([Ctl]; theorems in
      [CtlLog]); src/com.c passes commands to it, and keeps the pool of stacks on
      which expressions are matched ([StackPool], interleaved steps of threads).
    - Configuration parsing, src/cfgutils.c.  [CfgParse] has the values and the
      substitution of variables, [CfgYaml] the readers of the document tree,
      [CfgJson] the writers of the JSON answer, [CfgRound] and [CfgTrip] the
      effect of the operations on the store of [Cfg], [CfgExchange] the round
      trip, [CfgEnv] the environment, the command file, the search path and the
      forced settings of a log stream.  libyaml is a parameter ([yaml_load],
      with the class [YamlReads]: a JSON text is read as its tree), the matcher
      of variable names another ([EnvMatch] with [EnvMatchLaws]), and so are the
      answers of open, access, realpath and the home directory (a record of the
      process's world).
    - The rules that select processes, src/cfgutils.c, and [getSettings] of
      src/wrap.c that applies them ([Rules]).
    - [Types] holds the enumerations and records that several parts share,
      [Prelude] the machine integers, memory accesses, the [ub] monad, hints
      and generic lemmas.

    ** Conventions

    C integers are [Z], wrapped by [u8], [u32], [u64], [i32], [i64] where the
    code can wrap.  A memory block is the list of its bytes; [load] and
    [memcpy] return [UB] outside of it, so a theorem that a run is [Def] says
    that every access was in bounds.  Allocation outcomes are inputs: a
    function from the number of the request, a list of outcomes or a boolean
    argument says which succeed (a list that has run out means success), and
    the theorems hold for all of them unless they say otherwise.  The
    Java components keep blocks in a finite map from addresses, as they edit
    tables of pointers; the contents of new blocks are arbitrary.
    Code outside of src/ is a parameter: the compiled regular expressions of
    pcre2 and regcomp are functions from a subject to the match, rand() is a
    function of its call.  The C library's own functions (strtoull, snprintf
    on the formats used, memcpy, realloc) are written out.

    Loops with a measure take fuel.  [headerLoop] is given one step more than
    the bytes of the buffer (each round consumes at least one), [frameLoop] the
    length of the buffer plus one (each round consumes a frame), [growAlloc]
    the nine quadruplings that separate the smallest from the largest header
    allocation, [search] of the list one or two steps more than the nodes of the heap;
    the JSON parser and printer recurse to the library's nesting limit and their loops
    take the length of the text; [request_loop] one step more than the results
    of the queue and [response_loop] one more than the bytes of the response;
    the handshake loop of the transport one more than the scripted answers, its
    send loops the length of the message; [send_buffered] and [flush_log] one
    more than the length of the queue they drain; [subst_loop] one more than the
    length of the value (each round moves past a byte); [event_loop] one more
    than the length of the event queue, [dims_loop] one more than the length of
    the text, and [octal_loop] four steps, the three digits of the permission
    bits and the test that ends the loop;
    [header_lines] one more than the bytes of the header block, of which each
    line takes one, and [h2_block] the bytes of the frame's block;
    A loop whose fuel runs out is undefined or returns no result, so the
    theorems, which are about results, also show that the fuel is enough.

    ** What the theorems show

    - Memory safety: [doHttp] for every input, chunking and allocation failure;
      the formatters' buffers; the event queue under every interleaving; the
      event blocks (no leak, no double free); the JSON parser on every
      terminated input; the request handler on every content of its queue; a
      transport in every state it can reach (what it holds is what it opened).
    - Concurrency: the queue's indices under every interleaving; the stacks of
      the match pool are exclusive and a thread gets or frees one in a bounded
      number of its own steps.
    - Accounting: in every session of calls and reports, at every level of
      detail, what was counted of a watched quantity is what was reported plus
      what waits in the totals and the queue, and what was counted are the
      operations of the calls' specification; a periodic report that takes all
      events reports all that the session counted, and adds no more than the
      opens of the three standard streams; the calls keep the tables as the
      specification of the descriptors says.  The first two are about sessions
      whose execution is defined, whose allocations succeed, whose event queue
      refused nothing and whose counts stay below 2^63; a session is a sequence
      of whole calls and reports, and captured metrics of the process are passed
      on and not counted.  That a periodic report is defined, and returns, is a
      theorem about every state with terminated names, few timed operations and
      no captured metric with empty dimensions, for all outcomes of the
      allocations.
    - Stream parsing: the frames posted are those of the concatenated HTTP/2
      stream; an HTTP/1 header block is posted once and unchanged; announced
      content is skipped; the name of a DNS query is decoded or the query is
      refused with its reason.
    - HTTP reports: a message of HTTP/1 of at most 16 KB that was on the wire, in
      buffers that do not cut its final line ends nor the text HTTP/, is reported
      as the specification says of its bytes; a request when none waits on its
      socket, a response that the process sends with the request that waits;
      messages of HTTP/2, given by frames of any streams and connections, with
      what was last seen on their stream, when every response follows a request
      and the decoded texts fit the code's arrays.  The theorems are about
      well-formed messages, whose headers are not mistaken for others, and about
      allocations that succeed.
    - Messages: every JSON text gives the tree it denotes, a printed tree is
      parsed back, a request in any number of frames is answered by frames
      that join to the answer, one that breaks off or has a bad frame (other than
      one without the field "remain") by its error status; a control
      request is understood exactly when it is well-formed and its response
      reads back; a metric event has the selected fields once each; queued log
      data is cut into the reference's groups and each is sent once; a send
      passes on a prefix of its message, all of it when it succeeds.
    - Settings: a configuration value is its text with every variable replaced;
      the part of a configuration that its JSON description shows is read back
      unchanged; every variable of the environment sets exactly its option; on
      rules files without a missing argument after a match the decision about a
      process and the configurations that apply are the documented ones, and with
      them the settings of the process.
    - Refinement to abstract data types: queue, dictionaries, set, key/value
      store, tag dictionary, multiset of metrics, abstract class file.
    - Equivalence with reference definitions: leftmost occurrence, statsd line,
      back-off schedule, percent coding round trip.
    - Limits of the code, as theorems about concrete or general inputs: lost
      origin of HTTP/2 frames, the repeated preface skip, split blank lines,
      octal lengths, expiry of neighbours, publication before the write in the
      queue, the wrap-around of its indices, the node freed by a contended
      delete, lost markers, status zero, two leaks, three defects of the class
      file editor, DNS names that leave their buffers, and four paths of the
      request handler (a missing field, an unterminated request, the
      error path of one processor, a response that is cut); durations that no
      level of detail from 6 to 8 reports, closes of open connections, counts
      lost with a full queue, duplicates onto a socket or onto itself, and reads
      past short data; headers taken for others, values of the next line,
      unset and unterminated texts and durations, IPv6 addresses read at the
      wrong place, header blocks cut between frames, and pipelined requests;
      rules undone by a later argument, hidden by an item that is no rule, or
      with the configuration of another; rules files that are not looked for.

    ** What is not modelled

    The lists and stores run without interference (the list's contended delete
    is one explicit step); the queue is modelled with interleavings, under
    sequential consistency.  The spin lock of [doHttp] makes it one step.
    Interposition and machine-code patching (src/wrap.c, src/wrap_go.c), the
    loader, the HPACK decoder, sockets, message queues, TLS and files are
    behaviour of other libraries and of the kernel: what they return are
    inputs.  A call of the data path is one step: its interleaving with another
    thread's calls on the same descriptor is not modelled.  Of src/report.c the
    sending of payloads, destroyReporting and the start metric are not modelled
    ([doConnection] and the expiry of the HTTP stores are definitions of their
    own, and the flushes that end the event loop are those of [Ctl]), nor the
    flush of the metric transport in src/wrap.c, the answers of DNS
    servers in src/state.c, the start message of src/com.c, the functions of
    src/cfgutils.c that build transports and formatters from a configuration, and
    the output objects of src/mtc.c and src/log.c. *)

From stdpp Require Export base list strings gmap numbers pretty.
From Stdlib Require Export ZArith Lia.

#[global] Open Scope Z_scope.

(** ** Machine integers: C's fixed-width types as [Z] with explicit wrap-around. *)

Definition u8 (z : Z) : Z := z mod 2 ^ 8.
Definition u32 (z : Z) : Z := z mod 2 ^ 32.
Definition u64 (z : Z) : Z := z mod 2 ^ 64.
Definition UINT32_MAX : Z := 2 ^ 32 - 1.
Definition UINT64_MAX : Z := 2 ^ 64 - 1.

(** Conversion to a signed [int] (two's complement). *)
Definition i32 (z : Z) : Z := (z + 2 ^ 31) mod 2 ^ 32 - 2 ^ 31.

(** Conversion to a signed [long long]. *)
Definition i64 (z : Z) : Z := (z + 2 ^ 63) mod 2 ^ 64 - 2 ^ 63.
Definition LLONG_MIN : Z := - 2 ^ 63.

Create HintDb appview.
Create Rewrite HintDb appview.

Lemma u32_small z : 0 <= z < 2 ^ 32 -> u32 z = z.
Proof. apply Z.mod_small. Qed.
Lemma u64_small z : 0 <= z < 2 ^ 64 -> u64 z = z.
Proof. apply Z.mod_small. Qed.
Lemma u8_small z : 0 <= z < 2 ^ 8 -> u8 z = z.
Proof. apply Z.mod_small. Qed.
Lemma u32_range z : 0 <= u32 z < 2 ^ 32.
Proof. apply Z.mod_pos_bound. lia. Qed.
Lemma u64_range z : 0 <= u64 z < 2 ^ 64.
Proof. apply Z.mod_pos_bound. lia. Qed.
Lemma u8_range z : 0 <= u8 z < 2 ^ 8.
Proof. apply Z.mod_pos_bound. lia. Qed.
Lemma i32_small z : - 2 ^ 31 <= z < 2 ^ 31 -> i32 z = z.
Proof. intros. unfold i32. rewrite Z.mod_small; lia. Qed.

Lemma u64_u64_add a b : u64 (u64 a + b) = u64 (a + b).
Proof. apply Zplus_mod_idemp_l. Qed.
Lemma i64_u64 z : i64 (u64 z) = i64 z.
Proof. unfold i64, u64. by rewrite Zplus_mod_idemp_l. Qed.
Lemma i64_small z : - 2 ^ 63 <= z < 2 ^ 63 -> i64 z = z.
Proof. intros. unfold i64. rewrite Z.mod_small; lia. Qed.

#[export] Hint Resolve u32_range u64_range u8_range : appview.
#[export] Hint Rewrite u32_small u64_small u8_small i32_small using lia : appview.

(** Split every boolean guard of the goal and normalise the comparisons. *)
Ltac bool_guards :=
  repeat match goal with
  | |- context [if ?b then _ else _] => destruct b eqn:?
  end.

(** Turn the boolean comparisons of the context into arithmetic for [lia]. *)
Ltac ints := autorewrite with appview in *; try lia.

(** ** Bytes and memory

    A byte of memory is a [Z] in [0, 256); a region of memory is a list of
    bytes.  A C string is the list of the bytes before its terminator. *)

Definition is_byte (z : Z) : Prop := 0 <= z < 256.
Definition is_bytes (l : list Z) : Prop := Forall is_byte l.

(** [p[i]]; the callers' theorems carry the bounds, the default is never read. *)
Definition byte_at (l : list Z) (i : Z) : Z := default 0 (l !! Z.to_nat i).

(** [memcmp(a, b, n) == 0]. *)
Definition mem_eqb (a b : list Z) (n : nat) : bool := bool_decide (take n a = take n b).

(** Array write [a[i] = v]: in range it replaces the cell. *)
Definition set_at {A} (l : list A) (i : Z) (v : A) : list A := <[Z.to_nat i := v]> l.

Lemma byte_at_lookup l i b : l !! Z.to_nat i = Some b -> byte_at l i = b.
Proof. unfold byte_at. by intros ->. Qed.

Lemma byte_at_is_byte l i : is_bytes l -> is_byte (byte_at l i).
Proof.
  intros Hl. unfold byte_at. destruct (l !! Z.to_nat i) eqn:E; simpl.
  - by apply (Forall_lookup_1 _ _ _ _ Hl E).
  - unfold is_byte; lia.
Qed.

#[export] Hint Resolve byte_at_is_byte : appview.

Lemma byte_at_set_at (l : list Z) i j v :
  0 <= i < Z.of_nat (length l) -> 0 <= j ->
  byte_at (set_at l i v) j = if decide (i = j) then v else byte_at l j.
Proof.
  intros Hi Hj. unfold byte_at, set_at. case_decide as E.
  - subst. by rewrite list_lookup_insert_eq by lia.
  - by rewrite list_lookup_insert_ne by lia.
Qed.

Lemma length_set_at {A} (l : list A) i v : length (set_at l i v) = length l.
Proof. apply length_insert. Qed.

Lemma byte_at_replicate n v i : 0 <= i < Z.of_nat n -> byte_at (replicate n v) i = v.
Proof. intros. unfold byte_at. by rewrite lookup_replicate_2 by lia. Qed.

Lemma byte_at_app_l (l k : list Z) i :
  0 <= i < Z.of_nat (length l) -> byte_at (l ++ k) i = byte_at l i.
Proof. intros. unfold byte_at. by rewrite lookup_app_l by lia. Qed.

Lemma byte_at_app_r (l k : list Z) i :
  Z.of_nat (length l) <= i -> byte_at (l ++ k) i = byte_at k (i - Z.of_nat (length l)).
Proof.
  intros. unfold byte_at. rewrite lookup_app_r by lia. do 2 f_equal. lia.
Qed.

#[export] Hint Rewrite @length_set_at : appview.

(** ** Outcomes

    The result of code that may run into undefined behaviour of C. *)
Inductive ub (A : Type) := Def (a : A) | UB.
Arguments Def {A} a.
Arguments UB {A}.

#[export] Instance ub_ret : MRet ub := @Def.
#[export] Instance ub_bind : MBind ub := fun A B f m =>
  match m with Def a => f a | UB => UB end.

(** ** Memory accesses with their bounds *)

(** [p[i]] of a readable region. *)
Definition load (p : list Z) (i : Z) : ub Z :=
  if (0 <=? i) && (i <? Z.of_nat (length p)) then Def (byte_at p i) else UB.

(** [memcpy(dst + off, src, n)]: both regions must hold the [n] bytes. *)
Definition memcpy (dst : option (list Z)) (off : Z) (src : list Z) (n : Z) : ub (list Z) :=
  match dst with
  | None => UB
  | Some d =>
      if (0 <=? off) && (0 <=? n) && (off + n <=? Z.of_nat (length d))
         && (n <=? Z.of_nat (length src))
      then Def (take (Z.to_nat off) d ++ take (Z.to_nat n) src ++ drop (Z.to_nat (off + n)) d)
      else UB
  end.

(** The bytes of an ASCII string literal, without its terminator. *)
Definition bytes_of (s : string) : list Z :=
  map (fun c => Z.of_nat (Ascii.nat_of_ascii c)) (String.list_ascii_of_string s).

(** The largest object a pointer difference can span. *)
Definition PTRDIFF_MAX : Z := 2 ^ 63 - 1.

Lemma load_ok p i : 0 <= i < Z.of_nat (length p) -> load p i = Def (byte_at p i).
Proof.
  intros H. unfold load.
  by rewrite (proj2 (Z.leb_le _ _)), (proj2 (Z.ltb_lt _ _)) by lia.
Qed.

Lemma memcpy_ok d off src n :
  0 <= off -> 0 <= n -> off + n <= Z.of_nat (length d) -> n <= Z.of_nat (length src) ->
  memcpy (Some d) off src n =
  Def (take (Z.to_nat off) d ++ take (Z.to_nat n) src ++ drop (Z.to_nat (off + n)) d).
Proof. intros. unfold memcpy. by rewrite !(proj2 (Z.leb_le _ _)) by lia. Qed.

Lemma load_drop p off : 0 <= off -> load p off = load (drop (Z.to_nat off) p) 0.
Proof.
  intros H. unfold load, byte_at. rewrite lookup_drop, length_drop, Nat.add_0_r.
  rewrite (proj2 (Z.leb_le 0 off)) by done.
  destruct (Z.ltb_spec off (Z.of_nat (length p)));
    destruct (Z.ltb_spec 0 (Z.of_nat (length p - Z.to_nat off))); try lia; done.
Qed.

Lemma load_cons p off c rest : 0 <= off -> drop (Z.to_nat off) p = c :: rest -> load p off = Def c.
Proof. intros H E. rewrite load_drop, E by done. reflexivity. Qed.

Lemma drop_next {A} (p : list A) off a b :
  0 <= off -> drop (Z.to_nat off) p = a ++ b -> drop (Z.to_nat (off + Z.of_nat (length a))) p = b.
Proof.
  intros H E. rewrite Z2Nat.inj_add, Nat2Z.id, <- drop_drop, E by lia. apply drop_app_length.
Qed.

(** ** First occurrences

    The distinct elements of a list in the order of their first occurrence. *)
Section Firsts.
Context {A : Type} `{EqDecision A}.

Definition add_first (l : list A) (x : A) : list A := if decide (x ∈ l) then l else l ++ [x].
Definition firsts (l : list A) : list A := foldl add_first [] l.

Lemma firsts_snoc l x : firsts (l ++ [x]) = add_first (firsts l) x.
Proof. unfold firsts. by rewrite foldl_app. Qed.

Lemma elem_of_firsts l x : x ∈ firsts l <-> x ∈ l.
Proof.
  induction l as [|y l IH] using rev_ind; [done|]. rewrite firsts_snoc. unfold add_first.
  case_decide; set_solver.
Qed.

Lemma NoDup_firsts l : NoDup (firsts l).
Proof.
  induction l as [|y l IH] using rev_ind; [constructor|]. rewrite firsts_snoc. unfold add_first.
  case_decide; [done|]. apply NoDup_app. split; [done|]. split; [set_solver|]. apply NoDup_singleton.
Qed.

(** How often [x] occurs. *)
Definition times (x : A) (l : list A) : nat := length (filter (.= x) l).

Lemma times_snoc x l y : times x (l ++ [y]) = (times x l + if decide (y = x) then 1 else 0)%nat.
Proof.
  unfold times. rewrite filter_app, length_app. f_equal.
  rewrite filter_cons, filter_nil. by case_decide.
Qed.

Lemma times_notin x l : x ∉ l -> times x l = 0%nat.
Proof.
  intros Hx. unfold times. induction l as [|y l IH]; [done|].
  rewrite filter_cons. case_decide; subst; set_solver.
Qed.

End Firsts.
