(* ===== verification/Backoff.v ===== *)
(** * Reconnection back-off (src/backoff.c)

    [backoffAlgoAllowsConnect] is called once per millisecond by the
    reporting thread; it answers whether a connection attempt may be made on
    that tick.  The theorems give the exact schedule of attempts. *)

From S2P Require Import Prelude.

Module Backoff.

Record backoff_t := mkBackoff {
  backoff_base : Z;    (* unsigned int *)
  backoff_limit : Z;   (* unsigned int *)
  ms_count : Z;        (* unsigned int *)
}.

Definition BACKOFF_BASE_MAX : Z := 64 * 4 * 1000.

Definition backoffReset (b : option backoff_t) : option backoff_t :=
  match b with
  | None => None
  | Some _ => Some (mkBackoff 1000 1 0)
  end.

(** [calloc_ok] is the outcome of the allocation. *)
Definition backoffCreate (calloc_ok : bool) : option backoff_t :=
  if calloc_ok then backoffReset (Some (mkBackoff 0 0 0)) else None.

(** [*backoff = NULL] whatever the pointer held. *)
Definition backoffDestroy (b : option backoff_t) : option backoff_t := None.

(** [rand] is the value [appview_rand()] returns, consumed only on the branch
    that allows the attempt. *)
Definition backoffAlgoAllowsConnect (rand : Z) (b : option backoff_t)
  : bool * option backoff_t :=
  match b with
  | None => (true, None)
  | Some b =>
      let ms := u32 (ms_count b + 1) in
      if backoff_limit b <=? ms then
        let jitter_ms := Z.rem rand 1000 in
        let limit := u32 (backoff_base b + jitter_ms) in
        let base := if backoff_base b <? BACKOFF_BASE_MAX
                    then u32 (backoff_base b * 2) else backoff_base b in
        (true, Some (mkBackoff base limit 0))
      else (false, Some (mkBackoff (backoff_base b) (backoff_limit b) ms))
  end.

(** ** A run of ticks

    [r k] is what [appview_rand()] returns on the [k]-th allowed attempt. The
    state after [n] ticks, with the number of attempts made so far. *)
Fixpoint ticks (r : nat -> Z) (n : nat) : option backoff_t * nat :=
  match n with
  | O => (backoffCreate true, O)
  | S n =>
      let (b, k) := ticks r n in
      let (ok, b') := backoffAlgoAllowsConnect (r k) b in
      (b', if ok then S k else k)
  end.

(** Is an attempt allowed on tick [n] (counted from 1)? *)
Definition allowed_at (r : nat -> Z) (n : nat) : bool :=
  match n with
  | O => false
  | S n => let (b, k) := ticks r n in fst (backoffAlgoAllowsConnect (r k) b)
  end.

(** ** The abstract schedule: attempt [k+1] follows attempt [k] after
    [min (1000 * 2^k) 256000] ms plus the jitter. *)
Definition base_after (k : nat) : Z := Z.min (1000 * 2 ^ Z.of_nat k) 256000.

Fixpoint attempt_time (r : nat -> Z) (k : nat) : Z :=
  match k with
  | O => 1
  | S k => attempt_time r k + base_after k + Z.rem (r k) 1000
  end.

Section Schedule.
Variable r : nat -> Z.
Hypothesis rand_nonneg : forall k, 0 <= r k.

Lemma jitter_range k : 0 <= Z.rem (r k) 1000 < 1000.
Proof. specialize (rand_nonneg k). apply Z.rem_bound_pos; lia. Qed.

Lemma base_after_range k : 1000 <= base_after k <= 256000.
Proof.
  unfold base_after.
  assert (1 <= 2 ^ Z.of_nat k) by (apply Z.lt_pred_le, Z.pow_pos_nonneg; lia). lia.
Qed.

Lemma base_after_S k :
  base_after (S k) = if base_after k <? BACKOFF_BASE_MAX then 2 * base_after k else base_after k.
Proof.
  unfold base_after, BACKOFF_BASE_MAX.
  rewrite Nat2Z.inj_succ, Z.pow_succ_r by lia.
  destruct (decide (Z.of_nat k < 8)).
  - assert (2 ^ Z.of_nat k <= 2 ^ 7) by (apply Z.pow_le_mono_r; lia).
    destruct (Z.ltb_spec (Z.min (1000 * 2 ^ Z.of_nat k) 256000) (64 * 4 * 1000)); lia.
  - assert (2 ^ 8 <= 2 ^ Z.of_nat k) by (apply Z.pow_le_mono_r; lia).
    destruct (Z.ltb_spec (Z.min (1000 * 2 ^ Z.of_nat k) 256000) (64 * 4 * 1000)); lia.
Qed.

Lemma attempt_time_step k :
  attempt_time r k + 1000 <= attempt_time r (S k) < attempt_time r k + 257000.
Proof. simpl. pose proof (jitter_range k). pose proof (base_after_range k). lia. Qed.

Lemma attempt_time_mono j k : (j < k)%nat -> attempt_time r j < attempt_time r k.
Proof.
  induction 1 as [|k _ IH].
  - pose proof (attempt_time_step j). lia.
  - pose proof (attempt_time_step k). lia.
Qed.

(** When the previous attempt was made (0 before the first one). *)
Definition prev_time (k : nat) : Z :=
  match k with O => 0 | S k => attempt_time r k end.

Lemma ticks_invariant n :
  exists k, ticks r n =
      (Some (mkBackoff (base_after k) (attempt_time r k - prev_time k) (Z.of_nat n - prev_time k)), k)
    /\ prev_time k <= Z.of_nat n < attempt_time r k.
Proof.
  induction n as [|n (k & Heq & Hlo & Hhi)].
  - exists O. split; [reflexivity|simpl; lia].
  - simpl ticks. rewrite Heq. unfold backoffAlgoAllowsConnect.
    cbn [ms_count backoff_limit backoff_base].
    assert (Hgap : attempt_time r k - prev_time k < 257000).
    { destruct k; [cbn; lia|]. pose proof (attempt_time_step k). cbn in *. lia. }
    pose proof (jitter_range k). pose proof (base_after_range k).
    rewrite !u32_small by lia.
    destruct (Z.leb_spec (attempt_time r k - prev_time k) (Z.of_nat n - prev_time k + 1)).
    + exists (S k). split; [|cbn [prev_time]; pose proof (attempt_time_step k); lia].
      do 2 f_equal. rewrite base_after_S. cbn [prev_time attempt_time]. f_equal; try lia.
      bool_guards; rewrite ?u32_small by lia; lia.
    + exists k. split; [do 3 f_equal|]; lia.
Qed.

End Schedule.

(** On every sequence of millisecond ticks from a fresh (or just reset)
    back-off, an attempt is allowed on tick [n] exactly when [n] is one of the
    times of the exponential schedule: the first tick, then each attempt after
    the doubled (and capped at 256 s) base plus its jitter. *)
Theorem backoff_schedule (r : nat -> Z) (n : nat) :
  (forall k, 0 <= r k) ->
  allowed_at r n = true <-> exists k, attempt_time r k = Z.of_nat n.
Proof.
  intros Hr. destruct n as [|n].
  { split; [discriminate|]. intros [k Hk].
    destruct k; [discriminate|]. pose proof (attempt_time_mono r Hr 0 (S k) ltac:(lia)).
    simpl in *; lia. }
  destruct (ticks_invariant r Hr n) as (k & Heq & Hlo & Hhi).
  assert (Hgap : 0 <= attempt_time r k - prev_time r k < 257000).
  { destruct k; [cbn; lia|]. pose proof (attempt_time_step r Hr k). cbn in *. lia. }
  unfold allowed_at. rewrite Heq. unfold backoffAlgoAllowsConnect.
  cbn [ms_count backoff_limit backoff_base]. rewrite u32_small by lia.
  destruct (Z.leb_spec (attempt_time r k - prev_time r k) (Z.of_nat n - prev_time r k + 1)); cbn [fst].
  - split; [intros _; exists k; lia|done].
  - split; [discriminate|]. intros [j Hj]. exfalso.
    destruct (lt_eq_lt_dec j k) as [[Hl| ->]|Hl]; [|lia|].
    + assert (attempt_time r j <= prev_time r k); [|lia].
      destruct k; [lia|]. cbn. destruct (decide (j = k)) as [->|]; [lia|].
      pose proof (attempt_time_mono r Hr j k ltac:(lia)). lia.
    + pose proof (attempt_time_mono r Hr k j Hl). lia.
Qed.

Lemma backoff_schedule_witness :
  (forall k : nat, 0 <= (fun _ => 5) k) /\ (allowed_at (fun _ => 5) 1006 = true <->
    exists k, attempt_time (fun _ => 5) k = 1006).
Proof. split; [intros; lia | apply (backoff_schedule (fun _ => 5) 1006); intros; lia]. Defined.

End Backoff.
