(* ===== verification/StrSearch.v ===== *)
(** * Substring search (src/strsearch.c)

    Horspool's algorithm: [searchComp] compiles a needle to a shift table,
    [searchExec] runs it over a buffer.  The main theorem is the equivalence
    with the leftmost-occurrence specification. *)

From S2P Require Import Prelude.

Module StrSearch.

Definition ASIZE : nat := 256.

Record search_t := mkSearch {
  nlen : Z;            (* int *)
  str : list Z;        (* unsigned char*, without the terminator *)
  bmBc : list Z;       (* int[ASIZE] *)
}.

(** One iteration of the second table loop of [searchComp]. *)
Definition bmBc_write (n : Z) (s : list Z) (tbl : list Z) (i : nat) : list Z :=
  set_at tbl (byte_at s (Z.of_nat i)) (n - Z.of_nat i - 1).

(** [calloc_ok] and [strdup_ok] are the outcomes of the two allocations. *)
Definition searchComp (calloc_ok strdup_ok : bool) (input_str : option (list Z))
  : option search_t :=
  match input_str with
  | None => None
  | Some s =>
      if negb calloc_ok then None else
      let n := Z.of_nat (length s) in
      if n =? 0 then None else
      if negb strdup_ok then None else
      let tbl := replicate ASIZE n in
      Some (mkSearch n s (foldl (bmBc_write n s) tbl (seq 0 (Z.to_nat (n - 1)))))
  end.

Definition searchFree (h : option search_t) : option search_t := None.

Definition searchLen (h : option search_t) : Z :=
  match h with None => 0 | Some h => nlen h end.

(** The [while] loop of [searchExec]; [fuel] bounds its iterations. *)
Fixpoint searchLoop (fuel : nat) (h : search_t) (haystack : list Z) (hlen j : Z) : Z :=
  match fuel with
  | O => -1
  | S fuel =>
      if j <=? hlen - nlen h then
        let c := byte_at haystack (j + nlen h - 1) in
        if (byte_at (str h) (nlen h - 1) =? c)
           && mem_eqb (str h) (drop (Z.to_nat j) haystack) (Z.to_nat (nlen h - 1))
        then j
        else searchLoop fuel h haystack hlen (j + byte_at (bmBc h) c)
      else -1
  end.

(** Every iteration advances [j] by at least one, so [hlen + 1] are enough. *)
Definition searchExec (h : option search_t) (haystack : option (list Z)) (hlen : Z) : Z :=
  match h, haystack with
  | Some h, Some hay =>
      if hlen <? 0 then -1 else searchLoop (S (Z.to_nat hlen)) h hay hlen 0
  | _, _ => -1
  end.

(** ** Specification *)

(** [needle] occurs at offset [j] of the first [hlen] bytes. *)
Definition occurs_at (needle hay : list Z) (hlen j : Z) : Prop :=
  0 <= j /\ j + Z.of_nat (length needle) <= hlen /\
  take (length needle) (drop (Z.to_nat j) hay) = needle.

#[export] Instance occurs_at_dec needle hay hlen j : Decision (occurs_at needle hay hlen j).
Proof. unfold occurs_at. apply _. Defined.

(** A handle that [searchComp] may have produced for [needle]. *)
Record compiled (needle : list Z) (h : search_t) : Prop := {
  comp_nlen : nlen h = Z.of_nat (length needle);
  comp_str : str h = needle;
  comp_pos : 0 < nlen h;
  comp_range : forall c, is_byte c -> 1 <= byte_at (bmBc h) c <= nlen h;
  comp_shift : forall i c, (i < length needle - 1)%nat -> needle !! i = Some c ->
               byte_at (bmBc h) c <= nlen h - Z.of_nat i - 1;
}.

Section Table.
Variable s : list Z.
Hypothesis s_bytes : is_bytes s.
Hypothesis s_nonempty : (0 < length s)%nat.
Let n := Z.of_nat (length s).

Definition table (k : nat) : list Z := foldl (bmBc_write n s) (replicate ASIZE n) (seq 0 k).

Lemma table_S k : table (S k) = bmBc_write n s (table k) k.
Proof. unfold table. by rewrite seq_S, foldl_app. Qed.

Lemma table_length k : length (table k) = ASIZE.
Proof.
  induction k; [apply length_replicate|].
  rewrite table_S. unfold bmBc_write, set_at. by rewrite length_insert.
Qed.

Lemma set_at_get (l : list Z) c v d :
  is_byte c -> is_byte d -> length l = ASIZE ->
  byte_at (set_at l c v) d = if decide (c = d) then v else byte_at l d.
Proof.
  intros Hc Hd Hl. unfold is_byte, byte_at, set_at, ASIZE in *. case_decide as E.
  - subst. by rewrite list_lookup_insert_eq by lia.
  - by rewrite list_lookup_insert_ne by lia.
Qed.

Lemma byte_at_s (i : nat) : (i < length s)%nat -> s !! i = Some (byte_at s (Z.of_nat i)).
Proof.
  intros Hi. unfold byte_at. rewrite Nat2Z.id.
  destruct (lookup_lt_is_Some_2 s i Hi) as [b ->]. done.
Qed.

Lemma table_range k c : (k <= length s - 1)%nat -> is_byte c -> 1 <= byte_at (table k) c <= n.
Proof.
  intros Hk Hc. induction k as [|k IH].
  - change (table 0) with (replicate ASIZE n). unfold byte_at, is_byte in *.
    rewrite lookup_replicate_2 by (unfold ASIZE; lia). simpl. lia.
  - rewrite table_S. unfold bmBc_write.
    rewrite set_at_get by (auto using table_length with appview).
    case_decide; [lia|apply IH; lia].
Qed.

Lemma table_shift k i c :
  (k <= length s - 1)%nat -> (i < k)%nat -> s !! i = Some c ->
  byte_at (table k) c <= n - Z.of_nat i - 1.
Proof.
  intros Hk Hi Hc. induction k as [|k IH]; [lia|].
  assert (is_byte c) by (eapply Forall_lookup_1; eauto).
  rewrite table_S. unfold bmBc_write.
  rewrite set_at_get by (auto using table_length with appview).
  case_decide as E; [lia|]. apply IH; [lia|].
  assert (i <> k); [|lia]. intros ->. apply E. rewrite byte_at_s in Hc by lia. congruence.
Qed.

Lemma searchComp_compiled :
  exists h, searchComp true true (Some s) = Some h /\ compiled s h.
Proof.
  unfold searchComp. simpl negb. fold n.
  destruct (Z.eqb_spec n 0); [lia|]. eexists; split; [reflexivity|].
  change (foldl _ _ _) with (table (Z.to_nat (n - 1))).
  split; cbn [nlen str bmBc]; try done; try lia.
  - intros. apply table_range; [lia|done].
  - intros. apply table_shift; [lia|lia|done].
Qed.

End Table.

(** ** The loop *)

Section Loop.
Variables (needle hay : list Z) (hlen : Z) (h : search_t).
Hypothesis Hc : compiled needle h.
Hypothesis Hhay : is_bytes hay.
Hypothesis Hlen : 0 <= hlen <= Z.of_nat (length hay).

Let n := length needle.

Lemma occurs_lookup j (i : nat) :
  occurs_at needle hay hlen j -> (i < n)%nat -> needle !! i = hay !! (Z.to_nat j + i)%nat.
Proof.
  intros (_ & _ & E) Hi. rewrite <- E at 1. rewrite lookup_take_lt by (subst n; lia).
  by rewrite lookup_drop.
Qed.

(** The test of the loop body decides an occurrence at [j]. *)
Lemma body_test j : 0 <= j -> j <= hlen - nlen h ->
  (byte_at (str h) (nlen h - 1) =? byte_at hay (j + nlen h - 1))
    && mem_eqb (str h) (drop (Z.to_nat j) hay) (Z.to_nat (nlen h - 1)) = true
  <-> occurs_at needle hay hlen j.
Proof.
  intros Hj Hjl. pose proof (comp_nlen _ _ Hc) as Hn. pose proof (comp_pos _ _ Hc).
  rewrite (comp_str _ _ Hc), andb_true_iff, Z.eqb_eq. unfold mem_eqb, occurs_at.
  rewrite bool_decide_eq_true. unfold byte_at.
  set (m := Z.to_nat (nlen h - 1)). assert (Hm : n = S m) by (subst n m; lia).
  replace (Z.to_nat (j + nlen h - 1)) with (Z.to_nat j + m)%nat by lia.
  destruct (lookup_lt_is_Some_2 needle m ltac:(subst n; lia)) as [x Hx].
  destruct (lookup_lt_is_Some_2 hay (Z.to_nat j + m)%nat ltac:(lia)) as [y Hy].
  rewrite Hx, Hy; simpl. fold n. rewrite Hm, <- (lookup_drop hay) in *.
  rewrite (take_S_r _ _ _ Hy).
  assert (Hneedle : needle = take m needle ++ [x]).
  { rewrite <- (take_S_r _ _ _ Hx), <- Hm. subst n. by rewrite firstn_all. }
  split.
  - intros [-> E]. repeat split; [lia..|]. rewrite <- E. by symmetry.
  - intros (_ & _ & E). rewrite Hneedle in E. apply app_inj_tail in E as [<- <-]. done.
Qed.

(** The shift never jumps over an occurrence. *)
Lemma shift_safe j d :
  0 <= j -> j <= hlen - nlen h ->
  0 < d < byte_at (bmBc h) (byte_at hay (j + nlen h - 1)) -> ~ occurs_at needle hay hlen (j + d).
Proof.
  intros Hj Hjl Hd Ho. pose proof (comp_nlen _ _ Hc) as Hn.
  set (c := byte_at hay (j + nlen h - 1)) in *.
  assert (Hcb : is_byte c) by (apply byte_at_is_byte; done).
  pose proof (comp_range _ _ Hc c Hcb).
  set (i := Z.to_nat (nlen h - 1 - d)).
  assert (needle !! i = Some c).
  { rewrite (occurs_lookup _ i Ho) by (subst i n; lia).
    unfold c, byte_at. replace (Z.to_nat (j + d) + i)%nat with (Z.to_nat (j + nlen h - 1)) by lia.
    destruct (lookup_lt_is_Some_2 hay (Z.to_nat (j + nlen h - 1)) ltac:(lia)) as [y ->]. done. }
  pose proof (comp_shift _ _ Hc i c ltac:(lia) ltac:(done)). lia.
Qed.

Definition leftmost (res : Z) : Prop :=
  (res = -1 /\ forall j, ~ occurs_at needle hay hlen j) \/
  (occurs_at needle hay hlen res /\ forall j, j < res -> ~ occurs_at needle hay hlen j).

Lemma searchLoop_leftmost fuel j :
  0 <= j -> (Z.to_nat (hlen - j) < fuel)%nat ->
  (forall k, k < j -> ~ occurs_at needle hay hlen k) ->
  leftmost (searchLoop fuel h hay hlen j).
Proof.
  revert j. induction fuel as [|fuel IH]; intros j Hj Hf Hpre; [lia|]. simpl.
  pose proof (comp_nlen _ _ Hc) as Hn. pose proof (comp_pos _ _ Hc).
  destruct (Z.leb_spec j (hlen - nlen h)).
  - destruct (_ && _) eqn:T.
    + right. rewrite body_test in T by lia. auto.
    + assert (Hno : ~ occurs_at needle hay hlen j).
      { intros Ho%body_test; [|lia..]. congruence. }
      set (c := byte_at hay (j + nlen h - 1)) in *.
      pose proof (comp_range _ _ Hc c (byte_at_is_byte _ _ Hhay)).
      apply IH; [lia..|]. intros k Hk.
      destruct (decide (k < j)); [auto|]. destruct (decide (k = j)) as [->|]; [auto|].
      replace k with (j + (k - j)) by lia. apply shift_safe; fold c; lia.
  - left. split; [done|]. intros k Ho. destruct (decide (k < j)); [by eapply Hpre|].
    destruct Ho as (_ & Ho & _). lia.
Qed.

End Loop.

(** The search on any compiled handle; the callers keep handles in globals. *)
Lemma searchExec_handle needle hay hlen h :
  compiled needle h -> is_bytes hay -> 0 <= hlen <= Z.of_nat (length hay) ->
  leftmost needle hay hlen (searchExec (Some h) (Some hay) hlen).
Proof.
  intros Hc Hh Hl. unfold searchExec. destruct (Z.ltb_spec hlen 0); [lia|].
  apply searchLoop_leftmost; try done; [lia..|]. intros k Hk (? & _). lia.
Qed.

(** The search reads only the first [hlen] bytes. *)
Lemma searchLoop_take needle h hay hlen fuel j :
  compiled needle h -> is_bytes (take (Z.to_nat hlen) hay) ->
  0 <= hlen <= Z.of_nat (length hay) -> 0 <= j ->
  searchLoop fuel h hay hlen j = searchLoop fuel h (take (Z.to_nat hlen) hay) hlen j.
Proof.
  intros Hc Hb Hl. revert j. induction fuel as [|fuel IH]; intros j Hj; [done|].
  cbn [searchLoop]. pose proof (comp_pos _ _ Hc).
  destruct (Z.leb_spec j (hlen - nlen h)); [|done].
  assert (Eb : byte_at hay (j + nlen h - 1) = byte_at (take (Z.to_nat hlen) hay) (j + nlen h - 1)).
  { unfold byte_at. by rewrite lookup_take_lt by lia. }
  assert (Em : mem_eqb (str h) (drop (Z.to_nat j) hay) (Z.to_nat (nlen h - 1)) =
    mem_eqb (str h) (drop (Z.to_nat j) (take (Z.to_nat hlen) hay)) (Z.to_nat (nlen h - 1))).
  { unfold mem_eqb. rewrite skipn_firstn_comm, take_take. by rewrite Nat.min_l by lia. }
  rewrite Eb, Em. destruct (_ && _); [done|]. apply IH.
  pose proof (comp_range _ _ Hc _ (byte_at_is_byte _ (j + nlen h - 1) Hb)). lia.
Qed.

Lemma searchExec_prefix needle h hay hlen :
  compiled needle h -> is_bytes (take (Z.to_nat hlen) hay) -> 0 <= hlen <= Z.of_nat (length hay) ->
  leftmost needle (take (Z.to_nat hlen) hay) hlen (searchExec (Some h) (Some hay) hlen).
Proof.
  intros Hc Hb Hl. pose proof (searchExec_handle needle (take (Z.to_nat hlen) hay) hlen h Hc Hb) as L.
  rewrite length_take in L. specialize (L ltac:(lia)). unfold searchExec in *.
  destruct (Z.ltb_spec hlen 0); [lia|]. by rewrite (searchLoop_take needle).
Qed.

(** C40: for every needle and buffer of bytes, [searchExec] on the handle
    [searchComp] builds returns the leftmost offset at which the needle occurs
    within the first [hlen] bytes, and -1 exactly when there is none. *)
Theorem searchExec_leftmost (needle hay : list Z) (hlen : Z) :
  is_bytes needle -> is_bytes hay -> needle <> [] -> 0 <= hlen <= Z.of_nat (length hay) ->
  leftmost needle hay hlen
    (searchExec (searchComp true true (Some needle)) (Some hay) hlen).
Proof.
  intros Hn Hh Hne Hl. destruct needle as [|x needle]; [done|].
  destruct (searchComp_compiled (x :: needle) Hn ltac:(simpl; lia)) as (h & -> & Hc).
  by apply searchExec_handle.
Qed.

Lemma searchExec_leftmost_witness :
  leftmost [72; 84; 84; 80] [71; 72; 84; 72; 84; 84; 80; 47] 8
    (searchExec (searchComp true true (Some [72; 84; 84; 80]))
       (Some [71; 72; 84; 72; 84; 84; 80; 47]) 8).
Proof.
  apply (searchExec_leftmost [72; 84; 84; 80] [71; 72; 84; 72; 84; 84; 80; 47] 8);
    [repeat constructor; lia | repeat constructor; lia | discriminate | simpl; lia].
Defined.

(** Corollaries used by the HTTP parser. *)
Lemma leftmost_unique needle hay hlen r1 r2 :
  leftmost needle hay hlen r1 -> leftmost needle hay hlen r2 -> r1 = r2.
Proof.
  intros [[-> H1]|[H1 M1]] [[-> H2]|[H2 M2]]; [done|by destruct (H1 _ H2)|by destruct (H2 _ H1)|].
  destruct (Z.lt_trichotomy r1 r2) as [L|[?|L]]; [by destruct (M2 _ L)|done|by destruct (M1 _ L)].
Qed.

End StrSearch.
