(* ===== verification/CircBuf.v ===== *)
(** * Circular event buffer (src/circbuf.c)

    The datapath threads post events with [cbufPut]; the reporting thread
    drains them with [cbufGet].  First the operations as they run without
    interference, refined to a bounded FIFO queue; then the same code as
    atomic steps of any number of threads. *)

From S2P Require Import Prelude.

Module CircBuf.

Record cbuf_t := mkCbuf {
  buffer : list Z;   (* uint64_t[maxlen] *)
  head : Z;          (* int *)
  tail : Z;          (* int *)
  maxlen : Z;        (* int *)
}.

Definition cbufReset (c : option cbuf_t) : option cbuf_t :=
  match c with
  | None => None
  | Some c => Some (mkCbuf (buffer c) 0 0 (maxlen c))
  end.

(** [ok1], [ok2]: outcomes of the two allocations. *)
Definition cbufInit (ok1 ok2 : bool) (size : Z) : option cbuf_t :=
  if negb ok1 then None else
  let buf := replicate (Z.to_nat (u64 (size + 1))) 0 in
  if negb ok2 then None else
  match cbufReset (Some (mkCbuf [] 0 0 0)) with
  | None => None
  | Some c => Some (mkCbuf buf (head c) (tail c) (i32 (size + 1)))
  end.

Definition cbufFree (c : option cbuf_t) : option cbuf_t := None.

(** ** Operations without interference

    The compare-and-swap then always succeeds, so the retry loop makes one
    iteration.  [cbufPut] returns its result, the buffer, and by how much
    [g_cbuf_drop_count] grew. *)
Definition cbufPut (c : option cbuf_t) (data : Z) : Z * option cbuf_t * Z :=
  match c with
  | None => (-1, None, 0)
  | Some c =>
      let head_next := Z.rem (head c + 1) (maxlen c) in
      if head_next =? tail c then (-1, Some c, 1) else
      let c1 := mkCbuf (buffer c) head_next (tail c) (maxlen c) in
      if negb (byte_at (buffer c1) head_next =? 0) then (-1, Some c1, 0) else
      (0, Some (mkCbuf (set_at (buffer c1) head_next data) (head c1) (tail c1) (maxlen c1)), 0)
  end.

(** [cbufGet] returns its result, the value stored to [*data] ([None] when the
    function stores nothing) and the buffer. *)
Definition cbufGet (c : option cbuf_t) : Z * option Z * option cbuf_t :=
  match c with
  | None => (-1, None, None)
  | Some c =>
      let tail_next := Z.rem (tail c + 1) (maxlen c) in
      if tail c =? head c then (-1, None, Some c) else
      let d := byte_at (buffer c) tail_next in
      (0, Some d, Some (mkCbuf (set_at (buffer c) tail_next 0) (head c) tail_next (maxlen c)))
  end.

(** [size_t] result: -1 is converted to the largest value. *)
Definition cbufCapacity (c : option cbuf_t) : Z :=
  match c with None => u64 (-1) | Some c => u64 (maxlen c - 1) end.

Definition cbufEmpty (c : option cbuf_t) : bool :=
  match c with None => true | Some c => tail c =? head c end.

(** ** Refinement to a bounded FIFO queue *)

(** [c] holds the queue [q]: the entries follow [tail] circularly, every other
    cell is the "unused" marker 0. *)
Record rep (c : cbuf_t) (q : list Z) : Prop := {
  rep_maxlen : 0 < maxlen c < 2 ^ 31 - 1;
  rep_buf : Z.of_nat (length (buffer c)) = maxlen c;
  rep_len : Z.of_nat (length q) < maxlen c;
  rep_tail : 0 <= tail c < maxlen c;
  rep_head : head c = (tail c + Z.of_nat (length q)) mod maxlen c;
  rep_cells : forall i, 0 <= i < maxlen c ->
    byte_at (buffer c) ((tail c + 1 + i) mod maxlen c) = byte_at q i;
}.

Lemma byte_at_out (l : list Z) i : Z.of_nat (length l) <= i -> byte_at l i = 0.
Proof. intros. unfold byte_at. rewrite lookup_ge_None_2 by lia. done. Qed.

Lemma mod_inj m t i j :
  0 < m -> 0 <= i < m -> 0 <= j < m -> (t + i) mod m = (t + j) mod m -> i = j.
Proof.
  intros Hm Hi Hj E.
  assert ((i - j) mod m = 0).
  { replace (i - j) with ((t + i) - (t + j)) by lia.
    rewrite Zminus_mod, E, Z.sub_diag. apply Z.mod_0_l; lia. }
  apply Z.mod_divide in H as [k Hk]; [|lia]. assert (k = 0) by nia. nia.
Qed.

Lemma rep_init size c :
  0 <= size < 2 ^ 31 - 2 -> cbufInit true true size = Some c ->
  rep c [] /\ maxlen c = size + 1.
Proof.
  intros Hs [= <-]. rewrite i32_small, u64_small by lia. split; [|done].
  split; cbn [buffer head tail maxlen length]; rewrite ?length_replicate; try lia.
  - by rewrite Z.mod_small by lia.
  - intros i Hi. rewrite byte_at_replicate, byte_at_out; [done|simpl; lia|].
    pose proof (Z.mod_pos_bound (0 + 1 + i) (size + 1)). lia.
Qed.

Lemma rem_as_mod a m : 0 <= a -> 0 < m -> Z.rem a m = a mod m.
Proof. intros. apply Z.rem_mod_nonneg; lia. Qed.

Section Refinement.
Variables (c : cbuf_t) (q : list Z).
Hypothesis R : rep c q.

Lemma head_range : 0 <= head c < maxlen c.
Proof. rewrite (rep_head _ _ R). apply Z.mod_pos_bound. pose proof (rep_maxlen _ _ R). lia. Qed.

Lemma head_next_eq :
  Z.rem (head c + 1) (maxlen c) = (tail c + 1 + Z.of_nat (length q)) mod maxlen c.
Proof.
  pose proof head_range. pose proof (rep_maxlen _ _ R).
  rewrite rem_as_mod, (rep_head _ _ R), Zplus_mod_idemp_l by lia. f_equal. lia.
Qed.

Lemma full_iff :
  Z.rem (head c + 1) (maxlen c) = tail c <-> Z.of_nat (length q) = maxlen c - 1.
Proof.
  pose proof (rep_maxlen _ _ R). pose proof (rep_len _ _ R). pose proof (rep_tail _ _ R).
  rewrite head_next_eq. split; intros E.
  - destruct (decide (Z.of_nat (length q) + 1 < maxlen c)); [|lia].
    assert (Z.of_nat (length q) + 1 = 0); [|lia].
    apply (mod_inj (maxlen c) (tail c)); [lia..|].
    rewrite Z.add_0_r, (Z.mod_small (tail c)) by lia. rewrite <- E. f_equal. lia.
  - replace (tail c + 1 + Z.of_nat (length q)) with (tail c + 1 * maxlen c) by lia.
    rewrite Z_mod_plus_full. apply Z.mod_small. lia.
Qed.

Lemma empty_iff : tail c = head c <-> q = [].
Proof.
  pose proof (rep_maxlen _ _ R). pose proof (rep_len _ _ R). pose proof (rep_tail _ _ R).
  rewrite (rep_head _ _ R). split.
  - intros E. assert (0 = Z.of_nat (length q)); [|destruct q; simpl in *; [done|lia]].
    apply (mod_inj (maxlen c) (tail c)); [lia..|].
    rewrite <- E, Z.add_0_r. apply Z.mod_small. lia.
  - intros ->. simpl. rewrite Z.add_0_r, Z.mod_small; lia.
Qed.

Lemma put_full data :
  Z.of_nat (length q) = maxlen c - 1 -> cbufPut (Some c) data = (-1, Some c, 1).
Proof. intros F%full_iff. unfold cbufPut. by rewrite F, Z.eqb_refl. Qed.

Lemma put_ok data :
  Z.of_nat (length q) < maxlen c - 1 ->
  exists c', cbufPut (Some c) data = (0, Some c', 0) /\ rep c' (q ++ [data]) /\ maxlen c' = maxlen c.
Proof.
  intros Hl. pose proof (rep_maxlen _ _ R). pose proof (rep_tail _ _ R).
  pose proof (rep_buf _ _ R) as Hb.
  assert (Hnf : Z.rem (head c + 1) (maxlen c) <> tail c) by (rewrite full_iff; lia).
  unfold cbufPut. apply Z.eqb_neq in Hnf. rewrite Hnf. rewrite head_next_eq.
  set (hn := (tail c + 1 + Z.of_nat (length q)) mod maxlen c).
  assert (Hhn : 0 <= hn < maxlen c) by (apply Z.mod_pos_bound; lia).
  cbn [buffer head tail maxlen].
  assert (Hcell : byte_at (buffer c) hn = 0).
  { unfold hn. by rewrite (rep_cells _ _ R), byte_at_out by lia. }
  rewrite Hcell. cbn [negb Z.eqb].
  eexists; split; [reflexivity|]. split; [|done].
  split; cbn [buffer head tail maxlen]; autorewrite with appview;
    rewrite ?length_app; simpl length; try lia.
  - subst hn. f_equal. lia.
  - intros i Hi. pose proof (Z.mod_pos_bound (tail c + 1 + i) (maxlen c)).
    rewrite byte_at_set_at by lia. case_decide as E.
    + apply mod_inj in E; [|lia..]. subst i.
      rewrite byte_at_app_r, Z.sub_diag by lia. done.
    + rewrite (rep_cells _ _ R) by lia.
      destruct (decide (i < Z.of_nat (length q))).
      * by rewrite byte_at_app_l by lia.
      * destruct (decide (i = Z.of_nat (length q))) as [->|]; [done|].
        rewrite byte_at_app_r, !byte_at_out; simpl; lia.
Qed.

Lemma get_empty : q = [] -> cbufGet (Some c) = (-1, None, Some c).
Proof. intros E%empty_iff. unfold cbufGet. by rewrite E, Z.eqb_refl. Qed.

Lemma get_ok d q' :
  q = d :: q' ->
  exists c', cbufGet (Some c) = (0, Some d, Some c') /\ rep c' q' /\ maxlen c' = maxlen c.
Proof.
  intros Hq. pose proof (rep_maxlen _ _ R). pose proof (rep_tail _ _ R).
  pose proof (rep_buf _ _ R) as Hb. pose proof (rep_len _ _ R) as Hl.
  assert (Hne : tail c <> head c) by (rewrite empty_iff; congruence).
  unfold cbufGet. apply Z.eqb_neq in Hne. rewrite Hne, rem_as_mod by lia.
  set (tn := (tail c + 1) mod maxlen c).
  assert (Htn : 0 <= tn < maxlen c) by (apply Z.mod_pos_bound; lia).
  assert (Hd : byte_at (buffer c) tn = d).
  { pose proof (rep_cells _ _ R 0 ltac:(lia)) as E. rewrite Z.add_0_r in E. fold tn in E. by rewrite E, Hq. }
  rewrite Hd. eexists; split; [reflexivity|]. split; [|done].
  split; cbn [buffer head tail maxlen]; autorewrite with appview; subst q; simpl length in *; try lia.
  - rewrite (rep_head _ _ R). subst tn. rewrite Zplus_mod_idemp_l. f_equal. simpl length. lia.
  - intros i Hi. replace ((tn + 1 + i) mod maxlen c) with ((tail c + 1 + (i + 1)) mod maxlen c).
    2:{ subst tn. replace (_ + 1 + i) with ((tail c + 1) mod maxlen c + (1 + i)) by lia.
        rewrite Zplus_mod_idemp_l. f_equal. lia. }
    pose proof (Z.mod_pos_bound (tail c + 1 + (i + 1)) (maxlen c)).
    rewrite byte_at_set_at by lia. case_decide as E.
    + subst tn. destruct (decide (i + 1 < maxlen c)).
      * rewrite <- (Z.add_0_r (tail c + 1)) in E at 1. apply mod_inj in E; lia.
      * rewrite byte_at_out; lia.
    + destruct (decide (i + 1 < maxlen c)).
      * rewrite (rep_cells _ _ R) by lia. unfold byte_at.
        by replace (Z.to_nat (i + 1)) with (S (Z.to_nat i)) by lia.
      * destruct E. subst tn. replace (tail c + 1 + (i + 1)) with (tail c + 1 + 1 * maxlen c) by lia.
        by rewrite Z_mod_plus_full.
Qed.

End Refinement.

(** ** The abstract machine: a queue that holds at most [cap] entries *)

Inductive op := Put (data : Z) | Get.

(** What an operation answers: its return code and, for [Get], the entry. *)
Definition spec_step (cap : Z) (o : op) (q : list Z) : (Z * option Z) * list Z :=
  match o with
  | Put d => if Z.of_nat (length q) <? cap then ((0, None), q ++ [d]) else ((-1, None), q)
  | Get => match q with [] => ((-1, None), []) | d :: q => ((0, Some d), q) end
  end.

Definition impl_step (o : op) (c : option cbuf_t) : (Z * option Z) * option cbuf_t :=
  match o with
  | Put d => let '(rc, c', _) := cbufPut c d in ((rc, None), c')
  | Get => let '(rc, d, c') := cbufGet c in ((rc, d), c')
  end.

Fixpoint run {S} (step : op -> S -> (Z * option Z) * S) (ops : list op) (s : S)
  : list (Z * option Z) * S :=
  match ops with
  | [] => ([], s)
  | o :: ops => let (r, s') := step o s in
                let (rs, s'') := run step ops s' in (r :: rs, s'')
  end.

Lemma step_refines c q o :
  rep c q ->
  exists c', impl_step o (Some c) = (fst (spec_step (maxlen c - 1) o q), Some c')
    /\ rep c' (snd (spec_step (maxlen c - 1) o q)) /\ maxlen c' = maxlen c.
Proof.
  intros R. destruct o as [d|]; cbn [impl_step spec_step].
  - destruct (Z.ltb_spec (Z.of_nat (length q)) (maxlen c - 1)).
    + destruct (put_ok _ _ R d) as (c' & -> & ? & ?); [done|]. cbn [fst snd]; eauto.
    + pose proof (rep_len _ _ R). rewrite (put_full _ _ R) by lia. cbn [fst snd]; eauto.
  - destruct q as [|d q].
    + rewrite (get_empty _ _ R) by done. eauto.
    + destruct (get_ok _ _ R d q eq_refl) as (c' & -> & ? & ?). eauto.
Qed.

(** C11: a buffer created for [size] entries answers every sequence of puts and
    gets exactly as a FIFO queue bounded by [size] does: entries come out in
    order and unchanged, a put fails only on a full queue, a get only on an
    empty one. *)
Theorem cbuf_refines_queue (size : Z) (ops : list op) :
  0 <= size < 2 ^ 31 - 2 ->
  fst (run impl_step ops (cbufInit true true size)) = fst (run (spec_step size) ops []).
Proof.
  intros Hs. destruct (cbufInit true true size) as [c|] eqn:E; [|discriminate].
  destruct (rep_init size c Hs E) as [R M]. clear E.
  replace size with (maxlen c - 1) by lia. clear M Hs.
  generalize (@nil Z) as q, R. clear R. revert c.
  induction ops as [|o ops IH]; intros c q R; [done|].
  destruct (step_refines c q o R) as (c' & E & R' & M). cbn [run]. rewrite E.
  destruct (spec_step (maxlen c - 1) o q) as [r q'] eqn:Es. cbn [fst snd] in *.
  specialize (IH c' q' R'). rewrite M in IH.
  destruct (run impl_step ops (Some c')), (run (spec_step (maxlen c - 1)) ops q').
  simpl in *. congruence.
Qed.

Lemma cbuf_refines_queue_witness :
  fst (run impl_step [Put 7; Put 8; Put 9; Get; Put 10; Get; Get; Get] (cbufInit true true 2))
  = [(0, None); (0, None); (-1, None); (0, Some 7); (0, None); (0, Some 8); (0, Some 10); (-1, None)].
Proof.
  etransitivity; [apply (cbuf_refines_queue 2); lia | reflexivity].
Defined.


(** ** Interleaved execution

    Each constructor is a point between two accesses to the shared buffer; the
    arguments are the live local variables.  One step performs one access. *)

Inductive thread :=
| PutRead (data attempts : Z)                        (* head = cbuf->head *)
| PutCheck (data attempts head head_next : Z)        (* head_next == cbuf->tail *)
| PutCas (data attempts head head_next : Z)          (* atomicCas32(&cbuf->head, ..) *)
| PutTest (data head_next : Z)                       (* cbuf->buffer[head_next] != 0 *)
| PutWrite (data head_next : Z)                      (* cbuf->buffer[head_next] = data *)
| PutDone (rc : Z)
| GetRead (attempts : Z)
| GetCheck (attempts tail tail_next : Z)
| GetCas (attempts tail tail_next : Z)
| GetLoad (tail_next : Z)                            (* *data = cbuf->buffer[tail_next] *)
| GetClear (tail_next data : Z)                      (* cbuf->buffer[tail_next] = 0 *)
| GetDone (rc : Z) (data : option Z).

(** One atomic step of a thread; [None] when it has returned. *)
Definition tstep (c : cbuf_t) (t : thread) : option (cbuf_t * thread) :=
  match t with
  | PutRead d a => Some (c, PutCheck d a (head c) (Z.rem (head c + 1) (maxlen c)))
  | PutCheck d a h hn =>
      Some (c, if hn =? tail c then PutDone (-1) else PutCas d a h hn)
  | PutCas d a h hn =>
      if head c =? h then Some (mkCbuf (buffer c) hn (tail c) (maxlen c), PutTest d hn)
      else Some (c, if a <? maxlen c then PutRead d (a + 1) else PutDone (-1))
  | PutTest d hn => Some (c, if byte_at (buffer c) hn =? 0 then PutWrite d hn else PutDone (-1))
  | PutWrite d hn =>
      Some (mkCbuf (set_at (buffer c) hn d) (head c) (tail c) (maxlen c), PutDone 0)
  | GetRead a => Some (c, GetCheck a (tail c) (Z.rem (tail c + 1) (maxlen c)))
  | GetCheck a t tn => Some (c, if t =? head c then GetDone (-1) None else GetCas a t tn)
  | GetCas a t tn =>
      if tail c =? t then Some (mkCbuf (buffer c) (head c) tn (maxlen c), GetLoad tn)
      else Some (c, if a <? maxlen c then GetRead (a + 1) else GetDone (-1) None)
  | GetLoad tn => Some (c, GetClear tn (byte_at (buffer c) tn))
  | GetClear tn d =>
      Some (mkCbuf (set_at (buffer c) tn 0) (head c) (tail c) (maxlen c), GetDone 0 (Some d))
  | PutDone _ | GetDone _ _ => None
  end.

Definition sys : Type := cbuf_t * list thread.

Inductive sys_step : sys -> sys -> Prop :=
| sys_step_thread i c ts t c' t' :
    ts !! i = Some t -> tstep c t = Some (c', t') ->
    sys_step (c, ts) (c', <[i := t']> ts).

(** A thread that has just entered [cbufPut] or [cbufGet]. *)
Definition is_entry (t : thread) : Prop :=
  match t with PutRead _ a | GetRead a => a = 0 | _ => False end.

(** The buffer index a thread's next step reads or writes. *)
Definition accesses (t : thread) : option Z :=
  match t with
  | PutTest _ i | PutWrite _ i | GetLoad i | GetClear i _ => Some i
  | _ => None
  end.

(** Executable schedules: run the threads in the order given. *)
Fixpoint exec (sched : list nat) (s : sys) : option sys :=
  match sched with
  | [] => Some s
  | i :: sched =>
      match s.2 !! i with
      | Some t => match tstep s.1 t with
                  | Some (c', t') => exec sched (c', <[i := t']> s.2)
                  | None => None
                  end
      | None => None
      end
  end.

Lemma exec_sound sched s s' : exec sched s = Some s' -> rtc sys_step s s'.
Proof.
  revert s. induction sched as [|i sched IH]; intros [c ts] E; simpl in E.
  - injection E as <-. apply rtc_refl.
  - destruct (ts !! i) as [t|] eqn:Et; [|done]. destruct (tstep c t) as [[c' t']|] eqn:Es; [|done].
    eapply rtc_l; [by econstructor|by apply IH].
Qed.

(** The indices a thread holds are cells of the buffer. *)
Definition thread_wf (m : Z) (t : thread) : Prop :=
  match t with
  | PutCheck _ _ _ i | PutCas _ _ _ i | PutTest _ i | PutWrite _ i
  | GetCheck _ _ i | GetCas _ _ i | GetLoad i | GetClear i _ => 0 <= i < m
  | _ => True
  end.

Record sys_wf (s : sys) : Prop := {
  wf_maxlen : 0 < maxlen s.1;
  wf_buf : Z.of_nat (length (buffer s.1)) = maxlen s.1;
  wf_head : 0 <= head s.1 < maxlen s.1;
  wf_tail : 0 <= tail s.1 < maxlen s.1;
  wf_threads : Forall (thread_wf (maxlen s.1)) s.2;
}.

Lemma tstep_wf c ts t c' t' :
  sys_wf (c, ts) -> thread_wf (maxlen c) t -> tstep c t = Some (c', t') ->
  maxlen c' = maxlen c /\ length (buffer c') = length (buffer c) /\
  0 <= head c' < maxlen c /\ 0 <= tail c' < maxlen c /\ thread_wf (maxlen c) t'.
Proof.
  intros [Hm Hb Hh Ht _] Hw E; cbn [fst snd] in *.
  pose proof (Z.rem_bound_pos (head c + 1) (maxlen c)).
  pose proof (Z.rem_bound_pos (tail c + 1) (maxlen c)).
  destruct t; simpl in *; repeat case_match; simplify_eq; simpl;
    autorewrite with appview; repeat split; try done; try lia.
Qed.

Lemma sys_step_wf s s' : sys_step s s' -> sys_wf s -> sys_wf s'.
Proof.
  intros [i c ts t c' t' Hi Hstep] W.
  pose proof (Forall_lookup_1 _ _ _ _ (wf_threads _ W) Hi) as Ht.
  destruct (tstep_wf c ts t c' t' W Ht Hstep) as (Hm & Hb & ? & ? & ?).
  destruct W; split; cbn [fst snd] in *; rewrite ?Hm, ?Hb; try done; try lia.
  by apply Forall_insert.
Qed.

Lemma init_wf size c ts :
  0 <= size < 2 ^ 31 - 2 -> cbufInit true true size = Some c -> Forall is_entry ts -> sys_wf (c, ts).
Proof.
  intros Hs E He. destruct (rep_init _ _ Hs E) as [R M].
  pose proof (rep_maxlen _ _ R). split; cbn [fst snd].
  - lia.
  - apply (rep_buf _ _ R).
  - apply (head_range c [] R).
  - apply (rep_tail _ _ R).
  - eapply Forall_impl; [done|]. by intros [].
Qed.

(** Whatever the number of threads and however their accesses interleave,
    every access to the circular buffer's array stays inside it. *)
Theorem cbuf_accesses_in_bounds (size : Z) (c : cbuf_t) (ts : list thread) (s : sys) (t : thread) (i : Z) :
  0 <= size < 2 ^ 31 - 2 -> cbufInit true true size = Some c -> Forall is_entry ts ->
  rtc sys_step (c, ts) s -> t ∈ s.2 -> accesses t = Some i ->
  0 <= i < Z.of_nat (length (buffer s.1)).
Proof.
  intros Hs Hi He Hr Hin Ha.
  assert (W : sys_wf s).
  { pose proof (init_wf size c ts Hs Hi He) as W. clear Hin Ha.
    induction Hr; eauto using sys_step_wf. }
  rewrite (wf_buf _ W).
  pose proof (proj1 (Forall_forall _ _) (wf_threads _ W) t Hin) as Ht.
  destruct t; simplify_eq/=; done.
Qed.

Lemma cbuf_accesses_in_bounds_witness :
  0 <= 1 < Z.of_nat (length (replicate 3 0)).
Proof.
  apply (cbuf_accesses_in_bounds 2 (mkCbuf (replicate 3 0) 0 0 3) [PutRead 7 0; GetRead 0]
           (mkCbuf (replicate 3 0) 1 0 3, [PutTest 7 1; GetRead 0]) (PutTest 7 1) 1).
  - lia.
  - reflexivity.
  - repeat constructor.
  - apply (exec_sound [0; 0; 0]%nat). reflexivity.
  - left.
  - reflexivity.
Defined.

(** A thread running alone reaches exactly what the sequential function gives. *)
Lemma put_solo c data :
  rtc sys_step (c, [PutRead data 0])
    (let '(rc, c', _) := cbufPut (Some c) data in (default c c', [PutDone rc])).
Proof.
  apply exec_sound with (sched :=
    if Z.rem (head c + 1) (maxlen c) =? tail c then [0; 0]%nat
    else if byte_at (buffer c) (Z.rem (head c + 1) (maxlen c)) =? 0 then [0; 0; 0; 0; 0]%nat
    else [0; 0; 0; 0]%nat).
  unfold cbufPut. cbn [exec tstep lookup list_lookup insert list_insert fst snd buffer head tail maxlen].
  destruct (_ =? tail c) eqn:E1.
  { cbn. by rewrite E1. }
  destruct (byte_at _ _ =? 0) eqn:E2; cbn; rewrite E1; cbn; rewrite Z.eqb_refl; cbn; rewrite E2; done.
Qed.

Lemma get_solo c :
  rtc sys_step (c, [GetRead 0])
    (let '(rc, d, c') := cbufGet (Some c) in (default c c', [GetDone rc d])).
Proof.
  apply exec_sound with (sched := if tail c =? head c then [0; 0]%nat else [0; 0; 0; 0; 0]%nat).
  unfold cbufGet. destruct (tail c =? head c) eqn:E1; cbn; rewrite E1; [done|].
  cbn. by rewrite Z.eqb_refl.
Qed.

(** *** Accounting of the claims

    [P] and [G] count the successful compare-and-swaps on [head] and [tail].  A
    thread's ticket is the count at the moment it read the index.  [gstep] are
    the steps in which a successful swap finds the count its thread read, that
    is the executions without a complete wrap-around between the two. *)

Record gsys := mkGsys { g_buf : cbuf_t; g_put : Z; g_get : Z; g_threads : list (thread * Z) }.

Definition put_claims (c : cbuf_t) (t : thread) : bool :=
  match t with PutCas _ _ h _ => head c =? h | _ => false end.
Definition get_claims (c : cbuf_t) (t : thread) : bool :=
  match t with GetCas _ u _ => tail c =? u | _ => false end.

Definition next_ticket (P G : Z) (t : thread) (k : Z) : Z :=
  match t with PutRead _ _ => P | GetRead _ => G | _ => k end.

Inductive gstep : gsys -> gsys -> Prop :=
| gstep_thread i c P G ts t k c' t' :
    ts !! i = Some (t, k) -> tstep c t = Some (c', t') ->
    (put_claims c t = true -> k = P) -> (get_claims c t = true -> k = G) ->
    gstep (mkGsys c P G ts)
          (mkGsys c' (P + Z.b2z (put_claims c t)) (G + Z.b2z (get_claims c t))
             (<[i := (t', next_ticket P G t k)]> ts)).

Definition ticket_ok (m P G : Z) (tk : thread * Z) : Prop :=
  let (t, k) := tk in
  match t with
  | PutCheck _ _ h hn => k <= P /\ h = k mod m /\ hn = (k + 1) mod m
  | PutCas _ _ h hn => k <= P /\ h = k mod m /\ hn = (k + 1) mod m /\ (k = P -> P + 1 < G + m)
  | GetCheck _ u un => k <= G /\ u = k mod m /\ un = (k + 1) mod m
  | GetCas _ u un => k <= G /\ u = k mod m /\ un = (k + 1) mod m /\ (k = G -> G < P)
  | _ => True
  end.

Record accounted (s : gsys) : Prop := {
  acc_maxlen : 0 < maxlen (g_buf s);
  acc_head : head (g_buf s) = g_put s mod maxlen (g_buf s);
  acc_tail : tail (g_buf s) = g_get s mod maxlen (g_buf s);
  acc_order : g_get s <= g_put s < g_get s + maxlen (g_buf s);
  acc_tickets : Forall (ticket_ok (maxlen (g_buf s)) (g_put s) (g_get s)) (g_threads s);
}.

Lemma ticket_ok_mono m P G P' G' tk :
  P <= P' -> G <= G' -> ticket_ok m P G tk -> ticket_ok m P' G' tk.
Proof. destruct tk as [[] k]; simpl; intros; destruct_and?; repeat split; try done; lia. Qed.

Lemma rem_succ_mod m k : 0 < m -> Z.rem (k mod m + 1) m = (k + 1) mod m.
Proof.
  intros. pose proof (Z.mod_pos_bound k m). rewrite rem_as_mod by lia.
  by rewrite Zplus_mod_idemp_l.
Qed.

Lemma mod_ne_lt m P G : 0 < m -> G <= P < G + m -> (P + 1) mod m <> G mod m -> P + 1 < G + m.
Proof.
  intros Hm HP Hne. destruct (decide (P + 1 = G + m)) as [E|]; [|lia].
  destruct Hne. rewrite E. replace (G + m) with (G + 1 * m) by lia. apply Z_mod_plus_full.
Qed.

Lemma mod_ne_lt' m P G : 0 < m -> G <= P < G + m -> G mod m <> P mod m -> G < P.
Proof. intros Hm HP Hne. destruct (decide (G = P)) as [->|]; [done|lia]. Qed.

Lemma tstep_accounted c P G ts t k c' t' :
  accounted (mkGsys c P G ts) -> ticket_ok (maxlen c) P G (t, k) ->
  tstep c t = Some (c', t') ->
  (put_claims c t = true -> k = P) -> (get_claims c t = true -> k = G) ->
  let P' := P + Z.b2z (put_claims c t) in let G' := G + Z.b2z (get_claims c t) in
  maxlen c' = maxlen c /\ head c' = P' mod maxlen c /\ tail c' = G' mod maxlen c /\
  G' <= P' < G' + maxlen c /\ ticket_ok (maxlen c) P' G' (t', next_ticket P G t k).
Proof.
  intros [Hm Hh Ht Ho _] Hk E HP HG; cbn [g_buf g_put g_get] in *.
  destruct t; cbn in HP, HG, E, Hk |- *; try discriminate; rewrite ?Z.add_0_r;
    try (injection E as <- <-).
  - cbn. rewrite Hh, rem_succ_mod by done. repeat split; done || lia.
  - destruct (Z.eqb_spec head_next (tail c)); cbn; repeat split; try done; try lia.
    intros ->. apply mod_ne_lt; [done|lia|]. rewrite <- Ht. destruct Hk as (_ & _ & <-). done.
  - destruct (head c =? head0) eqn:Hc; injection E as <- <-; cbn.
    + specialize (HP eq_refl) as ->. destruct Hk as (_ & _ & -> & Hlt). specialize (Hlt eq_refl).
      rewrite ?Z.add_0_r. repeat split; done || lia.
    + rewrite ?Z.add_0_r. destruct (attempts <? maxlen c); cbn; repeat split; done || lia.
  - destruct (_ =? 0); cbn; repeat split; done || lia.
  - cbn; repeat split; done || lia.
  - cbn. rewrite Ht, rem_succ_mod by done. repeat split; done || lia.
  - destruct (Z.eqb_spec tail0 (head c)); cbn; repeat split; try done; try lia.
    intros ->. apply (mod_ne_lt' (maxlen c)); [done|lia|]. destruct Hk as (_ & <- & _). congruence.
  - destruct (tail c =? tail0) eqn:Hc; injection E as <- <-; cbn.
    + specialize (HG eq_refl) as ->. destruct Hk as (_ & _ & -> & Hlt). specialize (Hlt eq_refl).
      rewrite ?Z.add_0_r. repeat split; done || lia.
    + rewrite ?Z.add_0_r. destruct (attempts <? maxlen c); cbn; repeat split; done || lia.
  - cbn; repeat split; done || lia.
  - cbn; repeat split; done || lia.
Qed.

Lemma gstep_accounted s s' : gstep s s' -> accounted s -> accounted s'.
Proof.
  intros [i c P G ts t k c' t' Hi Hs HP HG] A.
  pose proof (Forall_lookup_1 _ _ _ _ (acc_tickets _ A) Hi) as Hk.
  destruct (tstep_accounted c P G ts t k c' t' A Hk Hs HP HG) as (Hm & ? & ? & ? & ?).
  destruct A; split; cbn [g_buf g_put g_get g_threads] in *; rewrite ?Hm; try done.
  apply Forall_insert; [|done]. eapply Forall_impl; [done|].
  intros tk. apply ticket_ok_mono; destruct (put_claims c t), (get_claims c t); simpl; lia.
Qed.

Lemma tstep_maxlen c t c' t' : tstep c t = Some (c', t') -> maxlen c' = maxlen c.
Proof. intros E. destruct t; simpl in E; repeat case_match; simplify_eq; done. Qed.

Lemma gsteps_accounted s s' :
  rtc gstep s s' -> accounted s -> accounted s' /\ maxlen (g_buf s') = maxlen (g_buf s).
Proof.
  induction 1 as [|s s1 s2 Hs _ IH]; intros A; [done|].
  destruct (IH (gstep_accounted _ _ Hs A)) as [? ->]. split; [done|].
  destruct Hs; cbn. by eapply tstep_maxlen.
Qed.

(** C25: in every interleaving in which no thread sleeps through a complete
    wrap-around of the index it read, the slots claimed by puts and not yet by
    gets never exceed the capacity, gets never overtake puts, and [head] and
    [tail] are the two counts modulo the length of the array. *)
Theorem cbuf_claims_accounted (size : Z) (c : cbuf_t) (ts : list thread) (s : gsys) :
  0 <= size < 2 ^ 31 - 2 -> cbufInit true true size = Some c -> Forall is_entry ts ->
  rtc gstep (mkGsys c 0 0 ((fun t => (t, 0)) <$> ts)) s ->
  0 <= g_put s - g_get s <= size /\
  head (g_buf s) = g_put s mod (size + 1) /\ tail (g_buf s) = g_get s mod (size + 1).
Proof.
  intros Hs Hi He Hr. destruct (rep_init _ _ Hs Hi) as [R M].
  assert (A0 : accounted (mkGsys c 0 0 ((fun t => (t, 0)) <$> ts))).
  { split; cbn [g_buf g_put g_get g_threads]; rewrite ?M; try lia.
    - rewrite (rep_head _ _ R). injection Hi as <-. cbn. by rewrite i32_small by lia.
    - injection Hi as <-. cbn. by rewrite Z.mod_0_l by lia.
    - apply Forall_fmap. eapply Forall_impl; [done|]. by intros []. }
  destruct (gsteps_accounted _ _ Hr A0) as [A E]. cbn [g_buf] in E. rewrite M in E.
  destruct A. rewrite E in *. repeat split; try done; lia.
Qed.


Lemma cbuf_claims_accounted_witness :
  0 <= 1 - 0 <= 4 /\ 1 = 1 mod (4 + 1) /\ 0 = 0 mod (4 + 1).
Proof.
  pose (b := mkCbuf (replicate 5 0)).
  apply (cbuf_claims_accounted 4 (b 0 0 5) [PutRead 7 0; GetRead 0]
           (mkGsys (b 1 0 5) 1 0 [(PutTest 7 1, 0); (GetRead 0, 0)])).
  - lia.
  - reflexivity.
  - repeat constructor.
  - eapply rtc_l; [by apply (gstep_thread 0 (b 0 0 5) 0 0 _ (PutRead 7 0) 0)|].
    eapply rtc_l; [by apply (gstep_thread 0 (b 0 0 5) 0 0 _ (PutCheck 7 0 0 1) 0)|].
    eapply rtc_l; [by apply (gstep_thread 0 (b 0 0 5) 0 0 _ (PutCas 7 0 0 1) 0)|].
    apply rtc_refl.
Defined.

(** The claim of a slot and the write of its data are two separate accesses,
    so a get may read a slot between them: there is an interleaving of one put
    and one get in which both return 0, the get delivers the empty marker 0, and
    the posted event is left behind in a buffer that is empty for every later
    get. *)
Theorem cbuf_get_overtakes_put :
  exists c s, cbufInit true true 4 = Some c /\
    rtc sys_step (c, [PutRead 7 0; GetRead 0]) s /\
    s.2 = [PutDone 0; GetDone 0 (Some 0)] /\
    7 ∈ buffer s.1 /\ cbufEmpty (Some s.1) = true.
Proof.
  exists (mkCbuf [0; 0; 0; 0; 0] 0 0 5),
         (mkCbuf [0; 7; 0; 0; 0] 1 1 5, [PutDone 0; GetDone 0 (Some 0)]).
  split; [vm_compute; reflexivity|]. split.
  { apply (exec_sound [0; 0; 0; 1; 1; 1; 1; 1; 0; 0]%nat). vm_compute. reflexivity. }
  split; [reflexivity|]. split; [|reflexivity].
  apply (list_elem_of_lookup_2 _ 1). reflexivity.
Qed.

(** An index read by a stalled put may come round to the same value: with a
    capacity of one there is an interleaving of three puts and one get in which
    all four calls return 0, yet the buffer is empty afterwards. *)
Theorem cbuf_wraparound_loses_entries :
  exists c s, cbufInit true true 1 = Some c /\
    rtc sys_step (c, [PutRead 1 0; PutRead 2 0; PutRead 3 0; GetRead 0]) s /\
    s.2 = [PutDone 0; PutDone 0; PutDone 0; GetDone 0 (Some 2)] /\
    cbufEmpty (Some s.1) = true /\ fst (fst (cbufGet (Some s.1))) = -1.
Proof.
  exists (mkCbuf [0; 0] 0 0 2),
         (mkCbuf [3; 1] 1 1 2, [PutDone 0; PutDone 0; PutDone 0; GetDone 0 (Some 2)]).
  split; [vm_compute; reflexivity|]. split.
  { apply (exec_sound [0; 0; 1; 1; 1; 1; 1; 3; 3; 3; 3; 3; 2; 2; 2; 2; 2; 0; 0; 0]%nat).
    vm_compute. reflexivity. }
  repeat split.
Qed.

End CircBuf.
