(* ===== verification/StrSet.v ===== *)
(** * String set (src/strset.c)

    The growable array of distinct strings the metric formatter uses to emit a
    field name only once. *)

From S2P Require Import Prelude.

Module StrSet.

(** [str] is the allocated array; a cell that was never written is [None]. *)
Record strset_t := mkSet {
  str : list (option string);
  count : Z;      (* unsigned int *)
  capacity : Z;   (* unsigned int *)
}.

Definition DEFAULT_SET_SIZE : Z := 64.

Definition strSetCreate (ok1 ok2 : bool) (initialCapacity : Z) : option strset_t :=
  if ok1 && ok2
  then Some (mkSet (replicate (Z.to_nat initialCapacity) None) 0 initialCapacity)
  else None.

Definition strSetDestroy (set : option strset_t) : option strset_t := None.

Definition cell_is (s : string) (c : option string) : bool :=
  match c with Some s' => bool_decide (s' = s) | None => false end.

Definition strSetContains (set : option strset_t) (s : option string) : bool :=
  match set, s with
  | Some set, Some s => existsb (cell_is s) (take (Z.to_nat (count set)) (str set))
  | _, _ => false
  end.

(** [realloc_ok]: outcome of the [appview_realloc] of the growing branch. *)
Definition strSetAdd (realloc_ok : bool) (set : option strset_t) (s : option string)
  : bool * option strset_t :=
  match set, s with
  | Some st, Some x =>
      if strSetContains set s then (false, set) else
      let grown :=
        if capacity st <=? count st then
          let new_capacity := if capacity st =? 0 then 2 else u32 (capacity st * 4) in
          if realloc_ok
          then Some (mkSet (resize (Z.to_nat new_capacity) None (str st)) (count st) new_capacity)
          else None
        else Some st in
      match grown with
      | None => (false, set)
      | Some st =>
          (true, Some (mkSet (set_at (str st) (count st) (Some x)) (u32 (count st + 1)) (capacity st)))
      end
  | _, _ => (false, set)
  end.

Definition strSetEntryCount (set : option strset_t) : Z :=
  match set with Some st => count st | None => 0 end.

(** ** Representation: the set holds the entries [es], in order of insertion *)

Record holds (st : strset_t) (es : list string) : Prop := {
  holds_count : count st = Z.of_nat (length es);
  holds_cap : Z.of_nat (length (str st)) = capacity st;
  holds_fit : count st <= capacity st;
  holds_cells : take (length es) (str st) = Some <$> es;
  holds_nodup : NoDup es;
}.

Lemma contains_iff st es x :
  holds st es -> strSetContains (Some st) (Some x) = true <-> x ∈ es.
Proof.
  intros H. unfold strSetContains. rewrite (holds_count _ _ H), Nat2Z.id, (holds_cells _ _ H).
  rewrite existsb_exists, list_elem_of_In. split.
  - intros ([y|] & (z & Hz & Hin)%list_elem_of_In%list_elem_of_fmap & E); simpl in *; [|done].
    simplify_eq. apply bool_decide_eq_true in E as ->. by apply list_elem_of_In.
  - intros Hin. exists (Some x). split; [|simpl; by apply bool_decide_eq_true].
    apply list_elem_of_In, list_elem_of_fmap. exists x. split; [done|by apply list_elem_of_In].
Qed.

Lemma contains_false st es x :
  holds st es -> x ∉ es -> strSetContains (Some st) (Some x) = false.
Proof.
  intros H Hn. destruct (strSetContains (Some st) (Some x)) eqn:E; [|done].
  by apply (contains_iff _ _ _ H) in E.
Qed.

Lemma set_create_holds cap :
  0 <= cap -> exists st, strSetCreate true true cap = Some st /\ holds st [].
Proof.
  intros. eexists; split; [reflexivity|]. split; simpl; rewrite ?length_replicate; try lia.
  - done.
  - constructor.
Qed.

Lemma add_dup ok st es x :
  holds st es -> x ∈ es -> strSetAdd ok (Some st) (Some x) = (false, Some st).
Proof.
  intros H Hin. unfold strSetAdd. by rewrite (proj2 (contains_iff _ _ _ H) Hin).
Qed.

Lemma add_cell_holds st es x :
  holds st es -> x ∉ es -> count st < capacity st -> count st < 2 ^ 32 - 1 ->
  holds (mkSet (set_at (str st) (count st) (Some x)) (u32 (count st + 1)) (capacity st)) (es ++ [x]).
Proof.
  intros H Hn Hlt Hb. destruct H as [Hc Hl Hf Hcells Hnd].
  split; simpl; autorewrite with appview; rewrite ?length_app; simpl.
  - rewrite ?u32_small by lia; lia.
  - done.
  - rewrite ?u32_small by lia; lia.
  - unfold set_at. rewrite Hc, Nat2Z.id, Nat.add_1_r.
    rewrite (take_S_r _ _ (Some x)) by (apply list_lookup_insert_eq; lia).
    rewrite take_insert_ge, Hcells by lia. by rewrite fmap_app.
  - apply NoDup_app. split; [done|]. split; [set_solver|apply NoDup_singleton].
Qed.

Lemma add_new st es x :
  holds st es -> x ∉ es -> count st < 2 ^ 30 ->
  exists st', strSetAdd true (Some st) (Some x) = (true, Some st') /\ holds st' (es ++ [x]).
Proof.
  intros H Hn Hb. unfold strSetAdd. rewrite (contains_false _ _ _ H Hn).
  destruct (Z.leb_spec (capacity st) (count st)).
  - pose proof (holds_fit _ _ H). pose proof (holds_count _ _ H).
    set (nc := if capacity st =? 0 then 2 else u32 (capacity st * 4)).
    assert (capacity st < nc < 2 ^ 32).
    { subst nc. destruct (Z.eqb_spec (capacity st) 0); rewrite ?u32_small; lia. }
    eexists; split; [reflexivity|]. cbn [str count capacity].
    apply (add_cell_holds (mkSet (resize (Z.to_nat nc) None (str st)) (count st) nc));
      cbn [str count capacity]; try done; try lia.
    pose proof (holds_cap _ _ H).
    split; cbn [str count capacity]; try apply H; rewrite ?length_resize; try lia.
    rewrite resize_ge by lia. rewrite take_app_le by lia. apply (holds_cells _ _ H).
  - eexists; split; [reflexivity|]. apply add_cell_holds; try done; lia.
Qed.

Lemma add_nomem st es x :
  holds st es -> x ∉ es -> capacity st <= count st ->
  strSetAdd false (Some st) (Some x) = (false, Some st).
Proof.
  intros H Hn Hf. unfold strSetAdd. rewrite (contains_false _ _ _ H Hn).
  by destruct (Z.leb_spec (capacity st) (count st)); [|lia].
Qed.

(** ** A sequence of additions *)

Fixpoint add_all (xs : list string) (set : option strset_t) : list bool * option strset_t :=
  match xs with
  | [] => ([], set)
  | x :: xs => let (b, set) := strSetAdd true set (Some x) in
               let (bs, set) := add_all xs set in (b :: bs, set)
  end.

(** The entries after adding [xs] to [es]: each new string once, at its first
    occurrence. *)
Fixpoint dedup_onto (es xs : list string) : list string :=
  match xs with
  | [] => es
  | x :: xs => if decide (x ∈ es) then dedup_onto es xs else dedup_onto (es ++ [x]) xs
  end.

Fixpoint firsts (es xs : list string) : list bool :=
  match xs with
  | [] => []
  | x :: xs => if decide (x ∈ es) then false :: firsts es xs else true :: firsts (es ++ [x]) xs
  end.

(** A set created with any capacity keeps, over every sequence of additions
    (allocations succeeding), exactly the distinct strings in order of first
    occurrence, never overruns its array, and answers TRUE exactly for the
    strings that were new. *)
Theorem strset_dedups (cap : Z) (xs : list string) :
  0 <= cap -> Z.of_nat (length xs) < 2 ^ 30 ->
  exists st, add_all xs (strSetCreate true true cap) = (firsts [] xs, Some st)
    /\ holds st (dedup_onto [] xs).
Proof.
  intros Hc Hl. destruct (set_create_holds cap Hc) as (st & -> & H).
  assert (Hlen : Z.of_nat (length (@nil string) + length xs) < 2 ^ 30) by done.
  revert st H Hlen. clear Hl. generalize (@nil string) as es.
  induction xs as [|x xs IH]; intros es st H Hl; cbn [length add_all firsts dedup_onto] in *.
  { eauto. }
  case_decide.
  - rewrite (add_dup true st es x H) by done.
    destruct (IH es st H ltac:(lia)) as (st' & -> & ?). eauto.
  - destruct (add_new st es x H) as (st1 & -> & H1); [done|rewrite (holds_count _ _ H); lia|].
    destruct (IH _ st1 H1) as (st' & -> & ?); [rewrite length_app; simpl; lia|]. eauto.
Qed.

Lemma strset_dedups_witness :
  exists st, add_all ["a"; "b"; "a"]%string (strSetCreate true true 0) = ([true; true; false], Some st)
    /\ holds st ["a"; "b"]%string.
Proof. apply (strset_dedups 0 ["a"; "b"; "a"]%string); simpl; lia. Defined.

End StrSet.
