(* ===== verification/Types.v ===== *)
(** * Shared types and constants (src/appviewtypes.h, src/mtcformat.h)

    C enumerations are integers, so that the range checks of the setters mean
    what they mean in C; the metric event and its fields are records. *)

From S2P Require Import Prelude.

(** ** Enumerations (appviewtypes.h) *)

Definition CFG_FMT_STATSD : Z := 0.
Definition CFG_FMT_NDJSON : Z := 1.
Definition CFG_FORMAT_MAX : Z := 2.      (* APPVIEW_PROM_SUPPORT is 0 *)

Definition CFG_UDP : Z := 0.
Definition CFG_UNIX : Z := 1.
Definition CFG_FILE : Z := 2.
Definition CFG_TCP : Z := 3.
Definition CFG_EDGE : Z := 4.

Definition CFG_MTC : Z := 0.
Definition CFG_CTL : Z := 1.
Definition CFG_LOG : Z := 2.
Definition CFG_LS : Z := 3.
Definition CFG_WHICH_MAX : Z := 4.

Definition CFG_LOG_WARN : Z := 3.
Definition CFG_LOG_NONE : Z := 5.

Definition CFG_BUFFER_FULLY : Z := 0.
Definition CFG_BUFFER_LINE : Z := 1.

Definition CFG_SRC_FILE : Z := 0.
Definition CFG_SRC_METRIC : Z := 3.
Definition CFG_SRC_MAX : Z := 9.

Definition CFG_MTC_FS : Z := 0.
Definition CFG_MTC_NET : Z := 1.
Definition CFG_MTC_HTTP : Z := 2.
Definition CFG_MTC_DNS : Z := 3.
Definition CFG_MTC_PROC : Z := 4.
Definition CFG_MTC_STATSD : Z := 5.

Definition CFG_MAX_VERBOSITY : Z := 9.
Definition DEFAULT_STATSD_MAX_LEN : Z := 512.
Definition DEFAULT_STATSD_PREFIX : string := "".
Definition DEFAULT_MTC_VERBOSITY : Z := 4.
Definition DEFAULT_CBUF_SIZE : Z := 10000 * 10.

(** ** Metric events (mtcformat.h) *)

Record custom_tag_t := mkTag { tag_name : string; tag_value : string }.

(** [field_value_t] with its union.  A field array ends at [FMT_END], so the
    list of its fields has no such constructor; [FMT_OTHER] is a value outside
    the enumeration, which the code's [default] branches handle. *)
Inductive field_value :=
| FMT_STR (str : option string)
| FMT_NUM (num : Z)
| FMT_OTHER.

Record event_field_t := mkField {
  f_name : string;
  f_value : field_value;
  f_event_usage : bool;
  f_cardinality : Z;     (* unsigned *)
}.

Definition STRFIELD (n : string) (v : option string) (c : Z) (e : bool) : event_field_t :=
  mkField n (FMT_STR v) e c.
Definition NUMFIELD (n : string) (v : Z) (c : Z) (e : bool) : event_field_t :=
  mkField n (FMT_NUM v) e c.

Inductive data_type_t := DELTA | CURRENT | DELTA_MS | HISTOGRAM | SET | DATA_TYPE_OTHER.

(** A C [double]: a finite value is [(-1)^neg * m * 2^e] with [0 <= m]. *)
Inductive double :=
| DFin (neg : bool) (m e : Z)
| DInf (neg : bool)
| DNan (neg : bool).

Inductive value :=
| FMT_INT (integer : Z)
| FMT_FLT (floating : double)
| FMT_VALUE_OTHER.

Record event_t := mkEvent {
  e_name : string;
  e_value : value;
  e_type : data_type_t;
  e_fields : option (list event_field_t);
  e_src : Z;
  e_capturedFields : option (list event_field_t);
}.

Definition INT_EVENT (n : string) (v : Z) (t : data_type_t) (f : list event_field_t) : event_t :=
  mkEvent n (FMT_INT v) t (Some f) CFG_SRC_METRIC None.

(** ** HTTP records (state_private.h) *)

Record httpId_t := mkHttpId {
  hid_uid : Z;       (* uint64_t: unique id of the socket *)
  hid_sockfd : Z;    (* int *)
  hid_isSsl : bool;
  hid_src : Z;       (* metric_t *)
}.

Record http_map := mkHttpMap {
  first_time : Z;
  start_time : Z;
  hm_id : httpId_t;
  req : list Z;      (* the whole original request *)
  req_len : Z;
}.
