(* ===== verification/MtcFormat.v ===== *)
(** * Metric formatting (src/mtcformat.c)

    The statsd formatter, the setters of its configuration, and the URL
    percent-encoding helpers.  The Prometheus formatter is compiled out
    (APPVIEW_PROM_SUPPORT is 0). *)

From S2P Require Import Prelude Types StrSet.

Module MtcFormat.
Import StrSet.

#[local] Open Scope string_scope.
#[local] Open Scope Z_scope.

(** ** printf of the standard library *)

(** [%lli] *)
Definition fmt_lli (z : Z) : string := pretty z.

(** Round [a / b] ([0 <= a], [0 < b]) to the nearest integer, ties to even. *)
Definition round_half_even (a b : Z) : Z :=
  let q := a / b in
  let r := a mod b in
  if 2 * r <? b then q
  else if b <? 2 * r then q + 1
  else if Z.even q then q else q + 1.

Definition two_digits (z : Z) : string := if z <? 10 then "0" +:+ pretty z else pretty z.

(** [%.2f] *)
Definition fmt_f2 (d : double) : string :=
  let sign (neg : bool) := if neg then "-" else "" in
  match d with
  | DInf neg => sign neg +:+ "inf"
  | DNan neg => sign neg +:+ "nan"
  | DFin neg m e =>
      let h := if 0 <=? e then 100 * m * 2 ^ e else round_half_even (100 * m) (2 ^ (- e)) in
      sign neg +:+ pretty (h / 100) +:+ "." +:+ two_digits (h mod 100)
  end.

(** [snprintf(buf, size, "%s", s)]: the length the whole text needs, and what
    the buffer then holds. *)
Definition snprintf (size : Z) (s : string) : Z * string :=
  (Z.of_nat (String.length s), String.substring 0 (Z.to_nat (size - 1)) s).

(** The newline character as a string. *)
Definition LF : string := String (Ascii.ascii_of_nat 10) "".

Definition slen (s : string) : Z := Z.of_nat (String.length s).

(** ** The formatter object *)

Record mtc_fmt_t := mkFmt {
  format : Z;
  prefix : option string;
  max_len : Z;                       (* unsigned *)
  verbosity : Z;                     (* unsigned *)
  tags : option (list custom_tag_t); (* NULL-terminated array *)
}.

(** The enumeration is unsigned, so a negative format is rejected too. *)
Definition mtcFormatCreate (calloc_ok strdup_ok : bool) (fmt : Z) : option mtc_fmt_t :=
  if CFG_FORMAT_MAX <=? u32 fmt then None else
  if negb calloc_ok then None else
  Some (mkFmt fmt (if strdup_ok then Some DEFAULT_STATSD_PREFIX else None)
          DEFAULT_STATSD_MAX_LEN DEFAULT_MTC_VERBOSITY None).

Definition mtcFormatDestroyTags (t : option (list custom_tag_t)) : option (list custom_tag_t) := None.

Definition mtcFormatDestroy (fmt : option mtc_fmt_t) : option mtc_fmt_t := None.

Definition statsdType (x : data_type_t) : string :=
  match x with
  | DELTA => "c"
  | CURRENT => "g"
  | DELTA_MS => "ms"
  | HISTOGRAM => "h"
  | SET => "s"
  | DATA_TYPE_OTHER => ""
  end.

(** Returns the size (or -1) and the text left in [tag]. *)
Definition createStatsFieldString (f : event_field_t) (sizeoftag : Z) : Z * string :=
  if sizeoftag <=? 0 then (-1, "") else
  match f_value f with
  | FMT_NUM n => snprintf sizeoftag (f_name f +:+ ":" +:+ fmt_lli n)
  | FMT_STR None => (-1, "")
  | FMT_STR (Some v) => snprintf sizeoftag (f_name f +:+ ":" +:+ v)
  | FMT_OTHER => (-1, "")
  end.

(** What the formatter threads through its helpers: [out] is the text from the
    start of the buffer to [*end], then [*bytes] and the set of names. *)
Record wr := mkWr { out : string; bytes : Z; added : option strset_t }.

Definition appendStatsdFieldString (fmt : mtc_fmt_t) (tag : string) (sz : Z) (w : wr) : wr :=
  if strSetEntryCount (added w) =? 1 then
    let sz := sz + 2 in
    if max_len fmt <=? u32 (bytes w + sz) then w
    else mkWr (out w +:+ "|#" +:+ tag) (bytes w + sz) (added w)
  else
    let sz := sz + 1 in
    if max_len fmt <=? u32 (bytes w + sz) then w
    else mkWr (out w +:+ "," +:+ tag) (bytes w + sz) (added w).

Section Alloc.
(** [grow n]: does the reallocation of a name set of [n] entries succeed? *)
Variable grow : Z -> bool.

(** [strSetAdd(addedFields, name)] on the threaded state. *)
Definition add_name (n : string) (w : wr) : bool * wr :=
  let (b, s) := strSetAdd (grow (strSetEntryCount (added w))) (added w) (Some n) in
  (b, mkWr (out w) (bytes w) s).

(** The body of the loop of [addStatsdFields].  [filter n]: does the compiled
    field filter match [n]? ([regexec_wrapper] returns nonzero when it does not.) *)
Definition addStatsdField (fmt : mtc_fmt_t) (filter : option (string -> bool))
    (w : wr) (f : event_field_t) : wr :=
  let skip := match filter with Some m => negb (m (f_name f)) | None => false end in
  if skip then w else
  if verbosity fmt <? f_cardinality f then w else
  let (fresh, w) := add_name (f_name f) w in
  if negb fresh then w else
  let (sz, tag) := createStatsFieldString f (max_len fmt + 1) in
  if sz <? 0 then w else appendStatsdFieldString fmt tag sz w.

Definition addStatsdFields (fmt : mtc_fmt_t) (fields : option (list event_field_t))
    (filter : option (string -> bool)) (w : wr) : wr :=
  match fields with
  | None => w
  | Some fs => foldl (addStatsdField fmt filter) w fs
  end.

Definition addStatsdCustomField (fmt : mtc_fmt_t) (w : wr) (t : custom_tag_t) : wr :=
  let (fresh, w) := add_name (tag_name t) w in
  if negb fresh then w else
  let (sz, tag) := snprintf (max_len fmt + 1) (tag_name t +:+ ":" +:+ tag_value t) in
  appendStatsdFieldString fmt tag sz w.

Definition addStatsdCustomFields (fmt : mtc_fmt_t) (tags : option (list custom_tag_t)) (w : wr) : wr :=
  match tags with
  | None => w
  | Some ts => foldl (addStatsdCustomField fmt) w ts
  end.

(** The text of the value, [None] when the value has no known type. *)
Definition statsdValue (v : value) : option string :=
  match v with
  | FMT_INT i => Some (":" +:+ fmt_lli i +:+ "|")
  | FMT_FLT d => Some (":" +:+ fmt_f2 d +:+ "|")
  | FMT_VALUE_OTHER => None
  end.

(** [calloc_ok], [set_ok], [str_ok]: outcomes of the buffer's and the name set's
    two allocations.  A NULL prefix is dereferenced by [strlen]. *)
Definition mtcFormatStatsDString (calloc_ok set_ok str_ok : bool) (fmt : option mtc_fmt_t)
    (e : option event_t) (filter : option (string -> bool)) : ub (option string) :=
  match fmt, e with
  | Some fmt, Some e =>
      if negb calloc_ok then Def None else
      match prefix fmt with
      | None => UB
      | Some pre =>
          match statsdValue (e_value e) with
          | None => Def None
          | Some valuebuf =>
              let type := statsdType (e_type e) in
              let bytes := slen pre + slen (e_name e) + slen valuebuf + slen type in
              if max_len fmt <=? u32 bytes then Def None else
              let text := pre +:+ e_name e +:+ valuebuf +:+ type in
              let w := mkWr text bytes (strSetCreate set_ok str_ok DEFAULT_SET_SIZE) in
              let w := match added w with
                       | None => w
                       | Some _ =>
                           let w := addStatsdFields fmt (e_capturedFields e) None w in
                           let w := addStatsdCustomFields fmt (tags fmt) w in
                           addStatsdFields fmt (e_fields e) filter w
                       end in
              Def (Some (out w +:+ LF))
          end
      end
  | _, _ => Def None
  end.

End Alloc.

(** ** Accessors and setters *)

Definition mtcFormatStatsDPrefix (fmt : option mtc_fmt_t) : string :=
  match fmt with
  | Some f => match prefix f with Some p => p | None => DEFAULT_STATSD_PREFIX end
  | None => DEFAULT_STATSD_PREFIX
  end.
Definition mtcFormatStatsDMaxLen (fmt : option mtc_fmt_t) : Z :=
  match fmt with Some f => max_len f | None => DEFAULT_STATSD_MAX_LEN end.
Definition mtcFormatVerbosity (fmt : option mtc_fmt_t) : Z :=
  match fmt with Some f => verbosity f | None => DEFAULT_MTC_VERBOSITY end.
Definition mtcFormatCustomTags (fmt : option mtc_fmt_t) : option (list custom_tag_t) :=
  match fmt with Some f => tags f | None => None end.

Definition mtcFormatStatsDPrefixSet (strdup_ok : bool) (fmt : option mtc_fmt_t)
    (p : option string) : option mtc_fmt_t :=
  match fmt with
  | None => None
  | Some f => Some (mkFmt (format f) (if strdup_ok then p else None) (max_len f) (verbosity f) (tags f))
  end.
Definition mtcFormatStatsDMaxLenSet (fmt : option mtc_fmt_t) (v : Z) : option mtc_fmt_t :=
  match fmt with
  | None => None
  | Some f => Some (mkFmt (format f) (prefix f) v (verbosity f) (tags f))
  end.
Definition mtcFormatVerbositySet (fmt : option mtc_fmt_t) (v : Z) : option mtc_fmt_t :=
  match fmt with
  | None => None
  | Some f =>
      let v := if CFG_MAX_VERBOSITY <? v then CFG_MAX_VERBOSITY else v in
      Some (mkFmt (format f) (prefix f) (max_len f) v (tags f))
  end.

(** [array_ok]: the allocation of the new array; [tag_ok i]: the three
    allocations of the copy of the [i]-th tag.  A tag that cannot be copied is
    left out. *)
Definition mtcFormatCustomTagsSet (array_ok : bool) (tag_ok : nat -> bool)
    (fmt : option mtc_fmt_t) (ts : option (list custom_tag_t)) : option mtc_fmt_t :=
  match fmt with
  | None => None
  | Some f =>
      let set t := Some (mkFmt (format f) (prefix f) (max_len f) (verbosity f) t) in
      let cleared := mtcFormatDestroyTags (tags f) in
      match ts with
      | None | Some [] => set cleared
      | Some ts =>
          if negb array_ok then set None
          else set (Some (omap (fun it => if tag_ok it.1 then Some it.2 else None) (imap pair ts)))
      end
  end.


(** ** Reference formatter

    A candidate is a field name with its text ([None]: nothing to print).  The
    reference goes once over the candidates in order of precedence. *)

Definition field_text (f : event_field_t) : option string :=
  match f_value f with
  | FMT_NUM n => Some (f_name f +:+ ":" +:+ fmt_lli n)
  | FMT_STR v => (fun v => f_name f +:+ ":" +:+ v) <$> v
  | FMT_OTHER => None
  end.

Definition cand : Type := string * option string.

Definition field_cand (fmt : mtc_fmt_t) (filter : option (string -> bool)) (f : event_field_t)
  : option cand :=
  if match filter with Some m => negb (m (f_name f)) | None => false end then None else
  if verbosity fmt <? f_cardinality f then None else Some (f_name f, field_text f).

Definition tag_cand (t : custom_tag_t) : cand :=
  (tag_name t, Some (tag_name t +:+ ":" +:+ tag_value t)).

Definition event_cands (fmt : mtc_fmt_t) (e : event_t) (filter : option (string -> bool)) : list cand :=
  omap (field_cand fmt None) (default [] (e_capturedFields e))
  ++ (tag_cand <$> default [] (tags fmt))
  ++ omap (field_cand fmt filter) (default [] (e_fields e)).

Definition separator (seen : list string) : string :=
  match seen with [] => "|#" | _ => "," end.

(** [seen]: the names met so far; [text]: the output so far. *)
Definition spec_step (max : Z) (st : list string * string) (c : cand) : list string * string :=
  let (seen, text) := st in
  if decide (c.1 ∈ seen) then st else
  let seen' := (seen ++ [c.1])%list in
  match c.2 with
  | None => (seen', text)
  | Some t =>
      if slen text + slen (separator seen) + slen t <? max
      then (seen', text +:+ separator seen +:+ t) else (seen', text)
  end.

Definition statsd_head (pre : string) (e : event_t) (valuebuf : string) : string :=
  pre +:+ e_name e +:+ valuebuf +:+ statsdType (e_type e).

Definition spec_statsd (fmt : mtc_fmt_t) (pre : string) (e : event_t)
    (filter : option (string -> bool)) (valuebuf : string) : string :=
  (foldl (spec_step (max_len fmt)) ([], statsd_head pre e valuebuf) (event_cands fmt e filter)).2.

(** ** Proofs *)

Lemma slen_app a b : slen (a +:+ b) = slen a + slen b.
Proof. unfold slen. induction a as [|c a IH]; simpl in *; [done|]. cbn in IH. lia. Qed.

Lemma slen_nonneg a : 0 <= slen a.
Proof. unfold slen. lia. Qed.

Lemma substring_all s n : (String.length s <= n)%nat -> String.substring 0 n s = s.
Proof.
  revert n. induction s as [|c s IH]; intros [|n] H; simpl in *; try done; try lia.
  f_equal. apply IH. lia.
Qed.

#[local] Hint Rewrite slen_app : appview.
#[local] Hint Resolve slen_nonneg : appview.

Section Refinement.
Variable fmt : mtc_fmt_t.
Hypothesis Hmax : 0 <= max_len fmt < 2 ^ 31.

Let grow : Z -> bool := fun _ => true.

(** The writer state stands for the reference's [(seen, text)]. *)
Record stands (w : wr) (seen : list string) (text : string) : Prop := {
  st_out : out w = text;
  st_bytes : bytes w = slen text;
  st_fits : slen text < max_len fmt;
  st_added : exists st, added w = Some st /\ holds st seen;
}.

Definition small (c : cand) : Prop := forall t, c.2 = Some t -> slen t < 2 ^ 30.

Lemma append_spec w seen n text t :
  stands w (seen ++ [n]) text -> slen t < 2 ^ 30 ->
  let tag := String.substring 0 (Z.to_nat (max_len fmt + 1 - 1)) t in
  let w' := appendStatsdFieldString fmt tag (slen t) w in
  stands w' (seen ++ [n])
    (if slen text + slen (separator seen) + slen t <? max_len fmt
     then text +:+ separator seen +:+ t else text).
Proof.
  intros S Ht. cbn zeta. destruct S as [Ho Hb Hf (st & Ha & Hh)].
  pose proof (slen_nonneg t). pose proof (slen_nonneg text).
  assert (Hsep : (strSetEntryCount (added w) =? 1) = match seen with [] => true | _ => false end).
  { rewrite Ha. cbn [strSetEntryCount]. rewrite (holds_count _ _ Hh), length_app.
    destruct seen; [done|]. apply Z.eqb_neq. simpl length. lia. }
  unfold appendStatsdFieldString. rewrite Hsep, Hb.
  assert (Hsub : slen t < max_len fmt -> String.substring 0 (Z.to_nat (max_len fmt + 1 - 1)) t = t).
  { intros. apply substring_all. unfold slen in *. lia. }
  destruct seen as [|s0 seen]; cbn [separator];
    [change (slen "|#") with 2|change (slen ",") with 1];
    rewrite u32_small by lia;
    case_match eqn:E1; case_match eqn:E2; try lia;
    (split; cbn [out bytes added]; [| | |eauto]);
    rewrite ?Hsub, ?Ho, ?slen_app by lia; try done; try lia;
    (change (slen "|#") with 2 || change (slen ",") with 1); lia.
Qed.

Lemma add_name_dup w seen text n :
  stands w seen text -> n ∈ seen -> add_name grow n w = (false, w).
Proof.
  intros [Ho Hb Hf (st & Ha & Hh)] Hin. unfold add_name. rewrite Ha.
  rewrite (add_dup _ st seen n Hh Hin). destruct w; simpl in *. by subst.
Qed.

Lemma add_name_new w seen text n :
  stands w seen text -> n ∉ seen -> Z.of_nat (length seen) < 2 ^ 30 ->
  exists w', add_name grow n w = (true, w') /\ stands w' (seen ++ [n]) text.
Proof.
  intros [Ho Hb Hf (st & Ha & Hh)] Hin Hl. unfold add_name. rewrite Ha.
  destruct (add_new st seen n Hh Hin) as (st' & E & Hh'); [rewrite (holds_count _ _ Hh); lia|].
  unfold grow. rewrite E. eexists; split; [reflexivity|]. split; cbn [out bytes added]; eauto.
Qed.

(** One candidate: either loop body does what [spec_step] does. *)
Lemma field_step filter w seen text f :
  stands w seen text -> Z.of_nat (length seen) < 2 ^ 30 ->
  (forall t, field_text f = Some t -> slen t < 2 ^ 30) ->
  match field_cand fmt filter f with
  | None => addStatsdField grow fmt filter w f = w
  | Some c => stands (addStatsdField grow fmt filter w f)
                (spec_step (max_len fmt) (seen, text) c).1
                (spec_step (max_len fmt) (seen, text) c).2
  end.
Proof.
  intros S Hl Hsm. unfold field_cand, addStatsdField.
  destruct (match filter with Some m => negb (m (f_name f)) | None => false end); [done|].
  destruct (verbosity fmt <? f_cardinality f); [done|].
  unfold spec_step. cbn [fst snd]. case_decide as Hin.
  { by rewrite (add_name_dup w seen text) by done. }
  destruct (add_name_new w seen text (f_name f) S Hin Hl) as (w' & -> & S'). cbn [negb].
  unfold createStatsFieldString, field_text in *. destruct (Z.leb_spec (max_len fmt + 1) 0); [lia|].
  pose proof (slen_nonneg (f_name f +:+ ":")).
  assert (Happ : forall t, slen t < 2 ^ 30 ->
    let w2 := (let (sz, tag) := snprintf (max_len fmt + 1) t in
               if sz <? 0 then w' else appendStatsdFieldString fmt tag sz w') in
    let r := if slen text + slen (separator seen) + slen t <? max_len fmt
             then ((seen ++ [f_name f])%list, text +:+ separator seen +:+ t)
             else ((seen ++ [f_name f])%list, text) in
    stands w2 r.1 r.2).
  { intros t Ht. cbn zeta. pose proof (append_spec w' seen (f_name f) text t S' Ht) as A. cbn zeta in A.
    unfold snprintf. fold (slen t). destruct (Z.ltb_spec (slen t) 0); [pose proof (slen_nonneg t); lia|].
    by destruct (_ <? max_len fmt). }
  destruct (f_value f) as [[v|]|z|]; cbn [fmap option_fmap option_map] in *; auto.
Qed.

Lemma tag_step w seen text t :
  stands w seen text -> Z.of_nat (length seen) < 2 ^ 30 -> small (tag_cand t) ->
  stands (addStatsdCustomField grow fmt w t)
    (spec_step (max_len fmt) (seen, text) (tag_cand t)).1
    (spec_step (max_len fmt) (seen, text) (tag_cand t)).2.
Proof.
  intros S Hl Hsm. unfold addStatsdCustomField, spec_step, tag_cand. cbn [fst snd].
  case_decide as Hin.
  { by rewrite (add_name_dup w seen text) by done. }
  destruct (add_name_new w seen text (tag_name t) S Hin Hl) as (w' & -> & S'). cbn [negb].
  pose proof (append_spec w' seen _ text _ S' (Hsm _ eq_refl)) as A. cbn zeta in A.
  unfold snprintf. by destruct (_ <? max_len fmt).
Qed.

Lemma spec_step_seen max st c : (length (spec_step max st c).1 <= S (length st.1))%nat.
Proof.
  destruct st as [seen text]. unfold spec_step. case_decide; simpl; [lia|].
  repeat case_match; simpl; rewrite length_app; simpl; lia.
Qed.

Lemma fields_fold filter fs : forall w seen text,
  stands w seen text -> Z.of_nat (length seen + length fs) < 2 ^ 30 ->
  Forall (fun f => forall t, field_text f = Some t -> slen t < 2 ^ 30) fs ->
  let r := foldl (spec_step (max_len fmt)) (seen, text) (omap (field_cand fmt filter) fs) in
  stands (foldl (addStatsdField grow fmt filter) w fs) r.1 r.2 /\
  (length r.1 <= length seen + length fs)%nat.
Proof.
  induction fs as [|f fs IH]; intros w seen text S Hl Hs; [by split; [|simpl; lia]|].
  apply Forall_cons in Hs as [Hf Hs]. pose proof (field_step filter w seen text f S ltac:(lia) Hf) as St.
  change (omap (field_cand fmt filter) (f :: fs)) with
    (match field_cand fmt filter f with
     | Some c => c :: omap (field_cand fmt filter) fs | None => omap (field_cand fmt filter) fs end).
  cbn [length foldl] in Hl |- *. destruct (field_cand fmt filter f) as [c|]; cbn [foldl].
  - destruct (spec_step (max_len fmt) (seen, text) c) as [seen' text'] eqn:E.
    pose proof (spec_step_seen (max_len fmt) (seen, text) c) as Hlen. rewrite E in *. cbn [fst snd] in *.
    destruct (IH _ seen' text' St) as [? ?]; [lia|done|]. split; [done|lia].
  - rewrite St. destruct (IH w seen text S) as [? ?]; [lia|done|]. split; [done|lia].
Qed.

Lemma tags_fold ts : forall w seen text,
  stands w seen text -> Z.of_nat (length seen + length ts) < 2 ^ 30 ->
  Forall (fun t => small (tag_cand t)) ts ->
  let r := foldl (spec_step (max_len fmt)) (seen, text) (tag_cand <$> ts) in
  stands (foldl (addStatsdCustomField grow fmt) w ts) r.1 r.2 /\
  (length r.1 <= length seen + length ts)%nat.
Proof.
  induction ts as [|t ts IH]; intros w seen text S Hl Hs; [by split; [|simpl; lia]|].
  apply Forall_cons in Hs as [Hf Hs]. pose proof (tag_step w seen text t S ltac:(lia) Hf) as St.
  pose proof (spec_step_seen (max_len fmt) (seen, text) (tag_cand t)) as Hlen.
  rewrite fmap_cons. cbn [length foldl] in Hl |- *.
  destruct (spec_step (max_len fmt) (seen, text) (tag_cand t)) as [seen' text'] eqn:E. cbn [fst snd] in *.
  destruct (IH _ seen' text' St ltac:(lia) Hs) as [? ?]. split; [done|lia].
Qed.

End Refinement.

(** The sizes of an event's fields: no text of 2^30 bytes, fewer than 2^28 of each. *)
Record sized (fmt : mtc_fmt_t) (pre : string) (e : event_t) (valuebuf : string) : Prop := {
  sz_max : 0 <= max_len fmt < 2 ^ 31;
  sz_head : slen (statsd_head pre e valuebuf) < 2 ^ 31;
  sz_fields : Forall (fun f => forall t, field_text f = Some t -> slen t < 2 ^ 30)
                (default [] (e_capturedFields e) ++ default [] (e_fields e));
  sz_tags : Forall (fun t => small (tag_cand t)) (default [] (tags fmt));
  sz_ncap : Z.of_nat (length (default [] (e_capturedFields e))) < 2 ^ 28;
  sz_ntags : Z.of_nat (length (default [] (tags fmt))) < 2 ^ 28;
  sz_nfields : Z.of_nat (length (default [] (e_fields e))) < 2 ^ 28;
}.

Lemma head_len pre e v :
  slen pre + slen (e_name e) + slen v + slen (statsdType (e_type e)) = slen (statsd_head pre e v).
Proof. unfold statsd_head. autorewrite with appview. lia. Qed.

(** The reference's text always fits. *)
Lemma spec_step_fits max st c : slen st.2 < max -> slen (spec_step max st c).2 < max.
Proof.
  destruct st as [seen text]. unfold spec_step. simpl. intros H.
  case_decide; simpl; [done|]. destruct c.2; simpl; [|done].
  case_match eqn:E; simpl; [|done]. autorewrite with appview. lia.
Qed.

Lemma spec_fold_fits max cs st : slen st.2 < max -> slen (foldl (spec_step max) st cs).2 < max.
Proof.
  revert st. induction cs as [|c cs IH]; intros st H; simpl; [done|].
  by apply IH, spec_step_fits.
Qed.

Lemma statsd_refines fmt pre e filter valuebuf :
  prefix fmt = Some pre -> statsdValue (e_value e) = Some valuebuf -> sized fmt pre e valuebuf ->
  mtcFormatStatsDString (fun _ => true) true true true (Some fmt) (Some e) filter =
  Def (if slen (statsd_head pre e valuebuf) <? max_len fmt
       then Some (spec_statsd fmt pre e filter valuebuf +:+ LF) else None).
Proof.
  intros Hp Hv Hs. destruct Hs as [Hm Hh Hf Ht Hnc Hnt Hnf].
  apply Forall_app in Hf as [Hcap Hfl].
  unfold mtcFormatStatsDString. rewrite Hp, Hv. cbn [negb]. rewrite head_len.
  pose proof (slen_nonneg (statsd_head pre e valuebuf)). rewrite u32_small by lia.
  destruct (Z.leb_spec (max_len fmt) (slen (statsd_head pre e valuebuf)));
    destruct (Z.ltb_spec (slen (statsd_head pre e valuebuf)) (max_len fmt)); try lia; [done|].
  fold (statsd_head pre e valuebuf).
  destruct (set_create_holds DEFAULT_SET_SIZE ltac:(done)) as (st & -> & Hst). cbn [added].
  set (w0 := mkWr _ _ _).
  assert (S0 : stands fmt w0 [] (statsd_head pre e valuebuf)) by (split; cbn; eauto).
  unfold addStatsdFields, addStatsdCustomFields, spec_statsd, event_cands.
  rewrite !foldl_app.
  destruct (fields_fold fmt Hm None (default [] (e_capturedFields e)) w0 [] _ S0) as [S1 L1];
    [simpl; lia|done|].
  set (r1 := foldl _ ([], _) (omap (field_cand fmt None) _)) in *.
  set (w1 := foldl _ w0 _) in S1.
  destruct (tags_fold fmt Hm (default [] (tags fmt)) w1 r1.1 r1.2 S1) as [S2 L2];
    [simpl in *; lia|done|]. rewrite <- surjective_pairing in S2, L2.
  set (r2 := foldl _ r1 (tag_cand <$> _)) in *. set (w2 := foldl _ w1 _) in S2.
  destruct (fields_fold fmt Hm filter (default [] (e_fields e)) w2 r2.1 r2.2 S2) as [S3 L3];
    [simpl in *; lia|done|]. rewrite <- surjective_pairing in S3.
  rewrite <- (st_out _ _ _ _ S3). subst w2 w1.
  by destruct (e_capturedFields e), (tags fmt), (e_fields e).
Qed.


(** C12: the formatter's output (every allocation succeeding) is exactly the
    reference's: the head, then each candidate of the captured fields, the custom
    tags and the remaining fields in this order, one per name, within the
    configured verbosity and filter, as long as it fits in the maximum length;
    NULL when the head itself does not fit. *)
Theorem statsd_equiv (fmt : mtc_fmt_t) (pre : string) (e : event_t)
    (filter : option (string -> bool)) (valuebuf : string) :
  prefix fmt = Some pre -> statsdValue (e_value e) = Some valuebuf -> sized fmt pre e valuebuf ->
  mtcFormatStatsDString (fun _ => true) true true true (Some fmt) (Some e) filter =
  Def (if slen (statsd_head pre e valuebuf) <? max_len fmt
       then Some (spec_statsd fmt pre e filter valuebuf +:+ LF) else None).
Proof. apply statsd_refines. Qed.

Definition fmt_ex : mtc_fmt_t := mkFmt CFG_FMT_STATSD (Some "p.") 64 4 (Some [mkTag "env" "prod"]).
Definition event_ex : event_t :=
  INT_EVENT "net" (-5) DELTA
    [STRFIELD "proc" (Some "nc") 4 true; NUMFIELD "env" 1 1 true; NUMFIELD "fd" 3 7 true].

Lemma sized_ex : sized fmt_ex "p." event_ex ":-5|".
Proof. split; repeat constructor; try (intros ? [= <-]; vm_compute; done); done. Defined.

Lemma statsd_equiv_witness :
  mtcFormatStatsDString (fun _ => true) true true true (Some fmt_ex) (Some event_ex) None
  = Def (Some ("p.net:-5|c|#env:prod,proc:nc" +:+ LF)).
Proof.
  etransitivity; [apply (statsd_equiv fmt_ex "p." event_ex None ":-5|" eq_refl eq_refl sized_ex)|].
  reflexivity.
Defined.

(** *** Bounds, whatever the allocator does *)

Definition writer_ok (fmt : mtc_fmt_t) (w : wr) : Prop :=
  bytes w = slen (out w) /\ slen (out w) < max_len fmt.

Section Bounds.
Variables (grow : Z -> bool) (fmt : mtc_fmt_t).
Hypothesis Hmax : 0 <= max_len fmt < 2 ^ 31.

Lemma append_ok w t :
  writer_ok fmt w -> slen t < 2 ^ 30 ->
  writer_ok fmt (appendStatsdFieldString fmt
    (String.substring 0 (Z.to_nat (max_len fmt + 1 - 1)) t) (slen t) w).
Proof.
  intros [Hb Hf] Ht. pose proof (slen_nonneg t). pose proof (slen_nonneg (out w)).
  assert (Hsub : slen t < max_len fmt -> String.substring 0 (Z.to_nat (max_len fmt + 1 - 1)) t = t).
  { intros. apply substring_all. unfold slen in *. lia. }
  unfold appendStatsdFieldString. rewrite Hb.
  destruct (_ =? 1); (rewrite u32_small by lia);
    match goal with |- context [if ?b then _ else _] => destruct b eqn:? end; try done;
    split; cbn [out bytes]; rewrite Hsub, !slen_app by lia;
    (change (slen "|#") with 2 || change (slen ",") with 1); lia.
Qed.

Lemma add_name_ok n w b w' : add_name grow n w = (b, w') -> writer_ok fmt w -> writer_ok fmt w'.
Proof. unfold add_name. destruct (strSetAdd _ _ _). by intros [= <- <-]. Qed.

Lemma field_ok filter w f :
  (forall t, field_text f = Some t -> slen t < 2 ^ 30) ->
  writer_ok fmt w -> writer_ok fmt (addStatsdField grow fmt filter w f).
Proof.
  intros Hs Hw. unfold addStatsdField.
  destruct (match filter with Some m => negb (m (f_name f)) | None => false end); [done|].
  destruct (verbosity fmt <? f_cardinality f); [done|].
  destruct (add_name grow (f_name f) w) as [b w'] eqn:E. apply (add_name_ok _ _ _ _ E) in Hw.
  destruct b; [|done]. unfold createStatsFieldString, field_text, snprintf in *. cbn [negb].
  destruct (max_len fmt + 1 <=? 0); [done|]. revert Hs.
  destruct (f_value f) as [[v|]|z|]; intros Hs; try done; cbv zeta iota beta; case_match; try done;
    (apply append_ok; [done|apply Hs; done]).
Qed.

Lemma tag_ok w t :
  small (tag_cand t) -> writer_ok fmt w -> writer_ok fmt (addStatsdCustomField grow fmt w t).
Proof.
  intros Hs Hw. unfold addStatsdCustomField.
  destruct (add_name grow (tag_name t) w) as [b w'] eqn:E. apply (add_name_ok _ _ _ _ E) in Hw.
  destruct b; [|done]. cbn [negb]. unfold snprintf. apply append_ok; [done|]. apply Hs. done.
Qed.

Lemma fields_ok filter fs w :
  Forall (fun f => forall t, field_text f = Some t -> slen t < 2 ^ 30) (default [] fs) ->
  writer_ok fmt w -> writer_ok fmt (addStatsdFields grow fmt fs filter w).
Proof.
  destruct fs as [fs|]; [|done]. simpl. revert w.
  induction fs as [|f fs IH]; intros w Hs Hw; simpl; [done|].
  apply Forall_cons in Hs as [? ?]. auto using field_ok.
Qed.

Lemma tags_ok ts w :
  Forall (fun t => small (tag_cand t)) (default [] ts) ->
  writer_ok fmt w -> writer_ok fmt (addStatsdCustomFields grow fmt ts w).
Proof.
  destruct ts as [ts|]; [|done]. simpl. revert w.
  induction ts as [|t ts IH]; intros w Hs Hw; simpl; [done|].
  apply Forall_cons in Hs as [? ?]. auto using tag_ok.
Qed.

End Bounds.

(** C26: whatever the outcomes of the allocations, the filter and the event, a
    metric the formatter returns is at most [max_len] bytes with its newline, so
    with its terminator it fits the buffer of [max_len + 1] bytes. *)
Theorem statsd_fits_buffer (grow : Z -> bool) (calloc_ok set_ok str_ok : bool) (fmt : mtc_fmt_t) (pre : string)
    (e : event_t) (filter : option (string -> bool)) (valuebuf msg : string) :
  prefix fmt = Some pre -> statsdValue (e_value e) = Some valuebuf -> sized fmt pre e valuebuf ->
  mtcFormatStatsDString grow calloc_ok set_ok str_ok (Some fmt) (Some e) filter = Def (Some msg) ->
  slen msg + 1 <= max_len fmt + 1.
Proof.
  intros Hp Hv Hs E. unfold mtcFormatStatsDString in E. rewrite Hp, Hv in E.
  destruct calloc_ok; [|done]. cbn [negb] in E. rewrite head_len in E.
  pose proof (sz_head _ _ _ _ Hs). pose proof (slen_nonneg (statsd_head pre e valuebuf)).
  rewrite u32_small in E by lia. destruct (Z.leb_spec (max_len fmt) (slen (statsd_head pre e valuebuf))); [done|].
  injection E as <-. fold (statsd_head pre e valuebuf).
  pose proof (sz_fields _ _ _ _ Hs) as [Hc Hf]%Forall_app.
  set (w0 := mkWr _ _ _). assert (W0 : writer_ok fmt w0) by (split; cbn; lia).
  rewrite slen_app. change (slen LF) with 1.
  match goal with |- slen (out ?w) + _ + _ <= _ => assert (W : writer_ok fmt w) end.
  { pose proof (sz_max _ _ _ _ Hs). pose proof (sz_tags _ _ _ _ Hs). 
    case_match; [|exact W0]. auto using fields_ok, tags_ok. }
  destruct W. lia.
Qed.

Lemma statsd_fits_buffer_witness :
  slen ("p.net:-5|c|#env:prod,proc:nc" +:+ LF) + 1 <= 65.
Proof.
  apply (statsd_fits_buffer (fun _ => true) true true true fmt_ex "p." event_ex None ":-5|");
    [reflexivity|reflexivity|exact sized_ex|vm_compute; reflexivity].
Defined.

(** *** When nothing is dropped, the output has the dogstatsd shape *)

(** The texts of the first candidate of every name. *)
Fixpoint first_texts (seen : list string) (cs : list cand) : list string :=
  match cs with
  | [] => []
  | c :: cs => if decide (c.1 ∈ seen) then first_texts seen cs
               else default "" c.2 :: first_texts (seen ++ [c.1]) cs
  end.

Definition comma_join (ts : list string) : string := foldr (fun t acc => "," +:+ t +:+ acc) "" ts.
Definition field_section (ts : list string) : string :=
  match ts with [] => "" | t :: ts => "|#" +:+ t +:+ comma_join ts end.

Lemma sapp_assoc (a b c : string) : (a +:+ b) +:+ c = a +:+ (b +:+ c).
Proof. induction a as [|x a IH]; [done|]. exact (f_equal (String x) IH). Qed.

Lemma sapp_nil_r (a : string) : a +:+ "" = a.
Proof. induction a as [|x a IH]; [done|]. exact (f_equal (String x) IH). Qed.

(** What the remaining candidates contribute, given the names already seen. *)
Definition rest_section (seen : list string) (ts : list string) : string :=
  match seen with [] => field_section ts | _ => comma_join ts end.

Lemma spec_fold_complete max cs : forall seen text,
  Forall (fun c : cand => is_Some c.2) cs ->
  slen (text +:+ rest_section seen (first_texts seen cs)) < max ->
  (foldl (spec_step max) (seen, text) cs).2 = text +:+ rest_section seen (first_texts seen cs).
Proof.
  induction cs as [|[n t] cs IH]; intros seen text Hall Hlen; cbn [foldl first_texts fst snd] in *.
  - destruct seen; cbn; by rewrite sapp_nil_r.
  - apply Forall_cons in Hall as [[t' Et] Hall]. cbn [snd] in Et. subst t.
    unfold spec_step. cbn [fst snd from_option id] in *.
    case_decide as Hin; [by apply IH|].
    assert (Hr : text +:+ rest_section seen (t' :: first_texts (seen ++ [n]) cs) =
                 (text +:+ separator seen +:+ t') +:+
                   rest_section (seen ++ [n]) (first_texts (seen ++ [n]) cs)).
    { destruct seen; cbn [rest_section field_section comma_join foldr separator app];
        rewrite !sapp_assoc; done. }
    rewrite Hr in *. assert (Hlt : (slen text + slen (separator seen) + slen t' <? max) = true).
    { apply Z.ltb_lt. rewrite !slen_app in Hlen.
      pose proof (slen_nonneg (rest_section (seen ++ [n]) (first_texts (seen ++ [n]) cs))). lia. }
    rewrite Hlt. by apply IH.
Qed.

(** When every selected field has a printable value and all of them fit,
    the metric is the head followed by a section of every selected field, once per
    name: introduced by [|#] and separated by commas. *)
Theorem statsd_complete (fmt : mtc_fmt_t) (pre : string) (e : event_t)
    (filter : option (string -> bool)) (valuebuf : string) :
  prefix fmt = Some pre -> statsdValue (e_value e) = Some valuebuf -> sized fmt pre e valuebuf ->
  let cs := event_cands fmt e filter in
  Forall (fun c : cand => is_Some c.2) cs ->
  slen (statsd_head pre e valuebuf +:+ field_section (first_texts [] cs)) < max_len fmt ->
  mtcFormatStatsDString (fun _ => true) true true true (Some fmt) (Some e) filter =
  Def (Some (statsd_head pre e valuebuf +:+ field_section (first_texts [] cs) +:+ LF)).
Proof.
  intros Hp Hv Hs cs Hall Hlen. rewrite (statsd_refines fmt pre e filter valuebuf) by done.
  assert (Hh : (slen (statsd_head pre e valuebuf) <? max_len fmt) = true).
  { apply Z.ltb_lt. rewrite slen_app in Hlen. pose proof (slen_nonneg (field_section (first_texts [] cs))). lia. }
  rewrite Hh. unfold spec_statsd. rewrite spec_fold_complete by done. cbn [rest_section].
  by rewrite sapp_assoc.
Qed.

Lemma statsd_complete_witness :
  mtcFormatStatsDString (fun _ => true) true true true (Some fmt_ex) (Some event_ex) None
  = Def (Some ("p.net:-5|c" +:+ field_section ["env:prod"; "proc:nc"] +:+ LF)).
Proof.
  apply (statsd_complete fmt_ex "p." event_ex None ":-5|" eq_refl eq_refl sized_ex);
    [repeat constructor; eexists; reflexivity | vm_compute; reflexivity].
Defined.

(** The [|#] that introduces the fields is tied to the first name recorded,
    not to the first field printed: when the first selected field prints nothing
    (here a NULL string), the later ones follow the metric type with a bare comma. *)
Theorem statsd_marker_lost :
  mtcFormatStatsDString (fun _ => true) true true true
    (Some (mkFmt CFG_FMT_STATSD (Some "") 512 4 None))
    (Some (INT_EVENT "net.tx" 5 DELTA [STRFIELD "host" None 1 true; STRFIELD "proc" (Some "nc") 1 true]))
    None
  = Def (Some ("net.tx:5|c,proc:nc" +:+ LF)).
Proof. vm_compute. reflexivity. Qed.

End MtcFormat.
