(* ===== verification/UrlCodec.v ===== *)
(** * Percent-encoding (src/mtcformat.c: fmtUrlEncode, fmtUrlDecode)

    Strings are lists of bytes without the terminator; [char] is signed, as on
    the platforms the library supports. *)

From S2P Require Import Prelude.

Module UrlCodec.

(** The value of a byte read through a [char]. *)
Definition schar (b : Z) : Z := if b <? 128 then b else b - 256.

Definition between (lo x hi : Z) : bool := (lo <=? x) && (x <=? hi).

Definition isHex (x : Z) : bool :=
  between 48 x 57 || between 65 x 70 || between 97 x 102.

Definition fromHex (x : Z) : Z :=
  if between 48 x 57 then x - 48
  else if between 65 x 70 then x - 65 + 10
  else if between 97 x 102 then x - 97 + 10
  else 0.

(** ["0123456789ABCDEF"] *)
Definition hex : list Z := [48; 49; 50; 51; 52; 53; 54; 55; 56; 57; 65; 66; 67; 68; 69; 70].

Definition toHex (code : Z) : Z := byte_at hex (Z.land code 15).

Definition isUnreserved (x : Z) : bool :=
  between 97 x 122 || between 65 x 90 || between 48 x 57
  || (x =? 45) || (x =? 46) || (x =? 95) || (x =? 126).

(** What one input byte contributes to the output. *)
Definition encodeByte (b : Z) : list Z :=
  let x := schar b in
  if isUnreserved x then [b]
  else [37; toHex (Z.shiftr x 4); toHex x].

Definition fmtUrlEncode (malloc_ok : bool) (in_str : option (list Z)) : option (list Z) :=
  match in_str with
  | None => None
  | Some s => if malloc_ok then Some (flat_map encodeByte s) else None
  end.

(** The loop of [fmtUrlDecode]; reading past the end finds the terminator,
    which is not a hexadecimal digit. *)
Fixpoint decodeLoop (s : list Z) : list Z :=
  match s with
  | [] => []
  | c :: s1 =>
      if c =? 37 then
        match s1 with
        | a :: b :: s2 =>
            if isHex (schar a) && isHex (schar b)
            then u8 (Z.lor (Z.shiftl (fromHex (schar a)) 4) (fromHex (schar b))) :: decodeLoop s2
            else []
        | _ => []
        end
      else c :: decodeLoop s1
  end.

Definition fmtUrlDecode (malloc_ok : bool) (in_str : option (list Z)) : option (list Z) :=
  match in_str with
  | None => None
  | Some s => if malloc_ok then Some (decodeLoop s) else None
  end.

(** ** Proofs: the facts about single bytes are decided by evaluation *)

Definition byte_roundtrips (b : Z) : bool :=
  match encodeByte b with
  | [c] => negb (c =? 37) && (c =? b)
  | [p; h; l] => (p =? 37) && isHex (schar h) && isHex (schar l)
      && (u8 (Z.lor (Z.shiftl (fromHex (schar h)) 4) (fromHex (schar l))) =? b)
  | _ => false
  end.

Lemma all_bytes_roundtrip : forallb byte_roundtrips (Z.of_nat <$> seq 0 256) = true.
Proof. vm_compute. reflexivity. Qed.

Lemma byte_ok b : is_byte b -> byte_roundtrips b = true.
Proof.
  intros Hb. pose proof all_bytes_roundtrip as H. rewrite forallb_forall in H. apply H.
  apply list_elem_of_In, list_elem_of_fmap. exists (Z.to_nat b). unfold is_byte in Hb.
  split; [lia|]. apply elem_of_seq. lia.
Qed.

Lemma decode_encodeByte b s : is_byte b -> decodeLoop (encodeByte b ++ s) = b :: decodeLoop s.
Proof.
  intros Hb%byte_ok. unfold byte_roundtrips in Hb. cbn zeta in *.
  destruct (encodeByte b) as [|c [|h [|l [|]]]] eqn:E; try discriminate;
    rewrite ?andb_true_iff, ?negb_true_iff in Hb.
  - destruct Hb as [Hc Hb]. simpl. rewrite Hc. apply Z.eqb_eq in Hb as ->. done.
  - destruct Hb as [[[Hc Hh] Hl] Hb]. simpl. rewrite Hc, Hh, Hl. simpl.
    apply Z.eqb_eq in Hb as ->. done.
Qed.

Lemma encodeByte_shape b :
  Forall (fun c => isUnreserved (schar c) || (c =? 37) || isHex (schar c) = true) (encodeByte b)
  /\ (1 <= length (encodeByte b) <= 3)%nat.
Proof.
  unfold encodeByte. cbn zeta. destruct (isUnreserved (schar b)) eqn:E; (split; [|simpl; lia]).
  - repeat constructor. by rewrite E.
  - assert (Hh : forall c, isHex (schar (toHex c)) = true).
    { intros c. unfold toHex, byte_at.
      pose proof (Z.land_nonneg c 15). assert (Z.land c 15 = c mod 16) as Em.
      { change 15 with (Z.ones 4). by rewrite Z.land_ones. }
      pose proof (Z.mod_pos_bound c 16).
      assert (Hi : (Z.to_nat (Z.land c 15) < 16)%nat) by lia. revert Hi.
      generalize (Z.to_nat (Z.land c 15)) as i. intros i Hi.
      do 16 (destruct i as [|i]; [reflexivity|]). lia. }
    repeat constructor; rewrite ?Hh, ?orb_true_r; done.
Qed.

(** Decoding what the encoder produced gives back every byte string. *)
Theorem url_roundtrip (s : list Z) :
  is_bytes s ->
  fmtUrlDecode true (fmtUrlEncode true (Some s)) = Some s.
Proof.
  intros Hs. simpl. f_equal. induction Hs as [|b s Hb Hs IH]; [done|].
  cbn [flat_map]. by rewrite decode_encodeByte, IH by done.
Qed.

Lemma url_roundtrip_witness :
  fmtUrlDecode true (fmtUrlEncode true (Some [47; 195; 169; 32; 97])) = Some [47; 195; 169; 32; 97].
Proof. apply (url_roundtrip [47; 195; 169; 32; 97]). repeat constructor; lia. Defined.

(** The encoder writes only unreserved characters, percent signs and
    hexadecimal digits, and at most three of them per input byte, so its output
    and terminator fit the [3 * strlen + 1] bytes it allocates; the decoder
    never writes more than it reads. *)
Theorem url_buffers_fit (s : list Z) :
  (exists t, fmtUrlEncode true (Some s) = Some t /\ (length t + 1 <= length s * 3 + 1)%nat /\
     Forall (fun c => isUnreserved (schar c) || (c =? 37) || isHex (schar c) = true) t) /\
  (exists t, fmtUrlDecode true (Some s) = Some t /\ (length t + 1 <= length s + 1)%nat).
Proof.
  split; eexists; (split; [reflexivity|]).
  - induction s as [|b s [IHl IHf]]; cbn [flat_map length]; [by split|].
    destruct (encodeByte_shape b) as [Hf Hl]. rewrite length_app. split; [lia|].
    by apply Forall_app.
  - assert (H : forall n s, (length s <= n)%nat -> (length (decodeLoop s) <= length s)%nat).
    { clear. induction n as [|n IH]; intros [|c s] Hn; simpl in *; try lia.
      destruct (c =? 37); [|simpl; specialize (IH s); lia].
      destruct s as [|a [|b s]]; simpl in *; try lia.
      destruct (_ && _); simpl; [specialize (IH s); lia|lia]. }
    specialize (H _ s (le_n _)). lia.
Qed.

End UrlCodec.
