(* ===== verification/LinkList.v ===== *)
(** * Lock-free ordered list (src/linklist.c)

    Harris' list: nodes sorted by key, deletion first marks the [next] pointer
    of the victim (its low bit) and then unlinks it; [search] unlinks the marked
    nodes it passes.  The heap is a finite map from addresses to nodes, pointers
    are integers with the mark in bit 0, and the operations are run without
    interference, where every compare-and-swap succeeds. *)

From Stdlib Require Import Sorting.Sorted.
From S2P Require Import Prelude.

Module LinkList.

Record list_element_t := mkNode {
  key : Z;      (* list_key_t: uint64_t *)
  data : Z;     (* void*, 0 is NULL *)
  next : Z;     (* struct _list_element_t*, bit 0 is the mark *)
}.

Record list_t := mkList {
  delete_fn : bool;   (* is a delete function set? *)
  lhead : Z;
}.

Abbreviation heap := (gmap Z list_element_t).

(** [CAS(&p->next, oldval, newval)]; [None] when [p] is not allocated. *)
Definition CAS (h : heap) (p oldval newval : Z) : option (bool * heap) :=
  match h !! p with
  | None => None
  | Some n =>
      if next n =? oldval then Some (true, <[p := mkNode (key n) (data n) newval]> h)
      else Some (false, h)
  end.

Definition is_marked_reference (p : Z) : bool := negb (Z.land p 1 =? 0).
Definition get_unmarked_reference (p : Z) : Z := Z.land p (Z.lnot 1).
Definition get_marked_reference (p : Z) : Z := Z.lor p 1.

(** The inner loop of [search]: results are [t] (the right node), [*left_node]
    and [left_node_next]. *)
Fixpoint search_scan (fuel : nat) (h : heap) (search_key t t_next left_node left_node_next : Z)
  : option (Z * Z * Z) :=
  match fuel with
  | O => None
  | S fuel =>
      let '(left_node, left_node_next) :=
        if is_marked_reference t_next then (left_node, left_node_next) else (t, t_next) in
      let t := get_unmarked_reference t_next in
      if t =? 0 then Some (0, left_node, left_node_next) else
      match h !! t with
      | None => None
      | Some n =>
          if is_marked_reference (next n) || (key n <? search_key)
          then search_scan fuel h search_key t (next n) left_node left_node_next
          else Some (t, left_node, left_node_next)
      end
  end.

(** [(right_node) && is_marked_reference(right_node->next)] *)
Definition right_marked (h : heap) (right_node : Z) : option bool :=
  if right_node =? 0 then Some false
  else match h !! right_node with None => None | Some n => Some (is_marked_reference (next n)) end.

(** The outer loop of [search] (with its [goto]s): the right node, the left node
    and the heap. *)
Fixpoint search_outer (fuel : nat) (h : heap) (head search_key left_node left_node_next : Z)
  : option (Z * Z * heap) :=
  match fuel with
  | O => None
  | S fuel' =>
      match h !! head with
      | None => None
      | Some hn =>
          match search_scan (S (S (size h))) h search_key head (next hn) left_node left_node_next with
          | None => None
          | Some (right_node, left_node, left_node_next) =>
              if left_node_next =? right_node then
                match right_marked h right_node with
                | None => None
                | Some true => search_outer fuel' h head search_key left_node left_node_next
                | Some false => Some (right_node, left_node, h)
                end
              else
                match CAS h left_node left_node_next right_node with
                | None => None
                | Some (true, h) =>
                    match right_marked h right_node with
                    | None => None
                    | Some true => search_outer fuel' h head search_key left_node left_node_next
                    | Some false => Some (right_node, left_node, h)
                    end
                | Some (false, h) => search_outer fuel' h head search_key left_node left_node_next
                end
          end
      end
  end.

Definition search (h : heap) (l : list_t) (search_key : Z) : option (Z * Z * heap) :=
  match h !! lhead l with
  | None => None
  | Some hn => search_outer (S (size h)) h (lhead l) search_key (lhead l) (next hn)
  end.

(** [list_ok], [head_ok]: the outcomes of the two allocations; [head_p]: the
    address of the sentinel. *)
Definition lstCreate (list_ok head_ok : bool) (h : heap) (head_p : Z) (fn : bool) : option (list_t * heap) :=
  if list_ok && head_ok then Some (mkList fn head_p, <[head_p := mkNode 0 0 0]> h) else None.

(** [new_p]: the address of the new node, [None] when the allocation fails. *)
Definition lstInsert (h : heap) (l : list_t) (k d : Z) (new_p : option Z) : option (bool * heap) :=
  match new_p with
  | None => Some (false, h)
  | Some p =>
      let h := <[p := mkNode k d 0]> h in
      match search h l k with
      | None => None
      | Some (right_node, left_node, h) =>
          let found := if right_node =? 0 then Some false
                       else match h !! right_node with None => None | Some n => Some (key n =? k) end in
          match found with
          | None => None
          | Some true => Some (false, delete p h)
          | Some false =>
              let h := <[p := mkNode k d right_node]> h in
              match CAS h left_node right_node p with
              | Some (true, h) => Some (true, h)
              | _ => None      (* retry: not reached without interference *)
              end
          end
      end
  end.

(** The end of [lstDelete]: call the delete function, free the node.  A NULL
    [right_node] is dereferenced when a delete function is set. *)
Definition delete_release (h : heap) (l : list_t) (right_node : Z) : option (bool * list Z * heap) :=
  if right_node =? 0 then (if delete_fn l then None else Some (true, [], h)) else
  match h !! right_node with
  | None => None
  | Some n => Some (true, if delete_fn l && negb (data n =? 0) then [data n] else [],
                    delete right_node h)
  end.

(** [lstDelete] from its compare-and-swap C4 on, once [right_node] is marked. *)
Definition delete_unlink_step (h : heap) (l : list_t) (left_node right_node right_node_next : Z)
  : option (bool * list Z * heap) :=
  match CAS h left_node right_node right_node_next with
  | None => None
  | Some (true, h) => delete_release h l right_node
  | Some (false, h) =>
      match h !! right_node with
      | None => None
      | Some n => match search h l (key n) with
                  | None => None
                  | Some (right_node, _, h) => delete_release h l right_node
                  end
      end
  end.

(** Also returns the data given to [delete_fn]. *)
Definition lstDelete (h : heap) (l : list_t) (search_key : Z) : option (bool * list Z * heap) :=
  match search h l search_key with
  | None => None
  | Some (right_node, left_node, h) =>
      if right_node =? 0 then Some (false, [], h) else
      match h !! right_node with
      | None => None
      | Some n =>
          if negb (key n =? search_key) then Some (false, [], h) else
          let right_node_next := next n in
          if is_marked_reference right_node_next then None (* retry: not reached *) else
          match CAS h right_node right_node_next (get_marked_reference right_node_next) with
          | Some (true, h) => delete_unlink_step h l left_node right_node right_node_next
          | _ => None          (* retry: not reached without interference *)
          end
      end
  end.

Definition lstFind (h : heap) (l : list_t) (search_key : Z) : option (Z * heap) :=
  match search h l search_key with
  | None => None
  | Some (right_node, left_node, h) =>
      if right_node =? 0 then Some (0, h) else
      match h !! right_node with
      | None => None
      | Some n => Some (if key n =? search_key then data n else 0, h)
      end
  end.

(** The loop of [lstDestroy]: delete the first element until the list is empty
    and the sentinel could be marked. *)
Fixpoint destroy_loop (fuel : nat) (h : heap) (l : list_t) : option (list Z * heap) :=
  match fuel with
  | O => None
  | S fuel =>
      match h !! lhead l with
      | None => None
      | Some hn =>
          let head_next := get_unmarked_reference (next hn) in
          let deleted :=
            if head_next =? 0 then Some ([], h)
            else match h !! head_next with
                 | None => None
                 | Some n => match lstDelete h l (key n) with
                             | None => None
                             | Some (_, freed, h) => Some (freed, h)
                             end
                 end in
          match deleted with
          | None => None
          | Some (freed, h) =>
              match CAS h (lhead l) 0 (get_marked_reference 0) with
              | None => None
              | Some (true, h) => Some (freed, h)
              | Some (false, h) =>
                  match destroy_loop fuel h l with
                  | None => None
                  | Some (freed', h) => Some (freed ++ freed', h)
                  end
              end
          end
      end
  end.

(** The data handed to [delete_fn] and the heap without the list. *)
Definition lstDestroy (h : heap) (l : list_t) : option (list Z * heap) :=
  match destroy_loop (S (size h)) h l with
  | None => None
  | Some (freed, h) => Some (freed, delete (lhead l) h)
  end.

(** ** Tagged pointers *)

Lemma even_unmarked p : Z.even p = true -> is_marked_reference p = false.
Proof.
  intros H. unfold is_marked_reference. change 1 with (Z.ones 1). rewrite Z.land_ones by lia.
  apply Zeven_bool_iff, Zeven_ex in H as [q ->]. change (2 ^ 1) with 2.
  rewrite Z.mul_comm, Z_mod_mult. done.
Qed.

Lemma even_unmark p : Z.even p = true -> get_unmarked_reference p = p.
Proof.
  intros H. unfold get_unmarked_reference. apply Zeven_bool_iff, Zeven_ex in H as [q ->].
  rewrite <- Z.ldiff_land. change 1 with (Z.ones 1).
  rewrite Z.ldiff_ones_r by lia. rewrite Z.shiftr_div_pow2, Z.shiftl_mul_pow2 by lia.
  change (2 ^ 1) with 2. rewrite (Z.mul_comm 2 q), Z_div_mult by lia. done.
Qed.

Lemma marked_odd q : get_marked_reference (2 * q) = 2 * q + 1.
Proof.
  unfold get_marked_reference. apply Z.bits_inj'. intros n Hn. rewrite Z.lor_spec.
  destruct (decide (n = 0)) as [->|].
  - rewrite Z.testbit_even_0, Z.testbit_odd_0. done.
  - replace n with (Z.succ (n - 1)) by lia.
    rewrite Z.testbit_odd_succ, Z.testbit_even_succ by lia.
    change 1 with (2 * 0 + 1). rewrite Z.testbit_odd_succ, Z.bits_0, orb_false_r by lia. done.
Qed.

Lemma mark_marked p : Z.even p = true -> is_marked_reference (get_marked_reference p) = true.
Proof.
  intros H. apply Zeven_bool_iff, Zeven_ex in H as [q ->]. rewrite marked_odd.
  unfold is_marked_reference. change 1 with (Z.ones 1) at 2. rewrite Z.land_ones by lia.
  change (2 ^ 1) with 2. rewrite Z.add_comm, (Z.mul_comm 2), Z_mod_plus_full. done.
Qed.

Lemma mark_unmark p : Z.even p = true -> get_unmarked_reference (get_marked_reference p) = p.
Proof.
  intros H. apply Zeven_bool_iff, Zeven_ex in H as [q ->]. rewrite marked_odd.
  unfold get_unmarked_reference. rewrite <- Z.ldiff_land. change 1 with (Z.ones 1) at 2.
  rewrite Z.ldiff_ones_r by lia. rewrite Z.shiftr_div_pow2, Z.shiftl_mul_pow2 by lia.
  change (2 ^ 1) with 2. rewrite (Z.mul_comm 2 q), Z.div_add_l by lia.
  change (1 / 2) with 0. lia.
Qed.


(** ** Representation

    A chain of nodes starting at pointer [p]; the marked ones are logically
    deleted and not yet unlinked. *)

Record node := mkCell { loc : Z; nkey : Z; ndata : Z; nmark : bool }.

Definition tag (m : bool) (p : Z) : Z := if m then get_marked_reference p else p.

Fixpoint chain (h : heap) (p : Z) (cs : list node) : Prop :=
  match cs with
  | [] => p = 0
  | c :: cs => p = loc c /\ loc c <> 0 /\ Z.even (loc c) = true /\
      exists q, h !! loc c = Some (mkNode (nkey c) (ndata c) (tag (nmark c) q)) /\ chain h q cs
  end.

Definition live (cs : list node) : list node := filter (fun c => nmark c = false) cs.

(** The dictionary the list stands for. *)
Definition contents (cs : list node) : gmap Z Z :=
  list_to_map ((fun c => (nkey c, ndata c)) <$> live cs).

(** The sentinel as the first node of the chain. *)
Definition sentinel (l : list_t) (k d : Z) : node := mkCell (lhead l) k d false.

Record wf_list (h : heap) (l : list_t) (cs : list node) : Prop := {
  wf_chain : exists k d, chain h (lhead l) (sentinel l k d :: cs);
  wf_nodup : NoDup (lhead l :: (loc <$> cs));
  wf_sorted : StronglySorted Z.lt (nkey <$> live cs);
}.

Lemma chain_even h p cs : chain h p cs -> Z.even p = true.
Proof. destruct cs; simpl; [by intros ->|]. by intros (-> & _ & ? & _). Qed.

Lemma tag_marked m p : Z.even p = true -> is_marked_reference (tag m p) = m.
Proof. intros. destruct m; [by apply mark_marked|by apply even_unmarked]. Qed.

Lemma tag_unmark m p : Z.even p = true -> get_unmarked_reference (tag m p) = p.
Proof. intros. destruct m; [by apply mark_unmark|by apply even_unmark]. Qed.

(** A heap update outside the chain keeps it. *)
Lemma chain_frame h h' p cs :
  (forall c, c ∈ cs -> h' !! loc c = h !! loc c) -> chain h p cs -> chain h' p cs.
Proof.
  revert p. induction cs as [|c cs IH]; intros p Hsame; simpl; [done|].
  intros (-> & ? & ? & q & Hq & Hc). repeat split; try done. exists q.
  rewrite Hsame by left. split; [done|]. apply IH; [|done]. intros c' Hc'. apply Hsame. by right.
Qed.

Lemma chain_insert_ne h p cs x n :
  x ∉ loc <$> cs -> chain h p cs -> chain (<[x := n]> h) p cs.
Proof.
  intros Hx. apply chain_frame. intros c Hc. apply lookup_insert_ne. intros ->. apply Hx.
  apply list_elem_of_fmap. eauto.
Qed.

Lemma chain_delete_ne h p cs x : x ∉ loc <$> cs -> chain h p cs -> chain (delete x h) p cs.
Proof.
  intros Hx. apply chain_frame. intros c Hc. apply lookup_delete_ne. intros ->. apply Hx.
  apply list_elem_of_fmap. eauto.
Qed.

(** The nodes are distinct cells of the heap, which bounds the fuel. *)
Lemma chain_dom h p cs : chain h p cs -> Forall (fun x => x ∈ dom h) (loc <$> cs).
Proof.
  revert p. induction cs as [|c cs IH]; intros p; simpl; [constructor|].
  intros (_ & _ & _ & q & Hq & Hc). constructor; [|by eapply IH]. apply elem_of_dom. eauto.
Qed.

Lemma nodup_size (h : heap) (ls : list Z) :
  NoDup ls -> Forall (fun x => x ∈ dom h) ls -> (length ls <= size h)%nat.
Proof.
  intros Hn Hd. rewrite <- size_dom. rewrite <- (size_list_to_set (C := gset Z) ls Hn).
  apply subseteq_size. intros x Hx. apply elem_of_list_to_set in Hx.
  by apply (proj1 (Forall_forall _ _) Hd).
Qed.

(** The address a chain starts at. *)
Definition first_addr (cs : list node) : Z := match cs with [] => 0 | c :: _ => loc c end.

Lemma chain_first h p cs : chain h p cs -> p = first_addr cs.
Proof. destruct cs; simpl; [done|]. by intros (-> & _). Qed.

Lemma chain_mid h p P c tl :
  chain h p (P ++ c :: tl) ->
  h !! loc c = Some (mkNode (nkey c) (ndata c) (tag (nmark c) (first_addr tl))) /\
  chain h (first_addr tl) tl /\ loc c <> 0 /\ Z.even (loc c) = true.
Proof.
  revert p. induction P as [|a P IH]; intros p; simpl.
  - intros (-> & ? & ? & q & Hq & Hc). pose proof (chain_first _ _ _ Hc) as ->. done.
  - intros (_ & _ & _ & q & _ & Hc). eauto.
Qed.

(** Redirect the [next] pointer of an unmarked node. *)
Lemma set_next h p P c old tl :
  chain h p (P ++ c :: old) -> loc c ∉ loc <$> P -> nmark c = false ->
  let h' := <[loc c := mkNode (nkey c) (ndata c) (first_addr tl)]> h in
  chain h' (first_addr tl) tl -> chain h' p (P ++ c :: tl).
Proof.
  cbn zeta. intros Hc Hn Hm Htl. revert p Hc. induction P as [|a P IH]; intros p; simpl.
  - intros (-> & ? & ? & q & _ & _). repeat split; try done. exists (first_addr tl).
    rewrite lookup_insert_eq, Hm. done.
  - intros (-> & ? & ? & q & Hq & Hc). repeat split; try done. exists q.
    rewrite lookup_insert_ne by set_solver. split; [done|]. apply IH; [set_solver|done].
Qed.

(** ** The scan

    [search_scan] splits the chain after the current node into what it passed,
    the marked run before the right node, and the rest, which starts at the
    first unmarked node whose key is not below [k]. *)
Lemma scan_spec h k cs : forall fuel t m p lft ln,
  chain h p cs -> (length cs < fuel)%nat ->
  exists pre run post l ln',
    search_scan fuel h k t (tag m p) lft ln = Some (first_addr post, l, ln') /\
    cs = pre ++ run ++ post /\ Forall (fun c => nmark c = true) run /\
    Forall (fun c => nmark c = true \/ nkey c < k) pre /\
    match post with [] => True | c :: _ => nmark c = false /\ k <= nkey c end /\
    ((pre = [] /\ (l, ln') = if m then (lft, ln) else (t, p)) \/
     (exists pre' c, pre = pre' ++ [c] /\ nmark c = false /\ l = loc c /\ ln' = first_addr (run ++ post))).
Proof.
  induction cs as [|c cs IH]; intros [|fuel] t m p lft ln Hc Hf; try (simpl in Hf; lia).
  - simpl in Hc. subst p. exists [], [], []. cbn [search_scan]. rewrite tag_marked, tag_unmark by done.
    destruct m; cbn; do 2 eexists; repeat split; try done; by left.
  - pose proof (chain_even _ _ _ Hc) as He. destruct Hc as (-> & Hnz & _ & q & Hq & Hc).
    pose proof (chain_even _ _ _ Hc) as Heq. cbn [search_scan]. rewrite tag_marked, tag_unmark by done.
    replace (if m then (lft, ln) else (t, tag m (loc c))) with
      (if m then (lft, ln) else (t, loc c)) by (by destruct m).
    destruct (if m then (lft, ln) else (t, loc c)) as [l1 ln1] eqn:Elr.
    apply Z.eqb_neq in Hnz. rewrite Hnz, Hq. cbn [next key]. rewrite tag_marked by done.
    destruct (nmark c || (nkey c <? k)) eqn:Ek.
    + destruct (IH fuel (loc c) (nmark c) q l1 ln1 Hc ltac:(simpl in Hf; lia))
        as (pre & run & post & l & ln' & -> & -> & Hrun & Hpre & Hpost & Hl).
      assert (Hck : nmark c = true \/ nkey c < k).
      { apply orb_true_iff in Ek as [?|?%Z.ltb_lt]; auto. }
      destruct Hl as [[-> Hl]|(pre' & d & -> & Hd & -> & ->)].
      * destruct (nmark c) eqn:Em; injection Hl as -> ->.
        -- exists [], (c :: run), post, l1, ln1. split_and!; auto.
        -- exists [c], run, post, (loc c), q. split_and!; auto.
           { constructor; [right; by destruct Hck|done]. }
           right. exists [], c. split_and!; auto. by apply chain_first in Hc.
      * exists (c :: pre' ++ [d]), run, post, (loc d), (first_addr (run ++ post)).
        split_and!; auto. right. exists (c :: pre'), d. auto.
    + apply orb_false_iff in Ek as [? ?%Z.ltb_ge].
      exists [], [], (c :: cs), l1, ln1. split_and!; auto.
Qed.

(** ** [search]: what it returns and how it cleans up *)

(** [lft] is the node before [post]: the last of the sentinel and [pre]. *)
Record found (h : heap) (l : list_t) (k : Z) (cs pre post : list node) (lft : Z) : Prop := {
  fd_wf : wf_list h l (pre ++ post);
  fd_live : live (pre ++ post) = live cs;
  fd_sub : pre ++ post ⊆ cs;
  fd_left : exists hk hd P c, sentinel l hk hd :: pre = P ++ [c] /\ nmark c = false /\ lft = loc c /\
            chain h (lhead l) (P ++ c :: post);
  fd_pre : Forall (fun c => nmark c = true \/ nkey c < k) pre;
  fd_post : match post with [] => True | c :: _ => nmark c = false /\ k <= nkey c end;
}.

Lemma live_app a b : live (a ++ b) = live a ++ live b.
Proof. apply filter_app. Qed.

Lemma live_marked run : Forall (fun c => nmark c = true) run -> live run = [].
Proof.
  intros H. induction H as [|c run Hc H IH]; [done|]. unfold live in *.
  rewrite filter_cons_False by congruence. done.
Qed.

Lemma right_unmarked h post :
  chain h (first_addr post) post ->
  match post with [] => True | c :: _ => nmark c = false end ->
  right_marked h (first_addr post) = Some false.
Proof.
  intros Hc Hp. unfold right_marked. destruct post as [|c post]; [done|]. simpl first_addr in *.
  destruct Hc as (_ & Hnz & _ & q & Hq & Hc). apply Z.eqb_neq in Hnz. rewrite Hnz, Hq. cbn.
  rewrite Hp. simpl. by rewrite even_unmarked by (by eapply chain_even).
Qed.

Lemma first_addr_run run post :
  NoDup (loc <$> (run ++ post)) -> Forall (fun c => loc c <> 0) run ->
  first_addr (run ++ post) = first_addr post -> run = [].
Proof.
  destruct run as [|c run]; [done|]. intros Hn Hz E. exfalso. simpl in *.
  apply Forall_cons in Hz as [Hz _]. destruct post as [|d post]; simpl in E; [done|].
  apply NoDup_cons in Hn as [Hn _]. apply Hn. rewrite E.
  apply list_elem_of_fmap. exists d. split; [done|]. apply elem_of_app. right. left.
Qed.

Lemma chain_nonzero h p cs : chain h p cs -> Forall (fun c => loc c <> 0) cs.
Proof.
  revert p. induction cs as [|c cs IH]; intros p; simpl; [constructor|].
  intros (_ & ? & _ & q & _ & ?). constructor; eauto.
Qed.

Lemma wf_size h l cs : wf_list h l cs -> (length cs < size h)%nat.
Proof.
  intros W. destruct (wf_chain _ _ _ W) as (hk & hd & Hc).
  pose proof (nodup_size h _ (wf_nodup _ _ _ W) (chain_dom _ _ _ Hc)) as H.
  simpl in H. rewrite length_fmap in H. lia.
Qed.


Lemma chain_suffix h p a b : chain h p (a ++ b) -> chain h (first_addr b) b.
Proof.
  revert p. induction a as [|c a IH]; intros p; simpl.
  - intros H. by rewrite <- (chain_first _ _ _ H).
  - intros (_ & _ & _ & q & _ & H). eauto.
Qed.

Lemma nodup_drop_mid (x : Z) (a b c : list node) :
  NoDup (x :: (loc <$> (a ++ b ++ c))) -> NoDup (x :: (loc <$> (a ++ c))).
Proof.
  rewrite !fmap_app, !NoDup_cons, !NoDup_app. intros (? & ? & ? & ? & ? & ?). set_solver.
Qed.

(** The left node, the sentinel included, and what follows it. *)
Lemma left_split l hk hd (cs pre run post : list node) lft ln' :
  cs = pre ++ run ++ post ->
  ((pre = [] /\ (lft, ln') = (lhead l, first_addr cs)) \/
   (exists pre' c, pre = pre' ++ [c] /\ nmark c = false /\ lft = loc c /\ ln' = first_addr (run ++ post))) ->
  exists P c, sentinel l hk hd :: pre = P ++ [c] /\ nmark c = false /\ lft = loc c /\
    ln' = first_addr (run ++ post) /\ sentinel l hk hd :: cs = P ++ c :: run ++ post.
Proof.
  intros -> [[-> [= -> ->]]|(pre' & c & -> & Hm & -> & ->)].
  - exists [], (sentinel l hk hd). split_and!; done.
  - exists (sentinel l hk hd :: pre'), c. split_and!; try done. simpl. by rewrite <- !app_assoc.
Qed.

Lemma search_spec h l k cs :
  wf_list h l cs ->
  exists pre post lft h',
    search h l k = Some (first_addr post, lft, h') /\ found h' l k cs pre post lft /\
    (forall x, x ∉ lhead l :: (loc <$> cs) -> h' !! x = h !! x).
Proof.
  intros W. pose proof (wf_size _ _ _ W) as Hsz. destruct W as [(hk & hd & Hc) Hnd Hs].
  pose proof (chain_mid h (lhead l) [] (sentinel l hk hd) cs Hc) as (Hhd & Hcs & _ & _).
  cbn [sentinel loc nkey ndata nmark tag] in Hhd. unfold search. rewrite Hhd. cbn [next search_outer].
  rewrite Hhd. cbn [next].
  destruct (scan_spec h k cs (S (S (size h))) (lhead l) false (first_addr cs) (lhead l) (first_addr cs)
              Hcs ltac:(lia)) as (pre & run & post & lft & ln' & Hscan & Hcseq & Hrun & Hpre & Hpost & Hl).
  cbn [tag] in Hscan. rewrite Hscan.
  destruct (left_split l hk hd cs pre run post lft ln' Hcseq Hl)
    as (P & c & HP & Hcm & -> & -> & Hfull). clear Hl Hscan.
  rewrite Hfull in Hc. pose proof (chain_mid _ _ _ _ _ Hc) as (Hlc & Hrp & _ & _). rewrite Hcm in Hlc.
  assert (Hpc : chain h (first_addr post) post) by (by apply (chain_suffix _ _ run) in Hrp).
  assert (HND : NoDup (loc <$> (P ++ c :: run ++ post))) by (by rewrite <- Hfull).
  assert (Hlive : live (pre ++ post) = live cs).
  { rewrite Hcseq, !live_app, (live_marked run Hrun). done. }
  assert (HW : forall h', chain h' (lhead l) (P ++ c :: post) ->
            found h' l k cs pre post (loc c)).
  { intros h' Hc'. split; try done.
    - split; [|rewrite Hcseq in Hnd; by eapply nodup_drop_mid|by rewrite Hlive].
      exists hk, hd. change (sentinel l hk hd :: pre ++ post) with ((sentinel l hk hd :: pre) ++ post).
      rewrite HP, <- app_assoc. done.
    - rewrite Hcseq. clear. set_solver.
    - exists hk, hd, P, c. done. }
  assert (Hpm : match post with [] => True | c :: _ => nmark c = false end).
  { destruct post; [done|]. by destruct Hpost. }
  rewrite fmap_app, fmap_cons, fmap_app in HND. apply NoDup_app in HND as (_ & HPn & [Hcn HRP]%NoDup_cons).
  destruct (Z.eqb_spec (first_addr (run ++ post)) (first_addr post)) as [E|E].
  - rewrite (right_unmarked h post Hpc Hpm).
    assert (run = []) as ->.
    { apply (first_addr_run run post); [by rewrite fmap_app| |done].
      apply chain_nonzero in Hrp. by apply Forall_app in Hrp as [? _]. }
    exists pre, post, (loc c), h. split_and!; try done. by apply HW.
  - unfold CAS. rewrite Hlc. cbn [next key data tag]. rewrite Z.eqb_refl.
    set (h' := <[loc c := _]> h).
    assert (Hpc' : chain h' (first_addr post) post) by (apply chain_insert_ne; [set_solver|done]).
    rewrite (right_unmarked h' post Hpc' Hpm).
    exists pre, post, (loc c), h'. split_and!; try done.
    + apply HW. apply (set_next h _ P c (run ++ post) post); try done. set_solver.
    + intros x Hx. apply lookup_insert_ne. intros <-. apply Hx.
      change (lhead l :: (loc <$> cs)) with (loc <$> (sentinel l hk hd :: cs)). rewrite Hfull.
      apply list_elem_of_fmap. exists c. set_solver.
Qed.

(** ** The dictionary *)

Lemma sorted_app_lt a b :
  StronglySorted Z.lt (a ++ b) ->
  StronglySorted Z.lt a /\ StronglySorted Z.lt b /\ (forall x y, x ∈ a -> y ∈ b -> x < y).
Proof.
  induction a as [|x a IH]; simpl; intros H.
  - repeat split; [constructor|done|set_solver].
  - apply StronglySorted_inv in H as [H Hf]. apply Forall_app in Hf as [Hfa Hfb].
    destruct (IH H) as (? & ? & Hlt). repeat split; [by constructor|done|].
    intros u v [->|Hu]%elem_of_cons Hv; [|by apply Hlt]. by apply (proj1 (Forall_forall _ _) Hfb).
Qed.

Lemma sorted_app_intro a b :
  StronglySorted Z.lt a -> StronglySorted Z.lt b -> (forall x y, x ∈ a -> y ∈ b -> x < y) ->
  StronglySorted Z.lt (a ++ b).
Proof.
  induction 1 as [|x a Ha IH Hf]; intros Hb Hlt; simpl; [done|]. constructor.
  - apply IH; [done|]. intros; apply Hlt; [by right|done].
  - apply Forall_app. split; [done|]. apply Forall_forall. intros y Hy. apply Hlt; [by left|done].
Qed.

Lemma sorted_nodup a : StronglySorted Z.lt a -> NoDup a.
Proof.
  induction 1 as [|x a _ IH Hf]; constructor; [|done].
  intros Hx. apply (proj1 (Forall_forall _ _) Hf) in Hx. lia.
Qed.



Abbreviation kv := (fun c : node => (nkey c, ndata c)).

Lemma kv_keys (cs : list node) : (kv <$> cs).*1 = nkey <$> cs.
Proof. rewrite <- list_fmap_compose. done. Qed.

Lemma lookup_none (cs : list node) k : k ∉ nkey <$> cs -> (list_to_map (kv <$> cs) : gmap Z Z) !! k = None.
Proof. intros H. apply not_elem_of_list_to_map_1. by rewrite kv_keys. Qed.

Lemma live_head c cs : nmark c = false -> live (c :: cs) = c :: live cs.
Proof. intros. unfold live. by rewrite filter_cons_True. Qed.

Lemma live_pre_lt k pre x :
  Forall (fun c => nmark c = true \/ nkey c < k) pre -> x ∈ nkey <$> live pre -> x < k.
Proof.
  intros Hp (c & -> & [Hm Hc]%list_elem_of_filter)%list_elem_of_fmap.
  destruct (proj1 (Forall_forall _ _) Hp c Hc); [congruence|done].
Qed.

(** What follows a node with the key sought, or with a larger key. *)
Lemma live_post_gt c post x :
  nmark c = false -> StronglySorted Z.lt (nkey <$> live (c :: post)) ->
  x ∈ nkey <$> live post -> nkey c < x.
Proof.
  intros Hm Hs Hx. rewrite live_head, fmap_cons in Hs by done.
  apply StronglySorted_inv in Hs as [_ Hf]. by apply (proj1 (Forall_forall _ _) Hf).
Qed.

Section Found.
Variables (h : heap) (l : list_t) (k : Z) (cs pre post : list node) (lft : Z).
Hypothesis F : found h l k cs pre post lft.

Lemma found_contents : contents (pre ++ post) = contents cs.
Proof. unfold contents. by rewrite (fd_live _ _ _ _ _ _ _ F). Qed.

Lemma found_sorted :
  StronglySorted Z.lt (nkey <$> live pre) /\ StronglySorted Z.lt (nkey <$> live post) /\
  (forall x y, x ∈ nkey <$> live pre -> y ∈ nkey <$> live post -> x < y).
Proof.
  apply sorted_app_lt. rewrite <- fmap_app, <- live_app. apply (fd_wf _ _ _ _ _ _ _ F).
Qed.

Lemma pre_not_k : k ∉ nkey <$> live pre.
Proof. intros H. pose proof (live_pre_lt k pre k (fd_pre _ _ _ _ _ _ _ F) H). lia. Qed.

(** The right node decides the lookup. *)
Lemma found_lookup :
  contents cs !! k =
  match post with
  | c :: _ => if decide (nkey c = k) then Some (ndata c) else None
  | [] => None
  end.
Proof.
  rewrite <- found_contents. unfold contents. rewrite live_app, fmap_app, list_to_map_app.
  pose proof (fd_post _ _ _ _ _ _ _ F) as Hp. destruct found_sorted as (_ & Hs & _).
  rewrite lookup_union_r by (apply lookup_none, pre_not_k).
  destruct post as [|c post']; [done|]. destruct Hp as [Hm Hk].
  rewrite live_head, fmap_cons by done. simpl. case_decide as E.
  - subst. apply lookup_insert_eq.
  - rewrite lookup_insert_ne by done. apply lookup_none. intros Hin.
    pose proof (live_post_gt c post' k Hm Hs Hin). lia.
Qed.

Lemma post_gt : contents cs !! k = None -> forall y, y ∈ nkey <$> live post -> k < y.
Proof.
  rewrite found_lookup. pose proof (fd_post _ _ _ _ _ _ _ F) as Hp.
  destruct found_sorted as (_ & Hs & _).
  destruct post as [|c post']; [set_solver|]. destruct Hp as [Hm Hk]. case_decide as E; [done|].
  intros _ y Hy. rewrite live_head, fmap_cons in Hy by done.
  apply elem_of_cons in Hy as [->|Hy]; [lia|]. pose proof (live_post_gt c post' y Hm Hs Hy). lia.
Qed.

(** The comparison of the right node's key, as the operations make it. *)
Lemma right_key :
  match post with
  | [] => (first_addr post =? 0) = true
  | c :: post' => (first_addr post =? 0) = false /\
      h !! first_addr post = Some (mkNode (nkey c) (ndata c) (first_addr post'))
  end.
Proof.
  destruct (fd_left _ _ _ _ _ _ _ F) as (hk & hd & P & c & _ & _ & _ & Hc).
  pose proof (fd_post _ _ _ _ _ _ _ F) as Hp. destruct post as [|d post']; [done|].
  destruct Hp as [Hm _].
  replace (P ++ c :: d :: post') with ((P ++ [c]) ++ d :: post') in Hc by (by rewrite <- app_assoc).
  apply chain_mid in Hc as (Hd & _ & Hz & _). rewrite Hm in Hd. cbn [first_addr tag] in *.
  split; [by apply Z.eqb_neq|done].
Qed.

End Found.

(** The list in heap [h] stands for the dictionary [m]. *)
Definition clean (cs : list node) : Prop := Forall (fun c => nmark c = false) cs.

Definition models (h : heap) (l : list_t) (m : gmap Z Z) : Prop :=
  exists cs, wf_list h l cs /\ clean cs /\ contents cs = m.

Lemma found_clean h l k cs pre post lft :
  found h l k cs pre post lft -> clean cs -> clean (pre ++ post).
Proof.
  intros F Hc. apply Forall_forall. intros c Hin. apply (proj1 (Forall_forall _ _) Hc).
  by apply (fd_sub _ _ _ _ _ _ _ F).
Qed.

Lemma found_locs h l k cs pre post lft x :
  found h l k cs pre post lft -> x ∈ loc <$> (pre ++ post) -> x ∈ loc <$> cs.
Proof.
  intros F (c & -> & Hc)%list_elem_of_fmap. apply list_elem_of_fmap. exists c. split; [done|].
  by apply (fd_sub _ _ _ _ _ _ _ F).
Qed.

Lemma create_models h p fn :
  Z.even p = true -> p <> 0 ->
  exists l h', lstCreate true true h p fn = Some (l, h') /\ models h' l ∅.
Proof.
  intros. do 2 eexists. split; [reflexivity|]. exists []. split; [|by split; [constructor|]]. split.
  - exists 0, 0. simpl. repeat split; try done. exists 0. rewrite lookup_insert_eq. done.
  - apply NoDup_singleton.
  - constructor.
Qed.

Lemma find_spec h l m k :
  models h l m ->
  exists h', lstFind h l k = Some (default 0 (m !! k), h') /\ models h' l m.
Proof.
  intros (cs & W & Hcl & <-). destruct (search_spec h l k cs W) as (pre & post & lft & h' & E & F & _).
  exists h'. split; [|exists (pre ++ post); split_and!; eauto using fd_wf, found_clean, found_contents].
  unfold lstFind. rewrite E, (found_lookup _ _ _ _ _ _ _ F).
  pose proof (right_key _ _ _ _ _ _ _ F) as R. destruct post as [|c post]; [by rewrite R|].
  destruct R as [-> ->]. cbn [key data]. destruct (Z.eqb_spec (nkey c) k); case_decide; done.
Qed.

Lemma insert_fresh h l cs p n :
  wf_list h l cs -> p ∉ lhead l :: (loc <$> cs) -> wf_list (<[p := n]> h) l cs.
Proof.
  intros [(hk & hd & Hc) Hnd Hs] Hp. split; try done. exists hk, hd. by apply chain_insert_ne.
Qed.

Lemma wf_addrs_dom h l cs x : wf_list h l cs -> x ∈ lhead l :: (loc <$> cs) -> is_Some (h !! x).
Proof.
  intros W Hx. destruct (wf_chain _ _ _ W) as (hk & hd & Hc).
  pose proof (chain_dom _ _ _ Hc) as Hd. apply elem_of_dom.
  by apply (proj1 (Forall_forall _ _) Hd).
Qed.

Lemma fresh_notin h l cs p : wf_list h l cs -> h !! p = None -> p ∉ lhead l :: (loc <$> cs).
Proof. intros W Hp Hin. destruct (wf_addrs_dom _ _ _ _ W Hin). congruence. Qed.

Lemma contents_insert pre post p k d :
  k ∉ nkey <$> live pre ->
  contents (pre ++ mkCell p k d false :: post) = <[k := d]> (contents (pre ++ post)).
Proof.
  intros Hk. unfold contents. rewrite !live_app, !fmap_app, live_head by done.
  rewrite fmap_cons, !list_to_map_app. simpl. rewrite <- insert_union_r; [done|]. by apply lookup_none.
Qed.

Lemma found_addrs h l k cs pre post lft x :
  found h l k cs pre post lft -> x ∈ lhead l :: (loc <$> (pre ++ post)) -> is_Some (h !! x).
Proof. intros F. apply wf_addrs_dom, F. Qed.



Lemma nodup_insert_mid (x : Z) (a b : list Z) : NoDup (a ++ b) -> x ∉ a ++ b -> NoDup (a ++ x :: b).
Proof. intros. rewrite <- Permutation_middle. by apply NoDup_cons. Qed.

(** Linking a fresh node between the left and the right node. *)
Lemma insert_link h l k cs pre post lft d p :
  found h l k cs pre post lft -> clean cs -> contents cs !! k = None ->
  p ∉ lhead l :: (loc <$> (pre ++ post)) -> Z.even p = true -> p <> 0 ->
  exists h', match CAS (<[p := mkNode k d (first_addr post)]> h) lft (first_addr post) p with
             | Some (true, h) => Some (true, h) | _ => None end = Some (true, h') /\
    models h' l (<[k := d]> (contents cs)).
Proof.
  intros F Hcl Hk Hp He Hz. destruct (fd_left _ _ _ _ _ _ _ F) as (hk & hd & P & c & HP & Hcm & -> & Hc).
  assert (Hfull : sentinel l hk hd :: pre ++ post = P ++ c :: post).
  { change (sentinel l hk hd :: pre ++ post) with ((sentinel l hk hd :: pre) ++ post).
    by rewrite HP, <- app_assoc. }
  pose proof (wf_nodup _ _ _ (fd_wf _ _ _ _ _ _ _ F)) as Hnd.
  pose proof Hnd as Hnd0. pose proof Hp as Hp0.
  change (lhead l :: (loc <$> pre ++ post)) with (loc <$> (sentinel l hk hd :: pre ++ post)) in Hnd, Hp.
  rewrite Hfull, fmap_app, fmap_cons in Hnd, Hp.
  pose proof (chain_mid _ _ _ _ _ Hc) as (Hlc & Hpc & _ & _). rewrite Hcm in Hlc. cbn [tag] in Hlc.
  apply NoDup_app in Hnd as (HndP & HPn & [Hcn HndO]%NoDup_cons).
  unfold CAS. rewrite lookup_insert_ne by set_solver. rewrite Hlc. cbn [next key data].
  rewrite Z.eqb_refl. eexists. split; [reflexivity|].
  set (new := mkCell p k d false). exists (pre ++ new :: post).
  split_and!.
  - split.
    + exists hk, hd.
      change (sentinel l hk hd :: pre ++ new :: post) with ((sentinel l hk hd :: pre) ++ new :: post).
      rewrite HP, <- app_assoc. apply (set_next _ _ P c post (new :: post)); try done.
      * apply chain_insert_ne; [|done]. rewrite fmap_app, fmap_cons. done.
      * set_solver.
      * cbn [first_addr loc new chain nkey ndata nmark tag]. repeat split; try done.
        exists (first_addr post). rewrite lookup_insert_ne, lookup_insert_eq by set_solver.
        split; [done|]. apply chain_insert_ne; [set_solver|]. apply chain_insert_ne; [set_solver|done].
    + rewrite fmap_app, fmap_cons. apply (nodup_insert_mid p (lhead l :: (loc <$> pre)) (loc <$> post)).
      * by rewrite fmap_app in Hnd0.
      * by rewrite fmap_app in Hp0.
    + destruct (found_sorted _ _ _ _ _ _ _ F) as (Hs1 & Hs2 & Hlt).
      rewrite live_app, live_head, fmap_app, fmap_cons by done. cbn [nkey new].
      apply sorted_app_intro; [done|constructor; [done|]|].
      * apply Forall_forall. eapply post_gt; eauto.
      * intros x y Hx [->|Hy]%elem_of_cons; [by eapply live_pre_lt; [apply F|]|by apply Hlt].
  - pose proof (found_clean _ _ _ _ _ _ _ F Hcl) as [? ?]%Forall_app. apply Forall_app. auto.
  - unfold new. rewrite contents_insert by (by eapply pre_not_k). f_equal. by eapply found_contents.
Qed.

Lemma insert_spec h l m k d p :
  models h l m -> h !! p = None -> Z.even p = true -> p <> 0 ->
  exists h', lstInsert h l k d (Some p) = Some (bool_decide (m !! k = None), h') /\
    models h' l (match m !! k with None => <[k := d]> m | Some _ => m end).
Proof.
  intros (cs & W & Hcl & <-) Hp He Hz. pose proof (fresh_notin _ _ _ _ W Hp) as Hfr.
  unfold lstInsert. set (h0 := <[p := mkNode k d 0]> h).
  destruct (search_spec h0 l k cs (insert_fresh _ _ _ _ _ W Hfr))
    as (pre & post & lft & h1 & -> & F & _).
  pose proof (right_key _ _ _ _ _ _ _ F) as R. pose proof (found_lookup _ _ _ _ _ _ _ F) as L.
  assert (Hp1 : p ∉ lhead l :: (loc <$> (pre ++ post))).
  { intros [->|Hin]%elem_of_cons; apply Hfr; [by left|right]. by eapply found_locs. }
  destruct (contents cs !! k) as [v|] eqn:Ek.
  - destruct post as [|c post]; [done|]. destruct R as [-> ->]. cbn [key]. case_decide as E; [|done].
    apply Z.eqb_eq in E. rewrite E. eexists. split; [reflexivity|].
    exists (pre ++ c :: post). split_and!; eauto using found_clean, found_contents.
    destruct (fd_wf _ _ _ _ _ _ _ F) as [(hk & hd & Hc) ? ?]. split; try done.
    exists hk, hd. by apply chain_delete_ne.
  - rewrite bool_decide_true by done.
    assert ((if first_addr post =? 0 then Some false
             else match h1 !! first_addr post with None => None | Some n => Some (key n =? k) end)
            = Some false) as ->.
    { destruct post as [|c post]; [by rewrite R|]. destruct R as [-> ->]. cbn [key].
      case_decide as E; [done|]. by apply Z.eqb_neq in E as ->. }
    by apply (insert_link h1 l k cs pre post lft d p F).
Qed.

(** Marking and unlinking the right node. *)
Lemma delete_unlink h l k cs pre c0 post lft :
  found h l k cs pre (c0 :: post) lft -> clean cs -> nkey c0 = k ->
  let h1 := <[loc c0 := mkNode (nkey c0) (ndata c0) (get_marked_reference (first_addr post))]> h in
  exists h', delete_unlink_step h1 l lft (loc c0) (first_addr post) =
      Some (true, if delete_fn l && negb (ndata c0 =? 0) then [ndata c0] else [], h') /\
    models h' l (delete k (contents cs)).
Proof.
  intros F Hcl Hk. cbn zeta.
  destruct (fd_left _ _ _ _ _ _ _ F) as (hk & hd & P & c & HP & Hcm & -> & Hc).
  assert (Hfull : forall tl, sentinel l hk hd :: pre ++ tl = P ++ c :: tl).
  { intros tl. change (sentinel l hk hd :: pre ++ tl) with ((sentinel l hk hd :: pre) ++ tl).
    by rewrite HP, <- app_assoc. }
  pose proof (wf_nodup _ _ _ (fd_wf _ _ _ _ _ _ _ F)) as Hnd.
  pose proof (nodup_drop_mid _ pre [c0] post Hnd) as Hnd'.
  change (lhead l :: (loc <$> pre ++ c0 :: post)) with (loc <$> (sentinel l hk hd :: pre ++ c0 :: post)) in Hnd.
  rewrite Hfull, fmap_app, !fmap_cons in Hnd.
  apply NoDup_app in Hnd as (_ & HPn & [Hcn [H0n Hpost]%NoDup_cons]%NoDup_cons).
  pose proof (chain_mid _ _ _ _ _ Hc) as (Hlc & Hc0 & _ & _). rewrite Hcm in Hlc.
  cbn [tag first_addr] in Hlc. pose proof (chain_suffix _ _ [c0] post Hc0) as Hpc.
  assert (Hz : loc c0 <> 0) by (by destruct Hc0 as (_ & ? & _)).
  assert (Hne0 : loc c <> loc c0) by (clear -Hcn; set_solver).
  unfold delete_unlink_step, CAS. rewrite lookup_insert_ne by done. rewrite Hlc. cbn [next key data].
  rewrite Z.eqb_refl. unfold delete_release. apply Z.eqb_neq in Hz. rewrite Hz.
  rewrite lookup_insert_ne, lookup_insert_eq by done. cbn [data].
  eexists. split; [reflexivity|].
  exists (pre ++ post). split_and!.
  - split; [|done|].
    + exists hk, hd. rewrite Hfull.
      eapply chain_frame; [|apply (set_next h _ P c (c0 :: post) post Hc)]; try done.
      * intros x Hx. assert (Hne : loc x <> loc c0).
        { intros E. apply elem_of_app in Hx as [Hx|[->|Hx]%elem_of_cons].
          - apply (HPn (loc x)); [apply list_elem_of_fmap; eauto|rewrite E; right; left].
          - apply Hcn. rewrite E. left.
          - apply H0n. rewrite <- E. apply list_elem_of_fmap; eauto. }
        rewrite lookup_delete_ne by done.
        destruct (decide (loc x = loc c)) as [->|]; [by rewrite !lookup_insert_eq|].
        by rewrite !lookup_insert_ne by done.
      * intros Hin. apply (HPn _ Hin). left.
      * apply chain_insert_ne; [|done]. intros Hin. apply Hcn. by right.
    + destruct (found_sorted _ _ _ _ _ _ _ F) as (Hs1 & Hs2 & Hlt).
      pose proof (fd_post _ _ _ _ _ _ _ F) as [Hm _].
      rewrite live_head, fmap_cons in Hs2, Hlt by done. rewrite live_app, fmap_app.
      apply StronglySorted_inv in Hs2 as [? _].
      apply sorted_app_intro; try done. intros x y Hx Hy. apply Hlt; [done|by right].
  - pose proof (found_clean _ _ _ _ _ _ _ F Hcl) as [? [_ ?]%Forall_cons]%Forall_app.
    by apply Forall_app.
  - rewrite <- (found_contents _ _ _ _ _ _ _ F). pose proof (fd_post _ _ _ _ _ _ _ F) as [Hm _].
    destruct c0 as [x k0 d0 m0]. cbn in Hk, Hm. subst.
    rewrite contents_insert by (by eapply pre_not_k).
    rewrite delete_insert_eq, delete_id; [done|].
    unfold contents. rewrite live_app. apply lookup_none. rewrite fmap_app. intros [H|H]%elem_of_app.
    + by apply (pre_not_k _ _ _ _ _ _ _ F).
    + destruct (found_sorted _ _ _ _ _ _ _ F) as (_ & Hs2 & _).
      pose proof (live_post_gt (mkCell x k d0 false) post k eq_refl Hs2 H) as Hlt. simpl in Hlt. lia.
Qed.

Lemma delete_spec h l m k :
  models h l m ->
  exists h', lstDelete h l k =
      Some (bool_decide (is_Some (m !! k)),
            match m !! k with
            | Some v => if delete_fn l && negb (v =? 0) then [v] else []
            | None => []
            end, h') /\ models h' l (delete k m).
Proof.
  intros (cs & W & Hcl & <-). destruct (search_spec h l k cs W) as (pre & post & lft & h1 & E & F & _).
  unfold lstDelete. rewrite E.
  pose proof (right_key _ _ _ _ _ _ _ F) as R. pose proof (found_lookup _ _ _ _ _ _ _ F) as L.
  assert (Hsame : contents cs !! k = None -> models h1 l (delete k (contents cs))).
  { intros Hn. rewrite delete_id by done. exists (pre ++ post).
    split_and!; eauto using fd_wf, found_clean, found_contents. }
  destruct post as [|c0 post].
  - rewrite R, L. eexists. split; [reflexivity|]. auto.
  - destruct R as [-> R]. cbn [first_addr] in R |- *. rewrite R. cbn [key data next].
    case_decide as Ek; rewrite L.
    + pose proof (proj2 (Z.eqb_eq _ _) Ek) as ->. cbn [negb].
      destruct (fd_left _ _ _ _ _ _ _ F) as (_ & _ & P & c & _ & _ & _ & Hc).
      apply chain_mid in Hc as (_ & Hc & _ & _). pose proof (chain_suffix _ _ [c0] post Hc) as Hp.
      rewrite even_unmarked by (by eapply chain_even).
      unfold CAS. rewrite R. cbn [next key data]. rewrite Z.eqb_refl.
      destruct (delete_unlink h1 l k cs pre c0 post lft F Hcl Ek) as (h2 & -> & M).
      eexists. split; [|exact M]. by rewrite bool_decide_true by eauto.
    + pose proof (proj2 (Z.eqb_neq _ _) Ek) as ->. cbn [negb].
      eexists. split; [reflexivity|]. auto.
Qed.


(** ** Any sequence of operations *)

Inductive lop := LInsert (k d : Z) | LDelete (k : Z) | LFind (k : Z).
Inductive lres := RBool (b : bool) | RData (d : Z).

(** The dictionary the interface promises (linklist.h). *)
Definition dict_step (o : lop) (m : gmap Z Z) : lres * gmap Z Z :=
  match o with
  | LInsert k d =>
      (RBool (bool_decide (m !! k = None)), match m !! k with None => <[k := d]> m | Some _ => m end)
  | LDelete k => (RBool (bool_decide (is_Some (m !! k))), delete k m)
  | LFind k => (RData (default 0 (m !! k)), m)
  end.

Fixpoint run_dict (ops : list lop) (m : gmap Z Z) : list lres :=
  match ops with
  | [] => []
  | o :: ops => let (r, m) := dict_step o m in r :: run_dict ops m
  end.

Section Runs.
(** The allocator: a fresh, aligned, non-null address. *)
Variable alloc : heap -> Z.
Hypothesis alloc_fresh : forall h, h !! alloc h = None.
Hypothesis alloc_aligned : forall h, Z.even (alloc h) = true /\ alloc h <> 0.

Definition list_step (l : list_t) (o : lop) (h : heap) : option (lres * heap) :=
  match o with
  | LInsert k d => match lstInsert h l k d (Some (alloc h)) with
                   | Some (b, h) => Some (RBool b, h) | None => None end
  | LDelete k => match lstDelete h l k with Some (b, _, h) => Some (RBool b, h) | None => None end
  | LFind k => match lstFind h l k with Some (d, h) => Some (RData d, h) | None => None end
  end.

Fixpoint run_list (l : list_t) (ops : list lop) (h : heap) : option (list lres) :=
  match ops with
  | [] => Some []
  | o :: ops => match list_step l o h with
                | None => None
                | Some (r, h) => match run_list l ops h with
                                 | None => None | Some rs => Some (r :: rs) end
                end
  end.

Lemma list_step_refines l o h m :
  models h l m ->
  exists h', list_step l o h = Some (fst (dict_step o m), h') /\ models h' l (snd (dict_step o m)).
Proof.
  intros M. destruct o as [k d|k|k]; cbn [list_step dict_step fst snd].
  - destruct (alloc_aligned h) as [He Hz].
    destruct (insert_spec h l m k d (alloc h) M (alloc_fresh h) He Hz) as (h' & -> & ?). eauto.
  - destruct (delete_spec h l m k M) as (h' & -> & ?). eauto.
  - destruct (find_spec h l m k M) as (h' & -> & ?). eauto.
Qed.

Lemma run_list_refines l ops h m : models h l m -> run_list l ops h = Some (run_dict ops m).
Proof.
  revert h m. induction ops as [|o ops IH]; intros h m M; [done|]. cbn [run_list run_dict].
  destruct (list_step_refines l o h m M) as (h' & -> & M').
  destruct (dict_step o m) as [r m']. cbn [fst snd] in *. by rewrite (IH h' m' M').
Qed.

End Runs.

(** C10: without interference, every operation of the list terminates without
    touching memory it does not own and answers as the dictionary of its
    interface: inserts refuse a key already present, deletes and finds see
    exactly the last inserted and not deleted data. *)
Theorem list_refines_dict (alloc : heap -> Z) (h : heap) (p : Z) (fn : bool) (ops : list lop) :
  (forall h, h !! alloc h = None) -> (forall h, Z.even (alloc h) = true /\ alloc h <> 0) ->
  Z.even p = true -> p <> 0 ->
  exists l h', lstCreate true true h p fn = Some (l, h') /\
    run_list alloc l ops h' = Some (run_dict ops ∅).
Proof.
  intros Hf Ha He Hz. destruct (create_models h p fn He Hz) as (l & h' & E & M).
  exists l, h'. split; [done|]. by apply run_list_refines.
Qed.

(** A concrete allocator: past the highest address in use. *)
Definition bump (h : heap) : Z := 2 * (1 + foldr Z.max 0 (map_to_list h).*1).

Lemma foldr_max_ge (ls : list Z) x : x ∈ ls -> x <= foldr Z.max 0 ls.
Proof. induction ls; [set_solver|]. intros [->|H]%elem_of_cons; simpl; [lia|]. specialize (IHls H). lia. Qed.

Lemma bump_fresh h : h !! bump h = None.
Proof.
  destruct (h !! bump h) as [n|] eqn:E; [|done]. exfalso.
  assert (Hin : bump h ∈ (map_to_list h).*1).
  { apply list_elem_of_fmap. exists (bump h, n). split; [done|]. by apply elem_of_map_to_list. }
  apply foldr_max_ge in Hin. unfold bump in *. 
  assert (0 <= foldr Z.max 0 (map_to_list h).*1); [|lia].
  generalize ((map_to_list h).*1) as ls. intros ls. clear. induction ls; simpl; lia.
Qed.

Lemma bump_aligned h : Z.even (bump h) = true /\ bump h <> 0.
Proof.
  unfold bump. split; [by rewrite Z.even_mul|].
  assert (0 <= foldr Z.max 0 (map_to_list h).*1); [|lia].
  generalize ((map_to_list h).*1) as ls. intros ls. clear. induction ls; simpl; lia.
Qed.

Lemma list_refines_dict_witness :
  exists l h', lstCreate true true ∅ 16 true = Some (l, h') /\
    run_list bump l [LInsert 9 90; LInsert 4 40; LInsert 9 91; LFind 9; LDelete 4; LFind 4] h'
    = Some [RBool true; RBool true; RBool false; RData 90; RBool true; RData 0].
Proof.
  apply (list_refines_dict bump ∅ 16 true
    [LInsert 9 90; LInsert 4 40; LInsert 9 91; LFind 9; LDelete 4; LFind 4]);
    [exact bump_fresh|exact bump_aligned|reflexivity|discriminate].
Defined.

(** ** Destruction *)

(** Deleting the first node: the search stops there at once. *)
Lemma delete_first h l c cs hk hd :
  chain h (lhead l) (sentinel l hk hd :: c :: cs) -> nmark c = false ->
  lhead l <> loc c ->
  lstDelete h l (nkey c) =
    Some (true, if delete_fn l && negb (ndata c =? 0) then [ndata c] else [],
      delete (loc c) (<[lhead l := mkNode hk hd (first_addr cs)]>
        (<[loc c := mkNode (nkey c) (ndata c) (get_marked_reference (first_addr cs))]> h))).
Proof.
  intros Hc Hm Hne. pose proof (chain_mid h _ [] _ _ Hc) as (Hh & Hc1 & _ & _).
  pose proof (chain_mid h _ [sentinel l hk hd] c cs Hc) as (Hn & Hcs & Hz & He).
  cbn [sentinel loc nkey ndata nmark tag first_addr] in Hh. rewrite Hm in Hn. cbn [tag] in Hn.
  assert (Hes : search h l (nkey c) = Some (loc c, lhead l, h)).
  { unfold search. rewrite Hh. cbn [next search_outer]. rewrite Hh. cbn [next search_scan].
    rewrite even_unmarked, even_unmark by done. apply Z.eqb_neq in Hz. rewrite Hz, Hn.
    cbn [next key]. rewrite even_unmarked by (by eapply chain_even). rewrite Z.ltb_irrefl. cbn [orb].
    rewrite Z.eqb_refl. unfold right_marked. rewrite Hz, Hn. cbn [next].
    by rewrite even_unmarked by (by eapply chain_even). }
  unfold lstDelete. rewrite Hes. pose proof (proj2 (Z.eqb_neq _ _) Hz) as ->. rewrite Hn.
  cbn [key data next]. rewrite Z.eqb_refl. cbn [negb].
  rewrite even_unmarked by (by eapply chain_even).
  unfold delete_unlink_step, CAS. rewrite Hn. cbn [next key data]. rewrite Z.eqb_refl.
  rewrite lookup_insert_ne by done. rewrite Hh. cbn [next key data]. rewrite Z.eqb_refl.
  unfold delete_release. pose proof (proj2 (Z.eqb_neq _ _) Hz) as ->.
  by rewrite lookup_insert_ne, lookup_insert_eq by done.
Qed.

(** The data a list hands to its delete function, in key order. *)
Definition released (l : list_t) (cs : list node) : list Z :=
  if delete_fn l then filter (fun d => d <> 0) (ndata <$> cs) else [].

Lemma released_cons l c cs :
  released l (c :: cs) = (if delete_fn l && negb (ndata c =? 0) then [ndata c] else []) ++ released l cs.
Proof.
  unfold released. destruct (delete_fn l); [|done]. rewrite fmap_cons. cbn [andb].
  destruct (Z.eqb_spec (ndata c) 0).
  - by rewrite filter_cons_False by naive_solver.
  - by rewrite filter_cons_True.
Qed.

Lemma destroy_loop_spec l cs : forall fuel h hk hd,
  chain h (lhead l) (sentinel l hk hd :: cs) -> NoDup (lhead l :: (loc <$> cs)) -> clean cs ->
  (length cs < fuel)%nat ->
  exists h', destroy_loop fuel h l = Some (released l cs, h') /\
    (forall x, x ∈ loc <$> cs -> h' !! x = None) /\
    (forall x, x ∉ lhead l :: (loc <$> cs) -> h' !! x = h !! x).
Proof.
  induction cs as [|c cs IH]; intros [|fuel] h hk hd Hc Hnd Hcl Hf; try (simpl in Hf; lia);
    cbn [destroy_loop]; pose proof (chain_mid h _ [] _ _ Hc) as (Hh & Hc1 & _ & _);
    cbn [sentinel loc nkey ndata nmark tag first_addr] in Hh; rewrite Hh; cbn [next].
  - rewrite even_unmark by done. cbn [Z.eqb]. unfold CAS. rewrite Hh. cbn [next Z.eqb].
    eexists. split; [unfold released; by destruct (delete_fn l)|]. split; [set_solver|].
    intros x Hx. rewrite lookup_insert_ne; set_solver.
  - apply Forall_cons in Hcl as [Hm Hcl]. rewrite fmap_cons in Hnd |- *.
    apply NoDup_cons in Hnd as [Hnh [Hnc Hnd]%NoDup_cons].
    pose proof (chain_mid h _ [sentinel l hk hd] c cs Hc) as (Hn & Hcs & Hz & He).
    rewrite even_unmark by done. pose proof (proj2 (Z.eqb_neq _ _) Hz) as ->. rewrite Hn. cbn [key].
    rewrite (delete_first h l c cs hk hd Hc Hm ltac:(set_solver)).
    set (h1 := delete (loc c) _).
    assert (Hh1 : h1 !! lhead l = Some (mkNode hk hd (first_addr cs))).
    { unfold h1. rewrite lookup_delete_ne by set_solver. apply lookup_insert_eq. }
    assert (Hc' : chain h1 (lhead l) (sentinel l hk hd :: cs)).
    { destruct Hc as (? & ? & ? & q & ? & ?). cbn [chain sentinel loc nkey ndata nmark tag].
      repeat split; try done. exists (first_addr cs). split; [done|].
      eapply chain_frame; [|exact Hcs]. intros x Hx. unfold h1.
      assert (loc x ∈ loc <$> cs) by (apply list_elem_of_fmap; eauto).
      rewrite lookup_delete_ne, !lookup_insert_ne by set_solver. done. }
    unfold CAS. rewrite Hh1. cbn [next key data].
    assert (Hframe : forall x, x ∉ lhead l :: loc c :: (loc <$> cs) -> h1 !! x = h !! x).
    { intros x Hx. unfold h1. rewrite lookup_delete_ne, !lookup_insert_ne by set_solver. done. }
    destruct cs as [|c2 cs].
    + cbn [first_addr Z.eqb]. eexists. split; [|split].
      * rewrite released_cons. unfold released at 1. destruct (delete_fn l); cbn; by rewrite ?app_nil_r.
      * intros x Hx. rewrite lookup_insert_ne by set_solver. unfold h1.
        assert (x = loc c) as -> by set_solver. apply lookup_delete_eq.
      * intros x Hx. rewrite lookup_insert_ne by set_solver. apply Hframe. set_solver.
    + assert (Hz2 : (first_addr (c2 :: cs) =? 0) = false).
      { apply Z.eqb_neq. cbn. destruct Hc' as (_ & _ & _ & q & _ & (_ & ? & _)). done. }
      rewrite Hz2. destruct (IH fuel h1 hk hd Hc') as (h' & -> & Hgone & Hfr).
      { constructor; [set_solver|done]. } { done. } { simpl in *; lia. }
      eexists. split; [by rewrite (released_cons l c (c2 :: cs))|]. split.
      * intros x [->|Hx]%elem_of_cons; [|by apply Hgone].
        rewrite Hfr by set_solver. unfold h1. apply lookup_delete_eq.
      * intros x Hx. rewrite Hfr by set_solver. by apply Hframe.
Qed.

(** Destroying a list terminates, hands the data of every element to the
    delete function exactly once in key order, frees every node and the
    sentinel, and leaves the rest of memory alone. *)
Theorem lstDestroy_releases_all (h : heap) (l : list_t) (cs : list node) :
  wf_list h l cs -> clean cs ->
  exists h', lstDestroy h l = Some (released l cs, h') /\
    (forall x, x ∈ lhead l :: (loc <$> cs) -> h' !! x = None) /\
    (forall x, x ∉ lhead l :: (loc <$> cs) -> h' !! x = h !! x).
Proof.
  intros W Hcl. pose proof (wf_size _ _ _ W) as Hsz. destruct (wf_chain _ _ _ W) as (hk & hd & Hc).
  destruct (destroy_loop_spec l cs (S (size h)) h hk hd Hc (wf_nodup _ _ _ W) Hcl ltac:(lia))
    as (h' & E & Hgone & Hfr).
  unfold lstDestroy. rewrite E. eexists. split; [reflexivity|]. split.
  - intros x Hx. destruct (decide (x = lhead l)) as [->|]; [apply lookup_delete_eq|].
    rewrite lookup_delete_ne by done. apply Hgone. set_solver.
  - intros x Hx. rewrite lookup_delete_ne by set_solver. auto.
Qed.

Definition heap_ex : heap :=
  <[16 := mkNode 0 0 32]> (<[32 := mkNode 4 40 48]> (<[48 := mkNode 9 90 0]> ∅)).
Definition cells_ex : list node := [mkCell 32 4 40 false; mkCell 48 9 90 false].

Lemma wf_ex : wf_list heap_ex (mkList true 16) cells_ex.
Proof.
  split.
  - exists 0, 0. cbn. repeat split; try done. exists 32. repeat split; try done.
    exists 48. repeat split; try done. exists 0. split; done.
  - compute_done.
  - cbn. repeat constructor; lia.
Defined.

Lemma lstDestroy_releases_all_witness :
  exists h', lstDestroy heap_ex (mkList true 16) = Some ([40; 90], h') /\
    (forall x, x ∈ [16; 32; 48] -> h' !! x = None) /\
    (forall x, x ∉ [16; 32; 48] -> h' !! x = heap_ex !! x).
Proof.
  apply (lstDestroy_releases_all heap_ex (mkList true 16) cells_ex wf_ex). repeat constructor.
Defined.


(** ** A delete that loses the race for its unlink *)

(** The list {4, 9} after a delete of key 4 has marked its node (C3) and another
    thread has inserted key 2 before it: the deleter's left node no longer
    points to its right node. *)
Definition heap_race : heap :=
  <[16 := mkNode 0 0 64]> (<[64 := mkNode 2 20 32]> (<[32 := mkNode 4 40 49]> (<[48 := mkNode 9 90 0]> ∅))).

(** When its unlinking CAS fails, [lstDelete] overwrites [right_node] with what the
    clean-up search returns, which is the node after the deleted one: it hands
    that node's data to the delete function and frees it while it is still
    linked, and the deleted node is never freed. *)
Theorem lstDelete_frees_successor :
  exists h', delete_unlink_step heap_race (mkList true 16) 16 32 48 = Some (true, [90], h') /\
    (exists n, h' !! 64 = Some n /\ next n = 48) /\ h' !! 48 = None /\ is_Some (h' !! 32).
Proof.
  eexists. split; [vm_compute; reflexivity|]. split; [|split].
  - eexists. split; vm_compute; reflexivity.
  - vm_compute. reflexivity.
  - eexists. vm_compute. reflexivity.
Qed.

End LinkList.
