(* ===== verification/HttpMatch.v ===== *)
(** * Request and channel store (src/httpmatch.c)

    The reporting thread keeps an HTTP request (or an HTTP/2 channel) by the
    unique id of its socket until the response arrives; [storeExpire] drops the
    entries of sockets that are gone.  A hash table of 257 singly linked lists. *)

From S2P Require Import Prelude Types LinkList.

Module HttpMatch.

Definition HASH_TABLE_SIZE : Z := 257.
Definition NET_ENTRIES : Z := 1024.

(** The fields of a [net_info] the store reads. *)
Record net_info := mkNet { uid : Z; active : bool }.

(** Interface to the list of sockets beyond [NET_ENTRIES] ([extraNetInfo]). *)
Class NetDirectory (T : Type) := lstFind_net : T -> Z -> option net_info.

(** The dictionary specification of it ... *)
#[export] Instance dict_directory : NetDirectory (gmap Z net_info) := fun m id => m !! id.

(** ... and the lock-free list, whose data are addresses of [net_info]s. *)
Record net_list := mkNetList {
  nl_heap : gmap Z LinkList.list_element_t;
  nl_list : LinkList.list_t;
  nl_deref : Z -> option net_info;
}.
#[export] Instance list_directory : NetDirectory net_list := fun t id =>
  match LinkList.lstFind (nl_heap t) (nl_list t) id with
  | Some (d, _) => if d =? 0 then None else nl_deref t d
  | None => None
  end.

(** The list discharges the interface: it finds what its dictionary holds. *)
Lemma list_directory_refines h l m deref id :
  LinkList.models h l m ->
  lstFind_net (mkNetList h l deref) id =
  match m !! id with Some d => if d =? 0 then None else deref d | None => None end.
Proof.
  intros M. destruct (LinkList.find_spec h l m id M) as (h' & E & _).
  unfold lstFind_net, list_directory. cbn [nl_heap nl_list nl_deref]. rewrite E.
  by destruct (m !! id).
Qed.

Section Store.
Context {D : Type} {T : Type} `{!NetDirectory T}.

Record hashTable_t := mkItem {
  sockid : Z;          (* uint64_t *)
  sockfd : Z;          (* int *)
  data : D;            (* void*, not NULL *)
  circBufCount : Z;    (* uint64_t, non-zero: to be expired *)
}.

Record stats_t := mkStats {
  totalSaves : Z; totalDeletes : Z; totalExpires : Z; maxListLen : Z }.

Record store_t := mkStore {
  hashTable : list (list hashTable_t);
  netInfo : list net_info;
  extraNetInfo : T;
  cbufSize : Z;        (* size_t *)
  stats : stats_t;
}.

(** [qlen]: the environment's queue length, as whether [strtoul] set [errno],
    and the number it returned. *)
Definition storeCreate (ok : bool) (net : option (list net_info)) (extra : option T) (freeData : bool)
    (qlen : option (bool * Z)) : option store_t :=
  match net, extra with
  | Some net, Some extra =>
      if negb freeData then None else
      if negb ok then None else
      let size := match qlen with
                  | Some (errno, q) => if negb errno && negb (q =? 0) then q else DEFAULT_CBUF_SIZE
                  | None => DEFAULT_CBUF_SIZE
                  end in
      Some (mkStore (replicate (Z.to_nat HASH_TABLE_SIZE) []) net extra size (mkStats 0 0 0 0))
  | _, _ => None
  end.

Definition hashOfKey (key : Z) : Z := key mod HASH_TABLE_SIZE.

(** The list [*hashListForKey(match, key)], and storing a new one there. *)
Definition hashListForKey (s : store_t) (key : Z) : list hashTable_t :=
  default [] (hashTable s !! Z.to_nat (hashOfKey key)).
Definition setList (s : store_t) (key : Z) (l : list hashTable_t) : store_t :=
  mkStore (set_at (hashTable s) (hashOfKey key) l) (netInfo s) (extraNetInfo s) (cbufSize s) (stats s).

Definition setStats (s : store_t) (st : stats_t) : store_t :=
  mkStore (hashTable s) (netInfo s) (extraNetInfo s) (cbufSize s) st.

(** [freeData] is called on the data; the freed data are part of the results. *)
Definition deleteHashTableItem (it : hashTable_t) : list D := [data it].

Definition deleteList (l : list hashTable_t) : list D := flat_map deleteHashTableItem l.

Definition deleteAllLists (s : store_t) : list D := flat_map deleteList (hashTable s).

(** The freed data and the NULL left in the pointer. *)
Definition storeDestroy (s : option store_t) : list D * option store_t :=
  match s with None => ([], None) | Some s => (deleteAllLists s, None) end.

Definition createHashTableItem (ok : bool) (d : option D) (id fd : Z) : option hashTable_t :=
  match d with
  | None => None
  | Some d => if ok then Some (mkItem id fd d 0) else None
  end.

(** Walk to the end of the list; [None] on a duplicate. *)
Fixpoint addHashTableItemToList (l : list hashTable_t) (it : hashTable_t)
  : option (list hashTable_t) :=
  match l with
  | [] => Some [it]
  | c :: l => if sockid c =? sockid it then None
              else match addHashTableItemToList l it with
                   | Some l => Some (c :: l) | None => None end
  end.

Definition storeSave (ok : bool) (store : option store_t) (d : option D) (id fd : Z)
  : bool * option store_t :=
  match store, d with
  | Some s, Some _ =>
      match createHashTableItem ok d id fd with
      | None => (false, Some s)
      | Some it =>
          match addHashTableItemToList (hashListForKey s id) it with
          | None => (false, Some s)
          | Some l =>
              let s := setList s id l in
              let st := stats s in
              (true, Some (setStats s (mkStats (u64 (totalSaves st + 1)) (totalDeletes st)
                                         (totalExpires st) (maxListLen st))))
          end
      end
  | _, _ => (false, store)
  end.

Fixpoint findHashTableItemFromList (l : list hashTable_t) (id : Z) : option hashTable_t :=
  match l with
  | [] => None
  | c :: l => if sockid c =? id then Some c else findHashTableItemFromList l id
  end.

Definition storeGet (store : option store_t) (id : Z) : option D :=
  match store with
  | None => None
  | Some s => match findHashTableItemFromList (hashListForKey s id) id with
              | None => None | Some it => Some (data it) end
  end.

(** The first item with the id, unlinked, and the remaining list. *)
Fixpoint unlinkItem (l : list hashTable_t) (id : Z) : option (hashTable_t * list hashTable_t) :=
  match l with
  | [] => None
  | c :: l => if sockid c =? id then Some (c, l)
              else match unlinkItem l id with
                   | Some (it, l) => Some (it, c :: l) | None => None end
  end.

(** Result, store, freed data. *)
Definition storeDelete (store : option store_t) (id : Z) : bool * option store_t * list D :=
  match store with
  | None => (false, None, [])
  | Some s =>
      match unlinkItem (hashListForKey s id) id with
      | None => (true, Some s, [])
      | Some (it, l) =>
          let s := setList s id l in
          let st := stats s in
          (true, Some (setStats s (mkStats (totalSaves st) (u64 (totalDeletes st + 1))
                                     (totalExpires st) (maxListLen st))),
           deleteHashTableItem it)
      end
  end.

(** ** Expiry *)

Section Expire.
Variables (s : store_t) (count : Z) (circBufWasEmptied : bool).

Definition is_expired (it : hashTable_t) : bool :=
  let circBufHasWrapped := u64 (circBufCount it + cbufSize s) <? count in
  negb (circBufCount it =? 0) && (circBufWasEmptied || circBufHasWrapped).

Definition netFor (it : hashTable_t) : option net_info :=
  if (sockfd it <? 0) || (NET_ENTRIES <=? sockfd it)
  then lstFind_net (extraNetInfo s) (sockid it)
  else netInfo s !! Z.to_nat (sockfd it).

(** Mark the entry when the datapath no longer uses its id. *)
Definition markItem (it : hashTable_t) : hashTable_t :=
  let unused := match netFor it with
                | None => true
                | Some net => negb (uid net =? sockid it) || negb (active net)
                end in
  if unused && (circBufCount it =? 0) then mkItem (sockid it) (sockfd it) (data it) count else it.

(** The [while (current)] loop over one list.  [front] are the nodes from
    [*listptr] up to the current one; [previous] tells whether the variable
    [previous] is set: it then is the last node of [front].  Deleting a node
    sets [current], and so [previous], to NULL, and unlinking with a NULL
    [previous] makes the next node the head of the list.  Results: the list, the
    freed data, the number of items deleted and of items visited. *)
Fixpoint expireLoop (front : list hashTable_t) (previous : bool) (rest : list hashTable_t)
  : list hashTable_t * list D * Z * Z :=
  match rest with
  | [] => (front, [], 0, 0)
  | current :: next =>
      if is_expired current then
        let front := if previous then front else [] in
        let '(l, freed, n, len) := expireLoop front false next in
        (l, deleteHashTableItem current ++ freed, n + 1, len + 1)
      else
        let '(l, freed, n, len) := expireLoop (front ++ [markItem current]) true next in
        (l, freed, n, len + 1)
  end.

Fixpoint expireLists (ls : list (list hashTable_t)) (st : stats_t)
  : list (list hashTable_t) * list D * stats_t :=
  match ls with
  | [] => ([], [], st)
  | l :: ls =>
      let '(l, freed, n, len) := expireLoop [] false l in
      let st := mkStats (totalSaves st) (totalDeletes st) (u64 (totalExpires st + n))
                  (if maxListLen st <? len then len else maxListLen st) in
      let '(ls, freed', st) := expireLists ls st in
      (l :: ls, freed ++ freed', st)
  end.

End Expire.

Definition storeExpire (store : option store_t) (count : Z) (circBufWasEmptied : bool)
  : bool * option store_t * list D :=
  match store with
  | None => (false, None, [])
  | Some s =>
      let '(ls, freed, st) := expireLists s count circBufWasEmptied (hashTable s) (stats s) in
      (true, Some (mkStore ls (netInfo s) (extraNetInfo s) (cbufSize s) st), freed)
  end.

(** ** Refinement to a dictionary *)

Record store_ok (s : store_t) : Prop := {
  ok_len : length (hashTable s) = Z.to_nat HASH_TABLE_SIZE;
  ok_nodup : forall id, NoDup (sockid <$> hashListForKey s id);
  ok_hash : forall id it, it ∈ hashListForKey s id -> hashOfKey (sockid it) = hashOfKey id;
}.

(** The store holds the dictionary [m] from socket ids to data. *)
Definition holds (s : store_t) (m : gmap Z D) : Prop :=
  store_ok s /\ forall id, storeGet (Some s) id = m !! id.

Lemma hash_range id : 0 <= hashOfKey id < HASH_TABLE_SIZE.
Proof. apply Z.mod_pos_bound. done. Qed.

Lemma list_set_get s k l id :
  store_ok s ->
  hashListForKey (setList s k l) id = if decide (hashOfKey k = hashOfKey id) then l else hashListForKey s id.
Proof.
  intros H. unfold hashListForKey, setList, set_at. cbn [hashTable].
  pose proof (hash_range k). pose proof (hash_range id). pose proof (ok_len _ H).
  case_decide as E.
  - rewrite <- E, list_lookup_insert_eq by lia. done.
  - rewrite list_lookup_insert_ne by lia. done.
Qed.

Lemma find_some l id it : findHashTableItemFromList l id = Some it -> it ∈ l /\ sockid it = id.
Proof.
  induction l as [|c l IH]; simpl; [done|]. destruct (Z.eqb_spec (sockid c) id).
  - intros [= ->]. split; [left|done].
  - intros ?%IH. set_solver.
Qed.

Lemma find_none l id : findHashTableItemFromList l id = None <-> id ∉ sockid <$> l.
Proof.
  induction l as [|c l IH]; simpl; [split; [intros _; set_solver|done]|].
  destruct (Z.eqb_spec (sockid c) id); set_solver.
Qed.

Lemma find_app l k id :
  findHashTableItemFromList (l ++ k) id =
  match findHashTableItemFromList l id with Some it => Some it | None => findHashTableItemFromList k id end.
Proof. induction l as [|c l IH]; simpl; [done|]. by destruct (sockid c =? id). Qed.

Lemma add_spec l it :
  addHashTableItemToList l it =
  match findHashTableItemFromList l (sockid it) with Some _ => None | None => Some (l ++ [it]) end.
Proof.
  induction l as [|c l IH]; simpl; [done|]. destruct (sockid c =? sockid it); [done|].
  rewrite IH. by destruct (findHashTableItemFromList l (sockid it)).
Qed.

Lemma unlink_spec l id :
  match unlinkItem l id with
  | None => findHashTableItemFromList l id = None
  | Some (it, l') => findHashTableItemFromList l id = Some it /\
      (exists a b, l = a ++ it :: b /\ l' = a ++ b)
  end.
Proof.
  induction l as [|c l IH]; simpl; [done|]. destruct (sockid c =? id).
  - split; [done|]. exists [], l. done.
  - destruct (unlinkItem l id) as [[it l']|]; [|done].
    destruct IH as (? & a & b & -> & ->). split; [done|]. by exists (c :: a), b.
Qed.

Lemma stats_hashList s st id : hashListForKey (setStats s st) id = hashListForKey s id.
Proof. done. Qed.

Lemma get_set s k l id st :
  store_ok s ->
  storeGet (Some (setStats (setList s k l) st)) id =
  data <$> findHashTableItemFromList
             (if decide (hashOfKey k = hashOfKey id) then l else hashListForKey s id) id.
Proof.
  intros H. unfold storeGet. rewrite stats_hashList, list_set_get by done.
  by destruct (findHashTableItemFromList _ id).
Qed.

Lemma get_eq s id : storeGet (Some s) id = data <$> findHashTableItemFromList (hashListForKey s id) id.
Proof. unfold storeGet. by destruct (findHashTableItemFromList _ id). Qed.

Lemma set_ok s k l st :
  store_ok s -> NoDup (sockid <$> l) -> (forall it, it ∈ l -> hashOfKey (sockid it) = hashOfKey k) ->
  store_ok (setStats (setList s k l) st).
Proof.
  intros H Hn Hh. split.
  - unfold setStats, setList, set_at. cbn [hashTable]. rewrite length_insert. apply H.
  - intros id. rewrite stats_hashList, list_set_get by done. case_decide; [done|apply H].
  - intros id it. rewrite stats_hashList, list_set_get by done.
    case_decide as E; [rewrite <- E; apply Hh|apply H].
Qed.

Lemma save_holds s m d id fd :
  holds s m ->
  exists s', storeSave true (Some s) (Some d) id fd = (bool_decide (m !! id = None), Some s') /\
    holds s' (match m !! id with None => <[id := d]> m | Some _ => m end).
Proof.
  intros [H Hg]. unfold storeSave. cbn [createHashTableItem]. rewrite add_spec. cbn [sockid].
  pose proof (Hg id) as Hid. rewrite get_eq in Hid.
  destruct (findHashTableItemFromList (hashListForKey s id) id) as [it|] eqn:E; simpl in Hid.
  - rewrite <- Hid. eexists. split; [done|]. by split.
  - rewrite <- Hid. rewrite bool_decide_true by done. eexists. split; [reflexivity|].
    pose proof (proj1 (find_none _ _) E) as Hnin. split.
    + apply set_ok; [done| |].
      * rewrite fmap_app. apply NoDup_app. split; [apply H|]. cbn.
        split; [|apply NoDup_singleton]. intros x Hx Hi%list_elem_of_singleton. by subst.
      * intros it [Hin|Hi%list_elem_of_singleton]%elem_of_app; [by apply H|by subst].
    + intros id'. rewrite get_set by done. case_decide as Eh.
      * rewrite find_app. destruct (decide (id = id')) as [->|Hne].
        -- rewrite E. cbn. rewrite Z.eqb_refl. by rewrite lookup_insert_eq.
        -- rewrite lookup_insert_ne, <- Hg, get_eq by done. unfold hashListForKey. rewrite Eh. cbn.
           apply Z.eqb_neq in Hne. rewrite Hne. by destruct (findHashTableItemFromList _ id').
      * rewrite lookup_insert_ne, <- Hg, get_eq by congruence. done.
Qed.

Lemma find_remove a it b id :
  NoDup (sockid <$> (a ++ it :: b)) ->
  findHashTableItemFromList (a ++ b) id =
  if decide (id = sockid it) then None else findHashTableItemFromList (a ++ it :: b) id.
Proof.
  intros Hn. rewrite fmap_app, fmap_cons in Hn. case_decide as E.
  - subst. apply find_none. rewrite fmap_app.
    apply NoDup_app in Hn as (_ & Ha & [Hb _]%NoDup_cons). set_solver.
  - rewrite !find_app. cbn. assert ((sockid it =? id) = false) as -> by (by apply Z.eqb_neq). done.
Qed.

Lemma delete_holds s m id :
  holds s m ->
  exists s', storeDelete (Some s) id = (true, Some s', match m !! id with Some d => [d] | None => [] end) /\
    holds s' (delete id m).
Proof.
  intros [H Hg]. unfold storeDelete. pose proof (unlink_spec (hashListForKey s id) id) as U.
  pose proof (Hg id) as Hid. rewrite get_eq in Hid.
  destruct (unlinkItem (hashListForKey s id) id) as [[it l']|].
  - destruct U as (E & a & b & Hl & ->). rewrite E in Hid. simpl in Hid. rewrite <- Hid.
    eexists. split; [reflexivity|]. destruct (find_some _ _ _ E) as [_ Hsk].
    pose proof (ok_nodup _ H id) as Hnd. rewrite Hl in Hnd. split.
    + apply set_ok; [done| |].
      * rewrite fmap_app, fmap_cons in Hnd. rewrite fmap_app.
        apply NoDup_app in Hnd as (? & ? & [? ?]%NoDup_cons). apply NoDup_app. set_solver.
      * intros it' Hin. apply (ok_hash _ H id). rewrite Hl. set_solver.
    + intros id'. rewrite get_set by done. case_decide as Eh.
      * rewrite (find_remove a it b id' Hnd), Hsk. case_decide as Ei.
        -- subst id'. by rewrite lookup_delete_eq.
        -- rewrite lookup_delete_ne, <- Hg, get_eq by done.
           unfold hashListForKey in *. rewrite <- Eh, Hl. done.
      * rewrite lookup_delete_ne, <- Hg, get_eq by congruence. done.
  - rewrite U in Hid. simpl in Hid. rewrite <- Hid. eexists. split; [reflexivity|].
    rewrite delete_id by done. by split.
Qed.

Lemma create_holds net extra qlen :
  exists s, storeCreate true (Some net) (Some extra) true qlen = Some s /\ holds s ∅ /\
    netInfo s = net /\ extraNetInfo s = extra.
Proof.
  eexists. split; [reflexivity|].
  assert (E : forall sz st id, hashListForKey
            (mkStore (replicate (Z.to_nat HASH_TABLE_SIZE) []) net extra sz st) id = []).
  { intros. unfold hashListForKey. cbn [hashTable]. pose proof (hash_range id).
    by rewrite lookup_replicate_2 by lia. }
  split; [|done]. split; [split|].
  - apply length_replicate.
  - intros id. rewrite E. constructor.
  - intros id it. rewrite E. set_solver.
  - intros id. rewrite get_eq, E. done.
Qed.

Inductive store_op := Save (d : D) (id fd : Z) | Get (id : Z) | Delete (id : Z).

(** Result code, data returned, data freed. *)
Definition op_result : Type := bool * option D * list D.

Definition dict_op (o : store_op) (m : gmap Z D) : op_result * gmap Z D :=
  match o with
  | Save d id _ => ((bool_decide (m !! id = None), None, []),
                    match m !! id with None => <[id := d]> m | Some _ => m end)
  | Get id => ((true, m !! id, []), m)
  | Delete id => ((true, None, match m !! id with Some d => [d] | None => [] end), delete id m)
  end.

Definition impl_op (o : store_op) (s : option store_t) : op_result * option store_t :=
  match o with
  | Save d id fd => let (b, s) := storeSave true s (Some d) id fd in ((b, None, []), s)
  | Get id => ((true, storeGet s id, []), s)
  | Delete id => let '(b, s, freed) := storeDelete s id in ((b, None, freed), s)
  end.

Fixpoint run {S} (step : store_op -> S -> op_result * S) (ops : list store_op) (s : S) : list op_result :=
  match ops with [] => [] | o :: ops => let (r, s) := step o s in r :: run step ops s end.

Lemma run_refines ops s m : holds s m -> run impl_op ops (Some s) = run dict_op ops m.
Proof.
  revert s m. induction ops as [|o ops IH]; intros s m H; [done|]. cbn [run].
  destruct o as [d id fd|id|id]; cbn [impl_op dict_op].
  - destruct (save_holds s m d id fd H) as (s' & -> & ?). f_equal. by apply IH.
  - destruct H as [? Hg]. rewrite Hg. f_equal. apply IH. by split.
  - destruct (delete_holds s m id H) as (s' & -> & ?). f_equal. by apply IH.
Qed.

(** ** Expiry of one list *)

Section ExpireList.
Variables (s : store_t) (count : Z) (emptied : bool).
Local Abbreviation dead := (is_expired s count emptied).
Local Abbreviation mark := (markItem s count).
Local Abbreviation loop := (expireLoop s count emptied).

Definition kept (l : list hashTable_t) : list hashTable_t :=
  mark <$> filter (fun it => dead it = false) l.
Definition gone (l : list hashTable_t) : list hashTable_t := filter (fun it => dead it = true) l.

(** No two neighbours of the list expire together. *)
Fixpoint no_adjacent (l : list hashTable_t) : bool :=
  match l with
  | x :: (y :: _) as l' => negb (dead x && dead y) && no_adjacent l'
  | _ => true
  end.

(** Freed data and counters do not depend on [front] and [previous]. *)
Lemma loop_freed front prev rest :
  let '(_, freed, n, len) := loop front prev rest in
  freed = data <$> gone rest /\ n = Z.of_nat (length (gone rest)) /\ len = Z.of_nat (length rest).
Proof.
  revert front prev. induction rest as [|c rest IH]; intros front prev; [done|].
  cbn [expireLoop]. unfold gone in *. destruct (dead c) eqn:E.
  - specialize (IH (if prev then front else []) false).
    destruct (loop (if prev then front else []) false rest) as [[[l fr] n] len].
    destruct IH as (-> & -> & ->). rewrite filter_cons_True by done. cbn. repeat split; lia.
  - specialize (IH (front ++ [mark c]) true).
    destruct (loop (front ++ [mark c]) true rest) as [[[l fr] n] len].
    destruct IH as (-> & -> & ->). rewrite filter_cons_False by congruence. repeat split; simpl; lia.
Qed.

Lemma loop_list front prev rest :
  no_adjacent rest = true ->
  (prev = false -> front = [] \/ match rest with c :: _ => dead c = false | [] => True end) ->
  (loop front prev rest).1.1.1 = front ++ kept rest.
Proof.
  revert front prev. induction rest as [|c rest IH]; intros front prev Hadj Hp.
  { cbn. by rewrite app_nil_r. }
  assert (Hadj' : no_adjacent rest = true).
  { destruct rest; [done|]. cbn in Hadj. by apply andb_true_iff in Hadj as [_ ?]. }
  cbn [expireLoop]. unfold kept in *. destruct (dead c) eqn:E.
  - rewrite filter_cons_False by congruence.
    assert (Hfront : (if prev then front else []) = front).
    { destruct prev; [done|]. destruct (Hp eq_refl) as [->|]; [done|congruence]. }
    rewrite Hfront. specialize (IH front false Hadj').
    destruct (loop front false rest) as [[[l fr] n] len]. cbn [fst] in *. apply IH.
    intros _. destruct rest as [|d rest]; [by right|]. right. cbn in Hadj. rewrite E in Hadj.
    by destruct (dead d).
  - rewrite filter_cons_True by done. specialize (IH (front ++ [mark c]) true Hadj').
    destruct (loop (front ++ [mark c]) true rest) as [[[l fr] n] len]. cbn [fst] in *.
    rewrite IH by done. by rewrite <- app_assoc.
Qed.

(** What survives comes from the current front or the rest. *)
Lemma loop_bound front prev rest x :
  x ∈ (loop front prev rest).1.1.1 -> x ∈ front \/ x ∈ kept rest.
Proof.
  revert front prev. induction rest as [|c rest IH]; intros front prev; [by left|].
  cbn [expireLoop]. unfold kept in *. destruct (dead c) eqn:E.
  - specialize (IH (if prev then front else []) false).
    destruct (loop (if prev then front else []) false rest) as [[[l fr] n] len]. cbn [fst] in *.
    rewrite filter_cons_False by congruence. intros [?|?]%IH; [|by right]. destruct prev; [by left|set_solver].
  - specialize (IH (front ++ [mark c]) true).
    destruct (loop (front ++ [mark c]) true rest) as [[[l fr] n] len]. cbn [fst] in *.
    rewrite filter_cons_True by done. intros [H|?]%IH; set_solver.
Qed.

(** Two neighbours that expire together unlink everything before them. *)
Lemma loop_adjacent front prev a x y b :
  dead x = true -> dead y = true ->
  (loop front prev (a ++ x :: y :: b)).1.1.1 = (loop [] false b).1.1.1.
Proof.
  intros Hx Hy. revert front prev. induction a as [|c a IH]; intros front prev; cbn [app expireLoop].
  - rewrite Hx, Hy. destruct (loop [] false b) as [[[l fr] n] len]. done.
  - destruct (dead c).
    + specialize (IH (if prev then front else []) false).
      destruct (loop (if prev then front else []) false _) as [[[l fr] n] len]. done.
    + specialize (IH (front ++ [mark c]) true).
      destruct (loop (front ++ [mark c]) true _) as [[[l fr] n] len]. done.
Qed.

Lemma find_kept l id :
  NoDup (sockid <$> l) ->
  data <$> findHashTableItemFromList (kept l) id =
  match findHashTableItemFromList l id with
  | Some it => if dead it then None else Some (data it)
  | None => None
  end.
Proof.
  assert (Hm : forall it, sockid (mark it) = sockid it /\ data (mark it) = data it).
  { intros it. unfold markItem. by destruct (_ && _). }
  induction l as [|c l IH]; intros Hn; [done|]. rewrite fmap_cons in Hn.
  apply NoDup_cons in Hn as [Hc Hn]. unfold kept in *. cbn [findHashTableItemFromList].
  destruct (dead c) eqn:E.
  - rewrite filter_cons_False by congruence. rewrite IH by done.
    destruct (Z.eqb_spec (sockid c) id) as [<-|]; [|done].
    apply find_none in Hc. by rewrite Hc, E.
  - rewrite filter_cons_True, fmap_cons by done. cbn [findHashTableItemFromList].
    destruct (Hm c) as [-> Hd]. destruct (sockid c =? id); [|by apply IH].
    rewrite E. simpl. by rewrite Hd.
Qed.

Lemma expireLists_lists ls st :
  (expireLists s count emptied ls st).1.1 = (fun l => (loop [] false l).1.1.1) <$> ls.
Proof.
  revert st. induction ls as [|l ls IH]; intros st; [done|]. cbn [expireLists].
  destruct (loop [] false l) as [[[l' fr] n] len] eqn:E.
  match goal with |- context [expireLists s count emptied ls ?st'] => specialize (IH st');
    destruct (expireLists s count emptied ls st') as [[ls' fr'] st''] end.
  cbn [fst] in *. rewrite fmap_cons, E, IH. done.
Qed.

Lemma expireLists_freed ls st :
  (expireLists s count emptied ls st).1.2 = flat_map (fun l => data <$> gone l) ls.
Proof.
  revert st. induction ls as [|l ls IH]; intros st; [done|]. cbn [expireLists flat_map].
  pose proof (loop_freed [] false l) as L. destruct (loop [] false l) as [[[l' fr] n] len].
  match goal with |- context [expireLists s count emptied ls ?st'] => specialize (IH st');
    destruct (expireLists s count emptied ls st') as [[ls' fr'] st''] end.
  cbn [fst snd] in *. destruct L as (-> & _). by rewrite IH.
Qed.

End ExpireList.

Lemma expire_list_get s count emptied s' b freed id :
  storeExpire (Some s) count emptied = (b, Some s', freed) ->
  hashListForKey s' id = (expireLoop s count emptied [] false (hashListForKey s id)).1.1.1.
Proof.
  unfold storeExpire. intros E.
  pose proof (expireLists_lists s count emptied (hashTable s) (stats s)) as L.
  destruct (expireLists s count emptied (hashTable s) (stats s)) as [[ls fr] st].
  injection E as <- <- <-. cbn [fst] in L. subst ls. unfold hashListForKey. cbn [hashTable].
  rewrite list_lookup_fmap. by destruct (hashTable s !! Z.to_nat (hashOfKey id)).
Qed.

End Store.

Arguments hashTable_t : clear implicits.
Arguments store_t : clear implicits.

(** ** Entry points *)

Definition httpMatchCreate {T} := @storeCreate http_map T.
Definition httpMatchDestroy {T} := @storeDestroy http_map T.
Definition httpReqSave {T} (ok : bool) (m : option (store_t http_map T)) (r : option http_map)
  : bool * option (store_t http_map T) :=
  match r with
  | None => (false, m)
  | Some q => storeSave ok m r (hid_uid (hm_id q)) (hid_sockfd (hm_id q))
  end.
Definition httpReqGet {T} := @storeGet http_map T.
Definition httpReqDelete {T} := @storeDelete http_map T.
Definition httpReqExpire {T} `{!NetDirectory T} := @storeExpire http_map T _.

(** A channel store keeps data of any type [C] ([http2Channel_t]). *)
Definition channelStoreCreate {C T} := @storeCreate C T.
Definition channelStoreDestroy {C T} := @storeDestroy C T.
Definition channelSave {C T} := @storeSave C T.
Definition channelGet {C T} := @storeGet C T.
Definition channelDelete {C T} := @storeDelete C T.
Definition channelExpire {C T} `{!NetDirectory T} := @storeExpire C T _.

(** C19: while allocations succeed, a new store answers every sequence of saves,
    gets and deletes as a dictionary from socket ids to data: a save refuses an
    id in use and keeps the first data, a get returns what was saved, and a
    delete frees exactly the data it removes. *)
Theorem store_refines_dict {D T} (net : list net_info) (extra : T) (qlen : option (bool * Z))
    (ops : list (@store_op D)) :
  run impl_op ops (storeCreate true (Some net) (Some extra) true qlen) = run dict_op ops ∅.
Proof.
  destruct (create_holds (D := D) net extra qlen) as (s & -> & H & _). by apply run_refines.
Qed.

(** As long as no two neighbours in a bucket expire together, an expiry
    pass removes exactly the entries that are due (marked, and the event buffer
    was emptied or has wrapped since), keeps every other entry reachable with its
    data, and frees exactly the data of the removed entries. *)
Theorem expire_removes_due {D T} `{!NetDirectory T} (s s' : store_t D T) (count : Z) (emptied b : bool)
    (freed : list D) (m : gmap Z D) :
  holds s m -> (forall id, no_adjacent s count emptied (hashListForKey s id) = true) ->
  storeExpire (Some s) count emptied = (b, Some s', freed) ->
  (forall id, storeGet (Some s') id =
     match findHashTableItemFromList (hashListForKey s id) id with
     | Some it => if is_expired s count emptied it then None else Some (data it)
     | None => None
     end) /\
  freed = flat_map (fun l => data <$> filter (fun it => is_expired s count emptied it = true) l) (hashTable s).
Proof.
  intros [Hok _] Hadj E. split.
  - intros id. rewrite get_eq, (expire_list_get s count emptied s' b freed id E).
    rewrite loop_list by auto. by apply find_kept, Hok.
  - unfold storeExpire in E. pose proof (expireLists_freed s count emptied (hashTable s) (stats s)) as F.
    destruct (expireLists s count emptied (hashTable s) (stats s)) as [[ls fr] st].
    injection E as _ _ <-. exact F.
Qed.

(** Two neighbours of a bucket that expire together take every entry before
    them along: after such a pass the list holds only entries from behind the
    pair, although none of the lost entries was freed, whether due or not. *)
Theorem expire_adjacent_loses {D T} `{!NetDirectory T} (s s' : store_t D T) (count : Z) (emptied b : bool)
    (freed : list D) (id : Z) (before after : list (hashTable_t D)) (x y : hashTable_t D) :
  hashListForKey s id = before ++ x :: y :: after ->
  is_expired s count emptied x = true -> is_expired s count emptied y = true ->
  storeExpire (Some s) count emptied = (b, Some s', freed) ->
  forall it, it ∈ hashListForKey s' id ->
    it ∈ (markItem s count <$> filter (fun it => is_expired s count emptied it = false) after).
Proof.
  intros Hl Hx Hy E it. rewrite (expire_list_get s count emptied s' b freed id E), Hl.
  rewrite loop_adjacent by done. intros [?|?]%loop_bound; [set_solver|done].
Qed.

(** *** Concrete stores *)

Abbreviation dict := (gmap Z net_info).
Definition empty_ex : store_t Z dict :=
  mkStore (replicate (Z.to_nat HASH_TABLE_SIZE) []) [] ∅ 100 (mkStats 0 0 0 0).
Definition store_with (l : list (hashTable_t Z)) : store_t Z dict :=
  setStats (setList empty_ex 5 l) (mkStats 0 0 0 0).

Lemma empty_list id : hashListForKey empty_ex id = [].
Proof.
  unfold hashListForKey. cbn [empty_ex hashTable]. pose proof (hash_range id).
  by rewrite lookup_replicate_2 by lia.
Qed.

Lemma empty_ok : store_ok empty_ex.
Proof.
  split.
  - apply length_replicate.
  - intros. rewrite empty_list. constructor.
  - intros id it. rewrite empty_list. set_solver.
Qed.

Lemma store_with_list l id :
  hashListForKey (store_with l) id = if decide (5 = hashOfKey id) then l else [].
Proof.
  unfold store_with. rewrite stats_hashList, list_set_get by apply empty_ok.
  by rewrite empty_list.
Qed.

(** Two entries of one bucket: the first marked for expiry, the second in use. *)
Definition due_ex : list (hashTable_t Z) := [mkItem 5 3 50 1; mkItem 262 4 60 0].

Lemma due_holds : holds (store_with due_ex) (<[5 := 50]> (<[262 := 60]> ∅)).
Proof.
  split.
  - apply set_ok; [apply empty_ok|compute_done|].
    intros it [->|[->|[]%elem_of_nil]%elem_of_cons]%elem_of_cons; done.
  - intros id. unfold store_with. rewrite get_set by apply empty_ok.
    destruct (decide (id = 5)) as [->|H5]; [by rewrite lookup_insert_eq|].
    rewrite lookup_insert_ne by done.
    destruct (decide (id = 262)) as [->|H262]; [by rewrite lookup_insert_eq|].
    rewrite lookup_insert_ne, lookup_empty by done. rewrite empty_list.
    case_decide; [|done]. cbn [due_ex findHashTableItemFromList sockid].
    destruct (Z.eqb_spec 5 id); [congruence|]. destruct (Z.eqb_spec 262 id); [congruence|done].
Qed.

Lemma expire_removes_due_witness :
  exists s' freed, storeExpire (Some (store_with due_ex)) 10 true = (true, Some s', freed) /\
    freed = [50] /\ storeGet (Some s') 5 = None /\ storeGet (Some s') 262 = Some 60.
Proof.
  destruct (storeExpire (Some (store_with due_ex)) 10 true) as [[b [s'|]] freed] eqn:E.
  2: { exfalso. revert E. vm_compute. discriminate. }
  destruct (expire_removes_due (store_with due_ex) s' 10 true b freed _ due_holds) as [Hg Hf]; [|done|].
  - intros id. rewrite store_with_list. by case_decide.
  - exists s', freed. split; [|split; [|split]].
    + f_equal. f_equal. revert E. vm_compute. congruence.
    + rewrite Hf. vm_compute. reflexivity.
    + rewrite Hg. vm_compute. reflexivity.
    + rewrite Hg. vm_compute. reflexivity.
Defined.

(** An entry in use before two that are due. *)
Definition lost_ex : list (hashTable_t Z) := [mkItem 5 3 50 0; mkItem 262 4 60 1; mkItem 519 4 70 1].

Lemma expire_adjacent_loses_witness :
  exists s', storeExpire (Some (store_with lost_ex)) 10 true = (true, Some s', [60; 70]) /\
    storeGet (Some (store_with lost_ex)) 5 = Some 50 /\ storeGet (Some s') 5 = None.
Proof.
  destruct (storeExpire (Some (store_with lost_ex)) 10 true) as [[b [s'|]] freed] eqn:E.
  2: { exfalso. revert E. vm_compute. discriminate. }
  exists s'. split; [|split].
  - revert E. vm_compute. congruence.
  - vm_compute. reflexivity.
  - rewrite get_eq. destruct (hashListForKey s' 5) as [|it l] eqn:El; [done|]. exfalso.
    assert (Hin : it ∈ hashListForKey s' 5) by (rewrite El; left).
    pose proof (expire_adjacent_loses (store_with lost_ex) s' 10 true b freed 5
      [mkItem 5 3 50 0] [] (mkItem 262 4 60 1) (mkItem 519 4 70 1)
      ltac:(by rewrite store_with_list) eq_refl eq_refl E it Hin) as H.
    by apply elem_of_nil in H.
Defined.

End HttpMatch.
