(* ===== verification/HttpState.v ===== *)
(** * HTTP stream state (src/httpstate.c, src/evtutils.c)

    The intercepted payload of a socket arrives in arbitrary pieces; per
    direction an [http_state_t] accumulates HTTP/1 header blocks and partial
    HTTP/2 frames and posts what is complete.  This file holds the operations;
    [HttpSafety], [HttpFrames] and [HttpHeaders] hold their theorems. *)

From S2P Require Import Prelude StrSearch Types.
Import StrSearch.

Module HttpState.

(** ** Data (state_private.h, report.h) *)

Definition NETRX : Z := 10.
Definition NETTX : Z := 11.
Definition EVT_PROTO : Z := 51.
Definition EVT_HREQ : Z := 52.
Definition EVT_HRES : Z := 53.
Definition EVT_H2FRAME : Z := 54.
Definition TLSRX : Z := 58.
Definition TLSTX : Z := 59.
Definition SOCK_STREAM : Z := 1.

Inductive http_enum_t := HTTP_NONE | HTTP_HDR | HTTP_HDREND | HTTP_DATA.

#[export] Instance http_enum_eq_dec : EqDecision http_enum_t.
Proof. solve_decision. Defined.

Record http_buf_t := mkBuf {
  b_buf : option (list Z);   (* uint8_t*; the list is the whole allocation *)
  b_len : Z;                 (* size_t *)
  b_size : Z;                (* size_t *)
}.

Record http_state_t := mkHttp {
  state : http_enum_t;
  hdr : option (list Z);     (* char*; the list is the whole allocation *)
  hdrlen : Z;
  hdralloc : Z;
  clen : Z;
  id : httpId_t;
  version : Z;
  isResponse : bool;
  hasUpgradeF : bool;
  hasConnectionUpgradeF : bool;
  http2Buf : http_buf_t;
}.

Definition zeroId : httpId_t := mkHttpId 0 0 false 0.
Definition zeroBuf : http_buf_t := mkBuf None 0 0.
Definition zeroState : http_state_t :=
  mkHttp HTTP_NONE None 0 0 0 zeroId 0 false false false zeroBuf.

(** What the code reads of a [net_info]; its [http] array is passed apart. *)
Record net_info := mkNet {
  n_type : Z;
  n_uid : Z;
  n_addrSetLocal : bool;
  n_addrSetRemote : bool;
  n_localConn : list Z;
  n_remoteConn : list Z;
}.

(** A [sockaddr_storage] of a posted event: copied, or with family -1. *)
Inductive conn_t := ConnCopy (sockaddr : list Z) | ConnUnset.

Record http_post := mkPost {
  ssl : bool;
  start_duration : Z;
  post_id : httpId_t;
  post_hdr : list Z;
}.

Record protocol_info := mkProto {
  evtype : Z;
  ptype : Z;
  isServer : bool;
  proto_len : Z;
  proto_fd : Z;
  proto_uid : Z;
  proto_data : http_post;
  sock_type : Z;
  localConn : conn_t;
  remoteConn : conn_t;
}.

(** ** Environment

    The outcomes of allocations, the contents of fresh memory and the clock
    are oracles indexed by a counter of the calls; the compiled regular
    expressions are third-party handles ([None]: compilation failed). *)
Record http_env := mkEnv {
  g_http_start : option search_t;
  g_http_end : option search_t;
  g_http_clength : option (list Z -> option (list Z));
  g_http_upgrade : option (list Z -> bool);
  g_http_connect : option (list Z -> bool);
  alloc_ok : nat -> bool;
  junk : nat -> nat -> Z;
  getTime : nat -> Z;
  getNetEntry : Z -> option net_info;
}.

Record world := mkWorld { tick : nat; posted : list protocol_info }.

Definition tock (w : world) : world := mkWorld (S (tick w)) (posted w).
Definition cmdPostEvent (w : world) (p : protocol_info) : world :=
  mkWorld (tick w) (posted w ++ [p]).

Section Env.
Variable e : http_env.

(** [realloc(p, n)]: the old contents, then uninitialised bytes. *)
Definition realloc (w : world) (p : option (list Z)) (n : Z) : option (list Z) * world :=
  (if alloc_ok e (tick w)
   then Some (take (Z.to_nat n) (default [] p ++ map (junk e (tick w)) (seq 0 (Z.to_nat n))))
   else None, tock w).

(** ** evtutils.c: allocation of the posted events *)

(** The two [calloc]s of [evtProtoAllocHttpBase] are both made. *)
Definition evtProtoAllocHttpBase (w : world) : bool * world :=
  (alloc_ok e (tick w) && alloc_ok e (tick (tock w)), tock (tock w)).

(** The event's [ptype], when the allocation succeeded. *)
Definition evtProtoAllocHttp1 (w : world) (isResponse : bool) : option Z * world :=
  let '(ok, w) := evtProtoAllocHttpBase w in
  if negb ok then (None, w) else
  (Some (if isResponse then EVT_HRES else EVT_HREQ), w).

(** The event's [ptype] and the malloc'd frame of [frameLen] bytes. *)
Definition evtProtoAllocHttp2Frame (w : world) (frameLen : Z) : option (Z * list Z) * world :=
  let '(ok, w) := evtProtoAllocHttpBase w in
  let '(frame, w) := realloc w None frameLen in
  match frame with
  | Some f => if ok then (Some (EVT_H2FRAME, f), w) else (None, w)
  | None => (None, w)
  end.

(** ** httpstate.c *)

Definition MIN_HDR_ALLOC : Z := 4 * 1024.
Definition MAX_HDR_ALLOC : Z := 16 * 1024.

Definition CRLF : list Z := [13; 10].
Definition HTTP2_MAGIC : list Z :=
  (bytes_of "PRI * HTTP/2.0" ++ CRLF ++ CRLF ++ bytes_of "SM" ++ CRLF ++ CRLF)%list.
Definition HTTP2_MAGIC_LEN : Z := 24.
Definition HTTP_START : list Z := bytes_of "HTTP/".
Definition HTTP_END : list Z := CRLF.

Definition set_state (h : http_state_t) (s : http_enum_t) : http_state_t :=
  mkHttp s (hdr h) (hdrlen h) (hdralloc h) (clen h) (id h) (version h)
         (isResponse h) (hasUpgradeF h) (hasConnectionUpgradeF h) (http2Buf h).
Definition set_hdr (h : http_state_t) (b : option (list Z)) (n a : Z) : http_state_t :=
  mkHttp (state h) b n a (clen h) (id h) (version h)
         (isResponse h) (hasUpgradeF h) (hasConnectionUpgradeF h) (http2Buf h).
Definition set_clen (h : http_state_t) (c : Z) : http_state_t :=
  mkHttp (state h) (hdr h) (hdrlen h) (hdralloc h) c (id h) (version h)
         (isResponse h) (hasUpgradeF h) (hasConnectionUpgradeF h) (http2Buf h).
Definition set_id (h : http_state_t) (i : httpId_t) : http_state_t :=
  mkHttp (state h) (hdr h) (hdrlen h) (hdralloc h) (clen h) i (version h)
         (isResponse h) (hasUpgradeF h) (hasConnectionUpgradeF h) (http2Buf h).
Definition set_version (h : http_state_t) (v : Z) : http_state_t :=
  mkHttp (state h) (hdr h) (hdrlen h) (hdralloc h) (clen h) (id h) v
         (isResponse h) (hasUpgradeF h) (hasConnectionUpgradeF h) (http2Buf h).
Definition set_flags (h : http_state_t) (r u c : bool) : http_state_t :=
  mkHttp (state h) (hdr h) (hdrlen h) (hdralloc h) (clen h) (id h) (version h)
         r u c (http2Buf h).
Definition set_stash (h : http_state_t) (b : http_buf_t) : http_state_t :=
  mkHttp (state h) (hdr h) (hdrlen h) (hdralloc h) (clen h) (id h) (version h)
         (isResponse h) (hasUpgradeF h) (hasConnectionUpgradeF h) b.

Definition setHttpState (h : http_state_t) (toState : http_enum_t) : http_state_t :=
  match toState with
  | HTTP_NONE =>
      mkHttp HTTP_NONE None 0 0 0 zeroId (version h)
             (isResponse h) (hasUpgradeF h) (hasConnectionUpgradeF h) zeroBuf
  | HTTP_HDR | HTTP_HDREND | HTTP_DATA => set_state h toState
  end.

(** The [while] of [appendHeader]: [None] when the maximum is exceeded. *)
Fixpoint growAlloc (fuel : nat) (alloc_size content_size : Z) : option Z :=
  match fuel with
  | O => None
  | S fuel =>
      if alloc_size <? content_size then
        let alloc_size := u64 (Z.shiftl alloc_size 2) in
        if MAX_HDR_ALLOC <? alloc_size then None else growAlloc fuel alloc_size content_size
      else Some alloc_size
  end.

(** An allocation of at least one byte exceeds the maximum within eight
    quadruplings, so the fuel is never what ends the loop. *)
Definition appendHeader (h : http_state_t) (w : world) (buf : list Z) (len : Z)
  : ub (http_state_t * world) :=
  let content_size := u64 (hdrlen h + len) in
  let alloc_size := if hdralloc h =? 0 then MIN_HDR_ALLOC else hdralloc h in
  match growAlloc 9 alloc_size content_size with
  | None => Def (setHttpState h HTTP_NONE, w)
  | Some alloc_size =>
      let '(h', w, failed) :=
        if negb (alloc_size =? hdralloc h) then
          let '(temp, w) := realloc w (hdr h) alloc_size in
          match temp with
          | None => (setHttpState h HTTP_NONE, w, true)
          | Some t => (set_hdr h (Some t) (hdrlen h) alloc_size, w, false)
          end
        else (h, w, false) in
      if failed : bool then Def (h', w) else
      d ← memcpy (hdr h') (hdrlen h') buf len;
      Def (set_hdr h' (Some d) (u64 (hdrlen h' + len)) (hdralloc h'), w)
  end.

(** [strtoull(s, NULL, 0)] on a string of decimal digits: a leading zero
    selects base eight, whose conversion ends at the first other digit. *)
Fixpoint strtoull_acc (base acc : Z) (s : list Z) : Z :=
  match s with
  | [] => acc
  | c :: s =>
      if (48 <=? c) && (c <? 48 + base) then strtoull_acc base (acc * base + (c - 48)) s else acc
  end.
Definition strtoull (s : list Z) : Z :=
  Z.min UINT64_MAX
    (match s with 48 :: s' => strtoull_acc 8 0 s' | _ => strtoull_acc 10 0 s end).

Definition SIZE_MAX : Z := UINT64_MAX.

Definition getContentLength (header : list Z) (len : Z) : Z :=
  match g_http_clength e with
  | None => SIZE_MAX
  | Some m =>
      match m (take (Z.to_nat len) header) with
      | None => SIZE_MAX
      | Some cLen =>
          let ret := strtoull cLen in
          if (ret =? 0) || (ret =? UINT64_MAX) then SIZE_MAX else ret
      end
  end.

Definition hasUpgrade (header : list Z) (len : Z) : bool :=
  match g_http_upgrade e with None => false | Some m => m (take (Z.to_nat len) header) end.

Definition hasConnectionUpgrade (header : list Z) (len : Z) : bool :=
  match g_http_connect e with None => false | Some m => m (take (Z.to_nat len) header) end.

Definition bytesToSkipForContentLength (h : http_state_t) (len : Z) : Z * http_state_t :=
  if clen h =? 0 then (0, h) else
  if clen h <? len then (clen h, set_clen h 0) else
  (len, set_clen h (clen h - len)).

Definition setHttpId (net : net_info) (sockfd src : Z) : httpId_t :=
  mkHttpId (n_uid net) sockfd ((src =? TLSTX) || (src =? TLSRX)) src.

(** The socket fields of a posted event. *)
Definition proto_conn (net : option net_info) : Z * conn_t * conn_t :=
  match net with
  | Some net =>
      (n_type net,
       if n_addrSetLocal net then ConnCopy (n_localConn net) else ConnUnset,
       if n_addrSetRemote net then ConnCopy (n_remoteConn net) else ConnUnset)
  | None => (-1, ConnUnset, ConnUnset)
  end.

Definition reportHttp1 (h : http_state_t) (w : world) : http_state_t * world :=
  match hdr h with
  | None => (h, w)
  | Some block =>
      if hdrlen h =? 0 then (h, w) else
      let '(proto, w) := evtProtoAllocHttp1 w (isResponse h) in
      match proto with
      | None => (h, w)
      | Some pt =>
          let isSend := (hid_src (id h) =? NETTX) || (hid_src (id h) =? TLSTX) in
          let server := (isSend && isResponse h) || (negb isSend && negb (isResponse h)) in
          let '(ty, lc, rc) := proto_conn (getNetEntry e (hid_sockfd (id h))) in
          let post := mkPost (hid_isSsl (id h)) (getTime e (tick w)) (id h) block in
          let w := tock w in
          let p := mkProto EVT_PROTO pt server (hdrlen h) (hid_sockfd (id h)) (hid_uid (id h))
                           post ty lc rc in
          (set_hdr h None 0 (hdralloc h), cmdPostEvent w p)
      end
  end.

Definition reportHttp2 (h : http_state_t) (net : option net_info) (stash : http_buf_t)
    (w : world) (buf : list Z) (frameLen : Z) (httpId : httpId_t) : ub (bool * world) :=
  if frameLen =? 0 then Def (false, w) else
  let '(proto, w) := evtProtoAllocHttp2Frame w frameLen in
  match proto with
  | None => Def (false, w)
  | Some (pt, frame) =>
      let now := getTime e (tick w) in
      let w := tock w in
      frame ← (if negb (b_len stash =? 0) then
                 f ← memcpy (Some frame) 0 (default [] (b_buf stash)) (b_len stash);
                 memcpy (Some f) (b_len stash) buf (frameLen - b_len stash)
               else memcpy (Some frame) 0 buf frameLen);
      let '(ty, lc, rc) := proto_conn net in
      let p := mkProto EVT_PROTO pt ((hid_src (id h) =? NETTX) || (hid_src (id h) =? TLSTX))
                       frameLen (hid_sockfd httpId) (hid_uid httpId)
                       (mkPost (hid_isSsl (id h)) now (id h) frame) ty lc rc in
      flags ← load frame 4;
      Def (negb (Z.land flags 4 =? 0), cmdPostEvent w p)
  end.

(** The [while] of [parseHttp1] from offset [header_start]; the result says
    whether the end of all headers was found, and at which [header_start].
    Every iteration that continues advances by the length of CRLF. *)
Fixpoint headerLoop (fuel : nat) (h : http_state_t) (w : world) (buf : list Z)
    (len header_start : Z) : ub (bool * Z * http_state_t * world) :=
  match fuel with
  | O => Def (false, header_start, h, w)
  | S fuel =>
      if bool_decide (state h = HTTP_HDR \/ state h = HTTP_HDREND) && (header_start <? len) then
        let rest := drop (Z.to_nat header_start) buf in
        let header_end := searchExec (g_http_end e) (Some rest) (i32 (len - header_start)) in
        if header_end =? -1 then
          '(h, w) ← appendHeader (setHttpState h HTTP_HDR) w rest (len - header_start);
          Def (false, header_start, h, w)
        else if bool_decide (state h = HTTP_HDREND) && (header_end =? 0) then
          Def (true, header_start, h, w)
        else
          let header_end := header_end + header_start + searchLen (g_http_end e) in
          '(h, w) ← appendHeader (setHttpState h HTTP_HDREND) w rest (header_end - header_start);
          headerLoop fuel h w buf len header_end
      else Def (false, header_start, h, w)
  end.

(** From the end of all headers on; [rest] bytes of the buffer follow it. *)
Definition headersDone (h : http_state_t) (w : world) (content_in_this_buf : Z)
  : ub (http_state_t * world) :=
  '(h, w) ← appendHeader h w [0] 1;
  let header := default [] (hdr h) in
  let cl := getContentLength header (hdrlen h) in
  let h := set_flags h
    (negb (searchExec (g_http_start e) (hdr h) (i32 (searchLen (g_http_start e))) =? -1))
    (hasUpgrade header (hdrlen h)) (hasConnectionUpgrade header (hdrlen h)) in
  let '(h, w) := reportHttp1 h w in
  if negb (cl =? SIZE_MAX) && (content_in_this_buf <=? cl) then
    Def (setHttpState (set_clen h (cl - content_in_this_buf)) HTTP_DATA, w)
  else Def (setHttpState h HTTP_NONE, w).

Definition parseHttp1 (h : http_state_t) (w : world) (buf : list Z) (len : Z)
    (httpId : httpId_t) : ub (bool * http_state_t * world) :=
  if bool_decide (state h <> HTTP_NONE) && negb (Bool.eqb (hid_isSsl (id h)) (hid_isSsl httpId))
  then Def (false, h, w) else
  (* skip data if instructed to do so by a previous content length *)
  let '(h, buf, len, skipped) :=
    if bool_decide (state h = HTTP_DATA) then
      let '(bts, h) := bytesToSkipForContentLength h len in
      if bts =? len then (h, buf, len, true)
      else (setHttpState h HTTP_NONE, drop (Z.to_nat bts) buf, len - bts, false)
    else (h, buf, len, false) in
  if skipped : bool then Def (false, h, w) else
  (* look for the start of an http header *)
  let '(h, none) :=
    if bool_decide (state h = HTTP_NONE) then
      if searchExec (g_http_start e) (Some buf) (i32 len) =? -1 then (h, true)
      else (set_id (setHttpState h HTTP_HDR) httpId, false)
    else (h, false) in
  if none : bool then Def (false, h, w) else
  '(found, header_start, h, w) ← headerLoop (S (Z.to_nat len)) h w buf len 0;
  if found : bool then
    '(h, w) ← headersDone h w (u64 (len - (header_start + 0 + searchLen (g_http_end e))));
    Def (true, h, w)
  else Def (false, h, w).

Definition http2StashFrame (stash : http_buf_t) (w : world) (buf : list Z) (len : Z)
  : ub (http_buf_t * world) :=
  let need := u64 (len + b_len stash) in
  let '(stash', w, failed) :=
    if b_size stash <? need then
      let need := u64 (u64 (need + 1023) / 1024 * 1024) in
      let '(newBuf, w) := realloc w (b_buf stash) need in
      match newBuf with
      | None => (stash, w, true)
      | Some nb => (mkBuf (Some nb) (b_len stash) need, w, false)
      end
    else (stash, w, false) in
  if failed : bool then Def (stash', w) else
  d ← memcpy (b_buf stash') (b_len stash') buf len;
  Def (mkBuf (Some d) (u64 (b_len stash' + len)) (b_size stash'), w).

(** Byte [i] of the frame header, which the stash and [buf] share. *)
Definition headerByte (stash : http_buf_t) (buf : list Z) (i : Z) : ub Z :=
  if i <? b_len stash then load (default [] (b_buf stash)) i else load buf (i - b_len stash).

Definition http2GetFrameLength (stash : http_buf_t) (buf : list Z) : ub Z :=
  b0 ← headerByte stash buf 0;
  b1 ← headerByte stash buf 1;
  b2 ← headerByte stash buf 2;
  Def (u32 (u32 (u32 (Z.shiftl b0 16) + Z.shiftl b1 8) + b2)).

Definition http2GetFrameType (stash : http_buf_t) (buf : list Z) : ub Z :=
  b3 ← headerByte stash buf 3; Def (u8 (0 + b3)).

Definition interesting (fType : Z) : bool :=
  (fType =? 1) || (fType =? 5) || (fType =? 9).

(** [strncmp(buf, HTTP2_MAGIC, HTTP2_MAGIC_LEN) == 0]. *)
Definition is_magic (buf : list Z) : bool :=
  mem_eqb buf HTTP2_MAGIC (Z.to_nat HTTP2_MAGIC_LEN).

(** The [while] of [parseHttp2]; [buf] is the whole buffer, [bufPos] its rest
    of [bufLen] bytes.  Each iteration that continues consumes at least one
    byte of a frame header. *)
Fixpoint frameLoop (fuel : nat) (h : http_state_t) (net : option net_info) (w : world)
    (buf bufPos : list Z) (bufLen : Z) (httpId : httpId_t) (ret : bool)
  : ub (bool * http_state_t * world) :=
  match fuel with
  | O => Def (ret, h, w)
  | S fuel =>
      if 0 <? bufLen then
        let magic := (HTTP2_MAGIC_LEN <=? bufLen) && is_magic buf in
        let bufPos := if magic then drop (Z.to_nat HTTP2_MAGIC_LEN) bufPos else bufPos in
        let bufLen := if magic then bufLen - HTTP2_MAGIC_LEN else bufLen in
        if magic && (bufLen =? 0) then Def (false, h, w) else
        let stash := http2Buf h in
        if b_len stash + bufLen <? 9 then
          '(s, w) ← http2StashFrame stash w bufPos bufLen;
          Def (false, set_stash h s, w)
        else
        fLen ← http2GetFrameLength stash bufPos;
        fType ← http2GetFrameType stash bufPos;
        if b_len stash + bufLen <? u32 (9 + fLen) then
          '(s, w) ← http2StashFrame stash w bufPos bufLen;
          Def (false, set_stash h s, w)
        else
        '(r, w) ← (if interesting fType
                   then reportHttp2 h net stash w bufPos (u32 (fLen + 9)) httpId
                   else Def (false, w));
        let bytesParsed := u64 (u32 (fLen + 9) - b_len stash) in
        frameLoop fuel (set_stash h (mkBuf (b_buf stash) 0 (b_size stash))) net w buf
          (drop (Z.to_nat bytesParsed) bufPos) (u64 (bufLen - bytesParsed)) httpId (ret || r)
      else Def (ret, h, w)
  end.

Definition parseHttp2 (h : http_state_t) (net : option net_info) (w : world)
    (buf : list Z) (len : Z) (httpId : httpId_t) : ub (bool * http_state_t * world) :=
  if len =? 0 then Def (false, h, w) else
  frameLoop (S (Z.to_nat len)) h net w buf buf len httpId false.

(** The two directions of a socket, [HTTP_RX] and [HTTP_TX]. *)
Definition http_states : Type := http_state_t * http_state_t.

Definition dir (st : http_states) (isTx : bool) : http_state_t := if isTx then st.2 else st.1.
Definition set_dir (st : http_states) (isTx : bool) (h : http_state_t) : http_states :=
  if isTx then (st.1, h) else (h, st.2).
Definition set_versions (st : http_states) (v : Z) : http_states :=
  (set_version st.1 v, set_version st.2 v).

Definition is_tx (src : Z) : bool := (src =? NETTX) || (src =? TLSTX).

(** The version detection: [None] when the call is done with it. *)
Definition detectVersion (st : http_states) (isTx : bool) (buf : list Z) (len : Z)
  : http_states * option (list Z * Z) :=
  if version (dir st isTx) =? 0 then
    if (HTTP2_MAGIC_LEN <=? len) && is_magic buf then
      let st := set_versions st 2 in
      if HTTP2_MAGIC_LEN <? len
      then (st, Some (drop (Z.to_nat HTTP2_MAGIC_LEN) buf, len - HTTP2_MAGIC_LEN))
      else (st, None)
    else if negb (searchExec (g_http_start e) (Some buf) (i32 len) =? -1) then
      (set_versions st 1, Some (buf, len))
    else (st, None)
  else (st, Some (buf, len)).

Definition doHttpBuffer (st : http_states) (net : option net_info) (w : world)
    (buf : list Z) (len : Z) (src : Z) (httpId : httpId_t) : ub (bool * http_states * world) :=
  let isTx := is_tx src in
  match detectVersion st isTx buf len with
  | (st, None) => Def (false, st, w)
  | (st, Some (buf, len)) =>
      let v := version (dir st isTx) in
      if v =? 1 then
        '(ret, h, w) ← parseHttp1 (dir st isTx) w buf len httpId;
        let st := set_dir st isTx h in
        if isResponse h && hasUpgradeF h && hasConnectionUpgradeF h then
          let st := set_versions st 2 in
          Def (ret, set_dir st isTx (set_flags (dir st isTx) false false false), w)
        else Def (ret, st, w)
      else if v =? 2 then
        '(ret, h, w) ← parseHttp2 (dir st isTx) net w buf len httpId;
        Def (ret, set_dir st isTx h, w)
      else Def (false, st, w)
  end.

(** The data of a [doHttp] call: raw bytes, or the vectors of a [msghdr] or
    of an [iovec] array (an entry is [None] when its base is NULL). *)
Inductive payload :=
| BUF (bytes : list Z)
| MSG (iov : list (option (list Z)))
| IOV (iov : list (option (list Z)))
| OTHER_DATA.

Fixpoint doIov (st : http_states) (net : option net_info) (w : world)
    (iov : list (option (list Z))) (src : Z) (httpId : httpId_t) (found : bool)
  : ub (bool * http_states * world) :=
  match iov with
  | [] => Def (found, st, w)
  | None :: iov => doIov st net w iov src httpId found
  | Some b :: iov =>
      '(r, st, w) ← doHttpBuffer st net w b (Z.of_nat (length b)) src httpId;
      doIov st net w iov src httpId (found || r)
  end.

(** The critical section of [doHttp]: the spin lock [g_http_guard[sockfd]],
    when enabled, encloses everything after the two early returns.  [net] is
    not NULL past them, so the temporary states are never used. *)
Definition doHttp (sockfd : Z) (net : option net_info) (st : http_states) (w : world)
    (buf : option payload) (len : Z) (src : Z) : ub (bool * http_states * world) :=
  match buf, net with
  | Some data, Some n =>
      if len =? 0 then Def (false, st, w) else
      if negb (n_type n =? SOCK_STREAM) then Def (false, st, w) else
      let httpId := setHttpId n sockfd src in
      match data with
      | BUF b => doHttpBuffer st net w b len src httpId
      | MSG iov => doIov st net w iov src httpId false
      | IOV iov => doIov st net w (take (Z.to_nat (i32 len)) iov) src httpId false
      | OTHER_DATA => Def (false, st, w)
      end
  | _, _ => Def (false, st, w)
  end.

End Env.

Definition resetHttp (st : http_states) : http_states :=
  (setHttpState st.1 HTTP_NONE, setHttpState st.2 HTTP_NONE).

(** [initHttpState] compiles the two needles; a search handle is NULL when an
    allocation of [searchComp] failed. *)
Definition initHttpState (a1 a2 a3 a4 : bool) : option search_t * option search_t :=
  (searchComp a1 a2 (Some HTTP_START), searchComp a3 a4 (Some HTTP_END)).

Definition destroyHttpState (handles : option search_t * option search_t)
  : option search_t * option search_t :=
  (searchFree handles.1, searchFree handles.2).

End HttpState.
