(* ===== verification/HttpSafety.v ===== *)
(** * Memory safety of the HTTP parser

    The well-formedness of an [http_state_t] and that every operation of
    [HttpState] keeps it and stays inside its buffers, whatever the bytes, the
    allocation outcomes and the splitting of the stream. *)

From S2P Require Import Prelude StrSearch Types HttpState.
Import StrSearch HttpState.

Module HttpSafety.

(** ** HTTP/2 framing *)

(** The 24-bit big-endian payload length at the start of a frame. *)
Definition frame_len (s : list Z) : Z := 65536 * byte_at s 0 + 256 * byte_at s 1 + byte_at s 2.
Definition frame_type (s : list Z) : Z := byte_at s 3.

(** A proper prefix of a frame. *)
Definition incomplete (s : list Z) : Prop :=
  Z.of_nat (length s) < 9 \/ Z.of_nat (length s) < 9 + frame_len s.

Definition is_frame (f : list Z) : Prop :=
  9 <= Z.of_nat (length f) /\ Z.of_nat (length f) = 9 + frame_len f.

(** ** Well-formed states *)

Definition stash_bytes (b : http_buf_t) : list Z :=
  take (Z.to_nat (b_len b)) (default [] (b_buf b)).

Record wf_stash (b : http_buf_t) : Prop := {
  ws_len : 0 <= b_len b <= b_size b;
  ws_size : b_size b = Z.of_nat (length (default [] (b_buf b)));
  ws_bytes : is_bytes (stash_bytes b);
  ws_incomplete : incomplete (stash_bytes b);
}.

Definition hdr_bytes (h : http_state_t) : list Z :=
  take (Z.to_nat (hdrlen h)) (default [] (hdr h)).

Record wf_hdr (h : http_state_t) : Prop := {
  wh_len : 0 <= hdrlen h <= hdralloc h;
  wh_alloc : hdralloc h = 0 \/ hdralloc h = MIN_HDR_ALLOC \/ hdralloc h = MAX_HDR_ALLOC;
  wh_hdr : match hdr h with
           | Some l => Z.of_nat (length l) = hdralloc h
           | None => hdrlen h = 0 /\ (hdralloc h = 0 \/ state h = HTTP_DATA)
           end;
  wh_none : state h = HTTP_NONE -> hdr h = None /\ hdralloc h = 0;
  wh_clen : 0 <= clen h < 2 ^ 64;
}.

Record wf (h : http_state_t) : Prop := {
  wf_h : wf_hdr h;
  wf_s : wf_stash (http2Buf h);
}.

(** What the consumers of a posted event rely on: a header block is a
    NUL-terminated string inside its allocation; a frame is exactly the
    posted bytes, and a complete HTTP/2 frame of a type that carries headers. *)
Definition wf_post (p : protocol_info) : Prop :=
  let block := post_hdr (proto_data p) in
  if ptype p =? EVT_H2FRAME
  then Z.of_nat (length block) = proto_len p /\ is_frame block
       /\ interesting (frame_type block) = true
  else (ptype p = EVT_HREQ \/ ptype p = EVT_HRES)
       /\ 1 <= proto_len p <= MAX_HDR_ALLOC
       /\ proto_len p <= Z.of_nat (length block)
       /\ byte_at block (proto_len p - 1) = 0.

(** The posts of [w'] are those of [w] and some well-formed ones. *)
Definition posts_more (w w' : world) : Prop :=
  exists ps, posted w' = posted w ++ ps /\ Forall wf_post ps.

Lemma posts_more_refl w w' : posted w' = posted w -> posts_more w w'.
Proof. intros E. exists []. by rewrite app_nil_r. Qed.

Lemma posts_more_trans w1 w2 w3 : posts_more w1 w2 -> posts_more w2 w3 -> posts_more w1 w3.
Proof.
  intros (p & E & F) (q & E' & F'). exists (p ++ q). rewrite E', E, app_assoc.
  by split; [|apply Forall_app].
Qed.

#[export] Hint Resolve posts_more_refl : appview.

(** Search handles as [initHttpState] leaves them. *)
Definition handle_ok (needle : list Z) (g : option search_t) : Prop :=
  match g with None => True | Some h => compiled needle h end.

Record env_ok (e : http_env) : Prop := {
  eo_start : handle_ok HTTP_START (g_http_start e);
  eo_end : handle_ok HTTP_END (g_http_end e);
}.

Lemma searchComp_handle needle a b :
  is_bytes needle -> needle <> [] -> handle_ok needle (searchComp a b (Some needle)).
Proof.
  intros Hb Hn. destruct needle as [|c s]; [done|].
  destruct (searchComp_compiled (c :: s) Hb ltac:(simpl; lia)) as (h & E & Hc).
  destruct a, b; [by rewrite E|done..].
Qed.

Lemma initHttpState_ok a1 a2 a3 a4 :
  handle_ok HTTP_START (initHttpState a1 a2 a3 a4).1 /\
  handle_ok HTTP_END (initHttpState a1 a2 a3 a4).2.
Proof. split; apply searchComp_handle; try done; repeat constructor; done. Qed.

(** ** Zero and reset states *)

Lemma wf_stash_zero : wf_stash zeroBuf.
Proof. split; [done|done|constructor|left; done]. Qed.

Lemma setHttpState_none_wf h : wf (setHttpState h HTTP_NONE).
Proof. split; [split; simpl; auto; lia|apply wf_stash_zero]. Qed.

Lemma zeroState_wf : wf zeroState.
Proof. split; [split; simpl; auto; lia|apply wf_stash_zero]. Qed.

#[export] Hint Resolve setHttpState_none_wf zeroState_wf wf_stash_zero : appview.

Lemma set_flags_wf h a b c : wf h -> wf (set_flags h a b c).
Proof. intros [[] []]; split; split; auto. Qed.
Lemma set_version_wf h v : wf h -> wf (set_version h v).
Proof. intros [[] []]; split; split; auto. Qed.
Lemma set_id_wf h i : wf h -> wf (set_id h i).
Proof. intros [[] []]; split; split; auto. Qed.
Lemma set_stash_wf h s : wf h -> wf_stash s -> wf (set_stash h s).
Proof. intros [[] _] H; split; [split; auto|done]. Qed.

#[export] Hint Resolve set_flags_wf set_version_wf set_id_wf set_stash_wf : appview.

(** Any state may become [HTTP_DATA]; the header states exclude a posted block. *)
Lemma set_data_wf h c : wf h -> 0 <= c < 2 ^ 64 -> wf (setHttpState (set_clen h c) HTTP_DATA).
Proof.
  intros [[] ?] Hc; split; [split|]; simpl; auto; try discriminate.
  destruct (hdr h); naive_solver.
Qed.

Definition in_header (h : http_state_t) : Prop := state h = HTTP_HDR \/ state h = HTTP_HDREND.

Lemma set_header_wf h s : wf h -> state h <> HTTP_DATA -> s <> HTTP_NONE -> wf (set_state h s).
Proof.
  intros [[] ?] Hs Hn; split; [split|]; simpl; auto; try done.
  destruct (hdr h); naive_solver.
Qed.

(** ** The header buffer *)

Lemma quadruple : u64 (Z.shiftl MIN_HDR_ALLOC 2) = MAX_HDR_ALLOC.
Proof. done. Qed.

Lemma growAlloc_spec fuel a n r :
  a = MIN_HDR_ALLOC \/ a = MAX_HDR_ALLOC -> growAlloc fuel a n = Some r ->
  n <= r /\ (r = MIN_HDR_ALLOC \/ r = MAX_HDR_ALLOC) /\ a <= r.
Proof.
  revert a. induction fuel as [|fuel IH]; intros a Ha; cbn [growAlloc]; [done|].
  destruct (Z.ltb_spec a n).
  - destruct Ha as [->| ->]; [|done]. rewrite quadruple, Z.ltb_irrefl. intros H1. apply IH in H1; [|auto]. unfold MIN_HDR_ALLOC, MAX_HDR_ALLOC in *. lia.
  - intros [= <-]. lia.
Qed.

Lemma growAlloc_some a n :
  a = MIN_HDR_ALLOC \/ a = MAX_HDR_ALLOC -> n <= MAX_HDR_ALLOC ->
  exists r, growAlloc 9 a n = Some r.
Proof.
  intros Ha Hn. cbn [growAlloc]. destruct (Z.ltb_spec a n); [|eauto].
  destruct Ha as [->| ->]; [|lia]. rewrite quadruple, Z.ltb_irrefl.
  destruct (Z.ltb_spec MAX_HDR_ALLOC n); [lia|eauto].
Qed.

Section Env.
Variable e : http_env.

Definition allocs_ok : Prop := forall n, alloc_ok e n = true.

Lemma realloc_some w p n q w' :
  realloc e w p n = (Some q, w') -> 0 <= n ->
  Z.of_nat (length q) = n /\ posted w' = posted w /\
  (forall k, Z.of_nat k <= n -> (k <= length (default [] p))%nat -> take k q = take k (default [] p)).
Proof.
  unfold realloc. destruct (alloc_ok e _); [|done]. intros [= <- <-] Hn.
  split; [|split; [done|]].
  - rewrite length_take, length_app, length_map, length_seq. lia.
  - intros k Hk Hl. rewrite take_take, Nat.min_l by lia. by rewrite take_app_le.
Qed.

(** The result of appending to a header block: all of it, or a reset. *)
Definition appended (h : http_state_t) (data : list Z) (h' : http_state_t) : Prop :=
  h' = set_hdr h (hdr h') (hdrlen h') (hdralloc h') /\
  hdr_bytes h' = hdr_bytes h ++ data /\
  hdrlen h' = hdrlen h + Z.of_nat (length data) /\
  is_Some (hdr h').

(** Writing behind the current block of an allocation that has the room. *)
Lemma append_in_place h l data n :
  wf h -> hdr h = Some l -> 0 <= n <= Z.of_nat (length data) ->
  hdrlen h + n <= Z.of_nat (length l) -> hdralloc h <> 0 -> state h <> HTTP_NONE ->
  exists d, memcpy (hdr h) (hdrlen h) data n = Def d /\
    let h' := set_hdr h (Some d) (u64 (hdrlen h + n)) (hdralloc h) in
    wf h' /\ appended h (take (Z.to_nat n) data) h'.
Proof.
  intros [[Hl Ha Hh Hn Hcl] Hs] E Hlen Hroom Hne Hst. rewrite E in *.
  rewrite memcpy_ok by lia. eexists; split; [done|].
  unfold MIN_HDR_ALLOC, MAX_HDR_ALLOC in *.
  rewrite u64_small by lia. unfold hdr_bytes, appended, hdr_bytes. cbn. rewrite E. cbn.
  split; [split; [split|done]|split; [done|split; [|split; [|eauto]]]]; cbn; auto; try lia; try done.
  - rewrite !length_app, !length_take, length_drop. lia.
  - rewrite app_assoc, take_app_le by (rewrite length_app, !length_take; lia).
    apply firstn_all2. rewrite length_app, !length_take. lia.
  - rewrite length_take. lia.
Qed.

Lemma appendHeader_spec h w data n :
  wf h -> in_header h -> 0 <= n <= Z.of_nat (length data) -> n <= PTRDIFF_MAX ->
  exists h' w', appendHeader e h w data n = Def (h', w') /\ wf h' /\ posted w' = posted w /\
    (h' = setHttpState h HTTP_NONE \/ appended h (take (Z.to_nat n) data) h') /\
    (allocs_ok -> hdrlen h + n <= MAX_HDR_ALLOC -> appended h (take (Z.to_nat n) data) h').
Proof.
  intros W Hst Hn Hmax. pose proof (wf_h _ W) as [Hl Ha Hh Hnone Hcl].
  unfold appendHeader. unfold PTRDIFF_MAX in *.
  rewrite u64_small by (unfold MIN_HDR_ALLOC, MAX_HDR_ALLOC in *; lia).
  set (a := if hdralloc h =? 0 then MIN_HDR_ALLOC else hdralloc h).
  assert (Ha' : a = MIN_HDR_ALLOC \/ a = MAX_HDR_ALLOC).
  { subst a. destruct (Z.eqb_spec (hdralloc h) 0); naive_solver. }
  destruct (growAlloc 9 a (hdrlen h + n)) as [sz|] eqn:G.
  2:{ eexists _, _; split; [done|]. split; [auto with appview|]. split; [done|]. split; [auto|].
      intros _ Hfit. destruct (growAlloc_some a (hdrlen h + n) Ha' Hfit). congruence. }
  apply growAlloc_spec in G as (Hsz & Hszv & Hage); [|done].
  assert (Hne : state h <> HTTP_NONE) by (destruct Hst as [-> | ->]; done).
  assert (Hdata : state h <> HTTP_DATA) by (destruct Hst as [-> | ->]; done).
  destruct (Z.eqb_spec sz (hdralloc h)) as [Esz|Esz]; simpl negb; cbn match.
  - destruct (hdr h) as [l|] eqn:Eh; [|exfalso; unfold MIN_HDR_ALLOC, MAX_HDR_ALLOC in *; naive_solver lia].
    destruct (append_in_place h l data n W Eh) as (d & M & Wf' & App);
      [done|lia|unfold MIN_HDR_ALLOC, MAX_HDR_ALLOC in *; lia|done|].
    rewrite Eh in M. rewrite M. cbn. eexists _, _; split; [done|]. eauto 10.
  - destruct (realloc e w (hdr h) sz) as [[t|] w1] eqn:R.
    2:{ unfold realloc in R. destruct (alloc_ok e (tick w)) eqn:Eok; [done|].
        injection R as <-. eexists _, _; split; [done|].
        split; [auto with appview|]. split; [done|]. split; [auto|].
        intros Hok. by rewrite Hok in Eok. }
    apply realloc_some in R as (Ht & Ep & Htake); [|unfold MIN_HDR_ALLOC, MAX_HDR_ALLOC in *; lia].
    set (h1 := set_hdr h (Some t) (hdrlen h) sz).
    assert (W1 : wf h1).
    { split; [split|apply (wf_s _ W)]; simpl; auto; try done.
      unfold MIN_HDR_ALLOC, MAX_HDR_ALLOC in *. subst a.
      destruct (Z.eqb_spec (hdralloc h) 0); lia. }
    destruct (append_in_place h1 t data n W1 eq_refl) as (d & M & Wf' & App);
      [done|simpl; lia|simpl; unfold MIN_HDR_ALLOC, MAX_HDR_ALLOC in *; lia|done|].
    assert (B1 : hdr_bytes h1 = hdr_bytes h).
    { unfold hdr_bytes. simpl. apply Htake; [unfold MIN_HDR_ALLOC, MAX_HDR_ALLOC in *; subst a;
        destruct (Z.eqb_spec (hdralloc h) 0); lia|].
      destruct (hdr h) as [l|]; simpl in *; lia. }
    assert (App' : appended h (take (Z.to_nat n) data)
                     (set_hdr h1 (Some d) (u64 (hdrlen h1 + n)) (hdralloc h1))).
    { destruct App as (A1 & A2 & A3 & A4). rewrite B1 in A2. by repeat split. }
    change (memcpy (Some t) (hdrlen h) data n) with (memcpy (hdr h1) (hdrlen h1) data n).
    cbn [hdr hdrlen hdralloc set_hdr] in *. fold h1. rewrite M. cbn.
    eexists _, _; split; [done|]. eauto 10.
Qed.

(** ** Parsing HTTP/1 *)

Hypothesis env : env_ok e.

(** A search for a compiled needle misses, or its hit lies in the buffer. *)
Lemma search_range needle g hay n :
  handle_ok needle g -> is_bytes hay -> n = Z.of_nat (length hay) ->
  let r := searchExec g (Some hay) (i32 n) in
  r = -1 \/ (searchLen g = Z.of_nat (length needle) /\ 0 <= r /\ r + searchLen g <= n).
Proof.
  intros Hg Hb -> r. destruct g as [h|]; [|by left]. subst r.
  set (n := Z.of_nat (length hay)).
  assert (i32 n <= n) by (unfold i32; pose proof (Z.mod_le (n + 2 ^ 31) (2 ^ 32)); lia).
  destruct (decide (i32 n < 0)) as [Hneg|].
  { left. unfold searchExec. by rewrite (proj2 (Z.ltb_lt _ _)). }
  pose proof (comp_nlen _ _ Hg) as En.
  destruct (searchExec_handle needle hay (i32 n) h Hg Hb ltac:(lia)) as [[-> _]|[(? & ? & _) _]];
    [by left|right]. cbn [searchLen]. lia.
Qed.

Lemma searchLen_nonneg needle g : handle_ok needle g -> 0 <= searchLen g.
Proof. destruct g; simpl; [|lia]. intros []. lia. Qed.

Lemma is_bytes_drop l n : is_bytes l -> is_bytes (drop n l).
Proof. apply Forall_drop. Qed.
Hint Resolve is_bytes_drop : appview.

Lemma appended_wf_state h data h' : appended h data h' -> state h' = state h.
Proof. by intros (-> & _). Qed.

Lemma headerLoop_safe fuel h w buf len hs :
  wf h -> is_bytes buf -> len = Z.of_nat (length buf) -> len <= PTRDIFF_MAX -> 0 <= hs <= len ->
  exists found hs' h' w', headerLoop e fuel h w buf len hs = Def (found, hs', h', w') /\
    wf h' /\ posted w' = posted w /\
    (found = true -> state h' = HTTP_HDREND /\ 0 <= hs' /\ hs' + searchLen (g_http_end e) <= len).
Proof.
  revert h w hs. induction fuel as [|fuel IH]; intros h w hs W Hb Hlen Hmax Hhs; cbn [headerLoop].
  { by eexists _, _, _, _. }
  case_bool_decide as Hst; cbn [andb]; [|by eexists _, _, _, _].
  destruct (Z.ltb_spec hs len); [|by eexists _, _, _, _].
  assert (Hnd : state h <> HTTP_DATA) by (destruct Hst as [-> | ->]; done).
  set (rest := drop (Z.to_nat hs) buf).
  assert (Hrest : len - hs = Z.of_nat (length rest)) by (subst rest; rewrite length_drop; lia).
  pose proof (search_range HTTP_END (g_http_end e) rest (len - hs) (eo_end _ env)
    ltac:(subst rest; auto with appview) Hrest) as R. cbn zeta in R.
  set (r := searchExec _ _ _) in *. destruct (Z.eqb_spec r (-1)) as [Er|Er].
  - destruct (appendHeader_spec (setHttpState h HTTP_HDR) w rest (len - hs))
      as (h' & w' & -> & W' & P & _); [by apply set_header_wf|by left|lia|lia|].
    by eexists _, _, _, _.
  - destruct R as [?|(Elen & ? & ?)]; [done|].
    case_bool_decide as He; cbn [andb].
    + destruct (Z.eqb_spec r 0).
      { eexists _, _, _, _; split; [done|]. split; [done|]. split; [done|]. intros _. split; [done|]. lia. }
      destruct (appendHeader_spec (setHttpState h HTTP_HDREND) w rest
        (r + hs + searchLen (g_http_end e) - hs)) as (h' & w' & -> & W' & P & _);
        [by apply set_header_wf|by right|lia|lia|].
      cbn. rewrite <- P. apply IH; auto; lia.
    + destruct (appendHeader_spec (setHttpState h HTTP_HDREND) w rest
        (r + hs + searchLen (g_http_end e) - hs)) as (h' & w' & -> & W' & P & _);
        [by apply set_header_wf|by right|lia|lia|].
      cbn. rewrite <- P. apply IH; auto; lia.
Qed.

(** Posting a terminated block gives its ownership away. *)
Lemma reportHttp1_safe h w :
  wf h -> state h <> HTTP_NONE \/ hdr h = None ->
  (hdr h <> None -> exists b, hdr_bytes h = b ++ [0]) ->
  exists h' w', reportHttp1 e h w = (h', w') /\ posts_more w w' /\
    (h' = h \/ h' = set_hdr h None 0 (hdralloc h)).
Proof.
  intros W Hst Ht. unfold reportHttp1. destruct (hdr h) as [block|] eqn:Eh;
    [|eexists _, _; eauto with appview].
  destruct (Z.eqb_spec (hdrlen h) 0); [eexists _, _; eauto with appview|].
  unfold evtProtoAllocHttp1, evtProtoAllocHttpBase.
  destruct (_ && _); simpl; [|eexists _, _; split; [done|]; split; [by apply posts_more_refl|by left]].
  destruct (proto_conn _) as [[ty lc] rc].
  eexists _, _; split; [done|]. split; [|by right].
  eexists; split; [done|]. constructor; [|constructor].
  destruct (Ht ltac:(done)) as [b Hbb]. unfold hdr_bytes in Hbb. rewrite Eh in Hbb. simpl in Hbb.
  pose proof (wf_h _ W) as [Hl Ha Hh _ _]. rewrite Eh in Hh.
  unfold MIN_HDR_ALLOC, MAX_HDR_ALLOC in *.
  assert (Lb : Z.of_nat (length b) = hdrlen h - 1).
  { apply (f_equal length) in Hbb. rewrite length_app, length_take in Hbb. simpl in Hbb. lia. }
  unfold wf_post; simpl. assert (((if isResponse h then EVT_HRES else EVT_HREQ) =? EVT_H2FRAME) = false) as ->.
  { by destruct (isResponse h). }
  split; [destruct (isResponse h); auto|]. split; [unfold MAX_HDR_ALLOC; lia|]. split; [lia|].
  rewrite <- (take_drop (Z.to_nat (hdrlen h)) block), Hbb.
  rewrite <- app_assoc, byte_at_app_r by lia. by replace (_ - _ - _) with 0 by lia.
Qed.

Lemma getContentLength_range header n : 0 <= getContentLength e header n < 2 ^ 64.
Proof.
  unfold getContentLength, SIZE_MAX, UINT64_MAX. destruct (g_http_clength e) as [m|]; [|lia].
  destruct (m _) as [d|]; [|lia]. destruct (_ || _); [lia|].
  unfold strtoull, UINT64_MAX.
  assert (forall base acc s, 1 <= base -> 0 <= acc -> 0 <= strtoull_acc base acc s).
  { intros base acc s Hb. revert acc. induction s as [|c s IH]; intros acc Hacc; simpl; [done|].
    destruct (_ && _) eqn:G; [|done]. apply andb_true_iff in G as [G1%Z.leb_le _]. apply IH. nia. }
  split; [|lia]. apply Z.min_glb; [lia|].
  repeat match goal with |- context [match ?x with _ => _ end] => destruct x end;
    match goal with H : forall _, _ |- _ => apply H; lia end.
Qed.

Lemma headersDone_safe h w content :
  wf h -> in_header h -> 0 <= content ->
  exists h' w', headersDone e h w content = Def (h', w') /\ wf h' /\ posts_more w w'.
Proof.
  intros W Hin Hc. unfold headersDone.
  destruct (appendHeader_spec h w [0] 1 W Hin ltac:(simpl; lia) ltac:(done))
    as (h1 & w1 & -> & W1 & P1 & Hor & _). cbn [mbind ub_bind].
  set (cl := getContentLength e _ _). pose proof (getContentLength_range (default [] (hdr h1)) (hdrlen h1)) as Hcl.
  fold cl in Hcl. set (h2 := set_flags h1 _ _ _).
  assert (W2 : wf h2) by (subst h2; auto with appview).
  destruct (reportHttp1_safe h2 w1 W2) as (h3 & w3 & -> & P3 & H3).
  - destruct Hor as [->|A]; [by right|left]. subst h2. simpl. rewrite (appended_wf_state _ _ _ A).
    by destruct Hin as [-> | ->].
  - intros Hsome. destruct Hor as [->|(_ & A & _)]; [done|]. eexists. apply A.
  - assert (P : posts_more w w3) by (eapply posts_more_trans; [by apply posts_more_refl|done]).
    destruct (_ && _) eqn:G; [|eexists _, _; eauto with appview].
    apply andb_true_iff in G as [_ G%Z.leb_le].
    eexists _, _; split; [done|]. split; [|done].
    destruct H3 as [->| ->]; [by apply set_data_wf; [|lia]|].
    pose proof (wf_h _ W2) as [? ? ? ? ?]. clearbody h2 cl.
    split; [split; simpl; auto; try done; try lia|apply (wf_s _ W2)].
Qed.

Lemma bytesToSkip_spec h len :
  0 <= clen h -> 0 <= len ->
  let '(bts, h') := bytesToSkipForContentLength h len in
  bts = Z.min (clen h) len /\ h' = set_clen h (clen h - bts).
Proof.
  intros. unfold bytesToSkipForContentLength.
  destruct (Z.eqb_spec (clen h) 0) as [E|]; [|destruct (Z.ltb_spec (clen h) len)].
  - split; [lia|]. rewrite Z.sub_0_r. by destruct h.
  - split; [lia|]. by rewrite Z.sub_diag.
  - split; [lia|done].
Qed.

Lemma set_clen_wf h c : wf h -> 0 <= c < 2 ^ 64 -> wf (set_clen h c).
Proof. intros [[] ?] ?; split; [split; auto|done]. Qed.

(** From the search for a header start on: every state but [HTTP_DATA]. *)
Definition parseHeaders (h : http_state_t) (w : world) (buf : list Z) (len : Z)
    (httpId : httpId_t) : ub (bool * http_state_t * world) :=
  let '(h, none) :=
    if bool_decide (state h = HTTP_NONE) then
      if searchExec (g_http_start e) (Some buf) (i32 len) =? -1 then (h, true)
      else (set_id (setHttpState h HTTP_HDR) httpId, false)
    else (h, false) in
  if none : bool then Def (false, h, w) else
  '(found, header_start, h, w) ← headerLoop e (S (Z.to_nat len)) h w buf len 0;
  if found : bool then
    '(h, w) ← headersDone e h w (u64 (len - (header_start + 0 + searchLen (g_http_end e))));
    Def (true, h, w)
  else Def (false, h, w).

Lemma parseHeaders_safe h w buf len httpId :
  wf h -> is_bytes buf -> len = Z.of_nat (length buf) -> len <= PTRDIFF_MAX ->
  exists r h' w', parseHeaders h w buf len httpId = Def (r, h', w') /\ wf h' /\ posts_more w w'.
Proof.
  intros W Hb Hlen Hmax. unfold parseHeaders.
  set (start := bool_decide (state h = HTTP_NONE)).
  destruct (if start then _ else _) as [h1 none] eqn:E.
  assert (W1 : wf h1).
  { subst start. case_bool_decide as Hn; [|by simplify_eq].
    destruct (_ =? _) in E; simplify_eq; [done|]. apply set_id_wf, set_header_wf; [done| |done].
    by rewrite Hn. }
  destruct none; [by eexists _, _, _; eauto with appview|].
  destruct (headerLoop_safe (S (Z.to_nat len)) h1 w buf len 0 W1 Hb Hlen Hmax ltac:(lia))
    as (found & hs & h2 & w2 & -> & W2 & P2 & Hf). cbn [mbind ub_bind].
  destruct found; [|eexists _, _, _; eauto with appview].
  destruct (Hf eq_refl) as (Hst & _).
  destruct (headersDone_safe h2 w2 (u64 (len - (hs + 0 + searchLen (g_http_end e)))))
    as (h3 & w3 & -> & W3 & P3); [done|by right|apply u64_range|].
  eexists _, _, _; split; [done|]. split; [done|].
  eapply posts_more_trans; [by apply posts_more_refl|done].
Qed.

(** [parseHttp1] in three cases: interleaved plain and TLS data is ignored,
    announced content is skipped, the rest is parsed for headers. *)
Lemma parseHttp1_cases h w buf len httpId :
  wf h -> 0 <= len ->
  parseHttp1 e h w buf len httpId =
  if bool_decide (state h <> HTTP_NONE) && negb (Bool.eqb (hid_isSsl (id h)) (hid_isSsl httpId))
  then Def (false, h, w)
  else if bool_decide (state h = HTTP_DATA) then
    if len <=? clen h then Def (false, set_clen h (clen h - len), w)
    else parseHeaders (setHttpState h HTTP_NONE) w (drop (Z.to_nat (clen h)) buf)
           (len - clen h) httpId
  else parseHeaders h w buf len httpId.
Proof.
  intros W Hlen. pose proof (wh_clen _ (wf_h _ W)) as Hcl. unfold parseHttp1.
  destruct (_ && negb _); [done|]. case_bool_decide; [|done].
  pose proof (bytesToSkip_spec h len ltac:(lia) Hlen) as B.
  destruct (bytesToSkipForContentLength h len) as [bts h'] eqn:Eb. destruct B as [-> ->].
  destruct (Z.leb_spec len (clen h)).
  - rewrite Z.min_r by lia. by rewrite Z.eqb_refl.
  - rewrite Z.min_l by lia. destruct (Z.eqb_spec (clen h) len); [lia|].
    by replace (setHttpState (set_clen _ _) HTTP_NONE) with (setHttpState h HTTP_NONE) by done.
Qed.

Lemma parseHttp1_safe h w buf len httpId :
  wf h -> is_bytes buf -> len = Z.of_nat (length buf) -> len <= PTRDIFF_MAX ->
  exists r h' w', parseHttp1 e h w buf len httpId = Def (r, h', w') /\ wf h' /\ posts_more w w'.
Proof.
  intros W Hb Hlen Hmax. rewrite parseHttp1_cases by (done || lia).
  pose proof (wh_clen _ (wf_h _ W)) as Hcl.
  destruct (_ && negb _); [eexists _, _, _; eauto with appview|].
  case_bool_decide; [|by apply parseHeaders_safe].
  destruct (Z.leb_spec len (clen h)).
  - eexists _, _, _; split; [done|]. split; [by apply set_clen_wf; [|lia]|eauto with appview].
  - apply parseHeaders_safe; auto with appview; [rewrite length_drop|]; lia.
Qed.
End Env.

End HttpSafety.
