(* ===== verification/HttpFrames.v ===== *)
(** * HTTP/2 framing and the safety of [doHttp]

    The frames [parseHttp2] posts are those of the concatenated stream,
    however it is cut into buffers; [doHttp] stays in bounds and keeps its
    states well-formed on every input. *)

From S2P Require Import Prelude StrSearch Types HttpState HttpSafety.
Import StrSearch HttpState HttpSafety.

Module HttpFrames.

(** ** Specification: the frames of a byte stream *)

(** The complete frames of a stream, and the incomplete rest. *)
Fixpoint split_frames (fuel : nat) (s : list Z) : list (list Z) * list Z :=
  match fuel with
  | O => ([], s)
  | S fuel =>
      let n := 9 + frame_len s in
      if (Z.of_nat (length s) <? 9) || (Z.of_nat (length s) <? n) then ([], s)
      else let '(fs, r) := split_frames fuel (drop (Z.to_nat n) s) in
           (take (Z.to_nat n) s :: fs, r)
  end.

(** A frame has at least nine bytes, so one unit of fuel per byte is enough. *)
Definition frames (s : list Z) : list (list Z) * list Z := split_frames (length s) s.

Lemma frame_len_bytes s : is_bytes s -> 0 <= frame_len s < 2 ^ 24.
Proof.
  intros H. unfold frame_len.
  pose proof (byte_at_is_byte s 0 H). pose proof (byte_at_is_byte s 1 H).
  pose proof (byte_at_is_byte s 2 H). unfold is_byte in *. lia.
Qed.

Lemma frame_len_app a b : (3 <= length a)%nat -> frame_len (a ++ b) = frame_len a.
Proof. intros. unfold frame_len. by rewrite !byte_at_app_l by lia. Qed.

Lemma split_frames_fuel f1 f2 s :
  is_bytes s -> (length s <= f1)%nat -> (length s <= f2)%nat ->
  split_frames f1 s = split_frames f2 s.
Proof.
  revert f2 s. induction f1 as [|f1 IH]; intros f2 s Hs H1 H2.
  - destruct s; [|simpl in *; lia]. destruct f2; done.
  - destruct f2 as [|f2]; [destruct s; [done|simpl in *; lia]|]. cbn [split_frames].
    pose proof (frame_len_bytes s Hs).
    destruct ((_ <? 9) || _) eqn:G; [done|].
    apply orb_false_iff in G as [G1%Z.ltb_ge G2%Z.ltb_ge].
    rewrite (IH f2); [done|by apply Forall_drop|rewrite length_drop; lia..].
Qed.

Lemma frames_incomplete s : incomplete s -> frames s = ([], s).
Proof.
  intros H. unfold frames. destruct (length s) eqn:E; [done|]. cbn [split_frames].
  rewrite E. destruct H as [H|H]; rewrite E in H.
  - by rewrite (proj2 (Z.ltb_lt _ _) H).
  - by rewrite (proj2 (Z.ltb_lt _ _) H), orb_true_r.
Qed.

Lemma frames_cons s :
  is_bytes s -> 9 <= Z.of_nat (length s) -> 9 + frame_len s <= Z.of_nat (length s) ->
  let n := Z.to_nat (9 + frame_len s) in
  frames s = (take n s :: (frames (drop n s)).1, (frames (drop n s)).2).
Proof.
  intros Hs H9 Hn n. unfold frames at 1. destruct (length s) as [|k] eqn:E; [lia|].
  cbn [split_frames]. rewrite E, (proj2 (Z.ltb_ge _ _)), (proj2 (Z.ltb_ge _ _)) by lia.
  cbn [orb]. fold n. pose proof (frame_len_bytes s Hs).
  rewrite (split_frames_fuel k (length (drop n s)));
    [|by apply Forall_drop|rewrite length_drop; lia|done].
  unfold frames. by destruct (split_frames _ _).
Qed.

(** Cutting a stream: the rest of the first part is prepended to the second. *)
Lemma frames_app a b :
  is_bytes a -> is_bytes b ->
  frames (a ++ b) = ((frames a).1 ++ (frames ((frames a).2 ++ b)).1,
                     (frames ((frames a).2 ++ b)).2).
Proof.
  remember (length a) as k eqn:Hk. revert a Hk.
  induction (lt_wf k) as [k _ IH]. intros a -> Ha Hb.
  pose proof (frame_len_bytes a Ha).
  destruct (decide (9 <= Z.of_nat (length a) /\ 9 + frame_len a <= Z.of_nat (length a))) as [[H9 Hn]|Hinc].
  - rewrite (frames_cons a) by done. cbn [fst snd].
    assert (E : frame_len (a ++ b) = frame_len a) by (apply frame_len_app; lia).
    rewrite (frames_cons (a ++ b)); rewrite ?E, ?length_app; [|by apply Forall_app|lia..].
    rewrite take_app_le, drop_app_le by lia.
    rewrite (IH (length (drop (Z.to_nat (9 + frame_len a)) a)));
      [done|rewrite length_drop; lia|done|by apply Forall_drop|done].
  - rewrite (frames_incomplete a) by (unfold incomplete; lia). cbn [fst snd app].
    by destruct (frames (a ++ b)).
Qed.

(** ** One buffer *)

Section Env.
Variable e : http_env.

Lemma headerByte_spec st pos i :
  wf_stash st -> 0 <= i < b_len st + Z.of_nat (length pos) ->
  headerByte st pos i = Def (byte_at (stash_bytes st ++ pos) i).
Proof.
  intros [Hl Hs Hb Hi] Hr. unfold headerByte.
  assert (L : Z.of_nat (length (stash_bytes st)) = b_len st).
  { unfold stash_bytes. rewrite length_take. lia. }
  destruct (Z.ltb_spec i (b_len st)).
  - rewrite load_ok by lia. rewrite byte_at_app_l by lia. f_equal. unfold stash_bytes, byte_at.
    by rewrite lookup_take_lt by lia.
  - rewrite load_ok by lia. by rewrite byte_at_app_r, L by lia.
Qed.

Section Header.
Variables (st : http_buf_t) (pos : list Z).
Hypothesis W : wf_stash st.
Hypothesis P : is_bytes pos.
Hypothesis L : 9 <= b_len st + Z.of_nat (length pos).
Let s := stash_bytes st ++ pos.

Lemma joined_bytes : is_bytes s.
Proof. apply Forall_app. split; [apply W|done]. Qed.

Lemma http2GetFrameLength_spec : http2GetFrameLength st pos = Def (frame_len s).
Proof.
  unfold http2GetFrameLength. rewrite !headerByte_spec by (done || lia). cbn. fold s. f_equal.
  pose proof (byte_at_is_byte s 0 joined_bytes). pose proof (byte_at_is_byte s 1 joined_bytes).
  pose proof (byte_at_is_byte s 2 joined_bytes). unfold is_byte in *.
  rewrite !Z.shiftl_mul_pow2 by lia. 
  rewrite (u32_small (byte_at s 0 * 2 ^ 16)), (u32_small (_ + byte_at s 1 * 2 ^ 8)) by lia.
  rewrite u32_small by lia. unfold frame_len. lia.
Qed.

Lemma http2GetFrameType_spec : http2GetFrameType st pos = Def (frame_type s).
Proof.
  unfold http2GetFrameType. rewrite headerByte_spec by (done || lia). cbn. fold s. f_equal.
  pose proof (byte_at_is_byte s 3 joined_bytes). unfold is_byte in *.
  unfold frame_type. apply u8_small. lia.
Qed.

End Header.

Lemma stash_bytes_length st : wf_stash st -> Z.of_nat (length (stash_bytes st)) = b_len st.
Proof. intros [Hl Hs _ _]. unfold stash_bytes. rewrite length_take. lia. Qed.

(** Stashing an incomplete frame: kept whole, or dropped when memory is out. *)
Lemma http2StashFrame_spec st w pos :
  wf_stash st -> is_bytes pos -> (0 < length pos)%nat -> Z.of_nat (length pos) <= PTRDIFF_MAX ->
  b_len st <= PTRDIFF_MAX - 1024 -> incomplete (stash_bytes st ++ pos) ->
  exists st' w', http2StashFrame e st w pos (Z.of_nat (length pos)) = Def (st', w') /\
    posted w' = posted w /\ wf_stash st' /\
    (allocs_ok e -> stash_bytes st' = stash_bytes st ++ pos).
Proof.
  intros W P Hp Hmax Hlen Hinc. pose proof W as [Hl Hs Hb _]. unfold http2StashFrame, PTRDIFF_MAX in *.
  set (n := Z.of_nat (length pos)) in *.
  rewrite (u64_small (n + b_len st)) by lia.
  assert (Done : forall st1, b_len st1 = b_len st -> b_len st + n <= b_size st1 ->
    b_size st1 = Z.of_nat (length (default [] (b_buf st1))) ->
    stash_bytes st1 = stash_bytes st ->
    exists d, memcpy (b_buf st1) (b_len st1) pos n = Def d /\
      let st2 := mkBuf (Some d) (u64 (b_len st1 + n)) (b_size st1) in
      wf_stash st2 /\ stash_bytes st2 = stash_bytes st ++ pos).
  { intros st1 E1 E2 E3 E4. destruct (b_buf st1) as [d|] eqn:Eb; simpl in E3; [|lia].
    rewrite memcpy_ok by lia. eexists; split; [done|]. rewrite E1, u64_small by lia.
    assert (B : stash_bytes (mkBuf (Some (take (Z.to_nat (b_len st)) d ++ take (Z.to_nat n) pos ++
      drop (Z.to_nat (b_len st + n)) d)) (b_len st + n) (b_size st1)) = stash_bytes st ++ pos).
    { rewrite <- E4. unfold stash_bytes. rewrite Eb, E1. cbn.
      rewrite (firstn_all2 pos) by lia.
      rewrite app_assoc, take_app_le by (rewrite length_app, length_take; lia).
      apply firstn_all2. rewrite length_app, length_take. lia. }
    split; [|done]. split; simpl; [lia| |rewrite B; by apply Forall_app|by rewrite B].
    rewrite !length_app, !length_take, length_drop. lia. }
  destruct (Z.ltb_spec (b_size st) (n + b_len st)).
  - rewrite !(u64_small (n + b_len st + 1023)) by lia.
    pose proof (Z.div_mod (n + b_len st + 1023) 1024 ltac:(lia)).
    pose proof (Z.mod_pos_bound (n + b_len st + 1023) 1024 ltac:(lia)).
    rewrite u64_small by lia. set (need := _ / 1024 * 1024) in *.
    destruct (realloc e w (b_buf st) need) as [[t|] w1] eqn:R.
    + apply realloc_some in R as (Ht & Ep & Htake); [|lia].
      destruct (Done (mkBuf (Some t) (b_len st) need)) as (d & M & W2 & B2); simpl; try done; [lia|..].
      { unfold stash_bytes. simpl. apply Htake; lia. }
      simpl in M. cbn. rewrite M. cbn. eexists _, _; split; [done|]. auto.
    + unfold realloc in R. destruct (alloc_ok e (tick w)) eqn:Eok; [done|]. injection R as <-.
      eexists _, _; split; [done|]. split; [done|]. split; [done|].
      intros Hok. by rewrite Hok in Eok.
  - destruct (Done st) as (d & M & W2 & B2); try done; [lia|].
    rewrite M. cbn. eexists _, _; split; [done|]. auto.
Qed.

(** The event posted for a frame, at the time [t]. *)
Definition h2_post (h : http_state_t) (net : option net_info) (httpId : httpId_t)
    (frame : list Z) (t : Z) : protocol_info :=
  let '(ty, lc, rc) := proto_conn net in
  mkProto EVT_PROTO EVT_H2FRAME (is_tx (hid_src (id h))) (Z.of_nat (length frame))
    (hid_sockfd httpId) (hid_uid httpId) (mkPost (hid_isSsl (id h)) t (id h) frame) ty lc rc.

Definition posted_as (h : http_state_t) (net : option net_info) (httpId : httpId_t)
    (frame : list Z) (p : protocol_info) : Prop :=
  exists t, p = h2_post h net httpId frame t.

Section Report.
Variables (h : http_state_t) (net : option net_info) (httpId : httpId_t).
Variables (st : http_buf_t) (pos : list Z) (F : Z).
Hypothesis W : wf_stash st.
Hypothesis P : is_bytes pos.
Let s := stash_bytes st ++ pos.
Hypothesis H9 : 9 <= F.
Hypothesis HF : b_len st < F <= Z.of_nat (length s).

(** Stash and buffer together give the frame. *)
Lemma join_frame (frame : list Z) :
  Z.of_nat (length frame) = F ->
  (if negb (b_len st =? 0) then
     f ← memcpy (Some frame) 0 (default [] (b_buf st)) (b_len st);
     memcpy (Some f) (b_len st) pos (F - b_len st)
   else memcpy (Some frame) 0 pos F) = Def (take (Z.to_nat F) s).
Proof.
  intros Hf. pose proof W as [Hl Hs Hb _]. pose proof (stash_bytes_length _ W) as Lt.
  assert (Z.of_nat (length s) = b_len st + Z.of_nat (length pos)) as Ls
    by (subst s; rewrite length_app; lia).
  destruct (Z.eqb_spec (b_len st) 0) as [E|E]; cbn [negb].
  - rewrite memcpy_ok by lia. f_equal. subst s. unfold stash_bytes. rewrite E. simpl.
    rewrite drop_ge by lia. by rewrite app_nil_r.
  - rewrite memcpy_ok by lia. cbn [mbind ub_bind].
    rewrite memcpy_ok; rewrite ?length_app, ?length_take, ?length_drop; try lia. f_equal.
    change (Z.to_nat 0) with 0%nat. rewrite take_0. cbn [app].
    subst s. unfold stash_bytes in *.
    set (t := take (Z.to_nat (b_len st)) (default [] (b_buf st))) in *.
    replace (take (Z.to_nat (b_len st)) (t ++ drop (Z.to_nat (0 + b_len st)) frame)) with t
      by (symmetry; apply take_app_length'; lia).
    rewrite (drop_ge (t ++ _)) by (rewrite length_app, length_drop; lia).
    rewrite app_nil_r, take_app_ge by lia. do 2 f_equal. lia.
Qed.

Lemma reportHttp2_spec w :
  exists r w', reportHttp2 e h net st w pos F httpId = Def (r, w') /\
    ((posted w' = posted w /\ ~ allocs_ok e) \/
     exists p, posted w' = posted w ++ [p] /\ posted_as h net httpId (take (Z.to_nat F) s) p).
Proof.
  unfold reportHttp2. destruct (Z.eqb_spec F 0); [lia|].
  destruct (evtProtoAllocHttp2Frame e w F) as [[[pt frame]|] w1] eqn:A;
    unfold evtProtoAllocHttp2Frame, evtProtoAllocHttpBase in A.
  - destruct (realloc e (tock (tock w)) None F) as [[f|] w2] eqn:R; [|done].
    destruct (_ && _) in A; [|done]. simplify_eq.
    apply realloc_some in R as (Lf & Ep & _); [|lia].
    rewrite (join_frame _ Lf). cbn [mbind ub_bind].
    destruct (proto_conn net) as [[ty lc] rc] eqn:C.
    rewrite load_ok by (rewrite length_take; lia). cbn [mbind ub_bind].
    eexists _, _; split; [done|]. right. eexists; split.
    { cbn. by rewrite Ep. }
    eexists. unfold h2_post. rewrite C. f_equal. rewrite length_take. lia.
  - eexists _, _; split; [done|]. left. split.
    + unfold realloc in A. destruct (alloc_ok e (tick (tock (tock w)))); [destruct (_ && _)|];
        simplify_eq; done.
    + intros Hok. unfold realloc in A. by rewrite !Hok in A.
Qed.

End Report.

Lemma posted_as_wf h net httpId f p :
  is_frame f -> interesting (frame_type f) = true -> posted_as h net httpId f p -> wf_post p.
Proof.
  intros Hf Hi [t ->]. unfold h2_post. destruct (proto_conn net) as [[ty lc] rc].
  by unfold wf_post; simpl.
Qed.

Lemma cut_frame s :
  is_bytes s -> 9 <= Z.of_nat (length s) -> 9 + frame_len s <= Z.of_nat (length s) ->
  let f := take (Z.to_nat (9 + frame_len s)) s in is_frame f /\ frame_type f = frame_type s.
Proof.
  intros Hs H9 Hn f. pose proof (frame_len_bytes s Hs).
  assert (forall i, 0 <= i < 9 -> byte_at f i = byte_at s i) as E.
  { intros i Hi. unfold byte_at. subst f. by rewrite lookup_take_lt by lia. }
  assert (L : Z.of_nat (length f) = 9 + frame_len s) by (subst f; rewrite length_take; lia).
  split; [|by apply E]. unfold is_frame. rewrite L. unfold frame_len in *. rewrite !E by lia. lia.
Qed.

Lemma wf_stash_empty st : wf_stash st -> wf_stash (mkBuf (b_buf st) 0 (b_size st)).
Proof. intros [? ? _ _]. split; simpl; [lia|done|constructor|left; simpl; lia]. Qed.

(** What a run of the parser over the buffer [pos] achieves. *)
Definition parsed (h : http_state_t) (net : option net_info) (httpId : httpId_t) (w : world)
    (pos : list Z) (h' : http_state_t) (w' : world) : Prop :=
  let fr := frames (stash_bytes (http2Buf h) ++ pos) in
  exists ps, posted w' = posted w ++ ps /\ stash_bytes (http2Buf h') = fr.2 /\
    Forall2 (posted_as h net httpId) (filter (fun f => interesting (frame_type f) = true) fr.1) ps.

Lemma stash_small st : wf_stash st -> b_len st < 9 + 2 ^ 24.
Proof.
  intros W. pose proof (stash_bytes_length _ W). destruct W as [_ _ Hb Hi].
  pose proof (frame_len_bytes _ Hb). destruct Hi; lia.
Qed.

(** The incomplete tail of a buffer is stashed. *)
Lemma stash_tail h net httpId w pos :
  wf h -> is_bytes pos -> (0 < length pos)%nat -> Z.of_nat (length pos) <= PTRDIFF_MAX ->
  incomplete (stash_bytes (http2Buf h) ++ pos) ->
  exists r h' w', ('(s, w) ← http2StashFrame e (http2Buf h) w pos (Z.of_nat (length pos));
                   Def (false, set_stash h s, w)) = Def (r, h', w') /\
    wf h' /\ h' = set_stash h (http2Buf h') /\ posts_more w w' /\
    (allocs_ok e -> parsed h net httpId w pos h' w').
Proof.
  intros W P Hp Hmax Hi. pose proof (stash_small _ (wf_s _ W)).
  destruct (http2StashFrame_spec (http2Buf h) w pos) as (st' & w' & -> & Ep & W' & B);
    [apply W|done..|unfold PTRDIFF_MAX in *; lia|done|].
  cbn [mbind ub_bind]. eexists _, _, _; split; [done|].
  split; [by apply set_stash_wf|]. split; [done|]. split; [auto with appview|].
  intros Hok. exists []. rewrite app_nil_r. rewrite frames_incomplete by done.
  split; [done|]. split; [by apply B|constructor].
Qed.

(** A whole frame at the front, and then the rest of the buffer. *)
Lemma parsed_step h net httpId w w1 w2 pos h2 :
  wf h -> is_bytes pos ->
  let st := http2Buf h in let s := stash_bytes st ++ pos in let F := 9 + frame_len s in
  9 <= Z.of_nat (length s) -> b_len st < F <= Z.of_nat (length s) ->
  (if interesting (frame_type s)
   then exists p, posted w1 = posted w ++ [p] /\ posted_as h net httpId (take (Z.to_nat F) s) p
   else posted w1 = posted w) ->
  parsed (set_stash h (mkBuf (b_buf st) 0 (b_size st))) net httpId w1
    (drop (Z.to_nat (F - b_len st)) pos) h2 w2 ->
  parsed h net httpId w pos h2 w2.
Proof.
  intros W P st s F H9 HF Hw1 (ps & E2 & B2 & Q2).
  assert (Hs : is_bytes s) by (apply joined_bytes; [apply W|done]).
  assert (Ed : drop (Z.to_nat (F - b_len st)) pos = drop (Z.to_nat F) s).
  { subst s. pose proof (stash_bytes_length _ (wf_s _ W)). fold st in H.
    rewrite drop_app_ge by lia. f_equal. lia. }
  destruct (cut_frame s Hs H9 ltac:(lia)) as [_ Ety]. fold F in Ety.
  unfold parsed. fold st. fold s. rewrite (frames_cons s) by (done || lia). fold F. cbn [fst snd].
  unfold stash_bytes in B2, Q2. cbn in B2, Q2. rewrite Ed in B2, Q2.
  destruct (interesting (frame_type s)) eqn:I.
  - destruct Hw1 as (p & E1 & Hp). exists (p :: ps). rewrite E2, E1, <- app_assoc.
    split; [done|]. split; [done|]. rewrite filter_cons_True by (by rewrite Ety).
    by constructor.
  - exists ps. rewrite E2, Hw1. split; [done|]. split; [done|].
    rewrite filter_cons_False by (rewrite Ety, I; done). done.
Qed.

(** Processing the frame at the front: no access out of bounds, and the post. *)
Lemma process_frame h net httpId w pos :
  wf h -> is_bytes pos ->
  let st := http2Buf h in let s := stash_bytes st ++ pos in let F := 9 + frame_len s in
  9 <= Z.of_nat (length s) -> b_len st < F <= Z.of_nat (length s) ->
  exists r w1, (if interesting (frame_type s) then reportHttp2 e h net st w pos F httpId
                else Def (false, w)) = Def (r, w1) /\ posts_more w w1 /\
    (allocs_ok e -> if interesting (frame_type s)
     then exists p, posted w1 = posted w ++ [p] /\ posted_as h net httpId (take (Z.to_nat F) s) p
     else posted w1 = posted w).
Proof.
  intros W P st s F H9 HF.
  assert (Hs : is_bytes s) by (apply joined_bytes; [apply W|done]).
  destruct (cut_frame s Hs H9 ltac:(lia)) as [Hf Ety]. fold F in Hf, Ety.
  destruct (interesting (frame_type s)) eqn:I; [|eexists _, _; eauto with appview].
  pose proof (frame_len_bytes s Hs).
  destruct (reportHttp2_spec h net httpId st pos F (wf_s _ W) ltac:(lia) HF w)
    as (r & w1 & -> & [[E N]|(p & E & Hp)]); eexists _, _; (split; [done|]).
  - split; [auto with appview|]. done.
  - split; [|by eauto]. exists [p]. split; [done|]. constructor; [|done].
    eapply posted_as_wf; [done| |done]. fold s. by rewrite Ety.
Qed.

(** The iteration after the test for the preface, with [loop] for the rest. *)
Definition frameBody (loop : http_state_t -> world -> list Z -> Z -> bool -> ub (bool * http_state_t * world))
    (h : http_state_t) (net : option net_info) (w : world) (pos : list Z) (len : Z)
    (httpId : httpId_t) (ret : bool) : ub (bool * http_state_t * world) :=
  let stash := http2Buf h in
  if b_len stash + len <? 9 then
    '(s, w) ← http2StashFrame e stash w pos len; Def (false, set_stash h s, w)
  else
  fLen ← http2GetFrameLength stash pos;
  fType ← http2GetFrameType stash pos;
  if b_len stash + len <? u32 (9 + fLen) then
    '(s, w) ← http2StashFrame e stash w pos len; Def (false, set_stash h s, w)
  else
  '(r, w) ← (if interesting fType then reportHttp2 e h net stash w pos (u32 (fLen + 9)) httpId
             else Def (false, w));
  let parsed := u64 (u32 (fLen + 9) - b_len stash) in
  loop (set_stash h (mkBuf (b_buf stash) 0 (b_size stash))) w
    (drop (Z.to_nat parsed) pos) (u64 (len - parsed)) (ret || r).

Section Loop.
Variables (net : option net_info) (httpId : httpId_t).

(** The outcome of a loop over [pos]. *)
Definition outcome (buf : list Z) (h : http_state_t) (w : world) (pos : list Z)
    (res : ub (bool * http_state_t * world)) : Prop :=
  exists r h' w', res = Def (r, h', w') /\
    wf h' /\ h' = set_stash h (http2Buf h') /\ posts_more w w' /\
    (allocs_ok e -> is_magic buf = false -> parsed h net httpId w pos h' w').

Lemma outcome_nothing buf h w pos r :
  wf h -> (is_magic buf = false -> pos = []) -> outcome buf h w pos (Def (r, h, w)).
Proof.
  intros W Hp. eexists _, _, _; split; [done|]. split; [done|]. split; [by destruct h|].
  split; [auto with appview|]. intros _ ->%Hp. exists [].
  rewrite !app_nil_r, frames_incomplete by apply W. auto.
Qed.

Lemma outcome_tail buf h w pos :
  wf h -> is_bytes pos -> (0 < length pos)%nat -> Z.of_nat (length pos) <= PTRDIFF_MAX ->
  incomplete (stash_bytes (http2Buf h) ++ pos) ->
  outcome buf h w pos ('(s, w) ← http2StashFrame e (http2Buf h) w pos (Z.of_nat (length pos));
                       Def (false, set_stash h s, w)).
Proof.
  intros W P Hp Hmax Hi. destruct (stash_tail h net httpId w pos W P Hp Hmax Hi)
    as (r & h' & w' & -> & W' & Hh' & Hps & Hpar).
  eexists _, _, _; split; [done|]. auto 6.
Qed.

Lemma frameBody_spec loop buf n h w pos ret :
  (forall h w pos ret, wf h -> is_bytes pos -> (length pos < n)%nat ->
     Z.of_nat (length pos) <= PTRDIFF_MAX ->
     outcome buf h w pos (loop h w pos (Z.of_nat (length pos)) ret)) ->
  wf h -> is_bytes pos -> (0 < length pos <= n)%nat -> Z.of_nat (length pos) <= PTRDIFF_MAX ->
  outcome buf h w pos (frameBody loop h net w pos (Z.of_nat (length pos)) httpId ret).
Proof.
  intros IH W P Hn Hmax. unfold frameBody.
  pose proof (stash_bytes_length _ (wf_s _ W)) as Lst.
  pose proof (process_frame h net httpId w pos W P) as PF.
  pose proof (parsed_step h net httpId w) as PS. cbn zeta in PF, PS.
  set (s := stash_bytes (http2Buf h) ++ pos) in *.
  assert (Ls : Z.of_nat (length s) = b_len (http2Buf h) + Z.of_nat (length pos))
    by (subst s; rewrite length_app; lia).
  assert (Hs : is_bytes s) by (apply joined_bytes; [apply W|done]).
  pose proof (frame_len_bytes s Hs).
  destruct (Z.ltb_spec (b_len (http2Buf h) + Z.of_nat (length pos)) 9).
  { apply outcome_tail; [done|done|lia|lia|left; fold s; lia]. }
  rewrite http2GetFrameLength_spec, http2GetFrameType_spec by (done || lia || apply W).
  cbn [mbind ub_bind]. fold s. rewrite (Z.add_comm (frame_len s) 9).
  rewrite (u32_small (9 + frame_len s)) by lia.
  destruct (Z.ltb_spec (b_len (http2Buf h) + Z.of_nat (length pos)) (9 + frame_len s)).
  { apply outcome_tail; [done|done|lia|lia|right; fold s; lia]. }
  assert (HF : b_len (http2Buf h) < 9 + frame_len s).
  { destruct (ws_incomplete _ (wf_s _ W)) as [?|Hi]; [lia|].
    destruct (decide (b_len (http2Buf h) < 9)); [lia|]. subst s. rewrite frame_len_app by lia. lia. }
  destruct PF as (r & w1 & -> & Hp1 & Hw1); [lia..|]. cbn [mbind ub_bind].
  unfold PTRDIFF_MAX in *. rewrite (u64_small (9 + _ - _)), (u64_small (_ - _)) by lia.
  match goal with |- context [drop ?k pos] => set (pos2 := drop k pos) end.
  assert (L2 : Z.of_nat (length pos2) =
    Z.of_nat (length pos) - (9 + frame_len s - b_len (http2Buf h)))
    by (subst pos2; rewrite length_drop; lia).
  rewrite <- L2.
  destruct (IH (set_stash h (mkBuf (b_buf (http2Buf h)) 0 (b_size (http2Buf h)))) w1 pos2 (ret || r))
    as (r' & h' & w' & -> & W' & Hh' & Hp & Hpar);
    [apply set_stash_wf; [done|apply wf_stash_empty, W]|by apply Forall_drop|lia|lia|].
  eexists _, _, _; split; [done|]. split; [done|]. split; [done|].
  split; [by eapply posts_more_trans|]. intros Hok Hb.
  eapply PS; [done|done|fold s; lia|fold s; lia|by apply Hw1|by apply Hpar].
Qed.

Lemma outcome_drop buf h w pos n res :
  outcome buf h w (drop n pos) res -> is_magic buf = true -> outcome buf h w pos res.
Proof.
  intros (r & h' & w' & -> & W' & Hh' & Hp & _) Hb. eexists _, _, _; split; [done|].
  split; [done|]. split; [done|]. split; [done|]. congruence.
Qed.

Lemma frameLoop_spec fuel h w buf pos ret :
  wf h -> is_bytes pos -> (length pos < fuel)%nat -> Z.of_nat (length pos) <= PTRDIFF_MAX ->
  outcome buf h w pos
    (frameLoop e fuel h net w buf pos (Z.of_nat (length pos)) httpId ret).
Proof.
  revert h w pos ret. induction fuel as [|fuel IH]; intros h w pos ret W P Hf Hmax; [lia|].
  cbn [frameLoop]. set (len := Z.of_nat (length pos)).
  destruct (Z.ltb_spec 0 len).
  2:{ apply outcome_nothing; [done|]. intros _. destruct pos; [done|simpl in *; lia]. }
  destruct ((HTTP2_MAGIC_LEN <=? len) && is_magic buf) eqn:M; cbn [andb].
  - apply andb_true_iff in M as [M%Z.leb_le Hb]. unfold HTTP2_MAGIC_LEN in *.
    destruct (Z.eqb_spec (len - 24) 0); [apply outcome_nothing; [done|congruence]|].
    apply (outcome_drop _ _ _ _ (Z.to_nat 24)); [|done].
    replace (len - 24) with (Z.of_nat (length (drop (Z.to_nat 24) pos)))
      by (rewrite length_drop; lia).
    apply (frameBody_spec (fun h w pos len ret => frameLoop e fuel h net w buf pos len httpId ret)
             buf fuel); [auto|done|by apply Forall_drop|rewrite length_drop; lia..].
  - apply (frameBody_spec (fun h w pos len ret => frameLoop e fuel h net w buf pos len httpId ret)
             buf fuel); [auto|done|done|lia|done].
Qed.

End Loop.

Lemma parseHttp2_spec h net w buf len httpId :
  wf h -> is_bytes buf -> len = Z.of_nat (length buf) -> len <= PTRDIFF_MAX ->
  outcome net httpId buf h w buf (parseHttp2 e h net w buf len httpId).
Proof.
  intros W P -> Hmax. unfold parseHttp2. destruct (Z.eqb_spec (Z.of_nat (length buf)) 0) as [E|E].
  - apply outcome_nothing; [done|]. by destruct buf.
  - apply frameLoop_spec; [done|done|lia|done].
Qed.

(** ** Both directions *)

Definition wf_states (st : http_states) : Prop := wf st.1 /\ wf st.2.

Lemma dir_wf st tx : wf_states st -> wf (dir st tx).
Proof. intros []. by destruct tx. Qed.
Lemma set_dir_wf st tx h : wf_states st -> wf h -> wf_states (set_dir st tx h).
Proof. intros [] ?. by destruct tx. Qed.
Lemma set_versions_wf st v : wf_states st -> wf_states (set_versions st v).
Proof. intros []. split; by apply set_version_wf. Qed.
#[local] Hint Resolve dir_wf set_dir_wf set_versions_wf : appview.

Definition buffer_ok (b : list Z) : Prop := is_bytes b /\ Z.of_nat (length b) <= PTRDIFF_MAX.

Lemma detectVersion_safe st tx buf st' o :
  wf_states st -> buffer_ok buf ->
  detectVersion e st tx buf (Z.of_nat (length buf)) = (st', o) ->
  wf_states st' /\
  forall b n, o = Some (b, n) -> buffer_ok b /\ n = Z.of_nat (length b).
Proof.
  intros W [Hb Hm] D. unfold detectVersion in D.
  destruct (version _ =? 0); [|simplify_eq; split; [done|]; intros; by simplify_eq].
  destruct (_ && _) eqn:M.
  - apply andb_true_iff in M as [M%Z.leb_le _]. unfold HTTP2_MAGIC_LEN in *.
    destruct (Z.ltb_spec 24 (Z.of_nat (length buf))) in D; simplify_eq; (split; [auto with appview|]);
      intros; simplify_eq.
    split; [split; [by apply Forall_drop|]|]; rewrite length_drop; lia.
  - destruct (negb _) in D; simplify_eq; (split; [auto with appview|]); intros; by simplify_eq.
Qed.

Hypothesis env : env_ok e.

Lemma doHttpBuffer_safe st net w buf src httpId :
  wf_states st -> buffer_ok buf ->
  exists r st' w', doHttpBuffer e st net w buf (Z.of_nat (length buf)) src httpId
                   = Def (r, st', w') /\ wf_states st' /\ posts_more w w'.
Proof.
  intros W B. unfold doHttpBuffer.
  destruct (detectVersion e st (is_tx src) buf _) as [st1 [[b n]|]] eqn:D;
    destruct (detectVersion_safe _ _ _ _ _ W B D) as [W1 Hd]; [|eexists _, _, _; eauto with appview].
  destruct (Hd _ _ eq_refl) as [[Hb Hm] ->].
  destruct (_ =? 1); [|destruct (_ =? 2)].
  - destruct (parseHttp1_safe e env (dir st1 (is_tx src)) w b (Z.of_nat (length b)) httpId)
      as (r & h & w' & -> & W2 & P2); [auto with appview|done|done|done|]. cbn [mbind ub_bind].
    assert (W3 : wf_states (set_dir st1 (is_tx src) h)) by auto with appview.
    destruct (_ && _); eexists _, _, _; (split; [done|]); auto 8 with appview.
  - destruct (parseHttp2_spec (dir st1 (is_tx src)) net w b (Z.of_nat (length b)) httpId)
      as (r & h & w' & -> & W2 & _ & P2 & _); [auto with appview|done|done|done|]. cbn [mbind ub_bind].
    eexists _, _, _; eauto with appview.
  - eexists _, _, _; eauto with appview.
Qed.

Definition iov_ok (iov : list (option (list Z))) : Prop :=
  Forall (fun o => match o with Some b => buffer_ok b | None => True end) iov.

Lemma doIov_safe st net w iov src httpId found :
  wf_states st -> iov_ok iov ->
  exists r st' w', doIov e st net w iov src httpId found = Def (r, st', w') /\
    wf_states st' /\ posts_more w w'.
Proof.
  intros W H. revert st w found W. induction H as [|[b|] iov Hb _ IH]; intros st w found W; cbn [doIov];
    [eexists _, _, _; eauto with appview| |auto].
  destruct (doHttpBuffer_safe st net w b src httpId W Hb) as (r & st1 & w1 & -> & W1 & P1).
  cbn [mbind ub_bind]. destruct (IH st1 w1 (found || r) W1) as (r' & st' & w' & -> & W' & P').
  eexists _, _, _; split; [done|]. split; [done|]. by eapply posts_more_trans.
Qed.

(** What a caller of [doHttp] passes: readable buffers of the stated sizes. *)
Definition payload_ok (data : option payload) (len : Z) : Prop :=
  match data with
  | Some (BUF b) => buffer_ok b /\ len = Z.of_nat (length b)
  | Some (MSG iov) => iov_ok iov
  | Some (IOV iov) => iov_ok iov /\ i32 len <= Z.of_nat (length iov)
  | _ => True
  end.

Lemma doHttp_step sockfd net st w data len src :
  wf_states st -> payload_ok data len ->
  exists r st' w', doHttp e sockfd net st w data len src = Def (r, st', w') /\
    wf_states st' /\ posts_more w w'.
Proof.
  intros W Hd. unfold doHttp. destruct data as [data|]; [|eexists _, _, _; eauto with appview].
  destruct net as [n|]; [|eexists _, _, _; eauto with appview].
  destruct (_ =? 0); [eexists _, _, _; eauto with appview|].
  destruct (negb _); [eexists _, _, _; eauto with appview|].
  destruct data as [b|iov|iov|]; simpl in Hd.
  - destruct Hd as [Hb ->]. by apply doHttpBuffer_safe.
  - by apply doIov_safe.
  - apply doIov_safe; [done|]. apply Forall_take, Hd.
  - eexists _, _, _; eauto with appview.
Qed.

(** The life of a socket's HTTP state: payloads of either direction, resets. *)
Inductive http_op :=
| OpData (sockfd : Z) (net : option net_info) (data : option payload) (len src : Z)
| OpReset.

Definition op_ok (o : http_op) : Prop :=
  match o with OpData _ _ data len _ => payload_ok data len | OpReset => True end.

Fixpoint run_ops (st : http_states) (w : world) (ops : list http_op) : ub (http_states * world) :=
  match ops with
  | [] => Def (st, w)
  | OpData sockfd net data len src :: ops =>
      '(_, st, w) ← doHttp e sockfd net st w data len src; run_ops st w ops
  | OpReset :: ops => run_ops (resetHttp st) w ops
  end.

Lemma run_ops_safe st w ops :
  wf_states st -> Forall op_ok ops ->
  exists st' w', run_ops st w ops = Def (st', w') /\ wf_states st' /\ posts_more w w'.
Proof.
  intros W H. revert st w W. induction H as [|o ops Ho _ IH]; intros st w W; cbn [run_ops].
  { eexists _, _; eauto with appview. }
  destruct o as [sockfd net data len src|].
  - destruct (doHttp_step sockfd net st w data len src W Ho) as (r & st1 & w1 & -> & W1 & P1).
    cbn [mbind ub_bind]. destruct (IH st1 w1 W1) as (st' & w' & -> & W' & P').
    eexists _, _; split; [done|]. split; [done|]. by eapply posts_more_trans.
  - apply IH. split; apply setHttpState_none_wf.
Qed.
End Env.

(** ** A stream in pieces *)

(** Consecutive buffers of one direction of a socket. *)
Fixpoint feed (e : http_env) (st : http_states) (net : option net_info) (w : world)
    (chunks : list (list Z)) (src : Z) (httpId : httpId_t) : ub (http_states * world) :=
  match chunks with
  | [] => Def (st, w)
  | c :: chunks =>
      '(_, st, w) ← doHttpBuffer e st net w c (Z.of_nat (length c)) src httpId;
      feed e st net w chunks src httpId
  end.

Lemma dir_set_dir st tx h : dir (set_dir st tx h) tx = h.
Proof. by destruct tx. Qed.

Lemma feed_frames e st net w chunks src httpId :
  allocs_ok e -> wf_states st -> Forall buffer_ok chunks ->
  Forall (fun c => is_magic c = false) chunks ->
  let h := dir st (is_tx src) in version h = 2 ->
  let fr := frames (stash_bytes (http2Buf h) ++ concat chunks) in
  exists st' w' ps, feed e st net w chunks src httpId = Def (st', w') /\
    posted w' = posted w ++ ps /\
    Forall2 (posted_as h net httpId) (filter (fun f => interesting (frame_type f) = true) fr.1) ps /\
    stash_bytes (http2Buf (dir st' (is_tx src))) = fr.2.
Proof.
  intros Hok. revert st w. induction chunks as [|c chunks IH]; intros st w W Hb Hm h Hv fr.
  { subst fr. eexists _, _, []. simpl. rewrite !app_nil_r, frames_incomplete by apply (dir_wf st _ W).
    auto. }
  inversion_clear Hb as [|? ? [Hc Hcm] Hb']. inversion_clear Hm as [|? ? Hc' Hm'].
  cbn [feed]. unfold doHttpBuffer, detectVersion. fold h. rewrite Hv. cbn [Z.eqb Pos.eqb].
  fold h. rewrite Hv. cbn [Z.eqb Pos.eqb].
  destruct (parseHttp2_spec e h net w c _ httpId (dir_wf _ _ W) Hc eq_refl Hcm)
    as (r & h' & w1 & -> & W1 & Hh & _ & Hp). cbn [mbind ub_bind].
  destruct (Hp Hok Hc') as (ps1 & E1 & B1 & Q1).
  destruct (IH (set_dir st (is_tx src) h') w1) as (st' & w' & ps2 & -> & E2 & Q2 & B2);
    [by apply set_dir_wf|done|done|cbn zeta; rewrite dir_set_dir, Hh; exact Hv|].
  rewrite dir_set_dir in Q2, B2.
  subst fr. cbn [concat]. rewrite app_assoc.
  rewrite (frames_app (stash_bytes (http2Buf h) ++ c)); cycle 1.
  { apply joined_bytes; [apply (dir_wf st _ W)|done]. }
  { apply Forall_concat. eapply Forall_impl; [exact Hb'|]. by intros ? []. }
  rewrite B1 in *. cbn [fst snd].
  eexists _, _, (ps1 ++ ps2). split; [done|]. split; [by rewrite E2, E1, app_assoc|].
  split; [|done]. rewrite filter_app. apply Forall2_app; [done|].
  eapply Forall2_impl; [done|]. intros f p [t ->]. exists t. rewrite Hh. done.
Qed.

(** ** Properties *)

Definition fresh : http_states := (zeroState, zeroState).

Lemma fresh_wf : wf_states fresh.
Proof. split; apply zeroState_wf. Qed.

(** C7: however the payloads of a socket are cut, mixed between the
    directions and interleaved with resets, whatever their bytes and whichever
    allocations fail, [doHttp] never accesses memory outside its buffers, the
    states stay well-formed (at most 16 KB of header, an incomplete frame in
    the stash), and every event it posts is a NUL-terminated header block
    within its allocation or one complete HTTP/2 frame that carries headers. *)
Theorem doHttp_safe (e : http_env) (w : world) (ops : list http_op) :
  env_ok e -> Forall op_ok ops -> Forall wf_post (posted w) ->
  exists st' w', run_ops e fresh w ops = Def (st', w') /\
    wf_states st' /\ Forall wf_post (posted w').
Proof.
  intros He Ho Hw. destruct (run_ops_safe e He fresh w ops fresh_wf Ho) as (st' & w' & E & W & ps & Ep & F).
  eexists _, _; split; [done|]. split; [done|]. rewrite Ep. by apply Forall_app.
Qed.

(** A connection that opens with the HTTP/2 preface. *)
Lemma feed_connection e net w c0 chunks src httpId :
  allocs_ok e -> buffer_ok (HTTP2_MAGIC ++ c0) -> Forall buffer_ok chunks ->
  Forall (fun c => is_magic c = false) (c0 :: chunks) ->
  let fr := frames (c0 ++ concat chunks) in
  exists st' w' ps, feed e fresh net w ((HTTP2_MAGIC ++ c0) :: chunks) src httpId = Def (st', w') /\
    posted w' = posted w ++ ps /\
    Forall2 (posted_as zeroState net httpId)
      (filter (fun f => interesting (frame_type f) = true) fr.1) ps /\
    stash_bytes (http2Buf (dir st' (is_tx src))) = fr.2.
Proof.
  intros Hok [Hb0 Hl0] Hb Hm fr. apply Forall_app in Hb0 as [_ Hb0].
  rewrite length_app in Hl0.
  set (st := set_versions fresh 2).
  assert (Hst : wf_states st) by (split; apply set_version_wf, zeroState_wf).
  assert (Hh : dir st (is_tx src) = set_version zeroState 2) by (by destruct (is_tx src)).
  assert (Em : is_magic (HTTP2_MAGIC ++ c0) = true).
  { unfold is_magic, mem_eqb. apply bool_decide_eq_true.
    by rewrite take_app_le by (vm_compute; lia). }
  assert (Ed : drop (Z.to_nat HTTP2_MAGIC_LEN) (HTTP2_MAGIC ++ c0) = c0)
    by (apply drop_app_length'; done).
  destruct (feed_frames e st net w (c0 :: chunks) src httpId) as (st' & w' & ps & E & P & F & B);
    [done|done|constructor; [split; [done|lia]|done]|done|cbn zeta; by rewrite Hh|].
  rewrite Hh in F, B. cbn in F, B.
  exists st', w', ps. split; [|done]. rewrite <- E. cbn [feed].
  assert (Hv0 : version (dir fresh (is_tx src)) = 0) by (by destruct (is_tx src)).
  assert (Ln : Z.of_nat (length (HTTP2_MAGIC ++ c0)) = 24 + Z.of_nat (length c0))
    by (rewrite length_app; done || (simpl; lia)).
  unfold doHttpBuffer at 1, detectVersion. rewrite Hv0, Em, Ln, Ed. cbn [Z.eqb].
  unfold HTTP2_MAGIC_LEN. rewrite (proj2 (Z.leb_le 24 _)) by lia. cbn [andb].
  unfold doHttpBuffer, detectVersion. fold st. rewrite Hh. cbn [version set_version Z.eqb Pos.eqb].
  destruct (Z.ltb_spec 24 (24 + Z.of_nat (length c0))).
  - rewrite Hh. cbn [version set_version Z.eqb Pos.eqb].
    replace (24 + _ - 24) with (Z.of_nat (length c0)) by lia. done.
  - rewrite Hh. cbn [version set_version Z.eqb Pos.eqb].
    destruct c0; [|simpl in *; lia]. cbn. f_equal. by destruct (is_tx src).
Qed.

(** C8: on a connection that opens with the HTTP/2 preface, for every way of
    cutting the stream behind it into buffers (none of which starts with the
    preface again), the posted events are exactly the HEADERS, PUSH_PROMISE
    and CONTINUATION frames of the concatenated stream, in order and byte for
    byte, and the stash holds exactly the incomplete frame at its end. *)
Theorem h2_reassembly (e : http_env) net w (c0 : list Z) (chunks : list (list Z)) src httpId :
  allocs_ok e -> buffer_ok (HTTP2_MAGIC ++ c0) -> Forall buffer_ok chunks ->
  Forall (fun c => is_magic c = false) (c0 :: chunks) ->
  let fr := frames (c0 ++ concat chunks) in
  exists st' w' ps, feed e fresh net w ((HTTP2_MAGIC ++ c0) :: chunks) src httpId = Def (st', w') /\
    posted w' = posted w ++ ps /\
    map (fun p => post_hdr (proto_data p)) ps =
      filter (fun f => interesting (frame_type f) = true) fr.1 /\
    stash_bytes (http2Buf (dir st' (is_tx src))) = fr.2.
Proof.
  intros Hok H0 Hb Hm fr.
  destruct (feed_connection e net w c0 chunks src httpId Hok H0 Hb Hm)
    as (st' & w' & ps & E & P & F & B).
  exists st', w', ps. split; [done|]. split; [done|]. split; [|done]. fold fr in F. clear -F.
  induction F as [|f p fs ps [t ->] _ IH]; [done|]. simpl. f_equal; [|done].
  unfold h2_post. by destruct (proto_conn net) as [[? ?] ?].
Qed.

(** On such a connection every posted frame says that it was received,
    that it was not under TLS and that its socket id is zero, whatever the
    direction and the socket, because only the HTTP/1 parser sets the id that
    [reportHttp2] reads; its comment says sent frames are marked. *)
Theorem h2_origin_lost (e : http_env) net w (c0 : list Z) (chunks : list (list Z)) src httpId :
  allocs_ok e -> buffer_ok (HTTP2_MAGIC ++ c0) -> Forall buffer_ok chunks ->
  Forall (fun c => is_magic c = false) (c0 :: chunks) ->
  exists st' w' ps, feed e fresh net w ((HTTP2_MAGIC ++ c0) :: chunks) src httpId = Def (st', w') /\
    posted w' = posted w ++ ps /\
    Forall (fun p => isServer p = false /\ ssl (proto_data p) = false
                     /\ post_id (proto_data p) = zeroId) ps.
Proof.
  intros Hok H0 Hb Hm.
  destruct (feed_connection e net w c0 chunks src httpId Hok H0 Hb Hm)
    as (st' & w' & ps & E & P & F & B).
  exists st', w', ps. split; [done|]. split; [done|]. clear -F.
  induction F as [|f p fs ps [t ->] _ IH]; constructor; [|done].
  unfold h2_post. by destruct (proto_conn net) as [[? ?] ?].
Qed.

(** *** A concrete connection *)

(** Every allocation succeeds, memory is zeroed, no regular expression matches. *)
Definition env0 : http_env :=
  mkEnv (searchComp true true (Some HTTP_START)) (searchComp true true (Some HTTP_END))
    None None None (fun _ => true) (fun _ _ => 0) (fun t => Z.of_nat t) (fun _ => None).
Definition world0 : world := mkWorld 0 [].

Definition settings_frame : list Z := [0; 0; 0; 4; 0; 0; 0; 0; 0].
Definition headers_frame : list Z := [0; 0; 3; 1; 4; 0; 0; 0; 1; 130; 132; 135].
Definition id0 : httpId_t := mkHttpId 7 5 true TLSTX.

Lemma env0_ok : env_ok env0.
Proof. split; apply (initHttpState_ok true true true true). Qed.

Lemma doHttp_safe_witness :
  exists st' w', run_ops env0 fresh world0
    [OpData 5 (Some (mkNet 1 7 false false [] [])) (Some (BUF (HTTP2_MAGIC ++ headers_frame))) 36 TLSTX; OpReset]
    = Def (st', w') /\ wf_states st' /\ Forall wf_post (posted w').
Proof.
  apply (doHttp_safe env0 world0); [apply env0_ok| |constructor].
  repeat constructor; compute_done.
Defined.

Lemma h2_reassembly_witness :
  exists st' w' ps, feed env0 fresh None world0
    [HTTP2_MAGIC ++ settings_frame ++ take 5 headers_frame; drop 5 headers_frame; [0; 0]] TLSTX id0
    = Def (st', w') /\
    posted w' = [] ++ ps /\
    map (fun p => post_hdr (proto_data p)) ps = [headers_frame] /\
    stash_bytes (http2Buf (dir st' true)) = [0; 0].
Proof.
  apply (h2_reassembly env0 None world0 (settings_frame ++ take 5 headers_frame)
           [drop 5 headers_frame; [0; 0]] TLSTX id0); [done|..];
    repeat constructor; compute_done.
Defined.

Lemma h2_origin_lost_witness :
  exists st' w' ps, feed env0 fresh None world0 [HTTP2_MAGIC ++ headers_frame] TLSTX id0
    = Def (st', w') /\ posted w' = [] ++ ps /\
    Forall (fun p => isServer p = false /\ ssl (proto_data p) = false
                     /\ post_id (proto_data p) = zeroId) ps.
Proof.
  apply (h2_origin_lost env0 None world0 headers_frame [] TLSTX id0); [done|..];
    repeat constructor; compute_done.
Defined.

(** When the version is already known (after an h2c upgrade) and one
    buffer brings the preface with frames behind it, [parseHttp2] compares the
    start of the buffer instead of the current position, skips 24 bytes again
    before the second frame and so loses the HEADERS frame of the request. *)
Theorem h2_preface_skipped_twice :
  let st := set_versions fresh 2 in
  let stream := settings_frame ++ headers_frame ++ headers_frame in
  (frames stream).1 = [settings_frame; headers_frame; headers_frame] /\
  match feed env0 st None world0 [HTTP2_MAGIC ++ stream] NETRX id0 with
  | Def (st', w') => posted w' = [] /\ stash_bytes (http2Buf (dir st' false)) = []
  | UB => False
  end.
Proof. vm_compute. auto. Qed.

End HttpFrames.
