(* ===== verification/HttpHeaders.v ===== *)
(** * HTTP/1 header blocks

    A header block is posted exactly once and byte for byte however the
    stream is cut, as long as its last line end is not split; content that was
    announced by Content-Length is skipped however it is cut. *)

From S2P Require Import Prelude StrSearch Types HttpState HttpSafety HttpFrames.
Import StrSearch HttpState HttpSafety HttpFrames.

Module HttpHeaders.

Definition ends_crlf (c : list Z) : Prop := exists c0, c = c0 ++ CRLF.
Definition has_crlf (c : list Z) : Prop := exists a b, c = a ++ CRLF ++ b.
(** No blank line inside. *)
Definition no_blank (c : list Z) : Prop := forall a b, c <> a ++ CRLF ++ CRLF ++ b.

(** The data was appended to the header block; the state became [s]. *)
Record grown (h : http_state_t) (s : http_enum_t) (data : list Z) (h' : http_state_t) : Prop := {
  gr_same : h' = set_state (set_hdr h (hdr h') (hdrlen h') (hdralloc h')) s;
  gr_bytes : hdr_bytes h' = hdr_bytes h ++ data;
  gr_len : hdrlen h' = hdrlen h + Z.of_nat (length data);
  gr_wf : wf h';
}.

Lemma grown_refl h : wf h -> grown h (state h) [] h.
Proof. intros. split; [by destruct h|by rewrite app_nil_r|simpl; lia|done]. Qed.

Lemma grown_trans h s1 d1 h1 s2 d2 h2 :
  grown h s1 d1 h1 -> grown h1 s2 d2 h2 -> grown h s2 (d1 ++ d2) h2.
Proof.
  intros [E1 B1 L1 _] [E2 B2 L2 W2]. split; [|by rewrite B2, B1, app_assoc|rewrite length_app; lia|done].
  rewrite E2, E1. done.
Qed.

Lemma grown_state h s d h' : grown h s d h' -> state h' = s.
Proof. intros [-> _ _ _]. done. Qed.

(** An occurrence of CRLF as a decomposition. *)
Lemma occurs_crlf hay n j :
  occurs_at HTTP_END hay n j <->
  exists a b, hay = a ++ CRLF ++ b /\ j = Z.of_nat (length a) /\ j + 2 <= n.
Proof.
  unfold occurs_at, HTTP_END. change (length CRLF) with 2%nat. split.
  - intros (Hj & Hn & E). exists (take (Z.to_nat j) hay), (drop 2 (drop (Z.to_nat j) hay)).
    split; [rewrite <- E at 1; by rewrite !take_drop|]. split; [|lia].
    apply (f_equal length) in E. rewrite length_take, length_drop in E.
    change (length CRLF) with 2%nat in E. rewrite length_take. lia.
  - intros (a & b & -> & -> & Hn). split; [lia|]. split; [simpl; lia|].
    by rewrite Nat2Z.id, drop_app_length.
Qed.

Section Scan.
Variable e : http_env.
Variables sh eh : search_t.
Hypothesis Hstart : g_http_start e = Some sh.
Hypothesis Hend : g_http_end e = Some eh.
Hypothesis Cstart : compiled HTTP_START sh.
Hypothesis Cend : compiled HTTP_END eh.
Hypothesis Hok : allocs_ok e.

Lemma searchLen_end : searchLen (g_http_end e) = 2.
Proof. rewrite Hend. simpl. by rewrite (comp_nlen _ _ Cend). Qed.

(** The next line end of a text that ends with one. *)
Lemma find_line c tail :
  is_bytes (c ++ tail) -> Z.of_nat (length (c ++ tail)) < 2 ^ 31 -> ends_crlf c ->
  exists a b, c = a ++ CRLF ++ b /\ (b = [] \/ ends_crlf b) /\
    searchExec (g_http_end e) (Some (c ++ tail)) (i32 (Z.of_nat (length (c ++ tail))))
    = Z.of_nat (length a).
Proof.
  intros Hb Hl [c0 ->]. rewrite i32_small by lia. rewrite Hend.
  set (hay := (c0 ++ CRLF) ++ tail) in *.
  destruct (searchExec_handle HTTP_END hay (Z.of_nat (length hay)) eh Cend Hb ltac:(lia))
    as [[_ N]|[O M]].
  { exfalso. apply (N (Z.of_nat (length c0))), occurs_crlf. exists c0, tail.
    subst hay. rewrite <- app_assoc, !length_app. simpl. split; [done|lia]. }
  set (r := searchExec _ _ _) in *. apply occurs_crlf in O as (a & b & E & -> & _).
  assert (La : (length a <= length c0)%nat).
  { destruct (decide (length a <= length c0)%nat) as [?|G]; [done|]. exfalso.
    apply (M (Z.of_nat (length c0))); [lia|]. apply occurs_crlf. exists c0, tail.
    subst hay. rewrite <- app_assoc, !length_app. simpl. split; [done|lia]. }
  assert (Lne : length c0 <> S (length a)).
  { intros Hc. apply (f_equal (fun l => l !! S (length a))) in E. subst hay.
    rewrite <- app_assoc, (lookup_app_r c0), (lookup_app_r a) in E by lia.
    replace (S (length a) - length c0)%nat with 0%nat in E by lia.
    by replace (S (length a) - length a)%nat with 1%nat in E by lia. }
  exists a, (drop (length a + 2) (c0 ++ CRLF)). subst hay.
  assert (Ea : c0 ++ CRLF = a ++ CRLF ++ drop (length a + 2) (c0 ++ CRLF)).
  { assert (T : take (length a + 2) (c0 ++ CRLF) = a ++ CRLF).
    { apply (f_equal (take (length a + 2))) in E.
      rewrite take_app_le in E by (rewrite length_app; simpl; lia). rewrite E, app_assoc.
      apply take_app_length'. rewrite length_app. simpl. lia. }
    rewrite <- (take_drop (length a + 2) (c0 ++ CRLF)) at 1. by rewrite T, <- app_assoc. }
  split; [done|]. split; [|done]. destruct (decide (length c0 = length a)) as [Ec|].
  - left. apply drop_ge. rewrite length_app. simpl. lia.
  - right. exists (drop (length a + 2) c0). by rewrite drop_app_le by lia.
Qed.

Lemma line_none c :
  is_bytes c -> Z.of_nat (length c) < 2 ^ 31 -> ~ has_crlf c ->
  searchExec (g_http_end e) (Some c) (i32 (Z.of_nat (length c))) = -1.
Proof.
  intros Hb Hl Hn. rewrite i32_small by lia. rewrite Hend.
  destruct (searchExec_handle HTTP_END c (Z.of_nat (length c)) eh Cend Hb ltac:(lia))
    as [[-> _]|[O _]]; [done|].
  apply occurs_crlf in O as (a & b & E & _). destruct Hn. by exists a, b.
Qed.

(** One append of the header loop. *)
Lemma grow h w s rest data n :
  wf h -> in_header h -> s = HTTP_HDR \/ s = HTTP_HDREND ->
  n = Z.of_nat (length data) -> (exists t, rest = data ++ t) ->
  n <= PTRDIFF_MAX -> hdrlen h + n <= MAX_HDR_ALLOC ->
  exists h' w', appendHeader e (setHttpState h s) w rest n = Def (h', w') /\
    posted w' = posted w /\ grown h s data h'.
Proof.
  intros W Hin Hs -> [t ->] Hm Hfit.
  assert (Es : setHttpState h s = set_state h s) by (by destruct Hs as [-> | ->]). rewrite Es.
  destruct (appendHeader_spec e (set_state h s) w (data ++ t) (Z.of_nat (length data)))
    as (h' & w' & -> & W' & P & _ & App).
  - apply set_header_wf; [done|by destruct Hin as [-> | ->]|by destruct Hs as [-> | ->]].
  - done.
  - rewrite length_app. lia.
  - done.
  - destruct (App Hok Hfit) as (A1 & A2 & A3 & _).
    rewrite Nat2Z.id, take_app_length in A2, A3.
    eexists _, _; split; [done|]. split; [done|]. split; [by rewrite A1|done|done|done].
Qed.

Definition ends_line (h : http_state_t) : Prop := state h = HTTP_HDREND -> ends_crlf (hdr_bytes h).

(** The loop runs over complete lines. *)
Lemma consume fuel h w pre c tail len :
  wf h -> in_header h -> ends_line h -> no_blank (hdr_bytes h ++ c) ->
  c = [] \/ ends_crlf c -> is_bytes (pre ++ c ++ tail) ->
  len = Z.of_nat (length (pre ++ c ++ tail)) -> len < 2 ^ 31 ->
  hdrlen h + Z.of_nat (length c) <= MAX_HDR_ALLOC -> (length c < fuel)%nat ->
  exists fuel' h' w',
    headerLoop e fuel h w (pre ++ c ++ tail) len (Z.of_nat (length pre)) =
    headerLoop e fuel' h' w' (pre ++ c ++ tail) len (Z.of_nat (length (pre ++ c))) /\
    (fuel <= fuel' + length c)%nat /\ posted w' = posted w /\
    grown h (match c with [] => state h | _ => HTTP_HDREND end) c h'.
Proof.
  revert h w pre c. induction fuel as [|fuel IH]; intros h w pre c W Hin Hel Hnb Hc Hb Hlen Hl Hfit Hf; [lia|].
  destruct Hc as [->|Hc].
  { exists (S fuel), h, w. rewrite app_nil_r. split; [done|]. split; [simpl; lia|]. split; [done|].
    by apply grown_refl. }
  assert (Hct : is_bytes (c ++ tail)) by (by apply Forall_app in Hb as [_ ?]).
  rewrite length_app in Hlen.
  destruct (find_line c tail Hct ltac:(lia) Hc) as (a & b & E & Hbb & Ef).
  assert (Lc : length c = (length a + 2 + length b)%nat)
    by (rewrite E, !length_app; simpl; lia).
  assert (Hdrop : drop (Z.to_nat (Z.of_nat (length pre))) (pre ++ c ++ tail) = c ++ tail)
    by (by rewrite Nat2Z.id, drop_app_length).
  cbn [headerLoop]. rewrite bool_decide_eq_true_2 by done. cbn [andb].
  rewrite (proj2 (Z.ltb_lt _ _)) by (rewrite length_app in Hlen; lia).
  rewrite Hdrop. replace (len - Z.of_nat (length pre)) with (Z.of_nat (length (c ++ tail))) by lia.
  rewrite Ef. destruct (Z.eqb_spec (Z.of_nat (length a)) (-1)); [lia|].
  assert (Hne : bool_decide (state h = HTTP_HDREND) && (Z.of_nat (length a) =? 0) = false).
  { case_bool_decide as He; [|done]. destruct (Z.eqb_spec (Z.of_nat (length a)) 0); [|done].
    destruct a; [|simpl in *; lia]. destruct (Hel He) as [x Ex].
    destruct (Hnb x b). by rewrite Ex, E, <- app_assoc. }
  rewrite Hne, searchLen_end.
  destruct (grow h w HTTP_HDREND (c ++ tail) (a ++ CRLF)
    (Z.of_nat (length a) + Z.of_nat (length pre) + 2 - Z.of_nat (length pre)))
    as (h1 & w1 & -> & P1 & G1); [done|done|by right|rewrite length_app; simpl; lia|
      exists (b ++ tail); by rewrite E, <- !app_assoc|rewrite length_app in Hlen; unfold PTRDIFF_MAX; lia|lia|].
  cbn [mbind ub_bind].
  replace (Z.of_nat (length a) + Z.of_nat (length pre) + 2)
    with (Z.of_nat (length (pre ++ a ++ CRLF))) by (rewrite !length_app; simpl; lia).
  assert (Eb : pre ++ c ++ tail = (pre ++ a ++ CRLF) ++ b ++ tail)
    by (by rewrite E, <- !app_assoc).
  rewrite Eb.
  destruct (IH h1 w1 (pre ++ a ++ CRLF) b) as (fuel' & h' & w' & -> & Hf' & P' & G').
  - apply G1.
  - right. apply (grown_state _ _ _ _ G1).
  - intros _. rewrite (gr_bytes _ _ _ _ G1), app_assoc. by eexists.
  - by rewrite (gr_bytes _ _ _ _ G1), <- app_assoc, <- (app_assoc a), <- E.
  - done.
  - by rewrite <- Eb.
  - by rewrite <- Eb, length_app.
  - done.
  - rewrite (gr_len _ _ _ _ G1), length_app. simpl. lia.
  - lia.
  - exists fuel', h', w'. rewrite <- Eb. split.
    { do 2 f_equal. rewrite E, <- !app_assoc. done. }
    split; [lia|]. split; [congruence|].
    pose proof (grown_trans _ _ _ _ _ _ _ G1 G') as G. rewrite <- app_assoc, <- E in G.
    assert (match b with [] => state h1 | _ => HTTP_HDREND end = HTTP_HDREND) as Es.
    { destruct b; [apply (grown_state _ _ _ _ G1)|done]. }
    rewrite Es in G. destruct c; [destruct a; done|done].
Qed.


(** The complete lines of a text and its unfinished last line. *)
Lemma last_line c : exists c1 c2, c = c1 ++ c2 /\ (c1 = [] \/ ends_crlf c1) /\ ~ has_crlf c2.
Proof.
  induction c as [|x c (d1 & d2 & -> & H1 & H2)].
  { exists [], []. split; [done|]. split; [by left|]. intros (a & b & E). by destruct a. }
  destruct H1 as [->|[c0 ->]].
  - destruct (decide (x = 13 /\ head d2 = Some 10)) as [[-> Hd]|Hx].
    + destruct d2 as [|y d3]; [done|]. injection Hd as ->.
      exists CRLF, d3. split; [done|]. split; [right; by exists []|].
      intros (a & b & ->). apply H2. by exists (10 :: a), b.
    + exists [], (x :: d2). split; [done|]. split; [by left|]. intros (a & b & E).
      destruct a as [|y a]; simplify_eq/=; [by destruct Hx|]. apply H2. by exists a, b.
  - exists (x :: c0 ++ CRLF), d2. split; [done|]. split; [right; by exists (x :: c0)|done].
Qed.

(** [parseHttp1] behind the search for the start of a header. *)
Definition scan (h : http_state_t) (w : world) (buf : list Z) (len : Z)
  : ub (bool * http_state_t * world) :=
  '(found, header_start, h, w) ← headerLoop e (S (Z.to_nat len)) h w buf len 0;
  if found : bool then
    '(h, w) ← headersDone e h w (u64 (len - (header_start + 0 + searchLen (g_http_end e))));
    Def (true, h, w)
  else Def (false, h, w).

(** A buffer inside the header block. *)
Lemma scan_inside h w c :
  wf h -> in_header h -> ends_line h -> no_blank (hdr_bytes h ++ c) -> is_bytes c ->
  Z.of_nat (length c) < 2 ^ 31 -> hdrlen h + Z.of_nat (length c) <= MAX_HDR_ALLOC ->
  exists h' w' s, scan h w c (Z.of_nat (length c)) = Def (false, h', w') /\
    posted w' = posted w /\ grown h s c h' /\ in_header h' /\ ends_line h' /\
    (ends_crlf c -> state h' = HTTP_HDREND).
Proof.
  intros W Hin Hel Hnb Hb Hl Hfit. unfold scan.
  destruct (last_line c) as (c1 & c2 & -> & H1 & H2). rewrite length_app in Hfit, Hl.
  destruct (consume (S (Z.to_nat (Z.of_nat (length (c1 ++ c2))))) h w [] c1 c2
    (Z.of_nat (length (c1 ++ c2)))) as (fuel' & h1 & w1 & E & Hf & P1 & G1);
    try done; try (rewrite length_app; lia); try lia.
  { intros a b Ea. apply (Hnb a (b ++ c2)). by rewrite app_assoc, Ea, <- !app_assoc. }
  cbn [app length] in E. change (Z.of_nat 0) with 0 in E. rewrite E. clear E.
  set (s1 := match c1 with [] => state h | _ => HTTP_HDREND end) in *.
  assert (Hin1 : in_header h1).
  { unfold in_header. rewrite (grown_state _ _ _ _ G1). subst s1. destruct c1; [done|by right]. }
  assert (Hel1 : ends_line h1).
  { intros He. rewrite (gr_bytes _ _ _ _ G1). destruct H1 as [->|[c0 ->]].
    - rewrite app_nil_r. apply Hel. by rewrite (grown_state _ _ _ _ G1) in He.
    - exists (hdr_bytes h ++ c0). by rewrite app_assoc. }
  rewrite length_app in Hf. destruct fuel' as [|fuel']; [lia|]. cbn [headerLoop].
  rewrite bool_decide_eq_true_2 by done. cbn [andb]. rewrite length_app.
  destruct (Z.ltb_spec (Z.of_nat (length c1)) (Z.of_nat (length c1 + length c2))).
  - rewrite Nat2Z.id, drop_app_length.
    replace (Z.of_nat (length c1 + length c2) - Z.of_nat (length c1))
      with (Z.of_nat (length c2)) by lia.
    rewrite line_none by (done || lia || by apply Forall_app in Hb as [_ ?]). cbn [Z.eqb].
    destruct (grow h1 w1 HTTP_HDR c2 c2 (Z.of_nat (length c2))) as (h2 & w2 & -> & P2 & G2);
      [apply G1|done|by left|done|exists []; by rewrite app_nil_r|unfold PTRDIFF_MAX; lia|
       rewrite (gr_len _ _ _ _ G1); lia|].
    pose proof (grown_state _ _ _ _ G2) as Es. cbn [mbind ub_bind].
    eexists _, _, HTTP_HDR; split; [done|]. split; [congruence|].
    split; [by eapply grown_trans|]. split; [by left|]. split; [intros He; congruence|].
    intros [c0 Ec]. destruct c2 as [|x c2 _] using rev_ind; [simpl in *; lia|].
    (* the last line would end with CRLF, or be a lone LF behind a CR *)
    destruct (decide (c2 = [])) as [->|Hne].
    + rewrite app_nil_l in Ec. change CRLF with ([13] ++ [10]) in Ec.
      rewrite app_assoc in Ec. apply app_inj_tail in Ec as [-> ->].
      destruct H1 as [?|[d Ed]]; [by destruct c0|].
      change CRLF with ([13] ++ [10]) in Ed. rewrite app_assoc in Ed.
      by apply app_inj_tail in Ed as [_ ?].
    + destruct c2 as [|y c2 _] using rev_ind; [done|].
      change CRLF with ([13] ++ [10]) in Ec. rewrite !app_assoc in Ec.
      apply app_inj_tail in Ec as [Ec ->]. apply app_inj_tail in Ec as [_ ->].
      destruct H2. exists c2, []. by rewrite <- app_assoc.
  - destruct c2; [|simpl in *; lia]. rewrite app_nil_r in *.
    eexists _, _, s1; split; [done|]. split; [done|]. split; [done|]. split; [done|]. split; [done|].
    intros [c0 ->]. rewrite (grown_state _ _ _ _ G1). subst s1. by destruct c0.
Qed.

(** The buffer in which the header block ends. *)
Lemma scan_final h w c body :
  wf h -> in_header h -> ends_line h -> no_blank (hdr_bytes h ++ c) ->
  ends_crlf c \/ (c = [] /\ state h = HTTP_HDREND) -> is_bytes (c ++ CRLF ++ body) ->
  Z.of_nat (length (c ++ CRLF ++ body)) < 2 ^ 31 ->
  hdrlen h + Z.of_nat (length c) <= MAX_HDR_ALLOC ->
  exists h1 w1, scan h w (c ++ CRLF ++ body) (Z.of_nat (length (c ++ CRLF ++ body))) =
      ('(h, w) ← headersDone e h1 w1 (Z.of_nat (length body)); Def (true, h, w)) /\
    posted w1 = posted w /\ grown h HTTP_HDREND c h1.
Proof.
  intros W Hin Hel Hnb Hc Hb Hl Hfit. unfold scan.
  set (len := Z.of_nat (length (c ++ CRLF ++ body))) in *.
  assert (Elen : len = Z.of_nat (length c) + 2 + Z.of_nat (length body))
    by (subst len; rewrite !length_app; simpl; lia).
  destruct (consume (S (Z.to_nat len)) h w [] c (CRLF ++ body) len)
    as (fuel' & h1 & w1 & E & Hf & P1 & G1); try done; try lia.
  { destruct Hc as [?|[-> _]]; auto. }
  cbn [app length] in E. change (Z.of_nat 0) with 0 in E. cbn [app]. rewrite E. clear E.
  assert (Es : state h1 = HTTP_HDREND).
  { rewrite (grown_state _ _ _ _ G1). destruct Hc as [[c0 ->]|[-> ?]]; [by destruct c0|done]. }
  exists h1, w1. split; [|split; [done|]].
  - destruct fuel' as [|fuel']; [lia|]. cbn [headerLoop].
    rewrite bool_decide_eq_true_2 by (by right). cbn [andb].
    rewrite (proj2 (Z.ltb_lt _ _)) by lia. rewrite Nat2Z.id, drop_app_length.
    destruct (find_line CRLF body) as (a & b & Ea & _ & Ef);
      [by apply Forall_app in Hb as [_ ?]|rewrite length_app; simpl; lia|by exists []|].
    destruct a as [|x a]; [|apply (f_equal length) in Ea; rewrite !length_app in Ea; simpl in Ea; lia].
    rewrite length_app in Ef. change (length CRLF) with 2%nat in Ef.
    replace (len - Z.of_nat (length c)) with (Z.of_nat (2 + length body)) by lia.
    change (13 :: 10 :: body) with (CRLF ++ body). rewrite Ef.
    rewrite (bool_decide_eq_true_2 (state h1 = HTTP_HDREND)) by done.
    change (Z.of_nat (length [])) with 0. cbn [andb mbind ub_bind Z.eqb].
    rewrite searchLen_end, u64_small by (unfold PTRDIFF_MAX in *; lia).
    by replace (len - _) with (Z.of_nat (length body)) by lia.
  - destruct Hc as [[c0 ->]|[-> Hs]]; [by destruct c0|]. cbn in G1. by rewrite Hs in G1.
Qed.

(** ** The end of the headers *)

Definition is_response (N : list Z) : bool := bool_decide (take 5 N = HTTP_START).

(** The event for the header block [N] of the message [i]. *)
Record header_event (i : httpId_t) (N : list Z) (p : protocol_info) : Prop := {
  he_evtype : evtype p = EVT_PROTO;
  he_ptype : ptype p = if is_response N then EVT_HRES else EVT_HREQ;
  he_len : proto_len p = Z.of_nat (length N) + 1;
  he_hdr : take (length N + 1) (post_hdr (proto_data p)) = N ++ [0];
  he_server : isServer p = Bool.eqb (is_tx (hid_src i)) (is_response N);
  he_fd : proto_fd p = hid_sockfd i;
  he_uid : proto_uid p = hid_uid i;
  he_ssl : ssl (proto_data p) = hid_isSsl i;
  he_id : post_id (proto_data p) = i;
}.

(** The state behind the header block, with [n] bytes of content at hand. *)
Definition after_header (h : http_state_t) (N : list Z) (n : Z) (h' : http_state_t) : Prop :=
  let cl := getContentLength e (N ++ [0]) (Z.of_nat (length N) + 1) in
  (if negb (cl =? SIZE_MAX) && (n <=? cl)
   then state h' = HTTP_DATA /\ clen h' = cl - n /\ id h' = id h
   else h' = setHttpState h' HTTP_NONE) /\
  version h' = version h /\ isResponse h' = is_response N /\
  hasUpgradeF h' = hasUpgrade e (N ++ [0]) (Z.of_nat (length N) + 1) /\
  hasConnectionUpgradeF h' = hasConnectionUpgrade e (N ++ [0]) (Z.of_nat (length N) + 1).

(** The test of the first five bytes of the block. *)
Lemma response_test hay N :
  take (length N + 1) hay = N ++ [0] -> is_bytes N -> (5 <= length N)%nat ->
  negb (searchExec (g_http_start e) (Some hay) (i32 (searchLen (g_http_start e))) =? -1)
  = is_response N.
Proof.
  intros E Hb H5. rewrite Hstart. cbn [searchLen]. rewrite (comp_nlen _ _ Cstart).
  change (i32 (Z.of_nat (length HTTP_START))) with 5.
  assert (T5 : take 5 hay = take 5 N).
  { apply (f_equal (take 5)) in E. rewrite take_take, Nat.min_l, take_app_le in E by lia. done. }
  assert (L5 : (5 <= length hay)%nat).
  { apply (f_equal length) in T5. rewrite !length_take in T5. lia. }
  pose proof (searchExec_prefix HTTP_START sh hay 5 Cstart) as S.
  change (Z.to_nat 5) with 5%nat in S. rewrite T5 in S.
  specialize (S ltac:(by apply Forall_take) ltac:(lia)). unfold is_response.
  destruct S as [[-> S]|[(S1 & S2 & S3) _]].
  - change (negb (-1 =? -1)) with false. symmetry. apply bool_decide_eq_false. intros Ht. apply (S 0). split; [lia|].
    split; [done|]. rewrite Ht. done.
  - change (Z.of_nat (length HTTP_START)) with 5 in S2.
    set (r := searchExec _ _ _) in *. assert (r = 0) as Er by lia. rewrite Er in S3 |- *.
    change (negb (0 =? -1)) with true. symmetry. apply bool_decide_eq_true. change (length HTTP_START) with 5%nat in S3.
    change (Z.to_nat 0) with 0%nat in S3. by rewrite drop_0, take_take in S3.
Qed.

Lemma headersDone_spec h w n :
  let N := hdr_bytes h in
  wf h -> state h = HTTP_HDREND -> hdrlen h = Z.of_nat (length N) -> (5 <= length N)%nat ->
  is_bytes N -> hdrlen h + 1 <= MAX_HDR_ALLOC ->
  exists h' w' p, headersDone e h w n = Def (h', w') /\ posted w' = posted w ++ [p] /\
    header_event (id h) N p /\ after_header h N n h'.
Proof.
  intros N W Hs Hl H5 Hb Hfit. unfold headersDone.
  destruct (appendHeader_spec e h w [0] 1 W ltac:(by right) ltac:(simpl; lia) ltac:(done))
    as (h1 & w1 & -> & W1 & P1 & _ & App). cbn [mbind ub_bind].
  destruct (App Hok Hfit) as (A1 & A2 & A3 & [block A4]).
  change (take (Z.to_nat 1) [0]) with [0] in A2, A3. change (Z.of_nat (length [0])) with 1 in A3.
  fold N in A2. unfold hdr_bytes in A2. rewrite A4 in A2. cbn [from_option] in A2.
  assert (En : Z.to_nat (hdrlen h1) = (length N + 1)%nat) by lia.
  assert (El : hdrlen h1 = Z.of_nat (length N) + 1) by lia.
  assert (T : take (length N + 1) block = N ++ [0]) by (rewrite En in A2; exact A2).
  assert (T' : take (Z.to_nat (Z.of_nat (length N) + 1)) (N ++ [0]) = N ++ [0]).
  { apply firstn_all2. rewrite length_app. simpl. lia. }
  assert (Q : take (Z.to_nat (Z.of_nat (length N) + 1)) block = N ++ [0]).
  { by replace (Z.to_nat (Z.of_nat (length N) + 1)) with (length N + 1)%nat by lia. }
  rewrite A4. cbn [default]. rewrite response_test with (N := N), El by done.
  assert (Eg : getContentLength e block (Z.of_nat (length N) + 1) =
               getContentLength e (N ++ [0]) (Z.of_nat (length N) + 1)).
  { unfold getContentLength. by rewrite T', Q. }
  assert (Eu : hasUpgrade e block (Z.of_nat (length N) + 1) =
               hasUpgrade e (N ++ [0]) (Z.of_nat (length N) + 1)).
  { unfold hasUpgrade. by rewrite T', Q. }
  assert (Ec : hasConnectionUpgrade e block (Z.of_nat (length N) + 1) =
               hasConnectionUpgrade e (N ++ [0]) (Z.of_nat (length N) + 1)).
  { unfold hasConnectionUpgrade. by rewrite T', Q. }
  change (Datatypes.id block) with block. rewrite Eg, Eu, Ec.
  assert (Ei : id h1 = id h) by (by rewrite A1). assert (Ev : version h1 = version h) by (by rewrite A1).
  unfold reportHttp1. cbn [hdr set_flags]. rewrite A4. cbn [hdrlen set_flags]. rewrite El.
  destruct (Z.eqb_spec (Z.of_nat (length N) + 1) 0); [lia|].
  unfold evtProtoAllocHttp1, evtProtoAllocHttpBase. rewrite !Hok. cbn [andb negb].
  cbn [id set_flags isResponse]. rewrite Ei.
  destruct (proto_conn _) as [[ty lc] rc].
  set (cl := getContentLength e (N ++ [0]) _).
  set (p := mkProto _ _ _ _ _ _ _ _ _ _).
  assert (He : header_event (id h) N p).
  { subst p. split; try done. cbn. unfold is_tx.
    by destruct ((hid_src (id h) =? NETTX) || (hid_src (id h) =? TLSTX)), (is_response N). }
  destruct (negb (cl =? SIZE_MAX) && (n <=? cl)) eqn:G; eexists _, _, p; (split; [reflexivity|]);
    (split; [cbn; by rewrite P1|]); (split; [done|]); unfold after_header; fold cl; rewrite G;
    cbn; rewrite ?Ei, ?Ev; auto 8.
Qed.

(** ** A message in pieces *)

Definition has_start (c : list Z) : Prop := exists a b, c = a ++ HTTP_START ++ b.
Definition small (c : list Z) : Prop := is_bytes c /\ Z.of_nat (length c) < 2 ^ 31.

Lemma parseHeaders_scan h w c len httpId :
  state h <> HTTP_NONE -> parseHeaders e h w c len httpId = scan h w c len.
Proof. intros Hs. unfold parseHeaders. by rewrite bool_decide_eq_false_2. Qed.

Lemma parse_in_header h w c httpId :
  wf h -> in_header h -> id h = httpId ->
  parseHttp1 e h w c (Z.of_nat (length c)) httpId = scan h w c (Z.of_nat (length c)).
Proof.
  intros W Hin <-. rewrite parseHttp1_cases by (done || lia).
  rewrite eqb_reflx, andb_false_r.
  assert (state h <> HTTP_NONE /\ state h <> HTTP_DATA) as [? ?]
    by (by destruct Hin as [-> | ->]).
  rewrite bool_decide_eq_false_2 by done. by apply parseHeaders_scan.
Qed.

(** Where a header may start, in the state [HTTP_NONE]. *)
Definition started (h : http_state_t) (httpId : httpId_t) : http_state_t :=
  set_id (setHttpState h HTTP_HDR) httpId.

Lemma search_start c :
  small c -> has_start c ->
  (searchExec (g_http_start e) (Some c) (i32 (Z.of_nat (length c))) =? -1) = false.
Proof.
  intros [Hb Hl] (a & b & ->). rewrite i32_small by lia. rewrite Hstart.
  set (c := a ++ HTTP_START ++ b) in *.
  destruct (searchExec_handle HTTP_START c (Z.of_nat (length c)) sh Cstart Hb ltac:(lia))
    as [[_ N]|[(O & _) _]]; [|apply Z.eqb_neq; lia].
  destruct (N (Z.of_nat (length a))). subst c. rewrite !length_app.
  split; [lia|]. split; [lia|]. rewrite Nat2Z.id, drop_app_length. done.
Qed.

Lemma parse_start h w c httpId :
  wf h -> state h = HTTP_NONE -> small c -> has_start c ->
  parseHttp1 e h w c (Z.of_nat (length c)) httpId =
  parseHttp1 e (started h httpId) w c (Z.of_nat (length c)) httpId.
Proof.
  intros W Hs Hc Hst. assert (W' : wf (started h httpId)).
  { apply set_id_wf, set_header_wf; [done|by rewrite Hs|done]. }
  rewrite (parse_in_header (started h httpId)); [|done|by left|done].
  rewrite parseHttp1_cases by (done || lia).
  rewrite (bool_decide_eq_false_2 (state h <> HTTP_NONE)) by (by intros []).
  rewrite (bool_decide_eq_false_2 (state h = HTTP_DATA)) by congruence. cbn [andb].
  unfold parseHeaders. rewrite (bool_decide_eq_true_2 (state h = HTTP_NONE)) by done.
  by rewrite search_start.
Qed.

Definition no_upgrade (h : http_state_t) : Prop :=
  isResponse h && hasUpgradeF h && hasConnectionUpgradeF h = false.

(** One buffer of a known HTTP/1 connection. *)
Lemma doHttpBuffer_v1 st net w c src httpId :
  version (dir st (is_tx src)) = 1 ->
  doHttpBuffer e st net w c (Z.of_nat (length c)) src httpId =
  ('(ret, h, w) ← parseHttp1 e (dir st (is_tx src)) w c (Z.of_nat (length c)) httpId;
   let st := set_dir st (is_tx src) h in
   if isResponse h && hasUpgradeF h && hasConnectionUpgradeF h then
     let st := set_versions st 2 in
     Def (ret, set_dir st (is_tx src) (set_flags (dir st (is_tx src)) false false false), w)
   else Def (ret, st, w)).
Proof. intros Hv. unfold doHttpBuffer, detectVersion. rewrite Hv. cbn. by rewrite Hv. Qed.

Lemma set_dir_set_dir st tx a b : set_dir (set_dir st tx a) tx b = set_dir st tx b.
Proof. by destruct tx. Qed.
Lemma set_dir_dir st tx : set_dir st tx (dir st tx) = st.
Proof. by destruct tx, st. Qed.

(** The first buffer of a message: the version is detected, the header starts. *)
Lemma doHttpBuffer_detect st net w c src httpId :
  version (dir st (is_tx src)) = 0 -> is_magic c = false -> small c -> has_start c ->
  doHttpBuffer e st net w c (Z.of_nat (length c)) src httpId =
  doHttpBuffer e (set_versions st 1) net w c (Z.of_nat (length c)) src httpId.
Proof.
  intros Hv Hm Hc Hs.
  assert (V1 : version (dir (set_versions st 1) (is_tx src)) = 1) by (by destruct (is_tx src)).
  rewrite (doHttpBuffer_v1 (set_versions st 1)) by done.
  unfold doHttpBuffer, detectVersion. rewrite Hv, Hm, andb_false_r, search_start by done.
  cbn [Z.eqb negb]. by rewrite V1.
Qed.

Lemma doHttpBuffer_started st net w c src httpId :
  let h := dir st (is_tx src) in
  wf h -> version h = 1 -> state h = HTTP_NONE -> small c -> has_start c ->
  doHttpBuffer e st net w c (Z.of_nat (length c)) src httpId =
  doHttpBuffer e (set_dir st (is_tx src) (started h httpId)) net w c (Z.of_nat (length c)) src httpId.
Proof.
  intros h W Hv Hn Hc Hs. rewrite !doHttpBuffer_v1; rewrite ?dir_set_dir; [|done..].
  fold h. rewrite parse_start by done.
  destruct (parseHttp1 _ _ _ _ _ _) as [[[r h2] w2]|]; [|done]. cbn [mbind ub_bind].
  by rewrite set_dir_set_dir.
Qed.

Lemma grown_no_upgrade h s d h' : grown h s d h' -> no_upgrade h -> no_upgrade h'.
Proof. intros [-> _ _ _]. done. Qed.
Lemma grown_id h s d h' : grown h s d h' -> id h' = id h.
Proof. intros [-> _ _ _]. done. Qed.
Lemma grown_version h s d h' : grown h s d h' -> version h' = version h.
Proof. intros [-> _ _ _]. done. Qed.

(** The buffers before the one in which the block ends. *)
Lemma feed_inside st net w cs src httpId :
  let h := dir st (is_tx src) in
  wf h -> version h = 1 -> no_upgrade h -> in_header h -> id h = httpId -> ends_line h ->
  no_blank (hdr_bytes h ++ concat cs) -> Forall small cs ->
  hdrlen h + Z.of_nat (length (concat cs)) <= MAX_HDR_ALLOC ->
  exists h' w' s, feed e st net w cs src httpId = Def (set_dir st (is_tx src) h', w') /\
    posted w' = posted w /\ grown h s (concat cs) h' /\ in_header h' /\ ends_line h' /\
    (cs = [] -> h' = h) /\
    (forall cs0 d, cs = cs0 ++ [d] -> ends_crlf d -> state h' = HTTP_HDREND).
Proof.
  revert st w. induction cs as [|c cs IH]; intros st w h W Hv Hu Hin Hid Hel Hnb Hsm Hfit.
  { eexists h, w, (state h). cbn [feed]. subst h. rewrite set_dir_dir. split; [done|].
    split; [done|]. split; [by apply grown_refl|]. split; [done|]. split; [done|]. split; [done|].
    by intros [] d. }
  inversion_clear Hsm as [|? ? [Hb Hl] Hsm']. cbn [concat] in *. rewrite length_app in Hfit.
  cbn [feed]. rewrite doHttpBuffer_v1 by done. fold h. rewrite parse_in_header by done.
  destruct (scan_inside h w c) as (h1 & w1 & s1 & -> & P1 & G1 & Hin1 & Hel1 & He1); try done; try lia.
  { intros a b E. apply (Hnb a (b ++ concat cs)). by rewrite app_assoc, E, <- !app_assoc. }
  cbn [mbind ub_bind]. rewrite (grown_no_upgrade _ _ _ _ G1 Hu).
  cbn [mbind ub_bind].
  destruct (IH (set_dir st (is_tx src) h1) w1) as (h' & w' & s & -> & P' & G' & Hin' & Hel' & Hnil & He');
    rewrite ?dir_set_dir in *; try done.
  - apply G1.
  - by rewrite (grown_version _ _ _ _ G1).
  - by eapply grown_no_upgrade.
  - by rewrite (grown_id _ _ _ _ G1).
  - by rewrite (gr_bytes _ _ _ _ G1), <- app_assoc.
  - rewrite (gr_len _ _ _ _ G1). lia.
  - exists h', w', s. rewrite set_dir_set_dir. split; [done|]. split; [congruence|].
    split; [by eapply grown_trans|]. split; [done|]. split; [done|]. split; [done|].
    intros cs0 d E Hd. destruct cs0 as [|c' cs0]; simplify_eq/=; [|by eapply He'].
    rewrite Hnil by done. auto.
Qed.

(** The states behind the buffer that ends the header block [N] and brings
    [n] bytes of content: the announced rest of the content is to be skipped,
    and a response with both upgrade headers makes the connection HTTP/2. *)
Definition message_done (tx : bool) (N : list Z) (n : Z) (st' : http_states) : Prop :=
  let len := Z.of_nat (length N) + 1 in
  let cl := getContentLength e (N ++ [0]) len in
  let h' := dir st' tx in
  (if negb (cl =? SIZE_MAX) && (n <=? cl)
   then state h' = HTTP_DATA /\ clen h' = cl - n
   else state h' = HTTP_NONE /\ hdr h' = None) /\
  (if is_response N && hasUpgrade e (N ++ [0]) len && hasConnectionUpgrade e (N ++ [0]) len
   then version st'.1 = 2 /\ version st'.2 = 2 else version h' = 1).

Lemma feed_app st net w cs ds src httpId :
  feed e st net w (cs ++ ds) src httpId =
  ('(st, w) ← feed e st net w cs src httpId; feed e st net w ds src httpId).
Proof.
  revert st w. induction cs as [|c cs IH]; intros st w; [done|]. cbn [feed app].
  destruct (doHttpBuffer _ _ _ _ _ _ _ _) as [[[r st1] w1]|]; [|done].
  cbn [mbind ub_bind]. apply IH.
Qed.

(** The whole message, from a header state on. *)
Lemma feed_message st net w cs c body src httpId :
  let h := dir st (is_tx src) in let N := hdr_bytes h ++ concat cs ++ c in
  wf h -> version h = 1 -> no_upgrade h -> in_header h -> id h = httpId -> ends_line h ->
  hdrlen h = Z.of_nat (length (hdr_bytes h)) ->
  no_blank N -> is_bytes N -> Forall small cs -> small (c ++ CRLF ++ body) ->
  (5 <= length N)%nat -> Z.of_nat (length N) + 1 <= MAX_HDR_ALLOC ->
  ends_crlf c \/ (c = [] /\ exists cs0 d, cs = cs0 ++ [d] /\ ends_crlf d) ->
  exists st' w' p, feed e st net w (cs ++ [c ++ CRLF ++ body]) src httpId = Def (st', w') /\
    posted w' = posted w ++ [p] /\ header_event httpId N p /\
    message_done (is_tx src) N (Z.of_nat (length body)) st'.
Proof.
  intros h N W Hv Hu Hin Hid Hel Hlen Hnb HbN Hsm [Hbl Hll] H5 Hfit Hc.
  assert (LN : length N = (length (hdr_bytes h) + length (concat cs) + length c)%nat)
    by (subst N; rewrite !length_app; lia).
  rewrite feed_app.
  destruct (feed_inside st net w cs src httpId) as (h1 & w1 & s1 & -> & P1 & G1 & Hin1 & Hel1 & _ & He1);
    fold h; try done; try lia.
  { intros a b E. apply (Hnb a (b ++ c)). subst N. by rewrite !app_assoc, E, <- !app_assoc. }
  fold h in G1. cbn [mbind ub_bind feed].
  rewrite doHttpBuffer_v1 by (rewrite dir_set_dir, (grown_version _ _ _ _ G1); done).
  rewrite dir_set_dir, parse_in_header; [|apply G1|done|by rewrite (grown_id _ _ _ _ G1)].
  assert (EN : hdr_bytes h1 ++ c = N) by (rewrite (gr_bytes _ _ _ _ G1); subst N; by rewrite <- app_assoc).
  pose proof (gr_len _ _ _ _ G1) as L1.
  destruct (scan_final h1 w1 c body) as (h2 & w2 & -> & P2 & G2);
    [apply G1|done|done|by rewrite EN| |done|done|lia|].
  { destruct Hc as [?|(-> & cs0 & d & -> & Hd)]; [by left|right]. split; [done|]. by eapply He1. }
  assert (EN2 : hdr_bytes h2 = N) by (by rewrite (gr_bytes _ _ _ _ G2)).
  destruct (headersDone_spec h2 w2 (Z.of_nat (length body))) as (h3 & w3 & p & -> & P3 & Hev & Haf).
  { apply G2. }
  { apply (grown_state _ _ _ _ G2). }
  { rewrite EN2, (gr_len _ _ _ _ G2). lia. }
  { by rewrite EN2. }
  { by rewrite EN2. }
  { rewrite (gr_len _ _ _ _ G2). lia. }
  rewrite EN2, (grown_id _ _ _ _ G2), (grown_id _ _ _ _ G1), Hid in Hev. rewrite EN2 in Haf.
  cbn [mbind ub_bind]. rewrite set_dir_set_dir.
  assert (Haf' : after_header h N (Z.of_nat (length body)) h3).
  { unfold after_header in *. rewrite <- (grown_version _ _ _ _ G1), <- (grown_version _ _ _ _ G2).
    rewrite <- (grown_id _ _ _ _ G1), <- (grown_id _ _ _ _ G2). exact Haf. }
  destruct Haf' as (Hst & Hver & F1 & F2 & F3). rewrite F1, F2, F3.
  destruct (is_response N && _ && _) eqn:U; cbn [mbind ub_bind];
    eexists _, _, p; (split; [done|]); (split; [congruence|]); (split; [done|]);
    unfold message_done; rewrite U; (split; [|by destruct (is_tx src); cbn; rewrite ?Hver]);
    (destruct (_ && _) in *; [destruct Hst as (E1 & E2 & _)|
       assert (E1 : state h3 = HTTP_NONE) by (by rewrite Hst);
       assert (E2 : hdr h3 = None) by (by rewrite Hst)]);
    destruct (is_tx src); done.
Qed.

End Scan.
(** Handles and memory as after a successful [initHttpState]. *)
Record env_ready (e : http_env) : Prop := {
  er_start : g_http_start e = searchComp true true (Some HTTP_START);
  er_end : g_http_end e = searchComp true true (Some HTTP_END);
  er_alloc : allocs_ok e;
}.

(** Where the first buffer of a message has the text that is recognised. *)
Definition first_piece (cs : list (list Z)) (c : list Z) : list Z :=
  match cs with [] => c | c0 :: _ => c0 end.

(** The version when the message starts: known, or about to be detected. *)
Definition http1_start (st : http_states) (tx : bool) (first : list Z) : Prop :=
  version (dir st tx) = 1 \/ (version (dir st tx) = 0 /\ is_magic first = false).

(** The line end before the blank line is not split between buffers. *)
Definition unsplit (cs : list (list Z)) (c : list Z) : Prop :=
  ends_crlf c \/ (c = [] /\ exists cs0 d, cs = cs0 ++ [d] /\ ends_crlf d).

Lemma http1_message (e : http_env) st net w cs c body src httpId :
  let h := dir st (is_tx src) in let N := concat cs ++ c in
  env_ready e -> wf_states st -> state h = HTTP_NONE -> no_upgrade h ->
  http1_start st (is_tx src) (first_piece cs (c ++ CRLF ++ body)) ->
  Forall small cs -> small (c ++ CRLF ++ body) -> has_start (first_piece cs c) ->
  no_blank N -> Z.of_nat (length N) + 1 <= MAX_HDR_ALLOC -> unsplit cs c ->
  exists st' w' p, feed e st net w (cs ++ [c ++ CRLF ++ body]) src httpId = Def (st', w') /\
    posted w' = posted w ++ [p] /\ header_event httpId N p /\
    message_done e (is_tx src) N (Z.of_nat (length body)) st'.
Proof.
  intros h N [Hs He Hok] W Hst Hu Hv Hsm Hsl Hstart Hnb Hfit Hun.
  destruct (searchComp_compiled HTTP_START ltac:(repeat constructor; done) ltac:(simpl; lia))
    as (sh & Es & Cs). rewrite Es in Hs.
  destruct (searchComp_compiled HTTP_END ltac:(repeat constructor; done) ltac:(simpl; lia))
    as (eh & Ee & Ce). rewrite Ee in He.
  set (last := c ++ CRLF ++ body) in *.
  assert (Hfirst : has_start (first_piece cs last) /\ small (first_piece cs last)).
  { destruct cs; [|by inversion_clear Hsm]. split; [|done]. destruct Hstart as (a & b & Ec).
    simpl in Ec. exists a, (b ++ CRLF ++ body). subst last. rewrite Ec. by rewrite <- !app_assoc. }
  destruct Hfirst as [Hf Hfs].
  set (st1 := if version h =? 0 then set_versions st 1 else st).
  set (h1 := dir st1 (is_tx src)).
  assert (H1 : wf h1 /\ version h1 = 1 /\ no_upgrade h1 /\ state h1 = HTTP_NONE).
  { subst h1 st1. destruct Hv as [Hv|[Hv _]]; fold h in Hv; rewrite Hv; cbn.
    - split; [by apply dir_wf|done].
    - split; [by apply dir_wf, set_versions_wf|]. subst h. by destruct (is_tx src). }
  destruct H1 as (W1 & V1 & U1 & S1).
  set (st2 := set_dir st1 (is_tx src) (started h1 httpId)).
  assert (E : feed e st net w (cs ++ [last]) src httpId = feed e st2 net w (cs ++ [last]) src httpId).
  { destruct (cs ++ [last]) as [|b0 rest] eqn:Eb; [by destruct cs|].
    assert (b0 = first_piece cs last) as -> by (destruct cs; by simplify_eq/=).
    cbn [feed]. f_equal.
    subst st2. unfold h1. rewrite <- (doHttpBuffer_started e sh Hs Cs st1) by done.
    subst st1. destruct Hv as [Hv|[Hv Hm]]; fold h in Hv; rewrite Hv; [done|].
    by apply (doHttpBuffer_detect e sh Hs Cs). }
  rewrite E.
  assert (B0 : hdr_bytes (started h1 httpId) = []).
  { unfold hdr_bytes. cbn. destruct (wh_none _ (wf_h _ W1) S1) as [-> _]. apply take_nil. }
  destruct (feed_message e sh eh Hs He Cs Ce Hok st2 net w cs c body src httpId)
    as (st' & w' & p & F & P & Hev & Hd); subst st2; rewrite ?dir_set_dir, ?B0; fold N.
  - apply set_id_wf, set_header_wf; [done|by rewrite S1|done].
  - done.
  - done.
  - by left.
  - done.
  - intros ?; done.
  - cbn. pose proof (wh_hdr _ (wf_h _ W1)) as Hh. destruct (wh_none _ (wf_h _ W1) S1) as [Eh _].
    rewrite Eh in Hh. apply Hh.
  - done.
  - cbn [app]. apply Forall_app. split.
    + apply Forall_concat. eapply Forall_impl; [exact Hsm|]. by intros ? [].
    + destruct Hsl as [Hsl _]. by apply Forall_app in Hsl as [? _].
  - done.
  - done.
  - cbn [app]. destruct Hstart as (a & b & Ea).
    assert (length (first_piece cs c) <= length N)%nat.
    { subst N. destruct cs; cbn [first_piece concat app]; rewrite ?length_app; lia. }
    rewrite Ea, !length_app in H. change (length HTTP_START) with 5%nat in H. lia.
  - done.
  - done.
  - rewrite dir_set_dir, B0 in *. eexists _, _, p. split; [exact F|]. done.
Qed.


Lemma feed_content e st net w cs src httpId :
  let h := dir st (is_tx src) in
  wf_states st -> version h = 1 -> no_upgrade h -> state h = HTTP_DATA ->
  hid_isSsl (id h) = hid_isSsl httpId -> Z.of_nat (length (concat cs)) <= clen h ->
  feed e st net w cs src httpId =
  Def (set_dir st (is_tx src) (set_clen h (clen h - Z.of_nat (length (concat cs)))), w).
Proof.
  revert st. induction cs as [|c cs IH]; intros st h W Hv Hu Hs Hid Hl; cbn [feed concat] in *.
  { subst h. f_equal. f_equal. rewrite Z.sub_0_r.
    replace (set_clen _ _) with (dir st (is_tx src)) by (by destruct (dir st (is_tx src))).
    by rewrite set_dir_dir. }
  rewrite length_app in Hl. assert (Wh : wf h) by (by apply dir_wf).
  rewrite doHttpBuffer_v1 by done. fold h. rewrite parseHttp1_cases by (done || lia).
  rewrite Hid, eqb_reflx, andb_false_r, (bool_decide_eq_true_2 (state h = HTTP_DATA)) by done.
  rewrite (proj2 (Z.leb_le _ _)) by lia. cbn [mbind ub_bind].
  assert (U : no_upgrade (set_clen h (clen h - Z.of_nat (length c)))) by done.
  unfold no_upgrade in U. rewrite U. cbn [mbind ub_bind].
  pose proof (wh_clen _ (wf_h _ Wh)).
  rewrite IH; rewrite ?dir_set_dir; try done.
  - rewrite set_dir_set_dir. do 4 f_equal. cbn. rewrite length_app. lia.
  - apply set_dir_wf; [done|]. apply set_clen_wf; [done|lia].
  - cbn. lia.
Qed.

(** After a header block that announced content, buffers within the
    announced length change nothing but the count of the bytes that are left,
    however the content is cut, and the bytes behind the content are parsed
    exactly as if they had arrived alone on an idle connection. *)
Theorem content_skipped (e : http_env) st net w cs rest next src httpId :
  let h := dir st (is_tx src) in
  wf_states st -> version h = 1 -> no_upgrade h -> state h = HTTP_DATA ->
  hid_isSsl (id h) = hid_isSsl httpId ->
  Z.of_nat (length (concat cs)) + Z.of_nat (length rest) = clen h -> next <> [] ->
  feed e st net w cs src httpId =
    Def (set_dir st (is_tx src) (set_clen h (Z.of_nat (length rest))), w) /\
  feed e st net w (cs ++ [rest ++ next]) src httpId =
    feed e (set_dir st (is_tx src) (setHttpState h HTTP_NONE)) net w [next] src httpId.
Proof.
  intros h W Hv Hu Hs Hid Hl Hne. assert (Wh : wf h) by (by apply dir_wf).
  pose proof (feed_content e st net w cs src httpId W Hv Hu Hs Hid ltac:(fold h; lia)) as E.
  fold h in E. replace (clen h - _) with (Z.of_nat (length rest)) in E by lia.
  split; [done|]. rewrite feed_app, E. cbn [mbind ub_bind feed].
  set (h1 := set_clen h (Z.of_nat (length rest))). pose proof (wh_clen _ (wf_h _ Wh)).
  assert (W1 : wf h1) by (apply set_clen_wf; [done|lia]).
  rewrite !doHttpBuffer_v1; rewrite ?dir_set_dir; [|done..].
  rewrite !parseHttp1_cases by (auto with appview; lia).
  cbn [id h1 set_clen state clen setHttpState]. fold h1.
  rewrite Hs, Hid, eqb_reflx, andb_false_r. cbn.
  destruct (Z.leb_spec (Z.of_nat (length (rest ++ next))) (Z.of_nat (length rest))) as [L|L].
  { rewrite length_app in L. destruct next; [done|simpl in L; lia]. }
  rewrite Nat2Z.id, drop_app_length.
  replace (Z.of_nat (length (rest ++ next)) - _) with (Z.of_nat (length next))
    by (rewrite length_app; lia).
  replace (setHttpState h1 HTTP_NONE) with (setHttpState h HTTP_NONE) by done.
  destruct (parseHeaders _ _ _ _ _ _) as [[[r h2] w2]|]; [|done]. cbn [mbind ub_bind].
  by destruct (is_tx src).
Qed.

(** ** Concrete messages *)

Definition line (s : string) : list Z := bytes_of s ++ CRLF.
Definition get_a : list Z := line "GET /a HTTP/1.1" ++ line "Host: a".
Definition get_b : list Z := line "GET /b HTTP/1.1" ++ line "Host: b".
Definition res_upgrade : list Z :=
  line "HTTP/1.1 200 OK" ++ line "Upgrade: h2,h2c" ++ line "Connection: Upgrade".
Definition id1 : httpId_t := mkHttpId 7 5 false NETRX.

(** The header blocks of the posted events, with their terminators. *)
Definition blocks (r : ub (http_states * world)) : list (list Z) :=
  match r with
  | Def (_, w) => map (fun p => take (Z.to_nat (proto_len p)) (post_hdr (proto_data p))) (posted w)
  | UB => []
  end.

Lemma no_blank_dec (c : list Z) :
  (forall k, (k < length c)%nat -> take 4 (drop k c) <> CRLF ++ CRLF) -> no_blank c.
Proof.
  intros H a b E. apply (H (length a)).
  - rewrite E, !length_app. simpl. lia.
  - rewrite E, drop_app_length. done.
Qed.

Lemma env0_ready : env_ready env0.
Proof. by split. Qed.

Lemma get_a_no_blank : no_blank get_a.
Proof.
  apply no_blank_dec. change (length get_a) with 26%nat. intros k Hk.
  do 26 (destruct k as [|k]; [vm_compute; discriminate|]). lia.
Qed.


Definition data_state : http_states :=
  (mkHttp HTTP_DATA None 0 MIN_HDR_ALLOC 10 id1 1 false false false zeroBuf, set_version zeroState 1).

Lemma data_state_wf : wf_states data_state.
Proof.
  split; [|apply set_version_wf, zeroState_wf].
  split; [split; cbn; auto; unfold MIN_HDR_ALLOC; lia || done|apply wf_stash_zero].
Qed.

Lemma content_skipped_witness :
  feed env0 data_state None world0 [replicate 4 65; replicate 3 66] NETRX id1 =
    Def (set_dir data_state false (set_clen data_state.1 3), world0) /\
  feed env0 data_state None world0 ([replicate 4 65; replicate 3 66] ++ [replicate 3 67 ++ get_b])
    NETRX id1 =
  feed env0 (set_dir data_state false (setHttpState data_state.1 HTTP_NONE)) None world0 [get_b]
    NETRX id1.
Proof.
  apply (content_skipped env0 data_state None world0 [replicate 4 65; replicate 3 66]
           (replicate 3 67) get_b NETRX id1);
    [apply data_state_wf|reflexivity..|vm_compute; discriminate].
Defined.

(** When the CRLF CRLF that ends a header block is split between two
    buffers the end is missed: the first request is not posted, and the next
    one on the connection is glued to it in a single event. *)
Theorem split_blank_line_glues :
  blocks (feed env0 fresh None world0 [get_a ++ CRLF; get_b ++ CRLF] NETRX id1)
    = [get_a ++ [0]; get_b ++ [0]] /\
  blocks (feed env0 fresh None world0 [get_a ++ [13]; [10] ++ get_b ++ CRLF] NETRX id1)
    = [get_a ++ CRLF ++ get_b ++ [0]].
Proof. vm_compute. auto. Qed.

(** The number a digit string stands for in a base. *)
Definition digits_value (base : Z) (ds : list Z) : Z := foldl (fun a c => a * base + (c - 48)) 0 ds.

(** What [getContentLength] makes of a number: zero and overflow mean none. *)
Definition announced (v : Z) : Z := if (v =? 0) || (UINT64_MAX <=? v) then SIZE_MAX else v.

Lemma strtoull_acc_digits base ds acc :
  Forall (fun c => 48 <= c < 48 + base) ds ->
  strtoull_acc base acc ds = foldl (fun a c => a * base + (c - 48)) acc ds.
Proof.
  intros F. revert acc. induction F as [|c ds Hc F IH]; intros acc; [done|]. cbn.
  assert (((48 <=? c) && (c <? 48 + base)) = true) as -> by lia. apply IH.
Qed.

Lemma announced_min v :
  (if (Z.min UINT64_MAX v =? 0) || (Z.min UINT64_MAX v =? UINT64_MAX) then SIZE_MAX
   else Z.min UINT64_MAX v) = announced v.
Proof. unfold announced, SIZE_MAX, UINT64_MAX. repeat case_match; lia. Qed.

(** A Content-Length without a leading zero is converted in decimal (zero
    and overflow count as no announcement), but one with a leading zero, which
    HTTP also reads in decimal, is converted in base eight: 0100 announces 64
    bytes instead of 100. *)
Theorem content_length_octal (e : http_env) m (header : list Z) (n d : Z) (ds : list Z) :
  g_http_clength e = Some m ->
  (m (take (Z.to_nat n) header) = Some (d :: ds) -> 48 < d -> Forall (fun c => 48 <= c < 58) (d :: ds) ->
   getContentLength e header n = announced (digits_value 10 (d :: ds))) /\
  (m (take (Z.to_nat n) header) = Some (48 :: ds) -> Forall (fun c => 48 <= c < 56) ds ->
   getContentLength e header n = announced (digits_value 8 ds)).
Proof.
  intros E. unfold getContentLength. rewrite E. split.
  - intros -> Hd F. rewrite <- announced_min. unfold strtoull, digits_value.
    rewrite <- strtoull_acc_digits by exact F.
    assert (d = 49 \/ d = 50 \/ d = 51 \/ d = 52 \/ d = 53 \/ d = 54 \/ d = 55 \/ d = 56 \/ d = 57)
      by (inversion F; lia).
    by destruct_or!; subst d.
  - intros -> F. rewrite <- announced_min. unfold strtoull, digits_value.
    by rewrite strtoull_acc_digits.
Qed.

(** A parser whose Content-Length match is always 0100. *)
Definition env_octal : http_env :=
  mkEnv None None (Some (fun _ => Some (bytes_of "0100"))) None None
    (fun _ => true) (fun _ _ => 0) (fun _ => 0) (fun _ => None).

Lemma content_length_octal_witness : getContentLength env_octal [] 0 = 64.
Proof.
  apply (content_length_octal env_octal (fun _ => Some (bytes_of "0100")) [] 0 0 (bytes_of "100")
           eq_refl); [reflexivity|].
  change (bytes_of "100") with [49; 48; 48]. do 3 (constructor; [lia|]). constructor.
Defined.

(** An ordinary 200 response that advertises HTTP/2 with Upgrade and
    Connection headers, as servers do, turns both directions of the connection
    into HTTP/2, after which its HTTP/1 traffic is no longer understood: the
    status of the response is not looked at. *)
Theorem advertised_upgrade_switches (e : http_env) up co net w httpId :
  env_ready e -> g_http_upgrade e = Some up -> g_http_connect e = Some co ->
  up (res_upgrade ++ [0]) = true -> co (res_upgrade ++ [0]) = true ->
  exists st' w', feed e fresh net w [res_upgrade ++ CRLF] NETRX httpId = Def (st', w') /\
    version st'.1 = 2 /\ version st'.2 = 2.
Proof.
  intros He Eu Ec Hu Hc.
  destruct (http1_message e fresh net w [] res_upgrade [] NETRX httpId)
    as (st' & w' & p & F & _ & _ & D); try done.
  - apply fresh_wf.
  - right. done.
  - repeat constructor; vm_compute; congruence.
  - exists [], (bytes_of "1.1 200 OK" ++ CRLF ++ line "Upgrade: h2,h2c" ++ line "Connection: Upgrade").
    reflexivity.
  - apply no_blank_dec. change (length _) with 55%nat. intros k Hk.
    do 55 (destruct k as [|k]; [vm_compute; discriminate|]). lia.
  - left. exists (line "HTTP/1.1 200 OK" ++ line "Upgrade: h2,h2c" ++ bytes_of "Connection: Upgrade").
    reflexivity.
  - exists st', w'. split; [exact F|]. destruct D as [_ D].
    unfold hasUpgrade, hasConnectionUpgrade in D. rewrite Eu, Ec in D.
    change (concat [] ++ res_upgrade) with res_upgrade in D.
    rewrite (firstn_all2 (res_upgrade ++ [0])) in D by (vm_compute; lia).
    rewrite Hu, Hc in D. exact D.
Qed.

Lemma advertised_upgrade_switches_witness :
  exists st' w', feed (mkEnv (g_http_start env0) (g_http_end env0) None (Some (fun _ => true))
      (Some (fun _ => true)) (fun _ => true) (fun _ _ => 0) (fun _ => 0) (fun _ => None))
    fresh None world0 [res_upgrade ++ CRLF] NETRX id1 = Def (st', w') /\
    version st'.1 = 2 /\ version st'.2 = 2.
Proof.
  apply (advertised_upgrade_switches _ (fun _ => true) (fun _ => true)); [by split|reflexivity..].
Defined.

End HttpHeaders.
