(* ===== verification/HttpAgg.v ===== *)
(** * HTTP metric aggregation (src/httpagg.c, src/utils.c)

    Per-URI counters of status codes, durations and sizes, accumulated between
    two reports.  The main theorem: a report equals the one computed directly
    from the list of the metrics that were added. *)

From S2P Require Import Prelude Types.

#[local] Open Scope string_scope.
#[local] Open Scope Z_scope.

Module HttpAgg.

(** ** Enumeration maps (utils.c) *)

(** An [enum_map_t] array up to its NULL entry. *)
Definition enum_map : Type := list (string * Z).

Fixpoint strToVal (map : enum_map) (str : string) : Z :=
  match map with
  | [] => u32 (-1)
  | (s, v) :: map => if String.eqb str s then u32 v else strToVal map str
  end.

Fixpoint valToStr (map : enum_map) (val : Z) : option string :=
  match map with
  | [] => None
  | (s, v) :: map => if val =? u32 v then Some s else valToStr map val
  end.

(** ** Data *)

Definition DEFAULT_TARGET_LEN : Z := 128.
Definition MAX_CODE_ENTRIES : nat := 64.

Definition SERVER_DURATION : Z := 0.
Definition CLIENT_DURATION : Z := 1.
Definition REQUEST_BYTES : Z := 2.
Definition RESPONSE_BYTES : Z := 3.
Definition FIELD_MAX : nat := 4.

Definition fieldMapIn : enum_map :=
  [("http_server_duration", SERVER_DURATION); ("http_client_duration", CLIENT_DURATION);
   ("http_request_content_length", REQUEST_BYTES);
   ("http_response_content_length", RESPONSE_BYTES)].

Definition fieldMapOut : enum_map :=
  [("http.duration.server", SERVER_DURATION); ("http.duration.client", CLIENT_DURATION);
   ("http.req.content_length", REQUEST_BYTES); ("http.resp.content_length", RESPONSE_BYTES)].

Record status_code_t := mkStatus { code : Z; scount : Z }.
Record agg_counter_t := mkCounter { total : Z; num_entries : Z }.
Record target_agg_t := mkTarget {
  uri : string;
  status : list status_code_t;      (* MAX_CODE_ENTRIES of them *)
  field : list agg_counter_t;       (* FIELD_MAX of them *)
}.

(** [target] is the used part of the array, so its length is [count]. *)
Record http_agg_t := mkAgg { target : list target_agg_t; alloc : Z }.

Definition count (a : http_agg_t) : Z := Z.of_nat (length (target a)).

(** ** Operations *)

Definition httpAggCreate (agg_ok list_ok : bool) : option http_agg_t :=
  if negb agg_ok || negb list_ok then None else Some (mkAgg [] DEFAULT_TARGET_LEN).

Definition httpAggReset (a : http_agg_t) : http_agg_t := mkAgg [] (alloc a).

Definition httpAggDestroy (a : option http_agg_t) : option http_agg_t := None.

Fixpoint str_field (fields : list event_field_t) (name : string) : option string :=
  match fields with
  | [] => None
  | f :: fields =>
      match f_value f with
      | FMT_STR s => if String.eqb (f_name f) name then s else str_field fields name
      | _ => str_field fields name
      end
  end.
Definition str_value (evt : event_t) (name : string) : option string :=
  match e_fields evt with None => None | Some fs => str_field fs name end.

Fixpoint num_field (fields : list event_field_t) (name : string) : Z :=
  match fields with
  | [] => LLONG_MIN
  | f :: fields =>
      match f_value f with
      | FMT_NUM n => if String.eqb (f_name f) name then n else num_field fields name
      | _ => num_field fields name
      end
  end.
Definition num_value (evt : event_t) (name : string) : Z :=
  match e_fields evt with None => LLONG_MIN | Some fs => num_field fs name end.

(** The text before the first question mark. *)
Fixpoint cut_query (s : string) : string :=
  match s with
  | EmptyString => EmptyString
  | String c s => if Ascii.eqb c (Ascii.ascii_of_nat 63) then EmptyString
                  else String c (cut_query s)
  end.

(** The loop over the targets: the index of the first with this uri. *)
Fixpoint find_target (ts : list target_agg_t) (u : string) : option nat :=
  match ts with
  | [] => None
  | t :: ts => if String.eqb (uri t) u then Some O else S <$> find_target ts u
  end.

(** The outcomes of the three allocations of [get_target_entry]. *)
Record agg_mem := mkMem { strdup_ok : bool; realloc_ok : bool; calloc_ok : bool }.

Definition zero_target (u : string) : target_agg_t :=
  mkTarget u (replicate MAX_CODE_ENTRIES (mkStatus 0 0)) (replicate FIELD_MAX (mkCounter 0 0)).

(** The pointer it returns is the index of the entry. *)
Definition get_target_entry (mem : agg_mem) (a : http_agg_t) (target_val : string)
  : option nat * http_agg_t :=
  if negb (strdup_ok mem) then (None, a) else
  let temp_uri := cut_query target_val in
  match find_target (target a) temp_uri with
  | Some i => (Some i, a)
  | None =>
      let full := alloc a <=? count a in
      if full && negb (realloc_ok mem) then (None, a) else
      let a := if full then mkAgg (target a) (u64 (Z.shiftl (alloc a) 2)) else a in
      if negb (calloc_ok mem) then (None, a) else
      (Some (length (target a)), mkAgg (target a ++ [zero_target temp_uri]) (alloc a))
  end.

Definition add_counter (c : agg_counter_t) (value : Z) : agg_counter_t :=
  mkCounter (u64 (total c + value)) (u64 (num_entries c + 1)).

Fixpoint status_loop (l : list status_code_t) (value : Z) : list status_code_t :=
  match l with
  | [] => []
  | s :: l =>
      if code s =? value then mkStatus (code s) (u64 (scount s + 1)) :: l
      else if code s =? 0 then mkStatus value (u64 (scount s + 1)) :: l
      else s :: status_loop l value
  end.

Definition add_status (t : target_agg_t) (value : Z) : target_agg_t :=
  if (value <? 0) || (1000 <? value) then t
  else mkTarget (uri t) (status_loop (status t) value) (field t).

Definition add_field (t : target_agg_t) (i value : Z) : target_agg_t :=
  mkTarget (uri t) (status t)
    (alter (fun c => add_counter c value) (Z.to_nat i) (field t)).

(** What a metric does to its entry. *)
Definition update_entry (t : target_agg_t) (duration : event_t) (request_len response_len : Z)
  : target_agg_t :=
  let t := add_status t (num_value duration "http_status_code") in
  let dur_field := strToVal fieldMapIn (e_name duration) in
  let t := if (dur_field =? SERVER_DURATION) || (dur_field =? CLIENT_DURATION) then
             match e_value duration with
             | FMT_INT n => add_field t dur_field n
             | _ => t
             end
           else t in
  let t := if request_len =? UINT64_MAX then t else add_field t REQUEST_BYTES request_len in
  if response_len =? UINT64_MAX then t else add_field t RESPONSE_BYTES response_len.

Definition httpAggAddMetric (mem : agg_mem) (a : http_agg_t) (duration : event_t)
    (request_len response_len : Z) : http_agg_t :=
  match str_value duration "http_target" with
  | None => a
  | Some target_val =>
      match get_target_entry mem a target_val with
      | (None, a) => a
      | (Some i, a) =>
          mkAgg (alter (fun t => update_entry t duration request_len response_len) i (target a))
                (alloc a)
      end
  end.

(** What the report reads of [g_proc]. *)
Record proc_id_t := mkProc { procname : string; pid : Z; hostname : string }.

Fixpoint report_status (p : proc_id_t) (u : string) (l : list status_code_t) : list event_t :=
  match l with
  | [] => []
  | s :: l =>
      if code s =? 0 then [] else
      INT_EVENT "http.req" (i64 (scount s)) DELTA
        [STRFIELD "http_target" (Some u) 4 true;
         NUMFIELD "http_status_code" (code s) 1 true;
         STRFIELD "proc" (Some (procname p)) 4 true;
         NUMFIELD "pid" (pid p) 4 true;
         STRFIELD "host" (Some (hostname p)) 4 true;
         STRFIELD "unit" (Some "request") 4 true;
         STRFIELD "summary" (Some "true") 1 true] :: report_status p u l
  end.

(** The counters from index [i] on; [valToStr] has a name for each. *)
Fixpoint report_fields (p : proc_id_t) (u : string) (i : Z) (l : list agg_counter_t)
  : list event_t :=
  match l with
  | [] => []
  | c :: l =>
      if num_entries c =? 0 then report_fields p u (i + 1) l else
      let dur := (i =? SERVER_DURATION) || (i =? CLIENT_DURATION) in
      INT_EVENT (default "" (valToStr fieldMapOut i)) (i64 (total c))
        (if dur then DELTA_MS else DELTA)
        [STRFIELD "http_target" (Some u) 4 true;
         NUMFIELD "numops" (i64 (num_entries c)) 8 true;
         STRFIELD "proc" (Some (procname p)) 4 true;
         NUMFIELD "pid" (pid p) 4 true;
         STRFIELD "host" (Some (hostname p)) 4 true;
         STRFIELD "unit" (Some (if dur then "millisecond" else "byte")) 4 true;
         STRFIELD "summary" (Some "true") 1 true] :: report_fields p u (i + 1) l
  end.

Definition report_target (p : proc_id_t) (t : target_agg_t) : list event_t :=
  (report_status p (uri t) (status t) ++ report_fields p (uri t) 0 (field t))%list.

(** The metrics sent to [cmdSendMetric], in order. *)
Definition httpAggSendReport (p : proc_id_t) (a : http_agg_t) : list event_t :=
  concat (map (report_target p) (target a)).

(** ** Specification: the report of a list of metrics *)

Record metric := mkMetric { m_event : event_t; m_req : Z; m_resp : Z }.

Definition target_of (m : metric) : option string :=
  cut_query <$> str_value (m_event m) "http_target".
Definition code_of (m : metric) : Z := num_value (m_event m) "http_status_code".
Definition for_uri (u : string) (ms : list metric) : list metric :=
  filter (fun m => target_of m = Some u) ms.
Definition uris (ms : list metric) : list string := firsts (omap target_of ms).

(** The valid status codes, and the values each counter received. *)
Definition codes (l : list metric) : list Z := filter (fun c => 0 <= c <= 1000) (map code_of l).
Definition durs (i : Z) (l : list metric) : list Z :=
  omap (fun m => if strToVal fieldMapIn (e_name (m_event m)) =? i
                 then match e_value (m_event m) with FMT_INT n => Some n | _ => None end
                 else None) l.
Definition sizes (len : metric -> Z) (l : list metric) : list Z :=
  omap (fun m => if len m =? UINT64_MAX then None else Some (len m)) l.
Definition values (l : list metric) : list (list Z) :=
  [durs SERVER_DURATION l; durs CLIENT_DURATION l; sizes m_req l; sizes m_resp l].

Definition sum (l : list Z) : Z := foldr Z.add 0 l.

Definition req_event (p : proc_id_t) (u : string) (c n : Z) : event_t :=
  INT_EVENT "http.req" n DELTA
    [STRFIELD "http_target" (Some u) 4 true; NUMFIELD "http_status_code" c 1 true;
     STRFIELD "proc" (Some (procname p)) 4 true; NUMFIELD "pid" (pid p) 4 true;
     STRFIELD "host" (Some (hostname p)) 4 true; STRFIELD "unit" (Some "request") 4 true;
     STRFIELD "summary" (Some "true") 1 true].

Definition field_event (p : proc_id_t) (u name unit : string) (ty : data_type_t) (vs : list Z)
  : list event_t :=
  match vs with
  | [] => []
  | _ =>
      [INT_EVENT name (i64 (sum vs)) ty
         [STRFIELD "http_target" (Some u) 4 true;
          NUMFIELD "numops" (Z.of_nat (length vs)) 8 true;
          STRFIELD "proc" (Some (procname p)) 4 true; NUMFIELD "pid" (pid p) 4 true;
          STRFIELD "host" (Some (hostname p)) 4 true; STRFIELD "unit" (Some unit) 4 true;
          STRFIELD "summary" (Some "true") 1 true]]
  end.

(** The part of the report for one uri, from its metrics. *)
Definition spec_target (p : proc_id_t) (u : string) (l : list metric) : list event_t :=
  (map (fun c => req_event p u c (Z.of_nat (times c (codes l)))) (firsts (codes l))
   ++ field_event p u "http.duration.server" "millisecond" DELTA_MS (durs SERVER_DURATION l)
   ++ field_event p u "http.duration.client" "millisecond" DELTA_MS (durs CLIENT_DURATION l)
   ++ field_event p u "http.req.content_length" "byte" DELTA (sizes m_req l)
   ++ field_event p u "http.resp.content_length" "byte" DELTA (sizes m_resp l))%list.

Definition spec_report (p : proc_id_t) (ms : list metric) : list event_t :=
  concat (map (fun u => spec_target p u (for_uri u ms)) (uris ms)).

(** The metrics one after the other; [mem] gives the allocation outcomes. *)
Definition add_all (mem : metric -> agg_mem) (a : http_agg_t) (ms : list metric) : http_agg_t :=
  foldl (fun a m => httpAggAddMetric (mem m) a (m_event m) (m_req m) (m_resp m)) a ms.

(** ** The entry of one uri *)

Definition status_spec (cs : list Z) : list status_code_t :=
  (map (fun c => mkStatus c (u64 (Z.of_nat (times c cs)))) (firsts cs)
   ++ replicate (MAX_CODE_ENTRIES - length (firsts cs)) (mkStatus 0 0))%list.
Definition counter_spec (vs : list Z) : agg_counter_t :=
  mkCounter (u64 (sum vs)) (u64 (Z.of_nat (length vs))).
Definition target_spec (u : string) (l : list metric) : target_agg_t :=
  mkTarget u (status_spec (codes l)) (map counter_spec (values l)).

Lemma sum_snoc l x : sum (l ++ [x]) = sum l + x.
Proof. unfold sum. induction l as [|y l IH]; simpl; [lia|]. rewrite IH. lia. Qed.

Lemma add_counter_spec vs v : add_counter (counter_spec vs) v = counter_spec (vs ++ [v]).
Proof.
  unfold add_counter, counter_spec. simpl. rewrite !u64_u64_add, sum_snoc, length_app.
  do 2 f_equal. simpl. lia.
Qed.

(** The loop over the codes seen so far, followed by [k] free slots. *)
Lemma status_loop_seen (g : Z -> Z) fs rest c :
  0 ∉ fs -> NoDup fs -> c ∈ fs ->
  status_loop (map (fun d => mkStatus d (g d)) fs ++ rest) c =
  (map (fun d => mkStatus d (if decide (c = d) then u64 (g d + 1) else g d)) fs ++ rest)%list.
Proof.
  intros H0 Hnd Hc. induction fs as [|d fs IH]; [set_solver|]. cbn [map app status_loop code scount].
  apply NoDup_cons in Hnd as [Hd Hnd]. destruct (Z.eqb_spec d c) as [->|E].
  - rewrite decide_True by done. do 2 f_equal. apply map_ext_in. intros x Hx%list_elem_of_In.
    rewrite decide_False; [done|]. congruence.
  - rewrite decide_False by congruence. destruct (Z.eqb_spec d 0); [set_solver|].
    f_equal. apply IH; set_solver.
Qed.

Lemma status_loop_new (g : Z -> Z) fs k c :
  0 ∉ fs -> c ∉ fs -> c <> 0 ->
  status_loop (map (fun d => mkStatus d (g d)) fs ++ replicate (S k) (mkStatus 0 0)) c =
  (map (fun d => mkStatus d (g d)) fs ++ mkStatus c 1 :: replicate k (mkStatus 0 0))%list.
Proof.
  intros H0 Hc Hc0. induction fs as [|d fs IH]; cbn [map app status_loop code scount replicate].
  - destruct (Z.eqb_spec 0 c); [congruence|]. done.
  - destruct (Z.eqb_spec d c); [set_solver|]. destruct (Z.eqb_spec d 0); [set_solver|].
    f_equal. apply IH; set_solver.
Qed.

Lemma status_loop_spec cs c :
  0 ∉ cs -> c <> 0 -> (length (firsts (cs ++ [c])) <= MAX_CODE_ENTRIES)%nat ->
  status_loop (status_spec cs) c = status_spec (cs ++ [c]).
Proof.
  intros H0 Hc Hl. unfold status_spec. rewrite firsts_snoc in *. unfold add_first in *.
  assert (H0' : 0 ∉ firsts cs) by (by rewrite elem_of_firsts).
  case_decide as Hin.
  - rewrite status_loop_seen by (done || apply NoDup_firsts). f_equal. apply map_ext. intros d.
    rewrite times_snoc. f_equal. case_decide; [|by rewrite Nat.add_0_r].
    rewrite u64_u64_add. f_equal. lia.
  - rewrite length_app in *. cbn [length] in *.
    replace (MAX_CODE_ENTRIES - length (firsts cs))%nat
      with (S (MAX_CODE_ENTRIES - (length (firsts cs) + 1)))%nat by lia.
    rewrite status_loop_new by done. rewrite map_app, <- app_assoc. f_equal.
    + apply map_ext_in. intros d Hd%list_elem_of_In. rewrite times_snoc, decide_False, Nat.add_0_r;
        [done|]. intros ->. done.
    + cbn. rewrite times_snoc, decide_True, times_notin by (done || by rewrite <- elem_of_firsts).
      done.
Qed.

Lemma codes_snoc l m :
  codes (l ++ [m]) = (codes l ++ if decide (0 <= code_of m <= 1000) then [code_of m] else [])%list.
Proof.
  unfold codes. rewrite map_app, filter_app. cbn [map]. by rewrite filter_cons, filter_nil.
Qed.

Lemma omap_snoc {A B} (f : A -> option B) l x :
  omap f (l ++ [x])%list = (omap f l ++ option_list (f x))%list.
Proof. rewrite omap_app. by f_equal. Qed.

(** One metric keeps the entry of its uri exact. *)
Lemma update_entry_spec u l m :
  0 ∉ codes (l ++ [m]) -> (length (firsts (codes (l ++ [m]))) <= MAX_CODE_ENTRIES)%nat ->
  update_entry (target_spec u l) (m_event m) (m_req m) (m_resp m) = target_spec u (l ++ [m]).
Proof.
  intros H0 Hl. unfold update_entry. fold (code_of m).
  assert (E1 : add_status (target_spec u l) (code_of m) =
    mkTarget u (status_spec (codes (l ++ [m]))) (map counter_spec (values l))).
  { unfold add_status, target_spec. cbn [status uri field]. rewrite codes_snoc in *.
    case_decide as Hr.
    - rewrite (proj2 (Z.ltb_ge _ _)), (proj2 (Z.ltb_ge _ _)) by lia. cbn [orb].
      rewrite status_loop_spec; [done|set_solver|set_solver|done].
    - rewrite app_nil_r. destruct (Z.ltb_spec (code_of m) 0), (Z.ltb_spec 1000 (code_of m)); done || lia. }
  rewrite E1. unfold target_spec. set (st := status_spec _). unfold values, durs, sizes.
  rewrite !omap_snoc.
  repeat match goal with |- context [omap ?f l] => generalize (omap f l); intros ? end.
  unfold SERVER_DURATION, CLIENT_DURATION, REQUEST_BYTES, RESPONSE_BYTES, add_field.
  destruct (Z.eqb_spec (strToVal fieldMapIn (e_name (m_event m))) 0) as [->|];
    [|destruct (Z.eqb_spec (strToVal fieldMapIn (e_name (m_event m))) 1) as [->|]]; cbn [orb Z.eqb];
    destruct (e_value (m_event m));
    destruct (m_req m =? UINT64_MAX), (m_resp m =? UINT64_MAX);
    cbn [option_list]; rewrite ?app_nil_r; cbn [map field uri status];
    cbv [alter list_alter Z.to_nat Pos.to_nat Pos.iter_op Nat.add];
    rewrite ?add_counter_spec; reflexivity.
Qed.

(** ** The list of the uris *)

Lemma find_target_map (f : string -> target_agg_t) us u :
  (forall v, uri (f v) = v) ->
  match find_target (map f us) u with
  | Some i => us !! i = Some u
  | None => u ∉ us
  end.
Proof.
  intros Hf. induction us as [|v us IH]; simpl; [set_solver|]. rewrite Hf.
  destruct (String.eqb_spec v u) as [->|E]; [done|].
  destruct (find_target (map f us) u); simpl; [done|set_solver].
Qed.

Lemma alter_map (f : string -> target_agg_t) g us i u :
  NoDup us -> us !! i = Some u ->
  alter g i (map f us) = map (fun v => if decide (v = u) then g (f v) else f v) us.
Proof.
  intros Hnd. revert i. induction us as [|v us IH]; intros [|i] Hi; simplify_eq/=.
  - rewrite decide_True by done. f_equal. apply NoDup_cons in Hnd as [Hv _].
    apply map_ext_in. intros x Hx%list_elem_of_In. rewrite decide_False; [done|]. by intros ->.
  - apply NoDup_cons in Hnd as [Hv Hnd]. rewrite decide_False.
    + f_equal. by apply IH.
    + intros ->. apply Hv. by eapply list_elem_of_lookup_2.
Qed.

Lemma for_uri_snoc u ms m :
  for_uri u (ms ++ [m]) =
  (for_uri u ms ++ if decide (target_of m = Some u) then [m] else [])%list.
Proof. unfold for_uri. by rewrite filter_app, filter_cons, filter_nil. Qed.

Lemma for_uri_none u ms : u ∉ omap target_of ms -> for_uri u ms = [].
Proof.
  intros H. unfold for_uri. induction ms as [|m ms IH]; [done|]. rewrite filter_cons.
  assert (Hm : target_of m <> Some u).
  { intros E. apply H. apply list_elem_of_omap. exists m. set_solver. }
  rewrite decide_False by done. apply IH. intros Hin. apply H.
  apply list_elem_of_omap in Hin as (x & Hx & E). apply list_elem_of_omap. exists x. set_solver.
Qed.

(** Statuses are known and a uri has at most 64 of them. *)
Definition regular (ms : list metric) : Prop :=
  Forall (fun m => code_of m <> 0) ms /\
  forall u, (length (firsts (codes (for_uri u ms))) <= MAX_CODE_ENTRIES)%nat.

Definition exact (a : http_agg_t) (ms : list metric) : Prop :=
  target a = map (fun u => target_spec u (for_uri u ms)) (uris ms).

Lemma codes_no_zero ms u : Forall (fun m => code_of m <> 0) ms -> 0 ∉ codes (for_uri u ms).
Proof.
  intros H H0. unfold codes, for_uri in H0.
  apply list_elem_of_filter in H0 as [_ H0].
  apply list_elem_of_In, in_map_iff in H0 as (m & E & Hm). apply list_elem_of_In in Hm.
  apply list_elem_of_filter in Hm as [_ Hm]. rewrite Forall_forall in H. by apply (H m).
Qed.

Definition all_ok (mem : agg_mem) : Prop :=
  strdup_ok mem = true /\ realloc_ok mem = true /\ calloc_ok mem = true.

Lemma zero_target_spec u : zero_target u = target_spec u [].
Proof. reflexivity. Qed.

Lemma add_metric_exact mem a ms m :
  all_ok mem -> regular (ms ++ [m]) -> exact a ms ->
  exact (httpAggAddMetric mem a (m_event m) (m_req m) (m_resp m)) (ms ++ [m]).
Proof.
  intros (Hs & Hr & Hc) [Hz Hl] E. unfold httpAggAddMetric, exact, uris in *. rewrite omap_snoc.
  assert (Hother : forall v, target_of m <> Some v -> for_uri v (ms ++ [m]) = for_uri v ms).
  { intros v Hv. by rewrite for_uri_snoc, decide_False, app_nil_r. }
  destruct (str_value (m_event m) "http_target") as [tv|] eqn:T.
  2:{ assert (Ht : target_of m = None) by (unfold target_of; by rewrite T). rewrite Ht in *.
      change (option_list None) with (@nil string). rewrite app_nil_r, E. apply map_ext. intros u. by rewrite Hother. }
  set (u := cut_query tv). assert (Ht : target_of m = Some u) by (unfold target_of; by rewrite T).
  rewrite Ht. change (option_list (Some u)) with [u].
  assert (Hself : for_uri u (ms ++ [m]) = (for_uri u ms ++ [m])%list)
    by (by rewrite for_uri_snoc, decide_True).
  assert (Hup : update_entry (target_spec u (for_uri u ms)) (m_event m) (m_req m) (m_resp m) =
                target_spec u (for_uri u (ms ++ [m]))).
  { rewrite Hself. apply update_entry_spec; rewrite <- Hself; [by apply codes_no_zero|done]. }
  rewrite firsts_snoc. unfold get_target_entry. rewrite Hs, Hr, Hc, E. cbn [negb]. fold u.
  pose proof (find_target_map (fun u => target_spec u (for_uri u ms))
    (firsts (omap target_of ms)) u (fun _ => eq_refl)) as F.
  destruct (find_target _ u) as [i|] eqn:Ef.
  - unfold add_first. rewrite decide_True by (by eapply list_elem_of_lookup_2).
    cbn [target]. rewrite E. rewrite (alter_map _ _ _ _ _ (NoDup_firsts _) F).
    apply map_ext. intros v. case_decide as Ev; [by subst v|].
    rewrite Hother; [done|]. rewrite Ht. intros [= Hx]. by apply Ev.
  - unfold add_first. rewrite decide_False by done. rewrite andb_false_r.
    match goal with |- context [if alloc a <=? count a then ?x else ?y] =>
      set (a1 := if alloc a <=? count a then x else y) end.
    assert (E1 : target a1 = target a) by (subst a1; by destruct (alloc a <=? count a)).
    cbn [target]. rewrite E1, E, map_app. rewrite alter_app_r_alt by lia.
    rewrite Nat.sub_diag. cbn [map]. f_equal.
    + apply map_ext_in. intros v Hv%list_elem_of_In. rewrite Hother; [done|].
      rewrite Ht. intros [= Hx]. apply F. by rewrite Hx.
    + rewrite zero_target_spec. rewrite <- Hup, for_uri_none; [done|].
      by rewrite <- elem_of_firsts.
Qed.

Lemma regular_app ms ms' : regular (ms ++ ms') -> regular ms.
Proof.
  intros [Hz Hl]. apply Forall_app in Hz as [Hz _]. split; [done|]. intros u.
  etrans; [|apply (Hl u)]. unfold for_uri, codes. rewrite filter_app, map_app, filter_app.
  generalize (filter (fun c => 0 <= c <= 1000) (map code_of (filter (fun m => target_of m = Some u) ms'))).
  intros l. induction l as [|x l IH] using rev_ind; [by rewrite app_nil_r|].
  rewrite app_assoc, firsts_snoc. unfold add_first. case_decide; [done|].
  rewrite length_app. lia.
Qed.

Lemma add_all_exact mem a ms :
  target a = [] -> (forall m, all_ok (mem m)) -> regular ms -> exact (add_all mem a ms) ms.
Proof.
  intros Ha Hm. induction ms as [|m ms IH] using rev_ind; intros Hr; [done|].
  unfold add_all. rewrite foldl_app. cbn [foldl]. fold (add_all mem a ms).
  apply add_metric_exact; [done|done|]. apply IH. by eapply regular_app.
Qed.

(** ** Reports *)

Lemma report_status_spec p u (g : Z -> Z) fs k :
  0 ∉ fs ->
  report_status p u (map (fun c => mkStatus c (g c)) fs ++ replicate k (mkStatus 0 0)) =
  map (fun c => req_event p u c (i64 (g c))) fs.
Proof.
  intros H0. induction fs as [|c fs IH]; cbn [map app].
  - by destruct k.
  - cbn [report_status code scount]. destruct (Z.eqb_spec c 0); [set_solver|].
    f_equal. apply IH. set_solver.
Qed.

Lemma report_field_spec p u i vs rest :
  Z.of_nat (length vs) < 2 ^ 63 ->
  report_fields p u i (counter_spec vs :: rest) =
  (field_event p u (default "" (valToStr fieldMapOut i))
     (if (i =? SERVER_DURATION) || (i =? CLIENT_DURATION) then "millisecond" else "byte")
     (if (i =? SERVER_DURATION) || (i =? CLIENT_DURATION) then DELTA_MS else DELTA) vs
   ++ report_fields p u (i + 1) rest)%list.
Proof.
  intros Hl. cbn [report_fields counter_spec num_entries total].
  rewrite (u64_small (Z.of_nat (length vs))), i64_u64, (i64_small (Z.of_nat (length vs))) by lia.
  destruct vs; [done|]. by destruct (Z.eqb_spec (Z.of_nat (length (z :: vs))) 0).
Qed.

Lemma length_omap_le {A B} (f : A -> option B) (l : list A) : (length (omap f l) <= length l)%nat.
Proof.
  induction l as [|x l IH]; [done|]. change (x :: l) with ([x] ++ l)%list at 1.
  rewrite omap_app, length_app. cbn. destruct (f x); cbn; lia.
Qed.

Lemma times_le (c : Z) l : (times c l <= length l)%nat.
Proof. unfold times. apply length_filter. Qed.

Lemma report_target_spec p u l :
  0 ∉ codes l -> Z.of_nat (length l) < 2 ^ 63 ->
  report_target p (target_spec u l) = spec_target p u l.
Proof.
  intros H0 Hl. unfold report_target, spec_target, target_spec, status_spec. cbn [uri status field].
  rewrite report_status_spec by (by rewrite elem_of_firsts). unfold values. cbn [map].
  assert (Hd : forall i, Z.of_nat (length (durs i l)) < 2 ^ 63).
  { intros i. pose proof (length_omap_le (fun m => if strToVal fieldMapIn (e_name (m_event m)) =? i
      then match e_value (m_event m) with FMT_INT n => Some n | _ => None end else None) l).
    unfold durs. lia. }
  assert (Hs : forall f, Z.of_nat (length (sizes f l)) < 2 ^ 63).
  { intros f. pose proof (length_omap_le (fun m => if f m =? UINT64_MAX then None else Some (f m)) l).
    unfold sizes. lia. }
  rewrite !report_field_spec by done. cbn [report_fields]. rewrite app_nil_r. f_equal.
  apply map_ext. intros c. f_equal. rewrite i64_u64, i64_small; [done|].
  pose proof (times_le c (codes l)). assert (length (codes l) <= length l)%nat; [|lia].
  unfold codes. etrans; [apply length_filter|]. by rewrite length_map.
Qed.

(** C13: the metrics sent between two resets are exactly what the list of the
    added events prescribes: one block per distinct URI (its query string cut
    off) in order of first appearance, in it one count per distinct status code
    in order of first appearance, then the sum and the number of the server
    durations, client durations, request sizes and response sizes that were
    present; as long as no status is zero, a URI has at most 64 distinct codes
    and memory is available. *)
Theorem agg_report_exact (p : proc_id_t) (mem : metric -> agg_mem) (a : http_agg_t)
    (ms : list metric) :
  target a = [] -> (forall m, all_ok (mem m)) -> regular ms -> Z.of_nat (length ms) < 2 ^ 63 ->
  httpAggSendReport p (add_all mem a ms) = spec_report p ms /\
  httpAggSendReport p (httpAggReset (add_all mem a ms)) = [].
Proof.
  intros Ha Hm Hr Hl. split; [|done]. unfold httpAggSendReport, spec_report.
  rewrite (add_all_exact mem a ms Ha Hm Hr), map_map. f_equal. apply map_ext. intros u.
  apply report_target_spec; [apply codes_no_zero, Hr|].
  pose proof (length_filter (fun m => target_of m = Some u) ms). unfold for_uri. lia.
Qed.

(** ** Concrete metrics *)

Definition duration_event (u : string) (c : Z) : event_t :=
  INT_EVENT "http_server_duration" 7 DELTA_MS
    [STRFIELD "http_target" (Some u) 4 true; NUMFIELD "http_status_code" c 1 true].
Definition met (u : string) (c : Z) : metric := mkMetric (duration_event u c) 100 UINT64_MAX.
Definition mem_ok : agg_mem := mkMem true true true.
Definition agg0 : http_agg_t := mkAgg [] DEFAULT_TARGET_LEN.
Definition proc0 : proc_id_t := mkProc "curl" 42 "host".

Lemma agg_report_exact_witness :
  httpAggSendReport proc0 (add_all (fun _ => mem_ok) agg0 [met "/a?x=1" 200; met "/a" 404; met "/a?y" 200])
  = spec_report proc0 [met "/a?x=1" 200; met "/a" 404; met "/a?y" 200] /\
  httpAggSendReport proc0
    (httpAggReset (add_all (fun _ => mem_ok) agg0 [met "/a?x=1" 200; met "/a" 404; met "/a?y" 200])) = [].
Proof.
  apply (agg_report_exact proc0 (fun _ => mem_ok) agg0 [met "/a?x=1" 200; met "/a" 404; met "/a?y" 200]);
    [reflexivity|intros; repeat split| |vm_compute; reflexivity].
  split; [repeat constructor; vm_compute; discriminate|]. intros u.
  unfold for_uri. rewrite !filter_cons, filter_nil.
  repeat case_decide; vm_compute; lia.
Defined.

(** A metric whose status is zero is counted in the first free slot, whose
    code stays zero, so it is credited to the next status code the URI sees:
    one 200 response is reported as two. *)
Theorem zero_status_credited :
  head (httpAggSendReport proc0 (add_all (fun _ => mem_ok) agg0 [met "/a" 0; met "/a" 200])) =
  Some (req_event proc0 "/a" 200 2).
Proof. vm_compute. reflexivity. Qed.

End HttpAgg.
