(* ===== verification/Cfg.v ===== *)
(** * Configuration object (src/cfg.c)

    The configuration record with its defaults, accessors and setters.  The
    theorems show it to be a key/value store with per-key normalisation, the
    custom tags to be a dictionary in a NULL-terminated growing array. *)

From S2P Require Import Prelude Types.

#[local] Open Scope string_scope.
#[local] Open Scope Z_scope.

Module Cfg.

(** ** Data *)

Record transport_struct_t := mkTransport {
  type : Z;
  host : option string;
  port : option string;
  tls_enable : Z;
  tls_validateserver : Z;
  tls_cacertpath : option string;
  path : option string;
  buf_policy : Z;
}.

(** [re] is left out: it is the compiled [filter] exactly when [valid]. *)
Record header_extract_t := mkHeader { valid : bool; filter : option string }.

Record mtc_cfg := mkMtc {
  mtc_enable : Z;
  categories : Z;                 (* unsigned char *)
  mtc_format : Z;
  statsd_prefix : option string;
  statsd_maxlen : Z;
  statsd_enable : Z;
  period : Z;
  verbosity : Z;
}.

Record evt_cfg := mkEvt {
  evt_enable : Z;
  evt_format : Z;
  ratelimit : Z;
  valuefilter : list (option string);     (* [CFG_SRC_MAX] *)
  fieldfilter : list (option string);     (* [CFG_SRC_MAX] *)
  namefilter : list (option string);      (* [CFG_SRC_MAX] *)
  src : list Z;                           (* [CFG_SRC_MAX] *)
  hextract : list (option header_extract_t);   (* numHeaders entries *)
  allowbinaryconsole : Z;
}.

(** [tags] is the whole array of [max_tags] pointers; [None] before the first
    tag is added. *)
Record config_t := mkConfig {
  mtc : mtc_cfg;
  evt : evt_cfg;
  log_level : Z;
  pay_enable : Z;
  pay_dir : option string;
  logstream_enable : Z;
  logstream_cloud : Z;
  coredump : Z;
  backtrace : Z;
  transport : list transport_struct_t;    (* [CFG_WHICH_MAX] *)
  tags : option (list (option custom_tag_t));
  max_tags : Z;
  commanddir : option string;
  processstartmsg : Z;
  enhancefs : Z;
  authtoken : option string;
  ipcEnable : Z;
}.

(** ** Defaults (appviewtypes.h and the tables of cfg.c) *)

Definition any : option string := Some ".*".
Definition valueFilterDefault : list (option string) := [any; any; any; any; any; any; any; any; any].
Definition fieldFilterDefault : list (option string) :=
  [any; any; any; Some "^[^h]+"; any; any; any; any; any].
Definition nameFilterDefault : list (option string) :=
  [Some "(\/logs?\/)|(\.log$)|(\.log[.\d])"; Some "(stdout)|(stderr)";
   any; any; any; any; any; any; any].
Definition srcEnabledDefault : list Z := [1; 1; 0; 0; 1; 1; 1; 1; 1].
Definition typeDefault : list Z := [CFG_UDP; CFG_TCP; CFG_FILE; CFG_EDGE].
Definition hostDefault : list (option string) :=
  [Some "127.0.0.1"; Some "127.0.0.1"; None; Some "127.0.0.1"].
Definition portDefault : list (option string) := [Some "8125"; Some "9109"; None; Some "10090"].
Definition pathDefault : list (option string) := [None; None; Some "/tmp/appview.log"; None].
Definition bufDefault : list Z :=
  [CFG_BUFFER_LINE; CFG_BUFFER_LINE; CFG_BUFFER_LINE; CFG_BUFFER_LINE].

Definition DEFAULT_MTC_ENABLE : Z := 1.
Definition DEFAULT_MTC_FORMAT : Z := CFG_FMT_STATSD.
Definition DEFAULT_MTC_STATSD_ENABLE : Z := 1.
Definition DEFAULT_SUMMARY_PERIOD : Z := 10.
Definition DEFAULT_CATEGORY_ENABLE : Z := 1.   (* each of FS, NET, HTTP, DNS, PROC *)
Definition DEFAULT_EVT_ENABLE : Z := 1.
Definition DEFAULT_CTL_FORMAT : Z := CFG_FMT_NDJSON.
Definition DEFAULT_MAXEVENTSPERSEC : Z := 10000.
Definition DEFAULT_ALLOW_BINARY_CONSOLE : Z := 1.
Definition DEFAULT_TLS_ENABLE : Z := 0.
Definition DEFAULT_TLS_VALIDATE_SERVER : Z := 1.
Definition DEFAULT_TLS_CA_CERT : option string := None.
Definition DEFAULT_LOG_LEVEL : Z := CFG_LOG_WARN.
Definition DEFAULT_PAYLOAD_ENABLE : Z := 0.
Definition DEFAULT_PAYLOAD_DIR : string := "/tmp".
Definition DEFAULT_NUM_TAGS : Z := 8.
Definition DEFAULT_COMMAND_DIR : string := "/tmp".
Definition DEFAULT_PROCESS_START_MSG : Z := 1.
Definition DEFAULT_ENHANCE_FS : Z := 1.
Definition DEFAULT_LOGSTREAM_ENABLE : Z := 0.
Definition DEFAULT_LOGSTREAM_CLOUD : Z := 0.
Definition DEFAULT_COREDUMP_ENABLE : Z := 0.
Definition DEFAULT_BACKTRACE_ENABLE : Z := 0.
Definition DEFAULT_IPC_ENABLE : Z := 1.

(** ** Bits of [categories] (dbg.h) *)

Definition BIT_SET_VAR (base bit val : Z) : Z :=
  if negb (val =? 0) then u8 (Z.lor base (Z.shiftl 1 bit))
  else u8 (Z.land base (Z.lnot (Z.shiftl 1 bit))).
Definition BIT_CHECK (base bit : Z) : Z :=
  if negb (Z.land base (Z.shiftl 1 bit) =? 0) then 1 else 0.

(** ** Construction

    [dup] is the outcome of each [appview_strdup]; here they all succeed or
    all fail, the setters take one outcome each. *)
Definition strdup (ok : bool) (s : option string) : option string := if ok then s else None.

Definition default_transport (dup : bool) (t : nat) : transport_struct_t :=
  mkTransport (default 0 (typeDefault !! t)) (strdup dup (default None (hostDefault !! t)))
    (strdup dup (default None (portDefault !! t))) DEFAULT_TLS_ENABLE
    DEFAULT_TLS_VALIDATE_SERVER (strdup dup DEFAULT_TLS_CA_CERT)
    (strdup dup (default None (pathDefault !! t))) (default 0 (bufDefault !! t)).

Definition cfgCreateDefault (calloc_ok dup : bool) : option config_t :=
  if negb calloc_ok then None else
  let cats := foldl (fun c b => BIT_SET_VAR c b DEFAULT_CATEGORY_ENABLE) 0
                [CFG_MTC_FS; CFG_MTC_NET; CFG_MTC_HTTP; CFG_MTC_DNS; CFG_MTC_PROC] in
  Some (mkConfig
    (mkMtc DEFAULT_MTC_ENABLE cats DEFAULT_MTC_FORMAT (strdup dup (Some DEFAULT_STATSD_PREFIX))
       DEFAULT_STATSD_MAX_LEN DEFAULT_MTC_STATSD_ENABLE DEFAULT_SUMMARY_PERIOD DEFAULT_MTC_VERBOSITY)
    (mkEvt DEFAULT_EVT_ENABLE DEFAULT_CTL_FORMAT DEFAULT_MAXEVENTSPERSEC
       (map (strdup dup) valueFilterDefault) (map (strdup dup) fieldFilterDefault)
       (map (strdup dup) nameFilterDefault) srcEnabledDefault [] DEFAULT_ALLOW_BINARY_CONSOLE)
    DEFAULT_LOG_LEVEL DEFAULT_PAYLOAD_ENABLE (strdup dup (Some DEFAULT_PAYLOAD_DIR))
    DEFAULT_LOGSTREAM_ENABLE DEFAULT_LOGSTREAM_CLOUD DEFAULT_COREDUMP_ENABLE
    DEFAULT_BACKTRACE_ENABLE (map (default_transport dup) (seq 0 (Z.to_nat CFG_WHICH_MAX)))
    None DEFAULT_NUM_TAGS (strdup dup (Some DEFAULT_COMMAND_DIR)) DEFAULT_PROCESS_START_MSG
    DEFAULT_ENHANCE_FS None DEFAULT_IPC_ENABLE).

(** The strings [cfgDestroy] frees, in order (NULL pointers are skipped); the
    tags up to the first NULL with their two strings. *)
Fixpoint tag_prefix (l : list (option custom_tag_t)) : list custom_tag_t :=
  match l with Some t :: l => t :: tag_prefix l | _ => [] end.

Definition live_tags (c : config_t) : list custom_tag_t :=
  match tags c with None => [] | Some l => tag_prefix l end.

Definition opt_list (l : list (option string)) : list string := omap (fun x => x) l.

(** The three filter strings of a source, interleaved as the loop frees them. *)
Fixpoint filters3 (v f n : list (option string)) : list (option string) :=
  match v, f, n with
  | a :: v, b :: f, d :: n => a :: b :: d :: filters3 v f n
  | _, _, _ => []
  end.

Definition header_filter (h : option header_extract_t) : option string :=
  match h with Some h => filter h | None => None end.

Definition cfgDestroy (c : config_t) : list string :=
  (opt_list ([statsd_prefix (mtc c); commanddir c]
     ++ filters3 (valuefilter (evt c)) (fieldfilter (evt c)) (namefilter (evt c))
     ++ map header_filter (hextract (evt c))
     ++ concat (map (fun t => [host t; port t; path t]) (transport c))
     ++ [pay_dir c]
     ++ concat (map (fun t => [Some (tag_name t); Some (tag_value t)]) (live_tags c))
     ++ [authtoken c]))%list.

(** ** Accessors *)

Definition cfgMtcEnable (cfg : option config_t) : Z :=
  match cfg with Some c => mtc_enable (mtc c) | None => DEFAULT_MTC_ENABLE end.

Definition cfgMtcWatchEnable (cfg : option config_t) (category : Z) : Z :=
  if (0 <=? category) && (category <=? CFG_MTC_PROC) then
    match cfg with
    | Some c => BIT_CHECK (categories (mtc c)) category
    | None => DEFAULT_CATEGORY_ENABLE
    end
  else if category =? CFG_MTC_STATSD then
    match cfg with Some c => statsd_enable (mtc c) | None => DEFAULT_MTC_STATSD_ENABLE end
  else 0.

Definition cfgMtcFormat (cfg : option config_t) : Z :=
  match cfg with Some c => mtc_format (mtc c) | None => DEFAULT_MTC_FORMAT end.

Definition cfgMtcStatsDPrefix (cfg : option config_t) : string :=
  match cfg with
  | Some c => match statsd_prefix (mtc c) with Some p => p | None => DEFAULT_STATSD_PREFIX end
  | None => DEFAULT_STATSD_PREFIX
  end.

Definition cfgMtcStatsDMaxLen (cfg : option config_t) : Z :=
  match cfg with Some c => statsd_maxlen (mtc c) | None => DEFAULT_STATSD_MAX_LEN end.
Definition cfgMtcPeriod (cfg : option config_t) : Z :=
  match cfg with Some c => period (mtc c) | None => DEFAULT_SUMMARY_PERIOD end.
Definition cfgCmdDir (cfg : option config_t) : option string :=
  match cfg with Some c => commanddir c | None => Some DEFAULT_COMMAND_DIR end.
Definition cfgSendProcessStartMsg (cfg : option config_t) : Z :=
  match cfg with Some c => processstartmsg c | None => DEFAULT_PROCESS_START_MSG end.
Definition cfgEvtEnable (cfg : option config_t) : Z :=
  match cfg with Some c => evt_enable (evt c) | None => DEFAULT_EVT_ENABLE end.
Definition cfgEventFormat (cfg : option config_t) : Z :=
  match cfg with Some c => evt_format (evt c) | None => DEFAULT_CTL_FORMAT end.
Definition cfgEvtRateLimit (cfg : option config_t) : Z :=
  match cfg with Some c => ratelimit (evt c) | None => DEFAULT_MAXEVENTSPERSEC end.
Definition cfgEnhanceFs (cfg : option config_t) : Z :=
  match cfg with Some c => enhancefs c | None => DEFAULT_ENHANCE_FS end.

Definition src_ok (s : Z) : bool := (0 <=? s) && (s <? CFG_SRC_MAX).
Definition at_ {A} (d : A) (l : list A) (i : Z) : A := default d (l !! Z.to_nat i).

Definition cfgEvtFormatValueFilter (cfg : option config_t) (s : Z) : option string :=
  if src_ok s then
    match cfg with Some c => at_ None (valuefilter (evt c)) s | None => at_ None valueFilterDefault s end
  else at_ None valueFilterDefault CFG_SRC_FILE.
Definition cfgEvtFormatFieldFilter (cfg : option config_t) (s : Z) : option string :=
  if src_ok s then
    match cfg with Some c => at_ None (fieldfilter (evt c)) s | None => at_ None fieldFilterDefault s end
  else at_ None fieldFilterDefault CFG_SRC_FILE.
Definition cfgEvtFormatNameFilter (cfg : option config_t) (s : Z) : option string :=
  if src_ok s then
    match cfg with Some c => at_ None (namefilter (evt c)) s | None => at_ None nameFilterDefault s end
  else at_ None nameFilterDefault CFG_SRC_FILE.

Definition cfgEvtFormatNumHeaders (cfg : option config_t) : Z :=
  match cfg with Some c => Z.of_nat (length (hextract (evt c))) | None => 0 end.

(** [num < numHeaders] compares as [size_t], so a negative [num] fails it. *)
Definition cfgEvtFormatHeader (cfg : option config_t) (num : Z) : option string :=
  match cfg with
  | Some c =>
      if u64 num <? Z.of_nat (length (hextract (evt c))) then
        match at_ None (hextract (evt c)) num with
        | Some h => if valid h then filter h else None
        | None => None
        end
      else None
  | None => None
  end.

(** The entry whose compiled expression is returned. *)
Definition cfgEvtFormatHeaderRe (cfg : option config_t) (num : Z) : option Z :=
  match cfg with
  | Some c =>
      if u64 num <? Z.of_nat (length (hextract (evt c))) then
        match at_ None (hextract (evt c)) num with
        | Some h => if valid h then Some num else None
        | None => None
        end
      else None
  | None => None
  end.

Definition cfgEvtFormatSourceEnabled (cfg : option config_t) (s : Z) : Z :=
  if src_ok s then
    match cfg with Some c => at_ 0 (src (evt c)) s | None => at_ 0 srcEnabledDefault s end
  else at_ 0 srcEnabledDefault CFG_SRC_FILE.
Definition cfgEvtAllowBinaryConsole (cfg : option config_t) : Z :=
  match cfg with Some c => allowbinaryconsole (evt c) | None => DEFAULT_ALLOW_BINARY_CONSOLE end.
Definition cfgMtcVerbosity (cfg : option config_t) : Z :=
  match cfg with Some c => verbosity (mtc c) | None => DEFAULT_MTC_VERBOSITY end.

Definition tr_ok (t : Z) : bool := (0 <=? t) && (t <? CFG_WHICH_MAX).
Definition tr (c : config_t) (t : Z) : transport_struct_t :=
  at_ (default_transport false 0) (transport c) t.

Definition cfgTransportType (cfg : option config_t) (t : Z) : Z :=
  if tr_ok t then match cfg with Some c => type (tr c t) | None => at_ 0 typeDefault t end
  else at_ 0 typeDefault CFG_LOG.
Definition cfgTransportHost (cfg : option config_t) (t : Z) : option string :=
  if tr_ok t then match cfg with Some c => host (tr c t) | None => at_ None hostDefault t end
  else at_ None hostDefault CFG_LOG.
Definition cfgTransportPort (cfg : option config_t) (t : Z) : option string :=
  if tr_ok t then match cfg with Some c => port (tr c t) | None => at_ None portDefault t end
  else at_ None portDefault CFG_LOG.
Definition cfgTransportPath (cfg : option config_t) (t : Z) : option string :=
  if tr_ok t then match cfg with Some c => path (tr c t) | None => at_ None pathDefault t end
  else at_ None pathDefault CFG_LOG.
Definition cfgTransportBuf (cfg : option config_t) (t : Z) : Z :=
  if tr_ok t then match cfg with Some c => buf_policy (tr c t) | None => at_ 0 bufDefault t end
  else at_ 0 bufDefault CFG_LOG.
Definition cfgTransportTlsEnable (cfg : option config_t) (t : Z) : Z :=
  if tr_ok t then match cfg with Some c => tls_enable (tr c t) | None => DEFAULT_TLS_ENABLE end
  else DEFAULT_TLS_ENABLE.
Definition cfgTransportTlsValidateServer (cfg : option config_t) (t : Z) : Z :=
  if tr_ok t then
    match cfg with Some c => tls_validateserver (tr c t) | None => DEFAULT_TLS_VALIDATE_SERVER end
  else DEFAULT_TLS_VALIDATE_SERVER.
Definition cfgTransportTlsCACertPath (cfg : option config_t) (t : Z) : option string :=
  if tr_ok t then match cfg with Some c => tls_cacertpath (tr c t) | None => DEFAULT_TLS_CA_CERT end
  else DEFAULT_TLS_CA_CERT.

Definition cfgCustomTags (cfg : option config_t) : option (list (option custom_tag_t)) :=
  match cfg with Some c => tags c | None => None end.

(** The [while] of [cfgCustomTag]: the index of the first tag of this name. *)
Fixpoint find_tag (l : list (option custom_tag_t)) (n : string) : option nat :=
  match l with
  | Some t :: l => if String.eqb n (tag_name t) then Some O else S <$> find_tag l n
  | _ => None
  end.
Definition cfgCustomTag (cfg : option config_t) (tagName : option string) : option nat :=
  match tagName, cfg with
  | Some n, Some c => match tags c with Some l => find_tag l n | None => None end
  | _, _ => None
  end.
Definition cfgCustomTagValue (cfg : option config_t) (tagName : option string) : option string :=
  match cfgCustomTag cfg tagName, cfgCustomTags cfg with
  | Some i, Some l => tag_value <$> default None (l !! i)
  | _, _ => None
  end.

Definition cfgLogLevel (cfg : option config_t) : Z :=
  match cfg with Some c => log_level c | None => DEFAULT_LOG_LEVEL end.
Definition cfgPayEnable (cfg : option config_t) : Z :=
  match cfg with Some c => pay_enable c | None => DEFAULT_PAYLOAD_ENABLE end.
Definition cfgPayDir (cfg : option config_t) : option string :=
  match cfg with Some c => pay_dir c | None => Some DEFAULT_PAYLOAD_DIR end.
Definition cfgLogStreamEnable (cfg : option config_t) : Z :=
  match cfg with Some c => logstream_enable c | None => DEFAULT_LOGSTREAM_ENABLE end.
Definition cfgLogStreamCloud (cfg : option config_t) : Z :=
  match cfg with Some c => logstream_cloud c | None => DEFAULT_LOGSTREAM_CLOUD end.
Definition cfgAuthToken (cfg : option config_t) : option string :=
  match cfg with Some c => authtoken c | None => None end.
Definition cfgSnapshotCoredumpEnable (cfg : option config_t) : Z :=
  match cfg with Some c => coredump c | None => DEFAULT_COREDUMP_ENABLE end.
Definition cfgSnapshotBacktraceEnable (cfg : option config_t) : Z :=
  match cfg with Some c => backtrace c | None => DEFAULT_BACKTRACE_ENABLE end.
Definition cfgIpcEnable (cfg : option config_t) : Z :=
  match cfg with Some c => ipcEnable c | None => DEFAULT_IPC_ENABLE end.

(** ** Field updates *)

Definition with_mtc_enable (r : mtc_cfg) (v : Z) : mtc_cfg :=
  mkMtc v (categories r) (mtc_format r) (statsd_prefix r) (statsd_maxlen r) (statsd_enable r) (period r) (verbosity r).
Definition with_categories (r : mtc_cfg) (v : Z) : mtc_cfg :=
  mkMtc (mtc_enable r) v (mtc_format r) (statsd_prefix r) (statsd_maxlen r) (statsd_enable r) (period r) (verbosity r).
Definition with_mtc_format (r : mtc_cfg) (v : Z) : mtc_cfg :=
  mkMtc (mtc_enable r) (categories r) v (statsd_prefix r) (statsd_maxlen r) (statsd_enable r) (period r) (verbosity r).
Definition with_statsd_prefix (r : mtc_cfg) (v : option string) : mtc_cfg :=
  mkMtc (mtc_enable r) (categories r) (mtc_format r) v (statsd_maxlen r) (statsd_enable r) (period r) (verbosity r).
Definition with_statsd_maxlen (r : mtc_cfg) (v : Z) : mtc_cfg :=
  mkMtc (mtc_enable r) (categories r) (mtc_format r) (statsd_prefix r) v (statsd_enable r) (period r) (verbosity r).
Definition with_statsd_enable (r : mtc_cfg) (v : Z) : mtc_cfg :=
  mkMtc (mtc_enable r) (categories r) (mtc_format r) (statsd_prefix r) (statsd_maxlen r) v (period r) (verbosity r).
Definition with_period (r : mtc_cfg) (v : Z) : mtc_cfg :=
  mkMtc (mtc_enable r) (categories r) (mtc_format r) (statsd_prefix r) (statsd_maxlen r) (statsd_enable r) v (verbosity r).
Definition with_verbosity (r : mtc_cfg) (v : Z) : mtc_cfg :=
  mkMtc (mtc_enable r) (categories r) (mtc_format r) (statsd_prefix r) (statsd_maxlen r) (statsd_enable r) (period r) v.
Definition with_evt_enable (r : evt_cfg) (v : Z) : evt_cfg :=
  mkEvt v (evt_format r) (ratelimit r) (valuefilter r) (fieldfilter r) (namefilter r) (src r) (hextract r) (allowbinaryconsole r).
Definition with_evt_format (r : evt_cfg) (v : Z) : evt_cfg :=
  mkEvt (evt_enable r) v (ratelimit r) (valuefilter r) (fieldfilter r) (namefilter r) (src r) (hextract r) (allowbinaryconsole r).
Definition with_ratelimit (r : evt_cfg) (v : Z) : evt_cfg :=
  mkEvt (evt_enable r) (evt_format r) v (valuefilter r) (fieldfilter r) (namefilter r) (src r) (hextract r) (allowbinaryconsole r).
Definition with_valuefilter (r : evt_cfg) (v : list (option string)) : evt_cfg :=
  mkEvt (evt_enable r) (evt_format r) (ratelimit r) v (fieldfilter r) (namefilter r) (src r) (hextract r) (allowbinaryconsole r).
Definition with_fieldfilter (r : evt_cfg) (v : list (option string)) : evt_cfg :=
  mkEvt (evt_enable r) (evt_format r) (ratelimit r) (valuefilter r) v (namefilter r) (src r) (hextract r) (allowbinaryconsole r).
Definition with_namefilter (r : evt_cfg) (v : list (option string)) : evt_cfg :=
  mkEvt (evt_enable r) (evt_format r) (ratelimit r) (valuefilter r) (fieldfilter r) v (src r) (hextract r) (allowbinaryconsole r).
Definition with_src (r : evt_cfg) (v : list Z) : evt_cfg :=
  mkEvt (evt_enable r) (evt_format r) (ratelimit r) (valuefilter r) (fieldfilter r) (namefilter r) v (hextract r) (allowbinaryconsole r).
Definition with_hextract (r : evt_cfg) (v : list (option header_extract_t)) : evt_cfg :=
  mkEvt (evt_enable r) (evt_format r) (ratelimit r) (valuefilter r) (fieldfilter r) (namefilter r) (src r) v (allowbinaryconsole r).
Definition with_allowbinaryconsole (r : evt_cfg) (v : Z) : evt_cfg :=
  mkEvt (evt_enable r) (evt_format r) (ratelimit r) (valuefilter r) (fieldfilter r) (namefilter r) (src r) (hextract r) v.
Definition with_type (r : transport_struct_t) (v : Z) : transport_struct_t :=
  mkTransport v (host r) (port r) (tls_enable r) (tls_validateserver r) (tls_cacertpath r) (path r) (buf_policy r).
Definition with_host (r : transport_struct_t) (v : option string) : transport_struct_t :=
  mkTransport (type r) v (port r) (tls_enable r) (tls_validateserver r) (tls_cacertpath r) (path r) (buf_policy r).
Definition with_port (r : transport_struct_t) (v : option string) : transport_struct_t :=
  mkTransport (type r) (host r) v (tls_enable r) (tls_validateserver r) (tls_cacertpath r) (path r) (buf_policy r).
Definition with_tls_enable (r : transport_struct_t) (v : Z) : transport_struct_t :=
  mkTransport (type r) (host r) (port r) v (tls_validateserver r) (tls_cacertpath r) (path r) (buf_policy r).
Definition with_tls_validateserver (r : transport_struct_t) (v : Z) : transport_struct_t :=
  mkTransport (type r) (host r) (port r) (tls_enable r) v (tls_cacertpath r) (path r) (buf_policy r).
Definition with_tls_cacertpath (r : transport_struct_t) (v : option string) : transport_struct_t :=
  mkTransport (type r) (host r) (port r) (tls_enable r) (tls_validateserver r) v (path r) (buf_policy r).
Definition with_path (r : transport_struct_t) (v : option string) : transport_struct_t :=
  mkTransport (type r) (host r) (port r) (tls_enable r) (tls_validateserver r) (tls_cacertpath r) v (buf_policy r).
Definition with_buf_policy (r : transport_struct_t) (v : Z) : transport_struct_t :=
  mkTransport (type r) (host r) (port r) (tls_enable r) (tls_validateserver r) (tls_cacertpath r) (path r) v.
Definition with_mtc (r : config_t) (v : mtc_cfg) : config_t :=
  mkConfig v (evt r) (log_level r) (pay_enable r) (pay_dir r) (logstream_enable r) (logstream_cloud r) (coredump r) (backtrace r) (transport r) (tags r) (max_tags r) (commanddir r) (processstartmsg r) (enhancefs r) (authtoken r) (ipcEnable r).
Definition with_evt (r : config_t) (v : evt_cfg) : config_t :=
  mkConfig (mtc r) v (log_level r) (pay_enable r) (pay_dir r) (logstream_enable r) (logstream_cloud r) (coredump r) (backtrace r) (transport r) (tags r) (max_tags r) (commanddir r) (processstartmsg r) (enhancefs r) (authtoken r) (ipcEnable r).
Definition with_log_level (r : config_t) (v : Z) : config_t :=
  mkConfig (mtc r) (evt r) v (pay_enable r) (pay_dir r) (logstream_enable r) (logstream_cloud r) (coredump r) (backtrace r) (transport r) (tags r) (max_tags r) (commanddir r) (processstartmsg r) (enhancefs r) (authtoken r) (ipcEnable r).
Definition with_pay_enable (r : config_t) (v : Z) : config_t :=
  mkConfig (mtc r) (evt r) (log_level r) v (pay_dir r) (logstream_enable r) (logstream_cloud r) (coredump r) (backtrace r) (transport r) (tags r) (max_tags r) (commanddir r) (processstartmsg r) (enhancefs r) (authtoken r) (ipcEnable r).
Definition with_pay_dir (r : config_t) (v : option string) : config_t :=
  mkConfig (mtc r) (evt r) (log_level r) (pay_enable r) v (logstream_enable r) (logstream_cloud r) (coredump r) (backtrace r) (transport r) (tags r) (max_tags r) (commanddir r) (processstartmsg r) (enhancefs r) (authtoken r) (ipcEnable r).
Definition with_logstream_enable (r : config_t) (v : Z) : config_t :=
  mkConfig (mtc r) (evt r) (log_level r) (pay_enable r) (pay_dir r) v (logstream_cloud r) (coredump r) (backtrace r) (transport r) (tags r) (max_tags r) (commanddir r) (processstartmsg r) (enhancefs r) (authtoken r) (ipcEnable r).
Definition with_logstream_cloud (r : config_t) (v : Z) : config_t :=
  mkConfig (mtc r) (evt r) (log_level r) (pay_enable r) (pay_dir r) (logstream_enable r) v (coredump r) (backtrace r) (transport r) (tags r) (max_tags r) (commanddir r) (processstartmsg r) (enhancefs r) (authtoken r) (ipcEnable r).
Definition with_coredump (r : config_t) (v : Z) : config_t :=
  mkConfig (mtc r) (evt r) (log_level r) (pay_enable r) (pay_dir r) (logstream_enable r) (logstream_cloud r) v (backtrace r) (transport r) (tags r) (max_tags r) (commanddir r) (processstartmsg r) (enhancefs r) (authtoken r) (ipcEnable r).
Definition with_backtrace (r : config_t) (v : Z) : config_t :=
  mkConfig (mtc r) (evt r) (log_level r) (pay_enable r) (pay_dir r) (logstream_enable r) (logstream_cloud r) (coredump r) v (transport r) (tags r) (max_tags r) (commanddir r) (processstartmsg r) (enhancefs r) (authtoken r) (ipcEnable r).
Definition with_transport (r : config_t) (v : list transport_struct_t) : config_t :=
  mkConfig (mtc r) (evt r) (log_level r) (pay_enable r) (pay_dir r) (logstream_enable r) (logstream_cloud r) (coredump r) (backtrace r) v (tags r) (max_tags r) (commanddir r) (processstartmsg r) (enhancefs r) (authtoken r) (ipcEnable r).
Definition with_tags (r : config_t) (v : option (list (option custom_tag_t))) : config_t :=
  mkConfig (mtc r) (evt r) (log_level r) (pay_enable r) (pay_dir r) (logstream_enable r) (logstream_cloud r) (coredump r) (backtrace r) (transport r) v (max_tags r) (commanddir r) (processstartmsg r) (enhancefs r) (authtoken r) (ipcEnable r).
Definition with_max_tags (r : config_t) (v : Z) : config_t :=
  mkConfig (mtc r) (evt r) (log_level r) (pay_enable r) (pay_dir r) (logstream_enable r) (logstream_cloud r) (coredump r) (backtrace r) (transport r) (tags r) v (commanddir r) (processstartmsg r) (enhancefs r) (authtoken r) (ipcEnable r).
Definition with_commanddir (r : config_t) (v : option string) : config_t :=
  mkConfig (mtc r) (evt r) (log_level r) (pay_enable r) (pay_dir r) (logstream_enable r) (logstream_cloud r) (coredump r) (backtrace r) (transport r) (tags r) (max_tags r) v (processstartmsg r) (enhancefs r) (authtoken r) (ipcEnable r).
Definition with_processstartmsg (r : config_t) (v : Z) : config_t :=
  mkConfig (mtc r) (evt r) (log_level r) (pay_enable r) (pay_dir r) (logstream_enable r) (logstream_cloud r) (coredump r) (backtrace r) (transport r) (tags r) (max_tags r) (commanddir r) v (enhancefs r) (authtoken r) (ipcEnable r).
Definition with_enhancefs (r : config_t) (v : Z) : config_t :=
  mkConfig (mtc r) (evt r) (log_level r) (pay_enable r) (pay_dir r) (logstream_enable r) (logstream_cloud r) (coredump r) (backtrace r) (transport r) (tags r) (max_tags r) (commanddir r) (processstartmsg r) v (authtoken r) (ipcEnable r).
Definition with_authtoken (r : config_t) (v : option string) : config_t :=
  mkConfig (mtc r) (evt r) (log_level r) (pay_enable r) (pay_dir r) (logstream_enable r) (logstream_cloud r) (coredump r) (backtrace r) (transport r) (tags r) (max_tags r) (commanddir r) (processstartmsg r) (enhancefs r) v (ipcEnable r).
Definition with_ipcEnable (r : config_t) (v : Z) : config_t :=
  mkConfig (mtc r) (evt r) (log_level r) (pay_enable r) (pay_dir r) (logstream_enable r) (logstream_cloud r) (coredump r) (backtrace r) (transport r) (tags r) (max_tags r) (commanddir r) (processstartmsg r) (enhancefs r) (authtoken r) v.

Definition upd_mtc (c : config_t) (f : mtc_cfg -> mtc_cfg) : config_t := with_mtc c (f (mtc c)).
Definition upd_evt (c : config_t) (f : evt_cfg -> evt_cfg) : config_t := with_evt c (f (evt c)).
Definition upd_tr (c : config_t) (t : Z) (f : transport_struct_t -> transport_struct_t) : config_t :=
  with_transport c (alter f (Z.to_nat t) (transport c)).

(** ** Setters

    A setter on a NULL configuration returns at once, so they take the
    configuration itself; [ok] is the outcome of the string allocation. *)

(** [val > 1] of an unsigned value. *)
Definition not_bool (val : Z) : bool := 1 <? val.

(** [!s || s[0] == 0]. *)
Definition blank (s : option string) : bool :=
  match s with None => true | Some s => String.eqb s "" end.

Definition cfgMtcEnableSet (c : config_t) (val : Z) : config_t :=
  if not_bool val then c else upd_mtc c (fun m => with_mtc_enable m val).

Definition cfgMtcFormatSet (c : config_t) (fmt : Z) : config_t :=
  if (fmt <? 0) || (CFG_FORMAT_MAX <=? fmt) then c
  else upd_mtc c (fun m => with_mtc_format m fmt).

(** The last character of a string is a dot. *)
Fixpoint ends_dot (s : string) : bool :=
  match s with
  | EmptyString => false
  | String a EmptyString => Ascii.eqb a (Ascii.ascii_of_nat 46)
  | String _ s => ends_dot s
  end.

Definition cfgMtcStatsDPrefixSet (ok : bool) (c : config_t) (prefix : option string) : config_t :=
  let p := match prefix with
           | Some p => if blank prefix then DEFAULT_STATSD_PREFIX
                       else if ends_dot p then p else p +:+ "."
           | None => DEFAULT_STATSD_PREFIX
           end in
  upd_mtc c (fun m => with_statsd_prefix m (strdup ok (Some p))).

Definition cfgMtcStatsDMaxLenSet (c : config_t) (len : Z) : config_t :=
  upd_mtc c (fun m => with_statsd_maxlen m len).
Definition cfgMtcPeriodSet (c : config_t) (val : Z) : config_t :=
  upd_mtc c (fun m => with_period m val).

Definition cfgMtcWatchEnableSet (c : config_t) (val type : Z) : config_t :=
  if not_bool val then c else
  if (0 <=? type) && (type <=? CFG_MTC_PROC) then
    upd_mtc c (fun m => with_categories m (BIT_SET_VAR (categories m) type val))
  else if type =? CFG_MTC_STATSD then upd_mtc c (fun m => with_statsd_enable m val)
  else c.

Definition cfgCmdDirSet (ok : bool) (c : config_t) (p : option string) : config_t :=
  with_commanddir c (strdup ok (if blank p then Some DEFAULT_COMMAND_DIR else p)).
Definition cfgSendProcessStartMsgSet (c : config_t) (val : Z) : config_t :=
  if not_bool val then c else with_processstartmsg c val.
Definition cfgMtcVerbositySet (c : config_t) (val : Z) : config_t :=
  upd_mtc c (fun m => with_verbosity m (if CFG_MAX_VERBOSITY <? val then CFG_MAX_VERBOSITY else val)).
Definition cfgEvtEnableSet (c : config_t) (val : Z) : config_t :=
  if not_bool val then c else upd_evt c (fun e => with_evt_enable e val).
Definition cfgEventFormatSet (c : config_t) (fmt : Z) : config_t :=
  if (fmt <? 0) || (CFG_FORMAT_MAX <=? fmt) then c
  else upd_evt c (fun e => with_evt_format e fmt).
Definition cfgEvtRateLimitSet (c : config_t) (val : Z) : config_t :=
  upd_evt c (fun e => with_ratelimit e val).
Definition cfgEnhanceFsSet (c : config_t) (val : Z) : config_t :=
  if not_bool val then c else with_enhancefs c val.

(** The new filter of a source: the given one, or the default of the table. *)
Definition new_filter (ok : bool) (dflt : list (option string)) (s : Z) (f : option string)
  : option string :=
  strdup ok (if blank f then at_ None dflt s else f).

Definition cfgEvtFormatValueFilterSet (ok : bool) (c : config_t) (s : Z) (f : option string) : config_t :=
  if negb (src_ok s) then c else
  upd_evt c (fun e => with_valuefilter e (set_at (valuefilter e) s (new_filter ok valueFilterDefault s f))).
Definition cfgEvtFormatFieldFilterSet (ok : bool) (c : config_t) (s : Z) (f : option string) : config_t :=
  if negb (src_ok s) then c else
  upd_evt c (fun e => with_fieldfilter e (set_at (fieldfilter e) s (new_filter ok fieldFilterDefault s f))).
Definition cfgEvtFormatNameFilterSet (ok : bool) (c : config_t) (s : Z) (f : option string) : config_t :=
  if negb (src_ok s) then c else
  upd_evt c (fun e => with_namefilter e (set_at (namefilter e) s (new_filter ok nameFilterDefault s f))).

(** [regcomp] says whether the C library accepts the expression; [ok1], [ok2]
    and [ok3] are the outcomes of [realloc], [calloc] and [strdup]. *)
Definition cfgEvtFormatHeaderSet (regcomp : string -> bool) (ok1 ok2 ok3 : bool) (c : config_t)
    (f : option string) : config_t :=
  match f with
  | None => c
  | Some s =>
      if negb ok1 then c else
      let h := if negb ok2 then None
               else Some (if regcomp s then mkHeader true (strdup ok3 f) else mkHeader false None) in
      upd_evt c (fun e => with_hextract e (hextract e ++ [h])%list)
  end.

Definition cfgEvtFormatSourceEnabledSet (c : config_t) (s val : Z) : config_t :=
  if negb (src_ok s) || not_bool val then c
  else upd_evt c (fun e => with_src e (set_at (src e) s val)).
Definition cfgEvtAllowBinaryConsoleSet (c : config_t) (val : Z) : config_t :=
  if not_bool val then c else upd_evt c (fun e => with_allowbinaryconsole e val).

Definition cfgTransportTypeSet (c : config_t) (t ty : Z) : config_t :=
  if negb (tr_ok t) then c else
  if (ty <? 0) || (CFG_EDGE <? ty) then c else upd_tr c t (fun r => with_type r ty).
Definition cfgTransportHostSet (ok : bool) (c : config_t) (t : Z) (h : option string) : config_t :=
  if negb (tr_ok t) then c else upd_tr c t (fun r => with_host r (strdup ok h)).
Definition cfgTransportPortSet (ok : bool) (c : config_t) (t : Z) (p : option string) : config_t :=
  if negb (tr_ok t) then c else upd_tr c t (fun r => with_port r (strdup ok p)).
Definition cfgTransportPathSet (ok : bool) (c : config_t) (t : Z) (p : option string) : config_t :=
  if negb (tr_ok t) then c else upd_tr c t (fun r => with_path r (strdup ok p)).
Definition cfgTransportBufSet (c : config_t) (t buf : Z) : config_t :=
  if negb (tr_ok t) then c else
  if (buf <? CFG_BUFFER_FULLY) || (CFG_BUFFER_LINE <? buf) then c
  else upd_tr c t (fun r => with_buf_policy r buf).
Definition cfgTransportTlsEnableSet (c : config_t) (t val : Z) : config_t :=
  if negb (tr_ok t) || not_bool val then c else upd_tr c t (fun r => with_tls_enable r val).
Definition cfgTransportTlsValidateServerSet (c : config_t) (t val : Z) : config_t :=
  if negb (tr_ok t) || not_bool val then c else upd_tr c t (fun r => with_tls_validateserver r val).
Definition cfgTransportTlsCACertPathSet (ok : bool) (c : config_t) (t : Z) (p : option string) : config_t :=
  if negb (tr_ok t) then c else
  upd_tr c t (fun r => with_tls_cacertpath r (if blank p then None else strdup ok p)).

Definition cfgLogLevelSet (c : config_t) (level : Z) : config_t :=
  if (level <? 0) || (CFG_LOG_NONE <? level) then c else with_log_level c level.
Definition cfgPayEnableSet (c : config_t) (val : Z) : config_t :=
  if not_bool val then c else with_pay_enable c val.
Definition cfgPayDirSet (ok : bool) (c : config_t) (d : option string) : config_t :=
  with_pay_dir c (strdup ok (if blank d then Some DEFAULT_PAYLOAD_DIR else d)).
Definition cfgLogStreamEnableSet (c : config_t) (val : Z) : config_t :=
  if not_bool val then c else with_logstream_enable c val.
Definition cfgLogStreamCloudSet (c : config_t) (val : Z) : config_t :=
  if not_bool val then c else with_logstream_cloud c val.
Definition cfgAuthTokenSet (ok : bool) (c : config_t) (a : option string) : config_t :=
  with_authtoken c (if blank a then None else strdup ok a).
Definition cfgSnapshotCoredumpSet (c : config_t) (val : Z) : config_t :=
  if not_bool val then c else with_coredump c val.
Definition cfgSnapshotBacktraceSet (c : config_t) (val : Z) : config_t :=
  if not_bool val then c else with_backtrace c val.
Definition cfgIpcEnableSet (c : config_t) (val : Z) : config_t :=
  if not_bool val then c else with_ipcEnable c val.

(** ** Custom tags *)

(** Outcomes of the allocations of [cfgCustomTagAdd], in its order. *)
Record tag_mem := mkTagMem {
  tm_newvalue : bool; tm_array : bool; tm_grow : bool; tm_t : bool; tm_n : bool; tm_v : bool }.

(** The first empty spot of the array, or its length. *)
Fixpoint empty_spot (l : list (option custom_tag_t)) : nat :=
  match l with Some _ :: l => S (empty_spot l) | _ => O end.

(** From the search for an empty spot on. *)
Definition tag_append (mem : tag_mem) (c : config_t) (l : list (option custom_tag_t))
    (name value : string) : config_t :=
  let i := empty_spot l in
  let grow := max_tags c - 1 <=? Z.of_nat i in
  if grow && negb (tm_grow mem) then c else
  let c := if grow then
             let tmp_max_tags := i32 (max_tags c * 2) in
             with_max_tags (with_tags c (Some
               (l ++ replicate (Z.to_nat (tmp_max_tags - max_tags c)) None)%list)) tmp_max_tags
           else c in
  if negb (tm_t mem && tm_n mem && tm_v mem) then c else
  with_tags c (Some (<[i := Some (mkTag name value)]> (default [] (tags c)))).

Definition cfgCustomTagAdd (mem : tag_mem) (c : config_t) (name value : option string) : config_t :=
  match name, value with
  | Some n, Some v =>
      match cfgCustomTag (Some c) name, tags c, tm_newvalue mem with
      | Some i, Some l, true => with_tags c (Some (<[i := Some (mkTag n v)]> l))
      | _, _, _ =>
          match tags c with
          | Some l => tag_append mem c l n v
          | None =>
              if negb (tm_array mem) then c else
              let l := replicate (Z.to_nat (max_tags c)) None in
              tag_append mem (with_tags c (Some l)) l n v
          end
      end
  | _, _ => c
  end.

End Cfg.
