(* ===== verification/CfgStore.v ===== *)
(** * Properties of the configuration object

    [Cfg] as a key/value store: every setter changes the value of its own key
    only, to the normalised argument, or rejects it. *)

From S2P Require Import Prelude Types Cfg.
Import Cfg.

#[local] Open Scope string_scope.
#[local] Open Scope Z_scope.

Module CfgStore.

(** ** The abstract store *)

(** One key per option; sources, transports and categories are indices. *)
Inductive key :=
| KMtcEnable | KMtcFormat | KMtcPrefix | KMtcMaxLen | KMtcPeriod | KMtcWatch (w : Z)
| KMtcVerbosity | KCmdDir | KStartMsg | KEvtEnable | KEvtFormat | KEvtRate | KEnhanceFs
| KValueFilter (s : Z) | KFieldFilter (s : Z) | KNameFilter (s : Z) | KSource (s : Z)
| KBinaryConsole
| KType (t : Z) | KHost (t : Z) | KPort (t : Z) | KPath (t : Z) | KBuf (t : Z)
| KTlsEnable (t : Z) | KTlsValidate (t : Z) | KTlsCA (t : Z)
| KLogLevel | KPayEnable | KPayDir | KLogStream | KLogStreamCloud | KAuthToken
| KCoredump | KBacktrace | KIpc.

#[export] Instance key_eq_dec : EqDecision key.
Proof. solve_decision. Defined.

Inductive val := VNum (n : Z) | VStr (s : option string).

(** Reading a key through its accessor. *)
Definition get (c : option config_t) (k : key) : val :=
  match k with
  | KMtcEnable => VNum (cfgMtcEnable c)
  | KMtcFormat => VNum (cfgMtcFormat c)
  | KMtcPrefix => VStr (Some (cfgMtcStatsDPrefix c))
  | KMtcMaxLen => VNum (cfgMtcStatsDMaxLen c)
  | KMtcPeriod => VNum (cfgMtcPeriod c)
  | KMtcWatch w => VNum (cfgMtcWatchEnable c w)
  | KMtcVerbosity => VNum (cfgMtcVerbosity c)
  | KCmdDir => VStr (cfgCmdDir c)
  | KStartMsg => VNum (cfgSendProcessStartMsg c)
  | KEvtEnable => VNum (cfgEvtEnable c)
  | KEvtFormat => VNum (cfgEventFormat c)
  | KEvtRate => VNum (cfgEvtRateLimit c)
  | KEnhanceFs => VNum (cfgEnhanceFs c)
  | KValueFilter s => VStr (cfgEvtFormatValueFilter c s)
  | KFieldFilter s => VStr (cfgEvtFormatFieldFilter c s)
  | KNameFilter s => VStr (cfgEvtFormatNameFilter c s)
  | KSource s => VNum (cfgEvtFormatSourceEnabled c s)
  | KBinaryConsole => VNum (cfgEvtAllowBinaryConsole c)
  | KType t => VNum (cfgTransportType c t)
  | KHost t => VStr (cfgTransportHost c t)
  | KPort t => VStr (cfgTransportPort c t)
  | KPath t => VStr (cfgTransportPath c t)
  | KBuf t => VNum (cfgTransportBuf c t)
  | KTlsEnable t => VNum (cfgTransportTlsEnable c t)
  | KTlsValidate t => VNum (cfgTransportTlsValidateServer c t)
  | KTlsCA t => VStr (cfgTransportTlsCACertPath c t)
  | KLogLevel => VNum (cfgLogLevel c)
  | KPayEnable => VNum (cfgPayEnable c)
  | KPayDir => VStr (cfgPayDir c)
  | KLogStream => VNum (cfgLogStreamEnable c)
  | KLogStreamCloud => VNum (cfgLogStreamCloud c)
  | KAuthToken => VStr (cfgAuthToken c)
  | KCoredump => VNum (cfgSnapshotCoredumpEnable c)
  | KBacktrace => VNum (cfgSnapshotBacktraceEnable c)
  | KIpc => VNum (cfgIpcEnable c)
  end.

(** Writing a key through its setter, with memory available. *)
Definition set (c : config_t) (k : key) (v : val) : config_t :=
  match k, v with
  | KMtcEnable, VNum n => cfgMtcEnableSet c n
  | KMtcFormat, VNum n => cfgMtcFormatSet c n
  | KMtcPrefix, VStr s => cfgMtcStatsDPrefixSet true c s
  | KMtcMaxLen, VNum n => cfgMtcStatsDMaxLenSet c n
  | KMtcPeriod, VNum n => cfgMtcPeriodSet c n
  | KMtcWatch w, VNum n => cfgMtcWatchEnableSet c n w
  | KMtcVerbosity, VNum n => cfgMtcVerbositySet c n
  | KCmdDir, VStr s => cfgCmdDirSet true c s
  | KStartMsg, VNum n => cfgSendProcessStartMsgSet c n
  | KEvtEnable, VNum n => cfgEvtEnableSet c n
  | KEvtFormat, VNum n => cfgEventFormatSet c n
  | KEvtRate, VNum n => cfgEvtRateLimitSet c n
  | KEnhanceFs, VNum n => cfgEnhanceFsSet c n
  | KValueFilter i, VStr s => cfgEvtFormatValueFilterSet true c i s
  | KFieldFilter i, VStr s => cfgEvtFormatFieldFilterSet true c i s
  | KNameFilter i, VStr s => cfgEvtFormatNameFilterSet true c i s
  | KSource i, VNum n => cfgEvtFormatSourceEnabledSet c i n
  | KBinaryConsole, VNum n => cfgEvtAllowBinaryConsoleSet c n
  | KType t, VNum n => cfgTransportTypeSet c t n
  | KHost t, VStr s => cfgTransportHostSet true c t s
  | KPort t, VStr s => cfgTransportPortSet true c t s
  | KPath t, VStr s => cfgTransportPathSet true c t s
  | KBuf t, VNum n => cfgTransportBufSet c t n
  | KTlsEnable t, VNum n => cfgTransportTlsEnableSet c t n
  | KTlsValidate t, VNum n => cfgTransportTlsValidateServerSet c t n
  | KTlsCA t, VStr s => cfgTransportTlsCACertPathSet true c t s
  | KLogLevel, VNum n => cfgLogLevelSet c n
  | KPayEnable, VNum n => cfgPayEnableSet c n
  | KPayDir, VStr s => cfgPayDirSet true c s
  | KLogStream, VNum n => cfgLogStreamEnableSet c n
  | KLogStreamCloud, VNum n => cfgLogStreamCloudSet c n
  | KAuthToken, VStr s => cfgAuthTokenSet true c s
  | KCoredump, VNum n => cfgSnapshotCoredumpSet c n
  | KBacktrace, VNum n => cfgSnapshotBacktraceSet c n
  | KIpc, VNum n => cfgIpcEnableSet c n
  | _, _ => c
  end.

(** ** Specification: what a written value becomes, [None] when rejected *)

Definition in_range (lo hi n : Z) : option val :=
  if (lo <=? n) && (n <=? hi) then Some (VNum n) else None.
Definition indexed (hi i : Z) (v : option val) : option val :=
  if (0 <=? i) && (i <=? hi) then v else None.
(** A blank string stands for the default. *)
Definition or_default (d : option string) (s : option string) : option val :=
  Some (VStr (if blank s then d else s)).

Definition norm (k : key) (v : val) : option val :=
  match k, v with
  | (KMtcEnable | KStartMsg | KEvtEnable | KEnhanceFs | KBinaryConsole | KPayEnable
     | KLogStream | KLogStreamCloud | KCoredump | KBacktrace | KIpc), VNum n => in_range 0 1 n
  | (KMtcFormat | KEvtFormat), VNum n => in_range 0 1 n
  | KMtcPrefix, VStr s =>
      Some (VStr (Some (match s with
        | Some p => if String.eqb p "" then "" else if ends_dot p then p else p +:+ "."
        | None => "" end)))
  | (KMtcMaxLen | KMtcPeriod | KEvtRate), VNum n => Some (VNum n)
  | KMtcWatch w, VNum n => indexed 5 w (in_range 0 1 n)
  | KMtcVerbosity, VNum n => Some (VNum (Z.min 9 n))
  | (KCmdDir | KPayDir), VStr s => or_default (Some "/tmp") s
  | KValueFilter i, VStr s => indexed 8 i (or_default (at_ None valueFilterDefault i) s)
  | KFieldFilter i, VStr s => indexed 8 i (or_default (at_ None fieldFilterDefault i) s)
  | KNameFilter i, VStr s => indexed 8 i (or_default (at_ None nameFilterDefault i) s)
  | KSource i, VNum n => indexed 8 i (in_range 0 1 n)
  | KType t, VNum n => indexed 3 t (in_range 0 4 n)
  | (KHost t | KPort t | KPath t), VStr s => indexed 3 t (Some (VStr s))
  | (KBuf t | KTlsEnable t | KTlsValidate t), VNum n => indexed 3 t (in_range 0 1 n)
  | KTlsCA t, VStr s => indexed 3 t (or_default None s)
  | KLogLevel, VNum n => in_range 0 5 n
  | KAuthToken, VStr s => or_default None s
  | _, _ => None
  end.

(** ** Shape: the fixed sizes of the arrays *)

Record shape (c : config_t) : Prop := {
  sh_value : length (valuefilter (evt c)) = 9%nat;
  sh_field : length (fieldfilter (evt c)) = 9%nat;
  sh_name : length (namefilter (evt c)) = 9%nat;
  sh_src : length (src (evt c)) = 9%nat;
  sh_transport : length (transport c) = 4%nat;
}.

(** Numbers are [unsigned] (or enumerators). *)
Definition arg_ok (v : val) : Prop := match v with VNum n => 0 <= n < 2 ^ 32 | VStr _ => True end.

(** ** Bits *)

Lemma BIT_CHECK_testbit b j : 0 <= j -> BIT_CHECK b j = if Z.testbit b j then 1 else 0.
Proof.
  intros Hj. unfold BIT_CHECK. destruct (Z.testbit b j) eqn:T.
  - destruct (Z.eqb_spec (Z.land b (Z.shiftl 1 j)) 0) as [E|E]; [|done]. exfalso.
    apply (f_equal (fun z => Z.testbit z j)) in E.
    rewrite Z.land_spec, T, Z.shiftl_spec, Z.sub_diag, Z.bits_0 in E by lia. done.
  - replace (Z.land b (Z.shiftl 1 j)) with 0; [done|]. symmetry. apply Z.bits_inj'. intros n Hn.
    rewrite Z.land_spec, Z.shiftl_spec, Z.bits_0 by lia.
    destruct (decide (n = j)) as [->|]; [by rewrite T|].
    destruct (decide (n < j)); [rewrite (Z.testbit_neg_r 1); [apply andb_false_r|lia]|].
    replace (Z.testbit 1 (n - j)) with false; [apply andb_false_r|].
    symmetry. apply Z.bits_above_log2; simpl; lia.
Qed.

Lemma shiftl_1_testbit i j : 0 <= i -> 0 <= j -> Z.testbit (Z.shiftl 1 i) j = bool_decide (i = j).
Proof.
  intros. rewrite Z.shiftl_1_l, Z.pow2_bits_eqb by lia.
  destruct (Z.eqb_spec i j); [by rewrite bool_decide_true|by rewrite bool_decide_false].
Qed.

Lemma bit_set_var b i j v :
  0 <= i < 8 -> 0 <= j < 8 -> v = 0 \/ v = 1 ->
  BIT_CHECK (BIT_SET_VAR b i v) j = if decide (i = j) then v else BIT_CHECK b j.
Proof.
  intros Hi Hj Hv. rewrite !BIT_CHECK_testbit by lia.
  assert (E : Z.testbit (BIT_SET_VAR b i v) j = if decide (i = j) then negb (v =? 0) else Z.testbit b j).
  { unfold BIT_SET_VAR, u8. destruct (negb (v =? 0)); rewrite Z.mod_pow2_bits_low by lia.
    - rewrite Z.lor_spec, shiftl_1_testbit by lia.
      case_decide; [by rewrite bool_decide_true, orb_true_r|by rewrite bool_decide_false, orb_false_r].
    - rewrite Z.land_spec, Z.lnot_spec, shiftl_1_testbit by lia.
      case_decide; [by rewrite bool_decide_true, andb_false_r|by rewrite bool_decide_false, andb_true_r]. }
  rewrite E. case_decide; [|done]. by destruct Hv as [-> | ->].
Qed.

(** ** Arrays *)

Lemma at_set_at {A} (d : A) l i j v :
  0 <= i < Z.of_nat (length l) -> 0 <= j ->
  at_ d (set_at l i v) j = if decide (i = j) then v else at_ d l j.
Proof.
  intros Hi Hj. unfold at_, set_at. case_decide as E.
  - subst. by rewrite list_lookup_insert_eq by lia.
  - by rewrite list_lookup_insert_ne by lia.
Qed.

Lemma tr_upd c i j f :
  0 <= i < Z.of_nat (length (transport c)) -> 0 <= j ->
  tr (upd_tr c i f) j = if decide (i = j) then f (tr c j) else tr c j.
Proof.
  intros Hi Hj. unfold tr, upd_tr, at_. cbn. case_decide as E.
  - subst. rewrite list_lookup_alter_eq.
    destruct (lookup_lt_is_Some_2 (transport c) (Z.to_nat j)) as [x ->]; [lia|done].
  - by rewrite list_lookup_alter_ne by lia.
Qed.

(** ** Guards of the setters as the ranges of the specification *)

Lemma tr_ok_eq t : tr_ok t = (0 <=? t) && (t <=? 3).
Proof. unfold tr_ok, CFG_WHICH_MAX. destruct (Z.leb_spec t 3), (Z.ltb_spec t 4); done || lia. Qed.
Lemma src_ok_eq t : src_ok t = (0 <=? t) && (t <=? 8).
Proof. unfold src_ok, CFG_SRC_MAX. destruct (Z.leb_spec t 8), (Z.ltb_spec t 9); done || lia. Qed.
Lemma in_range_bool n : 0 <= n -> in_range 0 1 n = if not_bool n then None else Some (VNum n).
Proof.
  intros. unfold in_range, not_bool.
  destruct (Z.leb_spec 0 n), (Z.leb_spec n 1), (Z.ltb_spec 1 n); done || lia.
Qed.
Lemma in_range_max lo hi n :
  in_range lo hi n = if (n <? lo) || (hi <? n) then None else Some (VNum n).
Proof.
  unfold in_range. destruct (Z.leb_spec lo n), (Z.leb_spec n hi), (Z.ltb_spec n lo), (Z.ltb_spec hi n);
    done || lia.
Qed.
Lemma in_range_format n :
  in_range 0 1 n = if (n <? 0) || (CFG_FORMAT_MAX <=? n) then None else Some (VNum n).
Proof.
  unfold in_range, CFG_FORMAT_MAX.
  destruct (Z.leb_spec 0 n), (Z.leb_spec n 1), (Z.ltb_spec n 0), (Z.leb_spec 2 n); done || lia.
Qed.

(** A write that is accepted with value [v'], or rejected. *)
Definition stored (c : config_t) (k : key) (v : val) (k' : key) : val :=
  if decide (k = k') then match norm k v with Some v' => v' | None => get (Some c) k end
  else get (Some c) k'.

Lemma stored_rejected c k v k' : norm k v = None -> get (Some c) k' = stored c k v k'.
Proof. intros E. unfold stored. rewrite E. by case_decide; subst. Qed.

Lemma stored_accepted c c' k v v' k' :
  norm k v = Some v' -> get (Some c') k = v' ->
  (k <> k' -> get (Some c') k' = get (Some c) k') -> get (Some c') k' = stored c k v k'.
Proof. intros E Hs Hf. unfold stored. rewrite E. case_decide; subst; auto. Qed.

(** The other accessors do not read the field that was written. *)
Ltac frame := intros; match goal with k' : key |- _ => destruct k' end; done.

(** A key that accepts a boolean. *)
Ltac bool_key :=
  match goal with |- get (Some (set ?c ?k (VNum ?n))) _ = _ =>
    pose proof (in_range_bool n ltac:(lia)) as R; unfold set;
    match goal with |- context [Some (?f c n)] => unfold f end;
    destruct (not_bool n);
    [by apply stored_rejected|by eapply stored_accepted; [exact R|reflexivity|frame]]
  end.

Section Store.
Variable c : config_t.
Hypothesis Hc : shape c.

(** An in-range write to an array indexed by sources. *)
Lemma source_self {A} (d o : A) (l : list A) s s' v :
  src_ok s = true -> length l = 9%nat ->
  (if src_ok s' then at_ d (set_at l s v) s' else o) =
  if decide (s = s') then v else if src_ok s' then at_ d l s' else o.
Proof.
  intros Hs Hl. destruct (decide (s = s')) as [<-|Hne].
  - rewrite Hs. unfold src_ok, CFG_SRC_MAX in *. rewrite at_set_at by (rewrite ?Hl; lia).
    by rewrite decide_True.
  - destruct (src_ok s') eqn:E; [|done]. unfold src_ok, CFG_SRC_MAX in *.
    rewrite at_set_at by (rewrite ?Hl; lia). by rewrite decide_False.
Qed.

Lemma scalar_keys k v :
  arg_ok v ->
  match k with
  | KValueFilter _ | KFieldFilter _ | KNameFilter _ | KSource _ | KMtcWatch _
  | KType _ | KHost _ | KPort _ | KPath _ | KBuf _ | KTlsEnable _ | KTlsValidate _ | KTlsCA _ => False
  | _ => True
  end ->
  forall k', get (Some (set c k v)) k' = stored c k v k'.
Proof.
  intros Ha Hk k'. destruct k, v as [n|str]; try done; try (by apply stored_rejected);
    cbn [arg_ok] in Ha.
  all: try by bool_key.
  all: try (by eapply stored_accepted; [reflexivity|reflexivity|frame]).
  - pose proof (in_range_format n) as R. unfold set, cfgMtcFormatSet.
    destruct (_ || _); [by apply stored_rejected|by eapply stored_accepted; [exact R|reflexivity|frame]].
  - eapply stored_accepted; [reflexivity| |frame]. cbn. by destruct str as [p|].
  - eapply stored_accepted; [reflexivity| |frame]. cbn. unfold CFG_MAX_VERBOSITY.
    destruct (Z.ltb_spec 9 n); do 2 f_equal; lia.
  - pose proof (in_range_format n) as R. unfold set, cfgEventFormatSet.
    destruct (_ || _); [by apply stored_rejected|by eapply stored_accepted; [exact R|reflexivity|frame]].
  - pose proof (in_range_max 0 5 n) as R. unfold set, cfgLogLevelSet. change CFG_LOG_NONE with 5.
    destruct (_ || _); [by apply stored_rejected|by eapply stored_accepted; [exact R|reflexivity|frame]].
Qed.

(** Keys of a transport: rejected out of range, and otherwise a record update. *)
Lemma transport_key (k : Z -> key) v v' t f :
  (forall t, norm (k t) v = indexed 3 t v') ->
  (tr_ok t = true -> v' <> None -> set c (k t) v = upd_tr c t f) ->
  (tr_ok t = false \/ v' = None -> set c (k t) v = c) ->
  (forall u, tr_ok t = true -> v' = Some u -> get (Some (upd_tr c t f)) (k t) = u) ->
  (forall k', k t <> k' -> tr_ok t = true -> get (Some (upd_tr c t f)) k' = get (Some c) k') ->
  forall k', get (Some (set c (k t) v)) k' = stored c (k t) v k'.
Proof.
  intros Hn Hs Hr Hg Hf k'. unfold indexed in Hn.
  destruct (tr_ok t) eqn:Et; [destruct v' as [u|] eqn:Ev|].
  - rewrite Hs by done. eapply stored_accepted; [rewrite Hn, <- tr_ok_eq, Et; reflexivity|auto|auto].
  - rewrite Hr by auto. apply stored_rejected. by rewrite Hn; destruct (_ && _).
  - rewrite Hr by auto. apply stored_rejected. by rewrite Hn, <- tr_ok_eq, Et.
Qed.

Lemma tr_other t t' f : t <> t' -> tr_ok t = true -> tr_ok t' = true -> tr (upd_tr c t f) t' = tr c t'.
Proof.
  intros Hne Ht Ht'. unfold tr_ok, CFG_WHICH_MAX in *.
  rewrite tr_upd by (rewrite ?(sh_transport _ Hc); lia). by rewrite decide_False.
Qed.
Lemma tr_same t f : tr_ok t = true -> tr (upd_tr c t f) t = f (tr c t).
Proof.
  intros Ht. unfold tr_ok, CFG_WHICH_MAX in *.
  rewrite tr_upd by (rewrite ?(sh_transport _ Hc); lia). by rewrite decide_True.
Qed.

(** Reading back a written transport field. *)
Ltac read_back :=
  intros ? Ht [= <-]; cbn [get];
  match goal with |- context [?a (Some (upd_tr _ _ _)) _] => unfold a end;
  rewrite Ht, tr_same by done; reflexivity.

(** The fields of the other transports, and the other fields of this one. *)
Ltac other_fields :=
  intros k' Hne Ht; destruct k'; try reflexivity; cbn [get];
  match goal with |- context [?a (Some (upd_tr _ _ _)) ?t'] => unfold a;
    destruct (tr_ok t') eqn:?; [|reflexivity] end;
  match goal with |- context [tr (upd_tr _ ?t _) ?t'] =>
    destruct (decide (t = t')) as [->|]; [rewrite tr_same by done|rewrite tr_other by done] end;
  first [reflexivity|by destruct Hne].

Lemma transport_keys k v :
  arg_ok v ->
  match k with
  | KType _ | KHost _ | KPort _ | KPath _ | KBuf _ | KTlsEnable _ | KTlsValidate _ | KTlsCA _ => True
  | _ => False
  end ->
  forall k', get (Some (set c k v)) k' = stored c k v k'.
Proof.
  intros Ha Hk. destruct k, v as [n|str]; try done; try (intros; by apply stored_rejected);
    cbn [arg_ok] in Ha.
  - apply (transport_key KType _ (in_range 0 4 n) _ (fun r => with_type r n));
      [done|unfold set, cfgTransportTypeSet; change CFG_EDGE with 4; rewrite in_range_max ..| |other_fields].
    + intros ->. by destruct (_ || _).
    + intros [-> | H]; [done|]. by destruct (tr_ok t), (_ || _).
    + rewrite in_range_max. destruct (_ || _); [done|read_back].
  - apply (transport_key KHost _ (Some (VStr str)) _ (fun r => with_host r (strdup true str)));
      [done|unfold set, cfgTransportHostSet ..|read_back|other_fields]; [by intros ->|by intros [->|]].
  - apply (transport_key KPort _ (Some (VStr str)) _ (fun r => with_port r (strdup true str)));
      [done|unfold set, cfgTransportPortSet ..|read_back|other_fields]; [by intros ->|by intros [->|]].
  - apply (transport_key KPath _ (Some (VStr str)) _ (fun r => with_path r (strdup true str)));
      [done|unfold set, cfgTransportPathSet ..|read_back|other_fields]; [by intros ->|by intros [->|]].
  - apply (transport_key KBuf _ (in_range 0 1 n) _ (fun r => with_buf_policy r n));
      [done|unfold set, cfgTransportBufSet; change CFG_BUFFER_FULLY with 0;
       change CFG_BUFFER_LINE with 1; rewrite in_range_max ..| |other_fields].
    + intros ->. by destruct (_ || _).
    + intros [-> | H]; [done|]. by destruct (tr_ok t), (_ || _).
    + rewrite in_range_max. destruct (_ || _); [done|read_back].
  - apply (transport_key KTlsEnable _ (in_range 0 1 n) _ (fun r => with_tls_enable r n));
      [done|unfold set, cfgTransportTlsEnableSet; rewrite in_range_bool by lia ..| |other_fields].
    + intros ->. by destruct (not_bool n).
    + intros [-> | H]; [done|]. by destruct (tr_ok t), (not_bool n).
    + rewrite in_range_bool by lia. destruct (not_bool n); [done|read_back].
  - apply (transport_key KTlsValidate _ (in_range 0 1 n) _ (fun r => with_tls_validateserver r n));
      [done|unfold set, cfgTransportTlsValidateServerSet; rewrite in_range_bool by lia ..| |other_fields].
    + intros ->. by destruct (not_bool n).
    + intros [-> | H]; [done|]. by destruct (tr_ok t), (not_bool n).
    + rewrite in_range_bool by lia. destruct (not_bool n); [done|read_back].
  - apply (transport_key KTlsCA _ (or_default None str) _
      (fun r => with_tls_cacertpath r (if blank str then None else strdup true str)));
      [done|unfold set, cfgTransportTlsCACertPathSet ..|read_back|other_fields];
      [by intros ->|by intros [->|]].
Qed.

(** Keys of a source: rejected out of range, and otherwise an array update. *)
Ltac source_key setter getter Es k' :=
  unfold set, setter; rewrite ?negb_orb;
  match goal with |- context [negb (src_ok ?s)] => destruct (src_ok s) eqn:Es end;
  [|apply stored_rejected; cbn [norm]; unfold indexed; by rewrite <- src_ok_eq, Es];
  eapply stored_accepted;
  [cbn [norm]; unfold indexed; rewrite <- src_ok_eq, Es; reflexivity
  |cbn [get negb orb]; unfold getter; cbn; rewrite source_self by (done || apply Hc);
   by rewrite decide_True
  |intros; destruct k'; try reflexivity; cbn [get negb orb]; unfold getter; cbn;
   rewrite source_self by (done || apply Hc); rewrite decide_False by congruence; reflexivity].

Lemma source_keys k v :
  arg_ok v ->
  match k with KValueFilter _ | KFieldFilter _ | KNameFilter _ | KSource _ => True | _ => False end ->
  forall k', get (Some (set c k v)) k' = stored c k v k'.
Proof.
  intros Ha Hk k'. destruct k, v as [n|str]; try done; try (by apply stored_rejected);
    cbn [arg_ok] in Ha.
  - source_key cfgEvtFormatValueFilterSet cfgEvtFormatValueFilter Es k'.
  - source_key cfgEvtFormatFieldFilterSet cfgEvtFormatFieldFilter Es k'.
  - source_key cfgEvtFormatNameFilterSet cfgEvtFormatNameFilter Es k'.
  - pose proof (in_range_bool n ltac:(lia)) as R. unfold set, cfgEvtFormatSourceEnabledSet.
    destruct (not_bool n).
    { rewrite orb_true_r. apply stored_rejected. cbn [norm]. rewrite R. unfold indexed.
      by destruct (_ && _). }
    rewrite orb_false_r. destruct (src_ok s) eqn:Es; cbn [negb].
    2:{ apply stored_rejected. cbn [norm]. unfold indexed. by rewrite <- src_ok_eq, Es. }
    eapply stored_accepted.
    + cbn [norm]. unfold indexed. rewrite <- src_ok_eq, Es. exact R.
    + cbn [get]. unfold cfgEvtFormatSourceEnabled. cbn.
      rewrite source_self by (done || apply Hc). by rewrite decide_True.
    + intros Hne. destruct k'; try reflexivity. cbn [get]. unfold cfgEvtFormatSourceEnabled. cbn.
      rewrite source_self by (done || apply Hc). rewrite decide_False by congruence. reflexivity.
Qed.

(** The bits of the metric categories. *)
Lemma watch_key w v :
  arg_ok v -> forall k', get (Some (set c (KMtcWatch w) v)) k' = stored c (KMtcWatch w) v k'.
Proof.
  intros Ha k'. destruct v as [n|str]; [|by apply stored_rejected]. cbn [arg_ok] in Ha.
  pose proof (in_range_bool n ltac:(lia)) as R. unfold set, cfgMtcWatchEnableSet.
  destruct (not_bool n) eqn:Eb.
  { apply stored_rejected. cbn [norm]. rewrite R. unfold indexed. by destruct (_ && _). }
  assert (Hn : n = 0 \/ n = 1) by (unfold not_bool in Eb; apply Z.ltb_ge in Eb; lia).
  unfold CFG_MTC_PROC, CFG_MTC_STATSD.
  destruct ((0 <=? w) && (w <=? 4)) eqn:E4; [|destruct (Z.eqb_spec w 5) as [->|]].
  - apply andb_true_iff in E4 as [E0%Z.leb_le E4%Z.leb_le].
    eapply stored_accepted; [cbn [norm]; unfold indexed;
      rewrite (proj2 (Z.leb_le _ _)), (proj2 (Z.leb_le _ _)) by lia; exact R| |].
    + cbn [get]. unfold cfgMtcWatchEnable, CFG_MTC_PROC.
      rewrite (proj2 (Z.leb_le _ _)), (proj2 (Z.leb_le _ _)) by lia. cbn.
      rewrite bit_set_var, decide_True by (done || lia). done.
    + intros Hne. destruct k'; try reflexivity. cbn [get]. unfold cfgMtcWatchEnable, CFG_MTC_PROC.
      destruct ((0 <=? w0) && (w0 <=? 4)) eqn:E4'; [|reflexivity].
      apply andb_true_iff in E4' as [?%Z.leb_le ?%Z.leb_le]. cbn.
      rewrite bit_set_var, decide_False by (done || lia || congruence). done.
  - eapply stored_accepted; [exact R|reflexivity|]. intros Hne. destruct k' as [| | | | |w'| | | | | | | | | | | | | | | | | | | | | | | | | | | | |];
      try reflexivity.
    cbn [get]. unfold cfgMtcWatchEnable, CFG_MTC_PROC, CFG_MTC_STATSD.
    destruct ((0 <=? w') && (w' <=? 4)); [reflexivity|].
    destruct (Z.eqb_spec w' 5) as [->|]; [done|reflexivity].
  - apply stored_rejected. cbn [norm]. unfold indexed.
    destruct ((0 <=? w) && (w <=? 5)) eqn:E5; [|done]. exfalso.
    apply andb_true_iff in E5 as [?%Z.leb_le ?%Z.leb_le].
    rewrite (proj2 (Z.leb_le _ _)), (proj2 (Z.leb_le _ _)) in E4 by lia. done.
Qed.

End Store.

(** ** Properties *)

Lemma set_stored c k v k' : shape c -> arg_ok v -> get (Some (set c k v)) k' = stored c k v k'.
Proof.
  intros Hc Ha. destruct k;
    first [by apply scalar_keys|by apply transport_keys|by apply source_keys|by apply watch_key].
Qed.

Lemma shape_set c k v : shape c -> shape (set c k v).
Proof.
  intros Hc. destruct k, v; try exact Hc; unfold set; 
    match goal with |- shape (?f _ _) => unfold f | |- shape (?f _ _ _) => unfold f
                  | |- shape (?f _ _ _ _) => unfold f end;
    repeat match goal with |- context [if ?b then _ else _] => destruct b end;
    try exact Hc; destruct Hc; split; cbn; rewrite ?length_set_at, ?length_alter; assumption.
Qed.

(** The abstract store: a function from keys to values, written pointwise. *)
Definition store_write (st : key -> val) (kv : key * val) : key -> val :=
  fun k' => if decide (kv.1 = k') then match norm kv.1 kv.2 with Some v' => v' | None => st kv.1 end
            else st k'.

Definition default_config : config_t :=
  default (mkConfig (mkMtc 0 0 0 None 0 0 0 0) (mkEvt 0 0 0 [] [] [] [] [] 0) 0 0 None 0 0 0 0 []
             None 0 None 0 0 None 0) (cfgCreateDefault true true).

Definition writes (ws : list (key * val)) : config_t :=
  foldl (fun c kv => set c kv.1 kv.2) default_config ws.

Lemma writes_shape ws : shape (writes ws).
Proof.
  unfold writes. assert (H : shape default_config) by (by split). revert H.
  generalize default_config. induction ws as [|kv ws IH]; intros c H; [done|].
  apply IH. by apply shape_set.
Qed.

Lemma writes_snoc ws kv : writes (ws ++ [kv]) = set (writes ws) kv.1 kv.2.
Proof. unfold writes. by rewrite foldl_app. Qed.

Lemma writes_store ws k :
  Forall (fun kv => arg_ok kv.2) ws ->
  get (Some (writes ws)) k = foldl store_write (get (Some default_config)) ws k.
Proof.
  intros H. revert k. induction ws as [|kv ws IH] using rev_ind; intros k; [done|].
  apply Forall_app in H as [H Hv]. inversion_clear Hv as [|? ? Ha _]. rewrite writes_snoc, foldl_app.
  cbn [foldl]. rewrite set_stored by (done || apply writes_shape). unfold stored, store_write.
  by rewrite !IH.
Qed.

(** C14: for every sequence of calls of the setters on a default configuration
    (memory being available), every accessor returns what a plain key/value
    store returns that keeps, per option, the last accepted value: a setter
    affects only its own option and index, out-of-range enumerators, booleans
    and indices are rejected without effect, verbosity is capped at nine, blank
    strings restore the default, and a prefix gets its final dot. *)
Theorem cfg_is_store (ws : list (key * val)) (k : key) :
  Forall (fun kv => arg_ok kv.2) ws ->
  get (Some (writes ws)) k = foldl store_write (get (Some default_config)) ws k.
Proof. apply writes_store. Qed.

Lemma cfg_is_store_witness :
  get (Some (writes [(KMtcWatch 2, VNum 0); (KType 1, VNum 9); (KMtcPrefix, VStr (Some "app"))])) (KMtcWatch 2)
  = foldl store_write (get (Some default_config))
      [(KMtcWatch 2, VNum 0); (KType 1, VNum 9); (KMtcPrefix, VStr (Some "app"))] (KMtcWatch 2).
Proof.
  apply (cfg_is_store [(KMtcWatch 2, VNum 0); (KType 1, VNum 9); (KMtcPrefix, VStr (Some "app"))]).
  repeat constructor; cbn; lia.
Defined.

Lemma null_default (k : key) : get None k = get (cfgCreateDefault true true) k.
Proof.
  destruct k; try reflexivity; cbn [get];
    unfold cfgMtcWatchEnable, cfgEvtFormatValueFilter, cfgEvtFormatFieldFilter,
      cfgEvtFormatNameFilter, cfgEvtFormatSourceEnabled, cfgTransportType, cfgTransportHost,
      cfgTransportPort, cfgTransportPath, cfgTransportBuf, cfgTransportTlsEnable,
      cfgTransportTlsValidateServer, cfgTransportTlsCACertPath.
  all: try (destruct (tr_ok t) eqn:E; [|reflexivity]; unfold tr_ok, CFG_WHICH_MAX in E;
    assert (t = 0 \/ t = 1 \/ t = 2 \/ t = 3) as [->|[->|[->| ->]]] by lia; reflexivity).
  all: try (destruct (src_ok s) eqn:E; [|reflexivity]; unfold src_ok, CFG_SRC_MAX in E;
    assert (s = 0 \/ s = 1 \/ s = 2 \/ s = 3 \/ s = 4 \/ s = 5 \/ s = 6 \/ s = 7 \/ s = 8)
      as [->|[->|[->|[->|[->|[->|[->|[->| ->]]]]]]]] by lia; reflexivity).
  destruct ((0 <=? w) && (w <=? CFG_MTC_PROC)) eqn:E; [|reflexivity].
  unfold CFG_MTC_PROC in E.
  assert (w = 0 \/ w = 1 \/ w = 2 \/ w = 3 \/ w = 4) as [->|[->|[->|[->| ->]]]] by lia; reflexivity.
Qed.

(** An accessor called without a configuration returns exactly what it
    returns on a freshly created one, for every option and every index. *)
Theorem cfg_null_is_default (k : key) : get None k = get (cfgCreateDefault true true) k.
Proof. apply null_default. Qed.

(** ** Valid values *)

Definition num_in (lo hi : Z) (v : val) : Prop := match v with VNum n => lo <= n <= hi | VStr _ => False end.
Definition str_that (P : option string -> Prop) (v : val) : Prop :=
  match v with VStr s => P s | VNum _ => False end.
Definition nonblank (s : option string) : Prop := blank s = false.

Definition valid_val (k : key) (v : val) : Prop :=
  match k with
  | KMtcMaxLen | KMtcPeriod | KEvtRate => num_in 0 UINT32_MAX v
  | KMtcVerbosity => num_in 0 CFG_MAX_VERBOSITY v
  | KType _ => num_in CFG_UDP CFG_EDGE v
  | KLogLevel => num_in 0 CFG_LOG_NONE v
  | KMtcPrefix => str_that (fun s => s = Some "" \/ exists p, s = Some p /\ ends_dot p = true) v
  | KCmdDir | KPayDir | KValueFilter _ | KFieldFilter _ | KNameFilter _ => str_that nonblank v
  | KHost _ | KPort _ | KPath _ => str_that (fun _ => True) v
  | KTlsCA _ | KAuthToken => str_that (fun s => s = None \/ nonblank s) v
  | _ => num_in 0 1 v
  end.

Lemma ends_dot_app p : ends_dot (p +:+ ".") = true.
Proof.
  induction p as [|a p IH]; [done|]. cbn. destruct p; [done|]. cbn in *. exact IH.
Qed.

Lemma in_range_valid lo hi n v : in_range lo hi n = Some v -> num_in lo hi v.
Proof. unfold in_range. destruct (_ && _) eqn:E; [|done]. intros [= <-]. cbn. lia. Qed.

Lemma default_filter_nonblank l i :
  Forall nonblank l -> (0 <=? i) && (i <=? 8) = true -> length l = 9%nat -> nonblank (at_ None l i).
Proof.
  intros H Hi Hl. unfold at_. destruct (lookup_lt_is_Some_2 l (Z.to_nat i)) as [x E]; [lia|].
  rewrite E. cbn. rewrite Forall_forall in H. apply H. by eapply list_elem_of_lookup_2.
Qed.

Lemma norm_valid k v v' : arg_ok v -> norm k v = Some v' -> valid_val k v'.
Proof.
  intros Ha E. destruct k, v as [n|str]; try discriminate; cbn [norm arg_ok] in *;
    unfold indexed, or_default in E; cbn [valid_val];
    try (by eapply in_range_valid);
    try (destruct (_ && _) eqn:G in E; [|discriminate]); try (by eapply in_range_valid);
    simplify_eq; cbn; try done; try (unfold UINT32_MAX; lia).
  - destruct str as [p|]; [|by left]. destruct (String.eqb_spec p ""); [by left|].
    right. destruct (ends_dot p) eqn:D; [by eauto|]. eexists; split; [done|]. apply ends_dot_app.
  - unfold CFG_MAX_VERBOSITY. lia.
  - destruct (blank str) eqn:B; [done|exact B].
  - destruct (blank str) eqn:B; [|exact B]. apply default_filter_nonblank; [repeat constructor|done..].
  - destruct (blank str) eqn:B; [|exact B]. apply default_filter_nonblank; [repeat constructor|done..].
  - destruct (blank str) eqn:B; [|exact B]. apply default_filter_nonblank; [repeat constructor|done..].
  - destruct (blank str) eqn:B; [by left|right; exact B].
  - destruct (blank str) eqn:B; [done|exact B].
  - destruct (blank str) eqn:B; [by left|right; exact B].
Qed.

Lemma null_valid k : valid_val k (get None k).
Proof.
  assert (F : forall l s, Forall nonblank l -> length l = 9%nat ->
    nonblank (if src_ok s then at_ None l s else at_ None l CFG_SRC_FILE)).
  { intros l s Hl Hn. rewrite src_ok_eq. destruct (_ && _) eqn:E; by apply default_filter_nonblank. }
  destruct k; cbn; try done; try (by left); try (apply F; [repeat constructor|done]).
  - unfold cfgMtcWatchEnable. by repeat case_match.
  - unfold cfgEvtFormatSourceEnabled. destruct (src_ok s) eqn:E; [|done].
    unfold src_ok, CFG_SRC_MAX in E.
    assert (s = 0 \/ s = 1 \/ s = 2 \/ s = 3 \/ s = 4 \/ s = 5 \/ s = 6 \/ s = 7 \/ s = 8)
      as [->|[->|[->|[->|[->|[->|[->|[->| ->]]]]]]]] by lia; done.
  - unfold cfgTransportType. destruct (tr_ok t) eqn:E; [|done]. unfold tr_ok, CFG_WHICH_MAX in E.
    assert (t = 0 \/ t = 1 \/ t = 2 \/ t = 3) as [->|[->|[->| ->]]] by lia; done.
  - unfold cfgTransportBuf. destruct (tr_ok t) eqn:E; [|done]. unfold tr_ok, CFG_WHICH_MAX in E.
    assert (t = 0 \/ t = 1 \/ t = 2 \/ t = 3) as [->|[->|[->| ->]]] by lia; done.
  - unfold cfgTransportTlsEnable. by destruct (tr_ok t).
  - unfold cfgTransportTlsValidateServer. by destruct (tr_ok t).
  - unfold cfgTransportTlsCACertPath. destruct (tr_ok t); by left.
Qed.

(** C27: after any sequence of calls of the setters on a default configuration
    every accessor returns a value of its option's type: flags are 0 or 1,
    formats, transport types, buffering and log level are enumerators,
    verbosity is at most nine, the statsd prefix is empty or ends in a dot, the
    directories and filters are never blank. *)
Theorem cfg_values_valid (ws : list (key * val)) (k : key) :
  Forall (fun kv => arg_ok kv.2) ws -> valid_val k (get (Some (writes ws)) k).
Proof.
  intros H. revert k. induction ws as [|kv ws IH] using rev_ind; intros k.
  - change (writes []) with default_config. change (Some default_config) with (cfgCreateDefault true true).
    rewrite <- null_default. apply null_valid.
  - apply Forall_app in H as [H Hv]. inversion_clear Hv as [|? ? Ha _].
    rewrite writes_snoc, set_stored by (done || apply writes_shape). unfold stored.
    case_decide; [subst|by apply IH]. destruct (norm kv.1 kv.2) as [v'|] eqn:E; [|by apply IH].
    by eapply norm_valid.
Qed.

Lemma cfg_values_valid_witness :
  valid_val KMtcVerbosity (get (Some (writes [(KMtcVerbosity, VNum 99)])) KMtcVerbosity).
Proof. apply (cfg_values_valid [(KMtcVerbosity, VNum 99)] KMtcVerbosity). repeat constructor; cbn; lia. Defined.

(** ** Custom tags *)

Definition all_mem : tag_mem := mkTagMem true true true true true true.

Definition add_tags (c : config_t) (ops : list (string * string)) : config_t :=
  foldl (fun c nv => cfgCustomTagAdd all_mem c (Some nv.1) (Some nv.2)) c ops.

(** The array: the tags, at least one NULL behind them, [max_tags] cells. *)
Record tags_wf (c : config_t) (ts : list custom_tag_t) : Prop := {
  tw_tags : match tags c with
            | None => ts = []
            | Some l => exists k, l = (map Some ts ++ replicate (S k) None)%list
                                  /\ Z.of_nat (length l) = max_tags c
            end;
  tw_max : 2 <= max_tags c <= 8 + 2 * Z.of_nat (length ts);
  tw_names : NoDup (map tag_name ts);
}.

Lemma tag_prefix_app ts k : tag_prefix (map Some ts ++ replicate (S k) None) = ts.
Proof. induction ts; simpl; by f_equal. Qed.

Lemma tags_wf_live c ts : tags_wf c ts -> live_tags c = ts.
Proof.
  intros [H _ _]. unfold live_tags. destruct (tags c); [|done].
  destruct H as (k & -> & _). apply tag_prefix_app.
Qed.

Lemma find_tag_spec ts k n :
  match find_tag (map Some ts ++ replicate k None) n with
  | Some i => exists v, ts !! i = Some (mkTag n v)
  | None => n ∉ map tag_name ts
  end.
Proof.
  induction ts as [|t ts IH]; cbn [map app find_tag].
  - destruct k; cbn; set_solver.
  - destruct (String.eqb_spec n (tag_name t)) as [->|Hn].
    + exists (tag_value t). by destruct t.
    + destruct (find_tag _ n) as [i|]; cbn; [exact IH|set_solver].
Qed.

Lemma empty_spot_app ts k : empty_spot (map Some ts ++ replicate (S k) None) = length ts.
Proof. induction ts; simpl; by f_equal. Qed.

(** One tag: its value replaced in place, or a new tag at the end. *)
Definition put_tag (ts : list custom_tag_t) (n v : string) : list custom_tag_t :=
  match list_find (fun t => tag_name t = n) ts with
  | Some (i, _) => <[i := mkTag n v]> ts
  | None => (ts ++ [mkTag n v])%list
  end.

Lemma tag_append_wf c ts l n v :
  (exists k, l = (map Some ts ++ replicate (S k) None)%list) -> tags c = Some l ->
  Z.of_nat (length l) = max_tags c -> 2 <= max_tags c <= 8 + 2 * Z.of_nat (length ts) ->
  NoDup (map tag_name ts) -> n ∉ map tag_name ts -> Z.of_nat (length ts) < 2 ^ 28 ->
  tags_wf (tag_append all_mem c l n v) (ts ++ [mkTag n v]).
Proof.
  intros [k ->] Ht Hl Hm Hnd Hn Hsz. unfold tag_append. rewrite empty_spot_app. cbn [tm_grow all_mem negb].
  rewrite andb_false_r. cbn [tm_t tm_n tm_v all_mem andb negb].
  rewrite length_app, length_map, length_replicate in Hl.
  assert (Hnd' : NoDup (map tag_name (ts ++ [mkTag n v]))).
  { rewrite map_app. apply NoDup_app. split; [done|]. split; [set_solver|]. apply NoDup_singleton. }
  assert (Ins : forall r, (<[length ts := Some (mkTag n v)]> (map Some ts ++ None :: r) =
                           map Some (ts ++ [mkTag n v]) ++ r)%list).
  { intros r. rewrite <- (length_map Some ts), insert_app_r_alt, Nat.sub_diag by done.
    rewrite map_app, <- app_assoc. done. }
  destruct (Z.leb_spec (max_tags c - 1) (Z.of_nat (length ts))) as [G|G].
  - rewrite i32_small by lia. cbn [tags with_tags with_max_tags default].
    set (extra := replicate (Z.to_nat (max_tags c * 2 - max_tags c)) (@None custom_tag_t)).
    assert (Le : Z.of_nat (length extra) = max_tags c) by (subst extra; rewrite length_replicate; lia).
    split; [|cbn; rewrite length_app; cbn; lia|done].
    cbn. assert (k = 0%nat) as -> by lia. rewrite <- app_assoc. cbn [replicate app]. rewrite Ins.
    exists (length extra - 1)%nat. rewrite !length_app, length_map, length_app. cbn.
    split; [|lia]. f_equal. change (extra = replicate (S (length extra - 1)) None).
    replace (S (length extra - 1)) with (length extra) by lia.
    subst extra. by rewrite length_replicate.
  - split; [|cbn; rewrite length_app; cbn; lia|done]. cbn. rewrite Ht. cbn. rewrite Ins.
    destruct k as [|k]; [lia|]. exists k. split; [done|].
    rewrite length_app, length_map, !length_app, length_replicate. cbn. lia.
Qed.

Lemma replace_wf c ts l i n v v0 :
  tags_wf c ts -> tags c = Some l -> ts !! i = Some (mkTag n v0) ->
  tags_wf (with_tags c (Some (<[i := Some (mkTag n v)]> l))) (<[i := mkTag n v]> ts).
Proof.
  intros [H Hm Hnd] Ht Hi. rewrite Ht in H. destruct H as (k & -> & Hl).
  pose proof (lookup_lt_Some _ _ _ Hi).
  split; [|by rewrite length_insert|].
  - cbn. exists k. rewrite length_insert. split; [|done].
    rewrite insert_app_l by (rewrite length_map; lia). f_equal. symmetry. apply list_fmap_insert.
  - replace (map tag_name (<[i := mkTag n v]> ts)) with (map tag_name ts); [done|].
    rewrite (list_fmap_insert tag_name). symmetry. apply list_insert_id.
    rewrite list_lookup_fmap, Hi. done.
Qed.

Lemma cfgCustomTagAdd_wf c ts n v :
  tags_wf c ts -> Z.of_nat (length ts) < 2 ^ 28 ->
  tags_wf (cfgCustomTagAdd all_mem c (Some n) (Some v)) (put_tag ts n v).
Proof.
  intros W Hsz. pose proof W as [H Hm Hnd]. unfold cfgCustomTagAdd, cfgCustomTag, put_tag.
  destruct (list_find (fun t => tag_name t = n) ts) as [[j t]|] eqn:Ef.
  - apply list_find_Some in Ef as (Hj & En & _).
    destruct (tags c) as [l|] eqn:Et; [|by rewrite H in Hj]. destruct H as (k & -> & Hl).
    pose proof (find_tag_spec ts (S k) n) as F. destruct (find_tag _ n) as [i|].
    + destruct F as [v0 Hi]. cbn [all_mem tm_newvalue].
      assert (i = j) as ->.
      { apply (NoDup_lookup _ _ _ n Hnd); rewrite list_lookup_fmap; [by rewrite Hi|by rewrite Hj, <- En]. }
      by eapply replace_wf.
    + destruct F. apply list_elem_of_In, in_map_iff. exists t. split; [done|].
      apply list_elem_of_In. by eapply list_elem_of_lookup_2.
  - apply list_find_None in Ef.
    assert (Hn : n ∉ map tag_name ts).
    { intros (t & E & Ht)%list_elem_of_In%in_map_iff. apply list_elem_of_In in Ht.
      rewrite Forall_forall in Ef. by apply (Ef t). }
    destruct (tags c) as [l|] eqn:Et.
    + destruct H as (k & -> & Hl). pose proof (find_tag_spec ts (S k) n) as F.
      destruct (find_tag _ n) as [i|].
      { destruct F as [v0 Hi]. destruct Hn. apply list_elem_of_In, in_map_iff.
        exists (mkTag n v0). split; [done|]. apply list_elem_of_In. by eapply list_elem_of_lookup_2. }
      apply tag_append_wf; eauto.
    + subst ts. cbn [all_mem tm_array negb]. destruct (Z.to_nat (max_tags c)) as [|k] eqn:Ek; [lia|].
      apply (tag_append_wf _ []); cbn [with_tags max_tags tags]; try done.
      * by exists k.
      * rewrite length_replicate. lia.
Qed.

(** Reading a tag of a well-formed array. *)
Lemma tag_value_spec c ts n :
  tags_wf c ts ->
  cfgCustomTagValue (Some c) (Some n) = tag_value ∘ snd <$> list_find (fun t => tag_name t = n) ts.
Proof.
  intros [H Hm Hnd]. unfold cfgCustomTagValue, cfgCustomTag, cfgCustomTags.
  destruct (tags c) as [l|] eqn:Et; [|by subst ts]. destruct H as (k & -> & _).
  pose proof (find_tag_spec ts (S k) n) as F. destruct (find_tag _ n) as [i|].
  - destruct F as [v Hi].
    rewrite lookup_app_l by (rewrite length_map; by eapply lookup_lt_Some).
    rewrite list_lookup_fmap, Hi. cbn.
    assert (list_find (fun t => tag_name t = n) ts = Some (i, mkTag n v)) as ->; [|done].
    apply list_find_Some. split; [done|]. split; [done|]. intros j y Hj Hlt En.
    assert (j = i); [|lia]. apply (NoDup_lookup _ _ _ n Hnd); rewrite list_lookup_fmap;
      [by rewrite Hj, <- En|by rewrite Hi].
  - assert (list_find (fun t => tag_name t = n) ts = None) as ->; [|done].
    apply list_find_None, Forall_forall. intros t Ht <-. apply F.
    apply list_elem_of_In, in_map. by apply list_elem_of_In.
Qed.

(** ** The dictionary *)

Definition tag_dict (ops : list (string * string)) : gmap string string :=
  foldl (fun m nv => <[nv.1 := nv.2]> m) ∅ ops.

Definition tag_list (ops : list (string * string)) : list custom_tag_t :=
  foldl (fun ts nv => put_tag ts nv.1 nv.2) [] ops.

Lemma put_tag_names ts n v : map tag_name (put_tag ts n v) = add_first (map tag_name ts) n.
Proof.
  unfold put_tag, add_first. destruct (list_find _ ts) as [[i t]|] eqn:Ef.
  - apply list_find_Some in Ef as (Hi & En & _).
    rewrite decide_True.
    + rewrite (list_fmap_insert tag_name). apply list_insert_id. rewrite list_lookup_fmap, Hi. cbn. by rewrite En.
    + apply list_elem_of_In, in_map_iff. exists t. split; [done|].
      apply list_elem_of_In. by eapply list_elem_of_lookup_2.
  - apply list_find_None in Ef. rewrite decide_False; [by rewrite map_app|].
    intros (t & E & Ht)%list_elem_of_In%in_map_iff. apply list_elem_of_In in Ht.
    rewrite Forall_forall in Ef. by apply (Ef t).
Qed.

Lemma tag_list_names ops : map tag_name (tag_list ops) = firsts (map fst ops).
Proof.
  induction ops as [|nv ops IH] using rev_ind; [done|].
  unfold tag_list in *. rewrite foldl_app, map_app. cbn [foldl map].
  by rewrite put_tag_names, firsts_snoc, IH.
Qed.

Definition value_of (ts : list custom_tag_t) (n : string) : option string :=
  tag_value ∘ snd <$> list_find (fun t => tag_name t = n) ts.

Lemma value_of_cons t ts n :
  value_of (t :: ts) n = if decide (tag_name t = n) then Some (tag_value t) else value_of ts n.
Proof.
  unfold value_of. cbn [list_find]. case_decide; [done|].
  by destruct (list_find (fun t => tag_name t = n) ts) as [[i u]|].
Qed.

Lemma put_tag_cons t ts n v :
  put_tag (t :: ts) n v = if decide (tag_name t = n) then mkTag n v :: ts else t :: put_tag ts n v.
Proof.
  unfold put_tag. cbn [list_find]. case_decide; [done|].
  by destruct (list_find (fun t => tag_name t = n) ts) as [[i u]|].
Qed.

Lemma value_of_put ts n v n' :
  value_of (put_tag ts n v) n' = if decide (n = n') then Some v else value_of ts n'.
Proof.
  induction ts as [|t ts IH].
  - change (put_tag [] n v) with [mkTag n v]. by rewrite value_of_cons.
  - rewrite put_tag_cons. destruct (decide (tag_name t = n)) as [E|E]; rewrite !value_of_cons; cbn.
    + case_decide; [done|]. case_decide; [congruence|done].
    + rewrite IH. destruct (decide (tag_name t = n')); [|done]. case_decide; [congruence|done].
Qed.

Lemma value_of_tag_list ops n : value_of (tag_list ops) n = tag_dict ops !! n.
Proof.
  induction ops as [|nv ops IH] using rev_ind; [done|].
  unfold tag_list, tag_dict in *. rewrite !foldl_app. cbn [foldl]. rewrite value_of_put, IH.
  case_decide as E; [subst; by rewrite lookup_insert_eq|by rewrite lookup_insert_ne].
Qed.

Lemma put_tag_length ts n v : (length (put_tag ts n v) <= S (length ts))%nat.
Proof. induction ts; [done|]. rewrite put_tag_cons. case_decide; cbn; lia. Qed.

Lemma tag_list_length ops : (length (tag_list ops) <= length ops)%nat.
Proof.
  induction ops as [|nv ops IH] using rev_ind; [done|]. unfold tag_list in *.
  rewrite foldl_app, length_app. cbn [foldl length].
  pose proof (put_tag_length (foldl (fun ts nv => put_tag ts nv.1 nv.2) [] ops) nv.1 nv.2). lia.
Qed.

Lemma add_tags_wf ops :
  Z.of_nat (length ops) < 2 ^ 28 -> tags_wf (add_tags default_config ops) (tag_list ops).
Proof.
  induction ops as [|nv ops IH] using rev_ind; intros Hl.
  - split; [done|cbn; unfold DEFAULT_NUM_TAGS; lia|constructor].
  - rewrite length_app in Hl. cbn [length] in Hl. unfold add_tags, tag_list. rewrite !foldl_app.
    apply cfgCustomTagAdd_wf; [apply IH; lia|]. pose proof (tag_list_length ops). unfold tag_list in *. lia.
Qed.

(** After adding any sequence of custom tags to a default configuration,
    looking a name up gives the value it was last given (a finite map), the
    tags are listed once each in the order in which their names first
    appeared, and the array is allocated for [max_tags] pointers with the tags
    in front and at least one terminating NULL. *)
Theorem cfg_tags_dict (ops : list (string * string)) :
  Z.of_nat (length ops) < 2 ^ 28 ->
  let c := add_tags default_config ops in
  (forall n, cfgCustomTagValue (Some c) (Some n) = tag_dict ops !! n) /\
  map tag_name (live_tags c) = firsts (map fst ops) /\
  match cfgCustomTags (Some c) with
  | None => ops = []
  | Some l => Z.of_nat (length l) = max_tags c /\
              exists k, l = (map Some (live_tags c) ++ replicate (S k) None)%list
  end.
Proof.
  intros Hl c. pose proof (add_tags_wf ops Hl) as W. fold c in W.
  rewrite (tags_wf_live _ _ W). split; [|split].
  - intros n. rewrite (tag_value_spec _ _ _ W). apply value_of_tag_list.
  - apply tag_list_names.
  - cbn. destruct W as [H _ _]. destruct (tags c).
    + destruct H as (k & -> & E). split; [done|]. by exists k.
    + destruct ops as [|nv ops _] using rev_ind; [done|]. exfalso.
      pose proof (tag_list_names (ops ++ [nv])) as N. rewrite H in N.
      assert (Hin : nv.1 ∈ map fst (ops ++ [nv])) by (rewrite map_app; set_solver).
      rewrite <- elem_of_firsts, <- N in Hin. set_solver.
Qed.

Lemma cfg_tags_dict_witness :
  let ops := [("a", "1"); ("b", "2"); ("a", "3")] in
  let c := add_tags default_config ops in
  (forall n, cfgCustomTagValue (Some c) (Some n) = tag_dict ops !! n) /\
  map tag_name (live_tags c) = firsts (map fst ops) /\
  match cfgCustomTags (Some c) with
  | None => ops = []
  | Some l => Z.of_nat (length l) = max_tags c /\
              exists k, l = (map Some (live_tags c) ++ replicate (S k) None)%list
  end.
Proof. apply (cfg_tags_dict [("a", "1"); ("b", "2"); ("a", "3")]). reflexivity. Defined.

(** ** Release *)

(** Every string a configuration owns. *)
Definition owned (c : config_t) : list string :=
  opt_list ([statsd_prefix (mtc c); commanddir c; pay_dir c; authtoken c]
    ++ valuefilter (evt c) ++ fieldfilter (evt c) ++ namefilter (evt c)
    ++ map header_filter (hextract (evt c))
    ++ concat (map (fun t => [host t; port t; path t; tls_cacertpath t]) (transport c))
    ++ concat (map (fun t => [Some (tag_name t); Some (tag_value t)]) (live_tags c)))%list.

(** [cfgDestroy] never frees the CA certificate paths of the transports:
    a configuration whose path was set owns one string more than is released. *)
Theorem cfg_destroy_leaks_cacert :
  let c := set default_config (KTlsCA CFG_CTL) (VStr (Some "/ca.pem")) in
  ("/ca.pem" ∈ owned c) /\ ("/ca.pem" ∉ cfgDestroy c) /\
  length (owned c) = S (length (cfgDestroy c)).
Proof. split; [compute_done|]. split; [compute_done|]. reflexivity. Qed.

End CfgStore.
