(* ===== verification/EvtUtils.v ===== *)
(** * Event memory (src/evtutils.c)

    The events posted to the control queue are several heap blocks; the
    consumer releases them with [evtFree].  Blocks are numbered, the heap is
    the set of the live ones, and freeing a block that is not live is an
    error, so the theorems exclude leaks and double frees. *)

From S2P Require Import Prelude.

Module EvtUtils.

(** Blocks are handed out in order; [ok] is the outcome of each request. *)
Record eheap := mkHeap { fresh : nat; live : gset nat }.

(** [metric_t] values of report.h. *)
Definition OPEN_PORTS : Z := 0.     (* what calloc leaves in [ptype] *)
Definition EVT_NET : Z := 46.
Definition EVT_FS : Z := 47.
Definition EVT_STAT : Z := 48.
Definition EVT_ERR : Z := 49.
Definition EVT_DNS : Z := 50.
Definition EVT_PROTO : Z := 51.
Definition EVT_HREQ : Z := 52.
Definition EVT_HRES : Z := 53.
Definition EVT_H2FRAME : Z := 54.
Definition EVT_DETECT : Z := 55.
Definition EVT_SEC : Z := 57.

(** What [proto->data] points to. *)
Inductive data_ptr :=
| DNull
| DPost (post : nat) (hdr : option nat)
| DString (s : nat).

Record protocol_info := mkProto { block : nat; evtype : Z; ptype : Z; data : data_ptr }.

Section Heap.
Variable ok : nat -> bool.

Definition alloc (h : eheap) : option nat * eheap :=
  if ok (fresh h) then (Some (fresh h), mkHeap (S (fresh h)) ({[fresh h]} ∪ live h))
  else (None, mkHeap (S (fresh h)) (live h)).

Definition free (h : eheap) (b : nat) : ub eheap :=
  if decide (b ∈ live h) then Def (mkHeap (fresh h) (live h ∖ {[b]})) else UB.

(** [if (p) free(p)]. *)
Definition free_opt (h : eheap) (b : option nat) : ub eheap :=
  match b with Some b => free h b | None => Def h end.

Definition evtProtoAllocHttpBase (h : eheap) : ub (option protocol_info * eheap) :=
  let '(proto, h) := alloc h in
  let '(post, h) := alloc h in
  match proto, post with
  | Some p, Some q => Def (Some (mkProto p EVT_PROTO OPEN_PORTS (DPost q None)), h)
  | _, _ =>
      h ← free_opt h post;
      h ← free_opt h proto;
      Def (None, h)
  end.

Definition evtProtoAllocHttp1 (isResponse : bool) (h : eheap) : ub (option protocol_info * eheap) :=
  '(proto, h) ← evtProtoAllocHttpBase h;
  match proto with
  | None => Def (None, h)
  | Some p => Def (Some (mkProto (block p) (evtype p) (if isResponse then EVT_HRES else EVT_HREQ)
                           (data p)), h)
  end.

Definition evtProtoFree (h : eheap) (proto : option protocol_info) : ub (bool * eheap) :=
  match proto with
  | None => Def (false, h)
  | Some p =>
  h ← (if (ptype p =? EVT_HREQ) || (ptype p =? EVT_HRES) || (ptype p =? EVT_H2FRAME) then
         match data p with
         | DPost post hdr => h ← free_opt h hdr; free h post
         | DNull => Def h
         | DString _ => UB        (* a string read as an [http_post] *)
         end
       else if ptype p =? EVT_DETECT then
         match data p with
         | DString s => free h s
         | DNull => Def h
         | DPost post _ => free h post
         end
       else Def h);
  h ← free h (block p);
  Def (true, h)
  end.

Definition evtProtoAllocHttp2Frame (h : eheap) : ub (option protocol_info * eheap) :=
  '(proto, h) ← evtProtoAllocHttpBase h;
  let '(frame, h) := alloc h in
  match proto, frame with
  | Some p, Some f =>
      let d := match data p with DPost q _ => DPost q (Some f) | d => d end in
      Def (Some (mkProto (block p) (evtype p) EVT_H2FRAME d), h)
  | _, _ =>
      h ← match proto with Some p => '(_, h) ← evtProtoFree h (Some p); Def h | None => Def h end;
      h ← free_opt h frame;
      Def (None, h)
  end.

Definition evtProtoAllocDetect (protocolName : option string) (h : eheap) :
    ub (option protocol_info * eheap) :=
  match protocolName with None => Def (None, h) | Some _ =>
  let '(proto, h) := alloc h in
  let '(protname, h) := alloc h in
  match proto, protname with
  | Some p, Some s => Def (Some (mkProto p EVT_PROTO EVT_DETECT (DString s)), h)
  | _, _ =>
      h ← free_opt h protname;
      h ← free_opt h proto;
      Def (None, h)
  end end.

(** Only [EVT_PROTO] events have nested blocks; every other kind, known or
    not, is released with a single [free]. *)
Definition evtFree (h : eheap) (event : option protocol_info) : ub (bool * eheap) :=
  match event with
  | None => Def (false, h)
  | Some p =>
      h ← (if evtype p =? EVT_PROTO then '(_, h) ← evtProtoFree h (Some p); Def h
           else free h (block p));
      Def (true, h)
  end.

(** The header block of a request or response is handed over by its parser. *)
Definition adopt (p : protocol_info) (b : nat) : protocol_info :=
  mkProto (block p) (evtype p) (ptype p)
    (match data p with DPost q _ => DPost q (Some b) | d => d end).

(** ** Theorems *)

Definition wf_heap (h : eheap) : Prop := forall b, b ∈ live h -> (b < fresh h)%nat.

(** The outcome of [p] requests for memory that keep nothing live. *)
Definition restores (h : eheap) (r : ub (option protocol_info * eheap))
    (release : protocol_info -> eheap -> ub (bool * eheap)) : Prop :=
  exists o h', r = Def (o, h') /\
    match o with
    | None => live h' = live h
    | Some p => exists h'', release p h' = Def (true, h'') /\ live h'' = live h
    end.

Lemma free_live h b : b ∈ live h -> free h b = Def (mkHeap (fresh h) (live h ∖ {[b]})).
Proof. intros. unfold free. by rewrite decide_True. Qed.

End Heap.

(** A block is live: it is one of those handed out, or was live before. *)
Ltac is_live := cbn [live]; do 3 rewrite ?elem_of_difference, ?elem_of_union, ?elem_of_singleton; intuition congruence.

(** Nothing was kept: the live blocks are those of before. *)
Ltac kept :=
  cbn [live];
  lazymatch goal with
  | |- _ = _ => apply set_eq; intros x; do 3 rewrite ?elem_of_difference, ?elem_of_union, ?elem_of_singleton;
                intuition congruence
  | _ => idtac
  end.

(** Run the releases of blocks that are known to be live. *)
Ltac releases :=
  repeat (first
    [ rewrite free_live by is_live
    | progress cbn [mbind ub_bind free_opt live fresh data ptype block evtype adopt] ]).

(** The outcomes of the next allocation. *)
Ltac outcome ok := cbn [fresh live]; match goal with |- context [if ok ?n then _ else _] => destruct (ok n) eqn:? end.

(** The blocks handed out were not live before. *)
Ltac fresh_blocks h W :=
  assert (fresh h ∉ live h) by (intros ?%W; lia);
  assert (fresh h <> S (fresh h) /\ fresh h <> S (S (fresh h)) /\ S (fresh h) <> S (S (fresh h)))
    as (? & ? & ?) by lia;
  assert (S (fresh h) ∉ live h) by (intros ?%W; lia);
  assert (S (S (fresh h)) ∉ live h) by (intros ?%W; lia).

Lemma evtFree_post h b pt q o :
  pt = EVT_HREQ \/ pt = EVT_HRES \/ pt = EVT_H2FRAME ->
  evtFree h (Some (mkProto b EVT_PROTO pt (DPost q o))) =
  (h ← free_opt h o; h ← free h q; h ← free h b; Def (true, h)).
Proof.
  intros Hp. unfold evtFree, evtProtoFree. cbn [evtype ptype data block].
  assert (((pt =? EVT_HREQ) || (pt =? EVT_HRES) || (pt =? EVT_H2FRAME)) = true) as ->
    by (by destruct Hp as [->|[->| ->]]).
  change (EVT_PROTO =? EVT_PROTO) with true. cbn match.
  destruct (free_opt h o) as [h1|]; [|done]. cbn [mbind ub_bind].
  destruct (free h1 q) as [h2|]; [|done]. cbn [mbind ub_bind]. by destruct (free h2 b).
Qed.

Lemma evtFree_detect h b s :
  evtFree h (Some (mkProto b EVT_PROTO EVT_DETECT (DString s))) =
  (h ← free h s; h ← free h b; Def (true, h)).
Proof.
  unfold evtFree, evtProtoFree. cbn. destruct (free h s) as [h1|]; [|done]. cbn. by destruct (free h1 b).
Qed.

(** An HTTP/1 event, with the header block [hb] it takes over. *)
Lemma http1_balanced ok r h hb :
  wf_heap h -> hb ∈ live h ->
  exists o h', evtProtoAllocHttp1 ok r h = Def (o, h') /\
    match o with
    | None => live h' = live h
    | Some p => exists h'', evtFree h' (Some (adopt p hb)) = Def (true, h'') /\ live h'' = live h ∖ {[hb]}
    end.
Proof.
  intros W Hb. fresh_blocks h W.
  assert (hb <> fresh h) by set_solver. assert (hb <> S (fresh h)) by set_solver.
  unfold evtProtoAllocHttp1, evtProtoAllocHttpBase, alloc.
  outcome ok; outcome ok; releases; (eexists _, _; split; [reflexivity|]); kept.
  unfold adopt. cbn [block evtype ptype data].
  rewrite evtFree_post by (destruct r; auto). releases.
  eexists; split; [reflexivity|]. kept.
Qed.

Lemma detect_balanced ok name h :
  wf_heap h -> restores h (evtProtoAllocDetect ok name h) (fun p h' => evtFree h' (Some p)).
Proof.
  intros W. fresh_blocks h W. unfold restores, evtProtoAllocDetect, alloc.
  destruct name; [|by eexists _, _].
  outcome ok; outcome ok; releases; (eexists _, _; split; [reflexivity|]); kept.
  rewrite evtFree_detect. releases. eexists; split; [reflexivity|]. kept.
Qed.

(** A frame event; its allocation may fail in any way but one. *)
Lemma frame_balanced ok h :
  wf_heap h -> ~ (ok (fresh h) = true /\ ok (S (fresh h)) = true /\ ok (S (S (fresh h))) = false) ->
  restores h (evtProtoAllocHttp2Frame ok h) (fun p h' => evtFree h' (Some p)).
Proof.
  intros W Hnot. fresh_blocks h W.
  unfold restores, evtProtoAllocHttp2Frame, evtProtoAllocHttpBase, alloc.
  outcome ok; outcome ok; releases; outcome ok; releases; try (by destruct Hnot);
    (eexists _, _; split; [reflexivity|]); kept.
  rewrite evtFree_post by auto. releases. eexists; split; [reflexivity|]. kept.
Qed.

(** An event built for the queue and released by its consumer leaves the
    heap as it was, for every outcome of the allocations: nothing is freed
    twice, and a failed construction keeps nothing, for HTTP/1 events (which
    take over and finally free the header block), for detection events, and
    for frame events unless only the allocation of the frame fails. *)
Theorem event_memory_balanced (ok : nat -> bool) (h : eheap) (hb : nat) (r : bool)
    (name : option string) :
  wf_heap h -> hb ∈ live h ->
  (exists o h', evtProtoAllocHttp1 ok r h = Def (o, h') /\
    match o with
    | None => live h' = live h
    | Some p => exists h'', evtFree h' (Some (adopt p hb)) = Def (true, h'') /\ live h'' = live h ∖ {[hb]}
    end) /\
  restores h (evtProtoAllocDetect ok name h) (fun p h' => evtFree h' (Some p)) /\
  (~ (ok (fresh h) = true /\ ok (S (fresh h)) = true /\ ok (S (S (fresh h))) = false) ->
   restores h (evtProtoAllocHttp2Frame ok h) (fun p h' => evtFree h' (Some p))).
Proof.
  intros W Hb. split; [by apply http1_balanced|]. split; [by apply detect_balanced|].
  by apply frame_balanced.
Qed.

(** One header block is live. *)
Definition one_block : eheap := mkHeap 1 {[0%nat]}.

Lemma event_memory_balanced_witness :
  exists o h', evtProtoAllocHttp1 (fun _ => true) true one_block = Def (o, h') /\
    match o with
    | None => live h' = live one_block
    | Some p => exists h'', evtFree h' (Some (adopt p 0)) = Def (true, h'') /\
                            live h'' = live one_block ∖ {[0%nat]}
    end.
Proof.
  apply (event_memory_balanced (fun _ => true) one_block 0 true (Some "HTTP"%string)).
  - intros b Hb. cbn in *. apply elem_of_singleton in Hb. lia.
  - cbn. set_solver.
Defined.

(** When only the frame's own allocation fails, [evtProtoFree] is called
    on an event whose type is not set yet, so the [http_post] of the event is
    never freed. *)
Theorem frame_alloc_leaks_post :
  match evtProtoAllocHttp2Frame (fun n => negb (n =? 2)%nat) (mkHeap 0 ∅) with
  | Def (o, h') => o = None /\ elements (live h') = [1%nat]
  | UB => False
  end.
Proof. vm_compute. auto. Qed.

End EvtUtils.
