(* ===== verification/JavaBci.v ===== *)
(** * Java class files (src/javabci.c, src/javaagent.c)

    The Java agent rewrites a class while the virtual machine loads it: the
    class file is read into a table of pointers ([javaReadClass]), methods,
    fields and constants are added or replaced, and the result is written to a
    new buffer of the tracked length ([javaWriteClass]).  This file holds the
    operations; [JavaClass] and [JavaEdits] hold their theorems.

    Memory is a set of blocks, a pointer is a block and an offset; the pointer
    arrays of the class record are lists whose length is their allocated size.
    The allocations the code does not check are taken to succeed; the contents
    of a new block are arbitrary. *)

From S2P Require Import Prelude.

Module JavaBci.

Definition u16 (z : Z) : Z := z mod 2 ^ 16.

(** ** Memory *)

Definition ptr : Type := nat * Z.
Record mem := mkMem { next : nat; blocks : gmap nat (list Z) }.

Definition padd (p : ptr) (n : Z) : ptr := (fst p, snd p + n).

(** The bytes from a pointer to the end of its block. *)
Definition view (m : mem) (p : ptr) : list Z :=
  drop (Z.to_nat (snd p)) (default [] (blocks m !! fst p)).

(** [n] bytes from the start of a region. *)
Definition bytes (v : list Z) (n : Z) : ub (list Z) :=
  if (0 <=? n) && (n <=? Z.of_nat (length v)) then Def (take (Z.to_nat n) v) else UB.

(** Big-endian loads and the bytes of big-endian values. *)
Definition be16 (v : list Z) (i : Z) : ub Z :=
  a ← load v i; b ← load v (i + 1); Def (a * 256 + b).
Definition be32 (v : list Z) (i : Z) : ub Z :=
  a ← be16 v i; b ← be16 v (i + 2); Def (a * 65536 + b).
Definition htobe16 (z : Z) : list Z := [u16 z / 256; u16 z mod 256].
Definition htobe32 (z : Z) : list Z := htobe16 (u32 z / 65536) ++ htobe16 (u32 z).

(** [memcpy(p, bs, sizeof bs)]. *)
Definition poke (m : mem) (p : ptr) (bs : list Z) : ub mem :=
  d ← memcpy (blocks m !! fst p) (snd p) bs (Z.of_nat (length bs));
  Def (mkMem (next m) (<[fst p := d]> (blocks m))).

(** Writes one after the other, [addr] advancing over each. *)
Definition emit (s : mem * ptr) (bs : list Z) : ub (mem * ptr) :=
  m ← poke (fst s) (snd s) bs;
  Def (m, padd (snd s) (Z.of_nat (length bs))).
Fixpoint emits (s : mem * ptr) (l : list (list Z)) : ub (mem * ptr) :=
  match l with
  | [] => Def s
  | bs :: l => s ← emit s bs; emits s l
  end.

(** Pointer arrays: a cell out of range is undefined behaviour, and so is the
    use of a NULL cell. *)
Definition cell (a : list (option ptr)) (i : Z) : ub ptr :=
  if i <? 0 then UB else match a !! Z.to_nat i with Some (Some p) => Def p | _ => UB end.
Definition store (a : list (option ptr)) (i : Z) (p : ptr) : ub (list (option ptr)) :=
  if (0 <=? i) && (i <? Z.of_nat (length a)) then Def (<[Z.to_nat i := Some p]> a) else UB.

(** ** The class record *)

Definition CONSTANT_Utf8 : Z := 1.
Definition CONSTANT_Long : Z := 5.
Definition CONSTANT_Double : Z := 6.
Definition CONSTANT_Class : Z := 7.
Definition CONSTANT_String : Z := 8.
Definition CONSTANT_Methodref : Z := 10.
Definition CONSTANT_NameAndType : Z := 12.
Definition ACC_PRIVATE : Z := 2.
Definition ACC_NATIVE : Z := 256.

Definition magic : list Z := [202; 254; 186; 190].
Definition cp_tag_size : list Z :=
  [0; 0; 0; 5; 5; 9; 9; 3; 3; 5; 5; 5; 5; 0; 0; 4; 3; 5; 5; 3; 3].

Record java_class_t := mkClass {
  minor_version : Z;
  major_version : Z;
  constant_pool_count : Z;
  constant_pool : list (option ptr);
  access_flags : Z;
  this_class : Z;
  super_class : Z;
  interfaces_count : Z;
  interfaces : ptr;
  fields_count : Z;
  fields : list (option ptr);
  methods_count : Z;
  methods : list (option ptr);
  attributes_count : Z;
  attributes : list (option ptr);
  class_length : Z;                (* length *)
  constant_pool_count0 : Z;        (* _constant_pool_count *)
  methods_count0 : Z;              (* _methods_count *)
}.

Definition set_pool (i : java_class_t) (n : Z) (a : list (option ptr)) : java_class_t :=
  mkClass (minor_version i) (major_version i) n a (access_flags i) (this_class i) (super_class i)
    (interfaces_count i) (interfaces i) (fields_count i) (fields i) (methods_count i) (methods i)
    (attributes_count i) (attributes i) (class_length i) (constant_pool_count0 i) (methods_count0 i).
Definition set_fields (i : java_class_t) (n : Z) (a : list (option ptr)) : java_class_t :=
  mkClass (minor_version i) (major_version i) (constant_pool_count i) (constant_pool i)
    (access_flags i) (this_class i) (super_class i) (interfaces_count i) (interfaces i) n a
    (methods_count i) (methods i) (attributes_count i) (attributes i) (class_length i)
    (constant_pool_count0 i) (methods_count0 i).
Definition set_methods (i : java_class_t) (n : Z) (a : list (option ptr)) : java_class_t :=
  mkClass (minor_version i) (major_version i) (constant_pool_count i) (constant_pool i)
    (access_flags i) (this_class i) (super_class i) (interfaces_count i) (interfaces i)
    (fields_count i) (fields i) n a (attributes_count i) (attributes i) (class_length i)
    (constant_pool_count0 i) (methods_count0 i).
(** [info->length += n] *)
Definition add_length (i : java_class_t) (n : Z) : java_class_t :=
  mkClass (minor_version i) (major_version i) (constant_pool_count i) (constant_pool i)
    (access_flags i) (this_class i) (super_class i) (interfaces_count i) (interfaces i)
    (fields_count i) (fields i) (methods_count i) (methods i) (attributes_count i) (attributes i)
    (u32 (class_length i + n)) (constant_pool_count0 i) (methods_count0 i).

(** ** Reading *)

Definition is_wide (tag : Z) : bool := (tag =? CONSTANT_Double) || (tag =? CONSTANT_Long).

(** [addr] is given by the bytes it points at. *)
Definition javaGetTagLength (addr : list Z) : ub Z :=
  tag ← load addr 0;
  if tag =? CONSTANT_Utf8 then n ← be16 addr 1; Def (u16 (n + 3))
  else match cp_tag_size !! Z.to_nat tag with Some s => Def s | None => UB end.

(** A C string: the bytes before the first NUL. *)
Fixpoint cstr (l : list Z) : list Z :=
  match l with [] => [] | c :: l => if c =? 0 then [] else c :: cstr l end.

Definition javaGetUtf8String (m : mem) (info : java_class_t) (tagIndex : Z) : ub (list Z) :=
  cp ← cell (constant_pool info) (tagIndex - 1);
  len ← be16 (view m cp) 1;
  buf ← bytes (drop 3 (view m cp)) len;
  Def (cstr buf).

Fixpoint attributes_loop (n : nat) (addr : list Z) (off : Z) : ub Z :=
  match n with
  | O => Def off
  | S n =>
      attr_length ← be32 addr (off + 2);
      attributes_loop n addr (off + u32 (attr_length + 6))
  end.

Definition getAttributesLength (addr : list Z) : ub Z :=
  attr_count ← be16 addr 0;
  off ← attributes_loop (Z.to_nat attr_count) addr 2;
  Def (u32 off).

Definition javaGetMethodLength (addr : list Z) : ub Z :=
  n ← getAttributesLength (drop 6 addr); Def (u32 (n + 6)).

(** The loop over the constant pool; [data] are the bytes from [base] on. *)
Fixpoint read_pool (fuel : nat) (data : list Z) (base : ptr) (count i off : Z)
    (pool : list (option ptr)) : ub (list (option ptr) * Z) :=
  if i <? count then
    match fuel with
    | O => UB
    | S fuel =>
        pool ← store pool (i - 1) (padd base off);
        tag ← load data off;
        let i := if is_wide tag then i + 1 else i in
        n ← javaGetTagLength (drop (Z.to_nat off) data);
        read_pool fuel data base count (i + 1) (off + n) pool
    end
  else Def (pool, off).

(** The loops over fields and methods: [size] is the length of one. *)
Fixpoint read_table (size : list Z -> ub Z) (n : nat) (data : list Z) (base : ptr) (i off : Z)
    (a : list (option ptr)) : ub (list (option ptr) * Z) :=
  match n with
  | O => Def (a, off)
  | S n =>
      a ← store a i (padd base off);
      len ← size (drop (Z.to_nat off) data);
      read_table size n data base (i + 1) (off + len) a
  end.

Definition field_length (addr : list Z) : ub Z :=
  n ← getAttributesLength (drop 6 addr); Def (u32 (n + 6)).
Definition attribute_length (addr : list Z) : ub Z :=
  n ← be32 addr 2; Def (u32 (n + 6)).

(** [appview_calloc] of [n] pointers: all NULL. *)
Definition calloc (n : Z) : list (option ptr) := replicate (Z.to_nat n) None.

(** [ok]: the class record could be allocated. *)
Definition javaReadClass (ok : bool) (m : mem) (classData : ptr) : ub (option java_class_t) :=
  if negb ok then Def None else
  let data := view m classData in
  head ← bytes data 4;
  if negb (bool_decide (head = magic)) then Def None else
  minor ← be16 data 4;
  major ← be16 data 6;
  cpc ← be16 data 8;
  '(pool, off) ← read_pool (Z.to_nat cpc) data classData cpc 1 10 (calloc (100 + (cpc - 1)));
  access ← be16 data off;
  this ← be16 data (off + 2);
  super ← be16 data (off + 4);
  ic ← be16 data (off + 6);
  let ifs := padd classData (off + 8) in
  let off := off + 8 + ic * 2 in
  fc ← be16 data off;
  '(fs, off) ← read_table field_length (Z.to_nat fc) data classData 0 (off + 2) (calloc (100 + fc));
  mc ← be16 data off;
  '(ms, off) ← read_table javaGetMethodLength (Z.to_nat mc) data classData 0 (off + 2)
                 (calloc (100 + mc));
  ac ← be16 data off;
  '(ats, off) ← read_table attribute_length (Z.to_nat ac) data classData 0 (off + 2) (calloc ac);
  Def (Some (mkClass minor major cpc pool access this super ic ifs fc fs mc ms ac ats (u32 off) cpc mc)).

(** ** Searching *)

Fixpoint find_class_loop (fuel : nat) (m : mem) (info : java_class_t) (className : list Z) (i : Z)
  : ub Z :=
  if i <? constant_pool_count info then
    match fuel with
    | O => UB
    | S fuel =>
        cp_info ← cell (constant_pool info) (i - 1);
        tag ← load (view m cp_info) 0;
        if tag =? CONSTANT_Class then
          name_index ← be16 (view m cp_info) 1;
          name ← javaGetUtf8String m info name_index;
          if bool_decide (name = className) then Def i
          else find_class_loop fuel m info className (i + 1)
        else find_class_loop fuel m info className (i + 1)
    end
  else Def (-1).

Definition javaFindClassIndex (m : mem) (info : java_class_t) (className : list Z) : ub Z :=
  find_class_loop (Z.to_nat (constant_pool_count info)) m info className 1.

Fixpoint find_method_loop (n : nat) (m : mem) (info : java_class_t) (method signature : list Z)
    (i : Z) : ub Z :=
  match n with
  | O => Def (-1)
  | S n =>
      addr ← cell (methods info) i;
      name_index ← be16 (view m addr) 2;
      descriptor_index ← be16 (view m addr) 4;
      method_name ← javaGetUtf8String m info name_index;
      method_desc ← javaGetUtf8String m info descriptor_index;
      if bool_decide (method = method_name) && bool_decide (signature = method_desc) then Def i
      else find_method_loop n m info method signature (i + 1)
  end.

Definition javaFindMethodIndex (m : mem) (info : java_class_t) (method signature : list Z) : ub Z :=
  find_method_loop (Z.to_nat (methods_count info)) m info method signature 0.

Fixpoint code_attribute_loop (n : nat) (m : mem) (info : java_class_t) (method : ptr) (off : Z)
  : ub (option ptr) :=
  match n with
  | O => Def None
  | S n =>
      attr_name_index ← be16 (view m method) off;
      attr_length ← be32 (view m method) (off + 2);
      attr_name ← javaGetUtf8String m info attr_name_index;
      if bool_decide (attr_name = bytes_of "Code") then Def (Some (padd method off))
      else code_attribute_loop n m info method (off + u32 (attr_length + 6))
  end.

Definition getCodeAttributeAddress (m : mem) (info : java_class_t) (method : ptr) : ub (option ptr) :=
  attributes_count ← be16 (view m method) 6;
  code_attribute_loop (Z.to_nat attributes_count) m info method 8.

(** ** Changing *)

Section Alloc.
(** The contents of new blocks. *)
Variable fill : nat -> Z -> Z.

Definition malloc (m : mem) (n : Z) : ptr * mem :=
  ((next m, 0), mkMem (S (next m)) (<[next m := fill (next m) <$> seqZ 0 n]> (blocks m))).

Definition addTag (info : java_class_t) (tag : ptr) : ub (java_class_t * Z) :=
  let idx := u16 (constant_pool_count info - 1) in
  pool ← store (constant_pool info) idx tag;
  Def (set_pool info (u16 (constant_pool_count info + 1)) pool, u16 (idx + 1)).

Definition addUtf8Tag (m : mem) (info : java_class_t) (str : list Z) : ub (mem * java_class_t * Z) :=
  let len := Z.of_nat (length str) in
  let bufsize := len + 3 in
  let '(utf8Tag, m) := malloc m bufsize in
  m ← poke m utf8Tag [CONSTANT_Utf8];
  m ← poke m (padd utf8Tag 1) (htobe16 len);
  m ← poke m (padd utf8Tag 3) str;
  '(info, idx) ← addTag (add_length info bufsize) utf8Tag;
  Def (m, info, idx).

Definition javaAddNameAndTypeTag (m : mem) (info : java_class_t) (name desc : list Z)
  : ub (mem * java_class_t * Z) :=
  '(m, info, nameIndex) ← addUtf8Tag m info name;
  '(m, info, descIndex) ← addUtf8Tag m info desc;
  let '(tag, m) := malloc m 5 in
  m ← poke m tag [CONSTANT_NameAndType];
  m ← poke m (padd tag 1) (htobe16 nameIndex);
  m ← poke m (padd tag 3) (htobe16 descIndex);
  '(info, idx) ← addTag (add_length info 5) tag;
  Def (m, info, idx).

Definition javaAddMethodRefTag (m : mem) (info : java_class_t) (classIndex nameAndTypeIndex : Z)
  : ub (mem * java_class_t * Z) :=
  let '(tag, m) := malloc m 5 in
  m ← poke m tag [CONSTANT_Methodref];
  m ← poke m (padd tag 1) (htobe16 classIndex);
  m ← poke m (padd tag 3) (htobe16 nameAndTypeIndex);
  '(info, idx) ← addTag (add_length info 5) tag;
  Def (m, info, idx).

Definition javaAddStringTag (m : mem) (info : java_class_t) (str : list Z)
  : ub (mem * java_class_t * Z) :=
  '(m, info, idx) ← addUtf8Tag m info str;
  let '(tag, m) := malloc m 3 in
  m ← poke m tag [CONSTANT_String];
  m ← poke m (padd tag 1) (htobe16 idx);
  '(info, idx) ← addTag info tag;
  Def (m, info, idx).

Definition javaCopyMethod (m : mem) (info : java_class_t) (method : ptr) (newName : list Z)
  : ub (mem * java_class_t) :=
  len ← javaGetMethodLength (view m method);
  let '(dest, m) := malloc m len in
  src ← bytes (view m method) len;
  m ← poke m dest src;
  '(m, info, nameIndex) ← addUtf8Tag m info newName;
  m ← poke m (padd dest 2) (htobe16 nameIndex);
  let n := u16 (methods_count info + 1) in
  ms ← store (methods info) (n - 1) dest;
  Def (m, add_length (set_methods info n ms) len).

Definition javaConvertMethodToNative (m : mem) (info : java_class_t) (methodIndex : Z)
  : ub (mem * java_class_t * ptr) :=
  methodAddr ← cell (methods info) methodIndex;
  len ← javaGetMethodLength (view m methodAddr);
  let '(addr, m) := malloc m 8 in
  ms ← store (methods info) methodIndex addr;
  src ← bytes (view m methodAddr) 8;
  m ← poke m addr src;
  accessFlags ← be16 (view m methodAddr) 0;
  m ← poke m addr (htobe16 (Z.lor accessFlags ACC_NATIVE));
  m ← poke m (padd addr 6) (htobe16 0);
  Def (m, add_length (set_methods info (methods_count info) ms) (8 - len), addr).

(** [code] is the buffer and its length [codeLen] (a NULL buffer has none). *)
Definition javaAddMethod (m : mem) (info : java_class_t) (name descriptor : list Z)
    (accessFlags maxStack maxLocals : Z) (code : option (list Z)) : ub (mem * java_class_t) :=
  let codeLen := match code with Some c => Z.of_nat (length c) | None => 0 end in
  let codeAttrLen := match code with Some _ => 12 + codeLen | None => 0 end in
  let bufsize := match code with Some _ => 8 + 2 + 4 + codeAttrLen | None => 8 end in
  let '(addr, m) := malloc m bufsize in
  let n := u16 (methods_count info + 1) in
  ms ← store (methods info) (n - 1) addr;
  let info := set_methods info n ms in
  '(m, info, nameIndex) ← addUtf8Tag m info name;
  '(m, info, descriptorIndex) ← addUtf8Tag m info descriptor;
  '(m, info, codeNameIndex) ←
    match code with
    | Some _ => addUtf8Tag m info (bytes_of "Code")
    | None => Def (m, info, 0)
    end;
  let attrCount := match code with Some _ => 1 | None => 0 end in
  s ← emits (m, addr) [htobe16 accessFlags; htobe16 nameIndex; htobe16 descriptorIndex;
                       htobe16 attrCount];
  s ← match code with
      | Some c => emits s [htobe16 codeNameIndex; htobe32 codeAttrLen; htobe16 maxStack;
                           htobe16 maxLocals; htobe32 codeLen; c; htobe16 0; htobe16 0]
      | None => Def s
      end;
  Def (fst s, add_length info bufsize).

Definition javaAddField (m : mem) (info : java_class_t) (name descriptor : list Z) (accessFlags : Z)
  : ub (mem * java_class_t) :=
  '(m, info, nameIndex) ← addUtf8Tag m info name;
  '(m, info, descriptorIndex) ← addUtf8Tag m info descriptor;
  let '(buf, m) := malloc m 8 in
  let n := u16 (fields_count info + 1) in
  fs ← store (fields info) (n - 1) buf;
  let info := add_length (set_fields info n fs) 8 in
  s ← emits (m, buf) [htobe16 accessFlags; htobe16 nameIndex; htobe16 descriptorIndex; htobe16 0];
  Def (fst s, info).

(** The code of a method is overwritten in place. *)
Definition javaInjectCode (m : mem) (info : java_class_t) (method : ptr) (code : list Z) : ub mem :=
  codeAttr ← getCodeAttributeAddress m info method;
  match codeAttr with
  | None => UB
  | Some a =>
      codeLen ← be32 (view m a) 10;
      m ← poke m (padd a 14) (replicate (Z.to_nat (u32 (codeLen - 1))) 0);
      poke m (padd a 14) code
  end.

(** ** Writing *)

Fixpoint write_pool (fuel : nat) (s : mem * ptr) (info : java_class_t) (i : Z) : ub (mem * ptr) :=
  if i <? constant_pool_count info - 1 then
    match fuel with
    | O => UB
    | S fuel =>
        cp ← cell (constant_pool info) i;
        tag ← load (view (fst s) cp) 0;
        size ← javaGetTagLength (view (fst s) cp);
        bs ← bytes (view (fst s) cp) size;
        s ← emit s bs;
        let i := if is_wide tag then i + 1 else i in
        write_pool fuel s info (i + 1)
    end
  else Def s.

Fixpoint write_table (size : list Z -> ub Z) (n : nat) (s : mem * ptr) (a : list (option ptr)) (i : Z)
  : ub (mem * ptr) :=
  match n with
  | O => Def s
  | S n =>
      p ← cell a i;
      len ← size (view (fst s) p);
      bs ← bytes (view (fst s) p) len;
      s ← emit s bs;
      write_table size n s a (i + 1)
  end.

Definition javaWriteClass (m : mem) (dest : ptr) (info : java_class_t) : ub mem :=
  s ← emits (m, dest) [magic; htobe16 (minor_version info); htobe16 (major_version info);
                       htobe16 (constant_pool_count info)];
  s ← write_pool (Z.to_nat (constant_pool_count info)) s info 0;
  s ← emits s [htobe16 (access_flags info); htobe16 (this_class info); htobe16 (super_class info);
               htobe16 (interfaces_count info)];
  ifs ← bytes (view (fst s) (interfaces info)) (interfaces_count info * 2);
  s ← emit s ifs;
  s ← emit s (htobe16 (fields_count info));
  s ← write_table field_length (Z.to_nat (fields_count info)) s (fields info) 0;
  s ← emit s (htobe16 (methods_count info));
  s ← write_table javaGetMethodLength (Z.to_nat (methods_count info)) s (methods info) 0;
  s ← emit s (htobe16 (attributes_count info));
  s ← write_table attribute_length (Z.to_nat (attributes_count info)) s (attributes info) 0;
  Def (fst s).

(** ** Releasing *)

(** [free(p)] *)
Definition release (m : mem) (p : ptr) : ub mem :=
  if (snd p =? 0) && bool_decide (is_Some (blocks m !! fst p))
  then Def (mkMem (next m) (delete (fst p) (blocks m))) else UB.

Fixpoint release_from (n : nat) (m : mem) (a : list (option ptr)) (i : Z) : ub mem :=
  match n with
  | O => Def m
  | S n => p ← cell a i; m ← release m p; release_from n m a (i + 1)
  end.

(** The blocks of added constants and methods are released.  The four pointer
    arrays and the record itself, which the code frees last, are values here and
    not blocks of the memory, so their release is not part of the model. *)
Definition javaDestroy (m : mem) (info : java_class_t) : ub mem :=
  m ← release_from (Z.to_nat (constant_pool_count info - constant_pool_count0 info)) m
        (constant_pool info) (constant_pool_count0 info - 1);
  release_from (Z.to_nat (methods_count info - methods_count0 info)) m (methods info)
    (methods_count0 info).

(** ** The class load hook (javaagent.c, with SSL > 0) *)

(** Copy a method to a new name and make the original native. *)
Definition hook_method (m : mem) (info : java_class_t) (method signature newName : string)
  : ub (option (mem * java_class_t)) :=
  methodIndex ← javaFindMethodIndex m info (bytes_of method) (bytes_of signature);
  if methodIndex =? -1 then Def None else
  p ← cell (methods info) methodIndex;
  '(m, info) ← javaCopyMethod m info p (bytes_of newName);
  '(m, info, _) ← javaConvertMethodToNative m info methodIndex;
  Def (Some (m, info)).

(** Allocate the buffer of the new class (which the virtual machine provides),
    write it and release the class record. *)
Definition install (m : mem) (info : java_class_t) : ub (mem * option (ptr * Z)) :=
  let '(dest, m) := malloc m (class_length info) in
  m ← javaWriteClass m dest info;
  m ← javaDestroy m info;
  Def (m, Some (dest, class_length info)).

Definition give_back (m : mem) (info : java_class_t) : ub (mem * option (ptr * Z)) :=
  m ← javaDestroy m info; Def (m, None).

(** The hooks of a class, by its name: the methods to wrap, or the field to add. *)
Inductive rewriting := Wrap (l : list (string * string * string)) | NewField (name desc : string).

Definition AppOutputStream : list string :=
  ["sun/security/ssl/AppOutputStream"; "com/sun/net/ssl/internal/ssl/AppOutputStream";
   "sun/security/ssl/SSLSocketImpl$AppOutputStream"]%string.
Definition AppInputStream : list string :=
  ["sun/security/ssl/AppInputStream"; "com/sun/net/ssl/internal/ssl/AppInputStream";
   "sun/security/ssl/SSLSocketImpl$AppInputStream"]%string.
Definition SSLEngineImpl : list string :=
  ["sun/security/ssl/SSLEngineImpl"; "com/sun/net/ssl/internal/ssl/SSLEngineImpl"]%string.
Definition SocketChannelImpl : list string := ["sun/nio/ch/SocketChannelImpl"]%string.
Definition DirectByteBuffer : list string :=
  ["java/nio/DirectByteBuffer"; "java/nio/DirectByteBufferR"]%string.

Definition rewriting_of (name : string) : option rewriting :=
  if bool_decide (name ∈ AppOutputStream) then Some (Wrap [("write", "([BII)V", "__write")])%string
  else if bool_decide (name ∈ AppInputStream) then Some (Wrap [("read", "([BII)I", "__read")])%string
  else if bool_decide (name ∈ SSLEngineImpl) then
    Some (Wrap
      [("wrap", "([Ljava/nio/ByteBuffer;IILjava/nio/ByteBuffer;)Ljavax/net/ssl/SSLEngineResult;",
        "__wrap");
       ("unwrap", "(Ljava/nio/ByteBuffer;[Ljava/nio/ByteBuffer;II)Ljavax/net/ssl/SSLEngineResult;",
        "__unwrap")])%string
  else if bool_decide (name ∈ SocketChannelImpl) then
    Some (Wrap [("read", "(Ljava/nio/ByteBuffer;)I", "__read");
                ("write", "(Ljava/nio/ByteBuffer;)I", "__write")])%string
  else if bool_decide (name ∈ DirectByteBuffer) then Some (NewField "__fd" "I")
  else None.

Fixpoint hook_methods (l : list (string * string * string)) (m : mem) (info : java_class_t)
  : ub (mem * option (ptr * Z)) :=
  match l with
  | [] => install m info
  | (method, signature, newName) :: l =>
      r ← hook_method m info method signature newName;
      match r with
      | None => give_back m info
      | Some (m, info) => hook_methods l m info
      end
  end.

(** [new_class_data] and [new_class_data_len], when they are set. *)
Definition ClassFileLoadHook (ok : bool) (m : mem) (name : option string) (class_data : ptr)
  : ub (mem * option (ptr * Z)) :=
  match name with
  | None => Def (m, None)
  | Some name =>
      match rewriting_of name with
      | None => Def (m, None)
      | Some r =>
          c ← javaReadClass ok m class_data;
          match c with
          | None => UB      (* the result is used unchecked *)
          | Some info =>
              match r with
              | Wrap l => hook_methods l m info
              | NewField f d =>
                  '(m, info) ← javaAddField m info (bytes_of f) (bytes_of d) ACC_PRIVATE;
                  install m info
              end
          end
      end
  end.

End Alloc.

End JavaBci.
