(* ===== verification/JavaClass.v ===== *)
(** * Properties of the class file rewriting

    An abstract class file with its encoding, the relation between it and the
    pointer tables of [JavaBci], and that reading and writing implement it. *)

From S2P Require Import Prelude JavaBci.
Import JavaBci.

Module JavaClass.

#[local] Notation "'zlen' l" := (Z.of_nat (length l)) (at level 10, l at level 9).

(** ** Specification: class files *)

(** A constant: a string, or a tag with its fixed-size payload. *)
Inductive const := Utf8 (s : list Z) | Const (tag : Z) (payload : list Z).

(** Payload sizes of the Java virtual machine specification (4.4). *)
Definition payload_size (tag : Z) : option nat :=
  match tag with
  | 3 | 4 | 9 | 10 | 11 | 12 | 17 | 18 => Some 4%nat
  | 5 | 6 => Some 8%nat
  | 7 | 8 | 16 | 19 | 20 => Some 2%nat
  | 15 => Some 3%nat
  | _ => None
  end.

Record attr := mkAttr { a_name : Z; a_data : list Z }.
Record member := mkMember { m_access : Z; m_name : Z; m_desc : Z; m_attrs : list attr }.
Record class_file := mkFile {
  c_minor : Z; c_major : Z; c_pool : list const;
  c_access : Z; c_this : Z; c_super : Z; c_interfaces : list Z;
  c_fields : list member; c_methods : list member; c_attrs : list attr;
}.

Definition enc_const (k : const) : list Z :=
  match k with Utf8 s => 1 :: htobe16 (zlen s) ++ s | Const t p => t :: p end.
Definition enc_attr (a : attr) : list Z :=
  htobe16 (a_name a) ++ htobe32 (zlen (a_data a)) ++ a_data a.
Definition enc_attrs (l : list attr) : list Z := htobe16 (zlen l) ++ concat (map enc_attr l).
Definition enc_member (x : member) : list Z :=
  htobe16 (m_access x) ++ htobe16 (m_name x) ++ htobe16 (m_desc x) ++ enc_attrs (m_attrs x).
Definition enc_members (l : list member) : list Z := htobe16 (zlen l) ++ concat (map enc_member l).

(** A long or double constant takes two indices. *)
Definition width (k : const) : nat :=
  match k with Const t _ => if is_wide t then 2%nat else 1%nat | _ => 1%nat end.
Definition slots (l : list const) : nat := sum_list (map width l).

Definition enc_body (c : class_file) : list Z :=
  htobe16 (c_minor c) ++ htobe16 (c_major c) ++ htobe16 (1 + Z.of_nat (slots (c_pool c)))
  ++ concat (map enc_const (c_pool c))
  ++ htobe16 (c_access c) ++ htobe16 (c_this c) ++ htobe16 (c_super c)
  ++ htobe16 (zlen (c_interfaces c)) ++ concat (map htobe16 (c_interfaces c))
  ++ enc_members (c_fields c) ++ enc_members (c_methods c) ++ enc_attrs (c_attrs c).
Definition enc_class (c : class_file) : list Z := magic ++ enc_body c.

Definition is16 (z : Z) : Prop := 0 <= z < 2 ^ 16.

(** [javaGetTagLength] keeps the size of a constant in 16 bits. *)
Definition wf_const (k : const) : Prop :=
  match k with Utf8 s => zlen s < 65533 | Const t p => payload_size t = Some (length p) end.
Definition wf_attr (a : attr) : Prop := is16 (a_name a) /\ zlen (a_data a) < 2 ^ 32 - 6.
Definition wf_member (x : member) : Prop :=
  is16 (m_access x) /\ is16 (m_name x) /\ is16 (m_desc x) /\ is16 (zlen (m_attrs x)) /\
  Forall wf_attr (m_attrs x) /\ zlen (enc_member x) < 2 ^ 32.
Record wf_class (c : class_file) : Prop := {
  wc_minor : is16 (c_minor c); wc_major : is16 (c_major c);
  wc_pool : Forall wf_const (c_pool c); wc_slots : 1 + Z.of_nat (slots (c_pool c)) < 2 ^ 16;
  wc_access : is16 (c_access c); wc_this : is16 (c_this c); wc_super : is16 (c_super c);
  wc_interfaces : is16 (zlen (c_interfaces c));
  wc_fields : Forall wf_member (c_fields c); wc_nfields : is16 (zlen (c_fields c));
  wc_methods : Forall wf_member (c_methods c); wc_nmethods : is16 (zlen (c_methods c));
  wc_attrs : Forall wf_attr (c_attrs c); wc_nattrs : is16 (zlen (c_attrs c));
  wc_length : zlen (enc_class c) < 2 ^ 32;
}.

(** ** Reading bytes *)

(** The bytes from offset [off] on. *)
Definition from (data : list Z) (off : Z) : list Z := drop (Z.to_nat off) data.

Lemma load_from data off : 0 <= off -> load data off = load (from data off) 0.
Proof. apply load_drop. Qed.

Lemma from_from data a b : 0 <= a -> 0 <= b -> from (from data a) b = from data (a + b).
Proof. intros. unfold from. rewrite drop_drop. f_equal. lia. Qed.

Lemma from_app data off a b :
  0 <= off -> from data off = a ++ b -> from data (off + zlen a) = b.
Proof. apply drop_next. Qed.

Lemma be16_from data off : 0 <= off -> be16 data off = be16 (from data off) 0.
Proof.
  intros H. unfold be16. rewrite (load_from data off) by done.
  rewrite (load_from data (off + 1)), (load_from (from data off) (0 + 1)), from_from by lia.
  by rewrite Z.add_0_l.
Qed.

Lemma be32_from data off : 0 <= off -> be32 data off = be32 (from data off) 0.
Proof.
  intros H. unfold be32. rewrite (be16_from data off) by done.
  rewrite (be16_from data (off + 2)), (be16_from (from data off) (0 + 2)), from_from by lia.
  by rewrite Z.add_0_l.
Qed.

Lemma length_htobe16 z : length (htobe16 z) = 2%nat.
Proof. done. Qed.
Lemma length_htobe32 z : length (htobe32 z) = 4%nat.
Proof. done. Qed.

Lemma be16_cons a b rest : be16 (a :: b :: rest) 0 = Def (a * 256 + b).
Proof. unfold be16. by rewrite !load_ok by (cbn [length]; lia). Qed.

Lemma be16_htobe16 z rest : is16 z -> be16 (htobe16 z ++ rest) 0 = Def z.
Proof.
  intros H. unfold htobe16. cbn [app]. rewrite be16_cons. unfold u16.
  rewrite Z.mod_small by (unfold is16 in H; lia). f_equal. pose proof (Z.div_mod z 256 ltac:(lia)). lia.
Qed.

Lemma be32_htobe32 z rest : 0 <= z < 2 ^ 32 -> be32 (htobe32 z ++ rest) 0 = Def z.
Proof.
  intros H. unfold be32, htobe32. rewrite u32_small by done. rewrite <- app_assoc.
  rewrite be16_htobe16 by (unfold is16; split; [apply Z.div_pos; lia|apply Z.div_lt_upper_bound; lia]).
  cbn [mbind ub_bind]. rewrite be16_from by lia.
  change (from _ (0 + 2)) with (htobe16 z ++ rest). unfold htobe16. cbn [app].
  rewrite be16_cons. cbn [mbind ub_bind]. unfold u16. f_equal.
  pose proof (Z.div_mod z 65536 ltac:(lia)). pose proof (Z.div_mod (z mod 2 ^ 16) 256 ltac:(lia)).
  change (2 ^ 16) with 65536 in *. lia.
Qed.

(** A 16-bit value at an offset. *)
Lemma be16_at data off z rest :
  0 <= off -> from data off = htobe16 z ++ rest -> is16 z -> be16 data off = Def z.
Proof. intros H E W. rewrite be16_from, E by done. by apply be16_htobe16. Qed.

Lemma be32_at data off z rest :
  0 <= off -> from data off = htobe32 z ++ rest -> 0 <= z < 2 ^ 32 -> be32 data off = Def z.
Proof. intros H E W. rewrite be32_from, E by done. by apply be32_htobe32. Qed.

Lemma bytes_app a b : bytes (a ++ b) (zlen a) = Def a.
Proof.
  unfold bytes. rewrite length_app. rewrite !(proj2 (Z.leb_le _ _)) by lia. cbn.
  by rewrite Nat2Z.id, take_app_length.
Qed.

(** ** Sizes of the parts *)

(** [size] computes the length of [bs] from its bytes. *)
Definition sized (size : list Z -> ub Z) (bs : list Z) : Prop :=
  forall rest, size (bs ++ rest) = Def (zlen bs).

Lemma length_enc_attr a : zlen (enc_attr a) = zlen (a_data a) + 6.
Proof. unfold enc_attr. rewrite !length_app, length_htobe16, length_htobe32. lia. Qed.

(** The length field of an attribute. *)
Lemma attr_length_at data off a rest :
  0 <= off -> from data off = enc_attr a ++ rest -> wf_attr a ->
  be32 data (off + 2) = Def (zlen (a_data a)).
Proof.
  intros H E [_ W]. eapply be32_at; [lia| |lia].
  change 2 with (zlen (htobe16 (a_name a))). apply from_app; [done|].
  rewrite E. unfold enc_attr. rewrite <- !app_assoc. reflexivity.
Qed.

Lemma attribute_sized a : wf_attr a -> sized attribute_length (enc_attr a).
Proof.
  intros W rest. unfold attribute_length. rewrite (attr_length_at _ 0 a rest) by done.
  cbn [mbind ub_bind]. rewrite length_enc_attr, u32_small; [done|]. destruct W. lia.
Qed.

Lemma attributes_loop_spec ats : forall data off rest,
  0 <= off -> from data off = concat (map enc_attr ats) ++ rest -> Forall wf_attr ats ->
  attributes_loop (length ats) data off = Def (off + zlen (concat (map enc_attr ats))).
Proof.
  induction ats as [|a ats IH]; intros data off rest H E W; cbn [length attributes_loop map concat].
  - by rewrite Z.add_0_r.
  - inversion W as [|?? Wa Ws]; subst. cbn [map concat] in E. rewrite <- app_assoc in E.
    rewrite (attr_length_at _ _ _ _ H E Wa). cbn [mbind ub_bind].
    rewrite u32_small by (destruct Wa; lia). rewrite <- length_enc_attr.
    erewrite IH; [|lia|by apply from_app|done]. f_equal. rewrite length_app. lia.
Qed.

Lemma getAttributesLength_spec ats rest :
  Forall wf_attr ats -> is16 (zlen ats) ->
  getAttributesLength (enc_attrs ats ++ rest) = Def (u32 (zlen (enc_attrs ats))).
Proof.
  intros W H. unfold getAttributesLength, enc_attrs. rewrite <- app_assoc.
  rewrite be16_htobe16 by done. cbn [mbind ub_bind]. rewrite Nat2Z.id.
  erewrite attributes_loop_spec; [|lia| |done].
  - cbn [mbind ub_bind]. rewrite length_app, length_htobe16. do 2 f_equal. lia.
  - reflexivity.
Qed.

Lemma length_enc_member x : zlen (enc_member x) = 6 + zlen (enc_attrs (m_attrs x)).
Proof. unfold enc_member. rewrite !length_app, !length_htobe16. lia. Qed.

Lemma drop6_member x rest : drop 6 (enc_member x ++ rest) = enc_attrs (m_attrs x) ++ rest.
Proof. reflexivity. Qed.

Lemma member_sized x : wf_member x -> sized javaGetMethodLength (enc_member x).
Proof.
  intros (_ & _ & _ & Hn & Ha & Hl) rest. unfold javaGetMethodLength.
  rewrite drop6_member, getAttributesLength_spec by done. cbn [mbind ub_bind].
  rewrite length_enc_member in *. rewrite (u32_small (zlen (enc_attrs (m_attrs x)))) by lia.
  rewrite u32_small by lia. f_equal. lia.
Qed.

Lemma const_sized k : wf_const k -> sized javaGetTagLength (enc_const k).
Proof.
  intros W rest. unfold javaGetTagLength. destruct k as [s|t p]; cbn [enc_const].
  - change (load _ 0) with (@Def Z 1). cbn [mbind ub_bind]. change (1 =? CONSTANT_Utf8) with true.
    cbn [wf_const] in W.
    rewrite (be16_at _ 1 (zlen s) (s ++ rest)); [|lia|reflexivity|unfold is16; lia].
    cbn [mbind ub_bind]. unfold u16. rewrite Z.mod_small by lia.
    cbn [length]. rewrite length_app, length_htobe16. f_equal. lia.
  - change (load ((t :: p) ++ rest) 0) with (@Def Z t). cbn [mbind ub_bind]. cbn [wf_const] in W.
    assert (t ∈ [3; 4; 5; 6; 7; 8; 9; 10; 11; 12; 15; 16; 17; 18; 19; 20]) as Ht
      by (unfold payload_size in W; repeat case_match; set_solver).
    cbn [length]. repeat (apply elem_of_cons in Ht as [->|Ht]; [by injection W as <-|]).
    by apply elem_of_nil in Ht.
Qed.

(** ** Pointers and tables *)

(** [p] points at the bytes [bs]. *)
Definition points (B : gmap nat (list Z)) (p : ptr) (bs : list Z) : Prop :=
  0 <= snd p /\ exists rest, drop (Z.to_nat (snd p)) (default [] (B !! fst p)) = bs ++ rest.

(** The cells of [a] from [i] on point at [items]. *)
Definition table (B : gmap nat (list Z)) (i : nat) (items : list (list Z)) (a : list (option ptr)) : Prop :=
  forall j bs, items !! j = Some bs -> exists p, a !! (i + j)%nat = Some (Some p) /\ points B p bs.

(** The cells of the constant pool: a wide constant is followed by an unused one. *)
Fixpoint pool_at (B : gmap nat (list Z)) (i : nat) (ks : list const) (a : list (option ptr)) : Prop :=
  match ks with
  | [] => True
  | k :: ks => (exists p, a !! i = Some (Some p) /\ points B p (enc_const k)) /\
               pool_at B (i + width k) ks a
  end.

Lemma points_view m p bs : points (blocks m) p bs -> exists rest, view m p = bs ++ rest.
Proof. by intros [_ H]. Qed.

Lemma table_cons B i x items a :
  table B i (x :: items) a <->
  (exists p, a !! i = Some (Some p) /\ points B p x) /\ table B (S i) items a.
Proof.
  split.
  - intros H. split.
    + destruct (H 0%nat x eq_refl) as (p & E & P). rewrite Nat.add_0_r in E. eauto.
    + intros j bs E. destruct (H (S j) bs E) as (p & E' & P). rewrite Nat.add_succ_r in E'. eauto.
  - intros [(p & E & P) H] [|j] bs Ej; cbn in Ej.
    + simplify_eq. rewrite Nat.add_0_r. eauto.
    + rewrite Nat.add_succ_r. by apply H.
Qed.

Lemma store_ok a i p :
  (i < length a)%nat -> store a (Z.of_nat i) p = Def (<[i := Some p]> a).
Proof.
  intros H. unfold store. rewrite (proj2 (Z.leb_le _ _)), (proj2 (Z.ltb_lt _ _)) by lia.
  by rewrite Nat2Z.id.
Qed.

Lemma cell_ok a i p : a !! i = Some (Some p) -> cell a (Z.of_nat i) = Def p.
Proof.
  intros H. unfold cell. destruct (Z.ltb_spec (Z.of_nat i) 0); [lia|]. by rewrite Nat2Z.id, H.
Qed.

Section Reading.
(** The class data: [data] are the bytes from [base] on. *)
Variables (B : gmap nat (list Z)) (base : ptr) (data : list Z).
Hypothesis Hbase : 0 <= snd base.
Hypothesis Hdata : drop (Z.to_nat (snd base)) (default [] (B !! fst base)) = data.

Lemma points_from off bs rest :
  0 <= off -> from data off = bs ++ rest -> points B (padd base off) bs.
Proof.
  intros H E. split; cbn; [lia|]. exists rest. rewrite <- E, <- Hdata. unfold from.
  rewrite drop_drop. f_equal. lia.
Qed.

Lemma read_table_spec size items : forall i off a rest,
  Forall (sized size) items -> 0 <= off -> from data off = concat items ++ rest ->
  (i + length items <= length a)%nat ->
  exists a', read_table size (length items) data base (Z.of_nat i) off a =
               Def (a', off + zlen (concat items)) /\
    length a' = length a /\ (forall j, (j < i)%nat -> a' !! j = a !! j) /\ table B i items a'.
Proof.
  induction items as [|x items IH]; intros i off a rest W H E L; cbn [length read_table concat] in *.
  - exists a. rewrite Z.add_0_r. split_and!; try done.
  - apply Forall_cons in W as [Wx Ws]. rewrite <- app_assoc in E.
    rewrite store_ok by lia. cbn [mbind ub_bind].
    assert (Ex : size (drop (Z.to_nat off) data) = Def (zlen x))
      by (unfold from in E; rewrite E; apply Wx).
    rewrite Ex. cbn [mbind ub_bind]. replace (Z.of_nat i + 1) with (Z.of_nat (S i)) by lia.
    destruct (IH (S i) (off + zlen x) (<[i := Some (padd base off)]> a) rest) as (a' & -> & L' & K & T);
      [done|lia|by apply from_app|rewrite length_insert; lia|].
    exists a'. rewrite length_insert in L'. split_and!; [|done| |].
    + do 2 f_equal. rewrite length_app. lia.
    + intros j Hj. rewrite K by lia. by rewrite list_lookup_insert_ne by lia.
    + apply table_cons. split; [|done]. exists (padd base off). split.
      * rewrite K by lia. by apply list_lookup_insert_eq; lia.
      * by apply (points_from off x (concat items ++ rest)).
Qed.

Lemma enc_const_tag k rest : wf_const k ->
  exists tag, load (enc_const k ++ rest) 0 = Def tag /\ width k = (if is_wide tag then 2%nat else 1%nat).
Proof. destruct k as [s|t p]; intros W; [exists 1|exists t]; split; reflexivity. Qed.

Lemma width_pos k : (1 <= width k)%nat.
Proof. destruct k as [s|t p]; cbn; [lia|]. destruct (is_wide t); lia. Qed.

Lemma read_pool_spec ks : forall fuel i off a rest,
  Forall wf_const ks -> 0 <= off -> from data off = concat (map enc_const ks) ++ rest ->
  (i + slots ks <= length a)%nat -> (slots ks <= fuel)%nat ->
  exists a', read_pool fuel data base (Z.of_nat (i + slots ks) + 1) (Z.of_nat i + 1) off a =
               Def (a', off + zlen (concat (map enc_const ks))) /\
    length a' = length a /\ (forall j, (j < i)%nat -> a' !! j = a !! j) /\ pool_at B i ks a'.
Proof.
  induction ks as [|k ks IH]; intros fuel i off a rest W H E L F.
  - exists a. cbn [slots map sum_list foldr]. destruct fuel; cbn [read_pool];
      (destruct (Z.ltb_spec (Z.of_nat i + 1) (Z.of_nat (i + 0) + 1)); [lia|]);
      cbn; rewrite Z.add_0_r; done.
  - apply Forall_cons in W as [Wk Ws]. cbn [map concat] in *. rewrite <- app_assoc in E.
    change (slots (k :: ks)) with (width k + slots ks)%nat in *. pose proof (width_pos k).
    destruct fuel as [|fuel]; [lia|]. cbn [read_pool].
    destruct (Z.ltb_spec (Z.of_nat i + 1) (Z.of_nat (i + (width k + slots ks)) + 1)); [|lia].
    replace (Z.of_nat i + 1 - 1) with (Z.of_nat i) by lia. rewrite store_ok by lia. cbn [mbind ub_bind].
    destruct (enc_const_tag k (concat (map enc_const ks) ++ rest) Wk) as (tag & Et & Ew).
    rewrite load_from by done. rewrite E, Et. cbn [mbind ub_bind].
    change (drop (Z.to_nat off) data) with (from data off). rewrite E, (const_sized k Wk). cbn [mbind ub_bind].
    replace ((if is_wide tag then Z.of_nat i + 1 + 1 else Z.of_nat i + 1) + 1)
      with (Z.of_nat (i + width k) + 1) by (rewrite Ew; destruct (is_wide tag); lia).
    replace (i + (width k + slots ks))%nat with (i + width k + slots ks)%nat by lia.
    destruct (IH fuel (i + width k)%nat (off + zlen (enc_const k)) (<[i := Some (padd base off)]> a) rest)
      as (a' & -> & L' & K & T); [done|lia|by apply from_app|rewrite length_insert; lia|lia|].
    exists a'. rewrite length_insert in L'. split_and!; [|done| |].
    + do 2 f_equal. rewrite length_app. lia.
    + intros j Hj. rewrite K by lia. by rewrite list_lookup_insert_ne by lia.
    + split; [|done]. exists (padd base off). split.
      * rewrite K by lia. by apply list_lookup_insert_eq; lia.
      * by apply (points_from off _ _ H E).
Qed.

End Reading.

(** ** Representation *)

(** The record [info] over the blocks [B] represents the class file [c]. *)
Record repr (B : gmap nat (list Z)) (info : java_class_t) (c : class_file) : Prop := {
  r_minor : minor_version info = c_minor c;
  r_major : major_version info = c_major c;
  r_count : constant_pool_count info = 1 + Z.of_nat (slots (c_pool c));
  r_pool : pool_at B 0 (c_pool c) (constant_pool info);
  r_access : access_flags info = c_access c;
  r_this : this_class info = c_this c;
  r_super : super_class info = c_super c;
  r_nifs : interfaces_count info = zlen (c_interfaces c);
  r_ifs : points B (interfaces info) (concat (map htobe16 (c_interfaces c)));
  r_nfields : fields_count info = zlen (c_fields c);
  r_fields : table B 0 (map enc_member (c_fields c)) (fields info);
  r_nmethods : methods_count info = zlen (c_methods c);
  r_methods : table B 0 (map enc_member (c_methods c)) (methods info);
  r_nattrs : attributes_count info = zlen (c_attrs c);
  r_attrs : table B 0 (map enc_attr (c_attrs c)) (attributes info);
  r_length : class_length info = u32 (zlen (enc_class c));
}.

(** Room for what [javaReadClass] reserves beyond the class [c0] it read. *)
Record caps (info : java_class_t) (c0 : class_file) : Prop := {
  cap_pool : length (constant_pool info) = (slots (c_pool c0) + 100)%nat;
  cap_fields : length (fields info) = (length (c_fields c0) + 100)%nat;
  cap_methods : length (methods info) = (length (c_methods c0) + 100)%nat;
}.

Lemma length_interfaces l : zlen (concat (map htobe16 l)) = zlen l * 2.
Proof. induction l as [|z l IH]; [done|]. cbn [map concat]. rewrite length_app, length_htobe16. cbn [length]. lia. Qed.

Lemma length_enc_class c :
  zlen (enc_class c) = 24 + zlen (concat (map enc_const (c_pool c))) + zlen (c_interfaces c) * 2
    + zlen (concat (map enc_member (c_fields c))) + zlen (concat (map enc_member (c_methods c)))
    + zlen (concat (map enc_attr (c_attrs c))).
Proof.
  unfold enc_class, enc_body, enc_members, enc_attrs.
  rewrite !length_app, !length_htobe16, <- length_interfaces. change (length magic) with 4%nat. lia.
Qed.

Lemma members_sized l : Forall wf_member l -> Forall (sized javaGetMethodLength) (map enc_member l).
Proof. intros W. apply Forall_map. eapply Forall_impl; [exact W|]. intros x. apply member_sized. Qed.

Lemma attrs_sized l : Forall wf_attr l -> Forall (sized attribute_length) (map enc_attr l).
Proof. intros W. apply Forall_map. eapply Forall_impl; [exact W|]. intros x. apply attribute_sized. Qed.

(** A counted table: its count, then its items. *)
Lemma read_counted B base data (size : list Z -> ub Z) items extra off rest :
  0 <= snd base -> drop (Z.to_nat (snd base)) (default [] (B !! fst base)) = data ->
  0 <= off -> from data off = htobe16 (zlen items) ++ concat items ++ rest ->
  is16 (zlen items) -> Forall (sized size) items -> 0 <= extra ->
  exists a, be16 data off = Def (zlen items) /\
    read_table size (Z.to_nat (zlen items)) data base 0 (off + 2) (calloc (extra + zlen items)) =
      Def (a, off + 2 + zlen (concat items)) /\
    length a = (Z.to_nat extra + length items)%nat /\ table B 0 items a /\
    from data (off + 2 + zlen (concat items)) = rest.
Proof.
  intros Hb Hd Ho E Hn W Hx. assert (E2 := from_app _ _ _ _ Ho E). rewrite length_htobe16 in E2.
  change (Z.of_nat 2) with 2 in E2. rewrite Nat2Z.id.
  destruct (read_table_spec B base data Hb Hd size items 0 (off + 2) (calloc (extra + zlen items)) rest)
    as (a & R & L & _ & T); [done|lia|done|unfold calloc; rewrite length_replicate; lia|].
  exists a. split_and!; [by apply (be16_at _ _ _ _ Ho E)|exact R| |done|by apply from_app; [lia|]].
  rewrite L. unfold calloc. rewrite length_replicate. lia.
Qed.

(** Read the 16-bit value that [E] shows at the next offset, then move [E] past it. *)
Ltac next16 E :=
  match type of E with
  | from ?data ?off = htobe16 ?z ++ ?r =>
      let N := fresh "N" in
      assert (N : 0 <= off) by lia;
      rewrite (be16_at data off z r N E) by (done || (unfold is16 in *; lia));
      cbn [mbind ub_bind];
      apply (from_app data off (htobe16 z) r N) in E; rewrite length_htobe16 in E; clear N
  end.

(** The offset of [E] is not negative. *)
Ltac nonneg E H := match type of E with from _ ?off = _ => assert (H : 0 <= off) by lia end.

Lemma javaReadClass_spec m p c :
  points (blocks m) p (enc_class c) -> wf_class c ->
  exists info, javaReadClass true m p = Def (Some info) /\ repr (blocks m) info c /\ caps info c /\
    constant_pool_count0 info = constant_pool_count info /\ methods_count0 info = methods_count info.
Proof.
  intros P W. destruct P as [Hp [rest Hv]]. destruct W as [].
  set (data := view m p). assert (Hd : drop (Z.to_nat (snd p)) (default [] (blocks m !! fst p)) = data) by done.
  assert (E : from data 0 = magic ++ enc_body c ++ rest) by (unfold enc_class in Hv; by rewrite <- app_assoc in Hv).
  unfold javaReadClass. cbn [negb]. fold data.
  replace (bytes data 4) with (@Def (list Z) magic).
  2:{ change data with (from data 0). rewrite E. symmetry. apply bytes_app. }
  cbn [mbind ub_bind]. rewrite bool_decide_true by done. cbn [negb].
  apply from_app in E; [|lia]. change (0 + zlen magic) with 4 in E.
  unfold enc_body, enc_members, enc_attrs in E. rewrite <- !app_assoc in E.
  next16 E. change (4 + Z.of_nat 2) with 6 in E. next16 E. change (6 + Z.of_nat 2) with 8 in E.
  next16 E. change (8 + Z.of_nat 2) with 10 in E.
  destruct (read_pool_spec (blocks m) p data Hp Hd (c_pool c) (Z.to_nat (1 + Z.of_nat (slots (c_pool c))))
    0 10 (calloc (100 + (1 + Z.of_nat (slots (c_pool c)) - 1))) _ wc_pool0 ltac:(lia) E)
    as (pool & Rp & Lp & _ & Tp).
  { unfold calloc. rewrite length_replicate. lia. } { lia. }
  cbn [Nat.add] in Rp. change (Z.of_nat 0 + 1) with 1 in Rp. rewrite (Z.add_comm _ 1) in Rp.
  rewrite Rp. clear Rp. cbn [mbind ub_bind].
  apply from_app in E; [|lia]. set (o := 10 + zlen (concat (map enc_const (c_pool c)))) in *.
  assert (0 <= o) by (subst o; lia).
  next16 E. change (Z.of_nat 2) with 2 in E. next16 E. replace (o + 2 + Z.of_nat 2) with (o + 4) in E by lia.
  next16 E. replace (o + 4 + Z.of_nat 2) with (o + 6) in E by lia.
  next16 E. replace (o + 6 + Z.of_nat 2) with (o + 8) in E by lia.
  assert (Pi := points_from (blocks m) p data Hp Hd (o + 8) _ _ ltac:(lia) E).
  apply from_app in E; [|lia]. rewrite length_interfaces in E.
  rewrite <- (length_map enc_member (c_fields c)), <- (length_map enc_member (c_methods c)),
    <- (length_map enc_attr (c_attrs c)) in E.
  nonneg E H2.
  destruct (read_counted _ _ _ field_length _ 100 _ _ Hp Hd H2 E)
    as (fs & -> & Rf & Lf & Tf & E2); [by rewrite length_map|by apply members_sized|lia|].
  cbn [mbind ub_bind]. rewrite Rf. cbn [mbind ub_bind].
  nonneg E2 H3.
  destruct (read_counted _ _ _ javaGetMethodLength _ 100 _ _ Hp Hd H3 E2)
    as (ms & -> & Rm & Lm & Tm & E3); [by rewrite length_map|by apply members_sized|lia|].
  cbn [mbind ub_bind]. rewrite Rm. cbn [mbind ub_bind].
  nonneg E3 H4.
  destruct (read_counted _ _ _ attribute_length _ 0 _ _ Hp Hd H4 E3)
    as (ats & -> & Ra & La & Ta & E4); [by rewrite length_map|by apply attrs_sized|lia|].
  cbn [mbind ub_bind]. rewrite Z.add_0_l in Ra. rewrite Ra. cbn [mbind ub_bind].
  eexists. split; [reflexivity|]. rewrite !length_map in *. split_and!; [|split|done|done]; [split|..]; try done.
  - apply (f_equal u32). rewrite length_enc_class. subst o. lia.
  - cbn [constant_pool]. rewrite Lp. unfold calloc. rewrite length_replicate. lia.
  - cbn [fields]. lia.
  - cbn [methods]. lia.
Qed.

(** ** Writing *)

Lemma points_insert B p bs b d :
  points B p bs -> B !! b = None -> points (<[b := d]> B) p bs.
Proof.
  intros [Hp [rest E]] Hb. split; [done|]. destruct (decide (fst p = b)) as [<-|Hne].
  - rewrite Hb in E. cbn in E. rewrite drop_nil in E. symmetry in E. apply app_nil in E as [-> ->].
    by eexists.
  - rewrite lookup_insert_ne by done. eauto.
Qed.

Lemma table_insert B i items a b d :
  table B i items a -> B !! b = None -> table (<[b := d]> B) i items a.
Proof. intros T Hb j bs E. destruct (T j bs E) as (p & Ep & P). eauto using points_insert. Qed.

Lemma pool_insert B ks a b d : forall i,
  pool_at B i ks a -> B !! b = None -> pool_at (<[b := d]> B) i ks a.
Proof.
  induction ks as [|k ks IH]; intros i; [done|]. intros [(p & Ep & P) T] Hb.
  split; eauto using points_insert.
Qed.

(** Overwrite what follows [pre] in block [b]. *)
Lemma poke_block n B b pre old bs :
  (length bs <= length old)%nat ->
  poke (mkMem n (<[b := pre ++ old]> B)) (b, zlen pre) bs =
  Def (mkMem n (<[b := pre ++ bs ++ drop (length bs) old]> B)).
Proof.
  intros H. unfold poke. cbn [fst snd blocks next]. rewrite lookup_insert_eq.
  rewrite memcpy_ok by (rewrite ?length_app; lia). cbn [mbind ub_bind].
  rewrite insert_insert_eq. do 3 f_equal. rewrite Nat2Z.id, take_app_length. f_equal.
  rewrite Nat2Z.id, firstn_all. f_equal.
  replace (Z.to_nat (zlen pre + zlen bs)) with (length pre + length bs)%nat by lia.
  by rewrite drop_app_add.
Qed.

Section Writing.
(** The block [b] receives [target]; the class record lives in the blocks [B]. *)
Variables (n : nat) (B : gmap nat (list Z)) (b : nat) (target : list Z).
Hypothesis Hb : B !! b = None.

(** What is written of [target], with [todo] to come. *)
Definition out (todo : list Z) (s : mem * ptr) : Prop :=
  exists pre old, s = @pair mem ptr (mkMem n (<[b := pre ++ old]> B)) (b, zlen pre) /\
    pre ++ todo = target /\ length old = length todo.

Lemma out_emit s bs todo : out (bs ++ todo) s -> exists s', emit s bs = Def s' /\ out todo s'.
Proof.
  intros (pre & old & -> & E & L). rewrite length_app in L. unfold emit. cbn [fst snd].
  rewrite poke_block by lia. cbn [mbind ub_bind]. eexists; split; [reflexivity|].
  exists (pre ++ bs), (drop (length bs) old). split_and!.
  - rewrite <- app_assoc, length_app. unfold padd. cbn [fst snd]. do 3 f_equal. lia.
  - by rewrite <- app_assoc.
  - rewrite length_drop. lia.
Qed.

Lemma out_emits l : forall s todo,
  out (concat l ++ todo) s -> exists s', emits s l = Def s' /\ out todo s'.
Proof.
  induction l as [|bs l IH]; intros s todo H; cbn [emits concat] in *; [eauto|].
  rewrite <- app_assoc in H. destruct (out_emit _ _ _ H) as (s' & -> & H'). cbn [mbind ub_bind]. by apply IH.
Qed.

(** The class record is not disturbed by the output. *)
Lemma out_view s todo p bs : out todo s -> points B p bs -> exists rest, view (fst s) p = bs ++ rest.
Proof. intros (pre & old & -> & _) P. apply points_view. by apply points_insert. Qed.

Lemma out_table size items a : Forall (sized size) items -> forall i s todo,
  table B i items a -> out (concat items ++ todo) s ->
  exists s', write_table size (length items) s a (Z.of_nat i) = Def s' /\ out todo s'.
Proof.
  intros W. induction W as [|x items Wx Ws IH]; intros i s todo T H; cbn [length write_table concat] in *;
    [eauto|].
  apply table_cons in T as [(p & Ep & P) T]. rewrite (cell_ok _ _ _ Ep). cbn [mbind ub_bind].
  destruct (out_view _ _ _ _ H P) as [rest ->]. rewrite (Wx rest). cbn [mbind ub_bind].
  rewrite bytes_app. cbn [mbind ub_bind]. rewrite <- app_assoc in H.
  destruct (out_emit _ _ _ H) as (s' & -> & H'). cbn [mbind ub_bind].
  replace (Z.of_nat i + 1) with (Z.of_nat (S i)) by lia. by apply IH.
Qed.

Lemma out_pool info ks : Forall wf_const ks -> forall fuel i s todo,
  pool_at B i ks (constant_pool info) -> (slots ks <= fuel)%nat ->
  constant_pool_count info - 1 = Z.of_nat (i + slots ks) ->
  out (concat (map enc_const ks) ++ todo) s ->
  exists s', write_pool fuel s info (Z.of_nat i) = Def s' /\ out todo s'.
Proof.
  intros W. induction W as [|k ks Wk Ws IH]; intros fuel i s todo T F Hc H.
  - cbn [slots map sum_list foldr] in *. destruct fuel; cbn [write_pool];
      (destruct (Z.ltb_spec (Z.of_nat i) (constant_pool_count info - 1)); [lia|eauto]).
  - change (slots (k :: ks)) with (width k + slots ks)%nat in *. pose proof (width_pos k).
    destruct T as [(p & Ep & P) T]. destruct fuel as [|fuel]; [lia|]. cbn [write_pool map concat] in *.
    destruct (Z.ltb_spec (Z.of_nat i) (constant_pool_count info - 1)); [|lia].
    rewrite (cell_ok _ _ _ Ep). cbn [mbind ub_bind].
    destruct (out_view _ _ _ _ H P) as [rest ->].
    destruct (enc_const_tag k rest Wk) as (tag & -> & Ew). cbn [mbind ub_bind].
    rewrite (const_sized k Wk rest). cbn [mbind ub_bind]. rewrite bytes_app. cbn [mbind ub_bind].
    rewrite <- app_assoc in H. destruct (out_emit _ _ _ H) as (s' & -> & H'). cbn [mbind ub_bind].
    replace ((if is_wide tag then Z.of_nat i + 1 else Z.of_nat i) + 1) with (Z.of_nat (i + width k))
      by (rewrite Ew; destruct (is_wide tag); lia).
    apply IH; [done|lia|lia|done].
Qed.

Lemma out_start old : length old = length target ->
  out target (@pair mem ptr (mkMem n (<[b := old]> B)) (b, 0)).
Proof. intros L. exists [], old. done. Qed.

Lemma out_done s : out [] s -> fst s = mkMem n (<[b := target]> B).
Proof.
  intros (pre & old & -> & E & L). cbn [fst]. destruct old; [|done]. rewrite app_nil_r in *. by subst.
Qed.

End Writing.

Lemma javaWriteClass_spec n B b info c old :
  repr B info c -> wf_class c -> B !! b = None -> length old = length (enc_class c) ->
  javaWriteClass (mkMem n (<[b := old]> B)) (b, 0) info = Def (mkMem n (<[b := enc_class c]> B)).
Proof.
  intros R W Hb L. destruct R, W. unfold javaWriteClass.
  rewrite r_minor0, r_major0, r_count0, r_access0, r_this0, r_super0, r_nifs0, r_nfields0, r_nmethods0,
    r_nattrs0.
  pose proof (out_start n B b (enc_class c) old L) as H.
  unfold enc_class at 2 in H. unfold enc_body, enc_members, enc_attrs in H.
  rewrite <- !app_assoc in H.
  change (magic ++ ?a ++ ?b ++ ?d ++ ?r) with (concat [magic; a; b; d] ++ r) in H.
  apply out_emits in H as (s1 & -> & H). cbn [mbind ub_bind].
  apply (out_pool n B b _ Hb info (c_pool c) wc_pool0 (Z.to_nat (1 + Z.of_nat (slots (c_pool c)))) 0)
    in H as (s2 & E2 & H); [|done|lia|lia]. change (Z.of_nat 0) with 0 in E2. rewrite E2. cbn [mbind ub_bind].
  change (htobe16 ?x ++ ?a ++ ?b ++ ?d ++ ?r) with (concat [htobe16 x; a; b; d] ++ r) in H.
  apply out_emits in H as (s3 & -> & H). cbn [mbind ub_bind].
  destruct (out_view n B b _ Hb _ _ _ _ H r_ifs0) as [rest ->].
  rewrite <- length_interfaces, bytes_app. cbn [mbind ub_bind].
  apply out_emit in H as (s4 & -> & H). cbn [mbind ub_bind].
  apply out_emit in H as (s5 & -> & H). cbn [mbind ub_bind].
  rewrite !Nat2Z.id.
  destruct (out_table n B b _ Hb field_length _ _ (members_sized _ wc_fields0) 0 _ _ r_fields0 H)
    as (s6 & E6 & H6). rewrite length_map in E6. change (Z.of_nat 0) with 0 in E6. rewrite E6.
  cbn [mbind ub_bind]. apply out_emit in H6 as (s7 & -> & H7). cbn [mbind ub_bind].
  destruct (out_table n B b _ Hb javaGetMethodLength _ _ (members_sized _ wc_methods0) 0 _ _ r_methods0 H7)
    as (s8 & E8 & H8). rewrite length_map in E8. change (Z.of_nat 0) with 0 in E8. rewrite E8.
  cbn [mbind ub_bind]. apply out_emit in H8 as (s9 & -> & H9). cbn [mbind ub_bind].
  rewrite <- (app_nil_r (concat (map enc_attr _))) in H9.
  destruct (out_table n B b _ Hb attribute_length _ _ (attrs_sized _ wc_attrs0) 0 _ _ r_attrs0 H9)
    as (s10 & E10 & H10). rewrite length_map in E10. change (Z.of_nat 0) with 0 in E10. rewrite E10.
  cbn [mbind ub_bind]. by rewrite (out_done _ _ _ _ _ H10).
Qed.

End JavaClass.
