(* ===== verification/JavaEdits.v ===== *)
(** * Editing class files and the class load hook

    The editing functions of [JavaBci] as operations on abstract class files,
    with the ownership of the blocks they allocate, and the Java agent's class
    load hook, which composes reading, editing, writing and releasing. *)

From S2P Require Import Prelude JavaBci JavaClass.
Import JavaBci JavaClass.

Module JavaEdits.

#[local] Notation "'zlen' l" := (Z.of_nat (length l)) (at level 10, l at level 9).

(** ** Edits of a class file *)

Definition add_const (c : class_file) (k : const) : class_file :=
  mkFile (c_minor c) (c_major c) (c_pool c ++ [k]) (c_access c) (c_this c) (c_super c)
    (c_interfaces c) (c_fields c) (c_methods c) (c_attrs c).
Definition with_methods (c : class_file) (l : list member) : class_file :=
  mkFile (c_minor c) (c_major c) (c_pool c) (c_access c) (c_this c) (c_super c)
    (c_interfaces c) (c_fields c) l (c_attrs c).
Definition add_field (c : class_file) (x : member) : class_file :=
  mkFile (c_minor c) (c_major c) (c_pool c) (c_access c) (c_this c) (c_super c)
    (c_interfaces c) (c_fields c ++ [x]) (c_methods c) (c_attrs c).

(** The index the next constant gets. *)
Definition next_index (c : class_file) : Z := 1 + Z.of_nat (slots (c_pool c)).

Lemma slots_snoc ks k : slots (ks ++ [k]) = (slots ks + width k)%nat.
Proof.
  unfold slots. induction ks as [|k' ks IH]; cbn; [lia|]. cbn in IH. rewrite IH. lia.
Qed.

Lemma pool_snoc B ks k a : forall i,
  pool_at B i ks a -> (exists p, a !! (i + slots ks)%nat = Some (Some p) /\ points B p (enc_const k)) ->
  pool_at B i (ks ++ [k]) a.
Proof.
  induction ks as [|k' ks IH]; intros i T E; cbn [app pool_at] in *.
  - change (slots []) with 0%nat in E. rewrite Nat.add_0_r in E. done.
  - destruct T as [T1 T2]. split; [done|]. apply IH; [done|].
    change (slots (k' :: ks)) with (width k' + slots ks)%nat in E. by rewrite Nat.add_assoc in E.
Qed.

Lemma pool_store B ks a j x : forall i,
  pool_at B i ks a -> (i + slots ks <= j)%nat -> pool_at B i ks (<[j := x]> a).
Proof.
  induction ks as [|k ks IH]; intros i T H; [done|]. destruct T as [(p & E & P) T].
  change (slots (k :: ks)) with (width k + slots ks)%nat in H. pose proof (width_pos k).
  split; [|by apply IH; [|lia]]. exists p. by rewrite list_lookup_insert_ne by lia.
Qed.

Lemma table_append B items a x b :
  table B 0 items a -> (length items < length a)%nat -> B !! b = None ->
  table (<[b := x]> B) 0 (items ++ [x]) (<[length items := Some (b, 0)]> a).
Proof.
  intros T L Hb j bs E. cbn. apply lookup_app_Some in E as [E|[Hj E]].
  - destruct (T j bs E) as (p & Ep & P). apply lookup_lt_Some in E as Hj. exists p.
    rewrite list_lookup_insert_ne by lia. eauto using points_insert.
  - apply list_lookup_singleton_Some in E as [Hz <-]. exists (b, 0).
    replace j with (length items) by lia. split; [by apply list_lookup_insert_eq|].
    split; [done|]. exists []. cbn. rewrite lookup_insert_eq. cbn. by rewrite app_nil_r.
Qed.

Lemma table_replace B items a i x b :
  table B 0 items a -> (i < length items)%nat -> (length items <= length a)%nat -> B !! b = None ->
  table (<[b := x]> B) 0 (<[i := x]> items) (<[i := Some (b, 0)]> a).
Proof.
  intros T Hi L Hb j bs E. cbn. destruct (decide (i = j)) as [<-|Hne].
  - rewrite list_lookup_insert_eq in E by done. injection E as <-. exists (b, 0).
    split; [apply list_lookup_insert_eq; lia|]. split; [done|]. exists [].
    cbn. rewrite lookup_insert_eq. cbn. by rewrite app_nil_r.
  - rewrite list_lookup_insert_ne in E by done. destruct (T j bs E) as (p & Ep & P). exists p.
    rewrite list_lookup_insert_ne by done. eauto using points_insert.
Qed.

(** What the edits do to the record. *)
Definition grow_pool (info : java_class_t) (n : Z) (b : nat) : java_class_t :=
  set_pool (add_length info n) (constant_pool_count info + 1)
    (<[Z.to_nat (constant_pool_count info - 1) := Some (b, 0)]> (constant_pool info)).
Definition grow_methods (info : java_class_t) (n : Z) (b : nat) : java_class_t :=
  add_length (set_methods info (methods_count info + 1)
    (<[Z.to_nat (methods_count info) := Some (b, 0)]> (methods info))) n.
Definition grow_fields (info : java_class_t) (n : Z) (b : nat) : java_class_t :=
  add_length (set_fields info (fields_count info + 1)
    (<[Z.to_nat (fields_count info) := Some (b, 0)]> (fields info))) n.
Definition replace_method (info : java_class_t) (i : nat) (n : Z) (b : nat) : java_class_t :=
  add_length (set_methods info (methods_count info) (<[i := Some (b, 0)]> (methods info))) n.

Lemma u32_u32_add a b : u32 (u32 a + b) = u32 (a + b).
Proof. apply Zplus_mod_idemp_l. Qed.

Lemma concat_map_snoc {A C} (f : A -> list C) l x : concat (map f (l ++ [x])) = concat (map f l) ++ f x.
Proof. rewrite map_app, concat_app. cbn. by rewrite app_nil_r. Qed.

(** The parts an edit leaves alone survive the allocation of its block. *)
Ltac fields_of :=
  cbn [set_pool set_fields set_methods add_length grow_pool grow_methods grow_fields replace_method
       minor_version major_version constant_pool_count constant_pool access_flags this_class super_class
       interfaces_count interfaces fields_count fields methods_count methods attributes_count attributes
       class_length constant_pool_count0 methods_count0 add_const with_methods add_field c_minor c_major
       c_pool c_access c_this c_super c_interfaces c_fields c_methods c_attrs].
Ltac kept_parts := fields_of; eauto using points_insert, table_insert, pool_insert.

Lemma repr_grow_pool B info c k b :
  repr B info c -> width k = 1%nat -> B !! b = None ->
  (slots (c_pool c) < length (constant_pool info))%nat ->
  repr (<[b := enc_const k]> B) (grow_pool info (zlen (enc_const k)) b) (add_const c k).
Proof.
  intros [] Hw Hb L. split; kept_parts.
  - rewrite r_count0, slots_snoc, Hw. lia.
  - rewrite r_count0. replace (Z.to_nat _) with (slots (c_pool c)) by lia.
    apply pool_snoc.
    + apply pool_store; [by apply pool_insert|lia].
    + exists (b, 0). split; [by apply list_lookup_insert_eq|].
      split; [done|]. exists []. cbn. rewrite lookup_insert_eq. cbn. by rewrite app_nil_r.
  - rewrite r_length0, u32_u32_add, !length_enc_class. fields_of. rewrite concat_map_snoc, length_app.
    f_equal. lia.
Qed.

Lemma repr_grow_methods B info c x b :
  repr B info c -> B !! b = None -> (length (c_methods c) < length (methods info))%nat ->
  repr (<[b := enc_member x]> B) (grow_methods info (zlen (enc_member x)) b)
    (with_methods c (c_methods c ++ [x])).
Proof.
  intros [] Hb L. split; kept_parts.
  - rewrite r_nmethods0, length_app. cbn. lia.
  - rewrite r_nmethods0, Nat2Z.id, map_app, <- (length_map enc_member). apply table_append; try done.
    by rewrite length_map.
  - rewrite r_length0, u32_u32_add, !length_enc_class. fields_of. rewrite concat_map_snoc, length_app.
    f_equal. lia.
Qed.

Lemma repr_grow_fields B info c x b :
  repr B info c -> B !! b = None -> (length (c_fields c) < length (fields info))%nat ->
  repr (<[b := enc_member x]> B) (grow_fields info (zlen (enc_member x)) b) (add_field c x).
Proof.
  intros [] Hb L. split; kept_parts.
  - rewrite r_nfields0, length_app. cbn. lia.
  - rewrite r_nfields0, Nat2Z.id, map_app, <- (length_map enc_member). apply table_append; try done.
    by rewrite length_map.
  - rewrite r_length0, u32_u32_add, !length_enc_class. fields_of. rewrite concat_map_snoc, length_app.
    f_equal. lia.
Qed.

Lemma length_concat_insert {A} (l : list (list A)) i x y :
  l !! i = Some x -> zlen (concat (<[i := y]> l)) = zlen (concat l) - zlen x + zlen y.
Proof.
  revert i. induction l as [|z l IH]; intros [|i] E; [done|done|injection E as <-|].
  - change (<[0%nat := y]> (z :: l)) with (y :: l). cbn [concat]. rewrite !length_app. lia.
  - change (<[S i := y]> (z :: l)) with (z :: <[i := y]> l). cbn [concat]. rewrite !length_app.
    specialize (IH i E). lia.
Qed.

Lemma repr_replace_method B info c i x y b :
  repr B info c -> B !! b = None -> c_methods c !! i = Some x ->
  (length (c_methods c) <= length (methods info))%nat ->
  repr (<[b := enc_member y]> B)
    (replace_method info i (zlen (enc_member y) - zlen (enc_member x)) b)
    (with_methods c (<[i := y]> (c_methods c))).
Proof.
  intros [] Hb E L. apply lookup_lt_Some in E as Hi. split; kept_parts.
  - by rewrite length_insert.
  - rewrite list_fmap_insert. apply table_replace; rewrite ?length_map; done.
  - rewrite r_length0, u32_u32_add, !length_enc_class. fields_of. rewrite list_fmap_insert.
    rewrite (length_concat_insert _ i (enc_member x)) by (by rewrite list_lookup_fmap, E).
    change (enc_member <$> c_methods c) with (map enc_member (c_methods c)). apply (f_equal u32). lia.
Qed.

(** ** The editing functions *)

(** Blocks are numbered in the order of their allocation. *)
Definition wf_mem (m : mem) : Prop := forall b, (next m <= b)%nat -> blocks m !! b = None.

(** [m] with a new block holding [bs]. *)
Definition new (m : mem) (bs : list Z) : mem := mkMem (S (next m)) (<[next m := bs]> (blocks m)).

Lemma wf_new m bs : wf_mem m -> wf_mem (new m bs).
Proof. intros W b Hb. cbn in *. rewrite lookup_insert_ne by lia. apply W. lia. Qed.

Lemma poke_at n B b blk p bs pre old :
  blk = pre ++ old -> p = (b, zlen pre) -> (length bs <= length old)%nat ->
  poke (mkMem n (<[b := blk]> B)) p bs =
  Def (mkMem n (<[b := pre ++ bs ++ drop (length bs) old]> B)).
Proof. intros -> ->. apply poke_block. Qed.

Lemma poke_whole n B b old bs :
  length old = length bs -> poke (mkMem n (<[b := old]> B)) (b, 0) bs = Def (mkMem n (<[b := bs]> B)).
Proof.
  intros L. rewrite (poke_at n B b old (b, 0) bs [] old) by (done || lia).
  cbn. by rewrite <- L, drop_all, app_nil_r.
Qed.

(** A block written in three pieces. *)
Lemma three_pokes {A} n B b old x y z (k : mem -> ub A) :
  length old = (length x + length y + length z)%nat ->
  (m ← poke (mkMem n (<[b := old]> B)) (b, 0) x;
   m ← poke m (padd (b, 0) (zlen x)) y;
   m ← poke m (padd (b, 0) (zlen x + zlen y)) z; k m) =
  k (mkMem n (<[b := x ++ y ++ z]> B)).
Proof.
  intros L. rewrite (poke_at _ _ _ _ _ _ [] old) by (done || lia). cbn [mbind ub_bind app].
  rewrite (poke_at _ _ _ _ _ _ x (drop (length x) old)) by (done || rewrite length_drop; lia).
  cbn [mbind ub_bind]. rewrite drop_drop, app_assoc.
  rewrite (poke_at _ _ _ _ _ _ (x ++ y) (drop (length x + length y) old)).
  - cbn [mbind ub_bind]. rewrite drop_drop, <- L, drop_all, app_nil_r. by rewrite <- app_assoc.
  - done.
  - unfold padd. cbn. f_equal. rewrite length_app. lia.
  - rewrite length_drop. lia.
Qed.

Section Edits.
Variable fill : nat -> Z -> Z.

Lemma length_fill b n : length (fill b <$> seqZ 0 n) = Z.to_nat n.
Proof. by rewrite length_fmap, length_seqZ. Qed.

Lemma addTag_spec info n d b :
  constant_pool_count info = 1 + Z.of_nat n -> (n < length (constant_pool info))%nat ->
  2 + Z.of_nat n < 2 ^ 16 ->
  addTag (add_length info d) (b, 0) = Def (grow_pool info d b, constant_pool_count info).
Proof.
  intros Hc L H. unfold addTag, grow_pool. fields_of. rewrite Hc. unfold u16.
  rewrite (Z.mod_small (1 + Z.of_nat n - 1)) by lia. replace (1 + Z.of_nat n - 1) with (Z.of_nat n) by lia.
  rewrite store_ok by done. cbn [mbind ub_bind]. rewrite Nat2Z.id, !Z.mod_small by lia. do 2 f_equal; lia.
Qed.

(** Room for [k] more constants. *)
Definition room (info : java_class_t) (k : Z) : Prop :=
  1 <= constant_pool_count info /\
  constant_pool_count info - 1 + k <= zlen (constant_pool info) /\
  constant_pool_count info + k < 2 ^ 16.

Lemma addTag_room info d b :
  room info 1 -> addTag (add_length info d) (b, 0) = Def (grow_pool info d b, constant_pool_count info).
Proof.
  intros (H1 & H2 & H3). apply (addTag_spec _ (Z.to_nat (constant_pool_count info - 1))); lia.
Qed.

Lemma length_enc_utf8 str : zlen (enc_const (Utf8 str)) = zlen str + 3.
Proof. cbn [enc_const length]. rewrite length_app, length_htobe16. lia. Qed.

Lemma addUtf8Tag_spec m info str :
  room info 1 ->
  addUtf8Tag fill m info str =
  Def (new m (enc_const (Utf8 str)), grow_pool info (zlen (enc_const (Utf8 str))) (next m), constant_pool_count info).
Proof.
  intros R. unfold addUtf8Tag, malloc.
  etransitivity; [apply (three_pokes _ _ _ _ [CONSTANT_Utf8] (htobe16 (zlen str)) str)|].
  - rewrite length_fill, length_htobe16. cbn [length]. lia.
  - rewrite addTag_room by done. by rewrite length_enc_utf8.
Qed.

Lemma room_grow info k d b : room info (k + 1) -> 0 <= k -> room (grow_pool info d b) k.
Proof. unfold room, grow_pool. fields_of. rewrite length_insert. lia. Qed.

Lemma room_mono info k k' : room info k -> k' <= k -> room info k'.
Proof. unfold room. lia. Qed.

(** A reference constant: a tag and two indices. *)
Definition pair_const (tag a b : Z) : const := Const tag (htobe16 a ++ htobe16 b).

Lemma addPair_spec {A} m info tag a b (k : mem -> java_class_t -> Z -> ub A) :
  room info 1 ->
  (let '(t, m) := malloc fill m 5 in
   m ← poke m t [tag];
   m ← poke m (padd t 1) (htobe16 a);
   m ← poke m (padd t 3) (htobe16 b);
   '(info, idx) ← addTag (add_length info 5) t; k m info idx) =
  k (new m (enc_const (pair_const tag a b))) (grow_pool info 5 (next m)) (constant_pool_count info).
Proof.
  intros R. unfold malloc.
  etransitivity; [apply (three_pokes _ _ _ _ [tag] (htobe16 a) (htobe16 b))|].
  - by rewrite length_fill, !length_htobe16.
  - by rewrite addTag_room.
Qed.

Lemma javaAddMethodRefTag_spec m info ci ni :
  room info 1 ->
  javaAddMethodRefTag fill m info ci ni =
  Def (new m (enc_const (pair_const CONSTANT_Methodref ci ni)), grow_pool info 5 (next m),
       constant_pool_count info).
Proof. intros R. unfold javaAddMethodRefTag. etransitivity; [by apply addPair_spec|done]. Qed.

Lemma javaAddNameAndTypeTag_spec m info name desc :
  room info 3 ->
  let i := constant_pool_count info in
  let m1 := new m (enc_const (Utf8 name)) in
  let m2 := new m1 (enc_const (Utf8 desc)) in
  javaAddNameAndTypeTag fill m info name desc =
  Def (new m2 (enc_const (pair_const CONSTANT_NameAndType i (i + 1))),
       grow_pool (grow_pool (grow_pool info (zlen (enc_const (Utf8 name))) (next m)) (zlen (enc_const (Utf8 desc))) (next m1)) 5 (next m2),
       i + 2).
Proof.
  intros R i m1 m2. unfold javaAddNameAndTypeTag.
  rewrite addUtf8Tag_spec by (apply (room_mono _ _ _ R); lia). cbn [mbind ub_bind].
  assert (R2 := room_grow info 2 (zlen (enc_const (Utf8 name))) (next m) R ltac:(lia)).
  rewrite addUtf8Tag_spec by (apply (room_mono _ _ _ R2); lia). cbn [mbind ub_bind].
  assert (R3 := room_grow _ 1 (zlen (enc_const (Utf8 desc))) (next m1) R2 ltac:(lia)).
  etransitivity; [by apply addPair_spec|]. subst i m1 m2. unfold grow_pool. fields_of.
  do 2 f_equal. lia.
Qed.

Definition rename (x : member) (i : Z) : member := mkMember (m_access x) i (m_desc x) (m_attrs x).
Definition native (x : member) : member :=
  mkMember (Z.lor (m_access x) ACC_NATIVE) (m_name x) (m_desc x) [].

Lemma length_rename x i : length (enc_member (rename x i)) = length (enc_member x).
Proof. reflexivity. Qed.

Lemma store_next info b k :
  methods_count info = Z.of_nat k -> (k < length (methods info))%nat -> 1 + Z.of_nat k < 2 ^ 16 ->
  store (methods info) (u16 (methods_count info + 1) - 1) (b, 0) =
  Def (<[Z.to_nat (methods_count info) := Some (b, 0)]> (methods info)).
Proof.
  intros E L H. unfold u16. rewrite E, Z.mod_small by lia.
  replace (Z.of_nat k + 1 - 1) with (Z.of_nat k) by lia. by rewrite store_ok, Nat2Z.id.
Qed.

Lemma javaCopyMethod_spec m info p x newName k :
  wf_mem m -> points (blocks m) p (enc_member x) -> wf_member x -> room info 1 ->
  methods_count info = Z.of_nat k -> (k < length (methods info))%nat -> 1 + Z.of_nat k < 2 ^ 16 ->
  javaCopyMethod fill m info p newName =
  Def (mkMem (S (S (next m)))
         (<[next m := enc_member (rename x (constant_pool_count info))]>
            (<[S (next m) := enc_const (Utf8 newName)]> (blocks m))),
       grow_methods (grow_pool info (zlen (enc_const (Utf8 newName))) (S (next m))) (zlen (enc_member x)) (next m)).
Proof.
  intros Wm P W R Hk L H. unfold javaCopyMethod.
  destruct (points_view _ _ _ P) as [rest Ev]. rewrite Ev, (member_sized x W). cbn [mbind ub_bind].
  unfold malloc. destruct (points_view (new m (fill (next m) <$> seqZ 0 (zlen (enc_member x)))) p
    (enc_member x)) as [rest' Ev']; [by apply points_insert; [|apply Wm]|].
  unfold new in Ev'. rewrite Ev', bytes_app. cbn [mbind ub_bind].
  rewrite poke_whole by (rewrite length_fill; lia). cbn [mbind ub_bind].
  rewrite addUtf8Tag_spec by done. cbn [mbind ub_bind]. unfold new. cbn [next blocks].
  rewrite insert_insert_ne by lia.
  rewrite (poke_at _ _ _ _ _ _ (htobe16 (m_access x)) (drop 2 (enc_member x))) by (done || (cbn; lia)).
  cbn [mbind ub_bind]. change (methods (grow_pool info ?a ?b)) with (methods info).
  change (methods_count (grow_pool info ?a ?b)) with (methods_count info).
  rewrite (store_next info (next m) k) by done. cbn [mbind ub_bind].
  unfold grow_methods. fields_of. unfold u16. rewrite Z.mod_small by lia. reflexivity.
Qed.

Lemma javaConvertMethodToNative_spec m info i p x :
  wf_mem m -> methods info !! i = Some (Some p) -> points (blocks m) p (enc_member x) -> wf_member x ->
  javaConvertMethodToNative fill m info (Z.of_nat i) =
  Def (new m (enc_member (native x)), replace_method info i (8 - zlen (enc_member x)) (next m),
       (next m, 0)).
Proof.
  intros Wm Ei P W. apply lookup_lt_Some in Ei as Hi. unfold javaConvertMethodToNative.
  rewrite (cell_ok _ _ _ Ei). cbn [mbind ub_bind].
  destruct (points_view _ _ _ P) as [rest Ev]. rewrite Ev, (member_sized x W). cbn [mbind ub_bind].
  unfold malloc. rewrite store_ok by done. cbn [mbind ub_bind].
  assert (View : forall bs, exists rest', view (mkMem (S (next m)) (<[next m := bs]> (blocks m))) p =
    enc_member x ++ rest') by (intros bs; apply points_view, points_insert; [done|by apply Wm]).
  set (h8 := htobe16 (m_access x) ++ htobe16 (m_name x) ++ htobe16 (m_desc x) ++
             htobe16 (zlen (m_attrs x))).
  destruct (View (fill (next m) <$> seqZ 0 8)) as [r1 ->].
  change (enc_member x ++ r1) with (h8 ++ concat (map enc_attr (m_attrs x)) ++ r1).
  change 8 with (zlen h8) at 2. rewrite bytes_app. cbn [mbind ub_bind].
  rewrite poke_whole by (by rewrite length_fill). cbn [mbind ub_bind].
  destruct (View h8) as [r2 ->].
  rewrite (be16_at _ 0 (m_access x) (drop 2 (enc_member x) ++ r2)) by (done || apply W).
  cbn [mbind ub_bind].
  rewrite (poke_at _ _ _ _ _ _ [] h8) by (done || (cbn; lia)). cbn [mbind ub_bind app].
  rewrite (poke_at _ _ _ _ _ _ (htobe16 (Z.lor (m_access x) ACC_NATIVE) ++ htobe16 (m_name x)
     ++ htobe16 (m_desc x)) (htobe16 (zlen (m_attrs x)))) by (done || (cbn; lia)).
  reflexivity.
Qed.

(** A new block filled piece by piece. *)
Lemma emits_block n B b old l :
  length old = length (concat l) -> B !! b = None ->
  exists s, emits (@pair mem ptr (mkMem n (<[b := old]> B)) (b, 0)) l = Def s /\
            fst s = mkMem n (<[b := concat l]> B).
Proof.
  intros L Hb. pose proof (out_start n B b (concat l) old L) as H.
  rewrite <- (app_nil_r (concat l)) in H at 2. apply out_emits in H as (s & E & H).
  exists s. split; [exact E|]. by apply (out_done n B b).
Qed.

Lemma emits_app l1 l2 : forall s, emits s (l1 ++ l2) = (s ← emits s l1; emits s l2).
Proof.
  induction l1 as [|x l1 IH]; intros s; [done|]. cbn [emits app]. destruct (emit s x) as [s'|]; [|done].
  cbn [mbind ub_bind]. apply IH.
Qed.

Lemma javaAddField_spec m info name desc acc k :
  wf_mem m -> room info 2 ->
  fields_count info = Z.of_nat k -> (k < length (fields info))%nat -> 1 + Z.of_nat k < 2 ^ 16 ->
  let i := constant_pool_count info in
  let m1 := new m (enc_const (Utf8 name)) in
  let m2 := new m1 (enc_const (Utf8 desc)) in
  javaAddField fill m info name desc acc =
  Def (new m2 (enc_member (mkMember acc i (i + 1) [])),
       grow_fields (grow_pool (grow_pool info (zlen (enc_const (Utf8 name))) (next m)) (zlen (enc_const (Utf8 desc))) (next m1))
         8 (next m2)).
Proof.
  intros Wm R Hk L H i m1 m2. unfold javaAddField.
  rewrite addUtf8Tag_spec by (apply (room_mono _ _ _ R); lia). cbn [mbind ub_bind].
  assert (R2 := room_grow info 1 (zlen (enc_const (Utf8 name))) (next m) R ltac:(lia)).
  rewrite addUtf8Tag_spec by done. cbn [mbind ub_bind]. fold m1. fold m2.
  change (constant_pool_count (grow_pool info ?a ?b)) with (i + 1). fold i.
  unfold malloc. change (fields (grow_pool (grow_pool info ?a ?b) ?c ?d)) with (fields info).
  change (fields_count (grow_pool (grow_pool info ?a ?b) ?c ?d)) with (fields_count info).
  unfold u16. rewrite Hk, Z.mod_small by lia.
  replace (Z.of_nat k + 1 - 1) with (Z.of_nat k) by lia. rewrite store_ok by done. cbn [mbind ub_bind].
  assert (W2 : wf_mem m2) by (by do 2 apply wf_new).
  destruct (emits_block (S (next m2)) (blocks m2) (next m2) (fill (next m2) <$> seqZ 0 8)
    [htobe16 acc; htobe16 i; htobe16 (i + 1); htobe16 0]) as (s & -> & Es);
    [by rewrite length_fill|by apply W2|].
  cbn [mbind ub_bind]. rewrite Es. unfold grow_fields. fields_of. by rewrite Hk, Nat2Z.id.
Qed.

(** The method [javaAddMethod] builds; its names are the constants from [i] on. *)
Definition code_data (maxStack maxLocals : Z) (code : list Z) : list Z :=
  htobe16 maxStack ++ htobe16 maxLocals ++ htobe32 (zlen code) ++ code ++ htobe16 0 ++ htobe16 0.
Definition new_method (i acc maxStack maxLocals : Z) (code : option (list Z)) : member :=
  mkMember acc i (i + 1)
    (match code with Some c => [mkAttr (i + 2) (code_data maxStack maxLocals c)] | None => [] end).
Definition method_consts (name desc : list Z) (code : option (list Z)) : list const :=
  [Utf8 name; Utf8 desc] ++ (match code with Some _ => [Utf8 (bytes_of "Code")] | None => [] end).

(** Blocks and record after adding constants one by one. *)
Definition add_blocks (n : nat) (B : gmap nat (list Z)) (ks : list const) : gmap nat (list Z) :=
  fst (foldl (fun s k => (<[snd s := enc_const k]> (fst s), S (snd s))) (B, n) ks).
Definition add_infos (n : nat) (info : java_class_t) (ks : list const) : java_class_t :=
  fst (foldl (fun s k => (grow_pool (fst s) (zlen (enc_const k)) (snd s), S (snd s))) (info, n) ks).

Lemma javaAddMethod_native m info name desc acc ms ml k :
  wf_mem m -> room info 2 ->
  methods_count info = Z.of_nat k -> (k < length (methods info))%nat -> 1 + Z.of_nat k < 2 ^ 16 ->
  let ks := method_consts name desc None in
  let x := new_method (constant_pool_count info) acc ms ml None in
  javaAddMethod fill m info name desc acc ms ml None =
  Def (mkMem (3 + next m) (<[next m := enc_member x]> (add_blocks (S (next m)) (blocks m) ks)),
       grow_methods (add_infos (S (next m)) info ks) (zlen (enc_member x)) (next m)).
Proof.
  intros Wm R Hk L H ks x. unfold javaAddMethod, malloc. rewrite (store_next info (next m) k) by done.
  cbn [mbind ub_bind]. set (info1 := set_methods info _ _).
  assert (R1 : room info1 2) by done.
  rewrite addUtf8Tag_spec by (apply (room_mono _ _ _ R1); lia). cbn [mbind ub_bind].
  assert (R2 := room_grow info1 1 (zlen (enc_const (Utf8 name))) (S (next m)) R1 ltac:(lia)).
  rewrite addUtf8Tag_spec by done. cbn [mbind ub_bind]. unfold new. cbn [next blocks].
  rewrite (insert_insert_ne _ (S (next m)) (next m)), (insert_insert_ne _ (S (S (next m))) (next m)) by lia.
  change (constant_pool_count (grow_pool info1 ?a ?b)) with (constant_pool_count info + 1).
  change (constant_pool_count info1) with (constant_pool_count info).
  set (B := <[S (S (next m)) := _]> _).
  destruct (emits_block (S (S (S (next m)))) B (next m) (fill (next m) <$> seqZ 0 8)
    [htobe16 acc; htobe16 (constant_pool_count info); htobe16 (constant_pool_count info + 1); htobe16 0])
    as (s & -> & Es); [by rewrite length_fill| |].
  { subst B. rewrite !lookup_insert_ne by lia. by apply Wm. }
  cbn [mbind ub_bind]. rewrite Es. subst info1. unfold grow_methods. fields_of.
  unfold u16. rewrite Z.mod_small by lia. reflexivity.
Qed.

Lemma length_new_method i acc ms ml c :
  zlen (enc_member (new_method i acc ms ml (Some c))) = 26 + zlen c.
Proof.
  rewrite length_enc_member. unfold enc_attrs, new_method. cbn [m_attrs map concat].
  rewrite app_nil_r, length_app, length_htobe16, Nat2Z.inj_add, length_enc_attr. cbn [a_data].
  unfold code_data. rewrite !length_app, !length_htobe16, length_htobe32. lia.
Qed.

Lemma javaAddMethod_code m info name desc acc ms ml c k :
  wf_mem m -> room info 3 ->
  methods_count info = Z.of_nat k -> (k < length (methods info))%nat -> 1 + Z.of_nat k < 2 ^ 16 ->
  let ks := method_consts name desc (Some c) in
  let x := new_method (constant_pool_count info) acc ms ml (Some c) in
  javaAddMethod fill m info name desc acc ms ml (Some c) =
  Def (mkMem (4 + next m) (<[next m := enc_member x]> (add_blocks (S (next m)) (blocks m) ks)),
       grow_methods (add_infos (S (next m)) info ks) (zlen (enc_member x)) (next m)).
Proof.
  intros Wm R Hk L H ks x. unfold javaAddMethod, malloc. rewrite (store_next info (next m) k) by done.
  cbn [mbind ub_bind]. set (info1 := set_methods info _ _).
  assert (R1 : room info1 3) by done.
  rewrite addUtf8Tag_spec by (apply (room_mono _ _ _ R1); lia). cbn [mbind ub_bind].
  assert (R2 := room_grow info1 2 (zlen (enc_const (Utf8 name))) (S (next m)) R1 ltac:(lia)).
  rewrite addUtf8Tag_spec by (apply (room_mono _ _ _ R2); lia). cbn [mbind ub_bind].
  assert (R3 := room_grow _ 1 (zlen (enc_const (Utf8 desc))) (S (S (next m))) R2 ltac:(lia)).
  rewrite addUtf8Tag_spec by done. cbn [mbind ub_bind]. unfold new. cbn [next blocks].
  rewrite (insert_insert_ne _ (S (next m)) (next m)), (insert_insert_ne _ (S (S (next m))) (next m)),
    (insert_insert_ne _ (S (S (S (next m)))) (next m)) by lia.
  change (constant_pool_count (grow_pool (grow_pool info1 ?a ?b) ?d ?e))
    with (constant_pool_count info + 1 + 1).
  change (constant_pool_count (grow_pool info1 ?a ?b)) with (constant_pool_count info + 1).
  change (constant_pool_count info1) with (constant_pool_count info).
  set (i := constant_pool_count info) in *. set (B := <[S (S (S (next m))) := _]> _).
  replace (12 + zlen c) with (zlen (code_data ms ml c))
    by (unfold code_data; rewrite !length_app, !length_htobe16, length_htobe32; lia).
  replace (i + 1 + 1) with (i + 2) by lia.
  set (l1 := [htobe16 acc; _; _; _]). set (l2 := [htobe16 (i + 2); _; _; _; _; _; _; _]).
  assert (Ec : concat (l1 ++ l2) = enc_member x) by (subst l1 l2 x; cbn; by rewrite app_nil_r).
  destruct (emits_block (S (S (S (S (next m))))) B (next m)
    (fill (next m) <$> seqZ 0 (8 + 2 + 4 + zlen (code_data ms ml c))) (l1 ++ l2)) as (s & E & Es).
  { rewrite length_fill, Ec. subst x. pose proof (length_new_method i acc ms ml c).
    unfold code_data. rewrite !length_app, !length_htobe16, length_htobe32. lia. }
  { subst B. rewrite !lookup_insert_ne by lia. by apply Wm. }
  rewrite emits_app in E. destruct (emits _ l1) as [s1|]; [|done]. cbn [mbind ub_bind] in *.
  rewrite E. cbn [mbind ub_bind]. rewrite Es, Ec. subst info1. unfold grow_methods. fields_of.
  unfold u16. rewrite Z.mod_small by lia.
  replace (8 + 2 + 4 + zlen (code_data ms ml c)) with (zlen (enc_member x)).
  - reflexivity.
  - subst x. rewrite length_new_method. unfold code_data.
    rewrite !length_app, !length_htobe16, length_htobe32. lia.
Qed.

(** ** Edit sequences *)

(** The editing functions that keep the tracked length and the class data:
    all but [javaAddStringTag] and [javaInjectCode], which nothing calls. *)
Inductive edit :=
| ECopyMethod (i : nat) (newName : list Z)
| EConvertMethodToNative (i : nat)
| EAddField (name desc : list Z) (acc : Z)
| EAddMethod (name desc : list Z) (acc maxStack maxLocals : Z) (code : option (list Z))
| EAddNameAndTypeTag (name desc : list Z)
| EAddMethodRefTag (classIndex nameAndTypeIndex : Z).

Definition run_edit (m : mem) (info : java_class_t) (e : edit) : ub (mem * java_class_t) :=
  match e with
  | ECopyMethod i newName =>
      p ← cell (methods info) (Z.of_nat i); javaCopyMethod fill m info p newName
  | EConvertMethodToNative i =>
      '(m, info, _) ← javaConvertMethodToNative fill m info (Z.of_nat i); Def (m, info)
  | EAddField name desc acc => javaAddField fill m info name desc acc
  | EAddMethod name desc acc ms ml code => javaAddMethod fill m info name desc acc ms ml code
  | EAddNameAndTypeTag name desc =>
      '(m, info, _) ← javaAddNameAndTypeTag fill m info name desc; Def (m, info)
  | EAddMethodRefTag ci ni => '(m, info, _) ← javaAddMethodRefTag fill m info ci ni; Def (m, info)
  end.

Fixpoint run_edits (m : mem) (info : java_class_t) (es : list edit) : ub (mem * java_class_t) :=
  match es with
  | [] => Def (m, info)
  | e :: es => '(m, info) ← run_edit m info e; run_edits m info es
  end.

(** The constants an edit adds ... *)
Definition edit_consts (c : class_file) (e : edit) : list const :=
  match e with
  | ECopyMethod _ newName => [Utf8 newName]
  | EConvertMethodToNative _ => []
  | EAddField name desc _ => [Utf8 name; Utf8 desc]
  | EAddMethod name desc _ _ _ code => method_consts name desc code
  | EAddNameAndTypeTag name desc =>
      [Utf8 name; Utf8 desc; pair_const CONSTANT_NameAndType (next_index c) (next_index c + 1)]
  | EAddMethodRefTag ci ni => [pair_const CONSTANT_Methodref ci ni]
  end.

(** ... and what it does to the members; [i] is the index of its first constant. *)
Definition edit_members (c : class_file) (i : Z) (e : edit) : class_file :=
  match e with
  | ECopyMethod k _ =>
      match c_methods c !! k with Some x => with_methods c (c_methods c ++ [rename x i]) | None => c end
  | EConvertMethodToNative k =>
      match c_methods c !! k with Some x => with_methods c (<[k := native x]> (c_methods c)) | None => c end
  | EAddField _ _ acc => add_field c (mkMember acc i (i + 1) [])
  | EAddMethod _ _ acc ms ml code => with_methods c (c_methods c ++ [new_method i acc ms ml code])
  | _ => c
  end.

Definition apply_edit (c : class_file) (e : edit) : class_file :=
  edit_members (foldl add_const c (edit_consts c e)) (next_index c) e.

(** The method an edit refers to exists. *)
Definition edit_valid (c : class_file) (e : edit) : Prop :=
  match e with
  | ECopyMethod i _ | EConvertMethodToNative i => (i < length (c_methods c))%nat
  | _ => True
  end.

(** The class [c] fits the record that was made for [c0]. *)
Record fits (c0 c : class_file) : Prop := {
  f_wf : wf_class c;
  f_pool : (slots (c_pool c) <= slots (c_pool c0) + 100)%nat;
  f_fields : (length (c_fields c) <= length (c_fields c0) + 100)%nat;
  f_methods : (length (c_methods c) <= length (c_methods c0) + 100)%nat;
}.

Fixpoint all_fit (c0 c : class_file) (es : list edit) : Prop :=
  match es with
  | [] => True
  | e :: es => edit_valid c e /\ fits c0 (apply_edit c e) /\ all_fit c0 (apply_edit c e) es
  end.

(** [m] has the blocks of [m0], unchanged, and more. *)
Definition extends (m0 m : mem) : Prop :=
  (next m0 <= next m)%nat /\ forall b, (b < next m0)%nat -> blocks m !! b = blocks m0 !! b.

(** The blocks the record owns, which [javaDestroy] releases: those of the
    constants [Lp] and of the methods [Lm] beyond the ones that were read. *)
Record own (n0 : nat) (B : gmap nat (list Z)) (info : java_class_t) (Lp Lm : list nat) : Prop := {
  o_base : 1 <= constant_pool_count0 info /\ 0 <= methods_count0 info;
  o_pool : forall j b, Lp !! j = Some b ->
    constant_pool info !! (Z.to_nat (constant_pool_count0 info - 1) + j)%nat = Some (Some (b, 0));
  o_npool : constant_pool_count info = constant_pool_count0 info + zlen Lp;
  o_methods : forall j b, Lm !! j = Some b ->
    methods info !! (Z.to_nat (methods_count0 info) + j)%nat = Some (Some (b, 0));
  o_nmethods : methods_count info = methods_count0 info + zlen Lm;
  o_nodup : NoDup (Lp ++ Lm);
  o_live : forall b, b ∈ Lp ++ Lm -> (n0 <= b)%nat /\ is_Some (B !! b);
}.
Definition owned (n0 : nat) (B : gmap nat (list Z)) (info : java_class_t) : Prop :=
  exists Lp Lm, own n0 B info Lp Lm.

Record inv (m0 : mem) (c0 : class_file) (m : mem) (info : java_class_t) (c : class_file) : Prop := {
  i_mem : wf_mem m;
  i_repr : repr (blocks m) info c;
  i_caps : caps info c0;
  i_ext : extends m0 m;
  i_wf : wf_class c;
  i_own : owned (next m0) (blocks m) info;
}.

Lemma foldl_consts ks : forall c,
  slots (c_pool (foldl add_const c ks)) = (slots (c_pool c) + slots ks)%nat /\
  c_methods (foldl add_const c ks) = c_methods c /\ c_fields (foldl add_const c ks) = c_fields c.
Proof.
  induction ks as [|k ks IH]; intros c; cbn [foldl]; [by rewrite Nat.add_0_r|].
  destruct (IH (add_const c k)) as (-> & -> & ->). fields_of. rewrite slots_snoc.
  change (slots (k :: ks)) with (width k + slots ks)%nat. split_and!; [lia|done|done].
Qed.

Lemma add_infos_cons n info k ks :
  add_infos n info (k :: ks) = add_infos (S n) (grow_pool info (zlen (enc_const k)) n) ks.
Proof. reflexivity. Qed.

Lemma repr_add_infos ks : forall n B info c,
  repr B info c -> Forall (fun k => width k = 1%nat) ks ->
  (forall b, (n <= b)%nat -> B !! b = None) ->
  (slots (c_pool c) + length ks <= length (constant_pool info))%nat ->
  repr (add_blocks n B ks) (add_infos n info ks) (foldl add_const c ks) /\
  (forall b, (n + length ks <= b)%nat -> add_blocks n B ks !! b = None) /\
  (forall b, (b < n)%nat -> add_blocks n B ks !! b = B !! b).
Proof.
  induction ks as [|k ks IH]; intros n B info c R W F L; cbn [length] in *.
  - split_and!; [done|intros; apply F; lia|done].
  - apply Forall_cons in W as [Wk Ws].
    destruct (IH (S n) (<[n := enc_const k]> B) (grow_pool info (zlen (enc_const k)) n) (add_const c k))
      as (R' & F' & K); [apply repr_grow_pool; [done|done|by apply F|lia]|done| | |].
    + intros b Hb. rewrite lookup_insert_ne by lia. apply F. lia.
    + unfold grow_pool. fields_of. rewrite length_insert, slots_snoc, Wk. lia.
    + split_and!; [exact R'|intros; apply F'; lia|].
      intros b Hb. unfold add_blocks in *. cbn [foldl fst snd]. rewrite K by lia.
      by rewrite lookup_insert_ne by lia.
Qed.

Lemma add_infos_same ks : forall n info,
  methods (add_infos n info ks) = methods info /\ methods_count (add_infos n info ks) = methods_count info /\
  fields (add_infos n info ks) = fields info /\ fields_count (add_infos n info ks) = fields_count info /\
  length (constant_pool (add_infos n info ks)) = length (constant_pool info).
Proof.
  induction ks as [|k ks IH]; intros n info; [done|]. rewrite add_infos_cons.
  destruct (IH (S n) (grow_pool info (zlen (enc_const k)) n)) as (-> & -> & -> & -> & ->).
  unfold grow_pool. fields_of. by rewrite length_insert.
Qed.

Lemma caps_add_infos n info ks c0 : caps info c0 -> caps (add_infos n info ks) c0.
Proof.
  intros []. destruct (add_infos_same ks n info) as (E1 & _ & E2 & _ & E3).
  split; [by rewrite E3|by rewrite E2|by rewrite E1].
Qed.

Lemma own_fresh n0 B info Lp Lm b : own n0 B info Lp Lm -> B !! b = None -> b ∉ Lp ++ Lm.
Proof. intros O Hb Hin. destruct (o_live _ _ _ _ _ O b Hin) as [_ [x E]]. congruence. Qed.

Lemma live_insert n0 (B : gmap nat (list Z)) b x (L L' : list nat) :
  (forall a, a ∈ L -> (n0 <= a)%nat /\ is_Some (B !! a)) ->
  (n0 <= b)%nat -> (forall a, a ∈ L' -> a ∈ L \/ a = b) ->
  forall a, a ∈ L' -> (n0 <= a)%nat /\ is_Some (<[b := x]> B !! a).
Proof.
  intros H Hb Hl a [Ha| ->]%Hl; [|by rewrite lookup_insert_eq; eauto].
  destruct (H a Ha). destruct (decide (a = b)) as [->|]; [by rewrite lookup_insert_eq; eauto|].
  by rewrite lookup_insert_ne by done.
Qed.

(** A list of blocks extended by the next one, in the cells of an array. *)
Lemma cells_append (a : list (option ptr)) (L : list nat) (n : nat) b :
  (forall j x, L !! j = Some x -> a !! (n + j)%nat = Some (Some (x, 0))) ->
  (n + length L < length a)%nat ->
  forall j x, (L ++ [b]) !! j = Some x ->
    <[(n + length L)%nat := Some (b, 0)]> a !! (n + j)%nat = Some (Some (x, 0)).
Proof.
  intros H Hl j x E. apply lookup_app_Some in E as [E|[Hj E]].
  - apply lookup_lt_Some in E as Hj. rewrite list_lookup_insert_ne by lia. by apply H.
  - apply list_lookup_singleton_Some in E as [Hz <-]. replace j with (length L) by lia.
    by apply list_lookup_insert_eq.
Qed.

Lemma own_grow_pool n0 B info Lp Lm b d x :
  own n0 B info Lp Lm -> B !! b = None -> (n0 <= b)%nat ->
  constant_pool_count info - 1 < zlen (constant_pool info) ->
  own n0 (<[b := x]> B) (grow_pool info d b) (Lp ++ [b]) Lm.
Proof.
  intros O Hb Hn L. pose proof (own_fresh _ _ _ _ _ _ O Hb) as Hf. destruct O.
  split; unfold grow_pool; fields_of; try done.
  - replace (Z.to_nat (constant_pool_count info - 1))
      with (Z.to_nat (constant_pool_count0 info - 1) + length Lp)%nat by lia.
    apply cells_append; [done|lia].
  - rewrite length_app. cbn [length]. lia.
  - rewrite <- app_assoc. apply NoDup_app in o_nodup0 as (N1 & N2 & N3).
    apply NoDup_app. split_and!; [done| |].
    + intros y Hy. apply not_elem_of_app. split; [set_solver|by apply N2].
    + apply NoDup_app. split_and!; [apply NoDup_singleton|set_solver|done].
  - eapply live_insert; [done|done|set_solver].
Qed.

Lemma own_grow_methods n0 B info Lp Lm b d x :
  own n0 B info Lp Lm -> B !! b = None -> (n0 <= b)%nat ->
  methods_count info < zlen (methods info) ->
  own n0 (<[b := x]> B) (grow_methods info d b) Lp (Lm ++ [b]).
Proof.
  intros O Hb Hn L. pose proof (own_fresh _ _ _ _ _ _ O Hb) as Hf. destruct O.
  split; unfold grow_methods; fields_of; try done.
  - replace (Z.to_nat (methods_count info)) with (Z.to_nat (methods_count0 info) + length Lm)%nat by lia.
    apply cells_append; [done|lia].
  - rewrite length_app. cbn [length]. lia.
  - rewrite app_assoc. apply NoDup_app. split_and!; [done|set_solver|apply NoDup_singleton].
  - eapply live_insert; [done|done|set_solver].
Qed.

Lemma own_grow_fields n0 B info Lp Lm b d x :
  own n0 B info Lp Lm -> (n0 <= b)%nat -> own n0 (<[b := x]> B) (grow_fields info d b) Lp Lm.
Proof. intros [] Hn. split; unfold grow_fields; fields_of; try done. eapply live_insert; [done|done|auto]. Qed.

Lemma elem_of_insert (l : list nat) i a b : a ∈ <[i := b]> l -> a ∈ l \/ a = b.
Proof.
  intros [j [(_ & <- & _)|[_ E]]%list_lookup_insert_Some]%list_elem_of_lookup_1; [by right|left].
  by eapply list_elem_of_lookup_2.
Qed.

Lemma NoDup_insert (l : list nat) i b : NoDup l -> b ∉ l -> NoDup (<[i := b]> l).
Proof.
  intros N Hb. rewrite NoDup_alt in *. intros j k x Ej Ek.
  apply list_lookup_insert_Some in Ej as [(<- & <- & _)|[Hj Ej]];
    apply list_lookup_insert_Some in Ek as [(<- & E & _)|[Hk Ek]]; try done.
  - destruct Hb. by eapply list_elem_of_lookup_2.
  - subst. destruct Hb. by eapply list_elem_of_lookup_2.
  - by eapply N.
Qed.

Lemma own_replace n0 B info Lp Lm i b d x :
  own n0 B info Lp Lm -> B !! b = None -> (n0 <= b)%nat -> Z.of_nat i < methods_count info ->
  methods_count info <= zlen (methods info) -> owned n0 (<[b := x]> B) (replace_method info i d b).
Proof.
  intros O Hb Hn Hi Hl. pose proof (own_fresh _ _ _ _ _ _ O Hb) as Hf. destruct O.
  set (k := Z.to_nat (methods_count0 info)) in *.
  assert (Hk : Z.of_nat k = methods_count0 info) by lia. destruct (decide (i < k)%nat) as [Lt|Ge].
  - exists Lp, Lm. split; unfold replace_method; fields_of; try done.
    + intros j y E. fold k. rewrite list_lookup_insert_ne by lia. by apply o_methods0.
    + eapply live_insert; [done|done|auto].
  - exists Lp, (<[(i - k)%nat := b]> Lm). split; unfold replace_method; fields_of; try done; fold k.
    + intros j y E. destruct (decide (j = (i - k)%nat)) as [->|Hj].
      * rewrite list_lookup_insert_eq in E by lia. injection E as <-.
        replace (k + (i - k))%nat with i by lia. apply list_lookup_insert_eq. unfold ptr in *. lia.
      * rewrite list_lookup_insert_ne in E by done. rewrite list_lookup_insert_ne by lia. by apply o_methods0.
    + by rewrite length_insert.
    + apply NoDup_app in o_nodup0 as (N1 & N2 & N3). apply NoDup_app. split_and!; [done| |].
      * intros y Hy [Hy'| ->]%elem_of_insert; set_solver.
      * apply NoDup_insert; set_solver.
    + eapply live_insert; [done|done|]. intros a [Ha|[Ha| ->]%elem_of_insert]%elem_of_app; set_solver.
Qed.

Lemma owned_add_infos n0 ks : forall n B info,
  owned n0 B info -> (forall b, (n <= b)%nat -> B !! b = None) -> (n0 <= n)%nat ->
  constant_pool_count info - 1 + zlen ks <= zlen (constant_pool info) ->
  owned n0 (add_blocks n B ks) (add_infos n info ks).
Proof.
  induction ks as [|k ks IH]; intros n B info [Lp [Lm O]] F Hn L; cbn [length] in *; [by exists Lp, Lm|].
  apply (IH (S n) (<[n := enc_const k]> B) (grow_pool info (zlen (enc_const k)) n)).
  - exists (Lp ++ [n]), Lm. apply own_grow_pool; [done|by apply F|done|lia].
  - intros b Hb. rewrite lookup_insert_ne by lia. apply F. lia.
  - lia.
  - unfold grow_pool. fields_of. rewrite length_insert. lia.
Qed.

Lemma slots_ones ks : Forall (fun k => width k = 1%nat) ks -> slots ks = length ks.
Proof.
  induction 1 as [|k l E W IH]; [done|]. change (slots (k :: l)) with (width k + slots l)%nat.
  cbn [length]. lia.
Qed.

Section Step.
Variables (m0 : mem) (c0 : class_file) (m : mem) (info : java_class_t) (c : class_file).
Hypothesis I : inv m0 c0 m info c.
Variable ks : list const.
Hypothesis Wks : Forall (fun k => width k = 1%nat) ks.

Let c1 := foldl add_const c ks.

Lemma consts_fit c' : fits c0 c' -> c_pool c' = c_pool c1 ->
  (slots (c_pool c) + length ks <= length (constant_pool info))%nat /\ room info (Z.of_nat (length ks)).
Proof.
  intros [Wf Fp _ _] E. destruct I as [_ R C _ _ _]. rewrite E in Fp. pose proof (wc_slots _ Wf) as Ws.
  rewrite E in Ws. unfold c1 in *. destruct (foldl_consts ks c) as (Es & _ & _). rewrite Es, (slots_ones ks Wks) in *.
  pose proof (r_count _ _ _ R). pose proof (cap_pool _ _ C). split; [lia|]. unfold room. lia.
Qed.

Lemma extends_insert n B b d :
  (forall a, (a < next m)%nat -> B !! a = blocks m !! a) -> (next m <= b)%nat -> (next m <= n)%nat ->
  extends m0 (mkMem n (<[b := d]> B)).
Proof.
  intros K Hb Hn. destruct I as [_ _ _ [E1 E2] _ _]. split; cbn; [lia|]. intros a Ha.
  rewrite lookup_insert_ne by lia. rewrite K by lia. by apply E2.
Qed.

Lemma consts_step :
  fits c0 c1 ->
  inv m0 c0 (mkMem (length ks + next m) (add_blocks (next m) (blocks m) ks)) (add_infos (next m) info ks) c1.
Proof.
  intros F. destruct (consts_fit c1 F eq_refl) as [L _]. pose proof I as [Wm R C [E1 E2] _ Ow].
  destruct (repr_add_infos ks (next m) (blocks m) info c R Wks Wm L) as (R' & F' & K).
  split; [intros b Hb; apply F'; cbn in Hb; lia|done|by apply caps_add_infos| |apply F|];
    [|apply owned_add_infos; [done|done|done|]; pose proof (r_count _ _ _ R); lia].
  split; cbn; [lia|]. intros b Hb. rewrite K by lia. by apply E2.
Qed.

Lemma methods_step x :
  fits c0 (with_methods c1 (c_methods c1 ++ [x])) ->
  inv m0 c0 (mkMem (length ks + S (next m)) (<[next m := enc_member x]> (add_blocks (S (next m)) (blocks m) ks)))
    (grow_methods (add_infos (S (next m)) info ks) (zlen (enc_member x)) (next m))
    (with_methods c1 (c_methods c1 ++ [x])).
Proof.
  intros F. destruct (consts_fit _ F eq_refl) as [L _]. pose proof I as [Wm R C [X1 _] _ Ow].
  destruct (repr_add_infos ks (S (next m)) (blocks m) info c R Wks) as (R' & F' & K);
    [intros b Hb; apply Wm; lia|done|].
  assert (C' := caps_add_infos (S (next m)) info ks c0 C).
  assert (Hn : add_blocks (S (next m)) (blocks m) ks !! next m = None) by (rewrite K by lia; by apply Wm).
  assert (Hm : (length (c_methods c) < length (methods info))%nat).
  { pose proof (f_methods _ _ F) as Fm. cbn [c_methods with_methods] in Fm. rewrite length_app in Fm.
    unfold c1 in Fm. destruct (foldl_consts ks c) as (_ & Em & _). rewrite Em in Fm. cbn [length] in Fm.
    rewrite (cap_methods _ _ C). lia. }
  destruct (add_infos_same ks (S (next m)) info) as (Em & En & _).
  split; [| |destruct C'; split; fields_of; rewrite ?length_insert; done| |apply F|].
  - intros b Hb. cbn in *. rewrite lookup_insert_ne by lia. apply F'. lia.
  - apply repr_grow_methods; [exact R'|done|]. unfold c1. destruct (foldl_consts ks c) as (_ & -> & _).
    by rewrite Em.
  - apply extends_insert; [|lia|lia]. intros a Ha. apply K. lia.
  - destruct (owned_add_infos (next m0) ks (S (next m)) (blocks m) info Ow) as (Lp & Lm & O);
      [intros; apply Wm; lia|lia|pose proof (r_count _ _ _ R); lia|].
    exists Lp, (Lm ++ [next m]). apply own_grow_methods; [done|done|done|].
    rewrite Em, En, (r_nmethods _ _ _ R). lia.
Qed.

Lemma fields_step x :
  fits c0 (add_field c1 x) ->
  inv m0 c0
    (mkMem (S (length ks + next m))
       (<[(length ks + next m)%nat := enc_member x]> (add_blocks (next m) (blocks m) ks)))
    (grow_fields (add_infos (next m) info ks) (zlen (enc_member x)) (length ks + next m)) (add_field c1 x).
Proof.
  intros F. destruct (consts_fit _ F eq_refl) as [L _]. pose proof I as [Wm R C [X1 _] _ Ow].
  destruct (repr_add_infos ks (next m) (blocks m) info c R Wks Wm L) as (R' & F' & K).
  assert (C' := caps_add_infos (next m) info ks c0 C).
  split; [| |destruct C'; split; fields_of; rewrite ?length_insert; done| |apply F|].
  - intros b Hb. cbn in *. rewrite lookup_insert_ne by lia. apply F'. lia.
  - apply repr_grow_fields; [exact R'|apply F'; lia|]. pose proof (f_fields _ _ F) as Ff. fold c1.
    cbn [c_fields add_field] in Ff. rewrite length_app in Ff. cbn in Ff. rewrite (cap_fields _ _ C'). lia.
  - apply extends_insert; [done|lia|lia].
  - destruct (owned_add_infos (next m0) ks (next m) (blocks m) info Ow Wm X1) as (Lp & Lm & O);
      [pose proof (r_count _ _ _ R); lia|].
    exists Lp, Lm. apply own_grow_fields; [done|lia].
Qed.

End Step.

Lemma native_step m0 c0 m info c i x :
  inv m0 c0 m info c -> c_methods c !! i = Some x ->
  fits c0 (with_methods c (<[i := native x]> (c_methods c))) ->
  inv m0 c0 (new m (enc_member (native x))) (replace_method info i (8 - zlen (enc_member x)) (next m))
    (with_methods c (<[i := native x]> (c_methods c))).
Proof.
  intros I E F. pose proof I as [Wm R C [X1 _] W (Lp & Lm & O)]. apply lookup_lt_Some in E as Hi.
  assert (Hm : (length (c_methods c) <= length (methods info))%nat).
  { rewrite (cap_methods _ _ C). pose proof (f_methods _ _ F) as Fm. cbn in Fm. rewrite length_insert in Fm. lia. }
  split; [by apply wf_new| |destruct C; split; fields_of; rewrite ?length_insert; done| |apply F|].
  - change 8 with (zlen (enc_member (native x))). apply repr_replace_method; [done|by apply Wm|done|done].
  - by apply (extends_insert m0 c0 m info c I); [|lia|lia].
  - pose proof (r_nmethods _ _ _ R). apply (own_replace _ _ _ Lp Lm); [done|by apply Wm|done|lia|lia].
Qed.

(** The pointer and the shape of a method of the class. *)
Lemma method_cell m0 c0 m info c i x :
  inv m0 c0 m info c -> c_methods c !! i = Some x ->
  exists p, methods info !! i = Some (Some p) /\ points (blocks m) p (enc_member x) /\ wf_member x.
Proof.
  intros [_ R _ _ W _] E. destruct (r_methods _ _ _ R i (enc_member x)) as (p & Ep & P).
  { change (map enc_member (c_methods c)) with (enc_member <$> c_methods c). by rewrite list_lookup_fmap, E. }
  exists p. split_and!; [done|done|]. exact (Forall_lookup_1 _ _ _ _ (wc_methods _ W) E).
Qed.

Lemma ones_utf8 l : Forall (fun k => width k = 1%nat) (map Utf8 l).
Proof. apply Forall_map, Forall_true. done. Qed.

Lemma next_index_count m0 c0 m info c : inv m0 c0 m info c -> constant_pool_count info = next_index c.
Proof. intros [_ R _ _ _ _]. apply (r_count _ _ _ R). Qed.

Lemma copy_refines m0 c0 m info c i newName :
  inv m0 c0 m info c -> edit_valid c (ECopyMethod i newName) ->
  fits c0 (apply_edit c (ECopyMethod i newName)) ->
  exists m' info', run_edit m info (ECopyMethod i newName) = Def (m', info') /\
    inv m0 c0 m' info' (apply_edit c (ECopyMethod i newName)).
Proof.
  intros I V F. destruct (lookup_lt_is_Some_2 (c_methods c) i V) as [x E].
  destruct (method_cell _ _ _ _ _ _ _ I E) as (p & Ep & P & W).
  unfold apply_edit in *. cbn [edit_consts edit_members foldl] in *.
  change (c_methods (add_const c (Utf8 newName))) with (c_methods c) in *. rewrite E in *.
  assert (Wk := ones_utf8 [newName]).
  destruct (consts_fit m0 c0 m info c I _ Wk _ F eq_refl) as [_ Rm].
  pose proof I as [Wm R C _ Wc _]. pose proof (f_methods _ _ F) as Fm. pose proof (f_wf _ _ F) as Wf.
  pose proof (proj2 (wc_nmethods _ Wf)) as Hn.
  cbn [with_methods c_methods] in Fm, Hn. rewrite length_app in Fm, Hn. cbn [length] in Fm, Hn.
  unfold run_edit. rewrite (cell_ok _ _ _ Ep). cbn [mbind ub_bind].
  rewrite (javaCopyMethod_spec m info p x newName (length (c_methods c)));
    [|done|done|done|done|apply (r_nmethods _ _ _ R)|rewrite (cap_methods _ _ C); lia|lia].
  rewrite (next_index_count _ _ _ _ _ I).
  eexists _, _; split; [reflexivity|].
  exact (methods_step m0 c0 m info c I [Utf8 newName] Wk (rename x (next_index c)) F).
Qed.

Lemma native_refines m0 c0 m info c i :
  inv m0 c0 m info c -> edit_valid c (EConvertMethodToNative i) ->
  fits c0 (apply_edit c (EConvertMethodToNative i)) ->
  exists m' info', run_edit m info (EConvertMethodToNative i) = Def (m', info') /\
    inv m0 c0 m' info' (apply_edit c (EConvertMethodToNative i)).
Proof.
  intros I V F. destruct (lookup_lt_is_Some_2 (c_methods c) i V) as [x E].
  destruct (method_cell _ _ _ _ _ _ _ I E) as (p & Ep & P & W).
  unfold apply_edit in *. cbn [edit_consts edit_members foldl] in *. rewrite E in *.
  unfold run_edit. rewrite (javaConvertMethodToNative_spec m info i p x (i_mem _ _ _ _ _ I)) by done.
  eexists _, _; split; [reflexivity|]. by apply native_step.
Qed.

Lemma field_refines m0 c0 m info c name desc acc :
  inv m0 c0 m info c -> fits c0 (apply_edit c (EAddField name desc acc)) ->
  exists m' info', run_edit m info (EAddField name desc acc) = Def (m', info') /\
    inv m0 c0 m' info' (apply_edit c (EAddField name desc acc)).
Proof.
  intros I F. unfold apply_edit in *. cbn [edit_consts edit_members] in *.
  assert (Wk := ones_utf8 [name; desc]).
  destruct (consts_fit m0 c0 m info c I _ Wk _ F eq_refl) as [_ Rm].
  pose proof I as [Wm R C _ Wc _]. pose proof (f_fields _ _ F) as Ff. pose proof (f_wf _ _ F) as Wf.
  pose proof (proj2 (wc_nfields _ Wf)) as Hn.
  cbn [add_field c_fields] in Ff, Hn. rewrite length_app in Ff, Hn. cbn [foldl add_const c_fields length] in Ff, Hn.
  unfold run_edit. rewrite (javaAddField_spec m info name desc acc (length (c_fields c)));
    [|done|done|apply (r_nfields _ _ _ R)|rewrite (cap_fields _ _ C); lia|lia].
  rewrite (next_index_count _ _ _ _ _ I).
  eexists _, _; split; [reflexivity|].
  pose proof (fields_step m0 c0 m info c I [Utf8 name; Utf8 desc] Wk _ F) as H.
  exact H.
Qed.

Lemma method_refines m0 c0 m info c name desc acc ms ml code :
  inv m0 c0 m info c -> fits c0 (apply_edit c (EAddMethod name desc acc ms ml code)) ->
  exists m' info', run_edit m info (EAddMethod name desc acc ms ml code) = Def (m', info') /\
    inv m0 c0 m' info' (apply_edit c (EAddMethod name desc acc ms ml code)).
Proof.
  intros I F. unfold apply_edit in *. cbn [edit_consts edit_members] in *.
  assert (Wk : Forall (fun k => width k = 1%nat) (method_consts name desc code))
    by (destruct code; repeat constructor).
  destruct (consts_fit m0 c0 m info c I _ Wk _ F eq_refl) as [_ Rm].
  pose proof I as [Wm R C _ Wc _]. pose proof (f_methods _ _ F) as Fm. pose proof (f_wf _ _ F) as Wf.
  pose proof (proj2 (wc_nmethods _ Wf)) as Hn.
  destruct (foldl_consts (method_consts name desc code) c) as (_ & Em & _).
  cbn [with_methods c_methods] in Fm, Hn. rewrite length_app, Em in Fm, Hn. cbn [length] in Fm, Hn.
  pose proof (methods_step m0 c0 m info c I _ Wk _ F) as H.
  unfold run_edit. eexists _, _; split; [|exact H].
  rewrite <- (next_index_count _ _ _ _ _ I). cbn [length] in H.
  destruct code as [cd|].
  - rewrite (javaAddMethod_code m info name desc acc ms ml cd (length (c_methods c)));
      [|done|done|apply (r_nmethods _ _ _ R)|rewrite (cap_methods _ _ C); lia|lia].
    reflexivity.
  - rewrite (javaAddMethod_native m info name desc acc ms ml (length (c_methods c)));
      [|done|done|apply (r_nmethods _ _ _ R)|rewrite (cap_methods _ _ C); lia|lia].
    reflexivity.
Qed.

Lemma edit_refines m0 c0 m info c e :
  inv m0 c0 m info c -> edit_valid c e -> fits c0 (apply_edit c e) ->
  exists m' info', run_edit m info e = Def (m', info') /\ inv m0 c0 m' info' (apply_edit c e).
Proof.
  destruct e as [i nm|i|name desc acc|name desc acc ms ml code|name desc|ci ni]; intros I V F.
  - by apply copy_refines.
  - by apply native_refines.
  - by apply field_refines.
  - by apply method_refines.
  - assert (Wk : Forall (fun k => width k = 1%nat) (edit_consts c (EAddNameAndTypeTag name desc)))
      by repeat constructor.
    destruct (consts_fit m0 c0 m info c I _ Wk _ F eq_refl) as [_ Rm].
    unfold run_edit. rewrite javaAddNameAndTypeTag_spec by done. cbn [mbind ub_bind].
    rewrite (next_index_count _ _ _ _ _ I). eexists _, _; split; [reflexivity|].
    exact (consts_step m0 c0 m info c I _ Wk F).
  - assert (Wk : Forall (fun k => width k = 1%nat) (edit_consts c (EAddMethodRefTag ci ni)))
      by repeat constructor.
    destruct (consts_fit m0 c0 m info c I _ Wk _ F eq_refl) as [_ Rm].
    unfold run_edit. rewrite javaAddMethodRefTag_spec by done. cbn [mbind ub_bind].
    eexists _, _; split; [reflexivity|]. exact (consts_step m0 c0 m info c I _ Wk F).
Qed.

Lemma edits_refine m0 c0 es : forall m info c,
  inv m0 c0 m info c -> all_fit c0 c es ->
  exists m' info', run_edits m info es = Def (m', info') /\ inv m0 c0 m' info' (foldl apply_edit c es).
Proof.
  induction es as [|e es IH]; intros m info c I A; cbn [run_edits foldl]; [eauto|].
  destruct A as (V & F & A). destruct (edit_refines _ _ _ _ _ _ I V F) as (m' & info' & -> & I').
  cbn [mbind ub_bind]. by apply IH.
Qed.

Lemma read_inv m p c :
  wf_mem m -> points (blocks m) p (enc_class c) -> wf_class c ->
  exists info, javaReadClass true m p = Def (Some info) /\ inv m c m info c /\
    constant_pool_count0 info = next_index c /\ methods_count0 info = zlen (c_methods c).
Proof.
  intros Wm P W. destruct (javaReadClass_spec m p c P W) as (info & E & R & C & E1 & E2).
  exists info. split_and!; [done| |by rewrite E1, (r_count _ _ _ R)|by rewrite E2, (r_nmethods _ _ _ R)].
  split; try done. exists [], []. split; try done.
  - rewrite E1, E2, (r_count _ _ _ R), (r_nmethods _ _ _ R). lia.
  - rewrite E1. cbn. lia.
  - rewrite E2. cbn. lia.
  - constructor.
  - by intros b ?%elem_of_nil.
Qed.

Lemma write_inv m0 c0 m info c :
  inv m0 c0 m info c ->
  class_length info = zlen (enc_class c) /\
  let '(dest, m1) := malloc fill m (class_length info) in
  javaWriteClass m1 dest info = Def (new m (enc_class c)).
Proof.
  intros [Wm R _ _ W _]. assert (El : class_length info = zlen (enc_class c)).
  { rewrite (r_length _ _ _ R). apply u32_small. pose proof (wc_length _ W). lia. }
  split; [done|]. unfold malloc. apply javaWriteClass_spec; [done|done|by apply Wm|].
  rewrite length_fill. lia.
Qed.

(** ** Looking up methods *)

(** The constant at an index of the pool (from zero), if it is one. *)
Fixpoint const_at (ks : list const) (i : nat) : option const :=
  match ks with
  | [] => None
  | k :: ks => if (i =? 0)%nat then Some k
               else if (i <? width k)%nat then None else const_at ks (i - width k)
  end.
Definition utf8_at (c : class_file) (idx : Z) : option (list Z) :=
  if idx <? 1 then None
  else match const_at (c_pool c) (Z.to_nat (idx - 1)) with Some (Utf8 s) => Some s | _ => None end.

(** Every method has a name and a descriptor. *)
Definition named (c : class_file) (x : member) : Prop :=
  is_Some (utf8_at c (m_name x)) /\ is_Some (utf8_at c (m_desc x)).
Definition names_ok (c : class_file) : Prop := Forall (named c) (c_methods c).

Definition matches (c : class_file) (name desc : list Z) (x : member) : bool :=
  bool_decide (cstr <$> utf8_at c (m_name x) = Some name) &&
  bool_decide (cstr <$> utf8_at c (m_desc x) = Some desc).
Definition find_method (c : class_file) (name desc : list Z) : option nat :=
  fst <$> list_find (fun x => matches c name desc x = true) (c_methods c).

Lemma pool_lookup B ks a : forall j i k, pool_at B j ks a -> const_at ks i = Some k ->
  exists p, a !! (j + i)%nat = Some (Some p) /\ points B p (enc_const k).
Proof.
  induction ks as [|k' ks IH]; intros j i k T E; [done|]. cbn [const_at] in E.
  destruct T as [T1 T2]. destruct (Nat.eqb_spec i 0) as [->|Hi].
  - injection E as <-. by rewrite Nat.add_0_r.
  - destruct (Nat.ltb_spec i (width k')) as [|Hw]; [done|].
    destruct (IH _ _ _ T2 E) as (p & Ep & P). exists p. split; [|done]. rewrite <- Ep. f_equal. lia.
Qed.

Lemma const_at_wf ks i k : Forall wf_const ks -> const_at ks i = Some k -> wf_const k.
Proof.
  intros W. revert i. induction W as [|k' ks Wk Ws IH]; intros i E; [done|]. cbn [const_at] in E.
  repeat case_match; simplify_eq; eauto.
Qed.

Lemma javaGetUtf8String_spec m info c idx s :
  repr (blocks m) info c -> wf_class c -> utf8_at c idx = Some s ->
  javaGetUtf8String m info idx = Def (cstr s).
Proof.
  intros R W E. unfold utf8_at in E. destruct (Z.ltb_spec idx 1); [done|].
  destruct (const_at (c_pool c) (Z.to_nat (idx - 1))) as [[s'|]|] eqn:Ek; try done. injection E as ->.
  destruct (pool_lookup _ _ _ _ _ _ (r_pool _ _ _ R) Ek) as (p & Ep & P).
  pose proof (const_at_wf _ _ _ (wc_pool _ W) Ek) as Ws. cbn [wf_const] in Ws.
  unfold javaGetUtf8String. cbn [Nat.add] in Ep. replace (idx - 1) with (Z.of_nat (Z.to_nat (idx - 1))) by lia.
  rewrite (cell_ok _ _ _ Ep). cbn [mbind ub_bind]. destruct (points_view _ _ _ P) as [rest ->].
  cbn [enc_const]. rewrite (be16_at _ 1 (zlen s) (s ++ rest)); [|lia|reflexivity|unfold is16; lia].
  cbn [mbind ub_bind]. change (drop 3 _) with (s ++ rest). by rewrite bytes_app.
Qed.

Lemma find_loop_spec m info c name desc : repr (blocks m) info c -> wf_class c ->
  forall l i, Forall (named c) l -> Forall wf_member l -> table (blocks m) i (map enc_member l) (methods info) ->
  find_method_loop (length l) m info name desc (Z.of_nat i) =
  Def (match list_find (fun x => matches c name desc x = true) l with
       | Some (j, _) => Z.of_nat (i + j) | None => -1 end).
Proof.
  intros R W. induction l as [|x l IH]; intros i Hn Hw T; [done|].
  apply Forall_cons in Hn as [[[n En] [d Ed]] Hn]. apply Forall_cons in Hw as [Wx Hw].
  cbn [map] in T. apply table_cons in T as [(p & Ep & P) T]. cbn [length find_method_loop].
  rewrite (cell_ok _ _ _ Ep). cbn [mbind ub_bind]. destruct (points_view _ _ _ P) as [rest ->].
  destruct Wx as (W1 & W2 & W3 & _).
  rewrite (be16_at _ 2 (m_name x) (drop 4 (enc_member x) ++ rest)) by (done || lia). cbn [mbind ub_bind].
  rewrite (be16_at _ 4 (m_desc x) (drop 6 (enc_member x) ++ rest)) by (done || lia). cbn [mbind ub_bind].
  rewrite (javaGetUtf8String_spec _ _ _ _ _ R W En), (javaGetUtf8String_spec _ _ _ _ _ R W Ed).
  cbn [mbind ub_bind list_find].
  assert (Em : matches c name desc x = bool_decide (name = cstr n) && bool_decide (desc = cstr d)).
  { unfold matches. rewrite En, Ed. cbn. f_equal; apply bool_decide_ext; split; congruence. }
  rewrite Em. destruct (bool_decide (name = cstr n) && bool_decide (desc = cstr d)).
  - rewrite decide_True by done. by rewrite Nat.add_0_r.
  - rewrite decide_False by done. replace (Z.of_nat i + 1) with (Z.of_nat (S i)) by lia.
    rewrite IH by done. destruct (list_find _ l) as [[j y]|]; cbn; do 2 f_equal; lia.
Qed.

Lemma javaFindMethodIndex_spec m info c name desc :
  repr (blocks m) info c -> wf_class c -> names_ok c ->
  javaFindMethodIndex m info name desc =
  Def (match find_method c name desc with Some i => Z.of_nat i | None => -1 end).
Proof.
  intros R W N. unfold javaFindMethodIndex. rewrite (r_nmethods _ _ _ R), Nat2Z.id.
  change 0 with (Z.of_nat 0). rewrite (find_loop_spec m info c name desc R W _ 0 N (wc_methods _ W));
    [|apply (r_methods _ _ _ R)].
  unfold find_method. by destruct (list_find _ _) as [[j y]|].
Qed.

Lemma find_method_lt c name desc i : find_method c name desc = Some i -> (i < length (c_methods c))%nat.
Proof.
  unfold find_method. destruct (list_find _ _) as [[j y]|] eqn:E; [|done]. intros [= <-].
  apply list_find_Some in E as (E & _). by eapply lookup_lt_Some.
Qed.

(** ** Releasing *)

Lemma release_from_spec a L : forall i m,
  (forall j b, L !! j = Some b -> a !! (i + j)%nat = Some (Some (b, 0))) -> NoDup L ->
  (forall b, b ∈ L -> is_Some (blocks m !! b)) ->
  exists m', release_from (length L) m a (Z.of_nat i) = Def m' /\
    forall b, b ∉ L -> blocks m' !! b = blocks m !! b.
Proof.
  induction L as [|x L IH]; intros i m A N Lv; cbn [length release_from]; [eauto|].
  apply NoDup_cons in N as [Nx N]. pose proof (A 0%nat x eq_refl) as Ex. rewrite Nat.add_0_r in Ex.
  rewrite (cell_ok _ _ _ Ex). cbn [mbind ub_bind]. unfold release. cbn [fst snd].
  rewrite bool_decide_true by (apply Lv; set_solver). cbn [andb Z.eqb mbind ub_bind].
  replace (Z.of_nat i + 1) with (Z.of_nat (S i)) by lia.
  destruct (IH (S i) (mkMem (next m) (delete x (blocks m)))) as (m' & E & K); [|done| |].
  - intros j b Ej. specialize (A (S j) b Ej). by rewrite Nat.add_succ_r in A.
  - intros b Hb. cbn. rewrite lookup_delete_ne by set_solver. apply Lv. set_solver.
  - exists m'. split; [done|]. intros b Hb. rewrite K by set_solver. cbn. rewrite lookup_delete_ne; set_solver.
Qed.

Lemma javaDestroy_spec n0 B m info Lp Lm :
  own n0 B info Lp Lm -> (forall b, b ∈ Lp ++ Lm -> is_Some (blocks m !! b)) ->
  exists m', javaDestroy m info = Def m' /\ forall b, b ∉ Lp ++ Lm -> blocks m' !! b = blocks m !! b.
Proof.
  intros O Lv. destruct O. apply NoDup_app in o_nodup0 as (N1 & N2 & N3). unfold javaDestroy.
  rewrite o_npool0, o_nmethods0.
  replace (Z.to_nat (constant_pool_count0 info + zlen Lp - constant_pool_count0 info)) with (length Lp) by lia.
  replace (Z.to_nat (methods_count0 info + zlen Lm - methods_count0 info)) with (length Lm) by lia.
  replace (constant_pool_count0 info - 1) with (Z.of_nat (Z.to_nat (constant_pool_count0 info - 1))) by lia.
  replace (methods_count0 info) with (Z.of_nat (Z.to_nat (methods_count0 info))) by lia.
  destruct (release_from_spec (constant_pool info) Lp (Z.to_nat (constant_pool_count0 info - 1)) m)
    as (m1 & -> & K1); [done|done|set_solver|]. cbn [mbind ub_bind].
  destruct (release_from_spec (methods info) Lm (Z.to_nat (methods_count0 info)) m1)
    as (m2 & -> & K2); [done|done| |].
  - intros b Hb. rewrite K1; [set_solver|]. intros Hp. by apply (N2 b Hp).
  - exists m2. split; [done|]. intros b Hb. rewrite K2, K1; set_solver.
Qed.

Lemma give_back_spec m0 c0 m info c :
  inv m0 c0 m info c ->
  exists m', give_back m info = Def (m', None) /\
    forall b, (b < next m0)%nat -> blocks m' !! b = blocks m0 !! b.
Proof.
  intros [_ _ _ [X1 X2] _ (Lp & Lm & O)]. unfold give_back.
  destruct (javaDestroy_spec _ _ m _ _ _ O) as (m' & -> & K); [intros b Hb; by apply (o_live _ _ _ _ _ O)|].
  exists m'. split; [done|]. intros b Hb. rewrite K; [by apply X2|].
  intros Hin. destruct (o_live _ _ _ _ _ O b Hin). lia.
Qed.

Lemma install_spec m0 c0 m info c :
  inv m0 c0 m info c ->
  exists m' d, install fill m info = Def (m', Some ((d, 0), zlen (enc_class c))) /\
    blocks m' !! d = Some (enc_class c) /\ (next m0 <= d)%nat /\
    forall b, (b < next m0)%nat -> blocks m' !! b = blocks m0 !! b.
Proof.
  intros I. destruct (write_inv _ _ _ _ _ I) as [El Ew]. pose proof I as [Wm R _ [X1 X2] _ (Lp & Lm & O)].
  unfold install. destruct (malloc fill m (class_length info)) as [dest m1] eqn:Em.
  unfold malloc in Em. injection Em as <- <-. rewrite Ew. cbn [mbind ub_bind].
  assert (Hn : blocks m !! next m = None) by (by apply Wm).
  destruct (javaDestroy_spec _ _ (new m (enc_class c)) _ _ _ O) as (m' & -> & K).
  { intros b Hb. cbn. rewrite lookup_insert_ne; [by apply (o_live _ _ _ _ _ O)|].
    intros <-. by apply (own_fresh _ _ _ _ _ _ O Hn). }
  cbn [mbind ub_bind]. exists m', (next m). rewrite El. split_and!; [done| |done|].
  - rewrite K by (by apply (own_fresh _ _ _ _ _ _ O)). cbn. apply lookup_insert_eq.
  - intros b Hb. rewrite K.
    + cbn. rewrite lookup_insert_ne by lia. by apply X2.
    + intros Hin. destruct (o_live _ _ _ _ _ O b Hin). lia.
Qed.

(** ** The load hook *)

(** The edits that wrap methods, and whether all of them were found. *)
Definition wrap_edits (i : nat) (newName : string) : list edit :=
  [ECopyMethod i (bytes_of newName); EConvertMethodToNative i].
Fixpoint hook_edits (c : class_file) (l : list (string * string * string)) : list edit * bool :=
  match l with
  | [] => ([], true)
  | (method, signature, newName) :: l =>
      match find_method c (bytes_of method) (bytes_of signature) with
      | None => ([], false)
      | Some i =>
          let es := wrap_edits i newName in
          let r := hook_edits (foldl apply_edit c es) l in (es ++ fst r, snd r)
      end
  end.
Definition rewriting_edits (c : class_file) (r : rewriting) : list edit * bool :=
  match r with
  | Wrap l => hook_edits c l
  | NewField name desc => ([EAddField (bytes_of name) (bytes_of desc) ACC_PRIVATE], true)
  end.

Lemma const_at_app ks k : forall i, is_Some (const_at ks i) -> const_at (ks ++ [k]) i = const_at ks i.
Proof.
  induction ks as [|k' ks IH]; intros i [x E]; [done|]. cbn [app const_at] in *.
  repeat case_match; eauto.
Qed.

Lemma const_at_new ks k : const_at (ks ++ [k]) (slots ks) = Some k.
Proof.
  induction ks as [|k' ks IH]; [done|]. change (slots (k' :: ks)) with (width k' + slots ks)%nat.
  cbn [app const_at]. pose proof (width_pos k').
  destruct (Nat.eqb_spec (width k' + slots ks) 0); [lia|].
  destruct (Nat.ltb_spec (width k' + slots ks) (width k')); [lia|].
  by replace (width k' + slots ks - width k')%nat with (slots ks) by lia.
Qed.

Lemma utf8_at_app c k idx : is_Some (utf8_at c idx) -> is_Some (utf8_at (add_const c k) idx).
Proof.
  unfold utf8_at. destruct (idx <? 1); [done|]. intros H. fields_of.
  rewrite const_at_app; [done|]. by destruct (const_at _ _) as [[]|]; destruct H.
Qed.

Lemma named_copy c k x newName :
  named c x -> k = Utf8 newName -> named (add_const c k) (rename x (next_index c)).
Proof.
  intros [H1 H2] ->. split; [|by apply utf8_at_app].
  unfold utf8_at, next_index, rename. cbn [m_name]. destruct (Z.ltb_spec (1 + Z.of_nat (slots (c_pool c))) 1); [lia|].
  fields_of. replace (Z.to_nat (1 + Z.of_nat (slots (c_pool c)) - 1)) with (slots (c_pool c)) by lia.
  rewrite const_at_new. eauto.
Qed.

Lemma names_wrap c i newName :
  names_ok c -> (i < length (c_methods c))%nat -> names_ok (foldl apply_edit c (wrap_edits i newName)).
Proof.
  intros N Hi. destruct (lookup_lt_is_Some_2 _ _ Hi) as [x E]. cbn [wrap_edits foldl].
  set (k := Utf8 (bytes_of newName)).
  assert (E1 : apply_edit c (ECopyMethod i (bytes_of newName)) =
    with_methods (add_const c k) (c_methods c ++ [rename x (next_index c)])).
  { unfold apply_edit. cbn [edit_consts edit_members foldl]. fields_of. by rewrite E. }
  rewrite E1. unfold apply_edit. cbn [edit_consts edit_members foldl]. fields_of.
  rewrite lookup_app_l, E by done. unfold names_ok. fields_of.
  assert (Nx := Forall_lookup_1 _ _ _ _ N E).
  assert (F : Forall (named (add_const c k)) (c_methods c ++ [rename x (next_index c)])).
  { apply Forall_app. split; [|constructor; [by eapply named_copy|constructor]].
    eapply Forall_impl; [exact N|]. intros y [H1 H2]. split; by apply utf8_at_app. }
  apply (Forall_insert (named (add_const c k)) _ i (native x) F).
  destruct Nx. split; by apply utf8_at_app.
Qed.

Lemma all_fit_app c0 es1 es2 : forall c,
  all_fit c0 c (es1 ++ es2) <-> all_fit c0 c es1 /\ all_fit c0 (foldl apply_edit c es1) es2.
Proof. induction es1 as [|e es1 IH]; intros c; cbn; [tauto|]. rewrite IH. tauto. Qed.

(** One wrapped method. *)
Lemma hook_method_spec m0 c0 m info c method signature newName :
  inv m0 c0 m info c -> names_ok c ->
  match find_method c (bytes_of method) (bytes_of signature) with
  | None => hook_method fill m info method signature newName = Def None
  | Some i =>
      all_fit c0 c (wrap_edits i newName) ->
      exists m' info', hook_method fill m info method signature newName = Def (Some (m', info')) /\
        inv m0 c0 m' info' (foldl apply_edit c (wrap_edits i newName))
  end.
Proof.
  intros I N. pose proof I as [_ R _ _ W _]. unfold hook_method.
  rewrite (javaFindMethodIndex_spec m info c _ _ R W N). cbn [mbind ub_bind].
  destruct (find_method c (bytes_of method) (bytes_of signature)) as [i|]; [|done].
  intros A. destruct (edits_refine m0 c0 (wrap_edits i newName) m info c I A) as (m' & info' & E & I').
  exists m', info'. split; [|done]. unfold wrap_edits in E. cbn [run_edits run_edit] in E.
  destruct (Z.eqb_spec (Z.of_nat i) (-1)); [lia|].
  destruct (cell (methods info) (Z.of_nat i)) as [p|]; [|done]. cbn [mbind ub_bind] in *.
  destruct (javaCopyMethod fill m info p (bytes_of newName)) as [[m1 i1]|]; [|done]. cbn [mbind ub_bind] in *.
  destruct (javaConvertMethodToNative fill m1 i1 (Z.of_nat i)) as [[[m2 i2] q]|]; [|done].
  cbn [mbind ub_bind] in *. by injection E as -> ->.
Qed.

(** The outcome of the hook: the new class data, or none, and nothing else is changed. *)
Definition outcome (m0 : mem) (r : ub (mem * option (ptr * Z))) (result : option class_file) : Prop :=
  exists m' new, r = Def (m', new) /\
    (forall b, (b < next m0)%nat -> blocks m' !! b = blocks m0 !! b) /\
    match result, new with
    | Some c, Some (p, n) => snd p = 0 /\ (next m0 <= fst p)%nat /\
                             blocks m' !! fst p = Some (enc_class c) /\ n = zlen (enc_class c)
    | None, None => True
    | _, _ => False
    end.

Lemma installed m0 c0 m info c :
  inv m0 c0 m info c -> outcome m0 (install fill m info) (Some c).
Proof.
  intros I. destruct (install_spec _ _ _ _ _ I) as (m' & d & E & Hd & Hn & K).
  exists m', (Some ((d, 0), zlen (enc_class c))). done.
Qed.

Lemma hook_methods_spec m0 c0 l : forall m info c,
  inv m0 c0 m info c -> names_ok c -> all_fit c0 c (fst (hook_edits c l)) ->
  outcome m0 (hook_methods fill l m info)
    (if snd (hook_edits c l) then Some (foldl apply_edit c (fst (hook_edits c l))) else None).
Proof.
  induction l as [|[[method signature] newName] l IH]; intros m info c I N A; cbn [hook_methods hook_edits] in *.
  - by apply installed with (c0 := c0).
  - pose proof (hook_method_spec _ _ _ _ _ method signature newName I N) as H.
    destruct (find_method c (bytes_of method) (bytes_of signature)) as [i|] eqn:Ef.
    + cbn [fst snd] in *. rewrite foldl_app. apply all_fit_app in A as [A1 A2].
      destruct (H A1) as (m' & info' & -> & I'). cbn [mbind ub_bind].
      apply IH; [done| |done]. apply names_wrap; [done|]. by eapply find_method_lt.
    + rewrite H. cbn [mbind ub_bind fst snd]. destruct (give_back_spec _ _ _ _ _ I) as (m' & E & K).
      exists m', None. done.
Qed.

Lemma load_hook m p c name r :
  wf_mem m -> points (blocks m) p (enc_class c) -> wf_class c -> names_ok c ->
  rewriting_of name = Some r -> all_fit c c (fst (rewriting_edits c r)) ->
  outcome m (ClassFileLoadHook fill true m (Some name) p)
    (if snd (rewriting_edits c r) then Some (foldl apply_edit c (fst (rewriting_edits c r))) else None).
Proof.
  intros Wm P W N Er A. unfold ClassFileLoadHook. rewrite Er.
  destruct (read_inv m p c Wm P W) as (info & -> & I & _). cbn [mbind ub_bind].
  destruct r as [l|f d]; cbn [rewriting_edits fst snd] in *; [by apply (hook_methods_spec m c)|].
  destruct (edits_refine m c _ m info c I A) as (m' & info' & E & I').
  cbn [run_edits run_edit] in E.
  destruct (javaAddField fill m info (bytes_of f) (bytes_of d) ACC_PRIVATE) as [[m1 i1]|]; [|done].
  cbn [mbind ub_bind] in *. injection E as -> ->. by apply installed with (c0 := c).
Qed.

End Edits.

(** ** Theorems *)

(** C29: a class file that is read and edited by any sequence of calls of
    [javaCopyMethod], [javaConvertMethodToNative], [javaAddField],
    [javaAddMethod], [javaAddNameAndTypeTag] and [javaAddMethodRefTag] is
    written as the encoding of the edited class file: no access is out of
    bounds, the tracked length is exactly the length of the output, and the
    blocks that existed before, the class data among them, are unchanged.  The
    edits must refer to existing methods and stay within the room of 100
    additions and the limits of the format.  The two editing functions that no
    code calls are not covered: [javaAddStringTag] loses three bytes of the
    length ([string_tag_overflows]) and [javaInjectCode] writes into the class
    data it was given ([injected_code_changes_input]). *)
Theorem class_edits_refine (fill : nat -> Z -> Z) (m : mem) (p : ptr) (c : class_file) (es : list edit) :
  wf_mem m -> points (blocks m) p (enc_class c) -> wf_class c -> all_fit c c es ->
  exists info m1 info1 m2,
    javaReadClass true m p = Def (Some info) /\
    run_edits fill m info es = Def (m1, info1) /\
    class_length info1 = zlen (enc_class (foldl apply_edit c es)) /\
    (let '(dest, m1') := malloc fill m1 (class_length info1) in javaWriteClass m1' dest info1) = Def m2 /\
    blocks m2 !! next m1 = Some (enc_class (foldl apply_edit c es)) /\
    (forall b, (b < next m)%nat -> blocks m2 !! b = blocks m !! b).
Proof.
  intros Wm P W A. destruct (read_inv m p c Wm P W) as (info & E & I & _).
  destruct (edits_refine fill m c es m info c I A) as (m1 & info1 & E1 & I1).
  destruct (write_inv fill _ _ _ _ _ I1) as [El Ew].
  exists info, m1, info1, (new m1 (enc_class (foldl apply_edit c es))).
  split_and!; [done|done|done|exact Ew|apply lookup_insert_eq|].
  - destruct (i_ext _ _ _ _ _ I1) as [X1 X2]. cbn [new blocks]. intros b Hb. rewrite lookup_insert_ne by lia. by apply X2.
Qed.

(** C28: the class load hook of the Java agent replaces a class it knows by the
    encoding of that class with each hooked method copied under its new name and
    the original turned native (or with the new field), in a block of exactly
    its length; when a hooked method is missing it leaves the class alone.  All
    accesses are in bounds, the class record is released without a double free
    and the blocks of the caller are unchanged. *)
Theorem load_hook_instruments (fill : nat -> Z -> Z) (m : mem) (p : ptr) (c : class_file)
    (name : string) (r : rewriting) :
  wf_mem m -> points (blocks m) p (enc_class c) -> wf_class c -> names_ok c ->
  rewriting_of name = Some r -> all_fit c c (fst (rewriting_edits c r)) ->
  outcome m (ClassFileLoadHook fill true m (Some name) p)
    (if snd (rewriting_edits c r) then Some (foldl apply_edit c (fst (rewriting_edits c r))) else None).
Proof. apply load_hook. Qed.

(** A class with one method [write([BII)V], and a double constant before its name. *)
Definition stream_class : class_file :=
  mkFile 0 52 [Utf8 (bytes_of "AppOutputStream"); Const 7 [0; 1]; Const 6 [64; 69; 0; 0; 0; 0; 0; 0];
               Utf8 (bytes_of "write"); Utf8 (bytes_of "([BII)V"); Utf8 (bytes_of "Code")]
    33 2 2 [] [] [mkMember 1 5 6 [mkAttr 7 (code_data 1 4 [177])]] [].
Definition stream_mem : mem := mkMem 1 {[0%nat := enc_class stream_class]}.

(** Well-formedness of a concrete class. *)
Ltac bounds := vm_compute; repeat split; congruence.
Ltac each tac :=
  lazymatch goal with
  | |- Forall ?P ?l => let l' := eval vm_compute in l in change (Forall P l')
  end; repeat (constructor; [tac|]); constructor.
Ltac concrete_const := vm_compute; reflexivity.
Ltac concrete_attr := split; bounds.
Ltac concrete_member :=
  unfold wf_member; repeat match goal with |- _ /\ _ => split end;
  first [ each concrete_attr | bounds ].
Ltac concrete_class :=
  split;
  lazymatch goal with
  | |- Forall wf_const _ => each concrete_const
  | |- Forall wf_member _ => each concrete_member
  | |- Forall wf_attr _ => each concrete_attr
  | _ => bounds
  end.
Ltac concrete_fits := split; [concrete_class|vm_compute; lia..].

Lemma stream_wf : wf_class stream_class.
Proof. concrete_class. Qed.

Lemma stream_mem_wf : wf_mem stream_mem.
Proof. intros b Hb. cbn in *. rewrite lookup_singleton_ne by lia. done. Qed.

Lemma stream_points : points (blocks stream_mem) (0%nat, 0) (enc_class stream_class).
Proof. split; [done|]. exists []. by rewrite app_nil_r. Qed.

Lemma stream_names : names_ok stream_class.
Proof. repeat constructor; vm_compute; eauto. Qed.

Lemma stream_fit : all_fit stream_class stream_class (wrap_edits 0 "__write").
Proof.
  split; [vm_compute; lia|]. split; [concrete_fits|]. split; [vm_compute; lia|].
  split; [concrete_fits|done].
Qed.

Lemma class_edits_refine_witness :
  exists info m1 info1 m2,
    javaReadClass true stream_mem (0%nat, 0) = Def (Some info) /\
    run_edits (fun _ _ => 7) stream_mem info (wrap_edits 0 "__write") = Def (m1, info1) /\
    class_length info1 = zlen (enc_class (foldl apply_edit stream_class (wrap_edits 0 "__write"))) /\
    (let '(dest, m1') := malloc (fun _ _ => 7) m1 (class_length info1) in javaWriteClass m1' dest info1)
      = Def m2 /\
    blocks m2 !! next m1 = Some (enc_class (foldl apply_edit stream_class (wrap_edits 0 "__write"))) /\
    (forall b, (b < 1)%nat -> blocks m2 !! b = blocks stream_mem !! b).
Proof.
  apply (class_edits_refine (fun _ _ => 7) stream_mem (0%nat, 0) stream_class (wrap_edits 0 "__write")
    stream_mem_wf stream_points stream_wf stream_fit).
Defined.

Lemma load_hook_instruments_witness :
  outcome stream_mem
    (ClassFileLoadHook (fun _ _ => 7) true stream_mem (Some "sun/security/ssl/AppOutputStream"%string)
       (0%nat, 0))
    (Some (foldl apply_edit stream_class (wrap_edits 0 "__write"))).
Proof.
  apply (load_hook_instruments (fun _ _ => 7) stream_mem (0%nat, 0) stream_class
    "sun/security/ssl/AppOutputStream"%string (Wrap [("write", "([BII)V", "__write")])%string stream_mem_wf stream_points stream_wf stream_names
    eq_refl stream_fit).
Defined.

(** A long or double constant leaves a NULL cell behind it, which
    [javaFindClassIndex] dereferences before it reaches any later class
    constant, also for a class that was read without problems. *)
Theorem find_class_null :
  match javaReadClass true stream_mem (0%nat, 0) with
  | Def (Some info) =>
      javaFindClassIndex stream_mem info (bytes_of "AppOutputStream") = Def 2 /\
      javaFindClassIndex stream_mem info (bytes_of "java/lang/Object") = UB
  | _ => False
  end.
Proof. vm_compute. auto. Qed.

(** [javaAddStringTag] does not add the three bytes of its own constant to the
    length, so the class no longer fits the buffer that is allocated for it. *)
Theorem string_tag_overflows :
  match javaReadClass true stream_mem (0%nat, 0) with
  | Def (Some info) =>
      match javaAddStringTag (fun _ _ => 7) stream_mem info (bytes_of "x") with
      | Def (m, info, _) =>
          (let '(dest, m') := malloc (fun _ _ => 7) m (class_length info) in
           javaWriteClass m' dest info) = UB /\
          (let '(dest, m') := malloc (fun _ _ => 7) m (class_length info + 3) in
           javaWriteClass m' dest info) <> UB
      | UB => False
      end
  | _ => False
  end.
Proof. vm_compute. split; [reflexivity|discriminate]. Qed.

(** [javaInjectCode] overwrites the code of a method that was read in the class
    data itself, which belong to the caller. *)
Theorem injected_code_changes_input :
  match javaReadClass true stream_mem (0%nat, 0) with
  | Def (Some info) =>
      match cell (methods info) 0 with
      | Def p =>
          match javaInjectCode stream_mem info p [0] with
          | Def m => blocks m !! 0%nat <> blocks stream_mem !! 0%nat
          | UB => False
          end
      | UB => False
      end
  | _ => False
  end.
Proof. vm_compute. discriminate. Qed.

(** [javaDestroy] frees the constants and methods that were added, but neither
    the blocks of added fields nor those of methods made native: a wrapped
    method leaves its eight bytes allocated, here block 3 (the class data is
    block 0, the new class block 4). *)
Theorem native_block_leaks :
  match ClassFileLoadHook (fun _ _ => 7) true stream_mem
          (Some "sun/security/ssl/AppOutputStream"%string) (0%nat, 0) with
  | Def (m, _) => elements (dom (blocks m)) ≡ₚ [0; 3; 4]%nat
  | UB => False
  end.
Proof. vm_compute. solve_Permutation. Qed.

End JavaEdits.
