(* ===== verification/Dns.v ===== *)
(** * DNS requests (src/state.c: getDNSName, src/dns.h)

    The name of a DNS request is taken from the packet a process sends: a
    sequence of labels, each a length byte and that many characters.  It is
    kept with the socket for the DNS metrics.  [char] is signed, as on x86-64. *)

From S2P Require Import Prelude.

Module Dns.

Definition MAX_HOSTNAME : Z := 255.
Definition OPCODE_QUERY : Z := 0.

(** The fields of [net_info] used here; [dnsName] is the array of 255 bytes. *)
Record net_info := mkNet {
  active : bool;
  startTime : Z;
  dnsName : list Z;
  dnsSend : bool;
}.

(** What is reported: a security event with the offending text and its reason
    (unless it cannot be allocated), and the notification. *)
Inductive report := Security (name : list Z) (reason : string) | Notify (reason : string).

(** The value of a [char]. *)
Definition schar (b : Z) : Z := if b <? 128 then b else b - 256.

(** A C string: the bytes before the first NUL. *)
Fixpoint cstr (l : list Z) : list Z :=
  match l with [] => [] | c :: l => if c =? 0 then [] else c :: cstr l end.

(** [strnlen(s, n)], where [s] is given by the bytes that can be read. *)
Fixpoint strnlen (n : nat) (s : list Z) : ub nat :=
  match n with
  | O => Def 0%nat
  | S n => match s with
           | [] => UB
           | c :: s => if c =? 0 then Def 0%nat else k ← strnlen n s; Def (S k)
           end
  end.

(** [strncmp(a, b, n) == 0] *)
Fixpoint strncmp_eq (n : nat) (a b : list Z) : ub bool :=
  match n with
  | O => Def true
  | S n => match a, b with
           | x :: a, y :: b => if negb (x =? y) then Def false
                               else if x =? 0 then Def true else strncmp_eq n a b
           | _, _ => UB
           end
  end.

(** [strncpy(dst, src, n)]: pads with NUL. *)
Definition strncpy (dst src : list Z) (n : nat) : ub (list Z) :=
  if (n <=? length dst)%nat then
    Def (take n (cstr src ++ replicate n 0) ++ drop n dst)
  else UB.

Definition store (buf : list Z) (i v : Z) : ub (list Z) :=
  if (0 <=? i) && (i <? Z.of_nat (length buf)) then Def (set_at buf i v) else UB.

Definition dnsSecurity (ok : bool) (name : list Z) (reason : string) : ub (list report) :=
  if negb ok then Def [] else
  n ← strnlen 255 name;
  Def [Security (take n name) reason].

Definition isLegalLabelChar (x : Z) : bool :=
  ((97 <=? x) && (x <=? 122)) || ((65 <=? x) && (x <=? 90)) || ((48 <=? x) && (x <=? 57)) || (x =? 45).

(** The outcome of the loop over the labels: the offset and the reason of an
    error, or the bytes used of the local buffer and its contents. *)
Inductive scan := Bad (off : Z) (reason : string) | Name (used : Z) (buf : list Z).

Definition BAD_LENGTH : string := "DNS request with an illegal label length".
Definition BAD_END : string := "DNS request with a label length that exceeds the packet end".
Definition BAD_SIZE : string := "DNS request with a name that is greater than the size of a label".
Definition BAD_CHAR : string := "DNS request with an illegal label character".

(** The loop over the characters of a label. *)
Fixpoint copy_label (n : nat) (pkt : list Z) (off used : Z) (buf : list Z) : ub (option Z * Z * list Z) :=
  match n with
  | O => Def (None, used, buf)
  | S n =>
      c ← load pkt off;
      if negb (isLegalLabelChar (schar c)) then Def (Some off, used, buf) else
      buf ← store buf used c;
      copy_label n pkt (off + 1) (used + 1) buf
  end.

(** [sizeof(dnsName)]; the sum is an [int] that is compared as a [size_t]. *)
Definition too_long (used label_len : Z) : bool := MAX_HOSTNAME + 1 <=? u64 (used + label_len).

Fixpoint label_loop (fuel : nat) (pkt : list Z) (pkt_end off used : Z) (buf : list Z) : ub scan :=
  match fuel with
  | O => UB
  | S fuel =>
      c ← load pkt off;
      if negb (c =? 0) && (off <? pkt_end) then
        let label_len := schar c in
        let off := off + 1 in
        if 63 <? label_len then Def (Bad off BAD_LENGTH) else
        if pkt_end <=? off + label_len then Def (Bad off BAD_END) else
        if too_long used label_len then Def (Bad off BAD_SIZE) else
        '(bad, used, buf) ← copy_label (Z.to_nat label_len) pkt off used buf;
        match bad with
        | Some o => Def (Bad o BAD_CHAR)
        | None =>
            buf ← store buf used 46;
            label_loop fuel pkt pkt_end (off + Z.max 0 label_len) (used + 1) buf
        end
      else Def (Name used buf)
  end.

Definition set_time (n : net_info) (t : Z) : net_info := mkNet (active n) t (dnsName n) (dnsSend n).
Definition set_name (n : net_info) (d : list Z) (s : bool) : net_info :=
  mkNet (active n) (startTime n) d s.

Definition getNetEntry (g_netinfo : list net_info) (fd : Z) : option net_info :=
  if fd <? 0 then None else
  match g_netinfo !! Z.to_nat fd with
  | Some n => if active n then Some n else None
  | None => None
  end.

(** [buf] is the uninitialised local array; [ok] the outcome of the allocation
    of a security event. *)
Definition getDNSName (ok : bool) (now : Z) (buf : list Z) (g_netinfo : list net_info) (sd : Z)
    (pkt : list Z) (pktlen : Z) : ub (Z * list net_info * list report) :=
  match getNetEntry g_netinfo sd with
  | None => Def (-1, g_netinfo, [])
  | Some net =>
      let net := set_time net now in
      let g_netinfo := set_at g_netinfo sd net in
      flags ← load pkt 2;
      let qr := Z.land flags 1 in
      let opcode := Z.land (Z.shiftr flags 1) 15 in
      if negb (opcode =? OPCODE_QUERY) && negb (qr =? 1) then Def (0, g_netinfo, []) else
      r ← label_loop (S (length pkt)) pkt pktlen 12 0 buf;
      match r with
      | Bad off reason =>
          sec ← dnsSecurity ok (drop (Z.to_nat off) pkt) reason;
          Def (-1, g_netinfo, sec ++ [Notify reason])
      | Name used buf =>
          buf ← store buf (used - 1) 0;
          same ← strncmp_eq (Z.to_nat used) buf (dnsName net);
          if same : bool then Def (0, set_at g_netinfo sd (set_name net (dnsName net) true), [])
          else
            d ← strncpy (dnsName net) buf (Z.to_nat used);
            Def (0, set_at g_netinfo sd (set_name net d false), [])
      end
  end.

(** ** Specification *)

Definition wf_label (l : list Z) : Prop :=
  (1 <= length l <= 63)%nat /\ Forall (fun c => isLegalLabelChar c = true) l.

Definition enc_label (l : list Z) : list Z := Z.of_nat (length l) :: l.
Definition enc_labels (ls : list (list Z)) : list Z := concat (map enc_label ls).

(** The labels, each followed by a dot. *)
Definition dotted (ls : list (list Z)) : list Z := concat (map (fun l => l ++ [46]) ls).
(** The name: the labels with dots between them. *)
Definition name_of (ls : list (list Z)) : list Z := removelast (dotted ls).

(** What may be wrong with the bytes that follow [used] bytes of good labels,
    how many of them precede the reported text, and the reason. *)
Inductive bad_name (used : Z) : list Z -> nat -> string -> Prop :=
| bad_length b tail : 63 < b < 128 -> bad_name used (b :: tail) 1 BAD_LENGTH
| bad_end b tail : 1 <= b <= 63 -> Z.of_nat (length tail) <= b -> bad_name used (b :: tail) 1 BAD_END
| bad_size b tail : 1 <= b <= 63 -> b < Z.of_nat (length tail) -> 256 <= used + b ->
    bad_name used (b :: tail) 1 BAD_SIZE
| bad_char pre c post tail :
    Forall (fun c => isLegalLabelChar c = true) pre -> isLegalLabelChar (schar c) = false ->
    (length (pre ++ c :: post) <= 63)%nat -> tail <> [] ->
    used + Z.of_nat (length (pre ++ c :: post)) < 256 ->
    bad_name used (Z.of_nat (length (pre ++ c :: post)) :: (pre ++ c :: post) ++ tail)
      (1 + length pre) BAD_CHAR.

(** ** The loop over the labels *)

#[local] Notation "'zlen' l" := (Z.of_nat (length l)) (at level 10, l at level 9).

Lemma legal_range c : isLegalLabelChar c = true -> 45 <= c <= 122.
Proof. unfold isLegalLabelChar. lia. Qed.

Lemma legal_schar c : isLegalLabelChar c = true -> isLegalLabelChar (schar c) = true.
Proof. intros H. pose proof (legal_range c H). unfold schar. by destruct (Z.ltb_spec c 128); [|lia]. Qed.

Lemma store_cell out x old v : store (out ++ x :: old) (zlen out) v = Def (out ++ v :: old).
Proof.
  unfold store. rewrite length_app. cbn [length].
  rewrite (proj2 (Z.leb_le _ _)), (proj2 (Z.ltb_lt _ _)) by lia. cbn [andb]. f_equal.
  unfold set_at. rewrite Nat2Z.id. by rewrite insert_app_r_alt, Nat.sub_diag by lia.
Qed.

Lemma copy_label_spec l : forall pkt off out old rest,
  Forall (fun c => isLegalLabelChar c = true) l -> 0 <= off ->
  drop (Z.to_nat off) pkt = l ++ rest -> (length l <= length old)%nat ->
  copy_label (length l) pkt off (zlen out) (out ++ old) =
  Def (None, zlen (out ++ l), (out ++ l) ++ drop (length l) old).
Proof.
  induction l as [|c l IH]; intros pkt off out old rest W H E L; cbn [length copy_label] in *.
  - by rewrite app_nil_r, drop_0.
  - apply Forall_cons in W as [Wc Ws]. destruct old as [|x old]; [cbn in L; lia|]. cbn [app length] in *.
    rewrite (load_cons _ _ _ _ H E). cbn [mbind ub_bind]. rewrite legal_schar by done. cbn [negb].
    rewrite store_cell. cbn [mbind ub_bind].
    replace (zlen out + 1) with (zlen (out ++ [c])) by (rewrite length_app; cbn; lia).
    change (out ++ c :: old) with (out ++ [c] ++ old). rewrite app_assoc.
    rewrite (IH pkt (off + 1) (out ++ [c]) old rest); [|done|lia| |lia].
    + cbn [drop]. by rewrite <- (app_assoc out [c] l).
    + change 1 with (zlen [c]). by apply drop_next.
Qed.

(** One label. *)
Lemma label_step fuel pkt pkt_end off out old l rest :
  wf_label l -> 0 <= off -> drop (Z.to_nat off) pkt = enc_label l ++ rest ->
  off + 1 + zlen l < pkt_end -> length (out ++ old) = 256%nat -> zlen out + zlen l < 256 ->
  label_loop (S fuel) pkt pkt_end off (zlen out) (out ++ old) =
  label_loop fuel pkt pkt_end (off + zlen (enc_label l)) (zlen (out ++ l ++ [46]))
    ((out ++ l ++ [46]) ++ drop (S (length l)) old).
Proof.
  intros [Hl Wl] H E He Hb Hs. cbn [label_loop]. rewrite length_app in Hb.
  rewrite (load_cons pkt off (zlen l) (l ++ rest) H E). cbn [mbind ub_bind].
  destruct (Z.eqb_spec (zlen l) 0); [lia|]. destruct (Z.ltb_spec off pkt_end); [|lia]. cbn [negb andb].
  assert (schar (zlen l) = zlen l) as -> by (unfold schar; destruct (Z.ltb_spec (zlen l) 128); lia).
  destruct (Z.ltb_spec 63 (zlen l)); [lia|]. destruct (Z.leb_spec pkt_end (off + 1 + zlen l)); [lia|].
  unfold too_long, MAX_HOSTNAME. rewrite u64_small by lia.
  destruct (Z.leb_spec (255 + 1) (zlen out + zlen l)); [lia|]. rewrite Nat2Z.id.
  rewrite (copy_label_spec l pkt (off + 1) out old rest); [|done|lia| |lia].
  2:{ change 1 with (zlen [zlen l]). by apply drop_next. }
  cbn [mbind ub_bind]. destruct (drop (length l) old) as [|x old'] eqn:Eo.
  { apply (f_equal length) in Eo. rewrite length_drop in Eo. cbn in Eo. lia. }
  rewrite store_cell. cbn [mbind ub_bind]. rewrite Z.max_r by lia.
  replace (drop (S (length l)) old) with old'.
  2:{ replace (S (length l)) with (length l + 1)%nat by lia. by rewrite <- drop_drop, Eo. }
  f_equal.
  - unfold enc_label. cbn [length]. lia.
  - rewrite !length_app. cbn [length]. lia.
  - rewrite <- !app_assoc. done.
Qed.

Lemma length_enc_labels ls : length (enc_labels ls) = length (dotted ls).
Proof.
  induction ls as [|l ls IH]; [done|]. unfold enc_labels, dotted in *. cbn [map concat].
  rewrite !length_app, IH. cbn [enc_label length]. lia.
Qed.

(** A sequence of labels. *)
Lemma labels_steps ls : forall fuel pkt pkt_end off out old rest,
  Forall wf_label ls -> 0 <= off -> drop (Z.to_nat off) pkt = enc_labels ls ++ rest ->
  off + zlen (enc_labels ls) < pkt_end -> length (out ++ old) = 256%nat ->
  zlen out + zlen (dotted ls) <= 256 ->
  label_loop (length ls + fuel) pkt pkt_end off (zlen out) (out ++ old) =
  label_loop fuel pkt pkt_end (off + zlen (enc_labels ls)) (zlen (out ++ dotted ls))
    ((out ++ dotted ls) ++ drop (length (dotted ls)) old).
Proof.
  induction ls as [|l ls IH]; intros fuel pkt pkt_end off out old rest W H E He Hb Hs.
  - cbn. rewrite app_nil_r, drop_0, Z.add_0_r. done.
  - apply Forall_cons in W as [Wl Ws]. unfold enc_labels, dotted in *. cbn [map concat] in *.
    fold (enc_labels ls) in *. fold (dotted ls) in *. rewrite <- app_assoc in E.
    rewrite !length_app in *. pose proof (length_enc_labels ls). cbn [enc_label length] in He. cbn [length] in Hs.
    cbn [length Nat.add]. rewrite (label_step _ pkt pkt_end off out old l (enc_labels ls ++ rest));
      [|done|done|done|lia|by rewrite length_app|lia].
    rewrite (IH fuel pkt pkt_end _ _ _ rest); [|done|lia|by apply drop_next| | |].
    + f_equal; [lia|rewrite <- !app_assoc, !length_app; cbn [length]; lia|].
      rewrite drop_drop, <- !app_assoc. cbn [length]. do 5 f_equal. lia.
    + cbn [enc_label length]. lia.
    + rewrite !length_app, length_drop. cbn [length]. lia.
    + rewrite !length_app. cbn [length]. lia.
Qed.

(** ** Strings *)

Lemma cstr_cut a b : Forall (fun c => c <> 0) a -> cstr (a ++ 0 :: b) = a.
Proof.
  induction 1 as [|c a Hc F IH]; [done|]. cbn [app cstr]. destruct (Z.eqb_spec c 0); [done|]. by rewrite IH.
Qed.

Lemma take_nul (a : list Z) : take (S (length a)) (a ++ replicate (S (length a)) 0) = a ++ [0].
Proof.
  rewrite take_app_ge by lia. by replace (S (length a) - length a)%nat with 1%nat by lia.
Qed.

Lemma strncmp_spec a : forall d rest,
  Forall (fun c => c <> 0) a -> (length a < length d)%nat ->
  strncmp_eq (S (length a)) (a ++ 0 :: rest) d = Def (bool_decide (cstr d = a)).
Proof.
  induction a as [|x a IH]; intros d rest F L; (destruct d as [|y d]; [cbn in L; lia|]).
  - cbn. destruct y; done.
  - apply Forall_cons in F as [Hx F]. cbn [length app strncmp_eq cstr] in *.
    destruct (Z.eqb_spec x y) as [<-|Hxy]; cbn [negb].
    + destruct (Z.eqb_spec x 0); [done|]. rewrite IH by (done || lia). f_equal.
      apply bool_decide_ext. split; congruence.
    + rewrite bool_decide_false; [done|]. destruct (Z.eqb_spec y 0); congruence.
Qed.

Lemma strnlen_spec s : forall k, 0 ∈ s -> exists n, strnlen k s = Def n.
Proof.
  induction s as [|c s IH]; intros k H; [by apply elem_of_nil in H|].
  destruct k as [|k]; [by exists 0%nat|]. cbn [strnlen]. destruct (Z.eqb_spec c 0) as [->|Hc]; [by exists 0%nat|].
  apply elem_of_cons in H as [?|H]; [congruence|]. destruct (IH k H) as [n ->]. by exists (S n).
Qed.

Lemma name_legal ls : Forall wf_label ls -> Forall (fun c => c <> 0) (dotted ls).
Proof.
  induction 1 as [|l ls [_ Wl] Ws IH]; [constructor|]. unfold dotted in *. cbn [map concat].
  apply Forall_app. split; [|done]. apply Forall_app. split; [|by constructor].
  eapply Forall_impl; [exact Wl|]. intros c Hc%legal_range. lia.
Qed.

Lemma dotted_name ls : ls <> [] -> dotted ls = name_of ls ++ [46].
Proof.
  intros H. unfold name_of. destruct (exists_last H) as (ls' & l & ->). unfold dotted.
  rewrite map_app, concat_app. cbn [map concat]. rewrite app_nil_r, !app_assoc. by rewrite removelast_last.
Qed.

(** ** Requests *)

(** A request with the header [hdr] of a query and the name [body]. *)
Definition is_query (hdr : list Z) : Prop :=
  length hdr = 12%nat /\
  (Z.land (Z.shiftr (byte_at hdr 2) 1) 15 = 0 \/ Z.land (byte_at hdr 2) 1 = 1).

Lemma query_flags hdr body :
  is_query hdr ->
  load (hdr ++ body) 2 = Def (byte_at hdr 2) /\
  (negb (Z.land (Z.shiftr (byte_at hdr 2) 1) 15 =? OPCODE_QUERY) && negb (Z.land (byte_at hdr 2) 1 =? 1)) = false.
Proof.
  intros [L Q]. split.
  - rewrite load_ok by (rewrite length_app; lia). f_equal. apply byte_at_app_l. lia.
  - unfold OPCODE_QUERY. destruct Q as [-> | ->]; [done|]. by rewrite andb_false_r.
Qed.

Section Request.
Variables (ok : bool) (now : Z) (buf : list Z) (nets : list net_info) (sd : Z) (net : net_info).
Hypothesis Hbuf : length buf = 256%nat.
Hypothesis Hnet : getNetEntry nets sd = Some net.

(** The loop runs over the good labels of a request. *)
Lemma request_labels hdr ls rest pkt :
  is_query hdr -> Forall wf_label ls -> rest <> [] -> zlen (dotted ls) <= 256 ->
  pkt = hdr ++ enc_labels ls ++ rest ->
  exists fuel, label_loop (S (length pkt)) pkt (zlen pkt) 12 0 buf =
    label_loop (S fuel) pkt (zlen pkt) (12 + zlen (enc_labels ls)) (zlen (dotted ls))
      (dotted ls ++ drop (length (dotted ls)) buf) /\
    drop (Z.to_nat (12 + zlen (enc_labels ls))) pkt = rest.
Proof.
  intros [Lh _] W Hr Hd ->. set (pkt := hdr ++ enc_labels ls ++ rest).
  assert (Lr : (1 <= length rest)%nat) by (destruct rest; [done|cbn; lia]).
  assert (E : drop (Z.to_nat 12) pkt = enc_labels ls ++ rest)
    by (subst pkt; change (Z.to_nat 12) with 12%nat; rewrite <- Lh; apply drop_app_length).
  assert (Ll : (length ls <= length (enc_labels ls))%nat).
  { clear -W. induction W as [|l ls Wl Ws IH]; [done|]. unfold enc_labels in *. cbn [map concat].
    rewrite length_app. cbn [enc_label length]. lia. }
  assert (Lp : length pkt = (12 + length (enc_labels ls) + length rest)%nat)
    by (subst pkt; rewrite !length_app; lia).
  exists (length pkt - length ls)%nat. split; [|by apply drop_next].
  replace (S (length pkt)) with (length ls + S (length pkt - length ls))%nat by lia.
  exact (labels_steps ls _ pkt (zlen pkt) 12 [] buf rest W ltac:(lia) E ltac:(lia) Hbuf Hd).
Qed.

Lemma entry_set x : set_at (set_at nets sd (set_time net now)) sd x = set_at nets sd x.
Proof. unfold set_at. apply list_insert_insert_eq. Qed.

Lemma dns_decode hdr ls rest :
  length (dnsName net) = 255%nat -> is_query hdr -> Forall wf_label ls -> ls <> [] -> zlen (dotted ls) <= 255 ->
  let pkt := hdr ++ enc_labels ls ++ 0 :: rest in
  exists net', getDNSName ok now buf nets sd pkt (zlen pkt) = Def (0, set_at nets sd net', []) /\
    cstr (dnsName net') = name_of ls /\ length (dnsName net') = 255%nat /\ startTime net' = now /\
    dnsSend net' = bool_decide (cstr (dnsName net) = name_of ls).
Proof.
  intros Hname Q W Hne Hd pkt. unfold getDNSName. rewrite Hnet.
  destruct (query_flags hdr (enc_labels ls ++ 0 :: rest) Q) as [Ef Eq]. fold pkt in Ef.
  rewrite Ef. cbn [mbind ub_bind]. rewrite Eq.
  destruct (request_labels hdr ls (0 :: rest) pkt Q W ltac:(done) ltac:(lia) eq_refl) as (fuel & -> & E).
  cbn [label_loop]. rewrite (load_cons pkt (12 + zlen (enc_labels ls)) 0 rest ltac:(lia) E). cbn [mbind ub_bind Z.eqb negb andb].
  rewrite (dotted_name ls Hne) in *. rewrite length_app in *. cbn [length] in *.
  pose proof (name_legal ls W) as F. rewrite (dotted_name ls Hne) in F. apply Forall_app in F as [F _].
  replace (Z.of_nat (length (name_of ls) + 1) - 1) with (zlen (name_of ls)) by lia.
  rewrite <- app_assoc. cbn [app]. rewrite store_cell. cbn [mbind ub_bind].
  set (old := drop (length (name_of ls) + 1) buf).
  replace (Z.to_nat (Z.of_nat (length (name_of ls) + 1))) with (S (length (name_of ls))) by lia.
  cbn [dnsName set_time]. rewrite strncmp_spec by (done || lia). cbn [mbind ub_bind]. rewrite !entry_set.
  case_bool_decide as Hs.
  - by eexists.
  - unfold strncpy. destruct (Nat.leb_spec (S (length (name_of ls))) (length (dnsName net))); [|lia].
    cbn [mbind ub_bind]. eexists. rewrite entry_set. split; [done|]. cbn [dnsName set_name dnsSend startTime].
    rewrite cstr_cut by done. rewrite take_nul, <- app_assoc. cbn [app].
    rewrite cstr_cut by done. split_and!; [done| |done|done].
    rewrite length_app. cbn [length]. rewrite length_drop. lia.
Qed.

Lemma copy_label_bad pre c post : forall pkt off out old rest,
  Forall (fun c => isLegalLabelChar c = true) pre -> isLegalLabelChar (schar c) = false -> 0 <= off ->
  drop (Z.to_nat off) pkt = (pre ++ c :: post) ++ rest -> (length pre <= length old)%nat ->
  exists used buf, copy_label (length (pre ++ c :: post)) pkt off (zlen out) (out ++ old) =
    Def (Some (off + zlen pre), used, buf).
Proof.
  induction pre as [|x pre IH]; intros pkt off out old rest W Hc H E L; cbn [app length copy_label] in *.
  - rewrite (load_cons _ _ _ _ H E). cbn [mbind ub_bind]. rewrite Hc. cbn [negb]. rewrite Z.add_0_r. eauto.
  - apply Forall_cons in W as [Wx Ws]. destruct old as [|y old]; [cbn in L; lia|].
    rewrite (load_cons _ _ _ _ H E). cbn [mbind ub_bind]. rewrite legal_schar by done. cbn [negb].
    rewrite store_cell. cbn [mbind ub_bind].
    replace (zlen out + 1) with (zlen (out ++ [x])) by (rewrite length_app; cbn; lia).
    change (out ++ x :: old) with (out ++ [x] ++ old). rewrite app_assoc.
    destruct (IH pkt (off + 1) (out ++ [x]) old rest) as (u & b & ->); [done|done|lia| |cbn in L; lia|].
    + change 1 with (zlen [x]). by apply drop_next.
    + exists u, b. do 4 f_equal. lia.
Qed.

(** The loop stops at the first bad byte. *)
Lemma bad_step fuel pkt off out old bs n reason :
  bad_name (zlen out) bs n reason -> 0 <= off -> drop (Z.to_nat off) pkt = bs ->
  off + zlen bs = zlen pkt -> length (out ++ old) = 256%nat ->
  label_loop (S fuel) pkt (zlen pkt) off (zlen out) (out ++ old) = Def (Bad (off + Z.of_nat n) reason).
Proof.
  intros Hb H E He Hl. rewrite length_app in Hl.
  destruct Hb as [b tail Hr|b tail Hr Ht|b tail Hr Ht Hs|pre c post tail Wp Hc Hn Ht Hs];
    cbn [label_loop length] in *; rewrite (load_cons _ _ _ _ H E); cbn [mbind ub_bind].
  - destruct (Z.eqb_spec b 0); [lia|]. destruct (Z.ltb_spec off (zlen pkt)); [|lia]. cbn [negb andb].
    unfold schar. destruct (Z.ltb_spec b 128); [|lia]. by destruct (Z.ltb_spec 63 b); [|lia].
  - destruct (Z.eqb_spec b 0); [lia|]. destruct (Z.ltb_spec off (zlen pkt)); [|lia]. cbn [negb andb].
    unfold schar. destruct (Z.ltb_spec b 128); [|lia]. destruct (Z.ltb_spec 63 b); [lia|].
    by destruct (Z.leb_spec (zlen pkt) (off + 1 + b)); [|lia].
  - destruct (Z.eqb_spec b 0); [lia|]. destruct (Z.ltb_spec off (zlen pkt)); [|lia]. cbn [negb andb].
    unfold schar. destruct (Z.ltb_spec b 128); [|lia]. destruct (Z.ltb_spec 63 b); [lia|].
    destruct (Z.leb_spec (zlen pkt) (off + 1 + b)); [lia|]. unfold too_long, MAX_HOSTNAME.
    rewrite u64_small by lia. by destruct (Z.leb_spec (255 + 1) (zlen out + b)); [|lia].
  - set (l := pre ++ c :: post) in *. assert (1 <= zlen l) by (subst l; rewrite length_app; cbn; lia).
    assert (1 <= zlen tail) by (destruct tail; [done|cbn; lia]). rewrite length_app in He.
    destruct (Z.eqb_spec (zlen l) 0); [lia|]. destruct (Z.ltb_spec off (zlen pkt)); [|lia]. cbn [negb andb].
    assert (schar (zlen l) = zlen l) as -> by (unfold schar; destruct (Z.ltb_spec (zlen l) 128); lia).
    destruct (Z.ltb_spec 63 (zlen l)); [lia|]. destruct (Z.leb_spec (zlen pkt) (off + 1 + zlen l)); [lia|].
    unfold too_long, MAX_HOSTNAME. rewrite u64_small by lia.
    destruct (Z.leb_spec (255 + 1) (zlen out + zlen l)); [lia|]. rewrite Nat2Z.id.
    destruct (copy_label_bad pre c post pkt (off + 1) out old tail) as (u & b & E2); [done|done|lia| | |].
    + change 1 with (zlen [zlen l]). by apply drop_next.
    + subst l. rewrite length_app in *. cbn [length] in *. lia.
    + fold l in E2. rewrite E2. cbn [mbind ub_bind]. do 2 f_equal. lia.
Qed.

Lemma dns_reject hdr ls bs n reason :
  is_query hdr -> Forall wf_label ls -> zlen (dotted ls) <= 256 ->
  bad_name (zlen (dotted ls)) bs n reason -> 0 ∈ drop n bs ->
  let pkt := hdr ++ enc_labels ls ++ bs in
  exists k, getDNSName ok now buf nets sd pkt (zlen pkt) =
    Def (-1, set_at nets sd (set_time net now),
         (if ok then [Security (take k (drop n bs)) reason] else []) ++ [Notify reason]).
Proof.
  intros Q W Hd Hb Hz pkt. unfold getDNSName. rewrite Hnet.
  destruct (query_flags hdr (enc_labels ls ++ bs) Q) as [Ef Eq]. fold pkt in Ef.
  rewrite Ef. cbn [mbind ub_bind]. rewrite Eq.
  destruct (request_labels hdr ls bs pkt Q W ltac:(by intros ->; inversion Hb) Hd eq_refl) as (fuel & -> & E).
  rewrite (bad_step fuel pkt (12 + zlen (enc_labels ls)) (dotted ls) _ bs n reason Hb ltac:(lia) E).
  - cbn [mbind ub_bind]. replace (drop (Z.to_nat (12 + zlen (enc_labels ls) + Z.of_nat n)) pkt) with (drop n bs)
      by (rewrite <- E, drop_drop; f_equal; lia).
    unfold dnsSecurity. destruct ok; cbn [negb mbind ub_bind]; [|by exists 0%nat].
    destruct (strnlen_spec _ 255 Hz) as [k ->]. by exists k.
  - subst pkt. rewrite !length_app. destruct Q as [Lh _]. lia.
  - rewrite length_app, length_drop, Hbuf. lia.
Qed.

End Request.

(** ** Theorems *)

(** C36: a DNS query for a name of legal labels (1 to 63 characters each, at
    most 255 bytes with their dots) leaves the dotted name, terminated, in the
    socket's entry; it is marked as already sent exactly when the entry held
    that name before.  Nothing is reported and every access is in bounds. *)
Theorem dns_name_decoded (ok : bool) (now : Z) (buf : list Z) (nets : list net_info) (sd : Z) (net : net_info)
    (hdr rest : list Z) (ls : list (list Z)) :
  length buf = 256%nat -> getNetEntry nets sd = Some net -> length (dnsName net) = 255%nat ->
  is_query hdr -> Forall wf_label ls -> ls <> [] -> zlen (dotted ls) <= 255 ->
  let pkt := hdr ++ enc_labels ls ++ 0 :: rest in
  exists net', getDNSName ok now buf nets sd pkt (zlen pkt) = Def (0, set_at nets sd net', []) /\
    cstr (dnsName net') = name_of ls /\ length (dnsName net') = 255%nat /\ startTime net' = now /\
    dnsSend net' = bool_decide (cstr (dnsName net) = name_of ls).
Proof. intros Hb Hn Hl. by apply dns_decode. Qed.

(** A query whose labels are good up to some point and then have a length
    above 63, run to the end of the packet, make the name too long or contain
    an illegal character is refused with -1: the security event and the
    notification carry the reason, the text starts at the offending byte, and
    of the socket's entry only the time is changed. *)
Theorem dns_request_rejected (ok : bool) (now : Z) (buf : list Z) (nets : list net_info) (sd : Z)
    (net : net_info) (hdr bs : list Z) (ls : list (list Z)) (n : nat) (reason : string) :
  length buf = 256%nat -> getNetEntry nets sd = Some net ->
  is_query hdr -> Forall wf_label ls -> zlen (dotted ls) <= 256 ->
  bad_name (zlen (dotted ls)) bs n reason -> 0 ∈ drop n bs ->
  let pkt := hdr ++ enc_labels ls ++ bs in
  exists k, getDNSName ok now buf nets sd pkt (zlen pkt) =
    Def (-1, set_at nets sd (set_time net now),
         (if ok then [Security (take k (drop n bs)) reason] else []) ++ [Notify reason]).
Proof. intros Hb Hn. exact (dns_reject ok now buf nets sd net Hb Hn hdr ls bs n reason). Qed.

(** A query header, an idle socket and the labels of www.google.com. *)
Definition query_header : list Z := [222; 175; 1; 0; 0; 1; 0; 0; 0; 0; 0; 1].
Definition idle_net : net_info := mkNet true 0 (replicate 255 0) false.
Definition google : list (list Z) := [bytes_of "www"; bytes_of "google"; bytes_of "com"].

Lemma google_wf : Forall wf_label google.
Proof.
  unfold google. do 3 (apply Forall_cons; split; [split; [cbn; lia|cbn; by repeat constructor]|]). constructor.
Qed.

Lemma dns_name_decoded_witness :
  exists net',
    getDNSName true 5 (replicate 256 1) [idle_net] 0 (query_header ++ enc_labels google ++ 0 :: [0; 1; 0; 1]) 33
      = Def (0, set_at [idle_net] 0 net', []) /\
    cstr (dnsName net') = bytes_of "www.google.com" /\ length (dnsName net') = 255%nat /\
    startTime net' = 5 /\ dnsSend net' = bool_decide (cstr (dnsName idle_net) = name_of google).
Proof.
  apply (dns_name_decoded true 5 (replicate 256 1) [idle_net] 0 idle_net query_header [0; 1; 0; 1] google
    eq_refl eq_refl eq_refl); [|exact google_wf|done|vm_compute; discriminate].
  split; [done|]. by left.
Defined.

Lemma dns_request_rejected_witness :
  exists k,
    getDNSName true 5 (replicate 256 1) [idle_net] 0
      (query_header ++ enc_labels google ++ (1 :: bytes_of "_" ++ [0])) 30
    = Def (-1, set_at [idle_net] 0 (set_time idle_net 5),
           [Security (take k (bytes_of "_" ++ [0])) BAD_CHAR; Notify BAD_CHAR]).
Proof.
  apply (dns_request_rejected true 5 (replicate 256 1) [idle_net] 0 idle_net query_header
    (1 :: bytes_of "_" ++ [0]) google 1 BAD_CHAR eq_refl eq_refl); [|exact google_wf|vm_compute; discriminate| |].
  - split; [done|]. by left.
  - apply (bad_char _ [] 95 [] [0]); [constructor|done|cbn; lia|done|done].
  - cbn. set_solver.
Defined.

Definition label63 : list Z := replicate 63 97.

(** Requests that break out of the buffers: length bytes of 128 and more are
    negative as [char], pass all checks once the name is long enough, and each
    writes a dot, past the end of the local buffer; the query for the root
    domain, whose name is empty, writes before its start; and four labels of
    63 characters, which the size check admits, overflow the 255 bytes of the
    socket's entry by one. *)
Theorem dns_requests_overflow :
  getDNSName true 5 (replicate 256 1) [idle_net] 0
    (query_header ++ enc_labels [label63; label63; label63] ++ replicate 70 128 ++ [0]) 275 = UB /\
  getDNSName true 5 (replicate 256 1) [idle_net] 0 (query_header ++ [0; 0; 2; 0; 1]) 17 = UB /\
  getDNSName true 5 (replicate 256 1) [idle_net] 0
    (query_header ++ enc_labels [label63; label63; label63; label63] ++ [0; 0; 1; 0; 1]) 273 = UB.
Proof. vm_compute. auto. Qed.

(** The bit fields of the header are declared in the opposite order of the wire
    format: an inverse query (opcode 1) is taken for a query. *)
Theorem dns_inverse_query_accepted :
  match getDNSName true 5 (replicate 256 1) [idle_net] 0
          ([222; 175; 9; 0; 0; 1; 0; 0; 0; 0; 0; 1] ++ enc_labels google ++ [0]) 29 with
  | Def (r, [net], _) => r = 0 /\ cstr (dnsName net) = bytes_of "www.google.com"
  | _ => False
  end.
Proof. vm_compute. auto. Qed.

End Dns.
