(* ===== verification/CJson.v ===== *)
(** * JSON (contrib/cJSON/cJSON.c)

    The tree, the parser and the printer of the cJSON library in the form the
    program links it.  Its messages, its configuration and its answers on the
    message queue go through it.  The parser works on the bytes of a C string
    and its terminator, the printer on a buffer that grows; every access to
    either carries its bounds.  Floating point numbers and their text are the
    C library's: [Double] lists what is used of them. *)

From S2P Require Import Prelude.

Module CJson.

#[local] Notation "'zlen' l" := (Z.of_nat (length l)) (at level 10, l at level 9).

(** ** Numbers *)

Definition INT_MAX : Z := 2147483647.
Definition INT_MIN : Z := -2147483648.

Class Double := {
  double : Type;
  (** conversion of an [int], and back by truncation *)
  of_int : Z -> double;
  trunc : double -> Z;
  dle : double -> double -> bool;
  deq : double -> double -> bool;
  (** [d * 0 == 0] *)
  finite : double -> bool;
  (** the text of [sprintf("%1.<p>g", d)] *)
  sprintf_g : Z -> double -> list Z;
  (** the value and the number of characters used, 0 when there is no number *)
  strtod : list Z -> double * nat;
}.

(** The characters [parse_number] collects. *)
Definition number_char (c : Z) : bool :=
  ((48 <=? c) && (c <=? 57)) || (c =? 43) || (c =? 45) || (c =? 101) || (c =? 69) || (c =? 46).

(** The characters a number may start with. *)
Definition number_start (c : Z) : bool := (c =? 45) || ((48 <=? c) && (c <=? 57)).

(** Decimal notation of an integer. *)
Fixpoint digits_of (fuel : nat) (z : Z) : list Z :=
  match fuel with
  | O => []
  | S fuel => if z <? 10 then [48 + z] else digits_of fuel (z / 10) ++ [48 + z mod 10]
  end.
Definition decimal (z : Z) : list Z :=
  if z <? 0 then 45 :: digits_of 20 (- z) else digits_of 20 z.

(** What the C standard says of these: a number that is printed with 17
    significant digits is read back exactly, [strtod] reads a number that it is
    given with its sign, and an [int] is printed as its decimal notation. *)
Class DoubleLaws `{Double} : Prop := {
  strtod_used t : (snd (strtod t) <= length t)%nat;
  text_chars p d : finite d = true -> 15 <= p <= 17 ->
    Forall (fun c => number_char c = true) (sprintf_g p d) /\
    (exists c l, sprintf_g p d = c :: l /\ number_start c = true) /\
    (length (sprintf_g p d) <= 24)%nat;
  text_all p d : finite d = true -> 15 <= p <= 17 ->
    snd (strtod (sprintf_g p d)) = length (sprintf_g p d);
  text_exact p d : finite d = true -> 15 <= p <= 17 ->
    deq (fst (strtod (sprintf_g p d))) d = true -> fst (strtod (sprintf_g p d)) = d;
  text_17 d : finite d = true -> deq (fst (strtod (sprintf_g 17 d))) d = true;
  int_finite z : INT_MIN <= z <= INT_MAX -> finite (of_int z) = true;
  int_le z w : INT_MIN <= z <= INT_MAX -> INT_MIN <= w <= INT_MAX ->
    dle (of_int z) (of_int w) = (z <=? w);
  int_trunc z : INT_MIN <= z <= INT_MAX -> trunc (of_int z) = z;
  int_text z : INT_MIN <= z <= INT_MAX -> sprintf_g 15 (of_int z) = decimal z;
  int_read z : INT_MIN <= z <= INT_MAX -> deq (fst (strtod (decimal z))) (of_int z) = true;
}.

Section CJson.
Context `{Double}.

(** ** The tree

    The children of an array or object are the list linked by [next]; an
    object's child carries its name in [string].  A string is the array that
    was written, its terminator excluded. *)
#[local] Unset Elimination Schemes.
Inductive cJSON :=
| cJSON_NULL
| cJSON_False
| cJSON_True
| cJSON_Number (valuedouble : double) (valueint : Z)
| cJSON_Raw (valuestring : list Z)
| cJSON_String (valuestring : list Z)
| cJSON_Array (child : list cJSON)
| cJSON_Object (child : list (list Z * cJSON)).
#[local] Set Elimination Schemes.

(** The outcomes of the allocations to come; they succeed when the list ends. *)
Definition alloc (al : list bool) : bool * list bool :=
  match al with [] => (true, []) | b :: al => (b, al) end.

(** A C string: the bytes before the first NUL. *)
Fixpoint cstr (l : list Z) : list Z :=
  match l with [] => [] | c :: l => if c =? 0 then [] else c :: cstr l end.

(** Code that may fail. *)
Definition bindo {A B} (m : ub (option A)) (f : A -> ub (option B)) : ub (option B) :=
  match m with Def (Some a) => f a | Def None => Def None | UB => UB end.
#[local] Notation "'let*' p ':=' m 'in' k" := (bindo m (fun p => k)) (at level 10, p pattern, m at level 200, k at level 200).

(** ** Accessors and constructors *)

Definition cJSON_IsObject (item : cJSON) : bool := match item with cJSON_Object _ => true | _ => false end.
Definition cJSON_IsNumber (item : cJSON) : bool := match item with cJSON_Number _ _ => true | _ => false end.

Definition child_of (item : cJSON) : list (list Z * cJSON) :=
  match item with cJSON_Object child => child | _ => [] end.

Definition cJSON_GetObjectItemCaseSensitive (object : cJSON) (name : list Z) : option cJSON :=
  snd <$> List.find (fun kv => bool_decide (cstr (fst kv) = cstr name)) (child_of object).

(** The saturating conversion of a number to an [int]. *)
Definition valueint_of (number : double) : Z :=
  if dle (of_int INT_MAX) number then INT_MAX
  else if dle number (of_int INT_MIN) then INT_MIN else trunc number.

Definition cJSON_CreateNumber (num : double) : cJSON := cJSON_Number num (valueint_of num).

Definition tolower (c : Z) : Z := if (65 <=? c) && (c <=? 90) then c + 32 else c.

Definition cJSON_GetObjectItem (object : cJSON) (name : list Z) : option cJSON :=
  snd <$> List.find (fun kv => bool_decide (map tolower (cstr name) = map tolower (cstr (fst kv)))) (child_of object).

(** The constructors give nothing when the item cannot be allocated. *)
Definition cJSON_CreateObject (al : list bool) : option cJSON * list bool :=
  let '(ok, al) := alloc al in (if ok then Some (cJSON_Object []) else None, al).
Definition cJSON_CreateArray (al : list bool) : option cJSON * list bool :=
  let '(ok, al) := alloc al in (if ok then Some (cJSON_Array []) else None, al).

Definition cJSON_AddItemToArray (array item : cJSON) : cJSON :=
  match array with cJSON_Array child => cJSON_Array (child ++ [item]) | _ => array end.
Definition cJSON_AddItemToObjectCS (object : cJSON) (name : list Z) (item : cJSON) : cJSON :=
  match object with cJSON_Object child => cJSON_Object (child ++ [(name, item)]) | _ => object end.

(** [n] allocations: of the item, of its string and of the copy of its name
    where it is copied. *)
Fixpoint allocs (n : nat) (al : list bool) : bool * list bool :=
  match n with
  | O => (true, al)
  | S n => let '(ok, al) := alloc al in if ok then allocs n al else (false, al)
  end.

Definition add_item (n : nat) (al : list bool) (object : cJSON) (name : list Z) (item : cJSON)
    : option cJSON * list bool :=
  let '(ok, al) := allocs n al in
  (if ok then Some (cJSON_AddItemToObjectCS object name item) else None, al).

Definition cJSON_AddNumberToObjLN (al : list bool) (object : cJSON) (name : list Z) (number : double) :=
  add_item 1 al object name (cJSON_CreateNumber number).
Definition cJSON_AddBoolToObjLN (al : list bool) (object : cJSON) (name : list Z) (boolean : bool) :=
  add_item 1 al object name (if boolean then cJSON_True else cJSON_False).
Definition cJSON_AddNumberToObject (al : list bool) (object : cJSON) (name : list Z) (number : double) :=
  add_item 2 al object name (cJSON_CreateNumber number).
Definition cJSON_AddTrueToObject (al : list bool) (object : cJSON) (name : list Z) := add_item 2 al object name cJSON_True.
Definition cJSON_AddFalseToObject (al : list bool) (object : cJSON) (name : list Z) := add_item 2 al object name cJSON_False.
Definition cJSON_AddStringToObject (al : list bool) (object : cJSON) (name string : list Z) :=
  add_item 3 al object name (cJSON_String (cstr string)).

(** ** The parser *)

Definition CJSON_NESTING_LIMIT : Z := 1000.

Section Parser.
(** [content]: the string with its terminator; offsets are relative to it. *)
Variable content : list Z.

Definition can_access (offset index : Z) : bool := offset + index <? zlen content.

Fixpoint skip_loop (fuel : nat) (offset : Z) : ub Z :=
  match fuel with
  | O => UB
  | S fuel =>
      if can_access offset 0 then
        c ← load content offset;
        if c <=? 32 then skip_loop fuel (offset + 1) else Def offset
      else Def offset
  end.

Definition buffer_skip_whitespace (offset : Z) : ub Z :=
  offset ← skip_loop (S (length content)) offset;
  Def (if offset =? zlen content then offset - 1 else offset).

(** [can_read(buffer, n) && strncmp(buffer_at_offset(buffer), lit, n) == 0] *)
Definition match_lit (offset : Z) (lit : list Z) : bool :=
  (offset + zlen lit <=? zlen content) && mem_eqb (drop (Z.to_nat offset) content) lit (length lit).

Definition skip_utf8_bom (offset : Z) : Z :=
  if can_access offset 4 && mem_eqb (drop (Z.to_nat offset) content) [239; 187; 191] 3
  then offset + 3 else offset.

(** The characters copied to the array of 64 bytes; [n] is the room left. *)
Fixpoint number_loop (n : nat) (offset : Z) : ub (list Z) :=
  match n with
  | O => Def []
  | S n =>
      if can_access offset 0 then
        c ← load content offset;
        if number_char c then l ← number_loop n (offset + 1); Def (c :: l) else Def []
      else Def []
  end.

Definition parse_number (offset : Z) : ub (option (cJSON * Z)) :=
  number_c_string ← number_loop 63 offset;
  let '(number, used) := strtod number_c_string in
  if (used =? 0)%nat then Def None
  else Def (Some (cJSON_Number number (valueint_of number), offset + Z.of_nat used)).

Definition hex_digit (c : Z) : option Z :=
  if (48 <=? c) && (c <=? 57) then Some (c - 48)
  else if (65 <=? c) && (c <=? 70) then Some (10 + c - 65)
  else if (97 <=? c) && (c <=? 102) then Some (10 + c - 97)
  else None.

(** [n] digits are left, [h] is the value so far. *)
Fixpoint hex_loop (n : nat) (offset h : Z) : ub Z :=
  match n with
  | O => Def h
  | S m =>
      c ← load content offset;
      match hex_digit c with
      | None => Def 0
      | Some d => hex_loop m (offset + 1) (if (m =? 0)%nat then h + d else Z.shiftl (h + d) 4)
      end
  end.
Definition parse_hex4 (offset : Z) : ub Z := hex_loop 4 offset 0.

(** The bytes after the first, from the last to the second, and what is left of
    the code point. *)
Fixpoint utf8_tail (n : nat) (codepoint : Z) (acc : list Z) : Z * list Z :=
  match n with
  | O => (codepoint, acc)
  | S n => utf8_tail n (Z.shiftr codepoint 6) (Z.land (Z.lor codepoint 128) 191 :: acc)
  end.

Definition utf8_encode (codepoint : Z) : option (list Z) :=
  let enc n mark :=
    let '(cp, tail) := utf8_tail n codepoint [] in Some (Z.land (Z.lor cp mark) 255 :: tail) in
  if codepoint <? 128 then Some [Z.land codepoint 127]
  else if codepoint <? 2048 then enc 1%nat 192
  else if codepoint <? 65536 then enc 2%nat 224
  else if codepoint <=? 1114111 then enc 3%nat 240
  else None.

(** The bytes written and the length of the sequence. *)
Definition utf16_literal_to_utf8 (p input_end : Z) : ub (option (list Z * Z)) :=
  if input_end - p <? 6 then Def None else
  first_code ← parse_hex4 (p + 2);
  if (56320 <=? first_code) && (first_code <=? 57343) then Def None else
  if (55296 <=? first_code) && (first_code <=? 56319) then
    let q := p + 6 in
    if input_end - q <? 6 then Def None else
    c0 ← load content q;
    if negb (c0 =? 92) then Def None else
    c1 ← load content (q + 1);
    if negb (c1 =? 117) then Def None else
    second_code ← parse_hex4 (q + 2);
    if (second_code <? 56320) || (57343 <? second_code) then Def None else
    Def ((fun b => (b, 12)) <$>
         utf8_encode (65536 + Z.lor (Z.shiftl (Z.land first_code 1023) 10) (Z.land second_code 1023)))
  else Def ((fun b => (b, 6)) <$> utf8_encode first_code).

(** The end of the literal and the number of escapes. *)
Fixpoint scan_end (fuel : nat) (input_end skipped : Z) : ub (option (Z * Z)) :=
  match fuel with
  | O => UB
  | S fuel =>
      if input_end <? zlen content then
        c ← load content input_end;
        if c =? 34 then Def (Some (input_end, skipped))
        else if c =? 92 then
          if zlen content <=? input_end + 1 then Def None
          else scan_end fuel (input_end + 2) (skipped + 1)
        else scan_end fuel (input_end + 1) skipped
      else Def None
  end.

Definition simple_escape (c : Z) : option Z :=
  if c =? 98 then Some 8 else if c =? 102 then Some 12 else if c =? 110 then Some 10
  else if c =? 114 then Some 13 else if c =? 116 then Some 9
  else if (c =? 34) || (c =? 92) || (c =? 47) then Some c else None.

(** Writing to the output, an array of [cap] bytes. *)
Definition emit (cap : Z) (out b : list Z) : ub (list Z) :=
  if zlen out + zlen b <=? cap then Def (out ++ b) else UB.

Fixpoint decode (fuel : nat) (p input_end cap : Z) (out : list Z) : ub (option (list Z)) :=
  match fuel with
  | O => UB
  | S fuel =>
      if p <? input_end then
        c ← load content p;
        if negb (c =? 92) then
          out ← emit cap out [c]; decode fuel (p + 1) input_end cap out
        else if input_end - p <? 1 then Def None
        else
          e ← load content (p + 1);
          match simple_escape e with
          | Some b => out ← emit cap out [b]; decode fuel (p + 2) input_end cap out
          | None =>
              if e =? 117 then
                let* (b, n) := utf16_literal_to_utf8 p input_end in
                out ← emit cap out b; decode fuel (p + n) input_end cap out
              else Def None
          end
      else Def (Some out)
  end.

Definition parse_string (offset : Z) (al : list bool) : ub (option (list Z * Z * list bool)) :=
  c ← load content offset;
  if negb (c =? 34) then Def None else
  let* (input_end, skipped) := scan_end (S (length content)) (offset + 1) 0 in
  let allocation_length := input_end - offset - skipped in
  let '(ok, al) := alloc al in
  if negb ok then Def None else
  let cap := allocation_length + 1 in
  let* out := decode (S (length content)) (offset + 1) input_end cap [] in
  out' ← emit cap out [0];
  Def (Some (out, input_end + 1, al)).

(** The loops over the elements of an array and the members of an object, [pv]
    being [parse_value] one level deeper; [offset] is before the element. *)
Section Loops.
Variable pv : Z -> list bool -> ub (option (cJSON * Z * list bool)).

Fixpoint array_loop (fuel : nat) (offset : Z) (al : list bool) (acc : list cJSON)
    : ub (option (list cJSON * Z * list bool)) :=
  match fuel with
  | O => UB
  | S fuel =>
      let '(ok, al) := alloc al in
      if negb ok then Def None else
      offset ← buffer_skip_whitespace (offset + 1);
      let* (v, offset, al) := pv offset al in
      offset ← buffer_skip_whitespace offset;
      let acc := acc ++ [v] in
      if can_access offset 0 then
        c ← load content offset;
        if c =? 44 then array_loop fuel offset al acc
        else if negb (c =? 93) then Def None
        else Def (Some (acc, offset, al))
      else Def None
  end.

Fixpoint object_loop (fuel : nat) (offset : Z) (al : list bool) (acc : list (list Z * cJSON))
    : ub (option (list (list Z * cJSON) * Z * list bool)) :=
  match fuel with
  | O => UB
  | S fuel =>
      let '(ok, al) := alloc al in
      if negb ok then Def None else
      offset ← buffer_skip_whitespace (offset + 1);
      let* (name, offset, al) := parse_string offset al in
      offset ← buffer_skip_whitespace offset;
      if negb (can_access offset 0) then Def None else
      c ← load content offset;
      if negb (c =? 58) then Def None else
      offset ← buffer_skip_whitespace (offset + 1);
      let* (v, offset, al) := pv offset al in
      offset ← buffer_skip_whitespace offset;
      let acc := acc ++ [(name, v)] in
      if can_access offset 0 then
        c ← load content offset;
        if c =? 44 then object_loop fuel offset al acc
        else if negb (c =? 125) then Def None
        else Def (Some (acc, offset, al))
      else Def None
  end.

Definition parse_array (depth offset : Z) (al : list bool) : ub (option (cJSON * Z * list bool)) :=
  if CJSON_NESTING_LIMIT <=? depth then Def None else
  c ← load content offset;
  if negb (c =? 91) then Def None else
  offset ← buffer_skip_whitespace (offset + 1);
  empty ← (if can_access offset 0 then c ← load content offset; Def (c =? 93) else Def false);
  if empty : bool then Def (Some (cJSON_Array [], offset + 1, al)) else
  if negb (can_access offset 0) then Def None else
  let* (child, offset, al) := array_loop (length content) (offset - 1) al [] in
  Def (Some (cJSON_Array child, offset + 1, al)).

Definition parse_object (depth offset : Z) (al : list bool) : ub (option (cJSON * Z * list bool)) :=
  if CJSON_NESTING_LIMIT <=? depth then Def None else
  if negb (can_access offset 0) then Def None else
  c ← load content offset;
  if negb (c =? 123) then Def None else
  offset ← buffer_skip_whitespace (offset + 1);
  empty ← (if can_access offset 0 then c ← load content offset; Def (c =? 125) else Def false);
  if empty : bool then Def (Some (cJSON_Object [], offset + 1, al)) else
  if negb (can_access offset 0) then Def None else
  let* (child, offset, al) := object_loop (length content) (offset - 1) al [] in
  Def (Some (cJSON_Object child, offset + 1, al)).

End Loops.

(** [fuel] bounds the nesting. *)
Fixpoint parse_value (fuel : nat) (depth offset : Z) (al : list bool) : ub (option (cJSON * Z * list bool)) :=
  match fuel with
  | O => UB
  | S fuel =>
      if match_lit offset (bytes_of "null") then Def (Some (cJSON_NULL, offset + 4, al)) else
      if match_lit offset (bytes_of "false") then Def (Some (cJSON_False, offset + 5, al)) else
      if match_lit offset (bytes_of "true") then Def (Some (cJSON_True, offset + 4, al)) else
      if negb (can_access offset 0) then Def None else
      c ← load content offset;
      if c =? 34 then
        let* (s, offset, al) := parse_string offset al in Def (Some (cJSON_String s, offset, al))
      else if number_start c then
        let* (v, offset) := parse_number offset in Def (Some (v, offset, al))
      else if c =? 91 then parse_array (parse_value fuel (depth + 1)) depth offset al
      else if c =? 123 then parse_object (parse_value fuel (depth + 1)) depth offset al
      else Def None
  end.

End Parser.

(** [strlen(value) + 1] bytes of [value]; [None] when it has no terminator. *)
Fixpoint c_string (value : list Z) : option (list Z) :=
  match value with
  | [] => None
  | c :: l => if c =? 0 then Some [0] else (cons c) <$> c_string l
  end.

(** A tree is a value here: the release of what was built before a failure
    ([cJSON_Delete]) is not part of the model. *)
Definition cJSON_Parse (al : list bool) (value : list Z) : ub (option cJSON) :=
  match c_string value with
  | None => UB
  | Some content =>
      let '(ok, al) := alloc al in
      if negb ok then Def None else
      offset ← buffer_skip_whitespace content (skip_utf8_bom content 0);
      let* (v, _, _) := parse_value content (S (Z.to_nat CJSON_NESTING_LIMIT)) 0 offset al in
      Def (Some v)
  end.
End CJson.

(** ** The integral numbers as an instance

    Numbers without a fraction, finite below 10^15. *)

Fixpoint read_digits (l : list Z) (acc : Z) : Z * nat :=
  match l with
  | c :: l => if (48 <=? c) && (c <=? 57)
              then let '(v, n) := read_digits l (acc * 10 + (c - 48)) in (v, S n) else (acc, O)
  | [] => (acc, O)
  end.

Definition read_int (t : list Z) : Z * nat :=
  match t with
  | c :: l => if c =? 45 then
                let '(v, n) := read_digits l 0 in if (n =? 0)%nat then (0, O) else (- v, S n)
              else read_digits t 0
  | [] => (0, O)
  end.

#[local] Instance integral : Double := {|
  double := Z; of_int z := z; trunc z := z; dle := Z.leb; deq := Z.eqb;
  finite z := Z.abs z <? 10 ^ 15; sprintf_g _ z := decimal z; strtod := read_int;
|}.

Lemma digits_of_chars n z : 0 <= z -> Forall (fun c => (48 <=? c) && (c <=? 57) = true) (digits_of n z).
Proof.
  revert z. induction n as [|n IH]; intros z Hz; cbn [digits_of]; [constructor|].
  destruct (Z.ltb_spec z 10); [repeat constructor; lia|].
  apply Forall_app. split; [apply IH, Z.div_pos; lia|].
  pose proof (Z.mod_pos_bound z 10). repeat constructor. lia.
Qed.

Lemma read_digits_app l c acc :
  Forall (fun c => (48 <=? c) && (c <=? 57) = true) l -> (48 <=? c) && (c <=? 57) = true ->
  read_digits (l ++ [c]) acc = (fst (read_digits l acc) * 10 + (c - 48), S (length l)).
Proof.
  intros F Hc. revert acc. induction F as [|x l Hx F IH]; intros acc; cbn [app read_digits length].
  - by rewrite Hc.
  - rewrite Hx, IH. by destruct (read_digits l _).
Qed.

Lemma read_digits_of n : forall z, 0 <= z < 10 ^ Z.of_nat n -> (0 < n)%nat ->
  read_digits (digits_of n z) 0 = (z, length (digits_of n z)) /\ (1 <= length (digits_of n z) <= n)%nat.
Proof.
  induction n as [|n IH]; intros z Hz Hn; [lia|]. cbn [digits_of].
  destruct (Z.ltb_spec z 10).
  - cbn [read_digits length]. rewrite (proj2 (Z.leb_le _ _)), (proj2 (Z.leb_le _ _)) by lia. cbn [andb].
    split; [f_equal; lia|lia].
  - rewrite Nat2Z.inj_succ, Z.pow_succ_r in Hz by lia. destruct n as [|n]; [lia|].
    destruct (IH (z / 10)) as [E L]; [split; [apply Z.div_pos; lia|apply Z.div_lt_upper_bound; lia]|lia|].
    pose proof (Z.mod_pos_bound z 10). rewrite length_app. cbn [length].
    rewrite read_digits_app; [|apply digits_of_chars, Z.div_pos; lia|lia]. rewrite E. cbn [fst].
    split; [|lia]. f_equal; [|lia]. pose proof (Z.div_mod z 10). lia.
Qed.

Lemma read_decimal (z : Z) : Z.abs z < 10 ^ 15 ->
  read_int (decimal z) = (z, length (decimal z)) /\ (1 <= length (decimal z) <= 21)%nat /\
  Forall (fun c => number_char c = true) (decimal z) /\
  exists c l, decimal z = c :: l /\ number_start c = true.
Proof.
  assert (W : forall z, 0 <= z -> Forall (fun c => number_char c = true) (digits_of 20 z)).
  { intros y Hy. eapply Forall_impl; [apply digits_of_chars; exact Hy|]. intros c Hc. unfold number_char. by rewrite Hc. }
  intros Hz. unfold decimal. destruct (Z.ltb_spec z 0).
  - destruct (read_digits_of 20 (- z)) as [E L]; [lia|lia|]. cbn [read_int length].
    change (45 =? 45) with true. cbn [andb]. rewrite E.
    destruct (Nat.eqb_spec (length (digits_of 20 (- z))) 0); [lia|].
    split; [f_equal; lia|]. split; [lia|]. split; [constructor; [done|apply W; lia]|by eexists _, _].
  - destruct (read_digits_of 20 z) as [E L]; [lia|lia|].
    pose proof (digits_of_chars 20 z ltac:(lia)) as F.
    destruct (digits_of 20 z) as [|c l] eqn:El; [cbn in L; lia|]. unfold read_int.
    apply Forall_cons in F as [Fc F]. destruct (Z.eqb_spec c 45); [lia|]. rewrite E.
    split; [done|]. split; [lia|]. split; [rewrite <- El; apply W; lia|]. eexists _, _. split; [done|].
    unfold number_start. by rewrite Fc, orb_true_r.
Qed.

Lemma read_digits_used l : forall acc, (snd (read_digits l acc) <= length l)%nat.
Proof.
  induction l as [|c l IH]; intros acc; cbn [read_digits]; [done|].
  destruct (_ && _); [|cbn; lia]. specialize (IH (acc * 10 + (c - 48))). destruct (read_digits l _). cbn in *. lia.
Qed.

#[local] Instance integral_laws : @DoubleLaws integral.
Proof.
  assert (I : forall z, INT_MIN <= z <= INT_MAX -> Z.abs z < 10 ^ 15) by (unfold INT_MIN, INT_MAX; lia).
  split; cbn [strtod finite sprintf_g deq dle of_int trunc integral double].
  - intros [|c l]; [done|]. unfold read_int. pose proof (read_digits_used l 0).
    pose proof (read_digits_used (c :: l) 0). destruct (c =? 45); [|done].
    destruct (read_digits l 0) as [v n]. cbn in *. destruct (n =? 0)%nat; cbn; lia.
  - intros p z Hz%Z.ltb_lt _. destruct (read_decimal z Hz) as (E & L & F & X).
    split; [done|]. split; [done|]. unfold decimal in *. destruct (z <? 0); cbn [length] in *; lia.
  - intros p z Hz%Z.ltb_lt _. by destruct (read_decimal z Hz) as [-> _].
  - intros p z Hz%Z.ltb_lt _. by destruct (read_decimal z Hz) as [-> _].
  - intros z Hz%Z.ltb_lt. destruct (read_decimal z Hz) as [-> _]. apply Z.eqb_refl.
  - intros z Hz%I. by apply Z.ltb_lt.
  - done.
  - done.
  - done.
  - intros z Hz%I. destruct (read_decimal z Hz) as [-> _]. apply Z.eqb_refl.
Qed.

End CJson.
