(* ===== verification/CJsonText.v ===== *)
(** * JSON texts and the parser

    A grammar of JSON texts and the trees they denote, with arbitrary white
    space, all escapes and surrogate pairs; the parser accepts every text of
    the grammar, at any place of a string, and returns the tree it denotes. *)

From S2P Require Import Prelude CJson.

Module CJsonText.
Import CJson.

#[local] Notation "'zlen' l" := (Z.of_nat (length l)) (at level 10, l at level 9).

(** ** UTF-8 *)

Definition utf8 (cp : Z) : list Z :=
  if cp <? 128 then [cp]
  else if cp <? 2048 then [192 + cp / 64; 128 + cp mod 64]
  else if cp <? 65536 then [224 + cp / 4096; 128 + cp / 64 mod 64; 128 + cp mod 64]
  else [240 + cp / 262144; 128 + cp / 4096 mod 64; 128 + cp / 64 mod 64; 128 + cp mod 64].

Lemma below_cases (P : Z -> bool) n : forallb P (seqZ 0 n) = true -> forall x, 0 <= x < n -> P x = true.
Proof. intros E x Hx. rewrite forallb_forall in E. apply E, list_elem_of_In, elem_of_seqZ. lia. Qed.

Lemma low_six cp : Z.land (Z.lor cp 128) 191 = 128 + cp mod 64.
Proof.
  rewrite Z.land_lor_distr_l. change (Z.land 128 191) with 128.
  assert (Z.lor (Z.land cp 191) 128 = Z.lor (Z.land cp 63) 128) as ->.
  { change 191 with (Z.lor 63 128). rewrite Z.land_lor_distr_r, <- Z.lor_assoc. f_equal.
    apply Z.bits_inj'. intros n Hn. rewrite Z.lor_spec, Z.land_spec. by destruct (Z.testbit cp n), (Z.testbit 128 n). }
  change 63 with (Z.ones 6). rewrite Z.land_ones by lia. change (2 ^ 6) with 64.
  apply Z.eqb_eq, (below_cases (fun x => Z.lor x 128 =? 128 + x) 64); [by vm_compute|apply Z.mod_pos_bound; lia].
Qed.

Lemma marked n mark x :
  forallb (fun x => Z.land (Z.lor x mark) 255 =? mark + x) (seqZ 0 n) = true -> 0 <= x < n ->
  Z.land (Z.lor x mark) 255 = mark + x.
Proof. intros E Hx. by apply Z.eqb_eq, (below_cases (fun x => Z.land (Z.lor x mark) 255 =? mark + x) n). Qed.

Lemma utf8_encode_spec cp : 0 <= cp <= 1114111 -> utf8_encode cp = Some (utf8 cp).
Proof.
  intros H. unfold utf8_encode, utf8. destruct (Z.ltb_spec cp 128).
  { change 127 with (Z.ones 7). rewrite Z.land_ones, Z.mod_small by lia. done. }
  cbn [utf8_tail]. rewrite !low_six, !Z.shiftr_div_pow2, !Z.div_div by lia.
  destruct (Z.ltb_spec cp 2048).
  { rewrite (marked 32) by first [split; [apply Z.div_pos|apply Z.div_lt_upper_bound]; lia|vm_compute; reflexivity]. done. }
  destruct (Z.ltb_spec cp 65536).
  { rewrite (marked 16) by first [split; [apply Z.div_pos|apply Z.div_lt_upper_bound]; lia|vm_compute; reflexivity]. done. }
  destruct (Z.leb_spec cp 1114111); [|lia].
  rewrite (marked 8) by first [split; [apply Z.div_pos|apply Z.div_lt_upper_bound]; lia|vm_compute; reflexivity]. done.
Qed.

Lemma surrogates h l :
  55296 <= h <= 56319 -> 56320 <= l <= 57343 ->
  65536 + Z.lor (Z.shiftl (Z.land h 1023) 10) (Z.land l 1023) = 65536 + (h - 55296) * 1024 + (l - 56320).
Proof.
  intros Hh Hl. change 1023 with (Z.ones 10). rewrite !Z.land_ones by lia. change (2 ^ 10) with 1024.
  replace (h mod 1024) with (h - 55296) by (apply (Z.mod_unique h 1024 54); lia).
  replace (l mod 1024) with (l - 56320) by (apply (Z.mod_unique l 1024 55); lia).
  rewrite <- Z.add_assoc. f_equal. rewrite <- (Z.shiftl_mul_pow2 _ 10) by lia.
  rewrite <- Z.lxor_lor, <- Z.add_nocarry_lxor; [done| |].
  all: apply Z.bits_inj'; intros n Hn; rewrite Z.land_spec, Z.bits_0.
  all: destruct (Z.ltb_spec n 10); [rewrite Z.shiftl_spec_low by lia; done|].
  all: rewrite (Z.bits_above_log2 (l - 56320)), andb_false_r; [done|lia|].
  all: destruct (Z.eq_dec (l - 56320) 0) as [->|]; [cbn; lia|].
  all: apply Z.log2_lt_pow2; [lia|]; apply Z.lt_le_trans with (2 ^ 10); [lia|apply Z.pow_le_mono_r; lia].
Qed.

(** ** The grammar *)

Section Text.
Context `{DL : DoubleLaws}.

Definition ws (l : list Z) : Prop := Forall (fun c => 0 < c <= 32) l.

(** Four hexadecimal digits and their value. *)
Definition hex4 (h : list Z) (v : Z) : Prop :=
  exists a b c d, h = [a; b; c; d] /\
  exists x y z w, hex_digit a = Some x /\ hex_digit b = Some y /\ hex_digit c = Some z /\ hex_digit d = Some w /\
  v = x * 4096 + y * 256 + z * 16 + w.

(** What is between the quotes of a string, and its bytes. *)
Inductive str_text : list Z -> list Z -> Prop :=
| st_nil : str_text [] []
| st_char c t b : c <> 0 -> c <> 34 -> c <> 92 -> str_text t b -> str_text (c :: t) (c :: b)
| st_escape e c t b : simple_escape e = Some c -> str_text t b -> str_text (92 :: e :: t) (c :: b)
| st_unicode h v t b : hex4 h v -> v < 55296 \/ 57343 < v -> str_text t b ->
    str_text (92 :: 117 :: h ++ t) (utf8 v ++ b)
| st_surrogates h v l u t b : hex4 h v -> hex4 l u -> 55296 <= v <= 56319 -> 56320 <= u <= 57343 ->
    str_text t b ->
    str_text (92 :: 117 :: h ++ 92 :: 117 :: l ++ t) (utf8 (65536 + (v - 55296) * 1024 + (u - 56320)) ++ b).

Definition quoted (t : list Z) : list Z := 34 :: t ++ [34].

(** A number of at most 63 characters that [strtod] reads to its end. *)
Definition number_text (t : list Z) (d : double) : Prop :=
  (exists c l, t = c :: l /\ number_start c = true) /\ Forall (fun c => number_char c = true) t /\
  (length t <= 63)%nat /\ strtod t = (d, length t).

(** [jtext n v t]: the text [t] denotes [v] and is nested at most [n] deep. *)
Inductive jtext : nat -> cJSON -> list Z -> Prop :=
| jt_null n : jtext n cJSON_NULL (bytes_of "null")
| jt_false n : jtext n cJSON_False (bytes_of "false")
| jt_true n : jtext n cJSON_True (bytes_of "true")
| jt_number n t d : number_text t d -> jtext n (cJSON_Number d (valueint_of d)) t
| jt_string n t b : str_text t b -> jtext n (cJSON_String b) (quoted t)
| jt_no_items n w : ws w -> jtext (S n) (cJSON_Array []) (91 :: w ++ [93])
| jt_array n vs t : jitems n vs t -> jtext (S n) (cJSON_Array vs) (91 :: t ++ [93])
| jt_no_members n w : ws w -> jtext (S n) (cJSON_Object []) (123 :: w ++ [125])
| jt_object n ms t : jmembers n ms t -> jtext (S n) (cJSON_Object ms) (123 :: t ++ [125])
with jitems : nat -> list cJSON -> list Z -> Prop :=
| ji_last n v w t w' : ws w -> jtext n v t -> ws w' -> jitems n [v] (w ++ t ++ w')
| ji_more n v w t w' vs ts : ws w -> jtext n v t -> ws w' -> jitems n vs ts ->
    jitems n (v :: vs) (w ++ t ++ w' ++ 44 :: ts)
with jmembers : nat -> list (list Z * cJSON) -> list Z -> Prop :=
| jm_last n k v w kt w1 w2 t w' : ws w -> str_text kt k -> ws w1 -> ws w2 -> jtext n v t -> ws w' ->
    jmembers n [(k, v)] (w ++ quoted kt ++ w1 ++ 58 :: w2 ++ t ++ w')
| jm_more n k v w kt w1 w2 t w' ms ts : ws w -> str_text kt k -> ws w1 -> ws w2 -> jtext n v t -> ws w' ->
    jmembers n ms ts ->
    jmembers n ((k, v) :: ms) (w ++ quoted kt ++ w1 ++ 58 :: w2 ++ t ++ w' ++ 44 :: ts).

Scheme jtext_mut := Induction for jtext Sort Prop
with jitems_mut := Induction for jitems Sort Prop
with jmembers_mut := Induction for jmembers Sort Prop.
Combined Scheme jtext_ind3 from jtext_mut, jitems_mut, jmembers_mut.

(** ** Scanning *)

Section Scan.
Variable content : list Z.
(** The text that is still to be read. *)
#[local] Abbreviation at_ off := (drop (Z.to_nat off) content).

Lemma at_bound off l : at_ off = l -> (Z.to_nat off <= length content)%nat \/ l = [].
Proof.
  intros E. destruct (decide (Z.to_nat off <= length content)%nat); [by left|right].
  rewrite <- E. apply drop_ge. lia.
Qed.

Lemma at_access off c l : 0 <= off -> at_ off = c :: l ->
  can_access content off 0 = true /\ load content off = Def c /\ off + zlen (c :: l) = zlen content.
Proof.
  intros Ho E. pose proof (f_equal length E) as L. rewrite length_drop in L. cbn [length] in *.
  split; [apply Z.ltb_lt; lia|]. split; [by apply (load_cons content off c l)|lia].
Qed.

Lemma skip_loop_spec w : forall fuel off c l, ws w -> 32 < c -> 0 <= off -> at_ off = w ++ c :: l ->
  (length w < fuel)%nat -> skip_loop content fuel off = Def (off + zlen w).
Proof.
  induction w as [|x w IH]; intros fuel off c l W Hc Ho E F; destruct fuel as [|fuel]; try lia; cbn [skip_loop app] in *.
  - destruct (at_access off c l Ho E) as (A & L & _). rewrite A, L. cbn [mbind ub_bind].
    destruct (Z.leb_spec c 32); [lia|]. f_equal. cbn. lia.
  - apply Forall_cons in W as [Wx W]. destruct (at_access off x (w ++ c :: l) Ho E) as (A & L & _).
    rewrite A, L. cbn [mbind ub_bind]. destruct (Z.leb_spec x 32); [|lia].
    rewrite (IH fuel (off + 1) c l); [f_equal; cbn [length]; lia|done|done|lia| |cbn in F; lia].
    change 1 with (zlen [x]). by apply drop_next.
Qed.

Lemma skip_ws w off c l : ws w -> 32 < c -> 0 <= off -> at_ off = w ++ c :: l ->
  buffer_skip_whitespace content off = Def (off + zlen w).
Proof.
  intros W Hc Ho E. unfold buffer_skip_whitespace.
  pose proof (f_equal length E) as L. rewrite length_drop, length_app in L. cbn [length] in L.
  rewrite (skip_loop_spec w _ off c l) by (done || lia). cbn [mbind ub_bind].
  destruct (Z.eqb_spec (off + zlen w) (zlen content)); [lia|done].
Qed.

Lemma match_lit_true off lit rest : at_ off = lit ++ rest -> 0 <= off -> rest <> [] ->
  match_lit content off lit = true.
Proof.
  intros E Ho Hr. unfold match_lit, mem_eqb. rewrite E, take_app_length, take_ge by lia.
  apply (f_equal length) in E. rewrite length_drop, length_app in E. destruct rest; [done|].
  cbn [length] in E. rewrite bool_decide_true by done. destruct (Z.leb_spec (off + zlen lit) (zlen content)); [done|lia].
Qed.

Lemma match_lit_false off x lit c l : at_ off = c :: l -> c <> x -> match_lit content off (x :: lit) = false.
Proof.
  intros E Hc. unfold match_lit, mem_eqb. rewrite E. cbn [length take].
  rewrite bool_decide_false by congruence. apply andb_false_r.
Qed.

Lemma number_loop_spec t : forall n off c l, Forall (fun c => number_char c = true) t ->
  number_char c = false -> 0 <= off -> at_ off = t ++ c :: l -> (length t <= n)%nat ->
  number_loop content n off = Def t.
Proof.
  induction t as [|x t IH]; intros n off c l F Hc Ho E L; cbn [app length] in *.
  - destruct n as [|n]; [done|]. cbn [number_loop]. destruct (at_access off c l Ho E) as (-> & -> & _).
    cbn [mbind ub_bind]. by rewrite Hc.
  - apply Forall_cons in F as [Fx F]. destruct n as [|n]; [lia|]. cbn [number_loop].
    destruct (at_access off x (t ++ c :: l) Ho E) as (-> & -> & _). cbn [mbind ub_bind]. rewrite Fx.
    rewrite (IH n (off + 1) c l); [done|done|done|lia| |lia]. change 1 with (zlen [x]). by apply drop_next.
Qed.

Lemma parse_number_spec t d off c l : number_text t d -> number_char c = false -> 0 <= off ->
  at_ off = t ++ c :: l -> parse_number content off = Def (Some (cJSON_Number d (valueint_of d), off + zlen t)).
Proof.
  intros ((x & l' & -> & Hx) & F & L & S) Hc Ho E. unfold parse_number.
  rewrite (number_loop_spec (x :: l') 63 off c l) by done. cbn [mbind ub_bind]. by rewrite S.
Qed.

(** ** Strings *)

(** What the search for the closing quote sees: characters and escapes. *)
Inductive scans : list Z -> nat -> Prop :=
| sc_nil : scans [] 0
| sc_char c t e : c <> 34 -> c <> 92 -> scans t e -> scans (c :: t) e
| sc_escape x t e : scans t e -> scans (92 :: x :: t) (S e).

Lemma hex_digit_range c x : hex_digit c = Some x -> c <> 34 /\ c <> 92 /\ c <> 0 /\ 0 <= x < 16.
Proof. unfold hex_digit. intros E. repeat case_match; simplify_eq; lia. Qed.

Lemma hex4_scans h v t e : hex4 h v -> scans t e -> scans (h ++ t) e.
Proof.
  intros (a & b & c & d & -> & x & y & z & w & Ha & Hb & Hc & Hd & _) S. cbn [app].
  pose proof (hex_digit_range _ _ Ha). pose proof (hex_digit_range _ _ Hb).
  pose proof (hex_digit_range _ _ Hc). pose proof (hex_digit_range _ _ Hd).
  do 4 (apply sc_char; [lia|lia|]). done.
Qed.

Lemma hex4_range h v : hex4 h v -> length h = 4%nat /\ 0 <= v < 65536.
Proof.
  intros (a & b & c & d & -> & x & y & z & w & Ha & Hb & Hc & Hd & ->).
  pose proof (hex_digit_range _ _ Ha). pose proof (hex_digit_range _ _ Hb).
  pose proof (hex_digit_range _ _ Hc). pose proof (hex_digit_range _ _ Hd). cbn. lia.
Qed.

Lemma utf8_length cp : (1 <= length (utf8 cp) <= 4)%nat /\ (cp < 65536 -> (length (utf8 cp) <= 3)%nat).
Proof.
  unfold utf8. destruct (Z.ltb_spec cp 128), (Z.ltb_spec cp 2048), (Z.ltb_spec cp 65536); cbn; lia.
Qed.

Lemma str_text_scans t b : str_text t b -> exists e, scans t e /\ (length b + e <= length t)%nat.
Proof.
  induction 1 as [|c t b H0 H1 H2 S (e & Sc & L)|x c t b Hx S (e & Sc & L)|h v t b Hh Hv S (e & Sc & L)
    |h v l u t b Hh Hl Hv Hu S (e & Sc & L)].
  - exists 0%nat. split; [constructor|done].
  - exists e. split; [by constructor|cbn; lia].
  - exists (1 + e)%nat. split; [by constructor|cbn; lia].
  - exists (1 + e)%nat. split; [constructor; by eapply hex4_scans|].
    destruct (hex4_range h v Hh), (utf8_length v). cbn [length]. rewrite !length_app. lia.
  - exists (2 + e)%nat. split; [constructor; eapply hex4_scans; [done|]; constructor; by eapply hex4_scans|].
    destruct (hex4_range h v Hh), (hex4_range l u Hl), (utf8_length (65536 + (v - 55296) * 1024 + (u - 56320))).
    cbn [length]. rewrite !length_app. cbn [length]. rewrite !length_app. lia.
Qed.

Lemma at_next off c l : 0 <= off -> at_ off = c :: l -> at_ (off + 1) = l.
Proof. intros Ho E. change 1 with (zlen [c]). by apply drop_next. Qed.

Lemma scan_end_spec t e : scans t e -> forall fuel off sk l, 0 <= off ->
  at_ off = t ++ 34 :: l -> (length t < fuel)%nat ->
  scan_end content fuel off sk = Def (Some (off + zlen t, sk + Z.of_nat e)).
Proof.
  induction 1 as [|c t e H1 H2 S IH|x t e S IH]; intros fuel off sk l Ho E F;
    (destruct fuel as [|fuel]; [lia|]); cbn [scan_end app] in *.
  - destruct (at_access off 34 l Ho E) as (A & -> & L). unfold can_access in A. rewrite Z.add_0_r in A.
    rewrite A. cbn [mbind ub_bind]. change (34 =? 34) with true. cbn. do 3 f_equal; lia.
  - destruct (at_access off c (t ++ 34 :: l) Ho E) as (A & -> & L). unfold can_access in A.
    rewrite Z.add_0_r in A. rewrite A. cbn [mbind ub_bind].
    destruct (Z.eqb_spec c 34); [done|]. destruct (Z.eqb_spec c 92); [done|].
    rewrite (IH fuel (off + 1) sk l); [do 3 f_equal; cbn [length]; lia|lia|by eapply at_next|cbn in F; lia].
  - destruct (at_access off 92 (x :: t ++ 34 :: l) Ho E) as (A & -> & L). unfold can_access in A.
    rewrite Z.add_0_r in A. rewrite A. cbn [mbind ub_bind length] in *.
    change (92 =? 34) with false. change (92 =? 92) with true. cbn [length] in *.
    destruct (Z.leb_spec (zlen content) (off + 1)); [lia|].
    rewrite (IH fuel (off + 2) (sk + 1) l); [do 3 f_equal; cbn [length]; lia|lia| |cbn in F; lia].
    change 2 with (zlen [92; x]). by apply drop_next.
Qed.

Lemma parse_hex4_spec h v off l : hex4 h v -> 0 <= off -> at_ off = h ++ l -> parse_hex4 content off = Def v.
Proof.
  intros (a & b & c & d & -> & x & y & z & w & Ha & Hb & Hc & Hd & ->) Ho E. cbn [app] in E.
  unfold parse_hex4. cbn [hex_loop Nat.eqb].
  pose proof (at_next off _ _ Ho E) as E1. pose proof (at_next (off + 1) _ _ ltac:(lia) E1) as E2.
  pose proof (at_next (off + 1 + 1) _ _ ltac:(lia) E2) as E3.
  rewrite (load_cons content off _ _ Ho E). cbn [mbind ub_bind]. rewrite Ha.
  rewrite (load_cons content (off + 1) _ _ ltac:(lia) E1). cbn [mbind ub_bind]. rewrite Hb.
  rewrite (load_cons content (off + 1 + 1) _ _ ltac:(lia) E2). cbn [mbind ub_bind]. rewrite Hc.
  rewrite (load_cons content (off + 1 + 1 + 1) _ _ ltac:(lia) E3). cbn [mbind ub_bind]. rewrite Hd.
  rewrite !Z.shiftl_mul_pow2 by lia. f_equal. lia.
Qed.

Lemma emit_ok cap out b : zlen out + zlen b <= cap -> emit cap out b = Def (out ++ b).
Proof. intros L. unfold emit. by rewrite (proj2 (Z.leb_le _ _)) by done. Qed.

Lemma unicode_spec h v p e l : hex4 h v -> v < 55296 \/ 57343 < v -> 0 <= p -> 6 <= e - p ->
  at_ p = 92 :: 117 :: h ++ l -> utf16_literal_to_utf8 content p e = Def (Some (utf8 v, 6)).
Proof.
  intros Hh Hv Hp He E. unfold utf16_literal_to_utf8. destruct (Z.ltb_spec (e - p) 6); [lia|].
  rewrite (parse_hex4_spec h v (p + 2) l); [|done|lia|].
  2:{ change 2 with (zlen [92; 117]). by apply drop_next. }
  cbn [mbind ub_bind]. destruct (hex4_range h v Hh) as [_ R].
  destruct (Z.leb_spec 56320 v), (Z.leb_spec v 57343); try lia;
    destruct (Z.leb_spec 55296 v), (Z.leb_spec v 56319); try lia; cbn [andb];
    by rewrite utf8_encode_spec by lia.
Qed.

Lemma surrogates_spec h v h' u p e l : hex4 h v -> hex4 h' u -> 55296 <= v <= 56319 -> 56320 <= u <= 57343 ->
  0 <= p -> 12 <= e - p -> at_ p = 92 :: 117 :: h ++ 92 :: 117 :: h' ++ l ->
  utf16_literal_to_utf8 content p e = Def (Some (utf8 (65536 + (v - 55296) * 1024 + (u - 56320)), 12)).
Proof.
  intros Hh Hl Hv Hu Hp He E. unfold utf16_literal_to_utf8. destruct (Z.ltb_spec (e - p) 6); [lia|].
  assert (E2 : at_ (p + 2) = h ++ 92 :: 117 :: h' ++ l).
  { change 2 with (zlen [92; 117]). by apply drop_next. }
  rewrite (parse_hex4_spec h v (p + 2) _ Hh ltac:(lia) E2). cbn [mbind ub_bind].
  destruct (hex4_range h v Hh) as [Lh _].
  assert (E6 : at_ (p + 6) = 92 :: 117 :: h' ++ l).
  { replace (p + 6) with (p + 2 + zlen h) by lia. apply drop_next; [lia|done]. }
  pose proof (at_next (p + 6) _ _ ltac:(lia) E6) as E7.
  assert (E8 : at_ (p + 6 + 2) = h' ++ l). { change 2 with (zlen [92; 117]). apply drop_next; [lia|done]. }
  destruct (Z.leb_spec 56320 v); [lia|]. destruct (Z.leb_spec 55296 v); [|lia]. destruct (Z.leb_spec v 56319); [|lia].
  cbn [andb]. destruct (Z.ltb_spec (e - (p + 6)) 6); [lia|].
  rewrite (load_cons content (p + 6) _ _ ltac:(lia) E6). cbn [mbind ub_bind]. change (92 =? 92) with true. cbn [negb].
  rewrite (load_cons content (p + 6 + 1) _ _ ltac:(lia) E7). cbn [mbind ub_bind]. change (117 =? 117) with true. cbn [negb].
  rewrite (parse_hex4_spec h' u (p + 6 + 2) l Hl ltac:(lia) E8). cbn [mbind ub_bind].
  destruct (Z.ltb_spec u 56320); [lia|]. destruct (Z.ltb_spec 57343 u); [lia|]. cbn [orb].
  rewrite surrogates by done. by rewrite utf8_encode_spec by lia.
Qed.

Lemma decode_spec t b : str_text t b -> forall fuel p e cap out l, 0 <= p -> e = p + zlen t ->
  at_ p = t ++ 34 :: l -> (length t < fuel)%nat -> zlen out + zlen b <= cap ->
  decode content fuel p e cap out = Def (Some (out ++ b)).
Proof.
  induction 1 as [|c t b H0 H1 H2 St IH|x c t b Hx St IH|h v t b Hh Hv St IH|h v h' u t b Hh Hl Hv Hu St IH];
    intros fuel p e cap out l Hp -> E F C; (destruct fuel as [|fuel]; [lia|]); cbn [decode app] in *.
  - cbn [length]. rewrite Z.add_0_r, Z.ltb_irrefl. by rewrite app_nil_r.
  - cbn [length] in *. destruct (Z.ltb_spec p (p + Z.of_nat (S (length t)))); [|lia].
    rewrite (load_cons content p _ _ Hp E). cbn [mbind ub_bind]. destruct (Z.eqb_spec c 92); [done|]. cbn [negb].
    rewrite emit_ok by (cbn [length]; lia). cbn [mbind ub_bind].
    rewrite (IH fuel (p + 1) _ cap (out ++ [c]) l);
      [by rewrite <- app_assoc|lia|lia|by eapply at_next|lia|rewrite length_app; cbn [length]; lia].
  - cbn [length] in *. destruct (Z.ltb_spec p (p + Z.of_nat (S (S (length t))))); [|lia].
    pose proof (at_next p _ _ Hp E) as E1.
    rewrite (load_cons content p _ _ Hp E). cbn [mbind ub_bind]. change (92 =? 92) with true. cbn [negb].
    destruct (Z.ltb_spec (p + Z.of_nat (S (S (length t))) - p) 1); [lia|].
    rewrite (load_cons content (p + 1) _ _ ltac:(lia) E1). cbn [mbind ub_bind]. rewrite Hx.
    rewrite emit_ok by (cbn [length]; lia). cbn [mbind ub_bind].
    rewrite (IH fuel (p + 2) _ cap (out ++ [c]) l);
      [by rewrite <- app_assoc|lia|lia| |lia|rewrite length_app; cbn [length]; lia].
    replace (p + 2) with (p + 1 + 1) by lia. by eapply at_next; [lia|].
  - destruct (hex4_range h v Hh) as [Lh _]. cbn [length] in *. rewrite length_app in *.
    set (e := p + Z.of_nat (S (S (length h + length t)))).
    destruct (Z.ltb_spec p e); [|lia]. pose proof (at_next p _ _ Hp E) as E1.
    rewrite (load_cons content p _ _ Hp E). cbn [mbind ub_bind]. change (92 =? 92) with true. cbn [negb].
    destruct (Z.ltb_spec (e - p) 1); [lia|].
    rewrite (load_cons content (p + 1) _ _ ltac:(lia) E1). cbn [mbind ub_bind].
    change (simple_escape 117) with (@None Z). change (117 =? 117) with true. cbn match.
    rewrite <- app_assoc in E.
    rewrite (unicode_spec h v p e (t ++ 34 :: l)) by (done || lia). cbn [bindo].
    rewrite ?length_app in C. rewrite emit_ok by lia. cbn [mbind ub_bind].
    rewrite (IH fuel (p + 6) e cap (out ++ utf8 v) l);
      [by rewrite <- app_assoc|lia|lia| |lia|rewrite length_app; lia].
    replace (p + 6) with (p + zlen (92 :: 117 :: h)) by (cbn [length]; lia). by apply drop_next.
  - destruct (hex4_range h v Hh) as [Lh _], (hex4_range h' u Hl) as [Ll _].
    cbn [length] in *. rewrite length_app in *. cbn [length] in *. rewrite length_app in *.
    set (e := p + Z.of_nat (S (S (length h + S (S (length h' + length t)))))).
    destruct (Z.ltb_spec p e); [|lia]. pose proof (at_next p _ _ Hp E) as E1.
    rewrite (load_cons content p _ _ Hp E). cbn [mbind ub_bind]. change (92 =? 92) with true. cbn [negb].
    destruct (Z.ltb_spec (e - p) 1); [lia|].
    rewrite (load_cons content (p + 1) _ _ ltac:(lia) E1). cbn [mbind ub_bind].
    change (simple_escape 117) with (@None Z). change (117 =? 117) with true. cbn match.
    rewrite <- app_assoc in E. cbn [app] in E. rewrite <- app_assoc in E.
    rewrite (surrogates_spec h v h' u p e (t ++ 34 :: l)) by (done || lia). cbn [bindo].
    rewrite ?length_app in C. rewrite emit_ok by lia. cbn [mbind ub_bind].
    rewrite (IH fuel (p + 12) e cap (out ++ _) l);
      [by rewrite <- app_assoc|lia|lia| |lia|rewrite length_app; lia].
    replace (p + 12) with (p + zlen ((92 :: 117 :: h) ++ 92 :: 117 :: h')) by (rewrite length_app; cbn [length]; lia).
    apply drop_next; [done|]. by rewrite <- app_assoc.
Qed.

Lemma parse_string_spec t b off l : str_text t b -> 0 <= off -> at_ off = quoted t ++ l ->
  parse_string content off [] = Def (Some (b, off + zlen (quoted t), [])).
Proof.
  intros S Ho E. unfold quoted in *. cbn [app] in E. rewrite <- app_assoc in E. cbn [app] in E.
  pose proof (at_next off _ _ Ho E) as E1. pose proof (f_equal length E1) as Len.
  rewrite length_drop, length_app in Len. cbn [length] in Len.
  unfold parse_string. rewrite (load_cons content off _ _ Ho E). cbn [mbind ub_bind].
  change (34 =? 34) with true. cbn [negb]. destruct (str_text_scans t b S) as (e & Sc & L).
  rewrite (scan_end_spec t e Sc _ (off + 1) 0 l) by (done || lia). cbn [bindo alloc negb].
  rewrite (decode_spec t b S _ (off + 1) _ _ [] l) by (done || (cbn [length]; lia)). cbn [bindo app].
  rewrite emit_ok by (cbn [length]; lia). cbn [mbind ub_bind length]. rewrite length_app. cbn [length].
  do 4 f_equal. lia.
Qed.

(** ** Values *)

Definition value_head (t : list Z) : Prop := exists c l, t = c :: l /\ 32 < c < 128 /\ c <> 93 /\ c <> 125.

Lemma jtext_head n v t : jtext n v t -> value_head t.
Proof.
  destruct 1 as [| | |? t d ((c & l & -> & Hc) & _)|? t b S|? w W|? vs t I|? w W|? ms t M]; unfold value_head, quoted.
  all: try by (eexists _, _; split; [reflexivity|]; vm_compute).
  unfold number_start in Hc. eexists _, _. split; [reflexivity|]. lia.
Qed.

Lemma after_ws w x l : ws w -> number_char x = false -> exists c r, w ++ x :: l = c :: r /\ number_char c = false.
Proof.
  intros W Hx. destruct w as [|c w]; [by exists x, l|]. apply Forall_cons in W as [Wc _].
  exists c, (w ++ x :: l). split; [done|]. unfold number_char. lia.
Qed.

Lemma at_app off a b : 0 <= off -> at_ off = a ++ b -> at_ (off + zlen a) = b.
Proof. apply drop_next. Qed.

Lemma skip_value w t off l : ws w -> value_head t -> 0 <= off -> at_ off = w ++ t ++ l ->
  buffer_skip_whitespace content off = Def (off + zlen w).
Proof. intros W (c & r & -> & Hc & _) Ho E. apply (skip_ws w off c (r ++ l)); (done || lia). Qed.

#[local] Ltac read_at E :=
  match type of E with drop (Z.to_nat ?o) _ = ?c :: ?l =>
    let A := fresh in let B := fresh in
    destruct (at_access o c l ltac:(lia) E) as (A & B & _); rewrite ?A, ?B; clear A B
  end.

(** The character after an element decides how the loop goes on. *)
Lemma array_step pv fuel off acc w t w' x l v :
  ws w -> value_head t -> ws w' -> 32 < x -> 0 <= off -> at_ (off + 1) = w ++ t ++ w' ++ x :: l ->
  pv (off + 1 + zlen w) [] = Def (Some (v, off + 1 + zlen w + zlen t, [])) ->
  array_loop content pv (S fuel) off [] acc =
  let off' := off + 1 + zlen w + zlen t + zlen w' in
  if x =? 44 then array_loop content pv fuel off' [] (acc ++ [v])
  else if negb (x =? 93) then Def None else Def (Some (acc ++ [v], off', [])).
Proof.
  intros W V W' Hx Ho E P. cbn [array_loop alloc negb].
  rewrite (skip_value w t (off + 1) _ W V ltac:(lia) E). cbn [mbind ub_bind]. rewrite P. cbn [bindo].
  apply at_app in E; [|lia]. apply at_app in E; [|lia].
  rewrite (skip_ws w' _ x l) by (done || lia). cbn [mbind ub_bind]. apply at_app in E; [|lia].
  read_at E. done.
Qed.

Lemma object_step pv fuel off acc w kt k w1 w2 t w' x l v :
  ws w -> str_text kt k -> ws w1 -> ws w2 -> value_head t -> ws w' -> 32 < x -> 0 <= off ->
  at_ (off + 1) = w ++ quoted kt ++ w1 ++ 58 :: w2 ++ t ++ w' ++ x :: l ->
  let at_v := off + 1 + zlen w + zlen (quoted kt) + zlen w1 + 1 + zlen w2 in
  pv at_v [] = Def (Some (v, at_v + zlen t, [])) ->
  object_loop content pv (S fuel) off [] acc =
  let off' := at_v + zlen t + zlen w' in
  if x =? 44 then object_loop content pv fuel off' [] (acc ++ [(k, v)])
  else if negb (x =? 125) then Def None else Def (Some (acc ++ [(k, v)], off', [])).
Proof.
  intros W S W1 W2 V W' Hx Ho E at_v P. cbn [object_loop alloc negb].
  rewrite (skip_ws w (off + 1) 34 ((kt ++ [34]) ++ w1 ++ 58 :: w2 ++ t ++ w' ++ x :: l)) by (done || lia).
  cbn [mbind ub_bind]. apply at_app in E; [|lia].
  erewrite parse_string_spec; [|exact S|lia|exact E]. cbn [bindo]. apply at_app in E; [|lia].
  erewrite skip_ws; [|exact W1| |lia|exact E]; [|lia]. cbn [mbind ub_bind]. apply at_app in E; [|lia].
  read_at E. cbn [negb mbind ub_bind].
  change (58 =? 58) with true. cbn [negb]. apply at_next in E; [|lia].
  erewrite skip_value; [|exact W2|exact V|lia|exact E]. cbn [mbind ub_bind]. apply at_app in E; [|lia].
  fold at_v in E |- *. rewrite P. cbn [bindo]. apply at_app in E; [|lia].
  rewrite (skip_ws w' _ x l) by (done || lia). cbn [mbind ub_bind]. apply at_app in E; [|lia].
  read_at E. done.
Qed.

(** The loops skip white space first. *)
Lemma array_loop_skip pv fuel a b acc :
  buffer_skip_whitespace content (a + 1) = buffer_skip_whitespace content (b + 1) ->
  array_loop content pv fuel a [] acc = array_loop content pv fuel b [] acc.
Proof. intros E. destruct fuel; [done|]. cbn [array_loop]. by rewrite E. Qed.

Lemma object_loop_skip pv fuel a b acc :
  buffer_skip_whitespace content (a + 1) = buffer_skip_whitespace content (b + 1) ->
  object_loop content pv fuel a [] acc = object_loop content pv fuel b [] acc.
Proof. intros E. destruct fuel; [done|]. cbn [object_loop]. by rewrite E. Qed.

Definition value_parses (n : nat) (v : cJSON) (t : list Z) : Prop :=
  forall fuel depth off c l, (n < fuel)%nat -> depth + Z.of_nat n <= CJSON_NESTING_LIMIT -> 0 <= off ->
  at_ off = t ++ c :: l -> number_char c = false ->
  parse_value content fuel depth off [] = Def (Some (v, off + zlen t, [])).

Definition items_parse (n : nat) (vs : list cJSON) (t : list Z) : Prop :=
  forall fuel pf depth off acc l, (n < pf)%nat -> depth + Z.of_nat n <= CJSON_NESTING_LIMIT -> 0 <= off ->
  at_ (off + 1) = t ++ 93 :: l -> (length t <= fuel)%nat ->
  array_loop content (parse_value content pf depth) fuel off [] acc = Def (Some (acc ++ vs, off + 1 + zlen t, [])).

Definition members_parse (n : nat) (ms : list (list Z * cJSON)) (t : list Z) : Prop :=
  forall fuel pf depth off acc l, (n < pf)%nat -> depth + Z.of_nat n <= CJSON_NESTING_LIMIT -> 0 <= off ->
  at_ (off + 1) = t ++ 125 :: l -> (length t <= fuel)%nat ->
  object_loop content (parse_value content pf depth) fuel off [] acc = Def (Some (acc ++ ms, off + 1 + zlen t, [])).

(** A literal, by its first letter. *)
Lemma literals_no off c l : at_ off = c :: l -> number_start c || (c =? 34) || (c =? 91) || (c =? 123) = true ->
  match_lit content off (bytes_of "null") = false /\ match_lit content off (bytes_of "false") = false /\
  match_lit content off (bytes_of "true") = false.
Proof.
  intros E Hc. unfold number_start in Hc.
  split; [|split].
  - apply (match_lit_false off 110 [117; 108; 108] c l E). lia.
  - apply (match_lit_false off 102 [97; 108; 115; 101] c l E). lia.
  - apply (match_lit_false off 116 [114; 117; 101] c l E). lia.
Qed.

#[local] Ltac value_at E :=
  match type of E with drop (Z.to_nat ?o) _ = ?c :: ?l =>
    let A := fresh in let B := fresh in let C := fresh in
    destruct (literals_no o c l E) as (A & B & C); [try done|rewrite A, B, C; clear A B C; read_at E]
  end.

(** An opening bracket, white space and the character [x]. *)
Lemma open_array fuel depth off w x r :
  depth < CJSON_NESTING_LIMIT -> ws w -> 32 < x -> 0 <= off -> at_ off = 91 :: w ++ x :: r ->
  parse_value content (S fuel) depth off [] =
  if x =? 93 then Def (Some (cJSON_Array [], off + 1 + zlen w + 1, [])) else
  bindo (array_loop content (parse_value content fuel (depth + 1)) (length content) off [] [])
    (fun '(child, offset, al) => Def (Some (cJSON_Array child, offset + 1, al))).
Proof.
  intros D W Hx Ho E. cbn [parse_value]. value_at E. cbn [negb mbind ub_bind].
  change (91 =? 34) with false. change (number_start 91) with false. change (91 =? 91) with true. cbn match.
  unfold parse_array. destruct (Z.leb_spec CJSON_NESTING_LIMIT depth); [lia|].
  read_at E. cbn [mbind ub_bind]. change (91 =? 91) with true. cbn [negb]. apply at_next in E; [|lia].
  rewrite (skip_ws w (off + 1) x r W Hx ltac:(lia) E). cbn [mbind ub_bind].
  pose proof (at_app (off + 1) _ _ ltac:(lia) E) as Ex. read_at Ex. cbn [mbind ub_bind negb].
  destruct (x =? 93); [done|]. rewrite (array_loop_skip _ _ _ off); [done|].
  rewrite (skip_ws w (off + 1) x r W Hx ltac:(lia) E).
  rewrite (skip_ws [] _ x r); [f_equal; cbn; lia|constructor|done|lia|].
  by replace (off + 1 + zlen w - 1 + 1) with (off + 1 + zlen w) by lia.
Qed.

Lemma open_object fuel depth off w x r :
  depth < CJSON_NESTING_LIMIT -> ws w -> 32 < x -> 0 <= off -> at_ off = 123 :: w ++ x :: r ->
  parse_value content (S fuel) depth off [] =
  if x =? 125 then Def (Some (cJSON_Object [], off + 1 + zlen w + 1, [])) else
  bindo (object_loop content (parse_value content fuel (depth + 1)) (length content) off [] [])
    (fun '(child, offset, al) => Def (Some (cJSON_Object child, offset + 1, al))).
Proof.
  intros D W Hx Ho E. cbn [parse_value]. value_at E. cbn [negb mbind ub_bind].
  change (123 =? 34) with false. change (number_start 123) with false. change (123 =? 91) with false.
  change (123 =? 123) with true. cbn match.
  unfold parse_object. destruct (Z.leb_spec CJSON_NESTING_LIMIT depth); [lia|].
  read_at E. cbn [negb mbind ub_bind]. change (123 =? 123) with true. cbn [negb]. apply at_next in E; [|lia].
  rewrite (skip_ws w (off + 1) x r W Hx ltac:(lia) E). cbn [mbind ub_bind].
  pose proof (at_app (off + 1) _ _ ltac:(lia) E) as Ex. read_at Ex. cbn [mbind ub_bind negb].
  destruct (x =? 125); [done|]. rewrite (object_loop_skip _ _ _ off); [done|].
  rewrite (skip_ws w (off + 1) x r W Hx ltac:(lia) E).
  rewrite (skip_ws [] _ x r); [f_equal; cbn; lia|constructor|done|lia|].
  by replace (off + 1 + zlen w - 1 + 1) with (off + 1 + zlen w) by lia.
Qed.

(** How the texts of non-empty arrays and objects start. *)
Lemma jitems_head n vs t : jitems n vs t -> exists w x r, t = w ++ x :: r /\ ws w /\ 32 < x /\ x <> 93.
Proof.
  destruct 1 as [n v w t w' W V W'|n v w t w' vs ts W V W' _];
    destruct (jtext_head _ _ _ V) as (x & r & -> & [Hx _] & Hx' & _); exists w, x; eexists; done.
Qed.

Lemma jmembers_head n ms t : jmembers n ms t -> exists w r, t = w ++ 34 :: r /\ ws w.
Proof. destruct 1 as [n k v w kt w1 w2 t w' W|n k v w kt w1 w2 t w' ms ts W]; exists w; eexists; done. Qed.

Lemma at_length off l : at_ off = l -> (length l <= length content)%nat.
Proof. intros <-. rewrite length_drop. lia. Qed.

Lemma array_parses n vs t : jitems n vs t -> items_parse n vs t -> value_parses (S n) (cJSON_Array vs) (91 :: t ++ [93]).
Proof.
  intros J I fuel depth off c l F D Ho E Hc. destruct fuel as [|fuel]; [lia|].
  cbn [app] in E. rewrite <- app_assoc in E. cbn [app] in E.
  pose proof (at_length _ _ E) as Len. cbn [length] in Len. rewrite length_app in Len.
  destruct (jitems_head n vs t J) as (w & x & r & Et & W & Hx & Hx').
  rewrite (open_array fuel depth off w x (r ++ 93 :: c :: l)); [|lia|done|done|done|].
  2:{ rewrite E, Et, <- app_assoc. done. }
  destruct (Z.eqb_spec x 93); [done|]. apply at_next in E; [|done].
  rewrite (I (length content) fuel (depth + 1) off [] (c :: l)) by (done || lia). cbn [bindo length].
  rewrite length_app. cbn [length app]. do 4 f_equal. lia.
Qed.

Lemma object_parses n ms t :
  jmembers n ms t -> members_parse n ms t -> value_parses (S n) (cJSON_Object ms) (123 :: t ++ [125]).
Proof.
  intros J I fuel depth off c l F D Ho E Hc. destruct fuel as [|fuel]; [lia|].
  cbn [app] in E. rewrite <- app_assoc in E. cbn [app] in E.
  pose proof (at_length _ _ E) as Len. cbn [length] in Len. rewrite length_app in Len.
  destruct (jmembers_head n ms t J) as (w & r & Et & W).
  rewrite (open_object fuel depth off w 34 (r ++ 125 :: c :: l)); [|lia|done|lia|done|].
  2:{ rewrite E, Et, <- app_assoc. done. }
  change (34 =? 125) with false. cbn match. apply at_next in E; [|done].
  rewrite (I (length content) fuel (depth + 1) off [] (c :: l)) by (done || lia). cbn [bindo length].
  rewrite length_app. cbn [length app]. do 4 f_equal. lia.
Qed.

Lemma literal_parses n :
  value_parses n cJSON_NULL (bytes_of "null") /\ value_parses n cJSON_False (bytes_of "false") /\
  value_parses n cJSON_True (bytes_of "true").
Proof.
  change (bytes_of "null") with [110; 117; 108; 108]; change (bytes_of "false") with [102; 97; 108; 115; 101];
  change (bytes_of "true") with [116; 114; 117; 101].
  split; [|split]; intros fuel depth off c l F D Ho E Hc; (destruct fuel as [|fuel]; [lia|]); cbn [parse_value];
    change (bytes_of "null") with [110; 117; 108; 108]; change (bytes_of "false") with [102; 97; 108; 115; 101];
    change (bytes_of "true") with [116; 114; 117; 101].
  - by rewrite (match_lit_true off _ _ E).
  - rewrite (match_lit_false off 110 [117; 108; 108] 102 _ E) by done. by rewrite (match_lit_true off _ _ E).
  - rewrite (match_lit_false off 110 [117; 108; 108] 116 _ E) by done.
    rewrite (match_lit_false off 102 [97; 108; 115; 101] 116 _ E) by done. by rewrite (match_lit_true off _ _ E).
Qed.

Lemma number_parses n t d : number_text t d -> value_parses n (cJSON_Number d (valueint_of d)) t.
Proof.
  intros T fuel depth off c l F D Ho E Hc. destruct fuel as [|fuel]; [lia|]. cbn [parse_value].
  pose proof T as ((x & r & Et & Hx) & _). assert (Ex : at_ off = x :: r ++ c :: l) by by rewrite E, Et.
  value_at Ex; [by rewrite Hx|]. cbn [negb mbind ub_bind].
  destruct (Z.eqb_spec x 34) as [->|]; [done|]. rewrite Hx.
  by rewrite (parse_number_spec t d off c l T Hc Ho E).
Qed.

Lemma string_parses n t b : str_text t b -> value_parses n (cJSON_String b) (quoted t).
Proof.
  intros T fuel depth off c l F D Ho E Hc. destruct fuel as [|fuel]; [lia|]. cbn [parse_value].
  assert (Ex : at_ off = 34 :: (t ++ [34]) ++ c :: l) by exact E.
  value_at Ex. cbn [negb mbind ub_bind]. change (34 =? 34) with true. cbn match.
  by rewrite (parse_string_spec t b off (c :: l) T Ho E).
Qed.

Lemma empty_parses n w : ws w ->
  value_parses (S n) (cJSON_Array []) (91 :: w ++ [93]) /\ value_parses (S n) (cJSON_Object []) (123 :: w ++ [125]).
Proof.
  intros W. split; intros fuel depth off c l F D Ho E Hc; (destruct fuel as [|fuel]; [lia|]);
    cbn [app] in E; rewrite <- app_assoc in E.
  - rewrite (open_array fuel depth off w 93 (c :: l)) by (done || lia).
    change (93 =? 93) with true. cbn [length]. rewrite length_app. cbn [length]. do 4 f_equal. lia.
  - rewrite (open_object fuel depth off w 125 (c :: l)) by (done || lia).
    change (125 =? 125) with true. cbn [length]. rewrite length_app. cbn [length]. do 4 f_equal. lia.
Qed.

Lemma items_last n v w t w' :
  ws w -> jtext n v t -> value_parses n v t -> ws w' -> items_parse n [v] (w ++ t ++ w').
Proof.
  intros W V IH W' fuel pf depth off acc l F D Ho E Hf. rewrite <- !app_assoc in E.
  rewrite !length_app in Hf. pose proof (jtext_head _ _ _ V) as (x & r & Et & _). rewrite Et in Hf. cbn [length] in Hf.
  destruct fuel as [|fuel]; [lia|]. destruct (after_ws w' 93 l W' eq_refl) as (c & r' & Ec & Hc).
  rewrite (array_step _ fuel off acc w t w' 93 l v); [|done|by eapply jtext_head|done|lia|done|done|].
  - cbn [Z.eqb Pos.eqb negb]. rewrite !length_app. do 4 f_equal. lia.
  - apply at_app in E; [|lia]. rewrite Ec in E. rewrite (IH pf depth _ c r') by (done || lia). done.
Qed.

Lemma items_more n v w t w' vs ts :
  ws w -> jtext n v t -> value_parses n v t -> ws w' -> items_parse n vs ts ->
  items_parse n (v :: vs) (w ++ t ++ w' ++ 44 :: ts).
Proof.
  intros W V IH W' IHs fuel pf depth off acc l F D Ho E Hf.
  rewrite <- !app_assoc in E. cbn [app] in E. rewrite !length_app in Hf. cbn [length] in Hf.
  destruct fuel as [|fuel]; [lia|]. destruct (after_ws w' 44 (ts ++ 93 :: l) W' eq_refl) as (c & r' & Ec & Hc).
  rewrite (array_step _ fuel off acc w t w' 44 (ts ++ 93 :: l) v); [|done|by eapply jtext_head|done|lia|done|done|].
  - cbn [Z.eqb Pos.eqb]. apply at_app in E; [|lia]. apply at_app in E; [|lia]. apply at_app in E; [|lia].
    rewrite (IHs fuel pf depth _ _ l); [|done|done|lia|by apply at_next in E; [|lia]|lia].
    rewrite <- app_assoc. cbn [app]. rewrite !length_app. cbn [length]. do 4 f_equal. lia.
  - apply at_app in E; [|lia]. rewrite Ec in E. rewrite (IH pf depth _ c r') by (done || lia). done.
Qed.

(** The value of a member, behind its name. *)
Lemma member_value n v t pf depth off w kt w1 w2 w' x l :
  value_parses n v t -> (n < pf)%nat -> depth + Z.of_nat n <= CJSON_NESTING_LIMIT -> 0 <= off -> ws w' ->
  number_char x = false -> at_ (off + 1) = w ++ quoted kt ++ w1 ++ 58 :: w2 ++ t ++ w' ++ x :: l ->
  let at_v := off + 1 + zlen w + zlen (quoted kt) + zlen w1 + 1 + zlen w2 in
  parse_value content pf depth at_v [] = Def (Some (v, at_v + zlen t, [])) /\ at_ (at_v + zlen t + zlen w') = x :: l.
Proof.
  intros IH F D Ho W' Hx E at_v. destruct (after_ws w' x l W' Hx) as (c & r' & Ec & Hc).
  do 3 (apply at_app in E; [|lia]). apply at_next in E; [|lia]. apply at_app in E; [|lia]. fold at_v in E.
  split.
  - rewrite (IH pf depth at_v c r'); [done|done|done|lia|by rewrite E, Ec|done].
  - do 2 (apply at_app in E; [|lia]). done.
Qed.

Lemma members_last n k v w kt w1 w2 t w' :
  ws w -> str_text kt k -> ws w1 -> ws w2 -> jtext n v t -> value_parses n v t -> ws w' ->
  members_parse n [(k, v)] (w ++ quoted kt ++ w1 ++ 58 :: w2 ++ t ++ w').
Proof.
  intros W K W1 W2 V IH W' fuel pf depth off acc l F D Ho E Hf.
  repeat (rewrite <- app_assoc in E || cbn [app] in E). repeat (rewrite length_app in Hf || cbn [length] in Hf).
  destruct fuel as [|fuel]; [lia|].
  destruct (member_value n v t pf depth off w kt w1 w2 w' 125 l IH F D Ho W' eq_refl E) as [P _].
  rewrite (object_step _ fuel off acc w kt k w1 w2 t w' 125 l v);
    [|done|done|done|done|by eapply jtext_head|done|lia|done|done|exact P].
  cbn [Z.eqb Pos.eqb negb]. repeat (rewrite length_app || cbn [length]). do 4 f_equal. lia.
Qed.

Lemma members_more n k v w kt w1 w2 t w' ms ts :
  ws w -> str_text kt k -> ws w1 -> ws w2 -> jtext n v t -> value_parses n v t -> ws w' -> members_parse n ms ts ->
  members_parse n ((k, v) :: ms) (w ++ quoted kt ++ w1 ++ 58 :: w2 ++ t ++ w' ++ 44 :: ts).
Proof.
  intros W K W1 W2 V IH W' IHs fuel pf depth off acc l F D Ho E Hf.
  repeat (rewrite <- app_assoc in E || cbn [app] in E). repeat (rewrite length_app in Hf || cbn [length] in Hf).
  destruct fuel as [|fuel]; [lia|].
  destruct (member_value n v t pf depth off w kt w1 w2 w' 44 (ts ++ 125 :: l) IH F D Ho W' eq_refl E) as [P Ex].
  rewrite (object_step _ fuel off acc w kt k w1 w2 t w' 44 (ts ++ 125 :: l) v);
    [|done|done|done|done|by eapply jtext_head|done|lia|done|done|exact P].
  cbn [Z.eqb Pos.eqb]. apply at_next in Ex; [|lia].
  rewrite (IHs fuel pf depth _ _ l); [|done|done|lia|exact Ex|lia].
  rewrite <- app_assoc. cbn [app]. repeat (rewrite length_app || cbn [length]). do 4 f_equal. lia.
Qed.

Lemma jtext_parses n v t : jtext n v t -> value_parses n v t.
Proof.
  cut ((forall n v t, jtext n v t -> value_parses n v t) /\
       (forall n vs t, jitems n vs t -> items_parse n vs t) /\
       (forall n ms t, jmembers n ms t -> members_parse n ms t)); [intros [T _]; apply T|].
  apply jtext_ind3; intros; try apply (literal_parses n0);
    eauto using number_parses, string_parses, array_parses, object_parses, items_last, items_more,
      members_last, members_more; by apply empty_parses.
Qed.

End Scan.
(** ** Whole texts *)

Lemma hex4_nz h v : hex4 h v -> Forall (fun c => c <> 0) h.
Proof.
  intros (a & b & c & d & -> & x & y & z & w & Ha & Hb & Hc & Hd & _).
  repeat constructor; by eapply hex_digit_range.
Qed.

Lemma str_text_nz t b : str_text t b -> Forall (fun c => c <> 0) t.
Proof.
  induction 1 as [|c t b H0 H1 H2 S IH|x c t b Hx S IH|h v t b Hh Hv S IH|h v h' u t b Hh Hl Hv Hu S IH].
  - constructor.
  - by constructor.
  - constructor; [done|]. constructor; [by intros ->|done].
  - do 2 (constructor; [done|]). apply Forall_app. eauto using hex4_nz.
  - do 2 (constructor; [done|]). apply Forall_app. split; [by eapply hex4_nz|].
    do 2 (constructor; [done|]). apply Forall_app. eauto using hex4_nz.
Qed.

Lemma ws_nz w : ws w -> Forall (fun c => c <> 0) w.
Proof. intros W. eapply Forall_impl; [exact W|]. intros c Hc. cbn in Hc. lia. Qed.

Lemma jtext_nz n v t : jtext n v t -> Forall (fun c => c <> 0) t.
Proof.
  cut ((forall n v t, jtext n v t -> Forall (fun c => c <> 0) t) /\
       (forall n vs t, jitems n vs t -> Forall (fun c => c <> 0) t) /\
       (forall n ms t, jmembers n ms t -> Forall (fun c => c <> 0) t)); [intros [T _]; apply T|].
  apply jtext_ind3; unfold quoted; intros;
    rewrite ?Forall_app, ?Forall_cons, ?Forall_app, ?Forall_cons, ?Forall_app, ?Forall_cons, ?Forall_nil;
    eauto 20 using ws_nz, str_text_nz.
  1-3: by repeat constructor.
  destruct n1 as (_ & F & _). eapply Forall_impl; [exact F|]. by intros c Hc ->.
Qed.

Lemma c_string_app a l : Forall (fun c => c <> 0) a -> c_string (a ++ 0 :: l) = Some (a ++ [0]).
Proof.
  induction 1 as [|c a Hc F IH]; [done|]. cbn [app c_string]. rewrite IH. by destruct (Z.eqb_spec c 0).
Qed.

Definition BOM : list Z := [239; 187; 191].

(** What follows the value is not looked at, unless it could continue a number. *)
Lemma parse_text n v t bom w garbage rest :
  jtext n v t -> (n <= 1000)%nat -> bom = [] \/ bom = BOM -> ws w -> Forall (fun c => c <> 0) garbage ->
  (forall c l, garbage = c :: l -> number_char c = false) ->
  cJSON_Parse [] (bom ++ w ++ t ++ garbage ++ 0 :: rest) = Def (Some v).
Proof.
  intros J L B W G N. unfold cJSON_Parse. pose proof (jtext_nz n v t J) as T.
  assert (Forall (fun c => c <> 0) bom) as Bz by (destruct B as [-> | ->]; repeat constructor; done).
  rewrite !app_assoc, c_string_app, <- !app_assoc.
  2:{ rewrite !Forall_app. eauto using ws_nz. }
  cbn [alloc negb]. set (content := bom ++ w ++ t ++ garbage ++ [0]).
  destruct (jtext_head n v t J) as (x & r & Et & Hx & _).
  assert (skip_utf8_bom content 0 = zlen bom) as ->.
  { unfold skip_utf8_bom, can_access, mem_eqb. destruct B as [-> | ->].
    - rewrite bool_decide_false; [by rewrite andb_false_r|]. subst content. rewrite Et. cbn [app Z.to_nat drop].
      destruct w as [|y w']; cbn [app take]; intros [=]; [lia|]. apply Forall_cons in W as [Wy _]. lia.
    - subst content. rewrite Et. cbn [BOM app Z.to_nat drop]. rewrite bool_decide_true by done.
      repeat (rewrite length_app || cbn [length]). by rewrite (proj2 (Z.ltb_lt _ _)) by lia. }
  assert (E : drop (Z.to_nat (zlen bom)) content = w ++ t ++ garbage ++ [0]) by (rewrite Nat2Z.id; apply drop_app_length).
  rewrite (skip_value content w t (zlen bom) (garbage ++ [0]) W (jtext_head n v t J) ltac:(lia) E). cbn [mbind ub_bind].
  apply at_app in E; [|lia].
  assert (exists c l, garbage ++ [0] = c :: l /\ number_char c = false) as (c & l & Ec & Hc).
  { destruct garbage as [|c g]; [by exists 0, []|]. exists c, (g ++ [0]). split; [done|]. by apply (N c g). }
  rewrite Ec in E. rewrite (jtext_parses content n v t J _ 0 _ c l) by (done || (unfold CJSON_NESTING_LIMIT; lia)). done.
Qed.

Lemma parse_plain n v t w rest : jtext n v t -> (n <= 1000)%nat -> ws w ->
  cJSON_Parse [] (w ++ t ++ 0 :: rest) = Def (Some v).
Proof.
  intros J L W. apply (parse_text n v t [] w [] rest); [done|done|by left|done|constructor|done].
Qed.

(** C32: a text of the JSON grammar, nested at most 1000 deep, with any white
    space, an optional byte order mark before it and anything after it that
    does not continue a number, is accepted and gives the tree it denotes:
    numbers as [strtod] reads them, strings with their escapes decoded and
    code points beyond the ASCII range, surrogate pairs included, in UTF-8. *)
Theorem cjson_parse_text n v t bom w garbage rest :
  jtext n v t -> (n <= 1000)%nat -> bom = [] \/ bom = BOM -> ws w -> Forall (fun c => c <> 0) garbage ->
  (forall c l, garbage = c :: l -> number_char c = false) ->
  cJSON_Parse [] (bom ++ w ++ t ++ garbage ++ 0 :: rest) = Def (Some v).
Proof. apply parse_text. Qed.

End Text.

#[local] Existing Instance integral.
#[local] Existing Instance integral_laws.

(** [[ -12 , "\ud83d\ude00\n" ]] *)
Lemma cjson_parse_text_witness :
  cJSON_Parse [] (BOM ++ [10] ++ bytes_of "[ -12 , " ++ quoted (bytes_of "\ud83d\ude00\n") ++ bytes_of " ]" ++ [120] ++ [0; 7]) =
  Def (Some (cJSON_Array [@cJSON_Number integral (-12) (-12); cJSON_String [240; 159; 152; 128; 10]])).
Proof.
  apply (cjson_parse_text 1 (cJSON_Array [@cJSON_Number integral (-12) (-12); cJSON_String [240; 159; 152; 128; 10]])
    (bytes_of "[ -12 , " ++ quoted (bytes_of "\ud83d\ude00\n") ++ bytes_of " ]") BOM [10] [120] [7]).
  - apply (jt_array 0 _ ([32] ++ bytes_of "-12" ++ [32] ++ 44 :: [32] ++ quoted (bytes_of "\ud83d\ude00\n") ++ [32])).
    apply ji_more; [by repeat constructor| |by repeat constructor|].
    + apply (jt_number 0 (bytes_of "-12") (-12 : @double integral)). split; [by eexists _, _|].
      split; [by repeat constructor|]. split; [vm_compute; lia|done].
    + apply ji_last; [by repeat constructor| |by repeat constructor]. apply jt_string.
      apply (st_surrogates (bytes_of "d83d") 55357 (bytes_of "de00") 56832 (bytes_of "\n") [10]); [| |lia|lia|].
      * exists 100, 56, 51, 100. split; [done|]. by exists 13, 8, 3, 13.
      * exists 100, 101, 48, 48. split; [done|]. by exists 13, 14, 0, 0.
      * apply (st_escape 110 10); [done|constructor].
  - lia.
  - by right.
  - by repeat constructor.
  - by repeat constructor.
  - by intros c l [= <- _].
Defined.
End CJsonText.
