(* ===== verification/CJsonPrint.v ===== *)
(** * The JSON printer (contrib/cJSON/cJSON.c)

    [print_value] and its parts over a growing buffer, plain and formatted; the
    printed text is that of a reference function, and the parser reads it back. *)

From S2P Require Import Prelude CJson CJsonText.

Module CJsonPrint.
Import CJson CJsonText.

#[local] Notation "'zlen' l" := (Z.of_nat (length l)) (at level 10, l at level 9).
#[local] Notation "'let*' p ':=' m 'in' k" := (bindo m (fun p => k))
  (at level 10, p pattern, m at level 200, k at level 200).

Section Print.
Context `{DL : DoubleLaws}.

(** [length] is that of [buffer]. *)
Record printbuffer := mkPrint {
  buffer : list Z;
  offset : Z;
  depth : nat;
  noalloc : bool;
  format : bool;
}.

(** The contents of new memory. *)
Variable fill : nat -> Z.

Definition set_buffer (p : printbuffer) (b : list Z) : printbuffer :=
  mkPrint b (offset p) (depth p) (noalloc p) (format p).
Definition advance (p : printbuffer) (n : Z) : printbuffer :=
  mkPrint (buffer p) (offset p + n) (depth p) (noalloc p) (format p).
Definition set_depth (p : printbuffer) (d : nat) : printbuffer :=
  mkPrint (buffer p) (offset p) d (noalloc p) (format p).

Definition new_memory (from to : Z) : list Z := map (fun i => fill (Z.to_nat i)) (seqZ from (to - from)).

Definition ensure (p : printbuffer) (needed : Z) (al : list bool) : option (printbuffer * list bool) :=
  let length := zlen (buffer p) in
  if (0 <? length) && (length <=? offset p) then None else
  if INT_MAX <? needed then None else
  let needed := needed + (offset p + 1) in
  if needed <=? length then Some (p, al) else
  if noalloc p then None else
  let newsize := if INT_MAX / 2 <? needed then if needed <=? INT_MAX then Some INT_MAX else None
                 else Some (needed * 2) in
  match newsize with
  | None => None
  | Some newsize =>
      let '(ok, al) := alloc al in
      if ok then Some (set_buffer p (buffer p ++ new_memory length newsize), al) else None
  end.

(** [ensure] and the writes at the pointer it returns. *)
Definition write (p : printbuffer) (needed : Z) (l : list Z) (al : list bool) : ub (option (printbuffer * list bool)) :=
  match ensure p needed al with
  | None => Def None
  | Some (p, al) => b ← memcpy (Some (buffer p)) (offset p) l (zlen l); Def (Some (set_buffer p b, al))
  end.

(** [strlen] from the current offset. *)
Definition update_offset (p : printbuffer) : ub printbuffer :=
  match c_string (drop (Z.to_nat (offset p)) (buffer p)) with
  | None => UB
  | Some s => Def (advance p (zlen s - 1))
  end.

Definition number_format (d : double) : list Z :=
  if negb (finite d) then bytes_of "null" else
  let text := sprintf_g 15 d in
  let '(test, used) := strtod text in
  if (used =? 0)%nat || negb (deq test d) then sprintf_g 17 d else text.

(** [number_buffer] has 26 bytes. *)
Definition print_number (d : double) (p : printbuffer) (al : list bool) : ub (option (printbuffer * list bool)) :=
  let text := number_format d in
  if 26 <? zlen text + 1 then UB else
  let* (p, al) := write p (zlen text + 1) (text ++ [0]) al in
  Def (Some (advance p (zlen text), al)).

(** The characters escaped by one letter. *)
Definition letter_escape (c : Z) : option Z :=
  if c =? 34 then Some 34 else if c =? 92 then Some 92 else if c =? 8 then Some 98
  else if c =? 12 then Some 102 else if c =? 10 then Some 110 else if c =? 13 then Some 114
  else if c =? 9 then Some 116 else None.

Definition escape_characters (input : list Z) : Z :=
  foldl (fun n c => match letter_escape c with Some _ => n + 1 | None => if c <? 32 then n + 5 else n end) 0 input.

Definition hex_char (d : Z) : Z := if d <? 10 then 48 + d else 87 + d.

(** [sprintf("u%04x", c)] *)
Definition u04x (c : Z) : list Z := [117; 48; 48; hex_char (c / 16); hex_char (c mod 16)].

Definition escape_char (c : Z) : list Z :=
  if (31 <? c) && negb (c =? 34) && negb (c =? 92) then [c] else
  92 :: match letter_escape c with Some e => [e] | None => u04x c end.

(** [str_len] 0 asks for the length of the C string. *)
Definition print_string_ptr (s : list Z) (str_len : Z) (p : printbuffer) (al : list bool)
    : ub (option (printbuffer * list bool)) :=
  let input := if str_len =? 0 then cstr s else take (Z.to_nat str_len) s in
  let output_length := zlen input + escape_characters input in
  if escape_characters input =? 0 then write p (output_length + 3) (34 :: input ++ [34; 0]) al
  else
    let* (p, al) := write p (output_length + 3) (34 :: concat (map escape_char input)) al in
    b ← memcpy (Some (buffer p)) (offset p + output_length + 1) [34; 0] 2;
    Def (Some (set_buffer p b, al)).

Definition tabs (n : nat) : list Z := replicate n 9.

(** The loops over the children. *)
Section Loops.
Variable pv : cJSON -> printbuffer -> list bool -> ub (option (printbuffer * list bool)).

Fixpoint print_items (child : list cJSON) (p : printbuffer) (al : list bool) : ub (option (printbuffer * list bool)) :=
  match child with
  | [] => Def (Some (p, al))
  | v :: next =>
      let* (p, al) := pv v p al in
      p ← update_offset p;
      match next with
      | [] => print_items next p al
      | _ =>
          let sep := if format p then [44; 32] else [44] in
          let* (p, al) := write p (zlen sep + 1) (sep ++ [0]) al in
          print_items next (advance p (zlen sep)) al
      end
  end.

Fixpoint print_members (child : list (list Z * cJSON)) (p : printbuffer) (al : list bool)
    : ub (option (printbuffer * list bool)) :=
  match child with
  | [] => Def (Some (p, al))
  | (name, v) :: next =>
      let* (p, al) := (if format p then
          let* (p, al) := write p (Z.of_nat (depth p)) (tabs (depth p)) al in
          Def (Some (advance p (Z.of_nat (depth p)), al))
        else Def (Some (p, al))) in
      let* (p, al) := print_string_ptr name 0 p al in
      p ← update_offset p;
      let colon := if format p then [58; 9] else [58] in
      let* (p, al) := write p (zlen colon) colon al in
      let* (p, al) := pv v (advance p (zlen colon)) al in
      p ← update_offset p;
      let sep := match next with [] => [] | _ => [44] end ++ (if format p then [10] else []) in
      let* (p, al) := write p (zlen sep + 1) (sep ++ [0]) al in
      print_members next (advance p (zlen sep)) al
  end.

Definition print_array (child : list cJSON) (p : printbuffer) (al : list bool) : ub (option (printbuffer * list bool)) :=
  let* (p, al) := write p 1 [91] al in
  let* (p, al) := print_items child (set_depth (advance p 1) (S (depth p))) al in
  let* (p, al) := write p 2 [93; 0] al in
  Def (Some (set_depth p (pred (depth p)), al)).

Definition print_object (child : list (list Z * cJSON)) (p : printbuffer) (al : list bool)
    : ub (option (printbuffer * list bool)) :=
  let first := if format p then [123; 10] else [123] in
  let* (p, al) := write p (zlen first + 1) first al in
  let* (p, al) := print_members child (advance (set_depth p (S (depth p))) (zlen first)) al in
  let* (p, al) := write p (if format p then Z.of_nat (depth p) + 1 else 2)
                    ((if format p then tabs (pred (depth p)) else []) ++ [125; 0]) al in
  Def (Some (set_depth p (pred (depth p)), al)).

End Loops.

Fixpoint print_value (item : cJSON) (p : printbuffer) (al : list bool) : ub (option (printbuffer * list bool)) :=
  match item with
  | cJSON_NULL => write p 5 (bytes_of "null" ++ [0]) al
  | cJSON_False => write p 6 (bytes_of "false" ++ [0]) al
  | cJSON_True => write p 5 (bytes_of "true" ++ [0]) al
  | cJSON_Number d _ => print_number d p al
  | cJSON_Raw s => write p (zlen (cstr s) + 1) (cstr s ++ [0]) al
  | cJSON_String s => print_string_ptr s 0 p al
  | cJSON_Array child => print_array print_value child p al
  | cJSON_Object child => print_object print_value child p al
  end.

(** The result with its terminator. *)
Definition print (item : cJSON) (fmt : bool) (al : list bool) : ub (option (list Z)) :=
  let '(ok, al) := alloc al in
  if negb ok then Def None else
  let* (p, al) := print_value item (mkPrint (new_memory 0 256) 0 0 false fmt) al in
  p ← update_offset p;
  let '(ok, _) := alloc al in
  if ok then Def (Some (take (Z.to_nat (offset p + 1)) (buffer p))) else Def None.

Definition cJSON_Print (item : cJSON) (al : list bool) : ub (option (list Z)) := print item true al.
Definition cJSON_PrintUnformatted (item : cJSON) (al : list bool) : ub (option (list Z)) := print item false al.

(** ** The reference text *)

Definition escaped (s : list Z) : list Z := concat (map escape_char (cstr s)).

Definition render_items (r : cJSON -> list Z) (fmt : bool) : list cJSON -> list Z :=
  fix go vs := match vs with
    | [] => []
    | v :: vs => r v ++ match vs with [] => [] | _ => (if fmt then [44; 32] else [44]) ++ go vs end
    end.

Definition render_members (r : cJSON -> list Z) (fmt : bool) (d : nat) : list (list Z * cJSON) -> list Z :=
  fix go ms := match ms with
    | [] => []
    | (k, v) :: ms =>
        (if fmt then tabs d else []) ++ quoted (escaped k) ++ 58 :: (if fmt then [9] else []) ++ r v ++
        match ms with [] => [] | _ => [44] end ++ (if fmt then [10] else []) ++ go ms
    end.

(** The text of a value, [d] levels deep; formatted with one member to a line. *)
Fixpoint render (fmt : bool) (d : nat) (item : cJSON) : list Z :=
  match item with
  | cJSON_NULL => bytes_of "null"
  | cJSON_False => bytes_of "false"
  | cJSON_True => bytes_of "true"
  | cJSON_Number x _ => number_format x
  | cJSON_Raw s => cstr s
  | cJSON_String s => quoted (escaped s)
  | cJSON_Array vs => 91 :: render_items (render fmt (S d)) fmt vs ++ [93]
  | cJSON_Object ms =>
      123 :: (if fmt then [10] else []) ++ render_members (render fmt (S d)) fmt (S d) ms ++
      (if fmt then tabs d else []) ++ [125]
  end.

(** Trees that can be read back: strings of bytes other than NUL, finite
    numbers with their integer part, nested at most [n] deep. *)
Definition clean (s : list Z) : Prop := Forall (fun c => 0 < c < 256) s.

Inductive printable : nat -> cJSON -> Prop :=
| pr_null n : printable n cJSON_NULL
| pr_false n : printable n cJSON_False
| pr_true n : printable n cJSON_True
| pr_number n d : finite d = true -> printable n (cJSON_Number d (valueint_of d))
| pr_string n s : clean s -> printable n (cJSON_String s)
| pr_array n vs : (forall v, v ∈ vs -> printable n v) -> printable (S n) (cJSON_Array vs)
| pr_object n ms : (forall k v, (k, v) ∈ ms -> clean k) -> (forall k v, (k, v) ∈ ms -> printable n v) ->
    printable (S n) (cJSON_Object ms).

(** Trees of strings of bytes, as the parser returns them; there may be a NUL in
    a string, which then ends there. *)
Inductive byte_tree : cJSON -> Prop :=
| bt_null : byte_tree cJSON_NULL
| bt_false : byte_tree cJSON_False
| bt_true : byte_tree cJSON_True
| bt_number d i : byte_tree (cJSON_Number d i)
| bt_raw s : byte_tree (cJSON_Raw s)
| bt_string s : is_bytes s -> byte_tree (cJSON_String s)
| bt_array vs : (forall v, v ∈ vs -> byte_tree v) -> byte_tree (cJSON_Array vs)
| bt_object ms : (forall k v, (k, v) ∈ ms -> is_bytes k) -> (forall k v, (k, v) ∈ ms -> byte_tree v) ->
    byte_tree (cJSON_Object ms).

Lemma clean_bytes s : clean s -> is_bytes s.
Proof. intros C. eapply Forall_impl; [exact C|]. intros c Hc. unfold is_byte. cbn in Hc. lia. Qed.

Lemma printable_byte_tree n v : printable n v -> byte_tree v.
Proof. induction 1; constructor; eauto using clean_bytes. Qed.

(** ** The buffer *)

(** [pre] has been printed and there is room for a terminator. *)
Definition at_end (p : printbuffer) (pre : list Z) (fmt : bool) (d : nat) : Prop :=
  (exists tail, buffer p = pre ++ tail /\ tail <> []) /\ offset p = zlen pre /\
  depth p = d /\ noalloc p = false /\ format p = fmt.

(** [txt] has been printed behind [pre] and terminated; the offset is in it. *)
Definition printed (p : printbuffer) (pre txt : list Z) (fmt : bool) (d : nat) : Prop :=
  (exists tail, buffer p = pre ++ txt ++ 0 :: tail) /\ zlen pre <= offset p <= zlen pre + zlen txt /\
  depth p = d /\ noalloc p = false /\ format p = fmt.

Lemma length_new_memory a b : a <= b -> zlen (new_memory a b) = b - a.
Proof. intros L. unfold new_memory. rewrite length_map, length_seqZ. lia. Qed.

Lemma ensure_ok p pre fmt d needed : at_end p pre fmt d -> 0 <= needed -> zlen pre + needed + 1 <= INT_MAX ->
  exists p', ensure p needed [] = Some (p', []) /\ at_end p' pre fmt d /\ zlen pre + needed + 1 <= zlen (buffer p').
Proof.
  intros ((tail & B & T) & O & D & A & Fm) N L. unfold ensure.
  assert (zlen (buffer p) = zlen pre + zlen tail) as Len by (rewrite B, length_app; lia).
  assert (1 <= zlen tail) by (destruct tail; [done|cbn; lia]).
  rewrite O, Len. destruct (Z.ltb_spec 0 (zlen pre + zlen tail)); [|lia].
  destruct (Z.leb_spec (zlen pre + zlen tail) (zlen pre)); [lia|]. cbn [andb].
  destruct (Z.ltb_spec INT_MAX needed); [lia|].
  destruct (Z.leb_spec (needed + (zlen pre + 1)) (zlen pre + zlen tail)).
  { exists p. split; [done|]. split; [|lia]. split; [by exists tail|done]. }
  rewrite A. set (new := if INT_MAX / 2 <? _ then _ else _).
  assert (exists n, new = Some n /\ needed + (zlen pre + 1) <= n) as (n & -> & Hn).
  { subst new. destruct (Z.ltb_spec (INT_MAX / 2) (needed + (zlen pre + 1))).
    - rewrite (proj2 (Z.leb_le _ _)) by lia. eexists. split; [done|lia].
    - eexists. split; [done|lia]. }
  cbn [alloc]. eexists. split; [reflexivity|].
  assert (zlen (new_memory (zlen pre + zlen tail) n) = n - (zlen pre + zlen tail)) as Ln
    by (apply length_new_memory; lia).
  split; cbn [buffer set_buffer offset depth noalloc format].
  - split; [|done]. exists (tail ++ new_memory (zlen pre + zlen tail) n). rewrite B, <- app_assoc. split; [done|].
    by destruct tail.
  - rewrite B, !length_app. lia.
Qed.

Lemma write_ok p pre fmt d needed l : at_end p pre fmt d -> zlen l <= needed -> zlen pre + needed + 1 <= INT_MAX ->
  exists p' tail, write p needed l [] = Def (Some (p', [])) /\ buffer p' = pre ++ l ++ tail /\ tail <> [] /\
  (needed + 1 - zlen l <= zlen tail) /\
  offset p' = zlen pre /\ depth p' = d /\ noalloc p' = false /\ format p' = fmt.
Proof.
  intros E L N. destruct (ensure_ok p pre fmt d needed E ltac:(lia) N) as (q & Eq & ((tail & B & T) & O & Q) & Lq).
  unfold write. rewrite Eq, O, B. rewrite B, length_app in Lq.
  rewrite memcpy_ok by (rewrite ?length_app; lia). cbn [mbind ub_bind].
  eexists _, (drop (length l) tail). split; [reflexivity|]. cbn [buffer set_buffer offset depth noalloc format].
  rewrite !Nat2Z.id, take_app_length, take_ge by lia.
  replace (Z.to_nat (zlen pre + zlen l)) with (length pre + length l)%nat by lia.
  rewrite drop_app_add. split; [done|]. pose proof (length_drop tail (length l)).
  split; [intros E0; rewrite E0 in *; cbn in *; lia|]. split; [lia|done].
Qed.

Lemma update_ok p pre txt fmt d : printed p pre txt fmt d -> Forall (fun c => c <> 0) txt ->
  exists p', update_offset p = Def p' /\ at_end p' (pre ++ txt) fmt d /\ buffer p' = buffer p.
Proof.
  intros ((tail & B) & [O1 O2] & Q) F. unfold update_offset.
  set (k := (Z.to_nat (offset p) - length pre)%nat).
  assert (drop (Z.to_nat (offset p)) (buffer p) = drop k txt ++ 0 :: tail) as ->.
  { rewrite B. replace (Z.to_nat (offset p)) with (length pre + k)%nat by lia.
    rewrite drop_app_add. by rewrite drop_app_le by lia. }
  rewrite c_string_app by by apply Forall_drop. eexists. split; [reflexivity|]. split; [|done].
  split; [exists (0 :: tail); cbn; rewrite B, <- app_assoc; done|]. split; [|done].
  cbn [offset advance]. rewrite !length_app, length_drop. cbn [length]. lia.
Qed.

(** Room for the longest fixed text behind [n] bytes. *)
Definition fits (n : Z) : Prop := n + 5 <= INT_MAX.

Lemma text_printed p pre fmt d txt : at_end p pre fmt d -> fits (zlen pre + zlen txt) ->
  exists p', write p (zlen txt + 1) (txt ++ [0]) [] = Def (Some (p', [])) /\ printed p' pre txt fmt d /\
    offset p' = zlen pre.
Proof.
  intros E N. unfold fits in N.
  destruct (write_ok p pre fmt d (zlen txt + 1) (txt ++ [0]) E) as (p' & tail & W & B & T & L & O & Q);
    [rewrite length_app; cbn; lia|lia|].
  exists p'. split; [done|]. split; [|done]. split; [exists tail; by rewrite B, <- app_assoc|]. split; [lia|done].
Qed.

(** Text that is not terminated, and moving behind it. *)
Lemma text_appended p pre fmt d needed txt : at_end p pre fmt d -> zlen txt <= needed <= zlen txt + 1 ->
  fits (zlen pre + zlen txt) ->
  exists p', write p needed txt [] = Def (Some (p', [])) /\ at_end (advance p' (zlen txt)) (pre ++ txt) fmt d.
Proof.
  intros E L N. unfold fits in N.
  destruct (write_ok p pre fmt d needed txt E) as (p' & tail & W & B & T & _ & O & Q); [lia|lia|].
  exists p'. split; [done|]. split; cbn [buffer advance offset depth noalloc format].
  - exists tail. by rewrite B, <- app_assoc.
  - split; [rewrite O, length_app; lia|done].
Qed.

Lemma printed_end p pre txt fmt d : printed p pre txt fmt d -> offset p = zlen pre ->
  at_end (advance p (zlen txt)) (pre ++ txt) fmt d.
Proof.
  intros ((tail & B) & _ & Q) O. split; cbn [buffer advance offset depth noalloc format].
  - exists (0 :: tail). by rewrite B, <- app_assoc.
  - split; [rewrite O, length_app; lia|done].
Qed.

Lemma number_format_ok d : (length (number_format d) <= 24)%nat /\ Forall (fun c => c <> 0) (number_format d).
Proof.
  assert (N : forall t, Forall (fun c => number_char c = true) t -> Forall (fun c => c <> 0) t).
  { intros t F. eapply Forall_impl; [exact F|]. by intros c Hc ->. }
  unfold number_format. destruct (finite d) eqn:Fd; cbn [negb]; [|split; [cbn; lia|by repeat constructor]].
  destruct (text_chars 15 d Fd ltac:(lia)) as (F15 & _ & L15), (text_chars 17 d Fd ltac:(lia)) as (F17 & _ & L17).
  destruct (strtod (sprintf_g 15 d)) as [test used]. destruct (_ || _); eauto.
Qed.

Lemma print_number_ok p pre fmt d x : at_end p pre fmt d -> fits (zlen pre + zlen (number_format x)) ->
  exists p', print_number x p [] = Def (Some (p', [])) /\ printed p' pre (number_format x) fmt d.
Proof.
  intros E N. destruct (number_format_ok x) as [L _]. unfold print_number.
  destruct (Z.ltb_spec 26 (zlen (number_format x) + 1)); [lia|].
  destruct (text_printed p pre fmt d (number_format x) E N) as (p' & -> & ((tail & B) & _ & Q) & O). cbn [bindo].
  eexists. split; [reflexivity|]. split; [by exists tail|]. split; [|done]. cbn [offset advance]. lia.
Qed.

(** ** Strings *)

Lemma escape_char_length c :
  zlen (escape_char c) = 1 + match letter_escape c with Some _ => 1 | None => if c <? 32 then 5 else 0 end.
Proof.
  destruct (letter_escape c) as [e|] eqn:El; [|destruct (Z.ltb_spec c 32)]; unfold escape_char; rewrite El.
  - unfold letter_escape in El. destruct ((31 <? c) && _ && _) eqn:Eb; [|done].
    assert (31 < c /\ c <> 34 /\ c <> 92) as (? & ? & ?) by lia.
    repeat (match type of El with context [c =? ?x] => destruct (Z.eqb_spec c x); [lia|] end). done.
  - destruct (Z.ltb_spec 31 c); [lia|]. done.
  - destruct (Z.ltb_spec 31 c); [|lia]. unfold letter_escape in El.
    destruct (Z.eqb_spec c 34); [done|]. destruct (Z.eqb_spec c 92); [done|]. done.
Qed.

Lemma escape_count input n :
  foldl (fun n c => match letter_escape c with Some _ => n + 1 | None => if c <? 32 then n + 5 else n end) n input =
  n + zlen (concat (map escape_char input)) - zlen input.
Proof.
  revert n. induction input as [|c l IH]; intros n; cbn [foldl map concat length]; [lia|].
  rewrite IH, length_app. pose proof (escape_char_length c). repeat case_match; lia.
Qed.

Lemma escape_none input : escape_characters input = 0 -> concat (map escape_char input) = input.
Proof.
  unfold escape_characters. rewrite escape_count. induction input as [|c l IH]; [done|]. cbn [map concat length].
  rewrite length_app. intros E. pose proof (escape_char_length c).
  assert (zlen l <= zlen (concat (map escape_char l))).
  { clear. induction l as [|c l IH]; [done|]. cbn [map concat length]. rewrite length_app.
    pose proof (escape_char_length c). repeat case_match; lia. }
  rewrite IH; [|repeat case_match; lia]. assert (zlen (escape_char c) = 1) as L1 by (repeat case_match; lia).
  unfold escape_char in *. destruct ((31 <? c) && _ && _); [done|]. cbn [length] in L1.
  destruct (letter_escape c); cbn in L1; lia.
Qed.

Lemma print_buffer_ok p pre fmt d s n input : input = (if n =? 0 then cstr s else take (Z.to_nat n) s) ->
  at_end p pre fmt d -> fits (zlen pre + zlen (quoted (concat (map escape_char input)))) ->
  exists p', print_string_ptr s n p [] = Def (Some (p', [])) /\
    printed p' pre (quoted (concat (map escape_char input))) fmt d.
Proof.
  intros Hi E N. unfold print_string_ptr in *. rewrite <- Hi. clear Hi.
  assert (zlen input + escape_characters input = zlen (concat (map escape_char input))) as Len
    by (unfold escape_characters; rewrite escape_count; lia).
  assert (Lq : forall t, zlen (quoted t) = zlen t + 2) by (intros t; unfold quoted; cbn [length]; rewrite length_app; cbn; lia).
  rewrite Lq in N. destruct (Z.eqb_spec (escape_characters input) 0) as [E0|_]; rewrite Len.
  - rewrite (escape_none input E0) in *.
    replace (zlen input + 3) with (zlen (quoted input) + 1) by (rewrite Lq; lia).
    replace (34 :: input ++ [34; 0]) with (quoted input ++ [0]) by (unfold quoted; cbn [app]; by rewrite <- app_assoc).
    destruct (text_printed p pre fmt d (quoted input) E) as (p' & W & P & _); [by rewrite Lq|]. by exists p'.
  - set (esc := concat (map escape_char input)) in *. unfold fits in N.
    destruct (write_ok p pre fmt d (zlen esc + 3) (34 :: esc) E) as (q & tail & -> & B & T & L & O & Q);
      [cbn [length]; lia|lia|]. cbn [bindo]. rewrite B, O. cbn [length] in L.
    rewrite memcpy_ok by (rewrite ?length_app; cbn [length]; lia). cbn [mbind ub_bind].
    eexists. split; [reflexivity|]. split; cbn [buffer set_buffer offset depth noalloc format]; [|split; [lia|done]].
    rewrite (app_assoc pre (34 :: esc) tail). replace (Z.to_nat (zlen pre + zlen esc + 1)) with (length (pre ++ 34 :: esc)) by
      (rewrite length_app; cbn [length]; lia).
    rewrite take_app_length. eexists. unfold quoted. rewrite <- !app_assoc. cbn [app take].
    rewrite <- app_assoc. cbn [app]. reflexivity.
Qed.

Lemma print_string_ok p pre fmt d s : at_end p pre fmt d -> fits (zlen pre + zlen (quoted (escaped s))) ->
  exists p', print_string_ptr s 0 p [] = Def (Some (p', [])) /\ printed p' pre (quoted (escaped s)) fmt d.
Proof. by apply print_buffer_ok. Qed.

Lemma cstr_clean s : clean s -> cstr s = s.
Proof.
  induction 1 as [|c s Hc F IH]; cbn [cstr]; [done|]. destruct (Z.eqb_spec c 0); [lia|]. by rewrite IH.
Qed.

Lemma hex_char_digit d : 0 <= d < 16 -> hex_digit (hex_char d) = Some d.
Proof.
  intros Hd. unfold hex_char, hex_digit. destruct (Z.ltb_spec d 10).
  - rewrite (proj2 (Z.leb_le 48 _)), (proj2 (Z.leb_le _ 57)) by lia. cbn [andb]. f_equal. lia.
  - rewrite (proj2 (Z.leb_gt _ 57)), andb_false_r, (proj2 (Z.leb_gt _ 70)), andb_false_r by lia.
    rewrite (proj2 (Z.leb_le 97 _)), (proj2 (Z.leb_le _ 102)) by lia. cbn [andb]. f_equal. lia.
Qed.

(** An escaped character is one of the string grammar. *)
Lemma escape_char_text c t b : 0 < c < 256 -> str_text t b -> str_text (escape_char c ++ t) (c :: b).
Proof.
  intros Hc S. unfold escape_char. destruct ((31 <? c) && _ && _) eqn:Eb.
  { cbn [app]. apply st_char; [lia|lia|lia|done]. }
  destruct (letter_escape c) as [e|] eqn:El; cbn [app].
  - apply st_escape; [|done]. unfold letter_escape in El.
    repeat (match type of El with context [c =? ?x] => destruct (Z.eqb_spec c x); [subst; by simplify_eq|] end). done.
  - assert (c < 32).
    { unfold letter_escape in El. destruct (Z.eqb_spec c 34); [done|]. destruct (Z.eqb_spec c 92); [done|]. lia. }
    unfold u04x. cbn [app].
    change (c :: b) with ([c] ++ b). replace [c] with (utf8 c).
    2:{ unfold utf8. by destruct (Z.ltb_spec c 128); [|lia]. }
    change (48 :: 48 :: hex_char (c / 16) :: hex_char (c mod 16) :: t) with
      ([48; 48; hex_char (c / 16); hex_char (c mod 16)] ++ t).
    apply st_unicode; [|lia|done]. eexists _, _, _, _. split; [reflexivity|].
    exists 0, 0, (c / 16), (c mod 16). pose proof (Z.mod_pos_bound c 16 ltac:(lia)).
    assert (0 <= c / 16 < 16) by (split; [apply Z.div_pos|apply Z.div_lt_upper_bound]; lia).
    split; [done|]. split; [done|]. split; [by apply hex_char_digit|]. split; [by apply hex_char_digit|].
    pose proof (Z.div_mod c 16 ltac:(lia)). lia.
Qed.

Lemma escaped_text s : clean s -> str_text (escaped s) s.
Proof.
  intros C. unfold escaped. rewrite cstr_clean by done. induction C as [|c s Hc C IH]; [constructor|].
  cbn [map concat]. by apply escape_char_text.
Qed.

Lemma cstr_bytes s : is_bytes s -> clean (cstr s).
Proof.
  induction 1 as [|c s Hc F IH]; cbn [cstr]; [constructor|]. unfold is_byte in Hc.
  destruct (Z.eqb_spec c 0); constructor; (done || lia).
Qed.

Lemma cstr_idem s : cstr (cstr s) = cstr s.
Proof. induction s as [|c s IH]; cbn [cstr]; [done|]. destruct (c =? 0) eqn:E; cbn [cstr]; [done|]. by rewrite E, IH. Qed.

Lemma quoted_nz s : is_bytes s -> Forall (fun c => c <> 0) (quoted (escaped s)).
Proof.
  intros B. assert (escaped s = escaped (cstr s)) as -> by (unfold escaped; by rewrite cstr_idem).
  pose proof (str_text_nz _ _ (escaped_text (cstr s) (cstr_bytes s B))) as F. unfold quoted.
  constructor; [done|]. apply Forall_app. split; [done|by repeat constructor].
Qed.

Lemma number_format_text d : finite d = true -> number_text (number_format d) d.
Proof.
  intros Fd.
  assert (T : forall p, 15 <= p <= 17 -> deq (fst (strtod (sprintf_g p d))) d = true -> number_text (sprintf_g p d) d).
  { intros p Hp Eq. destruct (text_chars p d Fd Hp) as (F & X & L). split; [done|]. split; [done|].
    split; [lia|]. rewrite (surjective_pairing (strtod _)), (text_exact p d), (text_all p d) by done. done. }
  unfold number_format. rewrite Fd. cbn [negb]. specialize (T 15) as T15. destruct (text_chars 15 d Fd ltac:(lia)) as (_ & (c & l & El & _) & _).
  pose proof (text_all 15 d Fd ltac:(lia)) as U. destruct (strtod (sprintf_g 15 d)) as [test used]. cbn [fst snd] in *.
  destruct (Nat.eqb_spec used 0); [rewrite El in U; cbn in U; lia|]. cbn [orb].
  destruct (deq test d); cbn [negb]; [apply T15; [lia|done]|]. apply T; [lia|by apply text_17].
Qed.

(** ** The text denotes the tree *)

Lemma ws_tabs n : ws (tabs n).
Proof. apply Forall_replicate. lia. Qed.

Lemma ws_if (fmt : bool) l : ws l -> ws (if fmt then l else []).
Proof. intros W. destruct fmt; [done|constructor]. Qed.

Lemma render_items_text fmt (r : cJSON -> list Z) n vs w :
  (forall v, v ∈ vs -> jtext n v (r v)) -> vs <> [] -> ws w -> jitems n vs (w ++ render_items r fmt vs).
Proof.
  revert w. induction vs as [|v vs IH]; intros w J N W; [done|]. cbn [render_items].
  destruct vs as [|v' vs'].
  - apply ji_last; [done|apply J; by left|constructor].
  - set (vs := v' :: vs') in *. replace ((if fmt then [44; 32] else [44]) ++ render_items r fmt vs)
      with ([] ++ 44 :: (if fmt then [32] else []) ++ render_items r fmt vs) by by destruct fmt.
    apply ji_more; [done|apply J; by left|constructor|].
    apply IH; [intros; apply J; by right|done|apply ws_if; by repeat constructor].
Qed.

Lemma render_members_text fmt (r : cJSON -> list Z) n d ms w w' :
  (forall k v, (k, v) ∈ ms -> clean k) -> (forall k v, (k, v) ∈ ms -> jtext n v (r v)) -> ms <> [] ->
  ws w -> ws w' -> jmembers n ms (w ++ render_members r fmt d ms ++ w').
Proof.
  revert w. induction ms as [|[k v] ms IH]; intros w C J N W W'; [done|]. cbn [render_members].
  assert (T := ws_if fmt (tabs d) (ws_tabs d)). assert (S9 := ws_if fmt [9] ltac:(by repeat constructor)).
  assert (S10 := ws_if fmt [10] ltac:(by repeat constructor)).
  assert (K : str_text (escaped k) k) by (apply escaped_text; eapply C; by left).
  assert (V : jtext n v (r v)) by (eapply J; by left).
  destruct ms as [|m ms'].
  - cbn [render_members app]. rewrite app_nil_r. repeat (rewrite <- app_assoc || cbn [app]). rewrite app_assoc.
    apply (jm_last n k v _ (escaped k) [] _ (r v)); try done; [by apply Forall_app|constructor|by apply Forall_app].
  - set (ms := m :: ms') in *. repeat (rewrite <- app_assoc || cbn [app]). rewrite app_assoc.
    apply (jm_more n k v _ (escaped k) [] _ (r v) []); try done; [by apply Forall_app|constructor|constructor|].
    apply IH; [intros; eapply C; by right|intros; eapply J; by right|done|done|done].
Qed.

Lemma render_text fmt n v : printable n v -> forall d, jtext n v (render fmt d v).
Proof.
  induction 1 as [n|n|n|n x Fx|n s C|n vs P IH|n ms C P IH]; intros d; cbn [render].
  - constructor.
  - constructor.
  - constructor.
  - constructor. by apply number_format_text.
  - constructor. by apply escaped_text.
  - destruct (decide (vs = [])) as [->|N]; [apply (jt_no_items n []); constructor|].
    apply jt_array, (render_items_text fmt _ n vs []); [intros; by apply IH|done|constructor].
  - assert (T := ws_if fmt (tabs d) (ws_tabs d)). assert (S10 := ws_if fmt [10] ltac:(by repeat constructor)).
    rewrite !app_assoc. destruct (decide (ms = [])) as [->|N].
    + cbn [render_members]. rewrite app_nil_r. apply jt_no_members. by apply Forall_app.
    + apply jt_object. rewrite <- app_assoc. apply render_members_text; try done. intros. by eapply IH.
Qed.

Lemma render_items_nz (r : cJSON -> list Z) fmt vs : (forall v, v ∈ vs -> Forall (fun c => c <> 0) (r v)) ->
  Forall (fun c => c <> 0) (render_items r fmt vs).
Proof.
  induction vs as [|v vs IH]; intros N; cbn [render_items]; [constructor|]. apply Forall_app. split; [apply N; by left|].
  destruct vs as [|v' vs]; [constructor|]. apply Forall_app. split; [by destruct fmt; repeat constructor|].
  apply IH. intros x Hx. apply N. by right.
Qed.

Lemma ws_if_nz (fmt : bool) l : ws l -> Forall (fun c => c <> 0) (if fmt then l else []).
Proof. intros W. apply ws_nz. by apply ws_if. Qed.

Lemma render_members_nz (r : cJSON -> list Z) fmt d ms : (forall k v, (k, v) ∈ ms -> is_bytes k) ->
  (forall k v, (k, v) ∈ ms -> Forall (fun c => c <> 0) (r v)) -> Forall (fun c => c <> 0) (render_members r fmt d ms).
Proof.
  induction ms as [|[k v] ms IH]; intros K N; cbn [render_members]; [constructor|].
  rewrite !Forall_app, Forall_cons, !Forall_app.
  split; [apply ws_if_nz, ws_tabs|]. split; [eapply quoted_nz, K; by left|]. split; [done|].
  split; [apply ws_if_nz; by repeat constructor|]. split; [eapply N; by left|].
  split; [by destruct ms; repeat constructor|]. split; [apply ws_if_nz; by repeat constructor|].
  apply IH; [intros x y Hx; eapply K; by right|intros x y Hx; eapply N; by right].
Qed.

Lemma cstr_nz s : Forall (fun c => c <> 0) (cstr s).
Proof. induction s as [|c s IH]; cbn [cstr]; [constructor|]. by destruct (Z.eqb_spec c 0); constructor. Qed.

Lemma render_nz v : byte_tree v -> forall fmt d, Forall (fun c => c <> 0) (render fmt d v).
Proof.
  induction 1 as [| | |x i|s|s B|vs P IH|ms B P IH]; intros fmt d; cbn [render].
  1-3: by repeat constructor.
  - apply number_format_ok.
  - apply cstr_nz.
  - by apply quoted_nz.
  - constructor; [done|]. apply Forall_app. split; [apply render_items_nz; eauto|by repeat constructor].
  - constructor; [done|]. rewrite !Forall_app. split; [apply ws_if_nz; by repeat constructor|].
    split; [apply render_members_nz; eauto|]. split; [apply ws_if_nz, ws_tabs|by repeat constructor].
Qed.

(** ** Trees *)

Definition prints (v : cJSON) : Prop := forall fmt d p pre,
  at_end p pre fmt d -> fits (zlen pre + zlen (render fmt d v)) ->
  exists p', print_value v p [] = Def (Some (p', [])) /\ printed p' pre (render fmt d v) fmt d.

Lemma items_printed vs fmt d : Forall prints vs -> (forall v, v ∈ vs -> Forall (fun c => c <> 0) (render fmt d v)) ->
  forall p pre, at_end p pre fmt d -> fits (zlen pre + zlen (render_items (render fmt d) fmt vs)) ->
  exists p', print_items print_value vs p [] = Def (Some (p', [])) /\
    at_end p' (pre ++ render_items (render fmt d) fmt vs) fmt d.
Proof.
  induction 1 as [|v vs Pv Ps IH]; intros Nz p pre E N.
  { exists p. split; [done|]. cbn [render_items]. by rewrite app_nil_r. }
  cbn [print_items render_items] in *. rewrite length_app in N.
  destruct (Pv fmt d p pre E) as (p1 & -> & P1); [unfold fits in *; lia|]. cbn [bindo].
  destruct (update_ok p1 pre _ fmt d P1) as (p2 & -> & E2 & _); [apply Nz; by left|]. cbn [mbind ub_bind].
  destruct vs as [|v' vs].
  { exists p2. split; [done|]. by rewrite app_nil_r. }
  assert (format p2 = fmt) as -> by apply E2. set (sep := if fmt then _ else _) in *.
  destruct (text_printed p2 _ fmt d sep E2) as (p3 & -> & P3 & O3).
  { unfold fits in *. rewrite !length_app in *. lia. }
  cbn [bindo]. destruct (IH ltac:(intros; apply Nz; by right) (advance p3 (zlen sep)) ((pre ++ render fmt d v) ++ sep)) as (p4 & P4 & E4).
  - by apply printed_end.
  - unfold fits in *. rewrite !length_app in *. lia.
  - exists p4. split; [exact P4|]. by rewrite !app_assoc in *.
Qed.

Lemma indent_printed p pre fmt d : at_end p pre fmt d -> fits (zlen pre + zlen (if fmt then tabs d else [])) ->
  exists p', (if fmt then
      let* (p, al) := write p (Z.of_nat (depth p)) (tabs (depth p)) [] in
      Def (Some (advance p (Z.of_nat (depth p)), al)) else Def (Some (p, []))) = Def (Some (p', [])) /\
    at_end p' (pre ++ if fmt then tabs d else []) fmt d.
Proof.
  intros E N. assert (depth p = d) as -> by apply E. destruct fmt; [|exists p; by rewrite app_nil_r].
  destruct (text_appended p pre true d (Z.of_nat d) (tabs d) E) as (p1 & -> & E1);
    [unfold tabs; rewrite length_replicate; lia|unfold fits in *; lia|]. cbn [bindo].
  unfold tabs in E1 at 1. rewrite length_replicate in E1. eexists. split; [|exact E1].
  assert (depth p1 = d) as -> by apply E1. done.
Qed.

Lemma members_printed ms fmt d : Forall (fun m => prints (snd m)) ms ->
  (forall k v, (k, v) ∈ ms -> Forall (fun c => c <> 0) (render fmt d v)) ->
  (forall k v, (k, v) ∈ ms -> Forall (fun c => c <> 0) (quoted (escaped k))) ->
  forall p pre, at_end p pre fmt d -> fits (zlen pre + zlen (render_members (render fmt d) fmt d ms)) ->
  exists p', print_members print_value ms p [] = Def (Some (p', [])) /\
    at_end p' (pre ++ render_members (render fmt d) fmt d ms) fmt d.
Proof.
  induction 1 as [|[k v] ms Pv Ps IH]; intros Nz Nk p pre E N.
  { exists p. split; [done|]. cbn [render_members]. by rewrite app_nil_r. }
  cbn [print_members render_members snd] in *. assert (format p = fmt) as -> by apply E.
  repeat (rewrite length_app in N || cbn [length] in N).
  set (ind := if fmt then tabs d else []) in *.
  destruct (indent_printed p pre fmt d E) as (p1 & -> & E1); [unfold fits in *; fold ind; lia|]. fold ind in E1.
  cbn [bindo].
  destruct (print_string_ok p1 _ fmt d k E1) as (p2 & -> & P2); [unfold fits in *; rewrite length_app; lia|]. cbn [bindo].
  destruct (update_ok p2 _ _ fmt d P2) as (p3 & -> & E3 & _); [by eapply Nk; left|]. cbn [mbind ub_bind].
  assert (format p3 = fmt) as -> by apply E3. set (colon := if fmt then [58; 9] else [58]).
  assert (colon = 58 :: (if fmt then [9] else [])) as Ec by by subst colon; destruct fmt.
  destruct (text_appended p3 _ fmt d (zlen colon) colon E3) as (p4 & -> & E4);
    [lia|unfold fits in *; rewrite Ec, !length_app; cbn [length]; lia|]. cbn [bindo].
  destruct (Pv fmt d _ _ E4) as (p5 & -> & P5); [unfold fits in *; rewrite Ec, !length_app; cbn [length]; lia|]. cbn [bindo].
  destruct (update_ok p5 _ _ fmt d P5) as (p6 & -> & E6 & _); [by eapply Nz; left|]. cbn [mbind ub_bind].
  assert (format p6 = fmt) as -> by apply E6.
  set (sep := _ ++ (if fmt then [10] else [])).
  destruct (text_printed p6 _ fmt d sep E6) as (p7 & -> & P7 & O7).
  { unfold fits in *. subst sep. rewrite Ec, !length_app. cbn [length]. lia. }
  cbn [bindo]. destruct (IH ltac:(intros; eapply Nz; by right) ltac:(intros; eapply Nk; by right)
    (advance p7 (zlen sep)) _ (printed_end _ _ _ _ _ P7 O7)) as (p8 & P8 & E8).
  - unfold fits in *. subst sep. rewrite Ec, !length_app. cbn [length]. lia.
  - exists p8. split; [exact P8|]. subst sep ind. rewrite Ec in E8. revert E8.
    repeat (rewrite <- app_assoc || cbn [app]). done.
Qed.

Lemma one_level_in p pre fmt d : at_end p pre fmt d -> at_end (set_depth p (S d)) pre fmt (S d).
Proof. intros (B & O & _ & Q). done. Qed.

(** The closing bracket, and back one level. *)
Lemma close_printed p pre body fmt d txt needed : at_end p (pre ++ body) fmt (S d) ->
  fits (zlen pre + (zlen body + zlen txt)) -> needed = zlen txt + 1 ->
  exists p', (let* (p, al) := write p needed (txt ++ [0]) [] in Def (Some (set_depth p (pred (depth p)), al))) =
    Def (Some (p', [])) /\ printed p' pre (body ++ txt) fmt d.
Proof.
  intros E N ->. destruct (text_printed p _ fmt (S d) txt E) as (p1 & -> & ((tail & B) & O & D & A) & _).
  { unfold fits in *. rewrite length_app. lia. }
  cbn [bindo]. eexists. split; [reflexivity|]. split; cbn [set_depth buffer offset depth noalloc format].
  - exists tail. by rewrite B, <- !app_assoc.
  - rewrite !length_app in *. split; [lia|]. by rewrite D.
Qed.

Lemma array_printed vs : Forall prints vs ->
  (forall fmt d v, v ∈ vs -> Forall (fun c => c <> 0) (render fmt d v)) -> prints (cJSON_Array vs).
Proof.
  intros P Nz fmt d p pre E N. cbn [print_value render] in *. unfold print_array.
  set (its := render_items _ _ _) in *. cbn [length] in N. rewrite length_app in N. cbn [length] in N.
  destruct (text_appended p pre fmt d 1 [91] E) as (p1 & -> & E1); [cbn; lia|unfold fits in *; cbn; lia|]. cbn [bindo].
  assert (depth p1 = d) as -> by apply E1. apply one_level_in in E1. change (zlen [91]) with 1 in E1.
  destruct (items_printed vs fmt (S d) P (Nz fmt (S d)) _ _ E1) as (p2 & -> & E2).
  { unfold fits in *. fold its. rewrite length_app. cbn [length]. lia. }
  fold its in E2. cbn [bindo]. rewrite <- app_assoc in E2.
  destruct (close_printed p2 pre ([91] ++ its) fmt d [93] 2 E2) as (p3 & W & P3); [|done|by exists p3].
  unfold fits in *. rewrite length_app. cbn [length]. lia.
Qed.

Lemma object_printed ms : Forall (fun m => prints (snd m)) ms -> (forall k v, (k, v) ∈ ms -> is_bytes k) ->
  (forall fmt d k v, (k, v) ∈ ms -> Forall (fun c => c <> 0) (render fmt d v)) -> prints (cJSON_Object ms).
Proof.
  intros P C Nz fmt d p pre E N. cbn [print_value render] in *. unfold print_object.
  set (its := render_members _ _ _ _) in *. repeat (rewrite length_app in N || cbn [length] in N).
  assert (format p = fmt) as -> by apply E. set (first := if fmt then [123; 10] else [123]).
  assert (first = 123 :: (if fmt then [10] else [])) as Ef by by subst first; destruct fmt.
  destruct (text_appended p pre fmt d (zlen first + 1) first E) as (p1 & -> & E1);
    [lia|unfold fits in *; rewrite Ef; cbn [length]; lia|]. cbn [bindo].
  assert (depth p1 = d) as -> by apply E1. apply one_level_in in E1.
  destruct (members_printed ms fmt (S d) P (Nz fmt (S d)) ltac:(intros k v Hk; eapply quoted_nz, C, Hk) _ _ E1) as (p2 & W2 & E2).
  { unfold fits in *. fold its. rewrite Ef, length_app. cbn [length]. lia. }
  unfold advance, set_depth in W2 |- *. cbn [buffer offset depth noalloc format] in W2 |- *. rewrite W2. cbn [bindo].
  assert (format p2 = fmt) as -> by apply E2. assert (depth p2 = S d) as -> by apply E2.
  fold its in E2. rewrite <- app_assoc in E2. cbn [pred].
  set (ind := if fmt then tabs d else []) in *.
  replace (ind ++ [125; 0]) with ((ind ++ [125]) ++ [0]) by by rewrite <- app_assoc.
  destruct (close_printed p2 pre (first ++ its) fmt d (ind ++ [125])
    (if fmt then Z.of_nat (S d) + 1 else 2) E2) as (p3 & W & P3).
  - unfold fits in *. rewrite Ef, !length_app. cbn [length]. lia.
  - subst ind. rewrite length_app. destruct fmt; [unfold tabs; rewrite length_replicate|]; cbn [length]; lia.
  - exists p3. split; [exact W|]. rewrite Ef in P3. revert P3. repeat (rewrite <- app_assoc || cbn [app]). done.
Qed.

Lemma tree_prints v : byte_tree v -> prints v.
Proof.
  assert (L : forall txt needed p pre fmt d, at_end p pre fmt d -> fits (zlen pre + zlen txt) -> needed = zlen txt + 1 ->
    exists p', write p needed (txt ++ [0]) [] = Def (Some (p', [])) /\ printed p' pre txt fmt d).
  { intros txt needed p pre fmt d E N ->. destruct (text_printed p pre fmt d txt E N) as (p' & W & P & _). by exists p'. }
  induction 1 as [| | |x i|s|s C|vs P IH|ms C P IH].
  - intros fmt d p pre E N. by apply L.
  - intros fmt d p pre E N. by apply L.
  - intros fmt d p pre E N. by apply L.
  - intros fmt d p pre E N. by apply print_number_ok.
  - intros fmt d p pre E N. by apply L.
  - intros fmt d p pre E N. by apply print_string_ok.
  - apply array_printed; [apply Forall_forall; intros v Hv; by apply IH|].
    intros fmt d v Hv. eapply render_nz, P, Hv.
  - apply object_printed; [apply Forall_forall; intros [k v] Hv; by eapply IH|done|].
    intros fmt d k v Hv. eapply render_nz, P, Hv.
Qed.

(** The printed text is the reference text, terminated. *)
Lemma print_render v fmt : byte_tree v -> fits (zlen (render fmt 0 v)) ->
  print v fmt [] = Def (Some (render fmt 0 v ++ [0])).
Proof.
  intros P N. unfold print. cbn [alloc negb].
  assert (E : at_end (mkPrint (new_memory 0 256) 0 0 false fmt) [] fmt 0).
  { split; [|done]. exists (new_memory 0 256). split; [done|]. intros E0.
    pose proof (length_new_memory 0 256 ltac:(lia)) as L. rewrite E0 in L. cbn in L. lia. }
  destruct (tree_prints v P fmt 0%nat _ [] E N) as (p1 & -> & P1). cbn [bindo].
  destruct (update_ok p1 [] _ fmt 0 P1) as (p2 & -> & (_ & O & _) & B2); [by apply render_nz|].
  cbn [mbind ub_bind alloc app] in *. destruct P1 as ((tail & B) & _). rewrite B2, B, O. cbn [app]. do 2 f_equal.
  replace (Z.to_nat (zlen (render fmt 0 v) + 1)) with (length (render fmt 0 v) + 1)%nat by lia.
  by rewrite take_app_add.
Qed.

(** C31: every tree of finite numbers and strings without NUL, nested at most
    1000 deep and with a text below 2 GB, is printed, plainly or formatted, as
    the reference text, whatever the memory it is printed into contained, and
    parsing the printed text gives the tree back. *)
Theorem cjson_roundtrip n v fmt rest : printable n v -> (n <= 1000)%nat -> fits (zlen (render fmt 0 v)) ->
  (if fmt then cJSON_Print v [] else cJSON_PrintUnformatted v []) = Def (Some (render fmt 0 v ++ [0])) /\
  cJSON_Parse [] (render fmt 0 v ++ 0 :: rest) = Def (Some v).
Proof.
  intros P L N. split; [destruct fmt; (apply print_render; [by eapply printable_byte_tree|done])|].
  by apply (parse_plain n v (render fmt 0 v) []); [apply render_text|..|constructor].
Qed.

End Print.

#[local] Existing Instance integral.
#[local] Existing Instance integral_laws.

Definition sample : cJSON :=
  cJSON_Object [(bytes_of "a", cJSON_Array [@cJSON_Number integral 7 7; cJSON_String [34; 10; 1; 200]]); (bytes_of "b", cJSON_NULL)].

Lemma cjson_roundtrip_witness :
  cJSON_Print (fun _ => 170) sample [] = Def (Some (render true 0 sample ++ [0])) /\
  cJSON_Parse [] (render true 0 sample ++ [0; 1]) = Def (Some sample).
Proof.
  apply (cjson_roundtrip (fun _ => 170) 2 sample true [1]); [|lia|vm_compute; congruence].
  apply pr_object; intros k v Hv; repeat (apply elem_of_cons in Hv as [Hv|Hv]; [injection Hv as -> ->|]); try by apply elem_of_nil in Hv.
  - vm_compute. repeat constructor.
  - vm_compute. repeat constructor.
  - apply pr_array. intros v Hv. repeat (apply elem_of_cons in Hv as [->|Hv]); try by apply elem_of_nil in Hv.
    + by apply (pr_number 0 (7 : @double integral)).
    + apply pr_string. by repeat constructor.
  - apply pr_null.
Defined.

End CJsonPrint.
