(* ===== verification/CJsonSafe.v ===== *)
(** * Memory safety and termination of the JSON parser

    Whatever bytes the parser is given, terminated as a C string, and whatever
    allocations fail, it reads only inside the string, writes only inside the
    arrays it allocates for the decoded strings, and returns; the text of the
    tree it returns is at most 24 times as long as what it has read. *)

From S2P Require Import Prelude CJson CJsonText CJsonPrint.

Module CJsonSafe.
Import CJson CJsonText CJsonPrint.

#[local] Notation "'zlen' l" := (Z.of_nat (length l)) (at level 10, l at level 9).

(** ** What the search for the closing quote counts

    The state is inside an escape or not, and the number of characters and
    escapes completed. *)
Definition count_step (s : bool * nat) (c : Z) : bool * nat :=
  let '(esc, k) := s in if esc then (false, S k) else if c =? 92 then (true, k) else (false, S k).

Definition counted (l : list Z) : bool * nat := foldl count_step (false, O) l.

Lemma count_mono s l : (snd s <= snd (foldl count_step s l))%nat.
Proof.
  revert s. induction l as [|c l IH]; intros s; [done|]. cbn [foldl]. etrans; [|apply IH].
  destruct s as [[] k]; cbn; [lia|]. destruct (c =? 92); cbn; lia.
Qed.

(** Two characters complete at least one. *)
Lemma count_two s c d l : (S (snd s) <= snd (foldl count_step s (c :: d :: l)))%nat.
Proof.
  cbn [foldl]. etrans; [|apply count_mono]. destruct s as [[] k]; cbn.
  - destruct (d =? 92); cbn; lia.
  - destruct (c =? 92); cbn; [lia|]. destruct (d =? 92); cbn; lia.
Qed.

Lemma count_pairs n : forall s l, length l = (2 * n)%nat -> (snd s + n <= snd (foldl count_step s l))%nat.
Proof.
  induction n as [|n IH]; intros s l L; [destruct l; [cbn; lia|done]|].
  destruct l as [|c [|d l]]; [cbn in L; lia..|]. cbn [length] in L.
  pose proof (count_two s c d []) as C. pose proof (IH (foldl count_step s [c; d]) l ltac:(lia)) as I.
  cbn [foldl] in *. lia.
Qed.

Lemma take_more {A} (l : list A) i n : take (i + n) l = take i l ++ take n (drop i l).
Proof. by rewrite take_take_drop. Qed.

(** After an even number of characters, and after one that is no backslash. *)
Lemma counted_jump t i n : (i + 2 * n <= length t)%nat ->
  (snd (counted (take i t)) + n <= snd (counted (take (i + 2 * n) t)))%nat.
Proof.
  intros L. unfold counted. rewrite take_more, foldl_app. apply count_pairs.
  rewrite length_take, length_drop. lia.
Qed.

Lemma counted_next t i c : t !! i = Some c -> c <> 92 ->
  (S (snd (counted (take i t))) <= snd (counted (take (i + 1) t)))%nat.
Proof.
  intros E N. unfold counted. rewrite Nat.add_1_r, (take_S_r t i c E), foldl_app. cbn [foldl].
  destruct (foldl count_step _ _) as [[] k]; cbn; [lia|]. destruct (Z.eqb_spec c 92); [done|cbn; lia].
Qed.

Lemma counted_whole t i : (snd (counted (take i t)) <= snd (counted t))%nat.
Proof. rewrite <- (take_drop i t) at 2. unfold counted. rewrite foldl_app. apply count_mono. Qed.

Section Safe.
Context `{DL : DoubleLaws}.

(** A C string with its terminator. *)
Variable content : list Z.
Hypothesis terminated : exists s, content = s ++ [0].
#[local] Abbreviation L := (zlen content).

Lemma length_pos : 1 <= L.
Proof. destruct terminated as [s ->]. rewrite length_app. cbn. lia. Qed.

Lemma last_zero i : L - 1 <= i < L -> load content i = Def 0.
Proof.
  intros Hi. pose proof length_pos. destruct terminated as [s E]. rewrite load_ok by lia. f_equal. rewrite E in *.
  rewrite length_app in Hi. cbn in Hi. rewrite byte_at_app_r by lia.
  by replace (i - zlen s) with 0 by lia.
Qed.

Lemma load_in i : 0 <= i < L -> exists c, load content i = Def c.
Proof. intros Hi. rewrite load_ok by done. by eexists. Qed.

Lemma skip_loop_in fuel off : 0 <= off <= L -> (L - off < Z.of_nat fuel) ->
  exists off', skip_loop content fuel off = Def off' /\ off <= off' <= L.
Proof.
  revert off. induction fuel as [|fuel IH]; intros off Ho F; [lia|]. cbn [skip_loop]. unfold can_access.
  rewrite Z.add_0_r. destruct (Z.ltb_spec off L); [|exists off; split; [done|lia]].
  destruct (load_in off) as [c ->]; [lia|]. cbn [mbind ub_bind].
  destruct (c <=? 32); [|exists off; split; [done|lia]].
  destruct (IH (off + 1)) as (off' & -> & H'); [lia|lia|]. exists off'. split; [done|lia].
Qed.

Lemma skip_in off : 0 <= off <= L ->
  exists off', buffer_skip_whitespace content off = Def off' /\ 0 <= off' < L /\ Z.min off (L - 1) <= off'.
Proof.
  intros Ho. pose proof length_pos. unfold buffer_skip_whitespace.
  destruct (skip_loop_in (S (length content)) off Ho) as (off' & -> & H'); [lia|]. cbn [mbind ub_bind].
  destruct (Z.eqb_spec off' L); eexists; (split; [reflexivity|lia]).
Qed.

Lemma number_loop_in n off : 0 <= off <= L ->
  exists t, number_loop content n off = Def t /\ zlen t <= L - off.
Proof.
  revert off. induction n as [|n IH]; intros off Ho; cbn [number_loop]; [exists []; split; [done|cbn; lia]|].
  unfold can_access. rewrite Z.add_0_r. destruct (Z.ltb_spec off L); [|exists []; split; [done|cbn; lia]].
  destruct (load_in off) as [c ->]; [lia|]. cbn [mbind ub_bind].
  destruct (number_char c); [|exists []; split; [done|cbn; lia]].
  destruct (IH (off + 1)) as (t & -> & Lt); [lia|]. cbn [mbind ub_bind]. eexists. split; [reflexivity|]. cbn [length]. lia.
Qed.

(** No undefined behaviour, and a result, where there is one, with a property. *)
Definition returns {A} (Q : A -> Prop) (r : ub (option A)) : Prop := exists o, r = Def o /\ forall a, o = Some a -> Q a.

Lemma returns_none {A} (Q : A -> Prop) : returns Q (Def None).
Proof. by exists None. Qed.

Lemma returns_some {A} (Q : A -> Prop) a : Q a -> returns Q (Def (Some a)).
Proof. intros Ha. exists (Some a). split; [done|]. by intros b [= ->]. Qed.

Lemma returns_bind {A B} (Q : A -> Prop) (R : B -> Prop) m f :
  returns Q m -> (forall a, Q a -> returns R (f a)) -> returns R (bindo m f).
Proof. intros (o & -> & Ho) F. destruct o as [a|]; cbn [bindo]; [by apply F, Ho|apply returns_none]. Qed.

Lemma returns_weaken {A} (Q R : A -> Prop) r : (forall a, Q a -> R a) -> returns Q r -> returns R r.
Proof. intros QR (o & -> & Ho). exists o. split; [done|]. intros a Ha. by apply QR, Ho. Qed.

(** A value read from [off] on: it takes at least a character, is made of bytes,
    and its text is bounded by what was read. *)
Definition tree_from (off off' : Z) (v : cJSON) : Prop :=
  off < off' <= L /\ byte_tree v /\ forall d, zlen (render false d v) <= 24 * (off' - off).

Definition value_from (off : Z) (r : cJSON * Z * list bool) : Prop := tree_from off (snd (fst r)) (fst (fst r)).

Definition string_from (off : Z) (r : list Z * Z * list bool) : Prop :=
  off < snd (fst r) <= L /\ is_bytes (fst (fst r)) /\ zlen (fst (fst r)) + 1 <= snd (fst r) - off.

Lemma parse_number_returns off : 0 <= off < L -> returns (fun r => tree_from off (snd r) (fst r)) (parse_number content off).
Proof.
  intros Ho. unfold parse_number. destruct (number_loop_in 63 off) as (t & -> & Lt); [lia|]. cbn [mbind ub_bind].
  pose proof (strtod_used t) as U. destruct (strtod t) as [d used]. cbn [snd] in U.
  destruct (Nat.eqb_spec used 0); [apply returns_none|]. apply returns_some. cbn [fst snd].
  split; [lia|]. split; [constructor|]. intros k. cbn [render]. pose proof (proj1 (number_format_ok d)). lia.
Qed.

(** ** Strings *)

Hypothesis bytes : is_bytes content.

Lemma counted_app t l : counted (t ++ l) = foldl count_step (counted t) l.
Proof. unfold counted. by rewrite foldl_app. Qed.

Lemma scan_end_in s0 : 0 <= s0 -> forall rest fuel t k,
  drop (Z.to_nat s0) content = t ++ rest -> (Z.to_nat s0 <= length content)%nat ->
  counted t = (false, k) -> (length rest < fuel)%nat ->
  exists o, scan_end content fuel (s0 + zlen t) (zlen t - Z.of_nat k) = Def o /\
  forall e sk, o = Some (e, sk) -> exists t' k' r, drop (Z.to_nat s0) content = t' ++ 34 :: r /\
    e = s0 + zlen t' /\ counted t' = (false, k') /\ sk = zlen t' - Z.of_nat k'.
Proof.
  intros H0 rest. induction rest as [rest IH] using (induction_ltof1 _ length). unfold ltof in IH.
  intros fuel t k E Hs C F. destruct fuel as [|fuel]; [lia|]. cbn [scan_end].
  pose proof (f_equal length E) as Len. rewrite length_drop, length_app in Len.
  destruct (Z.ltb_spec (s0 + zlen t) L); [|by exists None].
  destruct rest as [|c rest]; [cbn in Len; lia|].
  assert (Ec : drop (Z.to_nat (s0 + zlen t)) content = c :: rest) by (by apply drop_next).
  rewrite (load_cons content (s0 + zlen t) c rest ltac:(lia) Ec). cbn [mbind ub_bind].
  destruct (Z.eqb_spec c 34) as [->|N34].
  { eexists. split; [reflexivity|]. intros e sk [= <- <-]. by exists t, k, rest. }
  destruct (Z.eqb_spec c 92) as [->|N92].
  - destruct (Z.leb_spec L (s0 + zlen t + 1)); [by exists None|].
    destruct rest as [|d rest]; [cbn in Len; lia|].
    replace (s0 + zlen t + 2) with (s0 + zlen (t ++ [92; d])) by (rewrite length_app; cbn; lia).
    replace (zlen t - Z.of_nat k + 1) with (zlen (t ++ [92; d]) - Z.of_nat (S k)) by (rewrite length_app; cbn; lia).
    apply (IH rest); [cbn; lia|by rewrite E, <- app_assoc|done|by rewrite counted_app, C|cbn in F; lia].
  - replace (s0 + zlen t + 1) with (s0 + zlen (t ++ [c])) by (rewrite length_app; cbn; lia).
    replace (zlen t - Z.of_nat k) with (zlen (t ++ [c]) - Z.of_nat (S k)) by (rewrite length_app; cbn; lia).
    apply (IH rest); [cbn; lia|by rewrite E, <- app_assoc|done| |cbn in F; lia].
    rewrite counted_app, C. cbn. by destruct (Z.eqb_spec c 92).
Qed.

Lemma parse_hex4_in off : 0 <= off -> off + 4 <= L -> exists v, parse_hex4 content off = Def v /\ 0 <= v < 65536.
Proof.
  intros Ho Hl. unfold parse_hex4. cbn [hex_loop Nat.eqb].
  destruct (load_in off) as [a ->]; [lia|]. cbn [mbind ub_bind].
  destruct (hex_digit a) as [x|] eqn:Ea; [apply hex_digit_range in Ea|exists 0; split; [done|lia]].
  destruct (load_in (off + 1)) as [b ->]; [lia|]. cbn [mbind ub_bind].
  destruct (hex_digit b) as [y|] eqn:Eb; [apply hex_digit_range in Eb|exists 0; split; [done|lia]].
  destruct (load_in (off + 1 + 1)) as [c ->]; [lia|]. cbn [mbind ub_bind].
  destruct (hex_digit c) as [z|] eqn:Ec; [apply hex_digit_range in Ec|exists 0; split; [done|lia]].
  destruct (load_in (off + 1 + 1 + 1)) as [d ->]; [lia|]. cbn [mbind ub_bind].
  destruct (hex_digit d) as [w|] eqn:Ed; [apply hex_digit_range in Ed|exists 0; split; [done|lia]].
  eexists. split; [reflexivity|]. rewrite !Z.shiftl_mul_pow2 by lia. lia.
Qed.

Lemma utf8_bytes cp : 0 <= cp <= 1114111 -> is_bytes (utf8 cp).
Proof.
  intros Hcp. unfold utf8, is_bytes, is_byte. pose proof (Z.mod_pos_bound cp 64 ltac:(lia)).
  pose proof (Z.mod_pos_bound (cp / 64) 64 ltac:(lia)). pose proof (Z.mod_pos_bound (cp / 4096) 64 ltac:(lia)).
  assert (0 <= cp / 64 /\ 0 <= cp / 4096 /\ 0 <= cp / 262144) as (? & ? & ?) by (split_and!; apply Z.div_pos; lia).
  destruct (Z.ltb_spec cp 128); [repeat constructor; lia|].
  destruct (Z.ltb_spec cp 2048); [pose proof (Z.div_lt_upper_bound cp 64 32); repeat constructor; lia|].
  destruct (Z.ltb_spec cp 65536); [pose proof (Z.div_lt_upper_bound cp 4096 16); repeat constructor; lia|].
  pose proof (Z.div_lt_upper_bound cp 262144 8). repeat constructor; lia.
Qed.

(** A sequence of 6 characters gives at most 3 bytes, one of 12 at most 4. *)
Lemma utf16_in p e : 0 <= p -> e < L ->
  exists o, utf16_literal_to_utf8 content p e = Def o /\
  forall b n, o = Some (b, n) -> exists m, n = 2 * Z.of_nat m /\ p + n <= e /\ (length b <= m)%nat /\
    (1 <= m)%nat /\ is_bytes b.
Proof.
  intros Hp He. unfold utf16_literal_to_utf8. destruct (Z.ltb_spec (e - p) 6); [by exists None|].
  destruct (parse_hex4_in (p + 2)) as (v & -> & Hv); [lia|lia|]. cbn [mbind ub_bind].
  destruct ((56320 <=? v) && (v <=? 57343)); [by exists None|].
  destruct ((55296 <=? v) && (v <=? 56319)) eqn:Ev.
  - destruct (Z.ltb_spec (e - (p + 6)) 6); [by exists None|].
    destruct (load_in (p + 6)) as [c ->]; [lia|]. cbn [mbind ub_bind]. destruct (negb (c =? 92)); [by exists None|].
    destruct (load_in (p + 6 + 1)) as [d ->]; [lia|]. cbn [mbind ub_bind]. destruct (negb (d =? 117)); [by exists None|].
    destruct (parse_hex4_in (p + 6 + 2)) as (u & -> & Hu); [lia|lia|]. cbn [mbind ub_bind].
    destruct ((u <? 56320) || (57343 <? u)) eqn:Eu; [by exists None|].
    rewrite surrogates, utf8_encode_spec by lia. cbn [fmap option_fmap option_map]. eexists. split; [reflexivity|].
    intros b n [= <- <-]. exists 6%nat. destruct (utf8_length (65536 + (v - 55296) * 1024 + (u - 56320))) as [[_ Lb] _].
    split_and!; [lia..|]. apply utf8_bytes. lia.
  - rewrite utf8_encode_spec by lia. cbn [fmap option_fmap option_map]. eexists. split; [reflexivity|].
    intros b n [= <- <-]. exists 3%nat. destruct (utf8_length v) as [_ Lb]. specialize (Lb ltac:(lia)).
    split_and!; [lia..|]. apply utf8_bytes. lia.
Qed.

(** The output never exceeds what has been counted. *)
Lemma decode_in s0 t r k : 0 <= s0 -> drop (Z.to_nat s0) content = t ++ 34 :: r -> counted t = (false, k) ->
  forall fuel i out, (i <= length t)%nat -> (length out <= snd (counted (take i t)))%nat -> (length t - i < fuel)%nat -> is_bytes out ->
  exists o, decode content fuel (s0 + Z.of_nat i) (s0 + zlen t) (Z.of_nat k + 2) out = Def o /\
  forall b, o = Some b -> (length b <= k + 1)%nat /\ is_bytes b.
Proof.
  intros H0 E C. pose proof (f_equal length E) as Len. rewrite length_drop, length_app in Len. cbn [length] in Len.
  assert (W : forall i, (snd (counted (take i t)) <= k)%nat) by (intros i; pose proof (counted_whole t i); rewrite C in *; done).
  induction fuel as [|fuel IH]; intros i out Hi Ho F B; [lia|]. cbn [decode].
  destruct (Z.ltb_spec (s0 + Z.of_nat i) (s0 + zlen t)) as [Hlt|Hge].
  2:{ eexists. split; [reflexivity|]. intros b [= <-]. specialize (W i). split; [lia|done]. }
  destruct (lookup_lt_is_Some_2 t i ltac:(lia)) as [c Hc].
  assert (Lc : load content (s0 + Z.of_nat i) = Def c).
  { rewrite load_ok by lia. f_equal. apply byte_at_lookup. replace (Z.to_nat _) with (Z.to_nat s0 + i)%nat by lia.
    rewrite <- lookup_drop, E. by rewrite lookup_app_l by lia. }
  assert (Bc : is_byte c).
  { rewrite load_ok in Lc by lia. injection Lc as <-. by apply byte_at_is_byte. }
  rewrite Lc. cbn [mbind ub_bind]. pose proof (W i) as Wi.
  destruct (Z.eqb_spec c 92) as [->|N92]; cbn [negb].
  2:{ rewrite emit_ok by (cbn [length]; lia). cbn [mbind ub_bind].
      replace (s0 + Z.of_nat i + 1) with (s0 + Z.of_nat (i + 1)) by lia.
      apply IH; [lia| |lia|apply Forall_app; split; [done|by constructor]].
      rewrite length_app. cbn [length]. pose proof (counted_next t i c Hc N92). lia. }
  destruct (Z.ltb_spec (s0 + zlen t - (s0 + Z.of_nat i)) 1); [by exists None|].
  destruct (load_in (s0 + Z.of_nat i + 1)) as [x ->]; [lia|]. cbn [mbind ub_bind].
  destruct (simple_escape x) as [y|] eqn:Ey.
  - assert (By : is_bytes (out ++ [y])).
    { apply Forall_app. split; [done|]. constructor; [|constructor]. unfold simple_escape in Ey. unfold is_byte.
      repeat case_match; simplify_eq; lia. }
    rewrite emit_ok by (cbn [length]; lia). cbn [mbind ub_bind].
    destruct (decide (i + 2 <= length t)%nat) as [Hi2|Hi2].
    + replace (s0 + Z.of_nat i + 2) with (s0 + Z.of_nat (i + 2)) by lia.
      apply IH; [lia| |lia|done]. rewrite length_app. cbn [length]. pose proof (counted_jump t i 1 ltac:(lia)) as J. change (2 * 1)%nat with 2%nat in J. lia.
    + destruct fuel as [|fuel]; [lia|]. cbn [decode].
      destruct (Z.ltb_spec (s0 + Z.of_nat i + 2) (s0 + zlen t)); [lia|].
      eexists. split; [reflexivity|]. intros b [= <-]. split; [rewrite length_app; cbn [length]; lia|done].
  - destruct (x =? 117); [|by exists None].
    destruct (utf16_in (s0 + Z.of_nat i) (s0 + zlen t)) as (o & -> & Hu); [lia|lia|].
    destruct o as [[b n]|]; cbn [bindo]; [|by exists None].
    destruct (Hu b n eq_refl) as (m & -> & Hn & Hb & Hm & Bb).
    pose proof (counted_jump t i m ltac:(lia)) as J. pose proof (W (i + 2 * m)%nat).
    rewrite emit_ok by lia. cbn [mbind ub_bind].
    replace (s0 + Z.of_nat i + 2 * Z.of_nat m) with (s0 + Z.of_nat (i + 2 * m)) by lia.
    apply IH; [lia| |lia|by apply Forall_app]. rewrite length_app. lia.
Qed.

Lemma counted_length t : (snd (counted t) <= length t)%nat.
Proof.
  assert (G : forall t s, (snd (foldl count_step s t) <= snd s + length t)%nat); [|apply (G t)].
  induction t0 as [|c l IH]; intros s; cbn [foldl length]; [lia|]. etrans; [apply IH|].
  destruct s as [[] n]; cbn; [lia|]. destruct (c =? 92); cbn; lia.
Qed.

Lemma parse_string_returns off al : 0 <= off < L -> returns (string_from off) (parse_string content off al).
Proof.
  intros Ho. unfold parse_string. destruct (load_in off Ho) as [c ->]. cbn [mbind ub_bind].
  destruct (negb (c =? 34)); [apply returns_none|].
  destruct (scan_end_in (off + 1) ltac:(lia) (drop (Z.to_nat (off + 1)) content) (S (length content)) [] 0)
    as (o & Eo & Ho'); [done|lia|done|rewrite length_drop; lia|].
  cbn [length] in Eo. change (Z.of_nat 0) with 0 in Eo. rewrite Z.add_0_r in Eo. change (0 - 0) with 0 in Eo. rewrite Eo.
  destruct o as [[e sk]|]; cbn [bindo]; [|apply returns_none].
  destruct (Ho' e sk eq_refl) as (t & k & r & E & -> & C & ->).
  pose proof (f_equal length E) as Len. rewrite length_drop, length_app in Len. cbn [length] in Len.
  destruct (alloc al) as [ok al']. destruct ok; cbn [negb]; [|apply returns_none].
  replace (off + 1 + zlen t - off - (zlen t - Z.of_nat k) + 1) with (Z.of_nat k + 2) by lia.
  destruct (decode_in (off + 1) t r k ltac:(lia) E C (S (length content)) 0 []) as (o & Ed & Hd);
    [lia|cbn; lia|lia|constructor|]. change (Z.of_nat 0) with 0 in Ed. rewrite Z.add_0_r in Ed. rewrite Ed.
  destruct o as [b|]; cbn [bindo]; [|apply returns_none]. destruct (Hd b eq_refl) as [Lb Bb].
  rewrite emit_ok by (cbn [length]; lia). cbn [mbind ub_bind]. apply returns_some. unfold string_from. cbn [fst snd].
  pose proof (counted_length t) as Ct. rewrite C in Ct. cbn [snd] in Ct. split; [lia|]. split; [done|lia].
Qed.

(** ** Values *)

Lemma length_quoted (t : list Z) : length (quoted t) = (length t + 2)%nat.
Proof. unfold quoted. cbn [length]. rewrite length_app. cbn [length]. lia. Qed.

Lemma length_escaped k : zlen (escaped k) <= 6 * zlen k.
Proof.
  unfold escaped. assert (C : zlen (cstr k) <= zlen k).
  { induction k as [|c k IH]; cbn [cstr]; [done|]. destruct (c =? 0); cbn [length] in *; lia. }
  revert C. generalize (cstr k). intros l. intros C. transitivity (6 * zlen l); [|lia]. clear C.
  induction l as [|c l IH]; [done|]. cbn [map concat length]. rewrite length_app.
  pose proof (escape_char_length c). repeat case_match; lia.
Qed.

Lemma string_text off r : string_from off r -> tree_from off (snd (fst r)) (cJSON_String (fst (fst r))).
Proof.
  intros (Hl & B & Ls). split; [done|]. split; [by constructor|]. intros d. cbn [render].
  rewrite length_quoted. pose proof (length_escaped (fst (fst r))). lia.
Qed.

(** What the loops need of the parser of the elements. *)
Definition element_safe (pv : Z -> list bool -> ub (option (cJSON * Z * list bool))) : Prop :=
  forall off al, 0 <= off < L -> returns (value_from off) (pv off al).

(** The elements a loop adds, from the character before the first one on. *)
Definition items_from (off : Z) (acc : list cJSON) (r : list cJSON * Z * list bool) : Prop :=
  off < snd (fst r) < L /\ exists vs, fst (fst r) = acc ++ vs /\ (forall v, v ∈ vs -> byte_tree v) /\ vs <> [] /\
  forall d, zlen (render_items (render false d) false vs) <= 24 * (snd (fst r) - off - 1).

Definition members_from (off : Z) (acc : list (list Z * cJSON)) (r : list (list Z * cJSON) * Z * list bool) : Prop :=
  off < snd (fst r) < L /\ exists ms, fst (fst r) = acc ++ ms /\ (forall k v, (k, v) ∈ ms -> is_bytes k) /\
  (forall k v, (k, v) ∈ ms -> byte_tree v) /\ ms <> [] /\
  forall d n, zlen (render_members (render false d) false n ms) <= 24 * (snd (fst r) - off - 1).

Lemma inside d c : load content d = Def c -> 0 <= d < L -> c <> 0 -> d < L - 1.
Proof.
  intros E Hd Hc. destruct (Z.ltb_spec d (L - 1)); [done|]. rewrite last_zero in E by lia. congruence.
Qed.

(** The rest of a loop behind an element that ends at [c]: a comma, the closing
    bracket or an error. *)
Lemma after_element {A} (Q : A * Z * list bool -> Prop) close (loop : Z -> ub (option (A * Z * list bool))) acc al c :
  0 <= c <= L -> close <> 0 -> (forall d, c <= d < L - 1 -> returns Q (loop d)) -> (forall d, c <= d < L -> Q (acc, d, al)) ->
  returns Q (off ← buffer_skip_whitespace content c;
    if can_access content off 0 then
      x ← load content off;
      if x =? 44 then loop off
      else if negb (x =? close) then Def None else Def (Some (acc, off, al))
    else Def None).
Proof.
  intros Hc Hcl Hl HQ. destruct (skip_in c Hc) as (d & -> & Hd & Hge). cbn [mbind ub_bind].
  destruct (can_access content d 0); [|apply returns_none]. destruct (load_in d Hd) as [x Lx]. rewrite Lx. cbn [mbind ub_bind].
  destruct (Z.eqb_spec x 44) as [->|N].
  - pose proof (inside d 44 Lx Hd ltac:(lia)). apply Hl. lia.
  - destruct (Z.eqb_spec x close) as [->|]; cbn [negb]; [|apply returns_none].
    pose proof (inside d close Lx Hd Hcl). apply returns_some, HQ. lia.
Qed.

Lemma array_loop_returns pv fuel off al acc : element_safe pv -> 0 <= off < L - 1 -> L - off <= Z.of_nat fuel ->
  returns (items_from off acc) (array_loop content pv fuel off al acc).
Proof.
  intros Pv. revert off al acc. induction fuel as [|fuel IH]; intros off al acc Ho F; [lia|]. cbn [array_loop].
  destruct (alloc al) as [ok al1]. destruct ok; cbn [negb]; [|apply returns_none].
  destruct (skip_in (off + 1) ltac:(lia)) as (b & -> & Hb & Hge). cbn [mbind ub_bind].
  eapply returns_bind; [by apply Pv|]. intros [[v c] al2] (Hc & Bv & Lv). cbn [fst snd] in *.
  apply (after_element _ 93 (fun d => array_loop content pv fuel d al2 (acc ++ [v]))); [lia|lia| |].
  - intros d Hd. eapply returns_weaken; [|apply (IH d); lia].
    intros r (Hr & vs & E & Bs & N & Ls). split; [lia|]. exists (v :: vs). split; [by rewrite E, <- app_assoc|].
    split; [intros x [->|Hx]%elem_of_cons; auto|]. split; [done|]. intros k. cbn [render_items].
    destruct vs as [|v' vs]; [done|]. rewrite !length_app. cbn [length]. specialize (Lv k). specialize (Ls k). lia.
  - intros d Hd. split; cbn [fst snd]; [lia|]. exists [v]. split; [done|].
    split; [intros x [->|Hx%elem_of_nil]%elem_of_cons; done|]. split; [done|]. intros k. cbn [render_items].
    rewrite app_nil_r. specialize (Lv k). lia.
Qed.

Lemma object_loop_returns pv fuel off al acc : element_safe pv -> 0 <= off < L - 1 -> L - off <= Z.of_nat fuel ->
  returns (members_from off acc) (object_loop content pv fuel off al acc).
Proof.
  intros Pv. revert off al acc. induction fuel as [|fuel IH]; intros off al acc Ho F; [lia|]. cbn [object_loop].
  destruct (alloc al) as [ok al1]. destruct ok; cbn [negb]; [|apply returns_none].
  destruct (skip_in (off + 1) ltac:(lia)) as (b & -> & Hb & Hge). cbn [mbind ub_bind].
  eapply returns_bind; [by apply parse_string_returns|]. intros [[k c] al2] (Hc & Bk & Lk). cbn [fst snd] in *.
  destruct (skip_in c ltac:(lia)) as (d & -> & Hd & Hge'). cbn [mbind ub_bind].
  destruct (negb (can_access content d 0)); [apply returns_none|]. destruct (load_in d Hd) as [x Lx]. rewrite Lx. cbn [mbind ub_bind].
  destruct (Z.eqb_spec x 58) as [->|]; cbn [negb]; [|apply returns_none].
  pose proof (inside d 58 Lx Hd ltac:(lia)).
  destruct (skip_in (d + 1) ltac:(lia)) as (e & -> & He & Hge2). cbn [mbind ub_bind].
  eapply returns_bind; [by apply Pv|]. intros [[v g] al3] (Hg & Bv & Lv). cbn [fst snd] in *.
  pose proof (length_escaped k) as Le.
  apply (after_element _ 125 (fun d => object_loop content pv fuel d al3 (acc ++ [(k, v)]))); [lia|lia| |].
  - intros i Hi. eapply returns_weaken; [|apply (IH i); lia].
    intros r (Hr & ms & E & Bks & Bs & N & Ls). split; [lia|]. exists ((k, v) :: ms). split; [by rewrite E, <- app_assoc|].
    split; [intros y w [[= -> ->]|Hx]%elem_of_cons; eauto|]. split; [intros y w [[= -> ->]|Hx]%elem_of_cons; eauto|].
    split; [done|]. intros m n. cbn [render_members app]. destruct ms as [|m' ms]; [done|].
    rewrite !length_app. cbn [length]. rewrite length_app, length_quoted. cbn [length]. specialize (Lv m). specialize (Ls m n).
    cbn [app length]. lia.
  - intros i Hi. split; cbn [fst snd]; [lia|]. exists [(k, v)]. split; [done|].
    split; [intros y w [[= -> ->]|Hx%elem_of_nil]%elem_of_cons; done|].
    split; [intros y w [[= -> ->]|Hx%elem_of_nil]%elem_of_cons; done|].
    split; [done|]. intros m n. cbn [render_members app]. rewrite app_nil_r, length_app, length_quoted. cbn [length].
    specialize (Lv m). lia.
Qed.

(** The common course of arrays and objects behind their opening bracket. *)
Lemma bracket_returns {A} off close (loop : Z -> ub (option (A * Z * list bool))) (P : Z -> A * Z * list bool -> Prop)
    (mk : A -> cJSON) none al :
  0 <= off < L - 1 -> (forall o, 0 <= o < L - 1 -> returns (P o) (loop o)) ->
  byte_tree none -> (forall d, zlen (render false d none) <= 24) ->
  (forall o a, off <= o -> P o a -> value_from off (mk (fst (fst a)), snd (fst a) + 1, snd a)) ->
  returns (value_from off) (o ← buffer_skip_whitespace content (off + 1);
    empty ← (if can_access content o 0 then c ← load content o; Def (c =? close) else Def false);
    if empty : bool then Def (Some (none, o + 1, al)) else
    if negb (can_access content o 0) then Def None else
    bindo (loop (o - 1)) (fun '(child, o, al) => Def (Some (mk child, o + 1, al)))).
Proof.
  intros Ho Hl Bn Ln HP. destruct (skip_in (off + 1) ltac:(lia)) as (o & -> & Hb & Hge). cbn [mbind ub_bind].
  unfold can_access. rewrite Z.add_0_r. destruct (Z.ltb_spec o L); [|lia].
  destruct (load_in o Hb) as [c ->]. cbn [mbind ub_bind negb]. destruct (c =? close).
  { apply returns_some. split; cbn [fst snd]; [lia|]. split; [done|]. intros d. specialize (Ln d). lia. }
  eapply returns_bind; [apply Hl; lia|]. intros [[child d] al'] Hr. apply returns_some.
  by apply (HP (o - 1) (child, d, al')); [lia|].
Qed.

Lemma literal_returns off lit (v : cJSON) (al : list bool) : 0 <= off -> lit <> [] -> byte_tree v ->
  (forall d, render false d v = lit) -> match_lit content off lit = true ->
  returns (value_from off) (Def (Some (v, off + zlen lit, al))).
Proof.
  intros Ho N B R M. unfold match_lit in M. apply andb_prop in M as [M _]. apply Z.leb_le in M.
  apply returns_some. split; cbn [fst snd]; [destruct lit; [done|]; cbn [length] in *; lia|]. split; [done|].
  intros d. rewrite R. lia.
Qed.

Lemma array_from off o a : 0 <= off <= o -> items_from o [] a -> value_from off (cJSON_Array (fst (fst a)), snd (fst a) + 1, snd a).
Proof.
  intros Ho (Ha & vs & E & Bs & N & Ls). rewrite E. cbn [app]. split; cbn [fst snd]; [lia|]. split; [by constructor|].
  intros d. cbn [render length]. rewrite length_app. cbn [length]. specialize (Ls (S d)). lia.
Qed.

Lemma object_from off o a : 0 <= off <= o -> members_from o [] a -> value_from off (cJSON_Object (fst (fst a)), snd (fst a) + 1, snd a).
Proof.
  intros Ho (Ha & ms & E & Bk & Bs & N & Ls). rewrite E. cbn [app]. split; cbn [fst snd]; [lia|]. split; [by constructor|].
  intros d. cbn [render app length]. rewrite length_app. cbn [length]. specialize (Ls (S d) (S d)). lia.
Qed.

Lemma parse_value_returns fuel : forall depth off al, 0 <= off < L -> depth <= CJSON_NESTING_LIMIT ->
  CJSON_NESTING_LIMIT - depth < Z.of_nat fuel -> returns (value_from off) (parse_value content fuel depth off al).
Proof.
  induction fuel as [|fuel IH]; intros depth off al Ho Hd F; [lia|]. cbn [parse_value].
  destruct (match_lit content off (bytes_of "null")) eqn:M; [by apply (literal_returns off (bytes_of "null")); [lia|done|constructor|..]|].
  destruct (match_lit content off (bytes_of "false")) eqn:M1; [by apply (literal_returns off (bytes_of "false")); [lia|done|constructor|..]|].
  destruct (match_lit content off (bytes_of "true")) eqn:M2; [by apply (literal_returns off (bytes_of "true")); [lia|done|constructor|..]|].
  destruct (negb (can_access content off 0)); [apply returns_none|].
  destruct (load_in off Ho) as [c Lc]. rewrite Lc. cbn [mbind ub_bind].
  destruct (c =? 34).
  { eapply returns_bind; [by apply parse_string_returns|]. intros [[s o] al'] Hs. apply returns_some. by apply (string_text off (s, o, al')). }
  destruct (number_start c).
  { eapply returns_bind; [by apply parse_number_returns|]. intros [v o] Hs. by apply returns_some. }
  assert (Pv : depth < CJSON_NESTING_LIMIT -> element_safe (parse_value content fuel (depth + 1))).
  { intros D o al' Ho'. apply IH; lia. }
  destruct (Z.eqb_spec c 91) as [->|]; [|destruct (Z.eqb_spec c 123) as [->|]; [|apply returns_none]].
  - unfold parse_array. destruct (Z.leb_spec CJSON_NESTING_LIMIT depth); [apply returns_none|].
    rewrite Lc. cbn [mbind ub_bind]. change (negb (91 =? 91)) with false. cbn match.
    pose proof (inside off 91 Lc Ho ltac:(lia)).
    apply (bracket_returns off 93 (fun o => array_loop content _ (length content) o al []) (fun o => items_from o []) cJSON_Array);
      [lia| |constructor; intros v Hv; by apply elem_of_nil in Hv|cbn; lia|intros o a Ho' Ha; apply (array_from off o); [lia|done]].
    intros o Ho'. apply array_loop_returns; [by apply Pv|done|lia].
  - unfold parse_object. destruct (Z.leb_spec CJSON_NESTING_LIMIT depth); [apply returns_none|].
    destruct (negb (can_access content off 0)); [apply returns_none|].
    rewrite Lc. cbn [mbind ub_bind]. change (negb (123 =? 123)) with false. cbn match.
    pose proof (inside off 123 Lc Ho ltac:(lia)).
    apply (bracket_returns off 125 (fun o => object_loop content _ (length content) o al []) (fun o => members_from o []) cJSON_Object);
      [lia| |constructor; intros k v Hv; by apply elem_of_nil in Hv|cbn; lia|intros o a Ho' Ha; apply (object_from off o); [lia|done]].
    intros o Ho'. apply object_loop_returns; [by apply Pv|done|lia].
Qed.

End Safe.

Lemma c_string_terminated value : 0 ∈ value -> exists s r, c_string value = Some (s ++ [0]) /\ value = s ++ 0 :: r.
Proof.
  induction value as [|c l IH]; intros Hv; [by apply elem_of_nil in Hv|]. cbn [c_string].
  destruct (Z.eqb_spec c 0) as [->|Hc]; [by exists [], l|]. apply elem_of_cons in Hv as [?|Hv]; [congruence|].
  destruct (IH Hv) as (s & r & -> & ->). by exists (c :: s), r.
Qed.

Section Claims.
Context `{DL : DoubleLaws}.

(** The parser returns, and what it returns can be printed. *)
Lemma parse_returns value al : is_bytes value -> 0 ∈ value ->
  returns (fun v => byte_tree v /\ forall d, zlen (render false d v) <= 24 * zlen value) (cJSON_Parse al value).
Proof.
  intros B Hv. destruct (c_string_terminated value Hv) as (s & r & E & Er). unfold cJSON_Parse. rewrite E.
  destruct (alloc al) as [ok al']. destruct ok; cbn [negb]; [|apply returns_none].
  set (content := s ++ [0]). assert (T : exists s, content = s ++ [0]) by by exists s.
  assert (Bc : is_bytes content).
  { subst content. rewrite Er in B. apply Forall_app in B as [Bs _]. apply Forall_app. split; [done|].
    constructor; [unfold is_byte; lia|constructor]. }
  assert (Lv : zlen content <= zlen value) by (subst content; rewrite Er, !length_app; cbn [length]; lia).
  pose proof (length_pos content T).
  assert (0 <= skip_utf8_bom content 0 <= zlen content) as Hb.
  { unfold skip_utf8_bom, can_access. destruct (Z.ltb_spec (0 + 4) (zlen content)); cbn [andb]; [|lia].
    destruct (mem_eqb _ _ _); lia. }
  destruct (skip_in content T _ Hb) as (o & -> & Ho & _). cbn [mbind ub_bind].
  eapply returns_bind; [apply (parse_value_returns content T Bc _ 0 o al' Ho); unfold CJSON_NESTING_LIMIT; lia|].
  intros [[v o'] al2] (Hm & Bv & Lr). cbn [fst snd] in *. apply returns_some. split; [done|].
  intros d. specialize (Lr d). lia.
Qed.

(** What is known of a parsed tree: its strings hold bytes, and its text is at
    most 24 times as long as the input. *)
Definition within (value : list Z) (r : option cJSON) : Prop :=
  forall v, r = Some v -> byte_tree v /\ forall d, zlen (render false d v) <= 24 * zlen value.

(** C30: for every sequence of bytes that has a terminator and every outcome of
    the allocations, [cJSON_Parse] returns: it reads only inside the string and
    its terminator, writes only inside the arrays it allocates for the strings
    it decodes (whose size it computes from the number of escapes alone), and
    its loops and its recursion end.  The text of the tree it returns is at
    most 24 times as long as the input. *)
Theorem cjson_parse_safe value al : is_bytes value -> 0 ∈ value ->
  exists r, cJSON_Parse al value = Def r /\ within value r.
Proof. apply parse_returns. Qed.
End Claims.

#[local] Existing Instance integral.
#[local] Existing Instance integral_laws.

Definition odd_escapes : list Z := [32; 123; 34; 92; 117; 97; 98; 99; 92; 34; 34; 58; 45; 0; 7].

Lemma cjson_parse_safe_witness :
  exists r, cJSON_Parse [true; false] odd_escapes = Def r /\ within odd_escapes r.
Proof.
  apply (cjson_parse_safe odd_escapes [true; false]); [|set_solver].
  unfold odd_escapes, is_bytes, is_byte. repeat constructor; lia.
Defined.

End CJsonSafe.
