(* ===== verification/IpcResp.v ===== *)
(** * The answers to requests (src/ipc_resp.c)

    One function for each command builds the JSON object of the answer.  What
    it reports of the rest of the process is the interface [Process]. *)

From S2P Require Import Prelude CJson CJsonText CJsonPrint.

Module IpcResp.
Import CJson CJsonPrint.

#[local] Notation "'let*' p ':=' m 'in' k" := (bindo m (fun p => k))
  (at level 10, p pattern, m at level 200, k at level 200).

Definition IPC_RESP_OK : Z := 200.
Definition IPC_RESP_OK_PARTIAL_DATA : Z := 206.
Definition IPC_BAD_REQUEST : Z := 400.
Definition IPC_RESP_SERVER_ERROR : Z := 500.
Definition IPC_RESP_NOT_IMPLEMENTED : Z := 501.

Definition cmdMetaName : list string := ["completeRequestJson"; "incompleteRequestJson"].
Definition cmdAppViewName : list string :=
  ["getSupportedCmd"; "getAppViewStatus"; "getAppViewCfg"; "setAppViewCfg"; "getTransportStatus"; "getProcessDetails"].

Record transport_status_t := mkStatus {
  configString : list Z;
  isConnected : bool;
  connectAttemptCount : Z;
  failureString : option (list Z);
}.

Class Process `{Double} := {
  process : Type;
  funcs_attached : process -> bool;
  pid : process -> Z;
  uuid : process -> list Z;
  id : process -> list Z;
  machine_id : process -> list Z;
  (** the current configuration as JSON, and replacing it by the one in a text *)
  jsonConfigurationObject : process -> option cJSON;
  doAndReplaceConfig : process -> list Z -> process;
  payloadTransportEnabled : process -> bool;
  criblTransportEnabled : process -> bool;
  eventsTransportEnabled : process -> bool;
  metricTransportEnabled : process -> bool;
  logTransportStatus : process -> transport_status_t;
  payloadTransportStatus : process -> transport_status_t;
  eventsTransportStatus : process -> transport_status_t;
  metricsTransportStatus : process -> transport_status_t;
}.

Section Resp.
Context `{PR : Process}.
Variable fill : nat -> Z.

(** An operation on the object under construction; [None] is [goto allocFail]. *)
Definition try_ (r : option cJSON * list bool) : ub (option (cJSON * list bool)) :=
  match r with (Some o, al) => Def (Some (o, al)) | (None, _) => Def None end.

(** The wrapper and the object in it. *)
Definition respWrapperCreate (al : list bool) : ub (option (cJSON * list bool)) :=
  let '(ok, al) := alloc al in if ok then try_ (cJSON_CreateObject al) else Def None.

Definition ipcRespStatus (al : list bool) (status : Z) : ub (option (cJSON * list bool)) :=
  let* (resp, al) := respWrapperCreate al in
  try_ (cJSON_AddNumberToObjLN al resp (bytes_of "status") (of_int status)).

Definition createCmdDesc (al : list bool) (i : Z) (name : string) : option cJSON * list bool :=
  match cJSON_CreateObject al with
  | (None, al) => (None, al)
  | (Some d, al) =>
      match cJSON_AddNumberToObject al d (bytes_of "id") (of_int i) with
      | (None, al) => (None, al)
      | (Some d, al) => cJSON_AddStringToObject al d (bytes_of "name") (bytes_of name)
      end
  end.

(** The loop over the names from index [i] on; [inr] when a descriptor cannot be
    allocated. *)
Fixpoint add_cmds (al : list bool) (cmds : cJSON) (i : Z) (names : list string) : (cJSON + unit) * list bool :=
  match names with
  | [] => (inl cmds, al)
  | name :: names =>
      match createCmdDesc al i name with
      | (None, al) => (inr tt, al)
      | (Some d, al) => add_cmds al (cJSON_AddItemToArray cmds d) (i + 1) names
      end
  end.

(** The label [metaCmdFail] deletes [metaCmds] and then [appviewCmds]: the
    latter is not initialised in the first loop, and behind it the former is
    already part of [resp], which is deleted too. *)
Definition ipcRespGetAppViewCmds (al : list bool) : ub (option (cJSON * list bool)) :=
  let* (resp, al) := respWrapperCreate al in
  let* (resp, al) := try_ (cJSON_AddNumberToObjLN al resp (bytes_of "status") (of_int IPC_RESP_OK)) in
  let* (metaCmds, al) := try_ (cJSON_CreateArray al) in
  match add_cmds al metaCmds 0 cmdMetaName with
  | (inr _, _) => UB
  | (inl metaCmds, al) =>
      let resp := cJSON_AddItemToObjectCS resp (bytes_of "commands_meta") metaCmds in
      match cJSON_CreateArray al with
      | (None, _) => UB
      | (Some appviewCmds, al) =>
          match add_cmds al appviewCmds 0 cmdAppViewName with
          | (inr _, _) => Def None
          | (inl appviewCmds, al) =>
              Def (Some (cJSON_AddItemToObjectCS resp (bytes_of "commands_appview") appviewCmds, al))
          end
      end
  end.

Definition ipcRespGetAppViewStatus (p : process) (al : list bool) : ub (option (cJSON * list bool)) :=
  let* (resp, al) := respWrapperCreate al in
  let* (resp, al) := try_ (cJSON_AddNumberToObjLN al resp (bytes_of "status") (of_int IPC_RESP_OK)) in
  try_ (cJSON_AddBoolToObjLN al resp (bytes_of "viewed") (funcs_attached p)).

Definition ipcRespGetAppViewCfg (p : process) (al : list bool) : ub (option (cJSON * list bool)) :=
  let* (resp, al) := respWrapperCreate al in
  match jsonConfigurationObject p with
  | None => try_ (cJSON_AddNumberToObjLN al resp (bytes_of "status") (of_int IPC_RESP_SERVER_ERROR))
  | Some cfg =>
      let resp := cJSON_AddItemToObjectCS resp (bytes_of "cfg") cfg in
      try_ (cJSON_AddNumberToObjLN al resp (bytes_of "status") (of_int IPC_RESP_OK))
  end.

Definition ipcRespStatusNotImplemented (al : list bool) := ipcRespStatus al IPC_RESP_NOT_IMPLEMENTED.

(** The new state of the process when the configuration was replaced; the text
    is [NULL] when it cannot be printed. *)
Definition ipcProcessSetCfg (p : process) (al : list bool) (appviewReq : cJSON) : ub (option process) :=
  match cJSON_GetObjectItem appviewReq (bytes_of "cfg") with
  | Some cfgKey =>
      if cJSON_IsObject cfgKey then
        cfgStr ← cJSON_PrintUnformatted fill cfgKey al;
        match cfgStr with
        | Some text => Def (Some (doAndReplaceConfig p (cstr text)))
        | None => UB
        end
      else Def None
  | None => Def None
  end.

Definition ipcRespSetAppViewCfg (p : process) (al al' : list bool) (appviewReq : cJSON)
    : ub (process * option (cJSON * list bool)) :=
  r ← ipcProcessSetCfg p al appviewReq;
  match r with
  | Some p => resp ← ipcRespStatus al' IPC_RESP_OK; Def (p, resp)
  | None => resp ← ipcRespStatus al' IPC_RESP_SERVER_ERROR; Def (p, resp)
  end.

(** [appview_interfaces]: the name, whether it is enabled and its status. *)
Definition appview_interfaces (p : process) : list (string * bool * transport_status_t) :=
  [("log", true, logTransportStatus p); ("payload", payloadTransportEnabled p, payloadTransportStatus p);
   ("cribl", criblTransportEnabled p, eventsTransportStatus p);
   ("events", eventsTransportEnabled p, eventsTransportStatus p);
   ("metrics", metricTransportEnabled p, metricsTransportStatus p)].

Definition interface_object (al : list bool) (name : string) (s : transport_status_t) : ub (option (cJSON * list bool)) :=
  let* (o, al) := try_ (cJSON_CreateObject al) in
  let* (o, al) := try_ (cJSON_AddStringToObject al o (bytes_of "name") (bytes_of name)) in
  let* (o, al) := try_ (cJSON_AddStringToObject al o (bytes_of "config") (configString s)) in
  if isConnected s then try_ (cJSON_AddTrueToObject al o (bytes_of "connected")) else
  let* (o, al) := try_ (cJSON_AddFalseToObject al o (bytes_of "connected")) in
  let* (o, al) := try_ (cJSON_AddNumberToObject al o (bytes_of "attempts") (of_int (connectAttemptCount s))) in
  match failureString s with
  | Some f => try_ (cJSON_AddStringToObject al o (bytes_of "failure_details") f)
  | None => Def (Some (o, al))
  end.

(** The loop; an enabled "cribl" interface is the last one. *)
Fixpoint add_interfaces (al : list bool) (interfaces : cJSON) (l : list (string * bool * transport_status_t))
    : ub (option (cJSON * list bool)) :=
  match l with
  | [] => Def (Some (interfaces, al))
  | (name, enabled, s) :: l =>
      if negb enabled then add_interfaces al interfaces l else
      let* (o, al) := interface_object al name s in
      let interfaces := cJSON_AddItemToArray interfaces o in
      if String.eqb name "cribl" then Def (Some (interfaces, al)) else add_interfaces al interfaces l
  end.

Definition ipcRespGetTransportStatus (p : process) (al : list bool) : ub (option (cJSON * list bool)) :=
  let* (resp, al) := respWrapperCreate al in
  let* (resp, al) := try_ (cJSON_AddNumberToObjLN al resp (bytes_of "status") (of_int IPC_RESP_OK)) in
  let* (interfaces, al) := try_ (cJSON_CreateArray al) in
  let* (interfaces, al) := add_interfaces al interfaces (appview_interfaces p) in
  Def (Some (cJSON_AddItemToObjectCS resp (bytes_of "interfaces") interfaces, al)).

Definition ipcRespGetProcessDetails (p : process) (al : list bool) : ub (option (cJSON * list bool)) :=
  let* (resp, al) := respWrapperCreate al in
  let* (resp, al) := try_ (cJSON_AddNumberToObjLN al resp (bytes_of "status") (of_int IPC_RESP_OK)) in
  let* (resp, al) := try_ (cJSON_AddNumberToObjLN al resp (bytes_of "pid") (of_int (pid p))) in
  let* (resp, al) := try_ (cJSON_AddStringToObject al resp (bytes_of "uuid") (uuid p)) in
  let* (resp, al) := try_ (cJSON_AddStringToObject al resp (bytes_of "id") (id p)) in
  try_ (cJSON_AddStringToObject al resp (bytes_of "machine_id") (machine_id p)).

(** [supportedResp]: the command's function; the state of the process after it. *)
Definition IPC_CMD_UNKNOWN : Z := 6.

Definition supportedResp (cmd : Z) (p : process) (al al' : list bool) (req : cJSON)
    : ub (process * option (cJSON * list bool)) :=
  let pure r := r ← r; Def (p, r) in
  if cmd =? 0 then pure (ipcRespGetAppViewCmds al)
  else if cmd =? 1 then pure (ipcRespGetAppViewStatus p al)
  else if cmd =? 2 then pure (ipcRespGetAppViewCfg p al)
  else if cmd =? 3 then ipcRespSetAppViewCfg p al al' req
  else if cmd =? 4 then pure (ipcRespGetTransportStatus p al)
  else if cmd =? 5 then pure (ipcRespGetProcessDetails p al)
  else pure (ipcRespStatusNotImplemented al).

End Resp.
End IpcResp.
