(* ===== verification/Ipc.v ===== *)
(** * Requests and responses over message queues (src/ipc.c, ipcCommunication of src/wrap.c)

    A request comes as one or more frames, each a JSON object with its
    metadata, a NUL and a part of the message; the answer goes back in the same
    form, cut to the size of the queue's messages. *)

From S2P Require Import Prelude CJson CJsonText CJsonPrint IpcResp.

Module Ipc.
Import CJson CJsonPrint IpcResp.

#[local] Notation "'zlen' l" := (Z.of_nat (length l)) (at level 10, l at level 9).

Definition RETRY_COUNT : nat := 500.
Definition INPUT_MSG_ALLOC_LIMIT : Z := 1024 * 1024.
Definition SIZE_MAX : Z := 2 ^ 64 - 1.

Definition META_REQ_JSON : Z := 0.
Definition META_REQ_JSON_PARTIAL : Z := 1.

Inductive req_parse_status_t :=
| REQ_PARSE_GENERIC_ERROR
| REQ_PARSE_ALLOCATION_ERROR
| REQ_PARSE_RECEIVE_ERROR
| REQ_PARSE_RECEIVE_TIMEOUT_ERROR
| REQ_PARSE_MISSING_APPVIEW_DATA_ERROR
| REQ_PARSE_JSON_ERROR
| REQ_PARSE_REQ_ERROR
| REQ_PARSE_UNIQ_ERROR
| REQ_PARSE_REMAIN_ERROR
| REQ_PARSE_APPVIEW_REQ_ERROR
| REQ_PARSE_APPVIEW_SIZE_ERROR
| REQ_PARSE_PARTIAL
| REQ_PARSE_OK.

#[export] Instance req_parse_status_t_eq : EqDecision req_parse_status_t.
Proof. solve_decision. Defined.

Inductive ipc_resp_result_t :=
| RESP_RESULT_GENERIC_ERROR
| RESP_ALLOCATION_ERROR
| RESP_UNSUFFICENT_MSGBUF_ERROR
| RESP_SEND_RETRY_LIMIT
| RESP_SEND_OTHER
| RESP_REQUEST_ERROR
| RESP_PROCESSING_ERROR
| RESP_RESULT_OK.

Inductive ipc_receive_result := MSG_RECV_RETRY_LIMIT | MSG_RECV_OTHER | MSG_RECV_OK.

(** [UNREACHABLE()] is [__builtin_unreachable()]. *)
Definition translateParseStatusToResp (status : req_parse_status_t) : ub Z :=
  match status with
  | REQ_PARSE_OK => Def IPC_RESP_OK
  | REQ_PARSE_ALLOCATION_ERROR | REQ_PARSE_RECEIVE_ERROR | REQ_PARSE_RECEIVE_TIMEOUT_ERROR =>
      Def IPC_RESP_SERVER_ERROR
  | REQ_PARSE_JSON_ERROR | REQ_PARSE_REQ_ERROR | REQ_PARSE_UNIQ_ERROR | REQ_PARSE_APPVIEW_REQ_ERROR
  | REQ_PARSE_MISSING_APPVIEW_DATA_ERROR | REQ_PARSE_APPVIEW_SIZE_ERROR => Def IPC_BAD_REQUEST
  | _ => UB
  end.

(** ** The queues

    What the successive calls on a queue give; a queue to read is empty when
    the list ends, a queue to write takes every message. *)
Inductive mq_received := Message (msg : list Z) | RecvAgain | RecvError.
Inductive mq_sent := Sent | SendAgain | SendError.

Definition mq_receive (q : list mq_received) : mq_received * list mq_received :=
  match q with [] => (RecvAgain, []) | r :: q => (r, q) end.
Definition mq_send (q : list mq_sent) : mq_sent * list mq_sent :=
  match q with [] => (Sent, []) | r :: q => (r, q) end.

Fixpoint receive_loop (n : nat) (q : list mq_received) : ipc_receive_result * list Z * list mq_received :=
  match n with
  | O => (MSG_RECV_RETRY_LIMIT, [], q)
  | S n => match mq_receive q with
           | (Message msg, q) => (MSG_RECV_OK, msg, q)
           | (RecvAgain, q) => receive_loop n q
           | (RecvError, q) => (MSG_RECV_OTHER, [], q)
           end
  end.
Definition ipcReceiveFrameWithRetry (q : list mq_received) := receive_loop RETRY_COUNT q.

(** [sent]: the messages in the queue so far. *)
Fixpoint send_loop (n : nat) (q : list mq_sent) (sent : list (list Z)) (frame : list Z)
    : ipc_resp_result_t * list mq_sent * list (list Z) :=
  match n with
  | O => (RESP_SEND_RETRY_LIMIT, q, sent)
  | S n => match mq_send q with
           | (Sent, q) => (RESP_RESULT_OK, q, sent ++ [frame])
           | (SendAgain, q) => send_loop n q sent frame
           | (SendError, q) => (RESP_SEND_OTHER, q, sent)
           end
  end.
Definition ipcSendFrameWithRetry (q : list mq_sent) (sent : list (list Z)) (frame : list Z) :=
  send_loop RETRY_COUNT q sent frame.

(** The outcomes of the allocations of the calls to come, call by call. *)
Definition call_allocs (als : list (list bool)) : list bool * list (list bool) :=
  match als with [] => ([], []) | al :: als => (al, als) end.

Section Ipc.
Context `{PR : Process}.
Variable fill : nat -> Z.

(** ** Requests *)

Fixpoint msgBufIsNULTermPresent (msg : list Z) : bool :=
  match msg with [] => false | c :: msg => (c =? 0) || msgBufIsNULTermPresent msg end.

Definition item_number (item : option cJSON) : option Z :=
  match item with Some (cJSON_Number _ valueint) => Some valueint | _ => None end.

(** What is returned and what is stored through the pointers. *)
Record parsed_frame := mkFrame {
  appviewMsg : option (list Z);
  parseStatus : req_parse_status_t;
  uniqVal : Z;
  remainLen : Z;
}.

(** The bytes of [msgBuf] behind [msgLen] are not looked at.  [strlen] of the
    metadata has no result when they cannot be printed. *)
Definition ipcParseSingleFrame (als : list (list bool)) (msg : list Z) (uniq remain : Z)
    : ub (parsed_frame * list (list bool)) :=
  let fail status uniq remain als := Def (mkFrame None status uniq remain, als) in
  if negb (msgBufIsNULTermPresent msg) then fail REQ_PARSE_JSON_ERROR uniq remain als else
  let '(al, als) := call_allocs als in
  json ← cJSON_Parse al msg;
  match json with
  | None => fail REQ_PARSE_JSON_ERROR uniq remain als
  | Some msgJson =>
      if negb (cJSON_IsObject msgJson) then fail REQ_PARSE_JSON_ERROR uniq remain als else
      match item_number (cJSON_GetObjectItemCaseSensitive msgJson (bytes_of "req")) with
      | None => fail REQ_PARSE_REQ_ERROR uniq remain als
      | Some req =>
          if negb (req =? META_REQ_JSON) && negb (req =? META_REQ_JSON_PARTIAL)
          then fail REQ_PARSE_REQ_ERROR uniq remain als else
          match item_number (cJSON_GetObjectItemCaseSensitive msgJson (bytes_of "uniq")) with
          | None => fail REQ_PARSE_UNIQ_ERROR uniq remain als
          | Some uniq =>
              match item_number (cJSON_GetObjectItemCaseSensitive msgJson (bytes_of "remain")) with
              | None => fail REQ_PARSE_REMAIN_ERROR uniq remain als
              | Some rem =>
                  if remain <=? u64 rem then fail REQ_PARSE_REMAIN_ERROR uniq remain als else
                  let remain := u64 rem in
                  let '(al, als) := call_allocs als in
                  printed ← cJSON_PrintUnformatted fill msgJson al;
                  match printed with
                  | None => UB
                  | Some metaData =>
                      let dataOffset := zlen (cstr metaData) + 1 in
                      if zlen msg <=? dataOffset
                      then fail REQ_PARSE_MISSING_APPVIEW_DATA_ERROR uniq remain als else
                      let '(al, als) := call_allocs als in
                      if negb (fst (alloc al)) then fail REQ_PARSE_ALLOCATION_ERROR uniq remain als else
                      let status := if req =? META_REQ_JSON_PARTIAL then REQ_PARSE_PARTIAL else REQ_PARSE_OK in
                      Def (mkFrame (Some (drop (Z.to_nat dataOffset) msg)) status uniq remain, als)
                  end
              end
          end
      end
  end.

(** The new message, or the status of the error. *)
Definition appviewMsgAppend (ok : bool) (msg frame : list Z) : list Z + req_parse_status_t :=
  let newMsgLen := zlen msg - 1 + zlen frame in
  if INPUT_MSG_ALLOC_LIMIT <? newMsgLen then inr REQ_PARSE_APPVIEW_SIZE_ERROR
  else if negb ok then inr REQ_PARSE_ALLOCATION_ERROR
  else inl (take (Z.to_nat (zlen msg - 1)) msg ++ frame).

(** The message, the status and the identifier, and the rest of the queue. *)
Definition request_result : Type := option (list Z) * req_parse_status_t * Z * list mq_received.

(** One round for each frame; [fuel] bounds their number. *)
Fixpoint request_loop (fuel : nat) (als : list (list bool)) (q : list mq_received) (msgRes : option (list Z)) (uniq : Z)
    : ub request_result :=
  match fuel with
  | O => UB
  | S fuel =>
      match ipcReceiveFrameWithRetry q with
      | (MSG_RECV_RETRY_LIMIT, _, q) => Def (None, REQ_PARSE_RECEIVE_TIMEOUT_ERROR, uniq, q)
      | (MSG_RECV_OTHER, _, q) => Def (None, REQ_PARSE_RECEIVE_ERROR, uniq, q)
      | (MSG_RECV_OK, msg, q) =>
          '(f, als) ← ipcParseSingleFrame als msg uniq SIZE_MAX;
          let uniq := uniqVal f in
          match appviewMsg f with
          | None => Def (None, parseStatus f, uniq, q)
          | Some frame =>
              let '(al, als) := call_allocs als in
              let ok := fst (alloc al) in
              let joined := match msgRes with
                            | None => if ok then inl frame else inr REQ_PARSE_ALLOCATION_ERROR
                            | Some msg => appviewMsgAppend ok msg frame
                            end in
              match joined with
              | inr status => Def (None, status, uniq, q)
              | inl msg =>
                  if decide (parseStatus f = REQ_PARSE_PARTIAL) then request_loop fuel als q (Some msg) uniq
                  else Def (Some msg, parseStatus f, uniq, q)
              end
          end
      end
  end.

(** [uniqueReq] is what the caller passes. *)
Definition ipcRequestHandler (als : list (list bool)) (q : list mq_received) (uniqueReq : Z) : ub request_result :=
  let '(al, als) := call_allocs als in
  if negb (fst (alloc al)) then Def (None, REQ_PARSE_ALLOCATION_ERROR, uniqueReq, q)
  else request_loop (S (length q)) als q None uniqueReq.

(** ** Responses *)

(** Allocation of the object and of its three numbers. *)
Definition createMetaResp (al : list bool) (status uniqReq remainLen : Z) : option cJSON :=
  let '(ok, al) := alloc al in
  if negb ok then None else
  match cJSON_AddNumberToObjLN al (cJSON_Object []) (bytes_of "status") (of_int status) with
  | (None, _) => None
  | (Some meta, al) =>
      match cJSON_AddNumberToObjLN al meta (bytes_of "uniq") (of_int uniqReq) with
      | (None, _) => None
      | (Some meta, al) => fst (cJSON_AddNumberToObjLN al meta (bytes_of "remain") (of_int remainLen))
      end
  end.

Definition send_result : Type := ipc_resp_result_t * list mq_sent * list (list Z).

Definition ipcSendFailedResponse (als : list (list bool)) (q : list mq_sent) (sent : list (list Z)) (msgBufSize : Z)
    (status : req_parse_status_t) (uniqReq : Z) : ub send_result :=
  code ← translateParseStatusToResp status;
  let '(al, als) := call_allocs als in
  match createMetaResp al code uniqReq 0 with
  | None => Def (RESP_ALLOCATION_ERROR, q, sent)
  | Some meta =>
      let '(al, als) := call_allocs als in
      printed ← cJSON_PrintUnformatted fill meta al;
      match printed with
      | None => UB
      | Some metadataBytes =>
          let metadataLen := zlen (cstr metadataBytes) in
          if msgBufSize <=? metadataLen then Def (RESP_UNSUFFICENT_MSGBUF_ERROR, q, sent)
          else Def (ipcSendFrameWithRetry q sent (take (Z.to_nat metadataLen) metadataBytes))
      end
  end.

(** [strstr]: where [needle] first occurs. *)
Fixpoint strstr (hay needle : list Z) : option nat :=
  if mem_eqb hay needle (length needle) then Some O
  else match hay with [] => None | _ :: hay => S <$> strstr hay needle end.

Definition STATUS_200 : list Z := 34 :: bytes_of "status" ++ 34 :: bytes_of ":200".

(** The frames of the response [bytes] from [appviewDataOffset] on; [res] is the
    result so far. *)
Fixpoint response_loop (fuel : nat) (res : ipc_resp_result_t) (als : list (list bool)) (q : list mq_sent)
    (sent : list (list Z)) (msgBufSize : Z) (bytes : list Z) (appviewDataOffset appviewDataRemainLen uniqReq : Z) : ub send_result :=
  match fuel with
  | O => UB
  | S fuel =>
      if appviewDataRemainLen =? 0 then Def (RESP_RESULT_OK, q, sent) else
      let '(al, als) := call_allocs als in
      match createMetaResp al IPC_RESP_OK uniqReq (i32 appviewDataRemainLen) with
      | None => Def (res, q, sent)
      | Some metadataJson =>
          let '(al, als) := call_allocs als in
          printed ← cJSON_PrintUnformatted fill metadataJson al;
          match printed with
          | None => UB
          | Some metadataBytes =>
              let metadataLen := zlen (cstr metadataBytes) + 1 in
              if msgBufSize <=? metadataLen then Def (RESP_UNSUFFICENT_MSGBUF_ERROR, q, sent) else
              let maxDataLen := msgBufSize - metadataLen in
              let dataSendLen := if appviewDataRemainLen <? maxDataLen then appviewDataRemainLen else maxDataLen in
              let appviewDataRemainLen := appviewDataRemainLen - dataSendLen in
              metadataBytes ←
                (if negb (appviewDataRemainLen =? 0) then
                   match strstr (cstr metadataBytes) STATUS_200 with
                   | None => UB
                   | Some i => Def (set_at metadataBytes (Z.of_nat i + 11) 54)
                   end
                 else Def metadataBytes);
              let frame := take (Z.to_nat metadataLen) metadataBytes ++
                           take (Z.to_nat dataSendLen) (drop (Z.to_nat appviewDataOffset) bytes) in
              match ipcSendFrameWithRetry q sent frame with
              | (RESP_RESULT_OK, q, sent) =>
                  response_loop fuel RESP_RESULT_OK als q sent msgBufSize bytes (appviewDataOffset + dataSendLen)
                    appviewDataRemainLen uniqReq
              | r => Def r
              end
          end
      end
  end.

(** The state of the process, the answer, and [*res] if it was set. *)
Definition ipcProcessRequestAndPrepareResponse (p : process) (als : list (list bool)) (appviewReq : list Z)
    (res : ipc_resp_result_t) : ub (process * option cJSON * ipc_resp_result_t * list (list bool)) :=
  let errJson status al als :=
    code ← translateParseStatusToResp status;
    resp ← ipcRespStatus al code;
    Def (p, match resp with Some (resp, _) => Some resp | None => None end, RESP_REQUEST_ERROR, als) in
  let '(al, als) := call_allocs als in
  json ← cJSON_Parse al appviewReq;
  let '(al, als) := call_allocs als in
  match json with
  | None => errJson REQ_PARSE_JSON_ERROR al als
  | Some appviewReqJson =>
      if negb (cJSON_IsObject appviewReqJson) then errJson REQ_PARSE_JSON_ERROR al als else
      match item_number (cJSON_GetObjectItemCaseSensitive appviewReqJson (bytes_of "req")) with
      | None => errJson REQ_PARSE_APPVIEW_REQ_ERROR al als
      | Some cmd =>
          let supportedCmd := if (0 <=? cmd) && (cmd <? IPC_CMD_UNKNOWN) then cmd else IPC_CMD_UNKNOWN in
          let '(al', als) := call_allocs als in
          '(p, resp) ← supportedResp fill supportedCmd p al al' appviewReqJson;
          match resp with
          | Some (resp, _) => Def (p, Some resp, res, als)
          | None => Def (p, None, RESP_PROCESSING_ERROR, als)
          end
      end
  end.

Definition ipcSendSuccessfulResponse (p : process) (als : list (list bool)) (q : list mq_sent) (sent : list (list Z))
    (msgBufSize : Z) (appviewDataReq : list Z) (uniqReq : Z) : ub (process * send_result) :=
  '(p, resp, res, als) ← ipcProcessRequestAndPrepareResponse p als appviewDataReq RESP_ALLOCATION_ERROR;
  match resp with
  | None => Def (p, (res, q, sent))
  | Some resp =>
      let '(al, als) := call_allocs als in
      printed ← cJSON_PrintUnformatted fill resp al;
      match printed with
      | None => Def (p, (res, q, sent))
      | Some text =>
          let '(al, als) := call_allocs als in
          if negb (fst (alloc al)) then Def (p, (res, q, sent)) else
          let appviewRespBytes := cstr text in
          r ← response_loop (S (length appviewRespBytes)) res als q sent msgBufSize appviewRespBytes 0
                (zlen appviewRespBytes) uniqReq;
          Def (p, r)
      end
  end.

(** The two queues: none when they are not active; the incoming one with the
    number of its messages, the outgoing one with the size of its messages. *)
Definition ipcCommunication (enabled : bool) (p : process) (als als' : list (list bool))
    (inq : option (Z * list mq_received)) (outq : option (Z * list mq_sent)) : ub (process * list (list Z)) :=
  if negb enabled then Def (p, []) else
  match inq with
  | None => Def (p, [])
  | Some (msgCount, q) =>
      if msgCount <=? 0 then Def (p, []) else
      match outq with
      | None => Def (p, [])
      | Some (cliMqSize, out) =>
          '(req, status, uniq, _) ← ipcRequestHandler als q (-1);
          match req with
          | Some appviewReq =>
              if decide (status = REQ_PARSE_OK) then
                '(p, r) ← ipcSendSuccessfulResponse p als' out [] cliMqSize appviewReq uniq; Def (p, snd r)
              else r ← ipcSendFailedResponse als' out [] cliMqSize status uniq; Def (p, snd r)
          | None =>
              if decide (status = REQ_PARSE_OK) then UB
              else r ← ipcSendFailedResponse als' out [] cliMqSize status uniq; Def (p, snd r)
          end
      end
  end.

End Ipc.
End Ipc.
