(* ===== verification/IpcFrames.v ===== *)
(** * Joining and cutting messages

    The request handler joins the frames of a request whatever retries happen
    between them; the response is cut into frames that fit the queue. *)

From S2P Require Import Prelude CJson CJsonText CJsonPrint IpcResp Ipc.

Module IpcFrames.
Import CJson CJsonText CJsonPrint IpcResp Ipc.

#[local] Notation "'zlen' l" := (Z.of_nat (length l)) (at level 10, l at level 9).

Section Frames.
Context `{DL : DoubleLaws}.
Context {PR : Process}.
Variable fill : nat -> Z.

(** ** Requests *)

(** Metadata with these values; other members are ignored. *)
Definition meta_of (j : cJSON) (req uniq remain : Z) : Prop :=
  cJSON_IsObject j = true /\
  item_number (cJSON_GetObjectItemCaseSensitive j (bytes_of "req")) = Some req /\
  item_number (cJSON_GetObjectItemCaseSensitive j (bytes_of "uniq")) = Some uniq /\
  item_number (cJSON_GetObjectItemCaseSensitive j (bytes_of "remain")) = Some remain.

(** Metadata the printer reproduces: the client's encoder and the printer agree
    on it. *)
Definition canonical (j : cJSON) : Prop :=
  (exists n, printable n j /\ (n <= 1000)%nat) /\ fits (zlen (render false 0 j)).

Definition frame_bytes (j : cJSON) (chunk : list Z) : list Z := render false 0 j ++ 0 :: chunk ++ [0].

Lemma nul_present a b : msgBufIsNULTermPresent (a ++ 0 :: b) = true.
Proof. induction a as [|c a IH]; cbn; [done|]. rewrite IH. apply orb_true_r. Qed.

Lemma cstr_app a b : Forall (fun c => c <> 0) a -> cstr (a ++ 0 :: b) = a.
Proof. induction 1 as [|c a Hc F IH]; [done|]. cbn [app cstr]. destruct (Z.eqb_spec c 0); [done|]. by rewrite IH. Qed.

Lemma canonical_nz j : canonical j -> Forall (fun c => c <> 0) (render false 0 j).
Proof. intros ((n & P & _) & _). eapply jtext_nz, render_text, P. Qed.

Lemma canonical_print j : canonical j -> cJSON_PrintUnformatted fill j [] = Def (Some (render false 0 j ++ [0])).
Proof. intros ((n & P & _) & N). apply print_render; [by eapply printable_byte_tree|done]. Qed.

Lemma canonical_parse j rest : canonical j -> cJSON_Parse [] (render false 0 j ++ 0 :: rest) = Def (Some j).
Proof.
  intros ((n & P & L) & N). by apply (parse_plain n j (render false 0 j) []);
    [apply render_text|..|constructor].
Qed.

Lemma parse_frame_data j data req uniq remain u :
  canonical j -> meta_of j req uniq remain -> req = META_REQ_JSON \/ req = META_REQ_JSON_PARTIAL ->
  u64 remain < SIZE_MAX -> data <> [] ->
  ipcParseSingleFrame fill [] (render false 0 j ++ 0 :: data) u SIZE_MAX =
  Def (mkFrame (Some data) (if req =? META_REQ_JSON_PARTIAL then REQ_PARSE_PARTIAL else REQ_PARSE_OK)
         uniq (u64 remain), []).
Proof.
  intros C (O & R & U & M) Hr Hm Hd. unfold ipcParseSingleFrame. rewrite nul_present. cbn [negb call_allocs].
  rewrite canonical_parse by done. cbn [mbind ub_bind]. rewrite O, R. cbn [negb].
  assert (negb (req =? META_REQ_JSON) && negb (req =? META_REQ_JSON_PARTIAL) = false) as ->.
  { destruct Hr as [-> | ->]; done. }
  rewrite U, M. destruct (Z.leb_spec SIZE_MAX (u64 remain)); [lia|].
  rewrite canonical_print by done. cbn [mbind ub_bind]. rewrite cstr_app by by apply canonical_nz.
  rewrite length_app. cbn [length]. destruct data as [|x data]; [done|]. cbn [length].
  destruct (Z.leb_spec (Z.of_nat (length (render false 0 j) + S (S (length data)))) (zlen (render false 0 j) + 1)); [lia|].
  cbn [alloc fst negb]. do 4 f_equal.
  replace (Z.to_nat (zlen (render false 0 j) + 1)) with (length (render false 0 j) + 1)%nat by lia.
  by rewrite drop_app_add.
Qed.

Lemma parse_frame j chunk req uniq remain u :
  canonical j -> meta_of j req uniq remain -> req = META_REQ_JSON \/ req = META_REQ_JSON_PARTIAL ->
  u64 remain < SIZE_MAX ->
  ipcParseSingleFrame fill [] (frame_bytes j chunk) u SIZE_MAX =
  Def (mkFrame (Some (chunk ++ [0])) (if req =? META_REQ_JSON_PARTIAL then REQ_PARSE_PARTIAL else REQ_PARSE_OK)
         uniq (u64 remain), []).
Proof. intros. apply (parse_frame_data j _ req uniq remain); try done. by destruct chunk. Qed.

(** A message that comes after [k] attempts. *)
Definition arrives (k : nat) (msg : list Z) : list mq_received := replicate k RecvAgain ++ [Message msg].

Lemma receive_arrives k msg q : (k < RETRY_COUNT)%nat ->
  ipcReceiveFrameWithRetry (arrives k msg ++ q) = (MSG_RECV_OK, msg, q).
Proof.
  unfold ipcReceiveFrameWithRetry, arrives. generalize RETRY_COUNT. intros n. revert n.
  induction k as [|k IH]; intros [|n] Hk; [lia|done|lia|]. cbn [replicate app receive_loop mq_receive]. apply IH. lia.
Qed.

(** A frame of a request: the attempts it takes, its metadata and its part of
    the message. *)
Record request_frame := mkPart { attempts : nat; metadata : cJSON; part : list Z }.

Definition part_ok (req : Z) (f : request_frame) : Prop :=
  (attempts f < RETRY_COUNT)%nat /\ canonical (metadata f) /\
  exists uniq remain, meta_of (metadata f) req uniq remain /\ u64 remain < SIZE_MAX.

Definition part_uniq (f : request_frame) : Z :=
  default 0 (item_number (cJSON_GetObjectItemCaseSensitive (metadata f) (bytes_of "uniq"))).

Definition queue_of (fs : list request_frame) : list mq_received :=
  concat (map (fun f => arrives (attempts f) (frame_bytes (metadata f) (part f))) fs).

(** One round of the loop. *)
Lemma request_round fuel f req q msgRes u joined :
  part_ok req f -> req = META_REQ_JSON \/ req = META_REQ_JSON_PARTIAL ->
  joined = match msgRes with None => part f ++ [0] | Some msg => take (Z.to_nat (zlen msg - 1)) msg ++ part f ++ [0] end ->
  (forall msg, msgRes = Some msg -> zlen msg + zlen (part f) <= INPUT_MSG_ALLOC_LIMIT) ->
  request_loop fill (S fuel) [] (arrives (attempts f) (frame_bytes (metadata f) (part f)) ++ q) msgRes u =
  if req =? META_REQ_JSON_PARTIAL then request_loop fill fuel [] q (Some joined) (part_uniq f)
  else Def (Some joined, REQ_PARSE_OK, part_uniq f, q).
Proof.
  intros (A & C & uniq & remain & M & Hm) Hr -> L. cbn [request_loop]. rewrite receive_arrives by done.
  rewrite (parse_frame _ _ req uniq remain) by done. cbn [mbind ub_bind uniqVal appviewMsg parseStatus call_allocs].
  cbn [alloc fst]. unfold part_uniq. destruct M as (_ & _ & -> & _). cbn [default].
  destruct msgRes as [msg|].
  - unfold appviewMsgAppend. rewrite length_app. cbn [length].
    destruct (Z.ltb_spec INPUT_MSG_ALLOC_LIMIT (zlen msg - 1 + Z.of_nat (length (part f) + 1))) as [B|_].
    { specialize (L msg eq_refl). lia. }
    cbn [negb]. destruct (req =? META_REQ_JSON_PARTIAL); by case_decide.
  - destruct (req =? META_REQ_JSON_PARTIAL); by case_decide.
Qed.

Lemma take_last_off (a : list Z) : take (Z.to_nat (zlen (a ++ [0]) - 1)) (a ++ [0]) = a.
Proof.
  rewrite length_app. cbn [length]. replace (Z.to_nat (Z.of_nat (length a + 1) - 1)) with (length a) by lia.
  apply take_app_length.
Qed.

(** The identifier known after some frames. *)
Definition last_uniq (u : Z) (fs : list request_frame) : Z := foldl (fun _ f => part_uniq f) u fs.

(** The message so far. *)
Definition so_far (fs : list request_frame) : option (list Z) :=
  match fs with [] => None | _ => Some (concat (map part fs) ++ [0]) end.

Lemma request_prefix fs : forall fuel msg u q, Forall (part_ok META_REQ_JSON_PARTIAL) fs ->
  zlen (msg ++ concat (map part fs) ++ [0]) <= INPUT_MSG_ALLOC_LIMIT ->
  request_loop fill (length fs + fuel) [] (queue_of fs ++ q) (Some (msg ++ [0])) u =
  request_loop fill fuel [] q (Some (msg ++ concat (map part fs) ++ [0])) (last_uniq u fs).
Proof.
  induction fs as [|f fs IH]; intros fuel msg u q F L; [done|]. apply Forall_cons in F as [Ff F].
  unfold queue_of in *. cbn [map concat app length Nat.add last_uniq foldl] in *. rewrite <- app_assoc.
  rewrite (request_round _ f META_REQ_JSON_PARTIAL _ _ u ((msg ++ part f) ++ [0])); [|done|by right| |].
  - change (META_REQ_JSON_PARTIAL =? META_REQ_JSON_PARTIAL) with true. cbn match.
    rewrite (IH fuel (msg ++ part f)); [by rewrite <- !app_assoc|done|rewrite !length_app in *; lia].
  - by rewrite take_last_off, <- app_assoc.
  - intros m [= <-]. rewrite !length_app in *. cbn [length] in *. lia.
Qed.

Lemma request_frames fs fuel u q : Forall (part_ok META_REQ_JSON_PARTIAL) fs ->
  zlen (concat (map part fs) ++ [0]) <= INPUT_MSG_ALLOC_LIMIT ->
  request_loop fill (length fs + fuel) [] (queue_of fs ++ q) None u =
  request_loop fill fuel [] q (so_far fs) (last_uniq u fs).
Proof.
  intros F L. destruct fs as [|f fs]; [done|]. apply Forall_cons in F as [Ff F].
  unfold queue_of in *. cbn [map concat app length Nat.add last_uniq foldl so_far] in *. rewrite <- app_assoc.
  rewrite (request_round _ f META_REQ_JSON_PARTIAL _ None u (part f ++ [0])); [|done|by right|done|done].
  change (META_REQ_JSON_PARTIAL =? META_REQ_JSON_PARTIAL) with true. cbn match. rewrite <- app_assoc in L.
  fold (queue_of fs). rewrite request_prefix by done. by rewrite <- app_assoc.
Qed.

Lemma queue_length fs q : (length fs <= length (queue_of fs ++ q))%nat.
Proof.
  rewrite length_app. unfold queue_of. induction fs as [|f fs IH]; cbn [map concat length]; [lia|].
  rewrite length_app. unfold arrives at 1. rewrite length_app. cbn [length]. lia.
Qed.

(** The handler after some frames. *)
Lemma handler_frames fs q u : Forall (part_ok META_REQ_JSON_PARTIAL) fs ->
  zlen (concat (map part fs) ++ [0]) <= INPUT_MSG_ALLOC_LIMIT ->
  exists fuel, ipcRequestHandler fill [] (queue_of fs ++ q) u = request_loop fill (S fuel) [] q (so_far fs) (last_uniq u fs).
Proof.
  intros F L. unfold ipcRequestHandler. cbn [call_allocs alloc fst negb]. pose proof (queue_length fs q).
  exists (length (queue_of fs ++ q) - length fs)%nat. rewrite <- request_frames by done. f_equal. lia.
Qed.

Lemma request_joined fs last q u :
  Forall (part_ok META_REQ_JSON_PARTIAL) fs -> part_ok META_REQ_JSON last ->
  zlen (concat (map part (fs ++ [last])) ++ [0]) <= INPUT_MSG_ALLOC_LIMIT ->
  ipcRequestHandler fill [] (queue_of (fs ++ [last]) ++ q) u =
  Def (Some (concat (map part (fs ++ [last])) ++ [0]), REQ_PARSE_OK, part_uniq last, q).
Proof.
  intros F Fl. assert (queue_of (fs ++ [last]) = queue_of fs ++ arrives (attempts last) (frame_bytes (metadata last) (part last))) as ->.
  { unfold queue_of. rewrite map_app, concat_app. cbn [map concat]. by rewrite app_nil_r. }
  assert (concat (map part (fs ++ [last])) = concat (map part fs) ++ part last) as ->.
  { rewrite map_app, concat_app. cbn [map concat]. by rewrite app_nil_r. }
  intros L. rewrite !length_app in L. rewrite <- app_assoc.
  destruct (handler_frames fs (arrives (attempts last) (frame_bytes (metadata last) (part last)) ++ q) u F) as (fuel & ->).
  { rewrite length_app. lia. }
  rewrite (request_round fuel last META_REQ_JSON q _ _ ((concat (map part fs) ++ part last) ++ [0])); [done|done|by left| |].
  - destruct fs as [|f fs]; [done|]. cbn [so_far]. by rewrite take_last_off, <- app_assoc.
  - intros m E. destruct fs as [|f fs]; [done|]. cbn [so_far] in E.
    assert (m = concat (map part (f :: fs)) ++ [0]) as -> by congruence. rewrite length_app. cbn [length] in *. lia.
Qed.

(** ** Responses *)

(** The metadata of a response. *)
Definition meta (status uniq remain : Z) : cJSON :=
  cJSON_Object [(bytes_of "status", cJSON_CreateNumber (of_int status)); (bytes_of "uniq", cJSON_CreateNumber (of_int uniq));
                (bytes_of "remain", cJSON_CreateNumber (of_int remain))].

Definition is_int (z : Z) : Prop := INT_MIN <= z <= INT_MAX.

Lemma number_of_int z : is_int z -> number_format (of_int z) = decimal z.
Proof.
  intros Hz. unfold number_format. pose proof (int_finite z Hz) as F. rewrite F. cbn [negb].
  destruct (text_chars 15 (of_int z) F ltac:(lia)) as (_ & (c & l & Ec & _) & _).
  pose proof (text_all 15 (of_int z) F ltac:(lia)) as U. pose proof (int_read z Hz) as R.
  rewrite (int_text z Hz) in *. destruct (strtod (decimal z)) as [d used]. cbn [fst snd] in *.
  destruct (Nat.eqb_spec used 0); [rewrite Ec in U; cbn in U; lia|]. by rewrite R.
Qed.

Lemma length_digits n : forall k z, 0 <= z < 10 ^ Z.of_nat k -> (1 <= k)%nat -> (length (digits_of n z) <= k)%nat.
Proof.
  induction n as [|n IH]; intros k z Hz Hk; cbn [digits_of]; [cbn; lia|].
  destruct (Z.ltb_spec z 10); [cbn; lia|]. rewrite length_app. cbn [length].
  destruct k as [|k]; [lia|]. rewrite Nat2Z.inj_succ, Z.pow_succ_r in Hz by lia.
  destruct k as [|k]; [cbn in Hz; lia|].
  specialize (IH (S k) (z / 10)). assert (length (digits_of n (z / 10)) <= S k)%nat; [|lia].
  apply IH; [split; [apply Z.div_pos; lia|apply Z.div_lt_upper_bound; lia]|lia].
Qed.

Lemma length_decimal z : is_int z -> (length (decimal z) <= 11)%nat.
Proof.
  unfold is_int, INT_MIN, INT_MAX, decimal. intros Hz. destruct (Z.ltb_spec z 0); cbn [length].
  - pose proof (length_digits 20 10 (- z) ltac:(lia) ltac:(lia)). lia.
  - pose proof (length_digits 20 10 z ltac:(lia) ltac:(lia)). lia.
Qed.

(** The text of the metadata. *)
Definition meta_text (status uniq remain : Z) : list Z :=
  123 :: quoted (bytes_of "status") ++ 58 :: decimal status ++ 44 :: quoted (bytes_of "uniq") ++ 58 :: decimal uniq ++
  44 :: quoted (bytes_of "remain") ++ 58 :: decimal remain ++ [125].

Lemma meta_render s u r : is_int s -> is_int u -> is_int r -> render false 0 (meta s u r) = meta_text s u r.
Proof.
  intros Hs Hu Hr. unfold meta, meta_text. cbn [render render_members app cJSON_CreateNumber].
  rewrite !number_of_int by done. change (escaped (bytes_of "status")) with (bytes_of "status").
  change (escaped (bytes_of "uniq")) with (bytes_of "uniq"). change (escaped (bytes_of "remain")) with (bytes_of "remain").
  rewrite app_nil_r. repeat (rewrite <- app_assoc || cbn [app]). done.
Qed.

Lemma length_meta_text s u r : 0 <= s <= 999 -> is_int u -> 0 <= r <= INT_MAX -> zlen (meta_text s u r) <= 53.
Proof.
  intros Hs Hu Hr. unfold meta_text.
  pose proof (length_digits 20 3 s ltac:(cbn; lia) ltac:(lia)) as Ls. pose proof (length_decimal u Hu) as Lu.
  pose proof (length_digits 20 10 r ltac:(unfold INT_MAX in *; cbn; lia) ltac:(lia)) as Lr.
  assert (decimal s = digits_of 20 s) as -> by (unfold decimal; by destruct (Z.ltb_spec s 0); [lia|]).
  assert (decimal r = digits_of 20 r) as -> by (unfold decimal; by destruct (Z.ltb_spec r 0); [lia|]).
  cbn [length]. repeat (rewrite length_app; cbn [length]).
  change (length (quoted (bytes_of "status"))) with 8%nat. change (length (quoted (bytes_of "uniq"))) with 6%nat.
  change (length (quoted (bytes_of "remain"))) with 8%nat. lia.
Qed.

Lemma meta_canonical s u r : 0 <= s <= 999 -> is_int u -> 0 <= r <= INT_MAX -> canonical (meta s u r).
Proof.
  intros Hs Hu Hr. assert (is_int s /\ is_int r) as [Is Ir] by (unfold is_int, INT_MIN, INT_MAX in *; lia). split.
  - exists 1%nat. split; [|lia]. apply pr_object.
    + intros k v Hk. repeat (apply elem_of_cons in Hk as [Hk|Hk]; [injection Hk as -> _; by repeat constructor|]).
      by apply elem_of_nil in Hk.
    + intros k v Hk. unfold cJSON_CreateNumber in Hk.
      repeat (apply elem_of_cons in Hk as [Hk|Hk]; [injection Hk as _ ->; apply pr_number; by apply int_finite|]).
      by apply elem_of_nil in Hk.
  - rewrite meta_render by done. pose proof (length_meta_text s u r Hs Hu Hr). unfold fits, INT_MAX in *. lia.
Qed.

(** Changing the status in the text. *)
Lemma patch_status u r : set_at (meta_text 200 u r ++ [0]) (Z.of_nat 1 + 11) 54 = meta_text 206 u r ++ [0].
Proof. reflexivity. Qed.

Lemma strstr_status u r : strstr (meta_text 200 u r) STATUS_200 = Some 1%nat.
Proof. reflexivity. Qed.

(** The frames of a response cut into [chunks]: each with its metadata, which
    says how much is left, this frame included, and whether more follows. *)
Fixpoint response_frames (uniq : Z) (chunks : list (list Z)) : list (list Z) :=
  match chunks with
  | [] => []
  | c :: cs =>
      (meta_text (if decide (cs = []) then IPC_RESP_OK else IPC_RESP_OK_PARTIAL_DATA) uniq (zlen (concat (c :: cs)))
       ++ 0 :: c) :: response_frames uniq cs
  end.

(** A queue that takes each message within the number of attempts made. *)
Inductive accepting : list mq_sent -> Prop :=
| acc_nil : accepting []
| acc_next k q : (k < RETRY_COUNT)%nat -> accepting q -> accepting (replicate k SendAgain ++ Sent :: q).

Lemma send_accepting q sent frame : accepting q ->
  exists q', ipcSendFrameWithRetry q sent frame = (RESP_RESULT_OK, q', sent ++ [frame]) /\ accepting q'.
Proof.
  unfold ipcSendFrameWithRetry. intros [|k q' Hk A]; [exists []; split; [done|constructor]|]. exists q'. split; [|done].
  revert Hk. generalize RETRY_COUNT. intros n. revert n.
  induction k as [|k IH]; intros [|n] Hk; [lia|done|lia|]. cbn [replicate app send_loop mq_send]. apply IH. lia.
Qed.

(** One frame. *)
Lemma response_round fuel res sent size bytes off uniq q :
  is_int uniq -> 55 <= size -> 0 <= off < zlen bytes -> zlen bytes <= INT_MAX -> accepting q ->
  let rest := drop (Z.to_nat off) bytes in
  exists c q', c <> [] /\ accepting q' /\ rest = c ++ drop (Z.to_nat (off + zlen c)) bytes /\
    let frame := meta_text (if decide (drop (Z.to_nat (off + zlen c)) bytes = []) then IPC_RESP_OK else IPC_RESP_OK_PARTIAL_DATA)
                   uniq (zlen rest) ++ 0 :: c in
    zlen frame <= size /\
    response_loop fill (S fuel) res [] q sent size bytes off (zlen bytes - off) uniq =
    response_loop fill fuel RESP_RESULT_OK [] q' (sent ++ [frame]) size bytes (off + zlen c) (zlen bytes - (off + zlen c)) uniq.
Proof.
  intros Hu Hs Ho Hb Hq rest. cbn [response_loop]. destruct (Z.eqb_spec (zlen bytes - off) 0); [lia|].
  cbn [call_allocs]. set (rem := zlen bytes - off) in *.
  assert (Ir : 0 <= rem <= INT_MAX) by lia.
  assert (Is : is_int rem) by (unfold is_int, INT_MIN, INT_MAX in *; lia).
  assert (Lr : zlen rest = rem) by (subst rest; rewrite length_drop; lia).
  change (createMetaResp [] IPC_RESP_OK uniq (i32 rem)) with (Some (meta 200 uniq (i32 rem))).
  rewrite i32_small by (unfold INT_MAX in *; lia).
  pose proof (meta_canonical 200 uniq rem ltac:(lia) Hu Ir) as C. rewrite canonical_print by done.
  pose proof (canonical_nz _ C) as NZ. rewrite meta_render in NZ by done. rewrite meta_render by done. cbn [mbind ub_bind].
  rewrite !cstr_app by done. pose proof (length_meta_text 200 uniq rem ltac:(lia) Hu Ir) as Lm.
  set (ml := zlen (meta_text 200 uniq rem) + 1) in *. destruct (Z.leb_spec size ml); [lia|].
  set (m := if rem <? size - ml then rem else size - ml).
  assert (Hm : 1 <= m <= rem /\ ml + m <= size) by (subst m; destruct (Z.ltb_spec rem (size - ml)); lia). clearbody m.
  set (c := take (Z.to_nat m) rest). assert (Lc : zlen c = m) by (subst c; rewrite length_take; lia).
  assert (Ed : drop (Z.to_nat (off + m)) bytes = drop (Z.to_nat m) rest) by (subst rest; rewrite drop_drop; f_equal; lia).
  assert (meta_step : (if negb (rem - m =? 0) then match strstr (meta_text 200 uniq rem) STATUS_200 with
             | None => UB | Some i => Def (set_at (meta_text 200 uniq rem ++ [0]) (Z.of_nat i + 11) 54) end
             else Def (meta_text 200 uniq rem ++ [0])) =
          Def (meta_text (if decide (drop (Z.to_nat (off + m)) bytes = []) then IPC_RESP_OK else IPC_RESP_OK_PARTIAL_DATA)
                 uniq rem ++ [0])).
  { pose proof (length_drop rest (Z.to_nat m)) as Ld. rewrite <- Ed in Ld.
    destruct (Z.eqb_spec (rem - m) 0), (decide (drop (Z.to_nat (off + m)) bytes = [])) as [E|E]; cbn [negb].
    - done.
    - destruct (drop (Z.to_nat (off + m)) bytes); [done|cbn in Ld; lia].
    - rewrite E in Ld. cbn in Ld. lia.
    - by rewrite strstr_status, patch_status. }
  rewrite meta_step. cbn [mbind ub_bind]. set (st := if decide _ then _ else _).
  assert (Lst : zlen (meta_text st uniq rem) + 1 = ml) by (subst st ml; by case_decide).
  rewrite (take_ge (meta_text st uniq rem ++ [0])) by (rewrite length_app; cbn [length]; lia).
  fold rest. fold c.
  destruct (send_accepting q sent ((meta_text st uniq rem ++ [0]) ++ c) Hq) as (q' & -> & Hq').
  exists c, q'. split; [intros E; rewrite E in Lc; cbn in Lc; lia|]. split; [done|].
  rewrite Lc. split; [by rewrite Ed; subst c; rewrite take_drop|]. fold st. rewrite Lr.
  split; [rewrite length_app; cbn [length]; lia|].
  rewrite <- (app_assoc (meta_text st uniq rem)). cbn [app]. f_equal. lia.
Qed.

Lemma response_rounds fuel : forall res sent size bytes off uniq q,
  is_int uniq -> 55 <= size -> 0 <= off <= zlen bytes -> zlen bytes <= INT_MAX -> accepting q ->
  (length (drop (Z.to_nat off) bytes) < fuel)%nat ->
  exists chunks q', concat chunks = drop (Z.to_nat off) bytes /\ Forall (fun c => c <> []) chunks /\
    Forall (fun f => zlen f <= size) (response_frames uniq chunks) /\
    response_loop fill fuel res [] q sent size bytes off (zlen bytes - off) uniq =
    Def (RESP_RESULT_OK, q', sent ++ response_frames uniq chunks).
Proof.
  induction fuel as [|fuel IH]; intros res sent size bytes off uniq q Hu Hs Ho Hb Hq F; [lia|].
  destruct (decide (off = zlen bytes)) as [->|].
  { exists [], q. cbn [response_loop response_frames]. rewrite Z.sub_diag, Z.eqb_refl, app_nil_r, drop_ge by lia. done. }
  destruct (response_round fuel res sent size bytes off uniq q Hu Hs ltac:(lia) Hb Hq) as (c & q' & Hc & Hq' & E & Lf & ->).
  pose proof (f_equal length E) as Len. rewrite length_drop, length_app, length_drop in Len.
  assert (1 <= zlen c) by (destruct c; [done|cbn; lia]).
  destruct (IH RESP_RESULT_OK (sent ++ [meta_text (if decide (drop (Z.to_nat (off + zlen c)) bytes = []) then IPC_RESP_OK
      else IPC_RESP_OK_PARTIAL_DATA) uniq (zlen (drop (Z.to_nat off) bytes)) ++ 0 :: c]) size bytes (off + zlen c) uniq q')
    as (cs & q'' & Ec & Fc & Fs & R); [done|done|lia|done|done|rewrite length_drop in *; lia|].
  exists (c :: cs), q''. rewrite R. cbn [concat response_frames]. rewrite Ec, <- E.
  assert (Em : (drop (Z.to_nat (off + zlen c)) bytes = []) <-> cs = []).
  { rewrite <- Ec. split; [|by intros ->]. destruct Fc as [|x cs' Hx _]; [done|]. by destruct x. }
  rewrite (decide_ext _ _ _ _ Em) in *. rewrite <- app_assoc. cbn [app]. eauto 10.
Qed.

End Frames.
End IpcFrames.
