(* ===== verification/IpcService.v ===== *)
(** * The request service (ipcCommunication)

    A request is answered as a whole: joined, parsed, dispatched to its
    command, and the answer cut into frames.  Malformed requests get one frame
    with an error status, except those that run into undefined behaviour. *)

From S2P Require Import Prelude CJson CJsonText CJsonPrint IpcResp Ipc IpcFrames.

Module IpcService.
Import CJson CJsonText CJsonPrint IpcResp Ipc IpcFrames.

#[local] Notation "'zlen' l" := (Z.of_nat (length l)) (at level 10, l at level 9).

Section Service.
Context `{DL : DoubleLaws}.
Context {PR : Process}.
Variable fill : nat -> Z.

(** The command a number stands for. *)
Definition command (cmd : Z) : Z := if (0 <=? cmd) && (cmd <? IPC_CMD_UNKNOWN) then cmd else IPC_CMD_UNKNOWN.

(** A JSON text with the object [req] asking for [cmd]. *)
Definition asks (msg : list Z) (req : cJSON) (cmd : Z) : Prop :=
  (exists n w t, msg = w ++ t /\ ws w /\ jtext n req t /\ (n <= 1000)%nat) /\ cJSON_IsObject req = true /\
  item_number (cJSON_GetObjectItemCaseSensitive req (bytes_of "req")) = Some cmd.

Lemma process_request p msg req cmd p' resp al res :
  asks msg req cmd -> supportedResp fill (command cmd) p [] [] req = Def (p', Some (resp, al)) ->
  ipcProcessRequestAndPrepareResponse fill p [] (msg ++ [0]) res = Def (p', Some resp, res, []).
Proof.
  intros ((n & w & t & -> & W & J & L) & O & R) Sr. unfold ipcProcessRequestAndPrepareResponse. cbn [call_allocs].
  rewrite <- app_assoc.
  rewrite (parse_plain n req t w []) by done. cbn [mbind ub_bind].
  rewrite O, R. cbn [negb]. unfold command in Sr. by rewrite Sr.
Qed.

Lemma respond p msg req cmd p' resp al size uniq out sent :
  asks msg req cmd -> supportedResp fill (command cmd) p [] [] req = Def (p', Some (resp, al)) ->
  canonical resp -> is_int uniq -> 55 <= size -> accepting out ->
  exists chunks q', concat chunks = render false 0 resp /\ Forall (fun c => c <> []) chunks /\
    Forall (fun f => zlen f <= size) (response_frames uniq chunks) /\
    ipcSendSuccessfulResponse fill p [] out sent size (msg ++ [0]) uniq =
    Def (p', (RESP_RESULT_OK, q', sent ++ response_frames uniq chunks)).
Proof.
  intros A Sr C Hu Hs Ho. unfold ipcSendSuccessfulResponse.
  rewrite (process_request p msg req cmd p' resp al) by done. cbn [mbind ub_bind call_allocs].
  rewrite canonical_print by done. cbn [mbind ub_bind alloc fst negb].
  rewrite cstr_app by by apply canonical_nz.
  destruct (response_rounds fill (S (length (render false 0 resp))) RESP_ALLOCATION_ERROR sent size (render false 0 resp) 0 uniq out)
    as (chunks & q' & E & F & Fs & R); [done|done|lia|destruct C as [_ C]; unfold fits in C; lia|done|change (Z.to_nat 0) with 0%nat; rewrite drop_0; lia|].
  rewrite Z.sub_0_r in R. rewrite R. cbn [mbind ub_bind]. by exists chunks, q'.
Qed.


(** ** Errors *)

Lemma send_failed status code uniq size out sent : translateParseStatusToResp status = Def code -> 0 <= code <= 999 ->
  is_int uniq -> 55 <= size -> accepting out ->
  exists q', ipcSendFailedResponse fill [] out sent size status uniq =
    Def (RESP_RESULT_OK, q', sent ++ [meta_text code uniq 0]) /\ accepting q'.
Proof.
  intros E Hc Hu Hs Ho. unfold ipcSendFailedResponse. rewrite E. cbn [mbind ub_bind call_allocs].
  change (createMetaResp [] code uniq 0) with (Some (meta code uniq 0)). cbn match.
  assert (C : canonical (meta code uniq 0)) by (apply meta_canonical; [lia|done|unfold INT_MAX; lia]).
  rewrite canonical_print by done. cbn [mbind ub_bind]. rewrite cstr_app by by apply canonical_nz.
  rewrite meta_render by (done || (unfold is_int, INT_MIN, INT_MAX; lia)).
  pose proof (length_meta_text code uniq 0 ltac:(lia) Hu ltac:(unfold INT_MAX; lia)).
  destruct (Z.leb_spec size (zlen (meta_text code uniq 0))); [lia|].
  rewrite Nat2Z.id, take_app_length.
  destruct (send_accepting out sent (meta_text code uniq 0) Ho) as (q' & -> & Hq'). by exists q'.
Qed.

(** Why a message of the queue is refused, [u] being the identifier known so
    far, and the identifier of the answer. *)
Inductive refused (u : Z) : list Z -> req_parse_status_t -> Z -> Prop :=
| ref_no_nul msg : Forall (fun c => c <> 0) msg -> refused u msg REQ_PARSE_JSON_ERROR u
| ref_no_json msg : 0 ∈ msg -> cJSON_Parse [] msg = Def None -> refused u msg REQ_PARSE_JSON_ERROR u
| ref_no_object n w v t rest : ws w -> jtext n v t -> (n <= 1000)%nat -> cJSON_IsObject v = false ->
    refused u (w ++ t ++ 0 :: rest) REQ_PARSE_JSON_ERROR u
| ref_req n w v t rest : ws w -> jtext n v t -> (n <= 1000)%nat -> cJSON_IsObject v = true ->
    (forall r, item_number (cJSON_GetObjectItemCaseSensitive v (bytes_of "req")) = Some r ->
       r <> META_REQ_JSON /\ r <> META_REQ_JSON_PARTIAL) ->
    refused u (w ++ t ++ 0 :: rest) REQ_PARSE_REQ_ERROR u
| ref_uniq n w v t rest r : ws w -> jtext n v t -> (n <= 1000)%nat -> cJSON_IsObject v = true ->
    item_number (cJSON_GetObjectItemCaseSensitive v (bytes_of "req")) = Some r ->
    r = META_REQ_JSON \/ r = META_REQ_JSON_PARTIAL ->
    item_number (cJSON_GetObjectItemCaseSensitive v (bytes_of "uniq")) = None ->
    refused u (w ++ t ++ 0 :: rest) REQ_PARSE_UNIQ_ERROR u
| ref_no_data j r uniq remain : canonical j -> meta_of j r uniq remain ->
    r = META_REQ_JSON \/ r = META_REQ_JSON_PARTIAL -> u64 remain < SIZE_MAX ->
    refused u (render false 0 j ++ [0]) REQ_PARSE_MISSING_APPVIEW_DATA_ERROR uniq.

Lemma no_nul msg : Forall (fun c => c <> 0) msg -> msgBufIsNULTermPresent msg = false.
Proof. induction 1 as [|c msg Hc F IH]; cbn; [done|]. by destruct (Z.eqb_spec c 0). Qed.

Lemma has_nul msg : 0 ∈ msg -> msgBufIsNULTermPresent msg = true.
Proof. intros (a & b & ->)%list_elem_of_split. apply nul_present. Qed.

Lemma req_known r : r = META_REQ_JSON \/ r = META_REQ_JSON_PARTIAL ->
  negb (r =? META_REQ_JSON) && negb (r =? META_REQ_JSON_PARTIAL) = false.
Proof. by intros [-> | ->]. Qed.

Lemma refused_frame u msg status uniq : refused u msg status uniq ->
  exists remain, ipcParseSingleFrame fill [] msg u SIZE_MAX = Def (mkFrame None status uniq remain, []).
Proof.
  unfold ipcParseSingleFrame.
  destruct 1 as [msg F|msg Hz P|n w v t rest W J L O|n w v t rest W J L O R|n w v t rest r W J L O R Hr U
    |j r uniq remain C (O & R & U & M) Hr Hm].
  - rewrite no_nul by done. by eexists.
  - rewrite has_nul by done. cbn [negb call_allocs]. rewrite P. cbn [mbind ub_bind]. by eexists.
  - rewrite app_assoc, nul_present, <- app_assoc. cbn [negb call_allocs]. rewrite (parse_plain n v t w rest) by done.
    cbn [mbind ub_bind]. rewrite O. cbn [negb]. by eexists.
  - rewrite app_assoc, nul_present, <- app_assoc. cbn [negb call_allocs]. rewrite (parse_plain n v t w rest) by done.
    cbn [mbind ub_bind]. rewrite O. cbn [negb]. destruct (item_number _) as [r|]; [|by eexists].
    destruct (R r eq_refl). destruct (Z.eqb_spec r META_REQ_JSON), (Z.eqb_spec r META_REQ_JSON_PARTIAL); try done. by eexists.
  - rewrite app_assoc, nul_present, <- app_assoc. cbn [negb call_allocs]. rewrite (parse_plain n v t w rest) by done.
    cbn [mbind ub_bind]. rewrite O, R, req_known, U by done. cbn [negb]. by eexists.
  - rewrite nul_present. cbn [negb call_allocs]. rewrite canonical_parse by done. cbn [mbind ub_bind].
    rewrite O, R, req_known, U, M by done. cbn [negb]. destruct (Z.leb_spec SIZE_MAX (u64 remain)); [lia|].
    rewrite canonical_print by done. cbn [mbind ub_bind]. rewrite cstr_app by by apply canonical_nz.
    rewrite length_app. cbn [length].
    destruct (Z.leb_spec (Z.of_nat (length (render false 0 j) + 1)) (zlen (render false 0 j) + 1)); [|lia]. by eexists.
Qed.

(** How a request ends without an answer: what is left in the queue, the status
    of the answer and its identifier. *)
Inductive stops (u : Z) : list mq_received -> Z -> Z -> Prop :=
| stop_timeout q : Forall (fun r => r = RecvAgain) (take RETRY_COUNT q) -> stops u q IPC_RESP_SERVER_ERROR u
| stop_error k q : (k < RETRY_COUNT)%nat -> stops u (replicate k RecvAgain ++ RecvError :: q) IPC_RESP_SERVER_ERROR u
| stop_refused k msg q status uniq : (k < RETRY_COUNT)%nat -> refused u msg status uniq ->
    stops u (arrives k msg ++ q) IPC_BAD_REQUEST uniq.

Lemma receive_timeout q : Forall (fun r => r = RecvAgain) (take RETRY_COUNT q) ->
  exists q', ipcReceiveFrameWithRetry q = (MSG_RECV_RETRY_LIMIT, [], q').
Proof.
  unfold ipcReceiveFrameWithRetry. generalize RETRY_COUNT. intros n. revert q.
  induction n as [|n IH]; intros q F; [by exists q|]. cbn [receive_loop].
  destruct q as [|r q]; cbn [mq_receive]; [apply IH; rewrite take_nil; constructor|].
  cbn [take] in F. apply Forall_cons in F as [-> F]. by apply IH.
Qed.

Lemma receive_error k q : (k < RETRY_COUNT)%nat ->
  ipcReceiveFrameWithRetry (replicate k RecvAgain ++ RecvError :: q) = (MSG_RECV_OTHER, [], q).
Proof.
  unfold ipcReceiveFrameWithRetry. generalize RETRY_COUNT. intros n. revert n.
  induction k as [|k IH]; intros [|n] Hk; [lia|done|lia|]. cbn [replicate app receive_loop mq_receive]. apply IH. lia.
Qed.

Lemma stops_loop u q code uniq fuel msgRes : stops u q code uniq ->
  exists status q', request_loop fill (S fuel) [] q msgRes u = Def (None, status, uniq, q') /\
  translateParseStatusToResp status = Def code /\ 400 <= code <= 500 /\ status <> REQ_PARSE_OK.
Proof.
  intros [q' F|k q' Hk|k msg q' status uniq' Hk R]; cbn [request_loop].
  - destruct (receive_timeout q' F) as (q'' & ->). by eexists _, _.
  - rewrite receive_error by done. by eexists _, _.
  - rewrite receive_arrives by done. pose proof (refused_frame u msg status uniq' R) as (remain & ->).
    cbn [mbind ub_bind appviewMsg uniqVal parseStatus]. eexists status, q'. split; [done|].
    by destruct R.
Qed.

(** C34: a request whose frames are good partial ones up to some point (their
    parts within the limit for requests) and then fails in one of the following
    ways is answered with a single frame, which has no message, and the process
    is unchanged - with memory, a queue for answers that takes messages of at
    least 55 bytes, and an identifier that is an int.  Status 500 and the identifier of the last good frame (-1 if
    there is none): no frame arrives within the attempts made, or the queue
    reports an error.  Status 400 and that identifier: a frame without a
    terminator, one whose text cJSON does not parse, a JSON text that is no
    object, an object whose "req" is missing, no number or neither of the two
    known values, one with a known "req" whose "uniq" is missing or no number.
    Status 400 and the identifier of the frame itself: metadata with all fields,
    written as the printer writes it, and nothing after its terminator.  These
    are all the forms of [refused]; a frame without "remain" is not among them,
    since [missing_remain_undefined] shows that it has no answer. *)
Theorem ipc_request_refused fs q code uniq msgCount p size out :
  Forall (part_ok META_REQ_JSON_PARTIAL) fs -> zlen (concat (map part fs) ++ [0]) <= INPUT_MSG_ALLOC_LIMIT ->
  stops (last_uniq (-1) fs) q code uniq -> 0 < msgCount -> is_int uniq -> 55 <= size -> accepting out ->
  ipcCommunication fill true p [] [] (Some (msgCount, queue_of fs ++ q)) (Some (size, out)) =
  Def (p, [meta_text code uniq 0]).
Proof.
  intros F L St M Hu Hs Ho. unfold ipcCommunication. cbn [negb]. destruct (Z.leb_spec msgCount 0); [lia|].
  destruct (handler_frames fill fs q (-1) F L) as (fuel & ->).
  destruct (stops_loop _ _ _ _ fuel (so_far fs) St) as (status & q' & -> & T & Hc & Hok). cbn [mbind ub_bind].
  rewrite decide_False by done.
  destruct (send_failed status code uniq size out [] T ltac:(lia) Hu Hs Ho) as (q2 & -> & _). done.
Qed.

(** ** Undefined behaviour *)

(** A frame without the field "remain" leads to the status
    REQ_PARSE_REMAIN_ERROR, for which [translateParseStatusToResp] reaches
    [__builtin_unreachable()]. *)
Theorem missing_remain_undefined k n w v t rest r uniq q msgCount p size out :
  (k < RETRY_COUNT)%nat -> ws w -> jtext n v t -> (n <= 1000)%nat -> cJSON_IsObject v = true ->
  item_number (cJSON_GetObjectItemCaseSensitive v (bytes_of "req")) = Some r ->
  r = META_REQ_JSON \/ r = META_REQ_JSON_PARTIAL ->
  item_number (cJSON_GetObjectItemCaseSensitive v (bytes_of "uniq")) = Some uniq ->
  item_number (cJSON_GetObjectItemCaseSensitive v (bytes_of "remain")) = None -> 0 < msgCount ->
  ipcCommunication fill true p [] [] (Some (msgCount, arrives k (w ++ t ++ 0 :: rest) ++ q)) (Some (size, out)) = UB.
Proof.
  intros Hk W J L O R Hr U M Hc. unfold ipcCommunication. cbn [negb]. destruct (Z.leb_spec msgCount 0); [lia|].
  unfold ipcRequestHandler. cbn [call_allocs alloc fst negb request_loop]. rewrite receive_arrives by done.
  unfold ipcParseSingleFrame. rewrite app_assoc, nul_present, <- app_assoc. cbn [negb call_allocs].
  rewrite (parse_plain n v t w rest) by done. cbn [mbind ub_bind]. rewrite O, R, req_known, U, M by done. done.
Qed.

(** The part of a message in its last frame need not be terminated: the request
    is then parsed beyond its end. *)
Theorem unterminated_request_undefined k j uniq remain chunk q msgCount p size out :
  (k < RETRY_COUNT)%nat -> canonical j -> meta_of j META_REQ_JSON uniq remain -> u64 remain < SIZE_MAX ->
  Forall (fun c => c <> 0) chunk -> chunk <> [] -> 0 < msgCount ->
  ipcCommunication fill true p [] [] (Some (msgCount, arrives k (render false 0 j ++ 0 :: chunk) ++ q)) (Some (size, out)) = UB.
Proof.
  intros Hk C M Hm F N Hc.
  assert (E : ipcRequestHandler fill [] (arrives k (render false 0 j ++ 0 :: chunk) ++ q) (-1) =
          Def (Some chunk, REQ_PARSE_OK, uniq, q)).
  { unfold ipcRequestHandler. cbn [call_allocs alloc fst negb request_loop]. rewrite receive_arrives by done.
    by rewrite (parse_frame_data fill j chunk META_REQ_JSON uniq remain) by (done || by left). }
  unfold ipcCommunication. cbn [negb]. destruct (Z.leb_spec msgCount 0); [lia|]. rewrite E. cbn [mbind ub_bind].
  rewrite decide_True by done.
  unfold ipcSendSuccessfulResponse, ipcProcessRequestAndPrepareResponse, cJSON_Parse. cbn [call_allocs].
  assert (c_string chunk = None) as ->; [|done].
  clear -F. induction F as [|c l Hc F IH]; [done|]. cbn [c_string]. destruct (Z.eqb_spec c 0); [done|]. by rewrite IH.
Qed.

End Service.

(** ** Examples *)

#[local] Existing Instance integral.
#[local] Existing Instance integral_laws.

(** A process that only knows whether its functions are attached. *)
#[local] Instance plain_process : Process := {|
  process := bool; funcs_attached b := b; pid _ := 7; uuid _ := bytes_of "u"; id _ := bytes_of "i";
  machine_id _ := bytes_of "m"; jsonConfigurationObject _ := None; doAndReplaceConfig p _ := negb p;
  payloadTransportEnabled _ := false; criblTransportEnabled _ := false; eventsTransportEnabled _ := true;
  metricTransportEnabled _ := true; logTransportStatus _ := mkStatus [] true 0 None;
  payloadTransportStatus _ := mkStatus [] true 0 None; eventsTransportStatus _ := mkStatus [] true 0 None;
  metricsTransportStatus _ := mkStatus [] false 3 None;
|}.

Definition request_meta (req uniq remain : Z) : cJSON :=
  cJSON_Object [(bytes_of "req", cJSON_CreateNumber (of_int req)); (bytes_of "uniq", cJSON_CreateNumber (of_int uniq));
                (bytes_of "remain", cJSON_CreateNumber (of_int remain))].

#[local] Ltac each_of H := repeat (apply elem_of_cons in H as [H|H]; [injection H as -> ->|]); [..|by apply elem_of_nil in H].

Lemma request_part k req remain chunk : (k < RETRY_COUNT)%nat -> 0 <= req <= 1 -> 0 <= remain <= 99 ->
  part_ok req (mkPart k (request_meta req 5 remain) chunk).
Proof.
  intros Hk Hr Hm. split; [done|]. split.
  - split.
    + exists 1%nat. split; [|lia]. apply pr_object; intros x v Hv; each_of Hv; (by repeat constructor) || (apply pr_number, Z.ltb_lt; cbn; lia).
    + assert (forallb (fun r => forallb (fun m => zlen (render false 0 (request_meta r 5 m)) <=? 40) (seqZ 0 100)) (seqZ 0 2) = true)
        as E by (vm_compute; reflexivity).
      pose proof (below_cases _ 2 E req ltac:(lia)) as E1. pose proof (below_cases _ 100 E1 remain ltac:(lia)) as E2.
      apply Z.leb_le in E2. unfold fits, INT_MAX. cbn [metadata]. lia.
  - exists 5, remain. assert (V : forall z, 0 <= z <= 99 -> valueint_of z = z).
    { intros z Hz. unfold valueint_of, dle, of_int, trunc, integral, INT_MAX, INT_MIN. destruct (Z.leb_spec 2147483647 z); [lia|].
      destruct (Z.leb_spec z (-2147483648)); [lia|done]. }
    split; [|unfold SIZE_MAX; rewrite u64_small; lia].
    split; [done|]. split; [|split].
    + transitivity (Some (valueint_of req)); [reflexivity|by rewrite V by lia].
    + transitivity (Some (valueint_of 5)); [reflexivity|by rewrite V by lia].
    + transitivity (Some (valueint_of remain)); [reflexivity|by rewrite V by lia].
Qed.

Definition attached : @process integral plain_process := true.

(** A request in two frames, [{"req" : 1}], for whether the functions are attached. *)
Definition first_part : request_frame := mkPart 3 (request_meta 1 5 12) (123 :: quoted (bytes_of "req")).
Definition last_part : request_frame := mkPart 0 (request_meta 0 5 6) (bytes_of " : 1}").

Lemma two_parts : Forall (part_ok META_REQ_JSON_PARTIAL) [first_part] /\ part_ok META_REQ_JSON last_part.
Proof. split; [constructor; [|constructor]|]; apply request_part; (unfold RETRY_COUNT; lia). Qed.

Definition status_answer : cJSON :=
  cJSON_Object [(bytes_of "status", cJSON_CreateNumber (of_int 200)); (bytes_of "viewed", cJSON_True)].


Lemma ipc_request_refused_witness :
  ipcCommunication (fun _ => 170) true attached [] [] (Some (2, queue_of [first_part] ++ arrives 0 [91; 93; 0])) (Some (60, [])) =
  Def (attached, [meta_text 400 5 0]).
Proof.
  apply (ipc_request_refused (fun _ => 170) [first_part] (arrives 0 [91; 93; 0]) IPC_BAD_REQUEST 5 2 attached 60 []).
  - apply two_parts.
  - vm_compute. congruence.
  - apply (stop_refused _ 0 [91; 93; 0] [] REQ_PARSE_JSON_ERROR); [unfold RETRY_COUNT; lia|].
    apply (ref_no_object _ 1 [] (cJSON_Array []) [91; 93] []); [constructor|by apply (jt_no_items 0 []); constructor|lia|done].
  - lia.
  - vm_compute. split; congruence.
  - lia.
  - constructor.
Defined.

(** When a descriptor of the list of commands cannot be allocated, the error
    path deletes a pointer that was never set, or the same array twice. *)
Example commands_error_path_undefined :
  ipcRespGetAppViewCmds (replicate 4 true ++ [false]) = UB /\
  ipcRespGetAppViewCmds (replicate 16 true ++ [false]) = UB.
Proof. split; reflexivity. Qed.

(** When the metadata of a later frame cannot be allocated, the response is cut
    short and reported as sent. *)
Example cut_response_reported_ok :
  exists frame, ipcSendSuccessfulResponse (fun _ => 170) attached [[]; []; []; []; []; []; []; [false]] [] [] 50
    (123 :: quoted (bytes_of "req") ++ bytes_of ":0}" ++ [0]) 5 = Def (attached, (RESP_RESULT_OK, [], [frame])).
Proof. eexists. vm_compute. reflexivity. Qed.

End IpcService.
