(* ===== verification/IpcSafe.v ===== *)
(** * The request handler on arbitrary messages

    Whatever is in the queue, the handler returns: with a message exactly when
    its status says so. *)

From S2P Require Import Prelude CJson CJsonText CJsonPrint CJsonSafe IpcResp Ipc IpcFrames.

Module IpcSafe.
Import CJson CJsonPrint CJsonSafe IpcResp Ipc IpcFrames.

#[local] Notation "'zlen' l" := (Z.of_nat (length l)) (at level 10, l at level 9).

(** The largest message a queue can hold on Linux (HARD_MSGSIZEMAX). *)
Definition MSGSIZE_MAX : Z := 16777216.

Definition received_ok (r : mq_received) : Prop :=
  match r with Message msg => is_bytes msg /\ zlen msg <= MSGSIZE_MAX | _ => True end.

Section Safe.
Context `{DL : DoubleLaws}.
Variable fill : nat -> Z.

Lemma nul_in msg : msgBufIsNULTermPresent msg = true -> 0 ∈ msg.
Proof.
  induction msg as [|c msg IH]; cbn; [done|]. destruct (Z.eqb_spec c 0) as [->|]; [by left|]. intros M. right. by apply IH.
Qed.

(** The outcome of a frame: an error or a part of the message. *)
Definition frame_outcome (f : parsed_frame) : Prop :=
  match appviewMsg f with
  | None => parseStatus f <> REQ_PARSE_OK /\ parseStatus f <> REQ_PARSE_PARTIAL
  | Some data => data <> [] /\ (parseStatus f = REQ_PARSE_OK \/ parseStatus f = REQ_PARSE_PARTIAL)
  end.

Lemma frame_total msg u remain : is_bytes msg -> zlen msg <= MSGSIZE_MAX ->
  exists f, ipcParseSingleFrame fill [] msg u remain = Def (f, []) /\ frame_outcome f.
Proof.
  intros B Lm. unfold ipcParseSingleFrame. destruct (msgBufIsNULTermPresent msg) eqn:N; cbn [negb]; [|by eexists].
  cbn [call_allocs]. destruct (parse_returns msg [] B (nul_in msg N)) as (o & -> & Ho). cbn [mbind ub_bind].
  destruct o as [j|]; [|by eexists]. destruct (Ho j eq_refl) as [Bj Lj].
  destruct (negb (cJSON_IsObject j)); [by eexists|].
  destruct (item_number (cJSON_GetObjectItemCaseSensitive j (bytes_of "req"))) as [req|]; [|by eexists].
  destruct (negb (req =? META_REQ_JSON) && negb (req =? META_REQ_JSON_PARTIAL)); [by eexists|].
  destruct (item_number (cJSON_GetObjectItemCaseSensitive j (bytes_of "uniq"))) as [uniq|]; [|by eexists].
  destruct (item_number (cJSON_GetObjectItemCaseSensitive j (bytes_of "remain"))) as [rem|]; [|by eexists].
  destruct (remain <=? u64 rem); [by eexists|]. unfold cJSON_PrintUnformatted.
  rewrite print_render; [|done|specialize (Lj 0%nat); unfold fits, INT_MAX, MSGSIZE_MAX in *; lia]. cbn [mbind ub_bind].
  rewrite cstr_app by by apply render_nz. destruct (Z.leb_spec (zlen msg) (zlen (render false 0 j) + 1)); [by eexists|].
  cbn [alloc fst negb]. eexists. split; [reflexivity|]. unfold frame_outcome. cbn [appviewMsg parseStatus]. split.
  - intros E. apply (f_equal length) in E. rewrite length_drop in E. cbn [length] in E. lia.
  - destruct (req =? META_REQ_JSON_PARTIAL); auto.
Qed.

(** What is taken from the queue. *)
Lemma receive_total n : forall q, Forall received_ok q ->
  exists res msg q', receive_loop n q = (res, msg, q') /\ Forall received_ok q' /\
  (res = MSG_RECV_OK -> is_bytes msg /\ zlen msg <= MSGSIZE_MAX /\ (length q' < length q)%nat).
Proof.
  induction n as [|n IH]; intros q F; cbn [receive_loop]; [by eexists _, _, _|].
  destruct q as [|[msg| |] q]; cbn [mq_receive].
  - destruct (IH [] F) as (res & msg & q' & E & F' & H'). rewrite E. eexists _, _, _. split; [done|]. split; [done|].
    intros R. destruct (H' R) as (_ & _ & L). cbn in L. lia.
  - apply Forall_cons in F as [[Bm Lm] F]. eexists _, _, _. split; [done|]. split; [done|]. intros _. cbn [length]. auto with lia.
  - apply Forall_cons in F as [_ F]. destruct (IH q F) as (res & msg & q' & E & F' & H'). rewrite E.
    eexists _, _, _. split; [done|]. split; [done|]. intros R. destruct (H' R) as (? & ? & L). cbn [length]. auto with lia.
  - apply Forall_cons in F as [_ F]. by eexists _, _, _.
Qed.

Lemma append_outcome ok msg frame : match appviewMsgAppend ok msg frame with
  | inl _ => True
  | inr s => s <> REQ_PARSE_OK /\ s <> REQ_PARSE_PARTIAL
  end.
Proof. unfold appviewMsgAppend. destruct (_ <? _), ok; cbn; done. Qed.

Lemma request_total fuel : forall q msgRes u, Forall received_ok q -> (length q < fuel)%nat ->
  exists r, request_loop fill fuel [] q msgRes u = Def r /\
    match r with (Some _, s, _, _) => s = REQ_PARSE_OK | (None, s, _, _) => s <> REQ_PARSE_OK /\ s <> REQ_PARSE_PARTIAL end.
Proof.
  induction fuel as [|fuel IH]; intros q msgRes u F L; [lia|]. cbn [request_loop].
  unfold ipcReceiveFrameWithRetry. destruct (receive_total RETRY_COUNT q F) as (res & msg & q' & -> & F' & R).
  destruct res; [by eexists|by eexists|]. destruct (R eq_refl) as (Bm & Lm & Lq).
  destruct (frame_total msg u SIZE_MAX Bm Lm) as (f & -> & Hf). cbn [mbind ub_bind]. unfold frame_outcome in Hf.
  destruct (appviewMsg f) as [frame|]; [|by eexists]. destruct Hf as [_ Hs]. cbn [call_allocs alloc fst].
  set (joined := match msgRes with None => _ | Some m => _ end).
  assert (J : match joined with inl _ => True | inr s => s <> REQ_PARSE_OK /\ s <> REQ_PARSE_PARTIAL end).
  { subst joined. destruct msgRes as [m|]; [apply append_outcome|done]. }
  destruct joined as [m|s]; [|by eexists].
  destruct Hs as [-> | ->]; case_decide; try done; [by eexists|]. apply IH; [done|lia].
Qed.

(** C35: whatever messages of bytes are in the queue, and however often it is
    empty or fails, the handler reads every frame inside its buffers and
    returns, after at most as many frames as there are messages: with a message
    if its status is REQ_PARSE_OK, and without one if it is an error. *)
Theorem ipc_handler_total q u : Forall received_ok q ->
  exists msg status uniq q', ipcRequestHandler fill [] q u = Def (msg, status, uniq, q') /\
  (is_Some msg <-> status = REQ_PARSE_OK) /\ status <> REQ_PARSE_PARTIAL.
Proof.
  intros F. unfold ipcRequestHandler. cbn [call_allocs alloc fst negb].
  destruct (request_total (S (length q)) q None u F ltac:(lia)) as ([[[msg status] uniq] q'] & -> & H').
  exists msg, status, uniq, q'. split; [done|]. destruct msg as [m|].
  - subst status. split; [split; [done|by eexists]|done].
  - destruct H' as [Hs Hp]. split; [|done]. split; [by intros [x Hx]|done].
Qed.

End Safe.

#[local] Existing Instance integral.
#[local] Existing Instance integral_laws.

Lemma ipc_handler_total_witness :
  exists msg status uniq q', ipcRequestHandler (fun _ => 170) [] [RecvAgain; Message odd_escapes; RecvError] (-1) =
    Def (msg, status, uniq, q') /\ (is_Some msg <-> status = REQ_PARSE_OK) /\ status <> REQ_PARSE_PARTIAL.
Proof.
  apply (ipc_handler_total (fun _ => 170) [RecvAgain; Message odd_escapes; RecvError] (-1)).
  repeat constructor; cbn; unfold is_byte, MSGSIZE_MAX; lia.
Defined.

End IpcSafe.
