(* ===== verification/Sys.v ===== *)
(** * Descriptors, memory and system calls

    What the transports use of the operating system and of the C library: the
    table of open descriptors of the process, the blocks of the heap, and the
    calls that act on them.  Whether a call succeeds is not determined by this
    state: the world carries a script of answers, one for each call that has a
    choice, and when it has run out the calls succeed.  Every such call is
    recorded with its answer.

    Descriptors follow POSIX: a new descriptor is the lowest free one below the
    limit of the process, dup2 opens the descriptor it is told to, F_GETFD fails
    exactly on a descriptor that is not open.  A release of a block that is not
    allocated is undefined behaviour. *)

From S2P Require Import Prelude.

Module Sys.

(** ** Answers *)

Inductive addrfam := AF_INET | AF_INET6 | AF_OTHER (n : Z).

(** An entry of an address list; the address itself is opaque. *)
Record addrinfo := mkAddr { ai_family : addrfam; ai_addr : Z }.

Inductive answer :=
  | Ok                          (* the whole of what was asked for *)
  | Val (n : Z)                 (* a particular result *)
  | Part (n errno : Z)          (* a result with an error *)
  | Err (errno : Z)             (* -1 or NULL, and errno *)
  | Addrs (l : list addrinfo).  (* the addresses of a host *)

(** The calls that have a choice. *)
Inductive call :=
  | CAlloc
  | CSocket
  | COpen (path : string)
  | CFdopen (fd : Z)
  | CDup2 (fd i : Z)
  | CSetfd (fd : Z)
  | CGetfl (fd : Z)
  | CSetfl (fd : Z)
  | CConnect (fd addr : Z)
  | CConnectUnix (fd : Z) (sun_path : list Z) (addr_len : Z)
  | CSelect (fd : Z)
  | CGetsockopt (fd : Z)
  | CSetsockopt (fd : Z)
  | CPoll (fd : Z)
  | CGetpeername (fd : Z)
  | CGetaddrinfo
  | CCopyaddrinfo
  | CSend (fd : Z) (msg : list Z)
  | CWrite (fd : Z) (msg : list Z)
  | CFlush (fd : option Z)
  | CFchmod (fd : Z)
  | CSetvbuf (fd : Z) (mode : Z)
  | CAccess (path : string)
  | CRand
  | CSslLoad (path : option string)
  | CSslSetFd (fd : Z)
  | CSslConnect
  | CSslPeer
  | CSslVerify
  | CSslShutdown
  | CSslQuiet
  | CSslWrite (msg : list Z).

#[export] Instance addrfam_eq_dec : EqDecision addrfam.
Proof. solve_decision. Defined.

(** ** The world *)

(** The flags of a descriptor. *)
Record desc := mkDesc { cloexec : bool; nonblock : bool }.

Record world := mkWorld {
  fds : gmap Z desc;                          (* open descriptors *)
  rlimit : Z;                                 (* RLIMIT_NOFILE *)
  heap : gset Z;                              (* allocated blocks *)
  brk : Z;                                    (* addresses from here on are unused *)
  script : list answer;
  trace : list (call * answer);               (* latest first *)
  next_fd_to_try : Z;                         (* static of placeDescriptor *)
  g_cached_addr : option (Z * list addrinfo);
  env_CRIBL_HOME : option string;
}.

Definition set_fds (w : world) (f : gmap Z desc) : world :=
  mkWorld f (rlimit w) (heap w) (brk w) (script w) (trace w) (next_fd_to_try w) (g_cached_addr w) (env_CRIBL_HOME w).
Definition set_heap (w : world) (h : gset Z) (b : Z) : world :=
  mkWorld (fds w) (rlimit w) h b (script w) (trace w) (next_fd_to_try w) (g_cached_addr w) (env_CRIBL_HOME w).
Definition set_script (w : world) (s : list answer) (t : list (call * answer)) : world :=
  mkWorld (fds w) (rlimit w) (heap w) (brk w) s t (next_fd_to_try w) (g_cached_addr w) (env_CRIBL_HOME w).
Definition set_next_fd (w : world) (n : Z) : world :=
  mkWorld (fds w) (rlimit w) (heap w) (brk w) (script w) (trace w) n (g_cached_addr w) (env_CRIBL_HOME w).
Definition set_cached (w : world) (c : option (Z * list addrinfo)) : world :=
  mkWorld (fds w) (rlimit w) (heap w) (brk w) (script w) (trace w) (next_fd_to_try w) c (env_CRIBL_HOME w).

(** ** Code that acts on the world *)

Definition M (A : Type) : Type := world -> ub (A * world).

Definition ret {A} (a : A) : M A := fun w => Def (a, w).
Definition bind {A B} (m : M A) (f : A -> M B) : M B := fun w =>
  match m w with Def (a, w') => f a w' | UB => UB end.

Declare Scope sys_scope.
Delimit Scope sys_scope with sys.
Notation "x ← m ; k" := (bind m (fun x => k))
  (at level 20, m at level 100, k at level 200) : sys_scope.
Notation "' x ← m ; k" := (bind m (fun x => k))
  (at level 20, x pattern, m at level 100, k at level 200, only parsing) : sys_scope.
Open Scope sys_scope.

Definition undefined {A} : M A := fun _ => UB.
Definition get {A} (f : world -> A) : M A := fun w => Def (f w, w).
Definition modify (f : world -> world) : M unit := fun w => Def (tt, f w).

Definition ask (c : call) : M answer := fun w =>
  let a := hd Ok (script w) in Def (a, set_script w (tl (script w)) ((c, a) :: trace w)).

Definition succeeds (a : answer) : bool := match a with Err _ => false | _ => true end.

(** ** Memory *)

(** A pointer to a string: the block and what it holds. *)
Definition cstr : Type := option (Z * string).

Definition new_block : M Z :=
  b ← get brk; _ ← modify (fun w => set_heap w ({[b]} ∪ heap w) (b + 1)); ret b.

Definition alloc : M (option Z) :=
  a ← ask CAlloc;
  if succeeds a then b ← new_block; ret (Some b) else ret None.

Definition free (b : Z) : M unit := fun w =>
  if decide (b ∈ heap w) then Def (tt, set_heap w (heap w ∖ {[b]}) (brk w)) else UB.

Definition strdup (s : string) : M cstr :=
  p ← alloc; ret ((fun b => (b, s)) <$> p).

(** [if (p) appview_free(p)] *)
Definition free_str (p : cstr) : M unit := match p with Some (b, _) => free b | None => ret tt end.
Definition free_ptr (p : option Z) : M unit := match p with Some b => free b | None => ret tt end.

(** ** Descriptors *)

Definition is_open (w : world) (fd : Z) : bool := bool_decide (is_Some (fds w !! fd)).

Definition lowest_free (w : world) : option Z :=
  List.find (fun i => negb (is_open w i)) (seqZ 0 (rlimit w)).

Definition new_fd (c : call) (flags : desc) : M Z :=
  a ← ask c;
  free ← get lowest_free;
  match free with
  | Some i => if succeeds a then _ ← modify (fun w => set_fds w (<[i := flags]> (fds w))); ret i
              else ret (-1)
  | None => ret (-1)
  end.

Definition socket : M Z := new_fd CSocket (mkDesc false false).
(** [open(path, O_CREAT|O_WRONLY|O_APPEND|O_CLOEXEC, 0666)] *)
Definition open (path : string) : M Z := new_fd (COpen path) (mkDesc true false).

Definition close (fd : Z) : M unit := modify (fun w => set_fds w (delete fd (fds w))).

(** [fcntl(fd, F_GETFD)]: the flag, or -1 with EBADF. *)
Definition fcntl_getfd (fd : Z) : M Z :=
  d ← get (fun w => fds w !! fd);
  ret (match d with Some d => Z.b2z (cloexec d) | None => -1 end).

(** [fcntl(fd, F_SETFD, flags)] *)
Definition fcntl_setfd (fd flags : Z) : M Z :=
  a ← ask (CSetfd fd);
  d ← get (fun w => fds w !! fd);
  match d with
  | Some d => if succeeds a
              then _ ← modify (fun w => set_fds w (<[fd := mkDesc (Z.testbit flags 0) (nonblock d)]> (fds w))); ret 0
              else ret (-1)
  | None => ret (-1)
  end.

Definition O_RDWR : Z := 2.
Definition O_NONBLOCK : Z := 2048.
Definition FD_CLOEXEC : Z := 1.

(** [fcntl(fd, F_GETFL)] and [fcntl(fd, F_SETFL, flags)] *)
Definition fcntl_getfl (fd : Z) : M Z :=
  a ← ask (CGetfl fd);
  d ← get (fun w => fds w !! fd);
  ret (match d with
        | Some d => if succeeds a then Z.lor O_RDWR (if nonblock d then O_NONBLOCK else 0) else -1
        | None => -1
        end).
Definition fcntl_setfl (fd flags : Z) : M Z :=
  a ← ask (CSetfl fd);
  d ← get (fun w => fds w !! fd);
  match d with
  | Some d => if succeeds a
              then _ ← modify (fun w => set_fds w (<[fd := mkDesc (cloexec d) (Z.testbit flags 11)]> (fds w))); ret 0
              else ret (-1)
  | None => ret (-1)
  end.

(** [dup2(fd, i)]: the copy shares the status flags and is not close-on-exec. *)
Definition dup2 (fd i : Z) : M Z :=
  a ← ask (CDup2 fd i);
  d ← get (fun w => fds w !! fd);
  limit ← get rlimit;
  match d with
  | Some d => if succeeds a && (0 <=? i) && (i <? limit)
              then _ ← modify (fun w => set_fds w (<[i := mkDesc false (nonblock d)]> (fds w))); ret i
              else ret (-1)
  | None => ret (-1)
  end.

(** ** Waiting, connecting and sending: the result and errno *)

Definition FD_SETSIZE : Z := 1024.

(** [FD_SET(fd, &set)] writes bit [fd] of an array of 1024 bits; then
    [select()] on that descriptor. *)
Definition select (fd : Z) : M (Z * Z) :=
  if (fd <? 0) || (FD_SETSIZE <=? fd) then undefined else
  a ← ask (CSelect fd);
  ret (match a with Err e => (-1, e) | Val n => (Z.max 0 n, 0) | _ => (1, 0) end).

Definition connect (c : call) : M (Z * Z) :=
  a ← ask c;
  ret (match a with Err e => (-1, e) | _ => (0, 0) end).

(** The kernel transfers at most 0x7ffff000 bytes in one call. *)
Definition SEND_MAX : Z := 2147479552.

Definition accepted (a : answer) (len : Z) : Z :=
  match a with
  | Val n | Part n _ => Z.max 0 (Z.min n (Z.min len SEND_MAX))
  | _ => Z.min len SEND_MAX
  end.

Definition send (fd : Z) (msg : list Z) : M (Z * Z) :=
  a ← ask (CSend fd msg);
  ret (match a with Err e => (-1, e) | _ => (accepted a (Z.of_nat (length msg)), 0) end).

(** ** Reasoning about runs: [m] returns from [w] and its result satisfies [Q]. *)

Definition wp {A} (m : M A) (Q : A -> world -> Prop) (w : world) : Prop :=
  match m w with Def (a, w') => Q a w' | UB => False end.

Lemma wp_mono {A} (m : M A) (Q R : A -> world -> Prop) w :
  wp m Q w -> (forall a w', Q a w' -> R a w') -> wp m R w.
Proof. unfold wp. destruct (m w) as [[a w']|]; auto. Qed.

Lemma wp_ret {A} (a : A) (Q : A -> world -> Prop) w : Q a w -> wp (ret a) Q w.
Proof. done. Qed.

Lemma wp_bind {A B} (m : M A) (f : A -> M B) (Q : B -> world -> Prop) w :
  wp m (fun a => wp (f a) Q) w -> wp (bind m f) Q w.
Proof. unfold wp, bind. by destruct (m w) as [[a w']|]. Qed.

(** A step whose result is known to satisfy [P]. *)
Lemma wp_step {A B} (m : M A) (f : A -> M B) (P : A -> world -> Prop) (Q : B -> world -> Prop) w :
  wp m P w -> (forall a w', P a w' -> wp (f a) Q w') -> wp (bind m f) Q w.
Proof. intros H1 H2. apply wp_bind. by eapply wp_mono. Qed.

Lemma wp_get {A B} (g : world -> A) (f : A -> M B) (Q : B -> world -> Prop) w :
  wp (f (g w)) Q w -> wp (bind (get g) f) Q w.
Proof. done. Qed.

Lemma wp_modify {B} (g : world -> world) (f : unit -> M B) (Q : B -> world -> Prop) w :
  wp (f tt) Q (g w) -> wp (bind (modify g) f) Q w.
Proof. done. Qed.

(** What a run that satisfies [Q] computes. *)
Lemma wp_run {A} (m : M A) (Q : A -> world -> Prop) w : wp m Q w -> exists a w', m w = Def (a, w') /\ Q a w'.
Proof. unfold wp. destruct (m w) as [[a w']|]; [eauto|done]. Qed.

End Sys.
