(* ===== verification/Transport.v ===== *)
(** * The transports (src/transport.c)

    A transport is a connection to a collector: a UDP or TCP socket (with or
    without TLS), a UNIX socket, or a file.  The reporting thread calls
    [transportConnect] every millisecond while a transport needs a connection;
    the back-off of src/backoff.c decides when an attempt is made, a TCP attempt
    stays pending until its socket is writable.  This file holds the operations,
    over the descriptors, blocks and answers of [Sys]; the theorems are in
    [TransportSafe] and [TransportSend].

    The union of struct _transport_t is a field for each of its members: the
    type is set once, right after the zeroed allocation, and selects the one
    member that is used.  Log messages are left out. *)

From S2P Require Import Prelude Types Backoff Sys.

Module Transport.
Import Backoff Sys.
Open Scope sys_scope.

(** ** Data *)

Inductive net_fail_t := NO_FAIL | DNS_FAIL | CONN_FAIL | TLS_CERT_FAIL | TLS_CONN_FAIL
  | TLS_CONTEXT_FAIL | TLS_SESSION_FAIL | TLS_SOCKET_FAIL | TLS_VERIFY_FAIL.

Definition netFailMap (f : net_fail_t) : string :=
  match f with
  | NO_FAIL => "n/a"
  | DNS_FAIL => "DNS lookup failed"
  | CONN_FAIL => "Socket connection failed"
  | TLS_CERT_FAIL => "TLS Failure: error accessing peer certificate"
  | TLS_CONN_FAIL => "TLS Failure: error establishing connection"
  | TLS_CONTEXT_FAIL => "TLS Failure: error creating context"
  | TLS_SESSION_FAIL => "TLS Failure: error creating session"
  | TLS_SOCKET_FAIL => "TLS Failure: error setting tls on socket"
  | TLS_VERIFY_FAIL => "TLS Failure: server validation failed"
  end%string.

(** [net.tls] *)
Record tls_t := mkTls {
  enable : bool;
  validateserver : bool;
  cacertpath : Sys.cstr;
  ctx : option Z;        (* SSL_CTX * *)
  ssl : option Z;        (* SSL * *)
}.

(** [net]; [addr_list] is the block of the list, [addr_next] what is left of it
    ([addr.next] is NULL when nothing is). *)
Record net_t := mkNet {
  sock : Z;
  pending_connect : Z;
  failure_reason : net_fail_t;
  host : Sys.cstr;
  port : Sys.cstr;
  tls : tls_t;
  addr_entries : Z;
  addr_next : list addrinfo;
  addr_list : option Z;
}.

Record local_t := mkLocal {
  lsock : Z;
  lpath : Sys.cstr;
  sun_path : list Z;
  addr_len : Z;
}.

(** A stream: one of the process's own, or one that was opened on a descriptor. *)
Inductive stream_t := Std (fd : Z) | Opened (block fd : Z).

Record file_t := mkFile {
  fpath : Sys.cstr;
  stream : option stream_t;
  is_stdout : bool;
  is_stderr : bool;
  buf_policy : Z;
}.

(** [getaddrinfo]: the C library's or [appviewGetaddrinfo]. *)
Inductive resolver := Libc | Cached.

Record transport_t := mkTransport {
  self : Z;                                (* the block of the struct *)
  type : Z;
  configStr : Sys.cstr;
  getaddrinfo : resolver;
  connect_attempts : Z;                    (* uint64_t *)
  backoff : option (Z * backoff_t);
  net : net_t;
  local : local_t;
  file : file_t;
}.

Record transport_status_t := mkStatus {
  configString : option string;
  isConnected : bool;
  connectAttemptCount : Z;
  failureString : option string;
}.

Definition SUN_PATH_SIZE : Z := 108.

Definition zeroTls : tls_t := mkTls false false None None None.
Definition zeroNet : net_t := mkNet 0 0 NO_FAIL None None zeroTls 0 [] None.
Definition zeroLocal : local_t := mkLocal 0 None (replicate 108 0) 0.
Definition zeroFile : file_t := mkFile None None false false 0.

Definition set_net (t : transport_t) (n : net_t) : transport_t :=
  mkTransport (self t) (type t) (configStr t) (getaddrinfo t) (connect_attempts t) (backoff t) n (local t) (file t).
Definition set_local (t : transport_t) (l : local_t) : transport_t :=
  mkTransport (self t) (type t) (configStr t) (getaddrinfo t) (connect_attempts t) (backoff t) (net t) l (file t).
Definition set_file (t : transport_t) (f : file_t) : transport_t :=
  mkTransport (self t) (type t) (configStr t) (getaddrinfo t) (connect_attempts t) (backoff t) (net t) (local t) f.
Definition set_attempts (t : transport_t) (n : Z) : transport_t :=
  mkTransport (self t) (type t) (configStr t) (getaddrinfo t) n (backoff t) (net t) (local t) (file t).
Definition set_backoff (t : transport_t) (b : option (Z * backoff_t)) : transport_t :=
  mkTransport (self t) (type t) (configStr t) (getaddrinfo t) (connect_attempts t) b (net t) (local t) (file t).
Definition set_resolver (t : transport_t) (r : resolver) : transport_t :=
  mkTransport (self t) (type t) (configStr t) r (connect_attempts t) (backoff t) (net t) (local t) (file t).
Definition set_configStr (t : transport_t) (s : Sys.cstr) : transport_t :=
  mkTransport (self t) (type t) s (getaddrinfo t) (connect_attempts t) (backoff t) (net t) (local t) (file t).
Definition set_type (t : transport_t) (y : Z) : transport_t :=
  mkTransport (self t) y (configStr t) (getaddrinfo t) (connect_attempts t) (backoff t) (net t) (local t) (file t).

Definition set_sock (n : net_t) (s : Z) : net_t :=
  mkNet s (pending_connect n) (failure_reason n) (host n) (port n) (tls n) (addr_entries n) (addr_next n) (addr_list n).
Definition set_pending (n : net_t) (s : Z) : net_t :=
  mkNet (sock n) s (failure_reason n) (host n) (port n) (tls n) (addr_entries n) (addr_next n) (addr_list n).
Definition set_failure (n : net_t) (f : net_fail_t) : net_t :=
  mkNet (sock n) (pending_connect n) f (host n) (port n) (tls n) (addr_entries n) (addr_next n) (addr_list n).
Definition set_tls (n : net_t) (s : tls_t) : net_t :=
  mkNet (sock n) (pending_connect n) (failure_reason n) (host n) (port n) s (addr_entries n) (addr_next n) (addr_list n).
Definition set_addrs (n : net_t) (e : Z) (next : list addrinfo) (l : option Z) : net_t :=
  mkNet (sock n) (pending_connect n) (failure_reason n) (host n) (port n) (tls n) e next l.
Definition set_host_port (n : net_t) (h p : Sys.cstr) : net_t :=
  mkNet (sock n) (pending_connect n) (failure_reason n) h p (tls n) (addr_entries n) (addr_next n) (addr_list n).
Definition set_ctx (s : tls_t) (c : option Z) : tls_t := mkTls (enable s) (validateserver s) (cacertpath s) c (ssl s).
Definition set_ssl (s : tls_t) (c : option Z) : tls_t := mkTls (enable s) (validateserver s) (cacertpath s) (ctx s) c.

Definition set_lsock (l : local_t) (s : Z) : local_t := mkLocal s (lpath l) (sun_path l) (addr_len l).
Definition set_lpath (l : local_t) (p : Sys.cstr) : local_t := mkLocal (lsock l) p (sun_path l) (addr_len l).
Definition set_laddr (l : local_t) (p : list Z) (n : Z) : local_t := mkLocal (lsock l) (lpath l) p n.
Definition set_stream (f : file_t) (s : option stream_t) : file_t :=
  mkFile (fpath f) s (is_stdout f) (is_stderr f) (buf_policy f).

(** ** Construction of the common part *)

Definition newTransport : M (option transport_t) :=
  p ← alloc;
  match p with
  | None => ret None
  | Some b =>
      q ← alloc;
      ret (Some (mkTransport b 0 None Libc 0
        (q ≫= fun c => (fun s => (c, s)) <$> backoffCreate true) zeroNet zeroLocal zeroFile))
  end.

(** [backoffReset(trans->backoff)] *)
Definition resetBackoff (t : transport_t) : transport_t :=
  set_backoff t (match backoff t with
                 | Some (b, s) => (fun s => (b, s)) <$> backoffReset (Some s)
                 | None => None
                 end).

(** [backoffAlgoAllowsConnect(trans->backoff)]; [rand()] is called only when the
    time of an attempt has come. *)
Definition allowsConnect (t : transport_t) : M (bool * transport_t) :=
  match backoff t with
  | None => ret (true, t)
  | Some (b, s) =>
      if backoff_limit s <=? u32 (ms_count s + 1) then
        a ← ask CRand;
        let r := backoffAlgoAllowsConnect (match a with Val n => Z.max 0 n | _ => 0 end) (Some s) in
        ret (fst r, set_backoff t ((fun s => (b, s)) <$> snd r))
      else
        let r := backoffAlgoAllowsConnect 0 (Some s) in
        ret (fst r, set_backoff t ((fun s => (b, s)) <$> snd r))
  end.

(** ** Placing a descriptor out of the way of the process *)

Definition DEFAULT_FD : Z := 999.
Definition DEFAULT_MIN_FD : Z := 200.

(** The loop from [i] down to DEFAULT_MIN_FD, [n] candidates. *)
Fixpoint place_loop (fd i : Z) (n : nat) : M Z :=
  match n with
  | O => _ ← close fd; ret (-1)
  | S n =>
      g ← fcntl_getfd i;
      if g =? -1 then
        dupfd ← dup2 fd i;
        if dupfd =? -1 then place_loop fd (i - 1) n
        else
          _ ← close fd;
          flags ← fcntl_getfd dupfd;
          _ ← fcntl_setfd dupfd (Z.lor flags FD_CLOEXEC);
          _ ← modify (fun w => set_next_fd w (dupfd - 1));
          ret dupfd
      else place_loop fd (i - 1) n
  end.

Definition placeDescriptor (fd : Z) : M Z :=
  next ← get next_fd_to_try;
  let start := if next <? DEFAULT_MIN_FD then DEFAULT_FD else next in
  _ ← modify (fun w => set_next_fd w start);
  place_loop fd start (Z.to_nat (start - DEFAULT_MIN_FD + 1)).

(** ** Accessors *)

Definition transportType (t : option transport_t) : Z := match t with Some t => type t | None => -1 end.

Definition transportSupportsCommandControl (t : option transport_t) : bool :=
  match t with
  | None => false
  | Some t => if type t =? CFG_TCP then negb (enable (tls (net t)))
              else (type t =? CFG_UNIX) || (type t =? CFG_EDGE)
  end.

Definition is_net (t : transport_t) : bool := (type t =? CFG_UDP) || (type t =? CFG_TCP).
Definition is_local (t : transport_t) : bool := (type t =? CFG_UNIX) || (type t =? CFG_EDGE).
Definition is_file (t : transport_t) : bool := type t =? CFG_FILE.

(** [fileno(stream)] *)
Definition fileno (s : stream_t) : Z := match s with Std fd => fd | Opened _ fd => fd end.

Definition transportConnection (t : option transport_t) : Z :=
  match t with
  | None => -1
  | Some t =>
      if is_net t then (if negb (sock (net t) =? -1) then sock (net t) else pending_connect (net t))
      else if is_local t then lsock (local t)
      else if is_file t then match stream (file t) with Some s => fileno s | None => -1 end
      else -1
  end.

(** ** Disconnecting *)

Definition shutdownTlsSession (t : transport_t) : M transport_t :=
  let n := net t in
  n ← match ssl (tls n) with
      | Some p => _ ← ask CSslShutdown; _ ← free p; ret (set_tls n (set_ssl (tls n) None))
      | None => ret n
      end;
  n ← match ctx (tls n) with
      | Some p => _ ← free p; ret (set_tls n (set_ctx (tls n) None))
      | None => ret n
      end;
  n ← if negb (sock n =? -1) then _ ← close (sock n); ret (set_sock n (-1)) else ret n;
  ret (set_net t n).

(** [fclose(stream)] *)
Definition fclose (s : stream_t) : M unit :=
  match s with
  | Std fd => close fd
  | Opened b fd => _ ← close fd; free b
  end.

Definition transportDisconnect (t : transport_t) : M transport_t :=
  if is_net t then
    t ← shutdownTlsSession t;
    if negb (pending_connect (net t) =? -1)
    then _ ← close (pending_connect (net t)); ret (set_net t (set_pending (net t) (-1)))
    else ret t
  else if is_file t then
    _ ← (if negb (is_stdout (file t)) && negb (is_stderr (file t))
         then match stream (file t) with Some s => fclose s | None => ret tt end
         else ret tt);
    ret (set_file t (set_stream (file t) None))
  else if is_local t then
    if negb (lsock (local t) =? -1)
    then _ ← close (lsock (local t)); ret (set_local t (set_lsock (local t) (-1)))
    else ret t
  else ret t.

Definition POLLERR : Z := 8.
Definition POLLRDHUP : Z := 8192.

(** os/linux/os.c: the poll without waiting; [revents] was cleared before. *)
Definition osNeedsConnect (fd : Z) : M bool :=
  a ← ask (CPoll fd);
  let '(rc, revents) := match a with Val r => (1, r) | Err _ => (-1, 0) | _ => (0, 0) end in
  ret (negb (rc =? 0) && (negb (Z.land revents POLLRDHUP =? 0) || negb (Z.land revents POLLERR =? 0))).

(** Does the transport need a connection?  Notices a closed peer or descriptor
    and disconnects. *)
Definition transportNeedsConnection (t : transport_t) : M (bool * transport_t) :=
  if type t =? CFG_UDP then ret (sock (net t) =? -1, t)
  else if type t =? CFG_TCP then
    if (sock (net t) =? -1) || (enable (tls (net t)) && negb (bool_decide (is_Some (ssl (tls (net t))))))
    then ret (true, t)
    else
      gone ← osNeedsConnect (sock (net t));
      if gone then t ← transportDisconnect t; ret (true, t) else ret (false, t)
  else if is_file t then
    t ← match stream (file t) with
        | Some s => g ← fcntl_getfd (fileno s); if g =? -1 then transportDisconnect t else ret t
        | None => ret t
        end;
    ret (negb (bool_decide (is_Some (stream (file t)))), t)
  else if is_local t then
    if lsock (local t) =? -1 then ret (true, t)
    else
      gone ← osNeedsConnect (lsock (local t));
      if gone then t ← transportDisconnect t; ret (true, t) else ret (false, t)
  else ret (false, t).

(** ** TLS *)

Definition rootFileList : list string :=
  ["/etc/ssl/certs/ca-certificates.crt"; "/etc/pki/tls/certs/ca-bundle.crt"; "/etc/ssl/ca-bundle.pem";
   "/etc/pki/tls/cacert.pem"; "/etc/pki/ca-trust/extracted/pem/tls-ca-bundle.pem"; "/etc/ssl/cert.pem"]%string.

(** The first of the files that can be read. *)
Fixpoint first_accessible (l : list string) : M (option string) :=
  match l with
  | [] => ret None
  | p :: l => a ← ask (CAccess p); if succeeds a then ret (Some p) else first_accessible l
  end.

(** A failure is only logged. *)
Definition loadRootCertFile (t : transport_t) : M unit :=
  cafile ← match cacertpath (tls (net t)) with
           | Some (_, p) => ret (Some p)
           | None => first_accessible rootFileList
           end;
  _ ← ask (CSslLoad cafile);
  ret tt.

Definition SSL_ERROR_WANT_READ : Z := 2.
Definition SSL_ERROR_WANT_WRITE : Z := 3.

(** The loop around SSL_connect: is the session established? *)
Fixpoint ssl_connect_loop (fuel : nat) (fd : Z) : M bool :=
  match fuel with
  | O => undefined
  | S fuel =>
      a ← ask CSslConnect;
      match a with
      | Err ssl_err =>
          if (ssl_err =? SSL_ERROR_WANT_READ) || (ssl_err =? SSL_ERROR_WANT_WRITE) then
            r ← select fd;
            if 0 <? fst r then ssl_connect_loop fuel fd else ret false
          else ret false
      | _ => ret true
      end
  end.

(** [goto err] with the reason of the failure. *)
Definition tlsFailed (t : transport_t) (why : net_fail_t) : M (bool * transport_t) :=
  t ← shutdownTlsSession (set_net t (set_failure (net t) why)); ret (false, t).

Definition establishTlsSession (t : transport_t) : M (bool * transport_t) :=
  if sock (net t) =? -1 then ret (false, t) else
  c ← alloc;                                               (* SSL_CTX_new *)
  let t := set_net t (set_tls (net t) (set_ctx (tls (net t)) c)) in
  match c with
  | None => tlsFailed t TLS_CONTEXT_FAIL
  | Some _ =>
      _ ← loadRootCertFile t;
      s ← alloc;                                           (* SSL_new *)
      let t := set_net t (set_tls (net t) (set_ssl (tls (net t)) s)) in
      match s with
      | None => tlsFailed t TLS_SESSION_FAIL
      | Some _ =>
          a ← ask (CSslSetFd (sock (net t)));
          if negb (succeeds a) then tlsFailed t TLS_SOCKET_FAIL else
          fuel ← get (fun w => S (length (script w)));
          ok ← ssl_connect_loop fuel (sock (net t));
          if negb ok then tlsFailed t TLS_CONN_FAIL
          else if validateserver (tls (net t)) then
            cert ← ask CSslPeer;
            if negb (succeeds cert) then tlsFailed t TLS_CERT_FAIL else
            ver ← ask CSslVerify;
            if negb (succeeds ver) then tlsFailed t TLS_VERIFY_FAIL else ret (true, t)
          else ret (true, t)
      end
  end.

(** ** Connecting sockets *)

Definition setSocketBlocking (fd : Z) (block : bool) : M bool :=
  current_flags ← fcntl_getfl fd;
  if current_flags <? 0 then ret false else
  let desired_flags := if block then Z.land current_flags (Z.lnot O_NONBLOCK) else Z.lor current_flags O_NONBLOCK in
  if current_flags =? desired_flags then ret true
  else r ← fcntl_setfl fd desired_flags; ret (r =? 0).

Definition socketConnectIsPending (t : transport_t) : bool := negb (pending_connect (net t) <? 0).

Definition EINTR : Z := 4.
Definition EINPROGRESS : Z := 115.

(** The end of a successful attempt. *)
Definition connected (t : transport_t) : transport_t :=
  resetBackoff (set_attempts t 0).

Definition checkPendingSocketStatus (t : transport_t) : M (Z * transport_t) :=
  let p := pending_connect (net t) in
  if p =? -1 then ret (0, t) else
  '(rc, errno) ← select p;
  if rc <? 0 then
    if errno =? EINTR then ret (0, t) else t ← transportDisconnect t; ret (0, t)
  else if rc =? 0 then ret (0, t) else
  opt ← ask (CGetsockopt p);
  if match opt with Err _ => true | Val o => negb (o =? 0) | _ => false end then
    _ ← close p; ret (0, set_net t (set_pending (net t) (-1)))
  else
    s ← placeDescriptor p;
    let t := set_net t (set_pending (set_sock (net t) s) (-1)) in
    if s =? -1 then ret (0, t) else
    _ ← (if type t =? CFG_TCP then _ ← ask (CSetsockopt s); ret tt else ret tt);   (* TCP_QUICKACK *)
    t ← (if enable (tls (net t)) then r ← establishTlsSession t; ret (snd r) else ret t);
    if sock (net t) =? -1 then ret (0, t) else
    _ ← (if type t =? CFG_TCP then _ ← setSocketBlocking (sock (net t)) true; ret tt else ret tt);
    ret (1, connected (set_net t (set_failure (net t) NO_FAIL))).

Definition freeAddressList (t : transport_t) : M transport_t :=
  match addr_list (net t) with
  | None => ret t
  | Some b => _ ← free b; ret (set_net t (set_addrs (net t) 0 [] None))
  end.

(** [trans->getaddrinfo(...)]: the list, in a block of its own. *)
Definition lookup_addrs (r : resolver) : M (option (Z * list addrinfo)) :=
  match r with
  | Cached => get g_cached_addr
  | Libc =>
      a ← ask CGetaddrinfo;
      match a with
      | Addrs (x :: l) => b ← new_block; ret (Some (b, x :: l))
      | _ => ret None
      end
  end.

Definition getAddressList (t : transport_t) : M transport_t :=
  t ← freeAddressList t;
  if negb (is_net t) then ret t else
  r ← lookup_addrs (getaddrinfo t);
  match r with
  | None => ret (set_net t (set_failure (net t) DNS_FAIL))
  | Some (b, l) => ret (set_net t (set_addrs (net t) (addr_entries (net t) + Z.of_nat (length l)) l (Some b)))
  end.

(** The loop of [socketConnectionStart] over the rest of the list. *)
Fixpoint try_addresses (l : list addrinfo) (t : transport_t) : M transport_t :=
  match l with
  | [] => ret t
  | addr :: l =>
      let t := set_net t (set_addrs (net t) (addr_entries (net t)) l (addr_list (net t))) in
      s ← socket;
      if s =? -1 then try_addresses l t else
      flags ← fcntl_getfd s;
      _ ← fcntl_setfd s (Z.lor flags FD_CLOEXEC);
      nb ← setSocketBlocking s false;
      if negb nb then t ← transportDisconnect t; try_addresses l t else
      if match ai_family addr with AF_OTHER _ => true | _ => false end then _ ← close s; try_addresses l t else
      '(rc, errno) ← connect (CConnect s (ai_addr addr));
      if rc =? -1 then
        let t := set_net t (set_failure (net t) CONN_FAIL) in
        if negb (errno =? EINPROGRESS) then _ ← close s; try_addresses l t
        else ret (set_net t (set_pending (net t) s))
      else if type t =? CFG_UDP then
        p ← placeDescriptor s;
        let t := set_net t (set_sock (net t) p) in
        if p =? -1 then try_addresses l t
        else ret (connected (set_net t (set_failure (net t) NO_FAIL)))
      else try_addresses l t
  end.

Definition socketConnectionStart (t : transport_t) : M (bool * transport_t) :=
  let t := set_attempts t (u64 (connect_attempts t + 1)) in
  t ← (if bool_decide (addr_list (net t) = None) || bool_decide (addr_next (net t) = [])
       then getAddressList t else ret t);
  t ← match addr_list (net t) with Some _ => try_addresses (addr_next (net t)) t | None => ret t end;
  ret (negb (sock (net t) =? -1), t).

(** ** Files *)

Definition _IOFBF : Z := 0.
Definition _IOLBF : Z := 1.

(** [fdopen(fd, "a")] *)
Definition fdopen (fd : Z) : M (option stream_t) :=
  a ← ask (CFdopen fd);
  if succeeds a then b ← new_block; ret (Some (Opened b fd)) else ret None.

Definition transportConnectFile (t : transport_t) : M (Z * transport_t) :=
  let t := set_attempts t (u64 (connect_attempts t + 1)) in
  if is_stdout (file t) then ret (1, connected (set_file t (set_stream (file t) (Some (Std 1)))))
  else if is_stderr (file t) then ret (1, connected (set_file t (set_stream (file t) (Some (Std 2)))))
  else
    fd ← open (match fpath (file t) with Some (_, p) => p | None => ""%string end);
    if fd =? -1 then t ← transportDisconnect t; ret (0, t) else
    fd ← placeDescriptor fd;
    if fd =? -1 then t ← transportDisconnect t; ret (0, t) else
    _ ← ask (CFchmod fd);
    f ← fdopen fd;
    match f with
    | None => t ← transportDisconnect t; ret (0, t)
    | Some f =>
        _ ← ask (CSetvbuf fd (if buf_policy (file t) =? CFG_BUFFER_LINE then _IOLBF else _IOFBF));
        ret (1, connected (set_file t (set_stream (file t) (Some f))))
    end.

(** ** UNIX sockets *)

Definition EDGE_PATH_DOCKER : string := "/var/run/appview/appview.sock".
Definition EDGE_PATH_DEFAULT : string := "/opt/cribl/state/appview.sock".

(** src/utils.c *)
Definition edgePath : M Sys.cstr :=
  let default_path :=
    a ← ask (CAccess EDGE_PATH_DEFAULT);
    if succeeds a then strdup EDGE_PATH_DEFAULT else ret None in
  a ← ask (CAccess EDGE_PATH_DOCKER);
  if succeeds a then strdup EDGE_PATH_DOCKER else
  home ← get env_CRIBL_HOME;
  match home with
  | None => default_path
  | Some h =>
      new_path ← strdup (h +:+ "/" +:+ "state/appview.sock");      (* asprintf *)
      match new_path with
      | None => default_path
      | Some (b, p) =>
          a ← ask (CAccess p);
          if succeeds a then ret new_path else _ ← free b; default_path
      end
  end.

(** [memset] of the address and [strncpy(sun_path, path, pathlen)]. *)
Definition sockaddr_un (path : string) : list Z :=
  bytes_of path ++ replicate (108 - String.length path) 0.

Definition slen (s : string) : Z := Z.of_nat (String.length s).

Definition AF_UNIX_SIZE : Z := 2.     (* sizeof(sa_family_t) *)

(** The part that CFG_EDGE and CFG_UNIX share. *)
Definition connectLocal (t : transport_t) : M (Z * transport_t) :=
  s ← socket;
  let t := set_local t (set_lsock (local t) s) in
  if s <? 0 then ret (0, t) else
  flags ← fcntl_getfd s;
  _ ← fcntl_setfd s (Z.lor flags FD_CLOEXEC);
  '(rc, errno) ← connect (CConnectUnix s (sun_path (local t)) (addr_len (local t)));
  if rc =? -1 then _ ← close s; ret (0, set_local t (set_lsock (local t) (-1))) else
  p ← placeDescriptor s;
  ret (1, connected (set_local t (set_lsock (local t) p))).

(** CFG_EDGE computes its path anew on every attempt. *)
Definition connectEdge (t : transport_t) : M (Z * transport_t) :=
  let t := set_attempts t (u64 (connect_attempts t + 1)) in
  _ ← free_str (lpath (local t));
  p ← edgePath;
  let t := set_local t (set_lpath (local t) p) in
  match p with
  | None => ret (0, t)
  | Some (_, path) =>
      if SUN_PATH_SIZE <=? slen path then ret (0, t)
      else connectLocal (set_local t (set_laddr (local t) (sockaddr_un path) (slen path + AF_UNIX_SIZE + 1)))
  end.

(** ** Connecting *)

Definition transportConnect (t : transport_t) : M (Z * transport_t) :=
  '(needs, t) ← transportNeedsConnection t;
  if negb needs then ret (1, t) else
  '(allowed, t) ← allowsConnect t;
  if negb allowed then
    if is_net t && socketConnectIsPending t then checkPendingSocketStatus t else ret (0, t)
  else if is_net t then
    if socketConnectIsPending t then checkPendingSocketStatus t else
    '(done, t) ← socketConnectionStart t;
    if done then ret (1, t) else checkPendingSocketStatus t
  else if is_file t then transportConnectFile t
  else if type t =? CFG_EDGE then connectEdge t
  else if type t =? CFG_UNIX then connectLocal (set_attempts t (u64 (connect_attempts t + 1)))
  else ret (1, t).

(** The connection a child process inherited: its peer's address, copied. *)
Definition getExistingConnectionAddr (t : transport_t) : M (option (Z * list addrinfo) * transport_t) :=
  '(needs, t) ← transportNeedsConnection t;
  if needs || negb (type t =? CFG_TCP) then ret (None, t) else
  a ← ask (CGetpeername (sock (net t)));
  if negb (succeeds a) then ret (None, t) else
  r ← ask CCopyaddrinfo;
  match r with
  | Addrs [addr] => b ← new_block; ret (Some (b, [addr]), t)
  | _ => ret (None, t)
  end.

Definition transportReconnect (t : transport_t) : M transport_t :=
  if type t =? CFG_TCP then
    '(cached, t) ← getExistingConnectionAddr t;
    _ ← modify (fun w => set_cached w cached);
    _ ← (if enable (tls (net t)) && bool_decide (is_Some (ssl (tls (net t))))
         then _ ← ask CSslQuiet; ret tt else ret tt);
    t ← transportDisconnect t;
    match cached with
    | None => ret t
    | Some _ => r ← transportConnect (set_resolver t Cached); ret (set_resolver (snd r) Libc)
    end
  else ret t.

(** ** Destroying and creating *)

Definition transportDestroy (t : option transport_t) : M (option transport_t) :=
  match t with
  | None => ret None
  | Some t =>
      _ ← free_str (configStr t);
      _ ← (if is_net t then
             t ← transportDisconnect t;
             _ ← free_str (host (net t));
             _ ← free_str (port (net t));
             _ ← free_str (cacertpath (tls (net t)));
             _ ← freeAddressList t; ret tt
           else if is_local t then
             _ ← free_str (lpath (local t));
             _ ← transportDisconnect t; ret tt
           else if is_file t then
             _ ← free_str (fpath (file t));
             if negb (is_stdout (file t)) && negb (is_stderr (file t))
             then match stream (file t) with Some s => fclose s | None => ret tt end
             else ret tt
           else ret tt);
      _ ← free_ptr (fst <$> backoff t);
      _ ← free (self t);
      ret None
  end.

Definition missing (p : Sys.cstr) : bool := bool_decide (p = None).

(** [transportConnect(t); return t;] *)
Definition created (t : transport_t) : M (option transport_t) :=
  r ← transportConnect t; ret (Some (snd r)).

Definition optdup (s : option string) : M Sys.cstr :=
  match s with Some s => strdup s | None => ret None end.

Definition transportCreateTCP (hostname portname : option string) (tls_enable validate : bool) (cacert : option string)
  : M (option transport_t) :=
  match hostname, portname with
  | Some h, Some p =>
      t ← newTransport;
      match t with
      | None => ret None
      | Some t =>
          c ← strdup ("tcp://" +:+ h +:+ ":" +:+ p);
          h ← strdup h;
          p ← strdup p;
          ca ← optdup cacert;
          let n := mkNet (-1) (-1) NO_FAIL h p (mkTls tls_enable validate ca None None) 0 [] None in
          let t := set_net (set_configStr (set_type t CFG_TCP) c) n in
          if missing c || missing h || missing p then transportDestroy (Some t) else created t
      end
  | _, _ => ret None
  end.

Definition transportCreateUdp (hostname portname : option string) : M (option transport_t) :=
  match hostname, portname with
  | Some h, Some p =>
      t ← newTransport;
      match t with
      | None => ret None
      | Some t =>
          c ← strdup ("udp://" +:+ h +:+ ":" +:+ p);
          h ← strdup h;
          p ← strdup p;
          let n := mkNet (-1) (-1) NO_FAIL h p zeroTls 0 [] None in
          let t := set_net (set_configStr (set_type t CFG_UDP) c) n in
          if missing c || missing h || missing p then transportDestroy (Some t) else created t
      end
  | _, _ => ret None
  end.

Definition transportCreateFile (path : option string) (policy : Z) : M (option transport_t) :=
  match path with
  | None => ret None
  | Some path =>
      t ← newTransport;
      match t with
      | None => ret None
      | Some t =>
          c ← strdup ("file://" +:+ path);
          p ← strdup path;
          let t := set_configStr (set_type t CFG_FILE) c in
          if missing c || missing p
          then transportDestroy (Some (set_file t (mkFile p None false false 0)))
          else created (set_file t (mkFile p None (bool_decide (path = "stdout"%string))
                                               (bool_decide (path = "stderr"%string)) policy))
      end
  end.

Definition transportCreateUnix (path : option string) : M (option transport_t) :=
  match path with
  | None => transportDestroy None
  | Some path =>
      if SUN_PATH_SIZE <=? slen path then transportDestroy None else
      t ← newTransport;
      match t with
      | None => transportDestroy None
      | Some t =>
          c ← strdup ("unix://" +:+ path);
          let t := set_configStr (set_type t CFG_UNIX) c in
          if missing c then transportDestroy (Some t) else
          let t := set_local t (set_lsock (local t) (-1)) in
          p ← strdup path;
          let t := set_local t (set_lpath (local t) p) in
          if missing p then transportDestroy (Some t) else
          let addr := sockaddr_un path in
          let len := slen path + AF_UNIX_SIZE in
          let '(addr, len) := if byte_at addr 0 =? 64 then (set_at addr 0 0, len) else (addr, len + 1) in
          created (set_local t (set_laddr (local t) addr len))
      end
  end.

Definition transportCreateEdge : M (option transport_t) :=
  t ← newTransport;
  match t with
  | None => transportDestroy None
  | Some t =>
      c ← strdup "edge";
      let t := set_configStr (set_type t CFG_EDGE) c in
      if missing c then transportDestroy (Some t)
      else created (set_local t (set_lpath (set_lsock (local t) (-1)) None))
  end.

(** ** Sending *)

Definition EBADF : Z := 9.
Definition EPIPE : Z := 32.

(** [transportDisconnect(trans); transportConnect(trans); return -1;] *)
Definition renew (t : transport_t) : M (Z * transport_t) :=
  t ← transportDisconnect t; r ← transportConnect t; ret (-1, snd r).

(** The loop of [tcpSendPlain]: the last [rc], which is undetermined before the
    first round, and its errno. *)
Fixpoint plain_loop (fuel : nat) (fd : Z) (rest : list Z) (rc : option Z) (errno : Z) : M (option Z * Z) :=
  match rest, fuel with
  | [], _ => ret (rc, errno)
  | _ :: _, O => undefined
  | _ :: _, S fuel =>
      '(r, e) ← send fd rest;
      let r := i32 r in
      if r <=? 0 then ret (Some r, e) else plain_loop fuel fd (drop (Z.to_nat r) rest) (Some r) e
  end.

Definition tcpSendPlain (t : transport_t) (msg : list Z) : M (Z * transport_t) :=
  '(needs, t) ← transportNeedsConnection t;
  if needs then ret (-1, t) else
  '(rc, errno) ← plain_loop (length msg) (sock (net t)) msg None 0;
  match rc with
  | None => undefined
  | Some rc =>
      if (rc <? 0) && ((errno =? EBADF) || (errno =? EPIPE)) then renew t else ret (0, t)
  end.

(** SSL_write takes an int: a negative length is an error. *)
Definition ssl_result (a : answer) (len : Z) : Z :=
  let num := i32 len in
  match a with
  | Err _ => -1
  | Val n | Part n _ => if num <? 0 then -1 else Z.max 0 (Z.min n num)
  | _ => if num <? 0 then -1 else num
  end.

Definition SSL_write (msg : list Z) : M Z :=
  a ← ask (CSslWrite msg); ret (ssl_result a (Z.of_nat (length msg))).

Fixpoint tls_loop (fuel : nat) (rest : list Z) : M bool :=
  match rest, fuel with
  | [], _ => ret true
  | _ :: _, O => undefined
  | _ :: _, S fuel =>
      rc ← SSL_write rest;
      if rc <=? 0 then ret false else tls_loop fuel (drop (Z.to_nat rc) rest)
  end.

Definition tcpSendTls (t : transport_t) (msg : list Z) : M (Z * transport_t) :=
  '(needs, t) ← transportNeedsConnection t;
  if needs then ret (-1, t) else
  ok ← tls_loop (length msg) msg;
  if ok then ret (0, t) else renew t.

(** [fwrite(msg, 1, len, stream)]: the bytes taken, and errno. *)
Definition fwrite_result (a : answer) (len : Z) : Z * Z :=
  match a with
  | Err e => (0, e)
  | Val n => (Z.max 0 (Z.min n len), 0)
  | Part n e => (Z.max 0 (Z.min n len), e)
  | _ => (len, 0)
  end.

Definition fwrite (s : stream_t) (msg : list Z) : M (Z * Z) :=
  a ← ask (CWrite (fileno s) msg); ret (fwrite_result a (Z.of_nat (length msg))).

(** A datagram or a message to a local socket: one call. *)
Definition sendOnce (t : transport_t) (fd : Z) (msg : list Z) (fatal : Z -> bool) : M (Z * transport_t) :=
  if fd =? -1 then ret (0, t) else
  '(rc, errno) ← send fd msg;
  if (i32 rc <? 0) && fatal errno then renew t else ret (0, t).

Definition transportSend (t : option transport_t) (msg : option (list Z)) : M (Z * option transport_t) :=
  match t, msg with
  | Some t, Some msg =>
      '(rc, t) ←
        (if type t =? CFG_UDP then sendOnce t (sock (net t)) msg (fun e => e =? EBADF)
         else if type t =? CFG_TCP then
           if enable (tls (net t)) then tcpSendTls t msg else tcpSendPlain t msg
         else if is_file t then
           match stream (file t) with
           | None => ret (0, t)
           | Some s =>
               '(n, errno) ← fwrite s msg;
               if u64 (i32 n) =? Z.of_nat (length msg) then ret (0, t)
               else if errno =? EBADF then renew t else ret (-1, t)
           end
         else if is_local t then sendOnce t (lsock (local t)) msg (fun e => (e =? EBADF) || (e =? EPIPE))
         else ret (-1, t));
      ret (rc, Some t)
  | _, _ => ret (-1, t)
  end.

(** [fflush(NULL)] flushes every stream of the process. *)
Definition transportFlush (t : option transport_t) : M Z :=
  match t with
  | None => ret (-1)
  | Some t =>
      if is_net t then ret 0
      else if is_file t then _ ← ask (CFlush (fileno <$> stream (file t))); ret 0
      else ret (-1)
  end.

Definition transportConnectionStatus (t : option transport_t) : M (transport_status_t * option transport_t) :=
  match t with
  | None => ret (mkStatus None false 0 None, None)
  | Some t =>
      let config := snd <$> configStr t in
      '(needs, t) ← transportNeedsConnection t;
      ret (mkStatus config (negb needs) (connect_attempts t)
             (if is_net t then Some (netFailMap (failure_reason (net t))) else None), Some t)
  end.

End Transport.
