(* ===== verification/TransportSafe.v ===== *)
(** * Resources of the transports

    Every descriptor and block a transport opens is accounted for: its
    operations release nothing that is not theirs, never release anything
    twice, and keep hold of everything they have opened, except where the code
    loses a descriptor (see [benign]). *)

From S2P Require Import Prelude Types Backoff Sys Transport.

Module TransportSafe.
Import Backoff Sys Transport.
#[local] Open Scope sys_scope.

(** ** Resources *)

Inductive res := Fd (n : Z) | Blk (n : Z).

#[export] Instance res_eq_dec : EqDecision res.
Proof. solve_decision. Defined.

Definition live (w : world) (r : res) : Prop :=
  match r with Fd n => is_Some (fds w !! n) | Blk b => b ∈ heap w end.

Definition fd_res (fd : Z) : list res := if fd =? -1 then [] else [Fd fd].
Definition ptr_res (p : option Z) : list res := match p with Some b => [Blk b] | None => [] end.
Definition str_res (p : Sys.cstr) : list res := ptr_res (fst <$> p).
Definition stream_res (s : option stream_t) : list res :=
  match s with Some (Opened b fd) => [Blk b; Fd fd] | _ => [] end.

Definition own_tls (s : tls_t) : list res := ptr_res (ctx s) ++ ptr_res (ssl s) ++ str_res (cacertpath s).
Definition own_net (n : net_t) : list res :=
  fd_res (sock n) ++ fd_res (pending_connect n) ++ own_tls (tls n) ++ str_res (host n) ++ str_res (port n)
  ++ ptr_res (addr_list n).
Definition own_local (l : local_t) : list res := fd_res (lsock l) ++ str_res (lpath l).
Definition own_file (f : file_t) : list res := stream_res (stream f) ++ str_res (fpath f).
Definition own_base (t : transport_t) : list res :=
  Blk (self t) :: str_res (configStr t) ++ ptr_res (fst <$> backoff t).

(** What a transport holds. *)
Definition own_kind (t : transport_t) : list res :=
  if is_net t then own_net (net t) else if is_local t then own_local (local t)
  else if is_file t then own_file (file t) else [].
Definition own (t : transport_t) : list res := own_base t ++ own_kind t.

(** The answers after which the code loses what it has opened: connect on a
    non-blocking TCP socket that succeeds at once, a socket that cannot be made
    non-blocking, a descriptor fdopen fails for, and the copied address of a
    connection, which a reconnection may not use. *)
Definition benign_event (tcp : bool) (e : call * answer) : bool :=
  match e with
  | (CConnect _ _, a) => negb (tcp && succeeds a)
  | (CGetfl _, a) | (CSetfl _, a) | (CFdopen _, a) => succeeds a
  | (CCopyaddrinfo, Addrs _) => false
  | _ => true
  end.
Definition benign (tcp : bool) (tr : list (call * answer)) : Prop := Forall (fun e => benign_event tcp e = true) tr.

(** The calls that pass data on. *)
Definition is_send (c : call) : bool := match c with CSend _ _ | CSslWrite _ | CWrite _ _ => true | _ => false end.
Definition no_sends (tr : list (call * answer)) : Prop := Forall (fun e => is_send (fst e) = false) tr.

Definition MIN_NEXT : Z := DEFAULT_MIN_FD - 1.

(** Permutations of concatenations, by counting. *)
Definition cnt (r x : res) : nat := if decide (r = x) then 1 else 0.
Lemma count_cons r l x : count_occ res_eq_dec (r :: l) x = (cnt r x + count_occ res_eq_dec l x)%nat.
Proof. unfold cnt. cbn. by destruct (res_eq_dec r x), (decide (r = x)). Qed.

Lemma fd_res_ne fd : fd <> -1 -> fd_res fd = [Fd fd].
Proof. unfold fd_res. by destruct (Z.eqb_spec fd (-1)). Qed.

Ltac perm :=
  apply (Permutation_count_occ res_eq_dec); let x := fresh "x" in intros x;
  unfold own_base, own_net, own_tls, own_local, own_file, str_res; cbn -[count_occ fd_res Z.eqb];
  change (fd_res (-1)) with (@nil res);
  repeat match goal with E : ?fd <> -1 |- context [fd_res ?fd] => rewrite (fd_res_ne fd E) end;
  repeat first [rewrite count_occ_app|rewrite count_cons|progress cbn [count_occ app]]; lia.

Section Accounting.
Variables (tcp : bool) (L : Z) (F : res -> Prop).

(** The cached address, and the calls made so far when the account was opened. *)
Definition ghost : Type := option (Z * list addrinfo) * list (call * answer).

(** The world holds [o], separate from the frame [F], and unless something was
    lost nothing else. *)
Record acct (C : ghost) (o : list res) (w : world) : Prop := mkAcct {
  a_nodup : NoDup o;
  a_sep : forall r, r ∈ o -> F r -> False;
  a_live : forall r, r ∈ o \/ F r -> live w r;
  a_all : benign tcp (trace w) -> forall r, live w r -> r ∈ o \/ F r;
  a_brk : forall b, b ∈ heap w -> b < brk w;
  a_limit : rlimit w = L;
  a_next : MIN_NEXT <= next_fd_to_try w <= DEFAULT_FD;
  a_cached : g_cached_addr w = fst C;
  a_since : exists k, trace w = k ++ snd C /\ no_sends k;
}.

Implicit Types (C : ghost) (o : list res) (w : world).

Lemma acct_perm C o o' w : o ≡ₚ o' -> acct C o w -> acct C o' w.
Proof.
  intros P [N S' A B K L' X G T]. constructor; try done.
  - by rewrite <- P.
  - intros r. rewrite <- P. apply S'.
  - intros r. rewrite <- P. apply A.
  - intros Hb r Hr. rewrite <- P. by apply B.
Qed.

(** Close a goal on resources with a hypothesis on the same ones. *)
Ltac by_perm := eapply acct_perm; [|eassumption]; perm.

(** Nothing but the script and the trace changes. *)
Lemma acct_ask C o w c : is_send c = false -> acct C o w ->
  wp (ask c) (fun a w' => acct C o w' /\ (benign_event tcp (c, a) = false -> ~ benign tcp (trace w'))) w.
Proof.
  intros Hc [N S' A B K L' X G [k [T Tn]]]. unfold wp, ask. split.
  - constructor; try done; [intros Hb; apply B; by inversion Hb|]. exists ((c, hd Ok (script w)) :: k). cbn.
    split; [by rewrite T|by constructor].
  - intros E Hb. apply Forall_cons in Hb as [Hb _]. congruence.
Qed.

(** A resource may be dropped once the trace tells of it. *)
Lemma acct_lose C r o w : ~ benign tcp (trace w) -> acct C (r :: o) w -> acct C o w.
Proof.
  intros Nb [N S' A B K L' X G T]. apply NoDup_cons in N as [_ N]. constructor; try done.
  - intros x Hx. apply S'. set_solver.
  - intros x Hx. apply A. set_solver.
Qed.

Lemma acct_new_block C o w : acct C o w ->
  wp new_block (fun b w' => acct C (Blk b :: o) w' /\ trace w' = trace w) w.
Proof.
  intros [N S' A B K L' X G T]. unfold wp, new_block, bind, get, modify, ret. split; [|done].
  assert (Nl : ~ live w (Blk (brk w))) by (cbn; intros H; specialize (K _ H); lia).
  constructor; cbn; try done.
  - constructor; [|done]. intros Hx. apply Nl, A. by left.
  - intros r Hr Hf. apply elem_of_cons in Hr as [->|Hr]; [apply Nl, A; by right|eauto].
  - intros [n|b] Hr; cbn.
    + apply (A (Fd n)). set_solver.
    + apply elem_of_union. destruct Hr as [Hr|Hr]; [apply elem_of_cons in Hr as [E|Hr]|].
      * injection E as ->. left. set_solver.
      * right. apply (A (Blk b)). by left.
      * right. apply (A (Blk b)). by right.
  - intros Hb [n|b] Hr; cbn in Hr.
    + specialize (B Hb (Fd n) Hr). set_solver.
    + apply elem_of_union in Hr as [Hr|Hr]; [apply elem_of_singleton in Hr as ->; set_solver|].
      specialize (B Hb (Blk b) Hr). set_solver.
  - intros b Hb. apply elem_of_union in Hb as [Hb|Hb]; [apply elem_of_singleton in Hb; lia|].
    specialize (K _ Hb). lia.
Qed.

Lemma acct_alloc C o w : acct C o w -> wp alloc (fun p w' => acct C (ptr_res p ++ o) w') w.
Proof.
  intros H. unfold alloc. eapply wp_step; [by apply acct_ask|]. cbv beta. intros a w1 [H1 _].
  destruct (succeeds a); [|by apply wp_ret].
  eapply wp_step; [by apply acct_new_block|]. cbv beta. intros b w2 [H2 _]. by apply wp_ret.
Qed.

Lemma acct_strdup C o w s : acct C o w ->
  wp (strdup s) (fun p w' => acct C (str_res p ++ o) w' /\ forall b x, p = Some (b, x) -> x = s) w.
Proof.
  intros H. unfold strdup. eapply wp_step; [by apply acct_alloc|]. cbv beta. intros p w1 H1. apply wp_ret.
  destruct p as [b|]; cbn; (split; [done|]); [by intros ? ? [= <- <-]|done].
Qed.

Lemma acct_free C b o w : acct C (Blk b :: o) w -> wp (free b) (fun _ w' => acct C o w') w.
Proof.
  intros [N S' A B K L' X G T]. unfold wp, free.
  assert (Hb : live w (Blk b)) by (apply A; left; set_solver). cbn in Hb.
  rewrite decide_True by done. apply NoDup_cons in N as [Nb N]. constructor; cbn; try done.
  - intros r Hr. apply S'. set_solver.
  - intros r Hr. assert (r <> Blk b).
    { intros ->. destruct Hr as [Hr|Hr]; [done|]. apply (S' (Blk b)); set_solver. }
    assert (live w r) by (apply A; set_solver). destruct r; cbn in *; set_solver.
  - intros Hbn r Hr. assert (live w r /\ r <> Blk b) as [Hl Hne] by (destruct r; cbn in *; set_solver).
    specialize (B Hbn r Hl). set_solver.
  - intros x Hx. apply K. set_solver.
Qed.

Lemma acct_free_ptr C p o w : acct C (ptr_res p ++ o) w -> wp (free_ptr p) (fun _ w' => acct C o w') w.
Proof. destruct p; cbn; [apply acct_free|by intros; apply wp_ret]. Qed.

Lemma acct_free_str C p o w : acct C (str_res p ++ o) w -> wp (free_str p) (fun _ w' => acct C o w') w.
Proof. destruct p as [[b s]|]; cbn; [apply acct_free|by intros; apply wp_ret]. Qed.

(** ** Descriptors *)

Lemma acct_flags C o w fd d d' : fds w !! fd = Some d -> acct C o w -> acct C o (set_fds w (<[fd := d']> (fds w))).
Proof.
  intros E [N S' A B K L' X G T]. assert (Hl : forall r, live (set_fds w (<[fd := d']> (fds w))) r <-> live w r).
  { intros [n|b]; cbn; [|done]. destruct (decide (fd = n)) as [<-|]; [|by rewrite lookup_insert_ne].
    rewrite lookup_insert_eq, E. split; by eexists. }
  constructor; cbn; try done.
  - intros r Hr. rewrite Hl. by apply A.
  - intros Hb r Hr. rewrite Hl in Hr. by apply B.
Qed.

Lemma acct_open C o w i d : fds w !! i = None -> acct C o w ->
  acct C (Fd i :: o) (set_fds w (<[i := d]> (fds w))).
Proof.
  intros E [N S' A B K L' X G T].
  assert (Nl : ~ live w (Fd i)) by (cbn; rewrite E; by intros [? ?]).
  constructor; cbn; try done.
  - constructor; [|done]. intros Hx. apply Nl, A. by left.
  - intros r Hr Hf. apply elem_of_cons in Hr as [->|Hr]; [apply Nl, A; by right|eauto].
  - intros r Hr. destruct (decide (r = Fd i)) as [->|Hne]; [cbn; rewrite lookup_insert_eq; by eexists|].
    assert (live w r) as Hl by (apply A; set_solver). destruct r as [n|b]; cbn in *; [|done].
    rewrite lookup_insert_ne by congruence. done.
  - intros Hb r Hr. destruct (decide (r = Fd i)) as [->|Hne]; [set_solver|].
    assert (live w r) as Hl.
    { destruct r as [n|b]; cbn in *; [|done]. by rewrite lookup_insert_ne in Hr by congruence. }
    specialize (B Hb r Hl). set_solver.
Qed.

Lemma acct_close C fd o w : acct C (Fd fd :: o) w -> wp (close fd) (fun _ w' => acct C o w' /\ trace w' = trace w) w.
Proof.
  intros [N S' A B K L' X G T]. unfold wp, close, modify. split; [|done].
  apply NoDup_cons in N as [Nb N]. constructor; cbn; try done.
  - intros r Hr. apply S'. set_solver.
  - intros r Hr. assert (r <> Fd fd).
    { intros ->. destruct Hr as [Hr|Hr]; [done|]. apply (S' (Fd fd)); set_solver. }
    assert (live w r) as Hl by (apply A; set_solver). destruct r as [n|b]; cbn in *; [|done].
    rewrite lookup_delete_ne by congruence. done.
  - intros Hbn r Hr. destruct (decide (r = Fd fd)) as [->|Hne].
    { cbn in Hr. rewrite lookup_delete_eq in Hr. by destruct Hr. }
    assert (live w r) as Hl.
    { destruct r as [n|b]; cbn in *; [|done]. by rewrite lookup_delete_ne in Hr by congruence. }
    specialize (B Hbn r Hl). set_solver.
Qed.

Lemma acct_new_fd C o w c d : is_send c = false -> acct C o w ->
  wp (new_fd c d) (fun fd w' => acct C (fd_res fd ++ o) w' /\ (fd = -1 \/ 0 <= fd < L)) w.
Proof.
  intros Hc H. unfold new_fd. eapply wp_step; [by apply acct_ask|]. cbv beta. intros a w1 [H1 _].
  apply wp_get. destruct (lowest_free w1) as [i|] eqn:Ef; [|apply wp_ret; auto].
  destruct (succeeds a); [|apply wp_ret; auto].
  apply List.find_some in Ef as [Hi Hf]. apply list_elem_of_In, elem_of_seqZ in Hi.
  rewrite (a_limit _ _ _ H1) in Hi.
  assert (fds w1 !! i = None) as En.
  { unfold is_open in Hf. destruct (fds w1 !! i); [|done]. by rewrite bool_decide_true in Hf by (by eexists). }
  apply wp_modify, wp_ret. unfold fd_res. destruct (Z.eqb_spec i (-1)); [lia|]. split; [|by right].
  by apply acct_open.
Qed.

Lemma getfd_result w fd (f : Z -> Prop) : (is_Some (fds w !! fd) -> forall g, g <> -1 -> f g) ->
  (fds w !! fd = None -> f (-1)) -> wp (fcntl_getfd fd) (fun g w' => w' = w /\ f g) w.
Proof.
  intros H1 H2. unfold wp, fcntl_getfd, bind, get, ret. split; [done|]. destruct (fds w !! fd) as [d|]; [|auto].
  apply H1; [by eexists|]. destruct (cloexec d); cbn; lia.
Qed.

Lemma acct_setfd C o w fd flags : acct C o w -> wp (fcntl_setfd fd flags) (fun _ w' => acct C o w') w.
Proof.
  intros H. unfold fcntl_setfd. eapply wp_step; [by apply acct_ask|]. cbv beta. intros a w1 [H1 _].
  apply wp_get. destruct (fds w1 !! fd) as [d|] eqn:E; [|by apply wp_ret].
  destruct (succeeds a); [|by apply wp_ret]. apply wp_modify, wp_ret. by eapply acct_flags.
Qed.

Lemma acct_dup2 C o w fd i : Fd fd ∈ o -> fds w !! i = None -> i <> -1 -> acct C o w ->
  wp (dup2 fd i) (fun p w' => acct C (fd_res p ++ o) w' /\ (p = -1 /\ fds w' = fds w \/ p = i)) w.
Proof.
  intros Ho Hi Hn H. unfold dup2. eapply wp_step.
  { unfold wp. cbn. instantiate (1 := fun _ w' => acct C o w' /\ fds w' = fds w).
    split; [|done]. exact (proj1 (acct_ask _ _ _ (CDup2 fd i) eq_refl H)). }
  cbn. intros a w1 [H1 Ef]. apply wp_get, wp_get.
  destruct (fds w1 !! fd) as [d|] eqn:E; [|apply wp_ret; auto].
  destruct (_ && _); [|apply wp_ret; auto]. apply wp_modify, wp_ret. unfold fd_res.
  destruct (Z.eqb_spec i (-1)); [lia|]. split; [|by right]. apply acct_open; [by rewrite Ef|done].
Qed.

(** ** Placing a descriptor *)

Definition placed (fd : Z) : Prop := fd = -1 \/ DEFAULT_MIN_FD <= fd <= DEFAULT_FD.

Lemma acct_next C o w n : MIN_NEXT <= n <= DEFAULT_FD -> acct C o w -> acct C o (set_next_fd w n).
Proof. intros Hn [N S' A B K L' X G T]. by constructor. Qed.

Lemma place_loop_spec C o fd n i w : acct C (Fd fd :: o) w ->
  i <= DEFAULT_FD -> i - Z.of_nat n = MIN_NEXT ->
  wp (place_loop fd i n) (fun p w' => acct C (fd_res p ++ o) w' /\ placed p) w.
Proof.
  revert i w. induction n as [|n IH]; intros i w H Hi Hn; cbn [place_loop].
  - eapply wp_step; [by apply acct_close|]. cbv beta. intros ? w1 [H1 _]. apply wp_ret. split; [done|by left].
  - unfold MIN_NEXT, DEFAULT_MIN_FD in *. eapply wp_step.
    { apply (getfd_result w i (fun g => g = -1 -> fds w !! i = None)); [by intros; subst|done]. }
    intros g w1 [-> Hg]. destruct (Z.eqb_spec g (-1)) as [E|E]; [|apply IH; [done|lia|lia]].
    eapply wp_step; [apply acct_dup2; [by apply elem_of_cons; left|auto|lia|exact H]|].
    intros p w1 [H1 Hp]. destruct (Z.eqb_spec p (-1)) as [->|E2].
    { apply IH; [done|lia|lia]. }
    destruct Hp as [[Ep _]| ->]; [exfalso; lia|]. unfold fd_res in *. destruct (Z.eqb_spec i (-1)); [lia|].
    eapply wp_step; [apply (acct_close C fd (Fd i :: o)); by_perm|]. cbv beta. intros ? w2 [H2 _].
    eapply wp_step; [by apply (getfd_result w2 i (fun _ => True))|]. cbv beta. intros flags w3 [-> _].
    eapply wp_step; [by apply acct_setfd|]. cbv beta. intros ? w3 H3.
    apply wp_modify, wp_ret. destruct (Z.eqb_spec i (-1)); [lia|]. split.
    + by apply acct_next; [unfold MIN_NEXT, DEFAULT_MIN_FD, DEFAULT_FD in *; lia|].
    + right. unfold DEFAULT_MIN_FD. lia.
Qed.

Lemma place_spec C o fd w : acct C (Fd fd :: o) w ->
  wp (placeDescriptor fd) (fun p w' => acct C (fd_res p ++ o) w' /\ placed p) w.
Proof.
  intros H. unfold placeDescriptor. apply wp_get, wp_modify.
  pose proof (a_next _ _ _ H) as X. unfold MIN_NEXT, DEFAULT_MIN_FD, DEFAULT_FD in X.
  destruct (Z.ltb_spec (next_fd_to_try w) DEFAULT_MIN_FD) as [E|E]; unfold DEFAULT_MIN_FD in E;
    (apply place_loop_spec; [apply acct_next; [unfold MIN_NEXT, DEFAULT_MIN_FD, DEFAULT_FD; lia|done]|..];
     unfold MIN_NEXT, DEFAULT_MIN_FD, DEFAULT_FD; lia).
Qed.

(** ** Disconnecting *)

(** A network transport without a connection. *)
Definition closed_net (n : net_t) : net_t :=
  set_pending (set_sock (set_tls n (set_ctx (set_ssl (tls n) None) None)) (-1)) (-1).

Lemma shutdown_spec C o t w : acct C (own_net (net t) ++ o) w ->
  wp (shutdownTlsSession t) (fun t' w' =>
    t' = set_net t (set_sock (set_tls (net t) (set_ctx (set_ssl (tls (net t)) None) None)) (-1)) /\
    acct C (own_net (net t') ++ o) w') w.
Proof.
  intros H. unfold shutdownTlsSession. destruct t as [sf ty cf ga at_ bo [sk pn fr ho po [en va ca cx sl] ae an al] lo fi].
  cbn [net tls ssl ctx sock] in *.
  eapply (wp_step _ _ (fun n w' => n = set_tls (mkNet sk pn fr ho po (mkTls en va ca cx sl) ae an al) (mkTls en va ca cx None)
                        /\ acct C (own_net n ++ o) w')).
  { destruct sl as [p|]; [|by apply wp_ret]. eapply wp_step; [by apply acct_ask|]. cbv beta. intros ? w1 [H1 _].
    eapply wp_step; [apply (acct_free C p (own_net (mkNet sk pn fr ho po (mkTls en va ca cx None) ae an al) ++ o)); by_perm|].
    intros ? w2 H2. by apply wp_ret. }
  intros n w1 [-> H1]. cbn [net tls ssl ctx sock set_tls set_ctx enable validateserver cacertpath].
  eapply (wp_step _ _ (fun n w' => n = set_tls (mkNet sk pn fr ho po (mkTls en va ca cx sl) ae an al) (mkTls en va ca None None)
                        /\ acct C (own_net n ++ o) w')).
  { destruct cx as [p|]; [|by apply wp_ret].
    eapply wp_step; [apply (acct_free C p (own_net (mkNet sk pn fr ho po (mkTls en va ca None None) ae an al) ++ o)); by_perm|].
    intros ? w2 H2. by apply wp_ret. }
  intros n w2 [-> H2]. cbn [net tls ssl ctx sock set_tls].
  destruct (Z.eqb_spec sk (-1)) as [->|E]; cbn [negb].
  { apply wp_bind, wp_ret, wp_ret. split; [done|by_perm]. }
  apply wp_bind.
  eapply wp_step; [apply (acct_close C sk (own_net (mkNet (-1) pn fr ho po (mkTls en va ca None None) ae an al) ++ o));
                   by_perm|].
  intros ? w3 [H3 _]. by apply wp_ret, wp_ret.
Qed.

(** ** Well-formed transports *)

Definition net_ok (n : net_t) : Prop :=
  placed (sock n) /\ (pending_connect n = -1 \/ 0 <= pending_connect n < L) /\
  (sock n = -1 -> ssl (tls n) = None /\ ctx (tls n) = None) /\
  (sock n <> -1 -> pending_connect n = -1 /\ (enable (tls n) = true -> is_Some (ssl (tls n)))).

(** A stream of the process is used exactly by the transports named after it. *)
Definition file_ok (f : file_t) : Prop :=
  match stream f with
  | None => True
  | Some (Std _) => is_stdout f || is_stderr f = true
  | Some (Opened _ _) => is_stdout f || is_stderr f = false
  end.

Definition wf (t : transport_t) : Prop :=
  (is_net t = true /\ is_local t = false /\ is_file t = false /\ net_ok (net t) /\
   (type t = CFG_UDP -> enable (tls (net t)) = false) /\ (type t = CFG_TCP -> tcp = true)) \/
  (is_net t = false /\ is_local t = true /\ is_file t = false /\ placed (lsock (local t))) \/
  (is_net t = false /\ is_local t = false /\ is_file t = true /\ file_ok (file t)).

(** What [transportDisconnect] leaves. *)
Definition disconnected (t : transport_t) : transport_t :=
  if is_net t then set_net t (closed_net (net t))
  else if is_file t then set_file t (set_stream (file t) None)
  else if is_local t then set_local t (set_lsock (local t) (-1))
  else t.

Lemma closed_net_ok n : net_ok (closed_net n).
Proof.
  destruct n as [? ? ? ? ? []]. unfold net_ok, closed_net. cbn.
  split; [by left|]. split; [by left|]. by split.
Qed.

Lemma disconnected_wf t : wf t -> wf (disconnected t).
Proof.
  intros [(N & K1 & K2 & O & U & T)|[(N & K1 & K2 & O)|(N & K1 & K2 & O)]]; unfold disconnected; rewrite ?N, ?K1, ?K2.
  - left. split; [done|]. split; [done|]. split; [done|]. split; [apply closed_net_ok|]. split; [|done].
    intros Ht. specialize (U Ht). by destruct t as [? ? ? ? ? ? [? ? ? ? ? []]].
  - right. left. split; [done|]. split; [done|]. split; [done|]. by left.
  - right. right. by split.
Qed.

Lemma disconnect_kind_spec C o t w : wf t -> acct C (own_kind t ++ o) w ->
  wp (transportDisconnect t) (fun t' w' => t' = disconnected t /\ acct C (own_kind t' ++ o) w') w.
Proof.
  intros W H. unfold transportDisconnect, disconnected.
  destruct W as [(N & K1 & K2 & O & _)|[(N & K1 & K2 & O)|(N & K1 & K2 & O)]]; rewrite ?N, ?K1, ?K2.
  - eapply wp_step; [apply (shutdown_spec C (o)); unfold own_kind in H; rewrite N in H; by_perm|].
    intros t' w1 [-> H1]. cbn [net set_net pending_connect set_sock set_tls].
    assert (Fin : forall w, acct C (own_net (closed_net (net t)) ++ o) w ->
                       acct C (own_kind (set_net t (closed_net (net t))) ++ o) w).
    { intros w2 H2. unfold own_kind. change (is_net (set_net t _)) with (is_net t). rewrite N. by_perm. }
    destruct (Z.eqb_spec (pending_connect (net t)) (-1)) as [E|E]; cbn [negb].
    { assert (Ec : closed_net (net t) = set_sock (set_tls (net t) (set_ctx (set_ssl (tls (net t)) None) None)) (-1)).
      { unfold closed_net, set_pending. cbn. by rewrite <- E. }
      apply wp_ret. rewrite <- Ec in *. split; [done|]. by apply Fin. }
    eapply wp_step; [apply (acct_close C (pending_connect (net t)) (own_net (closed_net (net t)) ++ o)); by_perm|].
    intros ? w2 [H2 _]. apply wp_ret. split; [done|]. by apply Fin.
  - destruct (Z.eqb_spec (lsock (local t)) (-1)) as [E|E]; cbn [negb].
    { apply wp_ret. split; [|done]. destruct t as [? ? ? ? ? ? ? [] ?]. cbn in *. by subst. }
    assert (Fin : forall w, acct C (str_res (lpath (local t)) ++ o) w ->
                       acct C (own_kind (set_local t (set_lsock (local t) (-1))) ++ o) w).
    { intros w2 H2. unfold own_kind. change (is_net (set_local t _)) with (is_net t).
      change (is_local (set_local t _)) with (is_local t). rewrite N, K1. by_perm. }
    eapply wp_step; [apply (acct_close C (lsock (local t)) (str_res (lpath (local t)) ++ o));
                     unfold own_kind in H; rewrite N, K1 in H; by_perm|].
    intros ? w2 [H2 _]. apply wp_ret. split; [done|]. by apply Fin.
  - assert (Fin : forall w, acct C (str_res (fpath (file t)) ++ o) w ->
                       acct C (own_kind (set_file t (set_stream (file t) None)) ++ o) w).
    { intros w2 H2. unfold own_kind. change (is_net (set_file t _)) with (is_net t).
      change (is_local (set_file t _)) with (is_local t). change (is_file (set_file t _)) with (is_file t).
      rewrite N, K1, K2. by_perm. }
    unfold own_kind in H. rewrite N, K1, K2 in H. unfold own_file, file_ok in *.
    eapply (wp_step _ _ (fun _ => acct C (str_res (fpath (file t)) ++ o))).
    { destruct (stream (file t)) as [[fd|b fd]|] eqn:Es; cbn [stream_res] in H.
      - replace (negb (is_stdout (file t)) && negb (is_stderr (file t))) with false
          by (destruct (is_stdout (file t)), (is_stderr (file t)); done). apply wp_ret. by_perm.
      - destruct (is_stdout (file t)); [done|]. destruct (is_stderr (file t)); [done|]. cbn [negb andb].
        eapply wp_step; [apply (acct_close C fd (Blk b :: str_res (fpath (file t)) ++ o)); by_perm|].
        intros ? w2 [H2 _]. by apply acct_free.
      - destruct (_ && _); apply wp_ret; by_perm. }
    intros ? w2 H2. apply wp_ret. split; [done|]. by apply Fin.
Qed.

(** Only the connection is concerned. *)
Lemma disconnected_base t : own_base (disconnected t) = own_base t.
Proof. unfold disconnected. by destruct (is_net t), (is_file t), (is_local t). Qed.

Lemma disconnect_spec C o t w : wf t -> acct C (own t ++ o) w ->
  wp (transportDisconnect t) (fun t' w' => t' = disconnected t /\ acct C (own t' ++ o) w') w.
Proof.
  intros W H. eapply wp_mono; [apply (disconnect_kind_spec C (own_base t ++ o)); [done|unfold own in H; by_perm]|].
  cbv beta. intros t' w' [-> H']. split; [done|]. unfold own. rewrite disconnected_base. by_perm.
Qed.

Lemma poll_spec C o w fd : acct C o w -> wp (osNeedsConnect fd) (fun _ w' => acct C o w') w.
Proof.
  intros H. unfold osNeedsConnect. eapply wp_step; [by apply acct_ask|]. cbv beta. intros a w1 [H1 _].
  destruct a; by apply wp_ret.
Qed.

(** Is there a connection? *)
Definition linked (t : transport_t) : bool :=
  if is_net t then negb (sock (net t) =? -1)
  else if is_local t then negb (lsock (local t) =? -1)
  else bool_decide (is_Some (stream (file t))).

Lemma disconnected_linked t : wf t -> linked (disconnected t) = false.
Proof.
  intros [(N & K1 & K2 & _)|[(N & K1 & K2 & _)|(N & K1 & K2 & _)]]; unfold disconnected, linked;
    rewrite ?N, ?K1, ?K2; cbn; rewrite ?N, ?K1, ?K2; try done.
  - change (is_net (set_net t _)) with (is_net t). rewrite N. by destruct (net t) as [? ? ? ? ? []].
  - change (is_net (set_local t _)) with (is_net t). change (is_local (set_local t _)) with (is_local t).
    by rewrite N, K1.
  - change (is_net (set_file t _)) with (is_net t). change (is_local (set_file t _)) with (is_local t).
    by rewrite N, K1.
Qed.

Lemma needs_spec C o t w : wf t -> acct C (own t ++ o) w ->
  wp (transportNeedsConnection t) (fun '(needs, t') w' =>
    acct C (own t' ++ o) w' /\ wf t' /\ needs = negb (linked t') /\ (t' = t \/ t' = disconnected t)) w.
Proof.
  intros W H.
  assert (Disc : forall w, acct C (own t ++ o) w ->
     wp (t' ← transportDisconnect t; ret (true, t')) (fun '(needs, t') w' =>
       acct C (own t' ++ o) w' /\ wf t' /\ needs = negb (linked t') /\ (t' = t \/ t' = disconnected t)) w).
  { intros w0 H0. eapply wp_step; [by apply disconnect_spec|]. cbv beta. intros t' w1 [-> H1]. apply wp_ret.
    split; [done|]. split; [by apply disconnected_wf|]. rewrite disconnected_linked by done. auto. }
  pose proof W as W0. unfold transportNeedsConnection.
  destruct W as [(N & K1 & K2 & (P & Q & Z1 & Z2) & U & T)|[(N & K1 & K2 & O)|(N & K1 & K2 & O)]].
  - unfold is_net in N. destruct (Z.eqb_spec (type t) CFG_UDP) as [Eu|Eu].
    { apply wp_ret. split; [done|]. split; [done|]. split; [|by left]. unfold linked, is_net.
      rewrite (proj2 (Z.eqb_eq _ _) Eu). cbn. by rewrite negb_involutive. }
    cbn in N. rewrite N.
    assert (Ln : linked t = negb (sock (net t) =? -1)) by (unfold linked, is_net; by rewrite N, orb_true_r).
    destruct (Z.eqb_spec (sock (net t)) (-1)) as [Es|Es]; cbn [orb].
    { apply wp_ret. split; [done|]. split; [done|]. rewrite Ln. auto. }
    destruct (enable (tls (net t)) && _) eqn:Et.
    { exfalso. apply andb_true_iff in Et as [Et1 Et2]. destruct (Z2 Es) as [_ Z3]. specialize (Z3 Et1).
      by rewrite bool_decide_true in Et2. }
    eapply wp_step; [by apply poll_spec|]. cbv beta. intros gone w1 H1. destruct gone; [by apply Disc|].
    apply wp_ret. split; [done|]. split; [done|]. rewrite Ln. auto.
  - assert (type t <> CFG_UDP /\ type t <> CFG_TCP) as [E1 E2].
    { unfold is_net in N. apply orb_false_iff in N as [N1 N2]. by rewrite !Z.eqb_neq in *. }
    rewrite !(proj2 (Z.eqb_neq _ _)) by done. rewrite K1, K2.
    assert (Ln : linked t = negb (lsock (local t) =? -1)) by (unfold linked; by rewrite N, K1).
    destruct (Z.eqb_spec (lsock (local t)) (-1)) as [Es|Es].
    { apply wp_ret. split; [done|]. split; [done|]. rewrite Ln. auto. }
    eapply wp_step; [by apply poll_spec|]. cbv beta. intros gone w1 H1. destruct gone; [by apply Disc|].
    apply wp_ret. split; [done|]. split; [done|]. rewrite Ln. auto.
  - assert (type t <> CFG_UDP /\ type t <> CFG_TCP) as [E1 E2].
    { unfold is_net in N. apply orb_false_iff in N as [N1 N2]. by rewrite !Z.eqb_neq in *. }
    rewrite !(proj2 (Z.eqb_neq _ _)) by done. rewrite K2.
    assert (Ln : forall x, x = t \/ x = disconnected t -> negb (bool_decide (is_Some (stream (file x)))) = negb (linked x)).
    { intros x Hx. destruct Hx as [->| ->]; unfold linked; [by rewrite N, K1|]. unfold disconnected. rewrite N, K2.
      change (is_net (set_file t _)) with (is_net t). change (is_local (set_file t _)) with (is_local t).
      by rewrite N, K1. }
    destruct (stream (file t)) as [s|] eqn:Es.
    + apply wp_bind. eapply wp_step; [by apply (getfd_result w (fileno s) (fun _ => True))|]. cbv beta. intros g w1 [-> _].
      destruct (g =? -1).
      * eapply wp_mono; [by apply disconnect_spec|]. intros t' w1 [-> H1]. apply wp_ret.
        split; [done|]. split; [by apply disconnected_wf|]. split; [apply Ln|]; by right.
      * apply wp_ret, wp_ret. split; [done|]. split; [done|]. split; [apply Ln|]; by left.
    + apply wp_bind, wp_ret, wp_ret. split; [done|]. split; [done|]. split; [apply Ln|]; by left.
Qed.

(** ** TLS *)

Lemma first_accessible_spec C o l w : acct C o w -> wp (first_accessible l) (fun _ w' => acct C o w') w.
Proof.
  revert w. induction l as [|p l IH]; intros w H; cbn [first_accessible]; [by apply wp_ret|].
  eapply wp_step; [by apply acct_ask|]. cbv beta. intros a w1 [H1 _]. destruct (succeeds a); [by apply wp_ret|by apply IH].
Qed.

Lemma load_certs_spec C o t w : acct C o w -> wp (loadRootCertFile t) (fun _ w' => acct C o w') w.
Proof.
  intros H. unfold loadRootCertFile. eapply (wp_step _ _ (fun _ w' => acct C o w')).
  { destruct (cacertpath _) as [[b p]|]; [by apply wp_ret|by apply first_accessible_spec]. }
  intros p w1 H1. eapply wp_step; [by apply acct_ask|]. cbv beta. intros a w2 [H2 _]. by apply wp_ret.
Qed.

(** Every failed round consumes two answers of the script, so the loop ends. *)
Lemma ssl_loop_spec C o fd fuel w : acct C o w -> DEFAULT_MIN_FD <= fd <= DEFAULT_FD ->
  (length (script w) < fuel)%nat -> wp (ssl_connect_loop fuel fd) (fun _ w' => acct C o w') w.
Proof.
  intros H Hfd. revert w H. induction fuel as [|fuel IH]; intros w H Hl; [lia|]. cbn [ssl_connect_loop].
  pose proof (acct_ask C o w CSslConnect eq_refl H) as Ha. unfold wp, ask in Ha. unfold wp, bind, ask.
  destruct (script w) as [|a sc] eqn:Es; cbn [hd tl] in *; [apply Ha|]. destruct Ha as [Ha _].
  destruct a as [|n|n e|e|l]; try exact Ha. destruct (_ || _); [|exact Ha].
  unfold select. unfold DEFAULT_MIN_FD, DEFAULT_FD, FD_SETSIZE in *.
  replace ((fd <? 0) || (1024 <=? fd)) with false by (symmetry; apply orb_false_iff; lia).
  fold (@bind (Z * Z) bool). set (w1 := set_script w sc _) in *.
  change (wp (bind (bind (ask (CSelect fd)) (fun a => ret (match a with Err e => (-1, e) | Val n => (Z.max 0 n, 0) | _ => (1, 0) end)))
                (fun r => if 0 <? fst r then ssl_connect_loop fuel fd else ret false)) (fun _ w' => acct C o w') w1).
  apply wp_bind. eapply wp_step.
  { apply (wp_mono _ (fun _ w' => acct C o w' /\ (length (script w') <= length (script w1))%nat)); [|intros a w2 X; exact X].
    unfold wp, ask. split; [exact (proj1 (acct_ask C o w1 (CSelect fd) eq_refl Ha))|]. cbn. destruct sc; cbn; lia. }
  intros a w2 [H2 L2]. apply wp_ret. destruct (0 <? _); [|by apply wp_ret]. apply IH; [done|].
  subst w1. cbn in *. lia.
Qed.

(** A network transport inside of an attempt: connected, its session perhaps
    under construction. *)
Lemma tls_failed_spec C o t why w : acct C (own_net (net t) ++ o) w -> pending_connect (net t) = -1 ->
  wp (tlsFailed t why) (fun '(ok, t') w' => ok = false /\
    t' = set_net t (closed_net (set_failure (net t) why)) /\ acct C (own_net (net t') ++ o) w') w.
Proof.
  intros H E. unfold tlsFailed. eapply wp_step; [apply (shutdown_spec C o); by_perm|].
  intros t' w1 [-> H1]. apply wp_ret. split; [done|]. split; [|done].
  unfold closed_net, set_pending. cbn. by rewrite <- E.
Qed.

Lemma establish_spec C o t w : acct C (own_net (net t) ++ o) w -> DEFAULT_MIN_FD <= sock (net t) <= DEFAULT_FD ->
  pending_connect (net t) = -1 -> ctx (tls (net t)) = None -> ssl (tls (net t)) = None ->
  wp (establishTlsSession t) (fun '(ok, t') w' => acct C (own_net (net t') ++ o) w' /\ net_ok (net t') /\
    exists n', t' = set_net t n' /\ sock n' = (if ok then sock (net t) else -1) /\
               enable (tls n') = enable (tls (net t)) /\ pending_connect n' = -1) w.
Proof.
  intros H Hs Hp Hc Hl. unfold establishTlsSession. unfold DEFAULT_MIN_FD, DEFAULT_FD in Hs.
  destruct (Z.eqb_spec (sock (net t)) (-1)); [lia|].
  assert (Fail : forall why w n, pending_connect n = -1 -> enable (tls n) = enable (tls (net t)) ->
     acct C (own_net n ++ o) w -> wp (tlsFailed (set_net t n) why) (fun '(ok, t') w' => acct C (own_net (net t') ++ o) w' /\ net_ok (net t') /\
       exists n', t' = set_net t n' /\ sock n' = (if ok then sock (net t) else -1) /\
               enable (tls n') = enable (tls (net t)) /\ pending_connect n' = -1) w).
  { intros why w0 n0 Hn En H0. eapply wp_mono; [by apply (tls_failed_spec C o)|]. intros [ok t'] w1 (-> & -> & H1).
    split; [done|]. split; [apply closed_net_ok|]. by eexists. }
  eapply wp_step; [by apply acct_alloc|]. cbv beta. intros c w1 H1. destruct c as [c|].
  2:{ apply Fail; [done|done|]. unfold own_net, own_tls in H1. rewrite Hc in H1. by_perm. }
  eapply wp_step; [by apply load_certs_spec|]. cbv beta. intros ? w2 H2.
  eapply wp_step; [by apply acct_alloc|]. cbv beta. intros s w3 H3.
  cbn [net set_net]. set (n' := set_tls _ _) in *.
  assert (H3' : acct C (own_net n' ++ o) w3).
  { unfold own_net, own_tls in H3. rewrite Hc, Hl in H3. subst n'. by_perm. }
  destruct s as [s|]; [|by apply Fail].
  eapply wp_step; [by apply acct_ask|]. cbv beta. intros a4 w4 [H4 _]. destruct (succeeds a4); cbn [negb]; [|by apply Fail].
  apply wp_get. eapply wp_step; [apply (ssl_loop_spec C (own_net n' ++ o)); [done|exact Hs|lia]|].
  intros ok w5 H5. destruct ok; cbn [negb]; [|by apply Fail].
  assert (Good : forall w, acct C (own_net n' ++ o) w -> wp (ret (true, set_net (set_net t (set_tls (net t) (set_ctx (tls (net t)) (Some c)))) n')) (fun '(ok, t') w' => acct C (own_net (net t') ++ o) w' /\ net_ok (net t') /\
       exists n', t' = set_net t n' /\ sock n' = (if ok : bool then sock (net t) else -1) /\
               enable (tls n') = enable (tls (net t)) /\ pending_connect n' = -1) w).
  { intros w0 H0. apply wp_ret. split; [done|]. split; [|by eexists]. subst n'. unfold net_ok. cbn.
    split; [right; exact Hs|]. split; [by left|]. split; [lia|]. intros _. split; [done|]. by eexists. }
  destruct (validateserver _); [|by apply Good].
  eapply wp_step; [by apply acct_ask|]. cbv beta. intros cert w6 [H6 _]. destruct (succeeds cert); cbn [negb]; [|by apply Fail].
  eapply wp_step; [by apply acct_ask|]. cbv beta. intros ver w7 [H7 _]. destruct (succeeds ver); cbn [negb]; [|by apply Fail].
  by apply Good.
Qed.

(** ** Sockets *)

Lemma getfl_spec C o w fd : acct C o w -> Fd fd ∈ o ->
  wp (fcntl_getfl fd) (fun g w' => acct C o w' /\ (g < 0 -> ~ benign tcp (trace w'))) w.
Proof.
  intros H Ho. unfold fcntl_getfl. eapply wp_step; [by apply acct_ask|]. cbv beta. intros a w1 [H1 Hb].
  apply wp_get, wp_ret. split; [done|].
  destruct (a_live _ _ _ H1 (Fd fd)) as [d ->]; [by left|]. destruct (succeeds a) eqn:Es.
  - intros Hg. destruct (nonblock d); vm_compute in Hg; discriminate.
  - intros _. by apply Hb.
Qed.

Lemma setfl_spec C o w fd flags : acct C o w -> Fd fd ∈ o ->
  wp (fcntl_setfl fd flags) (fun g w' => acct C o w' /\ (g <> 0 -> ~ benign tcp (trace w'))) w.
Proof.
  intros H Ho. unfold fcntl_setfl. eapply wp_step; [by apply acct_ask|]. cbv beta. intros a w1 [H1 Hb].
  apply wp_get. destruct (a_live _ _ _ H1 (Fd fd)) as [d E]; [by left|]. rewrite E.
  destruct (succeeds a) eqn:Es.
  - apply wp_modify, wp_ret. split; [by eapply acct_flags|done].
  - apply wp_ret. split; [done|]. intros _. by apply Hb.
Qed.

Lemma blocking_spec C o w fd block : acct C o w -> Fd fd ∈ o ->
  wp (setSocketBlocking fd block) (fun ok w' => acct C o w' /\ (ok = false -> ~ benign tcp (trace w'))) w.
Proof.
  intros H Ho. unfold setSocketBlocking. eapply wp_step; [by apply getfl_spec|]. cbv beta. intros g w1 [H1 Hg].
  destruct (Z.ltb_spec g 0); [by apply wp_ret; auto|]. destruct (_ =? _); [by apply wp_ret|].
  eapply wp_step; [by apply setfl_spec|]. cbv beta. intros r w2 [H2 Hr]. apply wp_ret. split; [done|].
  intros E. apply Hr. by apply Z.eqb_neq.
Qed.

Lemma own_set_net t n : is_net t = true -> own (set_net t n) = own_base t ++ own_net n.
Proof. intros N. unfold own, own_kind. change (is_net (set_net t n)) with (is_net t). by rewrite N. Qed.
Lemma own_net_eq t : is_net t = true -> own t = own_base t ++ own_net (net t).
Proof. intros N. unfold own, own_kind. by rewrite N. Qed.

Lemma own_base_connected t : own_base (connected t) = own_base t.
Proof. unfold own_base, connected, resetBackoff. cbn. by destruct (backoff t) as [[b s]|]. Qed.
Lemma own_connected t : own (connected t) = own t.
Proof. unfold own. by rewrite own_base_connected. Qed.

(** Two transports of the same kind: only the connection differs. *)
Definition same_kind (t t' : transport_t) : Prop := type t' = type t /\ getaddrinfo t' = getaddrinfo t.

Lemma wf_net t : wf t -> is_net t = true ->
  net_ok (net t) /\ (type t = CFG_UDP -> enable (tls (net t)) = false) /\ (type t = CFG_TCP -> tcp = true).
Proof. intros [(_ & _ & _ & ?)|[(? & _)|(? & _)]] ?; [done|congruence|congruence]. Qed.

Lemma net_wf t n : wf t -> is_net t = true -> net_ok n -> enable (tls n) = enable (tls (net t)) -> wf (set_net t n).
Proof.
  intros W N O E. destruct W as [(_ & K1 & K2 & _ & U & T)|[(? & _)|(? & _)]]; [|congruence|congruence].
  left. repeat (split; [done|]). split; [|done]. cbn. by rewrite E.
Qed.

Lemma connected_wf t : wf t -> wf (connected t).
Proof. done. Qed.

Hypothesis limit : L <= FD_SETSIZE.

Lemma select_spec C o w fd : acct C o w -> 0 <= fd < L -> wp (select fd) (fun _ w' => acct C o w') w.
Proof.
  intros H Hf. unfold select. replace ((fd <? 0) || (FD_SETSIZE <=? fd)) with false by (symmetry; apply orb_false_iff; lia).
  eapply wp_step; [by apply acct_ask|]. cbv beta. intros a w1 [H1 _]. by apply wp_ret.
Qed.

(** The outcome of an attempt on a network transport: [r] says whether there is
    a connection. *)
Definition attempted C o (t : transport_t) (r : Z) (t' : transport_t) (w' : world) : Prop :=
  acct C (own t' ++ o) w' /\ wf t' /\ same_kind t t' /\ r = Z.b2z (linked t').

Lemma linked_net t : is_net t = true -> linked t = negb (sock (net t) =? -1).
Proof. intros N. unfold linked. by rewrite N. Qed.

Lemma check_spec C o t w : wf t -> is_net t = true -> sock (net t) = -1 -> acct C (own t ++ o) w ->
  wp (checkPendingSocketStatus t) (fun '(r, t') w' => attempted C o t r t' w') w.
Proof.
  intros W N Hs H. unfold checkPendingSocketStatus. destruct (wf_net _ W N) as ((P & Q & Z1 & Z2) & U & T).
  destruct (Z1 Hs) as [Hl Hc].
  assert (Idle : forall w, acct C (own t ++ o) w -> attempted C o t 0 t w).
  { intros w0 H0. split; [done|]. split; [done|]. split; [done|]. by rewrite linked_net, Hs. }
  destruct (Z.eqb_spec (pending_connect (net t)) (-1)) as [Ep|Ep]; [by apply wp_ret, Idle|].
  destruct Q as [Q|Q]; [done|].
  eapply wp_step; [by apply select_spec|]. cbv beta. intros [rc errno] w1 H1.
  destruct (rc <? 0).
  { destruct (errno =? EINTR); [by apply wp_ret, Idle|].
    eapply wp_step; [by apply disconnect_spec|]. cbv beta. intros t' w2 [-> H2]. apply wp_ret.
    split; [done|]. split; [by apply disconnected_wf|]. rewrite disconnected_linked by done.
    split; [|done]. unfold disconnected. by rewrite N. }
  destruct (rc =? 0); [by apply wp_ret, Idle|].
  eapply wp_step; [by apply acct_ask|]. cbv beta. intros opt w2 [H2 _].
  rewrite own_net_eq in H2 by done.
  assert (Nop : forall n, is_net (set_net t n) = true) by done.
  destruct (match opt with Err _ => true | Val o => negb (o =? 0) | _ => false end).
  { eapply wp_step; [apply (acct_close C (pending_connect (net t)) (own_base t ++ own_net (set_pending (net t) (-1)) ++ o)); by_perm|].
    cbv beta. intros ? w3 [H3 _]. apply wp_ret. split; [rewrite own_set_net by done; by_perm|].
    split; [|split; [done|by rewrite linked_net; cbn; rewrite ?Hs]].
    apply net_wf; [done|done|..|done]. split; [by left|]. split; [by left|]. cbn. by rewrite Hs. }
  eapply wp_step; [apply (place_spec C (own_base t ++ own_net (set_pending (net t) (-1)) ++ o)); by_perm|].
  cbv beta. intros s w3 [H3 Hps]. cbn [net set_net].
  set (n := set_pending (set_sock (net t) s) (-1)).
  assert (H3' : acct C (own_net n ++ own_base t ++ o) w3).
  { eapply acct_perm; [|exact H3]. unfold n, own_net. cbn. rewrite Hs. perm. } clear H3.
  destruct (Z.eqb_spec s (-1)) as [->|Es].
  { apply wp_ret. split; [rewrite own_set_net by done; by_perm|].
    split; [|split; [done|by rewrite linked_net]].
    apply net_wf; [done|done|..|done]. split; [by left|]. split; [by left|]. by split. }
  destruct Hps as [?|Hps]; [done|].
  eapply (wp_step _ _ (fun _ w' => acct C (own_net n ++ own_base t ++ o) w')).
  { destruct (type _ =? _); [|by apply wp_ret]. eapply wp_step; [by apply acct_ask|]. cbv beta. intros ? w4 [H4 _].
    by apply wp_ret. }
  intros ? w4 H4. cbn [net set_net].
  eapply (wp_step _ _ (fun t' w' => acct C (own_net (net t') ++ own_base t ++ o) w' /\ net_ok (net t') /\
     exists n', t' = set_net t n' /\ enable (tls n') = enable (tls (net t)) /\ pending_connect n' = -1)).
  { destruct (enable (tls n)) eqn:Een.
    - eapply wp_step; [by apply (establish_spec C (own_base t ++ o))|]. cbv beta. intros [ok t'] w5 (H5 & O5 & n' & -> & E1 & E2 & E3).
      apply wp_ret. cbn [snd]. split; [done|]. split; [done|]. by exists n'.
    - apply wp_ret. split; [done|]. split; [|by exists n]. split; [by right|]. split; [by left|]. cbn in *.
      split; [lia|]. intros _. split; [done|]. rewrite Een. done. }
  intros t' w5 (H5 & O5 & n' & -> & E1 & E2). cbn [net set_net] in *.
  destruct (Z.eqb_spec (sock n') (-1)) as [E4|E4].
  { apply wp_ret. split; [rewrite own_set_net by done; by_perm|].
    split; [by apply net_wf|]. split; [done|]. rewrite linked_net by done. cbn. by rewrite E4. }
  eapply (wp_step _ _ (fun _ w' => acct C (own_net n' ++ own_base t ++ o) w')).
  { destruct (type _ =? _); [|by apply wp_ret]. eapply wp_step; [apply blocking_spec; [done|]|].
    { unfold own_net. rewrite (fd_res_ne _ E4). set_solver. }
    cbv beta. intros ? w6 [H6 _]. by apply wp_ret. }
  intros ? w6 H6. apply wp_ret. split.
  { rewrite own_connected, own_set_net by done. by_perm. }
  split; [apply connected_wf, (net_wf t (set_failure n' NO_FAIL)); [done|done|exact O5|done]|]. split; [done|].
  rewrite linked_net by done. cbn. by rewrite (proj2 (Z.eqb_neq _ _) E4).
Qed.

(** ** Addresses *)

(** The block the resolver will hand out, when it is the cached address. *)
Definition cache_res C (t : transport_t) (e : list res) : Prop :=
  match getaddrinfo t with
  | Libc => e = []
  | Cached => exists b l, fst C = Some (b, l) /\ e = [Blk b]
  end.

Lemma not_benign_since C o w : ~ benign tcp (snd C) -> acct C o w -> ~ benign tcp (trace w).
Proof. intros Nb H Hb. apply Nb. destruct (a_since _ _ _ H) as (k & E & _). rewrite E in Hb. by apply Forall_app in Hb as [_ Hb]. Qed.

Lemma acct_lose_all C e o w : ~ benign tcp (trace w) -> acct C (e ++ o) w -> acct C o w.
Proof. intros Nb. induction e as [|r e IH]; [done|]. intros H. by apply IH, (acct_lose _ r). Qed.

(** A network transport without a connection and without a pending one. *)
Definition idle (t : transport_t) : Prop := is_net t = true /\ sock (net t) = -1 /\ pending_connect (net t) = -1.

Lemma addrs_wf t e next l : wf t -> is_net t = true -> wf (set_net t (set_addrs (net t) e next l)).
Proof. intros W N. destruct (wf_net _ W N) as (O & _). by apply net_wf. Qed.
Lemma failure_wf t f : wf t -> is_net t = true -> wf (set_net t (set_failure (net t) f)).
Proof. intros W N. destruct (wf_net _ W N) as (O & _). by apply net_wf. Qed.

Lemma free_list_spec C o t w : wf t -> is_net t = true -> acct C (own t ++ o) w ->
  wp (freeAddressList t) (fun t' w' => acct C (own t' ++ o) w' /\ wf t' /\ addr_list (net t') = None /\
    exists n', t' = set_net t n' /\ sock n' = sock (net t) /\ pending_connect n' = pending_connect (net t)) w.
Proof.
  intros W N H. unfold freeAddressList. destruct (addr_list (net t)) as [b|] eqn:E.
  - rewrite own_net_eq in H by done. unfold own_net in H. rewrite E in H.
    eapply wp_step; [apply (acct_free C b (own_base t ++ own_net (set_addrs (net t) 0 [] None) ++ o)); by_perm|].
    cbv beta. intros ? w1 H1. apply wp_ret. split; [rewrite own_set_net by done; by_perm|].
    split; [by apply addrs_wf|]. split; [done|]. by eexists.
  - apply wp_ret. split; [done|]. split; [done|]. split; [done|]. exists (net t). by destruct t.
Qed.

Lemma lookup_spec C e o t w : cache_res C t e -> acct C (e ++ o) w ->
  wp (lookup_addrs (getaddrinfo t)) (fun r w' => acct C (ptr_res (fst <$> r) ++ o) w') w.
Proof.
  unfold cache_res, lookup_addrs. intros Hc H. destruct (getaddrinfo t).
  - subst e. eapply wp_step; [by apply acct_ask|]. cbv beta. intros a w1 [H1 _].
    destruct a as [| | | |[|x l]]; try (by apply wp_ret).
    eapply wp_step; [by apply acct_new_block|]. cbv beta. intros b w2 [H2 _]. by apply wp_ret.
  - destruct Hc as (b & l & E & ->). unfold wp, get. rewrite (a_cached _ _ _ H), E. done.
Qed.

Lemma get_list_spec C e o t w : cache_res C t e -> wf t -> idle t -> acct C (own t ++ e ++ o) w ->
  wp (getAddressList t) (fun t' w' => acct C (own t' ++ o) w' /\ wf t' /\ idle t' /\ same_kind t t') w.
Proof.
  intros Hc W (N & I1 & I2) H. unfold getAddressList.
  eapply wp_step; [by apply (free_list_spec C (e ++ o))|]. cbv beta.
  intros t' w1 (H1 & W1 & El & n' & -> & S1 & S2). change (is_net (set_net t n')) with (is_net t). rewrite N. cbn [negb].
  rewrite own_set_net in H1 by done. unfold own_net in H1. cbn [net set_net] in El. rewrite El in H1.
  eapply wp_step; [apply (lookup_spec C e (own_base t ++ own_net n' ++ o)); [done|]|].
  { unfold own_net. rewrite El. by_perm. }
  cbv beta. intros r w2 H2. unfold own_net in H2. rewrite El in H2.
  assert (Id : forall n, sock n = sock n' -> pending_connect n = pending_connect n' -> idle (set_net t n)).
  { intros n E1 E2. split; [done|]. cbn. by rewrite E1, E2, S1, S2. }
  destruct r as [[b l]|]; apply wp_ret.
  - split; [rewrite own_set_net by done; by_perm|]. split; [by apply addrs_wf|]. by split; [apply Id|].
  - split; [rewrite own_set_net by done; unfold own_net; cbn; rewrite El; by_perm|].
    split; [by apply failure_wf|]. by split; [apply Id|].
Qed.

Lemma net_type t : is_net t = true -> type t <> CFG_UDP -> type t = CFG_TCP.
Proof. unfold is_net. destruct (Z.eqb_spec (type t) CFG_UDP); [done|]. cbn. by rewrite Z.eqb_eq. Qed.

Lemma try_spec C o l t w : wf t -> idle t -> acct C (own t ++ o) w ->
  wp (try_addresses l t) (fun t' w' => acct C (own t' ++ o) w' /\ wf t' /\ same_kind t t' /\ is_net t' = true) w.
Proof.
  intros W I. revert w t W I. induction l as [|a l IH]; intros w t W I H; cbn [try_addresses].
  { apply wp_ret. split; [done|]. split; [done|]. split; [done|]. apply I. }
  set (t1 := set_net t _). destruct I as (N & I1 & I2).
  assert (W1 : wf t1) by by apply addrs_wf. assert (Id1 : idle t1) by done.
  assert (H' : acct C (own t1 ++ o) w) by (subst t1; rewrite own_set_net by done; rewrite own_net_eq in H by done; by_perm).
  clear H. assert (Sk : forall t', same_kind t1 t' -> same_kind t t') by done.
  clearbody t1. assert (Next : forall w, acct C (own t1 ++ o) w -> wp (try_addresses l t1)
    (fun t' w' => acct C (own t' ++ o) w' /\ wf t' /\ same_kind t t' /\ is_net t' = true) w).
  { intros w0 H0. eapply wp_mono; [by apply IH|]. intros t' w1 (A1 & A2 & A3 & A4). auto. }
  eapply wp_step; [by apply acct_new_fd|]. cbv beta. intros s w1 [H1 Hs].
  destruct (Z.eqb_spec s (-1)) as [->|Es]; [by apply Next|]. rewrite (fd_res_ne s Es) in H1. cbn [app] in H1.
  destruct Hs as [?|Hs]; [done|].
  eapply wp_step; [by apply (getfd_result w1 s (fun _ => True))|]. cbv beta. intros flags w2 [-> _].
  eapply wp_step; [by apply acct_setfd|]. cbv beta. intros ? w2 H2.
  eapply wp_step; [apply (blocking_spec C (Fd s :: own t1 ++ o)); [done|set_solver]|].
  cbv beta. intros nb w3 [H3 Hnb]. destruct nb; cbn [negb].
  2:{ assert (acct C (own t1 ++ o) w3) as H3' by (apply (acct_lose _ (Fd s)); auto).
      eapply wp_step; [by apply disconnect_spec|]. cbv beta. intros t' w4 [-> H4].
      destruct Id1 as (N1 & J1 & J2). unfold disconnected in *. rewrite N1 in *.
      eapply wp_mono; [apply IH; [|done|done]|].
      { apply net_wf; [done|done|apply closed_net_ok|]. by destruct (net t1) as [? ? ? ? ? []]. }
      intros t' w5 (A1 & A2 & A3 & A4). split; [done|]. split; [done|]. split; [|done]. apply Sk. exact A3. }
  destruct (match ai_family a with AF_OTHER _ => true | _ => false end).
  { eapply wp_step; [by apply acct_close|]. cbv beta. intros ? w4 [H4 _]. by apply Next. }
  unfold connect. apply wp_bind. eapply wp_step; [by apply acct_ask|]. cbv beta. intros r w4 [H4 Hb]. apply wp_ret.
  assert (F1 : wf (set_net t1 (set_failure (net t1) CONN_FAIL))) by (apply failure_wf; [done|apply Id1]).
  destruct Id1 as (N1 & J1 & J2). destruct (wf_net _ W1 N1) as ((P1 & _ & Z1 & _) & U & T).
  assert (At_once : succeeds r = true -> wp (
      if type t1 =? CFG_UDP then
        p ← placeDescriptor s;
        let t := set_net t1 (set_sock (net t1) p) in
        if p =? -1 then try_addresses l t
        else ret (connected (set_net t (set_failure (net t) NO_FAIL)))
      else try_addresses l t1)
      (fun t' w' => acct C (own t' ++ o) w' /\ wf t' /\ same_kind t t' /\ is_net t' = true) w4).
  { intros Sr. destruct (Z.eqb_spec (type t1) CFG_UDP) as [Eu|Eu].
    2:{ apply Next, (acct_lose _ (Fd s)); [|done]. apply Hb. cbn. by rewrite T, Sr by (by apply net_type). }
    eapply wp_step; [by apply place_spec|]. cbv beta zeta. intros p w5 [H5 Hp].
    rewrite own_net_eq in H5 by done. unfold own_net in H5. rewrite J1, J2 in H5.
    cbn [net set_net]. destruct (Z.eqb_spec p (-1)) as [->|Ep].
    - eapply wp_mono; [apply (IH _ (set_net t1 (set_sock (net t1) (-1)))); [|done|]|].
      + apply net_wf; [done|done| |done]. split; [by left|]. split; [by left|]. cbn. split; [auto|by rewrite J2].
      + rewrite own_set_net by done. unfold own_net. cbn. rewrite J2. by_perm.
      + intros t' w6 (A1 & A2 & A3 & A4). auto.
    - apply wp_ret. split; [rewrite own_connected, own_set_net by done; unfold own_net; cbn; rewrite J2; by_perm|].
      split; [|by split; [apply Sk|]].
      apply connected_wf, (net_wf t1 (set_failure (set_sock (net t1) p) NO_FAIL)); [done|done| |done].
      split; [done|]. split; [by left|]. cbn. split; [done|]. intros _. split; [done|]. by rewrite U. }
  destruct r as [| | |e|]; try (by apply At_once).
  cbn [Z.eqb Pos.eqb]. destruct (e =? EINPROGRESS); cbn [negb].
  - apply wp_ret. cbn [net set_net]. split.
    { rewrite own_set_net by done. rewrite own_net_eq in H4 by done. unfold own_net in H4. rewrite J2 in H4.
      eapply acct_perm; [|exact H4]. perm. }
    split; [|by split; [apply Sk|]].
    apply net_wf; [done|done| |done]. split; [done|]. split; [by right|]. split; [done|]. cbn. by rewrite J1.
  - eapply wp_step; [by apply acct_close|]. cbv beta. intros ? w5 [H5 _].
    rewrite own_net_eq in H5 by done. eapply wp_mono; [apply IH; [done|done|rewrite own_set_net by done; by_perm]|].
    intros t' w6 (A1 & A2 & A3 & A4). auto.
Qed.

(** The cached address of a reconnection may stay unused: the copy is lost, and
    the trace tells of it. *)
Definition spare C (e : list res) : Prop := e = [] \/ ~ benign tcp (snd C).

Lemma drop_cache C e o1 o2 w : spare C e -> acct C (o1 ++ e ++ o2) w -> acct C (o1 ++ o2) w.
Proof.
  intros [->|Nb] H; [done|]. apply (acct_lose_all C e); [by eapply not_benign_since|]. by_perm.
Qed.

Lemma attempts_wf t n : wf t -> wf (set_attempts t n).
Proof. done. Qed.
Lemma own_attempts t n : own (set_attempts t n) = own t.
Proof. done. Qed.

Lemma start_spec C e o t w : cache_res C t e -> spare C e -> wf t -> idle t -> acct C (own t ++ e ++ o) w ->
  wp (socketConnectionStart t) (fun '(d, t') w' =>
    acct C (own t' ++ o) w' /\ wf t' /\ same_kind t t' /\ is_net t' = true /\ d = linked t') w.
Proof.
  intros Hc Sp W I H. unfold socketConnectionStart. set (t1 := set_attempts t _).
  assert (W1 : wf t1) by by apply attempts_wf. assert (I1 : idle t1) by done.
  change (own t) with (own t1) in H. assert (Hc1 : cache_res C t1 e) by done.
  assert (Sk : forall t', same_kind t1 t' -> same_kind t t') by done. clearbody t1.
  eapply (wp_step _ _ (fun t' w' => acct C (own t' ++ o) w' /\ wf t' /\ idle t' /\ same_kind t1 t')).
  { destruct (_ || _); [by apply (get_list_spec C e)|]. apply wp_ret.
    split; [by eapply drop_cache|]. by split. }
  cbv beta. intros t2 w2 (H2 & W2 & I2 & S2).
  eapply (wp_step _ _ (fun t' w' => acct C (own t' ++ o) w' /\ wf t' /\ same_kind t2 t' /\ is_net t' = true)).
  { destruct (addr_list (net t2)); [by apply try_spec|]. apply wp_ret. split; [done|]. split; [done|].
    split; [done|]. apply I2. }
  cbv beta. intros t3 w3 (H3 & W3 & [S3 S3'] & N3). apply wp_ret. split; [done|]. split; [done|]. split.
  - apply Sk. destruct S2. split; congruence.
  - split; [done|]. by rewrite linked_net.
Qed.

Lemma allows_spec C o t w : wf t -> acct C (own t ++ o) w ->
  wp (allowsConnect t) (fun '(ok, t') w' => acct C (own t' ++ o) w' /\ wf t' /\ same_kind t t' /\
    exists b, t' = set_backoff t b) w.
Proof.
  intros W H. unfold allowsConnect. destruct (backoff t) as [[b s]|] eqn:E.
  - assert (Bk : forall r ok s', backoffAlgoAllowsConnect r (Some s) = (ok, s') -> exists x, s' = Some x).
    { intros r ok s'. cbn. destruct (_ <=? _); intros [= _ <-]; by eexists. }
    assert (Fin : forall r w, acct C (own t ++ o) w ->
      acct C (own (set_backoff t ((fun s => (b, s)) <$> snd (backoffAlgoAllowsConnect r (Some s)))) ++ o) w).
    { intros r w0 H0. destruct (backoffAlgoAllowsConnect r (Some s)) as [ok s'] eqn:Er.
      destruct (Bk _ _ _ Er) as [x ->]. cbn [snd fmap option_fmap option_map].
      replace (own (set_backoff t (Some (b, x)))) with (own t); [done|]. unfold own, own_base. by rewrite E. }
    destruct (_ <=? _).
    + eapply wp_step; [by apply acct_ask|]. cbv beta zeta. intros a w1 [H1 _]. apply wp_ret.
      split; [by apply Fin|]. split; [done|]. split; [done|]. by eexists.
    + apply wp_ret. split; [by apply Fin|]. split; [done|]. split; [done|]. by eexists.
  - apply wp_ret. split; [done|]. split; [done|]. split; [done|]. exists None. destruct t. cbn in E. by subst.
Qed.

(** ** Files *)

Lemma own_set_file t f : is_net t = false -> is_local t = false -> is_file t = true ->
  own (set_file t f) = own_base t ++ own_file f.
Proof.
  intros N K1 K2. unfold own, own_kind. change (is_net (set_file t f)) with (is_net t).
  change (is_local (set_file t f)) with (is_local t). change (is_file (set_file t f)) with (is_file t).
  by rewrite N, K1, K2.
Qed.

Lemma linked_file t : is_net t = false -> is_local t = false -> linked t = bool_decide (is_Some (stream (file t))).
Proof. intros N K1. unfold linked. by rewrite N, K1. Qed.

Lemma connect_file_spec C o t w : wf t -> is_file t = true -> linked t = false -> acct C (own t ++ o) w ->
  wp (transportConnectFile t) (fun '(r, t') w' => attempted C o t r t' w') w.
Proof.
  intros W K2 Ln H. destruct W as [(_ & _ & ? & _)|[(_ & _ & ? & _)|(N & K1 & _ & O)]]; [congruence|congruence|].
  unfold transportConnectFile. set (t1 := set_attempts t _).
  assert (Sk : forall t', same_kind t1 t' -> same_kind t t') by done.
  change (own t) with (own t1) in H. rewrite linked_file in Ln by done.
  assert (Es : stream (file t1) = None).
  { change (file t1) with (file t). apply bool_decide_eq_false in Ln. destruct (stream (file t)); [|done].
    exfalso. apply Ln. by eexists. }
  assert (N1 : is_net t1 = false) by done. assert (J1 : is_local t1 = false) by done.
  assert (J2 : is_file t1 = true) by done. clearbody t1. clear N K1 K2 O Ln.
  assert (Wf : forall s, file_ok (set_stream (file t1) s) -> wf (set_file t1 (set_stream (file t1) s))).
  { intros s Hs. right. right. by split. }
  assert (Lk : forall s, linked (set_file t1 (set_stream (file t1) (Some s))) = true).
  { intros s. rewrite linked_file by done. apply bool_decide_true. by eexists. }
  assert (Eo : own t1 = own_base t1 ++ own_file (file t1)) by (unfold own, own_kind; by rewrite N1, J1, J2).
  assert (Good : forall s w, file_ok (set_stream (file t1) (Some s)) ->
     acct C (own_base t1 ++ own_file (set_stream (file t1) (Some s)) ++ o) w ->
     attempted C o t 1 (connected (set_file t1 (set_stream (file t1) (Some s)))) w).
  { intros s w0 Fo H0. split; [rewrite own_connected, own_set_file by done; by_perm|].
    split; [apply connected_wf; by apply Wf|]. split; [by apply Sk|].
    change (linked (connected _)) with (linked (set_file t1 (set_stream (file t1) (Some s)))). by rewrite Lk. }
  assert (Bad : forall w, acct C (own t1 ++ o) w ->
     wp (t' ← transportDisconnect t1; ret (0, t')) (fun '(r, t') w' => attempted C o t r t' w') w).
  { intros w0 H0. assert (W1 : wf t1) by (right; right; unfold file_ok; by rewrite Es).
    eapply wp_step; [by apply disconnect_spec|]. cbv beta. intros t' w1 [-> H1]. apply wp_ret.
    split; [done|]. split; [by apply disconnected_wf|]. rewrite disconnected_linked by done. split; [|done].
    unfold disconnected. rewrite N1, J2. by apply Sk. }
  rewrite Eo in H. unfold own_file in H. rewrite Es in H.
  destruct (is_stdout (file t1)) eqn:Eo1.
  { apply wp_ret. apply Good; [unfold file_ok; cbn; by rewrite Eo1|by_perm]. }
  destruct (is_stderr (file t1)) eqn:Ee1.
  { apply wp_ret. apply Good; [unfold file_ok; cbn; by rewrite Eo1, Ee1|by_perm]. }
  assert (Back : forall w, acct C ((own_base t1 ++ stream_res None ++ str_res (fpath (file t1))) ++ o) w -> acct C (own t1 ++ o) w).
  { intros w0 H0. rewrite Eo. unfold own_file. by rewrite Es. }
  eapply wp_step; [by apply acct_new_fd|]. cbv beta. intros fd w1 [H1 _].
  destruct (Z.eqb_spec fd (-1)) as [->|E1]; [by apply Bad, Back|]. rewrite (fd_res_ne _ E1) in H1.
  eapply wp_step; [by apply place_spec|]. cbv beta. intros fd' w2 [H2 _].
  destruct (Z.eqb_spec fd' (-1)) as [->|E2]; [by apply Bad, Back|]. rewrite (fd_res_ne _ E2) in H2.
  eapply wp_step; [by apply acct_ask|]. cbv beta. intros ? w3 [H3 _].
  unfold fdopen. apply wp_bind. eapply wp_step; [by apply acct_ask|]. cbv beta. intros ans w4 [H4 Hb].
  destruct (succeeds ans) eqn:Sa.
  2:{ apply wp_ret, Bad, Back, (acct_lose _ (Fd fd')); [by apply Hb|done]. }
  eapply wp_step; [by apply acct_new_block|]. cbv beta. intros b w5 [H5 _]. apply wp_ret.
  eapply wp_step; [by apply acct_ask|]. cbv beta. intros ? w6 [H6 _]. apply wp_ret, Good.
  - unfold file_ok. cbn. by rewrite Eo1, Ee1.
  - by_perm.
Qed.

(** ** Local sockets *)

Lemma edge_path_spec C o w : acct C o w -> wp edgePath (fun p w' => acct C (str_res p ++ o) w') w.
Proof.
  intros H. unfold edgePath.
  assert (Dup : forall s w, acct C o w -> wp (strdup s) (fun p w' => acct C (str_res p ++ o) w') w).
  { intros s w0 H0. eapply wp_mono; [by apply acct_strdup|]. by intros p w1 [? _]. }
  assert (Def_ : forall w, acct C o w -> wp (a ← ask (CAccess EDGE_PATH_DEFAULT);
     if succeeds a then strdup EDGE_PATH_DEFAULT else ret None) (fun p w' => acct C (str_res p ++ o) w') w).
  { intros w0 H0. eapply wp_step; [by apply acct_ask|]. cbv beta. intros a w1 [H1 _].
    destruct (succeeds a); [by apply Dup|by apply wp_ret]. }
  cbv zeta. eapply wp_step; [by apply acct_ask|]. cbv beta. intros a w1 [H1 _].
  destruct (succeeds a); [by apply Dup|]. apply wp_get. destruct (env_CRIBL_HOME w1) as [h|]; [|by apply Def_].
  eapply wp_step; [by apply Dup|]. cbv beta. intros p w2 H2. destruct p as [[b p]|]; [|by apply Def_].
  eapply wp_step; [by apply acct_ask|]. cbv beta. intros a2 w3 [H3 _].
  destruct (succeeds a2); [by apply wp_ret|]. eapply wp_step; [exact (acct_free C b o w3 H3)|]. cbv beta. intros ? w4 H4. by apply Def_.
Qed.

(** The outcome of an attempt: on a local socket the result does not tell of a
    failure to place the descriptor. *)
Definition attempted_any C o (t : transport_t) (r : Z) (t' : transport_t) (w' : world) : Prop :=
  acct C (own t' ++ o) w' /\ wf t' /\ same_kind t t' /\
  (is_local t = false -> r = Z.b2z (linked t')) /\ (linked t' = true -> r = 1).

Lemma attempted_weaken C o t r t' w : attempted C o t r t' w -> attempted_any C o t r t' w.
Proof. intros (A1 & A2 & A3 & ->). split; [done|]. split; [done|]. split; [done|]. split; [done|]. by intros ->. Qed.

Lemma own_set_local t l : is_net t = false -> is_local t = true -> own (set_local t l) = own_base t ++ own_local l.
Proof.
  intros N K. unfold own, own_kind. change (is_net (set_local t l)) with (is_net t).
  change (is_local (set_local t l)) with (is_local t). by rewrite N, K.
Qed.

Lemma local_wf t l : is_net t = false -> is_local t = true -> is_file t = false -> placed (lsock l) -> wf (set_local t l).
Proof. intros. right. left. by split. Qed.

Lemma linked_local t l : is_net t = false -> is_local t = true -> linked (set_local t l) = negb (lsock l =? -1).
Proof.
  intros N K. unfold linked. change (is_net (set_local t l)) with (is_net t).
  change (is_local (set_local t l)) with (is_local t). by rewrite N, K.
Qed.

Lemma connect_local_spec C o t w : is_net t = false -> is_local t = true -> is_file t = false ->
  lsock (local t) = -1 -> acct C (own t ++ o) w ->
  wp (connectLocal t) (fun '(r, t') w' => attempted_any C o t r t' w') w.
Proof.
  intros N K1 K2 Hs H. unfold connectLocal.
  assert (H' : acct C (own_base t ++ str_res (lpath (local t)) ++ o) w).
  { unfold own, own_kind in H. rewrite N, K1 in H. unfold own_local in H. rewrite Hs in H. by_perm. }
  clear H. eapply wp_step; [by apply acct_new_fd|]. cbv beta zeta. intros s w1 [H1 Hr].
  assert (Off : forall l, lsock l = -1 -> lpath l = lpath (local t) ->
    forall w, acct C (own_base t ++ str_res (lpath (local t)) ++ o) w -> attempted_any C o t 0 (set_local t l) w).
  { intros l E1 E2 w0 H0. split; [rewrite own_set_local by done; unfold own_local; rewrite E1, E2; by_perm|].
    split; [apply local_wf; try done; rewrite E1; by left|]. split; [done|]. rewrite linked_local, E1 by done. done. }
  destruct (Z.ltb_spec s 0) as [E|E].
  { destruct Hr as [->|Hr]; [|lia]. by apply wp_ret, Off. }
  assert (Es : s <> -1) by lia. rewrite (fd_res_ne _ Es) in H1. cbn [app] in H1.
  eapply wp_step; [by apply (getfd_result w1 s (fun _ => True))|]. cbv beta. intros flags w2 [-> _].
  eapply wp_step; [by apply acct_setfd|]. cbv beta. intros ? w2 H2.
  unfold connect. apply wp_bind. eapply wp_step; [by apply acct_ask|]. cbv beta. intros r w3 [H3 _]. apply wp_ret.
  assert (Up : wp (p ← placeDescriptor s; ret (1, connected (set_local t (set_lsock (local t) p))))
                  (fun '(r, t') w' => attempted_any C o t r t' w') w3).
  { eapply wp_step; [by apply place_spec|]. cbv beta. intros p w4 [H4 Hp]. apply wp_ret.
    split; [rewrite own_connected, own_set_local by done; by_perm|].
    split; [by apply connected_wf, local_wf|]. split; [done|]. split; [by rewrite K1|done]. }
  destruct r as [| | |e|]; try exact Up. cbn [Z.eqb Pos.eqb].
  eapply wp_step; [by apply acct_close|]. cbv beta. intros ? w4 [H4 _]. by apply wp_ret, Off.
Qed.

Lemma same_kind_trans t1 t2 t3 : same_kind t1 t2 -> same_kind t2 t3 -> same_kind t1 t3.
Proof. intros [E1 E2] [E3 E4]. split; congruence. Qed.

Lemma attempted_from C o t1 t2 r t' w : same_kind t1 t2 -> attempted_any C o t2 r t' w -> attempted_any C o t1 r t' w.
Proof.
  intros Sk (A1 & A2 & A3 & A4 & A5). split; [done|]. split; [done|]. split; [by eapply same_kind_trans|].
  split; [|done]. intros K. apply A4. destruct Sk as [E _]. unfold is_local in *. by rewrite E.
Qed.

Lemma connect_edge_spec C o t w : is_net t = false -> is_local t = true -> is_file t = false ->
  lsock (local t) = -1 -> acct C (own t ++ o) w ->
  wp (connectEdge t) (fun '(r, t') w' => attempted_any C o t r t' w') w.
Proof.
  intros N K1 K2 Hs H. unfold connectEdge. set (t1 := set_attempts t _).
  assert (Sk : same_kind t t1) by done. change (own t) with (own t1) in H.
  assert (N1 : is_net t1 = false) by done. assert (J1 : is_local t1 = true) by done.
  assert (J2 : is_file t1 = false) by done. assert (Hs1 : lsock (local t1) = -1) by done. clearbody t1.
  unfold own, own_kind in H. rewrite N1, J1 in H. unfold own_local in H. rewrite Hs1 in H.
  eapply wp_step; [apply (acct_free_str C _ (own_base t1 ++ o)); by_perm|]. cbv beta. intros ? w1 H1.
  eapply wp_step; [by apply edge_path_spec|]. cbv beta zeta. intros p w2 H2.
  assert (Own : forall x n, acct C (own (set_local t1 (mkLocal (lsock (local t1)) p x n)) ++ o) w2).
  { intros x n. rewrite own_set_local by done. unfold own_local. cbn [lsock lpath]. rewrite Hs1. by_perm. }
  assert (Off : attempted_any C o t 0 (set_local t1 (set_lpath (local t1) p)) w2).
  { split; [apply Own|]. split; [apply local_wf; try done; cbn; rewrite Hs1; by left|]. split; [done|].
    rewrite linked_local by done. cbn. by rewrite Hs1. }
  destruct p as [[b path]|]; [|by apply wp_ret]. destruct (_ <=? _); [by apply wp_ret|].
  eapply wp_mono; [apply (connect_local_spec C o (set_local t1 (mkLocal (lsock (local t1)) (Some (b, path)) (sockaddr_un path) (slen path + AF_UNIX_SIZE + 1)))); try done; apply Own|].
  intros [r t'] w3 A. by eapply attempted_from; [|exact A].
Qed.

(** ** Connecting *)

Lemma connect_spec C e o t w : cache_res C t e -> spare C e -> wf t -> acct C (own t ++ e ++ o) w ->
  wp (transportConnect t) (fun '(r, t') w' => attempted_any C o t r t' w') w.
Proof.
  intros Hc Sp W H. unfold transportConnect.
  eapply wp_step; [by apply (needs_spec C (e ++ o))|]. cbv beta. intros [needs t1] w1 (H1 & W1 & -> & Ht).
  assert (Sk1 : same_kind t t1).
  { destruct Ht as [->| ->]; [done|]. unfold disconnected. by destruct (is_net t), (is_file t), (is_local t). }
  assert (Hc1 : cache_res C t1 e) by (unfold cache_res in *; destruct Sk1 as [_ ->]; done). clear Ht.
  destruct (linked t1) eqn:Ln; cbn [negb].
  { apply wp_ret. split; [by eapply drop_cache|]. split; [done|]. split; [done|]. by rewrite Ln. }
  eapply wp_step; [by apply (allows_spec C (e ++ o))|]. cbv beta. intros [ok t2] w2 (H2 & W2 & Sk2 & b & E2).
  assert (Sk : same_kind t t2) by by eapply same_kind_trans.
  assert (Hc2 : cache_res C t2 e) by (unfold cache_res in *; destruct Sk2 as [_ ->]; done).
  assert (Ln2 : linked t2 = false) by by subst t2. clear E2 Hc1 H1 Ln W1 Sk1 Sk2.
  assert (Pend : is_net t2 = true -> forall w, acct C (own t2 ++ o) w ->
    wp (checkPendingSocketStatus t2) (fun '(r, t') w' => attempted_any C o t r t' w') w).
  { intros N w0 H0. rewrite linked_net in Ln2 by done. apply negb_false_iff, Z.eqb_eq in Ln2.
    eapply wp_mono; [by apply check_spec|]. intros [r t'] w3 A. eapply attempted_from; [exact Sk|by apply attempted_weaken]. }
  assert (Idle_ : is_net t2 = true -> socketConnectIsPending t2 = false -> idle t2).
  { intros N Hp. split; [done|]. rewrite linked_net in Ln2 by done. apply negb_false_iff, Z.eqb_eq in Ln2. split; [done|].
    destruct (wf_net _ W2 N) as ((_ & Q & _) & _). unfold socketConnectIsPending in Hp. apply negb_false_iff, Z.ltb_lt in Hp. lia. }
  pose proof (drop_cache C e _ _ _ Sp H2) as H2'.
  destruct ok; cbn [negb].
  2:{ destruct (is_net t2) eqn:N; cbn [andb]; [destruct (socketConnectIsPending t2); [by apply Pend|]|];
      (apply wp_ret; split; [done|]; split; [done|]; split; [done|]; by rewrite Ln2). }
  destruct (is_net t2) eqn:N.
  { destruct (socketConnectIsPending t2) eqn:Pe; [by apply Pend|].
    eapply wp_step; [apply (start_spec C e o); try done; by apply Idle_|]. cbv beta.
    intros [d t3] w3 (H3 & W3 & Sk3 & N3 & ->). destruct (linked t3) eqn:L3.
    - apply wp_ret. split; [done|]. split; [done|]. split; [by eapply same_kind_trans|]. by rewrite L3.
    - rewrite linked_net in L3 by done. apply negb_false_iff, Z.eqb_eq in L3.
      eapply wp_mono; [by apply check_spec|]. intros [r t'] w4 A.
      eapply attempted_from; [eapply same_kind_trans; [exact Sk|exact Sk3]|by apply attempted_weaken]. }
  pose proof W2 as W2'. destruct W2 as [(? & _)|[(_ & K1 & K2 & O)|(_ & K1 & K2 & O)]]; [congruence|..].
  - rewrite K2. assert (Ls : lsock (local t2) = -1).
    { unfold linked in Ln2. rewrite N, K1 in Ln2. by apply negb_false_iff, Z.eqb_eq in Ln2. }
    destruct (Z.eqb_spec (type t2) CFG_EDGE).
    { eapply wp_mono; [by apply (connect_edge_spec C o)|]. intros [r t'] w3 A. by eapply attempted_from. }
    destruct (Z.eqb_spec (type t2) CFG_UNIX).
    { eapply wp_mono; [by apply (connect_local_spec C o)|]. intros [r t'] w3 A. by eapply attempted_from; [|exact A]. }
    exfalso. unfold is_local in K1. apply orb_true_iff in K1 as [K1|K1]; apply Z.eqb_eq in K1; done.
  - rewrite K2. eapply wp_mono; [by apply (connect_file_spec C o)|]. intros [r t'] w3 A.
    eapply attempted_from; [exact Sk|by apply attempted_weaken].
Qed.

End Accounting.

Ltac by_perm := eapply acct_perm; [|eassumption]; perm.

End TransportSafe.
