(* ===== verification/TransportLife.v ===== *)
(** * The life of a transport

    From its creation over any sequence of operations, between which the
    process opens and closes descriptors of its own, to its release: the
    transport holds what it has opened, releases only what is its own, and its
    destruction gives everything back. *)

From S2P Require Import Prelude Types Backoff Sys Transport TransportSafe.

Module TransportLife.
Import Backoff Sys Transport TransportSafe.
#[local] Open Scope sys_scope.

Section Specs.
Variables (tcp : bool) (L : Z) (F : res -> Prop) (y : Z).
Hypothesis limit : L <= FD_SETSIZE.
#[local] Abbreviation acct := (acct tcp L F).
#[local] Abbreviation wf := (wf tcp L).

Implicit Types (C : ghost) (o : list res) (w : world).

(** ** Connecting again *)

Lemma acct_switch C o w c : acct C o w -> acct (c, trace w) o (set_cached w c).
Proof. intros [N S' A B K L' X G T]. constructor; try done. exists []. by split; [|constructor]. Qed.

Lemma disconnected_kind t : same_kind t (disconnected t).
Proof. unfold disconnected. by destruct (is_net t), (is_file t), (is_local t). Qed.

Lemma libc_cache C t : getaddrinfo t = Libc -> cache_res C t [].
Proof. unfold cache_res. by intros ->. Qed.

(** [transportConnect] outside of a reconnection. *)
Lemma connect_plain C o t w : wf t -> getaddrinfo t = Libc -> acct C (own t ++ o) w ->
  wp (transportConnect t) (fun '(r, t') w' => attempted_any tcp L F C o t r t' w') w.
Proof.
  intros W G H. apply (connect_spec tcp L F limit C []); [by apply libc_cache|by left|done|done].
Qed.

Lemma existing_spec C o t w : wf t -> acct C (own t ++ o) w ->
  wp (getExistingConnectionAddr t) (fun '(c, t') w' =>
    acct C (own t' ++ ptr_res (fst <$> c) ++ o) w' /\ wf t' /\ same_kind t t' /\
    (is_Some c -> ~ benign tcp (trace w'))) w.
Proof.
  intros W H. unfold getExistingConnectionAddr.
  eapply wp_step; [by apply needs_spec|]. cbv beta. intros [needs t1] w1 (H1 & W1 & _ & Ht).
  assert (Sk : same_kind t t1) by (destruct Ht as [->| ->]; [done|apply disconnected_kind]).
  destruct (_ || _); [apply wp_ret; split; [done|]; split; [done|]; split; [done|]; by intros [? ?]|].
  eapply wp_step; [by apply acct_ask|]. cbv beta. intros a w2 [H2 _].
  destruct (succeeds a); cbn [negb]; [|apply wp_ret; split; [done|]; split; [done|]; split; [done|]; by intros [? ?]].
  eapply wp_step; [by apply acct_ask|]. cbv beta. intros r w3 [H3 Hb].
  destruct r as [| | | |[|x [|x2 l]]]; try (apply wp_ret; split; [done|]; split; [done|]; split; [done|]; by intros [? ?]).
  eapply wp_step; [by apply acct_new_block|]. cbv beta. intros b w4 [H4 E4]. apply wp_ret.
  split; [by_perm|]. split; [done|]. split; [done|]. intros _. rewrite E4. by apply Hb.
Qed.

(** Outside of a reconnection, and of type [y]. *)
Definition plain (t : transport_t) : Prop := getaddrinfo t = Libc /\ type t = y.

Lemma plain_kind t t' : same_kind t t' -> plain t -> plain t'.
Proof. intros [E1 E2] [G1 G2]. split; congruence. Qed.

(** What every operation leaves: the account of the transport. *)
Definition held (t : transport_t) (w : world) : Prop :=
  (exists C, acct C (own t) w) /\ wf t /\ plain t.

Lemma reconnect_spec t w : held t w -> wp (transportReconnect t) held w.
Proof.
  intros [[C H] [W G]]. unfold transportReconnect. destruct (Z.eqb_spec (type t) CFG_TCP) as [E|E].
  2:{ apply wp_ret. split; [by exists C|done]. }
  rewrite <- (app_nil_r (own t)) in H.
  eapply wp_step; [by apply (existing_spec C [])|]. cbv beta. intros [c t1] w1 (H1 & W1 & Sk & Hb).
  apply wp_modify. apply (acct_switch _ _ _ c) in H1. set (w2 := set_cached w1 c) in *.
  set (C2 := (c, trace w1)) in *. clearbody w2.
  eapply (wp_step _ _ (fun _ w' => acct C2 (own t1 ++ ptr_res (fst <$> c) ++ []) w')).
  { destruct (_ && _); [|by apply wp_ret]. eapply wp_step; [by apply acct_ask|]. cbv beta. intros ? w3 [H3 _].
    by apply wp_ret. }
  intros ? w3 H3. eapply wp_step; [by apply disconnect_spec|]. cbv beta. intros t' w4 [-> H4].
  assert (G1 : plain (disconnected t1)) by (by apply (plain_kind t1); [apply disconnected_kind|apply (plain_kind t)]).
  destruct c as [[b l]|].
  - eapply wp_step; [apply (connect_spec tcp L F limit C2 [Blk b] [] (set_resolver (disconnected t1) Cached))|].
    + by exists b, l.
    + right. apply Hb. by eexists.
    + apply (disconnected_wf tcp L t1 W1).
    + exact H4.
    + cbv beta. intros [r t'] w5 (A1 & A2 & [A3 _] & _). apply wp_ret. cbn [snd]. split; [|split; [done|]].
      * exists C2. rewrite app_nil_r in A1. exact A1.
      * split; [done|]. change (type (set_resolver t' Libc)) with (type t'). rewrite A3. apply G1.
  - apply wp_ret. split; [exists C2; cbn in H4; by rewrite app_nil_r in H4|]. split; [by apply disconnected_wf|done].
Qed.

(** ** Sending *)

Lemma held_intro C t w : acct C (own t ++ []) w -> wf t -> plain t -> held t w.
Proof. intros H W G. rewrite app_nil_r in H. split; [by exists C|done]. Qed.

Lemma held_elim t w : held t w -> exists C, acct C (own t ++ []) w /\ wf t /\ plain t.
Proof. intros [[C H] W]. exists C. by rewrite app_nil_r. Qed.

Lemma held_ask t w c : held t w -> wp (ask c) (fun _ => held t) w.
Proof.
  intros [[C [N S' A B K L' X G T]] W]. unfold wp, ask. split; [|done].
  exists (fst C, (c, hd Ok (script w)) :: trace w). constructor; try done.
  - intros Hb. apply B. by inversion Hb.
  - exists []. by split; [|constructor].
Qed.

Lemma held_disconnect t w : held t w -> wp (transportDisconnect t) (fun t' w' => held t' w' /\ t' = disconnected t) w.
Proof.
  intros H. destruct (held_elim _ _ H) as (C & Ha & W & G).
  eapply wp_mono; [by apply disconnect_spec|]. cbv beta. intros t' w1 [-> H1]. split; [|done].
  eapply held_intro; [done|by apply disconnected_wf|]. by apply (plain_kind t); [apply disconnected_kind|].
Qed.

Lemma held_needs t w : held t w -> wp (transportNeedsConnection t) (fun '(needs, t') w' =>
  held t' w' /\ needs = negb (linked t') /\ (t' = t \/ t' = disconnected t)) w.
Proof.
  intros H. destruct (held_elim _ _ H) as (C & Ha & W & G).
  eapply wp_mono; [by apply needs_spec|]. cbv beta. intros [n t'] w1 (H1 & W1 & -> & Ht). split; [|done].
  eapply held_intro; [done|done|]. destruct Ht as [->| ->]; [done|]. by apply (plain_kind t); [apply disconnected_kind|].
Qed.

Lemma held_connect t w : held t w -> wp (transportConnect t) (fun '(r, t') w' =>
  held t' w' /\ (is_local t = false -> r = Z.b2z (linked t')) /\ (linked t' = true -> r = 1)) w.
Proof.
  intros H. destruct (held_elim _ _ H) as (C & Ha & W & G).
  eapply wp_mono; [apply connect_plain; [done|apply G|done]|]. cbv beta. intros [r t'] w1 (A1 & A2 & Sk & A4 & A5).
  split; [|done]. eapply held_intro; [done|done|by apply (plain_kind t)].
Qed.

Lemma held_renew t w : held t w -> wp (renew t) (fun '(_, t') w' => held t' w') w.
Proof.
  intros H. unfold renew. eapply wp_step; [by apply held_disconnect|]. cbv beta. intros t1 w1 [H1 _].
  eapply wp_step; [by apply held_connect|]. cbv beta. intros [r t2] w2 [H2 _]. by apply wp_ret.
Qed.

Lemma held_send t w fd msg : held t w -> wp (send fd msg) (fun _ => held t) w.
Proof.
  intros H. unfold send. eapply wp_step; [by apply held_ask|]. cbv beta. intros a w1 H1. destruct a; by apply wp_ret.
Qed.

(** Every round of the loops takes a byte of the message. *)
Lemma plain_loop_held t fuel fd msg rc e w : held t w -> (length msg <= fuel)%nat ->
  wp (plain_loop fuel fd msg rc e) (fun '(rc', _) w' => held t w' /\ (msg <> [] \/ is_Some rc -> is_Some rc')) w.
Proof.
  revert msg rc e w. induction fuel as [|fuel IH]; intros msg rc e w H Hl.
  { destruct msg; [|cbn in Hl; lia]. apply wp_ret. split; [done|]. intros [?|?]; done. }
  destruct msg as [|x msg]; cbn [plain_loop]; [apply wp_ret; split; [done|]; intros [?|?]; done|].
  eapply wp_step; [by apply held_send|]. cbv beta zeta. intros [r err] w1 H1.
  destruct (Z.leb_spec (i32 r) 0); [apply wp_ret; split; [done|]; intros _; by eexists|].
  eapply wp_mono; [apply IH; [done|]|].
  - rewrite length_drop. cbn in *. lia.
  - intros [rc' e'] w2 [H2 Hs]. split; [done|]. intros _. apply Hs. right. by eexists.
Qed.

Lemma tls_loop_held t fuel msg w : held t w -> (length msg <= fuel)%nat ->
  wp (tls_loop fuel msg) (fun _ => held t) w.
Proof.
  revert msg w. induction fuel as [|fuel IH]; intros msg w H Hl.
  { destruct msg; [by apply wp_ret|cbn in Hl; lia]. }
  destruct msg as [|x msg]; cbn [tls_loop]; [by apply wp_ret|].
  unfold SSL_write. apply wp_bind. eapply wp_step; [by apply held_ask|]. cbv beta zeta. intros a w1 H1. apply wp_ret.
  set (rc := ssl_result a _). destruct (Z.leb_spec rc 0); [by apply wp_ret|].
  apply IH; [done|]. rewrite length_drop. cbn [length] in *. lia.
Qed.

Lemma held_once t w fd msg fatal : held t w -> wp (sendOnce t fd msg fatal) (fun '(_, t') w' => held t' w') w.
Proof.
  intros H. unfold sendOnce. destruct (fd =? -1); [by apply wp_ret|].
  eapply wp_step; [by apply held_send|]. cbv beta. intros [rc err] w1 H1. destruct (_ && _); [by apply held_renew|by apply wp_ret].
Qed.

Lemma held_transport_send t w msg : held t w -> msg <> [] ->
  wp (transportSend (Some t) (Some msg)) (fun '(_, t') w' => exists t1, t' = Some t1 /\ held t1 w') w.
Proof.
  intros H Hm. cbn [transportSend].
  eapply (wp_step _ _ (fun '(_, t') w' => held t' w')); [|intros [rc t1] w1 H1; apply wp_ret; by exists t1].
  destruct (type t =? CFG_UDP); [by apply held_once|]. destruct (type t =? CFG_TCP).
  { destruct (enable _).
    - unfold tcpSendTls. eapply wp_step; [by apply held_needs|]. cbv beta. intros [n t1] w1 [H1 _].
      destruct n; [by apply wp_ret|]. eapply wp_step; [by apply (tls_loop_held t1)|]. cbv beta. intros ok w2 H2.
      destruct ok; [by apply wp_ret|by apply held_renew].
    - unfold tcpSendPlain. eapply wp_step; [by apply held_needs|]. cbv beta. intros [n t1] w1 [H1 _].
      destruct n; [by apply wp_ret|]. eapply wp_step; [by apply (plain_loop_held t1)|]. cbv beta.
      intros [rc e] w2 [H2 Hs]. destruct Hs as [x ->]; [by left|]. destruct (_ && _); [by apply held_renew|by apply wp_ret]. }
  destruct (is_file t).
  { destruct (stream (file t)) as [s|]; [|by apply wp_ret]. unfold fwrite. apply wp_bind.
    eapply wp_step; [by apply held_ask|]. cbv beta zeta. intros a w1 H1. apply wp_ret. destruct (fwrite_result a _) as [n e].
    destruct (_ =? _); [by apply wp_ret|]; destruct (_ =? _); [by apply held_renew|by apply wp_ret]. }
  destruct (is_local t); [by apply held_once|by apply wp_ret].
Qed.

(** ** Destroying *)

Lemma destroy_spec C o t w : wf t -> acct C (own t ++ o) w ->
  wp (transportDestroy (Some t)) (fun r w' => r = None /\ acct C o w') w.
Proof.
  intros W H. cbn [transportDestroy]. unfold own, own_base in H.
  eapply wp_step; [apply (acct_free_str tcp L F C (configStr t)
    (Blk (self t) :: ptr_res (fst <$> backoff t) ++ own_kind t ++ o)); by_perm|].
  cbv beta. intros ? w1 H1. set (rest := Blk (self t) :: ptr_res (fst <$> backoff t) ++ o).
  assert (H1' : acct C (own_kind t ++ rest) w1) by (subst rest; by_perm). clear H1 H.
  eapply (wp_step _ _ (fun _ w' => acct C rest w')).
  { pose proof W as W0. destruct W as [(N & K1 & K2 & O & _)|[(N & K1 & K2 & O)|(N & K1 & K2 & O)]]; rewrite ?N, ?K1, ?K2.
    - eapply wp_step; [by apply (disconnect_kind_spec tcp L F C rest)|]. cbv beta. intros t' w2 [-> H2].
      unfold disconnected in *. rewrite N in *. unfold own_kind in H2.
      change (is_net (set_net t (closed_net (net t)))) with (is_net t) in H2. rewrite N in H2. cbn [net set_net] in *.
      set (n := closed_net (net t)) in *.
      eapply wp_step; [apply (acct_free_str tcp L F C (host n)
        (str_res (port n) ++ str_res (cacertpath (tls n)) ++ ptr_res (addr_list n) ++ rest)); subst n; by_perm|].
      cbv beta. intros ? w3 H3. eapply wp_step; [by apply acct_free_str|]. cbv beta. intros ? w4 H4.
      eapply wp_step; [by apply acct_free_str|]. cbv beta. intros ? w5 H5. unfold freeAddressList.
      cbn [net set_net]. destruct (addr_list n) as [b|]; [|by apply wp_bind, wp_ret, wp_ret].
      apply wp_bind. eapply wp_step; [exact (acct_free tcp L F C b rest w5 H5)|]. cbv beta. intros ? w6 H6. by apply wp_ret, wp_ret.
    - unfold own_kind in H1'. rewrite N, K1 in H1'. unfold own_local in H1'.
      eapply wp_step; [apply (acct_free_str tcp L F C (lpath (local t)) (fd_res (lsock (local t)) ++ rest)); by_perm|].
      cbv beta. intros ? w2 H2. unfold transportDisconnect. rewrite N, K1, K2.
      destruct (Z.eqb_spec (lsock (local t)) (-1)) as [E|E]; cbn [negb].
      { apply wp_bind, wp_ret, wp_ret. rewrite E in H2. done. }
      rewrite (fd_res_ne _ E) in H2. apply wp_bind. eapply wp_step; [by apply acct_close|]. cbv beta.
      intros ? w3 [H3 _]. by apply wp_ret, wp_ret.
    - unfold own_kind in H1'. rewrite N, K1, K2 in H1'. unfold own_file in H1'.
      eapply wp_step; [apply (acct_free_str tcp L F C (fpath (file t)) (stream_res (stream (file t)) ++ rest)); by_perm|].
      cbv beta. intros ? w2 H2. unfold file_ok in O. destruct (stream (file t)) as [[fd|b fd]|]; cbn [stream_res] in H2.
      + replace (negb (is_stdout (file t)) && negb (is_stderr (file t))) with false
          by (destruct (is_stdout (file t)), (is_stderr (file t)); done). by apply wp_ret.
      + destruct (is_stdout (file t)); [done|]. destruct (is_stderr (file t)); [done|]. cbn [negb andb].
        eapply wp_step; [apply (acct_close tcp L F C fd (Blk b :: rest)); by_perm|]. cbv beta.
        intros ? w3 [H3 _]. by apply acct_free.
      + destruct (_ && _); by apply wp_ret. }
  cbv beta. intros ? w2 H2. subst rest.
  eapply wp_step; [apply (acct_free_ptr tcp L F C (fst <$> backoff t) (Blk (self t) :: o)); by_perm|]. cbv beta.
  intros ? w3 H3. eapply wp_step; [by apply acct_free|]. cbv beta. intros ? w4 H4. by apply wp_ret.
Qed.

(** ** Creating *)

Lemma new_spec C o w : acct C o w ->
  wp newTransport (fun r w' => match r with
    | None => acct C o w'
    | Some t => acct C (own_base t ++ o) w' /\ getaddrinfo t = Libc /\ configStr t = None /\
                local t = zeroLocal
    end) w.
Proof.
  intros H. unfold newTransport. eapply wp_step; [by apply acct_alloc|]. cbv beta. intros p w1 H1.
  destruct p as [b|]; [|by apply wp_ret]. eapply wp_step; [by apply acct_alloc|]. cbv beta. intros q w2 H2.
  apply wp_ret. split; [|done]. unfold own_base. cbn [self configStr backoff str_res ptr_res fmap option_fmap option_map].
  destruct q as [c|]; by_perm.
Qed.

(** A created transport, or none and nothing held. *)
Definition made C o (r : option transport_t) (w' : world) : Prop :=
  match r with
  | None => acct C o w'
  | Some t => acct C (own t ++ o) w' /\ wf t /\ plain t
  end.

Lemma created_spec C o t w : wf t -> plain t -> acct C (own t ++ o) w -> wp (created t) (made C o) w.
Proof.
  intros W G H. unfold created. eapply wp_step; [apply connect_plain; [done|apply G|done]|]. cbv beta.
  intros [r t'] w1 (A1 & A2 & Sk & _). apply wp_ret. cbn [snd]. split; [done|]. split; [done|]. by apply (plain_kind t).
Qed.

Lemma destroyed_spec C o t w : wf t -> acct C (own t ++ o) w -> wp (transportDestroy (Some t)) (made C o) w.
Proof. intros W H. eapply wp_mono; [by apply (destroy_spec C o)|]. by intros r w1 [-> H1]. Qed.

Lemma fresh_net_wf t c k en va ca h p : (k = CFG_UDP /\ en = false) \/ (k = CFG_TCP /\ tcp = true) ->
  wf (set_net (set_configStr (set_type t k) c) (mkNet (-1) (-1) NO_FAIL h p (mkTls en va ca None None) 0 [] None)).
Proof.
  intros Hy. left. destruct Hy as [[-> ->]|[-> T]].
  all: repeat (split; [done|]); split; [split; [by left|]; split; [by left|]; by split|by split].
Qed.

Lemma optdup_spec C o s w : acct C o w -> wp (optdup s) (fun p w' => acct C (str_res p ++ o) w') w.
Proof.
  intros H. unfold optdup. destruct s; [|by apply wp_ret]. eapply wp_mono; [by apply acct_strdup|].
  by intros p w1 [? _].
Qed.

Lemma create_tcp_spec C o h p en va ca w : tcp = true -> y = CFG_TCP -> acct C o w -> wp (transportCreateTCP h p en va ca) (made C o) w.
Proof.
  intros T Hy H. unfold transportCreateTCP. destruct h as [h|]; [|by apply wp_ret]. destruct p as [p|]; [|by apply wp_ret].
  eapply wp_step; [by apply new_spec|]. cbv beta. intros r w1 H1. destruct r as [t|]; [|by apply wp_ret].
  destruct H1 as (H1 & G & Ec & _). unfold own_base in H1. rewrite Ec in H1.
  eapply wp_step; [by apply acct_strdup|]. cbv beta. intros c w2 [H2 _].
  eapply wp_step; [by apply acct_strdup|]. cbv beta. intros h' w3 [H3 _].
  eapply wp_step; [by apply acct_strdup|]. cbv beta. intros p' w4 [H4 _].
  eapply wp_step; [by apply optdup_spec|]. cbv beta zeta. intros ca' w5 H5.
  set (t' := set_net _ _). assert (W : wf t') by (apply fresh_net_wf; by right).
  assert (Ho : acct C (own t' ++ o) w5) by (unfold own, own_kind; cbn; by_perm).
  destruct (_ || _); [by apply destroyed_spec|by apply created_spec].
Qed.

Lemma create_udp_spec C o h p w : y = CFG_UDP -> acct C o w -> wp (transportCreateUdp h p) (made C o) w.
Proof.
  intros Hy H. unfold transportCreateUdp. destruct h as [h|]; [|by apply wp_ret]. destruct p as [p|]; [|by apply wp_ret].
  eapply wp_step; [by apply new_spec|]. cbv beta. intros r w1 H1. destruct r as [t|]; [|by apply wp_ret].
  destruct H1 as (H1 & G & Ec & _). unfold own_base in H1. rewrite Ec in H1.
  eapply wp_step; [by apply acct_strdup|]. cbv beta. intros c w2 [H2 _].
  eapply wp_step; [by apply acct_strdup|]. cbv beta. intros h' w3 [H3 _].
  eapply wp_step; [by apply acct_strdup|]. cbv beta zeta. intros p' w4 [H4 _].
  set (t' := set_net _ _). assert (W : wf t') by (apply fresh_net_wf; by left).
  assert (Ho : acct C (own t' ++ o) w4) by (unfold own, own_kind; cbn; by_perm).
  destruct (_ || _); [by apply destroyed_spec|by apply created_spec].
Qed.

Lemma create_file_spec C o path policy w : y = CFG_FILE -> acct C o w -> wp (transportCreateFile path policy) (made C o) w.
Proof.
  intros Hy H. unfold transportCreateFile. destruct path as [path|]; [|by apply wp_ret].
  eapply wp_step; [by apply new_spec|]. cbv beta. intros r w1 H1. destruct r as [t|]; [|by apply wp_ret].
  destruct H1 as (H1 & G & Ec & _). unfold own_base in H1. rewrite Ec in H1.
  eapply wp_step; [by apply acct_strdup|]. cbv beta. intros c w2 [H2 _].
  eapply wp_step; [by apply acct_strdup|]. cbv beta zeta. intros p w3 [H3 _].
  assert (Fin : forall so se pol, let t' := set_file (set_configStr (set_type t CFG_FILE) c) (mkFile p None so se pol) in
    wf t' /\ acct C (own t' ++ o) w3).
  { intros so se pol t'. split; [right; right; by split|]. unfold own, own_kind. cbn. by_perm. }
  destruct (_ || _); [apply destroyed_spec|apply created_spec]; try done; apply Fin.
Qed.

End Specs.

(** ** Local sockets *)

(** A descriptor that is not the library's is closed. *)
Definition except (F : res -> Prop) (fd : Z) (r : res) : Prop := F r /\ r <> Fd fd.

Lemma acct_close_foreign tcp L F C o w fd : Fd fd ∉ o -> acct tcp L F C o w ->
  acct tcp L (except F fd) C o (set_fds w (delete fd (fds w))).
Proof.
  intros Ho [N S' A B K L' X G T]. constructor; try done.
  - intros r Hr [Hf _]. eauto.
  - intros r Hr. assert (live w r /\ r <> Fd fd) as [Hl Hne].
    { destruct Hr as [Hr|[Hr Hne]]; (split; [apply A; auto|]); [by intros ->|done]. }
    destruct r as [n|b]; cbn in *; [|done]. rewrite lookup_delete_ne by congruence. done.
  - intros Hb r Hr. assert (live w r /\ r <> Fd fd) as [Hl Hne].
    { destruct r as [n|b]; cbn in *; [|done]. destruct (decide (fd = n)) as [->|E].
      - rewrite lookup_delete_eq in Hr. by destruct Hr.
      - rewrite lookup_delete_ne in Hr by done. split; [done|congruence]. }
    destruct (B Hb r Hl); [by left|by right].
Qed.

Section Local.
Variables (tcp : bool) (L : Z) (F : res -> Prop) (y : Z).
Hypothesis limit : L <= FD_SETSIZE.
#[local] Abbreviation wf := (wf tcp L).

(** As [made], but a failure may have closed descriptor 0. *)
Definition made_local C o (r : option transport_t) (w' : world) : Prop :=
  match r with
  | None => acct tcp L F C o w' \/ acct tcp L (except F 0) C o w'
  | Some t => made tcp L F y C o r w'
  end.

Lemma made_any C o r w : made tcp L F y C o r w -> made_local C o r w.
Proof. destruct r; [done|by left]. Qed.

(** The transport whose configuration string could not be allocated has not got
    its descriptor set to -1. *)
Lemma destroy_zeroed C o t w : is_net t = false -> is_local t = true -> is_file t = false ->
  configStr t = None -> local t = zeroLocal -> Fd 0 ∉ o ->
  acct tcp L F C (own_base t ++ o) w -> wp (transportDestroy (Some t)) (made_local C o) w.
Proof.
  intros N K1 K2 Ec El Ho H. cbn [transportDestroy]. rewrite Ec, N, K1, El. apply wp_bind, wp_ret.
  unfold transportDisconnect. rewrite N, K1, K2, El. cbn [lpath zeroLocal lsock Z.eqb negb].
  apply wp_bind, wp_bind, wp_ret, wp_bind, wp_bind. unfold close. unfold wp at 1, modify.
  apply wp_ret, wp_ret.
  assert (H1 : acct tcp L (except F 0) C (own_base t ++ o) (set_fds w (delete 0 (fds w)))).
  { apply acct_close_foreign; [|done]. unfold own_base. rewrite Ec.
    destruct (backoff t) as [[b ?]|]; cbn; set_solver. }
  unfold own_base in H1. rewrite Ec in H1.
  eapply wp_step; [apply (acct_free_ptr tcp L (except F 0) C (fst <$> backoff t) (Blk (self t) :: o)); by_perm|]. cbv beta.
  intros ? w2 H2. eapply wp_step; [by apply acct_free|]. cbv beta. intros ? w3 H3. apply wp_ret. by right.
Qed.

Lemma create_unix_spec C o path w : y = CFG_UNIX -> Fd 0 ∉ o -> acct tcp L F C o w -> wp (transportCreateUnix path) (made_local C o) w.
Proof.
  intros Hy Ho H. unfold transportCreateUnix. destruct path as [path|]; [|by apply wp_ret; left].
  destruct (_ <=? _); [by apply wp_ret; left|].
  eapply wp_step; [by apply new_spec|]. cbv beta. intros r w1 H1. destruct r as [t|]; [|by apply wp_ret; left].
  destruct H1 as (H1 & G & Ec & El).
  eapply wp_step; [by apply acct_strdup|]. cbv beta zeta. intros c w2 [H2 _].
  set (t1 := set_configStr (set_type t CFG_UNIX) c). destruct c as [c|].
  2:{ apply destroy_zeroed; try done. unfold own_base in *. rewrite Ec in H2. by_perm. }
  change (missing (Some c)) with false. cbn iota.
  eapply wp_step; [by apply acct_strdup|]. cbv beta zeta. intros p w3 [H3 _].
  assert (Fin : forall x n, let t' := set_local (set_local t1 (set_lsock (local t1) (-1))) (mkLocal (-1) p x n) in
    wf t' /\ acct tcp L F C (own t' ++ o) w3).
  { intros x n t'. split; [right; left; repeat (split; [done|]); by left|].
    unfold own, own_kind. cbn. unfold own_base in H3. rewrite Ec in H3. by_perm. }
  destruct (missing p).
  { eapply wp_mono; [apply (destroyed_spec tcp L F y C o); apply (Fin (sun_path (local t1)) (addr_len (local t1)))|].
    intros. by apply made_any. }
  destruct (byte_at _ 0 =? 64); (eapply wp_mono; [apply (created_spec tcp L F y limit C o); try done; apply Fin|]; intros; by apply made_any).
Qed.

Lemma create_edge_spec C o w : y = CFG_EDGE -> Fd 0 ∉ o -> acct tcp L F C o w -> wp transportCreateEdge (made_local C o) w.
Proof.
  intros Hy Ho H. unfold transportCreateEdge.
  eapply wp_step; [by apply new_spec|]. cbv beta. intros r w1 H1. destruct r as [t|]; [|by apply wp_ret; left].
  destruct H1 as (H1 & G & Ec & El).
  eapply wp_step; [by apply acct_strdup|]. cbv beta zeta. intros c w2 [H2 _]. destruct c as [c|].
  2:{ apply destroy_zeroed; try done. unfold own_base in *. rewrite Ec in H2. by_perm. }
  change (missing (Some c)) with false. cbn iota.
  eapply wp_mono; [apply (created_spec tcp L F y limit C o)|].
  - right. left. repeat (split; [done|]). by left.
  - done.
  - unfold own, own_kind. cbn. unfold own_base in H2. rewrite Ec in H2. by_perm.
  - intros. by apply made_any.
Qed.

End Local.

(** ** The life of a transport *)

(** What the reporting thread does with a transport. *)
Inductive op := Connect | Disconnect | Needs | Send (msg : list Z) | Flush | Reconnect | Status.

Definition perform (p : op) (t : transport_t) : M transport_t :=
  match p with
  | Connect => r ← transportConnect t; ret (snd r)
  | Disconnect => transportDisconnect t
  | Needs => r ← transportNeedsConnection t; ret (snd r)
  | Send msg => r ← transportSend (Some t) (Some msg); ret (default t (snd r))
  | Flush => _ ← transportFlush (Some t); ret t
  | Reconnect => transportReconnect t
  | Status => r ← transportConnectionStatus (Some t); ret (default t (snd r))
  end.

(** The ways to create one. *)
Inductive maker :=
  | Tcp (host port : string) (tls validate : bool) (cacert : option string)
  | Udp (host port : string)
  | File (path : string) (policy : Z)
  | Unix (path : string)
  | Edge.

Definition make (m : maker) : M (option transport_t) :=
  match m with
  | Tcp h p en va ca => transportCreateTCP (Some h) (Some p) en va ca
  | Udp h p => transportCreateUdp (Some h) (Some p)
  | File path policy => transportCreateFile (Some path) policy
  | Unix path => transportCreateUnix (Some path)
  | Edge => transportCreateEdge
  end.

(** A world in which [F] is all that is open and allocated. *)
Record quiet (F : res -> Prop) (w : world) : Prop := mkQuiet {
  q_live : forall r, F r <-> live w r;
  q_brk : forall b, b ∈ heap w -> b < brk w;
  q_next : MIN_NEXT <= next_fd_to_try w <= DEFAULT_FD;
  q_limit : rlimit w <= FD_SETSIZE;
}.

(** The states a transport can reach, with what the rest of the process holds:
    by its operations other than the sending of an empty message, by descriptors
    the process opens or closes for itself, and under any further answers.  The
    start is [quiet], so the descriptor limit is at most that of an fd_set,
    which src/transport.c does not check ([pending_beyond_fd_set]). *)
Inductive reach : (res -> Prop) -> transport_t -> world -> Prop :=
  | reach_make F m t w w' : quiet F w -> make m w = Def (Some t, w') -> reach F t w'
  | reach_op F t w p t' w' : reach F t w -> p <> Send [] -> perform p t w = Def (t', w') -> reach F t' w'
  | reach_open F t w fd d : reach F t w -> fds w !! fd = None ->
      reach (fun r => F r \/ r = Fd fd) t (set_fds w (<[fd := d]> (fds w)))
  | reach_close F t w fd : reach F t w -> F (Fd fd) -> reach (except F fd) t (set_fds w (delete fd (fds w)))
  | reach_script F t w sc : reach F t w -> reach F t (set_script w sc (trace w)).

Definition is_tcp (t : transport_t) : bool := type t =? CFG_TCP.

(** The account of a reachable state. *)
Definition sound (F : res -> Prop) (t : transport_t) (w : world) : Prop :=
  rlimit w <= FD_SETSIZE /\ held (is_tcp t) (rlimit w) F (type t) t w.

Lemma acct_quiet tcp F w : quiet F w -> acct tcp (rlimit w) F (g_cached_addr w, trace w) [] w.
Proof.
  intros [A K X L]. constructor; try done; [..|exists []; by split; [|constructor]].
  - constructor.
  - intros r Hr. set_solver.
  - intros r [Hr|Hr]; [set_solver|by apply A].
  - intros _ r Hr. right. by apply A.
Qed.

Lemma perform_held tcp L F y p t w : L <= FD_SETSIZE -> p <> Send [] -> held tcp L F y t w ->
  wp (perform p t) (held tcp L F y) w.
Proof.
  intros Hl Hp H. destruct p as [| | |msg| | |]; cbn [perform].
  - eapply wp_step; [by apply held_connect|]. cbv beta. intros [r t'] w1 [H1 _]. by apply wp_ret.
  - eapply wp_mono; [by apply held_disconnect|]. cbv beta. by intros t' w1 [H1 _].
  - eapply wp_step; [by apply held_needs|]. cbv beta. intros [r t'] w1 [H1 _]. by apply wp_ret.
  - eapply wp_step; [apply held_transport_send; [done|done|congruence]|]. cbv beta.
    intros [r t'] w1 (t1 & -> & H1). by apply wp_ret.
  - unfold transportFlush. eapply (wp_step _ _ (fun _ => held tcp L F y t)); [|by intros ? w1 H1; apply wp_ret].
    destruct (is_net t); [by apply wp_ret|]. destruct (is_file t); [|by apply wp_ret].
    eapply wp_step; [by apply held_ask|]. cbv beta. intros ? w1 H1. by apply wp_ret.
  - by apply reconnect_spec.
  - unfold transportConnectionStatus. apply wp_bind. eapply wp_step; [by apply held_needs|]. cbv beta.
    intros [r t'] w1 [H1 _]. by apply wp_ret, wp_ret.
Qed.

Lemma held_limit tcp L F y t w : held tcp L F y t w -> rlimit w = L.
Proof. intros [[C H] _]. apply H. Qed.

Lemma held_type tcp L F y t w : held tcp L F y t w -> type t = y.
Proof. intros (_ & _ & _ & E). done. Qed.

(** The accounts are kept whatever the process does with its own descriptors. *)
Lemma held_open tcp L F y t w fd d : fds w !! fd = None -> held tcp L F y t w ->
  held tcp L (fun r => F r \/ r = Fd fd) y t (set_fds w (<[fd := d]> (fds w))).
Proof.
  intros E [[C H] W]. split; [|done]. exists C. pose proof (acct_open tcp L F C (own t) w fd d E H) as [N S' A B K L' X G T].
  apply NoDup_cons in N as [Nn N]. constructor; try done.
  - intros r Hr [Hf| ->]; [by apply (S' r); set_solver|done].
  - intros r Hr. apply A. set_solver.
  - intros Hb r Hr. specialize (B Hb r Hr). set_solver.
Qed.

Lemma held_close tcp L F y t w fd : F (Fd fd) -> held tcp L F y t w ->
  held tcp L (except F fd) y t (set_fds w (delete fd (fds w))).
Proof.
  intros Hf [[C H] W]. split; [|done]. exists C. apply acct_close_foreign; [|done].
  intros Ho. by apply (a_sep _ _ _ _ _ _ H (Fd fd)).
Qed.

Lemma held_script tcp L F y t w sc : held tcp L F y t w -> held tcp L F y t (set_script w sc (trace w)).
Proof. intros [[C [N S' A B K L' X G T]] W]. split; [|done]. by exists C. Qed.

Lemma made_sound tcp F y m t w w' : quiet F w -> (y = CFG_TCP -> tcp = true) ->
  y = (match m with Tcp _ _ _ _ _ => CFG_TCP | Udp _ _ => CFG_UDP | File _ _ => CFG_FILE | Unix _ => CFG_UNIX | Edge => CFG_EDGE end) ->
  make m w = Def (Some t, w') -> held tcp (rlimit w) F y t w'.
Proof.
  intros Q Ht Hy E. pose proof (acct_quiet tcp F w Q) as H. pose proof (q_limit _ _ Q) as Hl.
  assert (M : made tcp (rlimit w) F y (g_cached_addr w, trace w) [] (Some t) w').
  { assert (O : Fd 0 ∉ []) by set_solver.
    assert (M : wp (make m) (fun r w' => is_Some r -> made tcp (rlimit w) F y (g_cached_addr w, trace w) [] r w') w).
    { destruct m; cbn [make].
      - eapply wp_mono; [by apply (create_tcp_spec tcp (rlimit w) F y Hl); [apply Ht|..]|]. by intros.
      - eapply wp_mono; [by apply (create_udp_spec tcp (rlimit w) F y Hl)|]. by intros.
      - eapply wp_mono; [by apply (create_file_spec tcp (rlimit w) F y Hl)|]. by intros.
      - eapply wp_mono; [by apply (create_unix_spec tcp (rlimit w) F y Hl)|]. by intros [?|] ? ? [].
      - eapply wp_mono; [by apply (create_edge_spec tcp (rlimit w) F y Hl)|]. by intros [?|] ? ? []. }
    unfold wp in M. rewrite E in M. apply M. by eexists. }
  destruct M as (A & W & G). rewrite app_nil_r in A. split; [by eexists|done].
Qed.

Lemma reach_sound F t w : reach F t w -> sound F t w.
Proof.
  induction 1 as [F m t w w' Q E|F t w p t' w' R [L H] Hp E|F t w fd d R [L H] E|F t w fd R [L H] E|F t w sc R [L H]].
  - set (y := match m with Tcp _ _ _ _ _ => CFG_TCP | Udp _ _ => CFG_UDP | File _ _ => CFG_FILE | Unix _ => CFG_UNIX | Edge => CFG_EDGE end).
    assert (H : held (y =? CFG_TCP) (rlimit w) F y t w') by (eapply made_sound; try done; intros Hy; by rewrite Hy).
    pose proof (held_limit _ _ _ _ _ _ H) as El. pose proof (held_type _ _ _ _ _ _ H) as Et.
    split; [rewrite El; apply Q|]. unfold is_tcp. by rewrite Et, El.
  - pose proof (perform_held _ _ _ _ p t w L Hp H) as P. unfold wp in P. rewrite E in P.
    pose proof (held_limit _ _ _ _ _ _ P) as El. pose proof (held_type _ _ _ _ _ _ P) as Et.
    split; [by rewrite El|]. unfold is_tcp in *. by rewrite Et, El.
  - split; [done|]. by apply held_open.
  - split; [done|]. by apply held_close.
  - split; [done|]. by apply held_script.
Qed.

(** C37: at every moment of its life a transport holds exactly what it has
    opened: its descriptors and blocks are open and its own, nothing of the rest
    of the process [F] was closed, and unless one of the answers occurred after
    which the code loses a descriptor, nothing else is open.  Its sockets are
    where [placeDescriptor] puts them, out of the way of the process. *)
Theorem transport_accounted F t w : reach F t w ->
  NoDup (own t) /\ (forall r, r ∈ own t -> live w r /\ ~ F r) /\ (forall r, F r -> live w r) /\
  (benign (is_tcp t) (trace w) -> forall r, live w r -> r ∈ own t \/ F r) /\
  (is_net t = true -> placed (sock (net t))) /\ (is_local t = true -> placed (lsock (local t))).
Proof.
  intros R. destruct (reach_sound _ _ _ R) as (_ & [C H] & W & _). split; [apply H|].
  split; [intros r Hr; split; [apply (a_live _ _ _ _ _ _ H); auto|]; intros Hf; exact (a_sep _ _ _ _ _ _ H r Hr Hf)|].
  split; [intros r Hr; apply (a_live _ _ _ _ _ _ H); auto|]. split; [apply H|].
  destruct W as [(N & K & _ & (P & _) & _)|[(N & K & _ & P)|(N & K & _)]]; split; congruence || done.
Qed.

(** C38: in every reachable state each operation other than the sending of an
    empty message returns without undefined behaviour, and destroying the
    transport gives back all it holds: what is open then is the rest of the
    process, and only that unless a descriptor was lost.  The states are those
    reached by operations other than the sending of an empty message, in a
    process whose descriptor limit is at most the 1024 of an fd_set ([quiet]);
    [empty_send_undefined] and [pending_beyond_fd_set] show that both conditions
    are needed. *)
Theorem transport_released F t w : reach F t w ->
  (forall p, p <> Send [] -> exists t' w', perform p t w = Def (t', w')) /\
  exists w', transportDestroy (Some t) w = Def (None, w') /\ (forall r, F r -> live w' r) /\
    (benign (is_tcp t) (trace w') -> forall r, live w' r -> F r).
Proof.
  intros R. destruct (reach_sound _ _ _ R) as (L & H). split.
  - intros p Hp. destruct (wp_run _ _ _ (perform_held _ _ _ _ p t w L Hp H)) as (t' & w' & E & _). by exists t', w'.
  - destruct H as ([C H] & W & _). rewrite <- (app_nil_r (own t)) in H.
    destruct (wp_run _ _ _ (destroy_spec _ _ _ C [] t w W H)) as (r & w' & E & -> & A). exists w'. split; [done|].
    split; [intros r Hr; apply (a_live _ _ _ _ _ _ A); auto|].
    intros Hb r Hr. destruct (a_all _ _ _ _ _ _ A Hb r Hr); [set_solver|done].
Qed.

(** [transportConnect] tells the truth for network and file transports: it
    returns 1 exactly when the transport is connected afterwards; for local
    sockets a connection is always reported, but 1 does not imply one. *)
Theorem transport_connect_truthful F t w : reach F t w ->
  exists r t' w', transportConnect t w = Def ((r, t'), w') /\
    (is_local t = false -> r = (if linked t' then 1 else 0)) /\ (linked t' = true -> r = 1).
Proof.
  intros R. destruct (reach_sound _ _ _ R) as (L & H).
  destruct (wp_run _ _ _ (held_connect _ _ _ _ L t w H)) as ([r t'] & w' & E & _ & A1 & A2).
  exists r, t', w'. split; [done|]. split; [|done]. intros K. rewrite (A1 K). by destruct (linked t').
Qed.

(** ** Examples *)

(** A process with its three standard descriptors, and what follows when the
    calls get these answers. *)
Definition std_fds : gmap Z desc := list_to_map (map (fun i => (i, mkDesc false false)) [0; 1; 2]).
Definition process (sc : list answer) : world := mkWorld std_fds 1024 ∅ 1 sc [] DEFAULT_FD None None.

Lemma process_quiet sc : quiet (live (process sc)) (process sc).
Proof. constructor; [done|intros b Hb; set_solver|done|done]. Qed.

(** The state a creation and operations lead to. *)
Definition made_state (m : maker) (w : world) : option (transport_t * world) :=
  match make m w with Def (Some t, w') => Some (t, w') | _ => None end.
Fixpoint perform_all (l : list op) (t : transport_t) (w : world) : option (transport_t * world) :=
  match l with
  | [] => Some (t, w)
  | p :: l => match perform p t w with Def (t', w') => perform_all l t' w' | UB => None end
  end.

Lemma reach_all F l t w t' w' : reach F t w -> Forall (fun p => p <> Send []) l ->
  perform_all l t w = Some (t', w') -> reach F t' w'.
Proof.
  revert t w. induction l as [|p l IH]; intros t w R Hl E; cbn in E; [by injection E as <- <-|].
  destruct (perform p t w) as [[t1 w1]|] eqn:Ep; [|done]. apply Forall_cons in Hl as [Hp Hl].
  apply (IH t1 w1); [by eapply reach_op|done|done].
Qed.

Definition addr (n : Z) : addrinfo := mkAddr AF_INET n.

(** A TCP transport with two addresses, whose first attempt is pending, then
    done; a message is sent in two parts, and the peer goes away. *)
Definition tcp_script : list answer :=
  [Ok; Ok; Ok; Ok; Ok; Val 7; Addrs [addr 1; addr 2]; Ok; Ok; Ok; Ok; Err EINPROGRESS; Val 0;
   Ok; Ok; Ok; Ok; Ok; Ok; Ok; Ok; Val 2; Ok; Val POLLRDHUP].
Definition tcp_maker : maker := Tcp "collector" "9109" false false None.
Definition tcp_ops : list op := [Connect; Send [104; 101; 108; 108; 111]; Needs].
Definition tcp_state (l : list op) : option (transport_t * world) :=
  made_state tcp_maker (process tcp_script) ≫= fun s => perform_all l (fst s) (snd s).

(** The states of the example are reachable. *)
Lemma reach_example F m l w t t1 w1 w2 : quiet F w -> Forall (fun p => p <> Send []) l ->
  made_state m w = Some (t, w1) -> perform_all l t w1 = Some (t1, w2) -> reach F t1 w2.
Proof.
  intros Q Hl E1 E2. eapply reach_all; [|done|exact E2]. apply (reach_make F m t w w1 Q).
  unfold made_state in E1. destruct (make m w) as [[[t0|] w0]|]; [|done|done]. by injection E1 as -> ->.
Qed.

Definition tcp_connected : transport_t * world := default (mkTransport 0 0 None Libc 0 None zeroNet zeroLocal zeroFile, process [])
  (tcp_state [Connect; Send [104; 101; 108; 108; 111]]).

Lemma tcp_connected_reach : reach (live (process tcp_script)) (fst tcp_connected) (snd tcp_connected).
Proof.
  apply (reach_example _ tcp_maker [Connect; Send [104; 101; 108; 108; 111]] (process tcp_script)
    (fst (default tcp_connected (tcp_state []))) _ (snd (default tcp_connected (tcp_state [])))).
  - apply process_quiet.
  - repeat constructor; done.
  - vm_compute. reflexivity.
  - vm_compute. reflexivity.
Qed.

Lemma transport_accounted_witness :
  own (fst tcp_connected) = [Blk 1; Blk 3; Blk 2; Fd 999; Blk 4; Blk 5; Blk 6] /\
  benign (is_tcp (fst tcp_connected)) (trace (snd tcp_connected)) /\
  forall r, live (snd tcp_connected) r -> r ∈ own (fst tcp_connected) \/ live (process tcp_script) r.
Proof.
  assert (B : benign (is_tcp (fst tcp_connected)) (trace (snd tcp_connected))) by (vm_compute; repeat constructor).
  split; [vm_compute; reflexivity|]. split; [exact B|].
  exact (proj1 (proj2 (proj2 (proj2 (transport_accounted _ _ _ tcp_connected_reach)))) B).
Defined.

Lemma transport_released_witness :
  exists w', transportDestroy (Some (fst tcp_connected)) (snd tcp_connected) = Def (None, w') /\
    forall r, live (process tcp_script) r -> live w' r.
Proof.
  destruct (proj2 (transport_released _ _ _ tcp_connected_reach)) as (w' & E & A & _). exact (ex_intro _ w' (conj E A)).
Defined.

Lemma transport_connect_truthful_witness :
  exists r t' w', transportConnect (fst tcp_connected) (snd tcp_connected) = Def ((r, t'), w') /\
    r = (if linked t' then 1 else 0).
Proof.
  destruct (transport_connect_truthful _ _ _ tcp_connected_reach) as (r & t' & w' & E & A & _).
  exists r, t', w'. split; [exact E|]. apply A. vm_compute. reflexivity.
Defined.

(** ** Where the code loses or takes what it should not *)

(** The observable part of a run: descriptors that are open, and those held. *)
Definition open_fds (w : world) : list Z := map fst (map_to_list (fds w)).

(** A failure to allocate the configuration string of a UNIX or edge transport:
    the transport is destroyed before its descriptor is set to -1, and descriptor
    0 of the process is closed. *)
Theorem failed_creation_closes_stdin :
  is_open (process []) 0 = true /\
  match transportCreateUnix (Some "/run/s"%string) (process [Ok; Ok; Err 12]) with
  | Def (None, w') => is_open w' 0 = false | _ => False end /\
  match transportCreateEdge (process [Ok; Ok; Err 12]) with
  | Def (None, w') => is_open w' 0 = false | _ => False end.
Proof. vm_compute. auto. Qed.

(** A TCP connect that succeeds at once, a socket that cannot be made
    non-blocking, a failing fdopen: the descriptor stays open and is not held. *)
Theorem descriptors_lost :
  let lost m sc := match made_state m (process sc) with
    | Some (t, w) => List.filter (fun i => negb (bool_decide (Fd i ∈ own t))) (open_fds w) | None => [] end in
  lost tcp_maker [Ok; Ok; Ok; Ok; Ok; Ok; Addrs [addr 1]] = [3; 2; 1; 0] /\
  lost tcp_maker [Ok; Ok; Ok; Ok; Ok; Ok; Addrs [addr 1]; Ok; Ok; Err 1] = [3; 2; 1; 0] /\
  lost (File "/tmp/out" CFG_BUFFER_FULLY) [Ok; Ok; Ok; Ok; Ok; Ok; Ok; Ok; Ok; Err 12] = [999; 2; 1; 0].
Proof. vm_compute. auto. Qed.

(** The addresses that were connected to, latest first. *)
Definition connects (w : world) : list Z :=
  omap (fun e => match fst e with CConnect _ a => Some a | _ => None end) (trace w).

(** A child process that reconnects while addresses of the last lookup are left
    tries the next of those (2), not the address of the connection it had (1),
    and the copy of that address is lost. *)
Theorem reconnect_takes_other_address :
  match made_state tcp_maker (process (take 20 tcp_script ++ [Ok; Ok; Addrs [addr 1]; Ok; Ok; Ok; Ok; Ok; Err EINPROGRESS]))
          ≫= fun s => perform_all [Connect; Reconnect] (fst s) (snd s) with
  | Some (t, w) => connects w = [2; 1] /\ 7 ∈ heap w /\ Blk 7 ∉ own t
  | None => False
  end.
Proof. vm_compute. split; [done|]. split; [done|]. by intros H; repeat (inversion H; subst; clear H; rename select (_ ∈ _) into H). Qed.

(** A descriptor beyond the size of an fd_set: the check of a pending connection
    writes outside of it. *)
Theorem pending_beyond_fd_set :
  checkPendingSocketStatus (mkTransport 1 CFG_TCP None Libc 0 None
    (mkNet (-1) 1024 CONN_FAIL None None zeroTls 0 [] None) zeroLocal zeroFile) (process []) = UB.
Proof. reflexivity. Qed.

(** Sending an empty message over a TCP connection tests a variable that was
    never set. *)
Theorem empty_send_undefined :
  transportSend (Some (fst tcp_connected)) (Some []) (set_script (snd tcp_connected) [] []) = UB.
Proof. vm_compute. reflexivity. Qed.

(** When no descriptor can be placed a UNIX transport reports a connection it
    does not have. *)
Theorem unplaced_socket_reported :
  match made_state (Unix "/run/s") (process [Ok; Ok; Ok; Ok; Err 111; Err 24]) with
  | Some (t, w) =>
      match transportConnect (set_backoff t None) (set_fds w (list_to_map (map (fun i => (i, mkDesc false false)) (seqZ 0 3 ++ seqZ 200 800)))) with
      | Def ((r, t'), _) => r = 1 /\ linked t' = false
      | UB => False
      end
  | None => False
  end.
Proof. vm_compute. auto. Qed.

End TransportLife.
