(* ===== verification/TransportSend.v ===== *)
(** * What a transport passes on

    The bytes that a call of [transportSend] hands to the system, in the order
    in which the system takes them, are a prefix of the message; and when it
    reports success over TLS or into a file they are the message. *)

From S2P Require Import Prelude Types Backoff Sys Transport TransportSafe TransportLife.

Module TransportSend.
Import Backoff Sys Transport TransportSafe TransportLife.
#[local] Open Scope sys_scope.

#[local] Abbreviation zlen l := (Z.of_nat (length l)).

(** The bytes a call has passed on. *)
Definition taken (e : call * answer) : list Z :=
  match e with
  | (CSend _ msg, Err _) => []
  | (CSend _ msg, a) => take (Z.to_nat (accepted a (zlen msg))) msg
  | (CSslWrite msg, a) => take (Z.to_nat (ssl_result a (zlen msg))) msg
  | (CWrite _ msg, a) => take (Z.to_nat (fst (fwrite_result a (zlen msg)))) msg
  | _ => []
  end.

(** In the order of the calls (a trace has the latest first). *)
Definition sent (tr : list (call * answer)) : list Z := concat (map taken (rev tr)).

(** A call that was to pass data on and did not take any. *)
Definition stuck (e : call * answer) : Prop := is_send (fst e) = true /\ taken e = [].

Lemma sent_cons e k : sent (e :: k) = sent k ++ taken e.
Proof. unfold sent. cbn [rev]. rewrite map_app, concat_app. cbn. by rewrite app_nil_r. Qed.

Lemma sent_app k1 k2 : sent (k1 ++ k2) = sent k2 ++ sent k1.
Proof. unfold sent. by rewrite rev_app_distr, map_app, concat_app. Qed.

Lemma sent_none k : no_sends k -> sent k = [].
Proof.
  induction 1 as [|[c a] k Hc _ IH]; [done|]. rewrite sent_cons, IH. by destruct c.
Qed.

Lemma wp_conj {A} (m : M A) (Q R : A -> world -> Prop) w : wp m Q w -> wp m R w -> wp m (fun a w' => Q a w' /\ R a w') w.
Proof. unfold wp. destruct (m w) as [[a w']|]; auto. Qed.

(** The calls made since [w]. *)
Definition since (w w' : world) (k : list (call * answer)) : Prop := trace w' = k ++ trace w.

Lemma since_trans w1 w2 w3 k1 k2 : since w1 w2 k1 -> since w2 w3 k2 -> since w1 w3 (k2 ++ k1).
Proof. unfold since. intros -> ->. by rewrite app_assoc. Qed.

(** ** Steps that pass nothing on *)

Section Held.
Variables (tcp : bool) (L : Z) (F : res -> Prop) (y : Z).
Hypothesis limit : L <= FD_SETSIZE.
#[local] Abbreviation held := (held tcp L F y).

Definition silent (t : transport_t) (w w' : world) : Prop := held t w' /\ exists k, since w w' k /\ no_sends k.

Lemma held_now t w : held t w -> exists c, acct tcp L F (c, trace w) (own t ++ []) w /\ wf tcp L t /\ plain y t.
Proof.
  intros [[C [N S' A B K L' X G T]] W]. exists (fst C). split; [|done]. rewrite app_nil_r. constructor; try done.
  exists []. by split; [|constructor].
Qed.

Lemma acct_silent c t w w' : acct tcp L F (c, trace w) (own t ++ []) w' -> wf tcp L t -> plain y t -> silent t w w'.
Proof.
  intros H W P. pose proof (a_since _ _ _ _ _ _ H) as (k & E & Hk). split; [by eapply held_intro|]. by exists k.
Qed.

Lemma needs_silent t w : held t w -> wp (transportNeedsConnection t) (fun '(needs, t') w' =>
  silent t' w w' /\ needs = negb (linked t') /\ (t' = t \/ t' = disconnected t)) w.
Proof.
  intros H. destruct (held_now _ _ H) as (c & Ha & W & P).
  eapply wp_mono; [by apply needs_spec|]. cbv beta. intros [n t'] w1 (H1 & W1 & -> & Ht). split; [|done].
  eapply acct_silent; [done|done|]. destruct Ht as [->| ->]; [done|]. by apply (plain_kind y t); [apply disconnected_kind|].
Qed.

Lemma renew_silent t w : held t w -> wp (renew t) (fun '(rc, t') w' => silent t' w w' /\ rc = -1) w.
Proof.
  intros H. destruct (held_now _ _ H) as (c & Ha & W & P). unfold renew.
  eapply wp_step; [by apply disconnect_spec|]. cbv beta. intros t1 w1 [-> H1].
  assert (P1 : plain y (disconnected t)) by (by apply (plain_kind y t); [apply disconnected_kind|]).
  eapply wp_step; [apply connect_plain; [done|by apply disconnected_wf|apply P1|exact H1]|].
  cbv beta. intros [r t2] w2 (A1 & A2 & Sk & _). apply wp_ret. cbn [snd]. split; [|done].
  eapply acct_silent; [done|done|by apply (plain_kind y (disconnected t))].
Qed.

(** ** The loops *)

(** One call, and what is left. *)
Lemma send_call fd msg w : msg <> [] -> wp (send fd msg) (fun '(r, e) w' => exists x,
  since w w' [x] /\ taken x = take (Z.to_nat (i32 r)) msg /\ is_send (fst x) = true /\ i32 r <= zlen msg) w.
Proof.
  intros Hm. unfold send, wp, bind, ask. cbv beta iota zeta. set (a := hd Ok (script w)).
  assert (B : 0 <= accepted a (zlen msg) <= zlen msg /\ i32 (accepted a (zlen msg)) = accepted a (zlen msg)).
  { unfold accepted, SEND_MAX. assert (0 <= zlen msg) by lia.
    destruct a; (split; [lia|apply i32_small; lia]). }
  destruct a as [|n|n e|e|l] eqn:Ea; eexists; (split; [reflexivity|]).
  all: try (split; [cbn [taken]; by rewrite (proj2 B)|]; split; [done|]; rewrite (proj2 B); apply B).
  split; [done|]. split; [done|]. vm_compute i32. lia.
Qed.

(** What the loops establish: a prefix was passed on; all of it, or the last call
    took nothing. *)
Definition passed (msg : list Z) (whole : Prop) (w w' : world) : Prop :=
  exists k, since w w' k /\ sent k `prefix_of` msg /\ (whole -> sent k = msg) /\ (~ Exists stuck k -> sent k = msg).

Lemma passed_step msg whole w w1 w2 x n : since w w1 [x] -> taken x = take n msg ->
  passed (drop n msg) whole w1 w2 -> passed msg whole w w2.
Proof.
  intros S1 T (k & S2 & (l & P) & Wh & St). exists (k ++ [x]). split; [by eapply since_trans|].
  assert (E : forall z, sent k ++ z = drop n msg -> sent (k ++ [x]) ++ z = msg).
  { intros z Hz. rewrite sent_app, sent_cons. cbn [sent rev map concat app]. rewrite T, <- app_assoc, Hz. apply take_drop. }
  assert (E0 : sent k = drop n msg -> sent (k ++ [x]) = msg).
  { intros Hz. rewrite <- (app_nil_r (sent (k ++ [x]))). apply E. by rewrite app_nil_r. }
  split; [exists l; symmetry; by apply E|]. split; [auto|]. intros Hn. apply E0, St. intros Hx. apply Hn.
  apply Exists_app. by left.
Qed.

Lemma passed_stop msg whole w w' x : since w w' [x] -> stuck x -> ~ whole -> passed msg whole w w'.
Proof.
  intros S1 Sx Hw. exists [x]. split; [done|]. rewrite sent_cons. destruct Sx as [Sx Tx]. rewrite Tx.
  split; [apply prefix_nil|]. split; [done|]. intros Hn. exfalso. apply Hn. by constructor.
Qed.

Lemma passed_nil whole w : passed [] whole w w.
Proof. exists []. split; [done|]. split; [done|]. by split. Qed.

Lemma take_none (n : Z) (l : list Z) : n <= 0 -> take (Z.to_nat n) l = [].
Proof. intros H. replace (Z.to_nat n) with 0%nat by lia. done. Qed.

Lemma plain_passes fuel fd msg rc e w : (length msg <= fuel)%nat ->
  wp (plain_loop fuel fd msg rc e) (fun _ w' => passed msg False w w') w.
Proof.
  revert msg rc e w. induction fuel as [|fuel IH]; intros msg rc e w Hl.
  { destruct msg; [|cbn in Hl; lia]. apply wp_ret, passed_nil. }
  destruct msg as [|x msg]; cbn [plain_loop]; [apply wp_ret, passed_nil|].
  eapply wp_step; [by apply send_call|]. cbv beta zeta. intros [r err] w1 (ev & S1 & T & Sd & B).
  destruct (Z.leb_spec (i32 r) 0) as [Hr|Hr].
  { apply wp_ret. apply (passed_stop _ _ _ _ ev); [done| |tauto]. split; [done|]. by rewrite T, take_none. }
  eapply wp_mono; [apply IH; rewrite length_drop; cbn [length] in *; lia|].
  intros ? w2 P. by eapply passed_step.
Qed.

Lemma ssl_call msg w : wp (SSL_write msg) (fun r w' => exists x,
  since w w' [x] /\ taken x = take (Z.to_nat r) msg /\ is_send (fst x) = true) w.
Proof.
  unfold SSL_write, wp, bind, ask, ret. cbv beta iota zeta. eexists. split; [reflexivity|]. by split.
Qed.

Lemma tls_passes fuel msg w : (length msg <= fuel)%nat ->
  wp (tls_loop fuel msg) (fun ok w' => passed msg (ok = true) w w') w.
Proof.
  revert msg w. induction fuel as [|fuel IH]; intros msg w Hl.
  { destruct msg; [|cbn in Hl; lia]. apply wp_ret, passed_nil. }
  destruct msg as [|x msg]; cbn [tls_loop]; [apply wp_ret, passed_nil|].
  eapply wp_step; [apply ssl_call|]. cbv beta zeta. intros r w1 (ev & S1 & T & Sd).
  destruct (Z.leb_spec r 0) as [Hr|Hr].
  { apply wp_ret. apply (passed_stop _ _ _ _ ev); [done| |done]. split; [done|]. by rewrite T, take_none. }
  eapply wp_mono; [apply IH; rewrite length_drop; cbn [length] in *; lia|].
  intros ok w2 P. by eapply passed_step.
Qed.

(** Silent steps before and after. *)
Lemma passed_before msg (whole : Prop) w w1 w2 k : since w w1 k -> no_sends k -> passed msg whole w1 w2 -> passed msg whole w w2.
Proof.
  intros S1 N (k2 & S2 & P & Wh & St). exists (k2 ++ k). split; [by eapply since_trans|].
  rewrite sent_app, (sent_none k N). cbn [app]. split; [done|]. split; [done|]. intros Hn. apply St. intros Hx. apply Hn.
  apply Exists_app. by left.
Qed.

Lemma passed_after msg (whole whole' : Prop) w w1 w2 k : passed msg whole w w1 -> since w1 w2 k -> no_sends k ->
  (whole' -> whole) -> passed msg whole' w w2.
Proof.
  intros (k1 & S1 & P & Wh & St) S2 N Hw. exists (k ++ k1). split; [by eapply since_trans|].
  rewrite sent_app, (sent_none k N), app_nil_r. split; [done|]. split; [auto|]. intros Hn. apply St. intros Hx. apply Hn.
  apply Exists_app. by right.
Qed.

(** ** TCP *)

(** The outcome of a transmission: what was passed on is a prefix of the
    message, and all of it under the condition [whole]. *)
Definition transmitted (msg : list Z) (whole : list (call * answer) -> Prop) (w w' : world) : Prop :=
  exists k, since w w' k /\ sent k `prefix_of` msg /\ (whole k -> sent k = msg).

Lemma tls_transmits t msg w : held t w -> 
  wp (tcpSendTls t msg) (fun '(rc, t') w' => held t' w' /\ transmitted msg (fun _ => rc = 0) w w') w.
Proof.
  intros H. unfold tcpSendTls. eapply wp_step; [by apply needs_silent|]. cbv beta. intros [n t1] w1 ([H1 (k & S1 & N1)] & _).
  destruct n.
  { apply wp_ret. split; [done|]. exists k. split; [done|]. rewrite (sent_none k N1). split; [apply prefix_nil|done]. }
  eapply wp_step; [apply wp_conj; [by apply (tls_loop_held tcp L F y t1)|by apply tls_passes]|]. cbv beta. intros ok w2 [H2 P2].
  destruct ok.
  - apply wp_ret. split; [done|]. destruct (passed_before _ _ _ _ _ _ S1 N1 P2) as (k2 & A1 & A2 & A3 & _).
    exists k2. auto.
  - eapply wp_mono; [by apply renew_silent|]. intros [rc t2] w3 ([H3 (k3 & S3 & N3)] & ->). split; [done|].
    destruct (passed_after _ _ (-1 = 0) _ _ _ _ (passed_before _ _ _ _ _ _ S1 N1 P2) S3 N3) as (k2 & A1 & A2 & A3 & _); [done|].
    exists k2. auto.
Qed.

Lemma plain_transmits t msg w : held t w -> msg <> [] ->
  wp (tcpSendPlain t msg) (fun '(rc, t') w' => held t' w' /\ transmitted msg (fun k => rc = 0 /\ ~ Exists stuck k) w w') w.
Proof.
  intros H Hm. unfold tcpSendPlain. eapply wp_step; [by apply needs_silent|]. cbv beta. intros [n t1] w1 ([H1 (k & S1 & N1)] & _).
  destruct n.
  { apply wp_ret. split; [done|]. exists k. split; [done|]. rewrite (sent_none k N1). split; [apply prefix_nil|by intros [? _]]. }
  eapply wp_step; [apply wp_conj; [by apply (plain_loop_held tcp L F y t1)|by apply plain_passes]|]. cbv beta.
  intros [rc e] w2 [[H2 Hs] P2]. destruct Hs as [r ->]; [by left|].
  pose proof (passed_before _ _ _ _ _ _ S1 N1 P2) as P. destruct (_ && _).
  - eapply wp_mono; [by apply renew_silent|]. intros [rc t2] w3 ([H3 (k3 & S3 & N3)] & ->). split; [done|].
    destruct (passed_after _ _ False _ _ _ _ P S3 N3) as (k2 & A1 & A2 & _ & A3); [done|].
    exists k2. split; [done|]. split; [done|]. by intros [? _].
  - apply wp_ret. split; [done|]. destruct P as (k2 & A1 & A2 & _ & A3). exists k2. split; [done|]. split; [done|].
    intros [_ Hn]. auto.
Qed.

(** ** Files and datagrams *)

Lemma once_transmits t fd msg fatal w : held t w ->
  wp (sendOnce t fd msg fatal) (fun '(rc, t') w' => held t' w' /\ transmitted msg (fun _ => False) w w') w.
Proof.
  intros H. unfold sendOnce. destruct (fd =? -1).
  { apply wp_ret. split; [done|]. exists []. split; [done|]. split; [apply prefix_nil|done]. }
  eapply (wp_step _ _ (fun _ w' => held t w' /\ exists x, since w w' [x] /\ taken x `prefix_of` msg)).
  { apply wp_conj; [by apply held_send|]. unfold send, wp, bind, ask. cbv beta iota zeta.
    destruct (hd Ok (script w)); eexists; (split; [reflexivity|]); cbn [taken]; first [apply prefix_take|apply prefix_nil]. }
  cbv beta. intros [rc e] w1 (H1 & x & S1 & P1).
  assert (P2 : sent [x] `prefix_of` msg) by by rewrite sent_cons.
  destruct (_ && _).
  - eapply wp_mono; [by apply renew_silent|]. intros [r t2] w2 ([H2 (k & S2 & N2)] & ->). split; [done|].
    exists (k ++ [x]). split; [by eapply since_trans|]. rewrite sent_app, (sent_none k N2), app_nil_r. by split.
  - apply wp_ret. split; [done|]. exists [x]. by split.
Qed.

Lemma fwrite_whole n len : 0 <= n <= len -> len <= PTRDIFF_MAX -> u64 (i32 n) = len -> n = len.
Proof.
  unfold u64, i32, PTRDIFF_MAX. intros Hn Hl E. destruct (Z.ltb_spec n (2 ^ 31)) as [Hs|Hs].
  - rewrite (Z.mod_small (n + 2 ^ 31)) in E by lia. rewrite Z.mod_small in E by lia. lia.
  - exfalso. pose proof (Z.mod_pos_bound (n + 2 ^ 31) (2 ^ 32) ltac:(lia)) as M.
    set (q := (n + 2 ^ 31) mod 2 ^ 32) in *.
    destruct (Z.ltb_spec q (2 ^ 31)).
    + assert (E2 : (q - 2 ^ 31) mod 2 ^ 64 = q - 2 ^ 31 + 2 ^ 64).
      { rewrite <- (Z.mod_small (q - 2 ^ 31 + 2 ^ 64) (2 ^ 64)) by lia.
        rewrite <- (Z_mod_plus_full (q - 2 ^ 31) 1 (2 ^ 64)). by f_equal. }
      lia.
    + rewrite Z.mod_small in E by lia. lia.
Qed.

Lemma file_transmits t s msg w : held t w -> zlen msg <= PTRDIFF_MAX ->
  wp ('(n, errno) ← fwrite s msg;
      if u64 (i32 n) =? zlen msg then ret (0, t) else if errno =? EBADF then renew t else ret (-1, t))
    (fun '(rc, t') w' => held t' w' /\ transmitted msg (fun _ => rc = 0) w w') w.
Proof.
  intros H Hl. unfold fwrite. apply wp_bind.
  eapply (wp_step _ _ (fun a w' => held t w' /\ since w w' [(CWrite (fileno s) msg, a)])).
  { apply wp_conj; [by apply held_ask|]. by unfold wp, ask. }
  cbv beta. intros a w1 (H1 & S1). apply wp_ret.
  assert (B : 0 <= fst (fwrite_result a (zlen msg)) <= zlen msg) by (destruct a; cbn; lia).
  set (x := (CWrite (fileno s) msg, a)) in *.
  assert (P : sent [x] `prefix_of` msg) by (rewrite sent_cons; apply prefix_take).
  assert (T : sent [x] = take (Z.to_nat (fst (fwrite_result a (zlen msg)))) msg) by by rewrite sent_cons.
  destruct (fwrite_result a (zlen msg)) as [n errno]; cbn [fst] in *.
  destruct (Z.eqb_spec (u64 (i32 n)) (zlen msg)) as [E|E].
  { apply wp_ret. split; [done|]. exists [x]. split; [done|]. split; [done|]. intros _.
    apply fwrite_whole in E; [|done|done]. rewrite T, E, Nat2Z.id. apply firstn_all. }
  destruct (errno =? EBADF).
  - eapply wp_mono; [by apply renew_silent|]. intros [r t2] w2 ([H2 (k & S2 & N2)] & ->). split; [done|].
    exists (k ++ [x]). split; [by eapply since_trans|]. rewrite sent_app, (sent_none k N2), app_nil_r. by split.
  - apply wp_ret. split; [done|]. exists [x]. by split.
Qed.

(** When success means that the whole message was passed on: over TLS, into an
    open file, and over plain TCP unless a call took nothing. *)
Definition complete (t : transport_t) (k : list (call * answer)) : Prop :=
  (type t = CFG_TCP /\ (enable (tls (net t)) = true \/ ~ Exists stuck k)) \/ (type t = CFG_FILE /\ linked t = true).

Lemma send_transmits t msg w : held t w -> msg <> [] -> zlen msg <= PTRDIFF_MAX ->
  wp (transportSend (Some t) (Some msg)) (fun '(rc, t') w' => exists t1, t' = Some t1 /\
    transmitted msg (fun k => rc = 0 /\ complete t k) w w') w.
Proof.
  intros H Hm Hl. cbn [transportSend].
  eapply (wp_step _ _ (fun '(rc, t') w' => transmitted msg (fun k => rc = 0 /\ complete t k) w w'));
    [|intros [rc t1] w1 H1; apply wp_ret; by exists t1].
  assert (Weak : forall (m : M (Z * transport_t)) (wh : Z -> list (call * answer) -> Prop),
    wp m (fun '(rc, t') w' => held t' w' /\ transmitted msg (wh rc) w w') w ->
    (forall rc k, rc = 0 -> complete t k -> wh rc k) ->
    wp m (fun '(rc, t') w' => transmitted msg (fun k => rc = 0 /\ complete t k) w w') w).
  { intros m wh Hw Hi. eapply wp_mono; [exact Hw|]. intros [rc t'] w' (_ & k & A1 & A2 & A3). exists k.
    split; [done|]. split; [done|]. intros [-> Hc]. apply A3. by apply Hi. }
  unfold complete in *.
  destruct (Z.eqb_spec (type t) CFG_UDP) as [E1|E1].
  { eapply Weak; [by apply (once_transmits t)|]. rewrite E1. intros ? ? _ [[? _]|[? _]]; done. }
  destruct (Z.eqb_spec (type t) CFG_TCP) as [E2|E2].
  { destruct (enable (tls (net t))) eqn:En.
    - eapply (Weak _ (fun rc _ => rc = 0)); [by apply tls_transmits|done].
    - eapply (Weak _ (fun rc k => rc = 0 /\ ~ Exists stuck k)); [by apply plain_transmits|].
      intros rc k -> [[_ [?|?]]|[E _]]; [done|done|]. by rewrite E2 in E. }
  unfold is_file. destruct (Z.eqb_spec (type t) CFG_FILE) as [E3|E3].
  { destruct (stream (file t)) as [s|] eqn:Es.
    - eapply (Weak _ (fun rc _ => rc = 0)); [by apply file_transmits|done].
    - eapply (Weak _ (fun _ _ => False)).
      + apply wp_ret. split; [done|]. exists []. split; [done|]. split; [apply prefix_nil|done].
      + intros rc k _ [[E _]|[_ Ln]]; [done|]. unfold linked, is_net, is_local in Ln. rewrite E3, Es in Ln. done. }
  destruct (is_local t).
  { eapply Weak; [by apply (once_transmits t)|]. intros ? ? _ [[? _]|[? _]]; done. }
  eapply (Weak _ (fun _ _ => False)).
  - apply wp_ret. split; [done|]. exists []. split; [done|]. split; [apply prefix_nil|done].
  - intros ? ? _ [[? _]|[? _]]; done.
Qed.

End Held.

(** C39: the bytes that [transportSend] passes on, joined in the order of the
    calls, are a prefix of the message, whatever the calls answer; when it
    returns 0 they are the whole message over TLS and into an open file, and over
    plain TCP if no call failed to take data. *)
Theorem transport_send_delivers F t w msg : reach F t w -> msg <> [] -> zlen msg <= PTRDIFF_MAX ->
  exists rc t' w' k, transportSend (Some t) (Some msg) w = Def ((rc, Some t'), w') /\
    trace w' = k ++ trace w /\ sent k `prefix_of` msg /\ (rc = 0 -> complete t k -> sent k = msg).
Proof.
  intros R Hm Hl. destruct (reach_sound _ _ _ R) as (L & H).
  destruct (wp_run _ _ _ (send_transmits _ _ _ _ L t msg w H Hm Hl)) as ([rc t'] & w' & E & t1 & -> & k & A1 & A2 & A3).
  exists rc, t1, w', k. split; [done|]. split; [done|]. split; [done|]. auto.
Qed.

(** The example's transport after it has connected. *)
Definition tcp_ready : transport_t * world := default tcp_connected (tcp_state [Connect]).

Lemma tcp_ready_reach : reach (live (process tcp_script)) (fst tcp_ready) (snd tcp_ready).
Proof.
  apply (reach_example _ tcp_maker [Connect] (process tcp_script)
    (fst (default tcp_connected (tcp_state []))) _ (snd (default tcp_connected (tcp_state [])))).
  - apply process_quiet.
  - repeat constructor; done.
  - vm_compute. reflexivity.
  - vm_compute. reflexivity.
Qed.

Lemma transport_send_delivers_witness :
  exists rc t' w' k, transportSend (Some (fst tcp_ready)) (Some [104; 101; 108; 108; 111]) (snd tcp_ready) = Def ((rc, Some t'), w') /\
    trace w' = k ++ trace (snd tcp_ready) /\ sent k `prefix_of` [104; 101; 108; 108; 111] /\
    (rc = 0 -> complete (fst tcp_ready) k -> sent k = [104; 101; 108; 108; 111]).
Proof.
  apply (transport_send_delivers _ (fst tcp_ready) (snd tcp_ready) [104; 101; 108; 108; 111] tcp_ready_reach).
  - discriminate.
  - unfold PTRDIFF_MAX. cbn. lia.
Defined.

(** A plain TCP send that is cut by an error other than EBADF and EPIPE (here
    ECONNRESET after two bytes) is reported as a success, and the connection is
    kept with half of the message on it. *)
Theorem cut_send_reported_ok :
  match transportSend (Some (fst tcp_ready)) (Some [104; 101; 108; 108; 111])
          (set_script (snd tcp_ready) [Ok; Val 2; Err 104] []) with
  | Def ((rc, Some t'), w') => rc = 0 /\ linked t' = true /\ sent (trace w') = [104; 101]
  | _ => False
  end.
Proof. vm_compute. auto. Qed.

End TransportSend.
