(* ===== verification/StackPool.v ===== *)
(** * The pool of match stacks (src/com.c)

    Regular expressions are matched on stacks of their own.  [get_stack] takes
    one from a pool of 48 that are allocated when first needed and then kept, or
    allocates one outside the pool; [free_stack] gives it back.  Any number of
    threads do this at once, without locks: an entry is taken and released by
    compare-and-swap on its [used] word.

    Each access to the pool and each call of the allocator is an atomic step of
    a thread; [pool_exclusive] says that no two threads are ever given the same
    stack and that a stack is not freed while it is held. *)

From S2P Require Import Prelude.

Module StackPool.

Definition POOL_MAX : nat := 48.

Record pool_t := mkEntry { used : bool; addr : option Z }.

(** Where a thread is. *)
Inductive thread :=
| Idle                              (* outside of the two functions, without a stack *)
| GetUsed (i : nat)                 (* get_stack: !entry->used *)
| GetGrab (i : nat)                 (* grab_unused(entry) *)
| GetAddr (i : nat)                 (* if (entry->addr) return entry->addr *)
| GetAlloc (i : nat)                (* entry->addr = appview_malloc(...) *)
| GetRead (i : nat)                 (* if (entry->addr) return entry->addr *)
| GetPutBack (i : nat)              (* atomicCasU64(&entry->used, TRUE, FALSE) *)
| GetOutside                        (* return appview_malloc(...) *)
| Matching (a : Z)                  (* the expression is matched on stack a *)
| FreeScan (i : nat) (a : Z)        (* free_stack: entry->addr == addr *)
| FreeRelease (i : nat) (a : Z)     (* atomicCasU64(&entry->used, TRUE, FALSE) *)
| FreeOutside (a : Z).              (* appview_free(addr) *)

#[export] Instance thread_eq_dec : EqDecision thread.
Proof. solve_decision. Defined.

(** The pool and the stacks that are allocated. *)
Record shared := mkShared { pool : list pool_t; heap : gset Z }.

Definition init : shared := mkShared (replicate POOL_MAX (mkEntry false None)) ∅.

Definition entry (s : shared) (i : nat) : pool_t := default (mkEntry false None) (pool s !! i).
Definition set_entry (s : shared) (i : nat) (e : pool_t) : shared := mkShared (<[i := e]> (pool s)) (heap s).

(** [atomicCasU64(&entry->used, from, to)] *)
Definition cas_used (s : shared) (i : nat) (from to : bool) : bool * shared :=
  if Bool.eqb (used (entry s i)) from then (true, set_entry s i (mkEntry to (addr (entry s i)))) else (false, s).

(** [grab_unused] *)
Definition grab_unused (s : shared) (i : nat) : bool * shared := cas_used s i false true.

(** The next iteration of the loop in [get_stack], or its end. *)
Definition next_get (i : nat) : thread := if decide (S i < POOL_MAX)%nat then GetUsed (S i) else GetOutside.
Definition next_free (i : nat) (a : Z) : thread := if decide (S i < POOL_MAX)%nat then FreeScan (S i) a else FreeOutside a.

(** [malloc] gives the address [m], which is not in use, or NULL. *)
Definition fresh (s : shared) (m : option Z) : Prop := match m with Some a => a ∉ heap s | None => True end.
Definition add_heap (s : shared) (m : option Z) : shared :=
  match m with Some a => mkShared (pool s) ({[a]} ∪ heap s) | None => s end.

(** One step; [m] is what the allocator answers if it is called. *)
Definition tstep (s : shared) (m : option Z) (t : thread) : shared * thread :=
  match t with
  | Idle => (s, GetUsed 0)
  | GetUsed i => (s, if used (entry s i) then next_get i else GetGrab i)
  | GetGrab i => let '(ok, s) := grab_unused s i in (s, if ok then GetAddr i else next_get i)
  | GetAddr i => (s, match addr (entry s i) with Some a => Matching a | None => GetAlloc i end)
  | GetAlloc i => let s := add_heap s m in (set_entry s i (mkEntry (used (entry s i)) m), GetRead i)
  | GetRead i => (s, match addr (entry s i) with Some a => Matching a | None => GetPutBack i end)
  | GetPutBack i => (snd (cas_used s i true false), GetOutside)
  | GetOutside => (add_heap s m, match m with Some a => Matching a | None => Idle end)
  | Matching a => (s, FreeScan 0 a)
  | FreeScan i a => (s, if decide (addr (entry s i) = Some a) then FreeRelease i a else next_free i a)
  | FreeRelease i a => (snd (cas_used s i true false), Idle)
  | FreeOutside a => (mkShared (pool s) (heap s ∖ {[a]}), Idle)
  end.

Definition sys : Type := shared * list thread.

Inductive sys_step : sys -> sys -> Prop :=
| pool_step k m s ts t : ts !! k = Some t -> fresh s m ->
    sys_step (s, ts) ((tstep s m t).1, <[k := (tstep s m t).2]> ts).

(** ** The invariant *)

(** The stack a thread was given. *)
Definition holds (t : thread) : option Z :=
  match t with Matching a | FreeScan _ a | FreeRelease _ a | FreeOutside a => Some a | _ => None end.
(** The entry a thread has taken and not yet got a stack from. *)
Definition at_entry (t : thread) : option nat :=
  match t with GetAddr i | GetAlloc i | GetRead i | GetPutBack i => Some i | _ => None end.

Definition local (s : shared) (t : thread) : Prop :=
  match t with
  | GetUsed i | GetGrab i | GetAddr i | GetRead i => (i < POOL_MAX)%nat
  | GetAlloc i | GetPutBack i => (i < POOL_MAX)%nat /\ addr (entry s i) = None
  | FreeScan i a => (i < POOL_MAX)%nat /\ forall j, (j < i)%nat -> addr (entry s j) <> Some a
  | FreeRelease i a => (i < POOL_MAX)%nat /\ addr (entry s i) = Some a
  | FreeOutside a => forall j, addr (entry s j) <> Some a
  | _ => True
  end.

Record inv (x : sys) : Prop := {
  inv_len : length (pool x.1) = POOL_MAX;
  inv_hold : forall j k t u a, x.2 !! j = Some t -> x.2 !! k = Some u -> holds t = Some a -> holds u = Some a -> j = k;
  inv_at : forall j k t u i, x.2 !! j = Some t -> x.2 !! k = Some u -> at_entry t = Some i -> at_entry u = Some i -> j = k;
  inv_apart : forall t u i a, t ∈ x.2 -> u ∈ x.2 -> at_entry t = Some i -> holds u = Some a -> addr (entry x.1 i) <> Some a;
  inv_at_used : forall t i, t ∈ x.2 -> at_entry t = Some i -> used (entry x.1 i) = true;
  inv_hold_used : forall t a i, t ∈ x.2 -> holds t = Some a -> addr (entry x.1 i) = Some a -> used (entry x.1 i) = true;
  inv_hold_heap : forall t a, t ∈ x.2 -> holds t = Some a -> a ∈ heap x.1;
  inv_pool_heap : forall i a, addr (entry x.1 i) = Some a -> a ∈ heap x.1;
  inv_inj : forall i j a, addr (entry x.1 i) = Some a -> addr (entry x.1 j) = Some a -> i = j;
  inv_local : forall t, t ∈ x.2 -> local x.1 t;
  (* nothing is lost *)
  inv_used : forall i, used (entry x.1 i) = true -> exists t, t ∈ x.2 /\
    (at_entry t = Some i \/ exists a, holds t = Some a /\ addr (entry x.1 i) = Some a);
  inv_heap : forall a, a ∈ heap x.1 -> (exists i, addr (entry x.1 i) = Some a) \/ exists t, t ∈ x.2 /\ holds t = Some a;
}.

Lemma pool_entry_set s i e j : (i < length (pool s))%nat ->
  entry (set_entry s i e) j = if decide (j = i) then e else entry s j.
Proof.
  intros Hi. unfold entry, set_entry. cbn [pool]. case_decide as Hj; [subst; by rewrite list_lookup_insert_eq|].
  by rewrite list_lookup_insert_ne.
Qed.

Lemma entry_add_heap s m j : entry (add_heap s m) j = entry s j.
Proof. by destruct m. Qed.

(** The threads after a step of one. *)
Lemma others k t t' u (ts : list thread) : ts !! k = Some t -> u ∈ <[k := t']> ts -> u = t' \/ exists j, j <> k /\ ts !! j = Some u.
Proof.
  intros Hk [j Hj]%list_elem_of_lookup. destruct (decide (j = k)) as [->|Hne].
  - rewrite list_lookup_insert_eq in Hj by (by eapply lookup_lt_Some). simplify_eq. by left.
  - rewrite list_lookup_insert_ne in Hj by done. right. eauto.
Qed.

Lemma mover k t t' (ts : list thread) : ts !! k = Some t -> t' ∈ <[k := t']> ts.
Proof. intros Hk. eapply list_elem_of_lookup_2, list_lookup_insert_eq. by eapply lookup_lt_Some. Qed.

Lemma stays k t t' j u (ts : list thread) : ts !! k = Some t -> j <> k -> ts !! j = Some u -> u ∈ <[k := t']> ts.
Proof. intros Hk Hne Hj. eapply (list_elem_of_lookup_2 _ j). by rewrite list_lookup_insert_ne. Qed.

Section Steps.
Variables (s : shared) (ts : list thread) (k : nat) (t : thread).
Hypothesis I : inv (s, ts).
Hypothesis Hk : ts !! k = Some t.

Lemma mem_t : t ∈ ts.
Proof. by eapply list_elem_of_lookup_2. Qed.

(** Another thread than [k]. *)
Ltac other := match goal with
  | H : ?u ∈ <[k := ?t']> ts |- _ =>
      apply (others k t t' u ts Hk) in H as [->|(? & ? & ?)]
  | H : <[k := ?t']> ts !! ?j = Some ?u |- _ =>
      destruct (decide (j = k)) as [->|];
        [rewrite list_lookup_insert_eq in H by (by eapply lookup_lt_Some); injection H as <-
        |rewrite list_lookup_insert_ne in H by done]
  end.

(** A step that changes neither the shared state nor what the thread has. *)
Lemma step_silent t' : holds t' = holds t -> at_entry t' = at_entry t -> local s t' -> inv (s, <[k := t']> ts).
Proof.
  intros Hh Ha Hl. pose proof mem_t as Ht. destruct I as [I1 I2 I3 I4 I5 I6 I7 I8 I9 I10 I11 I12]. cbn [fst snd] in *.
  split; cbn [fst snd]; try done.
  - intros. repeat other; rewrite ?Hh in *; eauto.
  - intros. repeat other; rewrite ?Ha in *; eauto.
  - intros. repeat other; rewrite ?Hh, ?Ha in *; eauto using list_elem_of_lookup_2.
  - intros. repeat other; rewrite ?Ha in *; eauto using list_elem_of_lookup_2.
  - intros. repeat other; rewrite ?Hh in *; eauto using list_elem_of_lookup_2.
  - intros. repeat other; rewrite ?Hh in *; eauto using list_elem_of_lookup_2.
  - intros. other; eauto using list_elem_of_lookup_2.
  - intros i Hu. destruct (I11 i Hu) as (u & [j Hj]%list_elem_of_lookup & Hd). destruct (decide (j = k)) as [->|].
    + simplify_eq. exists t'. split; [by eapply mover|]. by rewrite Hh, Ha.
    + exists u. split; [by eapply stays|done].
  - intros a Hin. destruct (I12 a Hin) as [?|(u & [j Hj]%list_elem_of_lookup & Hd)]; [by left|right].
    destruct (decide (j = k)) as [->|]; [simplify_eq; exists t'; split; [by eapply mover|by rewrite Hh]|].
    exists u. split; [by eapply stays|done].
Qed.

(** The entry is set; [addr] of the others, and of this one if it does not
    change, is as before. *)
Lemma addr_kept i b j : (i < POOL_MAX)%nat -> addr (entry (set_entry s i (mkEntry b (addr (entry s i)))) j) = addr (entry s j).
Proof. intros Hi. pose proof (inv_len _ I) as L. cbn in L. rewrite pool_entry_set by lia. by case_decide; subst. Qed.

Lemma used_set i e j : (i < POOL_MAX)%nat -> used (entry (set_entry s i e) j) = if decide (j = i) then used e else used (entry s j).
Proof. intros Hi. pose proof (inv_len _ I) as L. cbn in L. rewrite pool_entry_set by lia. by case_decide. Qed.

(** [local] depends on the addresses only. *)
Lemma local_addr s' u : (forall j, addr (entry s' j) = addr (entry s j)) -> local s u -> local s' u.
Proof.
  intros E. destruct u; cbn [local]; rewrite ?E; try done.
  - intros [? Hj]. split; [done|]. intros j ?. rewrite E. by apply Hj.
  - intros Hj j. rewrite E. apply Hj.
Qed.

Ltac fresh_entry := pose proof mem_t as Ht; destruct I as [I1 I2 I3 I4 I5 I6 I7 I8 I9 I10 I11 I12]; cbn [fst snd] in *.
Ltac by_inv := repeat other; cbn [holds at_entry] in *; simplify_eq; eauto using list_elem_of_lookup_2.

(** A free entry is taken. *)
Lemma step_grab i : holds t = None -> at_entry t = None -> (i < POOL_MAX)%nat -> used (entry s i) = false ->
  inv (set_entry s i (mkEntry true (addr (entry s i))), <[k := GetAddr i]> ts).
Proof.
  intros Hh Ha Hi Hu.
  pose proof (fun j => addr_kept i true j Hi) as EA. pose proof (fun j => used_set i (mkEntry true (addr (entry s i))) j Hi) as EU.
  fresh_entry. set (s' := set_entry s i _) in *. split; cbn [fst snd].
  - subst s'. cbn. by rewrite length_insert.
  - intros. by_inv.
  - intros. by_inv; match goal with H : at_entry ?w = Some ?n, U : used (entry s ?n) = false |- _ =>
      exfalso; rewrite (I5 w n) in U by eauto using list_elem_of_lookup_2; done end.
  - intros u v i' a. rewrite EA. intros. by_inv.
    match goal with U : used (entry s ?n) = false |- _ =>
      intros Ha'; rewrite (I6 v a n) in U by eauto using list_elem_of_lookup_2; done end.
  - intros u i' Hin Hi'. rewrite EU. case_decide; [done|]. by_inv.
  - intros u a i' Hin Hh'. rewrite EA, EU. intros. case_decide; [done|]. by_inv.
  - intros. by_inv.
  - intros i' a. rewrite EA. apply I8.
  - intros i' j a. rewrite !EA. apply I9.
  - intros u Hin. apply (local_addr _ _ EA). by_inv.
  - intros i'. rewrite EU. case_decide; [subst; intros _; exists (GetAddr i); split; [by eapply mover|by left]|].
    intros Hu'. destruct (I11 _ Hu') as (u & [j Hj]%list_elem_of_lookup & Hd). destruct (decide (j = k)) as [->|].
    + simplify_eq. rewrite Hh, Ha in Hd. by destruct Hd as [|(? & ? & ?)].
    + exists u. split; [by eapply stays|]. by setoid_rewrite EA.
  - intros a Hin. destruct (I12 a Hin) as [?|(u & [j Hj]%list_elem_of_lookup & Hd)]; [left; by setoid_rewrite EA|right].
    destruct (decide (j = k)) as [->|]; [simplify_eq; congruence|]. exists u. split; [by eapply stays|done].
Qed.

(** A thread that is neither at an entry nor holds a stack matters to none. *)
Ltac keep_owner Hd := let u := fresh "u" in let j := fresh "j" in let Hj := fresh "Hj" in
  destruct Hd as (u & [j Hj]%list_elem_of_lookup & Hd);
  destruct (decide (j = k)) as [->|]; [simplify_eq|exists u; split; [by eapply stays|]].

(** The stack of the entry is given out. *)
Lemma step_give i a : holds t = None -> at_entry t = Some i -> addr (entry s i) = Some a -> inv (s, <[k := Matching a]> ts).
Proof.
  intros Hh Ha Ea. fresh_entry. split; cbn [fst snd]; try done.
  - intros. by_inv; match goal with H : holds ?w = Some _ |- _ =>
      exfalso; eapply (I4 t w); eauto using list_elem_of_lookup_2 end.
  - intros. by_inv.
  - intros u v i' a' Hu Hv Hu' Hv' Ha'.
    apply (others _ _ _ _ _ Hk) in Hu as [->|(j & Hj & Eu)]; [done|].
    apply (others _ _ _ _ _ Hk) in Hv as [->|(l & Hl & Ev)]; [|apply (I4 u v i' a'); eauto using list_elem_of_lookup_2].
    cbn [holds] in Hv'. injection Hv' as <-. apply Hj. assert (i' = i) as -> by (by eapply I9). by apply (I3 j k u t i).
  - intros. by_inv.
  - intros u a' i' Hin. by_inv. intros [= <-] Ha'. assert (i' = i) as -> by eauto. eauto.
  - intros. by_inv.
  - intros u Hin. by_inv. exact Logic.I.
  - intros i' Hu. pose proof (I11 _ Hu) as Hd. keep_owner Hd; [|done].
    exists (Matching a). split; [by eapply mover|]. right. exists a. split; [done|].
    destruct Hd as [|(? & ? & ?)]; congruence.
  - intros a' Hin. destruct (I12 a' Hin) as [?|Hd]; [by left|right]. keep_owner Hd; first [done|congruence].
Qed.

(** The stack of an entry is allocated, or the allocation fails. *)
Lemma step_alloc i m : holds t = None -> at_entry t = Some i -> (i < POOL_MAX)%nat -> addr (entry s i) = None -> fresh s m ->
  inv (set_entry (add_heap s m) i (mkEntry (used (entry (add_heap s m) i)) m), <[k := GetRead i]> ts).
Proof.
  intros Hh Ha Hi Ea Hf. rewrite entry_add_heap. pose proof (inv_len _ I) as L. cbn in L.
  set (s' := set_entry _ _ _).
  assert (EE : forall j, entry s' j = if decide (j = i) then mkEntry (used (entry s i)) m else entry s j).
  { intros j. subst s'. rewrite pool_entry_set by (destruct m; cbn; lia). by rewrite entry_add_heap. }
  assert (EU : forall j, used (entry s' j) = used (entry s j)) by (intros j; rewrite EE; by case_decide; subst).
  assert (EA : forall j a, addr (entry s' j) = Some a -> (addr (entry s j) = Some a /\ j <> i) \/ (j = i /\ m = Some a /\ a ∉ heap s)).
  { intros j a. rewrite EE. case_decide; [cbn; intros ->; right; by subst|]. left. eauto. }
  assert (EA' : forall j a, addr (entry s j) = Some a -> addr (entry s' j) = Some a).
  { intros j a. rewrite EE. case_decide; [subst; congruence|done]. }
  assert (EH : forall a, a ∈ heap s -> a ∈ heap s') by (intros a; subst s'; destruct m; cbn; set_solver).
  fresh_entry. split; cbn [fst snd].
  - subst s'. destruct m; cbn; by rewrite length_insert.
  - intros. by_inv.
  - intros. by_inv.
  - intros u v i' a' Hu Hv Hu' Hv' HA.
    apply (others _ _ _ _ _ Hk) in Hv as [->|(l & Hl & Ev)]; [done|].
    apply EA in HA as [[Ea' Hne]|(-> & -> & Hn)]; [|apply Hn; eauto using list_elem_of_lookup_2].
    apply (others _ _ _ _ _ Hk) in Hu as [->|(j & Hj & Eu)]; [cbn in Hu'; congruence|].
    apply (I4 u v i' a'); eauto using list_elem_of_lookup_2.
  - intros. rewrite EU. by_inv.
  - intros u a' i' Hin Hh' [[Ea' Hne]|(-> & -> & Hn)]%EA; rewrite EU; repeat other; cbn [holds] in *; simplify_eq;
      eauto using list_elem_of_lookup_2.
  - intros. apply EH. by_inv.
  - intros i' a' [[Ea' Hne]|(-> & -> & Hn)]%EA; [eauto|]. subst s'. cbn. set_solver.
  - intros i1 i2 a' [[E1 ?]|(-> & -> & Hn)]%EA [[E2 ?]|(-> & E2 & Hn2)]%EA; eauto; [|simplify_eq]; exfalso; eauto.
  - intros u Hin. other; [done|]. assert (local s u) as Hl by eauto using list_elem_of_lookup_2.
    assert (Hua : at_entry u <> Some i).
    { intros Hc. match goal with Hj : ts !! ?j = Some u, Hne : ?j <> k |- _ => apply Hne; eauto end. }
    assert (Hn : forall a, holds u = Some a -> a ∈ heap s) by eauto using list_elem_of_lookup_2.
    destruct u; cbn [local at_entry holds] in *; try done.
    + destruct Hl as [? Hl]. split; [done|]. rewrite EE. by case_decide; [congruence|].
    + destruct Hl as [? Hl]. split; [done|]. rewrite EE. by case_decide; [congruence|].
    + destruct Hl as [? Hl]. split; [done|]. intros j Hj [[Ea' Hne]|(-> & -> & Hn')]%EA; [by eapply Hl|]. eauto.
    + destruct Hl as [? Hl]. split; [done|]. eauto.
    + intros j [[Ea' Hne]|(-> & -> & Hn')]%EA; [by eapply Hl|]. eauto.
  - intros i'. rewrite EU. intros Hu. pose proof (I11 _ Hu) as Hd. keep_owner Hd.
    + exists (GetRead i). split; [by eapply mover|]. left. destruct Hd as [|(? & ? & ?)]; cbn; congruence.
    + destruct Hd as [|(a & ? & ?)]; eauto.
  - intros a Hin. assert (a ∈ heap s \/ m = Some a) as [Hin'| ->].
    { subst s'. destruct m; cbn in Hin; set_solver. }
    + destruct (I12 a Hin') as [[j ?]|Hd]; [eauto|right]. keep_owner Hd; first [done|congruence].
    + left. exists i. rewrite EE. by case_decide.
Qed.

(** The thread gives up its entry, with or without the stack in it. *)
Lemma step_release i t' : (i < POOL_MAX)%nat -> holds t' = None -> at_entry t' = None -> (forall s', local s' t') ->
  (at_entry t = Some i /\ holds t = None) \/ (at_entry t = None /\ exists a, holds t = Some a /\ addr (entry s i) = Some a) ->
  inv (set_entry s i (mkEntry false (addr (entry s i))), <[k := t']> ts).
Proof.
  intros Hi Hh' Ha' Hl Hd.
  pose proof (fun j => addr_kept i false j Hi) as EA. pose proof (fun j => used_set i (mkEntry false (addr (entry s i))) j Hi) as EU.
  fresh_entry. set (s' := set_entry s i _) in *.
  (* nobody else has the entry *)
  assert (N1 : forall j u, j <> k -> ts !! j = Some u -> at_entry u <> Some i).
  { intros j u Hne Hu Hc. destruct Hd as [[Hta _]|(_ & a & Hta & Hia)]; [apply Hne; by apply (I3 j k u t i)|].
    by apply (I4 u t i a); eauto using list_elem_of_lookup_2. }
  assert (N2 : forall j u a, j <> k -> ts !! j = Some u -> holds u = Some a -> addr (entry s i) <> Some a).
  { intros j u a Hne Hu Hc Hia. destruct Hd as [[Hta _]|(_ & a' & Hta & Hia')].
    - by apply (I4 t u i a); eauto using list_elem_of_lookup_2.
    - apply Hne. assert (a' = a) as -> by congruence. by apply (I2 j k u t a). }
  split; cbn [fst snd].
  - subst s'. cbn. by rewrite length_insert.
  - intros j l u v a Hu Hv Hau Hav. repeat other; try congruence. by apply (I2 j l u v a).
  - intros j l u v i' Hu Hv Hau Hav. repeat other; try congruence. by apply (I3 j l u v i').
  - intros u v i' a Hu Hv Hau Hav. rewrite EA.
    apply (others _ _ _ _ _ Hk) in Hu as [->|(j & Hj & Eu)]; [congruence|].
    apply (others _ _ _ _ _ Hk) in Hv as [->|(l & Hl' & Ev)]; [congruence|].
    apply (I4 u v i' a); eauto using list_elem_of_lookup_2.
  - intros u i' Hu Hau. apply (others _ _ _ _ _ Hk) in Hu as [->|(j & Hj & Eu)]; [congruence|]. rewrite EU.
    case_decide; [subst; by destruct (N1 j u Hj Eu)|]. apply (I5 u); eauto using list_elem_of_lookup_2.
  - intros u a i' Hu Hau. apply (others _ _ _ _ _ Hk) in Hu as [->|(j & Hj & Eu)]; [congruence|]. rewrite EU, EA. intros Hia.
    case_decide; [subst; by destruct (N2 j u a Hj Eu Hau)|]. apply (I6 u a); eauto using list_elem_of_lookup_2.
  - intros u a Hu Hau. apply (others _ _ _ _ _ Hk) in Hu as [->|(j & Hj & Eu)]; [congruence|]. eauto using list_elem_of_lookup_2.
  - intros i' a. rewrite EA. apply I8.
  - intros i' j a. rewrite !EA. apply I9.
  - intros u Hu. apply (others _ _ _ _ _ Hk) in Hu as [->|(j & Hj & Eu)]; [done|]. apply (local_addr _ _ EA). eauto using list_elem_of_lookup_2.
  - intros i'. rewrite EU. case_decide; [done|]. intros Hu. pose proof (I11 _ Hu) as Ho. keep_owner Ho.
    + exfalso. destruct Hd as [[Hta Hth]|(Hta & a & Hth & Hia)], Ho as [?|(a' & ? & ?)]; simplify_eq.
      by assert (i' = i) by (by eapply I9).
    + by setoid_rewrite EA.
  - intros a Hin. destruct (I12 a Hin) as [?|Ho]; [left; by setoid_rewrite EA|].
    destruct Ho as (u & [j Hj]%list_elem_of_lookup & Ho). destruct (decide (j = k)) as [->|].
    + left. exists i. rewrite EA. simplify_eq. destruct Hd as [[_ ?]|(_ & a' & ? & ?)]; congruence.
    + right. exists u. split; [by eapply stays|done].
Qed.

(** A stack outside the pool is allocated. *)
Lemma step_outside a : holds t = None -> at_entry t = None -> a ∉ heap s ->
  inv (mkShared (pool s) ({[a]} ∪ heap s), <[k := Matching a]> ts).
Proof.
  intros Hh Ha Hf. fresh_entry.
  assert (N : forall j u, ts !! j = Some u -> holds u <> Some a) by (intros j u Hu Hc; apply Hf; eauto using list_elem_of_lookup_2).
  split; cbn [fst snd heap pool]; unfold entry in *; cbn [pool]; try done.
  - intros j l u v a' Hu Hv Hau Hav. repeat other; cbn [holds] in *; simplify_eq; try done; [by destruct (N _ _ Hu)|by destruct (N _ _ Hv)|].
    by apply (I2 j l u v a').
  - intros j l u v i Hu Hv Hau Hav. repeat other; cbn [at_entry] in *; simplify_eq. by apply (I3 j l u v i).
  - intros u v i a' Hu Hv Hau Hav Hc.
    apply (others _ _ _ _ _ Hk) in Hu as [->|(j & Hj & Eu)]; [done|].
    apply (others _ _ _ _ _ Hk) in Hv as [->|(l & Hl' & Ev)].
    + cbn in Hav. simplify_eq. apply Hf. by eapply I8.
    + apply (I4 u v i a'); eauto using list_elem_of_lookup_2.
  - intros u i Hu Hau. apply (others _ _ _ _ _ Hk) in Hu as [->|(j & Hj & Eu)]; [done|]. apply (I5 u); eauto using list_elem_of_lookup_2.
  - intros u a' i Hu Hau Hc. apply (others _ _ _ _ _ Hk) in Hu as [->|(j & Hj & Eu)].
    + cbn in Hau. simplify_eq. destruct Hf. by eapply I8.
    + apply (I6 u a'); eauto using list_elem_of_lookup_2.
  - intros u a' Hu Hau. apply (others _ _ _ _ _ Hk) in Hu as [->|(j & Hj & Eu)]; [cbn in Hau; simplify_eq; set_solver|].
    apply elem_of_union. right. eauto using list_elem_of_lookup_2.
  - intros i a' Hc. apply elem_of_union. right. by eapply I8.
  - intros u Hu. apply (others _ _ _ _ _ Hk) in Hu as [->|(j & Hj & Eu)]; [exact Logic.I|].
    specialize (I10 u ltac:(eauto using list_elem_of_lookup_2)). by destruct u.
  - intros i Hu. pose proof (I11 _ Hu) as Ho. keep_owner Ho; [|done].
    exfalso. destruct Ho as [?|(a' & ? & ?)]; congruence.
  - intros a' [->%elem_of_singleton|Hin]%elem_of_union.
    + right. exists (Matching a). split; [by eapply mover|done].
    + destruct (I12 a' Hin) as [?|Ho]; [by left|right]. keep_owner Ho; first [done|congruence].
Qed.

(** A stack outside the pool is freed. *)
Lemma step_free a : holds t = Some a -> at_entry t = None -> (forall j, addr (entry s j) <> Some a) ->
  inv (mkShared (pool s) (heap s ∖ {[a]}), <[k := Idle]> ts).
Proof.
  intros Hh Ha Hn. fresh_entry.
  assert (N : forall j u, j <> k -> ts !! j = Some u -> holds u <> Some a) by (intros j u Hne Hu Hc; apply Hne; by apply (I2 j k u t a)).
  split; cbn [fst snd heap pool]; unfold entry in *; cbn [pool]; try done.
  - intros j l u v a' Hu Hv Hau Hav. repeat other; cbn [holds] in *; simplify_eq. by apply (I2 j l u v a').
  - intros j l u v i Hu Hv Hau Hav. repeat other; cbn [at_entry] in *; simplify_eq. by apply (I3 j l u v i).
  - intros u v i a' Hu Hv Hau Hav Hc.
    apply (others _ _ _ _ _ Hk) in Hu as [->|(j & Hj & Eu)]; [done|].
    apply (others _ _ _ _ _ Hk) in Hv as [->|(l & Hl' & Ev)]; [done|].
    apply (I4 u v i a'); eauto using list_elem_of_lookup_2.
  - intros u i Hu Hau. apply (others _ _ _ _ _ Hk) in Hu as [->|(j & Hj & Eu)]; [done|]. apply (I5 u); eauto using list_elem_of_lookup_2.
  - intros u a' i Hu Hau Hc. apply (others _ _ _ _ _ Hk) in Hu as [->|(j & Hj & Eu)]; [done|].
    apply (I6 u a'); eauto using list_elem_of_lookup_2.
  - intros u a' Hu Hau. apply (others _ _ _ _ _ Hk) in Hu as [->|(j & Hj & Eu)]; [done|].
    apply elem_of_difference. split; [eauto using list_elem_of_lookup_2|]. intros ->%elem_of_singleton. by destruct (N j u Hj Eu).
  - intros i a' Hc. apply elem_of_difference. split; [by eapply I8|]. intros ->%elem_of_singleton. by destruct (Hn i).
  - intros u Hu. apply (others _ _ _ _ _ Hk) in Hu as [->|(j & Hj & Eu)]; [exact Logic.I|].
    specialize (I10 u ltac:(eauto using list_elem_of_lookup_2)). by destruct u.
  - intros i Hu. pose proof (I11 _ Hu) as Ho. keep_owner Ho; [|done].
    exfalso. destruct Ho as [?|(a' & ? & ?)]; [congruence|]. simplify_eq. by destruct (Hn i).
  - intros a' [Hin Hne]%elem_of_difference. destruct (I12 a' Hin) as [?|Ho]; [by left|right].
    keep_owner Ho; first [done|set_solver].
Qed.

End Steps.

Lemma next_get_local s i : local s (next_get i).
Proof. unfold next_get. by case_decide. Qed.

Lemma next_free_local s i a : length (pool s) = POOL_MAX -> (forall j, (j < i)%nat -> addr (entry s j) <> Some a) ->
  addr (entry s i) <> Some a -> local s (next_free i a).
Proof.
  intros L Hlt Hi. assert (Hj : forall j, (j < S i)%nat -> addr (entry s j) <> Some a).
  { intros j Hj. destruct (decide (j = i)) as [->|]; [done|]. apply Hlt. lia. }
  unfold next_free. case_decide as Hd; cbn [local]; [done|]. intros j.
  destruct (decide (j < S i)%nat); [by apply Hj|]. unfold entry. by rewrite lookup_ge_None_2 by lia.
Qed.

Lemma next_get_plain i : holds (next_get i) = None /\ at_entry (next_get i) = None.
Proof. unfold next_get. by case_decide. Qed.
Lemma next_free_holds i a : holds (next_free i a) = Some a /\ at_entry (next_free i a) = None.
Proof. unfold next_free. by case_decide. Qed.

Lemma step_inv x y : inv x -> sys_step x y -> inv y.
Proof.
  intros I St. revert I. destruct St as [k m s ts t Hk Hf]. intros I. pose proof (inv_local _ I t (mem_t ts k t Hk)) as Hl. pose proof (inv_len _ I) as L.
  pose proof (inv_at_used _ I t) as Hau. pose proof (inv_hold_used _ I t) as Hhu.
  pose proof (mem_t ts k t Hk) as Ht. cbn [fst snd] in *.
  destruct t as [|i|i|i|i|i|i| |a|i a|i a|a]; cbn [tstep local] in *.
  - apply (step_silent s ts k Idle I Hk); [done..|]. cbn. unfold POOL_MAX. lia.
  - destruct (used (entry s i)); cbn [fst snd].
    + apply (step_silent s ts k (GetUsed i) I Hk); [apply next_get_plain..|apply next_get_local].
    + by apply (step_silent s ts k (GetUsed i) I Hk).
  - unfold grab_unused, cas_used. destruct (used (entry s i)) eqn:Eu; cbn [Bool.eqb fst snd].
    + apply (step_silent s ts k (GetGrab i) I Hk); [apply next_get_plain..|apply next_get_local].
    + by apply (step_grab s ts k (GetGrab i) I Hk).
  - destruct (addr (entry s i)) as [a|] eqn:Ea; cbn [fst snd].
    + by apply (step_give s ts k (GetAddr i) I Hk i a).
    + by apply (step_silent s ts k (GetAddr i) I Hk).
  - apply (step_alloc s ts k (GetAlloc i) I Hk i m); tauto.
  - destruct (addr (entry s i)) as [a|] eqn:Ea; cbn [fst snd].
    + by apply (step_give s ts k (GetRead i) I Hk i a).
    + by apply (step_silent s ts k (GetRead i) I Hk).
  - destruct Hl as [Hi Ha]. unfold cas_used. rewrite (Hau i Ht eq_refl). cbn [Bool.eqb fst snd].
    apply (step_release s ts k (GetPutBack i) I Hk); [done..|]. by left.
  - destruct m as [a|]; cbn [add_heap fst snd].
    + by apply (step_outside s ts k GetOutside I Hk).
    + by apply (step_silent s ts k GetOutside I Hk).
  - apply (step_silent s ts k (Matching a) I Hk); [done..|]. cbn. unfold POOL_MAX. split; [lia|]. intros; lia.
  - destruct Hl as [Hi Hlt]. case_decide as Ha; cbn [fst snd].
    + by apply (step_silent s ts k (FreeScan i a) I Hk).
    + apply (step_silent s ts k (FreeScan i a) I Hk); [apply next_free_holds..|]. by apply next_free_local.
  - destruct Hl as [Hi Ha]. unfold cas_used. rewrite (Hhu a i Ht eq_refl Ha). cbn [Bool.eqb fst snd].
    apply (step_release s ts k (FreeRelease i a) I Hk); [done..|]. right. split; [done|]. by exists a.
  - by apply (step_free s ts k (FreeOutside a) I Hk).
Qed.

Lemma entry_init i : entry init i = mkEntry false None.
Proof.
  unfold entry, init. cbn [pool]. destruct (replicate POOL_MAX (mkEntry false None) !! i) as [e|] eqn:E; [|done].
  by apply lookup_replicate in E as [-> _].
Qed.

Lemma init_inv n : inv (init, replicate n Idle).
Proof.
  assert (A : forall t, t ∈ replicate n Idle -> t = Idle) by (intros t Ht; by apply elem_of_replicate in Ht as [-> _]).
  assert (B : forall j t, replicate n Idle !! j = Some t -> t = Idle) by (intros j t Ht; by apply lookup_replicate in Ht as [-> _]).
  split; cbn [fst snd]; try (intros; rewrite ?entry_init in *; done).
  - intros j k t u a Hj _ Ht. by rewrite (B _ _ Hj) in Ht.
  - intros j k t u a Hj _ Ht. by rewrite (B _ _ Hj) in Ht.
  - intros t i Hin Ht. by rewrite (A _ Hin) in Ht.
  - intros t a Hin Ht. by rewrite (A _ Hin) in Ht.
  - intros t Hin. by rewrite (A _ Hin).
Qed.

Definition reachable (n : nat) (x : sys) : Prop := rtc sys_step (init, replicate n Idle) x.

Lemma reachable_inv n x : reachable n x -> inv x.
Proof.
  unfold reachable. generalize (init_inv n). generalize (init, replicate n Idle). intros y Iy R.
  induction R as [y|y z x St R IH]; [done|]. apply IH. by eapply step_inv.
Qed.

(** C23: however the steps of any number of threads interleave, and whether or
    not the allocator has memory, no two threads are given the same stack and a
    stack that a thread holds is allocated; once all threads are outside of the
    functions, no entry of the pool is left in use and the stacks still allocated
    are exactly those in the pool. *)
Theorem pool_exclusive (n : nat) (s : shared) (ts : list thread) :
  reachable n (s, ts) ->
  (forall j k t u a, ts !! j = Some t -> ts !! k = Some u -> holds t = Some a -> holds u = Some a -> j = k) /\
  (forall t a, t ∈ ts -> holds t = Some a -> a ∈ heap s) /\
  (Forall (fun t => t = Idle) ts ->
     (forall i, used (entry s i) = false) /\ (forall a, a ∈ heap s <-> exists i, addr (entry s i) = Some a)).
Proof.
  intros R. pose proof (reachable_inv _ _ R) as I. split; [exact (inv_hold _ I)|]. split; [exact (inv_hold_heap _ I)|].
  intros F. assert (F' : forall t, t ∈ ts -> t = Idle) by (by apply Forall_forall). split.
  - intros i. destruct (used (entry s i)) eqn:E; [|done].
    destruct (inv_used _ I i E) as (t & ->%F' & [?|(a & ? & _)]); done.
  - intros a. split; [|intros [i Hi]; by eapply (inv_pool_heap _ I)].
    intros Hin. destruct (inv_heap _ I a Hin) as [?|(t & ->%F' & ?)]; done.
Qed.

(** ** Progress *)

(** A thread's own steps, between which the others do what they like: step [j]
    finds the shared state and the allocator's answer [env j]. *)
Fixpoint own_steps (env : nat -> shared * option Z) (n : nat) (t : thread) : thread :=
  match n with
  | O => t
  | S n => own_steps (fun j => env (S j)) n (tstep (env O).1 (env O).2 t).2
  end.

Definition outside (t : thread) : Prop := match t with Idle | Matching _ => True | _ => False end.

(** How many steps it takes to the end of the function at most. *)
Definition rank (t : thread) : nat :=
  match t with
  | Idle | Matching _ => 0
  | GetUsed i => 2 * (POOL_MAX - i) + 5
  | GetGrab i => 2 * (POOL_MAX - i) + 4
  | GetAddr _ => 5
  | GetAlloc _ => 4
  | GetRead _ => 3
  | GetPutBack _ => 2
  | GetOutside => 1
  | FreeScan i _ => POOL_MAX - i + 2
  | FreeRelease _ _ | FreeOutside _ => 1
  end.

Lemma rank_decreases s m t : (forall i, t = GetUsed i \/ t = GetGrab i -> (i < POOL_MAX)%nat) ->
  outside t \/ (rank (tstep s m t).2 < rank t)%nat /\
    (forall i, (tstep s m t).2 = GetUsed i \/ (tstep s m t).2 = GetGrab i -> (i < POOL_MAX)%nat).
Proof.
  intros Hi. destruct t as [|i|i|i|i|i|i| |a|i a|i a|a]; try (by left); right; cbn [tstep].
  - specialize (Hi i ltac:(by left)). destruct (used (entry s i)); cbn [snd rank]; [|split; [lia|naive_solver]].
    unfold next_get. case_decide; cbn [rank]; (split; [lia|naive_solver]).
  - specialize (Hi i ltac:(by right)). destruct (grab_unused s i) as [[] s']; cbn [snd rank]; [split; [lia|naive_solver]|].
    unfold next_get. case_decide; cbn [rank]; (split; [lia|naive_solver]).
  - destruct (addr (entry s i)); cbn; (split; [lia|naive_solver]).
  - cbn. split; [lia|naive_solver].
  - destruct (addr (entry s i)); cbn; (split; [lia|naive_solver]).
  - cbn. split; [lia|naive_solver].
  - destruct m; cbn; (split; [lia|naive_solver]).
  - case_decide; cbn [snd rank]; [split; [lia|naive_solver]|].
    unfold next_free. case_decide; cbn [rank]; (split; [lia|naive_solver]).
  - cbn. split; [lia|naive_solver].
  - cbn. split; [lia|naive_solver].
Qed.

Lemma own_steps_end r : forall env t, (forall i, t = GetUsed i \/ t = GetGrab i -> (i < POOL_MAX)%nat) -> (rank t <= r)%nat ->
  exists n, (n <= r)%nat /\ outside (own_steps env n t).
Proof.
  induction r as [|r IH]; intros env t Hi Hr.
  - destruct (rank_decreases (env O).1 (env O).2 t Hi) as [Ho|[Hd _]]; [|lia]. by exists O.
  - destruct (rank_decreases (env O).1 (env O).2 t Hi) as [Ho|[Hd Hi']]; [by exists O; split; [lia|]|].
    destruct (IH (fun j => env (S j)) _ Hi' ltac:(lia)) as (n & Hn & Ho). exists (S n). split; [lia|done].
Qed.

(** C24: [get_stack] and [free_stack] are wait-free: whatever the other threads
    do to the pool between its steps, a thread that enters [get_stack] has a
    stack or is refused one after at most 101 steps of its own, and one that
    enters [free_stack] has left it after at most 50. *)
Theorem pool_wait_free (env : nat -> shared * option Z) (a : Z) :
  (exists n, (n <= 101)%nat /\ outside (own_steps env n (GetUsed 0))) /\
  (exists n, (n <= 50)%nat /\ outside (own_steps env n (FreeScan 0 a))).
Proof.
  split; apply own_steps_end; try (cbn; lia); intros i [[=]|[=]]; unfold POOL_MAX; lia.
Qed.

(** Executable schedules. *)
Fixpoint exec (sched : list (nat * option Z)) (x : sys) : sys :=
  match sched with
  | [] => x
  | (k, m) :: sched =>
      match x.2 !! k with
      | Some t => exec sched ((tstep x.1 m t).1, <[k := (tstep x.1 m t).2]> x.2)
      | None => x
      end
  end.

Fixpoint answers_fresh (sched : list (nat * option Z)) (x : sys) : bool :=
  match sched with
  | [] => true
  | (k, m) :: sched =>
      match x.2 !! k with
      | Some t => match m with Some a => bool_decide (a ∉ heap x.1) | None => true end &&
                  answers_fresh sched ((tstep x.1 m t).1, <[k := (tstep x.1 m t).2]> x.2)
      | None => true
      end
  end.

Lemma exec_reaches sched x : answers_fresh sched x = true -> rtc sys_step x (exec sched x).
Proof.
  revert x. induction sched as [|[k m] sched IH]; intros [s ts]; cbn [answers_fresh exec fst snd]; [intros; apply rtc_refl|].
  destruct (ts !! k) as [t|] eqn:Ek; [|intros; apply rtc_refl]. intros [Hf Ha]%andb_true_iff.
  eapply rtc_l; [|by apply IH]. constructor; [done|]. destruct m as [a|]; [|done]. by apply bool_decide_eq_true in Hf.
Qed.

(** Two threads scan in turn; the first gets a new stack of the pool, the second
    one of its own from the next entry. *)
Definition sample_schedule : list (nat * option Z) :=
  map (pair 0%nat) [None] ++ map (pair 1%nat) [None] ++ map (pair 0%nat) [None] ++ map (pair 1%nat) [None] ++
  map (pair 0%nat) [None; None; Some 7; None] ++ map (pair 1%nat) [None; None; None; None; Some 9; None].

Lemma pool_exclusive_witness :
  exists s, exec sample_schedule (init, [Idle; Idle]) = (s, [Matching 7; Matching 9]) /\ 7 ∈ heap s /\ 9 ∈ heap s.
Proof.
  exists (exec sample_schedule (init, [Idle; Idle])).1.
  assert (E : exec sample_schedule (init, [Idle; Idle]) = ((exec sample_schedule (init, [Idle; Idle])).1, [Matching 7; Matching 9]))
    by (vm_compute; reflexivity).
  split; [exact E|].
  assert (R : reachable 2 ((exec sample_schedule (init, [Idle; Idle])).1, [Matching 7; Matching 9])).
  { rewrite <- E. apply (exec_reaches sample_schedule (init, [Idle; Idle])). vm_compute. reflexivity. }
  destruct (pool_exclusive 2 _ _ R) as (_ & Hh & _).
  split; [apply (Hh (Matching 7) 7)|apply (Hh (Matching 9) 9)]; [constructor|reflexivity|do 2 constructor|reflexivity].
Defined.

End StackPool.
