(* ===== verification/EvtFormat.v ===== *)
(** * The event formatter (src/evtformat.c)

    Events become JSON objects: the formatter filters them by source, name and
    value, limits their rate, selects their fields and wraps them with the
    description of the process.  The objects are those of [CJson]; regular
    expressions are the C library's: [regcomp] gives the function that says
    whether a text matches, or nothing when it rejects the expression.  The
    name set of src/strset.c keeps field names unique.

    The theorems say which fields an event's object has, and what the rate
    limiter lets through. *)

From S2P Require Import Prelude Types StrSet MtcFormat Cfg CJson.

Module EvtFormat.
Import StrSet CJson.

(** ** Tables *)

Definition CFG_SRC_HTTP : Z := 4.

Definition watchTypeMap : list (string * Z) :=
  [("file", 0); ("console", 1); ("syslog", 2); ("metric", 3); ("http", 4); ("net", 5); ("fs", 6); ("dns", 7); ("sec", 8)]%string.

Definition valToStr (map : list (string * Z)) (val : Z) : option string :=
  fst <$> List.find (fun m => snd m =? val) map.

(** A compiled expression: does a text match? *)
Definition regex : Type := string -> bool.

Record proc_id_t := mkProc {
  hostname : string;
  procname : string;
  cmd : option string;
  proc_pid : Z;
  proc_id : string;
}.

Record evt_fmt_t := mkEvtFmt {
  value_re : list (option regex);         (* local_re_t [CFG_SRC_MAX] *)
  field_re : list (option regex);
  name_re : list (option regex);
  enabled : list Z;
  rl_time : Z;                            (* ratelimit *)
  evtCount : Z;                           (* unsigned long *)
  notified : bool;
  maxEvtPerSec : Z;
  etags : option (list custom_tag_t);
}.

Definition set_value_re (e : evt_fmt_t) (l : list (option regex)) : evt_fmt_t :=
  mkEvtFmt l (field_re e) (name_re e) (enabled e) (rl_time e) (evtCount e) (notified e) (maxEvtPerSec e) (etags e).
Definition set_field_re (e : evt_fmt_t) (l : list (option regex)) : evt_fmt_t :=
  mkEvtFmt (value_re e) l (name_re e) (enabled e) (rl_time e) (evtCount e) (notified e) (maxEvtPerSec e) (etags e).
Definition set_name_re (e : evt_fmt_t) (l : list (option regex)) : evt_fmt_t :=
  mkEvtFmt (value_re e) (field_re e) l (enabled e) (rl_time e) (evtCount e) (notified e) (maxEvtPerSec e) (etags e).
Definition set_enabled (e : evt_fmt_t) (l : list Z) : evt_fmt_t :=
  mkEvtFmt (value_re e) (field_re e) (name_re e) l (rl_time e) (evtCount e) (notified e) (maxEvtPerSec e) (etags e).
Definition set_limiter (e : evt_fmt_t) (time count : Z) (n : bool) : evt_fmt_t :=
  mkEvtFmt (value_re e) (field_re e) (name_re e) (enabled e) time count n (maxEvtPerSec e) (etags e).
Definition set_max (e : evt_fmt_t) (m : Z) : evt_fmt_t :=
  mkEvtFmt (value_re e) (field_re e) (name_re e) (enabled e) (rl_time e) (evtCount e) (notified e) m (etags e).
Definition set_etags (e : evt_fmt_t) (t : option (list custom_tag_t)) : evt_fmt_t :=
  mkEvtFmt (value_re e) (field_re e) (name_re e) (enabled e) (rl_time e) (evtCount e) (notified e) (maxEvtPerSec e) t.

Section Filters.
#[local] Set Default Proof Using "Type".
Variable regcomp : string -> option regex.

(** ** Filters *)

Definition filterSet (re : option regex) (str default_val : option string) : option regex :=
  let temp := match str with Some s => regcomp s | None => None end in
  let temp := match temp, default_val with None, Some d => regcomp d | _, _ => temp end in
  match temp with Some _ => temp | None => re end.

Definition default_re (defaults : list (option string)) (src : Z) : option regex :=
  filterSet None None (Cfg.at_ None defaults src).

Definition all_src : list Z := seqZ 0 CFG_SRC_MAX.

Definition evtFormatCreate (calloc_ok : bool) : option evt_fmt_t :=
  if negb calloc_ok then None else
  Some (mkEvtFmt (map (default_re Cfg.valueFilterDefault) all_src) (map (default_re Cfg.fieldFilterDefault) all_src)
          (map (default_re Cfg.nameFilterDefault) all_src) Cfg.srcEnabledDefault 0 0 false Cfg.DEFAULT_MAXEVENTSPERSEC None).

Definition evtFormatDestroyTags (t : option (list custom_tag_t)) : option (list custom_tag_t) := None.
Definition evtFormatDestroy (e : option evt_fmt_t) : option evt_fmt_t := None.

(** The formatter's own expression, or else the default one. *)
Definition filter_of (get : evt_fmt_t -> list (option regex)) (defaults : list (option string))
    (evt : option evt_fmt_t) (src : Z) : option regex :=
  if Cfg.src_ok src then
    match evt ≫= fun e => Cfg.at_ None (get e) src with
    | Some re => Some re
    | None => default_re defaults src
    end
  else None.

Definition evtFormatValueFilter := filter_of value_re Cfg.valueFilterDefault.
Definition evtFormatFieldFilter := filter_of field_re Cfg.fieldFilterDefault.
Definition evtFormatNameFilter := filter_of name_re Cfg.nameFilterDefault.

Definition evtFormatSourceEnabled (evt : option evt_fmt_t) (src : Z) : Z :=
  if Cfg.src_ok src then
    match evt with Some e => Cfg.at_ 0 (enabled e) src | None => Cfg.at_ 0 Cfg.srcEnabledDefault src end
  else Cfg.at_ 0 Cfg.srcEnabledDefault CFG_SRC_FILE.

Definition evtFormatRateLimit (evt : option evt_fmt_t) : Z :=
  match evt with Some e => u32 (maxEvtPerSec e) | None => Cfg.DEFAULT_MAXEVENTSPERSEC end.
Definition evtFormatCustomTags (evt : option evt_fmt_t) : option (list custom_tag_t) :=
  match evt with Some e => etags e | None => None end.

Definition re_set (l : list (option regex)) (defaults : list (option string)) (src : Z) (str : option string) :=
  set_at l src (filterSet (Cfg.at_ None l src) str (Cfg.at_ None defaults src)).

Definition evtFormatValueFilterSet (e : evt_fmt_t) (src : Z) (str : option string) : evt_fmt_t :=
  if negb (Cfg.src_ok src) then e else set_value_re e (re_set (value_re e) Cfg.valueFilterDefault src str).
Definition evtFormatFieldFilterSet (e : evt_fmt_t) (src : Z) (str : option string) : evt_fmt_t :=
  if negb (Cfg.src_ok src) then e else set_field_re e (re_set (field_re e) Cfg.fieldFilterDefault src str).
Definition evtFormatNameFilterSet (e : evt_fmt_t) (src : Z) (str : option string) : evt_fmt_t :=
  if negb (Cfg.src_ok src) then e else set_name_re e (re_set (name_re e) Cfg.nameFilterDefault src str).
Definition evtFormatSourceEnabledSet (e : evt_fmt_t) (src val : Z) : evt_fmt_t :=
  if negb (Cfg.src_ok src) || (1 <? val) then e else set_enabled e (set_at (enabled e) src val).
Definition evtFormatRateLimitSet (e : evt_fmt_t) (val : Z) : evt_fmt_t := set_max e val.

(** The copies; [al] are the outcomes of the allocations: the array, then three
    for each tag. *)
Fixpoint copy_tags (al : list bool) (tags : list custom_tag_t) : list custom_tag_t :=
  match tags with
  | [] => []
  | t :: tags =>
      let '(ok1, al) := alloc al in
      let '(ok2, al) := alloc al in
      let '(ok3, al) := alloc al in
      if ok1 && ok2 && ok3 then t :: copy_tags al tags else copy_tags al tags
  end.
Definition evtFormatCustomTagsSet (al : list bool) (e : evt_fmt_t) (tags : option (list custom_tag_t)) : evt_fmt_t :=
  match tags with
  | None | Some [] => set_etags e None
  | Some l => let '(ok, al) := alloc al in set_etags e (if ok then Some (copy_tags al l) else None)
  end.

(** ** JSON *)

Section Json.
Context `{Double}.
(** A floating value of a metric as the number of a JSON item. *)
Variable num_of : Types.double -> double.

(** [cJSON_AddStringToObjLN]: a NULL string cannot be copied. *)
Definition cJSON_AddStringToObjLN (al : list bool) (object : cJSON) (name : string) (s : option string)
  : option cJSON * list bool :=
  match s with
  | Some s => add_item 2 al object (bytes_of name) (cJSON_String (cstr (bytes_of s)))
  | None => let '(_, al) := alloc al in (None, al)
  end.

(** An addition whose failure is ignored. *)
Definition or_same (object : cJSON) (r : option cJSON * list bool) : cJSON * list bool :=
  (default object (fst r), snd r).

(** [strSetAdd(addedFields, name)]; only a full set needs memory. *)
Definition set_add (al : list bool) (added : option strset_t) (name : string) : bool * option strset_t * list bool :=
  let '(ok, al) :=
    match added with
    | Some st => if (capacity st <=? count st) && negb (strSetContains added (Some name)) then alloc al else (true, al)
    | None => (true, al)
    end in
  (strSetAdd ok added (Some name), al).

Fixpoint addCustomJsonFields (al : list bool) (tags : list custom_tag_t) (json : cJSON) (added : option strset_t)
  : cJSON * option strset_t * list bool :=
  match tags with
  | [] => (json, added, al)
  | tag :: tags =>
      let '(fresh, added', al) := match added with
                                  | Some _ => set_add al added (tag_name tag)
                                  | None => (true, None, al)
                                  end in
      if fresh then
        let '(json, al) := or_same json (cJSON_AddStringToObject al json (bytes_of (tag_name tag)) (bytes_of (tag_value tag))) in
        addCustomJsonFields al tags json added'
      else addCustomJsonFields al tags json added'
  end.

Record event_format_t := mkEventFormat {
  timestamp : double;
  ev_src : option string;
  ev_proc : option proc_id_t;
  ev_uid : Z;
  ev_data : cJSON;
  sourcetype : Z;
}.

(** A sequence of additions; the first failure ends it. *)
Definition then_add (r : option cJSON * list bool) (add : list bool -> cJSON -> option cJSON * list bool)
  : option cJSON * list bool :=
  match r with (Some o, al) => add al o | (None, al) => (None, al) end.

Definition fmtEventJson (al : list bool) (efmt : option evt_fmt_t) (sev : event_format_t) : option cJSON * list bool :=
  match ev_proc sev with
  | None => (None, al)
  | Some proc =>
      let str name s al o := cJSON_AddStringToObjLN al o name s in
      let num name n al o := cJSON_AddNumberToObjLN al o (bytes_of name) n in
      let r := cJSON_CreateObject al in
      let r := then_add r (str "sourcetype" (valToStr watchTypeMap (sourcetype sev)))%string in
      let r := then_add r (num "_time" (timestamp sev))%string in
      let r := then_add r (str "source" (ev_src sev))%string in
      let r := then_add r (str "host" (Some (hostname proc)))%string in
      let r := then_add r (str "proc" (Some (procname proc)))%string in
      let r := then_add r (str "cmd" (cmd proc))%string in
      let r := then_add r (num "pid" (of_int (proc_pid proc)))%string in
      match r with
      | (None, al) => (None, al)
      | (Some json, al) =>
          let '(json, _, al) := match efmt with
                                | Some e => addCustomJsonFields al (default [] (etags e)) json None
                                | None => (json, None, al)
                                end in
          (Some (cJSON_AddItemToObjectCS json (bytes_of "data") (ev_data sev)), al)
      end
  end.

Definition rateLimitMessage (al : list bool) (now : double) (proc : proc_id_t) (src max : Z) : option cJSON * list bool :=
  let text := ("Truncated metrics. Your rate exceeded " +:+ pretty max +:+ " metrics per second")%string in
  let '(ok, al) := allocs 2 al in
  (* a string that cannot be allocated is NULL, and AddItemToObjectCS ignores it *)
  match ok with
  | true => fmtEventJson al None (mkEventFormat now (Some "notice"%string) (Some proc) 0 (cJSON_String (cstr (bytes_of text))) src)
  | false =>
      match fmtEventJson al None (mkEventFormat now (Some "notice"%string) (Some proc) 0 cJSON_NULL src) with
      | (Some (cJSON_Object child), al) => (Some (cJSON_Object (take (length child - 1) child)), al)
      | r => r
      end
  end.

Definition metricTypeStr (t : data_type_t) : string :=
  match t with
  | DELTA => "counter"
  | CURRENT => "gauge"
  | DELTA_MS => "timer"
  | HISTOGRAM => "histogram"
  | SET => "set"
  | DATA_TYPE_OTHER => "unknown"
  end%string.

Fixpoint addJsonFields (al : list bool) (fields : list event_field_t) (fieldFilter : option regex) (json : cJSON)
    (added : option strset_t) : cJSON * option strset_t * list bool :=
  match fields with
  | [] => (json, added, al)
  | fld :: fields =>
      if match fieldFilter with Some re => negb (re (f_name fld)) | None => false end
      then addJsonFields al fields fieldFilter json added
      else if negb (f_event_usage fld) then addJsonFields al fields fieldFilter json added
      else
        let '(fresh, added, al) := set_add al added (f_name fld) in
        if negb fresh then addJsonFields al fields fieldFilter json added else
        let '(json, al) :=
          match f_value fld with
          | FMT_STR s => or_same json (cJSON_AddStringToObjLN al json (f_name fld) s)
          | FMT_NUM n => or_same json (cJSON_AddNumberToObjLN al json (bytes_of (f_name fld)) (of_int n))
          | FMT_OTHER => (json, al)
          end in
        addJsonFields al fields fieldFilter json added
  end.

Definition fmtMetricJson (al : list bool) (metric : event_t) (fieldFilter : option regex) (src : Z)
    (tags : option (list custom_tag_t)) : option cJSON * list bool :=
  let r := cJSON_CreateObject al in
  let r :=
    if src =? CFG_SRC_METRIC then
      let r := then_add r (fun al o => cJSON_AddStringToObjLN al o "_metric" (Some (e_name metric))) in
      let r := then_add r (fun al o => cJSON_AddStringToObjLN al o "_metric_type" (Some (metricTypeStr (e_type metric)))) in
      match e_value metric with
      | FMT_INT n => then_add r (fun al o => cJSON_AddNumberToObjLN al o (bytes_of "_value") (of_int n))
      | FMT_FLT d => then_add r (fun al o => cJSON_AddNumberToObjLN al o (bytes_of "_value") (num_of d))
      | FMT_VALUE_OTHER => r
      end
    else r in
  match r with
  | (None, al) => (None, al)
  | (Some json, al) =>
      let '(set_ok, al) := alloc al in
      let '(str_ok, al) := alloc al in
      match strSetCreate set_ok str_ok DEFAULT_SET_SIZE with
      | None => (Some json, al)
      | Some set =>
          let '(json, added, al) := addJsonFields al (default [] (e_capturedFields metric)) fieldFilter json (Some set) in
          let '(json, added, al) := addCustomJsonFields al (default [] tags) json added in
          let '(json, added, al) := addJsonFields al (default [] (e_fields metric)) fieldFilter json added in
          (Some json, al)
      end
  end.

(** ** Selection and rate *)

(** The text of the metric's value. *)
Definition value_text (v : value) : option string :=
  match v with
  | FMT_INT n => Some (MtcFormat.fmt_lli n)
  | FMT_FLT d => Some (snd (MtcFormat.snprintf 320 (MtcFormat.fmt_f2 d)))
  | FMT_VALUE_OTHER => None
  end.
Definition field_text (f : event_field_t) : option string :=
  match f_value f with
  | FMT_STR s => s
  | FMT_NUM n => Some (MtcFormat.fmt_lli n)
  | FMT_OTHER => None
  end.

Definition anyValueFieldMatches (filter : option regex) (metric : event_t) : bool :=
  match filter with
  | None => true
  | Some re =>
      let matches t := match t with Some s => re s | None => false end in
      matches (value_text (e_value metric)) || existsb (fun f => matches (field_text f)) (default [] (e_fields metric))
  end.

(** What the limiter decides: pass the event on, or answer with the notice. *)
Definition limiter (evt : evt_fmt_t) (sec : Z) : bool * evt_fmt_t :=
  if maxEvtPerSec evt =? 0 then (false, evt)
  else if negb (sec =? rl_time evt) then (false, set_limiter evt sec 0 false)
  else
    let n := u64 (evtCount evt + 1) in
    ((maxEvtPerSec evt <=? n) && negb (notified evt), set_limiter evt (rl_time evt) n (notified evt)).

(** [tv] is the time of day: its seconds, and the timestamp computed from it;
    [data] is the field of that name of the event. *)
Definition evtFormatHelper (al : list bool) (tv : Z * double) (evt : option evt_fmt_t) (metric : event_t)
    (data : option cJSON) (uid : Z) (proc : option proc_id_t) (src : Z) : option cJSON * option evt_fmt_t * list bool :=
  match evt, proc with
  | Some e, Some p =>
      if negb (negb (evtFormatSourceEnabled evt src =? 0) &&
               match evtFormatNameFilter evt src with Some re => re (e_name metric) | None => false end)
      then (None, evt, al) else
      let '(notice, e) := limiter e (fst tv) in
      if notice then
        let '(json, al) := rateLimitMessage al (snd tv) p src (u32 (maxEvtPerSec e)) in
        (json, Some (set_limiter e (rl_time e) (evtCount e) (bool_decide (is_Some json))), al)
      else
      if negb (anyValueFieldMatches (evtFormatValueFilter (Some e) src) metric) then (None, Some e, al) else
      let '(d, al) := match data with
                      | Some d => (Some d, al)
                      | None => fmtMetricJson al metric (evtFormatFieldFilter (Some e) src) src None
                      end in
      match d with
      | None => (None, Some e, al)
      | Some d =>
          let '(json, al) := fmtEventJson al (Some e) (mkEventFormat (snd tv) (Some (e_name metric)) proc uid d src) in
          (json, Some e, al)
      end
  | _, _ => (None, evt, al)
  end.

Definition evtFormatMetric (al : list bool) (tv : Z * double) (efmt : option evt_fmt_t) (metric : event_t)
    (data : option cJSON) (uid : Z) (proc : option proc_id_t) :=
  evtFormatHelper al tv efmt metric data uid proc (e_src metric).
Definition evtFormatHttp (al : list bool) (tv : Z * double) (efmt : option evt_fmt_t) (metric : event_t)
    (data : option cJSON) (uid : Z) (proc : option proc_id_t) :=
  evtFormatHelper al tv efmt metric data uid proc CFG_SRC_HTTP.


(** ** What a metric's object contains *)

Lemma allocs_ok n : allocs n [] = (true, []).
Proof. induction n as [|n IH]; simpl; auto. Qed.

Lemma or_same_add n object name item :
  or_same object (add_item n [] object name item) = (cJSON_AddItemToObjectCS object name item, []).
Proof. unfold or_same, add_item. by rewrite allocs_ok. Qed.

(** A field as a name and its value; a NULL string has none. *)
Definition field_json (f : event_field_t) : option cJSON :=
  match f_value f with
  | FMT_STR (Some s) => Some (cJSON_String (cstr (bytes_of s)))
  | FMT_NUM n => Some (cJSON_CreateNumber (of_int n))
  | _ => None
  end.
Definition shown (re : option regex) (f : event_field_t) : bool :=
  match re with Some re => re (f_name f) | None => true end && f_event_usage f.
Definition field_entries (re : option regex) (fs : list event_field_t) : list (string * option cJSON) :=
  map (fun f => (f_name f, field_json f)) (List.filter (shown re) fs).
Definition tag_entries (tags : list custom_tag_t) : list (string * option cJSON) :=
  map (fun t => (tag_name t, Some (cJSON_String (cstr (bytes_of (tag_value t)))))) tags.

(** The entries whose name is not taken, by [seen] or by an earlier entry. *)
Fixpoint first_named (seen : list string) (l : list (string * option cJSON)) : list (string * option cJSON) :=
  match l with
  | [] => []
  | (n, v) :: l => if decide (n ∈ seen) then first_named seen l else (n, v) :: first_named (seen ++ [n]) l
  end.
Definition members (l : list (string * option cJSON)) : list (list Z * cJSON) :=
  omap (fun e => pair (bytes_of (fst e)) <$> snd e) l.

Lemma first_named_app seen l l' :
  first_named seen (l ++ l') = first_named seen l ++ first_named (dedup_onto seen (map fst l)) l'.
Proof.
  revert seen. induction l as [|[n v] l IH]; intros seen; simpl; [done|].
  case_decide; simpl; by rewrite IH.
Qed.

Lemma first_named_fresh seen l :
  NoDup (map fst (first_named seen l)) /\ (forall n, n ∈ map fst (first_named seen l) -> n ∉ seen).
Proof.
  clear regcomp num_of.
  revert seen. induction l as [|[n v] l IH]; intros seen; simpl; [split; [constructor|set_solver]|].
  case_decide; [apply IH|]. destruct (IH (seen ++ [n])) as [Hd Hf]. simpl. split.
  - constructor; [intros Hin; apply (Hf n Hin); set_solver|done].
  - intros n' Hin. assert (n' = n \/ n' ∈ map fst (first_named (seen ++ [n]) l)) as [->|Hin'] by set_solver; [done|].
    specialize (Hf _ Hin'). set_solver.
Qed.

(** Adding an entry's name to the set. *)
Lemma set_add_spec st es n :
  holds st es -> Z.of_nat (length es) < 2 ^ 30 ->
  if decide (n ∈ es) then set_add [] (Some st) n = (false, Some st, [])
  else exists st', set_add [] (Some st) n = (true, Some st', []) /\ holds st' (es ++ [n]).
Proof.
  intros Hh Hl. unfold set_add. simpl alloc.
  replace (if (capacity st <=? count st) && negb (strSetContains (Some st) (Some n)) then (true, []) else (true, []))
    with (true, @nil bool) by (by destruct (_ && _)).
  case_decide as Hin.
  - by rewrite (add_dup true st es n Hh Hin).
  - destruct (add_new st es n Hh Hin) as (st' & -> & Hh'); [rewrite (holds_count _ _ Hh); lia|]. eauto.
Qed.

Lemma addJsonFields_spec fs re ms st es :
  holds st es -> Z.of_nat (length es + length fs) < 2 ^ 30 ->
  exists st', addJsonFields [] fs re (cJSON_Object ms) (Some st)
      = (cJSON_Object (ms ++ members (first_named es (field_entries re fs))), Some st', [])
    /\ holds st' (dedup_onto es (map fst (field_entries re fs))).
Proof.
  revert ms st es. induction fs as [|f fs IH]; intros ms st es Hh Hl; cbn [length addJsonFields] in *.
  { exists st. by rewrite app_nil_r. }
  unfold field_entries. cbn [List.filter].
  assert (Hsh : shown re f = negb (match re with Some re => negb (re (f_name f)) | None => false end) && f_event_usage f).
  { unfold shown. destruct re; [by rewrite negb_involutive|done]. }
  rewrite Hsh. destruct (match re with Some re => negb (re (f_name f)) | None => false end); cbn [negb andb].
  { apply IH; [done|lia]. }
  destruct (f_event_usage f); cbn [negb]; [|apply IH; [done|lia]].
  cbn [map first_named dedup_onto fst]. pose proof (set_add_spec st es (f_name f) Hh ltac:(lia)) as Hadd.
  case_decide; [rewrite Hadd; apply IH; [done|lia]|]. destruct Hadd as (st' & -> & Hh'). cbn [negb].
  assert (Hl' : Z.of_nat (length (es ++ [f_name f]) + length fs) < 2 ^ 30) by (rewrite length_app; simpl; lia).
  unfold field_json at 1. destruct (f_value f) as [[s|]|n|].
  - unfold cJSON_AddStringToObjLN. rewrite or_same_add. simpl cJSON_AddItemToObjectCS.
    destruct (IH (ms ++ [(bytes_of (f_name f), cJSON_String (cstr (bytes_of s)))]) st' _ Hh' Hl') as (st2 & -> & ?).
    exists st2. by rewrite <- app_assoc.
  - apply (IH _ _ _ Hh' Hl').
  - unfold cJSON_AddNumberToObjLN. rewrite or_same_add. simpl cJSON_AddItemToObjectCS.
    destruct (IH (ms ++ [(bytes_of (f_name f), cJSON_CreateNumber (of_int n))]) st' _ Hh' Hl') as (st2 & -> & ?).
    exists st2. by rewrite <- app_assoc.
  - apply (IH _ _ _ Hh' Hl').
Qed.

Lemma addCustomJsonFields_spec tags ms st es :
  holds st es -> Z.of_nat (length es + length tags) < 2 ^ 30 ->
  exists st', addCustomJsonFields [] tags (cJSON_Object ms) (Some st)
      = (cJSON_Object (ms ++ members (first_named es (tag_entries tags))), Some st', [])
    /\ holds st' (dedup_onto es (map fst (tag_entries tags))).
Proof.
  revert ms st es. induction tags as [|t tags IH]; intros ms st es Hh Hl; cbn [length addCustomJsonFields] in *.
  { exists st. by rewrite app_nil_r. }
  unfold tag_entries. cbn [map first_named dedup_onto fst].
  pose proof (set_add_spec st es (tag_name t) Hh ltac:(lia)) as Hadd.
  case_decide; [rewrite Hadd; apply IH; [done|lia]|]. destruct Hadd as (st' & -> & Hh').
  unfold cJSON_AddStringToObject. rewrite or_same_add. simpl cJSON_AddItemToObjectCS.
  destruct (IH (ms ++ [(bytes_of (tag_name t), cJSON_String (cstr (bytes_of (tag_value t))))]) st' _ Hh'
              ltac:(rewrite length_app; simpl; lia)) as (st2 & -> & ?).
  exists st2. by rewrite <- app_assoc.
Qed.

(** All the tags, where names need not be distinct. *)
Lemma add_tags_all tags ms :
  addCustomJsonFields [] tags (cJSON_Object ms) None = (cJSON_Object (ms ++ members (tag_entries tags)), None, []).
Proof.
  revert ms. induction tags as [|t tags IH]; intros ms; cbn [addCustomJsonFields]; [by rewrite app_nil_r|].
  unfold cJSON_AddStringToObject. rewrite or_same_add. simpl cJSON_AddItemToObjectCS. rewrite IH.
  by rewrite <- app_assoc.
Qed.


Lemma dedup_onto_length es xs : (length (dedup_onto es xs) <= length es + length xs)%nat.
Proof.
  revert es. induction xs as [|x xs IH]; intros es; simpl; [lia|].
  case_decide; etrans; [apply IH|lia|apply IH|rewrite length_app; simpl; lia].
Qed.

Lemma field_entries_length re fs : (length (map fst (field_entries re fs)) <= length fs)%nat.
Proof. unfold field_entries. rewrite !length_map. apply filter_length_le. Qed.

(** The description of a metric that opens its object. *)
Definition str_json (s : string) : cJSON := cJSON_String (cstr (bytes_of s)).
Definition metric_head (metric : event_t) (src : Z) : list (list Z * cJSON) :=
  if src =? CFG_SRC_METRIC then
    [(bytes_of "_metric", str_json (e_name metric)); (bytes_of "_metric_type", str_json (metricTypeStr (e_type metric)))] ++
    match e_value metric with
    | FMT_INT n => [(bytes_of "_value", cJSON_CreateNumber (of_int n))]
    | FMT_FLT d => [(bytes_of "_value", cJSON_CreateNumber (num_of d))]
    | FMT_VALUE_OTHER => []
    end
  else [].

(** The candidates, in order of precedence. *)
Definition entries (metric : event_t) (re : option regex) (tags : option (list custom_tag_t)) : list (string * option cJSON) :=
  field_entries re (default [] (e_capturedFields metric)) ++ tag_entries (default [] tags) ++
  field_entries re (default [] (e_fields metric)).

Definition metric_object (metric : event_t) (re : option regex) (src : Z) (tags : option (list custom_tag_t)) : cJSON :=
  cJSON_Object (metric_head metric src ++ members (first_named [] (entries metric re tags))).

Definition entry_count (metric : event_t) (tags : option (list custom_tag_t)) : Z :=
  Z.of_nat (length (default [] (e_capturedFields metric)) + length (default [] tags) + length (default [] (e_fields metric))).

Lemma fmtMetricJson_exact metric re src tags :
  entry_count metric tags < 2 ^ 30 ->
  fmtMetricJson [] metric re src tags = (Some (metric_object metric re src tags), []).
Proof.
  unfold entry_count. intros Hl.
  transitivity (let '(json, added, al) := addJsonFields [] (default [] (e_capturedFields metric)) re
                  (cJSON_Object (metric_head metric src)) (strSetCreate true true DEFAULT_SET_SIZE) in
                let '(json, added, al) := addCustomJsonFields al (default [] tags) json added in
                let '(json, added, al) := addJsonFields al (default [] (e_fields metric)) re json added in
                (Some json, al)).
  { unfold fmtMetricJson, metric_head. destruct (src =? CFG_SRC_METRIC); [|reflexivity].
    destruct (e_value metric); reflexivity. }
  destruct (set_create_holds DEFAULT_SET_SIZE) as (st & -> & Hh); [done|].
  destruct (addJsonFields_spec (default [] (e_capturedFields metric)) re (metric_head metric src) st [] Hh)
    as (st1 & -> & Hh1); [simpl; lia|].
  pose proof (dedup_onto_length [] (map fst (field_entries re (default [] (e_capturedFields metric))))) as Hb1.
  pose proof (field_entries_length re (default [] (e_capturedFields metric))) as Hb2. simpl in Hb1.
  edestruct (addCustomJsonFields_spec (default [] tags)) as (st2 & -> & Hh2); [exact Hh1|lia|].
  pose proof (dedup_onto_length (dedup_onto [] (map fst (field_entries re (default [] (e_capturedFields metric)))))
                (map fst (tag_entries (default [] tags)))) as Hb3.
  unfold tag_entries in Hb3 at 2. rewrite !length_map in Hb3.
  edestruct (addJsonFields_spec (default [] (e_fields metric)) re) as (st3 & -> & Hh3); [exact Hh2|lia|].
  unfold metric_object, entries. rewrite !first_named_app. unfold members. rewrite !omap_app, !app_assoc. done.
Qed.

(** ** What an event's object contains *)

Definition event_object (t : double) (source : string) (p : proc_id_t) (src : Z) (tags : list custom_tag_t) (d : cJSON)
  : option cJSON :=
  match valToStr watchTypeMap src, cmd p with
  | Some st, Some c =>
      Some (cJSON_Object
        ([(bytes_of "sourcetype", str_json st); (bytes_of "_time", cJSON_CreateNumber t); (bytes_of "source", str_json source);
          (bytes_of "host", str_json (hostname p)); (bytes_of "proc", str_json (procname p)); (bytes_of "cmd", str_json c);
          (bytes_of "pid", cJSON_CreateNumber (of_int (proc_pid p)))] ++
         members (tag_entries tags) ++ [(bytes_of "data", d)]))
  | _, _ => None
  end.

Lemma fmtEventJson_exact efmt t source p uid d src :
  fmtEventJson [] efmt (mkEventFormat t (Some source) (Some p) uid d src)
  = (event_object t source p src (default [] (efmt ≫= etags)) d, []).
Proof.
  unfold fmtEventJson, event_object. cbn [ev_proc sourcetype timestamp ev_src ev_data].
  destruct (valToStr watchTypeMap src) as [st|]; [|done].
  destruct (cmd p) as [c|]; [|done]. cbn -[addCustomJsonFields bytes_of].
  destruct efmt as [e|]; [|done]. by rewrite add_tags_all.
Qed.

Definition notice_object (t : double) (p : proc_id_t) (src max : Z) : option cJSON :=
  event_object t "notice" p src []
    (str_json ("Truncated metrics. Your rate exceeded " +:+ pretty max +:+ " metrics per second")%string).

Lemma rateLimitMessage_exact t p src max :
  rateLimitMessage [] t p src max = (notice_object t p src max, []).
Proof. unfold rateLimitMessage. rewrite allocs_ok. by rewrite fmtEventJson_exact. Qed.

(** A call of the formatter: when, what and from where. *)
Record call := mkCall {
  c_time : double;
  c_metric : event_t;
  c_data : option cJSON;
  c_uid : Z;
  c_src : Z;
}.

Definition selected (e : evt_fmt_t) (c : call) : bool :=
  negb (evtFormatSourceEnabled (Some e) (c_src c) =? 0) &&
  match evtFormatNameFilter (Some e) (c_src c) with Some re => re (e_name (c_metric c)) | None => false end.

(** The event that passes the limiter. *)
Definition formatted (e : evt_fmt_t) (p : proc_id_t) (c : call) : option cJSON :=
  if anyValueFieldMatches (evtFormatValueFilter (Some e) (c_src c)) (c_metric c) then
    event_object (c_time c) (e_name (c_metric c)) p (c_src c) (default [] (etags e))
      (default (metric_object (c_metric c) (evtFormatFieldFilter (Some e) (c_src c)) (c_src c) None) (c_data c))
  else None.

Lemma evtFormatHelper_exact e p sec c :
  entry_count (c_metric c) None < 2 ^ 30 ->
  evtFormatHelper [] (sec, c_time c) (Some e) (c_metric c) (c_data c) (c_uid c) (Some p) (c_src c) =
  if selected e c then
    let '(notice, e') := limiter e sec in
    if notice then
      let json := notice_object (c_time c) p (c_src c) (u32 (maxEvtPerSec e)) in
      (json, Some (set_limiter e' (rl_time e') (evtCount e') (bool_decide (is_Some json))), [])
    else (formatted e p c, Some e', [])
  else (None, Some e, []).
Proof.
  intros Hl. unfold evtFormatHelper. fold (selected e c). destruct (selected e c); [|done]. cbn [negb fst snd].
  assert (Hlim : let e' := snd (limiter e sec) in value_re e' = value_re e /\ field_re e' = field_re e /\
            etags e' = etags e /\ maxEvtPerSec e' = maxEvtPerSec e).
  { unfold limiter. destruct (maxEvtPerSec e =? 0); [done|]. by destruct (sec =? rl_time e). }
  destruct (limiter e sec) as [notice e'] eqn:E. cbn in Hlim. destruct Hlim as (Hv & Hf & Ht & Hm).
  destruct notice; [rewrite Hm, rateLimitMessage_exact; done|].
  assert (Hv' : evtFormatValueFilter (Some e') (c_src c) = evtFormatValueFilter (Some e) (c_src c)).
  { unfold evtFormatValueFilter, filter_of. cbn. by rewrite Hv. }
  assert (Hf' : evtFormatFieldFilter (Some e') (c_src c) = evtFormatFieldFilter (Some e) (c_src c)).
  { unfold evtFormatFieldFilter, filter_of. cbn. by rewrite Hf. }
  rewrite Hv', Hf'. unfold formatted. destruct (anyValueFieldMatches _ _); [|done]. cbn [negb].
  destruct (c_data c) as [d|]; cbn [default].
  - rewrite fmtEventJson_exact. cbn. by rewrite Ht.
  - rewrite fmtMetricJson_exact by done. rewrite fmtEventJson_exact. cbn. by rewrite Ht.
Qed.

(** ** A second of events *)

Fixpoint run_events (sec : Z) (p : proc_id_t) (cs : list call) (e : option evt_fmt_t) : list (option cJSON) * option evt_fmt_t :=
  match cs with
  | [] => ([], e)
  | c :: cs =>
      let '(json, e, _) := evtFormatHelper [] (sec, c_time c) e (c_metric c) (c_data c) (c_uid c) (Some p) (c_src c) in
      let '(js, e) := run_events sec p cs e in (json :: js, e)
  end.


Lemma selected_src e c : selected e c = true -> is_Some (valToStr watchTypeMap (c_src c)).
Proof.
  unfold selected, evtFormatNameFilter, filter_of, Cfg.src_ok, CFG_SRC_MAX.
  intros [_ Hs]%andb_true_iff. destruct ((0 <=? c_src c) && (c_src c <? 9)) eqn:E; [|done]. clear Hs.
  assert (Hc : c_src c ∈ seqZ 0 9) by (apply elem_of_seqZ; lia). revert Hc. generalize (c_src c). clear.
  intros z Hz. assert (Hall : Forall (fun z => is_Some (valToStr watchTypeMap z)) (seqZ 0 9)).
  { repeat constructor; eexists; reflexivity. }
  by apply (proj1 (Forall_forall _ _) Hall).
Qed.

Lemma notice_sent e c t p max : selected e c = true -> is_Some (cmd p) -> is_Some (notice_object t p (c_src c) max).
Proof.
  intros [st Hst]%selected_src [x Hx]. unfold notice_object, event_object. rewrite Hst, Hx. by eexists.
Qed.

(** The answer to the event that comes [i]-th in its second, from 0. *)
Definition answer (e : evt_fmt_t) (p : proc_id_t) (i : Z) (c : call) : option cJSON :=
  if i =? maxEvtPerSec e then notice_object (c_time c) p (c_src c) (maxEvtPerSec e) else formatted e p c.

(** The calls the theorem is about: of an enabled source whose name matches. *)
Definition wanted (e : evt_fmt_t) (c : call) : Prop :=
  selected e c = true /\ entry_count (c_metric c) None < 2 ^ 30.

Lemma run_in_second e p sec cs k :
  is_Some (cmd p) -> 0 < maxEvtPerSec e < 2 ^ 32 -> Forall (wanted e) cs -> 0 <= k -> k + Z.of_nat (length cs) < 2 ^ 64 ->
  fst (run_events sec p cs (Some (set_limiter e sec k (maxEvtPerSec e <=? k))))
  = imap (fun i c => answer e p (k + 1 + Z.of_nat i) c) cs.
Proof.
  intros Hc Hm. revert k. induction cs as [|c cs IH]; intros k Hw Hk Hl; [done|].
  apply Forall_cons in Hw as [[Hs Hn] Hw]. cbn [run_events length imap] in *.
  set (e1 := set_limiter e sec k (maxEvtPerSec e <=? k)). rewrite evtFormatHelper_exact by done.
  change (selected e1 c) with (selected e c). rewrite Hs.
  unfold limiter. change (maxEvtPerSec e1) with (maxEvtPerSec e). change (rl_time e1) with sec.
  change (notified e1) with (maxEvtPerSec e <=? k). change (evtCount e1) with k.
  destruct (Z.eqb_spec (maxEvtPerSec e) 0); [lia|]. rewrite Z.eqb_refl. cbn [negb].
  rewrite (u64_small (k + 1)) by lia.
  replace (imap _ cs) with (imap (fun i x => answer e p (k + 1 + 1 + Z.of_nat i) x) cs)
    by (apply imap_ext; intros; cbn; f_equal; lia).
  rewrite <- (IH (k + 1)) by (done || lia). unfold answer. rewrite Z.add_0_r, (u32_small (maxEvtPerSec e)) by lia.
  assert (Hb : (maxEvtPerSec e <=? k + 1) && negb (maxEvtPerSec e <=? k) = (k + 1 =? maxEvtPerSec e)) by lia.
  rewrite Hb. destruct (Z.eqb_spec (k + 1) (maxEvtPerSec e)) as [E|E].
  - rewrite bool_decide_eq_true_2 by (eapply notice_sent; done).
    replace (set_limiter _ _ _ true) with (set_limiter e sec (k + 1) (maxEvtPerSec e <=? k + 1))
      by (unfold set_limiter; cbn; f_equal; lia).
    by destruct (run_events sec p cs _) as [js e'].
  - replace (set_limiter e1 _ _ _) with (set_limiter e sec (k + 1) (maxEvtPerSec e <=? k + 1))
      by (unfold set_limiter; cbn; f_equal; lia).
    change (formatted e1 p c) with (formatted e p c). by destruct (run_events sec p cs _) as [js e'].
Qed.

(** The entries kept are those that come first under their name. *)
Lemma first_named_first seen l n v :
  ((n, v) ∈ first_named seen l) <->
  (n ∉ seen) /\ exists i, l !! i = Some (n, v) /\ forall j x, (j < i)%nat -> l !! j = Some x -> fst x <> n.
Proof.
  clear regcomp num_of.
  revert seen. induction l as [|[m w] l IH]; intros seen; cbn [first_named].
  { split; [set_solver|]. by intros (_ & i & Hi & _). }
  assert (Hshift : forall (P : Prop), (n = m -> P -> False) -> (P /\ exists i, l !! i = Some (n, v) /\
      forall j x, (j < i)%nat -> l !! j = Some x -> fst x <> n) ->
      P /\ exists i, ((m, w) :: l) !! i = Some (n, v) /\ forall j x, (j < i)%nat -> ((m, w) :: l) !! j = Some x -> fst x <> n).
  { intros P Hne (HP & i & Hi & Hb). split; [done|]. exists (S i). split; [done|].
    intros [|j] x Hj; cbn; [intros [= <-]; cbn; naive_solver|apply Hb; lia]. }
  case_decide as Hin.
  - rewrite IH. split; [apply Hshift; intros ->; tauto|].
    intros (Hn & [|i] & Hi & Hb); [cbn in Hi; simplify_eq; done|].
    split; [done|]. exists i. split; [done|]. intros j x Hj Hx. by apply (Hb (S j) x); [lia|].
  - rewrite elem_of_cons, IH. split.
    + intros [[= -> ->]|(Hn & i & Hi & Hb)]; [split; [done|exists 0%nat; split; [done|intros; lia]]|].
      assert (n <> m) by set_solver.
      apply Hshift; [done|]. split; [set_solver|eauto].
    + intros (Hn & [|i] & Hi & Hb); [left; cbn in Hi; by simplify_eq|right].
      assert (m <> n) by (apply (Hb 0%nat (m, w)); [lia|done]).
      split; [set_solver|]. exists i. split; [done|]. intros j x Hj Hx. by apply (Hb (S j) x); [lia|].
Qed.

(** ** Claims *)

(** C22: the object of a metric holds its description (for the metric source),
    then the values of its captured fields, the custom tags and its remaining
    fields, in that order, those only that the field filter and their usage
    admit; of the entries with one name exactly the first is kept, so a captured
    field has precedence over a tag and a tag over a field. *)
Theorem metric_json_reference (metric : event_t) (re : option regex) (src : Z) (tags : option (list custom_tag_t)) :
  entry_count metric tags < 2 ^ 30 ->
  let es := entries metric re tags in
  fmtMetricJson [] metric re src tags
    = (Some (cJSON_Object (metric_head metric src ++ members (first_named [] es))), []) /\
  NoDup (map fst (first_named [] es)) /\
  (forall n v, ((n, v) ∈ first_named [] es) <->
     exists i, es !! i = Some (n, v) /\ forall j x, (j < i)%nat -> es !! j = Some x -> fst x <> n).
Proof.
  intros Hl es. split; [by apply fmtMetricJson_exact|]. split; [apply first_named_fresh|].
  intros n v. rewrite first_named_first. clear regcomp. set_solver.
Qed.

(** Of the selected events that one second brings to a formatter with a limit
    of [maxEvtPerSec] > 0, exactly the one with that index (from 0) is replaced
    by the notice; every other one, before it and after it, is formatted: the
    values that match, described by the process and the custom tags. *)
Theorem rate_limit_one_notice (e : evt_fmt_t) (p : proc_id_t) (sec : Z) (cs : list call) :
  is_Some (cmd p) -> 0 < maxEvtPerSec e < 2 ^ 32 -> rl_time e <> sec ->
  Forall (wanted e) cs -> Z.of_nat (length cs) < 2 ^ 64 ->
  fst (run_events sec p cs (Some e)) = imap (fun i c => answer e p (Z.of_nat i) c) cs.
Proof.
  intros Hc Hm Ht Hw Hl. destruct cs as [|c cs]; [done|]. apply Forall_cons in Hw as [[Hs Hn] Hw].
  cbn [run_events imap length] in *. rewrite evtFormatHelper_exact, Hs by done.
  unfold limiter. destruct (Z.eqb_spec (maxEvtPerSec e) 0); [lia|].
  destruct (Z.eqb_spec sec (rl_time e)); [congruence|]. cbn [negb].
  replace (set_limiter e sec 0 false) with (set_limiter e sec 0 (maxEvtPerSec e <=? 0)) by (f_equal; lia).
  pose proof (run_in_second e p sec cs 0 Hc Hm Hw ltac:(lia) ltac:(lia)) as Hrun.
  destruct (run_events sec p cs _) as [js e']. cbn [fst] in *. f_equal.
  - unfold answer. change (Z.of_nat 0) with 0. by destruct (Z.eqb_spec 0 (maxEvtPerSec e)); [lia|].
  - rewrite Hrun. apply imap_ext. intros i x _. cbn. f_equal. lia.
Qed.

End Json.
End Filters.

(** ** Witnesses *)

#[local] Existing Instance integral.

(** Floating values do not occur in the samples. *)
Definition no_float (d : Types.double) : @double integral := 0.

Lemma metric_json_reference_witness :
  fst (fmtMetricJson no_float
         [] (mkEvent "net.port" (FMT_INT 3) CURRENT
            (Some [STRFIELD "host" (Some "h"%string) 1 true; STRFIELD "proto" (Some "TCP"%string) 1 true;
                   STRFIELD "fd" (Some "x"%string) 1 false]) CFG_SRC_METRIC
            (Some [NUMFIELD "host" 7 1 true]))
         None CFG_SRC_METRIC (Some [mkTag "proto" "mine"]))
  = Some (cJSON_Object
      [(bytes_of "_metric", str_json "net.port"); (bytes_of "_metric_type", str_json "gauge");
       (bytes_of "_value", cJSON_Number 3 3); (bytes_of "host", cJSON_Number 7 7); (bytes_of "proto", str_json "mine")]).
Proof.
  match goal with |- fst (fmtMetricJson _ _ ?m ?re ?src ?tags) = _ =>
    rewrite (proj1 (metric_json_reference no_float m re src tags eq_refl)) end.
  reflexivity.
Defined.

(** A library of one expression that every text matches. *)
Definition match_all (s : string) : option regex := Some (fun _ => true).

Definition sample_calls : list call :=
  map (fun t => mkCall t (mkEvent "a" (FMT_INT 1) DELTA None CFG_SRC_METRIC None) None 0 CFG_SRC_HTTP) [1; 2; 3; 4; 5].

(** Five events against a limit of two: the third becomes the notice. *)
Lemma rate_limit_one_notice_witness :
  exists e, evtFormatCreate match_all true = Some e /\
    let e := evtFormatSourceEnabledSet (evtFormatRateLimitSet e 2) CFG_SRC_HTTP 1 in
    let p := mkProc "h" "p" (Some "c"%string) 9 "" in
    let js := fst (run_events match_all no_float 100 p sample_calls (Some e)) in
    js !! 2%nat = Some (notice_object 3 p CFG_SRC_HTTP 2) /\
    js !! 4%nat = Some (formatted match_all no_float e p
      (mkCall 5 (mkEvent "a" (FMT_INT 1) DELTA None CFG_SRC_METRIC None) None 0 CFG_SRC_HTTP)).
Proof.
  eexists. split; [reflexivity|]. intros e p js. unfold js.
  rewrite (rate_limit_one_notice match_all no_float e p 100 sample_calls).
  - split; reflexivity.
  - by eexists.
  - vm_compute. split; reflexivity.
  - vm_compute. discriminate.
  - repeat constructor.
  - vm_compute. reflexivity.
Defined.

End EvtFormat.
