(* ===== verification/CtlMsg.v ===== *)
(** * Messages of the control channel (src/ctl.c, first part)

    LogStream sends requests as JSON text, one to a line; the library answers
    with responses and sends information and events in the same form.  Here are
    the parser of requests with the parameters of every command, and the
    construction of the three kinds of messages; the JSON library is [CJson]'s
    and [CJsonPrint]'s.

    Allocations take their outcomes from two lists: [pal] for those inside the
    JSON library's parser or printer, [al] for the others; they succeed when a
    list ends.  A failed allocation whose result the code uses unchecked is [UB],
    as is a conversion of a number that is out of its target's range.
    [cfgFromString] is that of src/cfgutils.c, over the YAML library.

    The theorems say which requests are understood, what the parser makes of
    every other text, and that the response can be read back. *)

From S2P Require Import Prelude Types Cfg CJson CJsonText CJsonPrint CJsonSafe EvtFormat.

Module CtlMsg.
Import CJson CJsonText CJsonPrint CJsonSafe EvtFormat.

#[local] Notation "'zlen' l" := (Z.of_nat (length l)) (at level 10, l at level 9).

Inductive cmd_t :=
| REQ_PARSE_ERR | REQ_MALFORMED | REQ_UNKNOWN | REQ_PARAM_ERR | REQ_SET_CFG | REQ_GET_CFG | REQ_GET_DIAG
| REQ_BLOCK_PORT | REQ_SWITCH | REQ_ADD_PROTOCOL | REQ_DEL_PROTOCOL.

Inductive switch_action_t := NO_ACTION | FUNC_DETACH | FUNC_ATTACH.

#[export] Instance cmd_t_eq_dec : EqDecision cmd_t.
Proof. solve_decision. Defined.
#[export] Instance switch_action_eq_dec : EqDecision switch_action_t.
Proof. solve_decision. Defined.

Definition cmd_map : list (string * cmd_t) :=
  [("SetCfg", REQ_SET_CFG); ("GetCfg", REQ_GET_CFG); ("GetDiag", REQ_GET_DIAG); ("BlockPort", REQ_BLOCK_PORT);
   ("Switch", REQ_SWITCH); ("AddProto", REQ_ADD_PROTOCOL); ("DelProto", REQ_DEL_PROTOCOL)]%string.

Definition switch_map : list (string * switch_action_t) := [("detach", FUNC_DETACH); ("attach", FUNC_ATTACH)]%string.

(** The fields of a [protocol_def_t] a request sets; the others are zero.  A
    string that could not be copied is NULL. *)
Record protocol_def_t := mkProto {
  protname : option (list Z);
  p_regex : option (list Z);
  binary : bool;
  p_len : Z;                 (* unsigned int *)
}.

(** A pointer to one. *)
Inductive proto_ptr := NoProto | Proto (p : protocol_def_t) | Freed.

Record request_t := mkReq {
  cmd : cmd_t;
  cmd_str : option (list Z);
  id : Z;                    (* long long *)
  req_cfg : option Cfg.config_t;
  port : Z;                  (* unsigned short *)
  action : switch_action_t;
  protocol : proto_ptr;
}.

Definition new_request : request_t := mkReq REQ_PARSE_ERR None 0 None 0 NO_ACTION NoProto.
Definition set_cmd (r : request_t) (c : cmd_t) : request_t :=
  mkReq c (cmd_str r) (id r) (req_cfg r) (port r) (action r) (protocol r).
Definition set_cmd_str (r : request_t) (s : option (list Z)) : request_t :=
  mkReq (cmd r) s (id r) (req_cfg r) (port r) (action r) (protocol r).
Definition set_id (r : request_t) (n : Z) : request_t :=
  mkReq (cmd r) (cmd_str r) n (req_cfg r) (port r) (action r) (protocol r).
Definition set_cfg (r : request_t) (c : option Cfg.config_t) : request_t :=
  mkReq (cmd r) (cmd_str r) (id r) c (port r) (action r) (protocol r).
Definition set_port (r : request_t) (p : Z) : request_t :=
  mkReq (cmd r) (cmd_str r) (id r) (req_cfg r) p (action r) (protocol r).
Definition set_action (r : request_t) (a : switch_action_t) : request_t :=
  mkReq (cmd r) (cmd_str r) (id r) (req_cfg r) (port r) a (protocol r).
Definition set_protocol (r : request_t) (p : proto_ptr) : request_t :=
  mkReq (cmd r) (cmd_str r) (id r) (req_cfg r) (port r) (action r) p.

Definition DEFAULT_PORTBLOCK : Z := 0.
Definition USHRT_MAX : Z := 65535.

Inductive upload_type_t := UPLD_INFO | UPLD_RESP | UPLD_EVT | UPLD_OTHER.

Section Messages.
Context `{Double}.
Variable cfgFromString : list Z -> option Cfg.config_t.
(** The contents of new memory. *)
Variable fill : nat -> Z.

(** ** Requests *)

(** [strdup] of a C string. *)
Definition dup (al : list bool) (s : list Z) : option (list Z) * list bool :=
  let '(ok, al) := alloc al in (if ok then Some (cstr s) else None, al).

(** [strcmp(s, t) == 0] *)
Definition same_str (s : list Z) (t : string) : bool := bool_decide (cstr s = bytes_of t).

Definition dlt (a b : double) : bool := dle a b && negb (deq a b).

(** A conversion to an integer type that holds [lo..hi]. *)
Definition to_integer (lo hi : Z) (d : double) : ub Z :=
  if finite d && (lo <=? trunc d) && (trunc d <=? hi) then Def (trunc d) else UB.

Definition cJSON_GetStringValue (item : cJSON) : option (list Z) :=
  match item with cJSON_String s => Some s | _ => None end.

Definition item (j : cJSON) (name : string) : option cJSON := cJSON_GetObjectItem j (bytes_of name).
Definition item_string (j : cJSON) (name : string) : option (list Z) := item j name ≫= cJSON_GetStringValue.

Definition grab_supplemental_for_block_port (json_root : cJSON) (req : request_t) : ub request_t :=
  match item json_root "body" with
  | Some (cJSON_Number d _) =>
      if dlt d (of_int 0) || dlt (of_int USHRT_MAX) d then Def (set_port req DEFAULT_PORTBLOCK)
      else n ← to_integer 0 USHRT_MAX d; Def (set_port req n)
  | _ => Def (set_port req DEFAULT_PORTBLOCK)
  end.

Definition grab_supplemental_for_set_cfg (pal : list bool) (json_root : cJSON) (req : request_t) : ub request_t :=
  match item json_root "body" with
  | Some (cJSON_Object child) =>
      string ← cJSON_PrintUnformatted fill (cJSON_Object child) pal;
      match string with
      | None => Def (set_cmd req REQ_PARAM_ERR)
      | Some string =>
          let req := set_cfg req (cfgFromString (cstr string)) in
          Def (match req_cfg req with Some _ => req | None => set_cmd req REQ_PARAM_ERR end)
      end
  | _ => Def (set_cmd req REQ_PARAM_ERR)
  end.

Definition grab_supplemental_for_switch (json_root : cJSON) (req : request_t) : request_t :=
  match item_string json_root "body" with
  | None => set_cmd req REQ_PARAM_ERR
  | Some string =>
      let a := match List.find (fun m => same_str string (fst m)) switch_map with
               | Some m => snd m
               | None => NO_ACTION
               end in
      let req := set_action req a in
      if decide (a = NO_ACTION) then set_cmd req REQ_PARAM_ERR else req
  end.

(** The object that the definition of a protocol is read from. *)
Definition body_object (json_root : cJSON) : option cJSON :=
  b ← item json_root "body"; if cJSON_IsObject b then Some b else None.

(** [strncmp("false", str, strlen(str)) == 0] *)
Definition names_false (str : list Z) : bool := bool_decide (cstr str `prefix_of` bytes_of "false").

(** The error exit, with the allocated definition. *)
Definition proto_err (req : request_t) : request_t := set_cmd (set_protocol req Freed) REQ_PARAM_ERR.

Definition grab_supplemental_for_def_protocol (al : list bool) (json_root : cJSON) (req : request_t) : request_t :=
  match body_object json_root with
  | None => set_cmd req REQ_PARAM_ERR
  | Some body =>
      let '(ok, al) := alloc al in
      if negb ok then set_cmd req REQ_PARAM_ERR else
      match item_string body "binary" with
      | None => proto_err req
      | Some str =>
          let bin := negb (names_false str) in
          let len := match item body "len" with Some (cJSON_Number _ valueint) => u32 valueint | _ => 0 end in
          match item_string body "regex" with
          | None => proto_err req
          | Some str =>
              let '(regex, al) := dup al str in
              match item_string body "pname" with
              | None => proto_err req
              | Some str => let '(protname, _) := dup al str in set_protocol req (Proto (mkProto protname regex bin len))
              end
          end
      end
  end.

Definition grab_supplemental_for_del_protocol (al : list bool) (json_root : cJSON) (req : request_t) : request_t :=
  match body_object json_root with
  | None => set_cmd req REQ_PARAM_ERR
  | Some body =>
      let '(ok, al) := alloc al in
      if negb ok then set_cmd req REQ_PARAM_ERR else
      match item_string body "pname" with
      | None => proto_err req
      | Some str => let '(protname, _) := dup al str in set_protocol req (Proto (mkProto protname None false 0))
      end
  end.

(** Phase 4. *)
Definition grab_supplemental (al pal : list bool) (json_root : cJSON) (req : request_t) : ub request_t :=
  match cmd req with
  | REQ_SET_CFG => grab_supplemental_for_set_cfg pal json_root req
  | REQ_BLOCK_PORT => grab_supplemental_for_block_port json_root req
  | REQ_SWITCH => Def (grab_supplemental_for_switch json_root req)
  | REQ_ADD_PROTOCOL => Def (grab_supplemental_for_def_protocol al json_root req)
  | REQ_DEL_PROTOCOL => Def (grab_supplemental_for_del_protocol al json_root req)
  | _ => Def req
  end.

(** Phases 2 to 4, on the object. *)
Definition interpret (al pal : list bool) (json_root : cJSON) (req : request_t) : ub request_t :=
  let req := set_cmd req REQ_MALFORMED in
  match item json_root "reqId" with
  | Some (cJSON_Number d _) =>
      n ← to_integer (- 2 ^ 63) (2 ^ 63 - 1) d;
      let req := set_id req n in
      match item_string json_root "req" with
      | None => Def req
      | Some str =>
          let '(copy, al) := dup al str in
          let req := set_cmd_str req copy in
          match item_string json_root "type" with
          | None => Def req
          | Some str =>
              if negb (same_str str "req") then Def req else
              match cmd_str req with
              | None => UB                       (* strcmp of NULL *)
              | Some name =>
                  match List.find (fun m => same_str name (fst m)) cmd_map with
                  | None => Def (set_cmd req REQ_UNKNOWN)
                  | Some m => grab_supplemental al pal json_root (set_cmd req (snd m))
                  end
              end
          end
      end
  | _ => Def req
  end.

Definition ctlParseRxMsg (al pal pal2 : list bool) (msg : option (list Z)) : ub (option request_t) :=
  let '(ok, al) := alloc al in
  if negb ok then Def None else
  let req := new_request in
  match msg with
  | None => Def (Some req)
  | Some msg =>
      json_root ← cJSON_Parse pal msg;
      match json_root with
      | Some (cJSON_Object child) => req ← interpret al pal2 (cJSON_Object child) req; Def (Some req)
      | _ => Def (Some req)
      end
  end.

Definition destroyReq (request : option request_t) : option request_t := None.

(** ** Messages *)

Record upload_t := mkUpload {
  u_type : upload_type_t;
  u_body : option cJSON;
  u_req : option request_t;
  u_uid : Z;
  u_proc : option proc_id_t;
}.

Definition add_str (name s : string) (al : list bool) (o : cJSON) := cJSON_AddStringToObjLN al o name (Some s).
Definition add_bytes (name : string) (s : list Z) (al : list bool) (o : cJSON) :=
  add_item 2 al o (bytes_of name) (cJSON_String (cstr s)).
Definition add_num (name : string) (n : Z) (al : list bool) (o : cJSON) := cJSON_AddNumberToObjLN al o (bytes_of name) (of_int n).
Definition add_body (r : option cJSON * list bool) (body : cJSON) : option cJSON * list bool :=
  then_add r (fun al o => (Some (cJSON_AddItemToObjectCS o (bytes_of "body") body), al)).

Definition create_info_json (al : list bool) (upld : upload_t) : option cJSON * list bool :=
  match u_body upld with
  | None => (None, al)
  | Some body => add_body (then_add (cJSON_CreateObject al) (add_str "type" "info")) body
  end.

Definition resp_message (c : cmd_t) : option string :=
  match c with
  | REQ_PARSE_ERR => Some "Request could not be parsed as a json object"
  | REQ_MALFORMED => Some "Type was not request, required fields were missing or of wrong type"
  | REQ_UNKNOWN => Some "Req field was not expected value"
  | REQ_PARAM_ERR => Some "Based on the req field, expected fields were missing"
  | _ => None
  end%string.

Definition resp_status (c : cmd_t) : Z :=
  match c with REQ_PARSE_ERR | REQ_MALFORMED | REQ_UNKNOWN | REQ_PARAM_ERR => 400 | _ => 200 end.

Definition create_resp_json (al : list bool) (upld : upload_t) : option cJSON * list bool :=
  match u_req upld with
  | None => (None, al)
  | Some req =>
      let r := then_add (cJSON_CreateObject al) (add_str "type" "resp") in
      let r := match u_body upld with Some body => add_body r body | None => r end in
      let r := match cmd_str req with Some s => then_add r (add_bytes "req" s) | None => r end in
      let r := then_add r (add_num "reqId" (id req)) in
      let r := then_add r (add_num "status" (resp_status (cmd req))) in
      match resp_message (cmd req) with
      | Some message => then_add r (add_str "message" message)
      | None => r
      end
  end.

Definition create_evt_json (al : list bool) (upld : upload_t) : option cJSON * list bool :=
  match u_body upld with
  | None => (None, al)
  | Some body =>
      let r := then_add (cJSON_CreateObject al) (add_str "type" "evt") in
      let r := match u_proc upld with Some p => then_add r (add_str "id" (proc_id p)) | None => r end in
      let r := if u_uid upld =? 0 then then_add r (add_str "_channel" "none")
               else then_add r (add_bytes "_channel" (decimal (u_uid upld))) in
      add_body r body
  end.

(** The text without its terminator. *)
Definition ctlCreateTxMsg (al pal : list bool) (upld : upload_t) : ub (option (list Z) * list bool) :=
  let '(json, al) := match u_type upld with
                     | UPLD_INFO => create_info_json al upld
                     | UPLD_RESP => create_resp_json al upld
                     | UPLD_EVT => create_evt_json al upld
                     | UPLD_OTHER => (None, al)
                     end in
  match json with
  | None => Def (None, al)
  | Some json => msg ← cJSON_PrintUnformatted fill json pal; Def (option_map cstr msg, al)
  end.

(** [msgAddNewLine], which [prepMessage] and [sendBufferedMessages] repeat. *)
Definition msgAddNewLine (al : list bool) (msg : list Z) : option (list Z) * list bool :=
  let '(ok, al) := alloc al in (if ok then Some (msg ++ [10]) else None, al).

Definition prepMessage (al pal : list bool) (upld : upload_t) : ub (option (list Z) * list bool) :=
  '(streamMsg, al) ← ctlCreateTxMsg al pal upld;
  match streamMsg with
  | None => Def (None, al)
  | Some streamMsg => Def (msgAddNewLine al streamMsg)
  end.


(** ** The requests that are understood *)

Inductive command :=
| SetCfg (c : Cfg.config_t)
| GetCfg
| GetDiag
| BlockPort (n : Z)
| Switch (a : switch_action_t)
| AddProto (p : protocol_def_t)
| DelProto (p : protocol_def_t).

Definition command_cmd (c : command) : cmd_t :=
  match c with
  | SetCfg _ => REQ_SET_CFG | GetCfg => REQ_GET_CFG | GetDiag => REQ_GET_DIAG | BlockPort _ => REQ_BLOCK_PORT
  | Switch _ => REQ_SWITCH | AddProto _ => REQ_ADD_PROTOCOL | DelProto _ => REQ_DEL_PROTOCOL
  end.
Definition command_name (c : command) : string :=
  match c with
  | SetCfg _ => "SetCfg" | GetCfg => "GetCfg" | GetDiag => "GetDiag" | BlockPort _ => "BlockPort"
  | Switch _ => "Switch" | AddProto _ => "AddProto" | DelProto _ => "DelProto"
  end.

(** What the parser returns for it. *)
Definition understood (n : Z) (c : command) : request_t :=
  mkReq (command_cmd c) (Some (bytes_of (command_name c))) n
    (match c with SetCfg cfg => Some cfg | _ => None end)
    (match c with BlockPort p => p | _ => 0 end)
    (match c with Switch a => a | _ => NO_ACTION end)
    (match c with AddProto p | DelProto p => Proto p | _ => NoProto end).

(** A number for a port. *)
Definition port_number (b : option cJSON) (n : Z) : Prop :=
  exists d i, b = Some (cJSON_Number d i) /\ dlt d (of_int 0) = false /\ dlt (of_int USHRT_MAX) d = false /\
    to_integer 0 USHRT_MAX d = Def n.

(** The parameters of a command in the member "body". *)
Definition body_asks (j : cJSON) (c : command) : Prop :=
  match c with
  | SetCfg cfg => exists child, item j "body" = Some (cJSON_Object child) /\
      cfgFromString (render false 0 (cJSON_Object child)) = Some cfg
  | GetCfg | GetDiag => True
  | BlockPort n => port_number (item j "body") n \/ (n = 0 /\ forall d i, item j "body" = Some (cJSON_Number d i) ->
      dlt d (of_int 0) = true \/ dlt (of_int USHRT_MAX) d = true)
  | Switch a => exists s, item_string j "body" = Some s /\
      ((cstr s = bytes_of "detach" /\ a = FUNC_DETACH) \/ (cstr s = bytes_of "attach" /\ a = FUNC_ATTACH))
  | AddProto p => exists b bin re pn, body_object j = Some b /\ item_string b "binary" = Some bin /\
      item_string b "regex" = Some re /\ item_string b "pname" = Some pn /\
      p = mkProto (Some (cstr pn)) (Some (cstr re)) (negb (names_false bin))
            (match item b "len" with Some (cJSON_Number _ valueint) => u32 valueint | _ => 0 end)
  | DelProto p => exists b pn, body_object j = Some b /\ item_string b "pname" = Some pn /\
      p = mkProto (Some (cstr pn)) None false 0
  end.

(** The members every request has. *)
Definition well_formed (j : cJSON) (n : Z) (name : list Z) : Prop :=
  (exists d i, item j "reqId" = Some (cJSON_Number d i) /\ to_integer (- 2 ^ 63) (2 ^ 63 - 1) d = Def n) /\
  (exists s, item_string j "req" = Some s /\ cstr s = name) /\
  (exists s, item_string j "type" = Some s /\ cstr s = bytes_of "req").

Definition asks (j : cJSON) (n : Z) (c : command) : Prop :=
  well_formed j n (bytes_of (command_name c)) /\ body_asks j c.


Lemma same_str_iff s t : same_str s t = true <-> cstr s = bytes_of t.
Proof. apply bool_decide_eq_true. Qed.

(** The member's text is part of the object's. *)
Lemma member_shorter r fmt d ms k v : (k, v) ∈ ms -> (length (r v) <= length (render_members r fmt d ms))%nat.
Proof.
  induction ms as [|[k' v'] ms IH]; intros Hin; [by apply elem_of_nil in Hin|]. cbn [render_members].
  fold (render_members r fmt d). repeat rewrite ?length_app; cbn [length]; rewrite ?length_app.
  apply elem_of_cons in Hin as [[= <- <-]|Hin]; [lia|]. specialize (IH Hin). lia.
Qed.

(** Without formatting the depth does not matter. *)
Lemma render_flat v : byte_tree v -> forall d d', render false d v = render false d' v.
Proof.
  induction 1 as [| | |x i|s|s B|vs P IH|ms B P IH]; intros d d'; try done; cbn [render]; f_equal.
  - f_equal. clear P. induction vs as [|v vs IHv]; [done|]. cbn [render_items].
    fold (render_items (render false (S d)) false) (render_items (render false (S d')) false).
    rewrite (IH v ltac:(by left) (S d) (S d')), IHv by (intros; apply IH; by right). done.
  - cbn [app]. f_equal. clear B P. induction ms as [|[k v] ms IHm]; [done|]. cbn [render_members].
    fold (render_members (render false (S d)) false (S d)) (render_members (render false (S d')) false (S d')).
    rewrite (IH k v ltac:(by left) (S d) (S d')), IHm by (intros; eapply IH; by right). done.
Qed.

Lemma item_member j name b : item j name = Some b -> exists k, (k, b) ∈ child_of j.
Proof.
  unfold item, cJSON_GetObjectItem. intros (kv & E & ->)%fmap_Some.
  apply find_some in E as [E _]. exists (fst kv). apply list_elem_of_In. by destruct kv.
Qed.

(** Members of a printable object can be printed. *)
Definition small (j : cJSON) : Prop := byte_tree j /\ fits (zlen (render false 0 j)).

Lemma item_small j name b : small j -> item j name = Some b -> small b.
Proof.
  intros [Hb Hf] [k Hk]%item_member. destruct j as [| | | | | | |ms]; try by apply elem_of_nil in Hk. cbn [child_of] in Hk.
  assert (byte_tree b) by (inversion Hb; eauto). split; [done|]. rewrite (render_flat b ltac:(done) 0 1).
  pose proof (member_shorter (render false 1) false 1 ms k b Hk).
  unfold fits in *. cbn [render length] in Hf. rewrite !length_app in Hf. cbn [length] in Hf. lia.
Qed.

End Messages.

Section Claims.
Context `{DL : DoubleLaws}.
Variable cfgFromString : list Z -> option Cfg.config_t.
Variable fill : nat -> Z.

Abbreviation asks := (asks cfgFromString).
Abbreviation body_asks := (body_asks cfgFromString).
Abbreviation grab := (grab_supplemental cfgFromString fill [] []).
Abbreviation interpret := (interpret cfgFromString fill [] []).

(** The request after phase 3. *)
Definition named (n : Z) (name : list Z) (c : cmd_t) : request_t := mkReq c (Some name) n None 0 NO_ACTION NoProto.

Definition known (name : list Z) : Prop := exists m, In m cmd_map /\ name = bytes_of (fst m).

Lemma find_known name m : List.find (fun m => same_str name (fst m)) cmd_map = Some m -> cstr name = bytes_of (fst m) /\ In m cmd_map.
Proof. intros [Hin Hs]%find_some. by apply same_str_iff in Hs. Qed.

(** The first three phases. *)
Lemma interpret_phases j r : interpret j new_request = Def r ->
  (cmd r = REQ_MALFORMED /\ forall n name, ~ well_formed j n name) \/
  (exists name, well_formed j (id r) name /\ cmd r = REQ_UNKNOWN /\ ~ known name) \/
  (exists n name m, well_formed j n name /\ In m cmd_map /\ name = bytes_of (fst m) /\ grab j (named n name (snd m)) = Def r).
Proof.
  unfold CtlMsg.interpret. intros E.
  destruct (item j "reqId") as [b|] eqn:Eid.
  2:{ injection E as <-. left. split; [done|]. intros n name ((d & i & ? & _) & _). congruence. }
  destruct b as [| | |d i| | | |]; try (injection E as <-; left; split; [done|];
    intros n name ((d & i & ? & _) & _); congruence).
  destruct (to_integer (- 2 ^ 63) (2 ^ 63 - 1) d) as [n|] eqn:En; [|done]. cbn [mbind ub_bind] in E.
  destruct (item_string j "req") as [s|] eqn:Er; cbn [dup alloc] in E.
  2:{ injection E as <-. left. split; [done|]. intros n' name (_ & (s & ? & _) & _). congruence. }
  destruct (item_string j "type") as [t|] eqn:Et.
  2:{ injection E as <-. left. split; [done|]. intros n' name (_ & _ & (t & ? & _)). congruence. }
  destruct (same_str t "req") eqn:Es; cbn [negb] in E.
  2:{ injection E as <-. left. split; [done|]. intros n' name (_ & _ & (t' & ? & Hc)). simplify_eq.
      apply same_str_iff in Hc. congruence. }
  apply same_str_iff in Es. cbn [cmd_str set_cmd_str] in E.
  assert (W : well_formed j n (cstr s)) by (split; [eauto|split; eauto]).
  destruct (List.find _ cmd_map) as [m|] eqn:Ef.
  - right; right. apply find_known in Ef as [Ef Hin]. rewrite cstr_idem in Ef.
    exists n, (cstr s), m. split; [done|]. split; [done|]. split; [done|]. exact E.
  - injection E as <-. right; left. exists (cstr s). split; [done|]. split; [done|].
    intros (m & Hm & Hc). pose proof (find_none _ _ Ef m Hm) as Hn. cbn beta in Hn. rewrite <- not_true_iff_false, same_str_iff, cstr_idem in Hn. done.
Qed.

Lemma well_formed_unique j n name n' name' : well_formed j n name -> well_formed j n' name' -> n = n' /\ name = name'.
Proof.
  intros ((d & i & E1 & E2) & (s & E3 & <-) & _) ((d' & i' & F1 & F2) & (s' & F3 & <-) & _).
  rewrite E1 in F1. injection F1 as <- <-. rewrite E2 in F2. injection F2 as <-. by simplify_eq.
Qed.


Lemma print_small j : small j -> cJSON_PrintUnformatted fill j [] = Def (Some (render false 0 j ++ [0])).
Proof. intros [Hb Hf]. by apply print_render. Qed.

Lemma cstr_terminated s rest : Forall (fun c => c <> 0) s -> cstr (s ++ 0 :: rest) = s.
Proof. induction 1 as [|c s Hc F IH]; [done|]. cbn [app cstr]. destruct (Z.eqb_spec c 0); [done|]. by rewrite IH. Qed.

(** What phase 4 can make of a command: it is understood, or its parameters are
    refused. *)
Definition settled (j : cJSON) (n : Z) (cname : string) (r : request_t) : Prop :=
  (exists c, command_name c = cname /\ body_asks j c /\ r = understood n c) \/
  (cmd r = REQ_PARAM_ERR /\ id r = n /\ forall c, command_name c = cname -> ~ body_asks j c).

Lemma set_cfg_settled j n r : small j ->
  grab j (named n (bytes_of "SetCfg") REQ_SET_CFG) = Def r -> settled j n "SetCfg" r.
Proof.
  intros Hs. cbn [grab_supplemental cmd named]. unfold grab_supplemental_for_set_cfg.
  assert (R : forall r, (forall child, item j "body" <> Some (cJSON_Object child)) -> cmd r = REQ_PARAM_ERR -> id r = n ->
    settled j n "SetCfg" r).
  { intros r' Hno Hc Hi. right. split; [done|]. split; [done|]. intros [c| | | | | |] Hn; try done.
    intros (child & Hb & _). by apply (Hno child). }
  destruct (item j "body") as [b|] eqn:E; [|intros [= <-]; by apply R].
  destruct b as [| | | | | | |child]; try (intros [= <-]; apply R; [intros ? ?; congruence|done|done]).
  pose proof (item_small j _ _ Hs E) as Hb. rewrite print_small by done. cbn [mbind ub_bind].
  rewrite cstr_terminated by (apply render_nz, Hb). intros Hr.
  assert (r = match cfgFromString (render false 0 (cJSON_Object child)) with
              | Some c => understood n (SetCfg c)
              | None => set_cmd (named n (bytes_of "SetCfg") REQ_SET_CFG) REQ_PARAM_ERR end) as ->.
  { injection Hr as <-. cbn [req_cfg set_cfg]. by destruct (cfgFromString _). }
  destruct (cfgFromString (render false 0 (cJSON_Object child))) as [c|] eqn:Ec.
  - left. exists (SetCfg c). split; [done|]. split; [|done]. by exists child.
  - right. split; [done|]. split; [done|]. intros [c| | | | | |] Hn; try done. intros (child' & Hb' & Hc). congruence.
Qed.

Lemma block_port_settled j n r :
  grab j (named n (bytes_of "BlockPort") REQ_BLOCK_PORT) = Def r -> settled j n "BlockPort" r.
Proof.
  cbn [grab_supplemental cmd named]. unfold grab_supplemental_for_block_port. intros E. left.
  destruct (item j "body") as [b|] eqn:Eb.
  2:{ injection E as <-. exists (BlockPort 0). split; [done|]. split; [|done]. right. split; [done|]. congruence. }
  destruct b as [| | |d i| | | |]; try (injection E as <-; exists (BlockPort 0); split; [done|]; split; [|done];
    right; split; [done|congruence]).
  destruct (dlt d (of_int 0) || dlt (of_int USHRT_MAX) d) eqn:Eo.
  - injection E as <-. exists (BlockPort 0). split; [done|]. split; [|done]. right. split; [done|].
    rewrite Eb. intros d' i' [= <- <-]. by apply orb_true_iff.
  - destruct (to_integer 0 USHRT_MAX d) as [p|] eqn:Ep; [|done]. injection E as <-. exists (BlockPort p).
    split; [done|]. split; [|done]. left. apply orb_false_iff in Eo as [E1 E2]. rewrite Eb. by exists d, i.
Qed.

Lemma switch_settled j n r :
  grab j (named n (bytes_of "Switch") REQ_SWITCH) = Def r -> settled j n "Switch" r.
Proof.
  cbn [grab_supplemental cmd named]. unfold grab_supplemental_for_switch. intros E.
  assert (R : forall r, (forall a, ~ body_asks j (Switch a)) -> cmd r = REQ_PARAM_ERR -> id r = n -> settled j n "Switch" r).
  { intros r' Hno Hc Hi. right. split; [done|]. split; [done|]. by intros [c| | | | | |]. }
  destruct (item_string j "body") as [s|] eqn:Es.
  2:{ injection E as <-. apply R; [|done|done]. intros a (s & ? & _). congruence. }
  cbn [List.find switch_map fst] in E.
  destruct (same_str s "detach") eqn:E1.
  { apply same_str_iff in E1. injection E as <-. left. exists (Switch FUNC_DETACH). split; [done|]. split; [|done]. exists s. tauto. }
  destruct (same_str s "attach") eqn:E2.
  { apply same_str_iff in E2. injection E as <-. left. exists (Switch FUNC_ATTACH). split; [done|]. split; [|done]. exists s. tauto. }
  injection E as <-. apply R; [|done|done]. rewrite <- not_true_iff_false, same_str_iff in E1, E2.
  intros a (s' & Hs & [[Hc _]|[Hc _]]); simplify_eq; done.
Qed.

Lemma add_proto_settled j n r :
  grab j (named n (bytes_of "AddProto") REQ_ADD_PROTOCOL) = Def r -> settled j n "AddProto" r.
Proof.
  cbn [grab_supplemental cmd named]. unfold grab_supplemental_for_def_protocol. intros E.
  assert (R : forall r, (forall p, ~ body_asks j (AddProto p)) -> cmd r = REQ_PARAM_ERR -> id r = n -> settled j n "AddProto" r).
  { intros r' Hno Hc Hi. right. split; [done|]. split; [done|]. by intros [c| | | | | |]. }
  destruct (body_object j) as [b|] eqn:Eb; cbn [alloc negb dup] in E.
  2:{ injection E as <-. apply R; [|done|done]. intros p (b & ? & ? & ? & ? & _). congruence. }
  destruct (item_string b "binary") as [bin|] eqn:E1.
  2:{ injection E as <-. apply R; [|done|done]. intros p (b' & ? & ? & ? & ? & ? & _). congruence. }
  destruct (item_string b "regex") as [re|] eqn:E2.
  2:{ injection E as <-. apply R; [|done|done]. intros p (b' & ? & ? & ? & ? & ? & ? & _). congruence. }
  destruct (item_string b "pname") as [pn|] eqn:E3.
  2:{ injection E as <-. apply R; [|done|done]. intros p (b' & ? & ? & ? & ? & ? & ? & ? & _). congruence. }
  injection E as <-. left. eexists (AddProto _). split; [done|]. split; [|reflexivity].
  exists b, bin, re, pn. done.
Qed.

Lemma del_proto_settled j n r :
  grab j (named n (bytes_of "DelProto") REQ_DEL_PROTOCOL) = Def r -> settled j n "DelProto" r.
Proof.
  cbn [grab_supplemental cmd named]. unfold grab_supplemental_for_del_protocol. intros E.
  assert (R : forall r, (forall p, ~ body_asks j (DelProto p)) -> cmd r = REQ_PARAM_ERR -> id r = n -> settled j n "DelProto" r).
  { intros r' Hno Hc Hi. right. split; [done|]. split; [done|]. by intros [c| | | | | |]. }
  destruct (body_object j) as [b|] eqn:Eb; cbn [alloc negb dup] in E.
  2:{ injection E as <-. apply R; [|done|done]. intros p (b & ? & ? & _). congruence. }
  destruct (item_string b "pname") as [pn|] eqn:E3.
  2:{ injection E as <-. apply R; [|done|done]. intros p (b' & ? & ? & ? & _). congruence. }
  injection E as <-. left. eexists (DelProto _). split; [done|]. split; [|reflexivity]. by exists b, pn.
Qed.

Lemma grab_settled j n m r : small j -> In m cmd_map ->
  grab j (named n (bytes_of (fst m)) (snd m)) = Def r -> settled j n (fst m) r.
Proof.
  intros Hs. cbn [In cmd_map].
  intros [<-|[<-|[<-|[<-|[<-|[<-|[<-|[]]]]]]]]; cbn [fst snd].
  - by apply set_cfg_settled.
  - intros [= <-]. left. by exists GetCfg.
  - intros [= <-]. left. by exists GetDiag.
  - apply block_port_settled.
  - apply switch_settled.
  - apply add_proto_settled.
  - apply del_proto_settled.
Qed.

Lemma grab_complete j n c : small j -> body_asks j c ->
  grab j (named n (bytes_of (command_name c)) (command_cmd c)) = Def (understood n c).
Proof.
  intros Hs. destruct c as [cfg| | |p|a|p|p]; cbn [CtlMsg.body_asks command_name command_cmd grab_supplemental cmd named].
  - intros (child & Hb & Hc). unfold grab_supplemental_for_set_cfg. rewrite Hb.
    pose proof (item_small j _ _ Hs Hb) as Hsb. rewrite print_small by done. cbn [mbind ub_bind].
    rewrite cstr_terminated by (apply render_nz, Hsb). rewrite Hc. done.
  - done.
  - done.
  - unfold grab_supplemental_for_block_port. intros [(d & i & -> & E1 & E2 & E3)|[-> Ho]].
    + rewrite E1, E2, E3. done.
    + destruct (item j "body") as [[| | |d i| | | |]|] eqn:Eb; try done.
      destruct (Ho d i eq_refl) as [->| ->]; [done|]. by rewrite orb_true_r.
  - intros (s & Hb & Ha). unfold grab_supplemental_for_switch. rewrite Hb. cbn [List.find switch_map fst]. unfold same_str.
    destruct Ha as [[-> ->]|[-> ->]]; reflexivity.
  - intros (b & bin & re & pn & E1 & E2 & E3 & E4 & ->). unfold grab_supplemental_for_def_protocol.
    rewrite E1. cbn [alloc negb dup]. rewrite E2, E3, E4. reflexivity.
  - intros (b & pn & E1 & E4 & ->). unfold grab_supplemental_for_del_protocol.
    rewrite E1. cbn [alloc negb dup]. rewrite E4. reflexivity.
Qed.

Lemma interpret_complete j n c : small j -> asks j n c -> interpret j new_request = Def (understood n c).
Proof.
  intros Hs [((d & i & E1 & E2) & (s & E3 & Hs') & (t & E4 & Ht)) Hb]. unfold CtlMsg.interpret.
  rewrite E1, E2. cbn [mbind ub_bind]. rewrite E3. cbn [dup alloc]. rewrite E4.
  unfold same_str. rewrite Ht. rewrite bool_decide_eq_true_2 by done. cbn [negb cmd_str set_cmd_str].
  rewrite Hs'. replace (List.find _ cmd_map) with (Some (command_name c, command_cmd c)) by (destruct c; reflexivity).
  exact (grab_complete j n c Hs Hb).
Qed.

(** What the parser's answer [r] says of the tree [o] of its input. *)
Definition outcome (o : option cJSON) (r : request_t) : Prop :=
  match cmd r with
  | REQ_PARSE_ERR => forall j, o = Some j -> cJSON_IsObject j = false
  | REQ_MALFORMED => exists j, o = Some j /\ forall n name, ~ well_formed j n name
  | REQ_UNKNOWN => exists j name, o = Some j /\ well_formed j (id r) name /\ ~ known name
  | REQ_PARAM_ERR => exists j name, o = Some j /\ well_formed j (id r) name /\ known name /\ forall n c, ~ asks j n c
  | _ => exists j c, o = Some j /\ asks j (id r) c /\ r = understood (id r) c
  end.

Lemma bytes_of_inj s t : bytes_of s = bytes_of t -> s = t.
Proof.
  revert t. induction s as [|a s IH]; intros [|b t]; cbn; try done. intros [= Ea El]. f_equal; [|by apply IH].
  rewrite <- (Ascii.ascii_nat_embedding a), <- (Ascii.ascii_nat_embedding b). f_equal. lia.
Qed.

Lemma understood_outcome j n c : asks j n c -> outcome (Some j) (understood n c).
Proof. intros A. unfold outcome. destruct c; cbn [cmd understood command_cmd id]; eauto. Qed.

Lemma interpret_outcome j r : small j -> interpret j new_request = Def r -> outcome (Some j) r.
Proof.
  intros Hs E. destruct (interpret_phases j r E) as [(Hc & Hn)|[(name & W & Hc & Hk)|(n & name & m & W & Hin & -> & G)]].
  - unfold outcome. rewrite Hc. eauto.
  - unfold outcome. rewrite Hc. eauto.
  - destruct (grab_settled j n m r Hs Hin G) as [(c & Hc & Hb & ->)|(Hc & Hi & Hno)].
    + apply understood_outcome. split; [by rewrite Hc|done].
    + unfold outcome. rewrite Hc. exists j, (bytes_of (fst m)). rewrite Hi. split; [done|]. split; [done|]. split.
      * by exists m.
      * intros n' c [W' Hb]. destruct (well_formed_unique _ _ _ _ _ W W') as [_ E']. apply bytes_of_inj in E'.
        by apply (Hno c).
Qed.

(** C21: for every text of bytes (of less than 85 MB) the request parser
    decides as the definition of a request says: a text that is not a JSON object
    is a parse error; an object without a numeric "reqId", a string "req" and the
    "type" "req" is malformed; a command outside the table is unknown; a command
    whose "body" does not have its parameters is a parameter error; and exactly
    the objects that ask for a command, with its parameters, are understood as
    that command. *)
Theorem request_exact (text : list Z) :
  is_bytes text -> 0 ∈ text -> 24 * zlen text + 5 <= INT_MAX ->
  exists o, cJSON_Parse [] text = Def o /\
    (forall r, ctlParseRxMsg cfgFromString fill [] [] [] (Some text) = Def (Some r) -> outcome o r) /\
    (forall j n c, o = Some j -> asks j n c ->
       ctlParseRxMsg cfgFromString fill [] [] [] (Some text) = Def (Some (understood n c))).
Proof.
  intros B T L. destruct (parse_returns text [] B T) as (o & E & Ho). exists o. split; [done|].
  assert (Hsm : forall j, o = Some j -> small j).
  { intros j ->. destruct (Ho j eq_refl) as [Hb Hl]. split; [done|]. specialize (Hl 0%nat). unfold fits. lia. }
  unfold ctlParseRxMsg. cbn [alloc negb]. rewrite E. cbn [mbind ub_bind]. split.
  - intros r Hr. destruct o as [j|]; [|injection Hr as <-; done].
    destruct j as [| | | | | | |child]; try (injection Hr as <-; intros ? [= <-]; done).
    destruct (interpret (cJSON_Object child) new_request) as [r'|] eqn:Er; [|done].
    injection Hr as <-. apply interpret_outcome; auto.
  - intros j n c -> A. destruct j as [| | | | | | |child]; try (by destruct A as [((d & i & ? & _) & _) _]).
    rewrite (interpret_complete _ n c) by auto. done.
Qed.

(** ** Responses *)

Lemma cstr_is_clean s : is_bytes s -> clean (cstr s).
Proof.
  induction 1 as [|c s Hc F IH]; cbn [cstr]; [constructor|]. destruct (Z.eqb_spec c 0); constructor; [|done].
  unfold is_byte in Hc. lia.
Qed.

Lemma grab_cmd_str j q r : grab j q = Def r -> cmd_str r = cmd_str q.
Proof.
  unfold grab_supplemental. destruct (cmd q); try (by intros [= <-]).
  - unfold grab_supplemental_for_set_cfg. destruct (item j "body") as [[]|]; try by intros [= <-].
    destruct (cJSON_PrintUnformatted _ _ _) as [[s|]|]; cbn [mbind ub_bind]; try by intros [= <-].
    cbn [req_cfg set_cfg]. destruct (cfgFromString _); by intros [= <-].
  - unfold grab_supplemental_for_block_port. destruct (item j "body") as [[]|]; try by intros [= <-].
    destruct (_ || _); [by intros [= <-]|]. destruct (to_integer _ _ _); [|done]. by intros [= <-].
  - unfold grab_supplemental_for_switch. destruct (item_string j "body") as [s|]; [|by intros [= <-]].
    case_decide; by intros [= <-].
  - unfold grab_supplemental_for_def_protocol. destruct (body_object j) as [b|]; cbn [alloc negb dup]; [|by intros [= <-]].
    destruct (item_string b "binary"), (item_string b "regex"), (item_string b "pname"); by intros [= <-].
  - unfold grab_supplemental_for_del_protocol. destruct (body_object j) as [b|]; cbn [alloc negb dup]; [|by intros [= <-]].
    destruct (item_string b "pname"); by intros [= <-].
Qed.

Lemma item_string_bytes j name s : byte_tree j -> item_string j name = Some s -> is_bytes s.
Proof.
  intros Hb (v & Hi & Hs)%bind_Some. apply item_member in Hi as [k Hk].
  destruct j as [| | | | | | |ms]; try by apply elem_of_nil in Hk. inversion Hb as [| | | | | | |ms' B P Em]; subst.
  specialize (P k v Hk). destruct v; try done. cbn in Hs. simplify_eq. by inversion P.
Qed.

Lemma interpret_cmd_str j r s : byte_tree j -> interpret j new_request = Def r -> cmd_str r = Some s -> clean s.
Proof.
  intros Hb. unfold CtlMsg.interpret. destruct (item j "reqId") as [[| | |d i| | | |]|]; try by intros [= <-].
  destruct (to_integer _ _ _) as [n|]; [|done]. cbn [mbind ub_bind].
  destruct (item_string j "req") as [t|] eqn:Et; [|by intros [= <-]]. cbn [dup alloc].
  assert (clean (cstr t)) as Hc by (eapply cstr_is_clean, item_string_bytes; done).
  destruct (item_string j "type") as [u|]; [|intros [= <-]; cbn; congruence].
  destruct (negb _); [intros [= <-]; cbn; congruence|]. cbn [cmd_str set_cmd_str].
  destruct (List.find _ _) as [m|]; [|intros [= <-]; cbn; congruence].
  intros ->%grab_cmd_str. cbn. congruence.
Qed.

Definition number_json (n : Z) : cJSON := cJSON_CreateNumber (of_int n).

(** The members of the response to [r]. *)
Definition response_members (r : request_t) (body : option cJSON) : list (list Z * cJSON) :=
  [(bytes_of "type", str_json "resp")] ++
  match body with Some b => [(bytes_of "body", b)] | None => [] end ++
  match cmd_str r with Some s => [(bytes_of "req", cJSON_String (cstr s))] | None => [] end ++
  [(bytes_of "reqId", number_json (id r)); (bytes_of "status", number_json (resp_status (cmd r)))] ++
  match resp_message (cmd r) with Some m => [(bytes_of "message", str_json m)] | None => [] end.

Lemma create_resp_exact r body uid p :
  create_resp_json [] (mkUpload UPLD_RESP body (Some r) uid p) = (Some (cJSON_Object (response_members r body)), []).
Proof.
  unfold create_resp_json, response_members, str_json. cbn [u_req u_body].
  destruct body as [b|], (cmd_str r) as [s|], (cmd r); reflexivity.
Qed.

Lemma bytes_clean s : Forall (fun c => c <> 0) (bytes_of s) -> clean (bytes_of s).
Proof.
  intros F. unfold clean. apply Forall_forall. intros c Hc.
  assert (c <> 0) by exact (proj1 (Forall_forall _ _) F c Hc).
  unfold bytes_of in Hc. apply list_elem_of_In, in_map_iff in Hc as (a & <- & _).
  pose proof (Ascii.nat_ascii_bounded a). lia.
Qed.

Lemma str_json_printable k s : Forall (fun c => c <> 0) (bytes_of s) -> printable k (str_json s).
Proof. intros F. unfold str_json. rewrite cstr_clean by by apply bytes_clean. apply pr_string. by apply bytes_clean. Qed.

Lemma number_printable k n : INT_MIN <= n <= INT_MAX -> printable k (number_json n).
Proof. intros Hn. apply pr_number. by apply int_finite. Qed.

Lemma response_printable k r body :
  INT_MIN <= id r <= INT_MAX -> (forall s, cmd_str r = Some s -> clean s) ->
  (forall b, body = Some b -> printable k b) -> printable (S k) (cJSON_Object (response_members r body)).
Proof.
  intros Hi Hs Hb.
  assert (F : Forall (fun m => clean (fst m) /\ printable k (snd m)) (response_members r body)).
  { assert (K : forall s v ms, Forall (fun c => c <> 0) (bytes_of s) -> printable k v ->
      Forall (fun m => clean (fst m) /\ printable k (snd m)) ms ->
      Forall (fun m => clean (fst m) /\ printable k (snd m)) ((bytes_of s, v) :: ms)).
    { intros s v ms Hf Hv Hm. constructor; [|done]. split; [by apply bytes_clean|done]. }
    unfold response_members. rewrite !Forall_app. split; [|split; [|split; [|split]]].
    - apply K; [by repeat constructor|apply str_json_printable; by repeat constructor|constructor].
    - destruct body as [b|]; [|constructor]. apply K; [by repeat constructor|auto|constructor].
    - destruct (cmd_str r) as [s|]; [|constructor]. apply K; [by repeat constructor| |constructor]. apply pr_string.
      rewrite cstr_clean; auto.
    - apply K; [by repeat constructor|by apply number_printable|].
      apply K; [by repeat constructor|apply number_printable|constructor].
      unfold resp_status, INT_MIN, INT_MAX. destruct (cmd r); lia.
    - destruct (cmd r); cbn [resp_message]; first [exact (List.Forall_nil _)|
        apply K; [by repeat constructor|apply str_json_printable; by repeat constructor|constructor]]. }
  apply pr_object; intros q v Hq; apply (proj1 (Forall_forall _ _) F _ Hq).
Qed.

Lemma outcome_status o r : outcome o r -> (resp_status (cmd r) = 200 <-> exists j n c, o = Some j /\ asks j n c).
Proof.
  unfold outcome. intros Ho. split.
  - intros Hs. destruct (cmd r); try done; destruct Ho as (j & c & -> & A & _); eauto.
  - intros (j & n & c & -> & A). destruct (cmd r); try done.
    + specialize (Ho j eq_refl). destruct j; try done; by destruct A as [((d & i & ? & _) & _) _].
    + destruct Ho as (j' & [= <-] & Hn). by destruct (Hn n _ (proj1 A)).
    + destruct Ho as (j' & name & [= <-] & W & Hk). destruct (well_formed_unique _ _ _ _ _ W (proj1 A)) as [_ ->].
      destruct Hk. exists (command_name c, command_cmd c). split; [destruct c; cbn; tauto|done].
    + destruct Ho as (j' & name & [= <-] & _ & _ & Hn). by destruct (Hn n c).
Qed.

(** The response to a request, whatever was made of its text, can be sent
    and read back: an object that repeats the name and the number of the request,
    holds the answer's body if there is one, and the status 200 exactly if the
    text asks for a command with its parameters, else 400 with the message for
    the kind of error. *)
Theorem response_read_back (text rest : list Z) (r : request_t) (body : option cJSON) (k : nat) :
  is_bytes text -> 0 ∈ text -> 24 * zlen text + 5 <= INT_MAX ->
  ctlParseRxMsg cfgFromString fill [] [] [] (Some text) = Def (Some r) ->
  INT_MIN <= id r <= INT_MAX -> (forall b, body = Some b -> printable k b) -> (k < 1000)%nat ->
  fits (zlen (render false 0 (cJSON_Object (response_members r body)))) ->
  exists msg o,
    ctlCreateTxMsg fill [] [] (mkUpload UPLD_RESP body (Some r) 0 None) = Def (Some msg, []) /\
    cJSON_Parse [] (msg ++ 0 :: rest) = Def (Some (cJSON_Object (response_members r body))) /\
    cJSON_Parse [] text = Def o /\
    (resp_status (cmd r) = 200 <-> exists j n c, o = Some j /\ asks j n c).
Proof.
  intros B T L E Hi Hb Hk Hf. destruct (parse_returns text [] B T) as (o & Ep & Ho).
  assert (Hsm : forall j, o = Some j -> small j).
  { intros j ->. destruct (Ho j eq_refl) as [Hbt Hl]. split; [done|]. specialize (Hl 0%nat). unfold fits. lia. }
  unfold ctlParseRxMsg in E. cbn [alloc negb] in E. rewrite Ep in E. cbn [mbind ub_bind] in E.
  assert (Hr : outcome o r /\ forall s, cmd_str r = Some s -> clean s).
  { destruct o as [j|]; [|injection E as <-; done].
    destruct j as [| | | | | | |child]; try (injection E as <-; split; [intros ? [= <-]; done|done]).
    destruct (interpret (cJSON_Object child) new_request) as [r'|] eqn:Er; [|done]. injection E as <-.
    split; [apply interpret_outcome; auto|]. intros s. apply (interpret_cmd_str (cJSON_Object child)); [|done].
    by apply Hsm. }
  destruct Hr as [Hout Hs]. pose proof (response_printable k r body Hi Hs Hb) as P.
  exists (render false 0 (cJSON_Object (response_members r body))), o.
  split; [|split; [|split; [done|by apply outcome_status]]].
  - unfold ctlCreateTxMsg. cbn [u_type]. rewrite create_resp_exact. cbn [mbind ub_bind].
    rewrite print_small by (split; [by eapply printable_byte_tree|done]). cbn [mbind ub_bind option_map].
    rewrite cstr_terminated by (eapply render_nz, printable_byte_tree, P). done.
  - apply (parse_plain (S k) _ _ []); [by apply render_text|lia|constructor].
Qed.

End Claims.

(** ** Witnesses *)

#[local] Existing Instance integral.
#[local] Existing Instance integral_laws.

(** {"type":"req","reqId":7,"req":"Switch","body":"detach"} *)
Definition sample_request : cJSON :=
  cJSON_Object [(bytes_of "type", str_json "req"); (bytes_of "reqId", number_json 7);
    (bytes_of "req", str_json "Switch"); (bytes_of "body", str_json "detach")].
Definition sample_text : list Z := render false 0 sample_request ++ [0].

Lemma sample_asks cfgs : asks cfgs sample_request 7 (Switch FUNC_DETACH).
Proof.
  split; [|by exists (bytes_of "detach"); split; [reflexivity|left]].
  split; [by exists 7, 7|]. split; [by exists (bytes_of "Switch")|by exists (bytes_of "req")].
Qed.

Lemma sample_bytes : is_bytes sample_text /\ 0 ∈ sample_text /\ 24 * zlen sample_text + 5 <= INT_MAX.
Proof.
  split; [|split; [apply elem_of_app; right; by left|vm_compute; discriminate]].
  unfold is_bytes. apply (bool_decide_unpack _). vm_compute. exact I.
Qed.

Lemma request_exact_witness :
  ctlParseRxMsg (fun _ => None) (fun _ => 0) [] [] [] (Some sample_text) = Def (Some (understood 7 (Switch FUNC_DETACH))).
Proof.
  destruct (request_exact (fun _ => None) (fun _ => 0) sample_text) as (o & E & _ & Hc); [apply sample_bytes..|].
  apply (Hc sample_request); [|apply sample_asks].
  assert (cJSON_Parse [] sample_text = Def (Some sample_request)) as E' by reflexivity. congruence.
Defined.

Lemma response_read_back_witness :
  exists msg o, ctlCreateTxMsg (fun _ => 0) [] [] (mkUpload UPLD_RESP (Some cJSON_True) (Some (understood 7 (Switch FUNC_DETACH))) 0 None)
      = Def (Some msg, []) /\
    cJSON_Parse [] (msg ++ [0]) = Def (Some (cJSON_Object (response_members (understood 7 (Switch FUNC_DETACH)) (Some cJSON_True)))) /\
    cJSON_Parse [] sample_text = Def o /\
    (resp_status REQ_SWITCH = 200 <-> exists j n c, o = Some j /\ asks (fun _ => None) j n c).
Proof.
  apply (response_read_back (fun _ => None) (fun _ => 0) sample_text [] (understood 7 (Switch FUNC_DETACH)) (Some cJSON_True) 1).
  1-3: apply sample_bytes.
  - reflexivity.
  - vm_compute. split; discriminate.
  - intros b [= <-]. apply pr_true.
  - lia.
  - vm_compute. discriminate.
Defined.

(** ** Limits of the code *)

(** Any prefix of "false", also the empty string, is read as FALSE. *)
Lemma binary_prefix_is_false :
  names_false [] = true /\ names_false (bytes_of "fal") = true /\ names_false (bytes_of "falsehood") = false.
Proof. split; [|split]; reflexivity. Qed.

(** When the name of the command cannot be copied, it is compared as NULL. *)
Lemma request_without_memory_undefined :
  ctlParseRxMsg (fun _ => None) (fun _ => 0) [true; false] [] [] (Some sample_text) = UB.
Proof. reflexivity. Qed.

End CtlMsg.
