(* ===== verification/Ctl.v ===== *)
(** * The control object (src/ctl.c, second part; src/com.c)

    [ctl_t] owns the transports of events and payloads, the event formatter, the
    queues between the application's threads and the reporting thread, and the
    buffers in which log and console data are aggregated per descriptor.

    The operations act on the object, on the memory that queued pointers point
    to, and, through the transports of [Transport], on the world of [Sys]; they
    are written in a state monad over that of [Sys].  Outcomes of allocations come
    from the list [al], those inside the JSON printer from [pals], the results of
    writes to memory streams from [fwrites]; all succeed when the lists end.
    A string that is queued is kept without its terminator.  The expression of an
    event's value filter is kept by value.  A NULL [ctl_t] is [None] for the
    accessors; the other operations return at once for it, which [on_ctl] does. *)

From S2P Require Import Prelude Types Cfg CircBuf CJson CJsonText CJsonPrint Sys Transport EvtFormat CtlMsg.

Module Ctl.
Import CJson CJsonText CJsonPrint EvtFormat CtlMsg.

#[local] Notation "'zlen' l" := (Z.of_nat (length l)) (at level 10, l at level 9).

Definition FS_ENTRIES : Z := 1024.
Definition DEFAULT_LOG_MAX_AGG_BYTES : Z := 32768.
Definition DEFAULT_LOG_FLUSH_PERIOD_IN_MS : Z := 2000.
Definition DEFAULT_CBUF_SIZE : Z := Cfg.DEFAULT_MAXEVENTSPERSEC * Cfg.DEFAULT_SUMMARY_PERIOD.
Definition BINARY_DATA_MSG : string := "-- binary data ignored --".
Definition DEFAULT_BINARY_DATA_SAMPLE_SIZE : Z := 256.
Definition DEFAULT_PAYLOAD_DIR : string := "/tmp".
Definition ESC_CHARACTER : Z := 27.
Definition CFG_SRC_CONSOLE : Z := 1.

Inductive payload_status_t := PAYLOAD_STATUS_DISABLE | PAYLOAD_STATUS_CRIBL | PAYLOAD_STATUS_DISK.
Inductive which_transport_t := CFG_MTC | CFG_CTL | CFG_LOG | CFG_LS | CFG_WHICH_MAX.
Inductive fs_content_type_t := FS_CONTENT_UNKNOWN | FS_CONTENT_BINARY | FS_CONTENT_TEXT.

#[export] Instance which_eq_dec : EqDecision which_transport_t.
Proof. solve_decision. Defined.
#[export] Instance content_eq_dec : EqDecision fs_content_type_t.
Proof. solve_decision. Defined.

(** The default of the sources, as ctl.c has it: without an entry for the last. *)
Definition srcEnabledDefault : list Z := take 8 Cfg.srcEnabledDefault.

Section Ctl.
Context `{Double}.
Variable regcomp : string -> option regex.
Variable num_of : Types.double -> double.
(** The contents of new memory. *)
Variable fill : nat -> Z.

(** ** State *)

Record log_id_t := mkLogId {
  l_uid : Z;
  l_timestamp : double;
  l_path : option string;
  l_sourcetype : Z;
  l_valuefilter : option regex;
  l_proc : proc_id_t;
}.

(** [datalen] is the length of [le_data]. *)
Record log_event_t := mkLogEvent {
  le_fd : Z;
  le_id : log_id_t;
  le_data : list Z;
}.

(** [stream]: what has been written to the memory stream, if it is open. *)
Record streambuf_t := mkStreambuf {
  stream : option (list Z);
  tot_size : Z;                        (* unsigned long long *)
  sb_id : option log_id_t;
}.

Definition closed : streambuf_t := mkStreambuf None 0 None.

Record ctl_t := mkCtl {
  transport : option Transport.transport_t;
  paytrans : option Transport.transport_t;
  evt : option evt_fmt_t;
  events : option CircBuf.cbuf_t;
  enhancefs : Z;
  allow_binary_console : bool;
  stop_aggregating : bool;
  log_ringbuf : option CircBuf.cbuf_t;
  streamAgg : list streambuf_t;
  max_agg_bytes : Z;
  flush_period_in_ms : Z;
  pay_status : payload_status_t;
  pay_dir : option string;
  dirRepr : option string;
  pay_ringbuf : option CircBuf.cbuf_t;
  msgbuf : option CircBuf.cbuf_t;
}.

(** The rest of the process that the object uses. *)
Record env_t := mkEnv {
  log_heap : gmap Z log_event_t;       (* queued log events *)
  msg_heap : gmap Z (list Z);          (* queued messages *)
  next_ptr : Z;
  evt_freed : list Z;                  (* arguments of evtFree *)
  content : gmap Z fs_content_type_t;  (* content_type of the active entries of g_fsinfo *)
  flush_count : Z;                     (* static count of ctlSendAllAggregatedLogData *)
  al : list bool;
  pals : list (list bool);
  fwrites : list Z;
}.

Definition set_transport (c : ctl_t) (t : option Transport.transport_t) : ctl_t :=
  mkCtl t (paytrans c) (evt c) (events c) (enhancefs c) (allow_binary_console c) (stop_aggregating c) (log_ringbuf c)
    (streamAgg c) (max_agg_bytes c) (flush_period_in_ms c) (pay_status c) (pay_dir c) (dirRepr c) (pay_ringbuf c) (msgbuf c).
Definition set_paytrans (c : ctl_t) (t : option Transport.transport_t) : ctl_t :=
  mkCtl (transport c) t (evt c) (events c) (enhancefs c) (allow_binary_console c) (stop_aggregating c) (log_ringbuf c)
    (streamAgg c) (max_agg_bytes c) (flush_period_in_ms c) (pay_status c) (pay_dir c) (dirRepr c) (pay_ringbuf c) (msgbuf c).
Definition set_evt (c : ctl_t) (v : option evt_fmt_t) : ctl_t :=
  mkCtl (transport c) (paytrans c) v (events c) (enhancefs c) (allow_binary_console c) (stop_aggregating c) (log_ringbuf c)
    (streamAgg c) (max_agg_bytes c) (flush_period_in_ms c) (pay_status c) (pay_dir c) (dirRepr c) (pay_ringbuf c) (msgbuf c).
Definition set_events (c : ctl_t) (v : option CircBuf.cbuf_t) : ctl_t :=
  mkCtl (transport c) (paytrans c) (evt c) v (enhancefs c) (allow_binary_console c) (stop_aggregating c) (log_ringbuf c)
    (streamAgg c) (max_agg_bytes c) (flush_period_in_ms c) (pay_status c) (pay_dir c) (dirRepr c) (pay_ringbuf c) (msgbuf c).
Definition set_flags (c : ctl_t) (fs : Z) (bin stop : bool) : ctl_t :=
  mkCtl (transport c) (paytrans c) (evt c) (events c) fs bin stop (log_ringbuf c)
    (streamAgg c) (max_agg_bytes c) (flush_period_in_ms c) (pay_status c) (pay_dir c) (dirRepr c) (pay_ringbuf c) (msgbuf c).
Definition set_log (c : ctl_t) (r : option CircBuf.cbuf_t) (s : list streambuf_t) : ctl_t :=
  mkCtl (transport c) (paytrans c) (evt c) (events c) (enhancefs c) (allow_binary_console c) (stop_aggregating c) r
    s (max_agg_bytes c) (flush_period_in_ms c) (pay_status c) (pay_dir c) (dirRepr c) (pay_ringbuf c) (msgbuf c).
Definition set_log_limits (c : ctl_t) (m p : Z) : ctl_t :=
  mkCtl (transport c) (paytrans c) (evt c) (events c) (enhancefs c) (allow_binary_console c) (stop_aggregating c) (log_ringbuf c)
    (streamAgg c) m p (pay_status c) (pay_dir c) (dirRepr c) (pay_ringbuf c) (msgbuf c).
Definition set_payload (c : ctl_t) (s : payload_status_t) (d r : option string) (b : option CircBuf.cbuf_t) : ctl_t :=
  mkCtl (transport c) (paytrans c) (evt c) (events c) (enhancefs c) (allow_binary_console c) (stop_aggregating c) (log_ringbuf c)
    (streamAgg c) (max_agg_bytes c) (flush_period_in_ms c) s d r b (msgbuf c).
Definition set_msgbuf (c : ctl_t) (m : option CircBuf.cbuf_t) : ctl_t :=
  mkCtl (transport c) (paytrans c) (evt c) (events c) (enhancefs c) (allow_binary_console c) (stop_aggregating c) (log_ringbuf c)
    (streamAgg c) (max_agg_bytes c) (flush_period_in_ms c) (pay_status c) (pay_dir c) (dirRepr c) (pay_ringbuf c) m.

Definition set_log_heap (e : env_t) (h : gmap Z log_event_t) (n : Z) : env_t :=
  mkEnv h (msg_heap e) n (evt_freed e) (content e) (flush_count e) (al e) (pals e) (fwrites e).
Definition set_msg_heap (e : env_t) (h : gmap Z (list Z)) (n : Z) : env_t :=
  mkEnv (log_heap e) h n (evt_freed e) (content e) (flush_count e) (al e) (pals e) (fwrites e).
Definition add_freed (e : env_t) (p : Z) : env_t :=
  mkEnv (log_heap e) (msg_heap e) (next_ptr e) (p :: evt_freed e) (content e) (flush_count e) (al e) (pals e) (fwrites e).
Definition set_content (e : env_t) (m : gmap Z fs_content_type_t) : env_t :=
  mkEnv (log_heap e) (msg_heap e) (next_ptr e) (evt_freed e) m (flush_count e) (al e) (pals e) (fwrites e).
Definition set_flush_count (e : env_t) (n : Z) : env_t :=
  mkEnv (log_heap e) (msg_heap e) (next_ptr e) (evt_freed e) (content e) n (al e) (pals e) (fwrites e).
Definition set_al (e : env_t) (l : list bool) : env_t :=
  mkEnv (log_heap e) (msg_heap e) (next_ptr e) (evt_freed e) (content e) (flush_count e) l (pals e) (fwrites e).
Definition set_pals (e : env_t) (l : list (list bool)) : env_t :=
  mkEnv (log_heap e) (msg_heap e) (next_ptr e) (evt_freed e) (content e) (flush_count e) (al e) l (fwrites e).
Definition set_fwrites (e : env_t) (l : list Z) : env_t :=
  mkEnv (log_heap e) (msg_heap e) (next_ptr e) (evt_freed e) (content e) (flush_count e) (al e) (pals e) l.

(** ** Code on the object, the process and the world *)

Definition K (A : Type) : Type := ctl_t -> env_t -> Sys.M (A * ctl_t * env_t).

Definition kret {A} (a : A) : K A := fun c e => Sys.ret (a, c, e).
Definition kbind {A B} (m : K A) (f : A -> K B) : K B := fun c e =>
  Sys.bind (m c e) (fun r => f r.1.1 r.1.2 r.2).

#[local] Notation "'let!' x := m 'in' k" := (kbind m (fun x => k)) (at level 10, x name, m at level 200, k at level 200).
#[local] Notation "'do' m ; k" := (kbind m (fun _ => k)) (at level 10, m at level 200, k at level 200).

Definition kub {A} : K A := fun _ _ => Sys.undefined.
Definition ctl {A} (f : ctl_t -> A) : K A := fun c e => Sys.ret (f c, c, e).
Definition env {A} (f : env_t -> A) : K A := fun c e => Sys.ret (f e, c, e).
Definition put_ctl (f : ctl_t -> ctl_t) : K unit := fun c e => Sys.ret (tt, f c, e).
Definition put_env (f : env_t -> env_t) : K unit := fun c e => Sys.ret (tt, c, f e).
Definition lift {A} (m : Sys.M A) : K A := fun c e => Sys.bind m (fun a => Sys.ret (a, c, e)).
Definition of_ub {A} (r : ub A) : K A := match r with Def a => kret a | UB => kub end.

(** Code that takes the outcomes of its allocations. *)
Definition with_al {A} (f : list bool -> A * list bool) : K A := fun c e =>
  let '(a, l) := f (al e) in Sys.ret (a, c, set_al e l).
Definition kalloc : K bool := with_al alloc.

(** The outcomes of the allocations inside one call of the printer. *)
Definition printer_al : K (list bool) := let! l := env (fun e => hd [] (pals e)) in do put_env (fun e => set_pals e (tl (pals e))); kret l.

(** Memory for a log event or a message; the caller has tested the allocation. *)
Definition new_log (ev : log_event_t) : K Z :=
  let! p := env next_ptr in do put_env (fun e => set_log_heap e (<[p := ev]> (log_heap e)) (p + 1)); kret p.
Definition new_msg (m : list Z) : K Z :=
  let! p := env next_ptr in do put_env (fun e => set_msg_heap e (<[p := m]> (msg_heap e)) (p + 1)); kret p.
Definition free_log (p : Z) : K unit := put_env (fun e => set_log_heap e (delete p (log_heap e)) (next_ptr e)).
Definition free_msg (p : Z) : K unit := put_env (fun e => set_msg_heap e (delete p (msg_heap e)) (next_ptr e)).

(** A queue of the object; [set] puts it back. *)
Definition kput (get : ctl_t -> option CircBuf.cbuf_t) (set : ctl_t -> option CircBuf.cbuf_t -> ctl_t) (data : Z) : K Z :=
  let! q := ctl get in
  let '(rc, q, _) := CircBuf.cbufPut q data in
  do put_ctl (fun c => set c q); kret rc.
Definition kget (get : ctl_t -> option CircBuf.cbuf_t) (set : ctl_t -> option CircBuf.cbuf_t -> ctl_t) : K (option Z) :=
  let! q := ctl get in
  let '(rc, d, q) := CircBuf.cbufGet q in
  do put_ctl (fun c => set c q); kret (if rc =? 0 then d else None).

Definition set_ringbuf (c : ctl_t) (q : option CircBuf.cbuf_t) : ctl_t := set_log c q (streamAgg c).
Definition set_pay_ringbuf (c : ctl_t) (q : option CircBuf.cbuf_t) : ctl_t :=
  set_payload c (pay_status c) (pay_dir c) (dirRepr c) q.

(** The most entries a queue can hold: the bound of the loops that drain it. *)
Definition queue_bound (q : option CircBuf.cbuf_t) : nat := match q with Some q => Z.to_nat (CircBuf.maxlen q) | None => 0 end.

(** ** Transports *)

Definition sends (who : which_transport_t) (msg : list Z) : K Z :=
  if decide (who = CFG_LS) then
    let! t := ctl paytrans in let! r := lift (Transport.transportSend t (Some msg)) in
    do put_ctl (fun c => set_paytrans c r.2); kret r.1
  else
    let! t := ctl transport in let! r := lift (Transport.transportSend t (Some msg)) in
    do put_ctl (fun c => set_transport c r.2); kret r.1.

(** An operation on one of the transports; nothing is done for a NULL one. *)
Definition on_transport {A} (who : which_transport_t) (null : A) (f : Transport.transport_t -> Sys.M (A * Transport.transport_t)) : K A :=
  let run t (set : ctl_t -> option Transport.transport_t -> ctl_t) :=
    match t with
    | None => kret null
    | Some t => let! r := lift (f t) in do put_ctl (fun c => set c (Some r.2)); kret r.1
    end in
  if decide (who = CFG_LS) then let! t := ctl paytrans in run t set_paytrans else let! t := ctl transport in run t set_transport.

Definition ctlNeedsConnection (who : which_transport_t) : K bool := on_transport who false Transport.transportNeedsConnection.
Definition ctlConnection (who : which_transport_t) : K Z :=
  ctl (fun c => Transport.transportConnection (if decide (who = CFG_LS) then paytrans c else transport c)).
Definition ctlConnect (who : which_transport_t) : K Z := on_transport who 1 Transport.transportConnect.
Definition ctlDisconnect (who : which_transport_t) : K Z :=
  on_transport who 0 (fun t => Sys.bind (Transport.transportDisconnect t) (fun t => Sys.ret (0, t))).
Definition ctlReconnect (who : which_transport_t) : K Z :=
  on_transport who 0 (fun t => Sys.bind (Transport.transportReconnect t) (fun t => Sys.ret (0, t))).

Definition ctlTransportSet (t : option Transport.transport_t) (who : which_transport_t) : K unit :=
  if decide (who = CFG_LS) then
    let! old := ctl paytrans in do lift (Transport.transportDestroy old); put_ctl (fun c => set_paytrans c t)
  else
    let! old := ctl transport in do lift (Transport.transportDestroy old); put_ctl (fun c => set_transport c t).
Definition ctlTransport (who : which_transport_t) (c : option ctl_t) : option Transport.transport_t :=
  c ≫= fun c => if decide (who = CFG_LS) then paytrans c else transport c.
Definition ctlTransportType (who : which_transport_t) (c : option ctl_t) : Z :=
  match c with None => -1 | Some c => Transport.transportType (if decide (who = CFG_LS) then paytrans c else transport c) end.


(** ** Messages *)

(** [prepMessage] and [ctlCreateTxMsg] with the state's allocations. *)
Definition prep_message (upld : upload_t) : K (option (list Z)) :=
  let! pal := printer_al in let! l := env al in
  let! r := of_ub (prepMessage fill l pal upld) in do put_env (fun e => set_al e r.2); kret r.1.
Definition create_tx_msg (upld : upload_t) : K (option (list Z)) :=
  let! pal := printer_al in let! l := env al in
  let! r := of_ub (ctlCreateTxMsg fill l pal upld) in do put_env (fun e => set_al e r.2); kret r.1.

(** [msg] is the queued pointer's text. *)
Definition ctlSendMsg (msg : list Z) : K unit :=
  let! p := new_msg msg in
  let! rc := kput msgbuf set_msgbuf p in
  if rc =? -1 then free_msg p else kret tt.

Definition ctlSendJson (json : cJSON) (who : which_transport_t) : K Z :=
  let! pal := printer_al in
  let! msg := of_ub (cJSON_PrintUnformatted fill json pal) in
  match msg with
  | None => kret (-1)
  | Some msg =>
      let! msg := with_al (fun l => msgAddNewLine l (cstr msg)) in
      match msg with
      | None => kret (-1)
      | Some msg => sends who msg
      end
  end.

(** The drained queue's messages, sent one after the other. *)
Fixpoint send_buffered (fuel : nat) : K unit :=
  match fuel with
  | O => kret tt
  | S fuel =>
      let! data := kget msgbuf set_msgbuf in
      match data with
      | None => kret tt
      | Some p =>
          if p =? 0 then send_buffered fuel else
          let! msg := env (fun e => msg_heap e !! p) in
          match msg with
          | None => kub
          | Some msg =>
              let! temp := with_al (fun l => msgAddNewLine l msg) in
              match temp with
              | None => do free_msg p; send_buffered fuel
              | Some temp => do sends CFG_CTL temp; do free_msg p; send_buffered fuel
              end
          end
      end
  end.
Definition sendBufferedMessages : K unit := let! q := ctl msgbuf in send_buffered (S (queue_bound q)).

(** ** Aggregated log data *)

(** The text of a buffer as a quoted string, in new memory; [length] is an [int]. *)
Definition cJSON_CreateStringFromBuffer (l pal : list bool) (buffer : list Z) : ub (option cJSON * list bool) :=
  if INT_MAX <? zlen buffer then UB else
  let '(ok, pal) := alloc pal in
  if negb ok then Def (None, l) else
  pb ← print_string_ptr fill buffer (zlen buffer) (mkPrint (new_memory fill 0 256) 0 0 false false) pal;
  match pb with
  | None => Def (None, l)
  | Some (pb, _) => let '(ok, l) := alloc l in Def (if ok then Some (cJSON_Raw (CJsonPrint.buffer pb)) else None, l)
  end.

(** A C string as the text a regular expression is matched with. *)
Definition text_of (s : list Z) : string :=
  String.string_of_list_ascii (map (fun c => Ascii.ascii_of_nat (Z.to_nat c)) (cstr s)).

Definition agg (fd : Z) : K streambuf_t := ctl (fun c => Cfg.at_ closed (streamAgg c) fd).
Definition set_agg (fd : Z) (b : streambuf_t) : K unit := put_ctl (fun c => set_log c (log_ringbuf c) (set_at (streamAgg c) fd b)).

(** The events of [l], with the object's formatter; [buf] is the closed stream. *)
Definition createLogEventJson (fd : Z) : K (option cJSON) :=
  let! b := agg fd in
  match stream b, sb_id b with
  | Some buf, Some i =>
      do set_agg fd (mkStreambuf None (tot_size b) (sb_id b));
      let! root := with_al cJSON_CreateObject in
      match root with
      | None => kret None
      | Some root =>
          let! pal := printer_al in let! l := env al in
          let! r := of_ub (cJSON_CreateStringFromBuffer l pal buf) in
          do put_env (fun e => set_al e r.2);
          match r.1 with
          | None => kret None
          | Some data =>
              let root := cJSON_AddItemToObjectCS root (bytes_of "message") data in
              let valuestring := match data with cJSON_Raw s | cJSON_String s => Some s | _ => None end in
              if match valuestring, l_valuefilter i with Some s, Some re => negb (re (text_of s)) | _, _ => false end
              then kret None else
              let! f := ctl evt in
              with_al (fun l => fmtEventJson l f
                (mkEventFormat (l_timestamp i) (l_path i) (Some (l_proc i)) (l_uid i) root (l_sourcetype i)))
          end
      end
  | _, _ => kub
  end.

Definition sendAggregatedLogData (fd : Z) : K unit :=
  let! b := agg fd in
  let! json := createLogEventJson fd in
  match json, sb_id b with
  | Some json, Some i =>
      let! msg := prep_message (mkUpload UPLD_EVT (Some json) None (l_uid i) (Some (l_proc i))) in
      match msg with
      | None => kret tt
      | Some msg => do sends CFG_CTL msg; kret tt
      end
  | _, _ => kret tt
  end.

Definition ctlProcessAllQueuedEventsNow (c : option ctl_t) : bool := match c with Some c => stop_aggregating c | None => false end.
Definition ctlStopAggregating : K unit := put_ctl (fun c => set_flags c (enhancefs c) (allow_binary_console c) true).

Fixpoint report_all (fds : list Z) : K unit :=
  match fds with
  | [] => kret tt
  | fd :: fds =>
      let! b := agg fd in
      match stream b with
      | Some _ => do sendAggregatedLogData fd; report_all fds
      | None => report_all fds
      end
  end.

(** [count++ % flush_period_in_ms]: a division by zero is undefined. *)
Definition ctlSendAllAggregatedLogData : K unit :=
  let! now := ctl (fun c => ctlProcessAllQueuedEventsNow (Some c)) in
  let! count := env flush_count in
  let! period := ctl flush_period_in_ms in
  do put_env (fun e => set_flush_count e (u64 (count + 1)));
  if period =? 0 then kub else
  if now || (count mod period =? 0) then report_all (seqZ 0 FS_ENTRIES) else kret tt.

Definition destroyInternalLogEvent (p : Z) : K unit := free_log p.

(** [fwrite] to the memory stream: how much of [data] it takes. *)
Definition fwrite (data : list Z) : K (list Z) :=
  let! n := env (fun e => match fwrites e with [] => zlen data | n :: _ => Z.max 0 (Z.min n (zlen data)) end) in
  do put_env (fun e => set_fwrites e (tl (fwrites e)));
  kret (take (Z.to_nat n) data).

(** One event that was queued. *)
Definition aggregate (ev : log_event_t) : K unit :=
  let fd := le_fd ev in
  if negb ((0 <=? fd) && (fd <? FS_ENTRIES)) then kret tt else
  let! b := agg fd in
  let! max := ctl max_agg_bytes in
  let full := match stream b, sb_id b with
              | Some _, Some i => negb (l_uid i =? l_uid (le_id ev)) || (max <? u64 (tot_size b + zlen (le_data ev)))
              | _, _ => false
              end in
  do (if full then sendAggregatedLogData fd else kret tt);
  let! b := agg fd in
  do match stream b with
     | Some _ => kret tt
     | None => let! ok := kalloc in      (* open_memstream *)
               set_agg fd (if ok : bool then mkStreambuf (Some []) 0 (Some (le_id ev)) else mkStreambuf None 0 (sb_id b))
     end;
  let! b := agg fd in
  match stream b with
  | Some buf =>
      let! written := fwrite (le_data ev) in
      set_agg fd (mkStreambuf (Some (buf ++ written)) (u64 (tot_size b + zlen written)) (sb_id b))
  | None => kret tt
  end.

Fixpoint flush_log (fuel : nat) : K unit :=
  match fuel with
  | O => kret tt
  | S fuel =>
      let! data := kget log_ringbuf set_ringbuf in
      match data with
      | None => kret tt
      | Some p =>
          if p =? 0 then flush_log fuel else
          let! ev := env (fun e => log_heap e !! p) in
          match ev with
          | None => kub
          | Some ev => do aggregate ev; do destroyInternalLogEvent p; flush_log fuel
          end
      end
  end.
Definition ctlFlushLog : K unit := let! q := ctl log_ringbuf in flush_log (S (queue_bound q)).

Definition flush_transport (get : ctl_t -> option Transport.transport_t) : K Z :=
  let! t := ctl get in lift (Transport.transportFlush t).

Definition ctlFlush : K unit :=
  do sendBufferedMessages; do ctlSendAllAggregatedLogData; do flush_transport transport; do flush_transport paytrans; kret tt.

(** ** Posting *)

Definition ctlPostMsg (body : option cJSON) (type : upload_type_t) (req : option request_t) (now : bool) : K Z :=
  if match type with UPLD_RESP => bool_decide (req = None) | _ => match body with None => true | Some _ => false end end
  then kret (-1) else
  let! streamMsg := create_tx_msg (mkUpload type body req 0 None) in
  match streamMsg with
  | None => kret (-1)
  | Some streamMsg => do ctlSendMsg streamMsg; do (if now then ctlFlush else kret tt); kret 0
  end.

(** [json] is the formatted event; without a message, [strlen(NULL)]. *)
Definition send_event (json : option cJSON) (uid : Z) (proc : proc_id_t) : K Z :=
  match json with
  | None => kret (-1)
  | Some json =>
      let! msg := prep_message (mkUpload UPLD_EVT (Some json) None uid (Some proc)) in
      match msg with
      | None => kub
      | Some msg => sends CFG_CTL msg
      end
  end.

(** The formatter runs on the object's own, whose rate limiter it changes. *)
Definition format_event (f : list bool -> option evt_fmt_t -> option cJSON * option evt_fmt_t * list bool) : K (option cJSON) :=
  let! v := ctl evt in let! l := env al in
  let '(json, v, l) := f l v in
  do put_ctl (fun c => set_evt c v); do put_env (fun e => set_al e l); kret json.

(** [tv] is the time of day. *)
Definition ctlSendHttp (tv : Z * double) (ev : event_t) (data : option cJSON) (uid : Z) (proc : option proc_id_t) : K Z :=
  match proc with
  | None => kret (-1)
  | Some p => let! json := format_event (fun l v => evtFormatHttp regcomp num_of l tv v ev data uid (Some p)) in send_event json uid p
  end.
Definition ctlSendEvent (tv : Z * double) (ev : event_t) (data : option cJSON) (uid : Z) (proc : option proc_id_t) : K Z :=
  match proc with
  | None => kret (-1)
  | Some p => let! json := format_event (fun l v => evtFormatMetric regcomp num_of l tv v ev data uid (Some p)) in send_event json uid p
  end.

(** [event] is the pointer, 0 for NULL. *)
Definition ctlPostEvent (event : Z) : K Z :=
  if event =? 0 then kret (-1) else
  let! rc := kput events set_events event in
  if rc =? -1 then do put_env (fun e => add_freed e event); kret (-1) else kret 0.

(** ** Log data *)

Definition createInternalLogEvent (timestamp : double) (fd : Z) (path : string) (buf : list Z) (uid : Z) (proc : proc_id_t)
    (logType : Z) (valfilter : option regex) : K Z :=
  let! event := kalloc in
  let! data := kalloc in
  let! src := kalloc in
  if negb event || negb data then kret 0 else          (* path itself is tested, not its copy *)
  new_log (mkLogEvent fd (mkLogId uid timestamp (if src : bool then Some path else None) logType valfilter proc) buf).

Definition isprint (c : Z) : bool := (32 <=? c) && (c <? 127).
Definition isspace (c : Z) : bool := (c =? 32) || ((9 <=? c) && (c <=? 13)).

Definition is_data_binary (buf : list Z) : bool :=
  existsb (fun c => negb (isprint c) && negb (isspace c) && negb (c =? ESC_CHARACTER))
    (take (Z.to_nat DEFAULT_BINARY_DATA_SAMPLE_SIZE) buf).

(** The entries of standard input, output and error are made when needed. *)
Definition has_entry (m : gmap Z fs_content_type_t) (fd : Z) : bool :=
  bool_decide (is_Some (m !! fd)) || ((0 <=? fd) && (fd <=? 2)).
Definition getFSContentType (fd : Z) : K fs_content_type_t := env (fun e => default FS_CONTENT_UNKNOWN (content e !! fd)).
Definition setFSContentType (fd : Z) (t : fs_content_type_t) : K unit :=
  put_env (fun e => set_content e (if has_entry (content e) fd then <[fd := t]> (content e) else content e)).

Definition log_wanted (v : option evt_fmt_t) (src : Z) (path : string) : bool :=
  negb (evtFormatSourceEnabled v src =? 0) &&
  match evtFormatNameFilter regcomp v src with Some re => re path | None => false end.

(** The source a path belongs to. *)
Definition log_type (v : option evt_fmt_t) (path : string) : option Z :=
  if log_wanted v CFG_SRC_CONSOLE path then Some CFG_SRC_CONSOLE
  else if log_wanted v CFG_SRC_FILE path then Some CFG_SRC_FILE else None.

Definition post_log (p : Z) : K Z :=
  let! rc := kput log_ringbuf set_ringbuf p in
  if rc =? -1 then do (if p =? 0 then kret tt else destroyInternalLogEvent p); kret (-1) else kret 0.

Definition ctlSendLog (timestamp : double) (fd : Z) (path : option string) (buf : option (list Z)) (uid : Z)
    (proc : option proc_id_t) : K Z :=
  match path, buf, proc with
  | Some path, Some buf, Some proc =>
      let! v := ctl evt in
      match log_type v path with
      | None => kret 0
      | Some logType =>
          let filter := evtFormatValueFilter regcomp v logType in
          let create data := createInternalLogEvent timestamp fd path data uid proc logType filter in
          let! allowed := ctl allow_binary_console in
          if negb allowed && (logType =? CFG_SRC_CONSOLE) then
            let! prev := getFSContentType fd in
            let cur := if is_data_binary buf then FS_CONTENT_BINARY else FS_CONTENT_TEXT in
            do setFSContentType fd cur;
            if decide (cur = FS_CONTENT_BINARY) then
              if decide (prev = FS_CONTENT_BINARY) then kret (-1) else
              let! p := create (bytes_of BINARY_DATA_MSG) in
              if p =? 0 then let! p := create buf in post_log p else post_log p
            else let! p := create buf in post_log p
          else let! p := create buf in post_log p
      end
  | _, _, _ => kret (-1)
  end.

Definition ctlSendBin (buf : option (list Z)) : K Z :=
  match buf with
  | None => kret (-1)
  | Some buf => let! t := ctl paytrans in sends (match t with Some _ => CFG_LS | None => CFG_CTL end) buf
  end.

(** ** Construction and destruction *)

Definition zero_ctl : ctl_t :=
  mkCtl None None None None 0 false false None (replicate (Z.to_nat FS_ENTRIES) closed) 0 0 PAYLOAD_STATUS_DISABLE
    None None None None.

Definition cbuf_new (size : Z) : K (option CircBuf.cbuf_t) :=
  let! ok1 := kalloc in
  if negb ok1 then kret None else
  let! ok2 := kalloc in kret (CircBuf.cbufInit true ok2 size).

(** [asprintf("dir://%s", dir)]; a NULL directory prints as (null). *)
Definition dir_repr (dir : option string) : K (option string) :=
  let! ok := kalloc in
  kret (if ok : bool then Some ("dir://" +:+ default "(null)" dir)%string else None).
Definition dup_dir (dir : string) : K (option string) := let! ok := kalloc in kret (if ok : bool then Some dir else None).

Definition evt_destroy : K unit := put_ctl (fun c => set_evt c (evtFormatDestroy (evt c))).

(** What is in the queues is not freed with them. *)
Definition ctlDestroy : K unit :=
  do ctlStopAggregating;
  do ctlFlush;
  do put_ctl (fun c => set_ringbuf c (CircBuf.cbufFree (log_ringbuf c)));
  do put_ctl (fun c => set_msgbuf c (CircBuf.cbufFree (msgbuf c)));
  do put_ctl (fun c => set_events c (CircBuf.cbufFree (events c)));
  do put_ctl (fun c => set_payload c (pay_status c) None None (CircBuf.cbufFree (pay_ringbuf c)));
  let! t := ctl transport in do lift (Transport.transportDestroy t); do put_ctl (fun c => set_transport c None);
  let! t := ctl paytrans in do lift (Transport.transportDestroy t); do put_ctl (fun c => set_paytrans c None);
  evt_destroy.

(** Creation, in the memory of the object; [qlen] is the number in
    APPVIEW_QUEUE_LENGTH, if it is one.  The result says whether there is an
    object: the error exit destroys it. *)
Definition create_steps (qlen : option Z) : K bool :=
  let buf_size := match qlen with Some q => if q =? 0 then DEFAULT_CBUF_SIZE else q | None => DEFAULT_CBUF_SIZE end in
  let! q := cbuf_new buf_size in
  do put_ctl (fun c => set_ringbuf c q);
  match q with
  | None => kret false
  | Some _ =>
      do put_ctl (fun c => set_log_limits c DEFAULT_LOG_MAX_AGG_BYTES DEFAULT_LOG_FLUSH_PERIOD_IN_MS);
      let! q := cbuf_new buf_size in
      do put_ctl (fun c => set_events c q);
      match q with
      | None => kret false
      | Some _ =>
          do put_ctl (fun c => set_flags c 1 true false);
          let! dir := dup_dir DEFAULT_PAYLOAD_DIR in
          let! repr := dir_repr dir in
          let! q := cbuf_new buf_size in
          do put_ctl (fun c => set_payload c PAYLOAD_STATUS_DISABLE dir repr q);
          match q with
          | None => kret false
          | Some _ =>
              let! q := cbuf_new 1000 in
              do put_ctl (fun c => set_msgbuf c q);
              kret (match q with Some _ => true | None => false end)
          end
      end
  end.
Definition ctlCreate (qlen : option Z) (e : env_t) : Sys.M (option ctl_t * env_t) :=
  let '(ok, l) := alloc (al e) in
  if negb ok then Sys.ret (None, set_al e l) else
  Sys.bind ((let! made := create_steps qlen in if made : bool then kret true else do ctlDestroy; kret false) zero_ctl (set_al e l))
    (fun r => Sys.ret (if r.1.1 : bool then Some r.1.2 else None, r.2)).

(** A NULL object. *)
Definition on_ctl {A} (null : A) (k : K A) (c : option ctl_t) (e : env_t) : Sys.M (A * option ctl_t * env_t) :=
  match c with
  | None => Sys.ret (null, None, e)
  | Some c => Sys.bind (k c e) (fun r => Sys.ret (r.1.1, Some r.1.2, r.2))
  end.

(** ** Accessors *)

Definition ctlEvtSet (v : option evt_fmt_t) : K unit := do evt_destroy; put_ctl (fun c => set_evt c v).
Definition ctlEvtGet (c : option ctl_t) : option evt_fmt_t := c ≫= evt.

Definition ctlPayStatus (c : option ctl_t) : payload_status_t :=
  match c with Some c => pay_status c | None => PAYLOAD_STATUS_DISABLE end.
Definition ctlPayStatusSet (v : payload_status_t) : K unit := put_ctl (fun c => set_payload c v (pay_dir c) (dirRepr c) (pay_ringbuf c)).

Definition no_status : Transport.transport_status_t := Transport.mkStatus None false 0 None.
Definition ctlPayConnectionStatus (c : ctl_t) (s : payload_status_t) : Transport.transport_status_t :=
  match s with PAYLOAD_STATUS_DISK => Transport.mkStatus (dirRepr c) true 0 None | _ => no_status end.
Definition ctlConnectionStatus (who : which_transport_t) : K Transport.transport_status_t :=
  if decide (who = CFG_LS) then
    let! s := ctl (fun c => ctlPayStatus (Some c)) in
    match s with
    | PAYLOAD_STATUS_CRIBL =>
        let! t := ctl paytrans in let! r := lift (Transport.transportConnectionStatus t) in
        do put_ctl (fun c => set_paytrans c r.2); kret r.1
    | _ => ctl (fun c => ctlPayConnectionStatus c s)
    end
  else
    let! t := ctl transport in let! r := lift (Transport.transportConnectionStatus t) in
    do put_ctl (fun c => set_transport c r.2); kret r.1.

(** Without a formatter the local table is read, which has no entry for the last
    source. *)
Definition ctlEvtSourceEnabled (c : option ctl_t) (src : Z) : ub bool :=
  if Cfg.src_ok src then
    match c ≫= evt with
    | Some v => Def (negb (evtFormatSourceEnabled (Some v) src =? 0))
    | None => match srcEnabledDefault !! Z.to_nat src with Some b => Def (negb (b =? 0)) | None => UB end
    end
  else Def (negb (Cfg.at_ 0 srcEnabledDefault CFG_SRC_FILE =? 0)).

Definition ctlEnhanceFs (c : option ctl_t) : Z := match c with Some c => enhancefs c | None => 1 end.
Definition ctlEnhanceFsSet (v : Z) : K unit := put_ctl (fun c => set_flags c v (allow_binary_console c) (stop_aggregating c)).
Definition ctlAllowBinaryConsoleSet (v : Z) : K unit :=
  if (v <? 0) || (1 <? v) then kret tt else put_ctl (fun c => set_flags c (enhancefs c) (v =? 1) (stop_aggregating c)).

Definition ctlPayDir (c : option ctl_t) : option string := match c with Some c => pay_dir c | None => Some DEFAULT_PAYLOAD_DIR end.
Definition ctlPayDirSet (dir : option string) : K unit :=
  let dir := match dir with Some d => if decide (d = ""%string) then DEFAULT_PAYLOAD_DIR else d | None => DEFAULT_PAYLOAD_DIR end in
  let! d := dup_dir dir in
  let! r := dir_repr d in
  put_ctl (fun c => set_payload c (pay_status c) d r (pay_ringbuf c)).

(** ** Events and payloads for the reporting thread *)

Definition ctlGetEvent : K Z := let! d := kget events set_events in kret (default (u64 (-1)) d).
Definition ctlCbufEmpty (c : ctl_t) : bool := CircBuf.cbufEmpty (log_ringbuf c).
Definition ctlPostPayload (pay : Z) : K Z :=
  if pay =? 0 then kret (-1) else
  let! q := ctl pay_ringbuf in
  match q with
  | None => kret 0
  | Some _ => let! rc := kput pay_ringbuf set_pay_ringbuf pay in kret (if rc =? -1 then -1 else 0)
  end.
Definition ctlGetPayload : K Z := let! d := kget pay_ringbuf set_pay_ringbuf in kret (default (u64 (-1)) d).

(** ** src/com.c *)

Definition cmdSendEvent := ctlSendEvent.
Definition cmdSendHttp (tv : Z * double) (ev : event_t) (data : option cJSON) (uid : Z) (proc : option proc_id_t) : K Z :=
  let! on := fun c e => of_ub (ctlEvtSourceEnabled (Some c) CFG_SRC_HTTP) c e in
  if on : bool then ctlSendHttp tv ev data uid proc else kret 0.
Definition cmdSendPayload (data : option (list Z)) : K Z := match data with None => kret 0 | Some _ => ctlSendBin data end.
Definition cmdSendInfoStr (str : option (list Z)) : K Z :=
  match str with
  | None => kret (-1)
  | Some str =>
      let! ok := with_al (allocs 2) in
      if ok : bool then ctlPostMsg (Some (cJSON_String (cstr str))) UPLD_INFO None true else kret (-1)
  end.
Definition cmdPostInfoMsg (json : option cJSON) : K Z := ctlPostMsg json UPLD_INFO None false.
Definition cmdPostEvent := ctlPostEvent.
Definition cmdSendResponse (req : option request_t) (body : option cJSON) : K Z := ctlPostMsg body UPLD_RESP req true.
Definition cmdCbufEmpty := ctlCbufEmpty.
Definition cmdPostPayload := ctlPostPayload.
Definition msgEventGet (c : option ctl_t) (e : env_t) := on_ctl (u64 (-1)) ctlGetEvent c e.
Definition msgPayloadGet (c : option ctl_t) (e : env_t) := on_ctl (u64 (-1)) ctlGetPayload c e.

End Ctl.
End Ctl.
