(* ===== verification/CtlLog.v ===== *)
(** * Aggregation of log data (src/ctl.c)

    Log and console data are queued by the application's threads and, on the
    reporting thread, joined per descriptor into chunks that become one message
    each.  A reference function says how a sequence of events is cut into chunks;
    the code sends exactly the messages of those chunks, in their order, and what
    the chunks hold is the data that was written. *)

From Stdlib Require Import Setoid Morphisms.
From S2P Require Import Prelude Types Cfg CircBuf CJson CJsonText CJsonPrint Sys Transport EvtFormat CtlMsg Ctl.

Module CtlLog.
Import CJson CJsonText CJsonPrint EvtFormat CtlMsg Ctl.

#[local] Notation "'zlen' l" := (Z.of_nat (length l)) (at level 10, l at level 9).

(** ** Equal programs *)

(** Two programs that do the same from every world. *)
Record meq {A} (m n : Sys.M A) : Prop := same { same_at : forall w, m w = n w }.
Arguments same_at {A m n}.
Infix "≡m" := meq (at level 70).

#[export] Instance meq_equiv {A} : Equivalence (@meq A).
Proof. split; [done|by intros m n E; split; intros w; rewrite (same_at E)|]. intros m n p E F. split. intros w. by rewrite (same_at E), (same_at F). Qed.

#[export] Instance bind_proper {A B} : Proper (meq ==> pointwise_relation A meq ==> meq) (@Sys.bind A B).
Proof.
  intros m n E f g F. split. intros w. unfold Sys.bind. rewrite (same_at E). destruct (n w) as [[a w']|]; [apply F|done].
Qed.

Lemma bind_ret {A B} (a : A) (f : A -> Sys.M B) : Sys.bind (Sys.ret a) f ≡m f a.
Proof. done. Qed.
Lemma bind_assoc {A B C} (m : Sys.M A) (f : A -> Sys.M B) (g : B -> Sys.M C) :
  Sys.bind (Sys.bind m f) g ≡m Sys.bind m (fun a => Sys.bind (f a) g).
Proof. split. intros w. unfold Sys.bind. by destruct (m w) as [[a w']|]. Qed.

(** The messages sent one after the other. *)
Fixpoint send_all (t : option Transport.transport_t) (msgs : list (list Z)) : Sys.M (option Transport.transport_t) :=
  match msgs with
  | [] => Sys.ret t
  | m :: msgs => Sys.bind (Transport.transportSend t (Some m)) (fun r => send_all r.2 msgs)
  end.

Lemma send_all_app t a b : send_all t (a ++ b) ≡m Sys.bind (send_all t a) (fun t => send_all t b).
Proof.
  revert t. induction a as [|m a IH]; intros t; cbn [send_all app]; [done|].
  rewrite bind_assoc. apply bind_proper; [done|]. intros r. apply IH.
Qed.

Section Log.
Context `{DL : DoubleLaws}.
Variable regcomp : string -> option regex.
Variable fill : nat -> Z.

(** ** The reference *)

Record chunk := mkChunk { ch_id : log_id_t; ch_data : list Z }.

(** Is the chunk to be sent before the event is taken? *)
Definition full (max : Z) (ch : chunk) (ev : log_event_t) : bool :=
  negb (l_uid (ch_id ch) =? l_uid (le_id ev)) || (max <? zlen (ch_data ch) + zlen (le_data ev)).

Definition in_range (ev : log_event_t) : bool := (0 <=? le_fd ev) && (le_fd ev <? FS_ENTRIES).

(** The open chunks, and the chunk that an event completes. *)
Definition agg_step (max : Z) (open : Z -> option chunk) (ev : log_event_t) : option chunk * (Z -> option chunk) :=
  if negb (in_range ev) then (None, open) else
  let done := match open (le_fd ev) with Some ch => if full max ch ev then Some ch else None | None => None end in
  let base := match open (le_fd ev) with
              | Some ch => if full max ch ev then mkChunk (le_id ev) [] else ch
              | None => mkChunk (le_id ev) []
              end in
  (done, fun fd => if decide (fd = le_fd ev) then Some (mkChunk (ch_id base) (ch_data base ++ le_data ev)) else open fd).

(** The chunks completed by a sequence of events, with their descriptors. *)
Fixpoint agg_run (max : Z) (open : Z -> option chunk) (evs : list log_event_t) : list (Z * chunk) * (Z -> option chunk) :=
  match evs with
  | [] => ([], open)
  | ev :: evs =>
      let '(d, open) := agg_step max open ev in
      let '(out, open) := agg_run max open evs in
      (match d with Some ch => (le_fd ev, ch) :: out | None => out end, open)
  end.

(** ** The message of a chunk *)

Definition quoted_text (data : list Z) : list Z := quoted (concat (map escape_char data)).

(** The data as a JSON string in an object. *)
Definition chunk_data (ch : chunk) : cJSON := cJSON_Object [(bytes_of "message", cJSON_Raw (quoted_text (ch_data ch)))].

Definition chunk_body (v : option evt_fmt_t) (ch : chunk) : option cJSON :=
  let i := ch_id ch in
  if match l_valuefilter i with Some re => negb (re (text_of (quoted_text (ch_data ch)))) | None => false end then None else
  match l_path i with
  | None => None
  | Some path => event_object (l_timestamp i) path (l_proc i) (l_sourcetype i) (default [] (v ≫= etags)) (chunk_data ch)
  end.

(** The envelope of an event. *)
Definition evt_json (p : proc_id_t) (uid : Z) (body : cJSON) : cJSON :=
  cJSON_Object [(bytes_of "type", str_json "evt"); (bytes_of "id", str_json (proc_id p));
    (bytes_of "_channel", if uid =? 0 then str_json "none" else cJSON_String (cstr (decimal uid))); (bytes_of "body", body)].

Definition chunk_json (v : option evt_fmt_t) (ch : chunk) : option cJSON :=
  evt_json (l_proc (ch_id ch)) (l_uid (ch_id ch)) <$> chunk_body v ch.

(** The line that is sent: nothing if the value filter rejects the chunk or its
    description is incomplete. *)
Definition chunk_message (v : option evt_fmt_t) (ch : chunk) : option (list Z) :=
  (fun j => render false 0 j ++ [10]) <$> chunk_json v ch.

(** Bytes, and a message within the printer's limits. *)
Definition sendable (v : option evt_fmt_t) (ch : chunk) : Prop :=
  0 <= l_uid (ch_id ch) /\ is_bytes (ch_data ch) /\ fits (zlen (quoted_text (ch_data ch))) /\
  forall j, chunk_json v ch = Some j -> fits (zlen (render false 0 j)).


(** ** Texts *)

Lemma bytes_of_bytes s : is_bytes (bytes_of s).
Proof.
  apply Forall_forall. intros c Hc. unfold bytes_of in Hc. apply list_elem_of_In, in_map_iff in Hc as (a & <- & _).
  pose proof (Ascii.nat_ascii_bounded a). unfold is_byte. lia.
Qed.

Lemma cstr_keeps_bytes s : is_bytes s -> is_bytes (cstr s).
Proof. intros B. by apply clean_bytes, cstr_is_clean. Qed.

Lemma decimal_bytes z : 0 <= z -> is_bytes (decimal z).
Proof.
  intros Hz. unfold decimal. destruct (Z.ltb_spec z 0); [lia|].
  eapply Forall_impl; [by apply digits_of_chars|]. intros c Hc. unfold is_byte. cbn in Hc. lia.
Qed.

Lemma escape_char_nz c : is_byte c -> Forall (fun d => d <> 0) (escape_char c).
Proof.
  intros Hc. unfold is_byte in Hc. unfold escape_char. destruct ((31 <? c) && _ && _) eqn:E; [constructor; [lia|constructor]|].
  constructor; [done|]. destruct (letter_escape c) as [e|] eqn:El.
  - constructor; [|constructor]. unfold letter_escape in El.
    repeat (match type of El with context [c =? ?x] => destruct (c =? x); [by simplify_eq|] end). done.
  - assert (c < 32).
    { unfold letter_escape in El. destruct (Z.eqb_spec c 34); [done|]. destruct (Z.eqb_spec c 92); [done|]. lia. }
    assert (0 <= c / 16 < 2) by (split; [apply Z.div_pos; lia|apply Z.div_lt_upper_bound; lia]).
    assert (Hh : forall d, 0 <= d -> hex_char d <> 0) by (intros d Hd; unfold hex_char; destruct (d <? 10); lia).
    pose proof (Z.mod_pos_bound c 16 ltac:(lia)). repeat constructor; try done; apply Hh; lia.
Qed.

Lemma quoted_text_nz data : is_bytes data -> Forall (fun c => c <> 0) (quoted_text data).
Proof.
  intros B. unfold quoted_text, quoted. constructor; [done|]. apply Forall_app. split; [|by repeat constructor].
  induction B as [|c l Hc B IH]; cbn; [constructor|]. apply Forall_app. split; [by apply escape_char_nz|done].
Qed.

(** The string made of a buffer. *)
Lemma string_from_buffer data : is_bytes data -> fits (zlen (quoted_text data)) ->
  exists b, cJSON_CreateStringFromBuffer fill [] [] data = Def (Some (cJSON_Raw b), []) /\ cstr b = quoted_text data.
Proof.
  intros B N. unfold cJSON_CreateStringFromBuffer.
  assert (zlen data <= zlen (quoted_text data)).
  { unfold quoted_text, quoted. cbn [length]. rewrite length_app. clear. induction data as [|c l IH]; [cbn; lia|].
    cbn [map concat length] in IH |- *. rewrite length_app. assert (0 < zlen (escape_char c)); [|lia]. unfold escape_char. destruct ((31 <? c) && _ && _); cbn; lia. }
  destruct (Z.ltb_spec INT_MAX (zlen data)); [unfold fits in N; lia|]. cbn [alloc negb].
  assert (E : at_end (mkPrint (new_memory fill 0 256) 0 0 false false) [] false 0).
  { split; [|done]. exists (new_memory fill 0 256). split; [done|]. intros E0.
    pose proof (length_new_memory fill 0 256 ltac:(lia)) as L. rewrite E0 in L. cbn in L. lia. }
  assert (Hin : data = if zlen data =? 0 then cstr data else take (Z.to_nat (zlen data)) data).
  { destruct (Z.eqb_spec (zlen data) 0) as [E0|_]; [by destruct data; [|cbn in E0; lia]|]. by rewrite Nat2Z.id, take_ge. }
  destruct (print_buffer_ok fill _ [] false 0 data (zlen data) data Hin E) as (p' & -> & (tl & Eb) & _); [done|].
  cbn [mbind ub_bind]. eexists. split; [reflexivity|]. rewrite Eb. cbn [app].
  apply cstr_terminated. by apply quoted_text_nz.
Qed.

(** Trees with the same text. *)
Definition same_text (x y : cJSON) : Prop := forall d, render false d x = render false d y.

Lemma members_last_text r fmt d ms k x y : r x = r y ->
  render_members r fmt d (ms ++ [(k, x)]) = render_members r fmt d (ms ++ [(k, y)]).
Proof.
  intros E. induction ms as [|[k' v] ms IH]; cbn [app render_members]; [by rewrite E|].
  fold (render_members r fmt d). rewrite IH. by destruct ms.
Qed.

Lemma object_last_text ms k x y : same_text x y -> same_text (cJSON_Object (ms ++ [(k, x)])) (cJSON_Object (ms ++ [(k, y)])).
Proof. intros E d. cbn [render]. by rewrite (members_last_text (render false (S d)) false (S d) ms k x y (E (S d))). Qed.

Lemma raw_text b : same_text (cJSON_Raw b) (cJSON_Raw (cstr b)).
Proof. intros d. cbn [render]. by rewrite cstr_idem. Qed.

(** Objects whose strings are bytes. *)
Lemma object_tree ms : Forall (fun m => is_bytes (fst m) /\ byte_tree (snd m)) ms -> byte_tree (cJSON_Object ms).
Proof. intros F. apply bt_object; intros k v Hk; apply (proj1 (Forall_forall _ _) F _ Hk). Qed.

Lemma str_tree s : byte_tree (str_json s).
Proof. apply bt_string, cstr_keeps_bytes, bytes_of_bytes. Qed.

Lemma evt_json_tree p uid body : 0 <= uid -> byte_tree body -> byte_tree (evt_json p uid body).
Proof.
  intros Hu Hb. apply object_tree. repeat (constructor; [split; [apply bytes_of_bytes|]|]); [apply str_tree..| |done|constructor].
  cbn [snd]. destruct (uid =? 0); [apply str_tree|]. by apply bt_string, cstr_keeps_bytes, decimal_bytes.
Qed.

Lemma tag_members_tree tags : Forall (fun m => is_bytes (fst m) /\ byte_tree (snd m)) (members (tag_entries tags)).
Proof.
  induction tags as [|t tags IH]; [constructor|]. constructor; [|exact IH]. split; [apply bytes_of_bytes|apply str_tree].
Qed.

Lemma event_object_tree t src p y tags d j : byte_tree d -> event_object t src p y tags d = Some j -> byte_tree j.
Proof.
  intros Hd. unfold event_object. destruct (valToStr watchTypeMap y) as [st|]; [|done]. destruct (EvtFormat.cmd p) as [c|]; [|done].
  intros [= <-]. apply object_tree. repeat (constructor; [split; [apply bytes_of_bytes|first [apply str_tree|constructor]]|]).
  apply Forall_app. split; [apply tag_members_tree|]. constructor; [split; [apply bytes_of_bytes|done]|constructor].
Qed.


(** ** The code sends the messages of the reference *)

(** Everything succeeds: memory and memory streams. *)
Definition quiet (e : env_t) : Prop := al e = [] /\ pals e = [] /\ fwrites e = [].

Lemma set_al_nil e : al e = [] -> set_al e [] = e.
Proof. destruct e. cbn. by intros ->. Qed.
Lemma set_pals_nil e : pals e = [] -> set_pals e [] = e.
Proof. destruct e. cbn. by intros ->. Qed.
Lemma set_fwrites_nil e : fwrites e = [] -> set_fwrites e [] = e.
Proof. destruct e. cbn. by intros ->. Qed.

Lemma kbind_ret {A B} (m : K A) (f : A -> K B) c e c' e' a : m c e ≡m Sys.ret (a, c', e') -> kbind m f c e ≡m f a c' e'.
Proof. intros E. split. intros w. unfold kbind, Sys.bind. by rewrite (same_at E). Qed.

Lemma printer_al_quiet c e : quiet e -> printer_al c e ≡m Sys.ret ([], c, e).
Proof.
  intros (_ & Hp & _). split. intros w. unfold printer_al, kbind, env, put_env, kret, Sys.bind, Sys.ret. cbn. by rewrite Hp, set_pals_nil.
Qed.

Lemma with_al_quiet {A} (f : list bool -> A * list bool) a c e : quiet e -> f [] = (a, []) -> with_al f c e ≡m Sys.ret (a, c, e).
Proof. intros (Ha & _) E. split. intros w. unfold with_al. by rewrite Ha, E, set_al_nil. Qed.

Lemma of_ub_def {A} (a : A) c e : of_ub (Def a) c e ≡m Sys.ret (a, c, e).
Proof. done. Qed.

Lemma create_evt_exact p uid body :
  create_evt_json [] (mkUpload UPLD_EVT (Some body) None uid (Some p)) = (Some (evt_json p uid body), []).
Proof. unfold create_evt_json, evt_json. cbn [u_body u_proc u_uid]. by destruct (uid =? 0). Qed.

Lemma prep_message_quiet p uid body c e : quiet e -> 0 <= uid -> byte_tree body ->
  fits (zlen (render false 0 (evt_json p uid body))) ->
  prep_message fill (mkUpload UPLD_EVT (Some body) None uid (Some p)) c e
  ≡m Sys.ret (Some (render false 0 (evt_json p uid body) ++ [10]), c, e).
Proof.
  intros Q Hu Hb N. unfold prep_message. rewrite (kbind_ret printer_al _ _ _ _ _ _ (printer_al_quiet c e Q)).
  rewrite (kbind_ret (env al) _ c e c e []) by (unfold env; by rewrite (proj1 Q)).
  assert (E : prepMessage fill [] [] (mkUpload UPLD_EVT (Some body) None uid (Some p))
              = Def (Some (render false 0 (evt_json p uid body) ++ [10]), [])).
  { unfold prepMessage, ctlCreateTxMsg. cbn [u_type]. rewrite create_evt_exact. cbn [mbind ub_bind].
    assert (byte_tree (evt_json p uid body)) by by apply evt_json_tree.
    rewrite print_small by done. cbn [mbind ub_bind option_map]. rewrite cstr_terminated by by apply render_nz. done. }
  rewrite E. split. intros w. unfold kbind, of_ub, kret, put_env, Sys.bind, Sys.ret. cbn. by rewrite set_al_nil by apply Q.
Qed.

(** A stream buffer that holds the open chunk. *)
Definition slot_of (b : streambuf_t) (o : option chunk) : Prop :=
  match o with
  | None => stream b = None
  | Some ch => stream b = Some (ch_data ch) /\ tot_size b = zlen (ch_data ch) /\ sb_id b = Some (ch_id ch)
  end.

Lemma text_of_cstr b data : is_bytes data -> cstr b = quoted_text data -> text_of b = text_of (quoted_text data).
Proof. intros B E. unfold text_of. by rewrite <- E, cstr_idem. Qed.

Definition sent_slot (c : ctl_t) (fd : Z) (b : streambuf_t) : ctl_t :=
  set_log c (log_ringbuf c) (set_at (streamAgg c) fd (mkStreambuf None (tot_size b) (sb_id b))).

(** The tree of a chunk, up to its text. *)
Definition body_tree (v : option evt_fmt_t) (ch : chunk) (j : option cJSON) : Prop :=
  match chunk_body v ch with
  | None => j = None
  | Some y => exists x, j = Some x /\ same_text x y /\ byte_tree x
  end.

Lemma event_object_text t src p y tags d d' : same_text d d' ->
  match event_object t src p y tags d, event_object t src p y tags d' with
  | Some x, Some x' => same_text x x'
  | None, None => True
  | _, _ => False
  end.
Proof.
  intros E. unfold event_object. destruct (valToStr watchTypeMap y) as [st|]; [|done]. destruct (EvtFormat.cmd p) as [cm|]; [|done].
  rewrite !(app_assoc _ (members (tag_entries tags))). by apply object_last_text.
Qed.

(** What is done with the string that was made of the data. *)
Definition finish_log (c : ctl_t) (ch : chunk) (r : list Z) : K (option cJSON) :=
  let i := ch_id ch in
  if match l_valuefilter i with Some re => negb (re (text_of r)) | None => false end then kret None else
  with_al (fun l => fmtEventJson l (evt c)
    (mkEventFormat (l_timestamp i) (l_path i) (Some (l_proc i)) (l_uid i) (cJSON_Object [(bytes_of "message", cJSON_Raw r)]) (l_sourcetype i))).

Lemma createLogEventJson_string fd c e b ch : quiet e -> Cfg.at_ closed (streamAgg c) fd = b -> slot_of b (Some ch) ->
  is_bytes (ch_data ch) -> fits (zlen (quoted_text (ch_data ch))) ->
  exists r, cstr r = quoted_text (ch_data ch) /\ createLogEventJson fill fd c e ≡m finish_log c ch r (sent_slot c fd b) e.
Proof.
  intros Q Eb (Es & Et & Ei) B N. destruct (string_from_buffer (ch_data ch) B N) as (r & Er & Ec). exists r. split; [done|].
  unfold createLogEventJson.
  rewrite (kbind_ret (agg fd) _ c e c e b) by (unfold agg, ctl; by rewrite Eb). rewrite Es, Ei.
  rewrite (kbind_ret (set_agg fd _) _ c e (sent_slot c fd b) e tt) by (unfold sent_slot; by rewrite Ei).
  rewrite (kbind_ret _ _ _ _ _ _ _ (with_al_quiet cJSON_CreateObject (Some (cJSON_Object [])) (sent_slot c fd b) e Q eq_refl)).
  rewrite (kbind_ret printer_al _ _ _ _ _ _ (printer_al_quiet _ e Q)).
  rewrite (kbind_ret (env al) _ _ e (sent_slot c fd b) e []) by (unfold env; by rewrite (proj1 Q)).
  rewrite Er, (kbind_ret (of_ub _) _ _ _ _ _ _ (of_ub_def _ _ _)). cbn [fst snd].
  rewrite (kbind_ret (put_env _) _ _ e (sent_slot c fd b) e tt) by (unfold put_env; by rewrite set_al_nil by apply Q).
  unfold finish_log. destruct (l_valuefilter (ch_id ch)) as [re|]; [destruct (negb (re _)); [done|]|];
    (rewrite (kbind_ret (ctl evt) _ _ _ (sent_slot c fd b) e (evt c)) by done); done.
Qed.

Lemma createLogEventJson_quiet fd c e b ch : quiet e -> Cfg.at_ closed (streamAgg c) fd = b -> slot_of b (Some ch) ->
  is_bytes (ch_data ch) -> fits (zlen (quoted_text (ch_data ch))) ->
  exists j, createLogEventJson fill fd c e ≡m Sys.ret (j, sent_slot c fd b, e) /\ body_tree (evt c) ch j.
Proof.
  intros Q Eb Sl B N. destruct (createLogEventJson_string fd c e b ch Q Eb Sl B N) as (r & Er & Ec).
  setoid_rewrite Ec. unfold finish_log, body_tree, chunk_body. rewrite (text_of_cstr r (ch_data ch)) by done.
  set (root := cJSON_Object [(bytes_of "message", cJSON_Raw r)]).
  assert (same_text root (chunk_data ch)) as Hr by (unfold root, chunk_data; rewrite <- Er; apply (object_last_text []), raw_text).
  assert (byte_tree root) as Ht by (apply object_tree; constructor; [split; [apply bytes_of_bytes|apply bt_raw]|constructor]).
  destruct (match l_valuefilter (ch_id ch) with Some re => _ | None => false end); [by exists None|].
  destruct (l_path (ch_id ch)) as [path|].
  - pose proof (event_object_text (l_timestamp (ch_id ch)) path (l_proc (ch_id ch)) (l_sourcetype (ch_id ch))
      (default [] (evt c ≫= etags)) root (chunk_data ch) Hr) as Ht'.
    eexists. split; [apply with_al_quiet; [done|]; apply fmtEventJson_exact|].
    destruct (event_object _ _ _ _ _ root) as [x|] eqn:Ex, (event_object _ _ _ _ _ (chunk_data ch)) as [y|]; try done.
    exists x. split; [done|]. split; [done|]. by eapply event_object_tree.
  - exists None. split; [|done]. apply with_al_quiet; [done|].
    unfold fmtEventJson. cbn [ev_proc sourcetype timestamp ev_src ev_data]. by destruct (valToStr watchTypeMap _).
Qed.

(** Messages at most one, sent. *)
Lemma send_all_one t m : send_all t [m] ≡m Sys.bind (Transport.transportSend t (Some m)) (fun r => Sys.ret r.2).
Proof. done. Qed.

Lemma sends_ctl m c e : sends CFG_CTL m c e ≡m
  Sys.bind (Transport.transportSend (transport c) (Some m)) (fun r => Sys.ret (r.1, set_transport c r.2, e)).
Proof.
  unfold sends. rewrite decide_False by done. split. intros w. unfold kbind, ctl, lift, put_ctl, kret, Sys.bind, Sys.ret. cbn.
  by destruct (Transport.transportSend (transport c) (Some m) w) as [[r w']|].
Qed.

(** A chunk is closed and its message sent. *)
Lemma sendAggregated_quiet fd c e b ch : quiet e -> Cfg.at_ closed (streamAgg c) fd = b -> slot_of b (Some ch) ->
  sendable (evt c) ch ->
  sendAggregatedLogData fill fd c e ≡m
  Sys.bind (send_all (transport c) (option_list (chunk_message (evt c) ch)))
    (fun t => Sys.ret (tt, set_transport (sent_slot c fd b) t, e)).
Proof.
  intros Q Eb Sl (Hu & B & N & Nj). unfold sendAggregatedLogData.
  rewrite (kbind_ret (agg fd) _ c e c e b) by (unfold agg, ctl; by rewrite Eb).
  destruct (createLogEventJson_quiet fd c e b ch Q Eb Sl B N) as (j & Ej & Hj).
  rewrite (kbind_ret _ _ _ _ _ _ _ Ej). destruct Sl as (Es & Et & Ei). rewrite Ei.
  unfold body_tree in Hj. unfold chunk_message, chunk_json in *. destruct (chunk_body (evt c) ch) as [y|].
  - destruct Hj as (x & -> & Hx & Ht). cbn [fmap option_fmap option_map option_list] in *.
    assert (Er : render false 0 (evt_json (l_proc (ch_id ch)) (l_uid (ch_id ch)) x)
               = render false 0 (evt_json (l_proc (ch_id ch)) (l_uid (ch_id ch)) y)).
    { unfold evt_json.
      apply (object_last_text [(bytes_of "type", str_json "evt"); (bytes_of "id", str_json (proc_id (l_proc (ch_id ch))));
        (bytes_of "_channel", if l_uid (ch_id ch) =? 0 then str_json "none" else cJSON_String (cstr (decimal (l_uid (ch_id ch)))))]
        (bytes_of "body") x y Hx 0%nat). }
    rewrite (kbind_ret _ _ _ _ _ _ _ (prep_message_quiet (l_proc (ch_id ch)) (l_uid (ch_id ch)) x (sent_slot c fd b) e Q Hu Ht
      ltac:(rewrite Er; by apply Nj))).
    rewrite Er. unfold kbind. rewrite sends_ctl. change (transport (sent_slot c fd b)) with (transport c).
    match goal with |- context [option_list (Some ?m)] => change (option_list (Some m)) with [m] end. rewrite send_all_one. split. intros w. unfold kret, Sys.bind, Sys.ret.
    by destruct (Transport.transportSend (transport c) _ w) as [[r w']|].
  - rewrite Hj. split. intros w. unfold kret, Sys.bind, Sys.ret. cbn. by destruct c.
Qed.

(** The object with its log queue, stream buffers and transport. *)
Definition st (c : ctl_t) (q : option CircBuf.cbuf_t) (sa : list streambuf_t) (t : option Transport.transport_t) : ctl_t :=
  set_transport (set_log c q sa) t.

Record slots (sa : list streambuf_t) (open : Z -> option chunk) : Prop := {
  slots_len : zlen sa = FS_ENTRIES;
  slots_at : forall fd, 0 <= fd < FS_ENTRIES -> slot_of (Cfg.at_ closed sa fd) (open fd);
}.

Lemma at_set sa fd b fd' : 0 <= fd < zlen sa -> 0 <= fd' ->
  Cfg.at_ closed (set_at sa fd b) fd' = if decide (fd' = fd) then b else Cfg.at_ closed sa fd'.
Proof.
  intros Hf Hf'. unfold Cfg.at_, set_at. case_decide as E; [subst; by rewrite list_lookup_insert_eq by lia|].
  by rewrite list_lookup_insert_ne by lia.
Qed.

Lemma slots_set sa open fd b o : slots sa open -> 0 <= fd < FS_ENTRIES -> slot_of b o ->
  slots (set_at sa fd b) (fun x => if decide (x = fd) then o else open x).
Proof.
  intros [L S] Hf Hb. split; [unfold set_at; by rewrite length_insert|].
  intros x Hx. rewrite at_set by lia. case_decide; [done|by apply S].
Qed.

Lemma slots_ext sa open open' : slots sa open -> (forall fd, 0 <= fd < FS_ENTRIES -> open fd = open' fd) -> slots sa open'.
Proof. intros [L S] E. split; [done|]. intros fd Hf. rewrite <- E by done. by apply S. Qed.

(** The event's data goes to the open chunk or to a new one. *)
Definition append_event (ev : log_event_t) : K unit :=
  let fd := le_fd ev in
  kbind (agg fd) (fun b => kbind match stream b with
     | Some _ => kret tt
     | None => kbind kalloc (fun ok : bool =>
               set_agg fd (if ok then mkStreambuf (Some []) 0 (Some (le_id ev)) else mkStreambuf None 0 (sb_id b)))
     end (fun _ => kbind (agg fd) (fun b =>
  match stream b with
  | Some buf => kbind (fwrite (le_data ev)) (fun written =>
      set_agg fd (mkStreambuf (Some (buf ++ written)) (u64 (tot_size b + zlen written)) (sb_id b)))
  | None => kret tt
  end))).

Lemma fwrite_quiet data c e : quiet e -> fwrite data c e ≡m Sys.ret (data, c, e).
Proof.
  intros (_ & _ & Hf). split. intros w. unfold fwrite, kbind, env, put_env, kret, Sys.bind, Sys.ret. cbn.
  by rewrite Hf, Nat2Z.id, take_ge, set_fwrites_nil.
Qed.

Lemma append_quiet c q sa e ev open : quiet e -> slots sa open -> in_range ev = true ->
  (forall ch, open (le_fd ev) = Some ch -> zlen (ch_data ch) + zlen (le_data ev) < 2 ^ 64) -> zlen (le_data ev) < 2 ^ 64 ->
  let base := default (mkChunk (le_id ev) []) (open (le_fd ev)) in
  exists sa', (forall t, append_event ev (st c q sa t) e ≡m Sys.ret (tt, st c q sa' t, e)) /\
    slots sa' (fun fd => if decide (fd = le_fd ev) then Some (mkChunk (ch_id base) (ch_data base ++ le_data ev)) else open fd).
Proof.
  intros Q S Hr Hb Hd base. assert (Hf : 0 <= le_fd ev < FS_ENTRIES) by (unfold in_range in Hr; lia).
  pose proof (slots_len _ _ S) as L. pose proof (slots_at _ _ S _ Hf) as Hs. set (b := Cfg.at_ closed sa (le_fd ev)) in *.
  (* the open buffer *)
  assert (exists sa1 b1, slots sa1 (fun fd => if decide (fd = le_fd ev) then Some base else open fd) /\
    b1 = Cfg.at_ closed sa1 (le_fd ev) /\
    forall t, kbind (agg (le_fd ev)) (fun b => match stream b with
     | Some _ => kret tt
     | None => kbind kalloc (fun ok : bool =>
               set_agg (le_fd ev) (if ok then mkStreambuf (Some []) 0 (Some (le_id ev)) else mkStreambuf None 0 (sb_id b)))
     end) (st c q sa t) e ≡m Sys.ret (tt, st c q sa1 t, e)) as (sa1 & b1 & S1 & Eb1 & E1).
  { assert (Ea : forall t, agg (le_fd ev) (st c q sa t) e ≡m Sys.ret (b, st c q sa t, e)) by done.
    subst base. destruct (open (le_fd ev)) as [ch|] eqn:Eo.
    - destruct Hs as (Hst & _). exists sa, b. split; [|split; [done|]].
      + eapply slots_ext; [exact S|]. intros fd ?. by case_decide; subst.
      + intros t. rewrite (kbind_ret _ _ _ _ _ _ _ (Ea t)). by rewrite Hst.
    - cbn [slot_of] in Hs. exists (set_at sa (le_fd ev) (mkStreambuf (Some []) 0 (Some (le_id ev)))). eexists. split; [|split; [reflexivity|]].
      2:{ intros t. rewrite (kbind_ret _ _ _ _ _ _ _ (Ea t)), Hs.
          rewrite (kbind_ret kalloc _ _ e (st c q sa t) e true) by (by apply with_al_quiet). reflexivity. }
      by apply (slots_set sa open). }
  pose proof (slots_len _ _ S1) as L1. pose proof (slots_at _ _ S1 _ Hf) as Hs1. cbn beta in Hs1. rewrite decide_True in Hs1 by done.
  rewrite <- Eb1 in Hs1. destruct Hs1 as (T1 & T2 & T3).
  exists (set_at sa1 (le_fd ev) (mkStreambuf (Some (ch_data base ++ le_data ev)) (u64 (tot_size b1 + zlen (le_data ev))) (sb_id b1))). split.
  - intros t. transitivity (kbind (kbind (agg (le_fd ev)) (fun b => match stream b with
     | Some _ => kret tt
     | None => kbind kalloc (fun ok : bool =>
               set_agg (le_fd ev) (if ok then mkStreambuf (Some []) 0 (Some (le_id ev)) else mkStreambuf None 0 (sb_id b)))
     end)) (fun _ => kbind (agg (le_fd ev)) (fun b =>
      match stream b with
      | Some buf => kbind (fwrite (le_data ev)) (fun written =>
          set_agg (le_fd ev) (mkStreambuf (Some (buf ++ written)) (u64 (tot_size b + zlen written)) (sb_id b)))
      | None => kret tt
      end)) (st c q sa t) e).
    { unfold append_event, kbind. by rewrite bind_assoc. }
    rewrite (kbind_ret _ _ _ _ _ _ _ (E1 t)).
    rewrite (kbind_ret (agg (le_fd ev)) _ _ e (st c q sa1 t) e b1) by (by rewrite Eb1). rewrite T1.
    rewrite (kbind_ret _ _ _ _ _ _ _ (fwrite_quiet (le_data ev) (st c q sa1 t) e Q)). reflexivity.
  - cbn [streamAgg st set_transport set_log]. eapply slots_ext.
    + apply (slots_set sa1 (fun fd => if decide (fd = le_fd ev) then Some base else open fd) (le_fd ev) _ (Some (mkChunk (ch_id base) (ch_data base ++ le_data ev)))); [exact S1|done|].
      split; [done|]. cbn [ch_data ch_id tot_size sb_id]. rewrite T2, length_app, T3. split; [|done].
      rewrite u64_small; [lia|]. subst base. destruct (open (le_fd ev)) as [ch|].
      * specialize (Hb ch eq_refl). change (default (mkChunk (le_id ev) []) (Some ch)) with ch. lia.
      * cbn. lia.
    + intros fd ?. cbn beta. by case_decide.
Qed.

(** The test whether the event's data still fits the open chunk. *)
Definition must_send (max : Z) (b : streambuf_t) (ev : log_event_t) : bool :=
  match stream b, sb_id b with
  | Some _, Some i => negb (l_uid i =? l_uid (le_id ev)) || (max <? u64 (tot_size b + zlen (le_data ev)))
  | _, _ => false
  end.

Lemma aggregate_unfold ev c e : in_range ev = true ->
  aggregate fill ev c e ≡m kbind (if must_send (max_agg_bytes c) (Cfg.at_ closed (streamAgg c) (le_fd ev)) ev
    then sendAggregatedLogData fill (le_fd ev) else kret tt) (fun _ => append_event ev) c e.
Proof. intros Hr. unfold aggregate. fold (in_range ev). rewrite Hr. reflexivity. Qed.

Definition room (open : Z -> option chunk) (n : Z) : Prop :=
  n < 2 ^ 64 /\ forall fd ch, open fd = Some ch -> zlen (ch_data ch) + n < 2 ^ 64.

Lemma must_send_full max b open ev : slot_of b (open (le_fd ev)) -> room open (zlen (le_data ev)) ->
  must_send max b ev = match open (le_fd ev) with Some ch => full max ch ev | None => false end.
Proof.
  unfold must_send, room. intros Hs [_ Hr]. destruct (open (le_fd ev)) as [ch|] eqn:E; cbn [slot_of] in Hs.
  - destruct Hs as (-> & -> & ->). unfold full. rewrite u64_small; [done|]. specialize (Hr _ _ E). lia.
  - by rewrite Hs.
Qed.

Lemma aggregate_quiet c q sa e ev open : quiet e -> slots sa open -> room open (zlen (le_data ev)) ->
  (forall ch, (agg_step (max_agg_bytes c) open ev).1 = Some ch -> sendable (evt c) ch) ->
  exists sa', slots sa' (agg_step (max_agg_bytes c) open ev).2 /\
    forall t, aggregate fill ev (st c q sa t) e ≡m
    Sys.bind (send_all t (option_list ((agg_step (max_agg_bytes c) open ev).1 ≫= chunk_message (evt c))))
      (fun t => Sys.ret (tt, st c q sa' t, e)).
Proof.
  intros Q S [Hn R] Hs. unfold agg_step in *. destruct (in_range ev) eqn:Hr; cbn [negb fst snd] in *.
  2:{ exists sa. split; [done|]. intros t. unfold aggregate. fold (in_range ev). by rewrite Hr. }
  assert (Hf : 0 <= le_fd ev < FS_ENTRIES) by (unfold in_range in Hr; lia).
  pose proof (slots_at _ _ S _ Hf) as Hsl. set (b := Cfg.at_ closed sa (le_fd ev)) in *.
  pose proof (must_send_full (max_agg_bytes c) b open ev Hsl (conj Hn R)) as Em.
  assert (Eu : forall t, aggregate fill ev (st c q sa t) e ≡m kbind (if match open (le_fd ev) with Some ch => full (max_agg_bytes c) ch ev | None => false end
    then sendAggregatedLogData fill (le_fd ev) else kret tt) (fun _ => append_event ev) (st c q sa t) e).
  { intros t. rewrite aggregate_unfold by done. cbn [streamAgg max_agg_bytes st set_transport set_log]. fold b. by rewrite Em. }
  destruct (open (le_fd ev)) as [ch|] eqn:Eo; [destruct (full (max_agg_bytes c) ch ev) eqn:Ef|].
  - (* the open chunk is sent first *)
    set (b' := mkStreambuf None (tot_size b) (sb_id b)). set (open' := fun x => if decide (x = le_fd ev) then None else open x).
    assert (S' : slots (set_at sa (le_fd ev) b') open') by (by apply (slots_set sa open)).
    assert (Ho' : open' (le_fd ev) = None) by (subst open'; cbn; by rewrite decide_True).
    assert (Hb' : forall ch0, open' (le_fd ev) = Some ch0 -> zlen (ch_data ch0) + zlen (le_data ev) < 2 ^ 64) by (intros ch0; by rewrite Ho').
    destruct (append_quiet c q (set_at sa (le_fd ev) b') e ev open' Q S' Hr Hb' Hn) as (sa' & Ea & Sa').
    rewrite Ho' in Sa'. exists sa'. split.
    { eapply slots_ext; [exact Sa'|]. intros fd _. cbn beta. subst open'. cbn beta. by case_decide. }
    intros t. rewrite Eu. unfold kbind at 1.
    rewrite (sendAggregated_quiet (le_fd ev) (st c q sa t) e b ch Q eq_refl Hsl (Hs ch eq_refl)).
    rewrite bind_assoc. apply bind_proper; [done|]. intros t'. rewrite bind_ret. cbn [fst snd]. apply (Ea t').
  - destruct (append_quiet c q sa e ev open Q S Hr) as (sa' & Ea & Sa'); [intros ch' E'; by apply (R _ _ E')|done|].
    rewrite Eo in Sa'. exists sa'. split; [exact Sa'|]. intros t. rewrite Eu. apply (Ea t).
  - destruct (append_quiet c q sa e ev open Q S Hr) as (sa' & Ea & Sa'); [intros ch' E'; by apply (R _ _ E')|done|].
    rewrite Eo in Sa'. exists sa'. split; [exact Sa'|]. intros t. rewrite Eu. apply (Ea t).
Qed.

(** ** The queue *)

(** The pointers in the queue and what they point to; NULL where an event could
    not be allocated. *)
Definition queued (h : gmap Z log_event_t) (ps : list Z) (os : list (option log_event_t)) : Prop :=
  Forall2 (fun p o => match o with Some ev => p <> 0 /\ h !! p = Some ev | None => p = 0 end) ps os /\
  NoDup (List.filter (fun p => negb (p =? 0)) ps).

Definition events_of (os : list (option log_event_t)) : list log_event_t := omap (fun o => o) os.

Definition total (evs : list log_event_t) : Z := foldr (fun ev n => zlen (le_data ev) + n) 0 evs.

Definition free_all (ps : list Z) (e : env_t) : env_t :=
  set_log_heap e (foldl (fun h p => delete p h) (log_heap e) (List.filter (fun p => negb (p =? 0)) ps)) (next_ptr e).

Lemma total_nonneg evs : 0 <= total evs.
Proof. induction evs as [|ev evs IH]; [done|]. unfold total in *. cbn [foldr]. lia. Qed.

Lemma room_step max open ev evs : room open (total (ev :: evs)) -> room (agg_step max open ev).2 (total evs).
Proof.
  unfold room. cbn [total foldr]. fold (total evs). pose proof (total_nonneg evs). intros [Hn R]. split; [lia|].
  unfold agg_step. destruct (in_range ev); cbn [negb snd]; [|intros fd ch E; specialize (R _ _ E); lia].
  intros fd ch. case_decide; [|intros E; specialize (R _ _ E); lia].
  intros [= <-]. cbn [ch_data]. rewrite length_app.
  destruct (open (le_fd ev)) as [ch'|] eqn:E; [destruct (full max ch' ev)|]; cbn [ch_data length];
    try (specialize (R _ _ E)); lia.
Qed.

Lemma room_less open a b : 0 <= b <= a -> room open a -> room open b.
Proof. intros Hb [Hn R]. split; [lia|]. intros fd ch E. specialize (R _ _ E). lia. Qed.

Lemma kget_ring q p ps : CircBuf.rep q (p :: ps) ->
  exists q', CircBuf.rep q' ps /\ forall c sa t e,
    kget log_ringbuf set_ringbuf (st c (Some q) sa t) e ≡m Sys.ret (Some p, st c (Some q') sa t, e).
Proof.
  intros R. destruct (CircBuf.get_ok _ _ R p ps eq_refl) as (q' & E & R' & M). exists q'. split; [done|]. intros c sa t e.
  split. intros w. unfold kget, kbind, ctl, put_ctl, kret, Sys.bind, Sys.ret. cbn [log_ringbuf st set_transport set_log fst snd].
  by rewrite E.
Qed.

Lemma kget_ring_empty q c sa t e : CircBuf.rep q [] ->
  kget log_ringbuf set_ringbuf (st c (Some q) sa t) e ≡m Sys.ret (None, st c (Some q) sa t, e).
Proof.
  intros R. split. intros w. unfold kget, kbind, ctl, put_ctl, kret, Sys.bind, Sys.ret. cbn [log_ringbuf st set_transport set_log fst snd].
  by rewrite (CircBuf.get_empty _ _ R eq_refl).
Qed.

Lemma queued_tail h p ps o os : queued h (p :: ps) (o :: os) -> queued h ps os.
Proof.
  intros [F N]. inversion F; subst. split; [done|]. cbn in N. destruct (p =? 0); cbn in N; [done|]. by inversion N.
Qed.

Lemma queued_delete h p ps ev os : queued h (p :: ps) (Some ev :: os) -> queued (delete p h) ps os.
Proof.
  intros [F N]. apply Forall2_cons in F as [[Hp _] F']. cbn [List.filter] in N.
  destruct (Z.eqb_spec p 0); [done|]. cbn [negb] in N. apply NoDup_cons in N as [Hn N']. split; [|done].
  clear -F' Hn. induction F' as [|p' o ps os Ho F IH]; constructor.
  - destruct o as [ev'|]; [|done]. destruct Ho as [Hp' Hl]. split; [done|]. rewrite lookup_delete_ne; [done|].
    intros ->. apply Hn. cbn. destruct (Z.eqb_spec p' 0); [done|]. cbn. by left.
  - apply IH. intros Hin. apply Hn. cbn. destruct (p' =? 0); cbn; [done|by right].
Qed.

Definition messages (v : option evt_fmt_t) (out : list (Z * chunk)) : list (list Z) := omap (fun x => chunk_message v x.2) out.

Lemma agg_run_cons max open ev evs : agg_run max open (ev :: evs) =
  (match (agg_step max open ev).1 with Some ch => [(le_fd ev, ch)] | None => [] end ++ (agg_run max (agg_step max open ev).2 evs).1,
   (agg_run max (agg_step max open ev).2 evs).2).
Proof.
  cbn [agg_run]. destruct (agg_step max open ev) as [d op]. cbn [fst snd].
  destruct (agg_run max op evs) as [out op']. by destruct d.
Qed.

Lemma flush_quiet c : forall ps os q sa e open fuel,
  quiet e -> slots sa open -> CircBuf.rep q ps -> queued (log_heap e) ps os -> (length ps < fuel)%nat ->
  room open (total (events_of os)) ->
  Forall (fun x => sendable (evt c) x.2) (agg_run (max_agg_bytes c) open (events_of os)).1 ->
  exists q' sa', CircBuf.rep q' [] /\ slots sa' (agg_run (max_agg_bytes c) open (events_of os)).2 /\
    forall t, flush_log fill fuel (st c (Some q) sa t) e ≡m
      Sys.bind (send_all t (messages (evt c) (agg_run (max_agg_bytes c) open (events_of os)).1))
        (fun t => Sys.ret (tt, st c (Some q') sa' t, free_all ps e)).
Proof.
  induction ps as [|p ps IH]; intros os q sa e open [|fuel] Q S R Hq Hl Hr Hs; try (cbn in Hl; lia).
  - destruct Hq as [F _]. inversion F; subst. exists q, sa. split; [done|]. split; [done|]. intros t. cbn [flush_log].
    rewrite (kbind_ret _ _ _ _ _ _ _ (kget_ring_empty q c sa t e R)). split. intros w. by destruct e.
  - destruct os as [|o os]; [destruct Hq as [F _]; inversion F|].
    destruct (kget_ring q p ps R) as (q1 & R1 & G). cbn [length] in Hl. cbn [flush_log].
    destruct o as [ev|].
    + pose proof Hq as [F _]. apply Forall2_cons in F as [[Hp Hh] _]. change (events_of (Some ev :: os)) with (ev :: events_of os) in *.
      rewrite agg_run_cons in Hs |- *. cbn [fst snd] in Hs |- *. apply Forall_app in Hs as [Hs1 Hs2].
      set (stp := agg_step (max_agg_bytes c) open ev) in *. pose proof (total_nonneg (events_of os)).
      destruct (aggregate_quiet c (Some q1) sa e ev open Q S) as (sa1 & S1 & E1).
      { eapply room_less; [|exact Hr]. cbn [total foldr]. fold (total (events_of os)). lia. }
      { fold stp. intros ch Ec. rewrite Ec in Hs1. by inversion Hs1. }
      fold stp in S1, E1. set (e1 := set_log_heap e (delete p (log_heap e)) (next_ptr e)).
      destruct (IH os q1 sa1 e1 stp.2 fuel) as (q' & sa' & R' & S' & E').
      * done.
      * done.
      * done.
      * by eapply queued_delete.
      * lia.
      * by apply room_step.
      * done.
      * exists q', sa'. split; [done|]. split; [done|]. intros t.
        rewrite (kbind_ret _ _ _ _ _ _ _ (G c sa t e)). destruct (Z.eqb_spec p 0); [done|].
        rewrite (kbind_ret (env _) _ _ e (st c (Some q1) sa t) e (Some ev)) by (unfold env; by rewrite Hh).
        unfold kbind at 1. rewrite E1, bind_assoc.
        replace (messages (evt c) _) with (option_list (stp.1 ≫= chunk_message (evt c)) ++
          messages (evt c) (agg_run (max_agg_bytes c) stp.2 (events_of os)).1).
        2:{ unfold messages. rewrite omap_app. f_equal. destruct stp.1 as [ch|]; [|done]. cbn. by destruct (chunk_message (evt c) ch). }
        rewrite send_all_app, bind_assoc. apply bind_proper; [done|]. intros t1. rewrite bind_ret. cbn [fst snd].
        rewrite (kbind_ret (destroyInternalLogEvent p) _ _ e (st c (Some q1) sa1 t1) e1 tt) by done.
        rewrite (E' t1). apply bind_proper; [done|]. intros t2.
        assert (free_all (p :: ps) e = free_all ps e1) as ->; [|done].
        unfold free_all. cbn [List.filter]. destruct (Z.eqb_spec p 0); [done|]. done.
    + pose proof Hq as [F _]. apply Forall2_cons in F as [-> _].
      destruct (IH os q1 sa e open fuel) as (q' & sa' & R' & S' & E'); [done|done|done|by eapply queued_tail|lia|done|done|].
      exists q', sa'. split; [done|]. split; [done|]. intros t.
      rewrite (kbind_ret _ _ _ _ _ _ _ (G c sa t e)). exact (E' t).
Qed.

(** ** What the chunks hold *)

(** Consecutive events of one descriptor that are sent together. *)
Definition group : Type := log_event_t * list log_event_t.
Definition group_events (g : group) : list log_event_t := g.1 :: g.2.
Definition chunk_of (g : group) : chunk := mkChunk (le_id g.1) (concat (map le_data (group_events g))).

Fixpoint groups (max : Z) (g : group) (evs : list log_event_t) : list group :=
  match evs with
  | [] => [g]
  | ev :: evs => if full max (chunk_of g) ev then g :: groups max (ev, []) evs else groups max (g.1, g.2 ++ [ev]) evs
  end.
Definition groups_from (max : Z) (evs : list log_event_t) : list group :=
  match evs with [] => [] | ev :: evs => groups max (ev, []) evs end.

(** All of one file, and within the limit unless it is a single event. *)
Definition good (max : Z) (g : group) : Prop :=
  Forall (fun ev => l_uid (le_id ev) = l_uid (le_id g.1)) (group_events g) /\
  (zlen (ch_data (chunk_of g)) <= max \/ g.2 = []).

Lemma chunk_of_snoc g ev : chunk_of (g.1, g.2 ++ [ev]) = mkChunk (ch_id (chunk_of g)) (ch_data (chunk_of g) ++ le_data ev).
Proof.
  unfold chunk_of, group_events. cbn [fst snd ch_id ch_data map concat]. f_equal.
  rewrite map_app, concat_app. cbn. by rewrite app_nil_r, app_assoc.
Qed.

Lemma groups_concat max g evs : concat (map group_events (groups max g evs)) = group_events g ++ evs.
Proof.
  revert g. induction evs as [|ev evs IH]; intros g; cbn [groups]; [cbn; by rewrite !app_nil_r|].
  destruct (full max (chunk_of g) ev); [cbn; by rewrite IH|]. rewrite IH. unfold group_events. cbn. by rewrite <- app_assoc.
Qed.

Lemma groups_good max g evs : good max g -> Forall (good max) (groups max g evs).
Proof.
  revert g. induction evs as [|ev evs IH]; intros g Hg; cbn [groups]; [by constructor|].
  assert (good max (ev, [])) by (split; [by repeat constructor|by right]).
  destruct (full max (chunk_of g) ev) eqn:Ef; [constructor; [done|by apply IH]|]. apply IH.
  unfold full in Ef. apply orb_false_iff in Ef as [Eu En]. split.
  - destruct Hg as [Hu _]. unfold group_events in *. cbn [fst snd] in *. rewrite app_comm_cons. apply Forall_app. split; [done|].
    constructor; [|constructor]. cbn [ch_id chunk_of] in Eu. lia.
  - left. rewrite chunk_of_snoc. cbn [ch_data]. rewrite length_app. lia.
Qed.

Lemma groups_head max g evs : exists l rest, groups max g evs = (g.1, g.2 ++ l) :: rest.
Proof.
  revert g. induction evs as [|ev evs IH]; intros [a b]; cbn [groups fst snd].
  - exists [], []. by rewrite app_nil_r.
  - destruct (full max (chunk_of (a, b)) ev); [exists [], (groups max (ev, []) evs); by rewrite app_nil_r|].
    destruct (IH (a, b ++ [ev])) as (l & rest & ->). cbn [fst snd]. exists (ev :: l), rest. by rewrite <- app_assoc.
Qed.

(** A chunk ends only before an event that it cannot take. *)
Lemma groups_greedy max g evs pre a b rest : groups max g evs = pre ++ a :: b :: rest -> full max (chunk_of a) b.1 = true.
Proof.
  revert g pre. induction evs as [|ev evs IH]; intros g pre; cbn [groups].
  - destruct pre as [|x [|y pre]]; cbn; congruence.
  - destruct (full max (chunk_of g) ev) eqn:Ef; [|apply IH].
    destruct pre as [|x pre]; cbn; [|intros [= _ E]; by eapply IH].
    intros [= <- E]. destruct (groups_head max (ev, []) evs) as (l & r & E'). rewrite E in E'. by injection E' as -> _.
Qed.

Definition of_fd (fd : Z) (out : list (Z * chunk)) : list chunk := omap (fun x => if decide (x.1 = fd) then Some x.2 else None) out.
Definition fd_events (fd : Z) (evs : list log_event_t) : list log_event_t := List.filter (fun ev => le_fd ev =? fd) evs.

Lemma run_groups max fd : 0 <= fd < FS_ENTRIES -> forall evs open,
  let r := agg_run max open evs in
  (forall g, open fd = Some (chunk_of g) -> of_fd fd r.1 ++ option_list (r.2 fd) = map chunk_of (groups max g (fd_events fd evs))) /\
  (open fd = None -> of_fd fd r.1 ++ option_list (r.2 fd) = map chunk_of (groups_from max (fd_events fd evs))).
Proof.
  intros Hf evs. induction evs as [|ev evs IH]; intros open r; subst r.
  { cbn. split; [intros g ->|intros ->]; done. }
  rewrite agg_run_cons. cbn [fst snd]. specialize (IH (agg_step max open ev).2). cbv zeta in IH. destruct IH as [IHs IHn].
  unfold fd_events. cbn [List.filter]. fold (fd_events fd evs). unfold of_fd. rewrite omap_app, <- app_assoc. fold (of_fd fd).
  fold (of_fd fd (agg_run max (agg_step max open ev).2 evs).1).
  destruct (Z.eqb_spec (le_fd ev) fd) as [E|E].
  - (* an event of this descriptor *)
    assert (Hr : in_range ev = true) by (unfold in_range; lia).
    assert (Es : agg_step max open ev = (match open fd with Some ch => if full max ch ev then Some ch else None | None => None end,
       fun x => if decide (x = fd) then Some (match open fd with
         | Some ch => if full max ch ev then chunk_of (ev, []) else mkChunk (ch_id ch) (ch_data ch ++ le_data ev)
         | None => chunk_of (ev, []) end) else open x)).
    { unfold agg_step. rewrite Hr, E. cbn [negb]. f_equal. 
      assert (chunk_of (ev, []) = mkChunk (le_id ev) ([] ++ le_data ev)) as -> by (unfold chunk_of; cbn; by rewrite app_nil_r).
      destruct (open fd) as [ch|]; [|done]. by destruct (full max ch ev). }
    rewrite Es in *. cbn [fst snd] in *. rewrite decide_True in IHs, IHn by done. split.
    + intros g Eg. rewrite Eg in *. cbn [groups]. destruct (full max (chunk_of g) ev).
      * rewrite (IHs (ev, []) eq_refl). cbn. rewrite decide_True by done. done.
      * rewrite (IHs (g.1, g.2 ++ [ev])) by (by rewrite chunk_of_snoc). done.
    + intros En. rewrite En in *. rewrite (IHs (ev, []) eq_refl). done.
  - assert (Es : (agg_step max open ev).2 fd = open fd).
    { unfold agg_step. destruct (in_range ev); cbn [negb snd]; [|done]. by case_decide. }
    assert (Eo : omap (fun x : Z * chunk => if decide (x.1 = fd) then Some x.2 else None)
      match (agg_step max open ev).1 with Some ch => [(le_fd ev, ch)] | None => [] end = []).
    { destruct (agg_step max open ev).1 as [ch|]; [|done]. cbn. by rewrite decide_False. }
    rewrite Eo. cbn [app]. rewrite Es in *. split; [apply IHs|apply IHn].
Qed.

(** ** Reporting what is open *)

Definition open_chunks (fds : list Z) (open : Z -> option chunk) : list (Z * chunk) := omap (fun fd => pair fd <$> open fd) fds.

Lemma report_quiet c q e : forall fds sa open, quiet e -> slots sa open -> NoDup fds -> Forall (fun fd => 0 <= fd < FS_ENTRIES) fds ->
  Forall (fun x => sendable (evt c) x.2) (open_chunks fds open) ->
  exists sa', slots sa' (fun fd => if decide (fd ∈ fds) then None else open fd) /\
    forall t, report_all fill fds (st c q sa t) e ≡m
      Sys.bind (send_all t (messages (evt c) (open_chunks fds open))) (fun t => Sys.ret (tt, st c q sa' t, e)).
Proof.
  induction fds as [|fd fds IH]; intros sa open Q S N F Hs.
  { exists sa. split; [|done]. eapply slots_ext; [exact S|]. intros x _. by rewrite decide_False by apply not_elem_of_nil. }
  apply NoDup_cons in N as [Hn N]. apply Forall_cons in F as [Hf F].
  pose proof (slots_at _ _ S _ Hf) as Hsl. set (b := Cfg.at_ closed sa fd) in *. cbn [report_all].
  unfold open_chunks in Hs |- *. cbn [omap list_omap] in Hs |- *.
  destruct (open fd) as [ch|] eqn:Eo; cbn [fmap option_fmap option_map] in Hs |- *.
  - apply Forall_cons in Hs as [Hc Hs]. cbn [snd] in Hc. set (b' := mkStreambuf None (tot_size b) (sb_id b)).
    assert (S' : slots (set_at sa fd b') (fun x => if decide (x = fd) then None else open x)) by (by apply (slots_set sa open)).
    assert (Eq : open_chunks fds (fun x => if decide (x = fd) then None else open x) = open_chunks fds open).
    { unfold open_chunks. clear -Hn. induction fds as [|x fds IHf]; [done|]. cbn.
      rewrite decide_False by (intros ->; apply Hn; by left). rewrite IHf by (intros Hx; apply Hn; by right). done. }
    destruct (IH (set_at sa fd b') (fun x => if decide (x = fd) then None else open x) Q S' N F) as (sa' & Sa' & E'); [by rewrite Eq|].
    rewrite Eq in E'. exists sa'. split.
    { eapply slots_ext; [exact Sa'|]. intros x _. cbn beta. destruct (decide (x = fd)) as [->|].
      - rewrite (decide_True _ _ (list_elem_of_here fd fds)). by case_decide.
      - destruct (decide (x ∈ fds)); [rewrite decide_True by (by right)|rewrite decide_False by (by intros [?|?]%elem_of_cons)]; done. }
    intros t. rewrite (kbind_ret (agg fd) _ (st c q sa t) e (st c q sa t) e b) by done.
    destruct Hsl as (Hst & Ht & Hi). rewrite Hst. unfold kbind at 1.
    rewrite (sendAggregated_quiet fd (st c q sa t) e b ch Q eq_refl (conj Hst (conj Ht Hi)) Hc).
    rewrite bind_assoc. 
    replace (messages (evt c) _) with (option_list (chunk_message (evt c) ch) ++ messages (evt c) (open_chunks fds open)).
    2:{ unfold messages at 2. cbn [omap list_omap snd]. by destruct (chunk_message (evt c) ch). }
    rewrite send_all_app, bind_assoc. apply bind_proper; [done|]. intros t1. rewrite bind_ret. cbn [fst snd].
    exact (E' t1).
  - cbn [slot_of] in Hsl. destruct (IH sa open Q S N F Hs) as (sa' & Sa' & E'). exists sa'. split.
    { eapply slots_ext; [exact Sa'|]. intros x _. cbn beta. destruct (decide (x = fd)) as [->|].
      - rewrite (decide_True _ _ (list_elem_of_here fd fds)). by case_decide.
      - destruct (decide (x ∈ fds)); [rewrite decide_True by (by right)|rewrite decide_False by (by intros [?|?]%elem_of_cons)]; done. }
    intros t. rewrite (kbind_ret (agg fd) _ (st c q sa t) e (st c q sa t) e b) by done.
    rewrite Hsl. exact (E' t).
Qed.

(** ** Claims *)

(** C20: when the queued log events are processed, the library sends the
    messages of the completed chunks, in order, and nothing else, and every event
    is freed.  Per descriptor, the chunks that were completed and the one that is
    still open are those of a division of its events, in the order in which they
    were queued and none left out, into groups: a group's events are of one file,
    their data is the chunk's, of at most [max_agg_bytes] unless it is that of one
    event, and a group ends only before an event that it cannot take. *)
Theorem log_flush_groups (c : ctl_t) (q : CircBuf.cbuf_t) (e : env_t) (ps : list Z) (os : list (option log_event_t)) :
  quiet e -> slots (streamAgg c) (fun _ => None) -> log_ringbuf c = Some q -> CircBuf.rep q ps -> queued (log_heap e) ps os ->
  total (events_of os) < 2 ^ 64 ->
  Forall (fun x => sendable (evt c) x.2) (agg_run (max_agg_bytes c) (fun _ => None) (events_of os)).1 ->
  exists out open q' sa', CircBuf.rep q' [] /\ slots sa' open /\
    ctlFlushLog fill c e ≡m Sys.bind (send_all (transport c) (messages (evt c) out))
      (fun t => Sys.ret (tt, st c (Some q') sa' t, free_all ps e)) /\
    forall fd, 0 <= fd < FS_ENTRIES -> exists gs,
      of_fd fd out ++ option_list (open fd) = map chunk_of gs /\
      concat (map group_events gs) = fd_events fd (events_of os) /\
      Forall (good (max_agg_bytes c)) gs /\
      forall pre a b rest, gs = pre ++ a :: b :: rest -> full (max_agg_bytes c) (chunk_of a) b.1 = true.
Proof.
  intros Q Sl Hq R Hp Ht Hs.
  destruct (flush_quiet c ps os q (streamAgg c) e (fun _ => None) (S (queue_bound (Some q))) Q Sl R Hp) as (q' & sa' & R' & S' & E).
  - pose proof (CircBuf.rep_len _ _ R). cbn [queue_bound]. lia.
  - by split.
  - done.
  - exists (agg_run (max_agg_bytes c) (fun _ => None) (events_of os)).1, (agg_run (max_agg_bytes c) (fun _ => None) (events_of os)).2, q', sa'.
    split; [done|]. split; [done|]. split.
    + assert (Ec : st c (Some q) (streamAgg c) (transport c) = c) by (rewrite <- Hq; by destruct c).
      pose proof (E (transport c)) as E1. rewrite Ec in E1. unfold ctlFlushLog.
      rewrite (kbind_ret (ctl log_ringbuf) _ c e c e (Some q)) by (unfold ctl; by rewrite Hq). exact E1.
    + intros fd Hf. exists (groups_from (max_agg_bytes c) (fd_events fd (events_of os))).
      split; [by apply (run_groups (max_agg_bytes c) fd Hf (events_of os) (fun _ => None))|].
      destruct (fd_events fd (events_of os)) as [|ev evs]; [split; [done|split; [constructor|]]|].
      * intros pre a b rest E0. by destruct pre.
      * cbn [groups_from]. split; [by rewrite groups_concat|]. split; [|apply groups_greedy].
        apply groups_good. split; [by repeat constructor|by right].
Qed.

(** Once aggregation is stopped, as the destructor does it, or when the
    flush period has passed, every open chunk is sent, in the order of the
    descriptors, and none remains open; otherwise nothing is sent. *)
Theorem log_report_all (c : ctl_t) (e : env_t) (open : Z -> option chunk) :
  quiet e -> slots (streamAgg c) open -> flush_period_in_ms c <> 0 ->
  Forall (fun x => sendable (evt c) x.2) (open_chunks (seqZ 0 FS_ENTRIES) open) ->
  let e' := set_flush_count e (u64 (flush_count e + 1)) in
  if stop_aggregating c || (flush_count e mod flush_period_in_ms c =? 0) then
    exists sa', slots sa' (fun _ => None) /\
      ctlSendAllAggregatedLogData fill c e ≡m
      Sys.bind (send_all (transport c) (messages (evt c) (open_chunks (seqZ 0 FS_ENTRIES) open)))
        (fun t => Sys.ret (tt, st c (log_ringbuf c) sa' t, e'))
  else ctlSendAllAggregatedLogData fill c e ≡m Sys.ret (tt, c, e').
Proof.
  intros Q S Hp Hs e'.
  assert (E0 : ctlSendAllAggregatedLogData fill c e ≡m
    (if stop_aggregating c || (flush_count e mod flush_period_in_ms c =? 0) then report_all fill (seqZ 0 FS_ENTRIES) else kret tt) c e').
  { unfold ctlSendAllAggregatedLogData.
    rewrite (kbind_ret (ctl _) _ c e c e (stop_aggregating c)) by done.
    rewrite (kbind_ret (env flush_count) _ c e c e (flush_count e)) by done.
    rewrite (kbind_ret (ctl flush_period_in_ms) _ c e c e (flush_period_in_ms c)) by done.
    rewrite (kbind_ret (put_env _) _ c e c e' tt) by done.
    by destruct (Z.eqb_spec (flush_period_in_ms c) 0). }
  destruct (stop_aggregating c || _) eqn:Eb; [|exact E0].
  destruct (report_quiet c (log_ringbuf c) e' (seqZ 0 FS_ENTRIES) (streamAgg c) open) as (sa' & Sa' & E1); try done.
  - apply NoDup_seqZ.
  - apply Forall_forall. intros fd Hf%elem_of_seqZ. lia.
  - exists sa'. split.
    + eapply slots_ext; [exact Sa'|]. intros fd Hf. cbn beta. rewrite decide_True; [done|]. apply elem_of_seqZ. lia.
    + assert (Ec : st c (log_ringbuf c) (streamAgg c) (transport c) = c) by (by destruct c).
      pose proof (E1 (transport c)) as E2. rewrite Ec in E2. by rewrite E0.
Qed.

End Log.

(** ** Witnesses *)

#[local] Existing Instance integral.
#[local] Existing Instance integral_laws.

Definition sample_id : log_id_t :=
  mkLogId 5 (1 : @double integral) (Some "/var/log/a.log"%string) CFG_SRC_FILE None (mkProc "h" "p" (Some "c"%string) 9 "id").
Definition sample_event (data : list Z) : log_event_t := mkLogEvent 1 sample_id data.

Definition sample_queue : CircBuf.cbuf_t := CircBuf.mkCbuf [0; 10; 11] 2 0 3.

Lemma sample_queue_rep : CircBuf.rep sample_queue [10; 11].
Proof.
  split; [cbn; lia|reflexivity|cbn; lia|cbn; lia|reflexivity|]. intros i Hi. cbn in Hi. assert (i = 0 \/ i = 1 \/ i = 2) as [->|[->| ->]] by lia; reflexivity.
Qed.

(** Two events of 2 bytes; a chunk may have 3. *)
Definition sample_ctl : ctl_t := set_log_limits (set_ringbuf zero_ctl (Some sample_queue)) 3 2000.
Definition sample_env : env_t :=
  mkEnv {[10 := sample_event [97; 98]; 11 := sample_event [99; 100]]} ∅ 12 [] ∅ 1 [] [] [].

Lemma zero_slots : slots (streamAgg zero_ctl) (fun _ => None).
Proof.
  split; [reflexivity|]. intros fd Hf. cbn [slot_of]. unfold Cfg.at_, zero_ctl. cbn [streamAgg].
  rewrite lookup_replicate_2 by (unfold FS_ENTRIES in *; lia). done.
Qed.

Definition text_length (v : option evt_fmt_t) (ch : chunk) : Z :=
  match chunk_json v ch with Some j => zlen (render false 0 j) | None => 0 end.

Lemma sendable_by v ch : 0 <= l_uid (ch_id ch) -> is_bytes (ch_data ch) -> fits (zlen (quoted_text (ch_data ch))) ->
  fits (text_length v ch) -> sendable v ch.
Proof. intros Hu B N M. split; [done|]. split; [done|]. split; [done|]. intros j Hj. unfold text_length in M. by rewrite Hj in M. Qed.

Lemma sample_sendable : sendable None (mkChunk sample_id [97; 98]).
Proof.
  apply sendable_by.
  - cbn. lia.
  - repeat constructor; unfold is_byte; lia.
  - unfold fits. apply Z.leb_le. reflexivity.
  - unfold fits. apply Z.leb_le. reflexivity.
Qed.

Lemma log_flush_groups_witness :
  exists out open q' sa', CircBuf.rep q' [] /\ slots sa' open /\
    ctlFlushLog (fun _ => 0) sample_ctl sample_env ≡m Sys.bind (send_all None (messages None out))
      (fun t => Sys.ret (tt, st sample_ctl (Some q') sa' t, free_all [10; 11] sample_env)) /\
    exists gs, of_fd 1 out ++ option_list (open 1) = map chunk_of gs /\
      concat (map group_events gs) = [sample_event [97; 98]; sample_event [99; 100]].
Proof.
  destruct (log_flush_groups (fun _ => 0) sample_ctl sample_queue sample_env [10; 11]
    [Some (sample_event [97; 98]); Some (sample_event [99; 100])]) as (out & open & q' & sa' & R & S & E & G).
  - done.
  - apply zero_slots.
  - reflexivity.
  - apply sample_queue_rep.
  - split; [repeat constructor; lia|]. cbn. repeat constructor; set_solver.
  - reflexivity.
  - cbn. constructor; [apply sample_sendable|constructor].
  - destruct (G 1) as (gs & G1 & G2 & _); [unfold FS_ENTRIES; lia|]. exists out, open, q', sa'.
    split; [exact R|]. split; [exact S|]. split; [exact E|]. exists gs. split; [exact G1|exact G2].
Defined.

(** One chunk is open when the object is destroyed. *)
Definition sample_open (fd : Z) : option chunk := if decide (fd = 1) then Some (mkChunk sample_id [97; 98]) else None.
Definition sample_stopped : ctl_t :=
  set_flags (set_log sample_ctl None (set_at (streamAgg zero_ctl) 1 (mkStreambuf (Some [97; 98]) 2 (Some sample_id)))) 1 true true.

Lemma log_report_all_witness :
  exists sa', slots sa' (fun _ => None) /\
    ctlSendAllAggregatedLogData (fun _ => 0) sample_stopped sample_env ≡m
    Sys.bind (send_all None (messages None (open_chunks (seqZ 0 FS_ENTRIES) sample_open)))
      (fun t => Sys.ret (tt, st sample_stopped None sa' t, set_flush_count sample_env (u64 (1 + 1)))).
Proof.
  apply (log_report_all (fun _ => 0) sample_stopped sample_env sample_open).
  - done.
  - apply (slots_set (streamAgg zero_ctl) (fun _ => None) 1 _ (Some (mkChunk sample_id [97; 98]))); [apply zero_slots|unfold FS_ENTRIES; lia|done].
  - discriminate.
  - assert (open_chunks (seqZ 0 FS_ENTRIES) sample_open = [(1, mkChunk sample_id [97; 98])]) as -> by reflexivity.
    constructor; [apply sample_sendable|constructor].
Defined.

(** ** Limits of the code *)

(** When the first queue cannot be allocated, for instance because
    APPVIEW_QUEUE_LENGTH is too large, the error exit of [ctlCreate] divides by
    the flush period, which is still 0. *)
Lemma create_without_queue_undefined (qlen : option Z) (w : Sys.world) :
  ctlCreate (fun _ => 0) qlen (set_al sample_env [true; false]) w = UB.
Proof. reflexivity. Qed.

(** The value filter of log data is matched with the text of a JSON string: it
    begins with a quotation mark, so an anchored expression does not match the
    beginning of the data. *)
Lemma log_filter_sees_quotes (data : list Z) :
  exists s, text_of (quoted_text data) = String.String (Ascii.ascii_of_nat 34) s.
Proof. eexists. reflexivity. Qed.

(** An event whose message cannot be allocated: [strlen(NULL)]. *)
Lemma unsent_event_undefined (body : cJSON) (p : proc_id_t) (w : Sys.world) :
  send_event (fun _ => 0) (Some body) 0 p sample_ctl (set_al sample_env [false]) w = UB.
Proof. reflexivity. Qed.

(** Before there is a formatter, asking for the last source reads behind the
    table of defaults. *)
Lemma last_source_default_undefined (c : ctl_t) : evt c = None ->
  ctlEvtSourceEnabled (Some c) 8 = UB /\ ctlEvtSourceEnabled None 8 = UB.
Proof. intros E. unfold ctlEvtSourceEnabled. cbn. by rewrite E. Qed.

(** When the event that replaces binary console data cannot be allocated, the
    binary data is queued. *)
Definition all_match (s : string) : option regex := Some (fun _ => true).
Definition text_console : ctl_t := set_flags (set_log sample_ctl (CircBuf.cbufInit true true 2) []) 1 false false.

Lemma binary_data_queued (w : Sys.world) :
  match ctlSendLog all_match (1 : @double integral) 1 (Some "/dev/tty"%string) (Some [0; 1]) 5
      (Some (mkProc "h" "p" (Some "c"%string) 9 "id")) text_console (set_al sample_env [false; true; true]) w with
  | Def ((rc, _, e), _) => Some (rc, le_data <$> log_heap e !! 12)
  | UB => None
  end = Some (0, Some [0; 1]).
Proof. vm_compute. reflexivity. Qed.

End CtlLog.
