(* ===== verification/CfgParse.v ===== *)
(** * Text of configuration values (src/cfgutils.c, first part; src/utils.c)

    Configuration comes as text: from a YAML file, from the environment and from
    command files.  This file has what these share: the state that the functions
    of src/cfgutils.c act on, the substitution of environment variables in a
    value, and the functions that set an option from a text.

    The functions are programs of a state monad over [pst], the configuration
    with the static variables of the source file; [UB] is undefined behaviour.
    The outcomes of allocations are the list [al] (they succeed when it ends).
    What the process and other libraries contribute is a [world].  The match of
    the variable pattern is that of the regular expression library, the class
    [EnvMatch] with the law of the pattern, [EnvMatchLaws].  Lengths of texts are
    taken to fit an [int]. *)

From Stdlib Require Import Ascii.
From S2P Require Import Prelude Types HttpAgg Cfg CfgStore CJson.

#[local] Open Scope string_scope.
#[local] Open Scope Z_scope.
#[local] Open Scope list_scope.

Module CfgParse.
Import Cfg.
Export HttpAgg(strToVal, valToStr, enum_map).
Export CJson(alloc).

(** ** Tables *)

Definition CFG_LOG_TRACE : Z := 0.
Definition CFG_LOG_DEBUG : Z := 1.
Definition CFG_LOG_INFO : Z := 2.
Definition CFG_LOG_ERROR : Z := 4.
Definition CFG_SRC_CONSOLE : Z := 1.
Definition CFG_SRC_HTTP : Z := 4.

Definition formatMap : enum_map := [("statsd", CFG_FMT_STATSD); ("ndjson", CFG_FMT_NDJSON)].
Definition transportTypeMap : enum_map :=
  [("udp", CFG_UDP); ("tcp", CFG_TCP); ("unix", CFG_UNIX); ("file", CFG_FILE); ("edge", CFG_EDGE)].
Definition logLevelMap : enum_map :=
  [("debug", CFG_LOG_DEBUG); ("info", CFG_LOG_INFO); ("warning", CFG_LOG_WARN); ("error", CFG_LOG_ERROR);
   ("none", CFG_LOG_NONE); ("trace", CFG_LOG_TRACE)].
Definition bufferMap : enum_map := [("line", CFG_BUFFER_LINE); ("full", CFG_BUFFER_FULLY)].
Definition watchTypeMap : enum_map :=
  [("file", 0); ("console", 1); ("syslog", 2); ("metric", 3); ("http", 4); ("net", 5); ("fs", 6); ("dns", 7); ("sec", 8)].
Definition mtcWatchTypeMap : enum_map :=
  [("fs", CFG_MTC_FS); ("net", CFG_MTC_NET); ("http", CFG_MTC_HTTP); ("dns", CFG_MTC_DNS); ("process", CFG_MTC_PROC);
   ("statsd", CFG_MTC_STATSD)].
Definition boolMap : enum_map := [("true", 1); ("false", 0)].

(** ** Strings *)

(** What follows the prefix [p] of [s]. *)
Fixpoint strip (p s : string) : option string :=
  match p, s with
  | EmptyString, _ => Some s
  | String a p, String b s => if Ascii.eqb a b then strip p s else None
  | String _ _, EmptyString => None
  end.

Definition startsWith (s substring : string) : bool := match strip substring s with Some _ => true | None => false end.

(** The text before the first [c] and, if there is one, the text after it. *)
Fixpoint cut (c : Ascii.ascii) (s : string) : string * option string :=
  match s with
  | EmptyString => ("", None)
  | String a s => if Ascii.eqb a c then ("", Some s) else let '(l, r) := cut c s in (String a l, r)
  end.

(** The text before the last [c] and the text after it. *)
Fixpoint cut_last (c : Ascii.ascii) (s : string) : option (string * string) :=
  match s with
  | EmptyString => None
  | String a s =>
      match cut_last c s with
      | Some (l, r) => Some (String a l, r)
      | None => if Ascii.eqb a c then Some ("", s) else None
      end
  end.

Definition equals_sign : Ascii.ascii := "="%char.
Definition colon : Ascii.ascii := ":"%char.
Definition backslash : Ascii.ascii := "\"%char.
Definition dollar : Ascii.ascii := "$"%char.

Definition code (c : Ascii.ascii) : Z := Z.of_nat (Ascii.nat_of_ascii c).
Definition is_digit (c : Ascii.ascii) : bool := (48 <=? code c) && (code c <=? 57).
Definition is_space (c : Ascii.ascii) : bool := (code c =? 32) || ((9 <=? code c) && (code c <=? 13)).

(** The digits at the start of [s] with [acc] before them, and the rest. *)
Fixpoint digits (acc : Z) (s : string) : Z * string :=
  match s with
  | String c t => if is_digit c then digits (acc * 10 + (code c - 48)) t else (acc, s)
  | EmptyString => (acc, s)
  end.

Fixpoint skip_space (s : string) : string :=
  match s with String c t => if is_space c then skip_space t else s | EmptyString => s end.

(** [strtoul(s, &endptr, 10)] of the library's C library: the value, or nothing
    when it sets [errno] (no digits, or out of range), and [endptr]. *)
Definition strtoul (s : string) : option Z * string :=
  let t := skip_space s in
  let '(neg, t) := match t with
                   | String c u => if code c =? 45 then (true, u) else if code c =? 43 then (false, u) else (false, t)
                   | EmptyString => (false, t)
                   end in
  match t with
  | String c _ =>
      if is_digit c then
        let '(y, rest) := digits 0 t in
        if UINT64_MAX <? y then (None, rest) else (Some (if neg then u64 (- y) else y), rest)
      else (None, s)
  | EmptyString => (None, s)
  end.

(** [if (appview_errno || *endptr) return;] *)
Definition whole_number (s : string) : option Z :=
  match strtoul s with (Some x, EmptyString) => Some x | _ => None end.

(** ** The world *)

Record world := mkWorld {
  environ : list string;
  w_procname : string;                       (* g_proc *)
  w_cmd : option string;
  w_hostname : string;
  w_ppid : Z;
  pw_name : option string;                   (* getpwuid(g_proc.uid) *)
  (* /proc/<pid>/exe and /proc/<pid>/stat of the ancestors, in the order they are read *)
  ancestors : list (option string * option string);
  regcomp : string -> bool;
  pcre2_compile : string -> bool;
}.

(** [fullGetEnv] *)
Definition fullGetEnv (environ : list string) (name : string) : option string :=
  if String.eqb name "" || bool_decide (snd (cut equals_sign name) <> None) then None
  else head (omap (strip (name +:+ "=")) environ).

(** ** State *)

Record protocol_def_t := mkProtocol {
  protname : option string;
  regex : option string;
  binary : bool;
  detect : bool;
  payload : bool;
  len : Z;                                   (* unsigned int *)
  ptype : Z;
}.

(** Effects outside of the configuration. *)
Inductive act := Attach | Detach | DumpDebug (path : string) | LogMessage (msg : string).

Record pst := mkPst {
  cfg : config_t;
  transport_context : Z;
  watch_context : Z;
  protocol_context : option protocol_def_t;
  g_regex : bool;                            (* compiled *)
  custom_matched : bool;
  custom_match_count : Z;
  g_protlist : gmap Z Z;                     (* pointers to protocol definitions *)
  g_prot_sequence : Z;
  prot_heap : gmap Z protocol_def_t;
  next_prot : Z;
  acts : list act;
  al : list bool;
}.

Definition set_cfg (s : pst) (v : config_t) : pst :=
  mkPst v (transport_context s) (watch_context s) (protocol_context s) (g_regex s) (custom_matched s) (custom_match_count s)
    (g_protlist s) (g_prot_sequence s) (prot_heap s) (next_prot s) (acts s) (al s).
Definition set_transport_context (s : pst) (v : Z) : pst :=
  mkPst (cfg s) v (watch_context s) (protocol_context s) (g_regex s) (custom_matched s) (custom_match_count s)
    (g_protlist s) (g_prot_sequence s) (prot_heap s) (next_prot s) (acts s) (al s).
Definition set_watch_context (s : pst) (v : Z) : pst :=
  mkPst (cfg s) (transport_context s) v (protocol_context s) (g_regex s) (custom_matched s) (custom_match_count s)
    (g_protlist s) (g_prot_sequence s) (prot_heap s) (next_prot s) (acts s) (al s).
Definition set_protocol_context (s : pst) (v : option protocol_def_t) : pst :=
  mkPst (cfg s) (transport_context s) (watch_context s) v (g_regex s) (custom_matched s) (custom_match_count s)
    (g_protlist s) (g_prot_sequence s) (prot_heap s) (next_prot s) (acts s) (al s).
Definition set_regex (s : pst) (v : bool) : pst :=
  mkPst (cfg s) (transport_context s) (watch_context s) (protocol_context s) v (custom_matched s) (custom_match_count s)
    (g_protlist s) (g_prot_sequence s) (prot_heap s) (next_prot s) (acts s) (al s).
Definition set_custom (s : pst) (m : bool) (n : Z) : pst :=
  mkPst (cfg s) (transport_context s) (watch_context s) (protocol_context s) (g_regex s) m n
    (g_protlist s) (g_prot_sequence s) (prot_heap s) (next_prot s) (acts s) (al s).
Definition set_protocols (s : pst) (l : gmap Z Z) (n : Z) (h : gmap Z protocol_def_t) (p : Z) : pst :=
  mkPst (cfg s) (transport_context s) (watch_context s) (protocol_context s) (g_regex s) (custom_matched s) (custom_match_count s)
    l n h p (acts s) (al s).
Definition add_act (s : pst) (a : act) : pst :=
  mkPst (cfg s) (transport_context s) (watch_context s) (protocol_context s) (g_regex s) (custom_matched s) (custom_match_count s)
    (g_protlist s) (g_prot_sequence s) (prot_heap s) (next_prot s) (acts s ++ [a]) (al s).
Definition set_al (s : pst) (l : list bool) : pst :=
  mkPst (cfg s) (transport_context s) (watch_context s) (protocol_context s) (g_regex s) (custom_matched s) (custom_match_count s)
    (g_protlist s) (g_prot_sequence s) (prot_heap s) (next_prot s) (acts s) l.

Definition M (A : Type) : Type := pst -> ub (A * pst).
Definition ret {A} (a : A) : M A := fun s => Def (a, s).
Definition bind {A B} (m : M A) (f : A -> M B) : M B := fun s =>
  match m s with Def (a, s) => f a s | UB => UB end.
Definition undefined {A} : M A := fun _ => UB.
Definition gets {A} (f : pst -> A) : M A := fun s => Def (f s, s).
Definition modify (f : pst -> pst) : M unit := fun s => Def (tt, f s).
Definition take_al {A} (f : list bool -> ub (A * list bool)) : M A := fun s =>
  match f (al s) with Def (a, l) => Def (a, set_al s l) | UB => UB end.
Definition malloc : M bool := take_al (fun l => Def (alloc l)).

Fixpoint each {A} (f : A -> M unit) (l : list A) : M unit :=
  match l with [] => ret tt | a :: l => bind (f a) (fun _ => each f l) end.

#[local] Notation "'let!' x := m 'in' k" := (bind m (fun x => k)) (at level 10, x name, m at level 200, k at level 200).
#[local] Notation "'do' m ; k" := (bind m (fun _ => k)) (at level 10, m at level 200, k at level 200).

(** ** Substitution of environment variables *)

(** The first match of [\$[a-zA-Z0-9_]+] in a text, by its start and its end. *)
Class EnvMatch := env_match : list Ascii.ascii -> option (nat * nat).

Definition name_char (c : Ascii.ascii) : bool :=
  is_digit c || ((65 <=? code c) && (code c <=? 90)) || ((97 <=? code c) && (code c <=? 122)) || (code c =? 95).

(** The name characters at the start of a text. *)
Fixpoint name_run (s : list Ascii.ascii) : nat :=
  match s with c :: s => if name_char c then S (name_run s) else O | [] => O end.

(** The length of the match at the very start of a text. *)
Definition var_at (s : list Ascii.ascii) : option nat :=
  match s with
  | c :: t => if Ascii.eqb c dollar then match name_run t with O => None | n => Some (S n) end else None
  | [] => None
  end.

(** The leftmost and longest match. *)
Fixpoint leftmost_var (s : list Ascii.ascii) : option (nat * nat) :=
  match var_at s with
  | Some n => Some (O, n)
  | None => match s with
            | [] => None
            | _ :: t => match leftmost_var t with Some (a, b) => Some (S a, S b) | None => None end
            end
  end.

Class EnvMatchLaws `{EnvMatch} : Prop := env_match_spec : forall s, env_match s = leftmost_var s.

Section Substitution.
Context `{EnvMatch}.
Variable environ : list string.

(** [size] bytes at [outval], of which those before [outptr] are written. *)
Record outbuf := mkOut { size : Z; written : list Ascii.ascii }.

(** Copying [l] to [outptr]. *)
Definition put (o : outbuf) (l : list Ascii.ascii) : ub outbuf :=
  if Z.of_nat (length (written o)) + Z.of_nat (length l) <=? size o then Def (mkOut (size o) (written o ++ l)) else UB.

Definition slice (a b : nat) (l : list Ascii.ascii) : list Ascii.ascii := take (b - a) (drop a l).

(** The character before position [so] of [inptr]; [before] is the one before
    [inptr], if that is not the start of the value. *)
Definition char_before (before : option Ascii.ascii) (inptr : list Ascii.ascii) (so : nat) : option Ascii.ascii :=
  match so with O => before | S k => inptr !! k end.

(** One match is handled: the buffer afterwards, nothing when it cannot grow. *)
Definition substitute (l : list bool) (o : outbuf) (before : option Ascii.ascii) (inptr : list Ascii.ascii) (so eo : nat)
  : ub (option outbuf * list bool) :=
  if bool_decide (char_before before inptr so = Some backslash) then
    match so with
    | O => UB                                  (* stpncpy(outptr, inptr, -1) *)
    | S k =>
        o ← put o (take k inptr);
        o ← put o (slice so eo inptr);
        Def (Some o, l)
    end
  else
    let env_name := slice so eo inptr in
    let env_value := fullGetEnv environ (String.string_of_list_ascii (tail env_name)) in
    let subst := match env_value with Some v => String.list_ascii_of_string v | None => env_name end in
    let size_growth := match env_value with Some _ => Z.of_nat (length subst) - Z.of_nat (eo - so) | None => 0 end in
    let '(ok, l) := if 0 <? size_growth then alloc l else (true, l) in
    if negb ok then Def (None, l) else
    let o := mkOut (size o + Z.max 0 size_growth) (written o) in
    o ← put o (take so inptr);
    o ← put o subst;
    Def (Some o, l).

Fixpoint subst_loop (fuel : nat) (l : list bool) (o : outbuf) (before : option Ascii.ascii) (inptr : list Ascii.ascii)
  : ub (option (list Ascii.ascii) * list bool) :=
  match fuel with
  | O => UB
  | S fuel =>
      match env_match inptr with
      | None =>
          o ← put o (inptr ++ [Ascii.zero]);   (* strcpy, with its terminator *)
          Def (Some (removelast (written o)), l)
      | Some (so, eo) =>
          r ← substitute l o before inptr so eo;
          match r with
          | (Some o, l) => subst_loop fuel l o (inptr !! pred eo) (drop eo inptr)
          | (None, l) => Def (None, l)
          end
      end
  end.
End Substitution.

Section Values.
Context `{EnvMatch}.
Variable w : world.

(** [envRegex]: compiled once; compiling needs memory of its own. *)
Definition envRegex : M bool :=
  let! have := gets g_regex in
  if have : bool then ret true else
  let! ok := malloc in
  if negb ok then ret false else
  let! ok := malloc in
  if negb ok then ret false else
  do modify (fun s => set_regex s true); ret true.

Definition doEnvVariableSubstitution (value : option string) : M (option string) :=
  match value with
  | None => ret None
  | Some value =>
      let! re := envRegex in
      let! ok := malloc in
      if negb ok then ret None else
      let chars := String.list_ascii_of_string value in
      if re : bool then
        let! r := take_al (fun l => subst_loop (environ w) (S (length chars)) l
                                      (mkOut (Z.of_nat (length chars) + 1) []) None chars) in
        ret (String.string_of_list_ascii <$> r)
      else ret (Some value)
  end.

(** ** Options from texts *)

(** A setter on the configuration, with the outcomes of its allocations. *)
Definition set_plain (f : config_t -> config_t) : M unit := modify (fun s => set_cfg s (f (cfg s))).
Definition set_dup (f : bool -> config_t -> config_t) : M unit :=
  let! ok := malloc in set_plain (f ok).

(** [if (!cfg || !value) return;] *)
Definition with_value (value : option string) (k : string -> M unit) : M unit :=
  match value with Some v => k v | None => ret tt end.
Definition with_bool (value : option string) (f : config_t -> Z -> config_t) : M unit :=
  with_value value (fun v => set_plain (fun c => f c (strToVal boolMap v))).
(** The result of [strtoul] is passed as an [unsigned]. *)
Definition with_number (value : option string) (f : config_t -> Z -> config_t) : M unit :=
  with_value value (fun v => match whole_number v with
                             | Some x => set_plain (fun c => f c (u32 x))
                             | None => ret tt
                             end).

Definition cfgMtcEnableSetFromStr (value : option string) : M unit := with_bool value cfgMtcEnableSet.
Definition cfgMtcFormatSetFromStr (value : option string) : M unit :=
  with_value value (fun v => set_plain (fun c => cfgMtcFormatSet c (strToVal formatMap v))).
Definition cfgMtcStatsDPrefixSetFromStr (value : option string) : M unit :=
  set_dup (fun ok c => cfgMtcStatsDPrefixSet ok c value).
Definition cfgMtcStatsDMaxLenSetFromStr (value : option string) : M unit := with_number value cfgMtcStatsDMaxLenSet.
Definition cfgMtcPeriodSetFromStr (value : option string) : M unit := with_number value cfgMtcPeriodSet.
Definition cfgMtcWatchEnableSetFromStr (value : option string) (type : Z) : M unit :=
  with_bool value (fun c v => cfgMtcWatchEnableSet c v type).
Definition cfgCmdDirSetFromStr (value : option string) : M unit :=
  with_value value (fun v => set_dup (fun ok c => cfgCmdDirSet ok c (Some v))).
Definition cfgConfigEventSetFromStr (value : option string) : M unit := with_bool value cfgSendProcessStartMsgSet.
Definition cfgEvtEnableSetFromStr (value : option string) : M unit := with_bool value cfgEvtEnableSet.
Definition cfgEventFormatSetFromStr (value : option string) : M unit :=
  with_value value (fun _ => set_plain (fun c => cfgEventFormatSet c CFG_FMT_NDJSON)).
Definition cfgEvtRateLimitSetFromStr (value : option string) : M unit := with_number value cfgEvtRateLimitSet.
Definition cfgEnhanceFsSetFromStr (value : option string) : M unit := with_bool value cfgEnhanceFsSet.
Definition cfgAllowBinaryConsoleSetFromStr (value : option string) : M unit := with_bool value cfgEvtAllowBinaryConsoleSet.
Definition cfgEvtFormatValueFilterSetFromStr (src : Z) (value : option string) : M unit :=
  with_value value (fun v => set_dup (fun ok c => cfgEvtFormatValueFilterSet ok c src (Some v))).
Definition cfgEvtFormatFieldFilterSetFromStr (src : Z) (value : option string) : M unit :=
  with_value value (fun v => set_dup (fun ok c => cfgEvtFormatFieldFilterSet ok c src (Some v))).
Definition cfgEvtFormatNameFilterSetFromStr (src : Z) (value : option string) : M unit :=
  with_value value (fun v => set_dup (fun ok c => cfgEvtFormatNameFilterSet ok c src (Some v))).
(** [cfgEvtFormatHeaderSet] of src/cfg.c with its three allocations. *)
Definition headerSet (value : option string) : M unit :=
  let! a := malloc in let! b := malloc in let! d := malloc in
  set_plain (fun c => cfgEvtFormatHeaderSet (regcomp w) a b d c value).
Definition cfgEvtFormatHeaderSetFromStr (value : option string) : M unit :=
  with_value value (fun v => headerSet (Some v)).
Definition cfgEvtFormatSourceEnabledSetFromStr (src : Z) (value : option string) : M unit :=
  with_bool value (fun c v => cfgEvtFormatSourceEnabledSet c src v).
Definition cfgMtcVerbositySetFromStr (value : option string) : M unit := with_number value cfgMtcVerbositySet.

Definition transportHostSet (t : Z) (v : option string) : M unit := set_dup (fun ok c => cfgTransportHostSet ok c t v).
Definition transportPortSet (t : Z) (v : option string) : M unit := set_dup (fun ok c => cfgTransportPortSet ok c t v).
Definition transportPathSet (t : Z) (v : option string) : M unit := set_dup (fun ok c => cfgTransportPathSet ok c t v).

(** [udp://host:port] and [tcp://host:port].  [strncpy] leaves the copy without a
    terminator when the value does not fit its 1024 bytes. *)
Definition network_dest (t type : Z) (value rest : string) : M unit :=
  if (1024 <=? Z.of_nat (String.length value)) then undefined else
  match cut_last colon rest with
  | None => ret tt
  | Some (host, port) =>
      do set_plain (fun c => cfgTransportTypeSet c t type);
      do transportHostSet t (Some host);
      transportPortSet t (Some port)
  end.

Definition cfgTransportSetFromStr (t : Z) (value : option string) : M unit :=
  with_value value (fun value =>
    match strip "udp://" value with
    | Some rest => network_dest t CFG_UDP value rest
    | None =>
    match strip "tcp://" value with
    | Some rest => network_dest t CFG_TCP value rest
    | None =>
    match strip "file://" value with
    | Some path => do set_plain (fun c => cfgTransportTypeSet c t CFG_FILE); transportPathSet t (Some path)
    | None =>
    match strip "unix://" value with
    | Some path => do set_plain (fun c => cfgTransportTypeSet c t CFG_UNIX); transportPathSet t (Some path)
    | None =>
        if startsWith value "edge" then set_plain (fun c => cfgTransportTypeSet c t CFG_EDGE) else ret tt
    end end end end).

Definition cfgTransportTlsEnableSetFromStr (t : Z) (value : option string) : M unit :=
  with_bool value (fun c v => cfgTransportTlsEnableSet c t v).
Definition cfgTransportTlsValidateServerSetFromStr (t : Z) (value : option string) : M unit :=
  with_bool value (fun c v => cfgTransportTlsValidateServerSet c t v).
Definition cfgTransportTlsCACertPathSetFromStr (t : Z) (value : option string) : M unit :=
  with_value value (fun v => set_dup (fun ok c => cfgTransportTlsCACertPathSet ok c t (Some v))).
(** [cfgCustomTagAdd] with the outcomes of its allocations. *)
Definition cfgCustomTagAddFromStr (name value : option string) : M unit :=
  let! a := malloc in let! b := malloc in let! d := malloc in let! e := malloc in let! f := malloc in let! g := malloc in
  set_plain (fun c => cfgCustomTagAdd (mkTagMem a b d e f g) c name value).
Definition cfgLogLevelSetFromStr (value : option string) : M unit :=
  with_value value (fun v => set_plain (fun c => cfgLogLevelSet c (strToVal logLevelMap v))).
Definition cfgPayEnableSetFromStr (value : option string) : M unit := with_bool value cfgPayEnableSet.
Definition cfgPayDirSetFromStr (value : option string) : M unit :=
  with_value value (fun v => set_dup (fun ok c => cfgPayDirSet ok c (Some v))).
Definition cfgCriblEnableSetFromStr (value : option string) : M unit := with_bool value cfgLogStreamEnableSet.
Definition cfgAuthTokenSetFromStr (value : option string) : M unit :=
  with_value value (fun v => set_dup (fun ok c => cfgAuthTokenSet ok c (Some v))).
Definition cfgSnapShotCoredumpEnableSetFomStr (value : option string) : M unit := with_bool value cfgSnapshotCoredumpSet.
Definition cfgSnapshotBacktraceEnableSetFomStr (value : option string) : M unit := with_bool value cfgSnapshotBacktraceSet.
Definition cfgIpcEnableSetFomStr (value : option string) : M unit := with_bool value cfgIpcEnableSet.
End Values.

(** ** What substitution means *)

(** A variable is a dollar sign and the longest run of name characters behind it.
    It stands for its value, or for itself when it is not set; with a backslash
    before it, it stands for itself and the backslash is dropped.  Everything else
    stands for itself. *)
Section Expansion.
Variable environ : list string.

Definition var_value (var : list Ascii.ascii) : list Ascii.ascii :=
  match fullGetEnv environ (String.string_of_list_ascii (tail var)) with
  | Some v => String.list_ascii_of_string v
  | None => var
  end.

Inductive expands : list Ascii.ascii -> list Ascii.ascii -> Prop :=
| ex_end : expands [] []
| ex_var s n out : var_at s = Some n -> expands (drop n s) out -> expands s (var_value (take n s) ++ out)
| ex_escaped s n out : var_at s = Some n -> expands (drop n s) out -> expands (backslash :: s) (take n s ++ out)
| ex_char c s out : var_at (c :: s) = None -> (c = backslash -> var_at s = None) -> expands s out ->
    expands (c :: s) (c :: out).

Lemma expands_unique s o1 o2 : expands s o1 -> expands s o2 -> o1 = o2.
Proof.
  intros E. revert o2. induction E as [|s n out V E IH|s n out V E IH|c s out V B E IH]; intros o2 E2.
  - inversion E2; subst; done.
  - inversion E2; subst; simplify_eq; try done. by f_equal; apply IH.
  - inversion E2 as [|? ? ? V2 E3|? ? ? V2 E3|? ? ? V2 B2 E3]; subst; simplify_eq; try done; [by f_equal; apply IH|].
    by rewrite B2 in V.
  - inversion E2 as [|? ? ? V2 E3|? ? ? V2 E3|? ? ? V2 B2 E3]; subst; simplify_eq; try done; [by rewrite B in V2|].
    by f_equal; apply IH.
Qed.
End Expansion.

Lemma name_run_le s : (name_run s <= length s)%nat.
Proof. induction s as [|c s IH]; cbn; [lia|]. destruct (name_char c); lia. Qed.

Lemma name_run_char s k : (k < name_run s)%nat -> exists c, s !! k = Some c /\ name_char c = true.
Proof.
  revert k. induction s as [|c s IH]; cbn; intros k Hk; [lia|]. destruct (name_char c) eqn:E; [|lia].
  destruct k as [|k]; [by exists c|]. apply IH. lia.
Qed.

Lemma var_at_bounds s n :
  var_at s = Some n -> (2 <= n <= length s)%nat /\ exists c, s !! pred n = Some c /\ name_char c = true.
Proof.
  unfold var_at. destruct s as [|c t]; [done|]. destruct (Ascii.eqb c dollar); [|done].
  pose proof (name_run_le t). pose proof (name_run_char t). destruct (name_run t) as [|m]; [done|].
  intros [= <-]. split; [cbn; lia|]. apply (H0 m). lia.
Qed.

(** The leftmost match: nothing matches before it. *)
Lemma leftmost_var_spec s :
  match leftmost_var s with
  | Some (a, b) => (a <= b)%nat /\ var_at (drop a s) = Some (b - a)%nat /\ forall i, (i < a)%nat -> var_at (drop i s) = None
  | None => forall i, var_at (drop i s) = None
  end.
Proof.
  induction s as [|c s IH]; cbn [leftmost_var]; [intros i; by rewrite drop_nil|].
  destruct (var_at (c :: s)) as [n|] eqn:V.
  - split; [lia|]. split; [by rewrite drop_0, Nat.sub_0_r|lia].
  - destruct (leftmost_var s) as [[a b]|].
    + destruct IH as (Hle & Hv & Hb). split; [lia|]. split; [done|]. intros [|i] Hi; [done|]. apply Hb. lia.
    + intros [|i]; [done|]. apply IH.
Qed.

Lemma expands_prefix environ s k out :
  (forall i, (i < k)%nat -> var_at (drop i s) = None) ->
  (forall j, k = S j -> s !! j = Some backslash -> var_at (drop k s) = None) -> (k <= length s)%nat ->
  expands environ (drop k s) out -> expands environ s (take k s ++ out).
Proof.
  revert s. induction k as [|k IH]; intros s Hn Hb Hk E; [done|]. destruct s as [|c s]; cbn in Hk; [lia|].
  cbn [drop] in E. cbn [take app]. apply ex_char; [exact (Hn O ltac:(lia))| |].
  - intros ->. destruct k as [|k]; [by apply (Hb O)|]. apply (Hn 1%nat). lia.
  - apply IH; [|intros j ->; apply (Hb (S j) eq_refl)|lia|done]. intros i Hi. apply (Hn (S i)). lia.
Qed.

Lemma expands_plain environ s : (forall i, var_at (drop i s) = None) -> expands environ s s.
Proof.
  intros Hn. rewrite <- (app_nil_r s) at 2. rewrite <- (take_ge s (length s)) at 2 by lia.
  apply expands_prefix; [auto|auto|lia|]. rewrite drop_ge by lia. constructor.
Qed.

Section SubstitutionFacts.
Context `{EM : EnvMatch} {EML : EnvMatchLaws}.
Variable environ : list string.

Lemma out_put_ok o l :
  Z.of_nat (length (written o)) + Z.of_nat (length l) <= size o -> put o l = Def (mkOut (size o) (written o ++ l)).
Proof. intros Hl. unfold put. by rewrite (proj2 (Z.leb_le _ _) Hl). Qed.

(** The buffer has room for what it holds, the rest of the input and the terminator. *)
Definition enough (o : outbuf) (inptr : list Ascii.ascii) : Prop :=
  Z.of_nat (length (written o)) + Z.of_nat (length inptr) + 1 <= size o.

Lemma slice_var (inptr : list Ascii.ascii) so eo : slice so eo inptr = take (eo - so) (drop so inptr).
Proof. done. Qed.

Lemma substitute_spec l o before inptr so eo :
  env_match inptr = Some (so, eo) -> before <> Some backslash -> enough o inptr ->
  exists r l', substitute environ l o before inptr so eo = Def (r, l') /\ (l = [] -> r <> None /\ l' = []) /\
  (forall o', r = Some o' -> enough o' (drop eo inptr) /\
     exists add, written o' = written o ++ add /\
       forall out, expands environ (drop eo inptr) out -> expands environ inptr (add ++ out)).
Proof using EML.
  intros E Hb Hs. rewrite env_match_spec in E. pose proof (leftmost_var_spec inptr) as L. rewrite E in L.
  destruct L as (Hle & Hv & Hn). pose proof (var_at_bounds _ _ Hv) as [Hbd _]. rewrite length_drop in Hbd.
  assert (Hd : drop eo inptr = drop (eo - so) (drop so inptr)) by (rewrite drop_drop; f_equal; lia).
  assert (Hsl : length (slice so eo inptr) = (eo - so)%nat) by (unfold slice; rewrite length_take, length_drop; lia).
  unfold enough in *. unfold substitute. case_bool_decide as Eb.
  - destruct so as [|k]; [by cbn in Eb|]. cbn [char_before] in Eb.
    rewrite out_put_ok by (rewrite length_take; lia). cbn [mbind ub_bind].
    rewrite out_put_ok by (cbn [written size]; rewrite length_app, length_take, Hsl; lia). cbn [mbind ub_bind].
    do 2 eexists. split; [reflexivity|]. split; [done|]. intros o' [= <-]. cbn [written size].
    rewrite !length_app, length_take, Hsl, length_drop. split; [lia|].
    exists (take k inptr ++ slice (S k) eo inptr). split; [by rewrite app_assoc|]. intros out Ho.
    rewrite <- app_assoc. apply expands_prefix; [intros i Hi; apply Hn; lia| |lia|].
    + intros j -> Hj. apply Hn. lia.
    + erewrite drop_S by done. unfold slice. by apply ex_escaped; [|rewrite <- Hd].
  - set (name := slice so eo inptr).
    set (sub := match fullGetEnv environ (String.string_of_list_ascii (tail name)) with
                | Some v => String.list_ascii_of_string v | None => name end).
    set (g := match fullGetEnv environ (String.string_of_list_ascii (tail name)) with
              | Some _ => Z.of_nat (length sub) - Z.of_nat (eo - so) | None => 0 end).
    assert (Hg : Z.of_nat (length sub) <= Z.of_nat (eo - so) + Z.max 0 g).
    { unfold g, sub. destruct (fullGetEnv _ _); [lia|]. unfold name. lia. }
    destruct (if 0 <? g then alloc l else (true, l)) as [ok l'] eqn:Ea.
    assert (Hal : l = [] -> ok = true /\ l' = []) by (intros ->; destruct (0 <? g); cbn in Ea; by simplify_eq).
    destruct ok; cbn [negb].
    + rewrite out_put_ok by (cbn [written size]; rewrite length_take; lia). cbn [mbind ub_bind].
      rewrite out_put_ok by (cbn [written size]; rewrite length_app, length_take; lia). cbn [mbind ub_bind].
      do 2 eexists. split; [reflexivity|]. split; [intros Hl; split; [done|by apply Hal]|].
      intros o' [= <-]. cbn [written size]. rewrite !length_app, length_take, length_drop. split; [lia|].
      exists (take so inptr ++ sub). split; [by rewrite app_assoc|]. intros out Ho.
      rewrite <- app_assoc. apply expands_prefix; [done| |lia|].
      * intros j -> Hj. by cbn [char_before] in Eb.
      * change sub with (var_value environ name). unfold name, slice. by apply ex_var; [|rewrite <- Hd].
    + do 2 eexists. split; [reflexivity|]. split; [|done]. intros Hl. by destruct (Hal Hl).
Qed.

Lemma subst_loop_spec fuel l o before inptr :
  (length inptr < fuel)%nat -> before <> Some backslash -> enough o inptr ->
  exists r l', subst_loop environ fuel l o before inptr = Def (r, l') /\ (l = [] -> r <> None /\ l' = []) /\
  (forall res, r = Some res -> exists out, res = written o ++ out /\ expands environ inptr out).
Proof using EML.
  revert l o before inptr. induction fuel as [|fuel IH]; intros l o before inptr Hf Hb Hs; [lia|].
  cbn [subst_loop]. destruct (env_match inptr) as [[so eo]|] eqn:E.
  - destruct (substitute_spec l _ _ _ _ _ E Hb Hs) as (r & l' & -> & Hl & Hr). cbn [mbind ub_bind].
    destruct r as [o1|]; [|exists None, l'; split; [done|split; [intros Hl0; by destruct (Hl Hl0)|done]]]. destruct (Hr o1 eq_refl) as (Hs' & add & Ew & Hx).
    rewrite env_match_spec in E. pose proof (leftmost_var_spec inptr) as L. rewrite E in L.
    destruct L as (Hle & Hv & Hn). pose proof (var_at_bounds _ _ Hv) as [Hbd (c & Hc & Hname)]. rewrite length_drop in Hbd.
    rewrite lookup_drop in Hc. replace (so + pred (eo - so))%nat with (pred eo) in Hc by lia.
    destruct (IH l' o1 (inptr !! pred eo) (drop eo inptr)) as (r & l'' & -> & Hl' & Hr').
    + rewrite length_drop. lia.
    + rewrite Hc. intros [= ->]. done.
    + done.
    + exists r, l''. split; [done|]. split; [intros ->; apply Hl'; by apply Hl|].
      intros res ->. destruct (Hr' res eq_refl) as (out & -> & Ho). exists (add ++ out).
      split; [by rewrite Ew, app_assoc|by apply Hx].
  - unfold enough in Hs. rewrite out_put_ok by (rewrite length_app; cbn; lia). cbn [mbind ub_bind written].
    do 2 eexists. split; [reflexivity|]. split; [done|]. intros res [= <-]. exists inptr.
    rewrite app_assoc, removelast_last. split; [done|]. apply expands_plain.
    pose proof (leftmost_var_spec inptr) as L. by rewrite <- env_match_spec, E in L.
Qed.
End SubstitutionFacts.

(** ** Values with memory available *)

Lemma set_al_same s l : al s = l -> set_al s l = s.
Proof. intros <-. by destruct s. Qed.

Lemma malloc_quiet s : al s = [] -> malloc s = Def (true, s).
Proof. intros E. unfold malloc, take_al. rewrite E. cbn. by rewrite set_al_same. Qed.

Lemma bind_malloc {A} (f : bool -> M A) s : al s = [] -> bind malloc f s = f true s.
Proof. intros E. unfold bind. by rewrite malloc_quiet. Qed.

Section ValueFacts.
Context `{EM : EnvMatch} {EML : EnvMatchLaws}.
Variable w : world.

(** The value with its variables substituted. *)
Definition expanded (v : string) : string :=
  let chars := String.list_ascii_of_string v in
  match subst_loop (environ w) (S (length chars)) [] (mkOut (Z.of_nat (length chars) + 1) []) None chars with
  | Def (Some out, _) => String.string_of_list_ascii out
  | _ => v
  end.

Lemma envRegex_spec s :
  exists b l, envRegex s = Def (b, set_al (set_regex s b) l) /\ (al s = [] -> b = true /\ l = []) .
Proof.
  unfold envRegex, bind, gets. destruct (g_regex s) eqn:Er.
  - exists true, (al s). split; [|done]. f_equal. f_equal. destruct s; cbn in *. by subst.
  - unfold malloc, take_al. destruct (alloc (al s)) as [[] l] eqn:E1; cbn [negb].
    + cbn [al set_al]. destruct (alloc l) as [[] l2] eqn:E2; cbn [negb].
      * exists true, l2. split; [done|]. intros Hs. rewrite Hs in E1. cbn in E1. simplify_eq. cbn in E2. by simplify_eq.
      * exists false, l2. split; [by destruct s; cbn in *; subst|]. intros Hs. rewrite Hs in E1. cbn in E1. simplify_eq.
    + exists false, l. split; [by destruct s; cbn in *; subst|]. intros Hs. rewrite Hs in E1. cbn in E1. simplify_eq.
Qed.

(** Whatever allocations fail, the substitution stays in its buffer and gives
    nothing, the value itself, or the expansion. *)
Lemma substitution_any s v :
  exists r b l, doEnvVariableSubstitution w (Some v) s = Def (r, set_al (set_regex s b) l) /\
    (r = None \/ r = Some v \/ exists out, r = Some (String.string_of_list_ascii out) /\
       expands (environ w) (String.list_ascii_of_string v) out).
Proof using EML.
  unfold doEnvVariableSubstitution. destruct (envRegex_spec s) as (b & l & E & _). unfold bind at 1. rewrite E.
  unfold bind at 1, malloc, take_al at 1. cbn [al set_al]. destruct (alloc l) as [[] l2]; cbn [negb].
  - destruct b; [|exists (Some v), false, l2; by auto].
    unfold bind, take_al. cbn [al set_al]. set (chars := String.list_ascii_of_string v).
    destruct (subst_loop_spec (environ w) (S (length chars)) l2 (mkOut (Z.of_nat (length chars) + 1) []) None chars)
      as (r & l3 & -> & _ & Hr); [lia|done|unfold enough; cbn; lia|].
    eexists _, true, l3. split; [reflexivity|]. destruct r as [out|]; [|by left]. right. right.
    destruct (Hr out eq_refl) as (out' & -> & Ho). by exists out'.
  - exists None, b, l2. auto.
Qed.

Lemma expanded_spec v : exists out, expanded v = String.string_of_list_ascii out /\
  expands (environ w) (String.list_ascii_of_string v) out.
Proof using EML.
  unfold expanded. set (chars := String.list_ascii_of_string v).
  destruct (subst_loop_spec (environ w) (S (length chars)) [] (mkOut (Z.of_nat (length chars) + 1) []) None chars)
    as (r & l & -> & Hq & Hr); [lia|done|unfold enough; cbn; lia|].
  destruct (Hq eq_refl) as [Hn _]. destruct r as [res|]; [|done]. destruct (Hr res eq_refl) as (out & -> & Ho). eauto.
Qed.

Lemma substitution_quiet s v :
  al s = [] -> doEnvVariableSubstitution w (Some v) s = Def (Some (expanded v), set_regex s true).
Proof using EML.
  intros Hs. unfold doEnvVariableSubstitution. destruct (envRegex_spec s) as (b & l & E & Hb).
  destruct (Hb Hs) as [-> ->]. unfold bind at 1. rewrite E, set_al_same by done.
  rewrite bind_malloc by done. cbn [negb]. unfold bind, take_al. cbn [al set_regex]. rewrite Hs. unfold expanded.
  set (chars := String.list_ascii_of_string v).
  destruct (subst_loop_spec (environ w) (S (length chars)) [] (mkOut (Z.of_nat (length chars) + 1) []) None chars)
    as (r & l & -> & Hq & Hr); [lia|done|unfold enough; cbn; lia|].
  destruct (Hq eq_refl) as [Hn ->]. destruct r as [res|]; [|done]. unfold ret. by rewrite set_al_same.
Qed.

(** Text without variables is kept. *)
Definition no_vars (v : string) : Prop := forall i, var_at (drop i (String.list_ascii_of_string v)) = None.

(** A value has exactly one expansion: every variable is replaced by the
    value the environment gives it, or kept when there is none; a variable behind
    a backslash is kept and loses the backslash; the rest is kept.  Whatever
    allocations fail, the substitution never leaves its buffer, and its result is
    nothing, the value itself, or the expansion; with memory it is the expansion. *)
Theorem substitution_exact s v :
  exists out, expands (environ w) (String.list_ascii_of_string v) out /\
    (forall o, expands (environ w) (String.list_ascii_of_string v) o -> o = out) /\
    exists r b l, doEnvVariableSubstitution w (Some v) s = Def (r, set_al (set_regex s b) l) /\
      (r = None \/ r = Some v \/ r = Some (String.string_of_list_ascii out)) /\
      (al s = [] -> r = Some (String.string_of_list_ascii out) /\ l = []).
Proof using EML.
  destruct (expanded_spec v) as (out & Ev & Ho). exists out. split; [done|].
  split; [intros o H'; by eapply expands_unique|].
  destruct (substitution_any s v) as (r & b & l & E & Hr). exists r, b, l. split; [done|]. split.
  - destruct Hr as [Hr|[Hr|(o & -> & Hx)]]; [by left|by right; left|]. right. right. by rewrite (expands_unique _ _ _ _ Hx Ho).
  - intros Ha. rewrite substitution_quiet in E by done. rewrite <- Ev. split; [by injection E|].
    pose proof (f_equal (fun x => match x with Def (_, s') => al s' | UB => [] end) E) as El. cbn in El. by rewrite <- El.
Qed.

Lemma expanded_plain v : no_vars v -> expanded v = v.
Proof using EML.
  intros Hn. destruct (expanded_spec v) as (out & -> & Ho).
  rewrite (expands_unique _ _ _ _ Ho (expands_plain _ _ Hn)). apply String.string_of_list_ascii_of_string.
Qed.
End ValueFacts.

(** The matcher that computes the law. *)
Definition leftmost_match : EnvMatch := leftmost_var.
Lemma leftmost_laws : @EnvMatchLaws leftmost_match.
Proof. done. Qed.

Section Instance.
#[local] Existing Instance leftmost_match.
#[local] Existing Instance leftmost_laws.

Definition idle (outcomes : list bool) : pst := mkPst CfgStore.CfgStore.default_config 0 0 None false false 0 ∅ 0 ∅ 0 [] outcomes.
Definition home : world := mkWorld ["HOME=/root"; "N=4"] "app" None "host" 1 None [] (fun _ => true) (fun _ => true).

(** Two variables, one of them not set, and a backslash. *)
Lemma substitution_exact_witness :
  exists out, expands (environ home) (String.list_ascii_of_string "$HOME/\$N-$X") out /\
    exists r b l, doEnvVariableSubstitution home (Some "$HOME/\$N-$X") (idle []) = Def (r, set_al (set_regex (idle []) b) l) /\
      r = Some (String.string_of_list_ascii out).
Proof.
  destruct (substitution_exact home (idle []) "$HOME/\$N-$X") as (out & Ho & _ & r & b & l & E & _ & Hq).
  exists out. split; [exact Ho|]. exists r, b, l. split; [exact E|]. apply (Hq eq_refl).
Defined.
End Instance.
End CfgParse.
