(* ===== verification/CfgYaml.v ===== *)
(** * Configuration documents (src/cfgutils.c, second part)

    A configuration file is a YAML document whose mappings are read by tables: an
    entry of a table names a key, the kind of node expected behind it and the
    function that reads it.  Reading goes through the document in its order; the
    custom entries come last, each with a filter that compares the process with
    names from the document.

    A document is the tree of its nodes, an alias standing for the node it names;
    the parser of libyaml is the parameter [yaml_load], from a text to nothing when
    it is malformed, to no root when it is empty, or to its root.  The list of
    protocol definitions is a dictionary of pointers (as [LinkList] shows), its
    delete function that of src/state.c. *)

From Stdlib Require Import Ascii.
From S2P Require Import Prelude Types HttpAgg Cfg CJson CfgParse.

#[local] Open Scope string_scope.
#[local] Open Scope Z_scope.
#[local] Open Scope list_scope.

Module CfgYaml.
Import Cfg CfgParse.

#[local] Notation "'let!' x := m 'in' k" := (bind m (fun x => k)) (at level 10, x name, m at level 200, k at level 200).
#[local] Notation "'do' m ; k" := (bind m (fun _ => k)) (at level 10, m at level 200, k at level 200).

(** ** Documents *)

Inductive yaml_node :=
| Scalar (value : string)
| Sequence (items : list yaml_node)
| Mapping (pairs : list (yaml_node * yaml_node)).

Inductive yaml_node_type := YAML_SCALAR_NODE | YAML_SEQUENCE_NODE | YAML_MAPPING_NODE.
Definition same_type (a b : yaml_node_type) : bool :=
  match a, b with
  | YAML_SCALAR_NODE, YAML_SCALAR_NODE | YAML_SEQUENCE_NODE, YAML_SEQUENCE_NODE | YAML_MAPPING_NODE, YAML_MAPPING_NODE => true
  | _, _ => false
  end.

Definition node_type (n : yaml_node) : yaml_node_type :=
  match n with Scalar _ => YAML_SCALAR_NODE | Sequence _ => YAML_SEQUENCE_NODE | Mapping _ => YAML_MAPPING_NODE end.

Definition parse_table : Type := list (yaml_node_type * string * (yaml_node -> M unit)).

(** The first entry of this type and key. *)
Definition handler (t : parse_table) (ty : yaml_node_type) (key : string) : option (yaml_node -> M unit) :=
  snd <$> List.find (fun e => same_type ty e.1.1 && String.eqb key e.1.2) t.

Definition processKeyValuePair (t : parse_table) (pair : yaml_node * yaml_node) : M unit :=
  match pair.1 with
  | Scalar key => match handler t (node_type pair.2) key with Some f => f pair.2 | None => ret tt end
  | _ => ret tt
  end.

(** [if (node->type != YAML_MAPPING_NODE) return;] and the loop over the pairs. *)
Definition process_pairs (t : parse_table) (node : yaml_node) : M unit :=
  match node with Mapping pairs => each (processKeyValuePair t) pairs | _ => ret tt end.

Section Reading.
Context `{EnvMatch}.
Variable w : world.

Definition stringVal (node : yaml_node) : M (option string) :=
  match node with Scalar v => doEnvVariableSubstitution w (Some v) | _ => ret None end.

(** A function that passes the text of a node on. *)
Definition from_text (f : option string -> M unit) (node : yaml_node) : M unit :=
  let! value := stringVal node in f value.

(** [strToVal] of a text that may be NULL. *)
Definition str_val (map : enum_map) (value : option string) : M Z :=
  match value with Some v => ret (strToVal map v) | None => undefined end.

(** ** Transports *)

Definition processLevel := from_text cfgLogLevelSetFromStr.
Definition processTransportType := from_text (fun value =>
  let! c := gets transport_context in
  let! v := str_val transportTypeMap value in
  set_plain (fun cf => cfgTransportTypeSet cf c v)).
Definition processHost := from_text (fun value => let! c := gets transport_context in transportHostSet c value).
Definition processPort := from_text (fun value => let! c := gets transport_context in transportPortSet c value).
Definition processPath := from_text (fun value => let! c := gets transport_context in transportPathSet c value).
Definition processBuf := from_text (fun value =>
  let! c := gets transport_context in
  let! v := str_val bufferMap value in
  set_plain (fun cf => cfgTransportBufSet cf c v)).
Definition processTlsEnable := from_text (fun value =>
  let! c := gets transport_context in cfgTransportTlsEnableSetFromStr c value).
Definition processTlsValidate := from_text (fun value =>
  let! c := gets transport_context in cfgTransportTlsValidateServerSetFromStr c value).
Definition processTlsCaCert := from_text (fun value =>
  let! c := gets transport_context in cfgTransportTlsCACertPathSetFromStr c value).

Definition processTls := process_pairs
  [(YAML_SCALAR_NODE, "enable", processTlsEnable);
   (YAML_SCALAR_NODE, "validateserver", processTlsValidate);
   (YAML_SCALAR_NODE, "cacertpath", processTlsCaCert)].

Definition processTransport := process_pairs
  [(YAML_SCALAR_NODE, "type", processTransportType);
   (YAML_SCALAR_NODE, "host", processHost);
   (YAML_SCALAR_NODE, "port", processPort);
   (YAML_SCALAR_NODE, "path", processPath);
   (YAML_SCALAR_NODE, "buffering", processBuf);
   (YAML_MAPPING_NODE, "tls", processTls)].

Definition in_context (t : Z) (node : yaml_node) : M unit :=
  do modify (fun s => set_transport_context s t); processTransport node.
Definition processTransportMetric := in_context CFG_MTC.
Definition processTransportLog := in_context CFG_LOG.
Definition processTransportCtl := in_context CFG_CTL.
Definition processCriblTransport := in_context CFG_LS.

(** ** The library's own section *)

Definition processLogging := process_pairs
  [(YAML_SCALAR_NODE, "level", processLevel);
   (YAML_MAPPING_NODE, "transport", processTransportLog)].

Definition processCoredump := from_text cfgSnapShotCoredumpEnableSetFomStr.
Definition processBacktrace := from_text cfgSnapshotBacktraceEnableSetFomStr.
Definition processSnapshot := process_pairs
  [(YAML_SCALAR_NODE, "coredump", processCoredump);
   (YAML_SCALAR_NODE, "backtrace", processBacktrace)].

Definition processSummaryPeriod := from_text cfgMtcPeriodSetFromStr.
Definition processCommandDir := from_text cfgCmdDirSetFromStr.
Definition processConfigEvent := from_text cfgConfigEventSetFromStr.
Definition processLibappview := process_pairs
  [(YAML_MAPPING_NODE, "log", processLogging);
   (YAML_SCALAR_NODE, "summaryperiod", processSummaryPeriod);
   (YAML_SCALAR_NODE, "commanddir", processCommandDir);
   (YAML_SCALAR_NODE, "configevent", processConfigEvent);
   (YAML_MAPPING_NODE, "snapshot", processSnapshot)].

(** ** Tags *)

Definition processTag (pair : yaml_node * yaml_node) : M unit :=
  match pair with
  | (Scalar _, Scalar _) =>
      let! key_str := stringVal pair.1 in
      let! value_str := stringVal pair.2 in
      cfgCustomTagAddFromStr key_str value_str
  | _ => ret tt
  end.
Definition processTags (node : yaml_node) : M unit :=
  match node with Mapping pairs => each processTag pairs | _ => ret tt end.

(** ** Metrics *)

Definition processFormatTypeMetric := from_text cfgMtcFormatSetFromStr.
Definition processStatsDPrefix := from_text cfgMtcStatsDPrefixSetFromStr.
Definition processStatsDMaxLen := from_text cfgMtcStatsDMaxLenSetFromStr.
Definition processVerbosity := from_text cfgMtcVerbositySetFromStr.
Definition processMetricEnable := from_text cfgMtcEnableSetFromStr.
Definition processFormat := process_pairs
  [(YAML_SCALAR_NODE, "type", processFormatTypeMetric);
   (YAML_SCALAR_NODE, "statsdprefix", processStatsDPrefix);
   (YAML_SCALAR_NODE, "statsdmaxlen", processStatsDMaxLen);
   (YAML_SCALAR_NODE, "verbosity", processVerbosity)].

Definition categories_all : list Z := [CFG_MTC_FS; CFG_MTC_NET; CFG_MTC_HTTP; CFG_MTC_DNS; CFG_MTC_PROC; CFG_MTC_STATSD].

Definition processMtcWatchType (node : yaml_node) : M unit :=
  match node with
  | Scalar _ =>
      let! value := stringVal node in
      match value with
      | None => undefined                      (* strcmp of NULL *)
      | Some v =>
          each (fun category =>
            if bool_decide (fst <$> mtcWatchTypeMap !! Z.to_nat category = Some v)
            then set_plain (fun c => cfgMtcWatchEnableSet c 1 category) else ret tt) categories_all
      end
  | _ => ret tt
  end.
Definition processMtcSource := process_pairs [(YAML_SCALAR_NODE, "type", processMtcWatchType)].
Definition processMtcWatch (node : yaml_node) : M unit :=
  match node with
  | Mapping _ => ret tt
  | _ =>
      do each (fun category => set_plain (fun c => cfgMtcWatchEnableSet c 0 category)) categories_all;
      match node with Sequence items => each processMtcSource items | _ => ret tt end
  end.

Definition processMetric := process_pairs
  [(YAML_SCALAR_NODE, "enable", processMetricEnable);
   (YAML_MAPPING_NODE, "format", processFormat);
   (YAML_SEQUENCE_NODE, "watch", processMtcWatch);
   (YAML_SCALAR_NODE, "watch", processMtcWatch);
   (YAML_MAPPING_NODE, "transport", processTransportMetric)].

(** ** Events *)

Definition processEvtEnable := from_text cfgEvtEnableSetFromStr.
Definition processFormatTypeEvent := from_text cfgEventFormatSetFromStr.
Definition processFormatMaxEps := from_text cfgEvtRateLimitSetFromStr.
Definition processEnhanceFs := from_text cfgEnhanceFsSetFromStr.
Definition processEvtFormat := process_pairs
  [(YAML_SCALAR_NODE, "type", processFormatTypeEvent);
   (YAML_SCALAR_NODE, "maxeventpersec", processFormatMaxEps);
   (YAML_SCALAR_NODE, "enhancefs", processEnhanceFs)].

Definition processEvtWatchType := from_text (fun value =>
  let! v := str_val watchTypeMap value in
  do modify (fun s => set_watch_context s v);
  set_plain (fun c => cfgEvtFormatSourceEnabledSet c v 1)).
Definition processEvtWatchName := from_text (fun value =>
  let! src := gets watch_context in cfgEvtFormatNameFilterSetFromStr src value).
Definition processEvtWatchField := from_text (fun value =>
  let! src := gets watch_context in cfgEvtFormatFieldFilterSetFromStr src value).
Definition processEvtWatchValue := from_text (fun value =>
  let! src := gets watch_context in cfgEvtFormatValueFilterSetFromStr src value).
Definition processEvtWatchHeader (node : yaml_node) : M unit :=
  match node with
  | Sequence items =>
      let! src := gets watch_context in
      if src =? CFG_SRC_HTTP then each (from_text (headerSet w)) items else ret tt
  | _ => ret tt
  end.
Definition processEvtWatchBinary (node : yaml_node) : M unit :=
  let! src := gets watch_context in
  if src =? CFG_SRC_CONSOLE then from_text cfgAllowBinaryConsoleSetFromStr node else ret tt.

Definition isWatchType (pair : yaml_node * yaml_node) : bool :=
  match pair.1 with Scalar key => String.eqb key "type" | _ => false end.

Definition source_table : parse_table :=
  [(YAML_SCALAR_NODE, "type", processEvtWatchType);
   (YAML_SCALAR_NODE, "name", processEvtWatchName);
   (YAML_SCALAR_NODE, "field", processEvtWatchField);
   (YAML_SCALAR_NODE, "value", processEvtWatchValue);
   (YAML_SEQUENCE_NODE, "headers", processEvtWatchHeader);
   (YAML_SCALAR_NODE, "allowbinary", processEvtWatchBinary)].

(** The first type, then everything else. *)
Definition processSource (node : yaml_node) : M unit :=
  match node with
  | Mapping pairs =>
      do modify (fun s => set_watch_context s CFG_SRC_MAX);
      do match List.find isWatchType pairs with Some p => processKeyValuePair source_table p | None => ret tt end;
      each (fun pair => if isWatchType pair then ret tt else processKeyValuePair source_table pair) pairs
  | _ => ret tt
  end.

Definition sources_all : list Z := seqZ 0 CFG_SRC_MAX.

Definition processEvtWatch (node : yaml_node) : M unit :=
  match node with
  | Mapping _ => ret tt
  | _ =>
      do each (fun x => set_plain (fun c => cfgEvtFormatSourceEnabledSet c x 0)) sources_all;
      match node with Sequence items => each processSource items | _ => ret tt end
  end.

Definition processEvent := process_pairs
  [(YAML_SCALAR_NODE, "enable", processEvtEnable);
   (YAML_MAPPING_NODE, "transport", processTransportCtl);
   (YAML_MAPPING_NODE, "format", processEvtFormat);
   (YAML_SEQUENCE_NODE, "watch", processEvtWatch);
   (YAML_SCALAR_NODE, "watch", processEvtWatch)].

(** ** Payloads and LogStream *)

Definition processPayloadEnable := from_text cfgPayEnableSetFromStr.
Definition processPayloadDir := from_text cfgPayDirSetFromStr.
Definition processPayload := process_pairs
  [(YAML_SCALAR_NODE, "enable", processPayloadEnable);
   (YAML_SCALAR_NODE, "dir", processPayloadDir)].

Definition processCriblEnable := from_text cfgCriblEnableSetFromStr.
Definition processAuthToken := from_text cfgAuthTokenSetFromStr.
Definition processCribl := process_pairs
  [(YAML_SCALAR_NODE, "enable", processCriblEnable);
   (YAML_MAPPING_NODE, "transport", processCriblTransport);
   (YAML_SCALAR_NODE, "authtoken", processAuthToken)].

(** ** Protocol definitions *)

Definition on_protocol (f : protocol_def_t -> M protocol_def_t) : M unit :=
  let! p := gets protocol_context in
  match p with
  | None => ret tt
  | Some p => let! p := f p in modify (fun s => set_protocol_context s (Some p))
  end.

Definition with_protname (p : protocol_def_t) (v : option string) : protocol_def_t :=
  mkProtocol v (regex p) (binary p) (detect p) (payload p) (len p) (ptype p).
Definition with_regex (p : protocol_def_t) (v : option string) : protocol_def_t :=
  mkProtocol (protname p) v (binary p) (detect p) (payload p) (len p) (ptype p).
Definition with_binary (p : protocol_def_t) (v : bool) : protocol_def_t :=
  mkProtocol (protname p) (regex p) v (detect p) (payload p) (len p) (ptype p).
Definition with_detect (p : protocol_def_t) (v : bool) : protocol_def_t :=
  mkProtocol (protname p) (regex p) (binary p) v (payload p) (len p) (ptype p).
Definition with_payload (p : protocol_def_t) (v : bool) : protocol_def_t :=
  mkProtocol (protname p) (regex p) (binary p) (detect p) v (len p) (ptype p).
Definition with_len (p : protocol_def_t) (v : Z) : protocol_def_t :=
  mkProtocol (protname p) (regex p) (binary p) (detect p) (payload p) v (ptype p).
Definition with_ptype (p : protocol_def_t) (v : Z) : protocol_def_t :=
  mkProtocol (protname p) (regex p) (binary p) (detect p) (payload p) (len p) v.

Definition processProtocolName (node : yaml_node) : M unit :=
  on_protocol (fun p => let! v := stringVal node in ret (with_protname p v)).
Definition processProtocolRegex (node : yaml_node) : M unit :=
  on_protocol (fun p => let! v := stringVal node in ret (with_regex p v)).
(** [if (iVal <= 1) ... = iVal;] *)
Definition protocol_bool (set : protocol_def_t -> bool -> protocol_def_t) (node : yaml_node) : M unit :=
  on_protocol (fun p =>
    let! sVal := stringVal node in
    let! iVal := str_val boolMap sVal in
    ret (if iVal <=? 1 then set p (iVal =? 1) else p)).
Definition processProtocolBinary := protocol_bool with_binary.
Definition processProtocolDetect := protocol_bool with_detect.
Definition processProtocolPayload := protocol_bool with_payload.
Definition processProtocolLen (node : yaml_node) : M unit :=
  on_protocol (fun p =>
    let! sVal := stringVal node in
    match sVal with
    | None => undefined                        (* strtoul of NULL *)
    | Some v => ret (match whole_number v with Some x => with_len p (u32 x) | None => p end)
    end).

(** The dictionary of definitions: [lstFind], [lstInsert] and [lstDelete], which
    passes the definition to [destroyProtEntry]. *)
Definition destroyProtEntry (ptr : Z) : M unit :=
  let! h := gets prot_heap in
  match h !! ptr with
  | None => undefined                          (* freed before *)
  | Some _ => modify (fun s => set_protocols s (g_protlist s) (g_prot_sequence s) (delete ptr (prot_heap s)) (next_prot s))
  end.
Definition prot_insert (key : Z) (p : protocol_def_t) : M bool :=
  let! l := gets g_protlist in
  let! ok := malloc in
  match l !! key with
  | Some _ => ret false
  | None =>
      if negb ok then ret false else
      do modify (fun s => set_protocols s (<[key := next_prot s]> (g_protlist s)) (g_prot_sequence s)
                            (<[next_prot s := p]> (prot_heap s)) (next_prot s + 1));
      ret true
  end.
Definition prot_delete (key : Z) : M bool :=
  let! l := gets g_protlist in
  match l !! key with
  | None => ret false
  | Some ptr =>
      do modify (fun s => set_protocols s (delete key (g_protlist s)) (g_prot_sequence s) (prot_heap s) (next_prot s));
      do destroyProtEntry ptr; ret true
  end.
(** The definition behind the pointer that [lstFind] returned. *)
Definition deref (ptr : Z) : M protocol_def_t :=
  let! h := gets prot_heap in match h !! ptr with Some p => ret p | None => undefined end.

(** Replace the entry of the same name, if there is one. *)
Fixpoint replace_loop (keys : list Z) (p : protocol_def_t) (name : string) : M bool :=
  match keys with
  | [] => ret false
  | key :: keys =>
      let! l := gets g_protlist in
      match l !! key with
      | None => replace_loop keys p name
      | Some ptr =>
          let! found := deref ptr in
          match protname found with
          | None => undefined                  (* strcmp of NULL *)
          | Some n =>
              if String.eqb name n then
                do prot_delete key;
                do prot_insert key (with_ptype p key);
                do destroyProtEntry ptr;
                ret true
              else replace_loop keys p name
          end
      end
  end.

Definition protocol_table : parse_table :=
  [(YAML_SCALAR_NODE, "name", processProtocolName);
   (YAML_SCALAR_NODE, "regex", processProtocolRegex);
   (YAML_SCALAR_NODE, "binary", processProtocolBinary);
   (YAML_SCALAR_NODE, "len", processProtocolLen);
   (YAML_SCALAR_NODE, "detect", processProtocolDetect);
   (YAML_SCALAR_NODE, "payload", processProtocolPayload)].

Definition no_protocol : protocol_def_t := mkProtocol None None false true false 0 0.
Definition drop_context : M unit := modify (fun s => set_protocol_context s None).
Definition set_sequence (n : Z) : M unit :=
  modify (fun s => set_protocols s (g_protlist s) n (prot_heap s) (next_prot s)).

Definition add_protocol (p : protocol_def_t) : M unit :=
  let! n := gets g_prot_sequence in
  do set_sequence (u32 (n + 1));
  let! ok := prot_insert (u32 (n + 1)) (with_ptype p (u32 (n + 1))) in
  do (if ok : bool then ret tt else set_sequence n);
  drop_context.

Definition processProtocolEntry (node : yaml_node) : M unit :=
  match node with
  | Mapping pairs =>
      let! ok := malloc in
      do modify (fun s => set_protocol_context s (if ok : bool then Some no_protocol else None));
      if negb ok then ret tt else
      do each (processKeyValuePair protocol_table) pairs;
      let! p := gets protocol_context in
      match p with
      | None => undefined
      | Some p =>
          match protname p, regex p with
          | Some name, Some re =>
              if negb (pcre2_compile w re) then drop_context else
              let! n := gets g_prot_sequence in
              let! done := replace_loop (seqZ 0 (n + 1)) p name in
              if done : bool then drop_context else add_protocol p
          | _, _ => drop_context
          end
      end
  | _ => ret tt
  end.

Definition processProtocol (node : yaml_node) : M unit :=
  match node with Sequence items => each processProtocolEntry items | _ => ret tt end.

(** ** Custom entries *)

(** The outcome of a filter: one more match, or no match at all. *)
Definition custom_result (matches : bool) : M unit :=
  modify (fun s => if matches then set_custom s (custom_matched s) (u32 (custom_match_count s + 1))
                   else set_custom s false (custom_match_count s)).

Definition filter_text (test : string -> M bool) (node : yaml_node) : M unit :=
  let! value := stringVal node in
  let! b := match value with Some v => test v | None => ret false end in
  custom_result b.

Definition processCustomFilterProcname := filter_text (fun v => ret (String.eqb v (w_procname w))).

(** [strstr(haystack, needle)] *)
Fixpoint contains (haystack needle : string) : bool :=
  startsWith haystack needle || match haystack with String _ t => contains t needle | EmptyString => false end.

Definition processCustomFilterArg := filter_text (fun v =>
  match w_cmd w with Some cmd => ret (contains cmd v) | None => undefined end).

Definition to_lower (c : ascii) : ascii :=
  if (65 <=? code c) && (code c <=? 90) then ascii_of_nat (Z.to_nat (code c + 32)) else c.
Fixpoint lowercase (s : string) : string :=
  match s with String c s => String (to_lower c) (lowercase s) | EmptyString => "" end.

Definition processCustomFilterHostname := filter_text (fun v => ret (String.eqb (lowercase v) (lowercase (w_hostname w)))).
Definition processCustomFilterUsername := filter_text (fun v => ret (bool_decide (pw_name w = Some v))).
Definition processCustomFilterEnv := filter_text (fun v =>
  let '(envName, envVal) := cut equals_sign v in
  ret (match fullGetEnv (environ w) envName, envVal with
       | Some env, Some val => String.eqb env val
       | Some _, None => true
       | None, _ => false
       end)).

(** The tokens of [strtok(s, " ")]; [cur] is the token that is being read. *)
Fixpoint tokens (cur : string) (s : string) : list string :=
  match s with
  | EmptyString => if String.eqb cur "" then [] else [cur]
  | String c s =>
      if code c =? 32 then (if String.eqb cur "" then tokens "" s else cur :: tokens "" s)
      else tokens (cur +:+ String c "") s
  end.

Definition atoi (s : string) : Z :=
  let t := skip_space s in
  match t with
  | String c u =>
      if code c =? 45 then i32 (- (digits 0 u).1) else if code c =? 43 then i32 (digits 0 u).1 else i32 (digits 0 t).1
  | EmptyString => 0
  end.

Definition slash : ascii := "/".
(** [basename] of the C library. *)
Fixpoint strip_slashes (s : string) : string :=
  match s with
  | EmptyString => ""
  | String c s =>
      let t := strip_slashes s in
      if String.eqb t "" && Ascii.eqb c slash then "" else String c t
  end.
Definition basename (s : string) : string :=
  match s with
  | EmptyString => "."
  | String c t =>
      let s := String c (strip_slashes t) in
      match cut_last slash s with Some (_, EmptyString) => s | Some (_, r) => r | None => s end
  end.

Definition PATH_MAX : Z := 4096.

Fixpoint ancestor_loop (name : string) (procs : list (option string * option string)) (ppid : Z) : ub bool :=
  if ppid <=? 1 then Def false else
  match procs with
  | [] => Def false
  | (exe, stat) :: procs =>
      match exe with
      | None | Some EmptyString => Def false
      | Some exe =>
          if PATH_MAX <=? Z.of_nat (String.length exe) then UB else       (* exe[exeLen] *)
          if String.eqb name (basename exe) then Def true else
          match stat with
          | None | Some EmptyString => Def false
          | Some stat =>
              match tokens "" stat !! 3%nat with
              | None => UB                     (* atoi of NULL *)
              | Some t => ancestor_loop name procs (atoi t)
              end
          end
      end
  end.
Definition processCustomFilterAncestor := filter_text (fun v s =>
  match ancestor_loop v (ancestors w) (w_ppid w) with Def b => Def (b, s) | UB => UB end).

Definition filter_table : parse_table :=
  [(YAML_SCALAR_NODE, "procname", processCustomFilterProcname);
   (YAML_SCALAR_NODE, "arg", processCustomFilterArg);
   (YAML_SCALAR_NODE, "hostname", processCustomFilterHostname);
   (YAML_SCALAR_NODE, "username", processCustomFilterUsername);
   (YAML_SCALAR_NODE, "env", processCustomFilterEnv);
   (YAML_SCALAR_NODE, "ancestor", processCustomFilterAncestor)].

Fixpoint filter_loop (pairs : list (yaml_node * yaml_node)) : M unit :=
  match pairs with
  | [] => ret tt
  | p :: pairs =>
      do processKeyValuePair filter_table p;
      let! m := gets custom_matched in
      if m : bool then filter_loop pairs else ret tt
  end.

(** The functions that do not look at the type are only called with mappings. *)
Definition pairs_of (node : yaml_node) : M (list (yaml_node * yaml_node)) :=
  match node with Mapping pairs => ret pairs | _ => undefined end.

Definition processCustomFilter (node : yaml_node) : M unit :=
  do modify (fun s => set_custom s true 0);
  let! pairs := pairs_of node in filter_loop pairs.

Definition root_table : parse_table :=
  [(YAML_MAPPING_NODE, "metric", processMetric);
   (YAML_MAPPING_NODE, "libappview", processLibappview);
   (YAML_MAPPING_NODE, "payload", processPayload);
   (YAML_MAPPING_NODE, "event", processEvent);
   (YAML_MAPPING_NODE, "cribl", processCribl);
   (YAML_MAPPING_NODE, "tags", processTags);
   (YAML_SEQUENCE_NODE, "protocol", processProtocol)].
Definition processRoot (node : yaml_node) : M unit :=
  let! pairs := pairs_of node in each (processKeyValuePair root_table) pairs.

Definition processCustomConfig (node : yaml_node) : M unit :=
  let! m := gets custom_matched in
  let! n := gets custom_match_count in
  if negb m || (n =? 0) then ret tt else processRoot node.

Definition processCustomEntry (entry : yaml_node * yaml_node) : M unit :=
  match entry.2 with
  | Mapping pairs =>
      do each (processKeyValuePair [(YAML_MAPPING_NODE, "filter", processCustomFilter)]) pairs;
      each (processKeyValuePair [(YAML_MAPPING_NODE, "config", processCustomConfig)]) pairs
  | _ => ret tt
  end.

Definition processCustom (node : yaml_node) : M unit :=
  let! pairs := pairs_of node in each processCustomEntry pairs.

(** ** Whole documents *)

Definition setConfigFromDoc (root : option yaml_node) : M unit :=
  match root with
  | None => undefined                          (* node->type of NULL *)
  | Some (Mapping pairs) =>
      do processRoot (Mapping pairs);
      each (processKeyValuePair [(YAML_MAPPING_NODE, "custom", processCustom)]) pairs
  | Some _ => ret tt
  end.

(** The YAML parser, and the files that can be opened. *)
Variable yaml_load : string -> option (option yaml_node).
Variable file : string -> option string.

(** From a text into the configuration of the state; the parser needs memory. *)
Definition set_from_text (text : string) : M unit :=
  let! ok := malloc in
  if negb ok then ret tt else
  match yaml_load text with Some doc => setConfigFromDoc doc | None => ret tt end.

Definition cfgSetFromFile (path : option string) : M unit :=
  match path ≫= file with Some text => set_from_text text | None => ret tt end.

(** [m] on a configuration of its own. *)
Definition on_config (c : config_t) (m : M unit) : M config_t := fun s =>
  match m (set_cfg s c) with Def (_, s') => Def (cfg s', set_cfg s' (cfg s)) | UB => UB end.

Definition new_config : M (option config_t) :=
  let! a := malloc in let! b := malloc in ret (cfgCreateDefault a b).

Definition cfgFromString (text : option string) : M (option config_t) :=
  match text with
  | None => ret None
  | Some text =>
      let! c := new_config in
      match c with
      | None => ret None
      | Some c => let! c := on_config c (set_from_text text) in ret (Some c)
      end
  end.

Definition cfgRead (path : option string) : M (option config_t) :=
  let! c := new_config in
  match c with
  | None => ret None
  | Some c => let! c := on_config c (cfgSetFromFile path) in ret (Some c)
  end.
End Reading.

(** ** Documents that are not handled *)

Section Samples.
#[local] Existing Instance leftmost_match.

Definition redis : yaml_node := Mapping [(Scalar "name", Scalar "redis"); (Scalar "regex", Scalar "^\*")].

(** A second definition with the same name: the first one is freed twice. *)
Lemma protocol_redefined : processProtocol home (Sequence [redis; redis]) (idle []) = UB.
Proof. by vm_compute. Qed.

(** A document without a root node. *)
Lemma empty_document : cfgSetFromFile home (fun _ => Some None) (fun _ => Some "") (Some "/appview.yml") (idle []) = UB.
Proof. by vm_compute. Qed.

(** An entry without a filter takes the outcome of the filter before it. *)
Lemma custom_without_filter :
  exists s', setConfigFromDoc home (Some (Mapping [(Scalar "custom", Mapping
    [(Scalar "one", Mapping [(Scalar "filter", Mapping [(Scalar "procname", Scalar "app")])]);
     (Scalar "two", Mapping [(Scalar "config", Mapping [(Scalar "payload", Mapping [(Scalar "enable", Scalar "true")])])])])]))
    (idle []) = Def (tt, s') /\ cfgPayEnable (Some (cfg s')) = 1.
Proof. vm_compute. by eexists. Qed.

(** A value that substitution could not copy is compared with the names of the types. *)
Lemma type_without_memory :
  processTransport home (Mapping [(Scalar "type", Scalar "tcp")]) (idle [true; true; false]) = UB.
Proof. by vm_compute. Qed.
End Samples.
End CfgYaml.
