(* ===== verification/CfgJson.v ===== *)
(** * The configuration as JSON (src/cfgutils.c, third part)

    [jsonObjectFromCfg] describes a configuration by a JSON object, which is sent
    to LogStream in the start message and in answers to GetCfg, and which can be
    sent back in a SetCfg request.

    Objects are built by lists of additions, the first failing one ending the
    construction; [al] are the outcomes of the allocations.  The result below says
    that with memory available the object is [config_doc], a function of the
    values of the options, of the tags, the headers and the protocols. *)

From Stdlib Require Import Ascii.
From S2P Require Import Prelude Types HttpAgg Cfg CfgStore CJson CJsonText CJsonPrint EvtFormat CfgParse.

#[local] Open Scope string_scope.
#[local] Open Scope Z_scope.
#[local] Open Scope list_scope.

Module CfgJson.
Import Cfg CJson CJsonText CJsonPrint CfgParse.

Section Json.
Context `{Double}.

(** ** Construction *)

Definition J : Type := list bool -> option cJSON * list bool.
Definition adder : Type := list bool -> cJSON -> option cJSON * list bool.

Definition object_of (adds : list adder) : J := fun l => foldl EvtFormat.then_add (cJSON_CreateObject l) adds.

Definition add_string (name : string) (v : option string) : adder := fun l o => EvtFormat.cJSON_AddStringToObjLN l o name v.
Definition add_number (name : string) (n : Z) : adder := fun l o => cJSON_AddNumberToObjLN l o (bytes_of name) (of_int n).
Definition add_child (name : string) (create : J) : adder := fun l o =>
  match create l with
  | (Some item, l) => (Some (cJSON_AddItemToObjectCS o (bytes_of name) item), l)
  | (None, l) => (None, l)
  end.

(** A loop over items; [skip] says whether a failed item is left out or ends it. *)
Fixpoint array_items {A} (skip : bool) (create : A -> J) (items : list A) (root : cJSON) : J := fun l =>
  match items with
  | [] => (Some root, l)
  | a :: items =>
      match create a l with
      | (Some item, l) => array_items skip create items (cJSON_AddItemToArray root item) l
      | (None, l) => if skip then array_items skip create items root l else (None, l)
      end
  end.
Definition array_of {A} (skip : bool) (create : A -> J) (items : list A) : J := fun l =>
  match cJSON_CreateArray l with
  | (Some root, l) => array_items skip create items root l
  | (None, l) => (None, l)
  end.

Section Config.
Variable cfg : option config_t.

Definition createTlsJson (trans : Z) : J := object_of
  [add_string "enable" (valToStr boolMap (cfgTransportTlsEnable cfg trans));
   add_string "validateserver" (valToStr boolMap (cfgTransportTlsValidateServer cfg trans));
   add_string "cacertpath" (Some (default "" (cfgTransportTlsCACertPath cfg trans)))].

Definition createTransportJson (trans : Z) : J := object_of
  (add_string "type" (valToStr transportTypeMap (cfgTransportType cfg trans)) ::
   (let ty := cfgTransportType cfg trans in
    if (ty =? CFG_TCP) || (ty =? CFG_UDP) then
      [add_string "host" (cfgTransportHost cfg trans);
       add_string "port" (cfgTransportPort cfg trans);
       add_child "tls" (createTlsJson trans)]
    else if ty =? CFG_UNIX then [add_string "path" (cfgTransportPath cfg trans)]
    else if ty =? CFG_FILE then
      [add_string "path" (cfgTransportPath cfg trans);
       add_string "buffering" (valToStr bufferMap (cfgTransportBuf cfg trans))]
    else [])).

Definition createLogJson : J := object_of
  [add_string "level" (valToStr logLevelMap (cfgLogLevel cfg));
   add_child "transport" (createTransportJson CFG_LOG)].

Definition createSnapshotJson : J := object_of
  [add_string "coredump" (valToStr boolMap (cfgSnapshotCoredumpEnable cfg));
   add_string "backtrace" (valToStr boolMap (cfgSnapshotBacktraceEnable cfg))].

(** A tag that cannot be added is left out. *)
Definition add_tag (t : custom_tag_t) : adder := fun l o =>
  let '(r, l) := cJSON_AddStringToObject l o (bytes_of (tag_name t)) (bytes_of (tag_value t)) in
  (Some (default o r), l).
Definition createTagsJson : J := object_of
  (map add_tag (match cfgCustomTags cfg with Some l => tag_prefix l | None => [] end)).

Definition createMetricFormatJson : J := object_of
  [add_string "type" (valToStr formatMap (cfgMtcFormat cfg));
   add_string "statsdprefix" (Some (cfgMtcStatsDPrefix cfg));
   add_number "statsdmaxlen" (cfgMtcStatsDMaxLen cfg);
   add_number "verbosity" (cfgMtcVerbosity cfg)].

Definition createMetricWatchObjectJson (name : option string) : J := object_of [add_string "type" name].
Definition createMetricWatchArrayJson : J :=
  array_of false (fun category => createMetricWatchObjectJson (fst <$> mtcWatchTypeMap !! Z.to_nat category))
    (List.filter (fun category => negb (cfgMtcWatchEnable cfg category =? 0)) (seqZ 0 6)).

Definition createMetricJson : J := object_of
  [add_string "enable" (valToStr boolMap (cfgMtcEnable cfg));
   add_child "transport" (createTransportJson CFG_MTC);
   add_child "format" createMetricFormatJson;
   add_child "watch" createMetricWatchArrayJson].

(** The headers, as items of an array; failed additions are left out. *)
Definition add_header (i : Z) (array : cJSON) (l : list bool) : cJSON * list bool :=
  match cfgEvtFormatHeader cfg i with
  | None => (array, l)
  | Some hstr =>
      let '(ok, l) := allocs 2 l in
      (if ok then cJSON_AddItemToArray array (cJSON_String (cstr (bytes_of hstr))) else array, l)
  end.
Fixpoint add_headers (ks : list Z) (array : cJSON) (l : list bool) : cJSON * list bool :=
  match ks with
  | [] => (array, l)
  | i :: ks => let '(array, l) := add_header i array l in add_headers ks array l
  end.
(** [cJSON_AddItemToObject] copies the name; its failure is ignored. *)
Definition add_headers_array : adder := fun l o =>
  match cJSON_CreateArray l with
  | (None, l) => (None, l)
  | (Some headers, l) =>
      let '(headers, l) := add_headers (seqZ 0 (cfgEvtFormatNumHeaders cfg)) headers l in
      let '(ok, l) := alloc l in
      (Some (if ok then cJSON_AddItemToObjectCS o (bytes_of "headers") headers else o), l)
  end.

Definition createWatchObjectJson (src : Z) : J := object_of
  ([add_string "type" (valToStr watchTypeMap src);
    add_string "name" (cfgEvtFormatNameFilter cfg src);
    add_string "field" (cfgEvtFormatFieldFilter cfg src);
    add_string "value" (cfgEvtFormatValueFilter cfg src)] ++
   (if src =? CFG_SRC_HTTP then [add_headers_array]
    else if src =? CFG_SRC_CONSOLE then
      [add_string "allowbinary" (valToStr boolMap (cfgEvtAllowBinaryConsole cfg))]
    else [])).

Definition createWatchArrayJson : J :=
  array_of true createWatchObjectJson
    (List.filter (fun src => negb (cfgEvtFormatSourceEnabled cfg src =? 0)) (seqZ 0 CFG_SRC_MAX)).

Definition createEventFormatJson : J := object_of
  [add_string "type" (valToStr formatMap (cfgEventFormat cfg));
   add_number "maxeventpersec" (cfgEvtRateLimit cfg);
   add_string "enhancefs" (valToStr boolMap (cfgEnhanceFs cfg))].

Definition createEventJson : J := object_of
  [add_string "enable" (valToStr boolMap (cfgEvtEnable cfg));
   add_child "transport" (createTransportJson CFG_CTL);
   add_child "format" createEventFormatJson;
   add_child "watch" createWatchArrayJson].

Definition createPayloadJson : J := object_of
  [add_string "enable" (valToStr boolMap (cfgPayEnable cfg));
   add_string "dir" (cfgPayDir cfg)].

Definition createLibappviewJson : J := object_of
  [add_child "log" createLogJson;
   add_child "snapshot" createSnapshotJson;
   add_string "configevent" (valToStr boolMap (cfgSendProcessStartMsg cfg));
   add_number "summaryperiod" (cfgMtcPeriod cfg);
   add_string "commanddir" (cfgCmdDir cfg)].

Definition bool_text (b : bool) : option string := valToStr boolMap (if b then 1 else 0).
Definition createProtocolEntryJson (prot : protocol_def_t) : J := object_of
  [add_string "name" (protname prot);
   add_string "regex" (regex prot);
   add_string "binary" (bool_text (binary prot));
   add_number "len" (len prot);
   add_string "detect" (bool_text (detect prot));
   add_string "payload" (bool_text (payload prot))].
Definition createProtocolJson (prots : list protocol_def_t) : J := array_of false createProtocolEntryJson prots.

Definition createCriblJson : J := object_of
  [add_string "enable" (valToStr boolMap (cfgLogStreamEnable cfg));
   add_child "transport" (createTransportJson CFG_LS);
   add_string "authtoken" (Some (default "" (cfgAuthToken cfg)))].

(** [prots] are the definitions that [lstFind] returns for the keys from 1 on. *)
Definition jsonObjectFromCfg (prots : list protocol_def_t) : J := object_of
  [add_child "metric" createMetricJson;
   add_child "libappview" createLibappviewJson;
   add_child "event" createEventJson;
   add_child "payload" createPayloadJson;
   add_child "tags" createTagsJson;
   add_child "protocol" (createProtocolJson prots);
   add_child "cribl" createCriblJson].
End Config.

Variable fill : nat -> Z.
Definition jsonStringFromCfg (cfg : option config_t) (prots : list protocol_def_t) (l pal : list bool)
  : ub (option (list Z) * list bool) :=
  match jsonObjectFromCfg cfg prots l with
  | (None, l) => Def (None, l)
  | (Some json, l) => text ← cJSON_PrintUnformatted fill json pal; Def (option_map cstr text, l)
  end.

(** The definitions of the list, in the order of their keys. *)
Definition protocols_of (s : pst) : ub (list protocol_def_t) :=
  foldr (fun key r =>
    match g_protlist s !! key with
    | None => r
    | Some ptr => match prot_heap s !! ptr, r with Some p, Def l => Def (p :: l) | _, _ => UB end
    end) (Def []) (seqZ 1 (g_prot_sequence s)).

(** ** Documents

    What the object says: texts, numbers, lists and mappings. *)

#[local] Unset Elimination Schemes.
Inductive doc := DText (s : string) | DNum (n : Z) | DList (l : list doc) | DMap (l : list (string * doc)).
#[local] Set Elimination Schemes.

Fixpoint json_of (d : doc) : cJSON :=
  match d with
  | DText s => cJSON_String (cstr (bytes_of s))
  | DNum n => cJSON_CreateNumber (of_int n)
  | DList l => cJSON_Array (map json_of l)
  | DMap l => cJSON_Object (map (fun m => (bytes_of m.1, json_of m.2)) l)
  end.

Definition num (v : CfgStore.val) : Z := match v with CfgStore.VNum n => n | CfgStore.VStr _ => 0 end.
Definition str (v : CfgStore.val) : string := match v with CfgStore.VStr (Some s) => s | _ => "" end.
(** The text that stands for a value of an enumeration. *)
Definition named (map : enum_map) (v : CfgStore.val) : doc := DText (default "" (valToStr map (num v))).

Section Doc.
Import CfgStore.
Variable g : key -> val.

Definition tls_doc (t : Z) : doc := DMap
  [("enable", named boolMap (g (KTlsEnable t))); ("validateserver", named boolMap (g (KTlsValidate t)));
   ("cacertpath", DText (str (g (KTlsCA t))))].

Definition transport_doc (t : Z) : doc := DMap
  (("type", named transportTypeMap (g (KType t))) ::
   (let ty := num (g (KType t)) in
    if (ty =? CFG_TCP) || (ty =? CFG_UDP) then
      [("host", DText (str (g (KHost t)))); ("port", DText (str (g (KPort t)))); ("tls", tls_doc t)]
    else if ty =? CFG_UNIX then [("path", DText (str (g (KPath t))))]
    else if ty =? CFG_FILE then [("path", DText (str (g (KPath t)))); ("buffering", named bufferMap (g (KBuf t)))]
    else [])).

Definition metric_watch_doc : doc := DList
  (map (fun category => DMap [("type", DText (default "" (fst <$> mtcWatchTypeMap !! Z.to_nat category)))])
     (List.filter (fun category => negb (num (g (KMtcWatch category)) =? 0)) (seqZ 0 6))).

Definition metric_doc : doc := DMap
  [("enable", named boolMap (g KMtcEnable));
   ("transport", transport_doc CFG_MTC);
   ("format", DMap [("type", named formatMap (g KMtcFormat)); ("statsdprefix", DText (str (g KMtcPrefix)));
                    ("statsdmaxlen", DNum (num (g KMtcMaxLen))); ("verbosity", DNum (num (g KMtcVerbosity)))]);
   ("watch", metric_watch_doc)].

Definition libappview_doc : doc := DMap
  [("log", DMap [("level", named logLevelMap (g KLogLevel)); ("transport", transport_doc CFG_LOG)]);
   ("snapshot", DMap [("coredump", named boolMap (g KCoredump)); ("backtrace", named boolMap (g KBacktrace))]);
   ("configevent", named boolMap (g KStartMsg));
   ("summaryperiod", DNum (num (g KMtcPeriod)));
   ("commanddir", DText (str (g KCmdDir)))].

Definition source_doc (headers : list string) (src : Z) : doc := DMap
  ([("type", DText (default "" (valToStr watchTypeMap src))); ("name", DText (str (g (KNameFilter src))));
    ("field", DText (str (g (KFieldFilter src)))); ("value", DText (str (g (KValueFilter src))))] ++
   (if src =? CFG_SRC_HTTP then [("headers", DList (map DText headers))]
    else if src =? CFG_SRC_CONSOLE then [("allowbinary", named boolMap (g KBinaryConsole))]
    else [])).

Definition enabled_sources : list Z := List.filter (fun src => negb (num (g (KSource src)) =? 0)) (seqZ 0 CFG_SRC_MAX).

Definition event_doc (headers : list string) : doc := DMap
  [("enable", named boolMap (g KEvtEnable));
   ("transport", transport_doc CFG_CTL);
   ("format", DMap [("type", named formatMap (g KEvtFormat)); ("maxeventpersec", DNum (num (g KEvtRate)));
                    ("enhancefs", named boolMap (g KEnhanceFs))]);
   ("watch", DList (map (source_doc headers) enabled_sources))].

Definition protocol_doc (p : protocol_def_t) : doc := DMap
  [("name", DText (default "" (protname p))); ("regex", DText (default "" (regex p)));
   ("binary", DText (default "" (bool_text (binary p)))); ("len", DNum (len p));
   ("detect", DText (default "" (bool_text (detect p)))); ("payload", DText (default "" (bool_text (payload p))))].

(** The whole configuration. *)
Definition config_doc (tags : list custom_tag_t) (headers : list string) (prots : list protocol_def_t) : doc := DMap
  [("metric", metric_doc);
   ("libappview", libappview_doc);
   ("event", event_doc headers);
   ("payload", DMap [("enable", named boolMap (g KPayEnable)); ("dir", DText (str (g KPayDir)))]);
   ("tags", DMap (map (fun t => (tag_name t, DText (tag_value t))) tags));
   ("protocol", DList (map protocol_doc prots));
   ("cribl", DMap [("enable", named boolMap (g KLogStream)); ("transport", transport_doc CFG_LS);
                   ("authtoken", DText (str (g KAuthToken)))])].
End Doc.

(** ** With memory, the object is the document *)

(** The result of a construction with memory available. *)
Definition makes (j : J) (d : doc) : Prop := j [] = (Some (json_of d), []).
Definition adds (a : adder) (m : string * doc) : Prop :=
  forall ms, a [] (cJSON_Object ms) = (Some (cJSON_Object (ms ++ [(bytes_of m.1, json_of m.2)])), []).

Lemma object_makes l ms : Forall2 adds l ms -> makes (object_of l) (DMap ms).
Proof.
  intros F. unfold makes, object_of. change (cJSON_CreateObject []) with (Some (cJSON_Object []), @nil bool).
  assert (G : forall pre, foldl EvtFormat.then_add (Some (cJSON_Object pre), []) l =
    (Some (cJSON_Object (pre ++ map (fun m => (bytes_of m.1, json_of m.2)) ms)), [])); [|apply (G [])].
  induction F as [|a m l ms Ha F IH]; intros pre; cbn [foldl map]; [by rewrite app_nil_r|].
  unfold EvtFormat.then_add at 2. rewrite Ha. rewrite IH. by rewrite <- app_assoc.
Qed.

Lemma add_string_adds name s : adds (add_string name (Some s)) (name, DText s).
Proof. done. Qed.
Lemma add_opt_adds name o s : o = Some s -> adds (add_string name o) (name, DText s).
Proof. intros ->. done. Qed.
Lemma add_number_adds name n : adds (add_number name n) (name, DNum n).
Proof. done. Qed.
Lemma add_child_adds name j d : makes j d -> adds (add_child name j) (name, d).
Proof. intros M ms. unfold add_child. by rewrite M. Qed.
Lemma add_tag_adds t : adds (add_tag t) (tag_name t, DText (tag_value t)).
Proof. done. Qed.

Lemma array_makes {A} skip (create : A -> J) items (f : A -> doc) :
  (forall a, a ∈ items -> makes (create a) (f a)) -> makes (array_of skip create items) (DList (map f items)).
Proof.
  intros M. unfold makes, array_of. change (cJSON_CreateArray []) with (Some (cJSON_Array []), @nil bool).
  assert (G : forall pre, array_items skip create items (cJSON_Array pre) [] =
    (Some (cJSON_Array (pre ++ map json_of (map f items))), [])); [|apply (G [])].
  induction items as [|a items IH]; intros pre; cbn [array_items map]; [by rewrite app_nil_r|].
  rewrite M by left. cbn [cJSON_AddItemToArray]. rewrite IH by (intros; apply M; by right).
  by rewrite <- app_assoc.
Qed.

(** The expressions of the headers, as the accessor returns them. *)
Definition header_text (h : option header_extract_t) : option string :=
  match h with Some h => if valid h then Cfg.filter h else None | None => None end.
Definition headers_of (c : config_t) : list string := omap header_text (hextract (evt c)).

Lemma header_at c i x : hextract (evt c) !! i = Some x -> (Z.of_nat (length (hextract (evt c))) < 2 ^ 64) ->
  cfgEvtFormatHeader (Some c) (Z.of_nat i) = header_text x.
Proof.
  intros E L. pose proof (lookup_lt_Some _ _ _ E). cbn [cfgEvtFormatHeader].
  rewrite u64_small by lia. rewrite (proj2 (Z.ltb_lt _ _)) by lia. unfold at_. rewrite Nat2Z.id, E. done.
Qed.

Lemma add_headers_array_adds c : Z.of_nat (length (hextract (evt c))) < 2 ^ 64 ->
  adds (add_headers_array (Some c)) ("headers", DList (map DText (headers_of c))).
Proof.
  intros L ms. unfold add_headers_array. change (cJSON_CreateArray []) with (Some (cJSON_Array []), @nil bool).
  cbn [cfgEvtFormatNumHeaders]. unfold headers_of.
  assert (G : forall hs k pre, drop k (hextract (evt c)) = hs ->
    add_headers (Some c) (seqZ (Z.of_nat k) (Z.of_nat (length hs))) (cJSON_Array pre) [] =
    (cJSON_Array (pre ++ map json_of (map DText (omap header_text hs))), [])).
  { induction hs as [|h hs IH]; intros k pre D; [by cbn; rewrite app_nil_r|].
    assert (E : hextract (evt c) !! k = Some h) by (rewrite <- (Nat.add_0_r k), <- lookup_drop, D; done).
    assert (D' : drop (S k) (hextract (evt c)) = hs) by (rewrite (drop_S _ _ _ E) in D; by injection D).
    rewrite seqZ_cons by (cbn; lia). cbn [add_headers]. unfold add_header. rewrite (header_at _ _ _ E L).
    replace (Z.succ (Z.of_nat k)) with (Z.of_nat (S k)) by lia.
    replace (Z.pred (Z.of_nat (length (h :: hs)))) with (Z.of_nat (length hs)) by (cbn; lia).
    cbn [omap list_omap]. destruct (header_text h) as [x|].
    - cbn [allocs alloc cJSON_AddItemToArray]. rewrite IH by done. rewrite <- app_assoc. done.
    - by rewrite IH. }
  specialize (G (hextract (evt c)) 0%nat [] (drop_0 _)). cbn [app] in G. change (Z.of_nat 0) with 0 in G. rewrite G. done.
Qed.

Section Object.
Import CfgStore.
Variable c : config_t.

(** The options have values of their types, a transport has the strings that its
    type needs. *)
Record describable : Prop := {
  d_valid : forall k, valid_val k (get (Some c) k);
  d_net : forall t, num (get (Some c) (KType t)) = CFG_TCP \/ num (get (Some c) (KType t)) = CFG_UDP ->
            get (Some c) (KHost t) <> VStr None /\ get (Some c) (KPort t) <> VStr None;
  d_path : forall t, num (get (Some c) (KType t)) = CFG_UNIX \/ num (get (Some c) (KType t)) = CFG_FILE ->
            get (Some c) (KPath t) <> VStr None;
  d_headers : Z.of_nat (length (hextract (evt c))) < 2 ^ 64;
}.
Hypothesis D : describable.

Lemma known_name map v : (exists s, valToStr map (num v) = Some s) ->
  valToStr map (num v) = Some (default "" (valToStr map (num v))).
Proof. by intros [s ->]. Qed.

Lemma add_named name map v : (exists s, valToStr map (num v) = Some s) ->
  adds (add_string name (valToStr map (num v))) (name, named map v).
Proof. intros K. by apply add_opt_adds, known_name. Qed.

Lemma bool_name k : valid_val k (get (Some c) k) = num_in 0 1 (get (Some c) k) ->
  exists s, valToStr boolMap (num (get (Some c) k)) = Some s.
Proof.
  intros E. pose proof (d_valid D k) as V. rewrite E in V. destruct (get (Some c) k) as [n|]; [|done].
  cbn in V. assert (n = 0 \/ n = 1) as [-> | ->] by lia; by eexists.
Qed.

Lemma some_str k : valid_val k (get (Some c) k) = str_that nonblank (get (Some c) k) ->
  get (Some c) k = VStr (Some (str (get (Some c) k))).
Proof.
  intros E. pose proof (d_valid D k) as V. rewrite E in V. by destruct (get (Some c) k) as [|[]].
Qed.

Ltac entries := repeat match goal with |- Forall2 _ _ _ => constructor end.

Lemma tls_makes t : makes (createTlsJson (Some c) t) (tls_doc (get (Some c)) t).
Proof.
  apply object_makes. entries.
  - apply (add_named _ _ (get (Some c) (KTlsEnable t))), bool_name. done.
  - apply (add_named _ _ (get (Some c) (KTlsValidate t))), bool_name. done.
  - apply add_opt_adds. cbn [get str]. by destruct (cfgTransportTlsCACertPath _ _).
Qed.

Lemma transport_makes t : makes (createTransportJson (Some c) t) (transport_doc (get (Some c)) t).
Proof.
  pose proof (d_valid D (KType t)) as V. pose proof (d_net D t) as Dn. pose proof (d_path D t) as Dp.
  pose proof (d_valid D (KBuf t)) as Vb.
  apply object_makes. change (cfgTransportType (Some c) t) with (num (get (Some c) (KType t))).
  destruct (get (Some c) (KType t)) as [n|]; [|done]. cbn [num] in *. cbn in V. unfold CFG_UDP, CFG_EDGE in V.
  assert (Th : get (Some c) (KHost t) <> VStr None -> adds (add_string "host" (cfgTransportHost (Some c) t))
                 ("host", DText (str (get (Some c) (KHost t))))).
  { intros Dh. apply add_opt_adds. cbn [get] in *. by destruct (cfgTransportHost _ _). }
  assert (Tp : get (Some c) (KPort t) <> VStr None -> adds (add_string "port" (cfgTransportPort (Some c) t))
                 ("port", DText (str (get (Some c) (KPort t))))).
  { intros Dh. apply add_opt_adds. cbn [get] in *. by destruct (cfgTransportPort _ _). }
  assert (Ta : get (Some c) (KPath t) <> VStr None -> adds (add_string "path" (cfgTransportPath (Some c) t))
                 ("path", DText (str (get (Some c) (KPath t))))).
  { intros Dh. apply add_opt_adds. cbn [get] in *. by destruct (cfgTransportPath _ _). }
  assert (Tb : adds (add_string "buffering" (valToStr bufferMap (cfgTransportBuf (Some c) t)))
                 ("buffering", named bufferMap (get (Some c) (KBuf t)))).
  { apply (add_named _ _ (get (Some c) (KBuf t))). cbn in Vb. cbn [get num].
    assert (cfgTransportBuf (Some c) t = 0 \/ cfgTransportBuf (Some c) t = 1) as [-> | ->] by lia; by eexists. }
  unfold CFG_TCP, CFG_UDP, CFG_UNIX, CFG_FILE in *.
  assert (n = 0 \/ n = 1 \/ n = 2 \/ n = 3 \/ n = 4) as [-> |[-> |[-> |[-> | ->]]]] by lia;
    cbn [Z.eqb Pos.eqb orb]; entries;
    try (apply add_child_adds, tls_makes); try (by apply add_opt_adds); naive_solver.
Qed.

Lemma seqZ_cases n x : x ∈ seqZ 0 n -> 0 <= x < n.
Proof. rewrite elem_of_seqZ. lia. Qed.

Lemma metric_watch_makes : makes (createMetricWatchArrayJson (Some c)) (metric_watch_doc (get (Some c))).
Proof.
  unfold createMetricWatchArrayJson, metric_watch_doc.
  apply (array_makes false _ _ (fun category => DMap [("type", DText (default "" (fst <$> mtcWatchTypeMap !! Z.to_nat category)))])).
  intros x Hx. apply list_elem_of_In, filter_In in Hx as [Hx _]. apply list_elem_of_In, seqZ_cases in Hx.
  apply object_makes. constructor; [|constructor]. apply add_opt_adds.
  assert (x = 0 \/ x = 1 \/ x = 2 \/ x = 3 \/ x = 4 \/ x = 5) as [-> |[-> |[-> |[-> |[-> | ->]]]]] by lia; done.
Qed.

Lemma source_makes src : 0 <= src < 9 ->
  makes (createWatchObjectJson (Some c) src) (source_doc (get (Some c)) (headers_of c) src).
Proof.
  intros Hs. apply object_makes. apply Forall2_app.
  - entries; apply add_opt_adds.
    + assert (src = 0 \/ src = 1 \/ src = 2 \/ src = 3 \/ src = 4 \/ src = 5 \/ src = 6 \/ src = 7 \/ src = 8)
        as [-> |[-> |[-> |[-> |[-> |[-> |[-> |[-> | ->]]]]]]]] by lia; done.
    + pose proof (some_str (KNameFilter src) eq_refl) as E. by injection E.
    + pose proof (some_str (KFieldFilter src) eq_refl) as E. by injection E.
    + pose proof (some_str (KValueFilter src) eq_refl) as E. by injection E.
  - destruct (src =? CFG_SRC_HTTP); [constructor; [|constructor]; apply add_headers_array_adds, (d_headers D)|].
    destruct (src =? CFG_SRC_CONSOLE); [|constructor]. constructor; [|constructor].
    apply (add_named _ _ (get (Some c) KBinaryConsole)), bool_name. done.
Qed.

Ltac named_bool k := apply (add_named _ _ (get (Some c) k)), (bool_name k eq_refl).

Lemma metric_makes : makes (createMetricJson (Some c)) (metric_doc (get (Some c))).
Proof.
  apply object_makes. constructor; [named_bool KMtcEnable|]. constructor; [apply add_child_adds, transport_makes|].
  constructor; [apply add_child_adds|constructor; [apply add_child_adds, metric_watch_makes|constructor]].
  apply object_makes. constructor; [|entries; [by apply add_opt_adds|apply add_number_adds..]].
  apply (add_named _ _ (get (Some c) KMtcFormat)). pose proof (d_valid D KMtcFormat) as V. cbn in V. cbn [get num cfgMtcFormat].
  assert (mtc_format (mtc c) = 0 \/ mtc_format (mtc c) = 1) as [-> | ->] by lia; by eexists.
Qed.

Lemma libappview_makes : makes (createLibappviewJson (Some c)) (libappview_doc (get (Some c))).
Proof.
  apply object_makes. constructor; [apply add_child_adds|].
  { apply object_makes. constructor; [|constructor; [apply add_child_adds, transport_makes|constructor]].
    apply (add_named _ _ (get (Some c) KLogLevel)). pose proof (d_valid D KLogLevel) as V. cbn in V. cbn [get num].
    unfold CFG_LOG_NONE in V. set (n := log_level c) in *. change (cfgLogLevel (Some c)) with n.
    assert (n = 0 \/ n = 1 \/ n = 2 \/ n = 3 \/ n = 4 \/ n = 5) as [-> |[-> |[-> |[-> |[-> | ->]]]]] by lia; by eexists. }
  constructor; [apply add_child_adds; apply object_makes; constructor; [named_bool KCoredump|];
                constructor; [named_bool KBacktrace|constructor]|].
  constructor; [named_bool KStartMsg|]. constructor; [apply add_number_adds|]. constructor; [|constructor].
  apply add_opt_adds. pose proof (some_str KCmdDir eq_refl) as E. by injection E.
Qed.

Lemma event_makes : makes (createEventJson (Some c)) (event_doc (get (Some c)) (headers_of c)).
Proof.
  apply object_makes. constructor; [named_bool KEvtEnable|]. constructor; [apply add_child_adds, transport_makes|].
  constructor; [apply add_child_adds|constructor; [apply add_child_adds|constructor]].
  - apply object_makes. constructor; [|constructor; [apply add_number_adds|constructor; [named_bool KEnhanceFs|constructor]]].
    apply (add_named _ _ (get (Some c) KEvtFormat)). pose proof (d_valid D KEvtFormat) as V. cbn in V. cbn [get num cfgEventFormat].
    assert (evt_format (evt c) = 0 \/ evt_format (evt c) = 1) as [-> | ->] by lia; by eexists.
  - apply (array_makes true). intros src Hs. apply list_elem_of_In, filter_In in Hs as [Hs _].
    apply list_elem_of_In, seqZ_cases in Hs. by apply source_makes.
Qed.

Lemma protocol_makes p : protname p <> None -> regex p <> None -> makes (createProtocolEntryJson p) (protocol_doc p).
Proof.
  intros Hn Hr. apply object_makes. destruct p as [[n|] [r|] b d pl l t]; try done.
  entries; try apply add_number_adds; apply add_opt_adds; [done|done|by destruct b|by destruct d|by destruct pl].
Qed.

Lemma config_makes prots : Forall (fun p => protname p <> None /\ regex p <> None) prots ->
  makes (jsonObjectFromCfg (Some c) prots) (config_doc (get (Some c)) (live_tags c) (headers_of c) prots).
Proof.
  intros F. apply object_makes. constructor; [apply add_child_adds, metric_makes|].
  constructor; [apply add_child_adds, libappview_makes|]. constructor; [apply add_child_adds, event_makes|].
  constructor.
  { apply add_child_adds, object_makes. constructor; [named_bool KPayEnable|]. constructor; [|constructor].
    apply add_opt_adds. pose proof (some_str KPayDir eq_refl) as E. by injection E. }
  constructor.
  { apply add_child_adds, object_makes. unfold live_tags. cbn [cfgCustomTags]. destruct (tags c) as [l|]; [|constructor].
    induction (tag_prefix l); constructor; [apply add_tag_adds|done]. }
  constructor.
  { apply add_child_adds, array_makes. intros p Hp. rewrite Forall_forall in F. destruct (F p Hp). by apply protocol_makes. }
  constructor; [|constructor].
  apply add_child_adds, object_makes. constructor; [named_bool KLogStream|]. constructor; [apply add_child_adds, transport_makes|].
  constructor; [|constructor]. apply add_opt_adds. cbn [get str]. by destruct (cfgAuthToken _).
Qed.
End Object.
End Json.
End CfgJson.
