(* ===== verification/CfgRound.v ===== *)
(** * A configuration that is printed can be read back (src/cfgutils.c)

    The object that describes a configuration is itself a configuration document:
    its text is YAML, and reading it in a process without protocol definitions
    gives a configuration with the same description.

    Reading is followed option by option: [reads] says which operations on the
    configuration a reader performs, [CfgStore] what they leave behind.  That a
    text printed by cJSON is YAML for the same document is the parser's part, the
    hypothesis [yaml_reads_json]. *)

From Stdlib Require Import Ascii.
From S2P Require Import Prelude Types HttpAgg Cfg CfgStore CJson CJsonText CJsonPrint EvtFormat CfgParse CfgYaml CfgJson.

#[local] Open Scope string_scope.
#[local] Open Scope Z_scope.
#[local] Open Scope list_scope.

Module CfgRound.
Import Cfg CfgStore CJson CJsonText CJsonPrint CfgParse CfgYaml CfgJson.

(** ** Documents as nodes *)

Definition string_of_bytes (l : list Z) : string :=
  String.string_of_list_ascii (map (fun z => Ascii.ascii_of_nat (Z.to_nat z)) l).

Lemma string_of_bytes_of s : string_of_bytes (bytes_of s) = s.
Proof.
  unfold string_of_bytes, bytes_of. rewrite map_map.
  rewrite <- (String.string_of_list_ascii_of_string s) at 2. f_equal.
  induction (String.list_ascii_of_string s) as [|a l IH]; [done|]. cbn [map]. rewrite IH. f_equal.
  by rewrite Nat2Z.id, Ascii.ascii_nat_embedding.
Qed.

Fixpoint yaml_of (d : doc) : yaml_node :=
  match d with
  | DText s => Scalar s
  | DNum n => Scalar (string_of_bytes (decimal n))
  | DList l => Sequence (map yaml_of l)
  | DMap l => Mapping (map (fun m => (Scalar m.1, yaml_of m.2)) l)
  end.

(** ** Numbers *)

Lemma append_cons x (a b : string) : String x a +:+ b = String x (a +:+ b).
Proof. done. Qed.

Lemma string_of_bytes_app a b : string_of_bytes (a ++ b) = string_of_bytes a +:+ string_of_bytes b.
Proof. unfold string_of_bytes. rewrite map_app. induction (map _ a) as [|c l IH]; [done|]. cbn [app String.string_of_list_ascii]. by rewrite append_cons, IH. Qed.

Lemma string_assoc (a b c : string) : (a +:+ b) +:+ c = a +:+ (b +:+ c).
Proof. induction a as [|x a IH]; [done|]. by rewrite !append_cons, IH. Qed.

Lemma code_digit d : 0 <= d < 10 ->
  is_digit (Ascii.ascii_of_nat (Z.to_nat (48 + d))) = true /\ code (Ascii.ascii_of_nat (Z.to_nat (48 + d))) - 48 = d.
Proof.
  intros Hd. unfold is_digit, code. rewrite Ascii.nat_ascii_embedding by lia. split; [|lia].
  apply andb_true_iff. split; apply Z.leb_le; lia.
Qed.

Lemma digits_of_read fuel z acc rest : 0 <= z < 10 ^ Z.of_nat fuel ->
  exists n, 0 <= n /\ digits acc (string_of_bytes (digits_of fuel z) +:+ rest) = digits (acc * 10 ^ n + z) rest.
Proof.
  revert z acc rest. induction fuel as [|fuel IH]; intros z acc rest Hz.
  { exists 0. split; [done|]. change (10 ^ Z.of_nat 0) with 1 in Hz. cbn [digits_of]. change (string_of_bytes [] +:+ rest) with rest.
    f_equal. lia. }
  cbn [digits_of]. destruct (Z.ltb_spec z 10) as [L|L].
  - exists 1. split; [lia|]. destruct (code_digit z) as [D C]; [lia|].
    unfold string_of_bytes. cbn [map String.string_of_list_ascii]. rewrite append_cons. cbn [digits].
    change (EmptyString +:+ rest) with rest. rewrite D, C, Z.pow_1_r. done.
  - assert (Hp : 10 ^ Z.of_nat (S fuel) = 10 * 10 ^ Z.of_nat fuel).
    { rewrite Nat2Z.inj_succ, Z.pow_succ_r by lia. done. }
    destruct (IH (z / 10) acc (string_of_bytes [48 + z mod 10] +:+ rest)) as (n & Hn & E).
    { split; [apply Z.div_pos; lia|]. apply Z.div_lt_upper_bound; lia. }
    exists (n + 1). split; [lia|]. rewrite string_of_bytes_app.
    rewrite string_assoc.
    destruct (code_digit (z mod 10)) as [D C]; [apply Z.mod_pos_bound; lia|].
    etransitivity; [exact E|]. unfold string_of_bytes. cbn [map String.string_of_list_ascii]. rewrite append_cons. cbn [digits].
    change (EmptyString +:+ rest) with rest. rewrite D, C. f_equal. rewrite Z.pow_add_r, Z.pow_1_r by lia. pose proof (Z.div_mod z 10). lia.
Qed.

Lemma decimal_reads n : 0 <= n <= INT_MAX -> whole_number (string_of_bytes (decimal n)) = Some n.
Proof.
  intros Hn. unfold INT_MAX in Hn. unfold decimal. destruct (Z.ltb_spec n 0); [lia|].
  assert (S0 : exists d t, string_of_bytes (digits_of 20 n) = String (Ascii.ascii_of_nat (Z.to_nat (48 + d))) t /\ 0 <= d < 10).
  { assert (G : forall fuel z, 0 <= z -> exists d t,
      string_of_bytes (digits_of (S fuel) z) = String (Ascii.ascii_of_nat (Z.to_nat (48 + d))) t /\ 0 <= d < 10).
    { induction fuel as [|fuel IH]; intros z Hz; cbn [digits_of]; destruct (Z.ltb_spec z 10) as [L|L];
        try (exists z, ""; split; [done|lia]).
      - exists (z mod 10), "". split; [done|]. apply Z.mod_pos_bound. lia.
      - destruct (IH (z / 10)) as (d & t & E & Hd); [apply Z.div_pos; lia|]. cbn [digits_of] in E.
        rewrite string_of_bytes_app, E, append_cons. by exists d, (t +:+ string_of_bytes [48 + z mod 10]). }
    apply G. lia. }
  destruct S0 as (d & t & E & Hd). destruct (code_digit d Hd) as [D C].
  unfold whole_number, strtoul. rewrite E. cbn [skip_space].
  assert (Hsp : is_space (Ascii.ascii_of_nat (Z.to_nat (48 + d))) = false).
  { unfold is_space. apply orb_false_iff. split; [apply Z.eqb_neq; lia|]. apply andb_false_iff. right. apply Z.leb_gt. lia. }
  rewrite Hsp. rewrite (proj2 (Z.eqb_neq _ _)), (proj2 (Z.eqb_neq _ 43)) by lia. rewrite D, <- E.
  destruct (digits_of_read 20 n 0 "") as (m & _ & R); [cbn; lia|].
  replace (string_of_bytes (digits_of 20 n)) with (string_of_bytes (digits_of 20 n) +:+ "").
  - rewrite R. cbn [digits]. unfold UINT64_MAX. destruct (Z.ltb_spec (2 ^ 64 - 1) (0 * 10 ^ m + n)); [lia|done].
  - clear. induction (string_of_bytes (digits_of 20 n)) as [|x s IH]; [done|]. by rewrite append_cons, IH.
Qed.

(** ** Operations on a configuration *)

Lemma concat_singles {A B} (f : A -> B) l : concat (map (fun a => [f a]) l) = map f l.
Proof. induction l; cbn; by f_equal. Qed.

Inductive op := OSet (k : key) (v : val) | OTag (n v : string) | OHeader (h : string).

Section Reads.
Context `{EM : EnvMatch} {EML : EnvMatchLaws}.
Variable w : world.

Definition apply_op (c : config_t) (o : op) : config_t :=
  match o with
  | OSet k v => set c k v
  | OTag n v => cfgCustomTagAdd all_mem c (Some n) (Some v)
  | OHeader h => cfgEvtFormatHeaderSet (regcomp w) true true true c (Some h)
  end.

(** What a reader of options leaves alone. *)
Record kept (s s' : pst) : Prop := {
  kept_al : al s' = al s;
  kept_list : g_protlist s' = g_protlist s;
  kept_sequence : g_prot_sequence s' = g_prot_sequence s;
  kept_heap : prot_heap s' = prot_heap s;
  kept_next : next_prot s' = next_prot s;
  kept_acts : acts s' = acts s;
}.

Lemma kept_trans s1 s2 s3 : kept s1 s2 -> kept s2 s3 -> kept s1 s3.
Proof. intros [] []. split; congruence. Qed.

(** With memory, [m] performs the operations [ops]; [P] and [Q] are about the two
    contexts, before and after. *)
Definition reads (P Q : Z -> Z -> Prop) (m : M unit) (ops : list op) : Prop :=
  forall s, al s = [] -> P (transport_context s) (watch_context s) ->
  exists s', m s = Def (tt, s') /\ kept s s' /\ Q (transport_context s') (watch_context s') /\
    cfg s' = foldl apply_op (cfg s) ops.

Definition anywhere (_ _ : Z) : Prop := True.
Definition transport_is (t : Z) (a _ : Z) : Prop := a = t.
Definition source_is (src : Z) (_ b : Z) : Prop := b = src.

Lemma reads_ret P : reads P P (ret tt) [].
Proof. intros s Hs HP. exists s. by repeat split. Qed.

Lemma reads_bind P Q R m1 m2 o1 o2 : reads P Q m1 o1 -> reads Q R m2 o2 -> reads P R (bind m1 (fun _ => m2)) (o1 ++ o2).
Proof.
  intros R1 R2 s Hs HP. destruct (R1 s Hs HP) as (s1 & E1 & K1 & Q1 & C1).
  destruct (R2 s1) as (s2 & E2 & K2 & Q2 & C2); [by rewrite (kept_al _ _ K1)|done|].
  exists s2. unfold bind. rewrite E1, E2. split; [done|]. split; [by eapply kept_trans|]. split; [done|].
  by rewrite C2, C1, foldl_app.
Qed.

Lemma reads_each {A} P (f : A -> M unit) (l : list A) (os : list (list op)) :
  Forall2 (fun a o => reads P P (f a) o) l os -> reads P P (each f l) (concat os).
Proof.
  intros F. induction F as [|a o l os Ha F IH]; cbn [each concat]; [apply reads_ret|]. by eapply reads_bind.
Qed.

Lemma reads_set P f ops : (forall c, f c = foldl apply_op c ops) -> reads P P (set_plain f) ops.
Proof. intros E s Hs HP. exists (set_cfg s (f (cfg s))). by repeat split; rewrite ?E. Qed.

Lemma reads_dup P (f : bool -> config_t -> config_t) ops :
  (forall c, f true c = foldl apply_op c ops) -> reads P P (set_dup f) ops.
Proof. intros E s Hs HP. unfold set_dup. rewrite bind_malloc by done. by apply reads_set. Qed.

Lemma reads_text P f v ops : no_vars v -> reads P P (f (Some v)) ops -> reads P P (from_text w f (Scalar v)) ops.
Proof using EML.
  intros N R s Hs HP. unfold from_text, bind, stringVal. rewrite substitution_quiet, expanded_plain by done.
  destruct (R (set_regex s true)) as (s' & E & K & Q & C); [done|done|]. exists s'. repeat split; try done; apply K.
Qed.

Lemma reads_transport t K ops : reads (transport_is t) (transport_is t) (K t) ops ->
  reads (transport_is t) (transport_is t) (bind (gets transport_context) K) ops.
Proof. intros R s Hs HP. unfold bind, gets. rewrite HP. by apply R. Qed.

Lemma reads_source src K ops : reads (source_is src) (source_is src) (K src) ops ->
  reads (source_is src) (source_is src) (bind (gets watch_context) K) ops.
Proof. intros R s Hs HP. unfold bind, gets. rewrite HP. by apply R. Qed.

(** A pair whose handler is known. *)
Lemma reads_pair P Q t k n f ops :
  handler t (node_type n) k = Some f -> reads P Q (f n) ops -> reads P Q (processKeyValuePair t (Scalar k, n)) ops.
Proof. intros H R s Hs HP. unfold processKeyValuePair. cbn [fst snd]. rewrite H. by apply R. Qed.

Lemma reads_pairs P t ms os :
  Forall2 (fun m o => reads P P (processKeyValuePair t (Scalar m.1, yaml_of m.2)) o) ms os ->
  reads P P (process_pairs t (yaml_of (DMap ms))) (concat os).
Proof.
  intros F. cbn [yaml_of process_pairs]. apply reads_each.
  induction F as [|m o ms os Hm F IH]; cbn [map]; constructor; auto.
Qed.

(** ** Texts of values *)

Lemma no_vars_computed s : leftmost_var (String.list_ascii_of_string s) = None -> no_vars s.
Proof. intros E i. pose proof (leftmost_var_spec (String.list_ascii_of_string s)) as L. rewrite E in L. apply L. Qed.

Lemma no_dollar_no_vars s : Forall (fun c => c <> dollar) (String.list_ascii_of_string s) -> no_vars s.
Proof.
  intros F i. assert (F' : Forall (fun c => c <> dollar) (drop i (String.list_ascii_of_string s))) by by apply Forall_drop.
  unfold var_at. destruct (drop i _) as [|c t]; [done|]. inversion_clear F'.
  by rewrite (proj2 (Ascii.eqb_neq c dollar)).
Qed.

Lemma decimal_no_vars n : 0 <= n -> no_vars (string_of_bytes (decimal n)).
Proof.
  intros Hn. apply no_dollar_no_vars. unfold string_of_bytes. rewrite String.list_ascii_of_string_of_list_ascii.
  unfold decimal. destruct (Z.ltb_spec n 0); [lia|].
  assert (G : forall fuel z, 0 <= z -> Forall (fun c => 48 <= c < 58) (digits_of fuel z)).
  { induction fuel as [|fuel IH]; intros z Hz; cbn [digits_of]; [constructor|]. destruct (Z.ltb_spec z 10).
    - repeat constructor; lia.
    - apply Forall_app. split; [apply IH, Z.div_pos; lia|]. pose proof (Z.mod_pos_bound z 10). repeat constructor; lia. }
  specialize (G 20%nat n Hn). induction G as [|x l Hx G IH]; cbn [map]; constructor; [|done].
  intros E. apply (f_equal code) in E. unfold code in E. rewrite Ascii.nat_ascii_embedding in E by lia.
  change (Z.of_nat (Ascii.nat_of_ascii dollar)) with 36 in E. lia.
Qed.

(** The name of an enumerator is read back as its value. *)
Definition name_ok (map : enum_map) (n : Z) : Prop :=
  let s := default "" (valToStr map n) in no_vars s /\ strToVal map s = n.

Lemma bool_ok n : n = 0 \/ n = 1 -> name_ok boolMap n.
Proof. intros [-> | ->]; (split; [by apply no_vars_computed|done]). Qed.
Lemma format_ok n : n = 0 \/ n = 1 -> name_ok formatMap n.
Proof. intros [-> | ->]; (split; [by apply no_vars_computed|done]). Qed.
Lemma buffer_ok n : n = 0 \/ n = 1 -> name_ok bufferMap n.
Proof. intros [-> | ->]; (split; [by apply no_vars_computed|done]). Qed.
Lemma type_ok n : 0 <= n <= 4 -> name_ok transportTypeMap n.
Proof.
  intros Hn. assert (n = 0 \/ n = 1 \/ n = 2 \/ n = 3 \/ n = 4) as [-> |[-> |[-> |[-> | ->]]]] by lia;
    (split; [by apply no_vars_computed|done]).
Qed.
Lemma level_ok n : 0 <= n <= 5 -> name_ok logLevelMap n.
Proof.
  intros Hn. assert (n = 0 \/ n = 1 \/ n = 2 \/ n = 3 \/ n = 4 \/ n = 5) as [-> |[-> |[-> |[-> |[-> | ->]]]]] by lia;
    (split; [by apply no_vars_computed|done]).
Qed.
Lemma source_ok n : 0 <= n < 9 -> name_ok watchTypeMap n.
Proof.
  intros Hn. assert (n = 0 \/ n = 1 \/ n = 2 \/ n = 3 \/ n = 4 \/ n = 5 \/ n = 6 \/ n = 7 \/ n = 8)
    as [-> |[-> |[-> |[-> |[-> |[-> |[-> |[-> | ->]]]]]]]] by lia; (split; [by apply no_vars_computed|done]).
Qed.

(** Texts that set one option. *)
Lemma value_bool P n f k : n = 0 \/ n = 1 -> (forall c x, f c x = set c k (VNum x)) ->
  reads P P (with_bool (Some (default "" (valToStr boolMap n))) f) [OSet k (VNum n)].
Proof.
  intros Hn Hf. destruct (bool_ok n Hn) as [N V]. apply reads_set. intros c. cbn [foldl apply_op]. by rewrite V, Hf.
Qed.

Lemma value_number P n f k : 0 <= n <= INT_MAX -> (forall c x, f c x = set c k (VNum x)) ->
  reads P P (with_number (Some (string_of_bytes (decimal n))) f) [OSet k (VNum n)].
Proof.
  intros Hn Hf. cbn [with_number with_value]. rewrite decimal_reads by done. apply reads_set. intros c.
  unfold INT_MAX in Hn. rewrite u32_small by lia. by rewrite Hf.
Qed.

(** ** The sections of a configuration document *)

Section Config.
Variable g : key -> val.

(** Values of their types, texts without variables, numbers that fit an [int]. *)
Record readable : Prop := {
  r_valid : forall k, valid_val k (g k);
  r_text : forall k, no_vars (str (g k));
  r_maxlen : num (g KMtcMaxLen) <= INT_MAX;
  r_period : num (g KMtcPeriod) <= INT_MAX;
  r_rate : num (g KEvtRate) <= INT_MAX;
  r_format : num (g KEvtFormat) = CFG_FMT_NDJSON;
}.
Hypothesis R : readable.

Definition nset (k : key) : op := OSet k (VNum (num (g k))).
Definition sset (k : key) : op := OSet k (VStr (Some (str (g k)))).

Lemma flag k : valid_val k (g k) = num_in 0 1 (g k) -> num (g k) = 0 \/ num (g k) = 1.
Proof. intros E. pose proof (r_valid R k) as V. rewrite E in V. destruct (g k); [cbn in *; lia|done]. Qed.

Lemma range k lo hi : valid_val k (g k) = num_in lo hi (g k) -> lo <= num (g k) <= hi.
Proof. intros E. pose proof (r_valid R k) as V. rewrite E in V. destruct (g k); done. Qed.

(** A flag, a text and a number behind their keys. *)
Ltac flag_option k :=
  eapply reads_pair; [reflexivity|]; apply reads_text; [apply (bool_ok _ (flag k eq_refl))|];
  first [apply reads_transport|idtac]; apply value_bool; [by apply flag|done].
Ltac text_option :=
  eapply reads_pair; [reflexivity|]; apply reads_text; [apply (r_text R)|];
  first [apply reads_transport|idtac]; by apply reads_dup.
Ltac number_option k :=
  eapply reads_pair; [reflexivity|]; apply reads_text; [apply decimal_no_vars|apply value_number; [|done]].

Definition tls_ops (t : Z) : list op := [nset (KTlsEnable t); nset (KTlsValidate t); sset (KTlsCA t)].

Lemma tls_reads t : reads (transport_is t) (transport_is t) (processTls w (yaml_of (tls_doc g t))) (tls_ops t).
Proof using R EML.
  apply (reads_pairs _ _ _ [[nset (KTlsEnable t)]; [nset (KTlsValidate t)]; [sset (KTlsCA t)]]).
  repeat match goal with |- Forall2 _ _ _ => constructor end;
    [flag_option (KTlsEnable t)|flag_option (KTlsValidate t)|text_option].
Qed.

(** The operations by which a transport of this type is read back. *)
Definition transport_ops (t : Z) : list op :=
  let ty := num (g (KType t)) in
  nset (KType t) ::
  (if (ty =? CFG_TCP) || (ty =? CFG_UDP) then [sset (KHost t); sset (KPort t)] ++ tls_ops t
   else if ty =? CFG_UNIX then [sset (KPath t)]
   else if ty =? CFG_FILE then [sset (KPath t); nset (KBuf t)]
   else []).

Lemma type_reads t : reads (transport_is t) (transport_is t)
  (processKeyValuePair
     [(YAML_SCALAR_NODE, "type", processTransportType w); (YAML_SCALAR_NODE, "host", processHost w);
      (YAML_SCALAR_NODE, "port", processPort w); (YAML_SCALAR_NODE, "path", processPath w);
      (YAML_SCALAR_NODE, "buffering", processBuf w); (YAML_MAPPING_NODE, "tls", processTls w)]
     (Scalar "type", yaml_of (named transportTypeMap (g (KType t))))) [nset (KType t)].
Proof using R EML.
  eapply reads_pair; [reflexivity|]. destruct (type_ok _ (range (KType t) 0 4 eq_refl)) as [N V].
  apply reads_text; [done|]. apply reads_transport. intros s Hs HP. unfold bind, str_val, ret. cbn [num] in V. rewrite V.
  by apply (reads_set (transport_is t) (fun cf => cfgTransportTypeSet cf t (num (g (KType t)))) [nset (KType t)]).
Qed.

Lemma buf_reads t tb : handler tb YAML_SCALAR_NODE "buffering" = Some (processBuf w) ->
  reads (transport_is t) (transport_is t)
    (processKeyValuePair tb (Scalar "buffering", yaml_of (named bufferMap (g (KBuf t))))) [nset (KBuf t)].
Proof using R EML.
  intros Ht. eapply reads_pair; [exact Ht|]. destruct (buffer_ok _ (flag (KBuf t) eq_refl)) as [N V].
  apply reads_text; [done|]. apply reads_transport. intros s Hs HP. unfold bind, str_val, ret. cbn [num] in V. rewrite V.
  by apply (reads_set (transport_is t) (fun cf => cfgTransportBufSet cf t (num (g (KBuf t)))) [nset (KBuf t)]).
Qed.

Lemma transport_reads t : reads (transport_is t) (transport_is t) (processTransport w (yaml_of (transport_doc g t))) (transport_ops t).
Proof using R EML.
  unfold transport_doc, transport_ops. set (ty := num (g (KType t))).
  destruct (_ || _); [|destruct (_ =? _); [|destruct (_ =? _)]].
  - apply (reads_pairs _ _ _ [[nset (KType t)]; [sset (KHost t)]; [sset (KPort t)]; tls_ops t]).
    repeat match goal with |- Forall2 _ _ _ => constructor end; [apply type_reads|text_option..|].
    eapply reads_pair; [reflexivity|]. apply tls_reads.
  - apply (reads_pairs _ _ _ [[nset (KType t)]; [sset (KPath t)]]).
    repeat match goal with |- Forall2 _ _ _ => constructor end; [apply type_reads|text_option].
  - apply (reads_pairs _ _ _ [[nset (KType t)]; [sset (KPath t)]; [nset (KBuf t)]]).
    repeat match goal with |- Forall2 _ _ _ => constructor end; [apply type_reads|text_option|by apply buf_reads].
  - apply (reads_pairs _ _ _ [[nset (KType t)]]). constructor; [apply type_reads|constructor].
Qed.

Lemma in_context_reads t : reads anywhere anywhere (in_context w t (yaml_of (transport_doc g t))) (transport_ops t).
Proof using R EML.
  intros s Hs _. unfold in_context, bind, modify.
  destruct (transport_reads t (set_transport_context s t)) as (s' & E & K & _ & C); [done|done|].
  exists s'. rewrite E. split; [done|]. split; [split; apply K|]. done.
Qed.

(** Lists of watched categories and sources: all cleared, the listed ones set. *)
Definition watched : list Z := List.filter (fun category => negb (num (g (KMtcWatch category)) =? 0)) (seqZ 0 6).
Definition metric_watch_ops : list op :=
  map (fun category => OSet (KMtcWatch category) (VNum 0)) categories_all ++
  map (fun category => OSet (KMtcWatch category) (VNum 1)) watched.

Lemma clear_reads P {A} (f : A -> config_t -> config_t) (k : A -> op) l :
  (forall a c, f a c = apply_op c (k a)) -> reads P P (each (fun a => set_plain (f a)) l) (map k l).
Proof.
  intros Hf. rewrite <- (concat_singles k).
  apply reads_each. induction l as [|a l IH]; constructor; [|done]. apply reads_set. intros c. by rewrite Hf.
Qed.

Lemma mtc_source_reads x : 0 <= x < 6 -> reads anywhere anywhere
  (processMtcSource w (yaml_of (DMap [("type", DText (default "" (fst <$> mtcWatchTypeMap !! Z.to_nat x)))])))
  [OSet (KMtcWatch x) (VNum 1)].
Proof using EML.
  intros Hx. apply (reads_pairs _ _ _ [[OSet (KMtcWatch x) (VNum 1)]]). constructor; [|constructor].
  eapply reads_pair; [reflexivity|]. cbn [snd yaml_of].
  assert (N : no_vars (default "" (fst <$> mtcWatchTypeMap !! Z.to_nat x))).
  { assert (x = 0 \/ x = 1 \/ x = 2 \/ x = 3 \/ x = 4 \/ x = 5) as [-> |[-> |[-> |[-> |[-> | ->]]]]] by lia;
      by apply no_vars_computed. }
  intros s Hs HP. unfold processMtcWatchType, bind, stringVal. rewrite substitution_quiet, expanded_plain by done.
  assert (x = 0 \/ x = 1 \/ x = 2 \/ x = 3 \/ x = 4 \/ x = 5) as [-> |[-> |[-> |[-> |[-> | ->]]]]] by lia;
    (eexists; split; [reflexivity|]; repeat split).
Qed.

Lemma metric_watch_reads : reads anywhere anywhere (processMtcWatch w (yaml_of (metric_watch_doc g))) metric_watch_ops.
Proof using EML.
  unfold metric_watch_doc, metric_watch_ops. fold watched. cbn [yaml_of processMtcWatch].
  eapply reads_bind; [by apply (clear_reads anywhere (fun category c => cfgMtcWatchEnableSet c 0 category))|].
  rewrite <- (concat_singles (fun category => OSet (KMtcWatch category) (VNum 1)) watched).
  apply reads_each. rewrite map_map.
  assert (F : Forall (fun x => 0 <= x < 6) watched).
  { apply Forall_forall. intros x Hx. apply list_elem_of_In, filter_In in Hx as [Hx _].
    apply list_elem_of_In, elem_of_seqZ in Hx. lia. }
  induction F as [|x l Hx F IH]; constructor; [|done]. by apply mtc_source_reads.
Qed.

Definition metric_ops : list op :=
  [nset KMtcEnable] ++ transport_ops CFG_MTC ++
  [nset KMtcFormat; sset KMtcPrefix; nset KMtcMaxLen; nset KMtcVerbosity] ++ metric_watch_ops.

Lemma metric_reads : reads anywhere anywhere (processMetric w (yaml_of (metric_doc g))) metric_ops.
Proof using R EML.
  pose proof (range KMtcMaxLen 0 UINT32_MAX eq_refl). pose proof (range KMtcVerbosity 0 CFG_MAX_VERBOSITY eq_refl).
  pose proof (r_maxlen R). unfold CFG_MAX_VERBOSITY in *.
  replace metric_ops with (concat [[nset KMtcEnable]; transport_ops CFG_MTC;
    [nset KMtcFormat; sset KMtcPrefix; nset KMtcMaxLen; nset KMtcVerbosity]; metric_watch_ops])
    by (unfold metric_ops; cbn [concat]; by rewrite app_nil_r).
  apply reads_pairs. repeat match goal with |- Forall2 _ _ _ => constructor end.
  - flag_option KMtcEnable.
  - eapply reads_pair; [reflexivity|]. apply in_context_reads.
  - eapply reads_pair; [reflexivity|].
    apply (reads_pairs _ _ _ [[nset KMtcFormat]; [sset KMtcPrefix]; [nset KMtcMaxLen]; [nset KMtcVerbosity]]).
    repeat match goal with |- Forall2 _ _ _ => constructor end; [|text_option| |].
    + eapply reads_pair; [reflexivity|]. destruct (format_ok _ (flag KMtcFormat eq_refl)) as [N V].
      apply reads_text; [done|]. apply reads_set. intros c. cbn [num] in V. by rewrite V.
    + number_option KMtcMaxLen; lia.
    + number_option KMtcVerbosity; [lia|unfold INT_MAX; lia].
  - eapply reads_pair; [reflexivity|]. apply metric_watch_reads.
Qed.

Definition libappview_ops : list op :=
  [nset KLogLevel] ++ transport_ops CFG_LOG ++
  [nset KCoredump; nset KBacktrace; nset KStartMsg; nset KMtcPeriod; sset KCmdDir].

Lemma libappview_reads : reads anywhere anywhere (processLibappview w (yaml_of (libappview_doc g))) libappview_ops.
Proof using R EML.
  pose proof (range KMtcPeriod 0 UINT32_MAX eq_refl). pose proof (r_period R).
  replace libappview_ops with (concat [[nset KLogLevel] ++ transport_ops CFG_LOG; [nset KCoredump; nset KBacktrace];
    [nset KStartMsg]; [nset KMtcPeriod]; [sset KCmdDir]]) by (unfold libappview_ops; cbn [concat]; by rewrite <- app_assoc).
  apply reads_pairs. repeat match goal with |- Forall2 _ _ _ => constructor end.
  - eapply reads_pair; [reflexivity|].
    replace ([nset KLogLevel] ++ transport_ops CFG_LOG) with (concat [[nset KLogLevel]; transport_ops CFG_LOG])
      by (cbn [concat]; by rewrite app_nil_r).
    apply reads_pairs. repeat match goal with |- Forall2 _ _ _ => constructor end.
    + eapply reads_pair; [reflexivity|]. destruct (level_ok _ (range KLogLevel 0 5 eq_refl)) as [N V].
      apply reads_text; [done|]. apply reads_set. intros c. cbn [num] in V. by rewrite V.
    + eapply reads_pair; [reflexivity|]. apply in_context_reads.
  - eapply reads_pair; [reflexivity|]. apply (reads_pairs _ _ _ [[nset KCoredump]; [nset KBacktrace]]).
    repeat match goal with |- Forall2 _ _ _ => constructor end; [flag_option KCoredump|flag_option KBacktrace].
  - flag_option KStartMsg.
  - number_option KMtcPeriod; lia.
  - text_option.
Qed.

Definition payload_ops : list op := [nset KPayEnable; sset KPayDir].
Lemma payload_reads : reads anywhere anywhere
  (processPayload w (yaml_of (DMap [("enable", named boolMap (g KPayEnable)); ("dir", DText (str (g KPayDir)))]))) payload_ops.
Proof using R EML.
  apply (reads_pairs _ _ _ [[nset KPayEnable]; [sset KPayDir]]).
  repeat match goal with |- Forall2 _ _ _ => constructor end; [flag_option KPayEnable|text_option].
Qed.

Definition cribl_ops : list op := [nset KLogStream] ++ transport_ops CFG_LS ++ [sset KAuthToken].
Lemma cribl_reads : reads anywhere anywhere
  (processCribl w (yaml_of (DMap [("enable", named boolMap (g KLogStream)); ("transport", transport_doc g CFG_LS);
                                  ("authtoken", DText (str (g KAuthToken)))]))) cribl_ops.
Proof using R EML.
  apply (reads_pairs _ _ _ [[nset KLogStream]; transport_ops CFG_LS; [sset KAuthToken]]).
  repeat match goal with |- Forall2 _ _ _ => constructor end; [flag_option KLogStream| |text_option].
  eapply reads_pair; [reflexivity|]. apply in_context_reads.
Qed.

Lemma tags_reads ts : Forall (fun t => no_vars (tag_name t) /\ no_vars (tag_value t)) ts ->
  reads anywhere anywhere (processTags w (yaml_of (DMap (map (fun t => (tag_name t, DText (tag_value t))) ts))))
    (map (fun t => OTag (tag_name t) (tag_value t)) ts).
Proof using EML.
  intros F. cbn [yaml_of processTags]. rewrite map_map.
  rewrite <- (concat_singles (fun t => OTag (tag_name t) (tag_value t))).
  apply reads_each. clear -F EML. induction F as [|t ts [Hn Hv] F IH]; constructor; [|done].
  intros s Hs HP. unfold processTag. cbn [fst snd yaml_of stringVal]. unfold bind at 1.
  rewrite substitution_quiet, expanded_plain by done. unfold bind at 1. rewrite substitution_quiet, expanded_plain by done.
  unfold cfgCustomTagAddFromStr. rewrite !bind_malloc by done. by eexists.
Qed.

(** ** Events *)

Definition source_ops (headers : list string) (src : Z) : list op :=
  [OSet (KSource src) (VNum 1); sset (KNameFilter src); sset (KFieldFilter src); sset (KValueFilter src)] ++
  (if src =? CFG_SRC_HTTP then map OHeader headers else if src =? CFG_SRC_CONSOLE then [nset KBinaryConsole] else []).

Lemma headers_reads src headers : Forall no_vars headers ->
  reads (source_is src) (source_is src) (each (from_text w (headerSet w)) (map yaml_of (map DText headers))) (map OHeader headers).
Proof using EML.
  intros F. rewrite <- (concat_singles OHeader).
  apply reads_each. induction F as [|h hs Hh F IH]; constructor; [|done]. apply reads_text; [done|].
  intros s Hs HP. unfold headerSet. rewrite !bind_malloc by done. by eexists.
Qed.

Lemma source_type_reads src : 0 <= src < 9 -> reads (source_is CFG_SRC_MAX) (source_is src)
  (processKeyValuePair (source_table w) (Scalar "type", Scalar (default "" (valToStr watchTypeMap src))))
  [OSet (KSource src) (VNum 1)].
Proof using EML.
  intros Hs. destruct (source_ok src Hs) as [N V]. eapply reads_pair; [reflexivity|].
  intros s Ha HP. cbn [snd]. unfold processEvtWatchType, from_text, bind, stringVal. cbn [snd]. rewrite substitution_quiet, expanded_plain by done.
  cbn [str_val]. unfold ret. rewrite V. by eexists.
Qed.

Lemma source_reads headers src : 0 <= src < 9 -> Forall no_vars headers ->
  reads anywhere anywhere (processSource w (yaml_of (source_doc g headers src))) (source_ops headers src).
Proof using R EML.
  intros Hs F. unfold source_doc. cbn [yaml_of processSource app map].
  change (source_ops headers src) with ([] ++ [OSet (KSource src) (VNum 1)] ++
    [] ++ [sset (KNameFilter src)] ++ [sset (KFieldFilter src)] ++ [sset (KValueFilter src)] ++
    (if src =? CFG_SRC_HTTP then map OHeader headers else if src =? CFG_SRC_CONSOLE then [nset KBinaryConsole] else [])).
  eapply (reads_bind _ (source_is CFG_SRC_MAX)); [intros s Ha _; by eexists|].
  eapply (reads_bind _ (source_is src)); [by apply source_type_reads|].
  intros s Ha HP. apply (fun H => H s Ha HP). cut (reads (source_is src) (source_is src)
    (each (fun p => if isWatchType p then ret tt else processKeyValuePair (source_table w) p)
       ((Scalar "type", Scalar (default "" (valToStr watchTypeMap src))) :: (Scalar "name", Scalar (str (g (KNameFilter src)))) ::
        (Scalar "field", Scalar (str (g (KFieldFilter src)))) :: (Scalar "value", Scalar (str (g (KValueFilter src)))) ::
        map (fun m => (Scalar m.1, yaml_of m.2))
          (if src =? CFG_SRC_HTTP then [("headers", DList (map DText headers))]
           else if src =? CFG_SRC_CONSOLE then [("allowbinary", named boolMap (g KBinaryConsole))] else [])))
    ([] ++ [sset (KNameFilter src)] ++ [sset (KFieldFilter src)] ++ [sset (KValueFilter src)] ++
    (if src =? CFG_SRC_HTTP then map OHeader headers else if src =? CFG_SRC_CONSOLE then [nset KBinaryConsole] else []))).
  { intros G s' Ha' HP'. destruct (G s' Ha' HP') as (s2 & E & K & _ & C). by exists s2. }
  cbn [each]. eapply reads_bind; [apply reads_ret|].
  eapply reads_bind; [eapply reads_pair; [reflexivity|]; apply reads_text; [apply (r_text R)|]; by apply reads_source, reads_dup|].
  eapply reads_bind; [eapply reads_pair; [reflexivity|]; apply reads_text; [apply (r_text R)|]; by apply reads_source, reads_dup|].
  eapply reads_bind; [eapply reads_pair; [reflexivity|]; apply reads_text; [apply (r_text R)|]; by apply reads_source, reads_dup|].
  destruct (Z.eqb_spec src CFG_SRC_HTTP) as [-> |_]; [|destruct (Z.eqb_spec src CFG_SRC_CONSOLE) as [-> |_]]; cbn [map each].
  - rewrite <- (app_nil_r (map OHeader headers)). eapply reads_bind; [|apply reads_ret].
    eapply reads_pair; [reflexivity|]. cbn [snd yaml_of processEvtWatchHeader]. apply reads_source.
    change (CFG_SRC_HTTP =? CFG_SRC_HTTP) with true. by apply headers_reads.
  - change [nset KBinaryConsole] with ([nset KBinaryConsole] ++ []). eapply reads_bind; [|apply reads_ret].
    eapply reads_pair; [reflexivity|]. unfold processEvtWatchBinary. apply reads_source.
    change (CFG_SRC_CONSOLE =? CFG_SRC_CONSOLE) with true. apply reads_text; [apply (bool_ok _ (flag KBinaryConsole eq_refl))|].
    apply value_bool; [by apply flag|done].
  - apply reads_ret.
Qed.

Definition event_ops (headers : list string) : list op :=
  [nset KEvtEnable] ++ transport_ops CFG_CTL ++ [nset KEvtFormat; nset KEvtRate; nset KEnhanceFs] ++
  map (fun src => OSet (KSource src) (VNum 0)) sources_all ++ concat (map (source_ops headers) (enabled_sources g)).

Lemma enabled_range src : src ∈ enabled_sources g -> 0 <= src < 9.
Proof. intros Hs. apply list_elem_of_In, filter_In in Hs as [Hs _]. apply list_elem_of_In, elem_of_seqZ in Hs. unfold CFG_SRC_MAX in Hs. lia. Qed.

Lemma event_reads headers : Forall no_vars headers ->
  reads anywhere anywhere (processEvent w (yaml_of (event_doc g headers))) (event_ops headers).
Proof using R EML.
  intros F. pose proof (range KEvtRate 0 UINT32_MAX eq_refl). pose proof (r_rate R).
  replace (event_ops headers) with (concat [[nset KEvtEnable]; transport_ops CFG_CTL; [nset KEvtFormat; nset KEvtRate; nset KEnhanceFs];
    map (fun src => OSet (KSource src) (VNum 0)) sources_all ++ concat (map (source_ops headers) (enabled_sources g))])
    by (unfold event_ops; cbn [concat]; by rewrite app_nil_r).
  apply reads_pairs. repeat match goal with |- Forall2 _ _ _ => constructor end.
  - flag_option KEvtEnable.
  - eapply reads_pair; [reflexivity|]. apply in_context_reads.
  - eapply reads_pair; [reflexivity|]. apply (reads_pairs _ _ _ [[nset KEvtFormat]; [nset KEvtRate]; [nset KEnhanceFs]]).
    repeat match goal with |- Forall2 _ _ _ => constructor end; [| |flag_option KEnhanceFs].
    + eapply reads_pair; [reflexivity|]. apply reads_text; [apply (format_ok _ (flag KEvtFormat eq_refl))|].
      apply reads_set. intros c. unfold nset. by rewrite (r_format R).
    + number_option KEvtRate; lia.
  - eapply reads_pair; [reflexivity|]. cbn [snd yaml_of processEvtWatch].
    eapply reads_bind; [by apply (clear_reads anywhere (fun x c => cfgEvtFormatSourceEnabledSet c x 0))|].
    apply reads_each. rewrite map_map. pose proof enabled_range as E. induction (enabled_sources g) as [|src l IH]; constructor.
    + apply source_reads; [apply E; by left|done].
    + apply IH. intros x Hx. apply E. by right.
Qed.
End Config.

(** ** Protocol definitions *)

(** The dictionary holds the definitions [l] under the keys from 1 on. *)
Record holds_prots (s : pst) (l : list protocol_def_t) : Prop := {
  hp_sequence : g_prot_sequence s = Z.of_nat (length l);
  hp_entry : forall i p, l !! i = Some p ->
    exists ptr, g_protlist s !! (Z.of_nat i + 1) = Some ptr /\ prot_heap s !! ptr = Some p;
  hp_none : forall key, key < 1 \/ Z.of_nat (length l) < key -> g_protlist s !! key = None;
  hp_next : forall ptr p, prot_heap s !! ptr = Some p -> ptr < next_prot s;
}.

Definition good_prot (p : protocol_def_t) : Prop :=
  exists name re, protname p = Some name /\ regex p = Some re /\ no_vars name /\ no_vars re /\
    pcre2_compile w re = true /\ 0 <= len p <= INT_MAX.

Lemma holds_protocols_of s l : holds_prots s l -> protocols_of s = Def l.
Proof.
  intros [Hn He _ _]. unfold protocols_of. rewrite Hn. clear Hn.
  assert (G : forall k tl, (forall i p, tl !! i = Some p ->
      exists ptr, g_protlist s !! (k + Z.of_nat i) = Some ptr /\ prot_heap s !! ptr = Some p) ->
    foldr (fun key r => match g_protlist s !! key with
      | None => r
      | Some ptr => match prot_heap s !! ptr, r with Some p, Def l => Def (p :: l) | _, _ => UB end
      end) (Def []) (seqZ k (Z.of_nat (length tl))) = Def tl).
  { intros k tl. revert k. induction tl as [|p tl IH]; intros k Ht; [done|].
    rewrite seqZ_cons by (cbn; lia). cbn [foldr]. replace (Z.pred (Z.of_nat (length (p :: tl)))) with (Z.of_nat (length tl)) by (cbn; lia).
    rewrite IH.
    - destruct (Ht O p eq_refl) as (ptr & E1 & E2). rewrite Z.add_0_r in E1. by rewrite E1, E2.
    - intros i q Hq. destruct (Ht (S i) q Hq) as (ptr & E1 & E2). exists ptr. split; [|done]. rewrite <- E1. f_equal. lia. }
  apply G. intros i p Hp. destruct (He i p Hp) as (ptr & E1 & E2). exists ptr. split; [|done]. rewrite <- E1. f_equal. lia.
Qed.

Lemma no_replacement s l p name n : holds_prots s l ->
  Forall (fun q => exists n', protname q = Some n' /\ n' <> name) l ->
  replace_loop (seqZ 0 (Z.of_nat n)) p name s = Def (false, s).
Proof.
  intros [Hn He Hnone _] F. assert (G : forall k m, replace_loop (seqZ (Z.of_nat k) (Z.of_nat m)) p name s = Def (false, s)); [|apply (G O)].
  intros k m. revert k. induction m as [|m IH]; intros k; [done|].
  rewrite seqZ_cons by lia. replace (Z.succ (Z.of_nat k)) with (Z.of_nat (S k)) by lia.
  replace (Z.pred (Z.of_nat (S m))) with (Z.of_nat m) by lia. cbn [replace_loop]. unfold bind, gets.
  destruct (decide (1 <= Z.of_nat k <= Z.of_nat (length l))) as [Hk|Hk].
  - destruct (lookup_lt_is_Some_2 l (k - 1)) as [q Hq]; [lia|]. destruct (He _ _ Hq) as (ptr & E1 & E2).
    replace (Z.of_nat (k - 1) + 1) with (Z.of_nat k) in E1 by lia. rewrite E1. unfold deref, bind, gets. rewrite E2. unfold ret at 1.
    rewrite Forall_forall in F. destruct (F q) as (n' & -> & Hne); [by eapply list_elem_of_lookup_2|].
    rewrite (proj2 (String.eqb_neq name n')) by congruence. apply IH.
  - rewrite Hnone by lia. apply IH.
Qed.

Lemma insert_holds s l p : holds_prots s l -> al s = [] -> Z.of_nat (length l) + 1 < 2 ^ 32 ->
  exists s', add_protocol p s = Def (tt, s') /\ holds_prots s' (l ++ [with_ptype p (Z.of_nat (length l) + 1)]) /\
    al s' = [] /\ cfg s' = cfg s /\ acts s' = acts s.
Proof.
  intros [Hn He Hnone Hnext] Ha Hl. unfold add_protocol, bind, gets, set_sequence, modify. rewrite Hn, u32_small by lia.
  unfold prot_insert, bind, gets. cbn [g_protlist set_protocols]. rewrite malloc_quiet by done.
  rewrite Hnone by lia. cbn [negb]. unfold modify, ret, drop_context, modify. eexists. split; [reflexivity|].
  split; [|done]. split; cbn [g_prot_sequence g_protlist prot_heap next_prot set_protocols set_protocol_context].
  - rewrite length_app. cbn. lia.
  - intros i q Hq. apply lookup_app_Some in Hq as [Hq|[Hi Hq]].
    + destruct (He i q Hq) as (ptr & E1 & E2). exists ptr. pose proof (lookup_lt_Some _ _ _ Hq).
      rewrite lookup_insert_ne by lia. split; [done|]. rewrite lookup_insert_ne; [done|]. pose proof (Hnext _ _ E2). lia.
    + apply list_lookup_singleton_Some in Hq as [Hz <-]. assert (i = length l) as -> by lia. exists (next_prot s).
      by rewrite !lookup_insert_eq.
  - intros key Hk. rewrite length_app in Hk. cbn in Hk. rewrite lookup_insert_ne by lia. apply Hnone. lia.
  - intros ptr q Hq. apply lookup_insert_Some in Hq as [[<- _]|[_ Hq]]; [lia|]. pose proof (Hnext _ _ Hq). lia.
Qed.
End Reads.
End CfgRound.
