(* ===== verification/CfgTrip.v ===== *)
(** * The round trip of a configuration (src/cfgutils.c)

    [CfgRound] says which operations the sections of a printed configuration lead
    to.  Here these are put together: the protocol definitions and the whole
    document, the configuration that the operations leave behind, and the round
    trip through the text. *)

From Stdlib Require Import Ascii.
From S2P Require Import Prelude Types HttpAgg Cfg CfgStore CJson CJsonText CJsonPrint EvtFormat CtlMsg CfgParse CfgYaml CfgJson CfgRound.

#[local] Open Scope string_scope.
#[local] Open Scope Z_scope.
#[local] Open Scope list_scope.

Module CfgTrip.
Import Cfg CfgStore CJson CJsonText CJsonPrint CfgParse CfgYaml CfgJson CfgRound.

Section Whole.
Context `{EM : EnvMatch} {EML : EnvMatchLaws}.
Variable w : world.

(** ** Protocol definitions *)

(** A pair that changes the definition being read. *)
Lemma protocol_pair k n f s q q' :
  handler (protocol_table w) (node_type n) k = Some (fun n => on_protocol (f n)) ->
  protocol_context s = Some q -> f n q s = Def (q', set_regex s true) ->
  processKeyValuePair (protocol_table w) (Scalar k, n) s = Def (tt, set_protocol_context (set_regex s true) (Some q')).
Proof.
  intros Hh Hq Hf. unfold processKeyValuePair. cbn [fst snd]. rewrite Hh. unfold on_protocol, bind, gets. by rewrite Hq, Hf.
Qed.

Lemma bool_text_ok b : no_vars (default "" (bool_text b)) /\ strToVal boolMap (default "" (bool_text b)) = if b then 1 else 0.
Proof. destruct b; (split; [by apply no_vars_computed|done]). Qed.

Lemma protocol_bool_pair k set s q b :
  handler (protocol_table w) YAML_SCALAR_NODE k = Some (protocol_bool w set) ->
  protocol_context s = Some q -> al s = [] ->
  processKeyValuePair (protocol_table w) (Scalar k, Scalar (default "" (bool_text b))) s =
    Def (tt, set_protocol_context (set_regex s true) (Some (set q b))).
Proof using EML.
  intros Hh Hq Ha. destruct (bool_text_ok b) as [N V]. eapply protocol_pair; [exact Hh|exact Hq|].
  unfold bind at 1, stringVal. rewrite substitution_quiet, expanded_plain by done. unfold bind, str_val, ret. rewrite V.
  by destruct b.
Qed.

Lemma protocol_text_pair k set s q v :
  handler (protocol_table w) YAML_SCALAR_NODE k =
    Some (fun n => on_protocol (fun p => bind (stringVal w n) (fun v => ret (set p v)))) ->
  protocol_context s = Some q -> al s = [] -> no_vars v ->
  processKeyValuePair (protocol_table w) (Scalar k, Scalar v) s =
    Def (tt, set_protocol_context (set_regex s true) (Some (set q (Some v)))).
Proof using EML.
  intros Hh Hq Ha N. eapply protocol_pair; [exact Hh|exact Hq|].
  cbn beta. unfold bind, stringVal. by rewrite substitution_quiet, expanded_plain.
Qed.

Lemma protocol_len_pair s q n :
  protocol_context s = Some q -> al s = [] -> 0 <= n <= INT_MAX ->
  processKeyValuePair (protocol_table w) (Scalar "len", Scalar (string_of_bytes (decimal n))) s =
    Def (tt, set_protocol_context (set_regex s true) (Some (with_len q n))).
Proof using EML.
  intros Hq Ha Hn. eapply protocol_pair; [reflexivity|exact Hq|].
  unfold bind, stringVal. rewrite substitution_quiet, expanded_plain by (done || apply decimal_no_vars; lia).
  rewrite decimal_reads by done. unfold INT_MAX in Hn. by rewrite u32_small by lia.
Qed.

(** All fields of a definition but its number. *)
Lemma fields_read p name re s :
  protname p = Some name -> regex p = Some re -> no_vars name -> no_vars re -> 0 <= len p <= INT_MAX -> al s = [] ->
  protocol_context s = Some no_protocol ->
  each (processKeyValuePair (protocol_table w)) (map (fun m => (Scalar m.1, yaml_of m.2))
     [("name", DText (default "" (protname p))); ("regex", DText (default "" (regex p)));
      ("binary", DText (default "" (bool_text (binary p)))); ("len", DNum (len p));
      ("detect", DText (default "" (bool_text (detect p)))); ("payload", DText (default "" (bool_text (payload p))))]) s =
  Def (tt, set_protocol_context (set_regex s true) (Some (with_ptype p 0))).
Proof using EML.
  intros Hn Hr Nn Nr Hl Ha Hc. cbn [map each fst snd yaml_of]. rewrite Hn, Hr. cbn [default].
  unfold bind at 1. rewrite (protocol_text_pair "name" with_protname _ no_protocol) by done.
  unfold bind at 1. erewrite (protocol_text_pair "regex" with_regex) by done.
  unfold bind at 1. erewrite (protocol_bool_pair "binary" with_binary) by done.
  unfold bind at 1. erewrite protocol_len_pair by done.
  unfold bind at 1. erewrite (protocol_bool_pair "detect" with_detect) by done.
  unfold bind at 1. erewrite (protocol_bool_pair "payload" with_payload) by done.
  unfold ret. destruct p; cbn in *; subst. by destruct s.
Qed.

Lemma holds_same s s' l : holds_prots s l -> g_protlist s' = g_protlist s -> g_prot_sequence s' = g_prot_sequence s ->
  prot_heap s' = prot_heap s -> next_prot s' = next_prot s -> holds_prots s' l.
Proof. intros [] E1 E2 E3 E4. split; rewrite ?E1, ?E2, ?E3, ?E4; done. Qed.

Lemma entry_reads s l p :
  al s = [] -> holds_prots s l -> good_prot w p -> Z.of_nat (length l) + 1 < 2 ^ 32 ->
  Forall (fun q => exists n, protname q = Some n /\ Some n <> protname p) l ->
  exists s', processProtocolEntry w (yaml_of (protocol_doc p)) s = Def (tt, s') /\
    holds_prots s' (l ++ [with_ptype p (Z.of_nat (length l) + 1)]) /\ al s' = [] /\ cfg s' = cfg s /\ acts s' = acts s.
Proof using EML.
  intros Ha Hl (name & re & Hn & Hr & Nn & Nr & Hc & Hlen) Hm F.
  set (s1 := set_protocol_context (set_regex s true) (Some (with_ptype p 0))).
  assert (H1 : holds_prots s1 l) by (by eapply holds_same).
  destruct (insert_holds s1 l (with_ptype p 0) H1 Ha Hm) as (s' & E & H' & A' & C' & T').
  exists s'. split; [|by destruct p].
  unfold protocol_doc. cbn [yaml_of processProtocolEntry]. rewrite bind_malloc by done. unfold bind at 1, modify. cbn [negb].
  unfold bind at 1. rewrite (fields_read p name re) by done.
  change (set_protocol_context (set_regex (set_protocol_context s (Some no_protocol)) true) (Some (with_ptype p 0))) with s1.
  unfold bind at 1, gets. change (protocol_context s1) with (Some (with_ptype p 0)). cbn [protname regex with_ptype]. rewrite Hn, Hr, Hc.
  cbn [negb]. unfold bind at 1, gets.
  rewrite (hp_sequence _ _ H1). replace (Z.of_nat (length l) + 1) with (Z.of_nat (S (length l))) by lia.
  unfold bind at 1. rewrite (no_replacement s1 l); [exact E|done|].
  eapply Forall_impl; [exact F|]. intros q (n & Hq & Hne). exists n. split; [done|]. intros ->. by rewrite Hn in Hne.
Qed.

(** The same definition, with another number. *)
Definition renumbered (p p' : protocol_def_t) : Prop := p' = with_ptype p (ptype p').

Lemma renumbered_docs ps ps' : Forall2 renumbered ps ps' -> map protocol_doc ps' = map protocol_doc ps.
Proof using Type. induction 1 as [|p p' ps ps' -> F IH]; [done|]. cbn [map]. by rewrite IH. Qed.

Lemma protocols_read prots s l :
  al s = [] -> holds_prots s l -> Forall (good_prot w) prots -> NoDup (map protname (l ++ prots)) ->
  Forall (fun q => protname q <> None) l -> Z.of_nat (length l) + Z.of_nat (length prots) < 2 ^ 32 ->
  exists s' l', processProtocol w (yaml_of (DList (map protocol_doc prots))) s = Def (tt, s') /\
    holds_prots s' (l ++ l') /\ Forall2 renumbered prots l' /\
    al s' = [] /\ cfg s' = cfg s /\ acts s' = acts s.
Proof using EML.
  cbn [yaml_of processProtocol]. revert s l. induction prots as [|p prots IH]; intros s l Ha Hl G ND P Hb.
  { exists s, []. rewrite app_nil_r. by split_and!. }
  inversion_clear G as [|? ? Gp G']. cbn [length] in Hb.
  destruct (entry_reads s l p) as (s1 & E1 & H1 & A1 & C1 & T1); [done..|lia| |].
  { apply Forall_forall. intros q Hq. rewrite Forall_forall in P. specialize (P q Hq).
    destruct (protname q) as [n|] eqn:Eq; [|done]. exists n. split; [done|]. rewrite <- Eq. intros E.
    rewrite map_app in ND. apply NoDup_app in ND as (_ & ND & _). apply (ND (protname q)).
    - apply list_elem_of_fmap. eauto.
    - cbn [map]. rewrite E. by left. }
  set (p' := with_ptype p (Z.of_nat (length l) + 1)) in *.
  destruct (IH s1 (l ++ [p'])) as (s2 & l' & E2 & H2 & D2 & A2 & C2 & T2); [done..| | | |].
  - rewrite <- app_assoc. cbn [app]. rewrite map_app in *. cbn [map] in *. done.
  - apply Forall_app. split; [done|]. constructor; [|constructor]. destruct Gp as (n & re & Hn & _). cbn. by rewrite Hn.
  - rewrite length_app. cbn. lia.
  - exists s2, (p' :: l'). rewrite <- app_assoc in H2. cbn [map each]. unfold bind. rewrite E1, E2.
    split_and!; [done|done|by constructor|done|by rewrite C2|by rewrite T2].
Qed.

(** ** The whole document *)

Section Document.
Variable g : key -> val.
Variables (ts : list custom_tag_t) (hs : list string) (prots : list protocol_def_t).
Hypothesis R : readable g.
Hypothesis T : Forall (fun t => no_vars (tag_name t) /\ no_vars (tag_value t)) ts.
Hypothesis Hh : Forall no_vars hs.
Hypothesis G : Forall (good_prot w) prots.
Hypothesis ND : NoDup (map protname prots).
Hypothesis Hsize : Z.of_nat (length prots) < 2 ^ 32.

Definition tag_ops : list op := map (fun t => OTag (tag_name t) (tag_value t)) ts.
Definition config_ops : list op :=
  metric_ops g ++ libappview_ops g ++ event_ops g hs ++ payload_ops g ++ tag_ops ++ cribl_ops g.

Lemma holds_kept s s' l : holds_prots s l -> kept s s' -> holds_prots s' l.
Proof using Type. intros Hl []. by eapply holds_same. Qed.

(** The sections of a document. *)
Definition pairs_for (ms : list (string * doc)) : list (yaml_node * yaml_node) := map (fun m => (Scalar m.1, yaml_of m.2)) ms.

Lemma section_step k d ms f s s' r : handler (root_table w) (node_type (yaml_of d)) k = Some f -> f (yaml_of d) s = Def (tt, s') ->
  each (processKeyValuePair (root_table w)) (pairs_for ms) s' = r ->
  each (processKeyValuePair (root_table w)) (pairs_for ((k, d) :: ms)) s = r.
Proof using Type. intros Hf E <-. cbn [pairs_for map each fst snd]. unfold bind, processKeyValuePair at 1. cbn [fst snd]. by rewrite Hf, E. Qed.

Lemma no_custom f ms s : Forall (fun m => m.1 <> "custom") ms ->
  each (processKeyValuePair [(YAML_MAPPING_NODE, "custom", f)]) (pairs_for ms) s = Def (tt, s).
Proof using Type.
  induction 1 as [|m ms Hm F IH]; [done|]. cbn [pairs_for map each]. unfold bind, processKeyValuePair at 1, handler. cbn [fst snd List.find].
  rewrite (proj2 (String.eqb_neq _ _) Hm), andb_false_r. exact IH.
Qed.

Lemma document_read s : al s = [] -> holds_prots s [] ->
  exists s' l', setConfigFromDoc w (Some (yaml_of (config_doc g ts hs prots))) s = Def (tt, s') /\
    holds_prots s' l' /\ Forall2 renumbered prots l' /\
    cfg s' = foldl (apply_op w) (cfg s) config_ops /\ al s' = [] /\ acts s' = acts s.
Proof using EML R T Hh G ND Hsize.
  intros Ha Hp.
  destruct (metric_reads w g R s Ha I) as (s1 & E1 & K1 & _ & C1). pose proof (eq_trans (kept_al _ _ K1) Ha) as A1.
  destruct (libappview_reads w g R s1 A1 I) as (s2 & E2 & K2 & _ & C2). pose proof (eq_trans (kept_al _ _ K2) A1) as A2.
  destruct (event_reads w g R hs Hh s2 A2 I) as (s3 & E3 & K3 & _ & C3). pose proof (eq_trans (kept_al _ _ K3) A2) as A3.
  destruct (payload_reads w g R s3 A3 I) as (s4 & E4 & K4 & _ & C4). pose proof (eq_trans (kept_al _ _ K4) A3) as A4.
  destruct (tags_reads w ts T s4 A4 I) as (s5 & E5 & K5 & _ & C5). pose proof (eq_trans (kept_al _ _ K5) A4) as A5.
  assert (H5 : holds_prots s5 []) by (by repeat (eapply holds_kept; [|eassumption])).
  destruct (protocols_read prots s5 [] A5 H5 G ND) as (s6 & l' & E6 & H6 & D6 & A6 & C6 & T6); [done|cbn; lia|].
  destruct (cribl_reads w g R s6 A6 I) as (s7 & E7 & K7 & _ & C7).
  exists s7, l'. split_and!.
  - unfold setConfigFromDoc, config_doc. change (yaml_of (DMap ?l)) with (Mapping (pairs_for l)). cbn iota.
    unfold bind at 1, processRoot, pairs_of, bind at 1, ret at 1.
    match goal with |- match each ?f ?l s with _ => _ end = _ => assert (E : each f l s = Def (tt, s7)) end;
      [|rewrite E; by apply no_custom; repeat constructor].
    eapply section_step; [reflexivity|exact E1|]. eapply section_step; [reflexivity|exact E2|]. eapply section_step; [reflexivity|exact E3|].
    eapply section_step; [reflexivity|exact E4|]. eapply section_step; [reflexivity|exact E5|].
    eapply section_step; [reflexivity|exact E6|]. eapply section_step; [reflexivity|exact E7|]. reflexivity.
  - by eapply holds_kept.
  - done.
  - unfold config_ops. rewrite !foldl_app. by rewrite C7, C6, C5, C4, C3, C2, C1.
  - by rewrite (kept_al _ _ K7).
  - by rewrite (kept_acts _ _ K7), T6, (kept_acts _ _ K5), (kept_acts _ _ K4), (kept_acts _ _ K3), (kept_acts _ _ K2), (kept_acts _ _ K1).
Qed.
End Document.

(** ** What the operations leave behind *)

(** The configuration has the options [st], the tags [ts] and the headers [hs]. *)
Record tracks (c : config_t) (st : key -> val) (ts : list custom_tag_t) (hs : list string) : Prop := {
  t_shape : shape c;
  t_get : forall k, get (Some c) k = st k;
  t_tags : tags_wf c ts;
  t_headers : hextract (evt c) = map (fun h => Some (mkHeader true (Some h))) hs;
}.

Definition op_ok (o : op) : Prop :=
  match o with OSet _ v => arg_ok v | OTag _ _ => True | OHeader h => regcomp w h = true end.
Definition op_store (st : key -> val) (o : op) : key -> val := match o with OSet k v => store_write st (k, v) | _ => st end.
Definition op_tags (ts : list custom_tag_t) (o : op) : list custom_tag_t := match o with OTag n v => put_tag ts n v | _ => ts end.
Definition op_headers (hs : list string) (o : op) : list string := match o with OHeader h => hs ++ [h] | _ => hs end.

(** The tags and the headers among the operations. *)
Definition tag_pair (o : op) : option (string * string) := match o with OTag n v => Some (n, v) | _ => None end.
Definition header_op (o : op) : option string := match o with OHeader h => Some h | _ => None end.

Lemma set_frame c k v : tags (set c k v) = tags c /\ max_tags (set c k v) = max_tags c /\ hextract (evt (set c k v)) = hextract (evt c).
Proof using Type.
  destruct k, v; try done; unfold set;
    match goal with |- tags (?f _ _) = _ /\ _ => unfold f | |- tags (?f _ _ _) = _ /\ _ => unfold f
                  | |- tags (?f _ _ _ _) = _ /\ _ => unfold f end;
    repeat match goal with |- context [if ?b then _ else _] => destruct b end; done.
Qed.

(** Everything but the tags. *)
Definition same_options (c c' : config_t) : Prop :=
  (forall l n, with_max_tags (with_tags c' l) n = with_max_tags (with_tags c l) n).

Lemma same_get c c' k : same_options c c' -> get (Some c') k = get (Some c) k.
Proof using Type.
  intros S. specialize (S None 0).
  transitivity (get (Some (with_max_tags (with_tags c' None) 0)) k); [by destruct k|]. rewrite S. by destruct k.
Qed.

Lemma same_evt c c' : same_options c c' -> evt c' = evt c /\ transport c' = transport c.
Proof using Type. intros S. specialize (S None 0). destruct c, c'. by injection S. Qed.

Lemma tag_add_same c n v : same_options c (cfgCustomTagAdd all_mem c (Some n) (Some v)).
Proof using Type.
  intros l m. unfold cfgCustomTagAdd, tag_append.
  repeat match goal with |- context [match ?x with _ => _ end] => destruct x end; done.
Qed.

Lemma tracks_op_set c st ts hs o : tracks c st ts hs -> op_ok o -> tag_pair o = None ->
  tracks (apply_op w c o) (op_store st o) (op_tags ts o) (op_headers hs o).
Proof using Type.
  intros [S Ge T Hd] Ho Ht. destruct o as [k v|n v|h]; cbn [apply_op op_store op_tags op_headers op_ok] in *; [|done|].
  - destruct (set_frame c k v) as (F1 & F2 & F3). split; [by apply shape_set| | |by rewrite F3].
    + intros k'. rewrite set_stored by done. unfold stored, store_write. cbn [fst snd]. by rewrite !Ge.
    + destruct T as [T1 T2 T3]. split; rewrite ?F1, ?F2; done.
  - unfold cfgEvtFormatHeaderSet. cbn [negb]. rewrite Ho. cbn [strdup].
    split; [destruct S; by split|intros k; rewrite <- Ge; by destruct k|destruct T; by split|].
    cbn. by rewrite Hd, map_app.
Qed.

Lemma tracks_op c st ts hs o : tracks c st ts hs -> op_ok o -> Z.of_nat (length ts) < 2 ^ 28 ->
  tracks (apply_op w c o) (op_store st o) (op_tags ts o) (op_headers hs o).
Proof using Type.
  intros Tr Ho Hl. destruct o as [k v|n v|h]; [by apply tracks_op_set| |by apply tracks_op_set].
  destruct Tr as [S Ge T Hd]. pose proof (tag_add_same c n v) as Sm. destruct (same_evt _ _ Sm) as [Ee Et].
  split; [|by intros k; rewrite <- Ge; apply (same_get _ _ _ Sm)|by apply cfgCustomTagAdd_wf|by cbn [apply_op]; rewrite Ee].
  destruct S. by split; cbn [apply_op]; rewrite ?Ee, ?Et.
Qed.

Lemma tracks_ops ops : forall c st ts hs, tracks c st ts hs -> Forall op_ok ops ->
  Z.of_nat (length ts) + Z.of_nat (length (omap tag_pair ops)) <= 2 ^ 28 ->
  tracks (foldl (apply_op w) c ops) (foldl op_store st ops) (foldl (fun ts nv => put_tag ts nv.1 nv.2) ts (omap tag_pair ops))
    (hs ++ omap header_op ops).
Proof using Type.
  induction ops as [|o ops IH]; intros c st ts hs T F Hl; [cbn; by rewrite app_nil_r|]. inversion_clear F as [|? ? Ho F'].
  assert (Hlt : tag_pair o = None \/ Z.of_nat (length ts) < 2 ^ 28).
  { destruct (tag_pair o) eqn:E; [right|by left]. cbn [omap list_omap] in Hl. rewrite E in Hl. cbn in Hl. lia. }
  assert (T' : tracks (apply_op w c o) (op_store st o) (op_tags ts o) (op_headers hs o)).
  { destruct Hlt as [E|Hlt]; [|by apply tracks_op]. destruct o; try done; apply tracks_op_set; done. }
  cbn [foldl omap list_omap]. pose proof (IH _ _ _ _ T' F') as IH'. destruct o as [k v|n v|h]; cbn [tag_pair header_op op_tags op_headers] in *.
  - by apply IH'.
  - apply IH'. pose proof (put_tag_length ts n v). cbn [omap list_omap tag_pair length] in Hl. lia.
  - rewrite <- app_assoc in IH'. by apply IH'.
Qed.

(** ** The options of a printed configuration, read back *)

Section Options.
Variable g : key -> val.
Variables (ts : list custom_tag_t) (hs : list string).
Hypothesis R : readable g.

(** The value that is written for an option. *)
Definition canon (k : key) : val :=
  match k with
  | KMtcPrefix | KCmdDir | KValueFilter _ | KFieldFilter _ | KNameFilter _ | KHost _ | KPort _ | KPath _ | KTlsCA _
  | KPayDir | KAuthToken => VStr (Some (str (g k)))
  | _ => VNum (num (g k))
  end.
Definition canonical (o : op) : Prop := match o with OSet k v => v = canon k | _ => True end.

Definition watch_cleared : list op := map (fun category => OSet (KMtcWatch category) (VNum 0)) categories_all.
Definition sources_cleared : list op := map (fun src => OSet (KSource src) (VNum 0)) sources_all.

Definition part1 : list op := [nset g KMtcEnable] ++ transport_ops g CFG_MTC ++
  [nset g KMtcFormat; sset g KMtcPrefix; nset g KMtcMaxLen; nset g KMtcVerbosity].
Definition part2 : list op := map (fun category => OSet (KMtcWatch category) (VNum 1)) (watched g) ++
  libappview_ops g ++ [nset g KEvtEnable] ++ transport_ops g CFG_CTL ++ [nset g KEvtFormat; nset g KEvtRate; nset g KEnhanceFs].
Definition part3 : list op := concat (map (source_ops g hs) (enabled_sources g)) ++ payload_ops g ++ tag_ops ts ++ cribl_ops g.

Lemma config_ops_parts : config_ops g ts hs = part1 ++ watch_cleared ++ part2 ++ sources_cleared ++ part3.
Proof using Type.
  unfold config_ops, part1, part2, part3, metric_ops, event_ops, metric_watch_ops, watch_cleared, sources_cleared.
  by rewrite <- !app_assoc.
Qed.

Lemma transport_canonical t : Forall canonical (transport_ops g t).
Proof using Type.
  unfold transport_ops, tls_ops. constructor; [done|]. destruct (_ || _); [repeat constructor|].
  destruct (_ =? _); [repeat constructor|]. destruct (_ =? _); repeat constructor.
Qed.

Lemma flag_on k : valid_val k (g k) = num_in 0 1 (g k) -> negb (num (g k) =? 0) = true -> num (g k) = 1.
Proof using R. intros E N. destruct (flag g R k E) as [Z0|]; [|done]. by rewrite Z0 in N. Qed.

Lemma parts_canonical : Forall canonical part1 /\ Forall canonical part2 /\ Forall canonical part3.
Proof using R.
  split_and!; unfold part1, part2, part3, libappview_ops, payload_ops, cribl_ops, tag_ops; rewrite ?Forall_app; split_and!;
    try apply transport_canonical; try (by repeat constructor).
  - apply Forall_map, Forall_forall. intros x Hx. apply list_elem_of_In, filter_In in Hx as [_ Hx].
    cbn. by rewrite (flag_on (KMtcWatch x)).
  - apply Forall_concat, Forall_map, Forall_forall. intros x Hx. apply list_elem_of_In, filter_In in Hx as [_ Hx].
    unfold source_ops. apply Forall_app. split; [repeat constructor; cbn; by rewrite (flag_on (KSource x))|].
    destruct (x =? _); [by apply Forall_map, Forall_true|]. destruct (x =? _); repeat constructor.
  - by apply Forall_map, Forall_true.
Qed.

(** ** Writes to one option *)

Definition only_canon (k : key) (ops : list op) : Prop := Forall (fun o => forall v, o = OSet k v -> v = canon k) ops.

Lemma canonical_only k ops : Forall canonical ops -> only_canon k ops.
Proof using Type. intros F. eapply Forall_impl; [exact F|]. intros o Ho v ->. exact Ho. Qed.

Lemma store_canon k ops st : only_canon k ops -> OSet k (canon k) ∈ ops -> norm k (canon k) = Some (g k) ->
  foldl op_store st ops k = g k.
Proof using Type.
  intros O I N. induction ops as [|o ops IH] using rev_ind; [by apply elem_of_nil in I|].
  apply Forall_app in O as [O Oo]. inversion_clear Oo as [|? ? Ho _]. rewrite foldl_app. cbn [foldl].
  assert (D : (exists v, o = OSet k v) \/ ~ (exists v, o = OSet k v)).
  { destruct o as [k' v| |]; [|right; by intros [? ?]..]. destruct (decide (k' = k)) as [-> |Hk]; [by left; eexists|].
    right. intros [? [=]]. done. }
  destruct D as [[v ->]|Hn].
  - rewrite (Ho v eq_refl). cbn [op_store]. unfold store_write. cbn [fst snd]. by rewrite decide_True, N.
  - assert (Hs : op_store (foldl op_store st ops) o k = foldl op_store st ops k).
    { destruct o as [k' v'| |]; try done. cbn [op_store]. unfold store_write. cbn [fst snd]. rewrite decide_False; [done|].
      intros ->. apply Hn. by exists v'. }
    rewrite Hs. apply IH; [done|]. apply elem_of_app in I as [I|I]; [done|]. apply list_elem_of_singleton in I as <-.
    exfalso. apply Hn. by eexists.
Qed.

(** ** Options that are printed *)

Definition net_type (t : Z) : bool := (num (g (KType t)) =? CFG_TCP) || (num (g (KType t)) =? CFG_UDP).
Definition path_type (t : Z) : bool := (num (g (KType t)) =? CFG_UNIX) || (num (g (KType t)) =? CFG_FILE).
Definition source_on (i : Z) : bool := negb (num (g (KSource i)) =? 0).
Definition below (n i : Z) : bool := (0 <=? i) && (i <? n).

(** The options whose values the description contains. *)
Definition shown (k : key) : bool :=
  match k with
  | KMtcWatch x => below 6 x
  | KSource i => below 9 i
  | KValueFilter i | KFieldFilter i | KNameFilter i => below 9 i && source_on i
  | KBinaryConsole => source_on CFG_SRC_CONSOLE
  | KType t => below 4 t
  | KHost t | KPort t | KTlsEnable t | KTlsValidate t | KTlsCA t => below 4 t && net_type t
  | KPath t => below 4 t && path_type t
  | KBuf t => below 4 t && (num (g (KType t)) =? CFG_FILE)
  | KLogStreamCloud | KIpc => false
  | _ => true
  end.

Hypothesis Dn : forall t, num (g (KType t)) = CFG_TCP \/ num (g (KType t)) = CFG_UDP ->
  g (KHost t) <> VStr None /\ g (KPort t) <> VStr None.
Hypothesis Dp : forall t, num (g (KType t)) = CFG_UNIX \/ num (g (KType t)) = CFG_FILE -> g (KPath t) <> VStr None.

Lemma in_range_back lo hi v : num_in lo hi v -> in_range lo hi (num v) = Some v.
Proof using Type.
  destruct v as [n|]; [|done]. cbn. intros Hn. unfold in_range. by rewrite (proj2 (Z.leb_le lo n)), (proj2 (Z.leb_le n hi)) by lia.
Qed.
Lemma index_back hi i v : below (hi + 1) i = true -> indexed hi i v = v.
Proof using Type. unfold below, indexed. intros Hi. replace ((0 <=? i) && (i <=? hi)) with true; [done|]. lia. Qed.
Lemma nonblank_back d v : str_that nonblank v -> or_default d (Some (str v)) = Some v.
Proof using Type. unfold or_default. destruct v as [|[s'|]]; try done. cbn [str_that str]. unfold nonblank. by intros ->. Qed.
Lemma optional_back v : str_that (fun s => s = None \/ nonblank s) v -> or_default None (Some (str v)) = Some v.
Proof using Type. unfold or_default. destruct v as [|[s'|]]; try done. cbn [str_that str]. unfold nonblank. by intros [| ->]. Qed.
Lemma some_back v : str_that (fun _ => True) v -> v <> VStr None -> Some (VStr (Some (str v))) = Some v.
Proof using Type. by destruct v as [|[s'|]]. Qed.

Lemma norm_canon k : shown k = true -> norm k (canon k) = Some (g k).
Proof using R Dn Dp.
  intros S. pose proof (r_valid g R k) as V.
  assert (Hn : forall t, below 4 t && net_type t = true -> below 4 t = true /\ g (KHost t) <> VStr None /\ g (KPort t) <> VStr None).
  { intros t [Hb Ht]%andb_true_iff. split; [done|]. apply Dn. unfold net_type in Ht. lia. }
  destruct k; cbn [shown canon norm valid_val] in *; try done;
    try match type of S with below _ _ && _ = true => apply andb_true_iff in S as [S S'] end; rewrite ?index_back by done;
    try (by apply in_range_back); try (by apply nonblank_back); try (by apply optional_back);
    try (destruct (g _) as [n|s'] eqn:E in V |- *; cbn in V; try done; cbn [num]; f_equal; f_equal; unfold CFG_MAX_VERBOSITY in *; lia).
  - destruct (g KMtcPrefix) as [|[p|]]; try done; cbn [str_that str] in *.
    + destruct V as [[= ->]|(p' & [= ->] & Hd)]; [done|]. destruct (String.eqb_spec p' ""); [by subst|]. by rewrite Hd.
    + by destruct V as [|(p' & ? & _)].
  - apply some_back; [done|]. apply (Hn t). by rewrite S, S'.
  - apply some_back; [done|]. apply (Hn t). by rewrite S, S'.
  - apply some_back; [done|]. apply Dp. unfold path_type in S'. lia.
Qed.

Definition all_parts : list op := part1 ++ part2 ++ part3.

Lemma transport_part t o : below 4 t = true -> o ∈ transport_ops g t -> o ∈ all_parts.
Proof using Type.
  intros Ht Ho. assert (t = CFG_MTC \/ t = CFG_CTL \/ t = CFG_LOG \/ t = CFG_LS) as Hc
    by (unfold below, CFG_MTC, CFG_CTL, CFG_LOG, CFG_LS in *; lia).
  unfold all_parts, part1, part2, part3, libappview_ops, cribl_ops. rewrite !elem_of_app.
  destruct Hc as [-> |[-> |[-> | ->]]]; tauto.
Qed.

Lemma enabled_in i : below 9 i = true -> source_on i = true -> i ∈ enabled_sources g.
Proof using Type.
  intros Hi Hs. apply list_elem_of_In, filter_In. split; [|exact Hs].
  apply list_elem_of_In, elem_of_seqZ. unfold below, CFG_SRC_MAX in *. lia.
Qed.

Lemma source_part i o : below 9 i = true -> source_on i = true -> o ∈ source_ops g hs i -> o ∈ all_parts.
Proof using Type.
  intros Hi Hs Ho. unfold all_parts, part3. rewrite !elem_of_app. right. right. left.
  apply list_elem_of_In, in_concat. exists (source_ops g hs i). split; [|by apply list_elem_of_In].
  apply in_map, list_elem_of_In. by apply enabled_in.
Qed.

Definition watch_key_of (k : key) : bool := match k with KMtcWatch _ | KSource _ => true | _ => false end.

Ltac mem :=
  lazymatch goal with
  | |- _ ∈ _ :: _ => first [left|right; mem]
  | |- _ ∈ _ ++ _ => apply elem_of_app; first [left; mem|right; mem]
  end.

Lemma shown_written k : shown k = true -> watch_key_of k = false -> OSet k (canon k) ∈ all_parts.
Proof using Type.
  intros S Hw. destruct k; cbn [shown watch_key_of] in *; try done;
    try match type of S with below _ _ && _ = true => apply andb_true_iff in S as [S S'] end;
    try (apply (source_part s); [done..|]; unfold source_ops, sset; cbn [canon]; mem);
    try (apply (transport_part t); [done|]; unfold transport_ops, tls_ops, nset, sset; cbn [canon];
         unfold net_type, path_type in *; first [left|rewrite S'; right; mem|right]).
  all: try (unfold all_parts, part1, part2, part3, libappview_ops, payload_ops, cribl_ops, nset, sset; cbn [canon]; mem).
  - apply (source_part CFG_SRC_CONSOLE); [done..|]. unfold source_ops. apply elem_of_app. right. left.
  - rewrite (proj2 (orb_false_iff _ _)) by (unfold CFG_TCP, CFG_UDP, CFG_UNIX, CFG_FILE in *; lia).
    destruct (_ =? CFG_UNIX); [mem|]. cbn [orb] in S'. rewrite S'. mem.
  - rewrite (proj2 (orb_false_iff _ _)) by (unfold CFG_TCP, CFG_UDP, CFG_UNIX, CFG_FILE in *; lia).
    replace (_ =? CFG_UNIX) with false by (unfold CFG_FILE, CFG_UNIX in *; lia). rewrite S'. mem.
Qed.

Lemma parts_config o : o ∈ all_parts -> o ∈ config_ops g ts hs.
Proof using Type. rewrite config_ops_parts. unfold all_parts. rewrite !elem_of_app. tauto. Qed.

Lemma cleared_only k {A} (f : A -> key) l : (forall a, a ∈ l -> f a = k -> canon k = VNum 0) ->
  only_canon k (map (fun a => OSet (f a) (VNum 0)) l).
Proof using Type.
  intros F. apply Forall_map, Forall_forall. intros a Ha v [= E <-]. by rewrite (F a Ha E).
Qed.

(** Every option that is printed has its value again. *)
Lemma options_back st k : shown k = true -> foldl op_store st (config_ops g ts hs) k = g k.
Proof using R Dn Dp.
  intros S. pose proof (norm_canon k S) as N. destruct parts_canonical as (P1 & P2 & P3).
  assert (Whole : (forall x, k = KMtcWatch x \/ k = KSource x -> num (g k) = 0) ->
            OSet k (canon k) ∈ config_ops g ts hs -> foldl op_store st (config_ops g ts hs) k = g k).
  { intros Z0 I. apply store_canon; [|done|done]. rewrite config_ops_parts. unfold only_canon.
    rewrite !Forall_app. split_and!; try (by apply canonical_only); (apply cleared_only; intros a Ha <-).
    - cbn [canon]. by rewrite (Z0 a) by by left.
    - cbn [canon]. by rewrite (Z0 a) by by right. }
  destruct (watch_key_of k) eqn:W.
  2: { apply Whole; [by intros x [-> | ->]|]. by apply parts_config, shown_written. }
  destruct (Z.eq_dec (num (g k)) 0) as [Z0|Z1].
  - apply Whole; [done|]. rewrite config_ops_parts, !elem_of_app.
    destruct k; try done; cbn [canon shown] in *; rewrite Z0; unfold below in S.
    + right. left. apply (list_elem_of_fmap_2 (fun x => OSet (KMtcWatch x) (VNum 0))).
      assert (w0 = 0 \/ w0 = 1 \/ w0 = 2 \/ w0 = 3 \/ w0 = 4 \/ w0 = 5) as Hc by lia. unfold categories_all.
      destruct Hc as [-> |[-> |[-> |[-> |[-> | ->]]]]]; mem.
    + do 3 right. left. apply (list_elem_of_fmap_2 (fun x => OSet (KSource x) (VNum 0))), elem_of_seqZ. unfold CFG_SRC_MAX. lia.
  - destruct k; try done; cbn [shown] in S.
    + rewrite config_ops_parts, app_assoc, foldl_app. apply store_canon; [| |done].
      * unfold only_canon. rewrite !Forall_app. split_and!; try (by apply canonical_only). by apply cleared_only.
      * apply elem_of_app. left. apply elem_of_app. left. cbn [canon].
        rewrite (flag_on (KMtcWatch w0)) by (done || by rewrite (proj2 (Z.eqb_neq _ _) Z1)).
        apply (list_elem_of_fmap_2 (fun x => OSet (KMtcWatch x) (VNum 1))), list_elem_of_In, filter_In.
        rewrite (proj2 (Z.eqb_neq _ _) Z1). split; [|done]. apply list_elem_of_In, elem_of_seqZ. unfold below in S. lia.
    + rewrite config_ops_parts, !app_assoc, foldl_app. apply store_canon; [by apply canonical_only| |done].
      assert (On : source_on s = true) by (unfold source_on; by rewrite (proj2 (Z.eqb_neq _ _) Z1)).
      apply elem_of_app. left. cbn [canon]. rewrite (flag_on (KSource s)) by done.
      apply list_elem_of_In, in_concat. exists (source_ops g hs s). split; [|by left].
      by apply in_map, list_elem_of_In, enabled_in.
Qed.

(** ** Tags and headers *)

Definition only_sets (ops : list op) : Prop := omap tag_pair ops = [] /\ omap header_op ops = [].

Lemma sets_app a b : only_sets a -> only_sets b -> only_sets (a ++ b).
Proof using Type. intros [A1 A2] [B1 B2]. split; by rewrite omap_app, ?A1, ?A2, ?B1, ?B2. Qed.
Lemma sets_map {A} (f : A -> key) v l : only_sets (map (fun a => OSet (f a) v) l).
Proof using Type. induction l; done. Qed.
Lemma sets_transport t : only_sets (transport_ops g t).
Proof using Type. unfold transport_ops. destruct (_ || _); [done|]. destruct (_ =? _); [done|]. by destruct (_ =? _). Qed.

Lemma sets_most : only_sets part1 /\ only_sets watch_cleared /\ only_sets part2 /\ only_sets sources_cleared /\
  only_sets (payload_ops g) /\ only_sets (cribl_ops g).
Proof using Type.
  unfold part1, part2, watch_cleared, sources_cleared, libappview_ops, cribl_ops.
  split_and!; repeat first [apply sets_map|apply sets_transport|apply sets_app|done].
Qed.

Definition printed_headers : list string := if source_on CFG_SRC_HTTP then hs else [].

Lemma header_effects l : omap tag_pair (map OHeader l) = [] /\ omap header_op (map OHeader l) = l.
Proof using Type. split; induction l as [|h l IH]; try done. cbn [map omap list_omap header_op]. by f_equal. Qed.

Lemma sources_effects : omap tag_pair (concat (map (source_ops g hs) (enabled_sources g))) = [] /\
  omap header_op (concat (map (source_ops g hs) (enabled_sources g))) = printed_headers.
Proof using Type.
  assert (T : forall l, omap tag_pair (concat (map (source_ops g hs) l)) = []).
  { induction l as [|i l IH]; [done|]. cbn [map concat]. rewrite omap_app, IH, app_nil_r. unfold source_ops. cbn [omap list_omap tag_pair app].
    destruct (_ =? _); [apply header_effects|]. by destruct (_ =? _). }
  split; [apply T|].
  assert (O : forall i, omap header_op (source_ops g hs i) = if i =? CFG_SRC_HTTP then hs else []).
  { intros i. unfold source_ops. cbn [omap list_omap header_op app]. destruct (_ =? CFG_SRC_HTTP); [|by destruct (_ =? _)].
    apply header_effects. }
  unfold printed_headers, source_on, enabled_sources, CFG_SRC_MAX. change (seqZ 0 9) with [0; 1; 2; 3; 4; 5; 6; 7; 8].
  change CFG_SRC_HTTP with 4 in *. cbn [List.filter].
  repeat match goal with |- context [if negb (num (g (KSource ?i)) =? 0) then _ else _] => destruct (num (g (KSource i)) =? 0); cbn [negb] end;
    cbn [map concat]; rewrite ?omap_app, ?O; cbn; by rewrite ?app_nil_r.
Qed.

Lemma config_effects : omap tag_pair (config_ops g ts hs) = map (fun t => (tag_name t, tag_value t)) ts /\
  omap header_op (config_ops g ts hs) = printed_headers.
Proof using Type.
  destruct sets_most as ([A1 A2] & [B1 B2] & [C1 C2] & [D1 D2] & [E1 E2] & [F1 F2]). destruct sources_effects as [G1 G2].
  rewrite config_ops_parts. unfold part3.
  assert (T : omap tag_pair (tag_ops ts) = map (fun t => (tag_name t, tag_value t)) ts /\ omap header_op (tag_ops ts) = []).
  { unfold tag_ops. split; induction ts as [|t l IH]; try done. cbn [map omap list_omap tag_pair]. by f_equal. }
  destruct T as [T1 T2]. rewrite !omap_app, A1, A2, B1, B2, C1, C2, D1, D2, E1, E2, F1, F2, G1, G2, T1, T2.
  by rewrite !app_nil_r.
Qed.

Lemma put_tags_back : NoDup (map tag_name ts) ->
  foldl (fun ts nv => put_tag ts nv.1 nv.2) [] (map (fun t => (tag_name t, tag_value t)) ts) = ts.
Proof using Type.
  intros ND. assert (G : forall l pre, NoDup (map tag_name (pre ++ l)) ->
    foldl (fun ts nv => put_tag ts nv.1 nv.2) pre (map (fun t => (tag_name t, tag_value t)) l) = pre ++ l); [|by apply (G ts [])].
  induction l as [|t l IH]; intros pre N; [by rewrite app_nil_r|]. cbn [map foldl fst snd].
  assert (P : put_tag pre (tag_name t) (tag_value t) = pre ++ [t]).
  { unfold put_tag. destruct (list_find _ pre) as [[i x]|] eqn:E; [|by destruct t].
    apply list_find_Some in E as (Hi & En & _). rewrite map_app in N. apply NoDup_app in N as (_ & N & _). exfalso.
    apply (N (tag_name x)); [by apply (list_elem_of_fmap_2 tag_name), list_elem_of_lookup_2 with i|]. rewrite En. by left. }
  rewrite P, IH; rewrite <- app_assoc; done.
Qed.

Lemma config_ops_ok : Forall (fun h => regcomp w h = true) hs -> Forall op_ok (config_ops g ts hs).
Proof using R.
  intros F. assert (N : forall k, arg_ok (VNum (num (g k)))).
  { intros k. pose proof (r_valid g R k) as V. cbn [arg_ok].
    destruct (g k) as [n|]; cbn [num]; [|lia]. destruct k; cbn in V; unfold UINT32_MAX, CFG_MAX_VERBOSITY, CFG_UDP, CFG_EDGE, CFG_LOG_NONE in V; lia. }
  apply Forall_forall. intros o Ho. destruct o as [k v|n v|h]; cbn [op_ok]; [|done|].
  - assert (C : v = canon k \/ v = VNum 0).
    { destruct parts_canonical as (P1 & P2 & P3). rewrite Forall_forall in P1, P2, P3.
      rewrite config_ops_parts, !elem_of_app in Ho. destruct Ho as [Ho|[Ho|[Ho|[Ho|Ho]]]];
        [left; exact (P1 _ Ho)|right|left; exact (P2 _ Ho)|right|left; exact (P3 _ Ho)];
        apply list_elem_of_In, in_map_iff in Ho as (a & [= _ <-] & _); done. }
    destruct C as [-> | ->]; [|done]. destruct k; cbn [canon]; first [done|apply N].
  - rewrite Forall_forall in F. apply F. assert (I : h ∈ omap header_op (config_ops g ts hs)) by (apply list_elem_of_omap; by eexists).
    rewrite (proj2 config_effects) in I. unfold printed_headers in I. destruct (source_on _); [done|]. by apply elem_of_nil in I.
Qed.

(** ** The description depends on what is printed *)

Section Agree.
Variable g' : key -> val.
Hypothesis A : forall k, shown k = true -> g' k = g k.

Lemma transport_agrees t : below 4 t = true -> transport_doc g' t = transport_doc g t.
Proof using A.
  intros Ht. unfold transport_doc, tls_doc. rewrite (A (KType t)) by done.
  destruct (_ || _) eqn:En; [|destruct (_ =? CFG_UNIX) eqn:Eu; [|destruct (_ =? CFG_FILE) eqn:Ef]].
  - assert (S : below 4 t && net_type t = true) by (unfold net_type; by rewrite Ht, En).
    by rewrite (A (KHost t)), (A (KPort t)), (A (KTlsEnable t)), (A (KTlsValidate t)), (A (KTlsCA t)).
  - rewrite (A (KPath t)); [done|]. cbn [shown]. unfold path_type. by rewrite Ht, Eu.
  - rewrite (A (KPath t)), (A (KBuf t)); [done|by cbn [shown]; rewrite Ht, Ef|].
    cbn [shown]. unfold path_type. by rewrite Ht, Ef, orb_true_r.
  - done.
Qed.

Lemma source_agrees hs' i : i ∈ enabled_sources g -> (source_on CFG_SRC_HTTP = true -> hs' = hs) ->
  source_doc g' hs' i = source_doc g hs i.
Proof using A.
  intros Hi Hh. pose proof (enabled_range g i Hi) as Hr. apply list_elem_of_In, filter_In in Hi as [_ Hi].
  assert (S : below 9 i && source_on i = true) by (rewrite andb_true_iff; split; [unfold below; lia|exact Hi]).
  unfold source_doc. rewrite (A (KNameFilter i)), (A (KFieldFilter i)), (A (KValueFilter i)) by done.
  destruct (Z.eqb_spec i CFG_SRC_HTTP) as [-> |_]; [by rewrite Hh|].
  destruct (Z.eqb_spec i CFG_SRC_CONSOLE) as [-> |_]; [|done]. rewrite (A KBinaryConsole); done.
Qed.

Lemma filter_agrees {T} (p q : T -> bool) l : (forall x, x ∈ l -> p x = q x) -> List.filter p l = List.filter q l.
Proof using Type. intros E. apply filter_ext_in. intros x Hx. by apply E, list_elem_of_In. Qed.

Lemma config_agrees hs' prots prots' : (source_on CFG_SRC_HTTP = true -> hs' = hs) ->
  map protocol_doc prots' = map protocol_doc prots -> config_doc g' ts hs' prots' = config_doc g ts hs prots.
Proof using A.
  intros Hh Hp. unfold config_doc, metric_doc, libappview_doc, event_doc, metric_watch_doc.
  rewrite Hp, !transport_agrees by done. rewrite !A by done.
  assert (E : enabled_sources g' = enabled_sources g).
  { apply filter_agrees. intros x Hx%elem_of_seqZ. rewrite A; [done|]. unfold CFG_SRC_MAX in Hx. cbn [shown]. unfold below. lia. }
  assert (W : List.filter (fun x => negb (num (g' (KMtcWatch x)) =? 0)) (seqZ 0 6) = List.filter (fun x => negb (num (g (KMtcWatch x)) =? 0)) (seqZ 0 6)).
  { apply filter_agrees. intros x Hx%elem_of_seqZ. rewrite A; [done|]. cbn [shown]. unfold below. lia. }
  rewrite W, E. replace (map (source_doc g' hs') (enabled_sources g)) with (map (source_doc g hs) (enabled_sources g)); [done|].
  apply map_ext_in. intros i Hi%list_elem_of_In. symmetry. by apply source_agrees.
Qed.
End Agree.
End Options.
End Whole.
End CfgTrip.
