(* ===== verification/CfgExchange.v ===== *)
(** * Configurations exchanged as text (src/cfgutils.c)

    The description of a configuration is printed by [jsonStringFromCfg] and read
    by [cfgFromString].  [YamlReads] is the part of the YAML parser: the text of a
    document of plain texts and numbers, as cJSON prints it, is that document. *)

From Stdlib Require Import Ascii.
From S2P Require Import Prelude Types HttpAgg Cfg CfgStore CJson CJsonText CJsonPrint IpcFrames EvtFormat CtlMsg CfgParse CfgYaml CfgJson CfgRound CfgTrip.

#[local] Open Scope string_scope.
#[local] Open Scope Z_scope.
#[local] Open Scope list_scope.

Module CfgExchange.
Import Cfg CfgStore CJson CJsonText CJsonPrint CfgParse CfgYaml CfgJson CfgRound CfgTrip.

(** ** Plain documents *)

(** Printable ASCII. *)
Definition plain_text (s : string) : Prop := Forall (fun c => 32 <= code c <= 126) (String.list_ascii_of_string s).

(** Nested at most [n] deep; a key of a YAML mapping has at most 1024 characters. *)
Fixpoint plain (n : nat) (d : doc) : Prop :=
  match n with
  | O => False
  | S n =>
      match d with
      | DText s => plain_text s
      | DNum z => 0 <= z <= INT_MAX
      | DList l => Forall (plain n) l
      | DMap l => Forall (fun m => plain_text m.1 /\ (String.length m.1 <= 500)%nat /\ plain n m.2) l
      end
  end.

(** The text of a document. *)
Definition text_of `{Double} (d : doc) : list Z := render false 0 (json_of d).

Class YamlReads `{Double} (yaml_load : string -> option (option yaml_node)) : Prop :=
  yaml_reads_json : forall d, plain 8 d -> yaml_load (string_of_bytes (text_of d)) = Some (Some (yaml_of d)).

Section Exchange.
Context `{EM : EnvMatch} {EML : EnvMatchLaws} `{DL : DoubleLaws}.
Variable w : world.

Lemma plain_clean s : plain_text s -> clean (bytes_of s).
Proof using Type.
  intros P. unfold bytes_of, clean. induction P as [|c l Hc P IH]; cbn [map]; constructor; [|done].
  unfold code in Hc. cbn. lia.
Qed.

Lemma plain_printable n d : plain n d -> printable n (json_of d).
Proof using DL.
  revert d. induction n as [|n IH]; intros d P; [done|]. destruct d as [s|z|l|l]; cbn [plain json_of] in *.
  - rewrite cstr_clean by by apply plain_clean. apply pr_string. by apply plain_clean.
  - apply pr_number, int_finite. unfold INT_MIN. lia.
  - apply pr_array. intros v Hv. apply list_elem_of_fmap in Hv as (x & -> & Hx). apply IH. rewrite Forall_forall in P. by apply P.
  - rewrite Forall_forall in P. apply pr_object; intros k v Hv; apply list_elem_of_fmap in Hv as (x & [= -> ->] & Hx);
      destruct (P x Hx) as (? & _ & ?); [by apply plain_clean|by apply IH].
Qed.

(** ** The round trip *)

Variable c : config_t.
Variable prots : list protocol_def_t.
#[local] Abbreviation g := (get (Some c)).

(** What a configuration needs so that its description can be read: values of
    their types in plain texts without variables, numbers that fit an [int],
    expressions that compile, and protocols with different names. *)
Record exchangeable : Prop := {
  x_describable : describable c;
  x_readable : readable g;
  x_tags : NoDup (map tag_name (live_tags c)) /\ Z.of_nat (length (live_tags c)) <= 2 ^ 28 /\
    Forall (fun t => no_vars (tag_name t) /\ no_vars (tag_value t)) (live_tags c);
  x_headers : Forall (fun h => no_vars h /\ regcomp w h = true) (headers_of c);
  x_prots : Forall (good_prot w) prots /\ NoDup (map protname prots) /\ Z.of_nat (length prots) < 2 ^ 32;
  x_plain : plain 8 (config_doc g (live_tags c) (headers_of c) prots);
  x_fits : fits (Z.of_nat (length (text_of (config_doc g (live_tags c) (headers_of c) prots))));
}.

Lemma printed_description fill c' ps d : makes (jsonObjectFromCfg (Some c') ps) d -> byte_tree (json_of d) -> fits (Z.of_nat (length (text_of d))) ->
  jsonStringFromCfg fill (Some c') ps [] [] = Def (Some (text_of d), []).
Proof using DL.
  intros M B F. unfold jsonStringFromCfg. rewrite M. unfold cJSON_PrintUnformatted. rewrite print_render by done.
  cbn [mbind ub_bind option_map]. unfold text_of. rewrite (CtlMsg.cstr_terminated _ []); [done|]. by apply render_nz.
Qed.

Lemma default_tracks : tracks default_config (get (Some default_config)) [] [].
Proof using Type. split; [by split|done| |done]. split; [done|split; vm_compute; congruence|constructor]. Qed.

Lemma header_texts hs : omap header_text (map (fun h => Some (mkHeader true (Some h))) hs) = hs.
Proof using Type. induction hs as [|h hs IH]; [done|]. cbn. by f_equal. Qed.

Lemma header_count l : (length (omap header_text l) <= length l)%nat.
Proof using Type.
  induction l as [|x l IH]; [done|]. change (omap header_text (x :: l)) with
    (match header_text x with Some y => y :: omap header_text l | None => omap header_text l end).
  destruct (header_text x); cbn [length]; lia.
Qed.

Lemma op_store_valid ops : forall st, (forall k, valid_val k (st k)) -> Forall (op_ok w) ops ->
  forall k, valid_val k (foldl op_store st ops k).
Proof using Type.
  induction ops as [|o ops IH]; intros st V F k; [done|]. inversion_clear F as [|? ? Ho F']. apply IH; [|done].
  intros k'. destruct o as [k1 v| |]; try apply V. cbn [op_store]. unfold store_write. cbn [fst snd].
  case_decide as E; [subst|apply V]. destruct (norm k' v) as [v'|] eqn:En; [by eapply norm_valid|apply V].
Qed.

(** The configuration that is read back. *)
Definition back : config_t := foldl (apply_op w) default_config (config_ops g (live_tags c) (headers_of c)).

Lemma back_tracks : exchangeable ->
  tracks back (foldl op_store (get (Some default_config)) (config_ops g (live_tags c) (headers_of c))) (live_tags c)
    (printed_headers g (headers_of c)).
Proof using Type.
  intros X. destruct (x_tags X) as (ND & Hl & _). destruct (config_effects g (live_tags c) (headers_of c)) as [E1 E2].
  pose proof (tracks_ops w (config_ops g (live_tags c) (headers_of c)) _ _ _ _ default_tracks) as T.
  rewrite E1, E2, put_tags_back in T by done. apply T.
  - apply config_ops_ok; [apply (x_readable X)|]. eapply Forall_impl; [exact (x_headers X)|]. by intros h [].
  - rewrite length_map. cbn. lia.
Qed.

Lemma back_shown : exchangeable -> forall k, shown g k = true -> get (Some back) k = g k.
Proof using Type.
  intros X k S. rewrite (t_get _ _ _ _ (back_tracks X)).
  apply options_back; [apply (x_readable X)|apply (d_net _ (x_describable X))|apply (d_path _ (x_describable X))|done].
Qed.

Lemma back_describable : exchangeable -> describable back.
Proof using Type.
  intros X. pose proof (back_tracks X) as T. pose proof (back_shown X) as B.
  assert (Out : forall t, below 4 t = false -> get (Some back) (KType t) = VNum CFG_FILE /\ get (Some back) (KPath t) <> VStr None).
  { intros t Ht. cbn [get]. unfold cfgTransportType, cfgTransportPath. rewrite tr_ok_eq.
    replace ((0 <=? t) && (t <=? 3)) with false; [done|]. unfold below in Ht. lia. }
  split.
  - intros k. rewrite (t_get _ _ _ _ T). apply op_store_valid.
    + intros k'. change (Some default_config) with (cfgCreateDefault true true). rewrite <- null_default. apply null_valid.
    + apply config_ops_ok; [apply (x_readable X)|]. eapply Forall_impl; [exact (x_headers X)|]. by intros h [].
  - intros t Ht. destruct (below 4 t) eqn:Hb; [|rewrite (proj1 (Out t Hb)) in Ht; by destruct Ht].
    rewrite (B (KType t)) in Ht by done.
    assert (S : below 4 t && net_type g t = true) by (rewrite Hb; unfold net_type; lia).
    rewrite (B (KHost t)), (B (KPort t)) by done. by apply (d_net _ (x_describable X)).
  - intros t Ht. destruct (below 4 t) eqn:Hb; [|by apply Out].
    rewrite (B (KType t)) in Ht by done.
    assert (S : below 4 t && path_type g t = true) by (rewrite Hb; unfold path_type; lia).
    rewrite (B (KPath t)) by done. by apply (d_path _ (x_describable X)).
  - rewrite (t_headers _ _ _ _ T), length_map. pose proof (d_headers _ (x_describable X)).
    assert (length (headers_of c) <= length (hextract (evt c)))%nat.
    { apply header_count. }
    unfold printed_headers. destruct (source_on _ _); cbn; lia.
Qed.

(** The description of the configuration that was read is the same. *)
Lemma back_doc ps : exchangeable -> map protocol_doc ps = map protocol_doc prots ->
  config_doc (get (Some back)) (live_tags back) (headers_of back) ps = config_doc g (live_tags c) (headers_of c) prots.
Proof using Type.
  intros X Hp. pose proof (back_tracks X) as T. rewrite (tags_wf_live _ _ (t_tags _ _ _ _ T)).
  apply config_agrees; [by apply back_shown| |done]. intros On. unfold headers_of at 1.
  rewrite (t_headers _ _ _ _ T), header_texts. unfold printed_headers. by rewrite On.
Qed.

Variable yaml_load : string -> option (option yaml_node).
Context {YR : YamlReads yaml_load}.

(** C15: the part of a configuration that its JSON description contains survives
    the exchange.  That part ([shown]) is every option except the IPC switch and
    the cloud flag of the log stream, the filters of event sources that are off
    and binary console data when the console source is off, host, port and TLS
    settings of transports that are not TCP or UDP, the path of those that are not
    a file or a Unix socket, and the buffering of those that are not a file; and
    the tags and the protocol definitions.  The configuration must be
    [exchangeable]: its texts are printable ASCII without $VARIABLE, the numbers
    are ints, TCP and UDP transports have a host and a port, files and sockets a
    path, the event format is ndjson, tag and protocol names are distinct, the
    expressions compile and the text fits the printer's buffer.  Then, with
    memory, the description is printed, [cfgFromString] reads the text in a
    process without protocol definitions, every option of that part has its value
    again, the tags and the protocol definitions are the same, and the
    configuration that was read prints the same text.  Nothing else happens on the
    way. *)
Theorem config_roundtrip (fill : nat -> Z) (s : pst) : exchangeable -> al s = [] -> holds_prots s [] ->
  exists text s' c' prots',
    jsonStringFromCfg fill (Some c) prots [] [] = Def (Some text, []) /\
    cfgFromString w yaml_load (Some (string_of_bytes text)) s = Def (Some c', s') /\
    cfg s' = cfg s /\ acts s' = acts s /\ al s' = [] /\
    protocols_of s' = Def prots' /\ Forall2 renumbered prots prots' /\
    (forall k, shown g k = true -> get (Some c') k = g k) /\ live_tags c' = live_tags c /\
    jsonStringFromCfg fill (Some c') prots' [] [] = Def (Some text, []).
Proof using EML DL YR.
  intros X Ha Hp. pose proof (x_prots X) as (Hg & ND & Hs). pose proof (x_tags X) as (_ & _ & Ht).
  set (d := config_doc g (live_tags c) (headers_of c) prots).
  assert (B : byte_tree (json_of d)) by (eapply printable_byte_tree, plain_printable, (x_plain X)).
  assert (Named : Forall (fun p => protname p <> None /\ regex p <> None) prots).
  { eapply Forall_impl; [exact Hg|]. by intros p (n & re & -> & -> & _). }
  destruct (document_read w g (live_tags c) (headers_of c) prots (x_readable X) Ht) with (s := set_cfg s default_config)
    as (s' & l' & E & H' & Hd & Hc & Ha' & Hac); [|done..|by eapply holds_same|].
  { eapply Forall_impl; [exact (x_headers X)|]. by intros h []. }
  exists (text_of d), (set_cfg s' (cfg s)), back, l'. split_and!; try done.
  - by apply printed_description; [apply config_makes; [apply (x_describable X)|]| |apply (x_fits X)].
  - unfold cfgFromString, new_config. unfold bind at 1. rewrite !bind_malloc by done. unfold ret at 1.
    change (cfgCreateDefault true true) with (Some default_config). unfold bind, on_config, set_from_text.
    rewrite bind_malloc by done. cbn [negb]. rewrite yaml_reads_json by apply (x_plain X). fold d in E. rewrite E. cbn [cfg set_cfg].
    by rewrite Hc.
  - apply holds_protocols_of. by eapply holds_same.
  - by apply back_shown.
  - by apply (tags_wf_live _ _ (t_tags _ _ _ _ (back_tracks X))).
  - apply printed_description; [|done|apply (x_fits X)].
    unfold d. rewrite <- (back_doc l' X) by by apply renumbered_docs.
    apply config_makes; [by apply back_describable|]. clear -Hd Named.
    induction Hd as [|p p' ps ps' -> F IH]; [constructor|]. inversion_clear Named. constructor; [done|by apply IH].
Qed.
End Exchange.

(** ** A parser that satisfies the law: the one of cJSON *)

Section JsonParser.
Context `{DL : DoubleLaws}.

Fixpoint node_of_json (j : cJSON) : yaml_node :=
  match j with
  | cJSON_String s => Scalar (string_of_bytes s)
  | cJSON_Number _ i => Scalar (string_of_bytes (decimal i))
  | cJSON_Array l => Sequence (map node_of_json l)
  | cJSON_Object ms => Mapping (map (fun m => (Scalar (string_of_bytes m.1), node_of_json m.2)) ms)
  | _ => Scalar ""
  end.

Definition json_load (text : string) : option (option yaml_node) :=
  match cJSON_Parse [] (bytes_of text ++ [0]) with Def (Some j) => Some (Some (node_of_json j)) | _ => None end.

Lemma node_of_plain n d : plain n d -> node_of_json (json_of d) = yaml_of d.
Proof using DL.
  revert d. induction n as [|n IH]; intros d P; [done|]. destruct d as [s|z|l|l]; cbn [plain json_of node_of_json yaml_of] in *.
  - by rewrite cstr_clean, string_of_bytes_of by by apply plain_clean.
  - unfold cJSON_CreateNumber. cbn [node_of_json]. unfold valueint_of. assert (I : INT_MIN <= z <= INT_MAX) by (unfold INT_MIN; lia).
    rewrite !int_le, int_trunc by (unfold INT_MIN, INT_MAX in *; lia).
    destruct (Z.leb_spec INT_MAX z); [by replace z with INT_MAX by lia|].
    destruct (Z.leb_spec z INT_MIN); [unfold INT_MIN in *; lia|done].
  - f_equal. induction P as [|x l Hx P IHl]; [done|]. cbn [map]. by rewrite IH, IHl.
  - f_equal. induction P as [|x l (Hk & _ & Hx) P IHl]; [done|]. cbn [map fst snd].
    by rewrite IH, IHl, string_of_bytes_of.
Qed.

(** Texts are bytes. *)
Lemma escape_bytes s : is_bytes s -> is_bytes (quoted (escaped s)).
Proof using Type.
  intros B. unfold quoted, escaped, is_bytes. constructor; [done|]. apply Forall_app. split; [|by repeat constructor].
  pose proof (cstr_bytes s B) as C. induction C as [|x l Hx C IH]; cbn [map concat]; [constructor|]. apply Forall_app. split; [|done].
  revert x Hx. clear. intros x Hx.
  assert (T : forallb (fun x => forallb (fun y => (0 <=? y) && (y <? 256)) (escape_char x)) (seqZ 0 256) = true) by by vm_compute.
  apply forallb_forall with (x := x) in T; [|apply list_elem_of_In, elem_of_seqZ; lia].
  apply Forall_forall. intros y Hy%list_elem_of_In. apply forallb_forall with (x := y) in T; [|done]. unfold is_byte. lia.
Qed.

Lemma json_decimal_bytes z : 0 <= z -> is_bytes (decimal z).
Proof using Type.
  intros Hz. unfold decimal. destruct (Z.ltb_spec z 0); [lia|].
  assert (G : forall fuel z, 0 <= z -> is_bytes (digits_of fuel z)); [|by apply G].
  clear. induction fuel as [|fuel IH]; intros z Hz; cbn [digits_of]; [constructor|]. destruct (Z.ltb_spec z 10).
  - repeat constructor; unfold is_byte; lia.
  - apply Forall_app. split; [apply IH, Z.div_pos; lia|]. pose proof (Z.mod_pos_bound z 10). repeat constructor; unfold is_byte; lia.
Qed.

Lemma plain_bytes n d k : plain n d -> is_bytes (render false k (json_of d)).
Proof using DL.
  revert d k. induction n as [|n IH]; intros d k P; [done|]. destruct d as [s|z|l|l]; cbn [plain json_of render app] in *.
  - rewrite cstr_clean by by apply plain_clean. apply escape_bytes, clean_bytes. by apply plain_clean.
  - unfold cJSON_CreateNumber. cbn [render]. rewrite IpcFrames.IpcFrames.number_of_int by (unfold IpcFrames.IpcFrames.is_int, INT_MIN; lia).
    apply json_decimal_bytes. lia.
  - constructor; [done|]. apply Forall_app. split; [|by repeat constructor].
    induction P as [|x l Hx P IHl]; cbn [map render_items]; [constructor|]. apply Forall_app. split; [by apply IH|].
    destruct l; cbn [map]; [constructor|]. by constructor.
  - constructor; [done|]. apply Forall_app. split; [|by repeat constructor].
    induction P as [|x l (Hk & _ & Hx) P IHl]; cbn [map render_members app]; [constructor|]. apply Forall_app.
    split; [by apply escape_bytes, clean_bytes, plain_clean|]. constructor; [done|]. apply Forall_app. split; [by apply IH|].
    apply Forall_app. split; [destruct l; by repeat constructor|done].
Qed.

Lemma bytes_of_string l : is_bytes l -> bytes_of (string_of_bytes l) = l.
Proof using Type.
  intros B. unfold bytes_of, string_of_bytes. rewrite String.list_ascii_of_string_of_list_ascii, map_map.
  induction B as [|x l Hx B IH]; [done|]. cbn [map]. rewrite IH. unfold is_byte in Hx. rewrite Ascii.nat_ascii_embedding by lia.
  f_equal. lia.
Qed.

Lemma json_reads : YamlReads json_load.
Proof using DL.
  intros d P. unfold json_load, text_of. rewrite bytes_of_string by by eapply plain_bytes.
  pose proof (parse_plain 8 (json_of d) (render false 0 (json_of d)) [] []) as E. cbn [app] in E. rewrite E; [|by apply render_text, plain_printable|lia|constructor].
  do 2 f_equal. by eapply node_of_plain.
Qed.
End JsonParser.

(** ** An instance *)

Section Sample.
#[local] Existing Instance integral.
#[local] Existing Instance integral_laws.
#[local] Existing Instance leftmost_match.
#[local] Existing Instance leftmost_laws.
#[local] Existing Instance json_reads.

Definition sample_world : world := mkWorld ["HOME=/root"] "app" None "host" 1 None [] (fun _ => true) (fun _ => true).
Definition sample_config : config_t :=
  foldl (apply_op sample_world) default_config [OTag "team" "core"; OHeader "x-.*"; OTag "stage" "test $"].
Definition sample_prots : list protocol_def_t := [mkProtocol (Some "redis") (Some "^[*]\d+") false true false 12 7].
Definition sample_state : pst := mkPst default_config 0 0 None false false 0 ∅ 0 ∅ 0 [] [].

Lemma sample_get k : get (Some sample_config) k = get None k.
Proof.
  assert (T : tracks sample_config (get (Some default_config)) [mkTag "team" "core"; mkTag "stage" "test $"] ["x-.*"]).
  { apply (tracks_ops sample_world [OTag "team" "core"; OHeader "x-.*"; OTag "stage" "test $"] _ _ _ _ default_tracks);
      [by repeat constructor|cbn; lia]. }
  rewrite (t_get _ _ _ _ T). change (Some default_config) with (cfgCreateDefault true true). by rewrite <- null_default.
Qed.

Fixpoint plainb (n : nat) (d : doc) : bool :=
  let textb s := forallb (fun c => (32 <=? code c) && (code c <=? 126)) (String.list_ascii_of_string s) in
  match n with
  | O => false
  | S n =>
      match d with
      | DText s => textb s
      | DNum z => (0 <=? z) && (z <=? INT_MAX)
      | DList l => forallb (plainb n) l
      | DMap l => forallb (fun m => textb m.1 && (String.length m.1 <=? 500)%nat && plainb n m.2) l
      end
  end.

Lemma plainb_plain n d : plainb n d = true -> plain n d.
Proof.
  assert (T : forall s, forallb (fun c => (32 <=? code c) && (code c <=? 126)) (String.list_ascii_of_string s) = true -> plain_text s).
  { intros s E. apply Forall_forall. intros c Hc%list_elem_of_In. apply forallb_forall with (x := c) in E; [lia|done]. }
  revert d. induction n as [|n IH]; intros d E; [done|]. destruct d as [s|z|l|l]; cbn [plainb plain] in *.
  - by apply T.
  - lia.
  - apply Forall_forall. intros x Hx%list_elem_of_In. apply IH. by apply forallb_forall with (x := x) in E.
  - apply Forall_forall. intros x Hx%list_elem_of_In. apply forallb_forall with (x := x) in E; [|done].
    apply andb_true_iff in E as [[E1 E2%Nat.leb_le]%andb_true_iff E3]. auto.
Qed.

Lemma default_text k : no_vars (str (get None k)).
Proof.
  assert (F : forall l i, forallb (fun s => match leftmost_var (String.list_ascii_of_string (default "" s)) with None => true | _ => false end) l = true ->
    no_vars (str (VStr (at_ None l i)))).
  { intros l i E. unfold at_. destruct (l !! Z.to_nat i) as [s|] eqn:El; [|by apply no_vars_computed].
    apply forallb_forall with (x := s) in E; [|by apply list_elem_of_In, list_elem_of_lookup_2 with (Z.to_nat i)].
    destruct s as [s|]; [|by apply no_vars_computed]. apply no_vars_computed. cbn in *. by destruct (leftmost_var _). }
  destruct k; try (by apply no_vars_computed); cbn [get];
    unfold cfgEvtFormatValueFilter, cfgEvtFormatFieldFilter, cfgEvtFormatNameFilter, cfgTransportHost, cfgTransportPort,
      cfgTransportPath, cfgTransportTlsCACertPath; case_match; first [by apply F|by apply no_vars_computed].
Qed.

Lemma sample_exchangeable : exchangeable sample_world sample_config sample_prots.
Proof.
  split.
  - split; [intros k; rewrite sample_get; apply null_valid| | |by vm_compute].
    + intros t. rewrite !sample_get. cbn [get]. unfold cfgTransportType, cfgTransportHost, cfgTransportPort.
      destruct (tr_ok t) eqn:E; [|by intros [|]]. unfold tr_ok, CFG_WHICH_MAX in E.
      assert (t = 0 \/ t = 1 \/ t = 2 \/ t = 3) as [-> |[-> |[-> | ->]]] by lia; by intros [].
    + intros t. rewrite !sample_get. cbn [get]. unfold cfgTransportType, cfgTransportPath.
      destruct (tr_ok t) eqn:E; [|done]. unfold tr_ok, CFG_WHICH_MAX in E.
      assert (t = 0 \/ t = 1 \/ t = 2 \/ t = 3) as [-> |[-> |[-> | ->]]] by lia; by intros [].
  - split; try (rewrite sample_get; by vm_compute); intros k; rewrite sample_get; [apply null_valid|apply default_text].
  - split_and!; [by apply (bool_decide_unpack _); vm_compute|by vm_compute|]. repeat constructor; by apply no_vars_computed.
  - repeat constructor; by apply no_vars_computed.
  - split_and!; [|by apply (bool_decide_unpack _); vm_compute|done]. repeat constructor.
    exists "redis", "^[*]\d+". split_and!; try done; by apply no_vars_computed.
  - apply plainb_plain. by vm_compute.
  - by vm_compute.
Qed.

Lemma config_roundtrip_witness : exists text s' c' prots',
  jsonStringFromCfg (fun _ => 170) (Some sample_config) sample_prots [] [] = Def (Some text, []) /\
  cfgFromString sample_world json_load (Some (string_of_bytes text)) sample_state = Def (Some c', s') /\
  protocols_of s' = Def prots' /\ live_tags c' = live_tags sample_config /\
  jsonStringFromCfg (fun _ => 170) (Some c') prots' [] [] = Def (Some text, []).
Proof.
  destruct (config_roundtrip sample_world sample_config sample_prots json_load (fun _ => 170) sample_state sample_exchangeable)
    as (text & s' & c' & prots' & E1 & E2 & _ & _ & _ & E3 & _ & _ & E4 & E5); [done|by split|].
  exists text, s', c', prots'. exact (conj E1 (conj E2 (conj E3 (conj E4 E5)))).
Defined.
End Sample.
End CfgExchange.
