(* ===== verification/CfgEnv.v ===== *)
(** * Configuration from the environment and from command files (src/cfgutils.c)

    Every line of the environment and of a command file has the form NAME=value;
    a table gives for each name the function that is called with the value, its
    variables substituted.  Three names are commands, which the environment must
    not give.  This file also has the search for the configuration file, the
    reload command, and the settings that a LogStream connection imposes.

    [env_setting] is a specification of the names: the option each of them sets
    and how its text is read.  The results say that the environment leaves every
    option with the last acceptable value that a line gives it, and does nothing
    else. *)

From Stdlib Require Import Ascii.
From S2P Require Import Prelude Types HttpAgg Cfg CfgStore CJson CfgParse CfgYaml CfgRound CfgTrip CfgExchange.

#[local] Open Scope string_scope.
#[local] Open Scope Z_scope.
#[local] Open Scope list_scope.

Module CfgEnv.
Import Cfg CfgStore CfgParse CfgYaml CfgRound CfgTrip CfgExchange.

#[local] Notation "'let!' x := m 'in' k" := (bind m (fun x => k)) (at level 10, x name, m at level 200, k at level 200).
#[local] Notation "'do' m ; k" := (bind m (fun _ => k)) (at level 10, m at level 200, k at level 200).

Definition CFG_SRC_SYSLOG : Z := 2.
Definition CFG_SRC_METRIC : Z := 3.
Definition CFG_SRC_NET : Z := 5.
Definition CFG_SRC_FS : Z := 6.
Definition CFG_SRC_DNS : Z := 7.
Definition CFG_SRC_SEC : Z := 8.

(** The first [n] characters, as [snprintf] and [strncpy] keep them. *)
Fixpoint firstn_string (n : nat) (s : string) : string :=
  match n, s with S n, String c s => String c (firstn_string n s) | _, _ => "" end.
Fixpoint skipn_string (n : nat) (s : string) : string :=
  match n, s with S n, String _ s => skipn_string n s | _, _ => s end.

Section Env.
Context `{EM : EnvMatch}.
Variable w : world.

(** The YAML parser, and the file system: the contents of a file that can be
    opened, [access] for reading, [realpath], and [fopen] for appending. *)
Variable yaml_load : string -> option (option yaml_node).
Variable file : string -> option string.
Variable access : string -> bool.
Variable realpath : string -> option string.
Variable appendable : string -> bool.

(** ** The configuration file *)

Definition MAX_PATH : nat := 1024.
Definition snprintf_path (s : string) : string := firstn_string (MAX_PATH - 1) s.

Definition CFG_FILE_NAME : string := "appview.yml".

(** The candidates in the order of priority. *)
Definition path_candidates (cfgname : string) : list string :=
  let homedir := fullGetEnv (environ w) "HOME" in
  let appview_home := fullGetEnv (environ w) "APPVIEW_HOME" in
  let from (dir : option string) (rest : string) := match dir with Some d => [snprintf_path (d +:+ rest)] | None => [] end in
  from appview_home ("/conf/" +:+ cfgname) ++ from appview_home ("/" +:+ cfgname) ++
  [snprintf_path ("/etc/appview/" +:+ cfgname)] ++
  from homedir ("/conf/" +:+ cfgname) ++ from homedir ("/" +:+ cfgname) ++
  [snprintf_path ("./conf/" +:+ cfgname); snprintf_path ("./" +:+ cfgname)].

Definition cfgPathSearch (cfgname : string) : option string :=
  match List.find access (path_candidates cfgname) with Some path => realpath path | None => None end.

Definition cfgPath : M (option string) :=
  match fullGetEnv (environ w) "APPVIEW_CONF_PATH" with
  | None => ret (cfgPathSearch CFG_FILE_NAME)
  | Some envPath =>
      let! ok := malloc in
      ret (if ok && bool_decide (file envPath <> None) then Some envPath else cfgPathSearch CFG_FILE_NAME)
  end.

(** ** Tags *)

(** [name_buf] has no terminator when the line fills it. *)
Definition processCustomTag (e : string) (value : option string) : M unit :=
  let name := skipn_string (String.length "APPVIEW_TAG_") (firstn_string 1024 e) in
  match cut equals_sign name with
  | (name, Some _) => cfgCustomTagAddFromStr (Some name) value
  | (_, None) => if (1024 <=? Z.of_nat (String.length e)) then undefined else ret tt
  end.

(** ** What LogStream imposes *)

Definition DEFAULT_LOGSTREAM_LOGMSG : string :=
  "The following settings have been overridden by a LogStream connection: event, metric and payload transport, ".

Definition logstream_message (c : option config_t) : string :=
  DEFAULT_LOGSTREAM_LOGMSG +:+ (if negb (cfgMtcFormat c =? 1) then "Metrics format, " else "")
  +:+ (if CFG_LOG_WARN <? cfgLogLevel c then "Log level, " else "")
  +:+ (if cfgSendProcessStartMsg c =? 0 then "Send proc start msg, " else "").

(** Set an option to a value that depends on the configuration. *)
Definition copy_text (f : config_t -> option string) (set : bool -> config_t -> option string -> config_t) : M unit :=
  let! ok := malloc in set_plain (fun c => set ok c (f c)).

Definition logstream_transport : M unit :=
  let! c := gets cfg in
  if cfgTransportType (Some c) CFG_LS =? CFG_UNIX then
    copy_text (fun c => cfgTransportPath (Some c) CFG_LS) (fun ok c v => cfgTransportPathSet ok c CFG_CTL v)
  else if cfgTransportType (Some c) CFG_LS =? CFG_TCP then
    do set_plain (fun c => cfgTransportTypeSet c CFG_LS CFG_TCP);
    do (if cfgLogStreamCloud (Some c) =? 1 then
          do set_plain (fun c => cfgTransportTlsEnableSet c CFG_LS 1);
          do set_plain (fun c => cfgTransportTlsValidateServerSet c CFG_LS 1);
          set_plain (fun c => cfgTransportTlsCACertPathSet true c CFG_LS None)
        else ret tt);
    do copy_text (fun c => cfgTransportHost (Some c) CFG_LS) (fun ok c v => cfgTransportHostSet ok c CFG_CTL v);
    do copy_text (fun c => cfgTransportPort (Some c) CFG_LS) (fun ok c v => cfgTransportPortSet ok c CFG_CTL v);
    do set_plain (fun c => cfgTransportTlsEnableSet c CFG_CTL (cfgTransportTlsEnable (Some c) CFG_LS));
    do set_plain (fun c => cfgTransportTlsValidateServerSet c CFG_CTL (cfgTransportTlsValidateServer (Some c) CFG_LS));
    copy_text (fun c => cfgTransportTlsCACertPath (Some c) CFG_LS) (fun ok c v => cfgTransportTlsCACertPathSet ok c CFG_CTL v)
  else ret tt.

Definition cfgLogStreamDefault : M bool :=
  let! c := gets cfg in
  if cfgLogStreamEnable (Some c) =? 0 then ret false else
  do logstream_transport;
  do set_plain (fun c => cfgTransportTypeSet c CFG_CTL (cfgTransportType (Some c) CFG_LS));
  do modify (fun s => add_act s (LogMessage (logstream_message (Some (cfg s)))));
  do set_plain (fun c => cfgMtcFormatSet c CFG_FMT_NDJSON);
  do set_plain (fun c => if CFG_LOG_WARN <? cfgLogLevel (Some c) then cfgLogLevelSet c CFG_LOG_WARN else c);
  do set_plain (fun c => if cfgSendProcessStartMsg (Some c) =? 0 then cfgSendProcessStartMsgSet c 1 else c);
  ret true.

(** ** Commands *)

Definition processCmdDebug (path : option string) : M unit :=
  match path with
  | None | Some EmptyString => ret tt
  | Some path => if appendable path then modify (fun s => add_act s (DumpDebug path)) else ret tt
  end.

Definition processAttach (value : option string) : M unit :=
  with_value value (fun v =>
    let attach := strToVal boolMap v in
    if attach =? 0 then modify (fun s => add_act s Detach)
    else if attach =? 1 then modify (fun s => add_act s Attach) else ret tt).

(** [APPVIEW_CRIBL_CLOUD] and [APPVIEW_CRIBL] *)
Definition cloud_dest (cloud : Z) (value : option string) : M unit :=
  do set_plain (fun c => cfgLogStreamCloudSet c cloud); cfgTransportSetFromStr CFG_LS value.

(** ** Lines *)

Section Input.
(** The reload command, which itself processes the environment. *)
Variable reload : option string -> M unit.

Definition env_table : list (string * (option string -> M unit)) :=
  [("APPVIEW_METRIC_ENABLE", cfgMtcEnableSetFromStr);
   ("APPVIEW_METRIC_FORMAT", cfgMtcFormatSetFromStr);
   ("APPVIEW_STATSD_PREFIX", cfgMtcStatsDPrefixSetFromStr);
   ("APPVIEW_STATSD_MAXLEN", cfgMtcStatsDMaxLenSetFromStr);
   ("APPVIEW_SUMMARY_PERIOD", cfgMtcPeriodSetFromStr);
   ("APPVIEW_METRIC_STATSD", fun v => cfgMtcWatchEnableSetFromStr v CFG_MTC_STATSD);
   ("APPVIEW_METRIC_FS", fun v => cfgMtcWatchEnableSetFromStr v CFG_MTC_FS);
   ("APPVIEW_METRIC_NET", fun v => cfgMtcWatchEnableSetFromStr v CFG_MTC_NET);
   ("APPVIEW_METRIC_HTTP", fun v => cfgMtcWatchEnableSetFromStr v CFG_MTC_HTTP);
   ("APPVIEW_METRIC_DNS", fun v => cfgMtcWatchEnableSetFromStr v CFG_MTC_DNS);
   ("APPVIEW_METRIC_PROC", fun v => cfgMtcWatchEnableSetFromStr v CFG_MTC_PROC);
   ("APPVIEW_CMD_DIR", cfgCmdDirSetFromStr);
   ("APPVIEW_CONFIG_EVENT", cfgConfigEventSetFromStr);
   ("APPVIEW_METRIC_VERBOSITY", cfgMtcVerbositySetFromStr);
   ("APPVIEW_LOG_LEVEL", cfgLogLevelSetFromStr);
   ("APPVIEW_METRIC_DEST", cfgTransportSetFromStr CFG_MTC);
   ("APPVIEW_METRIC_TLS_ENABLE", cfgTransportTlsEnableSetFromStr CFG_MTC);
   ("APPVIEW_METRIC_TLS_VALIDATE_SERVER", cfgTransportTlsValidateServerSetFromStr CFG_MTC);
   ("APPVIEW_METRIC_TLS_CA_CERT_PATH", cfgTransportTlsCACertPathSetFromStr CFG_MTC);
   ("APPVIEW_LOG_DEST", cfgTransportSetFromStr CFG_LOG);
   ("APPVIEW_LOG_TLS_ENABLE", cfgTransportTlsEnableSetFromStr CFG_LOG);
   ("APPVIEW_LOG_TLS_VALIDATE_SERVER", cfgTransportTlsValidateServerSetFromStr CFG_LOG);
   ("APPVIEW_LOG_TLS_CA_CERT_PATH", cfgTransportTlsCACertPathSetFromStr CFG_LOG);
   ("APPVIEW_PAYLOAD_ENABLE", cfgPayEnableSetFromStr);
   ("APPVIEW_PAYLOAD_DIR", cfgPayDirSetFromStr);
   ("APPVIEW_CMD_DBG_PATH", processCmdDebug);
   ("APPVIEW_CONF_RELOAD", reload);
   ("APPVIEW_CMD_ATTACH", processAttach);
   ("APPVIEW_EVENT_DEST", cfgTransportSetFromStr CFG_CTL);
   ("APPVIEW_EVENT_TLS_ENABLE", cfgTransportTlsEnableSetFromStr CFG_CTL);
   ("APPVIEW_EVENT_TLS_VALIDATE_SERVER", cfgTransportTlsValidateServerSetFromStr CFG_CTL);
   ("APPVIEW_EVENT_TLS_CA_CERT_PATH", cfgTransportTlsCACertPathSetFromStr CFG_CTL);
   ("APPVIEW_EVENT_ENABLE", cfgEvtEnableSetFromStr);
   ("APPVIEW_EVENT_FORMAT", cfgEventFormatSetFromStr);
   ("APPVIEW_EVENT_MAXEPS", cfgEvtRateLimitSetFromStr);
   ("APPVIEW_ENHANCE_FS", cfgEnhanceFsSetFromStr);
   ("APPVIEW_ALLOW_BINARY_CONSOLE", cfgAllowBinaryConsoleSetFromStr);
   ("APPVIEW_EVENT_LOGFILE_NAME", cfgEvtFormatNameFilterSetFromStr CFG_SRC_FILE);
   ("APPVIEW_EVENT_CONSOLE_NAME", cfgEvtFormatNameFilterSetFromStr CFG_SRC_CONSOLE);
   ("APPVIEW_EVENT_SYSLOG_NAME", cfgEvtFormatNameFilterSetFromStr CFG_SRC_SYSLOG);
   ("APPVIEW_EVENT_METRIC_NAME", cfgEvtFormatNameFilterSetFromStr CFG_SRC_METRIC);
   ("APPVIEW_EVENT_HTTP_NAME", cfgEvtFormatNameFilterSetFromStr CFG_SRC_HTTP);
   ("APPVIEW_EVENT_HTTP_HEADER", cfgEvtFormatHeaderSetFromStr w);
   ("APPVIEW_EVENT_NET_NAME", cfgEvtFormatNameFilterSetFromStr CFG_SRC_NET);
   ("APPVIEW_EVENT_FS_NAME", cfgEvtFormatNameFilterSetFromStr CFG_SRC_FS);
   ("APPVIEW_EVENT_DNS_NAME", cfgEvtFormatNameFilterSetFromStr CFG_SRC_DNS);
   ("APPVIEW_EVENT_SEC_NAME", cfgEvtFormatNameFilterSetFromStr CFG_SRC_SEC);
   ("APPVIEW_EVENT_LOGFILE_FIELD", cfgEvtFormatFieldFilterSetFromStr CFG_SRC_FILE);
   ("APPVIEW_EVENT_CONSOLE_FIELD", cfgEvtFormatFieldFilterSetFromStr CFG_SRC_CONSOLE);
   ("APPVIEW_EVENT_SYSLOG_FIELD", cfgEvtFormatFieldFilterSetFromStr CFG_SRC_SYSLOG);
   ("APPVIEW_EVENT_METRIC_FIELD", cfgEvtFormatFieldFilterSetFromStr CFG_SRC_METRIC);
   ("APPVIEW_EVENT_HTTP_FIELD", cfgEvtFormatFieldFilterSetFromStr CFG_SRC_HTTP);
   ("APPVIEW_EVENT_NET_FIELD", cfgEvtFormatFieldFilterSetFromStr CFG_SRC_NET);
   ("APPVIEW_EVENT_FS_FIELD", cfgEvtFormatFieldFilterSetFromStr CFG_SRC_FS);
   ("APPVIEW_EVENT_DNS_FIELD", cfgEvtFormatFieldFilterSetFromStr CFG_SRC_DNS);
   ("APPVIEW_EVENT_SEC_FIELD", cfgEvtFormatFieldFilterSetFromStr CFG_SRC_SEC);
   ("APPVIEW_EVENT_LOGFILE_VALUE", cfgEvtFormatValueFilterSetFromStr CFG_SRC_FILE);
   ("APPVIEW_EVENT_CONSOLE_VALUE", cfgEvtFormatValueFilterSetFromStr CFG_SRC_CONSOLE);
   ("APPVIEW_EVENT_SYSLOG_VALUE", cfgEvtFormatValueFilterSetFromStr CFG_SRC_SYSLOG);
   ("APPVIEW_EVENT_METRIC_VALUE", cfgEvtFormatValueFilterSetFromStr CFG_SRC_METRIC);
   ("APPVIEW_EVENT_HTTP_VALUE", cfgEvtFormatValueFilterSetFromStr CFG_SRC_HTTP);
   ("APPVIEW_EVENT_NET_VALUE", cfgEvtFormatValueFilterSetFromStr CFG_SRC_NET);
   ("APPVIEW_EVENT_FS_VALUE", cfgEvtFormatValueFilterSetFromStr CFG_SRC_FS);
   ("APPVIEW_EVENT_DNS_VALUE", cfgEvtFormatValueFilterSetFromStr CFG_SRC_DNS);
   ("APPVIEW_EVENT_SEC_VALUE", cfgEvtFormatValueFilterSetFromStr CFG_SRC_SEC);
   ("APPVIEW_EVENT_LOGFILE", cfgEvtFormatSourceEnabledSetFromStr CFG_SRC_FILE);
   ("APPVIEW_EVENT_CONSOLE", cfgEvtFormatSourceEnabledSetFromStr CFG_SRC_CONSOLE);
   ("APPVIEW_EVENT_SYSLOG", cfgEvtFormatSourceEnabledSetFromStr CFG_SRC_SYSLOG);
   ("APPVIEW_EVENT_METRIC", cfgEvtFormatSourceEnabledSetFromStr CFG_SRC_METRIC);
   ("APPVIEW_EVENT_HTTP", cfgEvtFormatSourceEnabledSetFromStr CFG_SRC_HTTP);
   ("APPVIEW_EVENT_NET", cfgEvtFormatSourceEnabledSetFromStr CFG_SRC_NET);
   ("APPVIEW_EVENT_FS", cfgEvtFormatSourceEnabledSetFromStr CFG_SRC_FS);
   ("APPVIEW_EVENT_DNS", cfgEvtFormatSourceEnabledSetFromStr CFG_SRC_DNS);
   ("APPVIEW_EVENT_SEC", cfgEvtFormatSourceEnabledSetFromStr CFG_SRC_SEC);
   ("APPVIEW_CRIBL_ENABLE", cfgCriblEnableSetFromStr);
   ("APPVIEW_CRIBL_TLS_ENABLE", cfgTransportTlsEnableSetFromStr CFG_LS);
   ("APPVIEW_CRIBL_TLS_VALIDATE_SERVER", cfgTransportTlsValidateServerSetFromStr CFG_LS);
   ("APPVIEW_CRIBL_TLS_CA_CERT_PATH", cfgTransportTlsCACertPathSetFromStr CFG_LS);
   ("APPVIEW_CRIBL_CLOUD", cloud_dest 1);
   ("APPVIEW_CRIBL", cloud_dest 0);
   ("APPVIEW_CRIBL_AUTHTOKEN", cfgAuthTokenSetFromStr)].

Definition env_entry (env_line env_name : string) (value : option string) : M unit :=
  match List.find (fun e => String.eqb env_name e.1) env_table with
  | Some e => e.2 value
  | None =>
      if startsWith env_name "APPVIEW_TAG_" then processCustomTag env_line value
      else if startsWith env_name "APPVIEW_SNAPSHOT_COREDUMP" then cfgSnapShotCoredumpEnableSetFomStr value
      else if startsWith env_name "APPVIEW_SNAPSHOT_BACKTRACE" then cfgSnapshotBacktraceEnableSetFomStr value
      else if String.eqb env_name "APPVIEW_IPC_ENABLE" then cfgIpcEnableSetFomStr value
      else ret tt
  end.

Definition processEnvStyleInput (env_line : string) : M unit :=
  let! ok := malloc in
  if negb ok then ret tt else
  match cut equals_sign env_line with
  | (_, None) => ret tt
  | (env_name, Some text) =>
      let! value := doEnvVariableSubstitution w (Some text) in
      match value with None => ret tt | Some v => env_entry env_line env_name (Some v) end
  end.

Definition starts_with_A (e : string) : bool := match e with String c _ => Ascii.eqb c "A" | EmptyString => false end.
Definition only_command (e : string) : bool :=
  startsWith e "APPVIEW_CMD_DBG_PATH" || startsWith e "APPVIEW_CMD_ATTACH" || startsWith e "APPVIEW_CONF_RELOAD".

Definition cfgProcessEnvironment : M unit :=
  each (fun e => if negb (starts_with_A e) || only_command e then ret tt else processEnvStyleInput e) (environ w).
End Input.

(** The environment does not reach the reload command ([environment_reload]
    below), which closes the recursion. *)
Definition no_reload (_ : option string) : M unit := undefined.

Definition processReloadConfig (value : option string) : M unit :=
  with_value value (fun v =>
    do (if strToVal boolMap v =? 1 then let! path := cfgPath in cfgSetFromFile w yaml_load file path
        else cfgSetFromFile w yaml_load file (Some v));
    do cfgProcessEnvironment no_reload;
    let! c := gets cfg in
    if cfgLogStreamEnable (Some c) =? 0 then ret tt else do cfgLogStreamDefault; ret tt).

(** The line up to the first CR or LF. *)
Fixpoint until_eol (s : string) : string :=
  match s with
  | String c s => if (code c =? 13) || (code c =? 10) then "" else String c (until_eol s)
  | EmptyString => ""
  end.

(** [getline]: the lines of a text; its buffer may have to grow for each. *)
Fixpoint getlines (cur : string) (s : string) : list string :=
  match s with
  | EmptyString => if String.eqb cur "" then [] else [cur]
  | String c s => if code c =? 10 then (cur +:+ String c "") :: getlines "" s else getlines (cur +:+ String c "") s
  end.

Fixpoint command_loop (lines : list string) : M unit :=
  match lines with
  | [] => ret tt
  | line :: lines =>
      let! ok := malloc in
      if negb ok then ret tt else
      do processEnvStyleInput processReloadConfig (until_eol line); command_loop lines
  end.
Definition cfgProcessCommands (text : string) : M unit := command_loop (getlines "" text).

(** ** Specification of the names *)

Inductive setting :=
| SBool (k : key) | SNumber (k : key) | SEnum (map : enum_map) (k : key) | SText (k : key)
| SDest (t : Z) | SCloud (cloud : Z) | SJson | SHeader | STag (name : string) | SCommand.

Definition env_names : list (string * setting) :=
  [("APPVIEW_METRIC_ENABLE", SBool KMtcEnable);
   ("APPVIEW_METRIC_FORMAT", SEnum formatMap KMtcFormat);
   ("APPVIEW_STATSD_PREFIX", SText KMtcPrefix);
   ("APPVIEW_STATSD_MAXLEN", SNumber KMtcMaxLen);
   ("APPVIEW_SUMMARY_PERIOD", SNumber KMtcPeriod);
   ("APPVIEW_METRIC_STATSD", SBool (KMtcWatch CFG_MTC_STATSD));
   ("APPVIEW_METRIC_FS", SBool (KMtcWatch CFG_MTC_FS));
   ("APPVIEW_METRIC_NET", SBool (KMtcWatch CFG_MTC_NET));
   ("APPVIEW_METRIC_HTTP", SBool (KMtcWatch CFG_MTC_HTTP));
   ("APPVIEW_METRIC_DNS", SBool (KMtcWatch CFG_MTC_DNS));
   ("APPVIEW_METRIC_PROC", SBool (KMtcWatch CFG_MTC_PROC));
   ("APPVIEW_CMD_DIR", SText KCmdDir);
   ("APPVIEW_CONFIG_EVENT", SBool KStartMsg);
   ("APPVIEW_METRIC_VERBOSITY", SNumber KMtcVerbosity);
   ("APPVIEW_LOG_LEVEL", SEnum logLevelMap KLogLevel);
   ("APPVIEW_METRIC_DEST", SDest CFG_MTC);
   ("APPVIEW_METRIC_TLS_ENABLE", SBool (KTlsEnable CFG_MTC));
   ("APPVIEW_METRIC_TLS_VALIDATE_SERVER", SBool (KTlsValidate CFG_MTC));
   ("APPVIEW_METRIC_TLS_CA_CERT_PATH", SText (KTlsCA CFG_MTC));
   ("APPVIEW_LOG_DEST", SDest CFG_LOG);
   ("APPVIEW_LOG_TLS_ENABLE", SBool (KTlsEnable CFG_LOG));
   ("APPVIEW_LOG_TLS_VALIDATE_SERVER", SBool (KTlsValidate CFG_LOG));
   ("APPVIEW_LOG_TLS_CA_CERT_PATH", SText (KTlsCA CFG_LOG));
   ("APPVIEW_PAYLOAD_ENABLE", SBool KPayEnable);
   ("APPVIEW_PAYLOAD_DIR", SText KPayDir);
   ("APPVIEW_CMD_DBG_PATH", SCommand);
   ("APPVIEW_CONF_RELOAD", SCommand);
   ("APPVIEW_CMD_ATTACH", SCommand);
   ("APPVIEW_EVENT_DEST", SDest CFG_CTL);
   ("APPVIEW_EVENT_TLS_ENABLE", SBool (KTlsEnable CFG_CTL));
   ("APPVIEW_EVENT_TLS_VALIDATE_SERVER", SBool (KTlsValidate CFG_CTL));
   ("APPVIEW_EVENT_TLS_CA_CERT_PATH", SText (KTlsCA CFG_CTL));
   ("APPVIEW_EVENT_ENABLE", SBool KEvtEnable);
   ("APPVIEW_EVENT_FORMAT", SJson);
   ("APPVIEW_EVENT_MAXEPS", SNumber KEvtRate);
   ("APPVIEW_ENHANCE_FS", SBool KEnhanceFs);
   ("APPVIEW_ALLOW_BINARY_CONSOLE", SBool KBinaryConsole);
   ("APPVIEW_EVENT_LOGFILE_NAME", SText (KNameFilter CFG_SRC_FILE));
   ("APPVIEW_EVENT_CONSOLE_NAME", SText (KNameFilter CFG_SRC_CONSOLE));
   ("APPVIEW_EVENT_SYSLOG_NAME", SText (KNameFilter CFG_SRC_SYSLOG));
   ("APPVIEW_EVENT_METRIC_NAME", SText (KNameFilter CFG_SRC_METRIC));
   ("APPVIEW_EVENT_HTTP_NAME", SText (KNameFilter CFG_SRC_HTTP));
   ("APPVIEW_EVENT_HTTP_HEADER", SHeader);
   ("APPVIEW_EVENT_NET_NAME", SText (KNameFilter CFG_SRC_NET));
   ("APPVIEW_EVENT_FS_NAME", SText (KNameFilter CFG_SRC_FS));
   ("APPVIEW_EVENT_DNS_NAME", SText (KNameFilter CFG_SRC_DNS));
   ("APPVIEW_EVENT_SEC_NAME", SText (KNameFilter CFG_SRC_SEC));
   ("APPVIEW_EVENT_LOGFILE_FIELD", SText (KFieldFilter CFG_SRC_FILE));
   ("APPVIEW_EVENT_CONSOLE_FIELD", SText (KFieldFilter CFG_SRC_CONSOLE));
   ("APPVIEW_EVENT_SYSLOG_FIELD", SText (KFieldFilter CFG_SRC_SYSLOG));
   ("APPVIEW_EVENT_METRIC_FIELD", SText (KFieldFilter CFG_SRC_METRIC));
   ("APPVIEW_EVENT_HTTP_FIELD", SText (KFieldFilter CFG_SRC_HTTP));
   ("APPVIEW_EVENT_NET_FIELD", SText (KFieldFilter CFG_SRC_NET));
   ("APPVIEW_EVENT_FS_FIELD", SText (KFieldFilter CFG_SRC_FS));
   ("APPVIEW_EVENT_DNS_FIELD", SText (KFieldFilter CFG_SRC_DNS));
   ("APPVIEW_EVENT_SEC_FIELD", SText (KFieldFilter CFG_SRC_SEC));
   ("APPVIEW_EVENT_LOGFILE_VALUE", SText (KValueFilter CFG_SRC_FILE));
   ("APPVIEW_EVENT_CONSOLE_VALUE", SText (KValueFilter CFG_SRC_CONSOLE));
   ("APPVIEW_EVENT_SYSLOG_VALUE", SText (KValueFilter CFG_SRC_SYSLOG));
   ("APPVIEW_EVENT_METRIC_VALUE", SText (KValueFilter CFG_SRC_METRIC));
   ("APPVIEW_EVENT_HTTP_VALUE", SText (KValueFilter CFG_SRC_HTTP));
   ("APPVIEW_EVENT_NET_VALUE", SText (KValueFilter CFG_SRC_NET));
   ("APPVIEW_EVENT_FS_VALUE", SText (KValueFilter CFG_SRC_FS));
   ("APPVIEW_EVENT_DNS_VALUE", SText (KValueFilter CFG_SRC_DNS));
   ("APPVIEW_EVENT_SEC_VALUE", SText (KValueFilter CFG_SRC_SEC));
   ("APPVIEW_EVENT_LOGFILE", SBool (KSource CFG_SRC_FILE));
   ("APPVIEW_EVENT_CONSOLE", SBool (KSource CFG_SRC_CONSOLE));
   ("APPVIEW_EVENT_SYSLOG", SBool (KSource CFG_SRC_SYSLOG));
   ("APPVIEW_EVENT_METRIC", SBool (KSource CFG_SRC_METRIC));
   ("APPVIEW_EVENT_HTTP", SBool (KSource CFG_SRC_HTTP));
   ("APPVIEW_EVENT_NET", SBool (KSource CFG_SRC_NET));
   ("APPVIEW_EVENT_FS", SBool (KSource CFG_SRC_FS));
   ("APPVIEW_EVENT_DNS", SBool (KSource CFG_SRC_DNS));
   ("APPVIEW_EVENT_SEC", SBool (KSource CFG_SRC_SEC));
   ("APPVIEW_CRIBL_ENABLE", SBool KLogStream);
   ("APPVIEW_CRIBL_TLS_ENABLE", SBool (KTlsEnable CFG_LS));
   ("APPVIEW_CRIBL_TLS_VALIDATE_SERVER", SBool (KTlsValidate CFG_LS));
   ("APPVIEW_CRIBL_TLS_CA_CERT_PATH", SText (KTlsCA CFG_LS));
   ("APPVIEW_CRIBL_CLOUD", SCloud 1);
   ("APPVIEW_CRIBL", SCloud 0);
   ("APPVIEW_CRIBL_AUTHTOKEN", SText KAuthToken)].

Definition env_setting (name : string) : option setting :=
  match List.find (fun e => String.eqb name e.1) env_names with
  | Some e => Some e.2
  | None =>
      match strip "APPVIEW_TAG_" name with
      | Some tag => Some (STag tag)
      | None =>
          if startsWith name "APPVIEW_SNAPSHOT_COREDUMP" then Some (SBool KCoredump)
          else if startsWith name "APPVIEW_SNAPSHOT_BACKTRACE" then Some (SBool KBacktrace)
          else if String.eqb name "APPVIEW_IPC_ENABLE" then Some (SBool KIpc)
          else None
      end
  end.

(** A destination: a scheme, then host and port behind the last colon, or a path. *)
Definition dest_ops (t : Z) (v : string) : list op :=
  let net ty rest := match cut_last colon rest with
    | Some (h, p) => [OSet (KType t) (VNum ty); OSet (KHost t) (VStr (Some h)); OSet (KPort t) (VStr (Some p))]
    | None => [] end in
  let path ty p := [OSet (KType t) (VNum ty); OSet (KPath t) (VStr (Some p))] in
  match strip "udp://" v, strip "tcp://" v, strip "file://" v, strip "unix://" v with
  | Some rest, _, _, _ => net CFG_UDP rest
  | _, Some rest, _, _ => net CFG_TCP rest
  | _, _, Some p, _ => path CFG_FILE p
  | _, _, _, Some p => path CFG_UNIX p
  | _, _, _, _ => if startsWith v "edge" then [OSet (KType t) (VNum CFG_EDGE)] else []
  end.

(** What a setting does with a value. *)
Definition setting_ops (x : setting) (v : string) : list op :=
  match x with
  | SBool k => [OSet k (VNum (strToVal boolMap v))]
  | SNumber k => match whole_number v with Some n => [OSet k (VNum (u32 n))] | None => [] end
  | SEnum map k => [OSet k (VNum (strToVal map v))]
  | SText k => [OSet k (VStr (Some v))]
  | SDest t => dest_ops t v
  | SCloud cloud => OSet KLogStreamCloud (VNum cloud) :: dest_ops CFG_LS v
  | SJson => [OSet KEvtFormat (VNum CFG_FMT_NDJSON)]
  | SHeader => [OHeader v]
  | STag n => [OTag n v]
  | SCommand => []
  end.

(** The setting of a line and its value. *)
Definition line_setting (line : string) : option (setting * string) :=
  match cut equals_sign line with
  | (name, Some text) => match env_setting name with Some x => Some (x, expanded w text) | None => None end
  | (_, None) => None
  end.
Definition line_ops (line : string) : list op :=
  match line_setting line with Some (x, v) => setting_ops x v | None => [] end.

(** The last acceptable value that the operations give to an option. *)
Definition last_accepted (k : key) (ops : list op) : option val :=
  last (omap (fun o => match o with OSet k' v => if decide (k' = k) then norm k v else None | _ => None end) ops).

(** Texts that fit the buffers of 1024 bytes. *)
Definition setting_fits (x : setting) (v : string) : Prop :=
  match x with
  | SDest _ | SCloud _ => Z.of_nat (String.length v) < 1024
  | STag n => Z.of_nat (String.length n) < 1012
  | _ => True
  end.

(** ** Lines of the environment are not commands *)

Lemma cut_spec ch s a b : cut ch s = (a, Some b) -> s = a +:+ String ch b.
Proof using Type.
  revert a b. induction s as [|x s IH]; cbn [cut]; intros a b E; [done|].
  destruct (Ascii.eqb_spec x ch) as [-> |_]; [by injection E as <- <-|].
  destruct (cut ch s) as [l r]. injection E as <- ->. rewrite append_cons. f_equal. by apply IH.
Qed.

Lemma starts_prefix a b : startsWith (a +:+ b) a = true.
Proof using Type.
  unfold startsWith. replace (strip a (a +:+ b)) with (Some b); [done|]. symmetry.
  induction a as [|x a IH]; [done|]. rewrite append_cons. cbn [strip]. by rewrite Ascii.eqb_refl.
Qed.

Lemma not_command line name text : only_command line = false -> cut equals_sign line = (name, Some text) ->
  name <> "APPVIEW_CMD_DBG_PATH" /\ name <> "APPVIEW_CMD_ATTACH" /\ name <> "APPVIEW_CONF_RELOAD".
Proof using Type.
  intros Hc E. apply cut_spec in E. unfold only_command in Hc. rewrite !orb_false_iff in Hc. destruct Hc as [[H1 H2] H3].
  split_and!; intros ->; rewrite E, starts_prefix in *; done.
Qed.

(** Finding a name in two tables with the same names. *)
Lemma find_both {A B} (P : string -> A -> B -> Prop) (t1 : list (string * A)) (t2 : list (string * B)) name :
  Forall2 (fun x y => x.1 = y.1 /\ P x.1 x.2 y.2) t1 t2 ->
  match List.find (fun e => String.eqb name e.1) t1, List.find (fun e => String.eqb name e.1) t2 with
  | Some x, Some y => x.1 = name /\ y.1 = name /\ P name x.2 y.2
  | None, None => True
  | _, _ => False
  end.
Proof using Type.
  induction 1 as [|[n x] [m y] t1 t2 [En HP] F IH]; cbn [List.find fst snd] in *; [done|]. subst m.
  destruct (String.eqb_spec name n) as [-> |_]; [done|exact IH].
Qed.

Lemma entry_reload r1 r2 line name v : name <> "APPVIEW_CONF_RELOAD" -> env_entry r1 line name v = env_entry r2 line name v.
Proof using Type.
  intros Hn. unfold env_entry.
  pose proof (find_both (fun n x y => n <> "APPVIEW_CONF_RELOAD" -> x = y) (env_table r1) (env_table r2) name) as F.
  destruct (List.find _ (env_table r1)) as [x|], (List.find _ (env_table r2)) as [y|]; cbn beta iota in F.
  - destruct F as (_ & _ & F); [unfold env_table; repeat match goal with |- Forall2 _ _ _ => constructor end; by split|].
    by rewrite F.
  - exfalso. apply F. unfold env_table. repeat match goal with |- Forall2 _ _ _ => constructor end; by split.
  - exfalso. apply F. unfold env_table. repeat match goal with |- Forall2 _ _ _ => constructor end; by split.
  - done.
Qed.

Lemma each_ext {A} (f g : A -> M unit) l : (forall a s, f a s = g a s) -> forall s, each f l s = each g l s.
Proof using Type.
  intros E. induction l as [|a l IH]; intros s; cbn [each]; [done|]. unfold bind. rewrite E. destruct (g a s) as [[? s1]|]; [apply IH|done].
Qed.

(** The environment is processed in the same way whatever the reload command does. *)
Lemma environment_reload r1 r2 s : cfgProcessEnvironment r1 s = cfgProcessEnvironment r2 s.
Proof using Type.
  apply each_ext. clear s. intros e s.
  destruct (negb (starts_with_A e) || only_command e) eqn:Ho; [reflexivity|]. apply orb_false_iff in Ho as [_ Ho].
  unfold processEnvStyleInput, bind. destruct (malloc s) as [[[] s1]|]; cbn [negb]; [|reflexivity..].
  destruct (cut equals_sign e) as [name [text|]] eqn:Ec; [|reflexivity].
  destruct (doEnvVariableSubstitution w (Some text) s1) as [[[v|] s2]|]; [|reflexivity..].
  destruct (not_command _ _ _ Ho Ec) as (_ & _ & Hn). rewrite (entry_reload r1 r2) by exact Hn. reflexivity.
Qed.

(** ** Programs that only touch the configuration *)

Record frame (s s' : pst) : Prop := {
  f_acts : acts s' = acts s;
  f_list : g_protlist s' = g_protlist s;
  f_sequence : g_prot_sequence s' = g_prot_sequence s;
  f_heap : prot_heap s' = prot_heap s;
  f_next : next_prot s' = next_prot s;
}.
Lemma frame_trans s1 s2 s3 : frame s1 s2 -> frame s2 s3 -> frame s1 s3.
Proof using Type. intros [] []. split; congruence. Qed.
Lemma kept_frame s s' : kept s s' -> frame s s'.
Proof using Type. intros []. by split. Qed.

(** Whatever allocations fail, the program ends. *)
Definition quiet {A} (m : M A) : Prop := forall s, exists a s', m s = Def (a, s') /\ frame s s'.

Lemma quiet_ret {A} (a : A) : quiet (ret a).
Proof using Type. intros s. by exists a, s. Qed.
Lemma quiet_bind {A B} (m : M A) (f : A -> M B) : quiet m -> (forall a, quiet (f a)) -> quiet (bind m f).
Proof using Type.
  intros Hm Hf s. destruct (Hm s) as (a & s1 & E1 & F1). destruct (Hf a s1) as (b & s2 & E2 & F2).
  exists b, s2. unfold bind. rewrite E1. split; [done|]. by eapply frame_trans.
Qed.
Lemma quiet_malloc : quiet malloc.
Proof using Type. intros s. unfold malloc, take_al. destruct (alloc (al s)) as [ok l]. by eexists _, _. Qed.
Lemma quiet_set f : quiet (set_plain f).
Proof using Type. intros s. by eexists _, _. Qed.
Lemma quiet_each {A} (f : A -> M unit) l : (forall a, a ∈ l -> quiet (f a)) -> quiet (each f l).
Proof using Type.
  induction l as [|a l IH]; intros Q; cbn [each]; [apply quiet_ret|]. apply quiet_bind; [apply Q; by left|].
  intros _. apply IH. intros x Hx. apply Q. by right.
Qed.

Ltac quietly := repeat first
  [apply quiet_ret|apply quiet_set|apply quiet_malloc|apply quiet_bind; [|intros ?]|progress unfold set_dup, headerSet].

(** ** Rows of the table *)

(** A function of the table does what the specification says. *)
Definition row (f : option string -> M unit) (x : setting) : Prop :=
  forall v, setting_fits x v -> quiet (f (Some v)) /\ reads w anywhere anywhere (f (Some v)) (setting_ops x v).

Lemma row_bool k f : (forall c n, f c n = set c k (VNum n)) -> row (fun v => with_bool v f) (SBool k).
Proof using Type. intros E v _. split; [quietly|]. apply reads_set. intros c. by rewrite E. Qed.
Lemma row_enum map k f : (forall c n, f c n = set c k (VNum n)) ->
  row (fun v => with_value v (fun v => set_plain (fun c => f c (strToVal map v)))) (SEnum map k).
Proof using Type. intros E v _. split; [quietly|]. apply reads_set. intros c. by rewrite E. Qed.
Lemma row_number k f : (forall c n, f c n = set c k (VNum n)) -> row (fun v => with_number v f) (SNumber k).
Proof using Type.
  intros E v _. cbn [with_number with_value setting_ops]. destruct (whole_number v) as [n|]; (split; [quietly|]); [|apply reads_ret].
  apply reads_set. intros c. by rewrite E.
Qed.
Lemma row_text k f : (forall c v, f true c v = set c k (VStr (Some v))) ->
  row (fun v => with_value v (fun v => set_dup (fun ok c => f ok c v))) (SText k).
Proof using Type. intros E v _. split; [quietly|]. apply reads_dup. intros c. by rewrite E. Qed.
Lemma row_header : row (cfgEvtFormatHeaderSetFromStr w) SHeader.
Proof using Type.
  intros v _. cbn [cfgEvtFormatHeaderSetFromStr with_value]. split; [quietly|].
  intros s Hs HP. unfold headerSet. rewrite !bind_malloc by done. by eexists.
Qed.

Lemma reads_plain f o : (forall c, f c = apply_op w c o) -> reads w anywhere anywhere (set_plain f) [o].
Proof using Type. intros E. by apply reads_set. Qed.
Lemma reads_string f o : (forall c, f true c = apply_op w c o) -> reads w anywhere anywhere (set_dup f) [o].
Proof using Type. intros E. by apply reads_dup. Qed.

Lemma row_dest t : row (cfgTransportSetFromStr t) (SDest t).
Proof using Type.
  intros v Hv. cbn [setting_fits] in Hv. unfold cfgTransportSetFromStr, with_value, network_dest. cbn [setting_ops]. unfold dest_ops.
  rewrite (proj2 (Z.leb_gt _ _) Hv).
  destruct (strip "udp://" v) as [rest|]; [|destruct (strip "tcp://" v) as [rest|]; [|
    destruct (strip "file://" v) as [p|]; [|destruct (strip "unix://" v) as [p|]; [|destruct (startsWith v "edge")]]]].
  1,2: destruct (cut_last colon rest) as [[h p]|]; [|split; [quietly|apply reads_ret]]; (split; [unfold transportHostSet, transportPortSet; quietly|]);
    (eapply (reads_bind w _ _ _ _ _ [_]); [by apply reads_plain|]); (eapply (reads_bind w _ _ _ _ _ [_]); by apply reads_string).
  1,2: split; [unfold transportPathSet; quietly|]; (eapply (reads_bind w _ _ _ _ _ [_]); [by apply reads_plain|by apply reads_string]).
  - split; [quietly|]. by apply reads_plain.
  - split; [quietly|]. apply reads_ret.
Qed.

Lemma row_cloud n : row (cloud_dest n) (SCloud n).
Proof using Type.
  intros v Hv. destruct (row_dest CFG_LS v Hv) as [Q R]. unfold cloud_dest. split; [by quietly|].
  cbn [setting_ops]. eapply (reads_bind w _ _ _ _ _ [_]); [by apply reads_plain|exact R].
Qed.

Lemma row_prefix : row cfgMtcStatsDPrefixSetFromStr (SText KMtcPrefix).
Proof using Type. intros v _. split; [unfold cfgMtcStatsDPrefixSetFromStr; quietly|]. by apply reads_string. Qed.
Lemma row_json : row cfgEventFormatSetFromStr SJson.
Proof using Type. intros v _. split; [unfold cfgEventFormatSetFromStr, with_value; quietly|]. by apply reads_plain. Qed.

Lemma table_rows reload :
  Forall2 (fun e x => e.1 = x.1 /\ (x.2 <> SCommand -> row e.2 x.2)) (env_table reload) env_names.
Proof using Type.
  unfold env_table, env_names.
  repeat match goal with |- Forall2 _ _ _ => constructor end; (split; [reflexivity|]); cbn [snd]; intros N;
    first [by destruct N|apply row_header|apply row_prefix|apply row_json|apply row_dest|apply row_cloud
          |apply row_bool; reflexivity|apply row_number; reflexivity|apply row_enum; reflexivity|apply row_text; reflexivity].
Qed.

(** The tag of a line. *)
Lemma strip_length p s t : strip p s = Some t -> String.length s = (String.length p + String.length t)%nat /\ skipn_string (String.length p) s = t.
Proof using Type.
  revert s. induction p as [|a p IH]; intros s E; cbn [strip] in E; [injection E as ->; by destruct t|].
  destruct s as [|b s]; [done|]. destruct (Ascii.eqb a b); [|done]. destruct (IH s E) as [L S]. cbn. by rewrite L, S.
Qed.
Lemma cut_first ch s a b n : cut ch s = (a, Some b) -> (String.length a < n)%nat ->
  exists b', cut ch (firstn_string n s) = (a, Some b').
Proof using Type.
  revert a n. induction s as [|x s IH]; intros a n E Hn; cbn [cut] in E; [done|]. destruct n as [|n]; [lia|]. cbn [firstn_string cut].
  destruct (Ascii.eqb x ch); [injection E as <- _; by eexists|]. destruct (cut ch s) as [l r] eqn:Ec. injection E as <- ->.
  cbn in Hn. destruct (IH l n eq_refl) as [b' ->]; [lia|]. by eexists.
Qed.
Lemma cut_skip ch p s a b t : cut ch s = (a, Some b) -> strip p a = Some t -> cut ch (skipn_string (String.length p) s) = (t, Some b).
Proof using Type.
  revert s a. induction p as [|x p IH]; intros s a E Hs; cbn [strip] in Hs; [injection Hs as ->; by destruct s|].
  destruct a as [|y a]; [done|]. destruct (Ascii.eqb x y); [|done]. destruct s as [|z s]; [done|]. cbn [cut] in E. cbn [String.length skipn_string].
  destruct (Ascii.eqb z ch); [done|]. destruct (cut ch s) as [l r] eqn:Ec. injection E as -> -> ->. by apply (IH s a).
Qed.

Lemma tag_line line name text tag v : cut equals_sign line = (name, Some text) -> strip "APPVIEW_TAG_" name = Some tag ->
  Z.of_nat (String.length tag) < 1012 -> processCustomTag line (Some v) = cfgCustomTagAddFromStr (Some tag) (Some v).
Proof using Type.
  intros E Hs Hl. destruct (strip_length _ _ _ Hs) as [L _]. unfold processCustomTag.
  destruct (cut_first equals_sign line name text 1024 E) as [b' E']; [cbn in L; lia|].
  by rewrite (cut_skip _ "APPVIEW_TAG_" _ _ _ _ E' Hs).
Qed.

Lemma row_tag tag : row (fun v => cfgCustomTagAddFromStr (Some tag) v) (STag tag).
Proof using Type.
  intros v _. split; [unfold cfgCustomTagAddFromStr; quietly|].
  intros s Hs HP. unfold cfgCustomTagAddFromStr. rewrite !bind_malloc by done. by eexists.
Qed.

(** Lines whose name is not a command. *)
Lemma entry_row reload line name text v :
  cut equals_sign line = (name, Some text) -> env_setting name <> Some SCommand ->
  match env_setting name with
  | Some x => setting_fits x v -> quiet (env_entry reload line name (Some v)) /\
                reads w anywhere anywhere (env_entry reload line name (Some v)) (setting_ops x v)
  | None => env_entry reload line name (Some v) = ret tt
  end.
Proof using Type.
  intros E Hc. unfold env_entry, env_setting in *.
  pose proof (find_both (fun _ e x => x <> SCommand -> row e x) _ _ name (table_rows reload)) as F.
  destruct (List.find _ (env_table reload)) as [e|], (List.find _ env_names) as [x|]; try done.
  { destruct F as (_ & _ & F). intros Hv. apply F; [|done]. congruence. }
  unfold startsWith. destruct (strip "APPVIEW_TAG_" name) as [tag|] eqn:Et.
  { intros Hv. rewrite (tag_line _ _ _ _ v E Et Hv). by apply row_tag. }
  destruct (strip "APPVIEW_SNAPSHOT_COREDUMP" name); [by apply (row_bool KCoredump cfgSnapshotCoredumpSet)|].
  destruct (strip "APPVIEW_SNAPSHOT_BACKTRACE" name); [by apply (row_bool KBacktrace cfgSnapshotBacktraceSet)|].
  destruct (String.eqb name "APPVIEW_IPC_ENABLE"); [by apply (row_bool KIpc cfgIpcEnableSet)|done].
Qed.

(** ** Lines that are skipped would do nothing *)

Lemma strip_app p s t : strip p s = Some t -> s = p +:+ t.
Proof using Type.
  revert s. induction p as [|x p IH]; intros s E; cbn [strip] in E; [by injection E as ->|].
  destruct s as [|y s]; [done|]. destruct (Ascii.eqb_spec x y) as [-> |]; [|done]. rewrite append_cons. f_equal. by apply IH.
Qed.

(** Two prefixes of a text agree. *)
Lemma prefixes_agree s p q : startsWith s p = true -> startsWith s q = true -> startsWith p q || startsWith q p = true.
Proof using Type.
  unfold startsWith. revert p q. induction s as [|c s IH]; intros [|x p] [|y q]; cbn [strip]; try done.
  destruct (Ascii.eqb_spec x c) as [-> |]; [|done]. destruct (Ascii.eqb_spec y c) as [-> |]; [|done].
  rewrite !Ascii.eqb_refl. apply IH.
Qed.

(** A prefix without an equals sign of a line is a prefix of its name. *)
Lemma name_prefix line name text p : cut equals_sign line = (name, Some text) -> snd (cut equals_sign p) = None ->
  startsWith line p = true -> startsWith name p = true.
Proof using Type.
  unfold startsWith. intros E Hp. apply cut_spec in E. subst line. revert p Hp.
  induction name as [|x name IH]; intros [|y p] Hp; cbn [strip]; try done.
  - change ("" +:+ String equals_sign text) with (String equals_sign text). cbn [strip cut] in *.
    rewrite Ascii.eqb_sym. destruct (Ascii.eqb y equals_sign) eqn:E; [done|]. by rewrite Ascii.eqb_sym, E.
  - rewrite append_cons. cbn [strip]. destruct (Ascii.eqb y x); [|done]. apply IH. cbn [cut] in Hp.
    destruct (Ascii.eqb y equals_sign); [done|]. by destruct (cut equals_sign p).
Qed.

(** A name that is found is one of the table's, or has one of the four prefixes. *)
Lemma setting_names name x : env_setting name = Some x ->
  (name, x) ∈ env_names \/ startsWith name "APPVIEW_TAG_" = true \/ startsWith name "APPVIEW_SNAPSHOT_COREDUMP" = true \/
  startsWith name "APPVIEW_SNAPSHOT_BACKTRACE" = true \/ startsWith name "APPVIEW_IPC_ENABLE" = true.
Proof using Type.
  unfold env_setting. destruct (List.find _ env_names) as [[n y]|] eqn:F.
  - apply find_some in F as [I E]. cbn [fst snd] in *. apply String.eqb_eq in E as ->. intros [= <-]. left. by apply list_elem_of_In.
  - unfold startsWith. destruct (strip "APPVIEW_TAG_" name); [by auto|]. destruct (strip "APPVIEW_SNAPSHOT_COREDUMP" name); [by auto|].
    destruct (strip "APPVIEW_SNAPSHOT_BACKTRACE" name); [by auto|]. destruct (String.eqb_spec name "APPVIEW_IPC_ENABLE") as [-> |]; [by auto 10|done].
Qed.

Lemma named_A name x : env_setting name = Some x -> starts_with_A name = true.
Proof using Type.
  assert (P : forall p, startsWith name (String "A" p) = true -> starts_with_A name = true).
  { intros p. unfold startsWith. destruct name as [|c name]; cbn [strip]; [done|]. destruct (Ascii.eqb_spec "A" c) as [<- |]; done. }
  intros E. apply setting_names in E as [I|[E|[E|[E|E]]]]; try (by eapply P).
  assert (F : forallb (fun e => starts_with_A e.1) env_names = true) by reflexivity.
  apply forallb_forall with (x := (name, x)) in F; [done|by apply list_elem_of_In].
Qed.

Lemma command_prefix name x p : startsWith name p = true -> env_setting name = Some x ->
  forallb (fun e => negb (startsWith e.1 p) || match e.2 with SCommand => true | _ => false end) env_names = true ->
  forallb (fun q => negb (startsWith p q || startsWith q p))
    ["APPVIEW_TAG_"; "APPVIEW_SNAPSHOT_COREDUMP"; "APPVIEW_SNAPSHOT_BACKTRACE"; "APPVIEW_IPC_ENABLE"] = true -> x = SCommand.
Proof using Type.
  intros Hp E Hn Hq. cbn [forallb] in Hq. rewrite !andb_true_iff, !negb_true_iff in Hq. destruct Hq as (Q1 & Q2 & Q3 & Q4 & _).
  apply setting_names in E as [I|[E|[E|[E|E]]]];
    try (pose proof (prefixes_agree _ _ _ Hp E); congruence).
  apply forallb_forall with (x := (name, x)) in Hn; [|by apply list_elem_of_In]. cbn [fst snd] in Hn. rewrite Hp in Hn. by destruct x.
Qed.

Lemma skipped_nothing e : negb (starts_with_A e) || only_command e = true -> line_ops e = [].
Proof using Type.
  intros Hs. unfold line_ops, line_setting. destruct (cut equals_sign e) as [name [text|]] eqn:E; [|done].
  destruct (env_setting name) as [x|] eqn:Ex; [|done].
  assert (x = SCommand) as ->; [|done]. pose proof (named_A _ _ Ex) as HA.
  apply orb_true_iff in Hs as [Hs|Hs].
  { apply cut_spec in E. subst e. destruct name as [|c name]; [done|]. rewrite append_cons in Hs. cbn [starts_with_A] in *. by rewrite HA in Hs. }
  unfold only_command in Hs. rewrite !orb_true_iff in Hs. destruct Hs as [[Hs|Hs]|Hs];
    (apply (name_prefix _ _ _ _ E) in Hs; [|reflexivity]); by eapply command_prefix.
Qed.

(** ** The environment *)

Definition line_fits (line : string) : Prop :=
  match cut equals_sign line with
  | (name, Some text) =>
      match env_setting name with Some x => setting_fits x text /\ setting_fits x (expanded w text) | None => True end
  | _ => True
  end.

Context {EML : EnvMatchLaws}.

Lemma command_names name : env_setting name = Some SCommand ->
  name = "APPVIEW_CMD_DBG_PATH" \/ name = "APPVIEW_CMD_ATTACH" \/ name = "APPVIEW_CONF_RELOAD".
Proof using Type.
  unfold env_setting. destruct (List.find _ env_names) as [[n y]|] eqn:F.
  - apply find_some in F as [I E]. cbn [fst snd] in *. apply String.eqb_eq in E as ->. intros [= ->].
    assert (C : forallb (fun e => match e.2 with SCommand => String.eqb e.1 "APPVIEW_CMD_DBG_PATH" || String.eqb e.1 "APPVIEW_CMD_ATTACH"
      || String.eqb e.1 "APPVIEW_CONF_RELOAD" | _ => true end) env_names = true) by reflexivity.
    apply forallb_forall with (x := (n, SCommand)) in C; [|done]. cbn [fst snd] in C.
    rewrite !orb_true_iff, !String.eqb_eq in C. destruct C as [[C|C]|C]; auto.
  - by repeat case_match.
Qed.

Lemma line_row reload line : only_command line = false -> line_fits line ->
  quiet (processEnvStyleInput reload line) /\ reads w anywhere anywhere (processEnvStyleInput reload line) (line_ops line).
Proof using EML.
  intros Ho Hf. unfold processEnvStyleInput, line_ops, line_setting, line_fits in *.
  destruct (cut equals_sign line) as [name [text|]] eqn:E.
  2: { split; [apply quiet_bind; [apply quiet_malloc|intros []; apply quiet_ret]|].
       intros s Hs HP. rewrite bind_malloc by done. by apply reads_ret. }
  assert (Hc : env_setting name <> Some SCommand).
  { intros Hc%command_names. destruct (not_command _ _ _ Ho E) as (? & ? & ?). by destruct Hc as [|[|]]. }
  pose proof (fun v => entry_row reload line name text v E Hc) as Row.
  split.
  - apply quiet_bind; [apply quiet_malloc|]. intros []; [|apply quiet_ret]. cbn [negb]. intros s.
    destruct (substitution_any w s text) as (r & b & l & Es & Hr). unfold bind. rewrite Es.
    destruct r as [v|]; [|by eexists _, _].
    assert (Q : quiet (env_entry reload line name (Some v))).
    { specialize (Row v). destruct (env_setting name) as [x|]; [|rewrite Row; apply quiet_ret]. apply Row. destruct Hf as [F1 F2].
      destruct Hr as [Hr|[[= ->]|(o & [= ->] & Ho')]]; [done|done|].
      destruct (expanded_spec w text) as (o2 & E2 & Ho2). rewrite E2 in F2. by rewrite (expands_unique _ _ _ _ Ho' Ho2). }
    destruct (Q (set_al (set_regex s b) l)) as (a & s' & Eq & F). exists a, s'. split; [done|]. eapply frame_trans; [|exact F]. by split.
  - intros s Hs HP. rewrite bind_malloc by done. cbn [negb]. unfold bind. rewrite substitution_quiet by done.
    specialize (Row (expanded w text)). destruct (env_setting name) as [x|].
    + destruct (proj2 (Row (proj2 Hf)) (set_regex s true)) as (s' & E' & K & Q & C); [done|done|].
      exists s'. split; [done|]. split; [|done]. eapply kept_trans; [|exact K]. by split.
    + rewrite Row. by eexists.
Qed.

Lemma environment_rows reload : Forall line_fits (environ w) ->
  quiet (cfgProcessEnvironment reload) /\
  reads w anywhere anywhere (cfgProcessEnvironment reload) (concat (map line_ops (environ w))).
Proof using EML.
  intros F. rewrite Forall_forall in F. unfold cfgProcessEnvironment. split.
  - apply quiet_each. intros e He. destruct (negb (starts_with_A e) || only_command e) eqn:Ho; [apply quiet_ret|].
    apply orb_false_iff in Ho as [_ Ho]. apply line_row; [done|by apply F].
  - apply reads_each. induction (environ w) as [|e l IH]; cbn [map]; constructor.
    + destruct (negb (starts_with_A e) || only_command e) eqn:Ho; [rewrite skipped_nothing by done; apply reads_ret|].
      apply orb_false_iff in Ho as [_ Ho]. apply line_row; [done|apply F; by left].
    + apply IH. intros x Hx. apply F. by right.
Qed.

(** ** What the options are afterwards *)

Lemma last_written st ops k : foldl op_store st ops k = default (st k) (last_accepted k ops).
Proof using Type.
  unfold last_accepted. induction ops as [|o ops IH] using rev_ind; [done|]. rewrite foldl_app, omap_app. cbn [foldl].
  destruct o as [k' v| |]; cbn [op_store omap list_omap]; [|by rewrite app_nil_r..].
  unfold store_write. cbn [fst snd]. destruct (decide (k' = k)) as [-> |]; [|by rewrite app_nil_r].
  destruct (norm k v) as [x|]; [by rewrite last_snoc|by rewrite app_nil_r].
Qed.

Definition arg_fine (o : op) : Prop := match o with OSet _ v => arg_ok v | _ => True end.

(** Options and tags after operations. *)
Lemma ops_result ops : forall c ts, shape c -> tags_wf c ts -> Forall arg_fine ops ->
  Z.of_nat (length ts) + Z.of_nat (length (omap tag_pair ops)) <= 2 ^ 28 ->
  let c' := foldl (apply_op w) c ops in
  (forall k, get (Some c') k = foldl op_store (get (Some c)) ops k) /\
  tags_wf c' (foldl (fun ts nv => put_tag ts nv.1 nv.2) ts (omap tag_pair ops)).
Proof using Type.
  induction ops as [|o ops IH]; intros c ts Hs Ht F Hl c'; [done|]. inversion_clear F as [|? ? Ho F']. cbn [foldl] in c'.
  assert (G : forall k, get (Some (apply_op w c o)) k = op_store (get (Some c)) o k).
  { intros k. destruct o as [k' v|n v|h]; cbn [apply_op op_store].
    - by rewrite set_stored.
    - apply same_get, tag_add_same.
    - unfold cfgEvtFormatHeaderSet. cbn [negb]. by destruct k. }
  assert (Fst : forall ops st st', (forall k, st k = st' k) -> forall k, foldl op_store st ops k = foldl op_store st' ops k).
  { clear. intros ops. induction ops as [|o ops IH]; intros st st' E k; [apply E|]. apply IH. intros k'.
    destruct o; try apply E. cbn [op_store]. unfold store_write. by rewrite !E. }
  assert (S' : shape (apply_op w c o)).
  { destruct o as [k' v|n v|h]; cbn [apply_op]; [by apply shape_set| |destruct Hs; by split].
    destruct (same_evt _ _ (tag_add_same c n v)) as [Ee Et]. destruct Hs. by split; rewrite ?Ee, ?Et. }
  destruct o as [k' v|n v|h]; cbn [apply_op omap list_omap tag_pair foldl length] in *.
  - destruct (set_frame c k' v) as (F1 & F2 & F3). destruct (IH (set c k' v) ts) as [I1 I2]; [done| |done|done|].
    { destruct Ht. by split; rewrite ?F1, ?F2. }
    split; [|exact I2]. intros k. etransitivity; [apply I1|apply Fst, G].
  - pose proof (put_tag_length ts n v). destruct (IH (cfgCustomTagAdd all_mem c (Some n) (Some v)) (put_tag ts n v)) as [I1 I2];
      [done|apply cfgCustomTagAdd_wf; [done|lia]|done|lia|].
    split; [|exact I2]. intros k. etransitivity; [apply I1|apply Fst, G].
  - destruct (IH (apply_op w c (OHeader h)) ts) as [I1 I2]; [done| |done|done|].
    { destruct Ht. by split. }
    split; [|exact I2]. intros k. etransitivity; [apply I1|apply Fst, G].
Qed.

Lemma strToVal_range map v : 0 <= strToVal map v < 2 ^ 32.
Proof using Type.
  induction map as [|[n x] map IH]; cbn [strToVal]; [by vm_compute|]. destruct (String.eqb v n); [|done]. apply Z.mod_pos_bound. lia.
Qed.

Lemma dest_args t v : Forall arg_fine (dest_ops t v).
Proof using Type.
  unfold dest_ops. repeat case_match; repeat constructor; done.
Qed.

Lemma row_args x v : (forall n, x = SCloud n -> n = 0 \/ n = 1) -> Forall arg_fine (setting_ops x v).
Proof using Type.
  intros Hc. destruct x; cbn [setting_ops]; repeat (constructor; cbn [arg_fine arg_ok]); try apply strToVal_range; try done; try apply dest_args.
  - destruct (whole_number v); repeat constructor; apply Z.mod_pos_bound; lia.
  - destruct (Hc cloud eq_refl) as [-> | ->]; done.
  - destruct (Hc cloud eq_refl) as [-> | ->]; done.
Qed.

Lemma line_args line : Forall arg_fine (line_ops line).
Proof using Type.
  unfold line_ops, line_setting. destruct (cut equals_sign line) as [name [text|]]; [|constructor].
  destruct (env_setting name) as [x|] eqn:E; [|constructor]. apply row_args. intros n ->.
  unfold env_setting in E. destruct (List.find _ env_names) as [[m y]|] eqn:F; [|by repeat case_match].
  apply find_some in F as [I _]. injection E as ->.
  assert (C : forallb (fun e => match e.2 with SCloud n => (n =? 0) || (n =? 1) | _ => true end) env_names = true) by reflexivity.
  apply forallb_forall with (x := (m, SCloud n)) in C; [|done]. cbn in C. lia.
Qed.

Definition env_ops : list op := concat (map line_ops (environ w)).

End Env.

(** ** An environment *)

Section Sample.
#[local] Existing Instance leftmost_match.
#[local] Existing Instance leftmost_laws.

Definition sample_environ : list string :=
  ["HOME=/root"; "APPVIEW_METRIC_VERBOSITY=20"; "APPVIEW_TAG_team=core"; "APPVIEW_CMD_ATTACH=false";
   "APPVIEW_EVENT_DEST=tcp://[::1]:9109"; "APPVIEW_LOG_LEVEL=loud"; "APPVIEW_CMD_DIR=$HOME/cmd"; "APPVIEW_METRIC_VERBOSITY=3"].
Definition env_world : world := mkWorld sample_environ "app" None "host" 1 None [] (fun _ => true) (fun _ => true).
Definition env_state (outcomes : list bool) : pst := idle outcomes.

Lemma sample_fits : Forall (line_fits env_world) sample_environ.
Proof. unfold sample_environ. repeat (constructor; [vm_compute; by repeat split|]). constructor. Qed.

End Sample.
End CfgEnv.
