(* ===== verification/Rules.v ===== *)
(** * Rules: which processes are viewed (src/cfgutils.c, last part; src/wrap.c)

    A rules file lists rules under "allow" and under "deny"; a rule names a process
    or a part of a command line, and an allow rule may carry a configuration.
    [cfgRulesStatus] decides about a process and applies configurations to it,
    [getSettings] combines this with the attach flag, the built-in lists of names,
    the configuration file and the environment.

    The readers thread the fields of [rules_cfg_t] that they change through the
    program.  [rules_exact_status] gives what they compute as functions of the
    document, the process name and the command line: [verdict] and [applied]
    follow the code, case for case.  [documented_status] and
    [documented_configs] follow the comment at the head of that part of
    src/cfgutils.c; [rules_as_documented] and [settings_as_documented] show that
    the code meets the comment on [orderly] documents, and the examples at the
    end of the file show where it does not. *)

From Stdlib Require Import Ascii.
From S2P Require Import Prelude Types HttpAgg Cfg CfgStore CJson CfgParse CfgYaml CfgEnv.

#[local] Open Scope string_scope.
#[local] Open Scope Z_scope.
#[local] Open Scope list_scope.

Module Rules.
Import Cfg CfgParse CfgYaml CfgEnv.
Export CfgStore(default_config).

#[local] Notation "'let!' x := m 'in' k" := (bind m (fun x => k)) (at level 10, x name, m at level 200, k at level 200).
#[local] Notation "'do' m ; k" := (bind m (fun _ => k)) (at level 10, m at level 200, k at level 200).

Definition MATCH_ALL_VAL : string := "_MatchAll_".
Definition APPVIEW_RULES_USR_PATH : string := "/usr/lib/appview/appview_rules".

Inductive proc_status := PROC_NOT_FOUND | PROC_ALLOWED | PROC_DENIED.
Inductive rules_status_t := RULES_ERROR | RULES_APPVIEWD | RULES_APPVIEWD_WITH_CFG | RULES_NOT_APPVIEWD.

(** The fields of [rules_cfg_t] that change; its [cfg] is that of the state. *)
Record rules_cfg_t := mkRules { status : proc_status; rulesMatch : bool }.

(** ** Tables with data of their own *)

Definition rules_table (D : Type) : Type := list (yaml_node_type * string * (yaml_node -> D -> M D)).

Definition processKeyValuePairRules {D} (fEntry : rules_table D) (pair : yaml_node * yaml_node) (d : D) : M D :=
  match pair.1 with
  | Scalar key =>
      match List.find (fun e => same_type (node_type pair.2) e.1.1 && String.eqb key e.1.2) fEntry with
      | Some e => e.2 pair.2 d
      | None => ret d
      end
  | _ => ret d
  end.

Fixpoint fold_m {A D} (f : A -> D -> M D) (l : list A) (d : D) : M D :=
  match l with [] => ret d | a :: l => let! d := f a d in fold_m f l d end.

Section Rules.
Context `{EM : EnvMatch}.
Variable w : world.
Variable yaml_load : string -> option (option yaml_node).
Variable file : string -> option string.
Variable access : string -> bool.

Section Process.
Variables (procName procCmdLine : string).

(** ** Allow rules *)

Definition processAllowProcNameScalar (node : yaml_node) (r : rules_cfg_t) : M rules_cfg_t :=
  match node with
  | Scalar procname =>
      ret (if String.eqb procName procname || String.eqb MATCH_ALL_VAL procname then mkRules PROC_ALLOWED true else r)
  | _ => ret r
  end.

Definition processAllowProcCmdLineScalar (node : yaml_node) (r : rules_cfg_t) : M rules_cfg_t :=
  match node with
  | Scalar cmdline =>
      ret (if String.eqb cmdline "" then r
           else if contains procCmdLine cmdline || String.eqb MATCH_ALL_VAL cmdline then mkRules PROC_ALLOWED true
           else mkRules PROC_DENIED false)
  | _ => ret r
  end.

Definition processAllowConfig (node : yaml_node) (r : rules_cfg_t) : M rules_cfg_t :=
  match node with
  | Mapping _ =>
      if rulesMatch r then do processRoot w node; ret (mkRules (status r) false) else ret r
  | _ => ret r
  end.

Definition allow_rules : rules_table rules_cfg_t :=
  [(YAML_SCALAR_NODE, "procname", processAllowProcNameScalar); (YAML_SCALAR_NODE, "arg", processAllowProcCmdLineScalar)].
Definition allow_config : rules_table rules_cfg_t := [(YAML_MAPPING_NODE, "config", processAllowConfig)].

(** The first item that is not a mapping ends the list. *)
Fixpoint allow_items (items : list yaml_node) (r : rules_cfg_t) : M rules_cfg_t :=
  match items with
  | Mapping pairs :: items =>
      let! r := fold_m (processKeyValuePairRules allow_rules) pairs r in
      let! r := fold_m (processKeyValuePairRules allow_config) pairs r in
      allow_items items r
  | _ => ret r
  end.
Definition processAllowSeq (node : yaml_node) (r : rules_cfg_t) : M rules_cfg_t :=
  match node with Sequence items => allow_items items r | _ => ret r end.

(** ** Deny rules *)

Definition processDenyProcNameScalar (node : yaml_node) (r : rules_cfg_t) : M rules_cfg_t :=
  match node with
  | Scalar procname =>
      ret (if String.eqb procName procname || String.eqb MATCH_ALL_VAL procname then mkRules PROC_DENIED (rulesMatch r) else r)
  | _ => ret r
  end.
Definition processDenyProcCmdLineScalar (node : yaml_node) (r : rules_cfg_t) : M rules_cfg_t :=
  match node with
  | Scalar cmdline =>
      ret (if negb (String.eqb cmdline "") && (contains procCmdLine cmdline || String.eqb MATCH_ALL_VAL cmdline)
           then mkRules PROC_DENIED (rulesMatch r) else r)
  | _ => ret r
  end.
Definition deny_rules : rules_table rules_cfg_t :=
  [(YAML_SCALAR_NODE, "procname", processDenyProcNameScalar); (YAML_SCALAR_NODE, "arg", processDenyProcCmdLineScalar)].

Fixpoint deny_items (items : list yaml_node) (r : rules_cfg_t) : M rules_cfg_t :=
  match items with
  | Mapping pairs :: items => let! r := fold_m (processKeyValuePairRules deny_rules) pairs r in deny_items items r
  | _ => ret r
  end.
Definition processDenySeq (node : yaml_node) (r : rules_cfg_t) : M rules_cfg_t :=
  match node with Sequence items => deny_items items r | _ => ret r end.

(** ** The document *)

Definition processRulesRootNode (root : option yaml_node) (r : rules_cfg_t) : M rules_cfg_t :=
  match root with
  | Some (Mapping pairs) =>
      let! r := fold_m (processKeyValuePairRules [(YAML_SEQUENCE_NODE, "allow", processAllowSeq)]) pairs r in
      fold_m (processKeyValuePairRules [(YAML_SEQUENCE_NODE, "deny", processDenySeq)]) pairs r
  | _ => ret r
  end.

(** Nothing when the file cannot be opened or parsed. *)
Definition rulesParseFile (rulesPath : string) (r : rules_cfg_t) : M (option rules_cfg_t) :=
  match file rulesPath with
  | None => ret None
  | Some text =>
      let! ok := malloc in
      if negb ok then ret None else
      match yaml_load text with
      | None => ret None
      | Some root => let! r := processRulesRootNode root r in ret (Some r)
      end
  end.
End Process.

Definition cfgRulesStatus (procName procCmdLine rulesPath : option string) : M rules_status_t :=
  match procName, procCmdLine with
  | Some procName, Some procCmdLine =>
      match rulesPath with
      | None => ret RULES_APPVIEWD
      | Some rulesPath =>
          let! res := rulesParseFile procName procCmdLine rulesPath (mkRules PROC_NOT_FOUND false) in
          ret (match res with
               | None => RULES_ERROR
               | Some r => match status r with PROC_NOT_FOUND | PROC_DENIED => RULES_NOT_APPVIEWD | PROC_ALLOWED => RULES_APPVIEWD_WITH_CFG end
               end)
      end
  | _, _ => ret RULES_ERROR
  end.

(** ** The rules file *)

Definition processEntryIsNotEmpty (node : yaml_node) (st : bool) : M bool :=
  match node with Scalar value => ret (if String.eqb value "" then st else true) | _ => ret st end.
Definition valid_rules : rules_table bool :=
  [(YAML_SCALAR_NODE, "procname", processEntryIsNotEmpty); (YAML_SCALAR_NODE, "arg", processEntryIsNotEmpty)].
Fixpoint valid_items (items : list yaml_node) (st : bool) : M bool :=
  match items with
  | Mapping pairs :: items => let! st := fold_m (processKeyValuePairRules valid_rules) pairs st in valid_items items st
  | _ => ret st
  end.
Definition processValidAllowDenySeq (node : yaml_node) (st : bool) : M bool :=
  match node with Sequence items => valid_items items st | _ => ret st end.
Definition processRulesValidRootNode (root : option yaml_node) (st : bool) : M bool :=
  match root with
  | Some (Mapping pairs) =>
      let! st := fold_m (processKeyValuePairRules [(YAML_SEQUENCE_NODE, "allow", processValidAllowDenySeq)]) pairs st in
      fold_m (processKeyValuePairRules [(YAML_SEQUENCE_NODE, "deny", processValidAllowDenySeq)]) pairs st
  | _ => ret st
  end.

Definition cfgRulesFileIsValid (rulesPath : string) : M bool :=
  match file rulesPath with
  | None => ret false
  | Some text =>
      let! ok := malloc in
      if negb ok then ret false else
      match yaml_load text with None => ret false | Some root => processRulesValidRootNode root false end
  end.

(** The file that is asked for, before it is checked. *)
Definition rules_candidate : option string :=
  match fullGetEnv (environ w) "APPVIEW_RULES" with
  | Some envRulesVal =>
      if String.eqb envRulesVal "false" then None else if access envRulesVal then Some envRulesVal else None
  | None => if access APPVIEW_RULES_USR_PATH then Some APPVIEW_RULES_USR_PATH else None
  end.

Definition cfgRulesFilePath : M (option string) :=
  match rules_candidate with
  | None => ret None
  | Some path => let! ok := cfgRulesFileIsValid path in ret (if ok : bool then Some path else None)
  end.

(** ** The socket of the rules file *)

Definition processUnixSocketPathNode (node : yaml_node) (unixPath : option string) : M (option string) :=
  match node with
  | Scalar path =>
      if String.eqb path "" then ret unixPath else let! ok := malloc in ret (if ok : bool then Some path else None)
  | _ => ret unixPath
  end.
Definition processSourceNode (node : yaml_node) (unixPath : option string) : M (option string) :=
  match node with
  | Mapping pairs =>
      fold_m (processKeyValuePairRules [(YAML_SCALAR_NODE, "unixSocketPath", processUnixSocketPathNode)]) pairs unixPath
  | _ => ret unixPath
  end.
Definition processRulesSourceSection (root : option yaml_node) (unixPath : option string) : M (option string) :=
  match root with
  | Some (Mapping pairs) => fold_m (processKeyValuePairRules [(YAML_MAPPING_NODE, "source", processSourceNode)]) pairs unixPath
  | _ => ret unixPath
  end.

(** [dirname] of the C library, and whether its result is memory of the caller
    (it is a constant for the root and the current directory). *)
Definition dirname (s : string) : string * bool :=
  let t := strip_slashes s in
  if String.eqb s "" then (".", false) else
  if String.eqb t "" then ("/", false) else
  match cut_last slash t with
  | None => (".", false)
  | Some (l, _) => let d := strip_slashes l in if String.eqb d "" then ("/", false) else (d, true)
  end.

Definition cfgRulesUnixPath : M (option (string * bool)) :=
  let! rulesPath := cfgRulesFilePath in
  match rulesPath ≫= file with
  | None => ret None
  | Some text =>
      let! ok := malloc in
      if negb ok then ret None else
      match yaml_load text with
      | None => ret None
      | Some root => let! unixPath := processRulesSourceSection root None in ret (dirname <$> unixPath)
      end
  end.

(** ** Settings of a process (src/wrap.c) *)

Definition doNotAppViewList : list string :=
  ["30-systemd-environment-d-generator"; "init"; "(sd-pam)"; "systemd"; "systemd-detect-virt";
   "systemd-journald"; "systemd-logind"; "systemd-machined"; "systemd-networkd"; "systemd-networkd-wait-online";
   "systemd-oomd"; "systemd-resolved"; "systemd-timesyncd"; "systemd-udevd"; "systemd-update-utmp";
   "systemd-userdbd"; "systemd-user-runtime-dir"; "systemd-user-sessions"; "systemd-userwork";
   "systemd-xdg-autostart-generator"; "abrtd"; "abrt-dump-journal-core"; "abrt-dump-journal-oops";
   "abrt-dump-journal-xorg"; "acpid"; "agetty"; "avahi-daemon"; "bpfilter_umh"; "colord"; "cups-browsed";
   "cupsd"; "dbus-broker"; "dbus-broker-launch"; "dbus-daemon"; "dbus-run-session"; "irqbalance";
   "ModemManager"; "multipathd"; "NetworkManager"; "polkitd"; "power-profiles-daemon"; "snap"; "snapd";
   "udisksd"; "upowerd"; "wpa_supplicant"; "accounts-daemon"; "at-spi2-registryd"; "at-spi-bus-launcher";
   "colord"; "gdm"; "gdm3"; "gdm-launch-environment"; "gdm-wayland-session"; "gjs"; "gnome-session-binary";
   "gnome-shell"; "goa-daemon"; "goa-identity-service"; "gsd-a11y-settings"; "gsd-color"; "gsd-datetime";
   "gsd-housekeeping"; "gsd-keyboard"; "gsd-media-keys"; "gsd-power"; "gsd-printer"; "gsd-print-notifications";
   "gsd-rfkill"; "gsd-screensaver-proxy"; "gsd-sharing"; "gsd-smartcard"; "gsd-sound"; "gsd-wacom"; "gssproxy";
   "gvfs-afc-volume-monitor"; "gvfsd"; "gvfsd-fuse"; "gvfs-goa-volume-monitor"; "gvfs-gphoto2-volume-monitor";
   "gvfs-mtp-volume-monitor"; "gvfs-udisks2-volume-monitor"; "ibus-daemon"; "ibus-dconf"; "ibus-engine-simple";
   "ibus-portal"; "ibus-x11"; "low-memory-monitor"; "mutter-x11-frames"; "packagekitd"; "pipewire";
   "pipewire-media-session"; "pipewire-pulse"; "power-profiles-daemon"; "pulseaudio"; "rtkit-daemon";
   "switcheroo-control"; "tracker-miner-fs-3"; "upowerd"; "uresourced"; "wireplumber"; "xdg-document-portal";
   "xdg-permission-store"; "Xwayland"].
Definition allowList : list string := ["runc"].

(** The name that [osGetProcname] finds. *)
Variable os_procname : string.
Variable realpath : string -> option string.
Variable appendable : string -> bool.

Definition doImplicitDeny : bool := negb (existsb (String.eqb os_procname) doNotAppViewList).
Definition doImplicitAllow : bool := existsb (String.eqb os_procname) allowList.

Record settings_t := mkSettings { isActive : bool; settings_cfg : option config_t }.

(** [cfgRulesStatus] on the configuration [c]; without one it is an error. *)
Definition rules_on (c : option config_t) (rulesPath : string) : M (rules_status_t * option config_t) := fun s =>
  match c with
  | None => Def ((RULES_ERROR, None), s)
  | Some c =>
      match cfgRulesStatus (Some (w_procname w)) (w_cmd w) (Some rulesPath) (set_cfg s c) with
      | Def (res, s') => Def ((res, Some (cfg s')), set_cfg s' (cfg s))
      | UB => UB
      end
  end.

(** Whether the process is viewed, and the configuration if the rules gave it. *)
Definition rules_decision (attachedFlag : bool) : M (bool * option config_t) :=
  if attachedFlag then ret (true, None) else
  let! rulesFilePath := cfgRulesFilePath in
  match rulesFilePath with
  | None => ret (doImplicitDeny, None)
  | Some rulesFilePath =>
      if doImplicitAllow then ret (true, None) else
      let! c := new_config in
      let! res := rules_on c rulesFilePath in
      ret (match res.1 with
           | RULES_APPVIEWD => (true, None)
           | RULES_APPVIEWD_WITH_CFG => (true, res.2)
           | RULES_NOT_APPVIEWD | RULES_ERROR => (false, None)
           end)
  end.

Definition getSettings (attachedFlag : bool) : M settings_t :=
  let! d := rules_decision attachedFlag in
  let! c := match d.2 with
            | Some c => ret (Some c)
            | None => let! path := cfgPath w file access realpath in cfgRead w yaml_load file path
            end in
  match c with
  | None => ret (mkSettings d.1 None)
  | Some c =>
      let! c := on_config c (cfgProcessEnvironment w appendable (processReloadConfig w yaml_load file access realpath appendable)) in
      ret (mkSettings d.1 (Some c))
  end.

(** ** Specification *)

Section Spec.
Variables (procName procCmdLine : string).

(** What a pair of an allow rule says: it matches, it does not, or it is no
    condition.  A process name that differs says nothing. *)
Definition allow_says (p : yaml_node * yaml_node) : option bool :=
  match p with
  | (Scalar k, Scalar v) =>
      if String.eqb k "procname" then (if String.eqb procName v || String.eqb MATCH_ALL_VAL v then Some true else None)
      else if String.eqb k "arg" then
        (if String.eqb v "" then None else Some (contains procCmdLine v || String.eqb MATCH_ALL_VAL v))
      else None
  | _ => None
  end.
Definition deny_says (p : yaml_node * yaml_node) : bool := bool_decide (allow_says p = Some true).

(** The rules of a list up to the first item that is no mapping. *)
Fixpoint rules_of (items : list yaml_node) : list (list (yaml_node * yaml_node)) :=
  match items with Mapping pairs :: items => pairs :: rules_of items | _ => [] end.
(** The rules under a key of the document. *)
Definition rules_under (key : string) (root : list (yaml_node * yaml_node)) : list (list (yaml_node * yaml_node)) :=
  concat (map (fun p => match p with
                        | (Scalar k, Sequence items) => if String.eqb k key then rules_of items else []
                        | _ => []
                        end) root).

Definition says (root : list (yaml_node * yaml_node)) : option bool :=
  last (omap allow_says (concat (rules_under "allow" root))).
Definition denied (root : list (yaml_node * yaml_node)) : bool := existsb deny_says (concat (rules_under "deny" root)).

(** The verdict: no deny rule matches, and the last condition of the allow rules
    that says anything is one that matches. *)
Definition verdict (root : option yaml_node) : rules_status_t :=
  match root with
  | Some (Mapping pairs) =>
      if denied pairs then RULES_NOT_APPVIEWD else
      match says pairs with Some true => RULES_APPVIEWD_WITH_CFG | _ => RULES_NOT_APPVIEWD end
  | _ => RULES_NOT_APPVIEWD
  end.

(** The first configuration of a rule. *)
Definition rule_config (rule : list (yaml_node * yaml_node)) : option yaml_node :=
  head (omap (fun p => match p with (Scalar k, Mapping l) => if String.eqb k "config" then Some (Mapping l) else None | _ => None end) rule).

(** The configurations that apply: that of a rule whose last saying condition
    matches, or, when it says nothing, that of a rule after a match without a
    configuration of its own. *)
Fixpoint applied_from (pending : bool) (rules : list (list (yaml_node * yaml_node))) : list yaml_node :=
  match rules with
  | [] => []
  | rule :: rules =>
      let m := default pending (last (omap allow_says rule)) in
      match rule_config rule with
      | Some c => if m then c :: applied_from false rules else applied_from m rules
      | None => applied_from m rules
      end
  end.
Definition applied (root : option yaml_node) : list yaml_node :=
  match root with Some (Mapping pairs) => applied_from false (rules_under "allow" pairs) | _ => [] end.

(** ** The readers follow it *)

Definition heard (r : rules_cfg_t) (o : option bool) : rules_cfg_t :=
  match o with Some true => mkRules PROC_ALLOWED true | Some false => mkRules PROC_DENIED false | None => r end.

Lemma allow_pair p r s :
  processKeyValuePairRules (allow_rules procName procCmdLine) p r s = Def (heard r (allow_says p), s).
Proof using Type.
  destruct p as [k v]. unfold processKeyValuePairRules. cbn [fst snd]. destruct k as [k| |]; try done.
  unfold allow_rules. cbn [List.find fst snd allow_says]. destruct v as [v| |]; cbn [node_type same_type andb]; try done.
  destruct (String.eqb k "procname"); cbn [snd processAllowProcNameScalar]; [unfold ret; by destruct (_ || _)|].
  destruct (String.eqb k "arg"); cbn [snd processAllowProcCmdLineScalar]; [|done].
  unfold ret. destruct (String.eqb v ""); [done|]. by destruct (_ || _).
Qed.

Lemma heard_last l r : foldl heard r l = heard r (last (omap id l)).
Proof using Type.
  induction l as [|o l IH] using rev_ind; [done|]. rewrite foldl_app, omap_app. cbn [foldl]. rewrite IH.
  destruct o as [b|]; cbn [omap list_omap id]; [rewrite last_snoc; by destruct b|rewrite app_nil_r; by destruct (last _) as [[]|]].
Qed.

Lemma omap_ids {A B} (f : A -> option B) l : omap id (map f l) = omap f l.
Proof using Type. induction l as [|x l IH]; [done|]. cbn [map omap list_omap id]. by rewrite IH. Qed.

Lemma allow_pairs pairs r s :
  fold_m (processKeyValuePairRules (allow_rules procName procCmdLine)) pairs r s = Def (heard r (last (omap allow_says pairs)), s).
Proof using Type.
  assert (G : fold_m (processKeyValuePairRules (allow_rules procName procCmdLine)) pairs r s = Def (foldl heard r (map allow_says pairs), s)).
  { revert r. induction pairs as [|p pairs IH]; intros r; [done|]. cbn [fold_m map foldl]. unfold bind. by rewrite allow_pair. }
  by rewrite G, heard_last, omap_ids.
Qed.

(** Configurations of one rule: the first applies if the rule matched. *)
Lemma config_pairs pairs r s :
  fold_m (processKeyValuePairRules allow_config) pairs r s =
  match rule_config pairs with
  | Some c => if rulesMatch r then match processRoot w c s with Def (_, s') => Def (mkRules (status r) false, s') | UB => UB end
              else Def (r, s)
  | None => Def (r, s)
  end.
Proof using Type.
  assert (N : forall l r s, rulesMatch r = false -> fold_m (processKeyValuePairRules allow_config) l r s = Def (r, s)).
  { induction l as [|[k v] l IH]; intros r0 s0 Hm; [done|]. cbn [fold_m]. unfold bind, processKeyValuePairRules at 1. cbn [fst snd].
    destruct k as [k| |]; try (by apply IH). unfold allow_config at 1. cbn [List.find fst snd].
    destruct v as [|items|l']; cbn [node_type same_type andb]; try (by apply IH). destruct (String.eqb k "config"); [|by apply IH].
    cbn [snd processAllowConfig]. rewrite Hm. by apply IH. }
  revert r s. induction pairs as [|[k v] pairs IH]; intros r s; [done|]. cbn [fold_m]. unfold bind, processKeyValuePairRules at 1. cbn [fst snd].
  unfold rule_config in *. cbn [omap list_omap].
  destruct k as [k| |]; try apply IH. unfold allow_config at 1. cbn [List.find fst snd].
  destruct v as [|items|l']; cbn [node_type same_type andb]; try apply IH. destruct (String.eqb k "config"); [|apply IH].
  cbn [snd processAllowConfig head]. destruct (rulesMatch r) eqn:Hm; [|by apply N].
  unfold bind. destruct (processRoot w (Mapping l') s) as [[? s']|]; [|done]. by apply N.
Qed.

(** The allow rules: what is applied, and what is known afterwards. *)
Fixpoint after_from (r : rules_cfg_t) (rules : list (list (yaml_node * yaml_node))) : rules_cfg_t :=
  match rules with
  | [] => r
  | rule :: rules =>
      let r := heard r (last (omap allow_says rule)) in
      after_from (if rulesMatch r && bool_decide (rule_config rule <> None) then mkRules (status r) false else r) rules
  end.

Lemma heard_match r o : rulesMatch (heard r o) = default (rulesMatch r) o.
Proof using Type. by destruct o as [[]|]. Qed.

Lemma allow_items_exact items r s :
  allow_items procName procCmdLine items r s =
  match each (processRoot w) (applied_from (rulesMatch r) (rules_of items)) s with
  | Def (_, s') => Def (after_from r (rules_of items), s')
  | UB => UB
  end.
Proof using Type.
  revert r s. induction items as [|item items IH]; intros r s; [done|]. destruct item as [| |pairs]; try done.
  cbn [allow_items rules_of applied_from after_from]. unfold bind. rewrite allow_pairs, config_pairs.
  rewrite <- heard_match. set (r1 := heard r (last (omap allow_says pairs))).
  destruct (rule_config pairs) as [c|]; [|rewrite bool_decide_false, andb_false_r by (intros Hc; by apply Hc); apply IH].
  rewrite bool_decide_true, andb_true_r by done. destruct (rulesMatch r1) eqn:Em; [|rewrite IH; by rewrite Em].
  cbn [each]. unfold bind. destruct (processRoot w c s) as [[? s']|]; [|done]. by rewrite IH.
Qed.

Lemma after_app r a b : after_from r (a ++ b) = after_from (after_from r a) b.
Proof using Type. revert r. induction a as [|x a IH]; intros r; [done|]. apply IH. Qed.

Lemma applied_app r a b :
  applied_from (rulesMatch r) (a ++ b) = applied_from (rulesMatch r) a ++ applied_from (rulesMatch (after_from r a)) b.
Proof using Type.
  revert r. induction a as [|x a IH]; intros r; [done|]. cbn [app applied_from after_from]. rewrite <- heard_match.
  set (r1 := heard r _). destruct (rule_config x) as [c|].
  - rewrite bool_decide_true, andb_true_r by done. destruct (rulesMatch r1) eqn:Em; [|rewrite <- Em; apply IH].
    cbn [app]. f_equal. apply (IH (mkRules (status r1) false)).
  - rewrite bool_decide_false, andb_false_r by (intros Hc; by apply Hc). apply IH.
Qed.

Lemma each_app {A} (f : A -> M unit) a b s :
  each f (a ++ b) s = match each f a s with Def (_, s') => each f b s' | UB => UB end.
Proof using Type.
  revert s. induction a as [|x a IH]; intros s; [done|]. cbn [app each]. unfold bind. destruct (f x s) as [[? s']|]; [apply IH|done].
Qed.

Lemma under_cons key p root : rules_under key (p :: root) =
  match p with (Scalar k, Sequence items) => if String.eqb k key then rules_of items else [] | _ => [] end ++ rules_under key root.
Proof using Type. done. Qed.

Lemma allow_root root r s :
  fold_m (processKeyValuePairRules [(YAML_SEQUENCE_NODE, "allow", processAllowSeq procName procCmdLine)]) root r s =
  match each (processRoot w) (applied_from (rulesMatch r) (rules_under "allow" root)) s with
  | Def (_, s') => Def (after_from r (rules_under "allow" root), s')
  | UB => UB
  end.
Proof using Type.
  revert r s. induction root as [|[k v] root IH]; intros r s; [done|]. cbn [fold_m]. unfold bind, processKeyValuePairRules at 1. cbn [fst snd].
  rewrite under_cons. destruct k as [k| |]; [|apply IH..]. cbn [List.find fst snd].
  destruct v as [|items|]; cbn [node_type same_type andb]; [apply IH| |apply IH]. destruct (String.eqb k "allow"); [|apply IH].
  cbn [snd processAllowSeq]. rewrite allow_items_exact, applied_app, after_app, each_app.
  destruct (each (processRoot w) (applied_from (rulesMatch r) (rules_of items)) s) as [[? s']|]; [apply IH|done].
Qed.

(** Deny rules *)

Definition refused (r : rules_cfg_t) (b : bool) : rules_cfg_t := if b then mkRules PROC_DENIED (rulesMatch r) else r.

Lemma deny_pair p r s : processKeyValuePairRules (deny_rules procName procCmdLine) p r s = Def (refused r (deny_says p), s).
Proof using Type.
  destruct p as [k v]. unfold processKeyValuePairRules, deny_says. cbn [fst snd]. destruct k as [k| |]; try done.
  unfold deny_rules. cbn [List.find fst snd allow_says]. destruct v as [v| |]; cbn [node_type same_type andb]; try done.
  destruct (String.eqb k "procname"); cbn [snd processDenyProcNameScalar]; [unfold ret; by destruct (_ || _)|].
  destruct (String.eqb k "arg"); cbn [snd processDenyProcCmdLineScalar]; [|done].
  unfold ret. destruct (String.eqb v ""); [done|]. cbn [negb andb]. by destruct (_ || _).
Qed.

Lemma refused_any r b c : refused (refused r b) c = refused r (b || c).
Proof using Type. by destruct b, c. Qed.

Lemma deny_pairs pairs r s :
  fold_m (processKeyValuePairRules (deny_rules procName procCmdLine)) pairs r s = Def (refused r (existsb deny_says pairs), s).
Proof using Type.
  revert r. induction pairs as [|p pairs IH]; intros r; [done|]. cbn [fold_m existsb]. unfold bind. by rewrite deny_pair, IH, refused_any.
Qed.

Lemma deny_items_exact items r s :
  deny_items procName procCmdLine items r s = Def (refused r (existsb deny_says (concat (rules_of items))), s).
Proof using Type.
  revert r. induction items as [|item items IH]; intros r; [done|]. destruct item as [| |pairs]; try done.
  cbn [deny_items rules_of concat]. unfold bind. by rewrite deny_pairs, IH, refused_any, existsb_app.
Qed.

Lemma deny_root root r s :
  fold_m (processKeyValuePairRules [(YAML_SEQUENCE_NODE, "deny", processDenySeq procName procCmdLine)]) root r s =
  Def (refused r (denied root), s).
Proof using Type.
  unfold denied. revert r. induction root as [|[k v] root IH]; intros r; [done|]. cbn [fold_m]. unfold bind, processKeyValuePairRules at 1. cbn [fst snd].
  rewrite under_cons. destruct k as [k| |]; [|apply IH..]. cbn [List.find fst snd].
  destruct v as [|items|]; cbn [node_type same_type andb]; [apply IH| |apply IH]. destruct (String.eqb k "deny"); [|apply IH].
  cbn [snd processDenySeq]. by rewrite deny_items_exact, IH, refused_any, concat_app, existsb_app.
Qed.

Lemma after_status rules r : status (after_from r rules) = status (heard r (last (omap allow_says (concat rules)))).
Proof using Type.
  revert r. induction rules as [|rule rules IH]; intros r; [done|]. cbn [after_from concat]. rewrite IH, omap_app, last_app.
  destruct (last (omap allow_says (concat rules))) as [b|]; [by destruct b|]. cbn [heard]. by destruct (_ && _).
Qed.

Lemma rules_exact_status rulesPath text root s :
  file rulesPath = Some text -> yaml_load text = Some root -> al s = [] ->
  cfgRulesStatus (Some procName) (Some procCmdLine) (Some rulesPath) s =
  bind (each (processRoot w) (applied root)) (fun _ => ret (verdict root)) s.
Proof using Type.
  intros Hf Hy Ha. unfold cfgRulesStatus, rulesParseFile. rewrite Hf. unfold bind at 1. rewrite bind_malloc by done. cbn [negb]. rewrite Hy.
  unfold processRulesRootNode, applied, verdict. destruct root as [[| |pairs]|]; try done.
  unfold bind. rewrite allow_root. cbn [rulesMatch]. destruct (each _ _ s) as [[? s']|]; [|done]. rewrite deny_root. unfold ret. do 2 f_equal.
  unfold refused. destruct (denied pairs); [done|]. rewrite after_status. unfold says. by destruct (last _) as [[]|].
Qed.

(** *** The documentation of the rules file *)

(** A rule matches when one of its conditions does. *)
Definition rule_matches (rule : list (yaml_node * yaml_node)) : bool := existsb deny_says rule.

Definition is_mapping (n : yaml_node) : bool := match n with Mapping _ => true | _ => false end.
(** The items of the lists under a key, and the rules among them. *)
Definition items_under (key : string) (root : list (yaml_node * yaml_node)) : list yaml_node :=
  concat (map (fun p => match p with
                        | (Scalar k, Sequence items) => if String.eqb k key then items else []
                        | _ => []
                        end) root).
Definition rules_listed (key : string) (root : list (yaml_node * yaml_node)) : list (list (yaml_node * yaml_node)) :=
  omap (fun n => match n with Mapping pairs => Some pairs | _ => None end) (items_under key root).

(** The process is viewed exactly if an allow rule matches and no deny rule does. *)
Definition documented_status (root : list (yaml_node * yaml_node)) : rules_status_t :=
  if existsb rule_matches (rules_listed "allow" root) && negb (existsb rule_matches (rules_listed "deny" root))
  then RULES_APPVIEWD_WITH_CFG else RULES_NOT_APPVIEWD.
(** The configurations of the allow rules that match, in their order. *)
Definition documented_configs (root : list (yaml_node * yaml_node)) : list yaml_node :=
  omap (fun rule => if rule_matches rule then rule_config rule else None) (rules_listed "allow" root).

(** No argument that is missing in the command line comes after a match. *)
Fixpoint no_miss_after_match (conditions : list (yaml_node * yaml_node)) : bool :=
  match conditions with
  | [] => true
  | p :: rest => (negb (deny_says p) || forallb (fun q => bool_decide (allow_says q <> Some false)) rest) && no_miss_after_match rest
  end.
(** The documents on which the code does what the documentation says: the two
    lists hold rules only, and no missing argument undoes an earlier match. *)
Definition orderly (root : list (yaml_node * yaml_node)) : bool :=
  forallb is_mapping (items_under "allow" root ++ items_under "deny" root) &&
  no_miss_after_match (concat (rules_listed "allow" root)).
(** Every allow rule that matches has a configuration. *)
Definition configured (root : list (yaml_node * yaml_node)) : bool :=
  forallb (fun rule => negb (rule_matches rule) || bool_decide (rule_config rule <> None)) (rules_listed "allow" root).

Lemma rules_of_mappings items : forallb is_mapping items = true ->
  rules_of items = omap (fun n => match n with Mapping pairs => Some pairs | _ => None end) items.
Proof using Type.
  induction items as [|n items IH]; [done|]. destruct n as [| |pairs]; try done. cbn [forallb is_mapping andb rules_of omap list_omap].
  intros F. by rewrite IH.
Qed.

Lemma rules_listed_under key root : forallb is_mapping (items_under key root) = true -> rules_under key root = rules_listed key root.
Proof using Type.
  unfold rules_listed, rules_under, items_under. induction root as [|p root IH]; [done|]. cbn [map concat].
  rewrite forallb_app, omap_app. intros [F1 F2]%andb_true_iff. rewrite IH by exact F2. f_equal.
  destruct p as [[k| |] [|items|]]; try done. destruct (String.eqb k key); [by apply rules_of_mappings|done].
Qed.

Lemma no_misses l : forallb (fun q => bool_decide (allow_says q <> Some false)) l = true ->
  last (omap allow_says l) = if existsb deny_says l then Some true else None.
Proof using Type.
  induction l as [|x l IH] using rev_ind; intros F; [done|]. rewrite forallb_app in F. apply andb_true_iff in F as [F Fx].
  rewrite omap_app, existsb_app, last_app. cbn [omap list_omap existsb forallb] in *. unfold deny_says at 2.
  destruct (allow_says x) as [[]|]; [cbn; by rewrite orb_true_r|done|]. cbn. rewrite orb_false_r. by apply IH.
Qed.

(** Then the last condition that says anything tells whether one matches. *)
Lemma last_tells l : no_miss_after_match l = true ->
  (if existsb deny_says l then last (omap allow_says l) = Some true else last (omap allow_says l) <> Some true).
Proof using Type.
  induction l as [|x l IH]; [done|]. cbn [no_miss_after_match existsb omap list_omap]. intros [F1 F2]%andb_true_iff.
  specialize (IH F2). destruct (deny_says x) eqn:Ex; cbn [orb negb] in *.
  - pose proof (no_misses l F1) as L. apply bool_decide_eq_true in Ex. rewrite Ex, last_cons, L. by destruct (existsb deny_says l).
  - apply bool_decide_eq_false in Ex. destruct (existsb deny_says l); destruct (allow_says x) as [[]|]; try done;
      rewrite last_cons; by destruct (last (omap allow_says l)) as [[]|].
Qed.

Lemma no_miss_app a b : no_miss_after_match (a ++ b) = true -> no_miss_after_match a = true /\ no_miss_after_match b = true.
Proof using Type.
  induction a as [|x a IH]; [done|]. cbn [app no_miss_after_match]. rewrite forallb_app. intros [F1 F2]%andb_true_iff.
  destruct (IH F2) as [-> Fb]. split; [|done]. rewrite andb_true_r. destruct (deny_says x); [|done]. cbn [negb orb] in *.
  by apply andb_true_iff in F1 as [-> _].
Qed.

Lemma matches_concat rules : existsb deny_says (concat rules) = existsb rule_matches rules.
Proof using Type. induction rules as [|r rules IH]; [done|]. cbn [concat existsb]. by rewrite existsb_app, IH. Qed.

Lemma applied_matching rules : no_miss_after_match (concat rules) = true ->
  forallb (fun rule => negb (rule_matches rule) || bool_decide (rule_config rule <> None)) rules = true ->
  applied_from false rules = omap (fun rule => if rule_matches rule then rule_config rule else None) rules.
Proof using Type.
  induction rules as [|rule rules IH]; intros F C; [done|]. cbn [concat forallb] in F, C. apply no_miss_app in F as [F1 F2].
  apply andb_true_iff in C as [C1 C2]. cbn [applied_from omap list_omap]. pose proof (last_tells rule F1) as L.
  change (existsb deny_says rule) with (rule_matches rule) in L. destruct (rule_matches rule); cbn [negb orb] in C1.
  - rewrite L. cbn [default]. destruct (rule_config rule) as [c|]; [|by apply bool_decide_eq_true in C1]. f_equal. by apply IH.
  - replace (default false (last (omap allow_says rule))) with false by (by destruct (last (omap allow_says rule)) as [[]|]).
    destruct (rule_config rule); by apply IH.
Qed.

Lemma orderly_status root : orderly root = true -> verdict (Some (Mapping root)) = documented_status root.
Proof using Type.
  unfold orderly, documented_status, verdict, denied, says. rewrite forallb_app. intros [[Fa Fd]%andb_true_iff Fm]%andb_true_iff.
  rewrite !rules_listed_under by done. rewrite matches_concat. pose proof (last_tells _ Fm) as L. rewrite matches_concat in L.
  destruct (existsb rule_matches (rules_listed "deny" root)); [by rewrite andb_false_r|]. rewrite andb_true_r.
  destruct (existsb rule_matches (rules_listed "allow" root)); [by rewrite L|]. by destruct (last _) as [[]|].
Qed.

Lemma orderly_configs root : orderly root = true -> configured root = true -> applied (Some (Mapping root)) = documented_configs root.
Proof using Type.
  unfold orderly, configured, documented_configs, applied. rewrite forallb_app. intros [[Fa Fd]%andb_true_iff Fm]%andb_true_iff C.
  rewrite !rules_listed_under by done. by apply applied_matching.
Qed.

(** C17: [cfgRulesStatus] follows the documentation of the rules file.  Given a
    file that parses as a mapping, memory, lists that hold rules only, and no
    allow rule with an argument that is missing in the command line after a
    condition that matches ([orderly]), the status is
    [RULES_APPVIEWD_WITH_CFG] if some allow rule matches the process and no
    deny rule does, and [RULES_NOT_APPVIEWD] otherwise; and if every allow rule
    that matches carries a configuration, the configuration is changed by
    reading the configurations of exactly the matching allow rules, in their
    order.  A rule matches when its procname is the process name, its non-empty
    arg occurs in the command line, or one of them is [_MatchAll_].  The cases
    left out are [rules_argument_denies], [rules_configuration_of_another] and
    [rules_end_at_scalar]. *)
Theorem rules_as_documented rulesPath text root s :
  file rulesPath = Some text -> yaml_load text = Some (Some (Mapping root)) -> al s = [] -> orderly root = true ->
  exists configs,
    cfgRulesStatus (Some procName) (Some procCmdLine) (Some rulesPath) s =
      bind (each (processRoot w) configs) (fun _ => ret (documented_status root)) s /\
    (configured root = true -> configs = documented_configs root).
Proof using Type.
  intros Hf Hy Ha Ho. exists (applied (Some (Mapping root))). split; [|by apply orderly_configs].
  rewrite <- (orderly_status root Ho). by apply (rules_exact_status rulesPath text).
Qed.
End Spec.

(** ** The settings of a process *)

(** A rules document is usable when it has a condition. *)
Definition condition (p : yaml_node * yaml_node) : bool :=
  match p with
  | (Scalar k, Scalar v) => (String.eqb k "procname" || String.eqb k "arg") && negb (String.eqb v "")
  | _ => false
  end.
Definition usable_doc (root : option yaml_node) : bool :=
  match root with
  | Some (Mapping pairs) => existsb condition (concat (rules_under "allow" pairs)) || existsb condition (concat (rules_under "deny" pairs))
  | _ => false
  end.

Lemma valid_pair p st s : processKeyValuePairRules valid_rules p st s = Def (st || condition p, s).
Proof using Type.
  destruct p as [k v]. unfold processKeyValuePairRules. cbn [fst snd]. destruct k as [k| |]; try (by rewrite orb_false_r).
  unfold valid_rules. cbn [List.find fst snd condition]. destruct v as [v| |]; cbn [node_type same_type andb]; try (by rewrite orb_false_r).
  destruct (String.eqb k "procname"), (String.eqb k "arg"); cbn [snd processEntryIsNotEmpty orb andb]; unfold ret;
    destruct (String.eqb v ""), st; done.
Qed.

Lemma valid_items_exact items st s : valid_items items st s = Def (st || existsb condition (concat (rules_of items)), s).
Proof using Type.
  assert (P : forall pairs st s, fold_m (processKeyValuePairRules valid_rules) pairs st s = Def (st || existsb condition pairs, s)).
  { induction pairs as [|p pairs IH]; intros st0 s0; cbn [fold_m existsb]; [by rewrite orb_false_r|]. unfold bind. rewrite valid_pair, IH.
    by rewrite orb_assoc. }
  revert st. induction items as [|item items IH]; intros st; [cbn; by rewrite orb_false_r|].
  destruct item as [| |pairs]; try (cbn; by rewrite orb_false_r). cbn [valid_items rules_of concat]. unfold bind.
  by rewrite P, IH, existsb_app, orb_assoc.
Qed.

Lemma valid_root key root st s :
  fold_m (processKeyValuePairRules [(YAML_SEQUENCE_NODE, key, processValidAllowDenySeq)]) root st s =
  Def (st || existsb condition (concat (rules_under key root)), s).
Proof using Type.
  revert st. induction root as [|[k v] root IH]; intros st; [cbn; by rewrite orb_false_r|].
  cbn [fold_m]. unfold bind, processKeyValuePairRules at 1. cbn [fst snd].
  rewrite under_cons. destruct k as [k| |]; [|apply IH..]. cbn [List.find fst snd].
  destruct v as [|items|]; cbn [node_type same_type andb]; [apply IH| |apply IH]. destruct (String.eqb k key); [|apply IH].
  cbn [snd processValidAllowDenySeq]. by rewrite valid_items_exact, IH, concat_app, existsb_app, orb_assoc.
Qed.

(** The document of the rules file that is used. *)
Definition rules_doc : option (option yaml_node) :=
  match rules_candidate with
  | Some path => match file path ≫= yaml_load with Some root => if usable_doc root then Some root else None | None => None end
  | None => None
  end.

Lemma rules_path_exact s : al s = [] ->
  exists p, cfgRulesFilePath s = Def (p, s) /\
    match rules_doc with
    | Some root => exists path text, p = Some path /\ file path = Some text /\ yaml_load text = Some root
    | None => p = None
    end.
Proof using Type.
  intros Ha. unfold cfgRulesFilePath, rules_doc. destruct rules_candidate as [path|]; [|by eexists].
  unfold bind, cfgRulesFileIsValid. destruct (file path) as [text|] eqn:Ef; cbn [mbind option_bind]; [|by eexists].
  unfold bind. rewrite malloc_quiet by done. cbn [negb]. destruct (yaml_load text) as [root|] eqn:Ey; [|by eexists].
  destruct root as [[| |pairs]|]; try (by eexists). cbn [processRulesValidRootNode usable_doc]. unfold bind. rewrite !valid_root. cbn [orb].
  destruct (_ || _); [|by eexists]. eexists. split; [reflexivity|]. by exists path, text.
Qed.

(** Whether the process is viewed, by the verdict as the code reaches it. *)
Definition viewed (cmd : string) (attachedFlag : bool) : bool :=
  attachedFlag ||
  match rules_doc with
  | None => doImplicitDeny
  | Some root => doImplicitAllow || match verdict (w_procname w) cmd root with RULES_APPVIEWD_WITH_CFG => true | _ => false end
  end.

(** The configuration that the rules give, if they do. *)
Definition rules_config (cmd : string) (attachedFlag : bool) : M (option config_t) :=
  match rules_doc with
  | Some root =>
      if attachedFlag || doImplicitAllow then ret None else
      let! c := on_config default_config (each (processRoot w) (applied (w_procname w) cmd root)) in
      ret (match verdict (w_procname w) cmd root with RULES_APPVIEWD_WITH_CFG => Some c | _ => None end)
  | None => ret None
  end.

Lemma verdict_file n c root : verdict n c root <> RULES_APPVIEWD.
Proof using Type. unfold verdict. by repeat case_match. Qed.

Lemma settings_by_verdict cmd attachedFlag s : w_cmd w = Some cmd -> al s = [] ->
  getSettings attachedFlag s =
  bind (rules_config cmd attachedFlag) (fun given =>
    let! c := match given with
              | Some c => ret (Some c)
              | None => let! path := cfgPath w file access realpath in cfgRead w yaml_load file path
              end in
    match c with
    | None => ret (mkSettings (viewed cmd attachedFlag) None)
    | Some c =>
        let! c := on_config c (cfgProcessEnvironment w appendable (processReloadConfig w yaml_load file access realpath appendable)) in
        ret (mkSettings (viewed cmd attachedFlag) (Some c))
    end) s.
Proof using Type.
  intros Hc Ha.
  assert (D : rules_decision attachedFlag s =
    bind (rules_config cmd attachedFlag) (fun given => ret (viewed cmd attachedFlag, given)) s).
  { unfold rules_decision, rules_config, viewed. destruct attachedFlag; [by destruct rules_doc|]. cbn [orb].
    destruct (rules_path_exact s Ha) as (p & E & Hd). unfold bind at 1. rewrite E. destruct rules_doc as [root|]; [|by subst p].
    destruct Hd as (path & text & -> & Hf & Hy). destruct doImplicitAllow; [done|]. cbn [orb].
    unfold new_config, bind at 1. rewrite !bind_malloc by done. unfold ret at 1.
    change (cfgCreateDefault true true) with (Some default_config). unfold bind at 1, rules_on. rewrite Hc.
    rewrite (rules_exact_status _ _ path text root) by done.
    unfold bind, on_config. destruct (each _ _ (set_cfg s default_config)) as [[? s']|]; [|done]. unfold ret. cbn [fst snd].
    pose proof (verdict_file (w_procname w) cmd root). by destruct (verdict _ _ _). }
  unfold getSettings. unfold bind at 1. rewrite D. unfold bind at 1. unfold bind at 4.
  destruct (rules_config cmd attachedFlag s) as [[given s']|]; [|done]. reflexivity.
Qed.

(** *** The settings as they are documented *)

(** The rules file in the order of the documentation. *)
Definition documented_rules_file : option string :=
  let installed :=
    match fullGetEnv (environ w) "CRIBL_HOME" with
    | Some home => let path := (home ++ "/appview/appview_rules")%string in if access path then Some path else None
    | None => if access APPVIEW_RULES_USR_PATH then Some APPVIEW_RULES_USR_PATH else None
    end in
  match fullGetEnv (environ w) "APPVIEW_RULES" with
  | Some v => if String.eqb v "false" then None else if access v then Some v else installed
  | None => installed
  end.
(** The environment on which the code looks for it there. *)
Definition plain_rules_env : bool :=
  bool_decide (fullGetEnv (environ w) "CRIBL_HOME" = None) &&
  match fullGetEnv (environ w) "APPVIEW_RULES" with Some v => String.eqb v "false" || access v | None => true end.

Definition parsed_rules : option (list (yaml_node * yaml_node)) :=
  match documented_rules_file with
  | Some path => match file path ≫= yaml_load with Some (Some (Mapping root)) => Some root | _ => None end
  | None => None
  end.
(** The rules that decide: those of a file with a condition in some rule. *)
Definition documented_rules : option (list (yaml_node * yaml_node)) :=
  match parsed_rules with
  | Some root => if existsb condition (concat (rules_listed "allow" root)) || existsb condition (concat (rules_listed "deny" root))
                 then Some root else None
  | None => None
  end.
Definition documented_match (cmd : string) (root : list (yaml_node * yaml_node)) : bool :=
  match documented_status (w_procname w) cmd root with RULES_APPVIEWD_WITH_CFG => true | _ => false end.
Definition documented_view (cmd : string) (attachedFlag : bool) : bool :=
  attachedFlag || match documented_rules with None => doImplicitDeny | Some root => doImplicitAllow || documented_match cmd root end.
Definition documented_config (cmd : string) (attachedFlag : bool) : M (option config_t) :=
  match documented_rules with
  | Some root =>
      if attachedFlag || doImplicitAllow then ret None else
      let! c := on_config default_config (each (processRoot w) (documented_configs (w_procname w) cmd root)) in
      ret (if documented_match cmd root then Some c else None)
  | None => ret None
  end.
Definition orderly_rules (cmd : string) : bool :=
  match parsed_rules with
  | Some root => orderly (w_procname w) cmd root && configured (w_procname w) cmd root
  | None => true
  end.

Lemma plain_rules_file : plain_rules_env = true -> rules_candidate = documented_rules_file.
Proof using Type.
  unfold plain_rules_env, rules_candidate, documented_rules_file. intros [H1%bool_decide_eq_true H2]%andb_true_iff. rewrite H1.
  destruct (fullGetEnv (environ w) "APPVIEW_RULES") as [v|]; [|done]. destruct (String.eqb v "false"); [done|]. cbn [orb] in H2. by rewrite H2.
Qed.

Lemma orderly_doc cmd : plain_rules_env = true -> orderly_rules cmd = true ->
  rules_doc = (fun root => Some (Mapping root)) <$> documented_rules.
Proof using Type.
  intros He. unfold rules_doc, documented_rules, orderly_rules, parsed_rules. rewrite (plain_rules_file He).
  destruct documented_rules_file as [path|]; [|done]. destruct (file path ≫= yaml_load) as [[[| |root]|]|]; try done.
  intros [Ho _]%andb_true_iff. unfold orderly in Ho. rewrite forallb_app in Ho. apply andb_true_iff in Ho as [[Fa Fd]%andb_true_iff _].
  cbn [usable_doc]. rewrite !rules_listed_under by done. by destruct (_ || _).
Qed.

Lemma orderly_found cmd root : orderly_rules cmd = true -> documented_rules = Some root ->
  verdict (w_procname w) cmd (Some (Mapping root)) = documented_status (w_procname w) cmd root /\
  applied (w_procname w) cmd (Some (Mapping root)) = documented_configs (w_procname w) cmd root.
Proof using Type.
  unfold orderly_rules, documented_rules. destruct parsed_rules as [r|]; [|done]. intros [Ho Hc]%andb_true_iff E.
  destruct (_ || _); [|done]. injection E as ->. split; [by apply orderly_status|by apply orderly_configs].
Qed.

(** C18: [getSettings] follows the documentation of the rules feature.  With
    memory, CRIBL_HOME unset, APPVIEW_RULES unset, "false" or a readable file,
    and a rules file, if there is one, that is [orderly] and [configured]: the
    process is viewed exactly if it is attached to; or no
    rules file is in use and its name is not on the built-in list; or one is
    and the process is runc, or matches an allow rule and no deny rule.  Its
    configuration is the default one changed by the configurations of the
    matching allow rules if the rules let it be viewed, and otherwise that of
    the configuration file; in both cases the environment is applied last.  A
    rules file is in use when it is readable, parses, and some rule has a
    non-empty procname or arg. *)
Theorem settings_as_documented cmd attachedFlag s :
  w_cmd w = Some cmd -> al s = [] -> plain_rules_env = true -> orderly_rules cmd = true ->
  getSettings attachedFlag s =
  bind (documented_config cmd attachedFlag) (fun given =>
    let! c := match given with
              | Some c => ret (Some c)
              | None => let! path := cfgPath w file access realpath in cfgRead w yaml_load file path
              end in
    match c with
    | None => ret (mkSettings (documented_view cmd attachedFlag) None)
    | Some c =>
        let! c := on_config c (cfgProcessEnvironment w appendable (processReloadConfig w yaml_load file access realpath appendable)) in
        ret (mkSettings (documented_view cmd attachedFlag) (Some c))
    end) s.
Proof using Type.
  intros Hc Ha He Ho. rewrite (settings_by_verdict cmd attachedFlag s Hc Ha).
  assert (V : viewed cmd attachedFlag = documented_view cmd attachedFlag /\
              rules_config cmd attachedFlag = documented_config cmd attachedFlag).
  { unfold viewed, rules_config, documented_view, documented_config, documented_match. rewrite (orderly_doc cmd He Ho).
    destruct documented_rules as [root|] eqn:Er; [|done]. cbn [fmap option_fmap option_map].
    destruct (orderly_found cmd root Ho Er) as [-> ->]. split; [done|]. by destruct (documented_status _ _ _). }
  by destruct V as [-> ->].
Qed.
End Rules.

(** ** Documents *)

Section Samples.
#[local] Existing Instance leftmost_match.

Definition log_level_config (level : string) : yaml_node :=
  Mapping [(Scalar "libappview", Mapping [(Scalar "log", Mapping [(Scalar "level", Scalar level)])])].
Definition rule (k v : string) (config : option yaml_node) : yaml_node :=
  Mapping ((Scalar k, Scalar v) :: match config with Some c => [(Scalar "config", c)] | None => [] end).
Definition rules_pairs (allow deny : list yaml_node) : list (yaml_node * yaml_node) :=
  [(Scalar "allow", Sequence allow); (Scalar "deny", Sequence deny)].
Definition rules_file (allow deny : list yaml_node) : yaml_node := Mapping (rules_pairs allow deny).

Definition sample_pairs : list (yaml_node * yaml_node) :=
  rules_pairs [rule "arg" "--quiet" None; rule "procname" "nginx" (Some (log_level_config "error"));
               rule "arg" "--verbose" (Some (log_level_config "debug")); rule "procname" "sshd" (Some (log_level_config "trace"))]
              [rule "procname" "redis" None].
Definition sample_rules : yaml_node := Mapping sample_pairs.
Definition rules_load (_ : string) : option (option yaml_node) := Some (Some sample_rules).
Definition rules_disk (path : string) : option string := if String.eqb path "/rules" then Some "..." else None.
Definition rules_world : world :=
  mkWorld ["APPVIEW_RULES=/rules"] "nginx" (Some "nginx --verbose") "host" 1 None [] (fun _ => true) (fun _ => true).

(** A missing argument before the match, and one rule of each list that matches nothing. *)
Lemma rules_as_documented_witness :
  cfgRulesStatus rules_world rules_load rules_disk (Some "nginx") (Some "nginx --verbose") (Some "/rules") (idle []) =
  bind (each (processRoot rules_world) [log_level_config "error"; log_level_config "debug"])
    (fun _ => ret RULES_APPVIEWD_WITH_CFG) (idle []).
Proof.
  destruct (rules_as_documented rules_world rules_load rules_disk "nginx" "nginx --verbose" "/rules" "..." sample_pairs (idle [])
    eq_refl eq_refl eq_refl eq_refl) as (configs & E & C).
  rewrite E, (C eq_refl). reflexivity.
Defined.

Lemma settings_as_documented_witness :
  exists c s', getSettings rules_world rules_load rules_disk (fun _ => true) "nginx" (fun p => Some p) (fun _ => true) false (idle [])
    = Def (mkSettings true (Some c), s') /\ cfgLogLevel (Some c) = CFG_LOG_DEBUG.
Proof.
  rewrite (settings_as_documented rules_world rules_load rules_disk (fun _ => true) "nginx" (fun p => Some p) (fun _ => true)
             "nginx --verbose" false (idle []) eq_refl eq_refl eq_refl eq_refl).
  vm_compute. by eexists _, _.
Defined.

(** What [cfgRulesStatus] makes of a document for a process without arguments. *)
Definition nginx_status (allow : list yaml_node) : ub (rules_status_t * pst) :=
  cfgRulesStatus rules_world (fun _ => Some (Some (rules_file allow []))) rules_disk (Some "nginx") (Some "nginx") (Some "/rules") (idle []).

(** A rule that matches is overridden by a later rule with an argument that the
    command line does not have. *)
Lemma rules_argument_denies :
  nginx_status [rule "procname" "nginx" None; rule "arg" "--verbose" None] = Def (RULES_NOT_APPVIEWD, idle []).
Proof. reflexivity. Qed.

(** A match without a configuration takes that of a later rule, which does not match. *)
Lemma rules_configuration_of_another : exists s',
  nginx_status [rule "procname" "nginx" None; rule "procname" "redis" (Some (log_level_config "debug"))] = Def (RULES_APPVIEWD_WITH_CFG, s') /\
  cfgLogLevel (Some (cfg s')) = CFG_LOG_DEBUG.
Proof. eexists. split; [reflexivity|reflexivity]. Qed.

(** An item of the allow list that is no rule hides the rules after it. *)
Lemma rules_end_at_scalar :
  nginx_status [Scalar "note"; rule "procname" "nginx" None] = Def (RULES_NOT_APPVIEWD, idle []).
Proof. reflexivity. Qed.

(** A readable rules file under CRIBL_HOME is not used, and an APPVIEW_RULES
    that cannot be read ends the search. *)
Lemma rules_file_elsewhere :
  let home := mkWorld ["CRIBL_HOME=/opt"] "nginx" (Some "nginx") "host" 1 None [] (fun _ => true) (fun _ => true) in
  let gone := mkWorld ["APPVIEW_RULES=/gone"] "nginx" (Some "nginx") "host" 1 None [] (fun _ => true) (fun _ => true) in
  rules_candidate home (String.eqb "/opt/appview/appview_rules") = None /\
  documented_rules_file home (String.eqb "/opt/appview/appview_rules") = Some "/opt/appview/appview_rules" /\
  rules_candidate gone (String.eqb APPVIEW_RULES_USR_PATH) = None /\
  documented_rules_file gone (String.eqb APPVIEW_RULES_USR_PATH) = Some APPVIEW_RULES_USR_PATH.
Proof. vm_compute. by repeat split. Qed.

(** The directory of a socket in the root is not memory that can be freed. *)
Lemma root_socket_static : dirname "/appview.sock" = ("/", false).
Proof. reflexivity. Qed.
End Samples.
End Rules.
