(* ===== verification/StateData.v ===== *)
(** * Connection and file state: the data (src/state_private.h, src/report.h, src/atomic.h, src/plattime.h)

    The tables of descriptors that the data path keeps, the counters in them
    and beside them, the events it posts to the reporting thread, and what the
    code asks of the rest of the program and of the kernel ([Env]).

    A structure whose members are counters of one type is a function from the
    names of its members ([metric_counters], the counters of [net_info] and
    [fs_info]); a table is a function from its indices, and every access to it
    is under the bounds check of the code.  A member [char x[N]] is the string
    of its bytes, of which there are at most [N]; when there are [N] of them the
    array holds no terminator. *)

From stdpp Require Export functions.
From S2P Require Import Prelude Types HttpState CfgParse.

Module StateData.

(** ** Enumerations *)

Inductive control_type_t := LOCAL | REMOTE | PERIODIC | EVENT_BASED.

Inductive metric_t :=
  | OPEN_PORTS | NET_CONNECTIONS | CONNECTION_OPEN | CONNECTION_CLOSE | CONNECTION_DURATION
  | PROC_CPU | PROC_MEM | PROC_THREAD | PROC_FD | PROC_CHILD
  | NETRX | NETTX | DNS | DNS_DURATION
  | FS_DURATION | FS_READ | FS_WRITE | FS_OPEN | FS_CLOSE | FS_DELETE | FS_SEEK
  | TOT_READ | TOT_WRITE | TOT_RX | TOT_TX | TOT_SEEK | TOT_STAT | TOT_OPEN | TOT_CLOSE | TOT_DNS
  | TOT_PORTS | TOT_TCP_CONN | TOT_UDP_CONN | TOT_OTHER_CONN | TOT_NET_OPEN | TOT_NET_CLOSE
  | TOT_FS_DURATION | TOT_NET_DURATION | TOT_DNS_DURATION
  | NET_ERR_CONN | NET_ERR_RX_TX | NET_ERR_DNS | FS_ERR_OPEN_CLOSE | FS_ERR_STAT | FS_ERR_READ_WRITE
  | FS_STAT
  | EVT_NET | EVT_FS | EVT_STAT | EVT_ERR | EVT_DNS | EVT_PROTO | EVT_HREQ | EVT_HRES | EVT_H2FRAME
  | EVT_DETECT | EVT_PAYLOAD | EVT_SEC
  | TLSRX | TLSTX.

Inductive fs_type_t := FD | STREAM.
Inductive fs_content_type_t := FS_CONTENT_UNKNOWN | FS_CONTENT_BINARY | FS_CONTENT_TEXT.
Inductive detect_type_t := DETECT_PENDING | DETECT_FALSE | DETECT_TRUE.
Inductive sock_summary_bucket_t := INET_TCP | INET_UDP | UNIX_TCP | UNIX_UDP | SOCK_OTHER.
Inductive notify_type_t := NOTIFY_INIT | NOTIFY_LIBS | NOTIFY_FILES | NOTIFY_FUNC | NOTIFY_NET | NOTIFY_DNS.

#[export] Instance metric_eq_dec : EqDecision metric_t.
Proof. solve_decision. Defined.
#[export] Instance control_eq_dec : EqDecision control_type_t.
Proof. solve_decision. Defined.
#[export] Instance fs_type_eq_dec : EqDecision fs_type_t.
Proof. solve_decision. Defined.
#[export] Instance detect_eq_dec : EqDecision detect_type_t.
Proof. solve_decision. Defined.
#[export] Instance bucket_eq_dec : EqDecision sock_summary_bucket_t.
Proof. solve_decision. Defined.

Definition SOCK_STREAM : Z := 1.
Definition SOCK_DGRAM : Z := 2.
Definition SOCK_RAW : Z := 3.
Definition SOCK_RDM : Z := 4.
Definition SOCK_SEQPACKET : Z := 5.
Definition SOCK_NONBLOCK : Z := 2048.
Definition SOCK_CLOEXEC : Z := 524288.
Definition AF_UNIX : Z := 1.
Definition AF_INET : Z := 2.
Definition AF_INET6 : Z := 10.
Definition AF_NETLINK : Z := 16.
Definition EFAULT : Z := 14.
Definition EPIPE : Z := 32.

Definition CFG_SRC_HTTP : Z := 4.
Definition CFG_SRC_NET : Z := 5.
Definition CFG_SRC_FS : Z := 6.
Definition CFG_SRC_DNS : Z := 7.
Definition CFG_SRC_SEC : Z := 8.

Definition NET_ENTRIES : Z := 1024.
Definition FS_ENTRIES : Z := 1024.
Definition PATH_MAX : nat := Z.to_nat 4096.
Definition FUNC_MAX : nat := 24.
Definition DLPI_MAX : nat := 256.
Definition REASON_MAX : nat := Z.to_nat 4224.
Definition MAX_HOSTNAME : nat := 255.
Definition INET6_ADDRSTRLEN : nat := 46.
Definition DNS_PORT : Z := 53.

(** ** Counters *)

Record counters_element_t := mkElt { mtc : Z; evt : Z }.
Definition zero_elt : counters_element_t := mkElt 0 0.

(** The members of [metric_counters]. *)
Inductive ctr :=
  | openPorts | netConnectionsUdp | netConnectionsTcp | netConnectionsOther
  | netrxBytes (b : sock_summary_bucket_t) | nettxBytes (b : sock_summary_bucket_t)
  | readBytes | writeBytes | numSeek | numStat | numOpen | numClose | numDNS
  | fsDurationNum | fsDurationTotal | connDurationNum | connDurationTotal
  | dnsDurationNum | dnsDurationTotal | netConnOpen | netConnClose
  | netConnectErrors | netTxRxErrors | netDNSErrors | fsOpenCloseErrors | fsRdWrErrors | fsStatErrors.

(** The counters of a [net_info] and of a [fs_info]. *)
Inductive net_ctr := numTX | numRX | txBytes | rxBytes | numDuration | totalDuration.
Inductive fs_ctr :=
  | f_numOpen | f_numClose | f_numSeek | f_numRead | f_numWrite | f_readBytes | f_writeBytes
  | f_numDuration | f_totalDuration.

#[export] Instance ctr_eq_dec : EqDecision ctr.
Proof. solve_decision. Defined.
#[export] Instance net_ctr_eq_dec : EqDecision net_ctr.
Proof. solve_decision. Defined.
#[export] Instance fs_ctr_eq_dec : EqDecision fs_ctr.
Proof. solve_decision. Defined.

Definition metric_counters : Type := ctr -> counters_element_t.
Definition zero_counters : metric_counters := fun _ => zero_elt.

(** [atomicAddU64] and [atomicSubU64], which saturate. *)
Definition atomicAddU64 (oldval val : Z) : Z :=
  let newval := u64 (oldval + val) in
  if newval <? oldval then UINT64_MAX else newval.
Definition atomicSubU64 (oldval val : Z) : Z :=
  if oldval <? val then 0 else oldval - val.

Definition addToInterfaceCounts (value : counters_element_t) (x : Z) : counters_element_t :=
  mkElt (atomicAddU64 (mtc value) (u64 x)) (atomicAddU64 (evt value) (u64 x)).
Definition subFromInterfaceCounts (value : counters_element_t) (x : Z) : counters_element_t :=
  mkElt (atomicSubU64 (mtc value) (u64 x)) (atomicSubU64 (evt value) (u64 x)).
(** [atomicSwapU64] of one half with 0, and [resetInterfaceCounts]. *)
Definition zero_mtc (v : counters_element_t) : counters_element_t := mkElt 0 (evt v).
Definition zero_evt (v : counters_element_t) : counters_element_t := mkElt (mtc v) 0.
Definition resetInterfaceCounts (v : counters_element_t) : counters_element_t := zero_evt (zero_mtc v).

(** Change one member. *)
Definition at_ctr {K} `{EqDecision K} (c : K) (f : counters_element_t -> counters_element_t)
    (m : K -> counters_element_t) : K -> counters_element_t := <[c := f (m c)]> m.

(** ** Addresses: the bytes of a [sockaddr_storage] *)

Definition sockaddr : Type := list Z.
Definition SOCKADDR_SIZE : nat := 128.
Definition zero_addr : sockaddr := replicate SOCKADDR_SIZE 0.
Definition ss_family (a : sockaddr) : Z := byte_at a 0 + 256 * byte_at a 1.
(** [ntohs] of sin_port or sin6_port, which are at the same place. *)
Definition sin_port (a : sockaddr) : Z := 256 * byte_at a 2 + byte_at a 3.
Definition with_family (a : sockaddr) (f : Z) : sockaddr :=
  set_at (set_at a 0 (f mod 256)) 1 (f / 256 mod 256).

(** ** Table entries *)

Definition http_states : Type := HttpState.http_states.
Definition protocol_def_t : Type := CfgParse.protocol_def_t.
Definition zeroState : HttpState.http_state_t := HttpState.zeroState.

Record net_info := mkNetInfo {
  n_data_type : metric_t;
  n_fd : Z;
  n_active : bool;
  n_type : Z;                           (* SOCK_STREAM, ... *)
  n_http : http_states;
  n_addrSetLocal : bool;
  n_addrSetRemote : bool;
  n_addrSetUnix : bool;
  n_remoteClose : bool;
  n_cnt : net_ctr -> counters_element_t; (* the six counters *)
  n_dnsSend : bool;
  n_dnsRecv : bool;
  n_startTime : Z;
  n_uid : Z;
  n_lnode : Z;
  n_rnode : Z;
  n_dnsName : string;                   (* char[MAX_HOSTNAME] *)
  n_localConn : sockaddr;
  n_remoteConn : sockaddr;
  n_counters : metric_counters;
  n_tlsDetect : detect_type_t;
  n_tlsProtoDef : option protocol_def_t;
  n_protoDetect : detect_type_t;
  n_protoProtoDef : option protocol_def_t;
}.

Definition zero_net : net_info :=
  mkNetInfo OPEN_PORTS 0 false 0 (zeroState, zeroState) false false false false (fun _ => zero_elt) false false 0 0 0 0 "" zero_addr zero_addr zero_counters DETECT_PENDING None DETECT_PENDING None.

Definition setn_data_type (n : net_info) (x : metric_t) : net_info :=
  mkNetInfo x (n_fd n) (n_active n) (n_type n) (n_http n) (n_addrSetLocal n) (n_addrSetRemote n) (n_addrSetUnix n) (n_remoteClose n) (n_cnt n) (n_dnsSend n) (n_dnsRecv n) (n_startTime n) (n_uid n) (n_lnode n) (n_rnode n) (n_dnsName n) (n_localConn n) (n_remoteConn n) (n_counters n) (n_tlsDetect n) (n_tlsProtoDef n) (n_protoDetect n) (n_protoProtoDef n).
Definition setn_fd (n : net_info) (x : Z) : net_info :=
  mkNetInfo (n_data_type n) x (n_active n) (n_type n) (n_http n) (n_addrSetLocal n) (n_addrSetRemote n) (n_addrSetUnix n) (n_remoteClose n) (n_cnt n) (n_dnsSend n) (n_dnsRecv n) (n_startTime n) (n_uid n) (n_lnode n) (n_rnode n) (n_dnsName n) (n_localConn n) (n_remoteConn n) (n_counters n) (n_tlsDetect n) (n_tlsProtoDef n) (n_protoDetect n) (n_protoProtoDef n).
Definition setn_active (n : net_info) (x : bool) : net_info :=
  mkNetInfo (n_data_type n) (n_fd n) x (n_type n) (n_http n) (n_addrSetLocal n) (n_addrSetRemote n) (n_addrSetUnix n) (n_remoteClose n) (n_cnt n) (n_dnsSend n) (n_dnsRecv n) (n_startTime n) (n_uid n) (n_lnode n) (n_rnode n) (n_dnsName n) (n_localConn n) (n_remoteConn n) (n_counters n) (n_tlsDetect n) (n_tlsProtoDef n) (n_protoDetect n) (n_protoProtoDef n).
Definition setn_type (n : net_info) (x : Z) : net_info :=
  mkNetInfo (n_data_type n) (n_fd n) (n_active n) x (n_http n) (n_addrSetLocal n) (n_addrSetRemote n) (n_addrSetUnix n) (n_remoteClose n) (n_cnt n) (n_dnsSend n) (n_dnsRecv n) (n_startTime n) (n_uid n) (n_lnode n) (n_rnode n) (n_dnsName n) (n_localConn n) (n_remoteConn n) (n_counters n) (n_tlsDetect n) (n_tlsProtoDef n) (n_protoDetect n) (n_protoProtoDef n).
Definition setn_http (n : net_info) (x : http_states) : net_info :=
  mkNetInfo (n_data_type n) (n_fd n) (n_active n) (n_type n) x (n_addrSetLocal n) (n_addrSetRemote n) (n_addrSetUnix n) (n_remoteClose n) (n_cnt n) (n_dnsSend n) (n_dnsRecv n) (n_startTime n) (n_uid n) (n_lnode n) (n_rnode n) (n_dnsName n) (n_localConn n) (n_remoteConn n) (n_counters n) (n_tlsDetect n) (n_tlsProtoDef n) (n_protoDetect n) (n_protoProtoDef n).
Definition setn_addrSetLocal (n : net_info) (x : bool) : net_info :=
  mkNetInfo (n_data_type n) (n_fd n) (n_active n) (n_type n) (n_http n) x (n_addrSetRemote n) (n_addrSetUnix n) (n_remoteClose n) (n_cnt n) (n_dnsSend n) (n_dnsRecv n) (n_startTime n) (n_uid n) (n_lnode n) (n_rnode n) (n_dnsName n) (n_localConn n) (n_remoteConn n) (n_counters n) (n_tlsDetect n) (n_tlsProtoDef n) (n_protoDetect n) (n_protoProtoDef n).
Definition setn_addrSetRemote (n : net_info) (x : bool) : net_info :=
  mkNetInfo (n_data_type n) (n_fd n) (n_active n) (n_type n) (n_http n) (n_addrSetLocal n) x (n_addrSetUnix n) (n_remoteClose n) (n_cnt n) (n_dnsSend n) (n_dnsRecv n) (n_startTime n) (n_uid n) (n_lnode n) (n_rnode n) (n_dnsName n) (n_localConn n) (n_remoteConn n) (n_counters n) (n_tlsDetect n) (n_tlsProtoDef n) (n_protoDetect n) (n_protoProtoDef n).
Definition setn_addrSetUnix (n : net_info) (x : bool) : net_info :=
  mkNetInfo (n_data_type n) (n_fd n) (n_active n) (n_type n) (n_http n) (n_addrSetLocal n) (n_addrSetRemote n) x (n_remoteClose n) (n_cnt n) (n_dnsSend n) (n_dnsRecv n) (n_startTime n) (n_uid n) (n_lnode n) (n_rnode n) (n_dnsName n) (n_localConn n) (n_remoteConn n) (n_counters n) (n_tlsDetect n) (n_tlsProtoDef n) (n_protoDetect n) (n_protoProtoDef n).
Definition setn_remoteClose (n : net_info) (x : bool) : net_info :=
  mkNetInfo (n_data_type n) (n_fd n) (n_active n) (n_type n) (n_http n) (n_addrSetLocal n) (n_addrSetRemote n) (n_addrSetUnix n) x (n_cnt n) (n_dnsSend n) (n_dnsRecv n) (n_startTime n) (n_uid n) (n_lnode n) (n_rnode n) (n_dnsName n) (n_localConn n) (n_remoteConn n) (n_counters n) (n_tlsDetect n) (n_tlsProtoDef n) (n_protoDetect n) (n_protoProtoDef n).
Definition setn_cnt (n : net_info) (x : net_ctr -> counters_element_t) : net_info :=
  mkNetInfo (n_data_type n) (n_fd n) (n_active n) (n_type n) (n_http n) (n_addrSetLocal n) (n_addrSetRemote n) (n_addrSetUnix n) (n_remoteClose n) x (n_dnsSend n) (n_dnsRecv n) (n_startTime n) (n_uid n) (n_lnode n) (n_rnode n) (n_dnsName n) (n_localConn n) (n_remoteConn n) (n_counters n) (n_tlsDetect n) (n_tlsProtoDef n) (n_protoDetect n) (n_protoProtoDef n).
Definition setn_dnsSend (n : net_info) (x : bool) : net_info :=
  mkNetInfo (n_data_type n) (n_fd n) (n_active n) (n_type n) (n_http n) (n_addrSetLocal n) (n_addrSetRemote n) (n_addrSetUnix n) (n_remoteClose n) (n_cnt n) x (n_dnsRecv n) (n_startTime n) (n_uid n) (n_lnode n) (n_rnode n) (n_dnsName n) (n_localConn n) (n_remoteConn n) (n_counters n) (n_tlsDetect n) (n_tlsProtoDef n) (n_protoDetect n) (n_protoProtoDef n).
Definition setn_dnsRecv (n : net_info) (x : bool) : net_info :=
  mkNetInfo (n_data_type n) (n_fd n) (n_active n) (n_type n) (n_http n) (n_addrSetLocal n) (n_addrSetRemote n) (n_addrSetUnix n) (n_remoteClose n) (n_cnt n) (n_dnsSend n) x (n_startTime n) (n_uid n) (n_lnode n) (n_rnode n) (n_dnsName n) (n_localConn n) (n_remoteConn n) (n_counters n) (n_tlsDetect n) (n_tlsProtoDef n) (n_protoDetect n) (n_protoProtoDef n).
Definition setn_startTime (n : net_info) (x : Z) : net_info :=
  mkNetInfo (n_data_type n) (n_fd n) (n_active n) (n_type n) (n_http n) (n_addrSetLocal n) (n_addrSetRemote n) (n_addrSetUnix n) (n_remoteClose n) (n_cnt n) (n_dnsSend n) (n_dnsRecv n) x (n_uid n) (n_lnode n) (n_rnode n) (n_dnsName n) (n_localConn n) (n_remoteConn n) (n_counters n) (n_tlsDetect n) (n_tlsProtoDef n) (n_protoDetect n) (n_protoProtoDef n).
Definition setn_uid (n : net_info) (x : Z) : net_info :=
  mkNetInfo (n_data_type n) (n_fd n) (n_active n) (n_type n) (n_http n) (n_addrSetLocal n) (n_addrSetRemote n) (n_addrSetUnix n) (n_remoteClose n) (n_cnt n) (n_dnsSend n) (n_dnsRecv n) (n_startTime n) x (n_lnode n) (n_rnode n) (n_dnsName n) (n_localConn n) (n_remoteConn n) (n_counters n) (n_tlsDetect n) (n_tlsProtoDef n) (n_protoDetect n) (n_protoProtoDef n).
Definition setn_lnode (n : net_info) (x : Z) : net_info :=
  mkNetInfo (n_data_type n) (n_fd n) (n_active n) (n_type n) (n_http n) (n_addrSetLocal n) (n_addrSetRemote n) (n_addrSetUnix n) (n_remoteClose n) (n_cnt n) (n_dnsSend n) (n_dnsRecv n) (n_startTime n) (n_uid n) x (n_rnode n) (n_dnsName n) (n_localConn n) (n_remoteConn n) (n_counters n) (n_tlsDetect n) (n_tlsProtoDef n) (n_protoDetect n) (n_protoProtoDef n).
Definition setn_rnode (n : net_info) (x : Z) : net_info :=
  mkNetInfo (n_data_type n) (n_fd n) (n_active n) (n_type n) (n_http n) (n_addrSetLocal n) (n_addrSetRemote n) (n_addrSetUnix n) (n_remoteClose n) (n_cnt n) (n_dnsSend n) (n_dnsRecv n) (n_startTime n) (n_uid n) (n_lnode n) x (n_dnsName n) (n_localConn n) (n_remoteConn n) (n_counters n) (n_tlsDetect n) (n_tlsProtoDef n) (n_protoDetect n) (n_protoProtoDef n).
Definition setn_dnsName (n : net_info) (x : string) : net_info :=
  mkNetInfo (n_data_type n) (n_fd n) (n_active n) (n_type n) (n_http n) (n_addrSetLocal n) (n_addrSetRemote n) (n_addrSetUnix n) (n_remoteClose n) (n_cnt n) (n_dnsSend n) (n_dnsRecv n) (n_startTime n) (n_uid n) (n_lnode n) (n_rnode n) x (n_localConn n) (n_remoteConn n) (n_counters n) (n_tlsDetect n) (n_tlsProtoDef n) (n_protoDetect n) (n_protoProtoDef n).
Definition setn_localConn (n : net_info) (x : sockaddr) : net_info :=
  mkNetInfo (n_data_type n) (n_fd n) (n_active n) (n_type n) (n_http n) (n_addrSetLocal n) (n_addrSetRemote n) (n_addrSetUnix n) (n_remoteClose n) (n_cnt n) (n_dnsSend n) (n_dnsRecv n) (n_startTime n) (n_uid n) (n_lnode n) (n_rnode n) (n_dnsName n) x (n_remoteConn n) (n_counters n) (n_tlsDetect n) (n_tlsProtoDef n) (n_protoDetect n) (n_protoProtoDef n).
Definition setn_remoteConn (n : net_info) (x : sockaddr) : net_info :=
  mkNetInfo (n_data_type n) (n_fd n) (n_active n) (n_type n) (n_http n) (n_addrSetLocal n) (n_addrSetRemote n) (n_addrSetUnix n) (n_remoteClose n) (n_cnt n) (n_dnsSend n) (n_dnsRecv n) (n_startTime n) (n_uid n) (n_lnode n) (n_rnode n) (n_dnsName n) (n_localConn n) x (n_counters n) (n_tlsDetect n) (n_tlsProtoDef n) (n_protoDetect n) (n_protoProtoDef n).
Definition setn_counters (n : net_info) (x : metric_counters) : net_info :=
  mkNetInfo (n_data_type n) (n_fd n) (n_active n) (n_type n) (n_http n) (n_addrSetLocal n) (n_addrSetRemote n) (n_addrSetUnix n) (n_remoteClose n) (n_cnt n) (n_dnsSend n) (n_dnsRecv n) (n_startTime n) (n_uid n) (n_lnode n) (n_rnode n) (n_dnsName n) (n_localConn n) (n_remoteConn n) x (n_tlsDetect n) (n_tlsProtoDef n) (n_protoDetect n) (n_protoProtoDef n).
Definition setn_tlsDetect (n : net_info) (x : detect_type_t) : net_info :=
  mkNetInfo (n_data_type n) (n_fd n) (n_active n) (n_type n) (n_http n) (n_addrSetLocal n) (n_addrSetRemote n) (n_addrSetUnix n) (n_remoteClose n) (n_cnt n) (n_dnsSend n) (n_dnsRecv n) (n_startTime n) (n_uid n) (n_lnode n) (n_rnode n) (n_dnsName n) (n_localConn n) (n_remoteConn n) (n_counters n) x (n_tlsProtoDef n) (n_protoDetect n) (n_protoProtoDef n).
Definition setn_tlsProtoDef (n : net_info) (x : option protocol_def_t) : net_info :=
  mkNetInfo (n_data_type n) (n_fd n) (n_active n) (n_type n) (n_http n) (n_addrSetLocal n) (n_addrSetRemote n) (n_addrSetUnix n) (n_remoteClose n) (n_cnt n) (n_dnsSend n) (n_dnsRecv n) (n_startTime n) (n_uid n) (n_lnode n) (n_rnode n) (n_dnsName n) (n_localConn n) (n_remoteConn n) (n_counters n) (n_tlsDetect n) x (n_protoDetect n) (n_protoProtoDef n).
Definition setn_protoDetect (n : net_info) (x : detect_type_t) : net_info :=
  mkNetInfo (n_data_type n) (n_fd n) (n_active n) (n_type n) (n_http n) (n_addrSetLocal n) (n_addrSetRemote n) (n_addrSetUnix n) (n_remoteClose n) (n_cnt n) (n_dnsSend n) (n_dnsRecv n) (n_startTime n) (n_uid n) (n_lnode n) (n_rnode n) (n_dnsName n) (n_localConn n) (n_remoteConn n) (n_counters n) (n_tlsDetect n) (n_tlsProtoDef n) x (n_protoProtoDef n).
Definition setn_protoProtoDef (n : net_info) (x : option protocol_def_t) : net_info :=
  mkNetInfo (n_data_type n) (n_fd n) (n_active n) (n_type n) (n_http n) (n_addrSetLocal n) (n_addrSetRemote n) (n_addrSetUnix n) (n_remoteClose n) (n_cnt n) (n_dnsSend n) (n_dnsRecv n) (n_startTime n) (n_uid n) (n_lnode n) (n_rnode n) (n_dnsName n) (n_localConn n) (n_remoteConn n) (n_counters n) (n_tlsDetect n) (n_tlsProtoDef n) (n_protoDetect n) x.

Record fs_info := mkFsInfo {
  f_data_type : metric_t;
  f_fd : Z;
  f_active : bool;
  f_enforceWR : bool;
  f_enforceRD : bool;
  f_content_type : fs_content_type_t;
  f_type : fs_type_t;
  f_cnt : fs_ctr -> counters_element_t; (* the nine counters *)
  f_uid : Z;
  f_fuid : Z;
  f_fgid : Z;
  f_mode : Z;
  f_path : string;                      (* char[PATH_MAX] *)
  f_funcop : string;                    (* char[FUNC_MAX] *)
}.

Definition zero_fs : fs_info :=
  mkFsInfo OPEN_PORTS 0 false false false FS_CONTENT_UNKNOWN FD (fun _ => zero_elt) 0 0 0 0 "" "".

Definition setf_data_type (n : fs_info) (x : metric_t) : fs_info :=
  mkFsInfo x (f_fd n) (f_active n) (f_enforceWR n) (f_enforceRD n) (f_content_type n) (f_type n) (f_cnt n) (f_uid n) (f_fuid n) (f_fgid n) (f_mode n) (f_path n) (f_funcop n).
Definition setf_fd (n : fs_info) (x : Z) : fs_info :=
  mkFsInfo (f_data_type n) x (f_active n) (f_enforceWR n) (f_enforceRD n) (f_content_type n) (f_type n) (f_cnt n) (f_uid n) (f_fuid n) (f_fgid n) (f_mode n) (f_path n) (f_funcop n).
Definition setf_active (n : fs_info) (x : bool) : fs_info :=
  mkFsInfo (f_data_type n) (f_fd n) x (f_enforceWR n) (f_enforceRD n) (f_content_type n) (f_type n) (f_cnt n) (f_uid n) (f_fuid n) (f_fgid n) (f_mode n) (f_path n) (f_funcop n).
Definition setf_enforceWR (n : fs_info) (x : bool) : fs_info :=
  mkFsInfo (f_data_type n) (f_fd n) (f_active n) x (f_enforceRD n) (f_content_type n) (f_type n) (f_cnt n) (f_uid n) (f_fuid n) (f_fgid n) (f_mode n) (f_path n) (f_funcop n).
Definition setf_enforceRD (n : fs_info) (x : bool) : fs_info :=
  mkFsInfo (f_data_type n) (f_fd n) (f_active n) (f_enforceWR n) x (f_content_type n) (f_type n) (f_cnt n) (f_uid n) (f_fuid n) (f_fgid n) (f_mode n) (f_path n) (f_funcop n).
Definition setf_content_type (n : fs_info) (x : fs_content_type_t) : fs_info :=
  mkFsInfo (f_data_type n) (f_fd n) (f_active n) (f_enforceWR n) (f_enforceRD n) x (f_type n) (f_cnt n) (f_uid n) (f_fuid n) (f_fgid n) (f_mode n) (f_path n) (f_funcop n).
Definition setf_type (n : fs_info) (x : fs_type_t) : fs_info :=
  mkFsInfo (f_data_type n) (f_fd n) (f_active n) (f_enforceWR n) (f_enforceRD n) (f_content_type n) x (f_cnt n) (f_uid n) (f_fuid n) (f_fgid n) (f_mode n) (f_path n) (f_funcop n).
Definition setf_cnt (n : fs_info) (x : fs_ctr -> counters_element_t) : fs_info :=
  mkFsInfo (f_data_type n) (f_fd n) (f_active n) (f_enforceWR n) (f_enforceRD n) (f_content_type n) (f_type n) x (f_uid n) (f_fuid n) (f_fgid n) (f_mode n) (f_path n) (f_funcop n).
Definition setf_uid (n : fs_info) (x : Z) : fs_info :=
  mkFsInfo (f_data_type n) (f_fd n) (f_active n) (f_enforceWR n) (f_enforceRD n) (f_content_type n) (f_type n) (f_cnt n) x (f_fuid n) (f_fgid n) (f_mode n) (f_path n) (f_funcop n).
Definition setf_fuid (n : fs_info) (x : Z) : fs_info :=
  mkFsInfo (f_data_type n) (f_fd n) (f_active n) (f_enforceWR n) (f_enforceRD n) (f_content_type n) (f_type n) (f_cnt n) (f_uid n) x (f_fgid n) (f_mode n) (f_path n) (f_funcop n).
Definition setf_fgid (n : fs_info) (x : Z) : fs_info :=
  mkFsInfo (f_data_type n) (f_fd n) (f_active n) (f_enforceWR n) (f_enforceRD n) (f_content_type n) (f_type n) (f_cnt n) (f_uid n) (f_fuid n) x (f_mode n) (f_path n) (f_funcop n).
Definition setf_mode (n : fs_info) (x : Z) : fs_info :=
  mkFsInfo (f_data_type n) (f_fd n) (f_active n) (f_enforceWR n) (f_enforceRD n) (f_content_type n) (f_type n) (f_cnt n) (f_uid n) (f_fuid n) (f_fgid n) x (f_path n) (f_funcop n).
Definition setf_path (n : fs_info) (x : string) : fs_info :=
  mkFsInfo (f_data_type n) (f_fd n) (f_active n) (f_enforceWR n) (f_enforceRD n) (f_content_type n) (f_type n) (f_cnt n) (f_uid n) (f_fuid n) (f_fgid n) (f_mode n) x (f_funcop n).
Definition setf_funcop (n : fs_info) (x : string) : fs_info :=
  mkFsInfo (f_data_type n) (f_fd n) (f_active n) (f_enforceWR n) (f_enforceRD n) (f_content_type n) (f_type n) (f_cnt n) (f_uid n) (f_fuid n) (f_fgid n) (f_mode n) (f_path n) x.

(** ** Events *)

Record stat_err_info := mkStatErr {
  se_data_type : metric_t;
  se_name : string;                     (* char[PATH_MAX] *)
  se_funcop : string;                   (* char[FUNC_MAX] *)
  se_counters : metric_counters;
}.

Record security_info := mkSec {
  sec_reason : string;                  (* char[REASON_MAX] *)
  sec_path : string;                    (* char[PATH_MAX] *)
  sec_dnsName : string;                 (* char[MAX_HOSTNAME] *)
  sec_write_bytes : Z;                  (* uint *)
  sec_host : string;                    (* char[INET6_ADDRSTRLEN] *)
  sec_port : Z;                         (* uint *)
  sec_func : string;                    (* char[FUNC_MAX] *)
  sec_dlpi_name : string;               (* char[DLPI_MAX] *)
}.

(** An element of the event queue: the constructor is its [evtype]. *)
Inductive posted :=
  | PNet (n : net_info)                           (* EVT_NET *)
  | PFs (f : fs_info)                             (* EVT_FS *)
  | PErr (s : stat_err_info)                      (* EVT_ERR *)
  | PStat (s : stat_err_info)                     (* EVT_STAT *)
  | PDns (n : net_info)                           (* EVT_DNS *)
  | PSec (s : security_info)                      (* EVT_SEC *)
  | PDetect (protname : option string) (fd uid : Z)  (* EVT_PROTO of type EVT_DETECT *)
  | PHttp (p : HttpState.protocol_info).          (* EVT_PROTO of the other types *)

Record payload_info := mkPayload {
  pay_src : metric_t;
  pay_sockfd : Z;
  pay_net : net_info;
  pay_len : Z;
  pay_data : option (list Z);
}.

(** A call [ctlSendLog(g_ctl, fd, path, buf, count, uid, proc)]. *)
Record log_call := mkLog {
  log_fd : Z; log_path : string; log_buf : option (list Z); log_count : Z; log_uid : Z;
}.

(** A metric that the process sends itself. *)
Record captured_metric_t := mkCaptured {
  cap_name : string; cap_value : string; cap_type : string; cap_dims : option string;
}.

(** ** Summarisation *)

Record summary_t := mkSummary {
  fs_open_close : bool; fs_read_write : bool; fs_stat : bool; fs_seek : bool; fs_error : bool;
  net_open_close : bool; net_rx_tx : bool; net_dns : bool; net_error : bool; net_dnserror : bool;
}.
Definition no_summary : summary_t :=
  mkSummary false false false false false false false false false false.

(** ** The globals *)

Record st := mkSt {
  g_ctrs : metric_counters;
  g_netinfo : option (Z -> net_info);   (* calloc'd array of NET_ENTRIES *)
  g_fsinfo : option (Z -> fs_info);     (* calloc'd array of FS_ENTRIES *)
  g_extra : gmap Z net_info;            (* g_extra_net_info_list, by channel id *)
  g_summary : summary_t;
  g_mtc_addr_output : bool;
  events : list posted;                 (* the event queue of g_ctl *)
  dropped : list posted;                (* refused by a full queue *)
  payloads : list payload_info;         (* the payload queue of g_ctl *)
  notices : list (notify_type_t * string); (* calls of notify *)
  logs : list log_call;                 (* calls of ctlSendLog *)
  allocs : list bool;                   (* outcomes of the next requests *)
  ticks : nat;                          (* readings of the clock so far *)
  captured : list captured_metric_t;    (* the queue of the captured metrics *)
}.

Definition st0 : st :=
  mkSt zero_counters None None ∅ no_summary true [] [] [] [] [] [] O [].

Definition set_g_ctrs (n : st) (x : metric_counters) : st :=
  mkSt x (g_netinfo n) (g_fsinfo n) (g_extra n) (g_summary n) (g_mtc_addr_output n) (events n) (dropped n) (payloads n) (notices n) (logs n) (allocs n) (ticks n) (captured n).
Definition set_g_netinfo (n : st) (x : option (Z -> net_info)) : st :=
  mkSt (g_ctrs n) x (g_fsinfo n) (g_extra n) (g_summary n) (g_mtc_addr_output n) (events n) (dropped n) (payloads n) (notices n) (logs n) (allocs n) (ticks n) (captured n).
Definition set_g_fsinfo (n : st) (x : option (Z -> fs_info)) : st :=
  mkSt (g_ctrs n) (g_netinfo n) x (g_extra n) (g_summary n) (g_mtc_addr_output n) (events n) (dropped n) (payloads n) (notices n) (logs n) (allocs n) (ticks n) (captured n).
Definition set_g_extra (n : st) (x : gmap Z net_info) : st :=
  mkSt (g_ctrs n) (g_netinfo n) (g_fsinfo n) x (g_summary n) (g_mtc_addr_output n) (events n) (dropped n) (payloads n) (notices n) (logs n) (allocs n) (ticks n) (captured n).
Definition set_g_summary (n : st) (x : summary_t) : st :=
  mkSt (g_ctrs n) (g_netinfo n) (g_fsinfo n) (g_extra n) x (g_mtc_addr_output n) (events n) (dropped n) (payloads n) (notices n) (logs n) (allocs n) (ticks n) (captured n).
Definition set_g_mtc_addr_output (n : st) (x : bool) : st :=
  mkSt (g_ctrs n) (g_netinfo n) (g_fsinfo n) (g_extra n) (g_summary n) x (events n) (dropped n) (payloads n) (notices n) (logs n) (allocs n) (ticks n) (captured n).
Definition set_events (n : st) (x : list posted) : st :=
  mkSt (g_ctrs n) (g_netinfo n) (g_fsinfo n) (g_extra n) (g_summary n) (g_mtc_addr_output n) x (dropped n) (payloads n) (notices n) (logs n) (allocs n) (ticks n) (captured n).
Definition set_dropped (n : st) (x : list posted) : st :=
  mkSt (g_ctrs n) (g_netinfo n) (g_fsinfo n) (g_extra n) (g_summary n) (g_mtc_addr_output n) (events n) x (payloads n) (notices n) (logs n) (allocs n) (ticks n) (captured n).
Definition set_payloads (n : st) (x : list payload_info) : st :=
  mkSt (g_ctrs n) (g_netinfo n) (g_fsinfo n) (g_extra n) (g_summary n) (g_mtc_addr_output n) (events n) (dropped n) x (notices n) (logs n) (allocs n) (ticks n) (captured n).
Definition set_notices (n : st) (x : list (notify_type_t * string)) : st :=
  mkSt (g_ctrs n) (g_netinfo n) (g_fsinfo n) (g_extra n) (g_summary n) (g_mtc_addr_output n) (events n) (dropped n) (payloads n) x (logs n) (allocs n) (ticks n) (captured n).
Definition set_logs (n : st) (x : list log_call) : st :=
  mkSt (g_ctrs n) (g_netinfo n) (g_fsinfo n) (g_extra n) (g_summary n) (g_mtc_addr_output n) (events n) (dropped n) (payloads n) (notices n) x (allocs n) (ticks n) (captured n).
Definition set_allocs (n : st) (x : list bool) : st :=
  mkSt (g_ctrs n) (g_netinfo n) (g_fsinfo n) (g_extra n) (g_summary n) (g_mtc_addr_output n) (events n) (dropped n) (payloads n) (notices n) (logs n) x (ticks n) (captured n).
Definition set_ticks (n : st) (x : nat) : st :=
  mkSt (g_ctrs n) (g_netinfo n) (g_fsinfo n) (g_extra n) (g_summary n) (g_mtc_addr_output n) (events n) (dropped n) (payloads n) (notices n) (logs n) (allocs n) x (captured n).
Definition set_captured (n : st) (x : list captured_metric_t) : st :=
  mkSt (g_ctrs n) (g_netinfo n) (g_fsinfo n) (g_extra n) (g_summary n) (g_mtc_addr_output n) (events n) (dropped n) (payloads n) (notices n) (logs n) (allocs n) (ticks n) x.

(** ** What the code asks of other components and of the kernel *)

Record stat_t := mkStat { st_uid : Z; st_gid : Z; st_mode : Z }.

Record notify_info_t := mkNotify {
  nt_enable : bool; nt_files : bool; nt_exfil : bool; nt_white_block : bool;
  nt_file_read : list string; nt_file_write : list string; nt_sys_dirs : list string;
  nt_ip_white : list string; nt_ip_black : list string;
}.

Class Env := mkEnv {
  evtSource : Z -> bool;                (* ctlEvtSourceEnabled(g_ctl, src) *)
  mtcEnabled : bool;                    (* mtcEnabled(g_mtc) *)
  mtcWatch : Z -> bool;                 (* cfgMtcWatchEnable(g_cfg.staticfg, watch) *)
  enhanceFs : bool;                     (* ctlEnhanceFs(g_ctl) *)
  payDisabled : bool;                   (* ctlPayStatus(g_ctl) is PAYLOAD_STATUS_DISABLE *)
  capacity : nat;                       (* entries of a queue of g_ctl *)
  clock : nat -> Z;                     (* getTime(), by its reading *)
  time_freq : Z;                        (* g_time.freq *)
  gptimer_avail : bool;                 (* g_time.gptimer_avail *)
  errno : Z;
  goApp : bool;                         (* appviewGetGoAppStateStatic() *)
  k_stat : string -> option stat_t;     (* stat *)
  junk_stat : stat_t;                   (* an uninitialised struct stat *)
  k_access_x : string -> bool;          (* access(path, X_OK) == 0 *)
  known_user : Z -> bool;               (* getpwuid_r finds the user *)
  known_group : Z -> bool;              (* getgrgid_r finds the group *)
  k_fstat_sock : Z -> option Z;         (* fstat: the inode of a socket *)
  osUnixSockPeer : Z -> Z;
  k_getsockname : Z -> option (sockaddr * Z);
  k_getpeername : Z -> option (sockaddr * Z);
  k_so_type : Z -> option Z;            (* getsockopt(SO_TYPE) *)
  inet_ntop : Z -> sockaddr -> option string;
  g_notify_def : notify_info_t;
  blockconn : Z;                        (* g_cfg.blockconn *)
  strtod : string -> option Types.double; (* the number read; none was read, or ERANGE *)
}.

(** ** The clock *)

Definition getTime `{Env} (s : st) : Z * st := (clock (ticks s), set_ticks s (S (ticks s))).

Definition getDuration `{Env} (start : Z) (s : st) : Z * st :=
  if time_freq =? 0 then (0, s) else
  let '(now, s) := getTime s in
  (if start <? now then
     if gptimer_avail then u64 ((now - start) * 1000) / time_freq else now - start
   else u64 (u64 (UINT64_MAX - start + now) * 1000) / time_freq, s).

(** ** Allocation and the queue *)

Definition calloc (s : st) : bool * st := (hd true (allocs s), set_allocs s (tl (allocs s))).

(** [cmdPostEvent(g_ctl, event)]: a full queue drops the event. *)
Definition cmdPostEvent `{Env} (e : posted) (s : st) : st :=
  if (length (events s) <? capacity)%nat then set_events s (events s ++ [e])
  else set_dropped s (dropped s ++ [e]).

(** ** Strings *)

(** [strncpy(dst, src, strnlen(src, size))] into a zeroed array of [size] bytes. *)
Definition cut (size : nat) (src : string) : string := String.substring 0 size src.

(** ** Setting the level of detail (setVerbosity) *)

Definition DEFAULT_MTC_IPPORT_VERBOSITY : Z := 1.

Definition setVerbosity (verbosity : Z) (s : st) : st :=
  let s := set_g_mtc_addr_output s (DEFAULT_MTC_IPPORT_VERBOSITY <=? verbosity) in
  set_g_summary s (mkSummary (verbosity <? 6) (verbosity <? 9) (verbosity <? 7) (verbosity <? 8) (verbosity <? 5)
                     (verbosity <? 7) (verbosity <? 9) (verbosity <? 6) (verbosity <? 5) (verbosity <? 5)).

End StateData.
