(* ===== verification/State.v ===== *)
(** * Connection and file state: the data path (src/state.c)

    Every interposed call ends in the functions of this file.  They keep an
    entry for each descriptor, count in the entry and in the global counters
    ([doUpdateState]), and post events for the reporting thread when the
    configuration wants them.  [getFSEntry], [doOpen], [doClose], [addSock] and
    the dup functions manage the entries, [doSetConnection], [doSetAddrs] and
    [doAddNewSock] their addresses. *)

From S2P Require Import Prelude Types HttpState CfgParse StateData.

Module State.
Import StateData.

#[local] Open Scope Z_scope.


(** ** Access to the tables *)

Definition in_table (fd entries : Z) : bool := (0 <=? fd) && (fd <? entries).

Definition checkNetEntry (s : st) (fd : Z) : bool :=
  bool_decide (is_Some (g_netinfo s)) && in_table fd NET_ENTRIES.
Definition checkFSEntry (s : st) (fd : Z) : bool :=
  bool_decide (is_Some (g_fsinfo s)) && in_table fd FS_ENTRIES.

(** [g_netinfo[fd]] and [g_fsinfo[fd]] *)
Definition net_at (s : st) (fd : Z) : net_info := match g_netinfo s with Some t => t fd | None => zero_net end.
Definition fs_at (s : st) (fd : Z) : fs_info := match g_fsinfo s with Some t => t fd | None => zero_fs end.

Definition on_net (fd : Z) (f : net_info -> net_info) (s : st) : st :=
  match g_netinfo s with Some t => set_g_netinfo s (Some (<[fd := f (t fd)]> t)) | None => s end.
Definition on_fs (fd : Z) (f : fs_info -> fs_info) (s : st) : st :=
  match g_fsinfo s with Some t => set_g_fsinfo s (Some (<[fd := f (t fd)]> t)) | None => s end.

Definition getNetEntry (s : st) (fd : Z) : option net_info :=
  if checkNetEntry s fd && n_active (net_at s fd) then Some (net_at s fd) else None.

(** Counters of the globals and of an entry. *)
Definition on_ctr (c : ctr) (f : counters_element_t -> counters_element_t) (s : st) : st :=
  set_g_ctrs s (at_ctr c f (g_ctrs s)).
Definition on_net_ctr (fd : Z) (c : net_ctr) (f : counters_element_t -> counters_element_t) : st -> st :=
  on_net fd (fun n => setn_cnt n (at_ctr c f (n_cnt n))).
Definition on_net_counter (fd : Z) (c : ctr) (f : counters_element_t -> counters_element_t) : st -> st :=
  on_net fd (fun n => setn_counters n (at_ctr c f (n_counters n))).
Definition on_fs_ctr (fd : Z) (c : fs_ctr) (f : counters_element_t -> counters_element_t) : st -> st :=
  on_fs fd (fun n => setf_cnt n (at_ctr c f (f_cnt n))).

Definition add (x : Z) (v : counters_element_t) : counters_element_t := addToInterfaceCounts v x.
Definition sub (x : Z) (v : counters_element_t) : counters_element_t := subFromInterfaceCounts v x.

Definition addrIsNetDomain (a : sockaddr) : bool := (ss_family a =? AF_INET) || (ss_family a =? AF_INET6).
Definition addrIsUnixDomain (a : sockaddr) : bool := ss_family a =? AF_UNIX.

(** [get_port] and [get_port_net]: the second reads the entry it is given. *)
Definition get_port_net (net : net_info) (type : Z) (which : control_type_t) : Z :=
  let conn := if decide (which = LOCAL) then n_localConn net else n_remoteConn net in
  if (type =? AF_INET) || (type =? AF_INET6) then sin_port conn else 0.
Definition get_port (s : st) (fd type : Z) (which : control_type_t) : Z := get_port_net (net_at s fd) type which.

Definition getNetRxTxBucket (net : net_info) : sock_summary_bucket_t :=
  if addrIsNetDomain (n_localConn net) || addrIsNetDomain (n_remoteConn net) then
    if n_type net =? SOCK_STREAM then INET_TCP
    else if n_type net =? SOCK_DGRAM then INET_UDP else SOCK_OTHER
  else if addrIsUnixDomain (n_localConn net) || addrIsUnixDomain (n_remoteConn net) then
    if n_type net =? SOCK_STREAM then UNIX_TCP
    else if n_type net =? SOCK_DGRAM then UNIX_UDP else SOCK_OTHER
  else SOCK_OTHER.

Definition remotePortIsDNS (s : st) (sockfd : Z) : bool :=
  match getNetEntry s sockfd with
  | Some net => get_port s sockfd (ss_family (n_remoteConn net)) REMOTE =? DNS_PORT
  | None => false
  end.

Definition sockIsTCP (s : st) (sockfd : Z) : bool :=
  match getNetEntry s sockfd with Some net => n_type net =? SOCK_STREAM | None => false end.

Section Data.
Context `{E : Env}.

(** ** Security events *)

Definition post_security (sec : security_info) (s : st) : st :=
  let '(ok, s) := calloc s in if ok then cmdPostEvent (PSec sec) s else s.

Definition fileSecurity (path reason : string) (close : bool) (write_bytes : Z) : st -> st :=
  post_security (mkSec (cut REASON_MAX reason) (cut PATH_MAX path) "" (if close then u32 write_bytes else 0) "" 0 "" "").

Definition gotSecurity (funcname reason dlpi_name file_from_maps_file : string) : st -> st :=
  post_security (mkSec (cut REASON_MAX reason) (cut PATH_MAX file_from_maps_file) "" 0 "" 0
                   (cut FUNC_MAX funcname) (cut DLPI_MAX dlpi_name)).

Definition dnsSecurity (dnsName reason : string) : st -> st :=
  post_security (mkSec (cut REASON_MAX reason) "" (cut MAX_HOSTNAME dnsName) 0 "" 0 "" "").

Definition netSecurity (raddr : string) (port : Z) (reason : string) : st -> st :=
  post_security (mkSec (cut REASON_MAX reason) "" "" 0 (cut INET6_ADDRSTRLEN raddr) port "" "").

Definition notify (t : notify_type_t) (msg : string) (s : st) : st := set_notices s (notices s ++ [(t, msg)]).

(** ** Posting *)

(** The flag of [g_summary] that an operation looks at. *)
Definition err_summary (s : st) (type : metric_t) : option bool :=
  match type with
  | NET_ERR_CONN | NET_ERR_RX_TX => Some (net_error (g_summary s))
  | FS_ERR_OPEN_CLOSE | FS_ERR_READ_WRITE | FS_ERR_STAT => Some (fs_error (g_summary s))
  | NET_ERR_DNS => Some (net_dnserror (g_summary s))
  | EVT_STAT | FS_STAT => Some (fs_stat (g_summary s))
  | _ => None
  end.
Definition fs_summary (s : st) (type : metric_t) : option bool :=
  match type with
  | FS_READ | FS_WRITE | FS_DURATION => Some (fs_read_write (g_summary s))
  | FS_OPEN | FS_CLOSE => Some (fs_open_close (g_summary s))
  | FS_SEEK => Some (fs_seek (g_summary s))
  | _ => None
  end.
Definition net_summary (s : st) (type : metric_t) : option bool :=
  match type with
  | OPEN_PORTS | NET_CONNECTIONS | CONNECTION_OPEN | CONNECTION_CLOSE | CONNECTION_DURATION =>
      Some (net_open_close (g_summary s))
  | NETRX | NETTX => Some (net_rx_tx (g_summary s))
  | _ => None
  end.

(** [summarize && !*summarize] *)
Definition needs_reporting (summarize : option bool) : bool :=
  match summarize with Some b => negb b | None => false end.

(** The second halves of the four functions: allocate, fill, post. *)
Definition post (need_to_post mtc_needs_reporting : bool) (event : st -> posted) (s : st) : bool * st :=
  if negb need_to_post then (false, s) else
  let '(ok, s) := calloc s in
  if negb ok then (false, s) else
  (mtc_needs_reporting, cmdPostEvent (event s) s).

Definition postStatErrState (is_err : bool) (type : metric_t) (funcop pathname : option string) (s : st) : bool * st :=
  if negb goApp && is_err && (errno =? EFAULT) then (false, s) else
  let mtc_needs_reporting := needs_reporting (err_summary s type) in
  post (evtSource CFG_SRC_METRIC || (mtcEnabled && mtc_needs_reporting)) mtc_needs_reporting
    (fun s =>
       let sep := mkStatErr type (cut PATH_MAX (default "" pathname)) (cut FUNC_MAX (default "" funcop)) (g_ctrs s) in
       if is_err then PErr sep else PStat sep) s.

Definition fs_event (fd : Z) (type : metric_t) (fs : option fs_info) (funcop pathname : option string) : fs_info :=
  let fsp := default zero_fs fs in
  let fsp := setf_data_type (setf_fd fsp fd) type in
  let fsp := match pathname with
             | Some p => if bool_decide (f_path fsp = "") then setf_path fsp (cut PATH_MAX p) else fsp
             | None => fsp
             end in
  match funcop with
  | Some f => if bool_decide (f_funcop fsp = "") then setf_funcop fsp (cut FUNC_MAX f) else fsp
  | None => fsp
  end.

Definition postFSState (fd : Z) (type : metric_t) (fs : option fs_info) (funcop pathname : option string) (s : st)
  : bool * st :=
  let mtc_needs_reporting := needs_reporting (fs_summary s type) in
  post (evtSource CFG_SRC_METRIC || evtSource CFG_SRC_FS || (mtcEnabled && mtc_needs_reporting)) mtc_needs_reporting
    (fun _ => PFs (fs_event fd type fs funcop pathname)) s.

Definition dns_event (fd : Z) (type : metric_t) (net : option net_info) (duration : Z) (domain : option string) (s : st)
  : net_info :=
  let netp := default zero_net net in
  let netp := setn_data_type (setn_fd netp fd) type in
  let netp := if 0 <? duration then setn_cnt netp (at_ctr totalDuration (add duration) (n_cnt netp)) else netp in
  let netp := match domain with
              | Some d => setn_dnsName netp (let c := cut MAX_HOSTNAME d in
                                             c +:+ String.substring (String.length c) MAX_HOSTNAME (n_dnsName netp))
              | None => netp
              end in
  setn_counters netp (g_ctrs s).

(** [duration] is the caller's [(uint64_t)size]. *)
Definition postDNSState (fd : Z) (type : metric_t) (net : option net_info) (duration : Z) (domain : option string) (s : st)
  : bool * st :=
  let mtc_needs_reporting := negb (net_dns (g_summary s)) in
  post (evtSource CFG_SRC_METRIC || evtSource CFG_SRC_DNS || (mtcEnabled && mtc_needs_reporting)) mtc_needs_reporting
    (fun s => PDns (dns_event fd type net duration domain s)) s.

Definition http_seen (net : net_info) : bool :=
  negb (HttpState.version (n_http net).1 =? 0) || negb (HttpState.version (n_http net).2 =? 0).

Definition postNetState (fd : Z) (type : metric_t) (s : st) : bool * st :=
  let net := net_at s fd in
  let mtc_needs_reporting := needs_reporting (net_summary s type) in
  post (evtSource CFG_SRC_METRIC || evtSource CFG_SRC_NET
        || (bool_decide (type = CONNECTION_DURATION) && http_seen net)
        || (mtcEnabled && mtc_needs_reporting)) mtc_needs_reporting
    (fun s => PNet (setn_counters (setn_data_type (setn_fd (net_at s fd) fd) type) (g_ctrs s))) s.

(** ** Counting

    [if (post(..)) atomicSwapU64(..mtc, 0)] *)
Definition posted_then (r : bool * st) (reset : st -> st) : st := let '(rc, s) := r in if rc then reset s else s.

Definition conn_ctr (type : Z) : ctr :=
  if type =? SOCK_STREAM then netConnectionsTcp
  else if type =? SOCK_DGRAM then netConnectionsUdp else netConnectionsOther.

(** A gauge: add or subtract, start the connection's clock, post. *)
Definition update_gauge (c : ctr) (type : metric_t) (fd size : Z) (s : st) : st :=
  let s := if size <? 0 then on_ctr c (sub (Z.abs size)) s else if 0 <? size then on_ctr c (add size) s else s in
  let s := if negb (size =? 0) && (n_startTime (net_at s fd) =? 0)
           then let '(now, s) := getTime s in on_net fd (fun n => setn_startTime n now) s else s in
  snd (postNetState fd type s).

Definition update_duration (fd : Z) (s : st) : st :=
  let '(new_duration, s) :=
    if negb (n_startTime (net_at s fd) =? 0)
    then let '(d, s) := getDuration (n_startTime (net_at s fd)) s in (d, on_net fd (fun n => setn_startTime n 0) s)
    else (0, s) in
  let s := if negb (new_duration =? 0)
           then on_ctr connDurationTotal (add new_duration) (on_ctr connDurationNum (add 1)
                  (on_net_ctr fd totalDuration (add new_duration) (on_net_ctr fd numDuration (add 1) s)))
           else s in
  let n := n_cnt (net_at s fd) in
  let s := if (0 <? evt (n rxBytes)) || (0 <? evt (n txBytes)) || (0 <? mtc (n rxBytes)) || (0 <? mtc (n txBytes))
           then posted_then (postNetState fd CONNECTION_DURATION s)
                  (fun s => on_net_ctr fd totalDuration zero_mtc (on_net_ctr fd numDuration zero_mtc s))
           else s in
  on_net_ctr fd totalDuration zero_evt (on_net_ctr fd numDuration zero_evt s).

(** CONNECTION_OPEN and CONNECTION_CLOSE *)
Definition update_connection (c : ctr) (type : metric_t) (fd : Z) (s : st) : st :=
  let n := net_at s fd in
  let s := if evtSource CFG_SRC_NET && (negb (n_type n =? SOCK_STREAM) || (n_addrSetRemote n && n_addrSetLocal n))
           then posted_then (postNetState fd type (on_ctr c (add 1) (on_net_counter fd c (add 1) s)))
                  (on_net_counter fd c zero_mtc)
           else s in
  on_net_counter fd c zero_evt s.

(** NETRX and NETTX *)
Definition update_traffic (num bytes : net_ctr) (total : sock_summary_bucket_t -> ctr) (type : metric_t) (fd size : Z)
    (s : st) : st :=
  let s := on_net_ctr fd bytes (add size) (on_net_ctr fd num (add 1) s) in
  let bucket := getNetRxTxBucket (net_at s fd) in
  let s := on_ctr (total bucket) (add size) s in
  posted_then (postNetState fd type s) (fun s => on_net_ctr fd bytes zero_mtc (on_net_ctr fd num zero_mtc s)).

Definition update_dns (fd size : Z) (pathname : option string) (s : st) : st :=
  let s := if 0 <? size then on_ctr numDNS (fun v => mkElt (mtc v) (atomicAddU64 (evt v) 1)) s
           else on_ctr numDNS (add 1) s in
  let '(rc, s) := postDNSState fd DNS (getNetEntry s fd) (u64 size) pathname s in
  let s := if rc && (size =? 0) then on_ctr numDNS (fun v => mkElt (atomicSubU64 (mtc v) 1) (evt v)) s else s in
  on_ctr numDNS (fun v => mkElt (mtc v) (atomicSubU64 (evt v) 1)) s.

Definition update_dns_duration (fd size : Z) (pathname : option string) (s : st) : st :=
  let s := on_ctr dnsDurationTotal (add 0) (on_ctr dnsDurationNum (add 1) s) in
  let s := posted_then (postDNSState fd DNS_DURATION (getNetEntry s fd) (u64 size) pathname s)
             (fun s => on_ctr dnsDurationTotal zero_mtc (on_ctr dnsDurationNum zero_mtc s)) in
  on_ctr dnsDurationTotal zero_evt (on_ctr dnsDurationNum zero_evt s).

(** FS_READ, FS_WRITE and FS_DURATION: a number of operations and an amount. *)
Definition update_fs_amount (num amount : fs_ctr) (total : st -> st) (type : metric_t) (fd size : Z)
    (funcop pathname : option string) (s : st) : st :=
  let s := total (on_fs_ctr fd amount (add size) (on_fs_ctr fd num (add 1) s)) in
  posted_then (postFSState fd type (Some (fs_at s fd)) funcop pathname s)
    (fun s => on_fs_ctr fd amount zero_mtc (on_fs_ctr fd num zero_mtc s)).

(** FS_OPEN, FS_CLOSE and FS_SEEK: a number of operations. *)
Definition update_fs_number (num : fs_ctr) (total : ctr) (type : metric_t) (fd : Z) (funcop pathname : option string)
    (s : st) : st :=
  let s := on_ctr total (add 1) (on_fs_ctr fd num (add 1) s) in
  let s := posted_then (postFSState fd type (Some (fs_at s fd)) funcop pathname s) (on_fs_ctr fd num zero_mtc) in
  on_fs_ctr fd num zero_evt s.

(** The errors, and FS_STAT. *)
Definition update_stat_err (is_err : bool) (c : ctr) (type : metric_t) (funcop pathname : option string) (s : st) : st :=
  let s := posted_then (postStatErrState is_err type funcop pathname (on_ctr c (add 1) s)) (on_ctr c zero_mtc) in
  on_ctr c zero_evt s.

Definition doUpdateState (type : metric_t) (fd size : Z) (funcop pathname : option string) (s : st) : st :=
  let net k := match getNetEntry s fd with Some _ => k | None => s end in
  let fs k := if checkFSEntry s fd then k else s in
  match type with
  | OPEN_PORTS => net (update_gauge openPorts type fd size s)
  | NET_CONNECTIONS => net (update_gauge (conn_ctr (n_type (net_at s fd))) type fd size s)
  | CONNECTION_DURATION => net (update_duration fd s)
  | CONNECTION_OPEN => net (update_connection netConnOpen type fd s)
  | CONNECTION_CLOSE => net (update_connection netConnClose type fd s)
  | NETRX => net (update_traffic numRX rxBytes netrxBytes type fd size s)
  | NETTX => net (update_traffic numTX txBytes nettxBytes type fd size s)
  | DNS => update_dns fd size pathname s
  | DNS_DURATION => update_dns_duration fd size pathname s
  | FS_DURATION => fs (update_fs_amount f_numDuration f_totalDuration
                         (fun s => on_ctr fsDurationTotal (add size) (on_ctr fsDurationNum (add 1) s))
                         type fd size funcop pathname s)
  | FS_READ => fs (update_fs_amount f_numRead f_readBytes (on_ctr readBytes (add size)) type fd size funcop pathname s)
  | FS_WRITE => fs (update_fs_amount f_numWrite f_writeBytes (on_ctr writeBytes (add size)) type fd size funcop pathname s)
  | FS_OPEN => fs (update_fs_number f_numOpen numOpen type fd funcop pathname s)
  | FS_CLOSE => fs (update_fs_number f_numClose numClose type fd funcop pathname s)
  | FS_DELETE => snd (postFSState fd type None funcop pathname s)
  | FS_SEEK => fs (update_fs_number f_numSeek numSeek type fd funcop pathname s)
  | NET_ERR_CONN => update_stat_err true netConnectErrors type funcop pathname s
  | NET_ERR_RX_TX => update_stat_err true netTxRxErrors type funcop pathname s
  | FS_ERR_OPEN_CLOSE => update_stat_err true fsOpenCloseErrors type funcop pathname s
  | FS_ERR_READ_WRITE => update_stat_err true fsRdWrErrors type funcop pathname s
  | FS_ERR_STAT => update_stat_err true fsStatErrors type funcop pathname s
  | NET_ERR_DNS => update_stat_err true netDNSErrors type funcop pathname s
  | FS_STAT => update_stat_err false numStat type funcop pathname s
  | _ => s
  end.

(** ** Files: what is suspicious about a path (doDetectFile) *)

Definition S_ISUID : Z := 2048.
Definition S_ISGID : Z := 1024.
Definition S_IWGRP : Z := 16.
Definition S_IWOTH : Z := 2.
Definition S_ISDIR (m : Z) : bool := Z.land m 61440 =? 16384.
Definition has (m bits : Z) : bool := negb (Z.land m bits =? 0).

Definition to_lower (c : Ascii.ascii) : Ascii.ascii :=
  let n := Ascii.nat_of_ascii c in
  if ((65 <=? n) && (n <=? 90))%nat then Ascii.ascii_of_nat (n + 32) else c.
Definition lower (s : string) : string :=
  String.string_of_list_ascii (map to_lower (String.list_ascii_of_string s)).

(** [strcasestr(path, this) != NULL] *)
Definition strcasestr (path this : string) : bool := bool_decide (is_Some (String.index 0 (lower this) (lower path))).

(** [strcasecmp(a, b) == 0] *)
Definition strcaseeq (a b : string) : bool := bool_decide (lower a = lower b).

Definition skip_space (s : string) : string :=
  match s with String c r => if Ascii.eqb c (Ascii.ascii_of_nat 32) then r else s | EmptyString => s end.

Definition isspace (c : Ascii.ascii) : bool :=
  let n := Ascii.nat_of_ascii c in ((n =? 32) || ((9 <=? n) && (n <=? 13)))%nat.

Definition last_is_space (path : string) : bool :=
  match List.hd_error (rev (String.list_ascii_of_string path)) with Some c => isspace c | None => false end.

(** [snprintf(msg, n, ..)] keeps what fits before the terminator. *)
Definition snprintf (n : nat) (text : string) : string := cut (n - 1) text.

Definition report_file (path : string) (msg : string) (s : st) : st :=
  notify NOTIFY_FILES msg (fileSecurity path msg false 0 s).

Definition not_a_file (path : string) : bool :=
  String.prefix path "stdin" || String.prefix path "stdout" || String.prefix path "stderr"
  || String.prefix "/proc" path || String.prefix "/dev" path.

(** The two requests for a buffer, each in turn; the names are looked up in it. *)
Definition check_owners (path : string) (fd : Z) (sbuf : stat_t) (s : st) : st :=
  let '(ok, s) := calloc s in if negb ok then s else
  let known_uid := known_user (f_fuid (fs_at s fd)) in
  let '(ok, s) := calloc s in if negb ok then s else
  let known_gid := known_group (f_fgid (fs_at s fd)) in
  let s := if known_uid then s else
    report_file path (snprintf REASON_MAX ("a file " +:+ path +:+ " that is owned by an unknown user, UID "
      +:+ pretty (i32 (st_uid sbuf)) +:+ ", which represents a potential issue")) s in
  if known_gid then s else
    report_file path (snprintf REASON_MAX ("a file " +:+ path +:+ " that is owned by an unknown group, GID "
      +:+ pretty (i32 (st_gid sbuf)) +:+ ", which represents a potential issue")) s.

Definition doDetectFile (path : string) (fd : Z) (sbuf : stat_t) (s : st) : st :=
  if negb (nt_enable g_notify_def) || negb (nt_files g_notify_def) || not_a_file path then s else
  let named l := existsb (fun this => strcasestr path (skip_space this)) l in
  let s := if named (nt_file_write g_notify_def) then on_fs fd (fun f => setf_enforceWR f true) s else s in
  let s := if named (nt_file_read g_notify_def) then on_fs fd (fun f => setf_enforceRD f true) s else s in
  let s := if last_is_space path then
    report_file path (snprintf REASON_MAX ("spaces at the end of the path name " +:+ path
      +:+ " representing a potential issue")) s else s in
  let mode := f_mode (fs_at s fd) in
  let s := if has mode S_ISUID || has mode S_ISGID then
    report_file path (snprintf REASON_MAX ("path name " +:+ path
      +:+ " contains setuid or setgid bits set representing a potential issue")) s else s in
  let s := if k_access_x path && negb (S_ISDIR (st_mode sbuf)) then on_fs fd (fun f => setf_enforceWR f true) s else s in
  let s := if (has mode S_IWGRP || has mode S_IWOTH)
              && existsb (fun dir => String.prefix dir path) (nt_sys_dirs g_notify_def) then
    report_file path (snprintf REASON_MAX ("a system dir " +:+ path
      +:+ " with a g/a write permission setting which represents a potential issue")) s else s in
  check_owners path fd sbuf s.

(** ** Opening and closing *)

(** [doOpen] from the point where the entry is free. *)
Definition open_entry (fd : Z) (path : string) (type : fs_type_t) (func : option string) (s : st) : st :=
  let '(now, s) := getTime s in
  let s := on_fs fd (fun _ => setf_path (setf_uid (setf_type (setf_active zero_fs true) type) now) (cut PATH_MAX path)) s in
  let '(sbuf, s) :=
    if evtSource CFG_SRC_FS && enhanceFs then
      match k_stat (f_path (fs_at s fd)) with
      | Some b => (b, on_fs fd (fun f => setf_mode (setf_fgid (setf_fuid f (st_uid b)) (st_gid b)) (st_mode b)) s)
      | None => (junk_stat, s)
      end
    else (junk_stat, s) in
  doDetectFile path fd sbuf (doUpdateState FS_OPEN fd 0 func (Some path) s).

(** The entry of a descriptor; the standard streams are opened on first use. *)
Definition getFSEntry (fd : Z) (s : st) : option fs_info * st :=
  if checkFSEntry s fd && f_active (fs_at s fd) then (Some (fs_at s fd), s)
  else if bool_decide (is_Some (g_fsinfo s)) && (0 <=? fd) && (fd <=? 2) then
    let '(name, description) :=
      if fd =? 0 then ("stdin", "console input")
      else if fd =? 1 then ("stdout", "console output") else ("stderr", "console output") in
    let s := open_entry fd name FD (Some description) s in
    (Some (fs_at s fd), s)
  else (None, s).

(** The guard of the http parser is held from the first line to the last;
    [reportFD(fd, EVENT_BASED)] returns at once. *)
Definition doClose (fd : Z) (func : option string) (s : st) : st :=
  let ninfo := getNetEntry s fd in
  let s := match ninfo with
           | Some _ =>
               let s := doUpdateState OPEN_PORTS fd (-1) func None s in
               let s := doUpdateState NET_CONNECTIONS fd (-1) func None s in
               let s := doUpdateState CONNECTION_CLOSE fd (-1) func None s in
               let s := doUpdateState CONNECTION_DURATION fd (-1) func None s in
               on_net fd (fun n => setn_http n (HttpState.resetHttp (n_http n))) s
           | None => s
           end in
  let '(fsinfo, s) := getFSEntry fd s in
  let s := match fsinfo with Some _ => doUpdateState FS_CLOSE fd 0 func None s | None => s end in
  let s := match ninfo with Some _ => on_net fd (fun n => setn_active n false) s | None => s end in
  match fsinfo with Some _ => on_fs fd (fun _ => zero_fs) s | None => s end.

Definition doOpen (fd : Z) (path : string) (type : fs_type_t) (func : option string) (s : st) : st :=
  if fd =? -1 then doUpdateState FS_ERR_OPEN_CLOSE (-1) 0 func (Some path) s
  else if checkFSEntry s fd then
    let s := if f_active (fs_at s fd) then doClose fd func s else s in
    open_entry fd path type func s
  else s.

Definition clear_bits (x mask : Z) : Z := Z.land x (Z.lnot mask).

Definition addSock (fd type family : Z) (s : st) : st :=
  if checkNetEntry s fd then
    let s := if n_active (net_at s fd) then doClose fd (Some "close: DuplicateSocket") s else s in
    let '(now, s) := getTime s in
    on_net fd (fun _ =>
      setn_type (setn_uid (setn_localConn (setn_active zero_net true) (with_family zero_addr family)) now)
        (clear_bits (clear_bits type SOCK_CLOEXEC) SOCK_NONBLOCK)) s
  else s.

Definition setRemoteClose (sd err : Z) (s : st) : st :=
  if (err =? EPIPE) && bool_decide (is_Some (getNetEntry s sd)) then on_net sd (fun n => setn_remoteClose n true) s else s.

Definition getFSContentType (fd : Z) (s : st) : fs_content_type_t * st :=
  let '(fs, s) := getFSEntry fd s in
  (match fs with Some fs => f_content_type fs | None => FS_CONTENT_UNKNOWN end, s).

Definition setFSContentType (fd : Z) (type : fs_content_type_t) (s : st) : st :=
  let '(fs, s) := getFSEntry fd s in
  match fs with Some _ => on_fs fd (fun f => setf_content_type f type) s | None => s end.

(** ** Addresses *)

Definition doUnixEndpoint (sd : Z) (s : st) : st :=
  let '(local, peer) :=
    match k_fstat_sock sd with
    | Some ino => if negb (osUnixSockPeer ino =? -1) then (ino, osUnixSockPeer ino) else (0, 0)
    | None => (0, 0)
    end in
  on_net sd (fun n => setn_rnode (setn_lnode n local) peer) s.

(** [addr] holds the bytes that may be read at the pointer. *)
Definition doSetConnection (sd : Z) (addr : option sockaddr) (len : Z) (endp : control_type_t) (s : st) : ub st :=
  match addr, getNetEntry s sd with
  | Some addr, Some net =>
      if len <=? 0 then Def s else
      let tcp := n_type net =? SOCK_STREAM in
      let opened s := if addrIsNetDomain (n_localConn (net_at s sd))
                      then doUpdateState CONNECTION_OPEN sd 1 None None s else s in
      if decide (endp = LOCAL) then
        if tcp && n_addrSetLocal net then Def s else
        a ← memcpy (Some (n_localConn net)) 0 addr len;
        Def (opened (on_net sd (fun n => let n := setn_localConn n a in if tcp then setn_addrSetLocal n true else n) s))
      else
        if tcp && n_addrSetRemote net then Def s else
        a ← memcpy (Some (n_remoteConn net)) 0 addr len;
        Def (opened (on_net sd (fun n => let n := setn_remoteConn n a in if tcp then setn_addrSetRemote n true else n) s))
  | _, _ => Def s
  end.

Definition set_from (answer : option (sockaddr * Z)) (sd : Z) (endp : control_type_t) (s : st) : ub st :=
  match answer with
  | Some (addr, addrlen) => doSetConnection sd (Some addr) addrlen endp s
  | None => Def s
  end.

Definition doSetAddrs (sockfd : Z) (s : st) : ub st :=
  let need_to_track_addrs :=
    evtSource CFG_SRC_METRIC || evtSource CFG_SRC_NET || evtSource CFG_SRC_HTTP
    || (mtcEnabled && g_mtc_addr_output s) || negb payDisabled in
  if negb need_to_track_addrs then Def s else
  match getNetEntry s sockfd with
  | None => Def s
  | Some net =>
      if addrIsUnixDomain (n_remoteConn net) || addrIsUnixDomain (n_localConn net) then
        if n_addrSetUnix net then Def s else
        let s := on_net sockfd (fun n => setn_addrSetUnix n true) (doUnixEndpoint sockfd s) in
        Def (doUpdateState CONNECTION_OPEN sockfd 1 None None s)
      else if n_type net =? SOCK_STREAM then
        s ← (if negb (n_addrSetLocal net) then set_from (k_getsockname sockfd) sockfd LOCAL s else Def s);
        if negb (n_addrSetRemote (net_at s sockfd)) then set_from (k_getpeername sockfd) sockfd REMOTE s else Def s
      else Def s
  end.

Definition doAddNewSock (sockfd : Z) (s : st) : ub st :=
  s ← match k_getsockname sockfd with
      | Some (addr, addrlen) =>
          let s := if addrIsNetDomain addr || addrIsUnixDomain addr
                   then match k_so_type sockfd with Some type => addSock sockfd type (ss_family addr) s | None => s end
                   else addSock sockfd SOCK_RAW (ss_family addr) s in
          doSetConnection sockfd (Some addr) addrlen LOCAL s
      | None => Def (addSock sockfd SOCK_RAW 0 s)
      end;
  set_from (k_getpeername sockfd) sockfd REMOTE s.

(** ** Duplicates *)

(** The path of [oldfd] is read where it is: when both numbers are the same
    the entry is cleared first. *)
Definition doDupFile (oldfd newfd : Z) (func : option string) (s : st) : Z * st :=
  if negb (checkFSEntry s newfd) || negb (checkFSEntry s oldfd) then (-1, s)
  else (0, doOpen newfd (if oldfd =? newfd then "" else f_path (fs_at s oldfd)) (f_type (fs_at s oldfd)) func s).

Definition dup_net (n : net_info) (now : Z) : net_info :=
  let n := setn_uid (setn_active n true) now in
  let n := setn_cnt n (at_ctr rxBytes (fun _ => zero_elt) (at_ctr txBytes (fun _ => zero_elt)
             (at_ctr numRX (fun _ => zero_elt) (at_ctr numTX (fun _ => zero_elt) (n_cnt n))))) in
  let n := setn_startTime n 0 in
  let n := setn_cnt n (at_ctr numDuration (fun _ => zero_elt) (at_ctr totalDuration (fun _ => zero_elt) (n_cnt n))) in
  setn_http n (HttpState.resetHttp (n_http n)).

Definition doDupSock (oldfd newfd : Z) (s : st) : Z * st :=
  if negb (checkNetEntry s newfd) || negb (checkNetEntry s oldfd) then (-1, s) else
  let '(now, s) := getTime s in
  let s := on_net newfd (fun _ => dup_net (net_at s oldfd) now) s in
  (0, doUpdateState CONNECTION_OPEN newfd 1 (Some "dup") None s).

Definition no_path : option string := Some "nopath".

Definition doDup (fd rc : Z) (func : option string) (copyNet : bool) (s : st) : ub st :=
  let '(fs, s) := getFSEntry fd s in
  let net := getNetEntry s fd in
  if negb (rc =? -1) then
    match net, fs with
    | Some _, _ => if copyNet then Def (doDupSock fd rc s).2 else doAddNewSock rc s
    | None, Some _ => Def (doDupFile fd rc func s).2
    | None, None => Def s
    end
  else Def match fs, net with
           | Some fs, _ => doUpdateState FS_ERR_OPEN_CLOSE fd 0 func (Some (f_path fs)) s
           | None, Some _ => doUpdateState NET_ERR_CONN fd 0 func no_path s
           | None, None => s
           end.

Definition doDup2 (oldfd newfd rc : Z) (func : option string) (s : st) : st :=
  let '(fs, s) := getFSEntry oldfd s in
  let net := getNetEntry s oldfd in
  if negb (rc =? -1) && negb (oldfd =? newfd) then
    match net, fs with
    | Some _, _ =>
        let s := if bool_decide (is_Some (getNetEntry s newfd)) then doClose newfd func s else s in
        (doDupSock oldfd newfd s).2
    | None, Some _ =>
        let '(present, s) := getFSEntry newfd s in
        let s := if bool_decide (is_Some present) then doClose newfd func s else s in
        (doDupFile oldfd newfd func s).2
    | None, None => s
    end
  else match fs, net with
       | Some fs, _ => doUpdateState FS_ERR_OPEN_CLOSE oldfd 0 func (Some (f_path fs)) s
       | None, Some _ => doUpdateState NET_ERR_CONN oldfd 0 func no_path s
       | None, None => s
       end.

(** ** The other file operations *)

Definition doSeek (fd : Z) (success : bool) (func : option string) (s : st) : st :=
  let '(fs, s) := getFSEntry fd s in
  match fs with
  | Some fs => if success then doUpdateState FS_SEEK fd 0 func None s
               else doUpdateState FS_ERR_READ_WRITE fd 0 func (Some (f_path fs)) s
  | None => s
  end.

Definition doStatPath (path : string) (rc : Z) (func : option string) (s : st) : st :=
  if negb (rc =? -1) then doUpdateState FS_STAT (-1) 0 func (Some path) s
  else doUpdateState FS_ERR_STAT (-1) 0 func (Some path) s.

Definition doStatFd (fd rc : Z) (func : option string) (s : st) : st :=
  let '(fs, s) := getFSEntry fd s in
  match fs with
  | Some fs => doUpdateState (if negb (rc =? -1) then FS_STAT else FS_ERR_STAT) fd 0 func (Some (f_path fs)) s
  | None => s
  end.

Definition doDelete (pathname : string) (func : option string) (s : st) : st :=
  doUpdateState FS_DELETE (-1) 0 func (Some pathname) s.

Definition doCloseAndReportFailures (fd : Z) (success : bool) (func : option string) (s : st) : st :=
  if success then doClose fd func s
  else let '(fs, s) := getFSEntry fd s in
       match fs with
       | Some fs => doUpdateState FS_ERR_OPEN_CLOSE fd 0 func (Some (f_path fs)) s
       | None => s
       end.

Definition doCloseAllStreams (s : st) : st :=
  if bool_decide (is_Some (g_fsinfo s)) then
    foldl (fun s i => if f_active (fs_at s i) && bool_decide (f_type (fs_at s i) = STREAM)
                      then doClose i (Some "fcloseall") s else s) s (seqZ 0 FS_ENTRIES)
  else s.

End Data.
End State.
