(* ===== verification/Report.v ===== *)
(** * Reports (src/report.c)

    The reporting thread takes the posted events from the queue ([doEvent]) and
    turns each into metrics and events; periodically it reports the totals of
    the global counters ([doTotal], [doTotalDuration], [doErrorMetric]) and the
    counters of every descriptor ([reportFD]).

    A report function works on an entry through a pointer.  For a posted event
    that is a copy, which is released afterwards; for a periodic report it is
    the entry of the table.  The functions return the entry as they leave it,
    and the callers drop it or put it back.  A product of two ints that does not
    fit is undefined behaviour, and so is reading an array that holds no
    terminator. *)

From S2P Require Import Prelude Types HttpState CfgParse StateData State.

Module Report.
Import StateData State.

#[local] Open Scope Z_scope.

(** ** What is sent *)

Inductive sent_t :=
  | SEvent (e : event_t) (uid : Z)           (* cmdSendEvent *)
  | SMetric (e : event_t)                    (* mtcSendMetric *)
  | SCaptured (e : event_t).                 (* mtcSendMetric of a metric of the process itself *)

Record proc_id_t := mkProcId {
  procname : string; pid : Z; hostname : string; proc_uid : Z; proc_gid : Z; cgroup : option string;
  username : option string; groupname : option string; proc_cmd : option string;
}.

Record rs := mkRs {
  data : st;                                 (* what the data path keeps *)
  sent : list sent_t;
  released : list Z;                         (* httpReqDelete and channelDelete, by uid *)
  http_events : list HttpState.protocol_info; (* passed to doHttp1Header or doHttp2Frame *)
  cpuState : Z;                              (* static of doProcMetric *)
  g_cumulativeEventCount : Z;
}.
Definition set_data (r : rs) (s : st) : rs := mkRs s (sent r) (released r) (http_events r) (cpuState r) (g_cumulativeEventCount r).
Definition set_sent (r : rs) (l : list sent_t) : rs := mkRs (data r) l (released r) (http_events r) (cpuState r) (g_cumulativeEventCount r).
Definition set_released (r : rs) (l : list Z) : rs := mkRs (data r) (sent r) l (http_events r) (cpuState r) (g_cumulativeEventCount r).
Definition set_http_events (r : rs) (l : list HttpState.protocol_info) : rs :=
  mkRs (data r) (sent r) (released r) l (cpuState r) (g_cumulativeEventCount r).
Definition set_cpuState (r : rs) (c : Z) : rs := mkRs (data r) (sent r) (released r) (http_events r) c (g_cumulativeEventCount r).
Definition set_count (r : rs) (c : Z) : rs := mkRs (data r) (sent r) (released r) (http_events r) (cpuState r) c.

Definition on_data (f : st -> st) (r : rs) : rs := set_data r (f (data r)).

(** [a * b] of two ints *)
Definition int_mul (a b : Z) : ub Z :=
  if (- 2 ^ 31 <=? a * b) && (a * b <? 2 ^ 31) then Def (a * b) else UB.

(** A [char x[n]] read as a string. *)
Definition cstr (n : nat) (x : string) : ub string := if (String.length x <? n)%nat then Def x else UB.

Class Proc := g_proc : proc_id_t.

Section Report.
Context `{E : Env} `{P : Proc}.

Definition cmdSendEvent (e : event_t) (uid : Z) (r : rs) : rs := set_sent r (sent r ++ [SEvent e uid]).
Definition cmdSendEventNow (e : event_t) (r : rs) : rs :=
  let '(now, s) := getTime (data r) in cmdSendEvent e now (set_data r s).
Definition cmdSendMetric (e : event_t) (r : rs) : rs :=
  if mtcEnabled then set_sent r (sent r ++ [SMetric e]) else r.
Definition sendEvent (e : event_t) (r : rs) : rs := cmdSendMetric e (cmdSendEventNow e r).

(** ** Fields *)

Definition numfield (n : string) (v c : Z) : event_field_t := NUMFIELD n (i64 v) c true.
Definition strfield (n : string) (v : option string) (c : Z) : event_field_t := STRFIELD n v c true.

Definition DATA_FIELD v := strfield "data" (Some v) 1.
Definition UNIT_FIELD v := strfield "unit" (Some v) 1.
Definition SUMMARY_FIELD v := strfield "summary" (Some v) 1.
Definition CLASS_FIELD v := strfield "class" (Some v) 2.
Definition PROTO_FIELD v := strfield "proto" (Some v) 2.
Definition OP_FIELD v := strfield "op" v 3.
Definition PID_FIELD := numfield "pid" (pid g_proc) 4.
Definition HOST_FIELD := strfield "host" (Some (hostname g_proc)) 4.
Definition PROC_FIELD := strfield "proc" (Some (procname g_proc)) 4.
Definition PROC_UID := numfield "proc_uid" (proc_uid g_proc) 4.
Definition PROC_GID := numfield "proc_gid" (proc_gid g_proc) 4.
Definition PROC_CGROUP := strfield "proc_cgroup" (cgroup g_proc) 4.
Definition DOMAIN_FIELD v := strfield "domain" v 5.
Definition FILE_FIELD v := strfield "file" v 5.
Definition LOCALIP_FIELD v := strfield "localip" (Some v) 6.
Definition REMOTEIP_FIELD v := strfield "remoteip" (Some v) 6.
Definition LOCALP_FIELD v := numfield "localp" v 6.
Definition LOCALN_FIELD v := numfield "localn" v 6.
Definition PORT_FIELD v := numfield "port" v 6.
Definition REMOTEP_FIELD v := numfield "remotep" v 6.
Definition REMOTEN_FIELD v := numfield "remoten" v 6.
Definition FD_FIELD v := numfield "fd" v 7.
Definition DURATION_FIELD v := numfield "duration" v 8.
Definition NUMOPS_FIELD v := numfield "numops" v 8.
Definition DETECT_PROTO v := strfield "protocol" v 8.

Definition int_event (n : string) (v : Z) (t : data_type_t) (f : list event_field_t) : event_t := INT_EVENT n (i64 v) t f.
Definition with_src (e : event_t) (src : Z) : event_t :=
  mkEvent (e_name e) (e_value e) (e_type e) (e_fields e) src (e_capturedFields e).

(** ** Errors *)

Definition err_ctr (type : metric_t) : option (string * ctr * string * Z * (summary_t -> bool)) :=
  match type with
  | NET_ERR_CONN => Some ("net.error", netConnectErrors, "connection", CFG_MTC_NET, net_error)
  | NET_ERR_RX_TX => Some ("net.error", netTxRxErrors, "rx_tx", CFG_MTC_NET, net_error)
  | FS_ERR_OPEN_CLOSE => Some ("fs.error", fsOpenCloseErrors, "open_close", CFG_MTC_FS, fs_error)
  | FS_ERR_READ_WRITE => Some ("fs.error", fsRdWrErrors, "read_write", CFG_MTC_FS, fs_error)
  | FS_ERR_STAT => Some ("fs.error", fsStatErrors, "stat", CFG_MTC_FS, fs_error)
  | NET_ERR_DNS => Some ("net.error", netDNSErrors, "dns", CFG_MTC_FS, net_dnserror)
  | _ => None
  end.

(** The name is a field of the second group only. *)
Definition name_field (type : metric_t) (name : option string) : list event_field_t :=
  match type with
  | NET_ERR_CONN | NET_ERR_RX_TX => []
  | NET_ERR_DNS => [DOMAIN_FIELD name]
  | _ => [FILE_FIELD name]
  end.

Definition is_null (p : option string) : bool := bool_decide (p = None).

(** [ctrs] are the counters of the event, or [None] for the globals. *)
Definition doErrorMetric (type : metric_t) (source : control_type_t) (func name : option string)
    (ctrs : option metric_counters) (r : rs) : rs :=
  let name := if errno =? EFAULT then Some "EFAULT" else name in
  match err_ctr type with
  | None => r
  | Some (metric, c, cls, watch, summarize) =>
      let value := default (g_ctrs (data r)) ctrs c in
      let reset f r := match ctrs with None => on_data (on_ctr c f) r | Some _ => r end in
      let fields := [PROC_FIELD; PID_FIELD; HOST_FIELD; OP_FIELD func] ++ name_field type name
                    ++ [CLASS_FIELD cls; UNIT_FIELD "operation"]
                    ++ (if is_null func && is_null name then [SUMMARY_FIELD "true"] else []) in
      let r := if negb (evt value =? 0)
               then reset zero_evt (cmdSendEventNow (int_event metric (evt value) DELTA fields) r) else r in
      if negb (mtcWatch watch)
         || (summarize (g_summary (data r)) && bool_decide (source = EVENT_BASED))
         || (negb (summarize (g_summary (data r))) && bool_decide (source = PERIODIC))
      then r else
      if mtc value =? 0 then r else
      reset zero_mtc (cmdSendMetric (int_event metric (mtc value) DELTA fields) r)
  end.

Definition doStatMetric (op pathname : option string) (ctrs : option metric_counters) (r : rs) : rs :=
  let value := default (g_ctrs (data r)) ctrs numStat in
  let fields := [PROC_FIELD; PID_FIELD; HOST_FIELD; OP_FIELD op; FILE_FIELD pathname; UNIT_FIELD "operation"] in
  let r := if negb (evt value =? 0) then cmdSendEventNow (int_event "fs.stat" (evt value) DELTA fields) r else r in
  if fs_stat (g_summary (data r)) || negb (mtcWatch CFG_MTC_FS) then r else
  if mtc value =? 0 then r else
  cmdSendMetric (int_event "fs.stat" (mtc value) DELTA fields) r.

(** ** DNS *)

(** The average of a duration counter in the given unit: [at_least] is what a
    nonzero number of operations shows when the average is below one unit. *)
Definition average (num total unit : Z) (at_least : Z) : ub Z :=
  let cachedDurationNum := i32 num in
  if 1 <=? cachedDurationNum then
    div ← int_mul unit cachedDurationNum;
    let dur := total / div in
    Def (if dur =? 0 then at_least else dur)
  else Def 0.

Definition doDNSMetricName (type : metric_t) (net : net_info) (r : rs) : ub rs :=
  if bool_decide (n_dnsName net = "") then Def r else
  let ctrs := n_counters net in
  let duration := n_cnt net totalDuration in
  let quiet r := net_dns (g_summary (data r)) || negb (mtcWatch CFG_MTC_DNS) in
  let head := [PROC_FIELD; PID_FIELD; HOST_FIELD; DOMAIN_FIELD (Some (n_dnsName net))] in
  match type with
  | DNS =>
      let v := ctrs numDNS in
      let r :=
        if negb (evt v =? 0) then
          if 0 <? evt duration then
            let r := cmdSendEventNow (int_event "dns.resp" (evt v) DELTA (head ++ [UNIT_FIELD "response"])) r in
            cmdSendEventNow (with_src (int_event "dns.resp" (evt v) DELTA
              [DOMAIN_FIELD (Some (n_dnsName net)); DURATION_FIELD (evt duration / 1000000)]) CFG_SRC_DNS) r
          else
            let r := cmdSendEventNow (int_event "dns.req" (evt v) DELTA (head ++ [UNIT_FIELD "request"])) r in
            cmdSendEventNow (with_src (int_event "dns.req" (evt v) DELTA
              [DOMAIN_FIELD (Some (n_dnsName net))]) CFG_SRC_DNS) r
        else r in
      if quiet r then Def r else
      if mtc v =? 0 then Def r else
      Def (cmdSendMetric (int_event "dns.req" (mtc v) DELTA
             (head ++ [DURATION_FIELD (mtc duration / 1000000); UNIT_FIELD "request"])) r)
  | DNS_DURATION =>
      let num := add 1 (ctrs dnsDurationNum) in
      let total := mkElt (atomicAddU64 (mtc (ctrs dnsDurationTotal)) (mtc duration))
                         (atomicAddU64 (evt (ctrs dnsDurationTotal)) (evt duration)) in
      dur ← average (evt num) (evt total) 1000000 1;
      let fields n := head ++ [NUMOPS_FIELD (i32 n); UNIT_FIELD "millisecond"] in
      let r := if negb (dur =? 0) then cmdSendEventNow (int_event "dns.duration" dur DELTA_MS (fields (evt num))) r else r in
      if quiet r then Def r else
      dur ← average (mtc num) (mtc total) 1000000 1;
      if dur =? 0 then Def r else
      Def (cmdSendMetric (int_event "dns.duration" dur DELTA_MS (fields (mtc num))) r)
  | _ => Def r
  end.

(** ** Files *)

Definition getFSDuration (fs : fs_info) : ub Z :=
  average (evt (f_cnt fs f_numDuration)) (evt (f_cnt fs f_totalDuration)) 1000 0.

Fixpoint octal_loop (fuel : nat) (dec i oct : Z) : ub Z :=
  match fuel with
  | O => UB
  | S fuel => if dec =? 0 then Def oct else octal_loop fuel (dec / 8) (i * 10) (oct + dec mod 8 * i)
  end.
(** Called with the nine permission bits only: three digits, and the test that
    ends the loop. *)
Definition decimalToOctal (dec : Z) : ub Z := octal_loop 4 dec 1 0.

Definition S_RWXUGO : Z := 511.

(** [strncmp(path, "std", 3)] is not zero *)
Definition not_std (path : string) : bool := negb (String.prefix "std" path).

Definition fs_event_head (fs : fs_info) : ub (list event_field_t) :=
  perms ← decimalToOctal (Z.land (f_mode fs) S_RWXUGO);
  Def [PROC_FIELD; PID_FIELD; HOST_FIELD; FILE_FIELD (Some (f_path fs)); PROC_UID; PROC_GID; PROC_CGROUP;
       numfield "file_perms" perms 5; numfield "file_owner" (f_fuid fs) 5; numfield "file_group" (f_fgid fs) 5].
Definition fs_source (e : event_t) : event_t := with_src e (if evtSource CFG_SRC_FS then CFG_SRC_FS else CFG_SRC_METRIC).

Definition doFSOpenEvent (fs : fs_info) (op : option string) (r : rs) : ub rs :=
  if (2 <? f_fd fs) && not_std (f_path fs) then
    head ← fs_event_head fs;
    Def (cmdSendEvent (fs_source (int_event "fs.open" (evt (f_cnt fs f_numOpen)) DELTA (head ++ [OP_FIELD op]))) (f_uid fs) r)
  else Def r.

Definition doFSCloseEvent (fs : fs_info) (op : option string) (r : rs) : ub rs :=
  if (2 <? f_fd fs) && not_std (f_path fs) then
    dur ← getFSDuration fs;
    head ← fs_event_head fs;
    let c x := evt (f_cnt fs x) in
    Def (cmdSendEvent (fs_source (int_event "fs.close" (c f_numClose) DELTA
      (head ++
       [numfield "file_read_bytes" (c f_readBytes) 5; numfield "file_read_ops" (c f_numRead) 5;
        numfield "file_write_bytes" (c f_writeBytes) 5; numfield "file_write_ops" (c f_numWrite) 5;
        DURATION_FIELD dur; OP_FIELD op]))) (f_uid fs) r)
  else Def r.

Definition fs_head (fs : fs_info) (op : option string) : list event_field_t :=
  [PROC_FIELD; PID_FIELD; FD_FIELD (f_fd fs); HOST_FIELD; OP_FIELD op; FILE_FIELD (Some (f_path fs))].

Definition fs_set (fs : fs_info) (c : fs_ctr) (f : counters_element_t -> counters_element_t) : fs_info :=
  setf_cnt fs (at_ctr c f (f_cnt fs)).

(** Metrics are not reported now. *)
Definition fs_quiet (summarize : bool) (source : control_type_t) : bool :=
  (summarize && bool_decide (source = EVENT_BASED)) || negb (mtcWatch CFG_MTC_FS).

Definition DEFAULT_MIN_DURATION_TIME : Z := 1.

Definition report_fs_duration (fs : fs_info) (source : control_type_t) (op : option string) (r : rs) : ub (fs_info * rs) :=
  let num := f_cnt fs f_numDuration in
  let total := f_cnt fs f_totalDuration in
  let fields n := fs_head fs op ++ [NUMOPS_FIELD (i32 n); UNIT_FIELD "microsecond"] in
  dur ← average (evt num) (evt total) 1000 DEFAULT_MIN_DURATION_TIME;
  let r := if negb (dur =? 0) then cmdSendEvent (int_event "fs.duration" dur HISTOGRAM (fields (evt num))) (f_uid fs) r else r in
  if fs_quiet (fs_read_write (g_summary (data r))) source then Def (fs, r) else
  dur ← average (mtc num) (mtc total) 1000 0;
  if dur =? 0 then Def (fs, r) else
  let r := cmdSendMetric (int_event "fs.duration" dur HISTOGRAM (fields (mtc num))) r in
  Def (fs_set (fs_set fs f_numDuration zero_mtc) f_totalDuration zero_mtc, r).

(** FS_READ and FS_WRITE *)
Definition report_fs_bytes (metric : string) (numops sizebytes : fs_ctr) (global_counter : ctr) (fs : fs_info)
    (source : control_type_t) (op : option string) (r : rs) : fs_info * rs :=
  let bytes := f_cnt fs sizebytes in
  let fields n := fs_head fs op ++ [NUMOPS_FIELD n; UNIT_FIELD "byte"] in
  let r := if negb (evt bytes =? 0)
           then cmdSendEvent (int_event metric (evt bytes) DELTA (fields (evt (f_cnt fs numops)))) (f_uid fs) r else r in
  if fs_quiet (fs_read_write (g_summary (data r))) source then (fs, r) else
  if mtc bytes =? 0 then (fs, r) else
  let r := cmdSendMetric (int_event metric (mtc bytes) DELTA (fields (mtc (f_cnt fs numops)))) r in
  let r := on_data (on_ctr global_counter (sub (mtc bytes))) r in
  (fs_set (fs_set fs numops zero_mtc) sizebytes zero_mtc, r).

(** FS_OPEN, FS_CLOSE and FS_SEEK: [event] sends the event. *)
Definition report_fs_number (metric : string) (numops : fs_ctr) (global_counter : ctr) (summarize : summary_t -> bool)
    (event : list event_field_t -> rs -> ub rs) (fs : fs_info) (source : control_type_t) (op : option string) (r : rs)
  : ub (fs_info * rs) :=
  let num := f_cnt fs numops in
  let fields := fs_head fs op ++ [UNIT_FIELD "operation"] in
  '(fs, r) ← (if negb (evt num =? 0) then r ← event fields r; Def (fs_set fs numops zero_evt, r) else Def (fs, r));
  if fs_quiet (summarize (g_summary (data r))) source then Def (fs, r) else
  if mtc num =? 0 then Def (fs, r) else
  let r := cmdSendMetric (int_event metric (mtc num) DELTA fields) r in
  Def (fs_set fs numops zero_mtc, on_data (on_ctr global_counter (sub (mtc num))) r).

Definition doFSMetric (type : metric_t) (fs : fs_info) (source : control_type_t) (op : option string)
    (pathname : option string) (r : rs) : ub (fs_info * rs) :=
  match type with
  | FS_DURATION => report_fs_duration fs source op r
  | FS_READ => Def (report_fs_bytes "fs.read" f_numRead f_readBytes readBytes fs source op r)
  | FS_WRITE => Def (report_fs_bytes "fs.write" f_numWrite f_writeBytes writeBytes fs source op r)
  | FS_OPEN => report_fs_number "fs.open" f_numOpen numOpen fs_open_close (fun _ r => doFSOpenEvent fs op r) fs source op r
  | FS_CLOSE => report_fs_number "fs.close" f_numClose numClose fs_open_close (fun _ => doFSCloseEvent fs op) fs source op r
  | FS_SEEK => report_fs_number "fs.seek" f_numSeek numSeek fs_seek
                 (fun fields r => Def (cmdSendEvent (int_event "fs.seek" (evt (f_cnt fs f_numSeek)) DELTA fields) (f_uid fs) r))
                 fs source op r
  | FS_DELETE =>
      Def (fs, cmdSendEvent (with_src (int_event "fs.delete" 1 DELTA
             [PROC_FIELD; PID_FIELD; HOST_FIELD; OP_FIELD op; FILE_FIELD pathname; UNIT_FIELD "operation"]) CFG_SRC_FS)
             (f_uid fs) r)
  | _ => Def (fs, r)
  end.

(** ** Totals *)

Definition bucketName (b : sock_summary_bucket_t) : string :=
  match b with
  | INET_TCP => "inet_tcp" | INET_UDP => "inet_udp" | UNIX_TCP => "unix_tcp" | UNIX_UDP => "unix_udp" | SOCK_OTHER => "other"
  end.
Definition buckets : list sock_summary_bucket_t := [INET_TCP; INET_UDP; UNIX_TCP; UNIX_UDP; SOCK_OTHER].

Definition doTotalNetRxTx (type : metric_t) (r : rs) : rs :=
  let each metric value :=
    foldl (fun r bucket =>
      let v := mtc (g_ctrs (data r) (value bucket)) in
      if v =? 0 then r else
      let r := if net_rx_tx (g_summary (data r)) then
                 cmdSendMetric (int_event metric v DELTA
                   [PROC_FIELD; PID_FIELD; HOST_FIELD; UNIT_FIELD "byte"; CLASS_FIELD (bucketName bucket); SUMMARY_FIELD "true"]) r
               else r in
      on_data (on_ctr (value bucket) zero_mtc) r) r buckets in
  match type with
  | TOT_RX => each "net.rx" netrxBytes
  | TOT_TX => each "net.tx" nettxBytes
  | _ => r
  end.

(** Its summary flag, watch, name, counter, unit and whether it is a gauge. *)
Definition total_of (type : metric_t) : option ((summary_t -> bool) * Z * string * ctr * string * bool) :=
  match type with
  | TOT_READ => Some (fs_read_write, CFG_MTC_FS, "fs.read", readBytes, "byte", false)
  | TOT_WRITE => Some (fs_read_write, CFG_MTC_FS, "fs.write", writeBytes, "byte", false)
  | TOT_SEEK => Some (fs_seek, CFG_MTC_FS, "fs.seek", numSeek, "operation", false)
  | TOT_STAT => Some (fs_stat, CFG_MTC_FS, "fs.stat", numStat, "operation", false)
  | TOT_OPEN => Some (fs_open_close, CFG_MTC_FS, "fs.open", numOpen, "operation", false)
  | TOT_CLOSE => Some (fs_open_close, CFG_MTC_FS, "fs.close", numClose, "operation", false)
  | TOT_DNS => Some (net_dns, CFG_MTC_DNS, "dns.req", numDNS, "request", false)
  | TOT_PORTS => Some (net_open_close, CFG_MTC_NET, "net.port", openPorts, "instance", true)
  | TOT_TCP_CONN => Some (net_open_close, CFG_MTC_NET, "net.tcp", netConnectionsTcp, "connection", true)
  | TOT_UDP_CONN => Some (net_open_close, CFG_MTC_NET, "net.udp", netConnectionsUdp, "connection", true)
  | TOT_OTHER_CONN => Some (net_open_close, CFG_MTC_NET, "net.other", netConnectionsOther, "connection", true)
  | TOT_NET_OPEN => Some (net_open_close, CFG_MTC_NET, "net.open", netConnOpen, "connection", false)
  | TOT_NET_CLOSE => Some (net_open_close, CFG_MTC_NET, "net.close", netConnClose, "connection", false)
  | _ => None
  end.

Definition summary_fields (units : string) : list event_field_t :=
  [PROC_FIELD; PID_FIELD; HOST_FIELD; UNIT_FIELD units; SUMMARY_FIELD "true"].

Definition doTotal (type : metric_t) (r : rs) : rs :=
  match type with
  | TOT_RX | TOT_TX =>
      if negb (net_rx_tx (g_summary (data r))) || negb (mtcWatch CFG_MTC_NET) then r else doTotalNetRxTx type r
  | _ =>
      match total_of type with
      | None => r
      | Some (summarize, watch, metric, c, units, gauge) =>
          if negb (summarize (g_summary (data r))) || negb (mtcWatch watch) then r else
          let v := mtc (g_ctrs (data r) c) in
          if v =? 0 then r else
          let r := cmdSendMetric (int_event metric v (if gauge : bool then CURRENT else DELTA) (summary_fields units)) r in
          if gauge then r else on_data (on_ctr c zero_mtc) r
      end
  end.

Definition total_duration_of (type : metric_t)
  : option ((summary_t -> bool) * Z * string * ctr * ctr * data_type_t * string * Z) :=
  match type with
  | TOT_FS_DURATION =>
      Some (fs_open_close, CFG_MTC_FS, "fs.duration", fsDurationTotal, fsDurationNum, HISTOGRAM, "microsecond", 1000)
  | TOT_NET_DURATION =>
      Some (net_open_close, CFG_MTC_NET, "net.duration", connDurationTotal, connDurationNum, DELTA_MS, "millisecond", 1000000)
  | TOT_DNS_DURATION =>
      Some (net_dns, CFG_MTC_DNS, "dns.duration", dnsDurationTotal, dnsDurationNum, DELTA_MS, "millisecond", 1000000)
  | _ => None
  end.

(** The factor is a uint64_t here, so the product does not overflow. *)
Definition doTotalDuration (type : metric_t) (r : rs) : rs :=
  match total_duration_of type with
  | None => r
  | Some (summarize, watch, metric, value, num, ty, units, factor) =>
      if negb (summarize (g_summary (data r))) || negb (mtcWatch watch) then r else
      let cachedDurationNum := i32 (mtc (g_ctrs (data r) num)) in
      let dur := if 1 <=? cachedDurationNum then mtc (g_ctrs (data r) value) / (factor * cachedDurationNum) else 0 in
      if dur =? 0 then r else
      let r := cmdSendMetric (int_event metric dur ty (summary_fields units)) r in
      on_data (on_ctr num zero_mtc) (on_data (on_ctr value zero_mtc) r)
  end.

(** ** Connections *)

Definition getProtocol (type : Z) : string :=
  if type =? SOCK_STREAM then "TCP" else if type =? SOCK_DGRAM then "UDP" else if type =? SOCK_RAW then "RAW"
  else if type =? SOCK_RDM then "RDM" else if type =? SOCK_SEQPACKET then "SEQPACKET" else "OTHER".

(** The address and the port of an internet address. *)
Definition getConn (conn : sockaddr) : option (string * Z) :=
  if addrIsNetDomain conn then (fun a => (a, sin_port conn)) <$> inet_ntop (ss_family conn) conn else None.

Definition h_attrib (name val : string) : event_field_t := strfield name (Some val) 1.
Definition h_value (name : string) (val : Z) : event_field_t := numfield name val 1.

Definition transport_field (domain : string) (type : Z) : list event_field_t :=
  if (1 <=? type) && (type <=? 5) then [h_attrib "net_transport" (domain +:+ "." +:+ getProtocol type)] else [].

Definition conn_fields (ip port : string) (conn : sockaddr) : list event_field_t :=
  match getConn conn with Some (a, p) => [h_attrib ip a; h_value port p] | None => [] end.

(** The fields written to the array, which has room for them; [net] may be NULL. *)
Definition getNetInternals (net : option net_info) (type : Z) (lconn rconn : sockaddr) : list event_field_t :=
  (if addrIsNetDomain lconn then
     transport_field "IP" type
     ++ conn_fields "net_peer_ip" "net_peer_port" rconn
     ++ conn_fields "net_host_ip" "net_host_port" lconn
   else if addrIsUnixDomain lconn then
     transport_field "Unix" type
     ++ match net with
        | Some net => [h_value "unix_peer_inode" (n_rnode net); h_value "unix_local_inode" (n_lnode net)]
        | None => []
        end
   else [])
  ++ match net with
     | Some net => if bool_decide (n_dnsName net = "") then [] else [h_attrib "net_peer_name" (n_dnsName net)]
     | None => []
     end.
Definition net_internals (net : net_info) : list event_field_t :=
  getNetInternals (Some net) (n_type net) (n_localConn net) (n_remoteConn net).

Definition local_port (net : net_info) : Z := get_port_net net (ss_family (n_localConn net)) LOCAL.
Definition remote_port (net : net_info) : Z := get_port_net net (ss_family (n_remoteConn net)) REMOTE.

Definition getNetPtotocol (net : net_info) : list event_field_t :=
  if (local_port net =? 80) || (local_port net =? 443) || (remote_port net =? 80) || (remote_port net =? 443)
  then [h_attrib "net_protocol" "http"] else [].

Definition doNetOpenEvent (net : net_info) (r : rs) : rs :=
  if negb (n_type net =? SOCK_STREAM) then r else
  cmdSendEvent (with_src (int_event "net.open" (evt (g_ctrs (data r) openPorts)) CURRENT
                  (net_internals net ++ getNetPtotocol net)) CFG_SRC_NET) (n_uid net) r.

Definition is_http (net : net_info) : bool :=
  bool_decide (n_protoDetect net = DETECT_TRUE)
  && match n_protoProtoDef net with
     | Some def => match CfgParse.protname def with Some name => strcaseeq name "HTTP" | None => false end
     | None => false
     end.

Definition doNetCloseEvent (net : net_info) (dur : Z) (r : rs) : rs :=
  if negb (n_type net =? SOCK_STREAM) then r else
  cmdSendEvent (with_src (int_event "net.close" (evt (g_ctrs (data r) openPorts)) CURRENT
    (net_internals net
     ++ (if is_http net then [h_attrib "net_protocol" "http"] else [])
     ++ getNetPtotocol net
     ++ [h_value "duration" dur; h_value "net_bytes_sent" (evt (n_cnt net txBytes));
         h_value "net_bytes_recv" (evt (n_cnt net rxBytes));
         h_attrib "net_close_reason" (if n_remoteClose net then "remote" else "local")])) CFG_SRC_NET) (n_uid net) r.

Definition net_quiet (summarize : bool) (source : control_type_t) : bool :=
  (summarize && bool_decide (source = EVENT_BASED)) || negb (mtcWatch CFG_MTC_NET).

Definition net_head (net : net_info) : list event_field_t :=
  [PROC_FIELD; PID_FIELD; FD_FIELD (n_fd net); HOST_FIELD; PROTO_FIELD (getProtocol (n_type net)); PORT_FIELD (local_port net)].

Definition net_set (net : net_info) (c : net_ctr) (f : counters_element_t -> counters_element_t) : net_info :=
  setn_cnt net (at_ctr c f (n_cnt net)).

(** OPEN_PORTS and NET_CONNECTIONS *)
Definition report_gauge (metric : string) (value : counters_element_t) (units : string) (net : net_info)
    (source : control_type_t) (r : rs) : rs :=
  let fields := net_head net ++ [UNIT_FIELD units] in
  let r := cmdSendEvent (int_event metric (evt value) CURRENT fields) (n_uid net) r in
  if net_quiet (net_open_close (g_summary (data r))) source then r else
  cmdSendMetric (int_event metric (mtc value) CURRENT fields) r.

(** CONNECTION_OPEN and CONNECTION_CLOSE, after the event *)
Definition report_connection (metric : string) (c : ctr) (net : net_info) (source : control_type_t) (r : rs)
  : net_info * rs :=
  if net_quiet (net_open_close (g_summary (data r))) source then (net, r) else
  let value := n_counters net c in
  let r := cmdSendMetric (int_event metric (mtc value) DELTA (net_head net ++ [UNIT_FIELD "connection"])) r in
  let r := on_data (on_ctr c (sub (mtc value))) r in
  (setn_counters net (at_ctr c zero_mtc (n_counters net)), r).

Definition report_net_duration (net : net_info) (source : control_type_t) (r : rs) : ub (net_info * rs) :=
  let r := set_released r (released r ++ [n_uid net]) in
  if negb (evtSource CFG_SRC_NET) then Def (net, r) else
  let fields n := net_head net ++ [NUMOPS_FIELD (i32 n); UNIT_FIELD "millisecond"] in
  let num := n_cnt net numDuration in
  let total := n_cnt net totalDuration in
  dur ← average (evt num) (evt total) 1000000 0;
  let '(net, r) :=
    if negb (dur =? 0)
    then (net_set (net_set net numDuration zero_evt) totalDuration zero_evt,
          cmdSendEvent (int_event "net.duration" dur DELTA_MS (fields (evt num))) (n_uid net) r)
    else (net, r) in
  let r := doNetCloseEvent net dur r in
  if net_quiet (net_open_close (g_summary (data r))) source then Def (net, r) else
  dur ← average (mtc num) (mtc total) 1000000 0;
  if dur =? 0 then Def (net, r) else
  let r := cmdSendMetric (int_event "net.duration" dur DELTA_MS (fields (mtc num))) r in
  Def (net_set (net_set net numDuration zero_mtc) totalDuration zero_mtc, r).

Definition address_text (conn : sockaddr) : string :=
  if addrIsNetDomain conn then default " " (inet_ntop (ss_family conn) conn) else " ".

(** The fields of NETRX and NETTX; a port is an in_port_t, also when it holds
    the inode of a local socket. *)
Definition traffic_fields (net : net_info) (numops : Z) : list event_field_t :=
  let lp := local_port net in
  let rp := remote_port net in
  let data := if (lp =? 443) || (rp =? 443) then "ssl" else "clear" in
  if addrIsUnixDomain (n_remoteConn net) || addrIsUnixDomain (n_localConn net) then
    let proto := if ss_family (n_localConn net) =? AF_NETLINK then "NETLINK" else getProtocol (n_type net) in
    [PROC_FIELD; PID_FIELD; FD_FIELD (n_fd net); HOST_FIELD; DOMAIN_FIELD (Some "UNIX"); PROTO_FIELD proto;
     LOCALN_FIELD (n_lnode net mod 2 ^ 16); REMOTEN_FIELD (n_rnode net mod 2 ^ 16); DATA_FIELD data;
     NUMOPS_FIELD numops; UNIT_FIELD "byte"]
  else
    [PROC_FIELD; PID_FIELD; FD_FIELD (n_fd net); HOST_FIELD; DOMAIN_FIELD (Some "AF_INET"); PROTO_FIELD (getProtocol (n_type net));
     LOCALIP_FIELD (address_text (n_localConn net)); LOCALP_FIELD lp;
     REMOTEIP_FIELD (address_text (n_remoteConn net)); REMOTEP_FIELD rp; DATA_FIELD data;
     NUMOPS_FIELD numops; UNIT_FIELD "byte"].

(** NETRX resets its event counters, NETTX does not. *)
Definition report_traffic (metric : string) (num bytes : net_ctr) (total : sock_summary_bucket_t -> ctr) (rx : bool)
    (net : net_info) (source : control_type_t) (r : rs) : net_info * rs :=
  let b := n_cnt net bytes in
  if evt b =? 0 then (net, r) else
  let fields := traffic_fields net (evt (n_cnt net num)) in
  let r := cmdSendEvent (int_event metric (evt b) DELTA fields) (n_uid net) r in
  let net := if rx then net_set (net_set net num zero_evt) bytes zero_evt else net in
  if net_quiet (net_rx_tx (g_summary (data r))) source then (net, r) else
  if mtc b =? 0 then (net, r) else
  let r := cmdSendMetric (int_event metric (mtc b) DELTA fields) r in
  let r := on_data (on_ctr (total (getNetRxTxBucket net)) (sub (mtc b))) r in
  (net_set (net_set net num zero_mtc) bytes zero_mtc, r).

Definition conn_metric (type : Z) : string :=
  if type =? SOCK_STREAM then "net.tcp" else if type =? SOCK_DGRAM then "net.udp" else "net.other".

Definition doNetMetric (type : metric_t) (net : net_info) (source : control_type_t) (r : rs) : ub (net_info * rs) :=
  match type with
  | OPEN_PORTS => Def (net, report_gauge "net.port" (n_counters net openPorts) "instance" net source r)
  | NET_CONNECTIONS =>
      Def (net, report_gauge (conn_metric (n_type net)) (g_ctrs (data r) (conn_ctr (n_type net))) "connection" net source r)
  | CONNECTION_OPEN => Def (report_connection "net.open" netConnOpen net source (doNetOpenEvent net r))
  | CONNECTION_CLOSE => Def (report_connection "net.close" netConnClose net source r)
  | CONNECTION_DURATION => report_net_duration net source r
  | NETRX => Def (report_traffic "net.rx" numRX rxBytes netrxBytes true net source r)
  | NETTX => Def (report_traffic "net.tx" numTX txBytes nettxBytes false net source r)
  | DNS =>
      if negb (n_dnsSend net) then Def (net, r) else
      let net := setn_dnsSend net false in
      r ← doDNSMetricName DNS net r; Def (net, r)
  | _ => Def (net, r)
  end.

(** ** Security, detection *)

Definition sec_tail : list event_field_t := [PROC_FIELD; PID_FIELD; HOST_FIELD; UNIT_FIELD "process"].

Definition doSecurityMetric (sec : security_info) (r : rs) : rs :=
  let some x := negb (bool_decide (x = "")) in
  let reason := STRFIELD "reason" (Some (sec_reason sec)) (Z.of_nat REASON_MAX) true in
  let send name fields := sendEvent (with_src (int_event name 1 CURRENT (fields ++ sec_tail)) CFG_SRC_SEC) r in
  let str n v := strfield n (Some v) 4 in
  if some (sec_path sec) then
    send "sec.file" [str "file" (sec_path sec); reason; numfield "write_bytes" (sec_write_bytes sec) 4]
  else if some (sec_dnsName sec) then send "sec.dns" [str "dns_name" (sec_dnsName sec); reason]
  else if some (sec_dlpi_name sec) then
    send "sec.got" [str "function" (sec_func sec); reason; str "redirected_from" (sec_dlpi_name sec);
                    str "redirected_to" (sec_path sec)]
  else if some (sec_host sec) then
    send "sec.conn" [str "address" (sec_host sec); numfield "port" (sec_port sec) 4; reason]
  else r.

Definition doDetection (protname : option string) (fd uid : Z) (r : rs) : rs :=
  match protname with
  | None => r
  | Some _ =>
      cmdSendEvent (with_src (int_event "net.app" fd SET
        [PROC_FIELD; PID_FIELD; FD_FIELD fd; HOST_FIELD; DETECT_PROTO protname]) CFG_SRC_NET) uid r
  end.

(** ** The queue *)

(** The arrays of a posted event are read as strings. *)
Definition read_event (p : posted) : ub posted :=
  match p with
  | PFs f => _ ← cstr PATH_MAX (f_path f); _ ← cstr FUNC_MAX (f_funcop f); Def p
  | PErr s | PStat s => _ ← cstr PATH_MAX (se_name s); _ ← cstr FUNC_MAX (se_funcop s); Def p
  | PNet n | PDns n => _ ← cstr MAX_HOSTNAME (n_dnsName n); Def p
  | PSec s => _ ← cstr PATH_MAX (sec_path s); _ ← cstr REASON_MAX (sec_reason s);
              _ ← cstr MAX_HOSTNAME (sec_dnsName s); _ ← cstr DLPI_MAX (sec_dlpi_name s); Def p
  | PDetect _ _ _ | PHttp _ => Def p
  end.

Definition report_event (p : posted) (r : rs) : ub rs :=
  p ← read_event p;
  match p with
  | PNet net => '(_, r) ← doNetMetric (n_data_type net) net EVENT_BASED r; Def r
  | PFs fs => '(_, r) ← doFSMetric (f_data_type fs) fs EVENT_BASED (Some (f_funcop fs)) (Some (f_path fs)) r; Def r
  | PErr s => Def (doErrorMetric (se_data_type s) EVENT_BASED (Some (se_funcop s)) (Some (se_name s)) (Some (se_counters s)) r)
  | PStat s => Def (doStatMetric (Some (se_funcop s)) (Some (se_name s)) (Some (se_counters s)) r)
  | PDns net => doDNSMetricName (n_data_type net) net r
  | PDetect protname fd uid => Def (doDetection protname fd uid r)
  | PHttp proto => Def (set_http_events r (http_events r ++ [proto]))
  | PSec sec => Def (doSecurityMetric sec r)
  end.

(** ** Captured metrics (reportAllCapturedMetrics of src/metriccapture.c) *)

Definition typeFromStr (str : string) : data_type_t :=
  if bool_decide (str = "c") then DELTA else if bool_decide (str = "g") then CURRENT
  else if bool_decide (str = "ms") then DELTA_MS else if bool_decide (str = "s") then SET
  else if bool_decide (str = "h") then HISTOGRAM else CURRENT.

(** [strchr]: what is before the character, and what follows it. *)
Fixpoint upto (c : Ascii.ascii) (s : string) : string * option string :=
  match s with
  | EmptyString => (EmptyString, None)
  | String x r => if Ascii.eqb x c then (EmptyString, Some r)
                  else let '(a, b) := upto c r in (String x a, b)
  end.

Definition chr (n : nat) : Ascii.ascii := Ascii.ascii_of_nat n.

(** From the name of a dimension on; the commas become terminators. *)
Fixpoint dims_loop (fuel : nat) (fieldname : string) : ub (list (string * string)) :=
  match fuel with
  | O => UB
  | S fuel =>
      match upto (chr 58) fieldname with
      | (_, None) => Def []
      | (name, Some fieldval) =>
          let '(val, dims) := upto (chr 44) fieldval in
          rest ← match dims with Some r => dims_loop fuel r | None => Def [] end;
          Def ((name, val) :: rest)
      end
  end.

Definition HTTP_MAX_FIELDS : nat := 30.

(** The last of the array's fields marks their end. *)
Definition createFieldsForCapturedMetrics (alldims : option string) : ub (list event_field_t) :=
  match alldims with
  | None => Def []
  | Some EmptyString => UB
  | Some (String c r) =>
      if Ascii.eqb c (chr 35)
      then dims ← dims_loop (S (String.length r)) r;
           Def (take (HTTP_MAX_FIELDS - 1) (map (fun '(n, v) => strfield n (Some v) 0) dims))
      else Def []
  end.

Definition has_char (c : Ascii.ascii) (s : string) : bool := bool_decide (is_Some (snd (upto c s))).

Fixpoint digits (acc : Z) (s : string) : Z :=
  match s with
  | EmptyString => acc
  | String c r =>
      let n := Z.of_nat (Ascii.nat_of_ascii c) in
      if (48 <=? n) && (n <=? 57) then digits (acc * 10 + (n - 48)) r else acc
  end.
Definition starts_digit (s : string) : bool :=
  match s with
  | String c _ => let n := Z.of_nat (Ascii.nat_of_ascii c) in (48 <=? n) && (n <=? 57)
  | EmptyString => false
  end.
Fixpoint skip_spaces (s : string) : string :=
  match s with String c r => if isspace c then skip_spaces r else s | EmptyString => s end.
(** [strtoll(value, &endptr, 10)]: nothing when no digit was read, or on ERANGE. *)
Definition strtoll (s : string) : option Z :=
  let s := skip_spaces s in
  let '(neg, s) := match s with
                   | String c r => if Ascii.eqb c (chr 45) then (true, r) else if Ascii.eqb c (chr 43) then (false, r) else (false, s)
                   | EmptyString => (false, s)
                   end in
  if negb (starts_digit s) then None else
  let v := if neg : bool then - digits 0 s else digits 0 s in
  if (- 2 ^ 63 <=? v) && (v <? 2 ^ 63) then Some v else None.

Definition reportCapturedMetric (metric : captured_metric_t) (r : rs) : ub rs :=
  let '(ok, s) := calloc (data r) in
  let r := set_data r s in
  capturedFields ← (if ok : bool then f ← createFieldsForCapturedMetrics (cap_dims metric); Def (Some f) else Def None);
  let value := if has_char (chr 46) (cap_value metric) || has_char (chr 44) (cap_value metric)
               then FMT_FLT <$> strtod (cap_value metric) else FMT_INT <$> strtoll (cap_value metric) in
  match value with
  | None => Def r
  | Some v =>
      let out_mtc := mkEvent (cap_name metric) v (typeFromStr (cap_type metric))
                       (Some [PROC_FIELD; PID_FIELD; HOST_FIELD]) CFG_SRC_METRIC capturedFields in
      Def (if mtcEnabled then set_sent r (sent r ++ [SCaptured out_mtc]) else r)
  end.

Definition reportAllCapturedMetrics (r : rs) : ub rs :=
  foldl (fun acc m => r ← acc; reportCapturedMetric m r) (Def (on_data (fun s => set_captured s []) r)) (captured (data r)).

(** ** The loop *)

Definition MAX_EVT_COUNT : nat := 500.       (* DEFAULT_MAXEVENTSPERSEC / 20 *)

(** The loop over the queue; [count] events have been taken, and the result says
    whether the loop was left early. *)
Fixpoint event_loop (fuel count : nat) (all : bool) (r : rs) : ub (bool * rs) :=
  match fuel with
  | O => UB
  | S fuel =>
      match events (data r) with
      | [] => Def (false, r)
      | p :: rest =>
          r ← report_event p (on_data (fun s => set_events s rest) r);
          let r := set_count r (u64 (g_cumulativeEventCount r + 1)) in
          if negb all && (MAX_EVT_COUNT <=? count)%nat then Def (true, r)
          else event_loop fuel (S count) all r
      end
  end.

(** Is there somewhere to send to?  The answers are those of ctlNeedsConnection and
    ctlConnect, cfgLogStreamEnable, mtcNeedsConnection and mtcConnect.  The start
    message that follows a connection of the channel (reportProcessStart) is not
    modelled. *)
Definition doConnection (ctl_needs ctl_connects log_stream mtc_needs mtc_connects : bool) : bool :=
  let ready := if ctl_needs then ctl_connects else true in
  if negb log_stream && negb ready then (if mtc_needs then mtc_connects else true) else ready.

(** [ready] is doConnection(), [all] ctlProcessAllQueuedEventsNow(g_ctl).  The expiry
    of the HTTP stores is [HttpReport.expire_stores]; the flushes of the log queue
    and of the channel that end the function are those of [Ctl]. *)
Definition doEvent (ready all : bool) (r : rs) : ub (bool * rs) :=
  if negb ready then Def (false, r) else
  '(early, r) ← event_loop (S (length (events (data r)))) 0 all r;
  r ← reportAllCapturedMetrics r;
  Def (early, r).

(** ** By descriptor *)

Definition report_net_entry (fd : Z) (types : list metric_t) (source : control_type_t) (r : rs) : ub rs :=
  foldl (fun acc type =>
    r ← acc;
    '(net, r) ← doNetMetric type (net_at (data r) fd) source r;
    Def (on_data (on_net fd (fun _ => net)) r)) (Def r) types.

Definition report_fs_entry (fd : Z) (types : list (metric_t * string)) (source : control_type_t) (r : rs) : ub rs :=
  foldl (fun acc '(type, op) =>
    r ← acc;
    '(fs, r) ← doFSMetric type (fs_at (data r) fd) source (Some op) None r;
    Def (on_data (on_fs fd (fun _ => fs)) r)) (Def r) types.

Definition reportFD (fd : Z) (source : control_type_t) (r : rs) : ub rs :=
  if bool_decide (source = EVENT_BASED) then Def r else
  r ← match getNetEntry (data r) fd with
      | Some _ =>
          let r := on_data (on_net fd (fun n => setn_fd n fd)) r in
          r ← (if negb (net_rx_tx (g_summary (data r))) then report_net_entry fd [NETTX; NETRX] source r else Def r);
          if negb (net_open_close (g_summary (data r)))
          then report_net_entry fd [OPEN_PORTS; NET_CONNECTIONS; CONNECTION_CLOSE; CONNECTION_DURATION] source r else Def r
      | None => Def r
      end;
  let '(finfo, s) := getFSEntry fd (data r) in
  let r := set_data r s in
  match finfo with
  | Some _ =>
      let r := on_data (on_fs fd (fun f => setf_fd f fd)) r in
      r ← (if negb (fs_read_write (g_summary (data r)))
           then report_fs_entry fd [(FS_DURATION, "read/write"); (FS_READ, "read"); (FS_WRITE, "write")] source r else Def r);
      if negb (fs_seek (g_summary (data r))) then report_fs_entry fd [(FS_SEEK, "seek")] source r else Def r
  | None => Def r
  end.

Definition reportAllFds (source : control_type_t) (r : rs) : ub rs :=
  foldl (fun acc i => r ← acc; reportFD i source r) (Def r) (seqZ 0 (Z.max NET_ENTRIES FS_ENTRIES)).

(** ** The process *)

(** osGetProcCPU and the like, asked once each *)
Record usage := mkUsage { u_cpu : Z; u_mem : Z; u_threads : Z; u_fds : Z; u_children : Z }.

Definition proc_fields (unit : string) : list event_field_t := [PROC_FIELD; PID_FIELD; HOST_FIELD; UNIT_FIELD unit].

(** [perc] is the division of doubles of the percentage. *)
Definition doProcMetric (interval : Z) (perc : Z -> Z -> Types.double) (u : usage) (type : metric_t) (r : rs) : rs :=
  let gauge v name unit r := if v =? -1 then r else sendEvent (int_event name v CURRENT (proc_fields unit)) r in
  match type with
  | PROC_CPU =>
      if u_cpu u =? -1 then r else
      let measurement := u_cpu u - cpuState r in
      let r := set_cpuState r (u_cpu u) in
      let r := sendEvent (int_event "proc.cpu" measurement DELTA (proc_fields "microsecond")) r in
      if interval =? 0 then r else
      sendEvent (mkEvent "proc.cpu_perc" (FMT_FLT (perc measurement interval)) CURRENT (Some (proc_fields "percent"))
                   CFG_SRC_METRIC None) r
  | PROC_MEM => gauge (u_mem u) "proc.mem" "kibibyte" r
  | PROC_THREAD => gauge (u_threads u) "proc.thread" "thread" r
  | PROC_FD => gauge (u_fds u) "proc.fd" "file" r
  | PROC_CHILD => sendEvent (int_event "proc.child" (Z.max 0 (u_children u)) CURRENT (proc_fields "process")) r
  | _ => r
  end.

(** ** The period (reportPeriodicStuff of src/wrap.c), without the HTTP
    aggregates and the payloads, which have queues of their own *)

Definition totals : list metric_t :=
  [TOT_READ; TOT_WRITE; TOT_RX; TOT_TX; TOT_SEEK; TOT_STAT; TOT_OPEN; TOT_CLOSE; TOT_DNS;
   TOT_PORTS; TOT_TCP_CONN; TOT_UDP_CONN; TOT_OTHER_CONN; TOT_NET_OPEN; TOT_NET_CLOSE].
Definition total_durations : list metric_t := [TOT_FS_DURATION; TOT_NET_DURATION; TOT_DNS_DURATION].
Definition error_types : list metric_t :=
  [NET_ERR_CONN; NET_ERR_RX_TX; NET_ERR_DNS; FS_ERR_OPEN_CLOSE; FS_ERR_READ_WRITE; FS_ERR_STAT].

(** [attached] is g_cfg.funcs_attached.  The function starts with doHttpAgg
    ([HttpReport.doHttpAgg], on a state of its own); sending the payloads and
    flushing the transport of the metrics are left out. *)
Definition reportPeriodicStuff (attached ready : bool) (interval : Z) (perc : Z -> Z -> Types.double) (u : usage) (all : bool) (r : rs) : ub rs :=
  if negb attached then Def r else
  '(_, r) ← doEvent ready all r;
  let r := if mtcWatch CFG_MTC_PROC
           then foldl (fun r t => doProcMetric interval perc u t r) r [PROC_CPU; PROC_MEM; PROC_THREAD; PROC_FD; PROC_CHILD]
           else r in
  let r := foldl (fun r t => doTotal t r) r totals in
  let r := foldl (fun r t => doTotalDuration t r) r total_durations in
  let r := foldl (fun r t => doErrorMetric t PERIODIC None None None r) r error_types in
  reportAllFds PERIODIC r.

End Report.
End Report.
