(* ===== verification/Account.v ===== *)
(** * Accounting: what is counted is reported once

    The data path counts operations and bytes, the reporting thread sends
    metrics.  For each quantity of files and connections the two sides agree: at
    any moment, what has been counted is what has been reported plus what is
    pending, where pending is what the posted events carry when each operation
    is reported, and the global counters when the operations are summarised. *)

From S2P Require Import Prelude Types HttpState CfgParse StateData State Report.

Module Account.
Import StateData State Report.

#[local] Open Scope Z_scope.

(** ** Quantities *)

Inductive quantity := QRead | QWrite | QOpen | QClose | QSeek | QRx | QTx.

Definition q_type (q : quantity) : metric_t :=
  match q with
  | QRead => FS_READ | QWrite => FS_WRITE | QOpen => FS_OPEN | QClose => FS_CLOSE | QSeek => FS_SEEK
  | QRx => NETRX | QTx => NETTX
  end.
Definition q_name (q : quantity) : string :=
  match q with
  | QRead => "fs.read" | QWrite => "fs.write" | QOpen => "fs.open" | QClose => "fs.close" | QSeek => "fs.seek"
  | QRx => "net.rx" | QTx => "net.tx"
  end.
(** Is the quantity summarised? *)
Definition q_flag (q : quantity) (s : summary_t) : bool :=
  match q with
  | QRead | QWrite => fs_read_write s | QOpen | QClose => fs_open_close s | QSeek => fs_seek s
  | QRx | QTx => net_rx_tx s
  end.
Definition q_watch (q : quantity) : Z := match q with QRx | QTx => CFG_MTC_NET | _ => CFG_MTC_FS end.

Definition q_totals (q : quantity) : list ctr :=
  match q with
  | QRead => [readBytes] | QWrite => [writeBytes] | QOpen => [numOpen] | QClose => [numClose] | QSeek => [numSeek]
  | QRx => map netrxBytes buckets | QTx => map nettxBytes buckets
  end.

(** The counter of an entry. *)
Definition of_fs (q : quantity) (f : fs_info) : counters_element_t :=
  match q with
  | QRead => f_cnt f f_readBytes | QWrite => f_cnt f f_writeBytes | QOpen => f_cnt f f_numOpen
  | QClose => f_cnt f f_numClose | QSeek => f_cnt f f_numSeek | QRx | QTx => zero_elt
  end.
Definition of_net (q : quantity) (n : net_info) : counters_element_t :=
  match q with QRx => n_cnt n rxBytes | QTx => n_cnt n txBytes | _ => zero_elt end.

(** What a posted event carries to the reporting thread. *)
Definition carried (q : quantity) (p : posted) : Z :=
  match p with
  | PFs f => if decide (f_data_type f = q_type q) then mtc (of_fs q f) else 0
  | PNet n => if decide (n_data_type n = q_type q) then mtc (of_net q n) else 0
  | _ => 0
  end.

Definition sumZ (l : list Z) : Z := foldr Z.add 0 l.

Definition tot (q : quantity) (s : st) : Z := sumZ (map (fun c => mtc (g_ctrs s c)) (q_totals q)).
Definition que (q : quantity) (s : st) : Z := sumZ (map (carried q) (events s)) + sumZ (map (carried q) (dropped s)).

Definition pending (q : quantity) (s : st) : Z := if q_flag q (g_summary s) then tot q s else que q s.

(** The metrics sent under the name of the quantity. *)
Definition value_of (e : event_t) : Z := match e_value e with FMT_INT v => v | _ => 0 end.
Definition sent_amount (q : quantity) (m : sent_t) : Z :=
  match m with SMetric e => if decide (e_name e = q_name q) then value_of e else 0 | SEvent _ _ | SCaptured _ => 0 end.
Definition reported (q : quantity) (r : rs) : Z := sumZ (map (sent_amount q) (sent r)).

(** ** Sums *)

Lemma sumZ_app l k : sumZ (l ++ k) = sumZ l + sumZ k.
Proof. induction l as [|x l IH]; simpl; lia. Qed.

Lemma sumZ_nonneg l : Forall (fun x => 0 <= x) l -> 0 <= sumZ l.
Proof. induction 1; simpl; lia. Qed.

(** ** Steps that leave a quantity alone *)

(** A connection's event that the reporting thread does not skip. *)
Definition shown (q : quantity) (p : posted) : Prop :=
  0 <= carried q p /\
  match p with
  | PNet n => n_data_type n = q_type q -> evt (of_net q n) = 0 -> mtc (of_net q n) = 0
  | _ => True
  end.

(** An event of another kind. *)
Definition idle (q : quantity) (p : posted) : Prop :=
  match p with PFs f => f_data_type f <> q_type q | PNet n => n_data_type n <> q_type q | _ => True end.

Lemma idle_carried q p : idle q p -> carried q p = 0.
Proof. destruct p; simpl; try done; intros; by rewrite decide_False. Qed.
Lemma idle_shown q p : idle q p -> shown q p.
Proof. intros H. split; [by rewrite idle_carried|]. destruct p; try done. Qed.

Record same (q : quantity) (s s' : st) : Prop := mkSame {
  same_ctrs : forall c, c ∈ q_totals q -> g_ctrs s' c = g_ctrs s c;
  same_que : que q s' = que q s;
  same_shown : Forall (shown q) (events s ++ dropped s) -> Forall (shown q) (events s' ++ dropped s');
  same_fs : forall fd, of_fs q (fs_at s' fd) = of_fs q (fs_at s fd);
  same_net : forall fd, of_net q (net_at s' fd) = of_net q (net_at s fd);
  same_summary : g_summary s' = g_summary s;
  same_allocs : allocs s = [] -> allocs s' = [];
}.

#[export] Instance same_refl q : Reflexive (same q).
Proof. by constructor. Qed.
#[export] Instance same_trans q : Transitive (same q).
Proof.
  intros s1 s2 s3 [H1 H2 H3 H4 H5 H6 H7] [K1 K2 K3 K4 K5 K6 K7]. constructor; intros; try congruence; auto.
  by rewrite K1, H1.
Qed.

Lemma same_tot q s s' : same q s s' -> tot q s' = tot q s.
Proof.
  intros H. unfold tot. f_equal. apply list_fmap_ext. intros i c Hc. simpl.
  by rewrite (same_ctrs _ _ _ H) by (by eapply list_elem_of_lookup_2).
Qed.

(** The counter of an entry that a quantity is about. *)
Definition q_fs_ctr (q : quantity) : option fs_ctr :=
  match q with
  | QRead => Some f_readBytes | QWrite => Some f_writeBytes | QOpen => Some f_numOpen | QClose => Some f_numClose
  | QSeek => Some f_numSeek | QRx | QTx => None
  end.
Definition q_net_ctr (q : quantity) : option net_ctr :=
  match q with QRx => Some rxBytes | QTx => Some txBytes | _ => None end.

Lemma of_fs_ctr q f : of_fs q f = match q_fs_ctr q with Some c => f_cnt f c | None => zero_elt end.
Proof. by destruct q. Qed.
Lemma of_net_ctr q n : of_net q n = match q_net_ctr q with Some c => n_cnt n c | None => zero_elt end.
Proof. by destruct q. Qed.

Lemma fs_at_on_fs fd f s fd' :
  fs_at (on_fs fd f s) fd' = if decide (is_Some (g_fsinfo s) /\ fd = fd') then f (fs_at s fd) else fs_at s fd'.
Proof.
  unfold fs_at, on_fs. case_decide as H.
  - destruct H as [[t Ht] <-]. rewrite Ht. cbn. by rewrite fn_lookup_insert.
  - destruct (g_fsinfo s) as [t|] eqn:Ht; cbn; [|by rewrite Ht].
    rewrite fn_lookup_insert_ne; [done|]. intros ->. apply H. eauto.
Qed.

Lemma net_at_on_net fd f s fd' :
  net_at (on_net fd f s) fd' = if decide (is_Some (g_netinfo s) /\ fd = fd') then f (net_at s fd) else net_at s fd'.
Proof.
  unfold net_at, on_net. case_decide as H.
  - destruct H as [[t Ht] <-]. rewrite Ht. cbn. by rewrite fn_lookup_insert.
  - destruct (g_netinfo s) as [t|] eqn:Ht; cbn; [|by rewrite Ht].
    rewrite fn_lookup_insert_ne; [done|]. intros ->. apply H. eauto.
Qed.

Lemma on_fs_rest {A} (g : st -> A) fd f s : (forall s t, g (set_g_fsinfo s t) = g s) -> g (on_fs fd f s) = g s.
Proof. intros Hg. unfold on_fs. destruct (g_fsinfo s); [apply Hg|done]. Qed.
Lemma on_net_rest {A} (g : st -> A) fd f s : (forall s t, g (set_g_netinfo s t) = g s) -> g (on_net fd f s) = g s.
Proof. intros Hg. unfold on_net. destruct (g_netinfo s); [apply Hg|done]. Qed.

Lemma same_on_fs q fd f s : (forall x, of_fs q (f x) = of_fs q x) -> same q s (on_fs fd f s).
Proof.
  intros Hf. constructor; try (by apply on_fs_rest); try (intros; by rewrite (on_fs_rest allocs)).
  - intros c _. by rewrite (on_fs_rest g_ctrs).
  - by rewrite (on_fs_rest events), (on_fs_rest dropped).
  - intros fd'. rewrite fs_at_on_fs. case_decide as H; [|done]. destruct H as [_ <-]. apply Hf.
  - intros fd'. by rewrite (on_fs_rest (fun s => of_net q (net_at s fd'))).
Qed.
Lemma same_on_net q fd f s : (forall x, of_net q (f x) = of_net q x) -> same q s (on_net fd f s).
Proof.
  intros Hf. constructor; try (by apply on_net_rest); try (intros; by rewrite (on_net_rest allocs)).
  - intros c _. by rewrite (on_net_rest g_ctrs).
  - by rewrite (on_net_rest events), (on_net_rest dropped).
  - intros fd'. by rewrite (on_net_rest (fun s => of_fs q (fs_at s fd'))).
  - intros fd'. rewrite net_at_on_net. case_decide as H; [|done]. destruct H as [_ <-]. apply Hf.
Qed.

Lemma same_fs_ctr q fd c f s : q_fs_ctr q <> Some c -> same q s (on_fs_ctr fd c f s).
Proof.
  intros Hc. apply same_on_fs. intros x. rewrite !of_fs_ctr. destruct (q_fs_ctr q) as [k|]; [|done].
  simpl. unfold at_ctr. rewrite fn_lookup_insert_ne; congruence.
Qed.
Lemma same_net_ctr q fd c f s : q_net_ctr q <> Some c -> same q s (on_net_ctr fd c f s).
Proof.
  intros Hc. apply same_on_net. intros x. rewrite !of_net_ctr. destruct (q_net_ctr q) as [k|]; [|done].
  simpl. unfold at_ctr. rewrite fn_lookup_insert_ne; congruence.
Qed.
Lemma same_net_counter q fd c f s : same q s (on_net_counter fd c f s).
Proof. by apply same_on_net; destruct q. Qed.

Lemma same_ctr q c f s : c ∉ q_totals q -> same q s (on_ctr c f s).
Proof.
  intros Hc. constructor; try done. intros d Hd. simpl. unfold at_ctr.
  rewrite fn_lookup_insert_ne; [done|]. by intros ->.
Qed.

Lemma same_ticks q s n : same q s (set_ticks s n).
Proof. by constructor. Qed.

Section Frame.
Context `{E : Env}.

Lemma que_post q p s : que q (cmdPostEvent p s) = que q s + carried q p.
Proof.
  unfold que, cmdPostEvent. destruct (_ <? _)%nat; simpl; rewrite map_app, sumZ_app; simpl; lia.
Qed.

Lemma cmdPost_rest {A} (g : st -> A) p s : (forall s l, g (set_events s l) = g s) -> (forall s l, g (set_dropped s l) = g s) ->
  g (cmdPostEvent p s) = g s.
Proof. intros H1 H2. unfold cmdPostEvent. destruct (_ <? _)%nat; [apply H1|apply H2]. Qed.

Lemma shown_post q p s : shown q p -> Forall (shown q) (events s ++ dropped s) ->
  Forall (shown q) (events (cmdPostEvent p s) ++ dropped (cmdPostEvent p s)).
Proof.
  intros Hp. rewrite !Forall_app. intros [H1 H2]. unfold cmdPostEvent. destruct (_ <? _)%nat; simpl; rewrite Forall_app; auto.
Qed.

Lemma same_cmdPost q p s : idle q p -> same q s (cmdPostEvent p s).
Proof.
  intros Hp. constructor; try (intros; by apply cmdPost_rest).
  - intros c _. by rewrite (cmdPost_rest g_ctrs).
  - rewrite que_post, idle_carried by done. lia.
  - by apply shown_post, idle_shown.
  - intros fd. by rewrite (cmdPost_rest (fun s => of_fs q (fs_at s fd))).
  - intros fd. by rewrite (cmdPost_rest (fun s => of_net q (net_at s fd))).
  - intros Ha. by rewrite (cmdPost_rest allocs).
Qed.

Lemma same_calloc q s : same q s (calloc s).2.
Proof. constructor; try done. simpl. by intros ->. Qed.

Lemma same_post q need rep ev s : (forall s, idle q (ev s)) -> same q s (post need rep ev s).2.
Proof.
  intros Hp. unfold post. destruct (negb need); [done|].
  pose proof (same_calloc q s) as Hc. destruct (calloc s) as [ok s1]. simpl in Hc.
  destruct (negb ok); [done|]. simpl. etrans; [exact Hc|]. by apply same_cmdPost.
Qed.

Lemma same_then q s r f : same q s r.2 -> (forall s, same q s (f s)) -> same q s (posted_then r f).
Proof. intros Hr Hf. destruct r as [[] s']; [|done]. simpl in *. by etrans. Qed.

Lemma same_time q s : same q s (getTime s).2.
Proof. apply same_ticks. Qed.
Lemma same_duration q t s : same q s (getDuration t s).2.
Proof. unfold getDuration. destruct (time_freq =? 0); [done|]. apply same_ticks. Qed.

Lemma f_data_type_event fd type fs f p : f_data_type (fs_event fd type fs f p) = type.
Proof. unfold fs_event. destruct p, f; repeat case_bool_decide; done. Qed.

Lemma same_postNet q fd type s : type <> q_type q -> same q s (postNetState fd type s).2.
Proof. intros Ht. by apply same_post. Qed.
Lemma same_postFS q fd type fs f p s : type <> q_type q -> same q s (postFSState fd type fs f p s).2.
Proof. intros Ht. apply same_post. intros s'. cbn [idle]. by rewrite f_data_type_event. Qed.
Lemma same_postDNS q fd type n d p s : same q s (postDNSState fd type n d p s).2.
Proof. by apply same_post. Qed.
Lemma same_postErr q e type f p s : same q s (postStatErrState e type f p s).2.
Proof. unfold postStatErrState. destruct (_ && _); [done|]. apply same_post. intros s'. by destruct e. Qed.

End Frame.

(** Follow a composition of steps from its end to its start. *)
Ltac frame_step :=
  match goal with
  | |- same _ ?s ?s => reflexivity
  | |- same _ _ (on_ctr _ _ _) => etrans; [|apply same_ctr]
  | |- same _ _ (on_fs_ctr _ _ _ _) => etrans; [|apply same_fs_ctr]
  | |- same _ _ (on_net_ctr _ _ _ _) => etrans; [|apply same_net_ctr]
  | |- same _ _ (on_net_counter _ _ _ _) => etrans; [|apply same_net_counter]
  | |- same _ _ (posted_then _ _) => apply same_then; [|intros ?]
  | |- same _ _ (postNetState _ _ _).2 => etrans; [|apply same_postNet]
  | |- same _ _ (postFSState _ _ _ _ _ _).2 => etrans; [|apply same_postFS]
  | |- same _ _ (postDNSState _ _ _ _ _ _).2 => etrans; [|apply same_postDNS]
  | |- same _ _ (postStatErrState _ _ _ _ _).2 => etrans; [|apply same_postErr]
  end.
Ltac frame := cbn zeta; repeat frame_step.

Section Updates.
Context `{E : Env}.

Lemma same_gauge q c type fd size s : c ∉ q_totals q -> type <> q_type q -> same q s (update_gauge c type fd size s).
Proof.
  intros Hc Ht. unfold update_gauge. set (s1 := if size <? 0 then _ else _).
  assert (same q s s1) as H1 by (subst s1; repeat case_match; frame; done).
  frame; [|done]. etrans; [exact H1|]. destruct (_ && _); [|done].
  pose proof (same_time q s1) as Hg. destruct (getTime s1) as [now s2]. simpl in Hg.
  etrans; [exact Hg|]. by apply same_on_net; destruct q.
Qed.

Lemma same_update_duration q fd s : same q s (update_duration fd s).
Proof.
  unfold update_duration. set (r := if negb _ then _ else (0, s)).
  assert (same q s r.2) as H1.
  { subst r. destruct (negb _); [|done].
    pose proof (same_duration q (n_startTime (net_at s fd)) s) as Hg.
    destruct (getDuration _ _) as [d s2]. simpl in Hg |- *. etrans; [exact Hg|]. by apply same_on_net; destruct q. }
  destruct r as [d s1]. simpl in H1. cbn zeta. set (s2 := if negb (d =? 0) then _ else s1).
  assert (same q s s2) as H2.
  { subst s2. destruct (negb _); [|done]. frame; try exact H1; destruct q; set_solver. }
  frame; [|by destruct q..]. destruct (_ || _); [|exact H2].
  frame; try exact H2; by destruct q.
Qed.

Lemma same_update_connection q c type fd s : c ∉ q_totals q -> type <> q_type q ->
  same q s (update_connection c type fd s).
Proof. intros. unfold update_connection. frame. destruct (_ && _); [|done]. by frame. Qed.

Lemma same_update_traffic q num bytes total type fd size s : type <> q_type q ->
  q_net_ctr q <> Some num -> q_net_ctr q <> Some bytes -> (forall b, total b ∉ q_totals q) ->
  same q s (update_traffic num bytes total type fd size s).
Proof. intros. unfold update_traffic. by frame. Qed.

Lemma same_update_dns q fd size p s : same q s (update_dns fd size p s).
Proof.
  unfold update_dns. set (s1 := if 0 <? size then _ else _).
  assert (same q s s1) as H1 by (subst s1; destruct (0 <? size); frame; destruct q; set_solver).
  pose proof (same_postDNS q fd DNS (getNetEntry s1 fd) (u64 size) p s1) as H2.
  destruct (postDNSState _ _ _ _ _ _) as [rc s2]. simpl in H2.
  frame; [|destruct q; set_solver]. destruct (_ && _); [frame; [|destruct q; set_solver]|]; by etrans.
Qed.

Lemma same_update_dns_duration q fd size p s : same q s (update_dns_duration fd size p s).
Proof. unfold update_dns_duration. frame; destruct q; set_solver. Qed.

Lemma same_update_fs_amount q num amount total type fd size f p s : type <> q_type q ->
  q_fs_ctr q <> Some num -> q_fs_ctr q <> Some amount -> (forall s, same q s (total s)) ->
  same q s (update_fs_amount num amount total type fd size f p s).
Proof. intros Ht Hn Ha Htot. unfold update_fs_amount. frame; try done. etrans; [|apply Htot]. by frame. Qed.

Lemma same_update_fs_number q num total type fd f p s : type <> q_type q ->
  q_fs_ctr q <> Some num -> total ∉ q_totals q -> same q s (update_fs_number num total type fd f p s).
Proof. intros. unfold update_fs_number. by frame. Qed.

Lemma same_update_stat_err q e c type f p s : c ∉ q_totals q -> same q s (update_stat_err e c type f p s).
Proof. intros. unfold update_stat_err. by frame. Qed.

Ltac other := match goal with q : quantity |- _ => destruct q; simpl in *; try done; try set_solver end.

(** An update of another kind leaves the quantity alone. *)
Lemma same_update q type fd size f p s : type <> q_type q -> same q s (doUpdateState type fd size f p s).
Proof.
  intros Ht. unfold doUpdateState.
  destruct type; try done;
    try (destruct (getNetEntry s fd); [|done]); try (destruct (checkFSEntry s fd); [|done]).
  - apply same_gauge; [other|done].
  - apply same_gauge; [|done]. unfold conn_ctr. repeat case_match; other.
  - apply same_update_connection; [other|done].
  - apply same_update_connection; [other|done].
  - apply same_update_duration.
  - apply same_update_traffic; other.
  - apply same_update_traffic; other.
  - apply same_update_dns.
  - apply same_update_dns_duration.
  - apply same_update_fs_amount; [done|other|other|]; intros; frame; other.
  - apply same_update_fs_amount; [done|other|other|]; intros; frame; other.
  - apply same_update_fs_amount; [done|other|other|]; intros; frame; other.
  - apply same_update_fs_number; [done|other..].
  - apply same_update_fs_number; [done|other..].
  - by apply same_postFS.
  - apply same_update_fs_number; [done|other..].
  - apply same_update_stat_err; other.
  - apply same_update_stat_err; other.
  - apply same_update_stat_err; other.
  - apply same_update_stat_err; other.
  - apply same_update_stat_err; other.
  - apply same_update_stat_err; other.
  - apply same_update_stat_err; other.
Qed.

End Updates.

(** ** Ranges *)

Definition fine (v : counters_element_t) : Prop := 0 <= mtc v < 2 ^ 64 /\ 0 <= evt v < 2 ^ 64.

Lemma atomic_add a x : 0 <= a < 2 ^ 64 -> 0 <= x < 2 ^ 64 -> atomicAddU64 a x = Z.min (a + x) UINT64_MAX.
Proof.
  intros Ha Hx. unfold atomicAddU64, UINT64_MAX in *.
  destruct (Z.lt_ge_cases (a + x) (2 ^ 64)).
  - rewrite u64_small, (proj2 (Z.ltb_ge _ _)) by lia. lia.
  - replace (u64 (a + x)) with (a + x - 2 ^ 64).
    + rewrite (proj2 (Z.ltb_lt _ _)) by lia. lia.
    + apply (Z.mod_unique _ _ 1); lia.
Qed.

Lemma fine_add v x : fine v -> fine (add x v).
Proof.
  intros [H1 H2]. pose proof (u64_range x). unfold fine, add, addToInterfaceCounts, UINT64_MAX in *. cbn [mtc evt].
  rewrite !atomic_add by done. unfold UINT64_MAX. lia.
Qed.
Lemma fine_sub v x : fine v -> fine (sub x v).
Proof.
  intros [H1 H2]. pose proof (u64_range x). unfold fine, sub, subFromInterfaceCounts, atomicSubU64. cbn [mtc evt].
  destruct (Z.ltb_spec (mtc v) (u64 x)), (Z.ltb_spec (evt v) (u64 x)); lia.
Qed.
Lemma fine_zero_mtc v : fine v -> fine (zero_mtc v).
Proof. unfold fine. simpl. lia. Qed.
Lemma fine_zero_evt v : fine v -> fine (zero_evt v).
Proof. unfold fine. simpl. lia. Qed.
Lemma fine_zero : fine zero_elt.
Proof. unfold fine. simpl. lia. Qed.
#[local] Hint Resolve fine_add fine_sub fine_zero_mtc fine_zero_evt fine_zero : appview.

Lemma mtc_add v x : fine v -> 0 <= x -> mtc v + x < 2 ^ 64 -> mtc (add x v) = mtc v + x.
Proof.
  intros [H1 _] Hx Hs. unfold add, addToInterfaceCounts. cbn [mtc]. rewrite u64_small by lia.
  rewrite atomic_add by lia. unfold UINT64_MAX. lia.
Qed.
Lemma evt_add v x : fine v -> 0 <= x < 2 ^ 64 -> evt (add x v) = 0 -> x = 0.
Proof.
  intros [_ H1] Hx. unfold add, addToInterfaceCounts. cbn [evt]. rewrite u64_small by lia.
  rewrite atomic_add by lia. unfold UINT64_MAX. lia.
Qed.

(** ** What holds between steps *)

(** The counter that the table holds for a descriptor. *)
Definition ent (q : quantity) (s : st) (fd : Z) : counters_element_t :=
  match q with QRx | QTx => of_net q (net_at s fd) | _ => of_fs q (fs_at s fd) end.

Record inv (q : quantity) (s : st) : Prop := mkInv {
  inv_allocs : allocs s = [];
  inv_ent : forall fd, fine (ent q s fd);
  inv_detail : q_flag q (g_summary s) = false -> forall fd, mtc (ent q s fd) = 0;
  inv_posted : q_flag q (g_summary s) = false -> Forall (shown q) (events s ++ dropped s);
  inv_ctrs : forall c, c ∈ q_totals q -> fine (g_ctrs s c);
}.

Lemma tot_nonneg q s : inv q s -> 0 <= tot q s.
Proof.
  intros I. apply sumZ_nonneg, Forall_forall. intros x [c [<- Hc%list_elem_of_In]]%in_map_iff.
  apply (inv_ctrs _ _ I c Hc).
Qed.

Lemma que_nonneg q s : inv q s -> q_flag q (g_summary s) = false -> 0 <= que q s.
Proof.
  intros I Hf. unfold que. rewrite <- sumZ_app, <- map_app. apply sumZ_nonneg, Forall_map.
  refine (Forall_impl _ _ (inv_posted _ _ I Hf)). by intros p [H _].
Qed.

Lemma q_totals_NoDup q : NoDup (q_totals q).
Proof. apply (bool_decide_unpack _). by destruct q; vm_compute. Qed.

Lemma sum_update (l : list ctr) c (g g' : ctr -> Z) : NoDup l -> c ∈ l -> (forall d, d <> c -> g' d = g d) ->
  sumZ (map g' l) = sumZ (map g l) - g c + g' c.
Proof.
  intros Hl Hc Hg. induction Hl as [|x l Hx Hl IH]; [set_solver|]. simpl.
  apply elem_of_cons in Hc as [<-|Hc].
  - enough (sumZ (map g' l) = sumZ (map g l)) by lia. f_equal. apply list_fmap_ext. intros i y Hy. apply Hg.
    intros ->. apply Hx. by eapply list_elem_of_lookup_2.
  - rewrite IH, (Hg x); [lia| |done]. intros ->. done.
Qed.

Lemma tot_on_ctr q c f s : c ∈ q_totals q -> tot q (on_ctr c f s) = tot q s - mtc (g_ctrs s c) + mtc (f (g_ctrs s c)).
Proof.
  intros Hc. unfold tot. rewrite (sum_update _ c (fun d => mtc (g_ctrs s d))); [|apply q_totals_NoDup|done|].
  - simpl. unfold at_ctr. by rewrite fn_lookup_insert.
  - intros d Hd. simpl. unfold at_ctr. by rewrite fn_lookup_insert_ne by done.
Qed.

Lemma tot_part q c s : inv q s -> c ∈ q_totals q -> mtc (g_ctrs s c) <= tot q s.
Proof.
  intros I Hc. assert (0 <= tot q (on_ctr c (fun _ => zero_elt) s)) as H.
  { apply sumZ_nonneg, Forall_forall. intros x [d [<- Hd%list_elem_of_In]]%in_map_iff. simpl. unfold at_ctr.
    destruct (decide (d = c)) as [->|Hne]; [by rewrite fn_lookup_insert|].
    rewrite fn_lookup_insert_ne by done. apply (inv_ctrs _ _ I d Hd). }
  rewrite tot_on_ctr in H by done. simpl in H. lia.
Qed.

Lemma same_ent q s s' fd : same q s s' -> ent q s' fd = ent q s fd.
Proof. intros []. unfold ent. destruct q; auto. Qed.

Lemma same_inv q s s' : same q s s' -> inv q s -> inv q s'.
Proof.
  intros H [I1 I2 I3 I4 I5]. constructor.
  - by apply (same_allocs _ _ _ H).
  - intros fd. rewrite (same_ent _ _ _ _ H). auto.
  - rewrite (same_summary _ _ _ H). intros Hf fd. rewrite (same_ent _ _ _ _ H). auto.
  - rewrite (same_summary _ _ _ H). intros Hf. by apply (same_shown _ _ _ H), I4.
  - intros c Hc. rewrite (same_ctrs _ _ _ H) by done. auto.
Qed.

Lemma same_pending q s s' : same q s s' -> pending q s' = pending q s.
Proof. intros H. unfold pending. by rewrite (same_summary _ _ _ H), (same_tot _ _ _ H), (same_que _ _ _ H). Qed.

(** A step that changes one entry only. *)
Record touched (q : quantity) (fd : Z) (g : counters_element_t -> counters_element_t) (s s' : st) : Prop := mkTouched {
  touched_ctrs : forall c, c ∈ q_totals q -> g_ctrs s' c = g_ctrs s c;
  touched_que : que q s' = que q s;
  touched_shown : Forall (shown q) (events s ++ dropped s) -> Forall (shown q) (events s' ++ dropped s');
  touched_ent : forall fd', ent q s' fd' = if decide (fd' = fd) then g (ent q s fd) else ent q s fd';
  touched_summary : g_summary s' = g_summary s;
  touched_allocs : allocs s = [] -> allocs s' = [];
}.

Lemma touched_after q fd g s s1 s2 : touched q fd g s s1 -> same q s1 s2 -> touched q fd g s s2.
Proof.
  intros [T1 T2 T3 T4 T5 T6] H. pose proof H as [H1 H2 H3 _ _ H6 H7].
  constructor; [intros; by rewrite H1, T1|congruence|auto| |congruence|auto].
  intros fd'. by rewrite (same_ent _ _ _ _ H), T4.
Qed.
Lemma touched_before q fd g s s1 s2 : same q s s1 -> touched q fd g s1 s2 -> touched q fd g s s2.
Proof.
  intros H [T1 T2 T3 T4 T5 T6]. pose proof H as [H1 H2 H3 _ _ H6 H7].
  constructor; [intros; by rewrite T1, H1|congruence|auto| |congruence|auto].
  intros fd'. by rewrite T4, !(same_ent _ _ _ _ H).
Qed.

Lemma touch_fs q fd k g s : q_fs_ctr q = Some k -> is_Some (g_fsinfo s) -> touched q fd g s (on_fs_ctr fd k g s).
Proof.
  intros Hk Hs. unfold on_fs_ctr. constructor.
  - intros c _. by rewrite (on_fs_rest g_ctrs).
  - by apply on_fs_rest.
  - by rewrite (on_fs_rest events), (on_fs_rest dropped).
  - intros fd'. assert (forall s fd, ent q s fd = of_fs q (fs_at s fd)) as He by (intros; by destruct q).
    rewrite !He, fs_at_on_fs. destruct (decide (fd' = fd)) as [->|Hne].
    + rewrite decide_True by done. rewrite !of_fs_ctr, Hk. simpl. unfold at_ctr. by rewrite fn_lookup_insert.
    + rewrite decide_False by naive_solver. done.
  - by apply on_fs_rest.
  - intros. by rewrite (on_fs_rest allocs).
Qed.
Lemma touch_net q fd k g s : q_net_ctr q = Some k -> is_Some (g_netinfo s) -> touched q fd g s (on_net_ctr fd k g s).
Proof.
  intros Hk Hs. unfold on_net_ctr. constructor.
  - intros c _. by rewrite (on_net_rest g_ctrs).
  - by apply on_net_rest.
  - by rewrite (on_net_rest events), (on_net_rest dropped).
  - intros fd'. assert (forall s fd, ent q s fd = of_net q (net_at s fd)) as He by (intros; by destruct q).
    rewrite !He, net_at_on_net. destruct (decide (fd' = fd)) as [->|Hne].
    + rewrite decide_True by done. rewrite !of_net_ctr, Hk. simpl. unfold at_ctr. by rewrite fn_lookup_insert.
    + rewrite decide_False by naive_solver. done.
  - by apply on_net_rest.
  - intros. by rewrite (on_net_rest allocs).
Qed.

Lemma touched_inv q fd g s s' : (forall v, fine v -> fine (g v)) -> (forall v, mtc v = 0 -> mtc (g v) = 0) ->
  touched q fd g s s' -> inv q s -> inv q s' /\ pending q s' = pending q s.
Proof.
  intros Hg Hz [T1 T2 T3 T4 T5 T6] [I1 I2 I3 I4 I5]. split.
  - constructor; [auto|..].
    + intros fd'. rewrite T4. case_decide; auto.
    + rewrite T5. intros Hf fd'. rewrite T4. case_decide; auto.
    + rewrite T5. auto.
    + intros c Hc. rewrite T1 by done. auto.
  - unfold pending. rewrite T5, T2. case_match; [|done]. unfold tot. f_equal. apply list_fmap_ext.
    intros i c Hc. simpl. by rewrite T1 by (by eapply list_elem_of_lookup_2).
Qed.

Lemma touched_grown q fd x s s0 : inv q s -> touched q fd (add x) s s0 ->
  (forall fd', fine (ent q s0 fd')) /\ (forall fd', fd' <> fd -> ent q s0 fd' = ent q s fd') /\
  ent q s0 fd = add x (ent q s fd).
Proof.
  intros I [_ _ _ T4 _ _]. split_and!.
  - intros fd'. rewrite T4. case_decide; [apply fine_add|]; apply (inv_ent _ _ I).
  - intros fd' Hne. by rewrite T4, decide_False.
  - by rewrite T4, decide_True.
Qed.

Section Count.
Context `{E : Env}.

Lemma post_spec need rep ev s : allocs s = [] ->
  post need rep ev s = if need then (rep, cmdPostEvent (ev (set_allocs s [])) (set_allocs s [])) else (false, s).
Proof. intros Ha. unfold post, calloc. rewrite Ha. by destruct need. Qed.

Lemma post_inv q p s : (q_flag q (g_summary s) = false -> shown q p) -> inv q s -> inv q (cmdPostEvent p (set_allocs s [])).
Proof.
  intros Hp [I1 I2 I3 I4 I5]. constructor.
  - by rewrite (cmdPost_rest allocs).
  - intros fd. rewrite (cmdPost_rest (fun s => ent q s fd)); [apply I2|by intros; destruct q..].
  - rewrite (cmdPost_rest g_summary) by done. intros Hf fd.
    rewrite (cmdPost_rest (fun s => ent q s fd)); [by apply I3|by intros; destruct q..].
  - rewrite (cmdPost_rest g_summary) by done. intros Hf. apply shown_post; auto.
  - intros c Hc. rewrite (cmdPost_rest g_ctrs) by done. by apply I5.
Qed.

(** An update of the quantity itself. *)
Lemma count_core q fd x c s s0 need ev reset :
  inv q s -> 0 <= x -> pending q s + x < 2 ^ 63 -> touched q fd (add x) s s0 -> c ∈ q_totals q ->
  let s1 := on_ctr c (add x) s0 in
  let rep := negb (q_flag q (g_summary s1)) in
  (rep = true -> need = true) ->
  carried q (ev (set_allocs s1 [])) = mtc (ent q s1 fd) ->
  (q_flag q (g_summary s) = false -> shown q (ev (set_allocs s1 []))) ->
  let r := post need rep ev s1 in
  touched q fd zero_mtc r.2 (reset r.2) ->
  inv q (posted_then r reset) /\ pending q (posted_then r reset) = pending q s + x /\
  g_summary (posted_then r reset) = g_summary s.
Proof.
  intros I Hx Hp T Hc s1 rep Hneed Hcar Hshown r R.
  destruct (touched_grown _ _ _ _ _ I T) as (G1 & G2 & G3).
  assert (allocs s1 = []) as Ha by apply T, I.
  assert (forall fd, ent q s1 fd = ent q s0 fd) as He by (intros; by destruct q).
  assert (g_summary s1 = g_summary s) as Hs by apply T.
  assert (g_summary (set_allocs s1 []) = g_summary s) as Hs' by apply T.
  assert (forall d, d ∈ q_totals q -> fine (g_ctrs s1 d)) as Hf.
  { intros d Hd. simpl. unfold at_ctr. destruct (decide (d = c)) as [->|Hne].
    - rewrite fn_lookup_insert. apply fine_add. rewrite (touched_ctrs _ _ _ _ _ T) by done. by apply (inv_ctrs _ _ I).
    - rewrite fn_lookup_insert_ne by done. rewrite (touched_ctrs _ _ _ _ _ T) by done. by apply (inv_ctrs _ _ I). }
  assert (q_flag q (g_summary s) = false -> Forall (shown q) (events s1 ++ dropped s1)) as Hsh.
  { intros Hd. by apply T, I. }
  assert (que q s1 = que q s) as Hq by apply (touched_que _ _ _ _ _ T).
  subst r. unfold pending in *. destruct (q_flag q (g_summary s)) eqn:Hflag.
  - assert (rep = false) as Hr by (subst rep; by rewrite Hs, Hflag).
    assert (inv q s1) as I1.
    { constructor; [done| | | |done].
      - intros fd'. rewrite He. apply G1.
      - intros Hff. exfalso. congruence.
      - intros Hff. exfalso. congruence. }
    assert (tot q s1 = tot q s + x) as Ht.
    { subst s1. rewrite tot_on_ctr by done. rewrite (touched_ctrs _ _ _ _ _ T) by done.
      pose proof (tot_part q c s I Hc). rewrite mtc_add; [|by apply (inv_ctrs _ _ I)|lia..].
      assert (tot q s0 = tot q s) as ->; [|lia]. unfold tot. f_equal. apply list_fmap_ext.
      intros i d Hd. simpl. by rewrite (touched_ctrs _ _ _ _ _ T) by (by eapply list_elem_of_lookup_2). }
    rewrite post_spec, Hr by done. destruct need; cbn [posted_then].
    + split; [apply post_inv; [congruence|done]|]. rewrite (cmdPost_rest g_summary) by done. rewrite Hs', Hflag.
      by rewrite (cmdPost_rest (tot q)).
    + rewrite Hs, Hflag. done.
  - assert (rep = true) as Hr by (subst rep; by rewrite Hs, Hflag). specialize (Hneed Hr).
    rewrite post_spec in * by done. rewrite Hr, Hneed in *. simpl in R |- *.
    destruct R as [R1 R2 R3 R4 R5 R6].
    assert (forall fd', ent q (cmdPostEvent (ev (set_allocs s1 [])) (set_allocs s1 [])) fd' = ent q s1 fd') as Hpe.
    { intros fd'. rewrite (cmdPost_rest (fun s => ent q s fd')); by intros; destruct q. }
    assert (g_summary (reset (cmdPostEvent (ev (set_allocs s1 [])) (set_allocs s1 []))) = g_summary s) as Hrs.
    { rewrite R5, (cmdPost_rest g_summary) by done. apply Hs. }
    split_and!; [constructor|..].
    + apply R6. by rewrite (cmdPost_rest allocs).
    + intros fd'. rewrite R4, !Hpe, !He. case_decide; [apply fine_zero_mtc|]; apply G1.
    + intros _ fd'. rewrite R4, !Hpe, !He. case_decide as Hd; [done|]. rewrite G2 by done. by apply (inv_detail _ _ I).
    + intros _. apply R3, shown_post; auto.
    + intros d Hd. rewrite R1 by done. rewrite (cmdPost_rest g_ctrs) by done. by apply Hf.
    + rewrite Hrs, Hflag, R2, que_post, Hcar, He, G3.
      change (que q (set_allocs s1 [])) with (que q s1). rewrite Hq, mtc_add; [|apply (inv_ent _ _ I)|lia|];
        pose proof (que_nonneg q s I Hflag); rewrite (inv_detail _ _ I Hflag); lia.
    + done.
Qed.

(** ** The updates of a quantity *)

Definition counts (q : quantity) (s : st) (fd : Z) : bool :=
  match q with QRx | QTx => bool_decide (is_Some (getNetEntry s fd)) | _ => checkFSEntry s fd end.
Definition amount (q : quantity) (size : Z) : Z := match q with QOpen | QClose | QSeek => 1 | _ => size end.

Lemma f_cnt_event fd type x f p : f_cnt (fs_event fd type (Some x) f p) = f_cnt x.
Proof. unfold fs_event. simpl. destruct p, f; repeat case_bool_decide; done. Qed.

Lemma fs_event_carried q fd x f p : carried q (PFs (fs_event fd (q_type q) (Some x) f p)) = mtc (of_fs q x).
Proof.
  cbn [carried]. rewrite f_data_type_event, decide_True by done.
  by rewrite !of_fs_ctr, f_cnt_event.
Qed.

Lemma cmdPost_fsinfo p s : g_fsinfo (cmdPostEvent p s) = g_fsinfo s.
Proof. by apply cmdPost_rest. Qed.
Lemma cmdPost_netinfo p s : g_netinfo (cmdPostEvent p s) = g_netinfo s.
Proof. by apply cmdPost_rest. Qed.
Lemma post_tables need rep ev s : g_fsinfo (post need rep ev s).2 = g_fsinfo s /\ g_netinfo (post need rep ev s).2 = g_netinfo s.
Proof.
  unfold post, calloc. destruct need; [|done]. destruct (hd true _); [|done]. simpl.
  by rewrite cmdPost_fsinfo, cmdPost_netinfo.
Qed.
Lemma on_fs_some fd f s : is_Some (g_fsinfo s) -> is_Some (g_fsinfo (on_fs fd f s)).
Proof. unfold on_fs. intros [t Ht]. rewrite Ht. simpl. eauto. Qed.
Lemma on_net_some fd f s : is_Some (g_netinfo s) -> is_Some (g_netinfo (on_net fd f s)).
Proof. unfold on_net. intros [t Ht]. rewrite Ht. simpl. eauto. Qed.
#[local] Hint Resolve on_fs_some on_net_some : appview.

Definition counted (q : quantity) (x : Z) (s s' : st) : Prop :=
  inv q s' /\ pending q s' = pending q s + x /\ g_summary s' = g_summary s.

Hypothesis metrics_on : mtcEnabled = true.

Lemma count_fs q k c x f p fd s s0 reset : q_fs_ctr q = Some k -> q_totals q = [c] ->
  inv q s -> 0 <= x -> pending q s + x < 2 ^ 63 -> is_Some (g_fsinfo s0) -> touched q fd (add x) s s0 ->
  (forall s, is_Some (g_fsinfo s) -> touched q fd zero_mtc s (reset s)) ->
  let s1 := on_ctr c (add x) s0 in
  counted q x s (posted_then (postFSState fd (q_type q) (Some (fs_at s1 fd)) f p s1) reset).
Proof using metrics_on.
  intros Hk Hc I Hx Hp Hs0 T R s1.
  assert (needs_reporting (fs_summary s1 (q_type q)) = negb (q_flag q (g_summary s1))) as Hrep by (by destruct q).
  unfold postFSState. rewrite Hrep.
  apply (count_core q fd x c s s0); [done..| | | | |].
  - rewrite Hc. set_solver.
  - intros Hr. rewrite metrics_on. apply orb_true_iff. by right.
  - rewrite fs_event_carried. by destruct q.
  - intros _. split; [|done]. rewrite fs_event_carried. change (fs_at s1 fd) with (fs_at s0 fd).
    replace (of_fs q (fs_at s0 fd)) with (ent q s0 fd) by (by destruct q).
    apply (touched_grown _ _ _ _ _ I T).
  - apply R. rewrite (proj1 (post_tables _ _ _ _)). done.
Qed.

Lemma counted_then q x s s1 s2 fd : counted q x s s1 -> touched q fd zero_evt s1 s2 -> counted q x s s2.
Proof.
  intros (I & Hp & Hs) T.
  destruct (touched_inv q fd zero_evt s1 s2) as [I2 Hp2]; [apply fine_zero_evt|done|done|done|].
  split_and!; [done|congruence|]. rewrite <- Hs. apply T.
Qed.

Lemma count_fs_amount q num k c fd size f p s : q_fs_ctr q = Some k -> q_totals q = [c] -> num <> k ->
  inv q s -> 0 <= size -> pending q s + size < 2 ^ 63 -> is_Some (g_fsinfo s) ->
  counted q size s (update_fs_amount num k (on_ctr c (add size)) (q_type q) fd size f p s).
Proof using metrics_on.
  intros Hk Hc Hn I Hx Hp Hs. unfold update_fs_amount.
  assert (is_Some (g_fsinfo (on_fs_ctr fd num (add 1) s))) by (by apply on_fs_some).
  eapply (count_fs q k c); [done..| | |].
  - by apply on_fs_some.
  - eapply touched_before; [|by apply touch_fs]. apply same_fs_ctr. congruence.
  - intros s' Hs'. eapply touched_before; [|apply touch_fs; [done|by apply on_fs_some]]. apply same_fs_ctr. congruence.
Qed.

Lemma post_some need rep ev s f : is_Some (g_fsinfo s) -> (forall s, is_Some (g_fsinfo s) -> is_Some (g_fsinfo (f s))) ->
  is_Some (g_fsinfo (posted_then (post need rep ev s) f)).
Proof.
  intros Hs Hf. destruct (post need rep ev s) as [rc s'] eqn:Hr.
  assert (g_fsinfo s' = g_fsinfo s) as He by (by rewrite <- (proj1 (post_tables need rep ev s)), Hr).
  destruct rc; simpl; [apply Hf|]; by rewrite He.
Qed.

Lemma count_fs_number q k c fd f p s : q_fs_ctr q = Some k -> q_totals q = [c] ->
  inv q s -> pending q s + 1 < 2 ^ 63 -> is_Some (g_fsinfo s) ->
  counted q 1 s (update_fs_number k c (q_type q) fd f p s).
Proof using metrics_on.
  intros Hk Hc I Hp Hs. unfold update_fs_number. eapply counted_then.
  - eapply (count_fs q k c); [done..| |done|by apply on_fs_some|by apply touch_fs|intros; by apply touch_fs]. lia.
  - apply touch_fs; [done|]. apply post_some; [by apply on_fs_some|]. intros. by apply on_fs_some.
Qed.

Lemma count_traffic q num k total fd size s : q_net_ctr q = Some k -> q_totals q = map total buckets -> num <> k ->
  inv q s -> 0 <= size -> pending q s + size < 2 ^ 63 -> is_Some (g_netinfo s) ->
  counted q size s (update_traffic num k total (q_type q) fd size s).
Proof using metrics_on.
  intros Hk Hc Hn I Hx Hp Hs. unfold update_traffic. set (s0 := on_net_ctr fd k (add size) _).
  set (b := getNetRxTxBucket _). set (s1 := on_ctr (total b) (add size) s0).
  assert (is_Some (g_netinfo (on_net_ctr fd num (add 1) s))) as Hn1 by (by apply on_net_some).
  assert (touched q fd (add size) s s0) as T.
  { eapply touched_before; [|by apply touch_net]. apply same_net_ctr. congruence. }
  destruct (touched_grown _ _ _ _ _ I T) as (G1 & _ & G3).
  assert (of_net q (net_at s0 fd) = ent q s0 fd) as He by (by destruct q).
  assert (net_at (set_allocs (on_ctr (total b) (add size) s0) []) fd = net_at s0 fd) as Hat by done.
  assert (needs_reporting (net_summary s1 (q_type q)) = negb (q_flag q (g_summary s1))) as Hrep by (by destruct q).
  assert (forall n m, of_net q (setn_counters (setn_data_type (setn_fd n fd) (q_type q)) m) = of_net q n) as Hof
    by (intros; by rewrite !of_net_ctr).
  unfold postNetState. rewrite Hrep. apply (count_core q fd size (total b) s s0); [done..| | | | |].
  - rewrite Hc. apply list_elem_of_fmap_2. destruct b; set_solver.
  - intros Hr. rewrite metrics_on. apply orb_true_iff. by right.
  - cbn [carried]. rewrite decide_True by done. rewrite Hof. by destruct q.
  - intros Hf. split.
    { cbn [carried]. rewrite decide_True by done. rewrite Hof.
      rewrite Hat, He. apply G1. }
    rewrite !Hof, Hat, He.
    intros _ Hz. rewrite G3 in Hz |- *. apply evt_add in Hz; [|apply (inv_ent _ _ I)|].
    + pose proof (inv_detail _ _ I Hf fd). rewrite mtc_add; [lia|apply (inv_ent _ _ I)|lia..].
    + pose proof (que_nonneg q s I Hf). unfold pending in Hp. rewrite Hf in Hp. lia.
  - eapply touched_before; [|apply touch_net; [done|]]; [apply same_net_ctr; congruence|].
    apply on_net_some. rewrite (proj2 (post_tables _ _ _ _)). by apply on_net_some.
Qed.

(** An update counts once what it is about. *)
Lemma count_update q fd size f p s : inv q s -> 0 <= size -> pending q s + amount q size < 2 ^ 63 ->
  counted q (if counts q s fd then amount q size else 0) s (doUpdateState (q_type q) fd size f p s).
Proof using metrics_on.
  intros I Hx Hp. destruct (counts q s fd) eqn:Hc.
  - assert (match q with QRx | QTx => is_Some (g_netinfo s) | _ => is_Some (g_fsinfo s) end) as Hs.
    { destruct q; cbn [counts] in Hc; unfold checkFSEntry in Hc;
        try (by apply andb_true_iff in Hc as [Hc%bool_decide_eq_true _]).
      all: apply bool_decide_eq_true in Hc as [n Hn]; unfold getNetEntry, checkNetEntry in Hn.
      all: case_match eqn:Hb; [|done]; apply andb_true_iff in Hb as [[Hb%bool_decide_eq_true _]%andb_true_iff _]; done. }
    destruct q; simpl in *.
    all: try (rewrite Hc); try (apply bool_decide_eq_true in Hc as [n ->]).
    + by apply count_fs_amount.
    + by apply count_fs_amount.
    + by apply count_fs_number.
    + by apply count_fs_number.
    + by apply count_fs_number.
    + by apply (count_traffic QRx numRX rxBytes netrxBytes).
    + by apply (count_traffic QTx numTX txBytes nettxBytes).
  - assert (doUpdateState (q_type q) fd size f p s = s) as ->.
    { destruct q; simpl in *; try (by rewrite Hc); apply bool_decide_eq_false in Hc;
        destruct (getNetEntry s fd) eqn:Hn; try done; exfalso; apply Hc; eauto. }
    split_and!; [done|lia|done].
Qed.

End Count.

(** ** Reports that leave a quantity alone *)

Record rsame (q : quantity) (r r' : rs) : Prop := mkRsame {
  rsame_data : same q (data r) (data r');
  rsame_fsinfo : g_fsinfo (data r') = g_fsinfo (data r);
  rsame_netinfo : g_netinfo (data r') = g_netinfo (data r);
  rsame_reported : reported q r' = reported q r;
  rsame_events : events (data r') = events (data r);
  rsame_dropped : dropped (data r') = dropped (data r);
  rsame_waiting : forall m, In m (captured (data r')) -> In m (captured (data r));
}.

#[export] Instance rsame_refl q : Reflexive (rsame q).
Proof. by constructor. Qed.
#[export] Instance rsame_trans q : Transitive (rsame q).
Proof. intros r1 r2 r3 [] []. constructor; try congruence; [by etrans|auto]. Qed.

Lemma rsame_set q r (r' : rs) : data r' = data r -> sent r' = sent r -> rsame q r r'.
Proof. intros Hd Hs. constructor; unfold reported; by rewrite ?Hd, ?Hs. Qed.

Lemma rsame_ctr q c f r : c ∉ q_totals q -> rsame q r (on_data (on_ctr c f) r).
Proof. intros Hc. constructor; try done. by apply same_ctr. Qed.

Section ReportFrame.
Context `{E : Env} `{P : Proc}.

Lemma reported_send q r m : reported q (set_sent r (sent r ++ [m])) = reported q r + sent_amount q m.
Proof. unfold reported. simpl. rewrite map_app, sumZ_app. simpl. lia. Qed.

Lemma rsame_event q e uid r : rsame q r (cmdSendEvent e uid r).
Proof. constructor; try done. unfold cmdSendEvent. rewrite reported_send. simpl. lia. Qed.

Lemma rsame_event_now q e r : rsame q r (cmdSendEventNow e r).
Proof.
  unfold cmdSendEventNow. simpl. etrans; [|apply rsame_event]. by constructor.
Qed.

Lemma rsame_metric q e r : e_name e <> q_name q -> rsame q r (cmdSendMetric e r).
Proof.
  intros He. unfold cmdSendMetric. destruct mtcEnabled; [|done]. constructor; try done.
  rewrite reported_send. simpl. rewrite decide_False by done. lia.
Qed.

Lemma rsame_send q e r : e_name e <> q_name q -> rsame q r (sendEvent e r).
Proof. intros He. unfold sendEvent. etrans; [apply rsame_event_now|]. by apply rsame_metric. Qed.

End ReportFrame.

Ltac named := match goal with q : quantity |- _ => destruct q; simpl in *; done end.
Ltac away := match goal with q : quantity |- _ => destruct q; simpl in *; set_solver end.
Ltac rframe_step :=
  match goal with
  | |- rsame _ ?r ?r => reflexivity
  | |- rsame _ _ (cmdSendEvent _ _ _) => etrans; [|apply rsame_event]
  | |- rsame _ _ (cmdSendEventNow _ _) => etrans; [|apply rsame_event_now]
  | |- rsame _ _ (cmdSendMetric _ _) => etrans; [|apply rsame_metric; try named]
  | |- rsame _ _ (sendEvent _ _) => etrans; [|apply rsame_send; try named]
  | |- rsame _ _ (on_data (on_ctr _ _) _) => etrans; [|apply rsame_ctr; try away]
  | |- rsame _ _ (set_count ?x _) => etrans; [|by apply (rsame_set _ x)]
  | |- rsame _ _ (set_released ?x _) => etrans; [|by apply (rsame_set _ x)]
  | |- rsame _ _ (set_http_events ?x _) => etrans; [|by apply (rsame_set _ x)]
  | |- rsame _ _ (set_cpuState ?x _) => etrans; [|by apply (rsame_set _ x)]
  | |- rsame _ _ (if ?b then _ else _) => destruct b
  end.
Ltac rframe := cbn zeta; repeat rframe_step.

Section Reports.
Context `{E : Env} `{P : Proc}.

Lemma rsame_error q type source f n ctrs r : rsame q r (doErrorMetric type source f n ctrs r).
Proof.
  unfold doErrorMetric. destruct (err_ctr type) as [[[[[m c] cls] w] sm]|] eqn:Hc; [|done].
  assert (m <> q_name q /\ c ∉ q_totals q) as [Hm Ht].
  { destruct type; simpl in Hc; simplify_eq; split; destruct q; set_solver. }
  cbn zeta. set (ev := if negb _ then _ else r).
  assert (rsame q r ev) as H1.
  { subst ev. destruct (negb _); [|done]. destruct ctrs; rframe; try by apply rsame_ctr. }
  do 2 (rframe_step; [done|]). etrans; [exact H1|]. destruct ctrs; rframe; try done; try by apply rsame_ctr.
Qed.

Lemma rsame_stat q f n ctrs r : rsame q r (doStatMetric f n ctrs r).
Proof. unfold doStatMetric. rframe. Qed.

Lemma rsame_security q sec r : rsame q r (doSecurityMetric sec r).
Proof. unfold doSecurityMetric. rframe. Qed.

Lemma rsame_detection q n fd uid r : rsame q r (doDetection n fd uid r).
Proof. unfold doDetection. destruct n; rframe. Qed.

Lemma rsame_proc q i pc u type r : rsame q r (doProcMetric i pc u type r).
Proof. unfold doProcMetric. destruct type; try done; rframe. Qed.

Lemma rsame_total_duration q type r : rsame q r (doTotalDuration type r).
Proof.
  unfold doTotalDuration. destruct type; simpl; try done; rframe.
Qed.

Lemma bind_def {A B} (m : ub A) (f : A -> ub B) y : (m ≫= f) = Def y -> exists a, m = Def a /\ f a = Def y.
Proof. destruct m; [eauto|done]. Qed.

Ltac unbind H := let a := fresh "a" in let Ha := fresh "Ha" in apply bind_def in H as (a & Ha & H).
Ltac cases H :=
  repeat match type of H with
  | (if ?b then _ else _) = Def _ => destruct b
  | Def _ = Def _ => injection H; clear H; intros; subst
  end.

Lemma rsame_dns q type net r r' : doDNSMetricName type net r = Def r' -> rsame q r r'.
Proof.
  unfold doDNSMetricName. intros H. cases H; [done|]. destruct type; try (by simplify_eq).
  - cbn zeta in H. cases H; rframe.
  - cbn zeta in H. unbind H. cases H; try (unbind H; cases H); rframe.
Qed.

(** Reports of a file entry. *)
Lemma of_fs_set_ne q fs c f : q_fs_ctr q <> Some c -> of_fs q (fs_set fs c f) = of_fs q fs.
Proof.
  intros Hc. rewrite !of_fs_ctr. destruct (q_fs_ctr q) as [k|]; [|done].
  simpl. unfold at_ctr. rewrite fn_lookup_insert_ne; congruence.
Qed.
Lemma of_net_set_ne q n c f : q_net_ctr q <> Some c -> of_net q (net_set n c f) = of_net q n.
Proof.
  intros Hc. rewrite !of_net_ctr. destruct (q_net_ctr q) as [k|]; [|done].
  simpl. unfold at_ctr. rewrite fn_lookup_insert_ne; congruence.
Qed.

Ltac others := repeat (rewrite of_fs_set_ne by named || rewrite of_net_set_ne by named); done.

Lemma frame_fs_duration q fs source op r fs' r' :
  report_fs_duration fs source op r = Def (fs', r') -> rsame q r r' /\ of_fs q fs' = of_fs q fs.
Proof.
  unfold report_fs_duration. cbn zeta. intros H. unbind H. cases H.
  - split; [rframe|done].
  - unbind H. cases H; (split; [rframe|others]).
Qed.

Lemma frame_fs_bytes q m num size g fs source op r : m <> q_name q -> g ∉ q_totals q ->
  q_fs_ctr q <> Some num -> q_fs_ctr q <> Some size ->
  let '(fs', r') := report_fs_bytes m num size g fs source op r in rsame q r r' /\ of_fs q fs' = of_fs q fs.
Proof.
  intros Hm Hg Hn Hs. unfold report_fs_bytes. cbn zeta.
  destruct (fs_quiet _ _); [split; [rframe|done]|]. destruct (mtc _ =? 0); [split; [rframe|done]|].
  split; [|by rewrite !of_fs_set_ne]. rframe; try done; by apply rsame_ctr.
Qed.

Lemma frame_fs_number q m num g sm ev fs source op r fs' r' : m <> q_name q -> g ∉ q_totals q ->
  q_fs_ctr q <> Some num -> (forall l r r', ev l r = Def r' -> rsame q r r') ->
  report_fs_number m num g sm ev fs source op r = Def (fs', r') -> rsame q r r' /\ of_fs q fs' = of_fs q fs.
Proof.
  intros Hm Hg Hn Hev. unfold report_fs_number. cbn zeta. intros H. unbind H. destruct a as [fs1 r1].
  assert (rsame q r r1 /\ of_fs q fs1 = of_fs q fs) as [H1 H2].
  { cases Ha; [|done]. unbind Ha. cases Ha. split; [by eapply Hev|by apply of_fs_set_ne]. }
  cases H; try done. split; [|by rewrite of_fs_set_ne]. etrans; [exact H1|]. rframe; try done; by apply rsame_ctr.
Qed.

Lemma rsame_open_event q fs op r r' : doFSOpenEvent fs op r = Def r' -> rsame q r r'.
Proof. unfold doFSOpenEvent. intros H. cases H; [|done]. unbind H. cases H. rframe. Qed.
Lemma rsame_close_event q fs op r r' : doFSCloseEvent fs op r = Def r' -> rsame q r r'.
Proof. unfold doFSCloseEvent. intros H. cases H; [|done]. unbind H. unbind H. cases H. rframe. Qed.

Lemma frame_fs q type fs source op path r fs' r' : type <> q_type q ->
  doFSMetric type fs source op path r = Def (fs', r') -> rsame q r r' /\ of_fs q fs' = of_fs q fs.
Proof.
  intros Ht H. destruct type; simpl in H; try (simplify_eq; done).
  - by eapply frame_fs_duration.
  - injection H as H. pose proof (frame_fs_bytes q "fs.read" f_numRead f_readBytes readBytes fs source op r) as F.
    rewrite H in F. apply F; away.
  - injection H as H. pose proof (frame_fs_bytes q "fs.write" f_numWrite f_writeBytes writeBytes fs source op r) as F.
    rewrite H in F. apply F; away.
  - eapply frame_fs_number; [..|exact H]; [away..|]. intros l r1 r2. apply rsame_open_event.
  - eapply frame_fs_number; [..|exact H]; [away..|]. intros l r1 r2. apply rsame_close_event.
  - simplify_eq. split; [rframe|done].
  - eapply frame_fs_number; [..|exact H]; [away..|]. intros l r1 r2 Hd. cbn beta in Hd. simplify_eq. rframe.
Qed.

(** Reports of a connection. *)
Lemma rsame_close q net dur r : rsame q r (doNetCloseEvent net dur r).
Proof. unfold doNetCloseEvent. rframe. Qed.

Lemma frame_net_duration q net source r net' r' :
  report_net_duration net source r = Def (net', r') -> rsame q r r' /\ of_net q net' = of_net q net.
Proof.
  unfold report_net_duration. cbn zeta. intros H.
  assert (rsame q r (set_released r (released r ++ [n_uid net]))) as H0 by (by apply rsame_set).
  set (r0 := set_released r _) in *. clearbody r0. cases H; [done|]. unbind H.
  set (x := if negb (a =? 0) then _ else _) in H.
  assert (rsame q r x.2 /\ of_net q x.1 = of_net q net) as [H1 H2].
  { subst x. destruct (negb _); [|done]. cbn [fst snd]. split; [by rframe|others]. }
  destruct x as [net1 r1]. simpl in H1, H2.
  assert (rsame q r (doNetCloseEvent net1 a r1)) as H3 by (etrans; [exact H1|apply rsame_close]).
  set (r2 := doNetCloseEvent net1 a r1) in *. clearbody r2.
  cases H; [done|]. unbind H. cases H; [done|]. split; [rframe; done|]. rewrite <- H2. others.
Qed.

Lemma frame_connection q m c net source r : m <> q_name q -> c ∉ q_totals q ->
  let '(net', r') := report_connection m c net source r in rsame q r r' /\ of_net q net' = of_net q net.
Proof.
  intros Hm Hc. unfold report_connection. cbn zeta. destruct (net_quiet _ _); [done|].
  split; [|by rewrite !of_net_ctr]. rframe; try done; by apply rsame_ctr.
Qed.

Lemma frame_traffic q m num bytes total rx net source r : m <> q_name q -> (forall b, total b ∉ q_totals q) ->
  q_net_ctr q <> Some num -> q_net_ctr q <> Some bytes ->
  let '(net', r') := report_traffic m num bytes total rx net source r in rsame q r r' /\ of_net q net' = of_net q net.
Proof.
  intros Hm Hc Hn Hb. unfold report_traffic. cbn zeta. destruct (evt _ =? 0); [done|].
  set (net1 := if rx then _ else net).
  assert (of_net q net1 = of_net q net) as H1 by (subst net1; destruct rx; by rewrite ?of_net_set_ne).
  destruct (net_quiet _ _); [split; [rframe|done]|]. destruct (mtc _ =? 0); [split; [rframe|done]|].
  split; [|by rewrite !of_net_set_ne]. rframe; try done; by apply rsame_ctr.
Qed.

Lemma frame_net q type net source r net' r' : type <> q_type q ->
  doNetMetric type net source r = Def (net', r') -> rsame q r r' /\ of_net q net' = of_net q net.
Proof.
  intros Ht H. destruct type; simpl in H; try (simplify_eq; done).
  - simplify_eq. split; [|done]. unfold report_gauge. rframe.
  - simplify_eq. split; [|done]. unfold report_gauge, conn_metric. rframe. simpl. repeat case_match; away.
  - injection H as H. pose proof (frame_connection q "net.open" netConnOpen net source (doNetOpenEvent net r)) as F.
    rewrite H in F. destruct F as [F1 F2]; [away..|]. split; [|done]. etrans; [|exact F1]. unfold doNetOpenEvent. rframe.
  - injection H as H. pose proof (frame_connection q "net.close" netConnClose net source r) as F.
    rewrite H in F. apply F; away.
  - by eapply frame_net_duration.
  - injection H as H. pose proof (frame_traffic q "net.rx" numRX rxBytes netrxBytes true net source r) as F.
    rewrite H in F. apply F; away.
  - injection H as H. pose proof (frame_traffic q "net.tx" numTX txBytes nettxBytes false net source r) as F.
    rewrite H in F. apply F; away.
  - cases H; [done|]. unbind H. cases H. split; [by eapply rsame_dns|by rewrite !of_net_ctr].
Qed.

(** The total of another quantity. *)
Definition total_type (q : quantity) : metric_t :=
  match q with
  | QRead => TOT_READ | QWrite => TOT_WRITE | QOpen => TOT_OPEN | QClose => TOT_CLOSE | QSeek => TOT_SEEK
  | QRx => TOT_RX | QTx => TOT_TX
  end.

Lemma frame_total_rxtx q m (value : sock_summary_bucket_t -> ctr) r l : m <> q_name q -> (forall b, value b ∉ q_totals q) ->
  rsame q r (foldl (fun r bucket =>
      let v := mtc (g_ctrs (data r) (value bucket)) in
      if v =? 0 then r else
      let r := if net_rx_tx (g_summary (data r)) then
                 cmdSendMetric (int_event m v DELTA
                   [PROC_FIELD; PID_FIELD; HOST_FIELD; UNIT_FIELD "byte"; CLASS_FIELD (bucketName bucket); SUMMARY_FIELD "true"]) r
               else r in
      on_data (on_ctr (value bucket) zero_mtc) r) r l).
Proof.
  intros Hm Hv. revert r. induction l as [|b l IH]; intros r; simpl; [done|]. etrans; [|apply IH].
  destruct (_ =? 0); [done|]. etrans; [|by apply rsame_ctr]. destruct (net_rx_tx _); [|done]. by apply rsame_metric.
Qed.

(** The totals but those of the traffic. *)
Lemma doTotal_plain type r : type <> TOT_RX -> type <> TOT_TX -> doTotal type r =
  match total_of type with
  | None => r
  | Some (summarize, watch, metric, c, units, gauge) =>
      if negb (summarize (g_summary (data r))) || negb (mtcWatch watch) then r else
      let v := mtc (g_ctrs (data r) c) in
      if v =? 0 then r else
      let r := cmdSendMetric (int_event metric v (if gauge : bool then CURRENT else DELTA) (summary_fields units)) r in
      if gauge then r else on_data (on_ctr c zero_mtc) r
  end.
Proof. by destruct type. Qed.

Lemma frame_other_total q type r : type <> total_type q -> rsame q r (doTotal type r).
Proof.
  intros Ht. destruct (decide (type = TOT_RX)) as [->|H1]; [|destruct (decide (type = TOT_TX)) as [->|H2]].
  1,2: unfold doTotal; destruct (_ || _); [done|]; apply frame_total_rxtx; away.
  rewrite doTotal_plain by done. destruct (total_of type) as [[[[[[sm w] m] c] u] g]|] eqn:Hc; [|done].
  assert (m <> q_name q /\ c ∉ q_totals q) as [Hm Hn].
  { destruct type; simpl in Hc; simplify_eq; split; away. }
  destruct (_ || _); [done|]. cbn zeta. destruct (_ =? 0); [done|].
  destruct g; [by apply rsame_metric|]. etrans; [|by apply rsame_ctr]. by apply rsame_metric.
Qed.

End Reports.

End Account.
