(* ===== verification/AccountRun.v ===== *)
(** * Accounting: runs of the program

    [Account] follows a quantity through one update and shows what leaves it
    alone.  This file follows it through the reports of the quantity itself,
    then through runs: sequences of steps of the data path and of the reporting
    thread in any order.  The functions of src/state.c and the periodic report
    are such sequences. *)

From S2P Require Import Prelude Types HttpState CfgParse StateData State Report Account.

Module AccountRun.
Import StateData State Report Account.

#[local] Open Scope Z_scope.

(** ** Reports of the quantity itself *)

(** The reporting thread has at most lowered the totals. *)
Record lowered (q : quantity) (s s' : st) : Prop := mkLowered {
  low_ctrs : forall c, c ∈ q_totals q -> fine (g_ctrs s c) -> fine (g_ctrs s' c);
  low_que : que q s' = que q s;
  low_shown : Forall (shown q) (events s ++ dropped s) -> Forall (shown q) (events s' ++ dropped s');
  low_fsinfo : g_fsinfo s' = g_fsinfo s;
  low_netinfo : g_netinfo s' = g_netinfo s;
  low_summary : g_summary s' = g_summary s;
  low_allocs : allocs s = [] -> allocs s' = [];
}.

#[export] Instance lowered_refl q : Reflexive (lowered q).
Proof. by constructor. Qed.
#[export] Instance lowered_trans q : Transitive (lowered q).
Proof. intros s1 s2 s3 [] []. constructor; try congruence; auto. Qed.

Lemma rsame_lowered q r r' : rsame q r r' -> lowered q (data r) (data r').
Proof.
  intros [[H1 H2 H3 H4 H5 H6 H7] F N _ _ _ _]. constructor; try done. intros c Hc. by rewrite H1.
Qed.

Lemma lowered_sub q c x s : lowered q s (on_ctr c (sub x) s).
Proof.
  constructor; try done. intros d _ Hf. simpl. unfold at_ctr. destruct (decide (d = c)) as [->|Hne].
  - rewrite fn_lookup_insert. by apply fine_sub.
  - by rewrite fn_lookup_insert_ne.
Qed.

Lemma lowered_ent q s s' fd : lowered q s s' -> ent q s' fd = ent q s fd.
Proof. intros []. unfold ent, fs_at, net_at. by destruct q; rewrite ?low_fsinfo0, ?low_netinfo0. Qed.

Lemma lowered_inv q s s' : q_flag q (g_summary s) = false -> lowered q s s' -> inv q s ->
  inv q s' /\ pending q s' = pending q s.
Proof.
  intros Hf L [I1 I2 I3 I4 I5]. pose proof L as [L1 L2 L3 L4 L5 L6 L7]. split.
  - constructor; [auto|..].
    + intros fd. rewrite (lowered_ent _ _ _ _ L). auto.
    + intros _ fd. rewrite (lowered_ent _ _ _ _ L). auto.
    + auto.
    + auto.
  - unfold pending. by rewrite L6, Hf, L2.
Qed.

#[export] Instance idle_dec q p : Decision (idle q p).
Proof. destruct p; simpl; apply _. Defined.

(** Reports in a row, each of which may be undefined. *)
Lemma foldl_ub {A B} (g : B -> A -> ub A) (l : list B) (r r' : A) (Q : A -> A -> Prop) (R : B -> A -> Prop) :
  Reflexive Q -> Transitive Q -> (forall b r r', R b r -> Q r r' -> R b r') ->
  (forall b r r', In b l -> R b r -> g b r = Def r' -> Q r r') -> (forall b, In b l -> R b r) ->
  foldl (fun acc b => r ← acc; g b r) (Def r) l = Def r' -> Q r r'.
Proof.
  intros HR HT Hk Hg. revert r. induction l as [|b l IH]; intros r Hb H; [injection H as <-; reflexivity|].
  cbn [foldl] in H. change (r ← Def r; g b r) with (g b r) in H. destruct (g b r) as [r1|] eqn:H1.
  - assert (Q r r1) as Q1 by (apply (Hg b); [by left|apply Hb; by left|done]).
    transitivity r1; [done|]. apply IH; [intros c x x' Hc; apply Hg; by right| |done].
    intros c Hc. eapply Hk; [|done]. apply Hb. by right.
  - exfalso. clear -H. induction l; simpl in H; [discriminate|auto].
Qed.

Lemma Def_inj {A} (a b : A) : Def a = Def b -> a = b.
Proof. by intros [= ->]. Qed.

Section Own.
Context `{E : Env} `{P : Proc}.

(** Metrics of the process itself do not count as ours. *)
Lemma rsame_captured_one q m r r' : reportCapturedMetric m r = Def r' -> rsame q r r'.
Proof.
  unfold reportCapturedMetric. destruct (calloc (data r)) as [ok s] eqn:Hc. intros H.
  assert (rsame q r (set_data r s)) as Hs.
  { injection Hc as _ <-. constructor; try done. constructor; try done. intros Ha. simpl. by rewrite Ha. }
  apply bind_def in H as (f & _ & H). etrans; [exact Hs|]. destruct (if _ || _ then _ else _); [|by injection H as <-].
  apply Def_inj in H as <-. destruct mtcEnabled; [|done]. constructor; try done. rewrite reported_send. simpl. lia.
Qed.
Lemma rsame_captured q r r' : reportAllCapturedMetrics r = Def r' -> rsame q r r'.
Proof.
  intros H. transitivity (on_data (fun s => set_captured s []) r); [by constructor|].
  revert H. apply (foldl_ub reportCapturedMetric _ _ _ (rsame q) (fun _ _ => True)); [apply _|apply _|done| |done].
  intros. by eapply rsame_captured_one.
Qed.

Hypothesis metrics_on : mtcEnabled = true.

Lemma reported_metric q n v t f r : n = q_name q -> 0 <= v < 2 ^ 63 ->
  reported q (cmdSendMetric (int_event n v t f) r) = reported q r + v.
Proof using metrics_on.
  intros -> Hv. unfold cmdSendMetric. rewrite metrics_on, reported_send. f_equal.
  unfold sent_amount, int_event, INT_EVENT, value_of. cbn [e_name e_value].
  rewrite decide_True by done. apply i64_small. lia.
Qed.

Lemma metric_data e r : data (cmdSendMetric e r) = data r.
Proof. unfold cmdSendMetric. by destruct mtcEnabled. Qed.

(** What a report of the quantity does when it is not silenced. *)
Definition drained (q : quantity) (v : Z) (r r' : rs) : Prop :=
  lowered q (data r) (data r') /\ reported q r' = reported q r + v.

Lemma drained_after q v r r1 r' : rsame q r r1 -> drained q v r1 r' -> drained q v r r'.
Proof.
  intros H [L R]. split; [etrans; [by apply rsame_lowered|done]|]. by rewrite R, (rsame_reported _ _ _ H).
Qed.

Lemma drained_send q c v t f r : 0 <= v < 2 ^ 63 ->
  drained q v r (on_data (on_ctr c (sub v)) (cmdSendMetric (int_event (q_name q) v t f) r)).
Proof using metrics_on.
  intros Hv. split.
  - simpl. rewrite metric_data. apply lowered_sub.
  - unfold reported at 1. simpl. by apply (reported_metric q).
Qed.

(** How the report leaves the counter of the entry. *)
Definition settled (v v' : counters_element_t) : Prop := (fine v -> fine v') /\ (mtc v = 0 -> mtc v' = 0).

Lemma own_fs_bytes q num k c fs source op r fs' r' : q_fs_ctr q = Some k -> num <> k ->
  (forall s, q_flag q s = fs_read_write s) -> q_watch q = CFG_MTC_FS -> mtcWatch (q_watch q) = true ->
  (q_flag q (g_summary (data r)) && bool_decide (source = EVENT_BASED) = false -> 0 <= mtc (of_fs q fs) < 2 ^ 63) ->
  report_fs_bytes (q_name q) num k c fs source op r = (fs', r') ->
  settled (of_fs q fs) (of_fs q fs') /\
  if q_flag q (g_summary (data r)) && bool_decide (source = EVENT_BASED) then rsame q r r'
  else drained q (mtc (of_fs q fs)) r r'.
Proof using metrics_on.
  intros Hk Hn Hfl Hw Hon Hv. unfold report_fs_bytes. cbn zeta. set (r1 := if negb _ then _ else r).
  assert (rsame q r r1) as H1 by (subst r1; rframe).
  assert (g_summary (data r1) = g_summary (data r)) as Hs by apply H1.
  assert (f_cnt fs k = of_fs q fs) as Hof by (by rewrite of_fs_ctr, Hk).
  unfold fs_quiet. rewrite <- Hw, Hon, orb_false_r, <- Hfl, Hs. intros H.
  destruct (q_flag q (g_summary (data r)) && bool_decide (source = EVENT_BASED)).
  - by simplify_eq.
  - specialize (Hv eq_refl). destruct (Z.eqb_spec (mtc (f_cnt fs k)) 0) as [Hz|Hz]; simplify_eq.
    + split; [done|]. rewrite Hof in Hz. rewrite Hz. split; [by apply rsame_lowered|]. rewrite (rsame_reported _ _ _ H1). lia.
    + split.
      * rewrite !of_fs_ctr, Hk. simpl. unfold at_ctr. rewrite fn_lookup_insert, fn_lookup_insert_ne by done.
        split; [apply fine_zero_mtc|done].
      * rewrite Hof. eapply drained_after; [exact H1|]. by apply drained_send.
Qed.

Lemma own_fs_number q k c sm ev fs source op r fs' r' : q_fs_ctr q = Some k ->
  (forall s, q_flag q s = sm s) -> q_watch q = CFG_MTC_FS -> mtcWatch (q_watch q) = true ->
  (forall l r r', ev l r = Def r' -> rsame q r r') ->
  (q_flag q (g_summary (data r)) && bool_decide (source = EVENT_BASED) = false -> 0 <= mtc (of_fs q fs) < 2 ^ 63) ->
  report_fs_number (q_name q) k c sm ev fs source op r = Def (fs', r') ->
  settled (of_fs q fs) (of_fs q fs') /\
  if q_flag q (g_summary (data r)) && bool_decide (source = EVENT_BASED) then rsame q r r'
  else drained q (mtc (of_fs q fs)) r r'.
Proof using metrics_on.
  intros Hk Hfl Hw Hon Hev Hv. unfold report_fs_number. cbn zeta. intros H.
  apply bind_def in H as ([fs1 r1] & Ha & H).
  assert (f_cnt fs k = of_fs q fs) as Hof by (by rewrite of_fs_ctr, Hk).
  assert (rsame q r r1 /\ settled (of_fs q fs) (of_fs q fs1)) as [H1 H2].
  { destruct (negb _); [|by simplify_eq]. apply bind_def in Ha as (r2 & Hr & Ha). simplify_eq. split; [by eapply Hev|].
    rewrite !of_fs_ctr, Hk. simpl. unfold at_ctr. rewrite fn_lookup_insert. split; [apply fine_zero_evt|done]. }
  assert (g_summary (data r1) = g_summary (data r)) as Hs by apply H1.
  unfold fs_quiet in H. rewrite <- Hw, Hon, orb_false_r, <- Hfl, Hs in H.
  destruct (q_flag q (g_summary (data r)) && bool_decide (source = EVENT_BASED)).
  - by simplify_eq.
  - specialize (Hv eq_refl). destruct (Z.eqb_spec (mtc (f_cnt fs k)) 0) as [Hz|Hz]; simplify_eq.
    + split; [done|]. rewrite Hof in Hz. rewrite Hz. split; [by apply rsame_lowered|]. rewrite (rsame_reported _ _ _ H1). lia.
    + split.
      * destruct H2 as [H2 H3]. rewrite !of_fs_ctr, Hk in *. simpl. unfold at_ctr. rewrite fn_lookup_insert.
        split; [intros; by apply fine_zero_mtc, H2|done].
      * rewrite Hof. eapply drained_after; [exact H1|]. by apply drained_send.
Qed.

Definition is_fs (q : quantity) : bool := match q with QRx | QTx => false | _ => true end.

Lemma own_fs q fs source op path r fs' r' : is_fs q = true -> mtcWatch (q_watch q) = true ->
  (q_flag q (g_summary (data r)) && bool_decide (source = EVENT_BASED) = false -> 0 <= mtc (of_fs q fs) < 2 ^ 63) ->
  doFSMetric (q_type q) fs source op path r = Def (fs', r') ->
  settled (of_fs q fs) (of_fs q fs') /\
  if q_flag q (g_summary (data r)) && bool_decide (source = EVENT_BASED) then rsame q r r'
  else drained q (mtc (of_fs q fs)) r r'.
Proof using metrics_on.
  intros Hq Hw Hv H. destruct q; try done; simpl in H.
  - injection H as H. by eapply (own_fs_bytes QRead f_numRead f_readBytes).
  - injection H as H. by eapply (own_fs_bytes QWrite f_numWrite f_writeBytes).
  - eapply (own_fs_number QOpen); [done..| |done|exact H]. intros l r1 r2. apply rsame_open_event.
  - eapply (own_fs_number QClose); [done..| |done|exact H]. intros l r1 r2. apply rsame_close_event.
  - eapply (own_fs_number QSeek); [done..| |done|exact H]. intros l r1 r2 Hd. cbn beta in Hd. simplify_eq. apply rsame_event.
Qed.

Lemma own_traffic q num k total rx net source r net' r' : q_net_ctr q = Some k -> num <> k ->
  (forall s, q_flag q s = net_rx_tx s) -> q_watch q = CFG_MTC_NET -> mtcWatch (q_watch q) = true ->
  (q_flag q (g_summary (data r)) && bool_decide (source = EVENT_BASED) = false ->
   0 <= mtc (of_net q net) < 2 ^ 63 /\ (evt (of_net q net) = 0 -> mtc (of_net q net) = 0)) ->
  report_traffic (q_name q) num k total rx net source r = (net', r') ->
  settled (of_net q net) (of_net q net') /\
  if q_flag q (g_summary (data r)) && bool_decide (source = EVENT_BASED) then rsame q r r'
  else drained q (mtc (of_net q net)) r r'.
Proof using metrics_on.
  intros Hk Hn Hfl Hw Hon Hv. unfold report_traffic. cbn zeta.
  assert (n_cnt net k = of_net q net) as Hof by (by rewrite of_net_ctr, Hk).
  assert (forall n f, of_net q (net_set n num f) = of_net q n) as Hnum by (intros; apply of_net_set_ne; congruence).
  assert (forall n f, of_net q (net_set n k f) = f (of_net q n)) as Hset.
  { intros. rewrite !of_net_ctr, Hk. simpl. unfold at_ctr. by rewrite fn_lookup_insert. }
  rewrite Hof. destruct (Z.eqb_spec (evt (of_net q net)) 0) as [Hz|_].
  { intros H. simplify_eq. split; [done|]. case_match; [done|].
    rewrite (proj2 (Hv eq_refl) Hz). split; [done|]. lia. }
  set (r1 := cmdSendEvent _ _ r). assert (rsame q r r1) as H1 by apply rsame_event.
  assert (g_summary (data r1) = g_summary (data r)) as Hs by apply H1. clearbody r1.
  set (net1 := if rx then _ else net).
  assert (settled (of_net q net) (of_net q net1)) as H2.
  { subst net1. destruct rx; [|done]. rewrite Hset, Hnum. split; [apply fine_zero_evt|done]. }
  unfold net_quiet. rewrite <- Hw, Hon, orb_false_r, <- Hfl, Hs. intros H.
  destruct (q_flag q (g_summary (data r)) && bool_decide (source = EVENT_BASED)).
  - by simplify_eq.
  - specialize (Hv eq_refl). destruct (Z.eqb_spec (mtc (of_net q net)) 0) as [Hz|Hz]; simplify_eq.
    + split; [done|]. rewrite Hz. split; [by apply rsame_lowered|]. rewrite (rsame_reported _ _ _ H1). lia.
    + split.
      * rewrite Hset, Hnum. split; [intros; by apply fine_zero_mtc, H2|done].
      * eapply drained_after; [exact H1|]. apply drained_send, Hv.
Qed.

Lemma own_net q net source r net' r' : is_fs q = false -> mtcWatch (q_watch q) = true ->
  (q_flag q (g_summary (data r)) && bool_decide (source = EVENT_BASED) = false ->
   0 <= mtc (of_net q net) < 2 ^ 63 /\ (evt (of_net q net) = 0 -> mtc (of_net q net) = 0)) ->
  doNetMetric (q_type q) net source r = Def (net', r') ->
  settled (of_net q net) (of_net q net') /\
  if q_flag q (g_summary (data r)) && bool_decide (source = EVENT_BASED) then rsame q r r'
  else drained q (mtc (of_net q net)) r r'.
Proof using metrics_on.
  intros Hq Hw Hv H. destruct q; try done; cbn [doNetMetric q_type] in H; injection H as H.
  - by eapply (own_traffic QRx numRX rxBytes netrxBytes true).
  - by eapply (own_traffic QTx numTX txBytes nettxBytes false).
Qed.

(** ** One event *)

(** A step that neither counts nor loses anything. *)
Definition kept (q : quantity) (r r' : rs) : Prop :=
  inv q (data r') /\ reported q r' + pending q (data r') = reported q r + pending q (data r) /\
  reported q r <= reported q r' /\ g_summary (data r') = g_summary (data r).

Lemma rsame_kept q r r' : inv q (data r) -> rsame q r r' -> kept q r r'.
Proof.
  intros I H. pose proof H as [D _ _ R]. split_and!; [by eapply same_inv| |lia|apply D].
  rewrite R, (same_pending _ _ _ D). done.
Qed.

Lemma drained_kept q v p r r0 r' : q_flag q (g_summary (data r)) = false -> inv q (data r0) -> 0 <= v ->
  g_summary (data r0) = g_summary (data r) -> reported q r0 = reported q r ->
  pending q (data r) = pending q (data r0) + v -> carried q p = v -> drained q v r0 r' -> kept q r r'.
Proof.
  intros Hf I Hv Hs Hr Hp Hc [L R]. destruct (lowered_inv q (data r0) (data r')) as [I' P']; [by rewrite Hs|done|done|].
  split_and!; [done|lia|lia|]. rewrite (low_summary _ _ _ L). done.
Qed.

Definition pop (rest : list posted) (r : rs) : rs := on_data (fun s => set_events s rest) r.

Lemma pop_inv q p rest r : events (data r) = p :: rest -> inv q (data r) ->
  inv q (data (pop rest r)) /\ pending q (data r) = pending q (data (pop rest r)) + (if q_flag q (g_summary (data r)) then 0 else carried q p).
Proof.
  intros He [I1 I2 I3 I4 I5]. split.
  - constructor; try done. intros Hf. specialize (I4 Hf). rewrite He in I4. by inversion I4.
  - unfold pending, pop. simpl. destruct (q_flag q _); [unfold tot; simpl; lia|]. unfold que. rewrite He. simpl. lia.
Qed.

Lemma idle_event q p r r' : idle q p -> report_event p r = Def r' -> rsame q r r'.
Proof.
  intros Hi H. unfold report_event in H. apply bind_def in H as (p' & Hp & H).
  assert (p' = p) as ->.
  { destruct p; simpl in Hp; try (by simplify_eq);
      repeat (apply bind_def in Hp as (? & _ & Hp)); by simplify_eq. }
  destruct p; simpl in Hi.
  - apply bind_def in H as ([n' r1] & Hn & H). simplify_eq. by eapply frame_net.
  - apply bind_def in H as ([n' r1] & Hn & H). simplify_eq. by eapply frame_fs.
  - simplify_eq. apply rsame_error.
  - simplify_eq. apply rsame_stat.
  - by eapply rsame_dns.
  - simplify_eq. apply rsame_security.
  - simplify_eq. apply rsame_detection.
  - simplify_eq. by apply rsame_set.
Qed.

Lemma report_event_own q p r r' : mtcWatch (q_watch q) = true -> ~ idle q p ->
  (q_flag q (g_summary (data r)) = false -> carried q p < 2 ^ 63 /\ shown q p) ->
  report_event p r = Def r' ->
  if q_flag q (g_summary (data r)) then rsame q r r' else drained q (carried q p) r r'.
Proof using metrics_on.
  intros Hw Hi Hc H. unfold report_event in H. apply bind_def in H as (p' & Hp & H).
  assert (p' = p) as ->.
  { destruct p; simpl in Hp; try (by simplify_eq);
      repeat (apply bind_def in Hp as (? & _ & Hp)); by simplify_eq. }
  destruct p as [n|f| | | | | |]; cbn [idle] in Hi; try done.
  - assert (n_data_type n = q_type q) as Ht by (destruct (decide (n_data_type n = q_type q)); done).
    unfold shown in Hc. cbn [carried] in *. rewrite decide_True in * by done.
    apply bind_def in H as ([n' r1] & Hn & H). simplify_eq. rewrite Ht in Hn.
    destruct (is_fs q) eqn:Hq.
    + (* the type of a file is not the type of a connection's report *)
      assert (rsame q r r' /\ mtc (of_net q n) = 0) as [Hr Hz].
      { destruct q; try done; simpl in Hn; by simplify_eq. }
      rewrite Hz. case_match; [done|]. split; [by apply rsame_lowered|]. rewrite (rsame_reported _ _ _ Hr). lia.
    + apply own_net in Hn as [_ Hn]; auto; rewrite bool_decide_true, andb_true_r in * by done; [done|].
      intros Hf. destruct (Hc Hf) as (? & ? & ?). auto.
  - assert (f_data_type f = q_type q) as Ht by (destruct (decide (f_data_type f = q_type q)); done).
    unfold shown in Hc. cbn [carried] in *. rewrite decide_True in * by done.
    apply bind_def in H as ([f' r1] & Hn & H). simplify_eq. rewrite Ht in Hn.
    destruct (is_fs q) eqn:Hq.
    + apply own_fs in Hn as [_ Hn]; auto; rewrite bool_decide_true, andb_true_r in * by done; [done|].
      intros Hf. destruct (Hc Hf) as (? & ? & ?). auto.
    + assert (rsame q r r' /\ mtc (of_fs q f) = 0) as [Hr Hz].
      { destruct q; try done; simpl in Hn; by simplify_eq. }
      rewrite Hz. case_match; [done|]. split; [by apply rsame_lowered|]. rewrite (rsame_reported _ _ _ Hr). lia.
Qed.

Lemma event_kept q p rest r r' : mtcWatch (q_watch q) = true -> events (data r) = p :: rest -> inv q (data r) ->
  0 <= reported q r -> reported q r + pending q (data r) < 2 ^ 63 ->
  report_event p (pop rest r) = Def r' -> kept q r r'.
Proof using metrics_on.
  intros Hw He I Hr Hb H. destruct (pop_inv q p rest r He I) as [I0 Hp].
  assert (reported q (pop rest r) = reported q r) as Hrep by done.
  assert (g_summary (data (pop rest r)) = g_summary (data r)) as Hsum by done.
  destruct (decide (idle q p)) as [Hi|Hi].
  - pose proof (idle_event q p _ _ Hi H) as Hs. destruct (rsame_kept _ _ _ I0 Hs) as (K1 & K2 & K3 & K4).
    rewrite (idle_carried _ _ Hi) in Hp. split_and!; [done| |lia|congruence].
    rewrite K2, Hrep, Hp. case_match; lia.
  - assert (q_flag q (g_summary (data r)) = false -> carried q p < 2 ^ 63 /\ shown q p) as Hc.
    { intros Hf. pose proof (inv_posted _ _ I Hf) as Hs. rewrite He in Hs. inversion Hs as [|? ? Hsp]; subst.
      split; [|done]. rewrite Hf in Hp.
      assert (0 <= pending q (data (pop rest r))); [|lia].
      unfold pending. rewrite Hsum, Hf. apply que_nonneg; [done|]. by rewrite Hsum. }
    pose proof (report_event_own q p (pop rest r) r' Hw Hi Hc H) as Hd. rewrite Hsum in Hd.
    destruct (q_flag q (g_summary (data r))) eqn:Hf.
    + destruct (rsame_kept _ _ _ I0 Hd) as (K1 & K2 & K3 & K4). split_and!; [done| |lia|congruence]. rewrite K2, Hrep, Hp. lia.
    + destruct (Hc eq_refl) as [_ [Hn _]]. by eapply drained_kept.
Qed.

(** ** Totals *)

Lemma ctr_inv q c f s : (forall v, fine v -> fine (f v)) -> inv q s -> inv q (on_ctr c f s).
Proof.
  intros Hf [I1 I2 I3 I4 I5]. constructor; try done. intros d Hd. simpl. unfold at_ctr.
  destruct (decide (d = c)) as [->|Hne]; [rewrite fn_lookup_insert|rewrite fn_lookup_insert_ne by done]; auto.
Qed.

Lemma total_one q c t f r : q_flag q (g_summary (data r)) = true -> c ∈ q_totals q -> inv q (data r) ->
  0 <= reported q r -> reported q r + pending q (data r) < 2 ^ 63 ->
  let v := mtc (g_ctrs (data r) c) in
  let r' := on_data (on_ctr c zero_mtc) (cmdSendMetric (int_event (q_name q) v t f) r) in
  kept q r r' /\ (forall d, g_ctrs (data r') d = if decide (d = c) then zero_mtc (g_ctrs (data r) d) else g_ctrs (data r) d).
Proof using metrics_on.
  intros Hf Hc I Hr Hb v r'. unfold pending in Hb. rewrite Hf in Hb.
  assert (0 <= v < 2 ^ 63) as Hv.
  { pose proof (tot_part q c _ I Hc). pose proof (inv_ctrs _ _ I c Hc) as [? _]. subst v. lia. }
  assert (reported q r' = reported q r + v) as Hrep by (by apply (reported_metric q)).
  assert (data r' = on_ctr c zero_mtc (data r)) as Hd by (subst r'; simpl; by rewrite metric_data).
  split.
  - split_and!; [|..|lia|by rewrite Hd].
    + rewrite Hd. apply ctr_inv; [apply fine_zero_mtc|done].
    + unfold pending. rewrite Hd. simpl. rewrite Hf, Hrep, tot_on_ctr by done. simpl. subst v. lia.
  - intros d. rewrite Hd. simpl. unfold at_ctr. case_decide as Hx; [subst; by rewrite fn_lookup_insert|].
    by rewrite fn_lookup_insert_ne.
Qed.

Lemma kept_quantity_trans q r1 r2 r3 : kept q r1 r2 -> kept q r2 r3 -> kept q r1 r3.
Proof. intros (A1 & A2 & A3 & A4) (B1 & B2 & B3 & B4). split_and!; [done|lia|lia|congruence]. Qed.

Definition empty_ctr (r : rs) (c : ctr) : Prop := mtc (g_ctrs (data r) c) = 0.

(** The loop of [doTotalNetRxTx]. *)
Definition drain_buckets (q : quantity) (value : sock_summary_bucket_t -> ctr) (l : list sock_summary_bucket_t) (r : rs) : rs :=
  foldl (fun r bucket =>
      let v := mtc (g_ctrs (data r) (value bucket)) in
      if v =? 0 then r else
      let r := if net_rx_tx (g_summary (data r)) then
                 cmdSendMetric (int_event (q_name q) v DELTA
                   [PROC_FIELD; PID_FIELD; HOST_FIELD; UNIT_FIELD "byte"; CLASS_FIELD (bucketName bucket); SUMMARY_FIELD "true"]) r
               else r in
      on_data (on_ctr (value bucket) zero_mtc) r) r l.

Lemma total_buckets q (value : sock_summary_bucket_t -> ctr) l r : (forall b, value b ∈ q_totals q) ->
  q_flag q (g_summary (data r)) = true -> (forall s, q_flag q s = net_rx_tx s) -> inv q (data r) -> 0 <= reported q r ->
  reported q r + pending q (data r) < 2 ^ 63 ->
  let r' := drain_buckets q value l r in
  kept q r r' /\ (forall c, empty_ctr r c -> empty_ctr r' c) /\ (forall b, b ∈ l -> empty_ctr r' (value b)).
Proof using metrics_on.
  intros Hval Hf Hfl. revert r Hf. induction l as [|b l IH]; intros r Hf I Hr Hb; cbn zeta.
  { split_and!; [|done|set_solver]. by apply rsame_kept. }
  unfold drain_buckets. cbn [foldl]. cbn zeta. fold (drain_buckets q value l).
  set (r1 := if _ =? 0 then r else _).
  assert (kept q r r1 /\ (forall c, empty_ctr r c -> empty_ctr r1 c) /\ empty_ctr r1 (value b)) as (K & K1 & K2).
  { subst r1. destruct (Z.eqb_spec (mtc (g_ctrs (data r) (value b))) 0) as [Hz|Hz].
    - split_and!; [by apply rsame_kept|done|done].
    - rewrite <- Hfl, Hf.
      destruct (total_one q (value b) DELTA
        [PROC_FIELD; PID_FIELD; HOST_FIELD; UNIT_FIELD "byte"; CLASS_FIELD (bucketName b); SUMMARY_FIELD "true"] r
        Hf (Hval b) I Hr Hb) as [K Hg].
      unfold empty_ctr. split_and!; [done| |].
      + intros c Hc. rewrite Hg. case_decide; [done|]. done.
      + rewrite Hg, decide_True by done. done. }
  destruct K as (J1 & J2 & J3 & J4).
  destruct (IH r1) as (L1 & L2 & L3); [by rewrite J4|done|lia|lia|].
  split_and!; [by eapply kept_quantity_trans| |].
  - intros c Hc. by apply L2, K1.
  - intros b' [->|Hb']%elem_of_cons; [by apply L2|by apply L3].
Qed.

Lemma own_total q r : mtcWatch (q_watch q) = true -> inv q (data r) -> 0 <= reported q r ->
  reported q r + pending q (data r) < 2 ^ 63 ->
  kept q r (doTotal (total_type q) r) /\
  (q_flag q (g_summary (data r)) = true -> pending q (data (doTotal (total_type q) r)) = 0).
Proof using metrics_on.
  intros Hw I Hr Hb. destruct (q_flag q (g_summary (data r))) eqn:Hf.
  2:{ assert (doTotal (total_type q) r = r) as ->.
      { destruct q; cbn [q_flag] in Hf; cbn [doTotal total_type total_of]; rewrite Hf; reflexivity. }
      split; [by apply rsame_kept|done]. }
  destruct (is_fs q) eqn:Hq.
  - assert (exists c u, q_totals q = [c] /\ total_of (total_type q) = Some (q_flag q, q_watch q, q_name q, c, u, false)) as (c & u & Hc & Ht)
      by (destruct q; try done; eauto).
    rewrite doTotal_plain by (by destruct q). rewrite Ht, Hf, Hw. cbn [negb orb]. cbn zeta.
    assert (forall s, tot q s = mtc (g_ctrs s c)) as Htot by (intros s; unfold tot; rewrite Hc; simpl; lia).
    destruct (Z.eqb_spec (mtc (g_ctrs (data r) c)) 0) as [Hz|Hz].
    + split; [by apply rsame_kept|]. intros _. unfold pending. by rewrite Hf, Htot.
    + destruct (total_one q c DELTA (summary_fields u) r Hf) as [K Hg]; [by rewrite Hc; left|done..|].
      split; [done|]. intros _. unfold pending. destruct K as (_ & _ & _ & ->). rewrite Hf, Htot, Hg, decide_True; done.
  - assert (exists value, q_totals q = map value buckets /\ (forall s, q_flag q s = net_rx_tx s) /\
      (forall b, value b ∈ q_totals q) /\ doTotalNetRxTx (total_type q) r = drain_buckets q value buckets r) as (value & Hv & Hfl & Hin & Hfold).
    { destruct q; try done; [exists netrxBytes|exists nettxBytes]; (split_and!; [done|done| |done]); intros []; set_solver. }
    assert (doTotal (total_type q) r = doTotalNetRxTx (total_type q) r) as ->.
    { destruct q; try discriminate; cbn [q_flag q_watch] in Hf, Hw; cbn [doTotal total_type]; rewrite Hf, Hw; reflexivity. }
    destruct (total_buckets q value buckets r Hin Hf Hfl I Hr Hb) as (K & _ & Hz).
    rewrite Hfold. clear Hfold. set (r' := drain_buckets q value buckets r) in *. clearbody r'.
    split; [exact K|]. intros _. destruct K as (_ & _ & _ & Hs).
    unfold pending. rewrite Hs, Hf. unfold tot. rewrite Hv, map_map.
    unfold empty_ctr in Hz. simpl. rewrite !Hz by set_solver. done.
Qed.

End Own.

(** ** Steps *)

(** Does an update of this kind count in the present state? *)
Definition noticed (s : st) (type : metric_t) (fd : Z) : bool :=
  match type with
  | NETRX | NETTX => bool_decide (is_Some (getNetEntry s fd))
  | FS_READ | FS_WRITE | FS_OPEN | FS_CLOSE | FS_SEEK => checkFSEntry s fd
  | _ => false
  end.

Definition amount_of (q : quantity) (x : metric_t * Z) : Z :=
  if decide (x.1 = q_type q) then amount q x.2 else 0.
Definition observed (q : quantity) (l : list (metric_t * Z)) : Z := sumZ (map (amount_of q) l).

(** An event that carries no counters of entries. *)
Definition plain_event (p : posted) : Prop := match p with PFs _ | PNet _ => False | _ => True end.

Section Steps.
Context `{E : Env} `{P : Proc}.

(** A step of the data path and what it has counted: an update, a change of an
    entry that keeps its counters or clears them, a plain event, a change of
    what no counter depends on. *)
Inductive dstep : st -> list (metric_t * Z) -> st -> Prop :=
  | d_update type fd size f p s : (noticed s type fd = true -> 0 <= size) ->
      dstep s (if noticed s type fd then [(type, size)] else []) (doUpdateState type fd size f p s)
  | d_fs fd f s : (forall x c, f_cnt (f x) c = f_cnt x c) \/ (forall x c, f_cnt (f x) c = zero_elt) ->
      dstep s [] (on_fs fd f s)
  | d_net fd f s : (forall x c, n_cnt (f x) c = n_cnt x c) \/ (forall x c, n_cnt (f x) c = zero_elt) ->
      dstep s [] (on_net fd f s)
  | d_post p s : plain_event p -> dstep s [] (cmdPostEvent p s)
  | d_quiet s s' : g_ctrs s' = g_ctrs s -> g_netinfo s' = g_netinfo s -> g_fsinfo s' = g_fsinfo s ->
      g_summary s' = g_summary s -> events s' = events s -> dropped s' = dropped s -> (allocs s = [] -> allocs s' = []) ->
      dstep s [] s'.

(** What [reportFD] reports of an entry. *)
Definition periodic_net (s : summary_t) (type : metric_t) : Prop :=
  match type with
  | NETTX | NETRX => net_rx_tx s = false
  | OPEN_PORTS | NET_CONNECTIONS | CONNECTION_CLOSE | CONNECTION_DURATION => net_open_close s = false
  | _ => False
  end.
Definition periodic_fs (s : summary_t) (type : metric_t) : Prop :=
  match type with
  | FS_DURATION | FS_READ | FS_WRITE => fs_read_write s = false
  | FS_SEEK => fs_seek s = false
  | _ => False
  end.

Inductive step : rs -> list (metric_t * Z) -> rs -> Prop :=
  | s_data r l s : dstep (data r) l s -> step r l (set_data r s)
  | s_event r p rest r' : events (data r) = p :: rest -> report_event p (pop rest r) = Def r' -> step r [] r'
  | s_total r type : step r [] (doTotal type r)
  | s_total_duration r type : step r [] (doTotalDuration type r)
  | s_error r type : step r [] (doErrorMetric type PERIODIC None None None r)
  | s_proc r i pc u type : step r [] (doProcMetric i pc u type r)
  | s_count r n : step r [] (set_count r n)
  | s_captured r r' : reportAllCapturedMetrics r = Def r' -> step r [] r'
  | s_net r fd type net r' : periodic_net (g_summary (data r)) type ->
      doNetMetric type (net_at (data r) fd) PERIODIC r = Def (net, r') -> step r [] (on_data (on_net fd (fun _ => net)) r')
  | s_fs r fd type op fs r' : periodic_fs (g_summary (data r)) type ->
      doFSMetric type (fs_at (data r) fd) PERIODIC op None r = Def (fs, r') -> step r [] (on_data (on_fs fd (fun _ => fs)) r').

Inductive run : rs -> list (metric_t * Z) -> rs -> Prop :=
  | run_nil r : run r [] r
  | run_step r1 l1 r2 l2 r3 : step r1 l1 r2 -> run r2 l2 r3 -> run r1 (l1 ++ l2) r3.

(** ** Steps keep the account *)

Hypothesis metrics_on : mtcEnabled = true.

Definition balanced (q : quantity) (x : Z) (r r' : rs) : Prop :=
  inv q (data r') /\ reported q r' + pending q (data r') = reported q r + pending q (data r) + x /\
  reported q r <= reported q r' /\ g_summary (data r') = g_summary (data r).

Lemma kept_balanced q r r' : kept q r r' -> balanced q 0 r r'.
Proof. intros (? & ? & ? & ?). split_and!; [done|lia|done|done]. Qed.

Lemma same_balanced q r s' : inv q (data r) -> same q (data r) s' -> balanced q 0 r (set_data r s').
Proof. intros I H. apply kept_balanced. split_and!; [by eapply same_inv| |done|apply H]. simpl. by rewrite (same_pending _ _ _ H). Qed.

Lemma zero_fs_entry q fd f s : inv q s -> (forall x c, f_cnt (f x) c = zero_elt) ->
  inv q (on_fs fd f s) /\ pending q (on_fs fd f s) = pending q s.
Proof.
  intros I Hf. destruct (is_fs q) eqn:Hq.
  2:{ assert (same q s (on_fs fd f s)) as H by (apply same_on_fs; by destruct q).
      split; [by eapply same_inv|by apply same_pending]. }
  destruct (g_fsinfo s) as [t|] eqn:Ht; [|unfold on_fs; by rewrite Ht].
  apply (touched_inv q fd (fun _ => zero_elt) s); [by intros; apply fine_zero|done| |done]. constructor.
  - intros c _. by rewrite (on_fs_rest g_ctrs).
  - by apply on_fs_rest.
  - by rewrite (on_fs_rest events), (on_fs_rest dropped).
  - intros fd'. assert (forall s fd, ent q s fd = of_fs q (fs_at s fd)) as He by (intros; by destruct q).
    rewrite !He, fs_at_on_fs, Ht. destruct (decide (fd' = fd)) as [->|Hne].
    + rewrite decide_True by eauto. destruct q; try done; apply Hf.
    + rewrite decide_False by naive_solver. done.
  - by apply on_fs_rest.
  - intros. by rewrite (on_fs_rest allocs).
Qed.
Lemma zero_net_entry q fd f s : inv q s -> (forall x c, n_cnt (f x) c = zero_elt) ->
  inv q (on_net fd f s) /\ pending q (on_net fd f s) = pending q s.
Proof.
  intros I Hf. destruct (is_fs q) eqn:Hq.
  { assert (same q s (on_net fd f s)) as H by (apply same_on_net; by destruct q).
    split; [by eapply same_inv|by apply same_pending]. }
  destruct (g_netinfo s) as [t|] eqn:Ht; [|unfold on_net; by rewrite Ht].
  apply (touched_inv q fd (fun _ => zero_elt) s); [by intros; apply fine_zero|done| |done]. constructor.
  - intros c _. by rewrite (on_net_rest g_ctrs).
  - by apply on_net_rest.
  - by rewrite (on_net_rest events), (on_net_rest dropped).
  - intros fd'. assert (forall s fd, ent q s fd = of_net q (net_at s fd)) as He by (intros; by destruct q).
    rewrite !He, net_at_on_net, Ht. destruct (decide (fd' = fd)) as [->|Hne].
    + rewrite decide_True by eauto. destruct q; try done; apply Hf.
    + rewrite decide_False by naive_solver. done.
  - by apply on_net_rest.
  - intros. by rewrite (on_net_rest allocs).
Qed.

Lemma zeroed_balanced q r s' : inv q s' -> pending q s' = pending q (data r) -> g_summary s' = g_summary (data r) ->
  balanced q 0 r (set_data r s').
Proof. intros I Hp Hs. split_and!; [done| |done|done]. simpl. rewrite Hp. change (reported q (set_data r s')) with (reported q r). lia. Qed.

Lemma dstep_balanced q r l s : dstep (data r) l s -> inv q (data r) -> 0 <= reported q r ->
  reported q r + pending q (data r) + observed q l < 2 ^ 63 -> balanced q (observed q l) r (set_data r s).
Proof using metrics_on.
  intros H I Hr Hb. inversion H; subst.
  - destruct (decide (type = q_type q)) as [->|Ht].
    + assert (noticed (data r) (q_type q) fd = counts q (data r) fd) as Hn by (by destruct q).
      destruct (counts q (data r) fd) eqn:Hc; rewrite Hn in *.
      * unfold observed, amount_of in *. cbn [map sumZ foldr fst snd] in *. rewrite decide_True in * by done.
        destruct (count_update metrics_on q fd size f p (data r)) as (I' & Hp & Hs); [done|auto|lia|].
        rewrite Hc in Hp. split_and!; [done| |done|done]. simpl. rewrite Hp.
        change (reported q (set_data r _)) with (reported q r). lia.
      * assert (doUpdateState (q_type q) fd size f p (data r) = data r) as ->.
        { destruct q; simpl in *; try (by rewrite Hc); apply bool_decide_eq_false in Hc;
            destruct (getNetEntry (data r) fd) eqn:Hg; try done; exfalso; apply Hc; eauto. }
        by apply same_balanced.
    + assert (observed q (if noticed (data r) type fd then [(type, size)] else []) = 0) as ->.
      { destruct (noticed _ _ _); [|done]. unfold observed, amount_of. simpl. by rewrite decide_False. }
      apply same_balanced; [done|]. by apply same_update.
  - destruct H0 as [Hf|Hf].
    + apply same_balanced; [done|]. apply same_on_fs. intros x. rewrite !of_fs_ctr. by destruct (q_fs_ctr q).
    + destruct (zero_fs_entry q fd f (data r) I Hf). apply zeroed_balanced; [done..|]. by apply on_fs_rest.
  - destruct H0 as [Hf|Hf].
    + apply same_balanced; [done|]. apply same_on_net. intros x. rewrite !of_net_ctr. by destruct (q_net_ctr q).
    + destruct (zero_net_entry q fd f (data r) I Hf). apply zeroed_balanced; [done..|]. by apply on_net_rest.
  - apply same_balanced; [done|]. apply same_cmdPost. by destruct p.
  - apply same_balanced; [done|]. constructor; try done.
    + intros c _. congruence.
    + unfold que. congruence.
    + by rewrite H4, H5.
    + intros fd. unfold fs_at. by rewrite H2.
    + intros fd. unfold net_at. by rewrite H1.
Qed.

(** An entry is put back. *)
Lemma put_net q fd net s : inv q s -> settled (of_net q (net_at s fd)) (of_net q net) ->
  inv q (on_net fd (fun _ => net) s) /\ pending q (on_net fd (fun _ => net) s) = pending q s.
Proof.
  intros I [Hf Hz]. destruct (is_fs q) eqn:Hq.
  { assert (same q s (on_net fd (fun _ => net) s)) as H by (apply same_on_net; by destruct q).
    split; [by eapply same_inv|by apply same_pending]. }
  destruct (g_netinfo s) as [t|] eqn:Ht; [|unfold on_net; by rewrite Ht].
  assert (forall s fd, ent q s fd = of_net q (net_at s fd)) as He by (intros; by destruct q).
  assert (forall fd', ent q (on_net fd (fun _ => net) s) fd' = if decide (fd' = fd) then of_net q net else ent q s fd') as Hat.
  { intros fd'. rewrite !He, net_at_on_net, Ht. destruct (decide (fd' = fd)) as [->|Hne].
    - by rewrite decide_True by eauto.
    - by rewrite decide_False by naive_solver. }
  destruct I as [I1 I2 I3 I4 I5]. split.
  - constructor.
    + by rewrite (on_net_rest allocs).
    + intros fd'. rewrite Hat. case_decide; [|apply I2]. apply Hf. rewrite <- He. apply I2.
    + rewrite (on_net_rest g_summary) by done. intros Hd fd'. rewrite Hat. case_decide; [|by apply I3].
      apply Hz. rewrite <- He. by apply I3.
    + rewrite (on_net_rest g_summary), (on_net_rest events), (on_net_rest dropped) by done. done.
    + intros c Hc. rewrite (on_net_rest g_ctrs) by done. by apply I5.
  - apply (on_net_rest (pending q)). by intros.
Qed.
Lemma put_fs q fd fs s : inv q s -> settled (of_fs q (fs_at s fd)) (of_fs q fs) ->
  inv q (on_fs fd (fun _ => fs) s) /\ pending q (on_fs fd (fun _ => fs) s) = pending q s.
Proof.
  intros I [Hf Hz]. destruct (is_fs q) eqn:Hq.
  2:{ assert (same q s (on_fs fd (fun _ => fs) s)) as H by (apply same_on_fs; by destruct q).
      split; [by eapply same_inv|by apply same_pending]. }
  destruct (g_fsinfo s) as [t|] eqn:Ht; [|unfold on_fs; by rewrite Ht].
  assert (forall s fd, ent q s fd = of_fs q (fs_at s fd)) as He by (intros; by destruct q).
  assert (forall fd', ent q (on_fs fd (fun _ => fs) s) fd' = if decide (fd' = fd) then of_fs q fs else ent q s fd') as Hat.
  { intros fd'. rewrite !He, fs_at_on_fs, Ht. destruct (decide (fd' = fd)) as [->|Hne].
    - by rewrite decide_True by eauto.
    - by rewrite decide_False by naive_solver. }
  destruct I as [I1 I2 I3 I4 I5]. split.
  - constructor.
    + by rewrite (on_fs_rest allocs).
    + intros fd'. rewrite Hat. case_decide; [|apply I2]. apply Hf. rewrite <- He. apply I2.
    + rewrite (on_fs_rest g_summary) by done. intros Hd fd'. rewrite Hat. case_decide; [|by apply I3].
      apply Hz. rewrite <- He. by apply I3.
    + rewrite (on_fs_rest g_summary), (on_fs_rest events), (on_fs_rest dropped) by done. done.
    + intros c Hc. rewrite (on_fs_rest g_ctrs) by done. by apply I5.
  - apply (on_fs_rest (pending q)). by intros.
Qed.

(** A report that leaves the account as it is, up to the entry it puts back. *)
Lemma put_balanced q r r' s' : kept q r r' -> inv q s' -> pending q s' = pending q (data r') ->
  g_summary s' = g_summary (data r') -> balanced q 0 r (set_data r' s').
Proof.
  intros (K1 & K2 & K3 & K4) I Hp Hs. split_and!; [done| | |].
  - simpl. rewrite Hp. change (reported q (set_data r' s')) with (reported q r'). lia.
  - done.
  - simpl. congruence.
Qed.

Lemma lowered_kept q r r' : q_flag q (g_summary (data r)) = false -> inv q (data r) -> drained q 0 r r' -> kept q r r'.
Proof.
  intros Hf I [L R]. destruct (lowered_inv _ _ _ Hf L I) as [I' Hp]. split_and!; [done|lia|lia|apply L].
Qed.

Lemma net_balanced q r fd type net r' : mtcWatch (q_watch q) = true -> inv q (data r) ->
  periodic_net (g_summary (data r)) type -> doNetMetric type (net_at (data r) fd) PERIODIC r = Def (net, r') ->
  balanced q 0 r (on_data (on_net fd (fun _ => net)) r').
Proof using metrics_on.
  intros Hw I Hp H.
  assert (kept q r r' /\ g_netinfo (data r') = g_netinfo (data r) /\
          settled (of_net q (net_at (data r) fd)) (of_net q net)) as (K & Hn & Hset).
  { destruct (decide (type = q_type q)) as [->|Ht].
    - destruct (is_fs q) eqn:Hq; [by destruct q|].
      assert (q_flag q (g_summary (data r)) = false) as Hf by (by destruct q).
      assert (mtc (of_net q (net_at (data r) fd)) = 0) as Hz.
      { pose proof (inv_detail _ _ I Hf fd) as Hz. by destruct q. }
      apply own_net in H as [Hs Hd]; [| |done|done|by intros; rewrite Hz; split; lia].
      2:{ exact metrics_on. }
      rewrite Hf in Hd. cbn [andb] in Hd. rewrite Hz in Hd. split_and!; [by apply lowered_kept|apply Hd|done].
    - apply (frame_net q) in H as [Hs Hd]; [|done]. split_and!; [by apply rsame_kept|apply Hs|by rewrite Hd]. }
  assert (net_at (data r') fd = net_at (data r) fd) as Hat by (unfold net_at; by rewrite Hn).
  destruct (put_net q fd net (data r')) as [I' Hp']; [apply K|by rewrite Hat|].
  apply put_balanced; [done..|]. by apply on_net_rest.
Qed.

Lemma fs_balanced q r fd type op fs r' : mtcWatch (q_watch q) = true -> inv q (data r) ->
  periodic_fs (g_summary (data r)) type -> doFSMetric type (fs_at (data r) fd) PERIODIC op None r = Def (fs, r') ->
  balanced q 0 r (on_data (on_fs fd (fun _ => fs)) r').
Proof using metrics_on.
  intros Hw I Hp H.
  assert (kept q r r' /\ g_fsinfo (data r') = g_fsinfo (data r) /\
          settled (of_fs q (fs_at (data r) fd)) (of_fs q fs)) as (K & Hn & Hset).
  { destruct (decide (type = q_type q)) as [->|Ht].
    - destruct (is_fs q) eqn:Hq; [|by destruct q].
      assert (q_flag q (g_summary (data r)) = false) as Hf by (by destruct q).
      assert (mtc (of_fs q (fs_at (data r) fd)) = 0) as Hz.
      { pose proof (inv_detail _ _ I Hf fd) as Hz. by destruct q. }
      apply own_fs in H as [Hs Hd]; [| |done|done|by intros; rewrite Hz; lia].
      2:{ exact metrics_on. }
      rewrite Hf in Hd. cbn [andb] in Hd. rewrite Hz in Hd. split_and!; [by apply lowered_kept|apply Hd|done].
    - apply (frame_fs q) in H as [Hs Hd]; [|done]. split_and!; [by apply rsame_kept|apply Hs|by rewrite Hd]. }
  assert (fs_at (data r') fd = fs_at (data r) fd) as Hat by (unfold fs_at; by rewrite Hn).
  destruct (put_fs q fd fs (data r')) as [I' Hp']; [apply K|by rewrite Hat|].
  apply put_balanced; [done..|]. by apply on_fs_rest.
Qed.

Lemma step_balanced q r l r' : mtcWatch (q_watch q) = true -> step r l r' -> inv q (data r) -> 0 <= reported q r ->
  reported q r + pending q (data r) + observed q l < 2 ^ 63 -> balanced q (observed q l) r r'.
Proof using metrics_on.
  intros Hw H I Hr Hb. inversion H; subst; try (change (observed q []) with 0 in * ).
  - by apply dstep_balanced.
  - apply kept_balanced. eapply event_kept; try done. lia.
  - apply kept_balanced. destruct (decide (type = total_type q)) as [->|Ht].
    + apply own_total; try done. lia.
    + apply rsame_kept; [done|]. by apply frame_other_total.
  - apply kept_balanced, rsame_kept; [done|]. apply rsame_total_duration.
  - apply kept_balanced, rsame_kept; [done|]. apply rsame_error.
  - apply kept_balanced, rsame_kept; [done|]. apply rsame_proc.
  - apply kept_balanced, rsame_kept; [done|]. by apply rsame_set.
  - apply kept_balanced, rsame_kept; [done|]. by apply rsame_captured.
  - by eapply net_balanced.
  - by eapply fs_balanced.
Qed.

Lemma observed_app q l k : observed q (l ++ k) = observed q l + observed q k.
Proof. unfold observed. by rewrite map_app, sumZ_app. Qed.

Lemma pending_nonneg q s : inv q s -> 0 <= pending q s.
Proof. intros I. unfold pending. destruct (q_flag q _) eqn:Hf; [by apply tot_nonneg|by apply que_nonneg]. Qed.

(** Sizes are counted when they are not negative. *)
Lemma step_amounts q r l r' : step r l r' -> 0 <= observed q l.
Proof.
  destruct 1 as [? ? ? []| | | | | | | | |]; try done.
  destruct (noticed _ _ _); [|done]. unfold observed, amount_of. simpl. case_decide; [|done].
  specialize (H eq_refl). destruct q; simpl; lia.
Qed.
Lemma run_amounts q r l r' : run r l r' -> 0 <= observed q l.
Proof. induction 1 as [|?????? _ IH]; [done|]. rewrite observed_app. pose proof (step_amounts q _ _ _ H). lia. Qed.

Lemma run_balanced q r l r' : mtcWatch (q_watch q) = true -> run r l r' -> inv q (data r) -> 0 <= reported q r ->
  reported q r + pending q (data r) + observed q l < 2 ^ 63 -> balanced q (observed q l) r r'.
Proof using metrics_on.
  intros Hw H. induction H as [r|r1 l1 r2 l2 r3 H1 H2 IH]; intros I Hr Hb.
  - apply kept_balanced, rsame_kept; [done|reflexivity].
  - rewrite observed_app in *. pose proof (step_amounts q _ _ _ H1). pose proof (run_amounts q _ _ _ H2).
    apply (step_balanced q) in H1 as (I2 & S2 & M2 & F2); [|done|done|done|lia].
    destruct IH as (I3 & S3 & M3 & F3); [done|lia|lia|split_and!; [done|lia|lia|congruence]].
Qed.

Lemma run_trans r1 l1 r2 l2 r3 : run r1 l1 r2 -> run r2 l2 r3 -> run r1 (l1 ++ l2) r3.
Proof. induction 1 as [|????? H _ IH]; intros K; [done|]. rewrite <- app_assoc. econstructor; eauto. Qed.
Lemma run_one r l r' : step r l r' -> run r l r'.
Proof. intros H. rewrite <- (app_nil_r l). econstructor; [done|constructor]. Qed.

End Steps.
End AccountRun.
