(* ===== verification/Traffic.v ===== *)
(** * Traffic: reads, writes and the protocols in them (src/state.c, src/metriccapture.c)

    What the interposed reads, writes, sends and receives end in: they count
    ([State.doUpdateState]), keep the addresses, and pass the data to
    [doProtocol], which detects TLS and the configured protocols with regular
    expressions, queues payloads, feeds the HTTP parser ([HttpState.doHttp]) and
    captures StatsD metrics.  [doBlockConnection] decides which connections are
    refused.

    The regular expressions are matched by the PCRE2 library, which is a
    parameter, as are the definitions of the protocols.  A buffer is seen as its
    vectors, for the code that follows them, and as the bytes at the pointer, for
    the code that reads it as it is. *)

From S2P Require Import Prelude StrSearch Types HttpState CfgParse StateData State.

Module Traffic.
Import StateData State.

#[local] Open Scope Z_scope.

Record buffer := mkBuffer {
  view : HttpState.payload;          (* by its src_data_t *)
  raw : list Z;                      (* the bytes at the pointer *)
}.

(** A [net_info *]: an entry of the table, or of the list by channel. *)
Inductive netref := RTable (fd : Z) | RExtra (id : Z).

Definition net_of (s : st) (n : netref) : net_info :=
  match n with RTable fd => net_at s fd | RExtra id => default zero_net (g_extra s !! id) end.
Definition on_ref (n : netref) (f : net_info -> net_info) (s : st) : st :=
  match n with
  | RTable fd => on_net fd f s
  | RExtra id => set_g_extra s (alter f id (g_extra s))
  end.

(** The groups of a match: a substring may not be copied for want of memory. *)
Definition groups : Type := option string * option string * option string.

Class Detect := mkDetect {
  re_ok : protocol_def_t -> bool;              (* protoDef->re is not NULL *)
  re_match : protocol_def_t -> list Z -> Z;    (* pcre2_match_wrapper *)
  protocols : list protocol_def_t;             (* the entries of g_protlist, by their numbers *)
  g_tls_protocol_def : option protocol_def_t;
  g_http_protocol_def : option protocol_def_t;
  g_statsd_protocol_def : option protocol_def_t;
  cfgPayEnable : bool;
  cfgEvtEnable : bool;
  cfgEvtHttp : bool;                           (* cfgEvtFormatSourceEnabled(.., CFG_SRC_HTTP) *)
  cfgMtcEnable : bool;
  re_statsd_ext : option (list Z -> option (groups * option string));
  re_statsd : option (list Z -> option groups);
  g_metric_buf : option nat;                   (* its capacity *)
  http_start : option StrSearch.search_t;
  http_end : option StrSearch.search_t;
  http_clength : option (list Z -> option (list Z));
  http_upgrade : option (list Z -> bool);
  http_connect : option (list Z -> bool);
  http_alloc : nat -> bool;
  http_junk : nat -> nat -> Z;
}.

Section Traffic.
Context `{E : Env} `{D : Detect}.

(** ** Protocols *)

Definition MAX_CONVERT : Z := 256.

Definition hex_digit (n : Z) : Z := if n <? 10 then 48 + n else 87 + n.
(** ["%02x"] of each byte *)
Definition hexdump (l : list Z) : list Z := concat (map (fun b => [hex_digit (b / 16); hex_digit (b mod 16)]) l).

(** The first [n] bytes of a buffer. *)
Definition read_bytes (n : Z) (buf : list Z) : ub (list Z) :=
  if n <=? Z.of_nat (length buf) then Def (take (Z.to_nat n) buf) else UB.

Definition set_detect (n : netref) (x : detect_type_t) : st -> st := on_ref n (fun e => setn_protoDetect e x).

Definition setProtocol (sockfd : Z) (protoDef : protocol_def_t) (net : netref) (buf : list Z) (len : Z) (s : st)
  : ub (bool * st) :=
  let cvlen := if len <? MAX_CONVERT then len else MAX_CONVERT in
  if ((len <=? 0) && (CfgParse.len protoDef <=? 0)) || negb (re_ok protoDef) || (cvlen <? CfgParse.len protoDef)
  then Def (false, set_detect net DETECT_FALSE s) else
  let cvlen := if 0 <? CfgParse.len protoDef then CfgParse.len protoDef else cvlen in
  let '(ok, s) := if CfgParse.binary protoDef then calloc s else (true, s) in
  if negb ok then Def (false, set_detect net DETECT_FALSE s) else
  bytes ← read_bytes cvlen buf;
  let data := if CfgParse.binary protoDef then hexdump bytes else bytes in
  if 0 <? re_match protoDef data then
    let s := on_ref net (fun e => setn_protoProtoDef (setn_protoDetect e DETECT_TRUE) (Some protoDef)) s in
    if CfgParse.detect protoDef && evtSource CFG_SRC_NET then
      match CfgParse.protname protoDef with
      | None => Def (false, s)
      | Some _ =>
          let '(proto, s) := calloc s in
          let '(name, s) := calloc s in
          if proto && name
          then Def (true, cmdPostEvent (PDetect (CfgParse.protname protoDef) sockfd (n_uid (net_of s net))) s)
          else Def (false, s)
      end
    else Def (true, s)
  else Def (false, set_detect net DETECT_FALSE s).

(** The vectors that hold something. *)
Definition vectors (iov : list (option (list Z))) : list (list Z) :=
  omap (fun x => match x with Some (b :: l) => Some (b :: l) | _ => None end) iov.

(** [ret = ret || f(vector)] over the vectors *)
Fixpoint first_of (f : list Z -> st -> ub (bool * st)) (l : list (list Z)) (s : st) : ub (bool * st) :=
  match l with
  | [] => Def (false, s)
  | v :: l => '(ret, s) ← f v s; if ret : bool then Def (true, s) else first_of f l s
  end.

Definition setProtocolByType (sockfd : Z) (protoDef : protocol_def_t) (net : netref) (buf : HttpState.payload) (len : Z)
    (s : st) : ub (bool * st) :=
  let each := first_of (fun v => setProtocol sockfd protoDef net v (Z.of_nat (length v))) in
  match buf with
  | HttpState.BUF b => setProtocol sockfd protoDef net b len s
  | HttpState.MSG iov => each (vectors iov) s
  | HttpState.IOV iov => each (vectors (take (Z.to_nat len) iov)) s
  | HttpState.OTHER_DATA => Def (false, s)
  end.

(** ** Payloads *)

(** One [realloc] for each vector. *)
Fixpoint gather (l : list (list Z)) (acc : option (list Z)) (s : st) : option (option (list Z)) * st :=
  match l with
  | [] => (Some acc, s)
  | v :: l => let '(ok, s) := calloc s in
              if ok : bool then gather l (Some (default [] acc ++ v)) s else (None, s)
  end.

Definition cmdPostPayload (p : payload_info) (s : st) : Z * st :=
  if (length (payloads s) <? capacity)%nat then (0, set_payloads s (payloads s ++ [p])) else (-1, s).

Definition extractPayload (sockfd : Z) (net : netref) (buf : HttpState.payload) (len : Z) (src : metric_t) (s : st)
  : ub (Z * st) :=
  if len <=? 0 then Def (-1, s) else
  let '(ok, s) := calloc s in
  if negb ok then Def (-1, s) else
  let post len data s := cmdPostPayload (mkPayload src sockfd (net_of s net) len data) s in
  let gathered l s :=
    match gather l None s with
    | (None, s) => (-1, s)
    | (Some data, s) => post (Z.of_nat (length (default [] data))) data s
    end in
  match buf with
  | HttpState.BUF b =>
      let '(ok, s) := calloc s in
      if negb ok then Def (-1, s) else
      data ← read_bytes len b;
      Def (post len (Some data) s)
  | HttpState.MSG iov => Def (gathered (vectors iov) s)
  | HttpState.IOV iov => Def (gathered (vectors (take (Z.to_nat len) iov)) s)
  | HttpState.OTHER_DATA => Def (-1, s)
  end.

(** ** Detection *)

(** The first definition that is called TLS, else the library's own. *)
Fixpoint find_tls (l : list protocol_def_t) : ub protocol_def_t :=
  match l with
  | [] => match g_tls_protocol_def with Some d => Def d | None => UB end
  | d :: l => match CfgParse.protname d with
              | None => UB
              | Some n => if bool_decide (n = "TLS") then Def d else find_tls l
              end
  end.

(** The subject is the hex digits and the terminator; [raw] is read up to the
    length of the definition, whatever the length of the data. *)
Definition detectTLS (net : netref) (raw : list Z) (s : st) : ub st :=
  tls ← find_tls protocols;
  bytes ← read_bytes (CfgParse.len tls) raw;
  Def (if 0 <? re_match tls (hexdump bytes ++ [0])
       then on_ref net (fun e => setn_tlsProtoDef (setn_tlsDetect e DETECT_TRUE) (Some tls)) s
       else on_ref net (fun e => setn_tlsDetect e DETECT_FALSE) s).

(** [strcasecmp(protoDef->protname, name) == 0] *)
Definition is_named (d : protocol_def_t) (name : string) : ub bool :=
  match CfgParse.protname d with Some n => Def (strcaseeq n name) | None => UB end.

Fixpoint detect_loop (f : protocol_def_t -> st -> ub (bool * st)) (l : list protocol_def_t) (sawHTTP sawSTATSD : bool) (s : st)
  : ub (bool * bool * bool * st) :=
  match l with
  | [] => Def (false, sawHTTP, sawSTATSD, s)
  | d :: l =>
      h ← is_named d "HTTP"; t ← is_named d "STATSD";
      '(done, s) ← f d s;
      if done : bool then Def (true, sawHTTP || h, sawSTATSD || t, s)
      else detect_loop f l (sawHTTP || h) (sawSTATSD || t) s
  end.

(** A definition of the library's own, unless it was overridden. *)
Definition detect_default (skip : bool) (d : option protocol_def_t) (f : protocol_def_t -> st -> ub (bool * st)) (s : st)
  : ub (bool * st) :=
  if skip then Def (false, s) else match d with Some d => f d s | None => UB end.

Definition detectProtocol (sockfd : Z) (net : netref) (buf : HttpState.payload) (len : Z) (src : metric_t) (s : st) : ub st :=
  if bool_decide (n_tlsDetect (net_of s net) = DETECT_TRUE) && (bool_decide (src = NETRX) || bool_decide (src = NETTX))
  then Def s else
  let f d s := setProtocolByType sockfd d net buf len s in
  '(done, sawHTTP, sawSTATSD, s) ← detect_loop f protocols false false s;
  if done : bool then Def s else
  '(done, s) ← detect_default sawHTTP g_http_protocol_def f s;
  if done : bool then Def s else
  '(_, s) ← detect_default sawSTATSD g_statsd_protocol_def f s;
  Def s.

(** ** Captured metrics (src/metriccapture.c) *)

Definition createCapturedMetric (g : groups) (dims : option string) (s : st) : option captured_metric_t * st :=
  match g with
  | (Some name, Some value, Some type) =>
      let '(ok, s) := calloc s in
      (if ok : bool then Some (mkCaptured name value type dims) else None, s)
  | _ => (None, s)
  end.

(** A full queue drops the metric. *)
Definition doMetricBuffer (buf : list Z) (s : st) : ub (bool * st) :=
  match re_statsd, re_statsd_ext, g_metric_buf with
  | Some std, Some ext, Some size =>
      let found := match ext buf with
                   | Some (g, dims) => Some (g, dims)
                   | None => (fun g => (g, None)) <$> std buf
                   end in
      match found with
      | None => Def (false, s)
      | Some (g, dims) =>
          match createCapturedMetric g dims s with
          | (None, s) => Def (false, s)
          | (Some metric, s) =>
              if (length (captured s) <? size)%nat then Def (true, set_captured s (captured s ++ [metric])) else Def (false, s)
          end
      end
  | _, _, _ => Def (false, s)
  end.

Definition doMetricCapture (buf : HttpState.payload) (len : Z) (s : st) : ub (bool * st) :=
  match buf with
  | HttpState.BUF b => bytes ← read_bytes len b; doMetricBuffer bytes s
  | HttpState.MSG iov => first_of doMetricBuffer (vectors iov) s
  | HttpState.IOV iov => first_of doMetricBuffer (vectors (take (Z.to_nat (i32 len)) iov)) s
  | HttpState.OTHER_DATA => Def (false, s)
  end.

(** ** Data of a connection (doProtocol) *)

Definition isProtocolSet (fd : Z) (s : st) : bool :=
  match getNetEntry s fd with Some net => negb (bool_decide (n_protoDetect net = DETECT_PENDING)) | None => false end.

(** The list's node is allocated by lstInsert. *)
Definition getChannelNetEntry (id : Z) (s : st) : option netref * st :=
  match g_extra s !! id with
  | Some _ => (Some (RExtra id), s)
  | None =>
      let '(ok, s) := calloc s in
      if negb ok then (None, s) else
      let '(ok, s) := calloc s in
      if negb ok then (None, s) else
      (Some (RExtra id), set_g_extra s (<[id := setn_uid (setn_type (setn_active zero_net true) SOCK_STREAM) id]> (g_extra s)))
  end.

(** What the HTTP parser sees. *)
Definition http_net (n : net_info) : HttpState.net_info :=
  HttpState.mkNet (n_type n) (n_uid n) (n_addrSetLocal n) (n_addrSetRemote n) (n_localConn n) (n_remoteConn n).
Definition http_env (s : st) : HttpState.http_env :=
  HttpState.mkEnv http_start http_end http_clength http_upgrade http_connect http_alloc http_junk clock
    (fun fd => http_net <$> getNetEntry s fd).
Definition src_code (src : metric_t) : Z :=
  match src with
  | NETRX => HttpState.NETRX | NETTX => HttpState.NETTX | TLSRX => HttpState.TLSRX | TLSTX => HttpState.TLSTX | _ => 0
  end.

Definition feed_http (sockfd : Z) (net : netref) (buf : HttpState.payload) (len : Z) (src : metric_t) (s : st) : ub st :=
  let n := net_of s net in
  '(_, h, w) ← HttpState.doHttp (http_env s) sockfd (Some (http_net n)) (n_http n) (HttpState.mkWorld (ticks s) [])
                 (Some buf) len (src_code src);
  let s := set_ticks s (HttpState.tick w) in
  let s := on_ref net (fun e => setn_http e h) s in
  Def (foldl (fun s p => cmdPostEvent (PHttp p) s) s (HttpState.posted w)).

(** What is done with data that is not encrypted. *)
Definition plain_data (sockfd : Z) (net : netref) (buf : HttpState.payload) (len : Z) (src : metric_t) (s : st) : ub st :=
  s ← (if bool_decide (n_protoDetect (net_of s net) = DETECT_PENDING) then detectProtocol sockfd net buf len src s else Def s);
  let wanted := match n_protoProtoDef (net_of s net) with Some d => CfgParse.payload d | None => false end in
  s ← (if cfgPayEnable || wanted then '(_, s) ← extractPayload sockfd net buf len src s; Def s else Def s);
  match n_protoProtoDef (net_of s net) with
  | None => Def s
  | Some d =>
      h ← is_named d "HTTP";
      s ← (if h && ((cfgEvtEnable && cfgEvtHttp) || (cfgMtcEnable && mtcWatch CFG_MTC_HTTP))
           then feed_http sockfd net buf len src s else Def s);
      if cfgMtcEnable && mtcWatch CFG_MTC_STATSD then
        t ← is_named d "STATSD";
        if t : bool then '(_, s) ← doMetricCapture buf len s; Def s else Def s
      else Def s
  end.

Definition doProtocol (id sockfd : Z) (buf : buffer) (len : Z) (src : metric_t) (s : st) : ub (bool * st) :=
  let '(net, s) := match getNetEntry s sockfd with Some _ => (Some (RTable sockfd), s) | None => getChannelNetEntry id s end in
  match net with
  | None => Def (false, s)
  | Some net =>
      if len =? 0 then Def (false, s) else
      s ← (if bool_decide (n_tlsDetect (net_of s net) = DETECT_PENDING) then detectTLS net (raw buf) s else Def s);
      s ← (if bool_decide (n_tlsDetect (net_of s net) = DETECT_FALSE) || bool_decide (src = TLSTX) || bool_decide (src = TLSRX)
           then plain_data sockfd net (view buf) len src s else Def s);
      Def (true, s)
  end.

(** ** Receiving and sending *)

Definition CHANNEL_NONE : Z := UINT64_MAX.    (* (uint64_t)-1 *)

Definition pass_on (sockfd : Z) (buf : option buffer) (len : Z) (src : metric_t) (s : st) : ub st :=
  match buf with
  | Some b => '(_, s) ← doProtocol CHANNEL_NONE sockfd b len src s; Def s
  | None => Def s
  end.

Definition dns_talk (s : st) (sockfd : Z) : bool :=
  remotePortIsDNS s sockfd && negb (bool_decide (n_dnsName (net_at s sockfd) = "")).

Definition doRecv (sockfd rc : Z) (buf : option buffer) (len : Z) (s : st) : ub st :=
  if negb (checkNetEntry s sockfd) then Def s else
  s ← (if n_active (net_at s sockfd) then Def s else doAddNewSock sockfd s);
  s ← doSetAddrs sockfd s;
  if len =? 0 then Def (on_net sockfd (fun n => setn_remoteClose n true) s) else
  let s := doUpdateState NETRX sockfd rc None None s in
  let s := if negb (n_dnsRecv (net_at s sockfd)) && dns_talk s sockfd
           then doUpdateState DNS sockfd 1 None (Some (n_dnsName (net_at s sockfd))) s else s in
  pass_on sockfd buf len NETRX s.

Definition doSend (sockfd rc : Z) (buf : option buffer) (len : Z) (s : st) : ub st :=
  if negb (checkNetEntry s sockfd) then Def s else
  s ← (if n_active (net_at s sockfd) then Def s else doAddNewSock sockfd s);
  s ← doSetAddrs sockfd s;
  let s := doUpdateState NETTX sockfd rc None None s in
  let s := if negb (n_dnsSend (net_at s sockfd)) && dns_talk s sockfd
           then on_net sockfd (fun n => setn_dnsSend n true) (doUpdateState DNS sockfd 0 None None s) else s in
  if 0 <? len then pass_on sockfd buf len NETTX s else Def s.

Definition doAccept (oldsd newsd : Z) (addr : option (sockaddr * Z)) (func : option string) (s : st) : ub st :=
  s ← match getNetEntry s oldsd with Some _ => Def s | None => doAddNewSock oldsd s end;
  let s := (doDupSock oldsd newsd s).2 in
  match getNetEntry s newsd with
  | None => Def s
  | Some _ =>
      s ← match addr with Some (a, len) => doSetConnection newsd (Some a) len REMOTE s | None => Def s end;
      let s := doUpdateState OPEN_PORTS newsd 1 func None s in
      Def (doUpdateState NET_CONNECTIONS newsd 1 func None s)
  end.

(** ** Reading and writing *)

(** [snprintf(msg, sizeof(msg), ..)] of a pointer, which has eight bytes *)
Definition warn (enforce : fs_info -> bool) (text : string) (fd : Z) (s : st) : st :=
  let fs := fs_at s fd in
  if enforce fs then
    let '(ok, s) := calloc s in
    if ok : bool then report_file (f_path fs) (snprintf 8 (text +:+ f_path fs)) s else s
  else s.

(** The console's own streams are not counted. *)
Definition counted_file (fd : Z) (s : st) : bool := (2 <? fd) || negb (String.prefix "std" (f_path (fs_at s fd))).

Definition count_file (type : metric_t) (fd initialTime bytes : Z) (func : option string) (s : st) : st :=
  let '(duration, s) := getDuration initialTime s in
  doUpdateState type fd bytes func None (doUpdateState FS_DURATION fd (i64 duration) func None s).

Definition rw_error (fd bytes : Z) (fs : option fs_info) (net : option net_info) (func : option string) (s : st) : st :=
  match fs, net with
  | Some _, _ => doUpdateState FS_ERR_READ_WRITE fd bytes func (Some (f_path (fs_at s fd))) s
  | None, Some _ => doUpdateState NET_ERR_RX_TX fd bytes func no_path s
  | None, None => s
  end.

Definition is_iov (buf : option buffer) : bool :=
  match buf with Some b => match view b with HttpState.IOV _ => true | _ => false end | None => false end.

Definition doRead (fd initialTime : Z) (success : bool) (buf : option buffer) (bytes : Z) (func : option string) (cnt : Z)
    (s : st) : ub st :=
  let '(fs, s) := getFSEntry fd s in
  let net := getNetEntry s fd in
  if success then
    match net, fs with
    | Some _, _ => s ← doSetAddrs fd s; doRecv fd bytes buf (if is_iov buf then cnt else u64 bytes) s
    | None, Some _ =>
        let s := warn f_enforceRD "accessing a file from the no access list: " fd s in
        Def (if counted_file fd s then count_file FS_READ fd initialTime bytes func s else s)
    | None, None => Def s
    end
  else Def (rw_error fd bytes fs net func s).

Definition send_log (fd : Z) (buf : option (list Z)) (count : Z) (s : st) : st :=
  set_logs s (logs s ++ [mkLog fd (f_path (fs_at s fd)) buf count (f_uid (fs_at s fd))]).

Definition doWrite (fd initialTime : Z) (success : bool) (buf : option buffer) (bytes : Z) (func : option string) (cnt : Z)
    (s : st) : ub st :=
  let '(fs, s) := getFSEntry fd s in
  let net := getNetEntry s fd in
  if success then
    match net, fs with
    | Some _, _ => s ← doSetAddrs fd s; doSend fd bytes buf (if is_iov buf then cnt else u64 bytes) s
    | None, Some _ =>
        let s := warn f_enforceWR "a file modification to an executable file, a system file or a file from the no write list: "
                   fd s in
        let s := if counted_file fd s then count_file FS_WRITE fd initialTime bytes func s else s in
        Def match buf with
            | Some b =>
                match view b with
                | HttpState.IOV iov =>
                    foldl (fun s v => send_log fd (Some v) (Z.of_nat (length v)) s) s (vectors (take (Z.to_nat cnt) iov))
                | _ => send_log fd (Some (raw b)) (u64 bytes) s
                end
            | None => send_log fd None (u64 bytes) s
            end
    | None, None => Def s
    end
  else Def (rw_error fd bytes fs net func s).

Definition doExfil (out_fd in_fd : Z) (s : st) : st :=
  let path := f_path (fs_at s in_fd) in
  if negb (nt_enable g_notify_def) || negb (nt_exfil g_notify_def) || bool_decide (path = "") then s else
  let conn := n_remoteConn (net_at s out_fd) in
  let rip := if addrIsNetDomain conn then default "" (inet_ntop (ss_family conn) conn) else "" in
  let to := if bool_decide (rip = "") then "" else " to " +:+ rip in
  report_file path (snprintf REASON_MAX ("The file " +:+ path +:+ " has been exfiltrated" +:+ to)) s.

(** What was read from the file is counted as written. *)
Definition doSendFile (out_fd in_fd initialTime rc : Z) (func : option string) (s : st) : ub st :=
  let '(fsrd, s) := getFSEntry in_fd s in
  let nettx := getNetEntry s out_fd in
  if negb (rc =? -1) then
    s ← match nettx with
        | Some _ =>
            s ← doSetAddrs out_fd s;
            s ← doSend out_fd rc None 0 s;
            Def match fsrd with Some _ => doExfil out_fd in_fd s | None => s end
        | None => Def s
        end;
    Def match fsrd with Some _ => count_file FS_WRITE in_fd initialTime rc func s | None => s end
  else
    let s := match fsrd with
             | Some _ => doUpdateState FS_ERR_READ_WRITE in_fd 0 func (Some (f_path (fs_at s in_fd))) s
             | None => s
             end in
    Def match nettx with Some _ => doUpdateState NET_ERR_RX_TX out_fd 0 func no_path s | None => s end.

(** ** Refused connections *)

Definition DEFAULT_PORTBLOCK : Z := 0.
(** sin_port as it is stored *)
Definition net_port (a : sockaddr) : Z := byte_at a 2 + 256 * byte_at a 3.

Definition refuse (rip : string) (port : Z) (n : nat) (why : string) (s : st) : Z * st :=
  let msg := snprintf n ("a blocked network connection " +:+ why) in
  (1, notify NOTIFY_NET msg (netSecurity rip port msg s)).

Definition doBlockConnection (addr : option sockaddr) (s : st) : Z * st :=
  match addr with
  | None => (0, s)
  | Some a =>
      let '(port, rip) := if addrIsNetDomain a then (net_port a, default "" (inet_ntop (ss_family a) a)) else (0, "") in
      let by_port s :=
        if blockconn =? DEFAULT_PORTBLOCK then (0, s)
        else if blockconn =? (if addrIsNetDomain a then sin_port a else 0) then
          refuse rip port (INET6_ADDRSTRLEN + 256)
            ("due to user config of a port block on " +:+ rip +:+ ":" +:+ pretty port) s
        else (0, s) in
      if bool_decide (rip = "") then by_port s else
      if existsb (fun w => bool_decide (rip = w)) (nt_ip_white g_notify_def) then (0, s)
      else if nt_white_block g_notify_def
              && match nt_ip_white g_notify_def with w :: _ => (2 <? String.length w)%nat | [] => false end
      then refuse rip port REASON_MAX ("to " +:+ rip +:+ " from a white list mismatch") s
      else if existsb (fun w => bool_decide (rip = w)) (nt_ip_black g_notify_def)
      then refuse rip port REASON_MAX ("to " +:+ rip +:+ " from the black list") s
      else by_port s
  end.

End Traffic.
End Traffic.
