(* ===== verification/Descriptors.v ===== *)
(** * The descriptor table: what the handlers of src/state.c promise

    Seen from outside, the data path keeps two sets of descriptors, the open
    files and the open sockets, and counts the operations on them.  [desc] and
    [spec] say so without tables, counters and events; the handlers of the code
    refine them: each leaves the tables as the specification says and counts
    exactly the operations that the specification lists. *)

From S2P Require Import Prelude Types HttpState CfgParse StateData State Report Account AccountRun Traffic.

Module Descriptors.
Import StateData State Report Account AccountRun Traffic.

#[local] Open Scope Z_scope.

(** ** The specification *)

Record desc := mkDesc {
  files : gset Z;         (* open file descriptors *)
  streams : gset Z;       (* the files among them that are streams *)
  consoles : gset Z;      (* the files among them whose name starts with std *)
  socks : gset Z;         (* open sockets *)
}.

Definition op : Type := metric_t * Z.

(** A file is opened: it replaces what the number stood for. *)
Definition put (fd : Z) (b : bool) (X : gset Z) : gset Z := if b then {[fd]} ∪ X else X ∖ {[fd]}.
Definition add_file (fd : Z) (type : fs_type_t) (std : bool) (d : desc) : desc :=
  mkDesc ({[fd]} ∪ files d) (put fd (bool_decide (type = STREAM)) (streams d)) (put fd std (consoles d)) (socks d).
Definition drop_file (fd : Z) (d : desc) : desc :=
  mkDesc (files d ∖ {[fd]}) (streams d ∖ {[fd]}) (consoles d ∖ {[fd]}) (socks d).
Definition add_sock (fd : Z) (d : desc) : desc := mkDesc (files d) (streams d) (consoles d) ({[fd]} ∪ socks d).
Definition drop_sock (fd : Z) (d : desc) : desc := mkDesc (files d) (streams d) (consoles d) (socks d ∖ {[fd]}).
Definition std_name (path : string) : bool := String.prefix "std" path.

(** A file is looked up: the standard streams are opened by that. *)
Definition spec_entry (fd : Z) (d : desc) : bool * desc * list op :=
  if decide (fd ∈ files d) then (true, d, [])
  else if (0 <=? fd) && (fd <=? 2) then (true, add_file fd FD true d, [(FS_OPEN, 0)])
  else (false, d, []).

Definition spec_close (fd : Z) (d : desc) : desc * list op :=
  let '(found, d', l) := spec_entry fd d in
  if found then (drop_sock fd (drop_file fd d'), l ++ [(FS_CLOSE, 0)]) else (drop_sock fd d', l).

Definition spec_open (fd : Z) (type : fs_type_t) (std : bool) (d : desc) : desc * list op :=
  if in_table fd FS_ENTRIES then
    let '(d', l) := if decide (fd ∈ files d) then spec_close fd d else (d, []) in
    (add_file fd type std d', l ++ [(FS_OPEN, 0)])
  else (d, []).

Definition spec_sock (fd : Z) (d : desc) : desc * list op :=
  if in_table fd NET_ENTRIES then
    let '(d', l) := if decide (fd ∈ socks d) then spec_close fd d else (d, []) in
    (add_sock fd d', l)
  else (d, []).

(** An operation on an open file. *)
Definition spec_on_file (fd : Z) (counted : list op) (d : desc) : desc * list op :=
  let '(found, d', l) := spec_entry fd d in (d', l ++ (if found : bool then counted else [])).

Definition then_spec (x : desc * list op) (f : desc -> desc * list op) : desc * list op :=
  let '(d, l) := x in let '(d', l') := f d in (d', l ++ l').

Definition spec_dup_sock (newfd : Z) (d : desc) : desc * list op :=
  (if in_table newfd NET_ENTRIES then add_sock newfd d else d, []).

(** The file and its duplicate are of one kind and name - but when they are one. *)
Definition spec_dup_file (oldfd newfd : Z) (d : desc) : desc * list op :=
  if in_table oldfd FS_ENTRIES
  then spec_open newfd (if decide (oldfd ∈ streams d) then STREAM else FD)
         (negb (oldfd =? newfd) && bool_decide (oldfd ∈ consoles d)) d
  else (d, []).

Definition spec_counts (d : desc) (type : metric_t) (fd : Z) : bool :=
  match type with
  | NETRX | NETTX => bool_decide (fd ∈ socks d)
  | FS_READ | FS_WRITE | FS_OPEN | FS_CLOSE | FS_SEEK => in_table fd FS_ENTRIES
  | _ => false
  end.

(** The calls of the interposed functions. *)
Inductive handler :=
  | HUpdate (type : metric_t) (fd size : Z) (func path : option string)
  | HOpen (fd : Z) (path : string) (type : fs_type_t) (func : option string)
  | HClose (fd : Z) (func : option string)
  | HCloseReport (fd : Z) (success : bool) (func : option string)
  | HCloseAll
  | HSeek (fd : Z) (success : bool) (func : option string)
  | HStatPath (path : string) (rc : Z) (func : option string)
  | HStatFd (fd rc : Z) (func : option string)
  | HDelete (path : string) (func : option string)
  | HContent (fd : Z) (type : fs_content_type_t)
  | HSock (fd type family : Z)
  | HNewSock (fd : Z)
  | HConnection (fd : Z) (addr : option sockaddr) (len : Z) (endp : control_type_t)
  | HAddrs (fd : Z)
  | HRemoteClose (fd err : Z)
  | HDup (fd rc : Z) (func : option string) (copyNet : bool)
  | HDup2 (oldfd newfd rc : Z) (func : option string)
  | HRecv (fd rc : Z) (buf : option buffer) (len : Z)
  | HSend (fd rc : Z) (buf : option buffer) (len : Z)
  | HAccept (oldsd newsd : Z) (addr : option (sockaddr * Z)) (func : option string)
  | HRead (fd initialTime : Z) (success : bool) (buf : option buffer) (bytes : Z) (func : option string) (cnt : Z)
  | HWrite (fd initialTime : Z) (success : bool) (buf : option buffer) (bytes : Z) (func : option string) (cnt : Z)
  | HSendFile (out_fd in_fd initialTime rc : Z) (func : option string)
  | HProtocol (id fd : Z) (buf : buffer) (len : Z) (src : metric_t)
  | HBlock (addr : option sockaddr).

Section Handlers.
Context `{E : Env} `{D : Detect}.

(** Is the new descriptor entered as a socket? *)
Definition new_sock (fd : Z) : bool :=
  match k_getsockname fd with
  | Some (a, _) => if addrIsNetDomain a || addrIsUnixDomain a then bool_decide (is_Some (k_so_type fd)) else true
  | None => true
  end.
Definition spec_new_sock (fd : Z) (d : desc) : desc * list op := if new_sock fd then spec_sock fd d else (d, []).

(** A socket that is not known is looked up in the kernel. *)
Definition spec_known (fd : Z) (d : desc) : desc * list op :=
  if decide (fd ∈ socks d) then (d, []) else spec_new_sock fd d.
Definition spec_traffic (type : metric_t) (fd rc : Z) (empty : bool) (d : desc) : desc * list op :=
  if in_table fd NET_ENTRIES then
    then_spec (spec_known fd d) (fun d => (d, if negb empty && bool_decide (fd ∈ socks d) then [(type, rc)] else []))
  else (d, []).

(** The console's own streams do not count. *)
Definition spec_file (type : metric_t) (fd bytes : Z) (d : desc) : desc * list op :=
  (d, if (2 <? fd) || negb (bool_decide (fd ∈ consoles d)) then [(type, bytes)] else []).

(** A read or a write: [traffic] when the descriptor is a socket. *)
Definition spec_rw (type : metric_t) (fd bytes : Z) (success : bool) (traffic : desc -> desc * list op) (d : desc)
  : desc * list op :=
  let '(found, d1, l) := spec_entry fd d in
  then_spec (d1, l) (fun d1 =>
    if negb success then (d1, [])
    else if decide (fd ∈ socks d1) then traffic d1
    else if found : bool then spec_file type fd bytes d1 else (d1, [])).

Definition spec (h : handler) (d : desc) : desc * list op :=
  match h with
  | HUpdate type fd size _ _ => (d, if spec_counts d type fd then [(type, size)] else [])
  | HOpen fd path type _ => if fd =? -1 then (d, []) else spec_open fd type (std_name path) d
  | HClose fd _ => spec_close fd d
  | HCloseReport fd success _ => if success then spec_close fd d else spec_on_file fd [] d
  | HCloseAll =>
      foldl (fun x i => then_spec x (fun d => if decide (i ∈ streams d) then spec_close i d else (d, []))) (d, [])
        (seqZ 0 FS_ENTRIES)
  | HSeek fd success _ => spec_on_file fd (if success then [(FS_SEEK, 0)] else []) d
  | HStatFd fd _ _ | HContent fd _ => spec_on_file fd [] d
  | HStatPath _ _ _ | HDelete _ _ | HConnection _ _ _ _ | HAddrs _ | HRemoteClose _ _ => (d, [])
  | HSock fd _ _ => spec_sock fd d
  | HNewSock fd => spec_new_sock fd d
  | HDup fd rc _ copyNet =>
      let '(found, d1, l) := spec_entry fd d in
      then_spec (d1, l) (fun d1 =>
        if rc =? -1 then (d1, [])
        else if decide (fd ∈ socks d1) then if copyNet then spec_dup_sock rc d1 else spec_new_sock rc d1
        else if found : bool then spec_dup_file fd rc d1 else (d1, []))
  | HDup2 oldfd newfd rc _ =>
      let '(found, d1, l) := spec_entry oldfd d in
      then_spec (d1, l) (fun d1 =>
        if (rc =? -1) || (oldfd =? newfd) then (d1, [])
        else if decide (oldfd ∈ socks d1) then
          then_spec (if decide (newfd ∈ socks d1) then spec_close newfd d1 else (d1, [])) (spec_dup_sock newfd)
        else if found : bool then
          let '(present, d2, l2) := spec_entry newfd d1 in
          then_spec (then_spec (d2, l2) (fun d => if present : bool then spec_close newfd d else (d, [])))
            (spec_dup_file oldfd newfd)
        else (d1, []))
  | HRecv fd rc _ len => spec_traffic NETRX fd rc (len =? 0) d
  | HSend fd rc _ _ => spec_traffic NETTX fd rc false d
  | HAccept oldsd newsd _ _ =>
      then_spec (spec_known oldsd d) (fun d => if in_table oldsd NET_ENTRIES then spec_dup_sock newsd d else (d, []))
  | HRead fd _ success buf bytes _ cnt =>
      spec_rw FS_READ fd bytes success
        (spec_traffic NETRX fd bytes ((if is_iov buf then cnt else u64 bytes) =? 0)) d
  | HWrite fd _ success _ bytes _ _ => spec_rw FS_WRITE fd bytes success (spec_traffic NETTX fd bytes false) d
  | HSendFile out_fd in_fd _ rc _ =>
      let '(found, d1, l) := spec_entry in_fd d in
      then_spec (d1, l) (fun d1 =>
        if rc =? -1 then (d1, [])
        else then_spec (if decide (out_fd ∈ socks d1) then spec_traffic NETTX out_fd rc false d1 else (d1, []))
               (fun d => (d, if found : bool then [(FS_WRITE, rc)] else [])))
  | HProtocol _ _ _ _ _ | HBlock _ => (d, [])
  end.

(** The code. *)
Definition handle (h : handler) (s : st) : ub st :=
  match h with
  | HUpdate type fd size func path => Def (doUpdateState type fd size func path s)
  | HOpen fd path type func => Def (doOpen fd path type func s)
  | HClose fd func => Def (doClose fd func s)
  | HCloseReport fd success func => Def (doCloseAndReportFailures fd success func s)
  | HCloseAll => Def (doCloseAllStreams s)
  | HSeek fd success func => Def (doSeek fd success func s)
  | HStatPath path rc func => Def (doStatPath path rc func s)
  | HStatFd fd rc func => Def (doStatFd fd rc func s)
  | HDelete path func => Def (doDelete path func s)
  | HContent fd type => Def (setFSContentType fd type s)
  | HSock fd type family => Def (addSock fd type family s)
  | HNewSock fd => doAddNewSock fd s
  | HConnection fd addr len endp => doSetConnection fd addr len endp s
  | HAddrs fd => doSetAddrs fd s
  | HRemoteClose fd err => Def (setRemoteClose fd err s)
  | HDup fd rc func copyNet => doDup fd rc func copyNet s
  | HDup2 oldfd newfd rc func => Def (doDup2 oldfd newfd rc func s)
  | HRecv fd rc buf len => doRecv fd rc buf len s
  | HSend fd rc buf len => doSend fd rc buf len s
  | HAccept oldsd newsd addr func => doAccept oldsd newsd addr func s
  | HRead fd initialTime success buf bytes func cnt => doRead fd initialTime success buf bytes func cnt s
  | HWrite fd initialTime success buf bytes func cnt => doWrite fd initialTime success buf bytes func cnt s
  | HSendFile out_fd in_fd initialTime rc func => doSendFile out_fd in_fd initialTime rc func s
  | HProtocol id fd buf len src => '(_, s) ← doProtocol id fd buf len src s; Def s
  | HBlock addr => Def (doBlockConnection addr s).2
  end.

(** The tables hold these descriptors. *)
Record holds (s : st) (d : desc) : Prop := mkHolds {
  h_fs : is_Some (g_fsinfo s);
  h_net : is_Some (g_netinfo s);
  h_files : forall fd, fd ∈ files d <-> in_table fd FS_ENTRIES = true /\ f_active (fs_at s fd) = true;
  h_streams : forall fd, fd ∈ streams d <-> fd ∈ files d /\ f_type (fs_at s fd) = STREAM;
  h_consoles : forall fd, fd ∈ consoles d <-> fd ∈ files d /\ std_name (f_path (fs_at s fd)) = true;
  h_socks : forall fd, fd ∈ socks d <-> in_table fd NET_ENTRIES = true /\ n_active (net_at s fd) = true;
}.

(** ** What an update keeps *)

Record shape (s s' : st) : Prop := mkShape {
  sh_fs : is_Some (g_fsinfo s') <-> is_Some (g_fsinfo s);
  sh_net : is_Some (g_netinfo s') <-> is_Some (g_netinfo s);
  sh_active : forall fd, f_active (fs_at s' fd) = f_active (fs_at s fd);
  sh_type : forall fd, f_type (fs_at s' fd) = f_type (fs_at s fd);
  sh_path : forall fd, f_path (fs_at s' fd) = f_path (fs_at s fd);
  sh_sock : forall fd, n_active (net_at s' fd) = n_active (net_at s fd);
}.

#[export] Instance shape_refl : Reflexive shape.
Proof. by constructor. Qed.
#[export] Instance shape_trans : Transitive shape.
Proof. intros s1 s2 s3 [] []. constructor; intros; try congruence; etrans; eauto. Qed.

Lemma shape_tables s s' : g_fsinfo s' = g_fsinfo s -> g_netinfo s' = g_netinfo s -> shape s s'.
Proof. intros Hf Hn. constructor; intros; unfold fs_at, net_at; by rewrite ?Hf, ?Hn. Qed.

Lemma shape_on_fs fd f s : (forall x, f_active (f x) = f_active x) -> (forall x, f_type (f x) = f_type x) ->
  (forall x, f_path (f x) = f_path x) -> shape s (on_fs fd f s).
Proof.
  intros Ha Ht Hp. unfold on_fs. destruct (g_fsinfo s) as [t|] eqn:Hs; [|reflexivity].
  constructor; intros; unfold fs_at; simpl; rewrite ?Hs; try done;
    destruct (decide (fd = fd0)) as [->|]; rewrite ?fn_lookup_insert, ?fn_lookup_insert_ne by done; auto.
Qed.
Lemma shape_on_net fd f s : (forall x, n_active (f x) = n_active x) -> shape s (on_net fd f s).
Proof.
  intros Ha. unfold on_net. destruct (g_netinfo s) as [t|] eqn:Hs; [|reflexivity].
  constructor; intros; unfold net_at; simpl; rewrite ?Hs; try done;
    destruct (decide (fd = fd0)) as [->|]; rewrite ?fn_lookup_insert, ?fn_lookup_insert_ne by done; auto.
Qed.

Lemma shape_post need rep ev s : shape s (post need rep ev s).2.
Proof. destruct (post_tables need rep ev s). by apply shape_tables. Qed.
Lemma shape_postErr e ty f n s : shape s (postStatErrState e ty f n s).2.
Proof. unfold postStatErrState. case_match; [reflexivity|apply shape_post]. Qed.
Lemma shape_then s p g : shape s p.2 -> (forall s, shape s (g s)) -> shape s (posted_then p g).
Proof. destruct p as [[] s']; simpl; intros; [by etrans|done]. Qed.

Ltac shape_step :=
  match goal with
  | |- shape ?s ?s => reflexivity
  | |- shape _ (on_ctr _ _ ?x) => apply (shape_trans _ x); [|by apply shape_tables]
  | |- shape _ (on_fs_ctr _ _ _ _) => etrans; [|by apply shape_on_fs]
  | |- shape _ (on_net_ctr _ _ _ _) => etrans; [|by apply shape_on_net]
  | |- shape _ (on_net_counter _ _ _ _) => etrans; [|by apply shape_on_net]
  | |- shape _ (on_net _ _ _) => etrans; [|by apply shape_on_net]
  | |- shape _ (posted_then _ _) => apply shape_then; [|intros ?]
  | |- shape _ (postNetState _ _ _).2 => etrans; [|apply shape_post]
  | |- shape _ (postFSState _ _ _ _ _ _).2 => etrans; [|apply shape_post]
  | |- shape _ (postDNSState _ _ _ _ _ _).2 => etrans; [|apply shape_post]
  | |- shape _ (postStatErrState _ _ _ _ _).2 => etrans; [|apply shape_postErr]
  | |- shape _ (if ?b then _ else _) => destruct b
  end.
Ltac shapes := cbn zeta; repeat shape_step.

Lemma shape_time s : shape s (getTime s).2.
Proof. by apply shape_tables. Qed.
Lemma shape_duration start s : shape s (getDuration start s).2.
Proof. unfold getDuration. destruct (_ =? 0); [reflexivity|apply shape_time]. Qed.

Lemma shape_gauge c ty fd size s : shape s (update_gauge c ty fd size s).
Proof.
  unfold update_gauge. cbn zeta. etrans; [|apply shape_post].
  set (s1 := if size <? 0 then _ else _). assert (shape s s1) as H by (subst s1; shapes). clearbody s1.
  destruct (negb _ && _); [|done]. etrans; [|by apply shape_on_net]. etrans; [done|apply shape_time].
Qed.
Lemma shape_update_duration fd s : shape s (update_duration fd s).
Proof.
  unfold update_duration. destruct (negb (n_startTime (net_at s fd) =? 0)).
  - destruct (getDuration (n_startTime (net_at s fd)) s) as [d s1] eqn:Hd.
    assert (shape s s1) by (pose proof (shape_duration (n_startTime (net_at s fd)) s) as H; by rewrite Hd in H).
    shapes; done.
  - shapes.
Qed.
Lemma shape_dns fd size path s : shape s (update_dns fd size path s).
Proof.
  unfold update_dns. set (s1 := if 0 <? size then _ else _). assert (shape s s1) as H1 by (subst s1; shapes).
  clearbody s1. cbn zeta. destruct (postDNSState _ _ _ _ _ s1) as [rc s2] eqn:Hp.
  assert (shape s1 s2) as H2 by (pose proof (shape_post (evtSource CFG_SRC_METRIC || evtSource CFG_SRC_DNS || (mtcEnabled && negb (net_dns (g_summary s1)))) (negb (net_dns (g_summary s1))) (fun s => PDns (dns_event fd DNS (getNetEntry s1 fd) (u64 size) path s)) s1) as H; unfold postDNSState in Hp; cbn zeta in Hp; by rewrite Hp in H).
  shapes; by etrans.
Qed.

Lemma shape_update type fd size f p s : shape s (doUpdateState type fd size f p s).
Proof.
  destruct type; cbn [doUpdateState]; try reflexivity;
    try (destruct (getNetEntry s fd); [|reflexivity]); try (destruct (checkFSEntry s fd); [|reflexivity]);
    try apply shape_gauge; try apply shape_update_duration; try apply shape_dns;
    unfold update_connection, update_traffic, update_dns_duration, update_fs_amount, update_fs_number, update_stat_err; shapes.
Qed.

(** ** Paths of the data path *)

Inductive path : st -> list op -> st -> Prop :=
  | path_nil s : path s [] s
  | path_step s1 l1 s2 l2 s3 : dstep s1 l1 s2 -> path s2 l2 s3 -> path s1 (l1 ++ l2) s3.

Lemma path_trans s1 l1 s2 l2 s3 : path s1 l1 s2 -> path s2 l2 s3 -> path s1 (l1 ++ l2) s3.
Proof. induction 1 as [|????? H _ IH]; intros K; [done|]. rewrite <- app_assoc. econstructor; eauto. Qed.
Lemma path_one s l s' : dstep s l s' -> path s l s'.
Proof. intros H. rewrite <- (app_nil_r l). econstructor; [done|constructor]. Qed.

(** Nothing is counted and no descriptor is opened or closed. *)
Definition quiet (s s' : st) : Prop := path s [] s' /\ shape s s'.

#[export] Instance quiet_refl : Reflexive quiet.
Proof. split; [constructor|reflexivity]. Qed.
#[export] Instance quiet_trans : Transitive quiet.
Proof. intros s1 s2 s3 [P1 H1] [P2 H2]. split; [exact (path_trans _ [] _ [] _ P1 P2)|by etrans]. Qed.

Lemma quiet_step s s' : dstep s [] s' -> shape s s' -> quiet s s'.
Proof. intros. split; [by apply path_one|done]. Qed.

Lemma quiet_time s : quiet s (getTime s).2.
Proof. apply quiet_step; [by apply d_quiet|apply shape_time]. Qed.
Lemma quiet_calloc s : quiet s (calloc s).2.
Proof. apply quiet_step; [|by apply shape_tables]. apply d_quiet; try done. intros H. simpl. by rewrite H. Qed.
Lemma quiet_notify t m s : quiet s (notify t m s).
Proof. apply quiet_step; [by apply d_quiet|by apply shape_tables]. Qed.
Lemma quiet_plain p s : plain_event p -> quiet s (cmdPostEvent p s).
Proof. intros H. apply quiet_step; [by apply d_post|apply shape_tables; [apply cmdPost_fsinfo|apply cmdPost_netinfo]]. Qed.
Lemma quiet_fs fd f s : (forall x c, f_cnt (f x) c = f_cnt x c) -> (forall x, f_active (f x) = f_active x) ->
  (forall x, f_type (f x) = f_type x) -> (forall x, f_path (f x) = f_path x) -> quiet s (on_fs fd f s).
Proof. intros. apply quiet_step; [apply d_fs; by left|by apply shape_on_fs]. Qed.
Lemma quiet_net fd f s : (forall x c, n_cnt (f x) c = n_cnt x c) -> (forall x, n_active (f x) = n_active x) ->
  quiet s (on_net fd f s).
Proof. intros. apply quiet_step; [apply d_net; by left|by apply shape_on_net]. Qed.

Definition counting (type : metric_t) : bool :=
  match type with NETRX | NETTX | FS_READ | FS_WRITE | FS_OPEN | FS_CLOSE | FS_SEEK => true | _ => false end.

Lemma quiet_update type fd size f p s : counting type = false -> quiet s (doUpdateState type fd size f p s).
Proof.
  intros Ht. apply quiet_step; [|apply shape_update].
  pose proof (d_update type fd size f p s) as H. assert (noticed s type fd = false) as Hn by (by destruct type).
  rewrite Hn in H. by apply H.
Qed.

Lemma quiet_file path msg s : quiet s (report_file path msg s).
Proof.
  unfold report_file, fileSecurity, post_security. etrans; [|apply quiet_notify].
  destruct (calloc s) as [ok s'] eqn:Hc. assert (quiet s s') by (pose proof (quiet_calloc s) as H; by rewrite Hc in H).
  destruct ok; [|done]. etrans; [done|by apply quiet_plain].
Qed.

Ltac quiet_step :=
  match goal with
  | |- quiet ?s ?s => reflexivity
  | |- quiet _ (if ?b then _ else _) => destruct b
  | |- quiet _ (report_file _ _ ?x) => apply (quiet_trans _ x); [|apply quiet_file]
  | |- quiet _ (on_fs _ _ ?x) => apply (quiet_trans _ x); [|by apply quiet_fs]
  | |- quiet _ (on_net _ _ ?x) => apply (quiet_trans _ x); [|by apply quiet_net]
  | |- quiet _ (doUpdateState _ _ _ _ _ ?x) => apply (quiet_trans _ x); [|by apply quiet_update]
  | H : quiet ?s _ |- quiet ?s _ => exact H
  end.
Ltac quiets := cbn zeta; repeat quiet_step.

Lemma quiet_owners path fd sbuf s : quiet s (check_owners path fd sbuf s).
Proof.
  unfold check_owners. pose proof (quiet_calloc s) as H1. destruct (calloc s) as [[] s1]; cbn [negb snd] in *; [|exact H1].
  pose proof (quiet_calloc s1) as H2. destruct (calloc s1) as [[] s2]; cbn [negb snd] in *;
    pose proof (quiet_trans _ _ _ H1 H2); quiets.
Qed.
Lemma quiet_detect path fd sbuf s : quiet s (doDetectFile path fd sbuf s).
Proof.
  unfold doDetectFile. destruct (negb _ || _ || _); [reflexivity|]. cbn zeta.
  match goal with |- quiet _ (check_owners _ _ _ ?x) => apply (quiet_trans _ x); [|apply quiet_owners] end. quiets.
Qed.

(** ** Refinement *)

(** From [s] the code has reached [s'], counting and opening as [x] says. *)
Definition ref (s : st) (x : desc * list op) (s' : st) : Prop := path s x.2 s' /\ holds s' x.1.

Lemma holds_shape s s' d : holds s d -> shape s s' -> holds s' d.
Proof.
  intros [H1 H2 H3 H4 H5 H6] [S1 S2 S3 S4 S5 S6]. constructor; [by apply S1|by apply S2|intros fd..].
  - by rewrite S3.
  - by rewrite S4.
  - by rewrite S5.
  - by rewrite S6.
Qed.

Lemma ref_refl s d : holds s d -> ref s (d, []) s.
Proof. intros. split; [constructor|done]. Qed.
Lemma ref_quiet s x s1 s2 : ref s x s1 -> quiet s1 s2 -> ref s x s2.
Proof.
  intros [P1 H1] [P2 S2]. split; [|by eapply holds_shape]. rewrite <- (app_nil_r x.2). by eapply path_trans.
Qed.
Lemma ref_after s x s1 s2 : quiet s s1 -> ref s1 x s2 -> ref s x s2.
Proof. intros [P1 _] [P2 H2]. split; [|done]. exact (path_trans _ [] _ _ _ P1 P2). Qed.
Lemma ref_then s x f s1 s2 : ref s x s1 -> (holds s1 x.1 -> ref s1 (f x.1) s2) -> ref s (then_spec x f) s2.
Proof.
  intros [P1 H1] H. destruct (H H1) as [P2 H2]. unfold then_spec. destruct x as [d l], (f (d, l).1) as [d' l'] eqn:Hf.
  simpl in Hf. rewrite Hf. split; [by eapply path_trans|done].
Qed.

Lemma elem_of_put fd b X fd' : fd' ∈ put fd b X <-> (fd' = fd /\ b = true) \/ (fd' <> fd /\ fd' ∈ X).
Proof. unfold put. destruct b; [|set_solver]. destruct (decide (fd' = fd)); set_solver. Qed.

(** What the guards of the code mean. *)
Section Held.
Context (s : st) (d : desc).
Hypothesis H : holds s d.

Lemma check_fs fd : checkFSEntry s fd = in_table fd FS_ENTRIES.
Proof using H. unfold checkFSEntry. rewrite bool_decide_eq_true_2; [done|apply H]. Qed.
Lemma check_net fd : checkNetEntry s fd = in_table fd NET_ENTRIES.
Proof using H. unfold checkNetEntry. rewrite bool_decide_eq_true_2; [done|apply H]. Qed.
Lemma file_open fd : checkFSEntry s fd && f_active (fs_at s fd) = bool_decide (fd ∈ files d).
Proof using H. rewrite check_fs. apply eq_true_iff_eq. rewrite andb_true_iff, bool_decide_eq_true. symmetry. apply H. Qed.
Lemma sock_open fd : getNetEntry s fd = if decide (fd ∈ socks d) then Some (net_at s fd) else None.
Proof using H.
  unfold getNetEntry. rewrite check_net. pose proof (h_socks _ _ H fd) as Hs.
  destruct (in_table fd NET_ENTRIES), (n_active (net_at s fd)); simpl; case_decide; try done; naive_solver.
Qed.
Lemma is_sock fd : is_Some (getNetEntry s fd) <-> fd ∈ socks d.
Proof using H. rewrite sock_open. case_decide; split; try done; intros []; done. Qed.
Lemma file_active fd : in_table fd FS_ENTRIES = true -> f_active (fs_at s fd) = bool_decide (fd ∈ files d).
Proof using H. intros Ht. rewrite <- file_open, check_fs, Ht. done. Qed.
Lemma sock_active fd : in_table fd NET_ENTRIES = true -> n_active (net_at s fd) = bool_decide (fd ∈ socks d).
Proof using H. intros Ht. apply eq_true_iff_eq. rewrite bool_decide_eq_true, (h_socks _ _ H). naive_solver. Qed.
Lemma file_table fd : fd ∈ files d -> in_table fd FS_ENTRIES = true.
Proof using H. intros Hf. by apply (h_files _ _ H) in Hf as [? _]. Qed.
Lemma sock_table fd : fd ∈ socks d -> in_table fd NET_ENTRIES = true.
Proof using H. intros Hf. by apply (h_socks _ _ H) in Hf as [? _]. Qed.

Lemma fs_at_put fd f fd' : fs_at (on_fs fd f s) fd' = if decide (fd = fd') then f (fs_at s fd) else fs_at s fd'.
Proof using H.
  rewrite fs_at_on_fs. destruct (decide (fd = fd')).
  - rewrite decide_True; [done|]. split; [apply H|done].
  - rewrite decide_False by naive_solver. done.
Qed.
Lemma net_at_put fd f fd' : net_at (on_net fd f s) fd' = if decide (fd = fd') then f (net_at s fd) else net_at s fd'.
Proof using H.
  rewrite net_at_on_net. destruct (decide (fd = fd')) as [->|].
  - rewrite decide_True; [done|]. split; [apply H|done].
  - rewrite decide_False by naive_solver. done.
Qed.
Lemma put_tables_fs fd f : is_Some (g_fsinfo (on_fs fd f s)) /\ g_netinfo (on_fs fd f s) = g_netinfo s.
Proof using H. unfold on_fs. destruct (h_fs _ _ H) as [t ->]. simpl. eauto. Qed.
Lemma put_tables_net fd f : is_Some (g_netinfo (on_net fd f s)) /\ g_fsinfo (on_net fd f s) = g_fsinfo s.
Proof using H. unfold on_net. destruct (h_net _ _ H) as [t ->]. simpl. eauto. Qed.

Lemma put_file fd f : in_table fd FS_ENTRIES = true -> f_active (f (fs_at s fd)) = true ->
  holds (on_fs fd f s) (add_file fd (f_type (f (fs_at s fd))) (std_name (f_path (f (fs_at s fd)))) d).
Proof using H.
  intros Ht Ha. destruct (put_tables_fs fd f) as [T1 T2]. constructor; [done|by rewrite T2; apply H|intros fd'..].
  - rewrite fs_at_put. cbn [files streams consoles socks add_file drop_file add_sock drop_sock]. rewrite elem_of_union, elem_of_singleton, (h_files _ _ H).
    destruct (decide (fd = fd')) as [->|]; naive_solver.
  - rewrite fs_at_put. cbn [files streams consoles socks add_file drop_file add_sock drop_sock]. rewrite elem_of_union, elem_of_singleton, elem_of_put. pose proof (h_streams _ _ H fd') as Hs.
    rewrite bool_decide_eq_true. destruct (decide (fd = fd')) as [->|]; naive_solver.
  - rewrite fs_at_put. cbn [files streams consoles socks add_file drop_file add_sock drop_sock]. rewrite elem_of_union, elem_of_singleton, elem_of_put. pose proof (h_consoles _ _ H fd') as Hs.
    destruct (decide (fd = fd')) as [->|]; naive_solver.
  - unfold net_at. rewrite T2. cbn [files streams consoles socks add_file drop_file add_sock drop_sock]. apply (h_socks _ _ H).
Qed.
Lemma drop_file_holds fd f : f_active (f (fs_at s fd)) = false -> holds (on_fs fd f s) (drop_file fd d).
Proof using H.
  intros Ha. destruct (put_tables_fs fd f) as [T1 T2]. constructor; [done|by rewrite T2; apply H|intros fd'..].
  - rewrite fs_at_put. cbn [files streams consoles socks add_file drop_file add_sock drop_sock]. rewrite elem_of_difference, elem_of_singleton, (h_files _ _ H).
    destruct (decide (fd = fd')) as [->|]; [rewrite Ha; intuition discriminate|naive_solver].
  - rewrite fs_at_put. cbn [files streams consoles socks add_file drop_file add_sock drop_sock]. pose proof (h_streams _ _ H fd') as Hs. destruct (decide (fd = fd')) as [->|]; set_solver.
  - rewrite fs_at_put. cbn [files streams consoles socks add_file drop_file add_sock drop_sock]. pose proof (h_consoles _ _ H fd') as Hs. destruct (decide (fd = fd')) as [->|]; set_solver.
  - unfold net_at. rewrite T2. cbn [files streams consoles socks add_file drop_file add_sock drop_sock]. apply (h_socks _ _ H).
Qed.
Lemma put_sock fd f : in_table fd NET_ENTRIES = true -> n_active (f (net_at s fd)) = true ->
  holds (on_net fd f s) (add_sock fd d).
Proof using H.
  intros Ht Ha. destruct (put_tables_net fd f) as [T1 T2]. constructor; [by rewrite T2; apply H|done|intros fd'..].
  - unfold fs_at. rewrite T2. apply (h_files _ _ H).
  - unfold fs_at. rewrite T2. apply (h_streams _ _ H).
  - unfold fs_at. rewrite T2. apply (h_consoles _ _ H).
  - rewrite net_at_put. cbn [files streams consoles socks add_file drop_file add_sock drop_sock]. rewrite elem_of_union, elem_of_singleton, (h_socks _ _ H).
    destruct (decide (fd = fd')) as [->|]; naive_solver.
Qed.
Lemma drop_sock_holds fd f : n_active (f (net_at s fd)) = false -> holds (on_net fd f s) (drop_sock fd d).
Proof using H.
  intros Ha. destruct (put_tables_net fd f) as [T1 T2]. constructor; [by rewrite T2; apply H|done|intros fd'..].
  - unfold fs_at. rewrite T2. apply (h_files _ _ H).
  - unfold fs_at. rewrite T2. apply (h_streams _ _ H).
  - unfold fs_at. rewrite T2. apply (h_consoles _ _ H).
  - rewrite net_at_put. cbn [files streams consoles socks add_file drop_file add_sock drop_sock]. rewrite elem_of_difference, elem_of_singleton, (h_socks _ _ H).
    destruct (decide (fd = fd')) as [->|]; [rewrite Ha; intuition discriminate|naive_solver].
Qed.

End Held.

Lemma ref_update s d type fd size f p : holds s d -> (counting type = true -> 0 <= size) ->
  ref s (d, if spec_counts d type fd then [(type, size)] else []) (doUpdateState type fd size f p s).
Proof.
  intros H Hs. split; [|eapply holds_shape; [done|apply shape_update]].
  assert (spec_counts d type fd = noticed s type fd) as ->.
  { unfold noticed, spec_counts. destruct type; try done; rewrite ?(check_fs _ _ H); try done;
      apply bool_decide_ext; symmetry; apply (is_sock _ _ H). }
  apply path_one, d_update. intros Hn. apply Hs. by destruct type.
Qed.
(** An operation on a file with an entry. *)
Lemma ref_count s d type fd f p : holds s d -> in_table fd FS_ENTRIES = true ->
  type = FS_OPEN \/ type = FS_CLOSE \/ type = FS_SEEK -> ref s (d, [(type, 0)]) (doUpdateState type fd 0 f p s).
Proof.
  intros H Ht Hty. pose proof (ref_update s d type fd 0 f p H) as K.
  assert (spec_counts d type fd = true) as Hc by (by destruct Hty as [->|[->| ->]]).
  rewrite Hc in K. by apply K.
Qed.

(** Two parts in a row. *)
Lemma ref_trans s d1 l1 s1 d2 l2 s2 : ref s (d1, l1) s1 -> ref s1 (d2, l2) s2 -> ref s (d2, l1 ++ l2) s2.
Proof. intros [P1 _] [P2 H2]. split; [by eapply path_trans|done]. Qed.

Lemma ref_zero_fs s d d' fd f : (forall x c, f_cnt (f x) c = zero_elt) -> holds (on_fs fd f s) d' ->
  holds s d -> ref s (d', []) (on_fs fd f s).
Proof. intros Hz Hd H. split; [|done]. apply path_one, d_fs. by right. Qed.
Lemma ref_zero_net s d d' fd f : (forall x c, n_cnt (f x) c = zero_elt) -> holds (on_net fd f s) d' ->
  holds s d -> ref s (d', []) (on_net fd f s).
Proof. intros Hz Hd H. split; [|done]. apply path_one, d_net. by right. Qed.

Lemma std_cut path : std_name (cut PATH_MAX path) = std_name path.
Proof.
  unfold std_name, cut. assert (PATH_MAX = S (S (S (Z.to_nat 4093)))) as -> by (vm_compute; reflexivity).
  generalize (Z.to_nat 4093). intros n. destruct path as [|a [|b [|c r]]]; try done. cbn [String.substring String.prefix].
  repeat case_match; try done; by destruct (String.substring 0 n r), r.
Qed.

Lemma ref_open_entry s d fd path type func : holds s d -> in_table fd FS_ENTRIES = true ->
  ref s (add_file fd type (std_name path) d, [(FS_OPEN, 0)]) (open_entry fd path type func s).
Proof.
  intros H Ht. unfold open_entry. pose proof (quiet_time s) as Q0.
  destruct (getTime s) as [now s0]. cbn [snd] in Q0. cbn zeta.
  assert (holds s0 d) as H0 by (eapply holds_shape; [done|apply Q0]).
  set (s1 := on_fs fd _ s0).
  assert (ref s (add_file fd type (std_name path) d, []) s1) as R1.
  { rewrite <- std_cut. eapply ref_after; [done|]. eapply ref_zero_fs; [done| |done]. subst s1.
    match goal with |- holds (on_fs _ ?f _) _ => exact (put_file s0 d H0 fd f Ht eq_refl) end. }
  clearbody s1. set (x := if _ && _ then _ else _).
  assert (quiet s1 x.2) as Q2.
  { subst x. destruct (_ && _); [|reflexivity]. destruct (k_stat _); [|reflexivity]. cbn [snd]. quiets. }
  destruct x as [sbuf s2]. cbn [snd] in Q2. cbn iota beta.
  eapply ref_quiet; [|apply quiet_detect]. apply (ref_trans _ _ [] _ _ _ _ (ref_quiet _ _ _ _ R1 Q2)).
  apply ref_count; [eapply holds_shape; [apply R1|apply Q2]|done|by left].
Qed.

Lemma ref_entry s d fd : holds s d ->
  let '(found, d', l) := spec_entry fd d in
  ref s (d', l) (getFSEntry fd s).2 /\
  (getFSEntry fd s).1 = (if found then Some (fs_at (getFSEntry fd s).2 fd) else None) /\
  (found = true <-> fd ∈ files d') /\ socks d' = socks d.
Proof.
  intros H. unfold getFSEntry, spec_entry. rewrite (file_open _ _ H).
  destruct (decide (fd ∈ files d)) as [Hf|Hf].
  { rewrite bool_decide_eq_true_2 by done. split_and!; try done. by apply ref_refl. }
  rewrite (bool_decide_eq_false_2 (fd ∈ files d)) by done. rewrite (bool_decide_eq_true_2 (is_Some _)) by apply H.
  cbn [andb]. destruct ((0 <=? fd) && (fd <=? 2)) eqn:Hr.
  - assert (in_table fd FS_ENTRIES = true) as Ht.
    { apply andb_true_iff in Hr as [?%Z.leb_le ?%Z.leb_le]. unfold in_table, FS_ENTRIES.
      apply andb_true_iff. split; [by apply Z.leb_le|apply Z.ltb_lt; lia]. }
    assert (std_name (if fd =? 0 then ("stdin", "console input")
      else if fd =? 1 then ("stdout", "console output") else ("stderr", "console output")).1 = true) as Hn.
    { destruct (fd =? 0), (fd =? 1); done. }
    destruct (if fd =? 0 then _ else _) as [name description]. cbn [fst snd] in *. rewrite <- Hn.
    split_and!; [by apply ref_open_entry|done| |done]. split; [|done]. intros _. set_solver.
  - split_and!; [by apply ref_refl|done|done|done].
Qed.

Lemma drop_no_sock fd d : fd ∉ socks d -> drop_sock fd d = d.
Proof. intros. destruct d as [f st co so]. unfold drop_sock. f_equal. simpl in *. set_solver. Qed.

(** A step that changes no counter. *)
Lemma ref_net s d' fd f : (forall x c, n_cnt (f x) c = n_cnt x c) -> holds (on_net fd f s) d' -> ref s (d', []) (on_net fd f s).
Proof. intros Hc Hd. split; [|done]. apply path_one, d_net. by left. Qed.

Lemma ref_drop_sock s d l s' fd : ref s (d, l) s' -> ref s (drop_sock fd d, l) (on_net fd (fun n => setn_active n false) s').
Proof.
  intros R. rewrite <- (app_nil_r l). apply (ref_trans _ _ _ _ _ _ _ R). apply ref_net; [done|].
  apply drop_sock_holds; [apply R|done].
Qed.
Lemma ref_drop_file s d l s' fd : ref s (d, l) s' -> ref s (drop_file fd d, l) (on_fs fd (fun _ => zero_fs) s').
Proof.
  intros R. rewrite <- (app_nil_r l). apply (ref_trans _ _ _ _ _ _ _ R). eapply ref_zero_fs; [done| |apply R].
  apply drop_file_holds; [apply R|done].
Qed.

Lemma ref_close s d fd func : holds s d -> ref s (spec_close fd d) (doClose fd func s).
Proof.
  intros H. unfold doClose. rewrite (sock_open _ _ H). set (s1 := match (if decide (fd ∈ socks d) then _ else _) with Some _ => _ | None => _ end).
  assert (quiet s s1) as Q1. { subst s1. destruct (decide (fd ∈ socks d)); [|reflexivity]. quiets. }
  clearbody s1. assert (holds s1 d) as H1 by (eapply holds_shape; [done|apply Q1]).
  pose proof (ref_entry s1 d fd H1) as RE. unfold spec_close. destruct (spec_entry fd d) as [[found d'] l].
  destruct (getFSEntry fd s1) as [o s2]. cbn [fst snd] in RE. destruct RE as (R2 & -> & Hf & Hso).
  apply (ref_after _ _ _ _ Q1) in R2.
  destruct found; cbn iota.
  - assert (ref s (d', l ++ [(FS_CLOSE, 0)]) (doUpdateState FS_CLOSE fd 0 func None s2)) as R3.
    { apply (ref_trans _ _ _ _ _ _ _ R2). apply ref_count; [apply R2| |auto]. eapply file_table; [apply R2|by apply Hf]. }
    apply (ref_drop_file _ (drop_sock fd d')). destruct (decide (fd ∈ socks d)); [by apply ref_drop_sock|].
    rewrite drop_no_sock; [done|by rewrite Hso].
  - destruct (decide (fd ∈ socks d)); [by apply ref_drop_sock|]. rewrite drop_no_sock; [done|by rewrite Hso].
Qed.

Lemma ref_open s d fd path type func : holds s d -> fd <> -1 -> ref s (spec_open fd type (std_name path) d) (doOpen fd path type func s).
Proof.
  intros H Hfd. unfold doOpen, spec_open. rewrite (proj2 (Z.eqb_neq fd (-1))) by done. rewrite (check_fs _ _ H).
  destruct (in_table fd FS_ENTRIES) eqn:Ht; [|by apply ref_refl].
  rewrite (file_active _ _ H) by done. destruct (decide (fd ∈ files d)) as [Hf|Hf].
  - rewrite bool_decide_eq_true_2 by done. pose proof (ref_close s d fd func H) as R.
    destruct (spec_close fd d) as [d' l]. apply (ref_trans _ _ _ _ _ _ _ R). apply ref_open_entry; [apply R|done].
  - rewrite bool_decide_eq_false_2 by done. by apply ref_open_entry.
Qed.

Lemma ref_sock s d fd type family : holds s d -> ref s (spec_sock fd d) (addSock fd type family s).
Proof.
  intros H. unfold addSock, spec_sock. rewrite (check_net _ _ H).
  destruct (in_table fd NET_ENTRIES) eqn:Ht; [|by apply ref_refl]. rewrite (sock_active _ _ H) by done.
  set (s1 := if bool_decide _ then _ else _).
  assert (ref s (if decide (fd ∈ socks d) then spec_close fd d else (d, [])) s1) as R.
  { subst s1. destruct (decide (fd ∈ socks d)).
    - rewrite bool_decide_eq_true_2 by done. by apply ref_close.
    - rewrite bool_decide_eq_false_2 by done. by apply ref_refl. }
  clearbody s1. destruct (if decide _ then _ else _) as [d' l].
  pose proof (ref_quiet _ _ _ _ R (quiet_time s1)) as R1. destruct (getTime s1) as [now s2]. cbn [snd] in R1. cbn iota beta.
  rewrite <- (app_nil_r l). apply (ref_trans _ _ _ _ _ _ _ R1). eapply ref_zero_net; [done| |apply R1].
  by apply put_sock; [apply R1| |].
Qed.

Lemma quiet_connection fd addr len endp s s' : doSetConnection fd addr len endp s = Def s' -> quiet s s'.
Proof.
  unfold doSetConnection. intros Hs. destruct addr as [addr|]; [|by injection Hs as <-].
  destruct (getNetEntry s fd) as [net|]; [|by injection Hs as <-].
  destruct (len <=? 0); [by injection Hs as <-|]. cbn zeta in Hs.
  assert (forall x, quiet s x ->
    quiet s (if addrIsNetDomain (n_localConn (net_at x fd)) then doUpdateState CONNECTION_OPEN fd 1 None None x else x)) as Q.
  { intros x Hx. destruct (addrIsNetDomain _); [|done]. etrans; [done|by apply quiet_update]. }
  destruct (decide (endp = LOCAL)); (destruct (_ && _); [by injection Hs as <-|]);
    (destruct (memcpy _ _ _ _) as [a|]; [|discriminate]); apply Def_inj in Hs as <-;
    apply Q, quiet_net; intros; by destruct (n_type net =? SOCK_STREAM).
Qed.
Lemma quiet_from answer fd endp s s' : set_from answer fd endp s = Def s' -> quiet s s'.
Proof. destruct answer as [[a n]|]; [apply quiet_connection|by intros [= <-]]. Qed.

Lemma ref_new_sock s d fd s' : holds s d -> doAddNewSock fd s = Def s' -> ref s (spec_new_sock fd d) s'.
Proof.
  intros H Hs. unfold doAddNewSock in Hs. apply bind_def in Hs as (a & Ha & Hs). apply quiet_from in Hs. eapply ref_quiet; [|done].
  unfold spec_new_sock, new_sock. destruct (k_getsockname fd) as [[addr n]|].
  - cbn zeta in Ha. apply quiet_connection in Ha. eapply ref_quiet; [|done]. destruct (_ || _); [|by apply ref_sock].
    destruct (k_so_type fd); [|by apply ref_refl]. rewrite bool_decide_eq_true_2 by eauto. by apply ref_sock.
  - injection Ha as <-. by apply ref_sock.
Qed.

Lemma quiet_addrs fd s s' : doSetAddrs fd s = Def s' -> quiet s s'.
Proof.
  unfold doSetAddrs. intros Hs. cbn zeta in Hs. destruct (negb _); [by injection Hs as <-|].
  destruct (getNetEntry s fd) as [net|]; [|by injection Hs as <-]. destruct (_ || _).
  - destruct (n_addrSetUnix net); [by injection Hs as <-|]. apply Def_inj in Hs as <-. unfold doUnixEndpoint.
    destruct (match k_fstat_sock fd with Some _ => _ | None => _ end) as [local peer]. quiets.
  - destruct (n_type net =? SOCK_STREAM); [|by injection Hs as <-]. apply bind_def in Hs as (a & Ha & Hs). transitivity a.
    + destruct (negb _); [by eapply quiet_from|by injection Ha as <-].
    + destruct (negb (n_addrSetRemote _)); [by eapply quiet_from|by injection Hs as <-].
Qed.

Lemma ref_dup_sock s d oldfd newfd : holds s d -> in_table oldfd NET_ENTRIES = true -> ref s (spec_dup_sock newfd d) (doDupSock oldfd newfd s).2.
Proof.
  intros H Ho. unfold doDupSock, spec_dup_sock. rewrite !(check_net _ _ H), Ho, orb_false_r.
  destruct (in_table newfd NET_ENTRIES) eqn:Ht; cbn [negb]; [|by apply ref_refl].
  pose proof (quiet_time s) as Q. destruct (getTime s) as [now s0]. cbn [snd] in Q |- *. cbn zeta.
  assert (holds s0 d) as H0 by (eapply holds_shape; [done|apply Q]).
  eapply ref_after; [done|]. eapply ref_quiet; [|by apply quiet_update]. eapply ref_zero_net; [| |done].
  - intros x c. by destruct c.
  - by apply put_sock.
Qed.

Lemma ref_dup_file s d oldfd newfd func : holds s d -> oldfd ∈ files d ->
  ref s (spec_dup_file oldfd newfd d) (doDupFile oldfd newfd func s).2.
Proof.
  intros H Ho. unfold doDupFile, spec_dup_file. rewrite !(check_fs _ _ H), (file_table _ _ H oldfd Ho), orb_false_r.
  destruct (in_table newfd FS_ENTRIES) eqn:Ht; cbn [negb snd].
  - assert (f_type (fs_at s oldfd) = if decide (oldfd ∈ streams d) then STREAM else FD) as ->.
    { pose proof (h_streams _ _ H oldfd) as Hst. destruct (f_type (fs_at s oldfd)); case_decide; try done; naive_solver. }
    assert (negb (oldfd =? newfd) && bool_decide (oldfd ∈ consoles d)
            = std_name (if oldfd =? newfd then "" else f_path (fs_at s oldfd))) as ->.
    { destruct (oldfd =? newfd); [done|]. cbn [negb andb]. apply eq_true_iff_eq. rewrite bool_decide_eq_true, (h_consoles _ _ H). naive_solver. }
    apply ref_open; [done|]. intros ->. done.
  - unfold spec_open. rewrite Ht. by apply ref_refl.
Qed.

(** The lookup that every operation on a file starts with. *)
Lemma ref_on_file s d fd counted g : holds s d ->
  (forall fs s' d', holds s' d' -> fd ∈ files d' -> ref s' (d', counted) (g fs s')) ->
  ref s (spec_on_file fd counted d) (let '(fs, s) := getFSEntry fd s in match fs with Some fs => g fs s | None => s end).
Proof.
  intros H Hg. pose proof (ref_entry s d fd H) as RE. unfold spec_on_file. destruct (spec_entry fd d) as [[found d'] l].
  destruct (getFSEntry fd s) as [o s1]. cbn [fst snd] in RE. destruct RE as (R & -> & Hf & _). destruct found.
  - apply (ref_trans _ _ _ _ _ _ _ R). apply Hg; [apply R|by apply Hf].
  - by rewrite app_nil_r.
Qed.

Lemma ref_dup s d fd rc func copyNet s' : holds s d -> doDup fd rc func copyNet s = Def s' ->
  ref s (spec (HDup fd rc func copyNet) d) s'.
Proof.
  intros H. unfold doDup, spec. pose proof (ref_entry s d fd H) as RE. destruct (spec_entry fd d) as [[found d1] l].
  destruct (getFSEntry fd s) as [o s1]. cbn [fst snd] in RE. destruct RE as (R & -> & Hf & _). cbn zeta.
  rewrite (sock_open s1 d1) by apply R. intros Hs. apply (ref_then _ (d1, l) _ _ _ R). cbn [fst]. intros H1.
  destruct (rc =? -1); cbn [negb] in Hs.
  - destruct found; [|destruct (decide _)]; apply Def_inj in Hs as <-; (eapply ref_quiet; [by apply ref_refl|]);
      first [by apply quiet_update|reflexivity].
  - destruct (decide (fd ∈ socks d1)).
    + destruct copyNet; [apply Def_inj in Hs as <-; apply ref_dup_sock; [done|by eapply sock_table]|by apply ref_new_sock].
    + destruct found; apply Def_inj in Hs as <-; [|by apply ref_refl]. apply ref_dup_file; [done|by apply Hf].
Qed.

Lemma entry_keeps fd fd' d : fd' ∈ files d -> fd' ∈ files (spec_entry fd d).1.2.
Proof. intros. unfold spec_entry. case_decide; [done|]. destruct (_ && _); set_solver. Qed.
Lemma close_keeps fd fd' d : fd <> fd' ->
  (fd' ∈ files d -> fd' ∈ files (spec_close fd d).1) /\ (fd' ∈ socks d -> fd' ∈ socks (spec_close fd d).1).
Proof.
  intros. unfold spec_close, spec_entry. case_decide; [set_solver|]. destruct (_ && _); set_solver.
Qed.

Lemma ref_dup2 s d oldfd newfd rc func : holds s d -> ref s (spec (HDup2 oldfd newfd rc func) d) (doDup2 oldfd newfd rc func s).
Proof.
  intros H. unfold doDup2, spec. pose proof (ref_entry s d oldfd H) as RE. destruct (spec_entry oldfd d) as [[found d1] l].
  destruct (getFSEntry oldfd s) as [o s1]. cbn [fst snd] in RE. destruct RE as (R & -> & Hf & _). cbn zeta.
  rewrite (sock_open s1 d1) by apply R. apply (ref_then _ (d1, l) _ _ _ R). cbn [fst]. intros H1.
  rewrite <- negb_orb. destruct ((rc =? -1) || (oldfd =? newfd)) eqn:Hrc; cbn [negb].
  { destruct found; [|destruct (decide _)]; (eapply ref_quiet; [by apply ref_refl|]); first [by apply quiet_update|reflexivity]. }
  apply orb_false_iff in Hrc as [_ Hne%Z.eqb_neq].
  destruct (decide (oldfd ∈ socks d1)) as [Hso|Hso].
  - set (s2 := if bool_decide _ then _ else _).
    assert (ref s1 (if decide (newfd ∈ socks d1) then spec_close newfd d1 else (d1, [])) s2) as R2.
    { subst s2. rewrite (bool_decide_ext _ _ (is_sock _ _ H1 newfd)). destruct (decide (newfd ∈ socks d1)).
      - rewrite bool_decide_eq_true_2 by done. by apply ref_close.
      - rewrite bool_decide_eq_false_2 by done. by apply ref_refl. }
    apply (ref_then _ _ _ _ _ R2). intros H2. apply ref_dup_sock; [done|]. exact (sock_table _ _ H1 _ Hso).
  - destruct found; [|by apply ref_refl]. assert (oldfd ∈ files d1) as Ho by (by apply Hf).
    pose proof (ref_entry s1 d1 newfd H1) as RE. pose proof (entry_keeps newfd oldfd d1 Ho) as Ho2.
    destruct (spec_entry newfd d1) as [[present d2] l2]. destruct (getFSEntry newfd s1) as [o2 s2]. cbn [fst snd] in RE, Ho2.
    destruct RE as (R2 & -> & _ & _). set (s3 := if bool_decide _ then _ else _).
    assert (ref s1 (then_spec (d2, l2) (fun d => if present then spec_close newfd d else (d, []))) s3) as R3.
    { apply (ref_then _ _ _ _ _ R2). cbn [fst]. intros H2. subst s3. destruct present; simpl; [by apply ref_close|by apply ref_refl]. }
    apply (ref_then _ _ _ _ _ R3). intros H3. apply ref_dup_file; [done|]. unfold then_spec.
    destruct present; [|done]. pose proof (proj1 (close_keeps newfd oldfd d2 ltac:(done)) Ho2) as Hk.
    by destruct (spec_close newfd d2).
Qed.

Lemma ref_close_all s d : holds s d -> ref s (spec HCloseAll d) (doCloseAllStreams s).
Proof.
  intros H. unfold doCloseAllStreams, spec. rewrite bool_decide_eq_true_2 by apply H.
  assert (forall l s1 x, Forall (fun i => in_table i FS_ENTRIES = true) l -> ref s x s1 ->
    ref s (foldl (fun x i => then_spec x (fun d => if decide (i ∈ streams d) then spec_close i d else (d, []))) x l)
      (foldl (fun s i => if f_active (fs_at s i) && bool_decide (f_type (fs_at s i) = STREAM)
                         then doClose i (Some "fcloseall") s else s) s1 l)) as Hl.
  { induction l as [|i l IH]; intros s1 x Hr Hx; [done|]. inversion Hr as [|?? Hi Hr']; subst. apply IH; [done|].
    apply (ref_then _ _ _ _ _ Hx). intros H1. rewrite (file_active _ _ H1) by done.
    pose proof (h_streams _ _ H1 i) as Hs. destruct (decide (i ∈ streams _)) as [Hi'|Hi'].
    - rewrite !bool_decide_eq_true_2 by (by apply Hs). by apply ref_close.
    - destruct (bool_decide (i ∈ _)) eqn:B1, (bool_decide (_ = STREAM)) eqn:B2; simpl; try by apply ref_refl.
      apply bool_decide_eq_true in B1, B2. naive_solver. }
  apply Hl; [|by apply ref_refl]. apply Forall_forall. intros i [? ?]%list_elem_of_In%elem_of_seqZ.
  unfold in_table. apply andb_true_iff. split; [by apply Z.leb_le|by apply Z.ltb_lt].
Qed.

(** ** Traffic *)

Lemma quiet_extra x s : quiet s (set_g_extra s x).
Proof. apply quiet_step; [by apply d_quiet|by apply shape_tables]. Qed.
Lemma quiet_ref n f s : (forall x c, n_cnt (f x) c = n_cnt x c) -> (forall x, n_active (f x) = n_active x) ->
  quiet s (on_ref n f s).
Proof. intros. destruct n; [by apply quiet_net|apply quiet_extra]. Qed.

(** What a computation that may be undefined leads to. *)
Definition qret {A} (s : st) (x : ub (A * st)) : Prop := forall a s', x = Def (a, s') -> quiet s s'.

Lemma qret_def {A} s (a : A) s' : quiet s s' -> qret s (Def (a, s')).
Proof. intros H a' s'' [= _ <-]. done. Qed.

Lemma qret_after {A B} s (x : ub B) (f : B -> ub (A * st)) : (forall b, qret s (f b)) -> qret s (x ≫= f).
Proof. intros Hf a s' H. apply bind_def in H as (b & _ & H). by eapply Hf. Qed.

Lemma quiet_setProtocol fd def net buf len s : qret s (setProtocol fd def net buf len s).
Proof.
  unfold setProtocol. cbn zeta. destruct (_ || _ || _); [apply qret_def; by apply quiet_ref|].
  set (x := if CfgParse.binary def then calloc s else (true, s)).
  assert (quiet s x.2) as Q by (subst x; destruct (CfgParse.binary def); [apply quiet_calloc|reflexivity]).
  destruct x as [ok s1]. cbn [snd] in Q. destruct ok; cbn [negb].
  2:{ apply qret_def. etrans; [exact Q|]. by apply quiet_ref. }
  apply qret_after. intros bytes. destruct (0 <? _).
  2:{ apply qret_def. etrans; [exact Q|]. by apply quiet_ref. }
  set (s2 := on_ref net _ s1). assert (quiet s s2) as Q2 by (etrans; [exact Q|]; by apply quiet_ref). clearbody s2.
  destruct (_ && _); [|by apply qret_def]. destruct (CfgParse.protname def); [|by apply qret_def].
  pose proof (quiet_calloc s2) as Q3. destruct (calloc s2) as [p s3]. pose proof (quiet_calloc s3) as Q4.
  destruct (calloc s3) as [n s4]. cbn [snd] in *. assert (quiet s s4) as Q5 by (etrans; [exact Q2|by etrans]).
  destruct (p && n); apply qret_def; [|done]. etrans; [exact Q5|by apply quiet_plain].
Qed.

Lemma quiet_first_of f l s : (forall v s, qret s (f v s)) -> qret s (first_of f l s).
Proof.
  intros Hf. revert s. induction l as [|v l IH]; intros s; [by apply qret_def|]. cbn [first_of].
  intros b s' H. apply bind_def in H as ([ret s1] & H1 & H). apply Hf in H1. destruct ret; [by injection H as _ <-|].
  etrans; [exact H1|]. by eapply IH.
Qed.
Lemma quiet_by_type fd def net buf len s : qret s (setProtocolByType fd def net buf len s).
Proof.
  destruct buf; cbn [setProtocolByType]; [apply quiet_setProtocol| | |by apply qret_def];
    apply quiet_first_of; intros; apply quiet_setProtocol.
Qed.

Lemma quiet_gather l acc s : quiet s (gather l acc s).2.
Proof.
  revert acc s. induction l as [|v l IH]; intros acc s; [reflexivity|]. cbn [gather].
  pose proof (quiet_calloc s) as Q. destruct (calloc s) as [[] s1]; [|done]. etrans; [exact Q|apply IH].
Qed.
Lemma quiet_post_payload p s : quiet s (cmdPostPayload p s).2.
Proof.
  unfold cmdPostPayload. destruct (_ <? _)%nat; [|reflexivity]. apply quiet_step; [by apply d_quiet|by apply shape_tables].
Qed.
Lemma quiet_payload fd net buf len src s : qret s (extractPayload fd net buf len src s).
Proof.
  unfold extractPayload. destruct (len <=? 0); [by apply qret_def|]. pose proof (quiet_calloc s) as Q.
  destruct (calloc s) as [ok s1]. cbn [snd] in Q. destruct ok; cbn [negb]; [|by apply qret_def]. cbn zeta.
  assert (forall l, qret s (Def match gather l None s1 with
    | (None, s) => (-1, s)
    | (Some data, s) => cmdPostPayload (mkPayload src fd (net_of s net) (Z.of_nat (length (default [] data))) data) s
    end)) as Hg.
  { intros l. pose proof (quiet_gather l None s1) as Qg. destruct (gather l None s1) as [[data|] s2]; cbn [snd] in Qg.
    - destruct (cmdPostPayload _ s2) as [z s3] eqn:Hp. apply qret_def. etrans; [exact Q|]. etrans; [exact Qg|].
      pose proof (quiet_post_payload (mkPayload src fd (net_of s2 net) (Z.of_nat (length (default [] data))) data) s2) as Q3.
      by rewrite Hp in Q3.
    - apply qret_def. by etrans. }
  destruct buf as [b|iov|iov|]; [|apply Hg|apply Hg|by apply qret_def].
  pose proof (quiet_calloc s1) as Q2. destruct (calloc s1) as [ok s2]. cbn [snd] in Q2.
  destruct ok; cbn [negb]; [|apply qret_def; by etrans]. apply qret_after. intros bytes.
  intros a s3 H. apply Def_inj in H. etrans; [exact Q|]. etrans; [exact Q2|].
  pose proof (quiet_post_payload (mkPayload src fd (net_of s2 net) len (Some bytes)) s2) as Q3. by rewrite H in Q3.
Qed.

Lemma quiet_tls net raw s s' : detectTLS net raw s = Def s' -> quiet s s'.
Proof.
  intros H. unfold detectTLS in H. apply bind_def in H as (tls & _ & H). apply bind_def in H as (bytes & _ & H).
  apply Def_inj in H as <-. destruct (0 <? _); by apply quiet_ref.
Qed.
Lemma quiet_loop f l h t s b h' t' s' : (forall d s, qret s (f d s)) ->
  detect_loop f l h t s = Def (b, h', t', s') -> quiet s s'.
Proof.
  intros Hf. revert h t s. induction l as [|d l IH]; intros h t s H; cbn [detect_loop] in H; [by injection H as _ _ _ <-|].
  apply bind_def in H as (x & _ & H). apply bind_def in H as (y & _ & H). apply bind_def in H as ([done s1] & H1 & H).
  apply Hf in H1. destruct done; [by injection H as _ _ _ <-|]. etrans; [exact H1|]. by eapply IH.
Qed.
Lemma quiet_default skip d f s : (forall d s, qret s (f d s)) -> qret s (detect_default skip d f s).
Proof. intros Hf. unfold detect_default. destruct skip; [by apply qret_def|]. destruct d; [apply Hf|by intros ? ?]. Qed.

Lemma quiet_protocol fd net buf len src s s' : detectProtocol fd net buf len src s = Def s' -> quiet s s'.
Proof.
  unfold detectProtocol. destruct (_ && _); [by intros [= <-]|]. cbn zeta. set (f := fun d s => _). intros H.
  assert (forall d s, qret s (f d s)) as Hf by (intros; apply quiet_by_type). clearbody f.
  apply bind_def in H as ([[[done h] t] s1] & H1 & H). apply quiet_loop in H1; [|exact Hf].
  destruct done; [by injection H as <-|]. apply bind_def in H as ([done s2] & H2 & H). apply quiet_default in H2; [|exact Hf].
  etrans; [exact H1|]. destruct done; [by injection H as <-|]. apply bind_def in H as ([done s3] & H3 & H).
  apply quiet_default in H3; [|exact Hf]. apply Def_inj in H as <-. by etrans.
Qed.

Lemma quiet_metric buf s : qret s (doMetricBuffer buf s).
Proof.
  unfold doMetricBuffer. destruct re_statsd, re_statsd_ext, g_metric_buf; try by apply qret_def. cbn zeta.
  destruct (match _ buf with Some _ => _ | None => _ end) as [[g dims]|]; [|by apply qret_def].
  assert (quiet s (createCapturedMetric g dims s).2) as Q.
  { unfold createCapturedMetric. destruct g as [[[] []] []]; try reflexivity. pose proof (quiet_calloc s) as Q. destruct (calloc s). exact Q. }
  destruct (createCapturedMetric g dims s) as [[m|] s1]; cbn [snd] in Q; [|by apply qret_def].
  destruct (_ <? _)%nat; apply qret_def; [|done]. etrans; [exact Q|].
  apply quiet_step; [by apply d_quiet|by apply shape_tables].
Qed.
Lemma quiet_capture buf len s : qret s (doMetricCapture buf len s).
Proof.
  destruct buf; cbn [doMetricCapture]; [apply qret_after; intros; apply quiet_metric| | |by apply qret_def];
    apply quiet_first_of; intros; apply quiet_metric.
Qed.

Lemma quiet_http fd net buf len src s s' : feed_http fd net buf len src s = Def s' -> quiet s s'.
Proof.
  unfold feed_http. cbn zeta. intros H. apply bind_def in H as ([[b h] w] & _ & H). apply Def_inj in H as <-.
  set (s1 := on_ref net _ _). assert (quiet s s1) as Q.
  { subst s1. etrans; [|by apply quiet_ref]. apply quiet_step; [by apply d_quiet|by apply shape_tables]. }
  clearbody s1. revert s1 Q. induction (HttpState.posted w) as [|p l IH]; intros s1 Q; [done|].
  cbn [foldl]. apply IH. etrans; [exact Q|by apply quiet_plain].
Qed.

Lemma quiet_plain_data fd net buf len src s s' : plain_data fd net buf len src s = Def s' -> quiet s s'.
Proof.
  unfold plain_data. intros H. apply bind_def in H as (s1 & H1 & H).
  assert (quiet s s1) as Q1 by (destruct (bool_decide _); [by eapply quiet_protocol|by injection H1 as <-]). clear H1.
  cbn zeta in H. apply bind_def in H as (s2 & H2 & H). transitivity s2.
  { etrans; [exact Q1|]. destruct (cfgPayEnable || _); [|by injection H2 as <-].
    apply bind_def in H2 as ([z s3] & H3 & H2). apply Def_inj in H2 as <-. by eapply quiet_payload. }
  clear H2 Q1. destruct (n_protoProtoDef _) as [d|]; [|by injection H as <-]. apply bind_def in H as (h & _ & H).
  apply bind_def in H as (s3 & H3 & H). transitivity s3.
  { destruct (h && _); [by eapply quiet_http|by injection H3 as <-]. }
  clear H3. destruct (cfgMtcEnable && _); [|by injection H as <-]. apply bind_def in H as (t & _ & H).
  destruct t; [|by injection H as <-]. apply bind_def in H as ([b s4] & H4 & H). apply Def_inj in H as <-. by eapply quiet_capture.
Qed.

Lemma quiet_doProtocol id fd buf len src s : qret s (doProtocol id fd buf len src s).
Proof.
  unfold doProtocol. set (x := match getNetEntry s fd with Some _ => _ | None => _ end).
  assert (quiet s x.2) as Q.
  { subst x. destruct (getNetEntry s fd); [reflexivity|]. unfold getChannelNetEntry. destruct (g_extra s !! id); [reflexivity|].
    pose proof (quiet_calloc s) as Q1. destruct (calloc s) as [ok s1]. cbn [snd] in Q1. destruct ok; cbn [negb]; [|done].
    pose proof (quiet_calloc s1) as Q2. destruct (calloc s1) as [ok s2]. cbn [snd] in Q2.
    assert (quiet s s2) by (by etrans). destruct ok; cbn [negb snd]; [|done]. etrans; [done|apply quiet_extra]. }
  destruct x as [[net|] s1]; cbn [snd] in Q; [|by apply qret_def]. destruct (len =? 0); [by apply qret_def|].
  intros b s' H. apply bind_def in H as (s2 & H2 & H). apply bind_def in H as (s3 & H3 & H). injection H as _ <-.
  etrans; [exact Q|]. transitivity s2.
  - destruct (bool_decide _); [by eapply quiet_tls|by injection H2 as <-].
  - clear H2. destruct (_ || _ || _); [by eapply quiet_plain_data|by injection H3 as <-].
Qed.
Lemma quiet_pass fd buf len src s s' : pass_on fd buf len src s = Def s' -> quiet s s'.
Proof.
  destruct buf as [b|]; cbn [pass_on]; intros H; [|by injection H as <-].
  apply bind_def in H as ([r s1] & H1 & H). apply Def_inj in H as <-. by eapply quiet_doProtocol.
Qed.

Lemma ref_idle s d s' : holds s d -> quiet s s' -> ref s (d, []) s'.
Proof. intros H Q. eapply ref_quiet; [by apply ref_refl|done]. Qed.

Lemma ref_known s d fd s' : holds s d -> in_table fd NET_ENTRIES = true ->
  (if n_active (net_at s fd) then Def s else doAddNewSock fd s) = Def s' -> ref s (spec_known fd d) s'.
Proof.
  intros H Ht Hs. rewrite (sock_active _ _ H) in Hs by done. unfold spec_known. destruct (decide (fd ∈ socks d)).
  - rewrite bool_decide_eq_true_2 in Hs by done. injection Hs as <-. by apply ref_refl.
  - rewrite bool_decide_eq_false_2 in Hs by done. by apply ref_new_sock.
Qed.

(** The counting part of a send or a receive. *)
Lemma ref_amount s d type fd rc : holds s d -> type = NETRX \/ type = NETTX -> 0 <= rc ->
  ref s (d, if negb false && bool_decide (fd ∈ socks d) then [(type, rc)] else []) (doUpdateState type fd rc None None s).
Proof.
  intros H Ht Hr. pose proof (ref_update s d type fd rc None None H (fun _ => Hr)) as R.
  assert (spec_counts d type fd = bool_decide (fd ∈ socks d)) as Hc by (by destruct Ht as [->| ->]). by rewrite Hc in R.
Qed.

Lemma ref_recv s d fd rc buf len s' : holds s d -> 0 <= rc -> doRecv fd rc buf len s = Def s' ->
  ref s (spec_traffic NETRX fd rc (len =? 0) d) s'.
Proof.
  intros H Hr Hs. unfold doRecv in Hs. rewrite (check_net _ _ H) in Hs. unfold spec_traffic.
  destruct (in_table fd NET_ENTRIES) eqn:Ht; cbn [negb] in Hs; [|injection Hs as <-; by apply ref_refl].
  apply bind_def in Hs as (s1 & H1 & Hs). apply (ref_known _ d) in H1; [|done|done].
  apply bind_def in Hs as (s2 & H2 & Hs). apply quiet_addrs in H2.
  apply (ref_then _ _ _ _ _ (ref_quiet _ _ _ _ H1 H2)). intros Hh. destruct (len =? 0); cbn [negb andb].
  - apply Def_inj in Hs as <-. apply ref_idle; [done|]. by apply quiet_net.
  - cbn zeta in Hs. apply quiet_pass in Hs. eapply ref_quiet; [|exact Hs]. clear Hs.
    set (s3 := doUpdateState NETRX _ _ _ _ s2).
    assert (ref s2 ((spec_known fd d).1, if negb false && bool_decide (fd ∈ socks (spec_known fd d).1) then [(NETRX, rc)] else []) s3) as R3
      by (apply ref_amount; auto).
    clearbody s3. eapply ref_quiet; [exact R3|]. clear R3. destruct (_ && _); [by apply quiet_update|reflexivity].
Qed.
Lemma ref_send s d fd rc buf len s' : holds s d -> 0 <= rc -> doSend fd rc buf len s = Def s' ->
  ref s (spec_traffic NETTX fd rc false d) s'.
Proof.
  intros H Hr Hs. unfold doSend in Hs. rewrite (check_net _ _ H) in Hs. unfold spec_traffic.
  destruct (in_table fd NET_ENTRIES) eqn:Ht; cbn [negb] in Hs; [|injection Hs as <-; by apply ref_refl].
  apply bind_def in Hs as (s1 & H1 & Hs). apply (ref_known _ d) in H1; [|done|done].
  apply bind_def in Hs as (s2 & H2 & Hs). apply quiet_addrs in H2.
  apply (ref_then _ _ _ _ _ (ref_quiet _ _ _ _ H1 H2)). intros Hh. cbn zeta in Hs.
  set (s3 := doUpdateState NETTX _ _ _ _ s2) in Hs.
  assert (ref s2 ((spec_known fd d).1, if negb false && bool_decide (fd ∈ socks (spec_known fd d).1) then [(NETTX, rc)] else []) s3) as R3
    by (apply ref_amount; auto).
  clearbody s3. eapply ref_quiet; [exact R3|]. set (s4 := if negb (n_dnsSend _) && _ then _ else _) in Hs.
  assert (quiet s3 s4) as Q4.
  { subst s4. clear R3. destruct (_ && _); [|reflexivity]. etrans; [|by apply quiet_net]. by apply quiet_update. }
  clearbody s4. etrans; [exact Q4|]. destruct (0 <? len); [by eapply quiet_pass|by injection Hs as <-].
Qed.

Lemma ref_accept s d oldsd newsd addr func s' : holds s d -> doAccept oldsd newsd addr func s = Def s' ->
  ref s (spec (HAccept oldsd newsd addr func) d) s'.
Proof.
  intros H Hs. unfold doAccept in Hs. apply bind_def in Hs as (s1 & H1 & Hs). cbn [spec].
  assert (ref s (spec_known oldsd d) s1) as R1.
  { rewrite (sock_open _ _ H) in H1. unfold spec_known. destruct (decide (oldsd ∈ socks d)); [|by apply ref_new_sock].
    injection H1 as <-. by apply ref_refl. }
  apply (ref_then _ _ _ _ _ R1). intros Hh. cbn zeta in Hs.
  assert (ref s1 (if in_table oldsd NET_ENTRIES then spec_dup_sock newsd (spec_known oldsd d).1 else ((spec_known oldsd d).1, []))
            (doDupSock oldsd newsd s1).2) as R2.
  { destruct (in_table oldsd NET_ENTRIES) eqn:Ht; [by apply ref_dup_sock|].
    unfold doDupSock. rewrite !(check_net _ _ Hh), Ht, orb_true_r. by apply ref_refl. }
  set (s2 := (doDupSock oldsd newsd s1).2) in *. clearbody s2. eapply ref_quiet; [exact R2|].
  destruct (getNetEntry s2 newsd); [|by injection Hs as <-]. apply bind_def in Hs as (s3 & H3 & Hs). apply Def_inj in Hs as <-.
  transitivity s3; [|etrans; by apply quiet_update].
  destruct addr as [[a len]|]; [by eapply quiet_connection|by injection H3 as <-].
Qed.

Lemma quiet_duration start s : quiet s (getDuration start s).2.
Proof. unfold getDuration. destruct (_ =? 0); [reflexivity|apply quiet_time]. Qed.

Lemma ref_count_file s d type fd t bytes func : holds s d -> in_table fd FS_ENTRIES = true -> 0 <= bytes ->
  type = FS_READ \/ type = FS_WRITE -> ref s (d, [(type, bytes)]) (count_file type fd t bytes func s).
Proof.
  intros H Ht Hb Hty. unfold count_file. pose proof (quiet_duration t s) as Q. destruct (getDuration t s) as [dur s1]. cbn [snd] in Q.
  assert (quiet s (doUpdateState FS_DURATION fd (i64 dur) func None s1)) as Q2 by (etrans; [exact Q|by apply quiet_update]).
  eapply ref_after; [exact Q2|]. set (s2 := doUpdateState FS_DURATION _ _ _ _ s1) in *. clearbody s2.
  assert (holds s2 d) as H2 by (eapply holds_shape; [done|apply Q2]).
  pose proof (ref_update s2 d type fd bytes func None H2 (fun _ => Hb)) as R.
  assert (spec_counts d type fd = true) as Hc by (by destruct Hty as [->| ->]). by rewrite Hc in R.
Qed.
Lemma ref_file s d type fd t bytes func : holds s d -> fd ∈ files d -> 0 <= bytes -> type = FS_READ \/ type = FS_WRITE ->
  ref s (spec_file type fd bytes d) (if counted_file fd s then count_file type fd t bytes func s else s).
Proof.
  intros H Hf Hb Hty. unfold spec_file.
  assert (counted_file fd s = (2 <? fd) || negb (bool_decide (fd ∈ consoles d))) as ->.
  { unfold counted_file. do 2 f_equal. apply eq_true_iff_eq. rewrite bool_decide_eq_true, (h_consoles _ _ H). unfold std_name. naive_solver. }
  destruct (_ || _); [|by apply ref_refl]. apply ref_count_file; [done|by eapply file_table|done|done].
Qed.
Lemma quiet_warn enf text fd s : quiet s (warn enf text fd s).
Proof.
  unfold warn. cbn zeta. destruct (enf _); [|reflexivity]. pose proof (quiet_calloc s) as Q.
  destruct (calloc s) as [[] s1]; [|done]. etrans; [exact Q|apply quiet_file].
Qed.
Lemma quiet_rw_error fd bytes fs net func s : quiet s (rw_error fd bytes fs net func s).
Proof. unfold rw_error. destruct fs, net; try (by apply quiet_update); reflexivity. Qed.
Lemma quiet_log fd b n s : quiet s (send_log fd b n s).
Proof. apply quiet_step; [by apply d_quiet|by apply shape_tables]. Qed.

(** The common frame of a read and a write: [g] is what is done to a file. *)
Lemma ref_rw s d type fd t bytes func enf text (success : bool) (traffic : desc -> desc * list op) (io : st -> ub st) (log : st -> st) s' :
  holds s d -> type = FS_READ \/ type = FS_WRITE -> (success = true -> 0 <= bytes) ->
  (forall s1 d1 s2, holds s1 d1 -> success = true -> io s1 = Def s2 -> ref s1 (traffic d1) s2) -> (forall s, quiet s (log s)) ->
  (let '(fs, s) := getFSEntry fd s in
   let net := getNetEntry s fd in
   if success then
     match net, fs with
     | Some _, _ => s ← doSetAddrs fd s; io s
     | None, Some _ =>
         let s := warn enf text fd s in
         Def (log (if counted_file fd s then count_file type fd t bytes func s else s))
     | None, None => Def s
     end
   else Def (rw_error fd bytes fs net func s)) = Def s' ->
  ref s (spec_rw type fd bytes success traffic d) s'.
Proof.
  intros H Hty Hb Hio Hlog. unfold spec_rw. pose proof (ref_entry s d fd H) as RE. destruct (spec_entry fd d) as [[found d1] l].
  destruct (getFSEntry fd s) as [o s1]. cbn [fst snd] in RE. destruct RE as (R & -> & Hf & _). cbn zeta.
  rewrite (sock_open s1 d1) by apply R. intros Hs. apply (ref_then _ (d1, l) _ _ _ R). cbn [fst]. intros H1.
  destruct success; cbn [negb].
  - destruct (decide (fd ∈ socks d1)).
    + apply bind_def in Hs as (s2 & H2 & Hs). apply quiet_addrs in H2. eapply ref_after; [exact H2|].
      apply Hio; [|done|done]. eapply holds_shape; [done|apply H2].
    + destruct found; [|injection Hs as <-; by apply ref_refl]. apply Def_inj in Hs as <-.
      eapply ref_after; [apply (quiet_warn enf text fd)|]. eapply ref_quiet; [|apply Hlog].
      apply ref_file; [|by apply Hf|by apply Hb|done]. eapply holds_shape; [done|apply quiet_warn].
  - apply Def_inj in Hs as <-. apply ref_idle; [done|apply quiet_rw_error].
Qed.

Lemma ref_read s d fd t success buf bytes func cnt s' : holds s d -> (success = true -> 0 <= bytes) ->
  doRead fd t success buf bytes func cnt s = Def s' -> ref s (spec (HRead fd t success buf bytes func cnt) d) s'.
Proof.
  intros H Hb Hs. cbn [spec]. eapply (ref_rw _ _ FS_READ fd t bytes func f_enforceRD _ _ _ _ (fun s => s)); [done|auto|done| |reflexivity|exact Hs].
  intros s1 d1 s2 H1 Hok Hr. eapply ref_recv; [done|by apply Hb|exact Hr].
Qed.
Lemma ref_write s d fd t success buf bytes func cnt s' : holds s d -> (success = true -> 0 <= bytes) ->
  doWrite fd t success buf bytes func cnt s = Def s' -> ref s (spec (HWrite fd t success buf bytes func cnt) d) s'.
Proof.
  intros H Hb Hs. cbn [spec].
  eapply (ref_rw _ _ FS_WRITE fd t bytes func f_enforceWR _ _ _ _ (fun s => match buf with
    | Some b => match view b with
                | HttpState.IOV iov =>
                    foldl (fun s v => send_log fd (Some v) (Z.of_nat (length v)) s) s (vectors (take (Z.to_nat cnt) iov))
                | _ => send_log fd (Some (raw b)) (u64 bytes) s
                end
    | None => send_log fd None (u64 bytes) s
    end)); [done|auto|done| | |exact Hs].
  - intros s1 d1 s2 H1 Hok Hr. eapply ref_send; [done|by apply Hb|exact Hr].
  - intros x. destruct buf as [b|]; [|apply quiet_log]. destruct (view b); try apply quiet_log.
    generalize (vectors (take (Z.to_nat cnt) iov)). intros vs. revert x. induction vs as [|v vs IH]; intros x; [reflexivity|].
    cbn [foldl]. etrans; [|apply IH]. apply quiet_log.
Qed.

Lemma ref_sendfile s d out_fd in_fd t rc func s' : holds s d -> (rc <> -1 -> 0 <= rc) ->
  doSendFile out_fd in_fd t rc func s = Def s' -> ref s (spec (HSendFile out_fd in_fd t rc func) d) s'.
Proof.
  intros H Hb. unfold doSendFile. cbn [spec]. pose proof (ref_entry s d in_fd H) as RE. destruct (spec_entry in_fd d) as [[found d1] l].
  destruct (getFSEntry in_fd s) as [o s1]. cbn [fst snd] in RE. destruct RE as (R & -> & Hf & _). cbn zeta.
  rewrite (sock_open s1 d1) by apply R. intros Hs. apply (ref_then _ (d1, l) _ _ _ R). cbn [fst]. intros H1.
  destruct (Z.eqb_spec rc (-1)) as [->|Hrc]; cbn [negb] in Hs.
  - apply Def_inj in Hs as <-. apply ref_idle; [done|].
    transitivity (match (if found then Some (fs_at s1 in_fd) else None) with
                  | Some _ => doUpdateState FS_ERR_READ_WRITE in_fd 0 func (Some (f_path (fs_at s1 in_fd))) s1
                  | None => s1 end); [destruct found; [by apply quiet_update|reflexivity]|].
    destruct (decide (out_fd ∈ socks d1)); [by apply quiet_update|reflexivity].
  - apply bind_def in Hs as (s2 & H2 & Hs). apply Def_inj in Hs as <-.
    set (x := if decide (out_fd ∈ socks d1) then _ else _).
    assert (ref s1 x s2 /\ (in_fd ∈ files d1 -> in_fd ∈ files x.1)) as [R2 Hk].
    { subst x. destruct (decide (out_fd ∈ socks d1)) as [Ho|Ho]; [|injection H2 as <-; split; [by apply ref_refl|done]].
      apply bind_def in H2 as (s3 & H3 & H2). apply quiet_addrs in H3. apply bind_def in H2 as (s4 & H4 & H2).
      apply Def_inj in H2 as <-. split.
      - eapply ref_after; [exact H3|]. eapply ref_quiet.
        + eapply ref_send; [|by apply Hb|exact H4]. eapply holds_shape; [done|apply H3].
        + destruct found; [|reflexivity]. unfold doExfil. cbn zeta. destruct (_ || _ || _); [reflexivity|apply quiet_file].
      - unfold spec_traffic, spec_known. rewrite (sock_table _ _ H1 _ Ho), decide_True by done. done. }
    apply (ref_then _ _ _ _ _ R2). intros Hx. destruct found; [|by apply ref_refl].
    apply ref_count_file; [done| |by apply Hb|auto]. eapply file_table; [exact H1|by apply Hf].
Qed.

Lemma quiet_security sec s : quiet s (post_security sec s).
Proof.
  unfold post_security. pose proof (quiet_calloc s) as Q. destruct (calloc s) as [[] s1]; [|done].
  etrans; [exact Q|by apply quiet_plain].
Qed.
Lemma quiet_block addr s : quiet s (doBlockConnection addr s).2.
Proof.
  assert (forall rip port n why s, quiet s (refuse rip port n why s).2) as Hr.
  { intros. unfold refuse, netSecurity. cbn zeta. cbn [snd]. etrans; [|apply quiet_notify]. apply quiet_security. }
  unfold doBlockConnection. destruct addr as [a|]; [|reflexivity].
  destruct (if addrIsNetDomain a then (net_port a, default "" (inet_ntop (ss_family a) a)) else (0, "")) as [port rip]. cbn zeta.
  repeat (match goal with |- context [if ?b then _ else _] => destruct b end); try apply Hr; reflexivity.
Qed.

(** The sizes that are counted are not negative. *)
Definition sized (h : handler) : Prop :=
  match h with
  | HUpdate type _ size _ _ => counting type = true -> 0 <= size
  | HRecv _ rc _ _ | HSend _ rc _ _ => 0 <= rc
  | HRead _ _ success _ bytes _ _ | HWrite _ _ success _ bytes _ _ => success = true -> 0 <= bytes
  | HSendFile _ _ _ rc _ => rc <> -1 -> 0 <= rc
  | _ => True
  end.

Lemma ref_seek s d fd (success : bool) func : holds s d ->
  ref s (spec_on_file fd (if success then [(FS_SEEK, 0)] else []) d) (doSeek fd success func s).
Proof.
  intros H. unfold doSeek.
  apply (ref_on_file s d fd (if success then [(FS_SEEK, 0)] else [])
    (fun (fs : fs_info) s => if success then doUpdateState FS_SEEK fd 0 func None s
                 else doUpdateState FS_ERR_READ_WRITE fd 0 func (Some (f_path fs)) s)); [done|].
  intros fs s' d' H' Hf. destruct success.
  - apply ref_count; [done|by eapply file_table|auto].
  - apply ref_idle; [done|by apply quiet_update].
Qed.
Lemma ref_report_file s d fd type func : holds s d -> counting type = false ->
  ref s (spec_on_file fd [] d)
    (let '(fs, s) := getFSEntry fd s in
     match fs with Some fs => doUpdateState type fd 0 func (Some (f_path fs)) s | None => s end).
Proof.
  intros H Ht. apply (ref_on_file s d fd [] (fun (fs : fs_info) s => doUpdateState type fd 0 func (Some (f_path fs)) s)); [done|].
  intros. apply ref_idle; [done|by apply quiet_update].
Qed.
Lemma ref_content s d fd type : holds s d -> ref s (spec_on_file fd [] d) (setFSContentType fd type s).
Proof.
  intros H. apply (ref_on_file s d fd [] (fun _ => on_fs fd (fun f => setf_content_type f type))); [done|].
  intros. apply ref_idle; [done|by apply quiet_fs].
Qed.

Lemma handlers_refine h s d s' : holds s d -> sized h -> handle h s = Def s' -> ref s (spec h d) s'.
Proof.
  intros H Hz Hs. destruct h; cbn [handle] in Hs;
    lazymatch type of Hs with Def _ = _ => apply Def_inj in Hs as <- | _ => idtac end.
  - by apply ref_update.
  - cbn [spec]. destruct (Z.eqb_spec fd (-1)) as [->|]; [|by apply ref_open].
    apply ref_idle; [done|]. by apply quiet_update.
  - by apply ref_close.
  - cbn [spec]. unfold doCloseAndReportFailures. destruct success; [by apply ref_close|by apply ref_report_file].
  - by apply ref_close_all.
  - by apply ref_seek.
  - apply ref_idle; [done|]. unfold doStatPath. by destruct (negb _); apply quiet_update.
  - apply ref_report_file; [done|by destruct (negb _)].
  - apply ref_idle; [done|]. by apply quiet_update.
  - by apply ref_content.
  - by apply ref_sock.
  - by apply ref_new_sock.
  - apply ref_idle; [done|]. by eapply quiet_connection.
  - apply ref_idle; [done|]. by apply quiet_addrs in Hs.
  - apply ref_idle; [done|]. unfold setRemoteClose. destruct (_ && _); [by apply quiet_net|reflexivity].
  - by apply ref_dup.
  - by apply ref_dup2.
  - by eapply ref_recv.
  - by eapply ref_send.
  - by apply ref_accept.
  - by apply ref_read.
  - by apply ref_write.
  - by apply ref_sendfile.
  - apply ref_idle; [done|]. apply bind_def in Hs as ([b s1] & H1 & Hs). apply Def_inj in Hs as <-. by eapply quiet_doProtocol.
  - apply ref_idle; [done|apply quiet_block].
Qed.

(** C3: every interposed call leaves the tables with the files and sockets open
    that its specification says, and counts - in order, as one step each of the
    data path - exactly the operations that the specification lists: a file that
    is opened over another closes it, the standard streams are opened on their
    first use, a duplicate is of the kind of its original, data of the console is
    not counted. *)
Theorem calls_refine_descriptors h s d s' : holds s d -> sized h -> handle h s = Def s' ->
  holds s' (spec h d).1 /\ path s (spec h d).2 s'.
Proof. intros H Hz Hs. by destruct (handlers_refine h s d s' H Hz Hs). Qed.

End Handlers.
End Descriptors.
