(* ===== verification/Session.v ===== *)
(** * Sessions: the data path and the reporting thread together

    A session is a sequence of calls of interposed functions and of rounds of
    the reporting thread ([doEvent] of src/report.c, [reportPeriodicStuff] of
    src/wrap.c), started with the tables that [initState] allocates and the
    summaries that [setVerbosity] sets.  Whatever the order, every operation and
    every byte is reported once or waits to be reported, as long as the queue of
    events refused none; a round that takes all events leaves nothing waiting. *)

From S2P Require Import Prelude Types HttpState CfgParse StateData State Report Account AccountRun Traffic Descriptors.

Module Session.
Import StateData State Report Account AccountRun Traffic Descriptors.

#[local] Open Scope Z_scope.

Inductive action :=
  | AHandle (h : handler)
  | AEvents (ready all : bool)
  | APeriod (attached ready : bool) (interval : Z) (perc : Z -> Z -> Types.double) (u : usage) (all : bool).

Section Session.
Context `{E : Env} `{P : Proc} `{D : Detect}.

Definition exec (a : action) (r : rs) : ub rs :=
  match a with
  | AHandle h => s ← handle h (data r); Def (set_data r s)
  | AEvents ready all => '(_, r) ← doEvent ready all r; Def r
  | APeriod attached ready interval perc u all => reportPeriodicStuff attached ready interval perc u all r
  end.
Fixpoint exec_all (l : list action) (r : rs) : ub rs :=
  match l with [] => Def r | a :: l => r ← exec a r; exec_all l r end.

(** The standard streams are looked up, and so opened, by a periodic report. *)
Definition spec_lookup (fd : Z) (d : desc) : desc * list op := let '(_, d', l) := spec_entry fd d in (d', l).
Definition standard (d : desc) : desc * list op :=
  then_spec (then_spec (spec_lookup 0 d) (spec_lookup 1)) (spec_lookup 2).
Definition spec_action (a : action) (d : desc) : desc * list op :=
  match a with
  | AHandle h => spec h d
  | AEvents _ _ => (d, [])
  | APeriod attached _ _ _ _ _ => if attached then standard d else (d, [])
  end.
Definition spec_all (l : list action) (d : desc) : desc * list op :=
  foldl (fun x a => then_spec x (spec_action a)) (d, []) l.

(** After initState and setVerbosity. *)
Definition start (verbosity : Z) : rs :=
  mkRs (setVerbosity verbosity (set_g_fsinfo (set_g_netinfo st0 (Some (fun _ => zero_net))) (Some (fun _ => zero_fs))))
    [] [] [] 0 0.
Definition none_open : desc := mkDesc ∅ ∅ ∅ ∅.

Definition fit (a : action) : Prop := match a with AHandle h => sized h | _ => True end.

(** ** What a report leaves alone *)

Record still (r r' : rs) : Prop := mkStill {
  still_fs : g_fsinfo (data r') = g_fsinfo (data r);
  still_net : g_netinfo (data r') = g_netinfo (data r);
  still_events : events (data r') = events (data r);
  still_dropped : dropped (data r') = dropped (data r);
  still_summary : g_summary (data r') = g_summary (data r);
  still_waiting : forall m, In m (captured (data r')) -> In m (captured (data r));
}.
#[export] Instance still_refl : Reflexive still.
Proof. by constructor. Qed.
#[export] Instance still_trans : Transitive still.
Proof. intros r1 r2 r3 [] []. constructor; try congruence; auto. Qed.

Lemma rsame_still q r r' : rsame q r r' -> still r r'.
Proof. intros [[] ?????]. by constructor. Qed.

(** Every report is of another quantity than some quantity. *)
Lemma another type : exists q, type <> q_type q.
Proof. destruct (decide (type = NETRX)) as [->|]; [by exists QTx|by exists QRx]. Qed.
Lemma another_event p : exists q, idle q p.
Proof.
  destruct p as [n|f| | | | | |]; try (by exists QRx).
  - destruct (another (n_data_type n)) as [q ?]. by exists q.
  - destruct (another (f_data_type f)) as [q ?]. by exists q.
Qed.
Lemma another_total type : exists q, type <> total_type q.
Proof. destruct (decide (type = TOT_RX)) as [->|]; [by exists QTx|by exists QRx]. Qed.

Lemma still_event p r r' : report_event p r = Def r' -> still r r'.
Proof. intros H. destruct (another_event p) as [q Hq]. by eapply rsame_still, idle_event. Qed.
Lemma still_total type r : still r (doTotal type r).
Proof. destruct (another_total type) as [q Hq]. by apply (rsame_still q), frame_other_total. Qed.
Lemma still_net_metric type net source r net' r' : doNetMetric type net source r = Def (net', r') -> still r r'.
Proof. intros H. destruct (another type) as [q Hq]. destruct (frame_net q _ _ _ _ _ _ Hq H) as [Hr _]. by eapply rsame_still. Qed.
Lemma still_fs_metric type fs source o p r fs' r' : doFSMetric type fs source o p r = Def (fs', r') -> still r r'.
Proof. intros H. destruct (another type) as [q Hq]. destruct (frame_fs q _ _ _ _ _ _ _ _ Hq H) as [Hr _]. by eapply rsame_still. Qed.

Lemma still_shape r r' : still r r' -> shape (data r) (data r').
Proof. intros []. by apply shape_tables. Qed.

(** ** The reporting thread runs *)

Definition rref (r : rs) (x : desc * list op) (r' : rs) : Prop := run r x.2 r' /\ holds (data r') x.1.

Lemma rref_trans r d1 l1 r1 d2 l2 r2 : rref r (d1, l1) r1 -> rref r1 (d2, l2) r2 -> rref r (d2, l1 ++ l2) r2.
Proof. intros [P1 _] [P2 H2]. split; [by eapply run_trans|done]. Qed.
Lemma rref_then r x f r1 r2 : rref r x r1 -> (holds (data r1) x.1 -> rref r1 (f x.1) r2) -> rref r (then_spec x f) r2.
Proof.
  intros [P1 H1] H. destruct (H H1) as [P2 H2]. unfold then_spec. destruct x as [d l], (f (d, l).1) as [d' l'] eqn:Hf.
  simpl in Hf. rewrite Hf. split; [by eapply run_trans|done].
Qed.
Lemma rref_step r d r' : holds (data r) d -> step r [] r' -> shape (data r) (data r') -> rref r (d, []) r'.
Proof. intros H Hs Hk. split; [by apply run_one|by eapply holds_shape]. Qed.
Lemma rref_refl r d : holds (data r) d -> rref r (d, []) r.
Proof. split; [constructor|done]. Qed.

Lemma path_run s l s' r : data r = s -> path s l s' -> run r l (set_data r s').
Proof.
  intros <- H. remember (data r) as s eqn:Hs. revert r Hs. induction H as [s|s1 l1 s2 l2 s3 H1 H2 IH]; intros r ->.
  - destruct r. constructor.
  - eapply run_step; [by apply s_data|]. by apply (IH (set_data r s2)).
Qed.
Lemma ref_rref r x s' : ref (data r) x s' -> rref r x (set_data r s').
Proof. intros [Hp Hh]. split; [by eapply path_run|done]. Qed.
Lemma quiet_rref r d s' : holds (data r) d -> quiet (data r) s' -> rref r (d, []) (set_data r s').
Proof. intros H [Hp Hk]. split; [by eapply path_run|by eapply holds_shape]. Qed.

Lemma loop_run fuel count all r b r' d : (length (events (data r)) < fuel)%nat -> holds (data r) d ->
  event_loop fuel count all r = Def (b, r') ->
  rref r (d, []) r' /\ g_summary (data r') = g_summary (data r) /\ dropped (data r') = dropped (data r) /\
  (all = true -> events (data r') = []).
Proof.
  revert count r. induction fuel as [|fuel IH]; intros count r Hf H He; [lia|].
  cbn [event_loop] in He. destruct (events (data r)) as [|p rest] eqn:Hev.
  { injection He as <- <-. split_and!; [by apply rref_refl|done..]. }
  apply bind_def in He as (r1 & H1 & He). cbn zeta in He. pose proof (still_event _ _ _ H1) as S1.
  assert (step r [] r1) as T1 by (by eapply s_event).
  assert (shape (data r) (data r1)) as K1 by (destruct S1; by apply shape_tables).
  set (r2 := set_count r1 _) in He. assert (step r1 [] r2) as T2 by apply s_count.
  assert (rref r (d, []) r2) as R2.
  { apply (rref_trans _ d [] r1 d []); [by apply rref_step|]. apply rref_step; [by eapply holds_shape|done|by apply shape_tables]. }
  assert (data r2 = data r1) as Hd by done. clearbody r2. destruct S1 as [_ _ S3 S4 S5]. rewrite <- Hd in S3, S4, S5. simpl in S3, S4, S5.
  destruct (negb all && _) eqn:Hall.
  - injection He as <- <-. split_and!; [done..|]. intros ->. done.
  - apply IH in He as (R & M & Dr & V); [|by rewrite S3; simpl in Hf; lia|apply R2].
    split_and!; [by apply (rref_trans _ d [] r2 d [])|congruence|congruence|done].
Qed.

(** A report of an entry leaves it open. *)
Lemma net_metric_active type net source r net' r' : doNetMetric type net source r = Def (net', r') -> n_active net' = n_active net.
Proof.
  intros H. destruct type; cbn [doNetMetric] in H; try (by injection H as <- _);
    try (apply Def_inj in H; revert H; unfold report_connection, report_traffic; cbn zeta; repeat case_match; by intros [= <- _]).
  - unfold report_net_duration in H. cbn zeta in H. destruct (negb (evtSource CFG_SRC_NET)); [by injection H as <- _|].
    apply bind_def in H as (dur & _ & H). set (x := if negb (dur =? 0) then _ else _) in H.
    assert (n_active x.1 = n_active net) as Hx by (subst x; by destruct (negb _)). destruct x as [net1 r1]. simpl in Hx. rewrite <- Hx.
    destruct (net_quiet _ _); [by injection H as <- _|]. apply bind_def in H as (dur' & _ & H).
    destruct (dur' =? 0); by injection H as <- _.
  - destruct (negb _); [by injection H as <- _|]. apply bind_def in H as (r1 & _ & H). by injection H as <- _.
Qed.
Lemma fs_metric_open type fs source o p r fs' r' : doFSMetric type fs source o p r = Def (fs', r') ->
  f_active fs' = f_active fs /\ f_type fs' = f_type fs /\ f_path fs' = f_path fs.
Proof.
  assert (forall m num g sm ev fs source o r fs' r', report_fs_number m num g sm ev fs source o r = Def (fs', r') ->
    f_active fs' = f_active fs /\ f_type fs' = f_type fs /\ f_path fs' = f_path fs) as Hnum.
  { clear. intros m num g sm ev fs source o r fs' r' H. unfold report_fs_number in H. cbn zeta in H.
    apply bind_def in H as ([fs1 r1] & H1 & H).
    assert (f_active fs1 = f_active fs /\ f_type fs1 = f_type fs /\ f_path fs1 = f_path fs) as (<- & <- & <-).
    { destruct (negb _); [apply bind_def in H1 as (r0 & _ & H1)|]; by injection H1 as <- _. }
    clear H1. destruct (fs_quiet _ _); [by injection H as <- _|]. destruct (_ =? 0); by injection H as <- _. }
  intros H. destruct type; cbn [doFSMetric] in H; try (by injection H as <- _); try (by eapply Hnum);
    try (apply Def_inj in H; revert H; unfold report_fs_bytes; cbn zeta; repeat case_match; by intros [= <- _]).
  unfold report_fs_duration in H. cbn zeta in H. apply bind_def in H as (dur & _ & H).
  destruct (fs_quiet _ _); [by injection H as <- _|]. apply bind_def in H as (dur' & _ & H).
  destruct (dur' =? 0); by injection H as <- _.
Qed.

Lemma shape_put_net fd net s s1 : g_fsinfo s1 = g_fsinfo s -> g_netinfo s1 = g_netinfo s ->
  n_active net = n_active (net_at s fd) -> shape s (on_net fd (fun _ => net) s1).
Proof.
  intros Hf Hn Ha. transitivity s1; [by apply shape_tables|].
  assert (n_active net = n_active (net_at s1 fd)) as Ha1 by (unfold net_at in *; by rewrite Hn).
  constructor; intros; rewrite ?(on_net_rest g_fsinfo), ?(on_net_rest (fun s => fs_at s _)) by done; try done.
  - unfold on_net. destruct (g_netinfo s1) eqn:Hs1; simpl; rewrite ?Hs1; [by split; eauto|done].
  - rewrite net_at_on_net. destruct (decide _) as [[_ <-]|]; done.
Qed.
Lemma shape_put_fs fd fs s s1 : g_fsinfo s1 = g_fsinfo s -> g_netinfo s1 = g_netinfo s ->
  f_active fs = f_active (fs_at s fd) -> f_type fs = f_type (fs_at s fd) -> f_path fs = f_path (fs_at s fd) -> shape s (on_fs fd (fun _ => fs) s1).
Proof.
  intros Hf Hn Ha Ht Hp. transitivity s1; [by apply shape_tables|].
  assert (f_active fs = f_active (fs_at s1 fd) /\ f_type fs = f_type (fs_at s1 fd) /\ f_path fs = f_path (fs_at s1 fd)) as (Ha1 & Ht1 & Hp1) by (unfold fs_at in *; by rewrite Hf).
  constructor; intros; rewrite ?(on_fs_rest g_netinfo), ?(on_fs_rest (fun s => net_at s _)) by done; try done.
  - unfold on_fs. destruct (g_fsinfo s1) eqn:Hs1; simpl; rewrite ?Hs1; [by split; eauto|done].
  - rewrite fs_at_on_fs. destruct (decide _) as [[_ <-]|]; done.
  - rewrite fs_at_on_fs. destruct (decide _) as [[_ <-]|]; done.
  - rewrite fs_at_on_fs. destruct (decide _) as [[_ <-]|]; done.
Qed.

Lemma foldl_same {A B} (f g : A -> B -> A) l a : (forall a b, f a b = g a b) -> foldl f a l = foldl g a l.
Proof. intros H. revert a. induction l as [|b l IH]; intros a; simpl; [done|]. by rewrite H. Qed.

(** A report that changes neither the tables nor what is counted. *)
Definition calm (d : desc) (r r' : rs) : Prop :=
  holds (data r) d -> rref r (d, []) r' /\ g_summary (data r') = g_summary (data r).
#[export] Instance calm_refl d : Reflexive (calm d).
Proof. intros r H. split; [by apply rref_refl|done]. Qed.
#[export] Instance calm_trans d : Transitive (calm d).
Proof.
  intros r1 r2 r3 H1 H2 H. destruct (H1 H) as [R1 M1]. destruct H2 as [R2 M2]; [apply R1|].
  split; [by apply (rref_trans _ d [] r2 d [])|congruence].
Qed.

Lemma net_entry_calm fd types r d r' : Forall (periodic_net (g_summary (data r))) types -> holds (data r) d ->
  report_net_entry fd types PERIODIC r = Def r' -> calm d r r'.
Proof.
  intros Ht H Hr. revert Hr. unfold report_net_entry.
  apply (foldl_ub (fun type r => '(net, r) ← doNetMetric type (net_at (data r) fd) PERIODIC r;
                                 Def (on_data (on_net fd (fun _ => net)) r)) types r r' (calm d)
           (fun type r => holds (data r) d /\ periodic_net (g_summary (data r)) type)); [apply _..| | |].
  - intros type r1 r2 [H1 Hp] Q. destruct (Q H1) as [R ->]. split; [apply R|done].
  - intros type r1 r2 _ [_ Hp] Hm H1. apply bind_def in Hm as ([net r3] & Hm & Hf). apply Def_inj in Hf as <-.
    pose proof (still_net_metric _ _ _ _ _ _ Hm) as [S1 S2 _ _ S5]. pose proof (net_metric_active _ _ _ _ _ _ Hm) as Ha.
    split; [|simpl; by rewrite (on_net_rest g_summary)].
    apply rref_step; [done|by eapply s_net|]. by apply shape_put_net.
  - intros type Hty. split; [done|]. by eapply List.Forall_forall in Ht.
Qed.
Lemma fs_entry_calm fd types r d r' : Forall (fun x => periodic_fs (g_summary (data r)) x.1) types -> holds (data r) d ->
  report_fs_entry fd types PERIODIC r = Def r' -> calm d r r'.
Proof.
  intros Ht H Hr.
  assert (foldl (fun acc x => r ← acc;
            '(fs, r) ← doFSMetric x.1 (fs_at (data r) fd) PERIODIC (Some x.2) None r;
            Def (on_data (on_fs fd (fun _ => fs)) r)) (Def r) types = Def r') as Hr'.
  { rewrite <- Hr. unfold report_fs_entry. apply foldl_same. by intros ? []. }
  revert Hr'.
  apply (foldl_ub (fun x r => '(fs, r) ← doFSMetric x.1 (fs_at (data r) fd) PERIODIC (Some x.2) None r;
                              Def (on_data (on_fs fd (fun _ => fs)) r)) types r r' (calm d)
           (fun x r => holds (data r) d /\ periodic_fs (g_summary (data r)) x.1)); [apply _..| | |].
  - intros x r1 r2 [H1 Hp] Q. destruct (Q H1) as [R ->]. split; [apply R|done].
  - intros x r1 r2 _ [_ Hp] Hm H1. apply bind_def in Hm as ([fs r3] & Hm & Hf). apply Def_inj in Hf as <-.
    pose proof (still_fs_metric _ _ _ _ _ _ _ _ Hm) as [S1 S2 _ _ S5]. destruct (fs_metric_open _ _ _ _ _ _ _ _ Hm) as (? & ? & ?).
    split; [|simpl; by rewrite (on_fs_rest g_summary)].
    apply rref_step; [done|by eapply s_fs|]. by apply shape_put_fs.
  - intros x Hty. split; [done|]. by eapply List.Forall_forall in Ht.
Qed.

Lemma fd_run fd r d r' : holds (data r) d -> reportFD fd PERIODIC r = Def r' -> rref r (spec_lookup fd d) r'.
Proof.
  intros H Hr. unfold reportFD in Hr. cbn [bool_decide decide] in Hr. apply bind_def in Hr as (r1 & H1 & Hr).
  assert (rref r (d, []) r1) as R1.
  { destruct (getNetEntry (data r) fd); [|injection H1 as <-; by apply rref_refl].
    set (r0 := on_data _ r) in H1. assert (rref r (d, []) r0) as R0 by (apply quiet_rref; [done|by apply quiet_net]).
    clearbody r0. cbn zeta in H1. apply bind_def in H1 as (r2 & H2 & H1).
    assert (rref r0 (d, []) r2) as R2.
    { destruct (negb _) eqn:Hn; [|injection H2 as <-; apply rref_refl, R0]. apply negb_true_iff in Hn.
      apply (net_entry_calm _ _ _ d) in H2; [apply H2, R0|by repeat constructor|apply R0]. }
    apply (rref_trans _ _ [] _ _ _ _ R0), (rref_trans _ _ [] _ _ _ _ R2).
    destruct (negb (net_open_close _)) eqn:Hn; [|injection H1 as <-; apply rref_refl, R2]. apply negb_true_iff in Hn.
    apply (net_entry_calm _ _ _ d) in H1; [apply H1, R2|by repeat constructor|apply R2]. }
  pose proof (ref_entry (data r1) d fd (proj2 R1)) as RE. unfold spec_lookup. destruct (spec_entry fd d) as [[found d'] l].
  destruct (getFSEntry fd (data r1)) as [o s2]. cbn [fst snd] in RE. destruct RE as (R2 & -> & _ & _).
  apply ref_rref in R2. set (r2 := set_data r1 s2) in *. clearbody r2. apply (rref_trans _ _ [] _ _ _ _ R1).
  destruct found; [|injection Hr as <-; done]. set (r3 := on_data _ r2) in Hr.
  assert (rref r2 (d', []) r3) as R3 by (apply quiet_rref; [apply R2|by apply quiet_fs]). clearbody r3. cbn zeta in Hr.
  rewrite <- (app_nil_r l). apply (rref_trans _ _ _ _ _ _ _ R2), (rref_trans _ _ [] _ _ _ _ R3).
  apply bind_def in Hr as (r4 & H4 & Hr).
  assert (rref r3 (d', []) r4) as R4.
  { destruct (negb (fs_read_write _)) eqn:Hn; [|injection H4 as <-; apply rref_refl, R3]. apply negb_true_iff in Hn.
    apply (fs_entry_calm _ _ _ d') in H4; [apply H4, R3|by repeat constructor|apply R3]. }
  apply (rref_trans _ _ [] _ _ _ _ R4).
  destruct (negb (fs_seek _)) eqn:Hn; [|injection Hr as <-; apply rref_refl, R4]. apply negb_true_iff in Hn.
  apply (fs_entry_calm _ _ _ d') in Hr; [apply Hr, R4|by repeat constructor|apply R4].
Qed.

Lemma lookups_run l r x r0 r' : rref r0 x r -> foldl (fun acc i => r ← acc; reportFD i PERIODIC r) (Def r) l = Def r' ->
  rref r0 (foldl (fun x i => then_spec x (spec_lookup i)) x l) r'.
Proof.
  revert r x. induction l as [|i l IH]; intros r x R H; [by injection H as <-|].
  cbn [foldl] in *. change (r ← Def r; reportFD i PERIODIC r) with (reportFD i PERIODIC r) in H.
  destruct (reportFD i PERIODIC r) as [r1|] eqn:H1.
  - eapply IH; [|done]. apply (rref_then _ _ _ _ _ R). intros Hh. by apply fd_run.
  - exfalso. clear -H. induction l; simpl in H; [discriminate|auto].
Qed.
Lemma no_lookup l x : Forall (fun i => 2 < i) l -> foldl (fun x i => then_spec x (spec_lookup i)) x l = x.
Proof.
  intros Hl. revert x. induction Hl as [|i l Hi _ IH]; intros x; [done|]. cbn [foldl].
  assert (then_spec x (spec_lookup i) = x) as ->; [|done]. destruct x as [d ops]. unfold then_spec, spec_lookup, spec_entry.
  case_decide; [by rewrite app_nil_r|]. rewrite (proj2 (Z.leb_gt i 2)) by lia. rewrite andb_false_r. by rewrite app_nil_r.
Qed.

Lemma all_fds_run r d r' : holds (data r) d -> reportAllFds PERIODIC r = Def r' -> rref r (standard d) r'.
Proof.
  intros H Hr. apply (lookups_run _ _ (d, []) r) in Hr; [|by apply rref_refl].
  change (Z.max NET_ENTRIES FS_ENTRIES) with (3 + 1021) in Hr. rewrite seqZ_app in Hr by lia. rewrite foldl_app, no_lookup in Hr.
  - change (seqZ 0 3) with [0; 1; 2] in Hr. cbn [foldl] in Hr. unfold standard. unfold then_spec at 3 in Hr. by destruct (spec_lookup 0 d).
  - apply List.Forall_forall. intros i [? ?]%list_elem_of_In%elem_of_seqZ. lia.
Qed.

(** ** A period *)

Lemma fold_run (f : metric_t -> rs -> rs) types r : (forall t r, step r [] (f t r)) -> (forall t r, still r (f t r)) ->
  run r [] (foldl (fun r t => f t r) r types) /\ still r (foldl (fun r t => f t r) r types).
Proof.
  intros Hs Hk. revert r. induction types as [|t types IH]; intros r; cbn [foldl]; [split; [constructor|reflexivity]|].
  destruct (IH (f t r)) as [R K]. split; [by apply (run_step _ [] (f t r) [])|]. etrans; [apply Hk|done].
Qed.

Definition proc_part (interval : Z) (perc : Z -> Z -> Types.double) (u : usage) (r : rs) : rs :=
  if mtcWatch CFG_MTC_PROC
  then foldl (fun r t => doProcMetric interval perc u t r) r [PROC_CPU; PROC_MEM; PROC_THREAD; PROC_FD; PROC_CHILD] else r.
Definition total_part (l : list metric_t) (r : rs) : rs := foldl (fun r t => doTotal t r) r l.
Definition last_part (r : rs) : rs :=
  foldl (fun r t => doErrorMetric t PERIODIC None None None r)
    (foldl (fun r t => doTotalDuration t r) r total_durations) error_types.

Lemma period_parts ready interval perc u all r r' : reportPeriodicStuff true ready interval perc u all r = Def r' ->
  exists b r1, doEvent ready all r = Def (b, r1) /\
    reportAllFds PERIODIC (last_part (total_part totals (proc_part interval perc u r1))) = Def r'.
Proof. intros H. unfold reportPeriodicStuff in H. apply bind_def in H as ([b r1] & H1 & H). eauto. Qed.

Lemma proc_part_run i pc u r : run r [] (proc_part i pc u r) /\ still r (proc_part i pc u r).
Proof.
  unfold proc_part. destruct (mtcWatch _); [|split; [constructor|reflexivity]].
  apply (fold_run (doProcMetric i pc u)); [intros; apply s_proc|]. intros. apply (rsame_still QRx), rsame_proc.
Qed.
Lemma total_part_run l r : run r [] (total_part l r) /\ still r (total_part l r).
Proof. apply fold_run; [intros; apply s_total|]. intros. apply still_total. Qed.
Lemma last_part_run r : run r [] (last_part r) /\ still r (last_part r).
Proof.
  unfold last_part. destruct (fold_run doTotalDuration total_durations r) as [R1 K1].
  { intros. apply s_total_duration. }
  { intros. apply (rsame_still QRx), rsame_total_duration. }
  destruct (fold_run (fun t => doErrorMetric t PERIODIC None None None) error_types
              (foldl (fun r t => doTotalDuration t r) r total_durations)) as [R2 K2].
  { intros. apply s_error. }
  { intros. apply (rsame_still QRx), rsame_error. }
  split; [exact (run_trans _ [] _ [] _ R1 R2)|by etrans].
Qed.

Lemma still_rref r d r' : run r [] r' -> still r r' -> holds (data r) d -> rref r (d, []) r'.
Proof. intros R K H. split; [done|]. eapply holds_shape; [done|by apply still_shape]. Qed.

(** From some point of the reports on. *)
Lemma tail_run l r d r' : holds (data r) d -> reportAllFds PERIODIC (last_part (total_part l r)) = Def r' ->
  rref r (standard d) r'.
Proof.
  intros H Hr. destruct (total_part_run l r) as [T K]. destruct (last_part_run (total_part l r)) as [T' K'].
  assert (rref r (d, []) (last_part (total_part l r))) as R.
  { apply still_rref; [exact (run_trans _ [] _ [] _ T T')|by etrans|done]. }
  apply all_fds_run with (d := d) in Hr; [|apply R]. destruct (standard d). apply (rref_trans _ _ [] _ _ _ _ R Hr).
Qed.
Lemma event_run ready all r d b r' : holds (data r) d -> doEvent ready all r = Def (b, r') ->
  rref r (d, []) r' /\ g_summary (data r') = g_summary (data r) /\ dropped (data r') = dropped (data r) /\
  (ready = true -> all = true -> events (data r') = []).
Proof.
  intros H Hr. unfold doEvent in Hr. destruct ready; cbn [negb] in Hr; [|injection Hr as _ <-; by split_and!; [apply rref_refl|..]]. apply bind_def in Hr as ([b1 r1] & H1 & Hr). apply bind_def in Hr as (r2 & H2 & Hr).
  injection Hr as <- <-. apply (loop_run _ _ _ _ _ _ d) in H1 as (R & M & Dr & V); [|lia|done].
  pose proof (rsame_still _ _ _ (rsame_captured QRx _ _ H2)) as K.
  split_and!; [|by rewrite (still_summary _ _ K)|by rewrite (still_dropped _ _ K)|by rewrite (still_events _ _ K); auto].
  apply (rref_trans _ _ [] _ _ _ _ R). apply rref_step; [apply R|by apply s_captured|by apply still_shape].
Qed.

Lemma exec_run a r d r' : holds (data r) d -> fit a -> exec a r = Def r' -> rref r (spec_action a d) r'.
Proof.
  intros H Hf Hr. destruct a as [h|ready all|attached ready interval perc u all]; cbn [exec spec_action fit] in *.
  - apply bind_def in Hr as (s & Hs & Hr). apply Def_inj in Hr as <-. by apply ref_rref, handlers_refine.
  - apply bind_def in Hr as ([b r1] & Hs & Hr). apply Def_inj in Hr as <-. by eapply event_run.
  - destruct attached; [|apply Def_inj in Hr as <-; by apply rref_refl].
    apply period_parts in Hr as (b & r1 & H1 & Hr). apply (event_run _ _ _ d) in H1 as [R1 _]; [|done].
    destruct (proc_part_run interval perc u r1) as [T K].
    apply (tail_run _ _ d) in Hr; [|by eapply still_rref; [..|apply R1]]. destruct (standard d).
    apply (rref_trans _ _ [] _ _ _ _ R1), (rref_trans _ d [] _ _ _ _ (still_rref _ _ _ T K (proj2 R1)) Hr).
Qed.

Lemma exec_all_run l r d r' : holds (data r) d -> Forall fit l -> exec_all l r = Def r' -> rref r (spec_all l d) r'.
Proof.
  intros H Hl Hr. unfold spec_all. assert (rref r (d, []) r) as R by (by apply rref_refl). revert R.
  generalize (d, @nil op) as x. generalize r at 1 3. intros r0 x R. clear H d. revert r x R Hr.
  induction Hl as [|a l Ha Hl IH]; intros r x R Hr; [by injection Hr as <-|].
  cbn [exec_all foldl] in *. apply bind_def in Hr as (r1 & H1 & Hr). eapply IH; [|done].
  apply (rref_then _ _ _ _ _ R). intros Hh. by apply exec_run.
Qed.

(** ** The start *)

Lemma start_holds v : holds (data (start v)) none_open.
Proof. constructor; try (by eexists); intros fd; simpl; set_solver. Qed.
Lemma start_inv v q : inv q (data (start v)).
Proof.
  constructor; try done; intros; try apply fine_zero; destruct q; try apply fine_zero; done.
Qed.
Lemma start_pending v q : pending q (data (start v)) = 0.
Proof. unfold pending. destruct (q_flag q _); [by destruct q|done]. Qed.

Lemma session_balanced q v l r : mtcEnabled = true -> mtcWatch (q_watch q) = true -> Forall fit l ->
  exec_all l (start v) = Def r -> observed q (spec_all l none_open).2 < 2 ^ 63 ->
  holds (data r) (spec_all l none_open).1 /\ balanced q (observed q (spec_all l none_open).2) (start v) r.
Proof.
  intros Hm Hw Hf Hr Hb. destruct (exec_all_run l (start v) none_open r) as [R H]; [apply start_holds|done|done|].
  split; [done|]. apply run_balanced; [done|done|done|apply start_inv|done|]. rewrite start_pending. unfold reported. simpl. lia.
Qed.

(** What waits to be reported: in the totals when the quantity is summarised, in
    the queue otherwise.  What the events carried that a full queue refused is not
    part of it. *)
Definition waiting (q : quantity) (s : st) : Z := if q_flag q (g_summary s) then tot q s else sumZ (map (carried q) (events s)).

Lemma waiting_pending q s : dropped s = [] -> pending q s = waiting q s.
Proof. intros Hd. unfold pending, waiting, que. rewrite Hd. simpl. destruct (q_flag _ _); lia. Qed.

(** C1: in every session that starts after initState and setVerbosity, at every
    level of detail, with metrics enabled and the quantity watched, in which all
    allocations succeed, the queue of events refused none and less than 2^63 was
    counted: what has been counted of a quantity - bytes read and written,
    operations on files, bytes received and sent - is what the metrics have
    reported of it plus what waits in the totals or in the queue; and what has
    been counted are the operations that the specification of the calls lists,
    on the descriptors that it says are open. *)
Theorem session_accounted q v l r : mtcEnabled = true -> mtcWatch (q_watch q) = true -> Forall fit l ->
  exec_all l (start v) = Def r -> observed q (spec_all l none_open).2 < 2 ^ 63 -> dropped (data r) = [] ->
  holds (data r) (spec_all l none_open).1 /\
  reported q r + waiting q (data r) = observed q (spec_all l none_open).2.
Proof.
  intros Hm Hw Hf Hr Hb Hd. destruct (session_balanced q v l r) as [H (_ & Hs & _)]; try done. split; [done|].
  rewrite start_pending in Hs. rewrite <- waiting_pending by done. exact Hs.
Qed.

(** A point of a period at which nothing is pending any more. *)
Lemma period_point q i pc u r d r' : mtcEnabled = true -> mtcWatch (q_watch q) = true -> holds (data r) d ->
  inv q (data r) -> 0 <= reported q r -> reported q r + pending q (data r) < 2 ^ 63 -> dropped (data r) = [] ->
  reportPeriodicStuff true true i pc u true r = Def r' ->
  exists r1, run r [] r1 /\ pending q (data r1) = 0 /\ rref r1 (standard d) r'.
Proof.
  intros Hm Hw H I Hp Hb Hd Hr. apply period_parts in Hr as (b & r1 & H1 & Hr).
  apply (event_run _ _ _ d) in H1 as (R1 & Ms & Md & Me); [|done]. specialize (Me eq_refl eq_refl).
  destruct (proc_part_run i pc u r1) as [T K]. set (r2 := proc_part i pc u r1) in *. clearbody r2.
  assert (run r [] r2) as T2 by (exact (run_trans _ [] _ [] _ (proj1 R1) T)).
  assert (holds (data r2) d) as H2 by (eapply holds_shape; [apply R1|apply still_shape, K]).
  assert (exists pre post, totals = pre ++ total_type q :: post) as (pre & post & Ht).
  { apply list_elem_of_split. destruct q; unfold totals; repeat (first [by apply list_elem_of_here|apply list_elem_of_further]). }
  rewrite Ht in Hr. unfold total_part in Hr. rewrite foldl_app in Hr. cbn [foldl] in Hr.
  change (foldl (fun r t => doTotal t r) r2 pre) with (total_part pre r2) in Hr.
  destruct (total_part_run pre r2) as [T3 K3]. set (r3 := total_part pre r2) in *. clearbody r3.
  assert (run r [] r3) as T4 by (exact (run_trans _ [] _ [] _ T2 T3)).
  assert (holds (data r3) d) as H3 by (eapply holds_shape; [exact H2|apply still_shape, K3]).
  destruct (run_balanced Hm q _ _ _ Hw T4 I Hp) as (I3 & S3 & M3 & F3); [change (observed q []) with 0; lia|].
  change (observed q []) with 0 in S3.
  destruct (own_total Hm q r3) as [Kt Z]; [done|done|lia|lia|].
  assert (run r [] (doTotal (total_type q) r3)) as T5 by (exact (run_trans _ [] _ [] _ T4 (run_one _ _ _ (s_total _ _)))).
  exists (doTotal (total_type q) r3). split; [done|]. split.
  - destruct (q_flag q (g_summary (data r3))) eqn:Hf; [by apply Z|].
    unfold pending. rewrite (still_summary _ _ (still_total _ _)), Hf. unfold que.
    rewrite (still_events _ _ (still_total _ _)), (still_dropped _ _ (still_total _ _)).
    rewrite (still_events _ _ K3), (still_dropped _ _ K3), (still_events _ _ K), (still_dropped _ _ K), Me, Md, Hd. done.
  - apply (tail_run post); [|done]. eapply holds_shape; [done|]. apply still_shape, still_total.
Qed.

Lemma standard_opens q d : q <> QOpen -> observed q (standard d).2 = 0.
Proof.
  intros Hq. assert (forall x fd, observed q (then_spec x (spec_lookup fd)).2 = observed q x.2) as Hl.
  { intros [d0 l] fd. unfold then_spec, spec_lookup, spec_entry. case_decide; cbn [snd]; [by rewrite app_nil_r|].
    destruct (_ && _); cbn [snd]; rewrite observed_app; [|cbn; lia].
    assert (observed q [(FS_OPEN, 0)] = 0) as -> by (by destruct q). lia. }
  unfold standard. rewrite !Hl. specialize (Hl (d, []) 0). unfold then_spec in Hl.
  by destruct (spec_lookup 0 d).
Qed.

(** The periodic report itself opens three streams at most. *)
Lemma standard_few q d : 0 <= observed q (standard d).2 <= 3.
Proof.
  assert (forall x fd, observed q x.2 <= observed q (then_spec x (spec_lookup fd)).2 <= observed q x.2 + 1) as Hl.
  { intros [d0 l] fd. unfold then_spec, spec_lookup, spec_entry. case_decide; cbn [snd]; [rewrite app_nil_r; lia|].
    destruct (_ && _); cbn [snd]; rewrite observed_app; [|change (observed q []) with 0; lia].
    assert (0 <= observed q [(FS_OPEN, 0)] <= 1) by (destruct q; vm_compute; split; discriminate). lia. }
  unfold standard. pose proof (Hl (d, @nil op) 0) as H0.
  assert (then_spec (d, @nil op) (spec_lookup 0) = spec_lookup 0 d) as Hs by (unfold then_spec; by destruct (spec_lookup 0 d)).
  rewrite Hs in H0. change (observed q (d, @nil op).2) with 0 in H0.
  pose proof (Hl (then_spec (spec_lookup 0 d) (spec_lookup 1)) 2). pose proof (Hl (spec_lookup 0 d) 1). unfold op in *. lia.
Qed.

(** C2: a periodic report of an attached process that is connected and takes all
    events, after a session as above, has reported everything that the session
    counted, of every quantity: at least that much has been reported, and what it
    adds to the count - the opens of the standard streams that it looks up for the
    first time, three at most - is the rest; for every other quantity than the
    opens exactly what the session counted has been reported and nothing is
    pending, neither waiting nor lost. *)
Theorem period_reports_everything q v l r i pc u r' : mtcEnabled = true -> mtcWatch (q_watch q) = true -> Forall fit l ->
  exec_all l (start v) = Def r -> observed q (spec_all l none_open).2 + 3 < 2 ^ 63 -> dropped (data r) = [] ->
  reportPeriodicStuff true true i pc u true r = Def r' ->
  let opens := observed q (standard (spec_all l none_open).1).2 in
  0 <= opens <= 3 /\ (q <> QOpen -> opens = 0) /\
  observed q (spec_all l none_open).2 <= reported q r' /\
  reported q r' + pending q (data r') = observed q (spec_all l none_open).2 + opens /\
  (q <> QOpen -> reported q r' = observed q (spec_all l none_open).2 /\ pending q (data r') = 0).
Proof.
  intros Hm Hw Hf Hr Hb Hd Hp. cbn zeta. destruct (session_balanced q v l r) as [H (I & Hs & Hmono & _)]; try done; [lia|].
  rewrite start_pending in Hs. change (reported q (start v)) with 0 in Hs, Hmono. pose proof (pending_nonneg q _ I).
  destruct (period_point q i pc u r (spec_all l none_open).1 r') as (r1 & T1 & Z1 & T2 & _); try done; [lia|].
  destruct (run_balanced Hm q _ _ _ Hw T1 I) as (I1 & S1 & M1 & _); [done|change (observed q []) with 0; lia|].
  change (observed q []) with 0 in S1. pose proof (standard_opens q (spec_all l none_open).1) as Ho.
  pose proof (standard_few q (spec_all l none_open).1) as H3.
  destruct (run_balanced Hm q _ _ _ Hw T2 I1) as (I2 & S2 & M2 & _); [lia|lia|].
  pose proof (pending_nonneg q _ I2). split; [done|]. split; [done|]. split; [lia|]. split; [lia|].
  intros Hq. rewrite (Ho Hq) in S2. lia.
Qed.

End Session.

(** ** A session *)

Module Demo.

(** Metrics are on, no event source is. *)
#[export] Instance env : Env :=
  mkEnv (fun _ => false) true (fun _ => true) false true 100 (fun n => 1000 * Z.of_nat n) 2500 true 0 false
    (fun _ => None) (mkStat 0 0 0) (fun _ => false) (fun _ => true) (fun _ => true) (fun _ => None) (fun _ => -1)
    (fun _ => None) (fun _ => None) (fun _ => None) (fun _ _ => None)
    (mkNotify false false false false [] [] [] [] []) 0 (fun _ => None).
#[export] Instance proc : Proc := mkProcId "cat" 42 "host" 0 0 None None None None.

(** One protocol is detected, by its first byte. *)
Definition http_def : protocol_def_t := CfgParse.mkProtocol (Some "HTTP") (Some "^G") false true false 0 1.
Definition tls_def : protocol_def_t := CfgParse.mkProtocol (Some "TLS") (Some "^16") true false false 1 2.
#[export] Instance detect : Detect :=
  mkDetect (fun _ => true)
    (fun d l => if bool_decide (CfgParse.protname d = Some "HTTP") && bool_decide (hd 0 l = 71) then 1 else -1)
    [] (Some tls_def) (Some http_def) (Some http_def) false false false true None None None
    None None None None None (fun _ => true) (fun _ _ => 0).

Definition idle_usage : usage := mkUsage 7 1 1 3 0.
Definition period : action := APeriod true true 10 (fun _ _ => Types.DFin false 0 0) idle_usage true.

Definition bytes (l : list Z) : option buffer := Some (mkBuffer (HttpState.BUF l) l).

(** A file is opened, read twice with a report in between, its position is set,
    it is duplicated and closed; a socket receives and sends, the console is read. *)
Definition cat : list action :=
  [AHandle (HOpen 3 "/etc/hosts" FD (Some "open")); AHandle (HRead 3 0 true None 100 (Some "read") 0);
   AEvents true true; AHandle (HRead 3 0 true None 28 (Some "read") 0); AHandle (HSeek 3 true (Some "lseek"));
   period; AHandle (HSock 4 SOCK_STREAM AF_INET); AHandle (HRecv 4 3 (bytes [71; 69; 84]) 3);
   AHandle (HRead 0 0 true None 9 (Some "read") 0); AHandle (HWrite 4 0 true (bytes [80; 75]) 2 (Some "write") 2);
   AHandle (HDup 3 5 (Some "dup") false); AHandle (HClose 3 (Some "close")); AHandle (HRead 5 0 true None 2 None 0)].

Definition is_def {A} (x : ub A) : bool := match x with Def _ => true | UB => false end.

(** What the theorems say of it, when nothing is counted twice or lost. *)
Definition accounted_for (q : quantity) (n v : Z) : Prop :=
  match exec_all cat (start v) with
  | Def r => holds (data r) (spec_all cat none_open).1 /\ reported q r + waiting q (data r) = n
  | UB => False
  end.
Definition all_reported (q : quantity) (n v : Z) : Prop :=
  match exec_all cat (start v) with
  | Def r =>
      match reportPeriodicStuff true true 10 (fun _ _ => Types.DFin false 0 0) idle_usage true r with
      | Def r' =>
          let opens := observed q (standard (spec_all cat none_open).1).2 in
          0 <= opens <= 3 /\ (q <> QOpen -> opens = 0) /\ n <= reported q r' /\ reported q r' + pending q (data r') = n + opens /\
          (q <> QOpen -> reported q r' = n /\ pending q (data r') = 0)
      | UB => False
      end
  | UB => False
  end.

Definition none_dropped (r : ub rs) : bool := match r with Def r => bool_decide (length (dropped (data r)) = 0%nat) | UB => false end.
Lemma none_dropped_nil r : none_dropped (Def r) = true -> dropped (data r) = [].
Proof. intros H%bool_decide_eq_true. by apply nil_length_inv. Qed.

Example session_accounted_witness : accounted_for QRead 130 4 /\ accounted_for QRead 130 9 /\ accounted_for QRx 3 9.
Proof.
  assert (forall q n v, none_dropped (exec_all cat (start v)) = true -> mtcWatch (q_watch q) = true ->
    observed q (spec_all cat none_open).2 = n -> n < 2 ^ 63 -> accounted_for q n v) as H.
  { intros q n v Hd Hw Ho Hn. unfold accounted_for. destruct (exec_all cat (start v)) as [r|] eqn:Hr; [|discriminate].
    rewrite <- Ho in *. apply (session_accounted q v cat r); [reflexivity|exact Hw| |exact Hr|exact Hn|by apply none_dropped_nil].
    repeat constructor; simpl; lia. }
  split; [|split]; apply H; vm_compute; reflexivity.
Defined.

Example period_reports_everything_witness : all_reported QRead 130 4 /\ all_reported QRead 130 9 /\ all_reported QOpen 5 9.
Proof.
  assert (forall q n v, none_dropped (exec_all cat (start v)) = true -> is_def (exec_all (cat ++ [period]) (start v)) = true ->
    mtcWatch (q_watch q) = true -> observed q (spec_all cat none_open).2 = n -> n + 3 < 2 ^ 63 -> all_reported q n v) as H.
  { intros q n v Hn Hd Hw Ho Hb. unfold all_reported. destruct (exec_all cat (start v)) as [r|] eqn:Hr; [|discriminate].
    destruct (reportPeriodicStuff _ _ _ _ _ _ r) as [r'|] eqn:Hp.
    - rewrite <- Ho in *. refine (period_reports_everything q v cat r _ _ _ r' eq_refl Hw _ Hr Hb (none_dropped_nil _ Hn) Hp).
      repeat constructor; simpl; lia.
    - exfalso. assert (forall l k x, exec_all l x = Def r -> exec_all (l ++ k) x = exec_all k r) as Happ.
      { induction l as [|a l IH]; intros k x Hx; [by injection Hx as ->|]. cbn [app exec_all] in *.
        apply bind_def in Hx as (x1 & Hx1 & Hx). rewrite Hx1. by apply IH. }
      rewrite (Happ cat [period] _ Hr) in Hd. cbn [exec_all exec period] in Hd. rewrite Hp in Hd. discriminate. }
  split; [|split]; apply H; vm_compute; reflexivity.
Defined.

(** A duplicate onto another file: what the number stood for is closed first. *)
Example calls_refine_descriptors_witness :
  let d := mkDesc {[3; 5]} ∅ ∅ {[4]} in
  let s := set_g_fsinfo (set_g_netinfo st0 (Some (fun fd => setn_active zero_net (fd =? 4))))
             (Some (fun fd => setf_active zero_fs ((fd =? 3) || (fd =? 5)))) in
  match handle (HDup2 3 5 5 (Some "dup2")) s with
  | Def s' => holds s' (spec (HDup2 3 5 5 (Some "dup2")) d).1 /\ path s (spec (HDup2 3 5 5 (Some "dup2")) d).2 s'
  | UB => False
  end.
Proof.
  cbn zeta. destruct (handle _ _) as [s'|] eqn:Hs; [|discriminate].
  refine (calls_refine_descriptors (HDup2 3 5 5 (Some "dup2")) _ _ s' _ I Hs). constructor; [by eexists|by eexists|intros fd..].
  - cbn [files fs_at g_fsinfo set_g_fsinfo f_active setf_active]. rewrite elem_of_union, !elem_of_singleton. unfold in_table, FS_ENTRIES.
    destruct (Z.eqb_spec fd 3), (Z.eqb_spec fd 5); simpl; lia.
  - cbn. set_solver.
  - cbn. set_solver.
  - cbn [socks net_at g_netinfo set_g_fsinfo set_g_netinfo n_active setn_active]. rewrite elem_of_singleton. unfold in_table, NET_ENTRIES.
    destruct (Z.eqb_spec fd 4); lia.
Defined.

End Demo.
End Session.
