(* ===== verification/StateGaps.v ===== *)
(** * What the counting and the reporting get wrong

    Small sessions that show where the code of src/state.c, src/report.c and
    src/metriccapture.c does not do what it means to. *)

From S2P Require Import Prelude Types HttpState CfgParse StateData State Report Account AccountRun Traffic Descriptors Session.

Module StateGaps.
Import StateData State Report Account AccountRun Traffic Descriptors Session.

#[local] Open Scope Z_scope.

(** ** Settings *)

Definition no_notify : notify_info_t := mkNotify false false false false [] [] [] [] [].

(** Metrics are on; [sources] are the event sources, [watch] the watched metrics. *)
Definition env_with (sources watch : Z -> bool) (cap : nat) (notify : notify_info_t) (junk : stat_t) (block : Z) : Env :=
  mkEnv sources true watch false true cap (fun n => 1000000 * Z.of_nat (S n)) 1000 true 0 false
    (fun _ => None) junk (fun p => String.prefix "/bin" p) (fun _ => true) (fun _ => true) (fun _ => None) (fun _ => -1)
    (fun _ => None) (fun _ => None) (fun _ => None) (fun _ _ => Some "192.0.2.1") notify block (fun _ => None).
Definition plain_env : Env := env_with (fun _ => false) (fun _ => true) 100 no_notify (mkStat 0 0 0) 0.
Definition net_env : Env := env_with (fun s => s =? CFG_SRC_NET) (fun _ => true) 100 no_notify (mkStat 0 0 0) 0.

#[local] Existing Instance Demo.proc.
#[local] Existing Instance Demo.detect.

Definition period : action := Demo.period.

(** The metrics and the events that were sent under a name, by their values. *)
Definition metrics (name : string) (r : ub rs) : option (list Z) :=
  match r with
  | Def r => Some (omap (fun m => match m with
                                  | SMetric e => if bool_decide (e_name e = name) then Some (value_of e) else None
                                  | _ => None
                                  end) (sent r))
  | UB => None
  end.
Definition num_field (name : string) (e : event_t) : option Z :=
  head (omap (fun f => if bool_decide (f_name f = name) then match f_value f with FMT_NUM v => Some v | _ => None end else None)
          (default [] (e_fields e))).
Definition event_fields (name field : string) (r : ub rs) : option (list (option Z)) :=
  match r with
  | Def r => Some (omap (fun m => match m with
                                  | SEvent e _ => if bool_decide (e_name e = name) then Some (num_field field e) else None
                                  | _ => None
                                  end) (sent r))
  | UB => None
  end.

(** ** Durations *)

(** The time of reads and writes is reported at the lowest and at the highest
    levels of detail and not in between: the total looks at the summary of opens
    and closes, the report by descriptor at the one of reads and writes. *)
Definition one_read : list action :=
  [AHandle (HOpen 3 "/etc/hosts" FD (Some "open")); AHandle (HRead 3 1 true None 100 (Some "read") 0); period].
Example fs_duration_gap :
  let run v := metrics "fs.duration" (exec_all (E := plain_env) one_read (start v)) in
  run 5 = Some [1999] /\ run 6 = Some [] /\ run 7 = Some [] /\ run 8 = Some [] /\ run 9 = Some [1999].
Proof. vm_compute. split_and!; reflexivity. Qed.

(** The number of operations is multiplied as an int. *)
Example many_operations_overflow : average 2147484 5 1000 1 = UB /\ is_Some (match average 2147483 5 1000 1 with Def x => Some x | UB => None end).
Proof. vm_compute. split; [reflexivity|eauto]. Qed.

(** ** Connections *)

Definition connection : list action :=
  [AHandle (HSock 4 SOCK_STREAM AF_INET);
   AHandle (HConnection 4 (Some (with_family zero_addr AF_INET)) 16 LOCAL);
   AHandle (HConnection 4 (Some (with_family zero_addr AF_INET)) 16 REMOTE);
   AHandle (HSend 4 10 None 0); AHandle (HRecv 4 100 None 100)].

(** A periodic report of an open connection says that it was closed. *)
Example open_connection_reported_closed :
  let l := connection ++ [period; period] in
  event_fields "net.close" "net_bytes_sent" (exec_all (E := net_env) l (start 7)) = Some [Some 10; Some 10] /\
  4 ∈ socks (spec_all (E := net_env) l none_open).1.
Proof. vm_compute. split; [reflexivity|]. apply (bool_decide_eq_true_1 _). vm_compute. reflexivity. Qed.

Definition final {A} (l : list A) : option A := head (rev l).

(** The close of a connection reports the bytes that were received since the
    last period, and all that were sent. *)
Example received_bytes_forgotten :
  let l := connection ++ [period; AHandle (HSend 4 1 None 0); AHandle (HRecv 4 20 None 20); AHandle (HClose 4 None); AEvents true true] in
  option_map final (event_fields "net.close" "net_bytes_recv" (exec_all (E := net_env) l (start 9))) = Some (Some (Some 20)) /\
  option_map final (event_fields "net.close" "net_bytes_sent" (exec_all (E := net_env) l (start 9))) = Some (Some (Some 11)).
Proof. vm_compute. split; reflexivity. Qed.

(** Metrics of opened connections need the event source of the network. *)
Example opened_connections_uncounted :
  metrics "net.open" (exec_all (E := plain_env) (connection ++ [period]) (start 4)) = Some [] /\
  metrics "net.open" (exec_all (E := net_env) (connection ++ [period]) (start 4)) = Some [1].
Proof. vm_compute. split; reflexivity. Qed.

(** ** Counting *)

(** What a session of [exec_all] that was stopped goes on with. *)
Definition resume `{Env} (f : st -> st) (l : list action) (r : ub rs) : ub rs :=
  r ← r; exec_all l (set_data r (f (data r))).

(** Bytes that were reported in a summary are reported again when the level of
    detail is raised: the counters of the descriptor keep them. *)
Example raised_detail_repeats :
  let before := exec_all (E := plain_env) one_read (start 4) in
  let after := resume (H := plain_env) (setVerbosity 9) [period] before in
  metrics "fs.read" before = Some [100] /\ metrics "fs.read" after = Some [100; 100].
Proof. vm_compute. split; reflexivity. Qed.

(** An event that a full queue refuses takes its counts with it. *)
Example full_queue_loses_counts :
  let env := env_with (fun _ => false) (fun _ => true) 0 no_notify (mkStat 0 0 0) 0 in
  metrics "fs.read" (exec_all (E := env) (one_read ++ [period]) (start 9)) = Some [].
Proof. vm_compute. reflexivity. Qed.

(** What sendfile reads from its input is counted as written to it. *)
Example sendfile_counts_writes :
  let l := [AHandle (HOpen 3 "/etc/hosts" FD (Some "open")); AHandle (HSock 4 SOCK_STREAM AF_INET);
            AHandle (HSendFile 4 3 0 50 (Some "sendfile")); period] in
  metrics "fs.write" (exec_all (E := plain_env) l (start 4)) = Some [50] /\
  metrics "fs.read" (exec_all (E := plain_env) l (start 4)) = Some [].
Proof. vm_compute. split; reflexivity. Qed.

(** Duplicating a descriptor onto itself succeeds and is counted as an error. *)
Example dup2_onto_itself_is_an_error :
  let l := [AHandle (HOpen 3 "/etc/hosts" FD (Some "open")); AHandle (HDup2 3 3 3 (Some "dup2")); period] in
  metrics "fs.error" (exec_all (E := plain_env) l (start 4)) = Some [1].
Proof. vm_compute. reflexivity. Qed.

(** A file that is duplicated onto a socket's number leaves the socket in the
    table, and what is read from the file is counted as received. *)
Example dup2_onto_socket_keeps_socket :
  let l := [AHandle (HOpen 3 "/etc/hosts" FD (Some "open")); AHandle (HSock 4 SOCK_STREAM AF_INET);
            AHandle (HDup2 3 4 4 (Some "dup2")); AHandle (HRead 4 0 true None 100 (Some "read") 0); period] in
  metrics "net.rx" (exec_all (E := plain_env) l (start 4)) = Some [100] /\
  metrics "fs.read" (exec_all (E := plain_env) l (start 4)) = Some [].
Proof. vm_compute. split; reflexivity. Qed.

(** Failed lookups of names are reported when the metrics of files are watched. *)
Example dns_errors_need_files :
  let only w := env_with (fun _ => false) (fun x => x =? w) 100 no_notify (mkStat 0 0 0) 0 in
  let l := [AHandle (HUpdate NET_ERR_DNS (-1) 0 (Some "getaddrinfo") (Some "example.com")); period] in
  metrics "net.error" (exec_all (E := only CFG_MTC_DNS) l (start 4)) = Some [] /\
  metrics "net.error" (exec_all (E := only CFG_MTC_NET) l (start 4)) = Some [] /\
  metrics "net.error" (exec_all (E := only CFG_MTC_FS) l (start 4)) = Some [1].
Proof. vm_compute. split_and!; reflexivity. Qed.

(** Of the vectors of a message only the first metric is captured. *)
Definition capture_all : Detect :=
  mkDetect (fun _ => true) (fun _ _ => -1) [] None None None false false false true
    (Some (fun _ => None)) (Some (fun l => Some (Some "m", Some "1", Some "c"))) (Some 10%nat)
    None None None None None (fun _ => true) (fun _ _ => 0).
Example one_metric_per_message :
  match doMetricCapture (D := capture_all) (HttpState.MSG [Some [97]; Some [98]]) 2 st0 with
  | Def (ok, s) => ok = true /\ length (captured s) = 1%nat
  | UB => False
  end.
Proof. vm_compute. split; reflexivity. Qed.

(** ** Names and texts *)

(** A path that fills its array is not terminated. *)
Definition long_path : string := String.string_of_list_ascii (repeat (chr 97) (Z.to_nat 4096)).
Example long_path_unterminated :
  exec_all (E := plain_env) [AHandle (HOpen (-1) long_path FD (Some "open")); AEvents true true] (start 9) = UB.
Proof. vm_compute. reflexivity. Qed.

(** The inode of a socket is reported in 16 bits. *)
Example inode_truncated :
  let net := setn_lnode (setn_localConn zero_net (with_family zero_addr AF_UNIX)) 65537 in
  num_field "localn" (int_event "net.tx" 1 DELTA (traffic_fields (E := plain_env) net 1)) = Some 1.
Proof. vm_compute. reflexivity. Qed.

(** The text of a warning about a read is cut to seven characters. *)
Definition enforcing : Env :=
  env_with (fun _ => false) (fun _ => true) 100 (mkNotify true true false false ["secret"] [] [] [] []) (mkStat 0 0 0) 0.
Example warning_cut :
  match exec_all (E := enforcing)
          [AHandle (HOpen 3 "/etc/secret" FD (Some "open")); AHandle (HRead 3 0 true None 1 (Some "read") 0)] (start 4) with
  | Def r => notices (data r) = [(NOTIFY_FILES, "accessi")]
  | UB => False
  end.
Proof. vm_compute. reflexivity. Qed.

(** The port of a refused connection is reported in network order. *)
Definition https : sockaddr := set_at (set_at (with_family zero_addr AF_INET) 2 1) 3 187.
Example refused_port_swapped :
  let env := env_with (fun _ => false) (fun _ => true) 100 no_notify (mkStat 0 0 0) 443 in
  match doBlockConnection (E := env) (Some https) st0 with
  | (rc, s) => rc = 1 /\ match events s with [PSec sec] => sec_port sec = 47873 | _ => False end
  end.
Proof. vm_compute. split; reflexivity. Qed.

(** A function that was replaced in the GOT is reported as a file when the map
    of the memory names the file, so the code of [sec.got] with a redirection is
    never reached. *)
Example redirected_function_is_a_file :
  let r := set_data (start 4) (gotSecurity (E := plain_env) "open" "reason" "libc.so" "/tmp/evil.so" (data (start 4))) in
  match exec_all (E := plain_env) [AEvents true true] r with
  | Def r => omap (fun m => match m with SMetric e => Some (e_name e) | _ => None end) (sent r) = ["sec.file"]
  | UB => False
  end.
Proof. vm_compute. reflexivity. Qed.

(** ** Memory *)

(** TLS is looked for in five bytes, however few there are. *)
Definition tls_five : Detect :=
  mkDetect (fun _ => true) (fun _ _ => -1) []
    (Some (CfgParse.mkProtocol (Some "TLS") (Some "^16") true false false 5 0)) (Some Demo.http_def) (Some Demo.http_def)
    false false false true None None None None None None None None (fun _ => true) (fun _ _ => 0).
Example short_data_overread :
  exec_all (E := plain_env) (D := tls_five)
    [AHandle (HSock 4 SOCK_STREAM AF_INET); AHandle (HRecv 4 1 (Demo.bytes [71]) 1)] (start 4) = UB.
Proof. vm_compute. reflexivity. Qed.

(** Without the details of files the mode of an executable is read from a
    structure that was never filled. *)
Example executable_check_uninitialised :
  let watchful junk := env_with (fun _ => false) (fun _ => true) 100 (mkNotify true true false false [] [] [] [] []) junk 0 in
  let guarded junk := match exec_all (E := watchful junk) [AHandle (HOpen 3 "/bin/ls" FD (Some "open"))] (start 4) with
                      | Def r => Some (f_enforceWR (fs_at (data r) 3))
                      | UB => None
                      end in
  guarded (mkStat 0 0 0) = Some true /\ guarded (mkStat 0 0 16384) = Some false.
Proof. vm_compute. split; reflexivity. Qed.

End StateGaps.
