(* ===== verification/ReportTotal.v ===== *)
(** * A periodic report always returns

    The reporting thread's loops end and touch nothing out of bounds when the
    names in the events and in the tables are terminated and the numbers of timed
    operations stay small enough for the products of ints in [average]. *)

From S2P Require Import Prelude Types HttpState CfgParse StateData State Report Account AccountRun Traffic Descriptors Session.

Module ReportTotal.
Import StateData State Report Account AccountRun Traffic Descriptors Session.

#[local] Open Scope Z_scope.

(** ** What is required *)

(** The numbers of operations whose product with the unit is an int. *)
Definition few (unit : Z) (v : counters_element_t) : Prop := 0 <= mtc v /\ 0 <= evt v /\ unit * mtc v < 2 ^ 31 /\ unit * evt v < 2 ^ 31.
Definition ends (n : nat) (s : string) : Prop := (String.length s < n)%nat.

Definition tame_fs (f : fs_info) : Prop := ends PATH_MAX (f_path f) /\ ends FUNC_MAX (f_funcop f) /\ few 1000 (f_cnt f f_numDuration).
Definition tame_net (n : net_info) : Prop := few 1000000 (n_cnt n numDuration).
Definition tame_posted (p : posted) : Prop :=
  match p with
  | PFs f => tame_fs f
  | PNet n => ends MAX_HOSTNAME (n_dnsName n) /\ tame_net n /\ few 1000000 (add 1 (n_counters n dnsDurationNum))
  | PDns n => ends MAX_HOSTNAME (n_dnsName n) /\ few 1000000 (add 1 (n_counters n dnsDurationNum))
  | PErr s | PStat s => ends PATH_MAX (se_name s) /\ ends FUNC_MAX (se_funcop s)
  | PSec s => ends PATH_MAX (sec_path s) /\ ends REASON_MAX (sec_reason s) /\ ends MAX_HOSTNAME (sec_dnsName s) /\
              ends DLPI_MAX (sec_dlpi_name s)
  | PDetect _ _ _ | PHttp _ => True
  end.
Definition tame_tables (s : st) : Prop := (forall fd, tame_fs (fs_at s fd)) /\ (forall fd, tame_net (net_at s fd)).
(** The dimensions of a captured metric are not empty, as the pattern has it. *)
Definition tame_captured (m : captured_metric_t) : Prop := cap_dims m <> Some "".

Definition tame (s : st) : Prop :=
  tame_tables s /\ Forall tame_posted (events s) /\ Forall tame_captured (captured s).

(** ** Each report is defined *)

Section Total.
Context `{E : Env} `{P : Proc}.

Lemma average_def num total unit least : 0 <= num -> unit * num < 2 ^ 31 -> 1 <= unit -> exists d, average num total unit least = Def d.
Proof.
  intros Hn Hb Hu. unfold average. assert (num < 2 ^ 31) by nia.
  assert (i32 num = num) as -> by (apply i32_small; lia). cbn zeta.
  destruct (1 <=? num) eqn:H1; [|eauto]. apply Z.leb_le in H1. unfold int_mul.
  assert ((- 2 ^ 31 <=? unit * num) && (unit * num <? 2 ^ 31) = true) as ->.
  { apply andb_true_iff. split; [apply Z.leb_le; nia|by apply Z.ltb_lt]. }
  eauto.
Qed.
Lemma few_evt u v t l : 1 <= u -> few u v -> exists d, average (evt v) t u l = Def d.
Proof. intros Hu (? & ? & ? & ?). by apply average_def. Qed.
Lemma few_mtc u v t l : 1 <= u -> few u v -> exists d, average (mtc v) t u l = Def d.
Proof. intros Hu (? & ? & ? & ?). by apply average_def. Qed.

(** Compute the next average. *)
Ltac averages :=
  repeat match goal with
  | H : few ?u ?v |- context [average (evt ?v) ?t ?u ?l] =>
      let d := fresh "d" in let Hd := fresh in destruct (few_evt u v t l ltac:(lia) H) as [d Hd]; rewrite Hd; cbn [mbind ub_bind]
  | H : few ?u ?v |- context [average (mtc ?v) ?t ?u ?l] =>
      let d := fresh "d" in let Hd := fresh in destruct (few_mtc u v t l ltac:(lia) H) as [d Hd]; rewrite Hd; cbn [mbind ub_bind]
  end.

Lemma dns_def type net r : few 1000000 (add 1 (n_counters net dnsDurationNum)) -> exists r', doDNSMetricName type net r = Def r'.
Proof.
  intros H. unfold doDNSMetricName. destruct (bool_decide _); [eauto|]. cbn zeta. destruct type; eauto.
  - repeat (case_match; eauto).
  - averages. destruct (_ || _); [eauto|]. destruct (_ =? 0); eauto.
Qed.

Lemma net_def type net source r : tame_net net -> (type = DNS -> few 1000000 (add 1 (n_counters net dnsDurationNum))) ->
  exists x, doNetMetric type net source r = Def x.
Proof.
  intros Ht Hd. destruct type; cbn [doNetMetric]; eauto.
  - unfold report_net_duration. cbn zeta. destruct (negb (evtSource _)); [eauto|]. unfold tame_net in Ht. averages.
    destruct (negb (d =? 0)); cbn iota beta; (destruct (net_quiet _ _); [eauto|]); averages; destruct (_ =? 0); eauto.
  - destruct (negb _); [eauto|]. cbn zeta. destruct (dns_def DNS (setn_dnsSend net false) r) as [r' ->]; [by apply Hd|]. eauto.
Qed.

(** The permission bits have three octal digits at most. *)
Lemma octal_def k dec i oct : 0 <= dec < 8 ^ Z.of_nat k -> exists x, octal_loop (S k) dec i oct = Def x.
Proof.
  revert dec i oct. induction k as [|k IH]; intros dec i oct Hd; cbn [octal_loop].
  - assert (dec = 0) as -> by (simpl in Hd; lia). eauto.
  - destruct (dec =? 0) eqn:Hz; [eauto|]. apply IH. rewrite Nat2Z.inj_succ, Z.pow_succ_r in Hd by lia.
    split; [apply Z.div_pos; lia|apply Z.div_lt_upper_bound; lia].
Qed.
Lemma head_def fs : exists h, fs_event_head fs = Def h.
Proof.
  unfold fs_event_head, decimalToOctal. destruct (octal_def 3 (Z.land (f_mode fs) S_RWXUGO) 1 0) as [x ->]; [|cbn [mbind ub_bind]; eauto].
  change S_RWXUGO with (Z.ones 9). rewrite Z.land_ones by lia. change (8 ^ Z.of_nat 3) with (2 ^ 9). apply Z.mod_pos_bound. lia.
Qed.
Lemma open_event_def fs o r : exists r', doFSOpenEvent fs o r = Def r'.
Proof. unfold doFSOpenEvent. destruct (_ && _); [|eauto]. destruct (head_def fs) as [h ->]. cbn [mbind ub_bind]. eauto. Qed.
Lemma close_event_def fs o r : few 1000 (f_cnt fs f_numDuration) -> exists r', doFSCloseEvent fs o r = Def r'.
Proof.
  intros H. unfold doFSCloseEvent, getFSDuration. destruct (_ && _); [|eauto]. averages.
  destruct (head_def fs) as [h ->]. cbn [mbind ub_bind]. eauto.
Qed.
Lemma number_def m num g sm ev fs source o r : (forall l r, exists r', ev l r = Def r') ->
  exists x, report_fs_number m num g sm ev fs source o r = Def x.
Proof.
  intros He. unfold report_fs_number. cbn zeta. destruct (negb _).
  - destruct (He (fs_head fs o ++ [UNIT_FIELD "operation"]) r) as [r' ->]. cbn [mbind ub_bind].
    destruct (fs_quiet _ _); [eauto|]. destruct (_ =? 0); eauto.
  - cbn [mbind ub_bind]. destruct (fs_quiet _ _); [eauto|]. destruct (_ =? 0); eauto.
Qed.
Lemma fs_def type fs source o p r : tame_fs fs -> exists x, doFSMetric type fs source o p r = Def x.
Proof.
  intros (_ & _ & H). destruct type; cbn [doFSMetric]; eauto.
  - unfold report_fs_duration. cbn zeta. averages. destruct (fs_quiet _ _); [eauto|]. averages. destruct (_ =? 0); eauto.
  - apply number_def. intros _ r'. apply open_event_def.
  - apply number_def. intros _ r'. by apply close_event_def.
  - apply number_def. eauto.
Qed.

Lemma cstr_def n s : ends n s -> cstr n s = Def s.
Proof. intros H. unfold cstr. by rewrite (proj2 (Nat.ltb_lt _ _) H). Qed.

Lemma event_def p r : tame_posted p -> exists r', report_event p r = Def r'.
Proof.
  intros H. unfold report_event.
  assert (read_event p = Def p) as ->.
  { destruct p; cbn [tame_posted read_event] in *; unfold tame_fs in *; destruct_and?; rewrite ?cstr_def by done; done. }
  cbn [mbind ub_bind]. destruct p as [net|fs|s|s|net|sec|n fd u|h]; eauto.
  - destruct H as (_ & Hn & Hd). destruct (net_def (n_data_type net) net EVENT_BASED r Hn (fun _ => Hd)) as [[x y] ->].
    eauto.
  - destruct (fs_def (f_data_type fs) fs EVENT_BASED (Some (f_funcop fs)) (Some (f_path fs)) r H) as [[x y] ->]. eauto.
  - destruct H as [_ Hd]. by apply dns_def.
Qed.

(** Every round takes an event from the queue, and none adds one. *)
Lemma loop_def fuel count all r : (length (events (data r)) < fuel)%nat -> Forall tame_posted (events (data r)) ->
  exists x, event_loop fuel count all r = Def x.
Proof.
  revert count r. induction fuel as [|fuel IH]; intros count r Hl H; [lia|]; cbn [event_loop].
  destruct (events (data r)) as [|p rest] eqn:He; [eauto|]. inversion H as [|?? Hp Hr]; subst.
  destruct (event_def p (on_data (fun s => set_events s rest) r) Hp) as [r1 H1]. rewrite H1. cbn [mbind ub_bind]. cbn zeta.
  destruct (negb all && _); [eauto|].
  pose proof (still_events _ _ (still_event _ _ _ H1)) as Hq. simpl in Hq. apply IH; simpl; rewrite Hq; [simpl in Hl; lia|done].
Qed.

(** Every dimension is a part of the text behind the one before it. *)
Lemma upto_shorter c s a b : upto c s = (a, Some b) -> (String.length b < String.length s)%nat.
Proof.
  revert a b. induction s as [|x s IH]; intros a b; cbn [upto]; [done|]. destruct (Ascii.eqb x c).
  - intros [= _ <-]. simpl. lia.
  - destruct (upto c s) as [a' [b'|]]; intros [= _ <-]. simpl. specialize (IH a' b' eq_refl). lia.
Qed.
Lemma dims_def fuel s : (String.length s < fuel)%nat -> exists l, dims_loop fuel s = Def l.
Proof.
  revert s. induction fuel as [|fuel IH]; intros s Hs; [lia|]. cbn [dims_loop].
  destruct (upto (chr 58) s) as [name [v|]] eqn:H1; [|eauto]. apply upto_shorter in H1.
  destruct (upto (chr 44) v) as [val [d|]] eqn:H2; [apply upto_shorter in H2; destruct (IH d) as [l ->]; [lia|]|]; cbn [mbind ub_bind]; eauto.
Qed.
Lemma fields_def dims : dims <> Some "" -> exists f, createFieldsForCapturedMetrics dims = Def f.
Proof.
  unfold createFieldsForCapturedMetrics. destruct dims as [[|c s]|]; [done| |eauto]. intros _. destruct (Ascii.eqb _ _); [|eauto].
  destruct (dims_def (S (String.length s)) s) as [l ->]; [lia|]. cbn [mbind ub_bind]. eauto.
Qed.
Lemma captured_one_def m r : tame_captured m -> exists r', reportCapturedMetric m r = Def r'.
Proof.
  intros H. unfold reportCapturedMetric. destruct (calloc (data r)) as [ok s]. cbn zeta.
  destruct ok; [destruct (fields_def _ H) as [f ->]|]; cbn [mbind ub_bind]; (destruct (if _ || _ then _ else _); eauto).
Qed.
Lemma fold_def {A B} (g : B -> A -> ub A) l r : (forall b r, In b l -> exists r', g b r = Def r') ->
  exists r', foldl (fun acc b => r ← acc; g b r) (Def r) l = Def r'.
Proof.
  intros Hg. revert r. induction l as [|b l IH]; intros r; [eauto|]. cbn [foldl].
  destruct (Hg b r) as [r1 H1]; [by left|]. change (r ← Def r; g b r) with (g b r). rewrite H1. apply IH. intros c x Hc. apply Hg. by right.
Qed.
Lemma captured_def r : Forall tame_captured (captured (data r)) -> exists r', reportAllCapturedMetrics r = Def r'.
Proof.
  intros H. unfold reportAllCapturedMetrics. apply fold_def. intros m r' Hm. apply captured_one_def.
  by eapply List.Forall_forall in H.
Qed.

(** ** The tables stay tame *)

Lemma few_zero_evt u v : 0 <= u -> few u v -> few u (zero_evt v).
Proof. intros Hu (? & ? & ? & ?). unfold few. simpl. lia. Qed.
Lemma few_zero_mtc u v : 0 <= u -> few u v -> few u (zero_mtc v).
Proof. intros Hu (? & ? & ? & ?). unfold few. simpl. lia. Qed.
Lemma net_set_other net c f c' : c <> c' -> n_cnt (net_set net c f) c' = n_cnt net c'.
Proof. intros H. simpl. unfold at_ctr. by rewrite fn_lookup_insert_ne. Qed.
Lemma fs_set_other fs c f c' : c <> c' -> f_cnt (fs_set fs c f) c' = f_cnt fs c'.
Proof. intros H. simpl. unfold at_ctr. by rewrite fn_lookup_insert_ne. Qed.
Lemma net_set_same net c f : n_cnt (net_set net c f) c = f (n_cnt net c).
Proof. simpl. unfold at_ctr. by rewrite fn_lookup_insert. Qed.
Lemma fs_set_same fs c f : f_cnt (fs_set fs c f) c = f (f_cnt fs c).
Proof. simpl. unfold at_ctr. by rewrite fn_lookup_insert. Qed.

Lemma net_metric_tame type net source r net' r' : tame_net net -> doNetMetric type net source r = Def (net', r') -> tame_net net'.
Proof.
  unfold tame_net. intros Ht H. destruct type; cbn [doNetMetric] in H; try (by injection H as <- _);
    try (apply Def_inj in H; revert H; unfold report_connection, report_traffic; cbn zeta; repeat case_match; intros [= <- _];
         rewrite ?net_set_other by done; done).
  - unfold report_net_duration in H. cbn zeta in H. destruct (negb (evtSource CFG_SRC_NET)); [by injection H as <- _|].
    apply bind_def in H as (dur & _ & H). set (x := if negb (dur =? 0) then _ else _) in H.
    assert (few 1000000 (n_cnt x.1 numDuration)) as Hx.
    { subst x. destruct (negb _); [|done]. cbn [fst]. rewrite net_set_other, net_set_same by done. by apply few_zero_evt. }
    destruct x as [net1 r1]. cbn [fst] in Hx.
    destruct (net_quiet _ _); [by injection H as <- _|]. apply bind_def in H as (dur' & _ & H).
    destruct (dur' =? 0); injection H as <- _; [done|]. rewrite net_set_other, net_set_same by done. by apply few_zero_mtc.
  - destruct (negb _); [by injection H as <- _|]. apply bind_def in H as (r1 & _ & H). by injection H as <- _.
Qed.
Lemma fs_metric_tame type fs source o p r fs' r' : tame_fs fs -> doFSMetric type fs source o p r = Def (fs', r') -> tame_fs fs'.
Proof.
  assert (forall fs c f, c <> f_numDuration -> tame_fs fs -> tame_fs (fs_set fs c f)) as Hset.
  { intros x c f Hc (H1 & H2 & H3). unfold tame_fs. rewrite fs_set_other by done. done. }
  assert (forall m num g sm ev fs source o r fs' r', num <> f_numDuration -> tame_fs fs ->
    report_fs_number m num g sm ev fs source o r = Def (fs', r') -> tame_fs fs') as Hnum.
  { clear -Hset. intros m num g sm ev fs source o r fs' r' Hn Ht H. unfold report_fs_number in H. cbn zeta in H.
    apply bind_def in H as ([fs1 r1] & H1 & H). assert (tame_fs fs1) as Ht1.
    { destruct (negb _); [apply bind_def in H1 as (r0 & _ & H1)|]; injection H1 as <- _; auto. }
    clear H1. destruct (fs_quiet _ _); [by injection H as <- _|]. destruct (_ =? 0); injection H as <- _; auto. }
  intros Ht H. destruct type; cbn [doFSMetric] in H; try (by injection H as <- _); try (eapply Hnum; [|done|exact H]; done).
  - destruct Ht as (T1 & T2 & T3). unfold report_fs_duration in H. cbn zeta in H. apply bind_def in H as (dur & _ & H).
    destruct (fs_quiet _ _); [by injection H as <- _|]. apply bind_def in H as (dur' & _ & H).
    destruct (dur' =? 0); injection H as <- _; [done|]. unfold tame_fs.
    rewrite fs_set_other, fs_set_same by done. split_and!; [done|done|]. by apply few_zero_mtc.
  - apply Def_inj in H. revert H. unfold report_fs_bytes. cbn zeta. repeat case_match; intros [= <- _]; auto.
  - apply Def_inj in H. revert H. unfold report_fs_bytes. cbn zeta. repeat case_match; intros [= <- _]; auto.
Qed.

(** ** Parts that leave the tables tame *)

Definition tk (s s' : st) : Prop := tame_tables s -> tame_tables s'.
#[export] Instance tk_refl : Reflexive tk.
Proof. by intros s H. Qed.
#[export] Instance tk_trans : Transitive tk.
Proof. intros s1 s2 s3 H1 H2 H. auto. Qed.

Lemma tk_tables s s' : g_fsinfo s' = g_fsinfo s -> g_netinfo s' = g_netinfo s -> tk s s'.
Proof. intros Hf Hn [H1 H2]. split; intros fd; [unfold fs_at; rewrite Hf; apply H1|unfold net_at; rewrite Hn; apply H2]. Qed.
Lemma tk_fs fd f s : (tame_fs (fs_at s fd) -> tame_fs (f (fs_at s fd))) -> tk s (on_fs fd f s).
Proof.
  intros Hf [H1 H2]. split; intros fd'.
  - rewrite fs_at_on_fs. destruct (decide _) as [[_ <-]|]; auto.
  - by rewrite (on_fs_rest (fun s => net_at s fd')).
Qed.
Lemma tk_net fd f s : (tame_net (net_at s fd) -> tame_net (f (net_at s fd))) -> tk s (on_net fd f s).
Proof.
  intros Hf [H1 H2]. split; intros fd'.
  - by rewrite (on_net_rest (fun s => fs_at s fd')).
  - rewrite net_at_on_net. destruct (decide _) as [[_ <-]|]; auto.
Qed.
Lemma tk_post need rep ev s : tk s (post need rep ev s).2.
Proof. destruct (post_tables need rep ev s). by apply tk_tables. Qed.
Lemma tk_file path msg s : tk s (report_file path msg s).
Proof.
  unfold report_file, fileSecurity, post_security, notify, calloc. cbn zeta.
  destruct (hd true (allocs s)); apply tk_tables; try done; simpl; rewrite ?cmdPost_fsinfo, ?cmdPost_netinfo; done.
Qed.

Lemma tk_open fd f p s : tk s (doUpdateState FS_OPEN fd 0 f p s).
Proof.
  cbn [doUpdateState]. destruct (checkFSEntry s fd); [|reflexivity]. unfold update_fs_number. cbn zeta.
  assert (forall g s, tk s (on_fs_ctr fd f_numOpen g s)) as Hc.
  { intros g x. apply tk_fs. intros (H1 & H2 & H3). split_and!; [done|done|]. simpl. unfold at_ctr. by rewrite fn_lookup_insert_ne. }
  set (s1 := on_ctr numOpen _ _). assert (tk s s1) as T1.
  { subst s1. transitivity (on_fs_ctr fd f_numOpen (add 1) s); [apply Hc|by apply tk_tables]. }
  clearbody s1. pose proof (tk_post (evtSource CFG_SRC_METRIC || evtSource CFG_SRC_FS || (mtcEnabled && needs_reporting (fs_summary s1 FS_OPEN)))
    (needs_reporting (fs_summary s1 FS_OPEN)) (fun _ => PFs (fs_event fd FS_OPEN (Some (fs_at s1 fd)) f p)) s1) as T2.
  unfold posted_then, postFSState. cbn zeta. destruct (post _ _ _ s1) as [[] s2]; cbn [snd] in T2;
    (etrans; [exact T1|]); (etrans; [exact T2|]); [etrans; apply Hc|apply Hc].
Qed.

Lemma tk_detect path fd sbuf s : tk s (doDetectFile path fd sbuf s).
Proof.
  unfold doDetectFile. destruct (negb _ || _ || _); [reflexivity|]. cbn zeta.
  assert (forall x, tk x (check_owners path fd sbuf x)) as Ho.
  { intros x. unfold check_owners, calloc. destruct (hd true _); cbn [negb]; [|by apply tk_tables].
    destruct (hd true _); cbn [negb]; [|by apply tk_tables]. set (y := set_allocs _ _). assert (tk x y) by (by apply tk_tables).
    clearbody y. etrans; [done|]. destruct (known_group _), (known_user _); try reflexivity; try apply tk_file.
    etrans; apply tk_file. }
  etrans; [|apply Ho]. clear Ho.
  repeat match goal with
  | |- tk ?s ?s => reflexivity
  | |- tk _ (if ?b then _ else _) => destruct b
  | |- tk _ (report_file _ _ ?x) => apply (tk_trans _ x); [|apply tk_file]
  | |- tk _ (on_fs _ _ ?x) => apply (tk_trans _ x); [|by apply tk_fs]
  end.
Qed.

Lemma tk_entry fd s : tk s (getFSEntry fd s).2.
Proof.
  unfold getFSEntry. destruct (_ && f_active _); [reflexivity|]. destruct (_ && _ && _); [|reflexivity].
  assert (exists name desc, (if fd =? 0 then ("stdin", "console input")
      else if fd =? 1 then ("stdout", "console output") else ("stderr", "console output")) = (name, desc) /\
      ends PATH_MAX (cut PATH_MAX name)) as (name & desc & -> & Hn).
  { destruct (fd =? 0), (fd =? 1); (eexists _, _; split; [reflexivity|]); apply Nat.ltb_lt; vm_compute; reflexivity. }
  cbn [snd]. unfold open_entry. cbn zeta. destruct (getTime s) as [now s0] eqn:Hnow.
  transitivity s0. { injection Hnow as _ <-. by apply tk_tables. }
  set (s1 := on_fs fd _ s0). transitivity s1.
  { apply tk_fs. intros _. split_and!; [exact Hn|apply Nat.ltb_lt; reflexivity|]. unfold few. simpl. lia. }
  clearbody s1. set (x := if _ && _ then _ else _).
  assert (tk s1 x.2) as T. { subst x. destruct (_ && _); [|reflexivity]. destruct (k_stat _); [|reflexivity]. by apply tk_fs. }
  destruct x as [sbuf s2]. cbn [snd] in T. etrans; [exact T|]. etrans; [apply tk_open|apply tk_detect].
Qed.

Lemma fold_inv {A B} (g : B -> A -> ub A) l r (I : A -> Prop) :
  (forall b r, In b l -> I r -> exists r', g b r = Def r' /\ I r') -> I r ->
  exists r', foldl (fun acc b => r ← acc; g b r) (Def r) l = Def r' /\ I r'.
Proof.
  intros Hg. revert r. induction l as [|b l IH]; intros r Hr; [eauto|]. cbn [foldl].
  destruct (Hg b r) as (r1 & H1 & I1); [by left|done|]. change (r ← Def r; g b r) with (g b r). rewrite H1.
  apply IH; [|done]. intros c x Hc. apply Hg. by right.
Qed.

Definition tamed (r : rs) : Prop := tame_tables (data r).

Lemma net_entry_def fd types r : ~ In DNS types -> tamed r -> exists r', report_net_entry fd types PERIODIC r = Def r' /\ tamed r'.
Proof.
  intros Hd Hr. apply (fold_inv (fun type r => '(net, r) ← doNetMetric type (net_at (data r) fd) PERIODIC r;
    Def (on_data (on_net fd (fun _ => net)) r))); [|done].
  intros type r1 Hin Ht. destruct (net_def type (net_at (data r1) fd) PERIODIC r1) as [[net r2] H2]; [apply Ht|by intros ->|].
  rewrite H2. cbn [mbind ub_bind]. eexists. split; [reflexivity|]. pose proof (still_net_metric _ _ _ _ _ _ H2) as [K1 K2 _ _ _ _].
  apply (tk_net fd (fun _ => net)); [|by apply (tk_tables (data r1))]. intros _. eapply net_metric_tame; [|exact H2]. apply Ht.
Qed.
Lemma fs_entry_def fd types r : tamed r -> exists r', report_fs_entry fd types PERIODIC r = Def r' /\ tamed r'.
Proof.
  intros Hr. destruct (fold_inv (fun x r => '(fs, r) ← doFSMetric x.1 (fs_at (data r) fd) PERIODIC (Some x.2) None r;
    Def (on_data (on_fs fd (fun _ => fs)) r)) types r tamed) as (r' & Hf & Ht); [|done|].
  - intros x r1 Hin Ht. destruct (fs_def x.1 (fs_at (data r1) fd) PERIODIC (Some x.2) None r1) as [[fs r2] H2]; [apply Ht|].
    rewrite H2. cbn [mbind ub_bind]. eexists. split; [reflexivity|]. pose proof (still_fs_metric _ _ _ _ _ _ _ _ H2) as [K1 K2 _ _ _ _].
    apply (tk_fs fd (fun _ => fs)); [|by apply (tk_tables (data r1))]. intros _. eapply fs_metric_tame; [|exact H2]. apply Ht.
  - exists r'. split; [|done]. rewrite <- Hf. unfold report_fs_entry. apply foldl_same. by intros ? [].
Qed.

Lemma if_def (b : bool) (f : rs -> ub rs) r : tamed r -> (exists r', f r = Def r' /\ tamed r') ->
  exists r', (if b then f r else Def r) = Def r' /\ tamed r'.
Proof. intros Hr Hf. destruct b; [done|eauto]. Qed.

Lemma fd_def fd r : tamed r -> exists r', reportFD fd PERIODIC r = Def r' /\ tamed r'.
Proof.
  intros Hr. unfold reportFD. cbn [bool_decide decide].
  assert (forall (x : ub rs) (k : rs -> ub rs), (exists r', x = Def r' /\ tamed r') ->
    (forall r', tamed r' -> exists r2, k r' = Def r2 /\ tamed r2) -> exists r2, x ≫= k = Def r2 /\ tamed r2) as Hb.
  { intros x k (r' & -> & Ht) Hk. by apply Hk. }
  change (bool_decide (PERIODIC = EVENT_BASED)) with false. cbn iota. apply Hb.
  - destruct (getNetEntry (data r) fd); [|eauto]. cbn zeta. set (r0 := on_data _ r).
    assert (tamed r0) as H0 by (by apply (tk_net fd)). clearbody r0. apply Hb.
    + apply if_def; [done|]. apply net_entry_def; [|done]. simpl. intuition discriminate.
    + intros r1 H1. apply if_def; [done|]. apply net_entry_def; [|done]. simpl. intuition discriminate.
  - intros r1 H1. pose proof (tk_entry fd (data r1) H1) as H2. destruct (getFSEntry fd (data r1)) as [[f|] s]; cbn [snd] in H2; [|eauto].
    cbn zeta. set (r3 := on_data _ (set_data r1 s)). assert (tamed r3) as H3 by (by apply (tk_fs fd)). clearbody r3. apply Hb.
    + apply if_def; [done|]. by apply fs_entry_def.
    + intros r4 H4. apply if_def; [done|]. by apply fs_entry_def.
Qed.

(** ** The whole report *)

(** What a part of the report keeps. *)
Definition keeps (r r' : rs) : Prop :=
  tk (data r) (data r') /\ (forall m, In m (captured (data r')) -> In m (captured (data r))).
Lemma still_keeps r r' : still r r' -> keeps r r'.
Proof. intros []. split; [by apply tk_tables|done]. Qed.
Lemma keeps_trans r1 r2 r3 : keeps r1 r2 -> keeps r2 r3 -> keeps r1 r3.
Proof. intros [T1 C1] [T2 C2]. split; [by etrans|auto]. Qed.

Lemma loop_keeps fuel count all r b r' : event_loop fuel count all r = Def (b, r') -> keeps r r'.
Proof.
  revert count r. induction fuel as [|fuel IH]; intros count r H; cbn [event_loop] in H; [done|].
  destruct (events (data r)) as [|p rest]; [by injection H as _ <-|]. apply bind_def in H as (r1 & H1 & H). cbn zeta in H.
  assert (keeps r (set_count r1 (u64 (g_cumulativeEventCount r1 + 1)))) as K.
  { eapply (keeps_trans r (on_data (fun s => set_events s rest) r)); [split; [by apply tk_tables|done]|].
    apply still_event, still_keeps in H1 as [T C]. split; [exact T|exact C]. }
  destruct (negb all && _); [by injection H as _ <-|]. eapply keeps_trans; [exact K|by eapply IH].
Qed.

Lemma all_fds_def r : tamed r -> exists r', reportAllFds PERIODIC r = Def r'.
Proof.
  intros H. unfold reportAllFds.
  destruct (fold_inv (fun i => reportFD i PERIODIC) (seqZ 0 (Z.max NET_ENTRIES FS_ENTRIES)) r tamed) as (r' & Hr & _);
    [|exact H|exists r'; exact Hr].
  intros i x _ Hx. by apply fd_def.
Qed.
Lemma event_phase_def ready all r : tame (data r) -> exists b r', doEvent ready all r = Def (b, r') /\ tamed r'.
Proof.
  intros (Ht & He & Hc). unfold doEvent. destruct ready; cbn [negb]; [|by eauto].
  destruct (loop_def (S (length (events (data r)))) 0 all r ltac:(lia) He) as [[b r1] H1]. rewrite H1. apply loop_keeps in H1 as [T1 C1].
  cbn [mbind ub_bind]. destruct (captured_def r1) as [r2 H2].
  { apply List.Forall_forall. intros m Hm. eapply List.Forall_forall in Hc; [exact Hc|auto]. }
  rewrite H2. cbn [mbind ub_bind]. exists b, r2. split; [reflexivity|].
  apply (still_keeps _ _ (rsame_still _ _ _ (rsame_captured QRx _ _ H2))). by apply T1.
Qed.
Lemma period_eq ready interval perc u all r b r1 : doEvent ready all r = Def (b, r1) ->
  reportPeriodicStuff true ready interval perc u all r = reportAllFds PERIODIC (last_part (total_part totals (proc_part interval perc u r1))).
Proof. intros H. unfold reportPeriodicStuff, last_part, total_part, proc_part. rewrite H. cbn [mbind ub_bind]. reflexivity. Qed.


End Total.

(** A file's close waits in the queue, and a metric of the process. *)
Definition queued : rs :=
  on_data (fun s => set_captured (set_events s
    [PFs (setf_data_type (setf_path (setf_fd zero_fs 3) "/etc/hosts") FS_CLOSE)]) [mkCaptured "jobs" "1" "c" (Some "#queue:a")])
    (start 9).

End ReportTotal.
