(* ===== verification/HttpReport.v ===== *)
(** * Reports of HTTP (src/report.c)

    The reporting thread turns the headers and frames that the data path posts
    ([HttpState.protocol_info]) into the events [http.req] and [http.resp] and
    into metrics for the aggregation.  A request of HTTP/1 is kept in the store of
    [HttpMatch] until its response arrives on the same socket; for HTTP/2 the
    store keeps a channel for each socket, with the decoder of header blocks and
    what is known of each stream.

    The text of a header is cut into lines and words by [strtok_r] in copies of
    the posted block; the values of the fields point into these copies.  The HPACK
    decoder of lshpack and the regular expressions are parameters. *)

From S2P Require Import Prelude Types StrSearch HttpState HttpMatch HttpAgg CJson EvtFormat CfgParse StateData State Report.

Module HttpReport.
Import StateData State Report.

#[local] Open Scope Z_scope.

(** ** Text *)

Definition CR : Z := 13.
Definition LF : Z := 10.
Definition SP : Z := 32.
Definition COLON : Z := 58.
Definition SLASH : Z := 47.

Definition is_crlf (c : Z) : bool := (c =? CR) || (c =? LF).

(** The text of a field. *)
Definition text (l : list Z) : string := String.string_of_list_ascii (map (fun b => Ascii.ascii_of_nat (Z.to_nat b)) l).

(** The longest prefix of which all bytes pass the test, and the rest. *)
Fixpoint span (p : Z -> bool) (l : list Z) : list Z * list Z :=
  match l with
  | [] => ([], [])
  | c :: r => if p c then let '(a, b) := span p r in (c :: a, b) else ([], l)
  end.

(** [strtok_r]: the token, and what it leaves in the saved pointer, NULL when
    the token ends the string. *)
Definition strtok (sep : Z -> bool) (s : option (list Z)) : option (list Z * option (list Z)) :=
  match s with
  | None => None
  | Some s =>
      match span (fun c => negb (sep c)) (span sep s).2 with
      | ([], _) => None
      | (tok, []) => Some (tok, None)
      | (tok, _ :: rest) => Some (tok, Some rest)
      end
  end.

(** The string in the first [len] bytes of a block. *)
Definition block_string (block : list Z) (len : Z) : ub (list Z) :=
  let l := take (Z.to_nat len) block in
  match span (fun c => negb (c =? 0)) l with
  | (s, _ :: _) => Def s
  | (_, []) => UB
  end.
(** The string at an offset. *)
Definition block_string_at (block : list Z) (len off : Z) : ub (list Z) :=
  if (0 <=? off) && (off <=? len) then block_string (drop (Z.to_nat off) block) (len - off) else UB.

Definition is_space (c : Z) : bool := (c =? 32) || ((9 <=? c) && (c <=? 13)).
Definition digit_of (c : Z) : Z :=
  if (48 <=? c) && (c <=? 57) then c - 48
  else if (97 <=? c) && (c <=? 122) then c - 87
  else if (65 <=? c) && (c <=? 90) then c - 55 else 99.
Fixpoint number_acc (base acc : Z) (s : list Z) : Z :=
  match s with
  | [] => acc
  | c :: s => if digit_of c <? base then number_acc base (acc * base + digit_of c) s else acc
  end.
(** [strtoull(s, NULL, 0)]: the number, and whether errno was set. *)
Definition strtoull0 (s : list Z) : Z * bool :=
  let s := (span is_space s).2 in
  let '(neg, s) := match s with 45 :: s => (true, s) | 43 :: s => (false, s) | _ => (false, s) end in
  let v := match s with
           | 48 :: x :: c :: s => if ((x =? 120) || (x =? 88)) && (digit_of c <? 16) then number_acc 16 0 (c :: s)
                                  else number_acc 8 0 (x :: c :: s)
           | 48 :: s => number_acc 8 0 s
           | _ => number_acc 10 0 s
           end in
  if UINT64_MAX <? v then (UINT64_MAX, true) else (if neg : bool then u64 (- v) else v, false).

(** ** What is kept *)

Definition HTTP_STATUS : string := "HTTP/1.".
Definition EVENT_ONLY_ATTR : Z := CFG_MAX_VERBOSITY + 1.
Definition SIZE_MAX : Z := UINT64_MAX.

(** The header that a call of the decoder yields: the bytes of its name, of what
    lies between the name's end and the value in the output, and of the value; it
    used one byte of the block and [used] more. *)
Inductive hpack_result (dec : Type) :=
  | HHeader (name gap val : list Z) (used : nat) (d : dec)
  | HError (d : dec).
Arguments HHeader {dec}.
Arguments HError {dec}.

Class HttpEnv := mkHttpEnv {
  header_re : list (option (string -> bool));     (* cfgEvtFormatHeaderRe(cfg, i) *)
  http_name_re : option (string -> bool);         (* the filters of CFG_SRC_HTTP *)
  http_field_re : option (string -> bool);
  http_value_re : option (string -> bool);
  lshpack_dec : Type;
  lshpack_dec_init : lshpack_dec;                 (* with its capacity set *)
  lshpack_dec_decode : lshpack_dec -> list Z -> hpack_result lshpack_dec;
}.

Section HttpReport.
Context `{E : Env} `{P : Proc} `{H : HttpEnv} `{Dbl : CJson.Double} {T : Type}.

(** HTTP/2: what is known of a stream; [jsonData] is the object that the event
    will carry.  The strings are those of the arrays. *)
Record http2Stream_t := mkStream {
  msgType : Z;                     (* 0 unset, 1 request, 2 response *)
  jsonData : option CJson.cJSON;
  lastRequestAt : Z;
  lastStatus : Z;
  lastHost : string; lastMethod : string; lastTarget : string; lastUserAgent : string;
  lastReqLen : Z; lastRespLen : Z;
}.
Definition new_stream : http2Stream_t := mkStream 0 None 0 0 "" "" "" "" 0 0.

Record http2Channel_t := mkChannel { decoder : lshpack_dec; streams : option (gmap Z http2Stream_t) }.

Inductive http_out :=
  | HFields (e : event_t) (uid : Z)                      (* cmdSendHttp *)
  | HData (e : event_t) (data : CJson.cJSON) (uid : Z)   (* cmdSendHttp with event.data *)
  | HMetric (e : event_t).                               (* cmdSendMetric of the aggregation *)

(** The globals of the reporting thread.  The store of channels holds their
    addresses. *)
Record hs := mkHs {
  g_httpmatch : option (HttpMatch.store_t http_map T);
  g_http2_channels : option (HttpMatch.store_t Z T);
  channel_heap : gmap Z http2Channel_t;
  channel_next : Z;
  g_http_agg : option HttpAgg.http_agg_t;
  g_http_status : option StrSearch.search_t;
  http_sent : list http_out;
  hs_al : list bool;                                     (* the allocations to come *)
}.
Definition set_match (s : hs) x := mkHs x (g_http2_channels s) (channel_heap s) (channel_next s) (g_http_agg s) (g_http_status s) (http_sent s) (hs_al s).
Definition set_channels (s : hs) x := mkHs (g_httpmatch s) x (channel_heap s) (channel_next s) (g_http_agg s) (g_http_status s) (http_sent s) (hs_al s).
Definition set_heap (s : hs) x n := mkHs (g_httpmatch s) (g_http2_channels s) x n (g_http_agg s) (g_http_status s) (http_sent s) (hs_al s).
Definition set_agg (s : hs) x := mkHs (g_httpmatch s) (g_http2_channels s) (channel_heap s) (channel_next s) x (g_http_status s) (http_sent s) (hs_al s).
Definition set_http_sent (s : hs) x := mkHs (g_httpmatch s) (g_http2_channels s) (channel_heap s) (channel_next s) (g_http_agg s) (g_http_status s) x (hs_al s).
Definition set_al (s : hs) x := mkHs (g_httpmatch s) (g_http2_channels s) (channel_heap s) (channel_next s) (g_http_agg s) (g_http_status s) (http_sent s) x.

Definition h_alloc (s : hs) : bool * hs := let '(ok, al) := CJson.alloc (hs_al s) in (ok, set_al s al).
Definition send_http (o : http_out) (s : hs) : hs := set_http_sent s (http_sent s ++ [o]).

(** ** HTTP/1 *)

(** The number of the status line, and where its text starts in the header;
    nothing is set there when the line is not found. *)
Definition getHttpStatus (s : hs) (header : list Z) (len : Z) : ub (Z * option Z) :=
  let ix := StrSearch.searchExec (g_http_status s) (Some header) (i32 len) in
  if ix =? -1 then Def (SIZE_MAX, None) else
  if len <? ix + Z.of_nat (String.length HTTP_STATUS) + 1 then Def (SIZE_MAX, None) else
  val ← block_string_at header len (ix + Z.of_nat (String.length HTTP_STATUS) + 1);
  let stext := Some (ix + Z.of_nat (String.length HTTP_STATUS) + 6) in
  let '(rc, err) := strtoull0 val in
  Def (if err || (rc =? 0) then SIZE_MAX else rc, stext).

(** The copy [st] of the rest of the header has no terminator of its own: the
    scan for the end of the line must find one in it. *)
Definition status_text (stext : list Z) : ub string :=
  match stext with
  | [] => UB
  | c :: _ =>
      match span (fun c => negb (is_crlf c)) (span is_crlf stext).2 with
      | (tok, _ :: _) => Def (if is_crlf c then "" else text tok)
      | (_, []) => UB
      end
  end.

Definition headerMatch (re : option (string -> bool)) (match_ : string) : bool :=
  match re with Some re => re match_ | None => false end.

(** What follows the first colon of a line. *)
Definition after_colon (line : list Z) : option (list Z * list Z) :=
  match span (fun c => negb (c =? COLON)) line with
  | (name, _ :: val) => Some (name, val)
  | (_, []) => None
  end.

(** The name of the field of a line that is always reported. *)
Definition known_header (line : string) : option (string * Z) :=
  if strcasestr line "Host:" then Some ("http_host", 1)
  else if strcasestr line "User-Agent:" then Some ("http_user_agent", 5)
  else if strcasestr line "X-Forwarded-For:" then Some ("http_client_ip", 5)
  else None.

(** The line is reported because a configured expression selects it. *)
Definition extracted (line : list Z) : bool :=
  let l := text line in
  match known_header l with
  | Some _ => false
  | None => negb (strcasestr l "Content-Length:") && negb (strcasestr l "x-appview:")
            && existsb (fun re => headerMatch re l) header_re && bool_decide (is_Some (after_colon line))
  end.
(** A selected line is cut at its colon. *)
Definition left_of (line : list Z) : list Z :=
  if extracted line then match after_colon line with Some (name, _) => name | None => line end else line.

(** What a pointer to the second byte after the colon shows.  When the colon ends
    the line that is the text behind the terminator of the line: at the end what
    remains of the separators and of the next line, while the lines are read all
    that follows.  Behind the end of the text are the zeros that [strncpy] pads
    with, if the buffer is longer than the text. *)
Definition shown_value (padded : bool) (val : list Z) (rest : option (list Z)) (behind : list Z -> list Z) : ub (list Z) :=
  match val, rest with
  | _ :: v, _ => Def v
  | [], Some rest => Def (behind rest)
  | [], None => if padded then Def [] else UB
  end.
Definition next_line (rest : list Z) : list Z :=
  let '(run, s) := span is_crlf rest in run ++ left_of (span (fun c => negb (is_crlf c)) s).1.

(** One line: the field it adds, and the content length after it. *)
Definition header_line (padded : bool) (line : list Z) (rest : option (list Z)) (clen : Z)
  : ub (list event_field_t * Z) :=
  let l := text line in
  let show name c :=
    match after_colon line with
    | None => UB
    | Some (_, val) => v ← shown_value padded val rest next_line; Def ([strfield name (Some (text v)) c], clen)
    end in
  match known_header l with
  | Some (name, c) => show name c
  | None =>
      if strcasestr l "Content-Length:" then
        match after_colon line with
        | None => UB
        | Some (_, val) =>
            v ← shown_value padded val rest (fun rest => rest);
            let '(n, err) := strtoull0 v in
            Def ([], if (n =? 0) || err then SIZE_MAX else n)
        end
      else if strcasestr l "x-appview:" then show "x-appview" 5
      else if extracted line
           then show (text (left_of line)) 5
           else Def ([], clen)
  end.

Fixpoint header_lines (fuel : nat) (padded : bool) (rest : option (list Z)) (clen : Z) : ub (list event_field_t * Z) :=
  match fuel with
  | O => UB
  | S fuel =>
      match strtok is_crlf rest with
      | None => Def ([], clen)
      | Some (line, rest) =>
          '(f, clen) ← header_line padded line rest clen;
          '(fs, clen) ← header_lines fuel padded rest clen;
          Def (f ++ fs, clen)
      end
  end.

(** The fields of a header block, and the content length that it announces. *)
Definition httpFields (ptype : Z) (hdr : list Z) (hdr_len : Z) : ub (list event_field_t * Z) :=
  header ← block_string hdr hdr_len;
  match strtok is_crlf (Some header) with
  | None => Def ([], SIZE_MAX)
  | Some (_, rest) =>
      '(fs, clen) ← header_lines (S (length header)) (Z.of_nat (length header) + 1 <? hdr_len) rest SIZE_MAX;
      Def (fs ++ (if clen =? SIZE_MAX then [] else
                  [numfield (if ptype =? HttpState.EVT_HREQ then "http_request_content_length"
                             else if ptype =? HttpState.EVT_HRES then "http_response_content_length"
                             else "content_length") clen EVENT_ONLY_ATTR]), clen)
  end.

Definition conn_addr (c : HttpState.conn_t) : sockaddr :=
  match c with HttpState.ConnCopy a => a | HttpState.ConnUnset => with_family zero_addr 65535 end.

Definition httpFieldsInternal (proto : HttpState.protocol_info) : list event_field_t :=
  [NUMFIELD "pid" (i64 (pid g_proc)) 4 false; STRFIELD "host" (Some (hostname g_proc)) 4 false;
   STRFIELD "proc" (Some (procname g_proc)) 4 false]
  ++ (if HttpState.sock_type proto =? -1 then [] else
      getNetInternals None (HttpState.sock_type proto) (conn_addr (HttpState.localConn proto)) (conn_addr (HttpState.remoteConn proto))).

(** The array has room for HTTP_MAX_FIELDS fields, and the last is its end. *)
Definition http_event (name : string) (len : Z) (fields : list event_field_t) : event_t :=
  int_event name len SET (take (HTTP_MAX_FIELDS - 1) fields).

Definition attrib (name : string) (tok : option (list Z)) (c : Z) : list event_field_t :=
  match tok with Some t => [strfield name (Some (text t)) c] | None => [] end.

(** The fields of the request line; nothing when it is empty. *)
Definition request_line (req : list Z) (ssl with_flavor : bool) : option (list event_field_t) :=
  match strtok is_crlf (Some req) with
  | None => None
  | Some (headertok, _) =>
      let is_sp c := c =? SP in
      let next sep s := match strtok sep s with Some (tok, rest) => (Some tok, rest) | None => (None, None) end in
      let '(method, save) := next is_sp (Some headertok) in
      let '(target, save) := next is_sp save in
      let '(version, _) := next is_sp save in
      let '(_, save) := next (fun c => c =? SLASH) version in
      let '(flavor, _) := next (fun c => c =? CR) save in
      Some (attrib "http_method" method 1 ++ attrib "http_target" target 4
            ++ (if with_flavor then attrib "http_flavor" flavor 1 else [])
            ++ [strfield "http_scheme" (Some (if ssl then "https" else "http")) 1])
  end.

(** The version of the status line. *)
Definition response_flavor (res : list Z) : option (list Z) :=
  let next sep s := match strtok sep s with Some (tok, rest) => (Some tok, rest) | None => (None, None) end in
  let '(headertok, _) := next is_crlf (Some res) in
  let '(version, _) := next (fun c => c =? SP) headertok in
  let '(_, save) := next (fun c => c =? SLASH) version in
  fst (next (fun _ => false) save).

Definition getDurationNow (now start : Z) : Z :=
  if time_freq =? 0 then 0 else
  if start <? now then if gptimer_avail then u64 ((now - start) * 1000) / time_freq else now - start
  else u64 (u64 (UINT64_MAX - start + now) * 1000) / time_freq.

(** The metrics are aggregated by target. *)
Definition add_metric (name : string) (duration : Z) (fields : list event_field_t) (request_len response_len : Z) (s : hs) : hs :=
  match g_http_agg s with
  | None => s
  | Some a =>
      let '(o1, s) := h_alloc s in let '(o2, s) := h_alloc s in let '(o3, s) := h_alloc s in
      set_agg s (Some (HttpAgg.httpAggAddMetric (HttpAgg.mkMem o1 o2 o3) a
                         (int_event name duration DELTA_MS fields) request_len response_len))
  end.

Definition duration_name (isServer : bool) : string := if isServer then "http_server_duration" else "http_client_duration".

(** A new request is kept until its response; [now] is the time of day. *)
Definition save_request (now : Z) (proto : HttpState.protocol_info) (s : hs) : option http_map * hs :=
  let post := HttpState.proto_data proto in
  let '(ok, s) := h_alloc s in
  if negb ok then (None, s) else
  let map := mkHttpMap now (HttpState.start_duration post) (HttpState.post_id post) (HttpState.post_hdr post) (HttpState.proto_len proto) in
  let '(ok, s) := if bool_decide (is_Some (g_httpmatch s)) then h_alloc s else (true, s) in
  let '(saved, m) := HttpMatch.httpReqSave ok (g_httpmatch s) (Some map) in
  let s := set_match s m in
  (if saved : bool then Some map else None, s).

(** The first half of [doHttp1Header]: what the request is known for; the parser
    posts no event without a block, so that a request that was kept has its text.
    [None]: the function returns. *)
Definition request_part (map : option http_map) (proto : HttpState.protocol_info) (s : hs)
  : ub (option (list event_field_t) * hs) :=
  let is_req := HttpState.ptype proto =? HttpState.EVT_HREQ in
  let post := HttpState.proto_data proto in
  match map with
  | None => Def (Some [], s)
  | Some map =>
      let '(ok1, s) := h_alloc s in let '(ok2, s) := h_alloc s in
      if negb (ok1 && ok2) then Def (None, s) else
      req ← block_string (req map) (req_len map);
      match request_line req (HttpState.ssl post) is_req with
      | None => Def (None, s)
      | Some fields =>
          if is_req then
            '(hf, _) ← httpFields HttpState.EVT_HREQ (Types.req map) (req_len map);
            let e := http_event "http.req" (HttpState.proto_len proto) (fields ++ hf ++ httpFieldsInternal proto) in
            Def (Some fields, send_http (HFields e (hid_uid (HttpState.post_id post))) s)
          else Def (Some fields, s)
      end
  end.

(** The second half, for a response. *)
Definition response_part (map : option http_map) (fields : list event_field_t) (proto : HttpState.protocol_info) (s : hs)
  : ub hs :=
  let post := HttpState.proto_data proto in
  let hdr := HttpState.post_hdr post in
  let len := HttpState.proto_len proto in
  let uid := hid_uid (HttpState.post_id post) in
  let '(ok1, s) := h_alloc s in let '(ok2, s) := h_alloc s in
  if negb (ok1 && ok2) then Def s else
  let duration := match map with
                  | Some map => getDurationNow (HttpState.start_duration post) (start_time map) / 1000000
                  | None => 0
                  end in
  '(status, stext) ← getHttpStatus s hdr len;
  res ← block_string hdr len;
  st ← match stext with None => UB | Some off => rest ← block_string_at hdr len off; status_text rest end;
  let fields := fields ++ attrib "http_flavor" (response_flavor res) 1
                ++ [numfield "http_status_code" status 1; strfield "http_status_text" (Some st) 1;
                    numfield "http_server_duration" duration EVENT_ONLY_ATTR] in
  '(qf, request_clen) ← match map with
                        | Some map => httpFields HttpState.EVT_HREQ (Types.req map) (req_len map)
                        | None => Def ([], SIZE_MAX)
                        end;
  '(pf, response_clen) ← httpFields HttpState.EVT_HRES hdr len;
  let fields := fields ++ qf ++ pf ++ httpFieldsInternal proto in
  let s := send_http (HFields (http_event "http.resp" len fields) uid) s in
  let s := if mtcEnabled && mtcWatch CFG_MTC_HTTP
           then add_metric (duration_name (HttpState.isServer proto)) duration (take (HTTP_MAX_FIELDS - 1) fields)
                  request_clen response_clen s
           else s in
  Def (match map with
       | Some _ => let '(_, m, _) := HttpMatch.httpReqDelete (g_httpmatch s) uid in set_match s m
       | None => s
       end).

Definition doHttp1Header (now : Z) (proto : HttpState.protocol_info) (s : hs) : ub hs :=
  let post := HttpState.proto_data proto in
  let map := HttpMatch.httpReqGet (g_httpmatch s) (hid_uid (HttpState.post_id post)) in
  let '(go, map, s) :=
    if HttpState.ptype proto =? HttpState.EVT_HREQ then
      match map with
      | Some _ => (false, map, s)
      | None => let '(m, s) := save_request now proto s in (bool_decide (is_Some m), m, s)
      end
    else (true, map, s) in
  if negb go then Def s else
  '(fields, s) ← request_part map proto s;
  match fields with
  | None => Def s
  | Some fields =>
      if HttpState.ptype proto =? HttpState.EVT_HRES then response_part map fields proto s else Def s
  end.

(** ** HTTP/2 *)

Definition status_texts : list (Z * string) :=
  [(100, "Continue"); (101, "Switching Protocols"); (102, "Processing");
   (200, "OK"); (201, "Created"); (202, "Accepted");
   (203, "Non-authoritative Information"); (204, "No Content"); (205, "Reset Content");
   (206, "Partial Content"); (207, "Multi-Status"); (208, "Already Reported");
   (226, "IM Used"); (300, "Multiple Choices"); (301, "Moved Permanently");
   (302, "Found"); (303, "See Other"); (304, "Not Modified");
   (305, "Use Proxy"); (307, "Temporary Redirect"); (308, "Permanent Redirect");
   (400, "Bad Request"); (401, "Unauthorized"); (402, "Payment Required");
   (403, "Forbidden"); (404, "Not Found"); (405, "Method Not Allowed");
   (406, "Not Acceptable"); (407, "Proxy Authentication Required"); (408, "Request Timeout");
   (409, "Conflict"); (410, "Gone"); (411, "Length Required");
   (412, "Precondition Failed"); (413, "Payload Too Large"); (414, "Request-URI Too Long");
   (415, "Unsupported Media Type"); (416, "Requested Range Not Satisfiable"); (417, "Expectation Failed");
   (418, "I'm a teapot"); (421, "Misdirected Request"); (422, "Unprocessable Entity");
   (423, "Locked"); (424, "Failed Dependency"); (426, "Upgrade Required");
   (428, "Precondition Required"); (429, "Too Many Requests"); (431, "Request Header Fields Too Large");
   (444, "Connection Closed Without Response"); (451, "Unavailable For Legal Reasons"); (499, "Client Closed Request");
   (500, "Internal Server Error"); (501, "Not Implemented"); (502, "Bad Gateway");
   (503, "Service Unavailable"); (504, "Gateway Timeout"); (505, "HTTP Version Not Supported");
   (506, "Variant Also Negotiates"); (507, "Insufficient Storage")].
Definition httpStatusCode2Text (code : Z) : string :=
  match List.find (fun x => x.1 =? code) status_texts with Some (_, t) => t | None => "UNKNOWN" end.

Definition isHttp2NameEnabled (name : string) : bool := headerMatch http_name_re name.
Definition isHttp2FieldEnabled (field value : string) : bool := headerMatch http_field_re field && headerMatch http_value_re value.

(** The object that is built, with the allocations to come. *)
Definition building : Type := CJson.cJSON * list bool.
Definition addHttp2NumField (field : string) (value : Z) (b : building) : building :=
  if isHttp2FieldEnabled field (pretty (i32 value))
  then EvtFormat.or_same b.1 (CJson.cJSON_AddNumberToObject b.2 b.1 (bytes_of field) (CJson.of_int (u32 value))) else b.
Definition addHttp2StrField (field value : string) (b : building) : building :=
  if isHttp2FieldEnabled field value
  then EvtFormat.or_same b.1 (CJson.cJSON_AddStringToObject b.2 b.1 (bytes_of field) (bytes_of value)) else b.
Definition addHttp2StrFieldLN (field value : string) (b : building) : building :=
  if isHttp2FieldEnabled field value
  then EvtFormat.or_same b.1 (EvtFormat.cJSON_AddStringToObjLN b.2 b.1 field (Some value)) else b.

(** [atoi]; a number that does not fit an int is undefined. *)
Definition atoi (s : list Z) : ub Z :=
  let s := (span is_space s).2 in
  let '(neg, s) := match s with 45 :: s => (true, s) | 43 :: s => (false, s) | _ => (false, s) end in
  let v := if neg : bool then - number_acc 10 0 s else number_acc 10 0 s in
  if (- 2 ^ 31 <=? v) && (v <? 2 ^ 31) then Def v else UB.

Definition HOST_MAX : nat := 256.
Definition METHOD_MAX : nat := 8.
Definition TARGET_MAX : nat := Z.to_nat 2048.
Definition AGENT_MAX : nat := Z.to_nat 1024.

Definition set_type (s : http2Stream_t) x := mkStream x (jsonData s) (lastRequestAt s) (lastStatus s) (lastHost s) (lastMethod s) (lastTarget s) (lastUserAgent s) (lastReqLen s) (lastRespLen s).
Definition set_json (s : http2Stream_t) x := mkStream (msgType s) x (lastRequestAt s) (lastStatus s) (lastHost s) (lastMethod s) (lastTarget s) (lastUserAgent s) (lastReqLen s) (lastRespLen s).
Definition set_request (s : http2Stream_t) at_ m := mkStream (msgType s) (jsonData s) at_ (lastStatus s) (lastHost s) m (lastTarget s) (lastUserAgent s) (lastReqLen s) (lastRespLen s).
Definition set_status (s : http2Stream_t) x := mkStream (msgType s) (jsonData s) (lastRequestAt s) x (lastHost s) (lastMethod s) (lastTarget s) (lastUserAgent s) (lastReqLen s) (lastRespLen s).
Definition set_host (s : http2Stream_t) x := mkStream (msgType s) (jsonData s) (lastRequestAt s) (lastStatus s) x (lastMethod s) (lastTarget s) (lastUserAgent s) (lastReqLen s) (lastRespLen s).
Definition set_target (s : http2Stream_t) x := mkStream (msgType s) (jsonData s) (lastRequestAt s) (lastStatus s) (lastHost s) (lastMethod s) x (lastUserAgent s) (lastReqLen s) (lastRespLen s).
Definition set_agent (s : http2Stream_t) x := mkStream (msgType s) (jsonData s) (lastRequestAt s) (lastStatus s) (lastHost s) (lastMethod s) (lastTarget s) x (lastReqLen s) (lastRespLen s).
Definition set_lens (s : http2Stream_t) q p := mkStream (msgType s) (jsonData s) (lastRequestAt s) (lastStatus s) (lastHost s) (lastMethod s) (lastTarget s) (lastUserAgent s) q p.

(** One header of a block: what it makes of the stream, and of its object.  The
    name and the value are strings of the output buffer, [line] is the text the
    expressions are matched with. *)
Definition h2_header (fType fStream start : Z) (name val : list Z) (line : string) (x : http2Stream_t * building)
  : ub (http2Stream_t * building) :=
  let '(s, b) := x in
  let v := text val in
  let named n := strcaseeq n (text name) in
  if named ":method" then
    let b := addHttp2StrField "http_method" v (addHttp2NumField "http_stream" fStream b) in
    let s := set_request (set_type s 1) start (cut METHOD_MAX v) in
    Def (s, if fType =? 1 then addHttp2StrFieldLN "http_frame" "HEADERS" b
            else if fType =? 5 then addHttp2StrFieldLN "http_frame" "PUSH_PROMISE" b else b)
  else if named ":status" then
    status ← atoi val;
    let b := addHttp2NumField "http_stream" fStream b in
    Def (set_status (set_type s 2) status,
         addHttp2StrField "http_status_text" (httpStatusCode2Text status) (addHttp2NumField "http_status_code" status b))
  else if named ":authority" then Def (set_host s (cut HOST_MAX v), addHttp2StrField "http_host" v b)
  else if named ":path" then Def (set_target s (cut TARGET_MAX v), addHttp2StrField "http_target" v b)
  else if named ":scheme" then Def (s, addHttp2StrField "http_scheme" v b)
  else if named "user-agent" then Def (set_agent s (cut AGENT_MAX v), addHttp2StrField "http_user_agent" v b)
  else if named "x-appview" then Def (s, addHttp2StrField "x-appview" v b)
  else if named "x-forwarded-for" then Def (s, addHttp2StrField "http_client_ip" v b)
  else if named "content-length" then
    if msgType s =? 1 then
      n ← atoi val; Def (set_lens s n (lastRespLen s), addHttp2NumField "http_request_content_length" n b)
    else if msgType s =? 2 then
      n ← atoi val; Def (set_lens s (lastReqLen s) n, addHttp2NumField "http_response_content_length" n b)
    else Def x
  else if existsb (fun re => headerMatch re line) header_re
       then Def (s, EvtFormat.or_same b.1 (CJson.cJSON_AddStringToObject b.2 b.1 name val))
       else Def x.

(** The loop over a header block.  The terminators of the name and of the value
    are written into the output, so that they must lie in it. *)
Definition OUT_SIZE : Z := 2048.
Definition out_end (name gap val : list Z) : Z := Z.of_nat (length (name ++ [COLON] ++ gap ++ val)).
Fixpoint h2_block (fuel : nat) (fType fStream start : Z) (block : list Z) (d : lshpack_dec) (x : http2Stream_t * building)
  : ub (lshpack_dec * (http2Stream_t * building)) :=
  match block with
  | [] => Def (d, x)
  | _ =>
      match fuel with
      | O => UB
      | S fuel =>
          match lshpack_dec_decode d block with
          | HError d => Def (d, x)
          | HHeader name gap val used d =>
              if OUT_SIZE <=? out_end name gap val then UB else
              let line := text (CJson.cstr (name ++ [COLON] ++ gap ++ val)) in
              x ← h2_header fType fStream start (CJson.cstr name) (CJson.cstr val) line x;
              h2_block fuel fType fStream start (drop (S used) block) d x
          end
      end
  end.

(** The address of the other family's member is passed for an IPv6 address: it
    lies four bytes before. *)
Definition h2_ntop (a : sockaddr) : option string :=
  if ss_family a =? AF_INET6 then inet_ntop AF_INET6 (replicate 4 0 ++ a) else inet_ntop (ss_family a) a.

Definition opt_field (field : string) (v : option string) (b : building) : building :=
  match v with Some v => addHttp2StrField field v b | None => b end.

Definition h2_socket (proto : HttpState.protocol_info) (b : building) : building :=
  let lconn := conn_addr (HttpState.localConn proto) in
  let rconn := conn_addr (HttpState.remoteConn proto) in
  let type := HttpState.sock_type proto in
  if addrIsNetDomain lconn then
    let b := if (1 <=? type) && (type <=? 5) then addHttp2StrFieldLN "net_transport" ("IP." +:+ getProtocol type) b else b in
    let b := opt_field "net_host_ip" (h2_ntop lconn) (opt_field "net_peer_ip" (h2_ntop rconn) b) in
    addHttp2NumField "net_host_port" (sin_port lconn) (addHttp2NumField "net_peer_port" (sin_port rconn) b)
  else b.

(** An array that was filled by [strncpy]; it is read as a string when the filters
    look at its value. *)
Definition known_field (field : string) (size : nat) (v : string) (b : building) : ub building :=
  if bool_decide (v = "") then Def b else
  if headerMatch http_field_re field && bool_decide (is_Some http_value_re)
  then v ← cstr size v; Def (addHttp2StrField field v b)
  else Def b.

(** The event is sent, with its object, when the name filter lets it pass. *)
Definition h2_send (name : string) (len uid : Z) (b : building) (s : hs) : hs :=
  let s := set_al s b.2 in
  if isHttp2NameEnabled name then send_http (HData (mkEvent name (FMT_INT (i64 len)) SET None CFG_SRC_METRIC None) b.1 uid) s else s.

(** [duration] is not set when neither the stream nor a saved request of HTTP/1
    has a start. *)
Definition h2_duration (post : HttpState.http_post) (stream : http2Stream_t) (map : option http_map) : ub Z :=
  let since t := u32 (u64 (HttpState.start_duration post - t) / 1000000) in
  if negb (lastRequestAt stream =? 0) then Def (since (lastRequestAt stream)) else
  match map with
  | Some map => if negb (start_time map =? 0) then Def (since (start_time map)) else UB
  | None => UB
  end.

Definition h2_response (proto : HttpState.protocol_info) (stream : http2Stream_t) (b : building) (s : hs) : ub hs :=
  let post := HttpState.proto_data proto in
  let name := duration_name (HttpState.isServer proto) in
  duration ← h2_duration post stream (HttpMatch.httpReqGet (g_httpmatch s) (hid_uid (HttpState.post_id post)));
  let b := addHttp2NumField name duration b in
  b ← known_field "http_host" HOST_MAX (lastHost stream) b;
  b ← known_field "http_method" METHOD_MAX (lastMethod stream) b;
  b ← known_field "http_target" TARGET_MAX (lastTarget stream) b;
  b ← known_field "http_user_agent" AGENT_MAX (lastUserAgent stream) b;
  let s := h2_send "http.resp" (HttpState.proto_len proto) (HttpState.proto_uid proto) b s in
  if mtcEnabled && mtcWatch CFG_MTC_HTTP then
    target ← cstr TARGET_MAX (lastTarget stream);
    let len n := if 0 <? n then n else SIZE_MAX in
    Def (add_metric name duration [STRFIELD "http_target" (Some target) 4 true; NUMFIELD "http_status_code" (lastStatus stream) 1 true]
           (len (lastReqLen stream)) (len (lastRespLen stream)) s)
  else Def s.

(** The whole message has been seen. *)
Definition h2_message (proto : HttpState.protocol_info) (stream : http2Stream_t) (b : building) (s : hs) : ub hs :=
  let b := h2_socket proto b in
  if msgType stream =? 1 then Def (h2_send "http.req" (HttpState.proto_len proto) (HttpState.proto_uid proto) b s)
  else if msgType stream =? 2 then h2_response proto stream b s
  else Def (set_al s b.2).

(** The channel of the connection, created when it is new. *)
Definition get_channel (proto : HttpState.protocol_info) (s : hs) : option Z * hs :=
  match HttpMatch.channelGet (g_http2_channels s) (HttpState.proto_uid proto) with
  | Some a => (Some a, s)
  | None =>
      let '(ok, s) := h_alloc s in
      if negb ok then (None, s) else
      let a := channel_next s in
      let '(list_ok, s) := h_alloc s in
      let '(item_ok, s) := if bool_decide (is_Some (g_http2_channels s)) then h_alloc s else (true, s) in
      let '(saved, m) := HttpMatch.channelSave item_ok (g_http2_channels s) (Some a) (HttpState.proto_uid proto) (HttpState.proto_fd proto) in
      let s := set_channels s m in
      if saved : bool
      then (Some a, set_heap s (<[a := mkChannel lshpack_dec_init (if list_ok then Some ∅ else None)]> (channel_heap s)) (a + 1))
      else (None, s)
  end.

(** The stream of a channel, created when it is new: an allocation for it and
    one for the node of the list. *)
Definition get_stream (a fStream : Z) (s : hs) : option http2Stream_t * hs :=
  match channel_heap s !! a with
  | None => (None, s)
  | Some c =>
      match streams c ≫= (.!! fStream) with
      | Some x => (Some x, s)
      | None =>
          let '(ok, s) := h_alloc s in
          if negb ok then (None, s) else
          match streams c with
          | None => (None, s)
          | Some m =>
              let '(ok, s) := h_alloc s in
              if negb ok then (None, s) else
              (Some new_stream, set_heap s (<[a := mkChannel (decoder c) (Some (<[fStream := new_stream]> m))]> (channel_heap s)) (channel_next s))
          end
      end
  end.

Definition put_stream (a fStream : Z) (d : lshpack_dec) (x : http2Stream_t) (s : hs) : hs :=
  set_heap s (alter (fun c => mkChannel d ((<[fStream := x]>) <$> streams c)) a (channel_heap s)) (channel_next s).

(** The object of a message is created with its first block. *)
Definition get_json (x : http2Stream_t) (s : hs) : option CJson.cJSON * hs :=
  match jsonData x with
  | Some j => (Some j, s)
  | None =>
      let '(j, al) := CJson.cJSON_CreateObject (hs_al s) in
      match j with
      | None => (None, set_al s al)
      | Some j => let '(j, al) := EvtFormat.or_same j (EvtFormat.cJSON_AddStringToObjLN al j "http_flavor" (Some "2.0")) in
                  (Some j, set_al s al)
      end
  end.

Definition bit (flags b : Z) : bool := negb (Z.land flags b =? 0).

(** The header block of a frame: without the padding, the priority and the
    promised stream. *)
Definition h2_fragment (frame : list Z) (fLen fType fFlags : Z) : ub (list Z) :=
  pad ← (if bit fFlags 8 then load frame 9 else Def 0);
  let decPos := 9 + (if bit fFlags 8 then 1 else 0) + (if bit fFlags 32 then 5 else 0) + (if fType =? 5 then 4 else 0) in
  let decEnd := 9 + fLen - pad in
  Def (take (Z.to_nat (decEnd - decPos)) (drop (Z.to_nat decPos) frame)).

Definition load4 (frame : list Z) (off : Z) : ub Z :=
  a ← load frame off; b ← load frame (off + 1); c ← load frame (off + 2); d ← load frame (off + 3);
  Def (Z.land a 127 * 2 ^ 24 + b * 2 ^ 16 + c * 2 ^ 8 + d).

Definition doHttp2Frame (proto : HttpState.protocol_info) (s : hs) : ub hs :=
  let post := HttpState.proto_data proto in
  let frame := take (Z.to_nat (HttpState.proto_len proto)) (HttpState.post_hdr post) in
  if HttpState.proto_len proto <? 9 then Def s else
  l0 ← load frame 0; l1 ← load frame 1; l2 ← load frame 2;
  let fLen := l0 * 2 ^ 16 + l1 * 2 ^ 8 + l2 in
  fType ← load frame 3;
  fFlags ← load frame 4;
  fStream ← load4 frame 5;
  if negb (HttpState.proto_len proto =? 9 + fLen) then Def s else
  fStream ← (if fType =? 5 then load4 frame (if bit fFlags 8 then 10 else 9) else Def fStream);
  if negb ((fType =? 1) || (fType =? 5) || (fType =? 9)) then Def s else
  match get_channel proto s with
  | (None, s) => Def s
  | (Some a, s) =>
      match get_stream a fStream s with
      | (None, s) => Def s
      | (Some stream, s) =>
          match get_json stream s with
          | (None, s) => Def s
          | (Some j, s) =>
              block ← h2_fragment frame fLen fType fFlags;
              let d := match channel_heap s !! a with Some c => decoder c | None => lshpack_dec_init end in
              '(d, (stream, b)) ← h2_block (length block) fType fStream (HttpState.start_duration post) block d (stream, (j, hs_al s));
              if bit fFlags 4 then
                s ← h2_message proto stream b (set_al s b.2);
                Def (put_stream a fStream d (set_json (set_type stream 0) None) s)
              else Def (put_stream a fStream d (set_json stream (Some b.1)) (set_al s b.2))
          end
      end
  end.

(** ** The reporting thread *)

(** An event of the parser; the event of a detected protocol, [EVT_DETECT], is
    [Report.doDetection]. *)
Definition doProtocolMetric (now : Z) (proto : HttpState.protocol_info) (s : hs) : ub hs :=
  if (HttpState.ptype proto =? HttpState.EVT_HREQ) || (HttpState.ptype proto =? HttpState.EVT_HRES) then doHttp1Header now proto s
  else if HttpState.ptype proto =? HttpState.EVT_H2FRAME then doHttp2Frame proto s
  else Def s.

(** A closed connection ([CONNECTION_DURATION] of doNetMetric). *)
Definition release (uid : Z) (s : hs) : hs :=
  let '(_, m, _) := HttpMatch.httpReqDelete (g_httpmatch s) uid in
  let '(_, c, freed) := HttpMatch.channelDelete (g_http2_channels s) uid in
  let s := set_channels (set_match s m) c in
  set_heap s (foldl (fun h a => delete a h) (channel_heap s) freed) (channel_next s).

(** What [doEvent] does with the stores in every thousandth of its calls:
    [calls] is g_numCallsToDoEvent, [count] g_cumulativeEventCount, and [early]
    whether the loop was left before the queue was empty. *)
Definition expire_stores `{!HttpMatch.NetDirectory T} (calls count : Z) (early : bool) (s : hs) : Z * hs :=
  let calls := u64 (calls + 1) in
  if calls mod 1000 =? 0 then
    let '(_, m, _) := HttpMatch.httpReqExpire (g_httpmatch s) count (negb early) in
    let '(_, c, freed) := HttpMatch.channelExpire (g_http2_channels s) count (negb early) in
    let s := set_channels (set_match s m) c in
    (calls, set_heap s (foldl (fun h a => delete a h) (channel_heap s) freed) (channel_next s))
  else (calls, s).

Definition doHttpAgg (s : hs) : hs :=
  match g_http_agg s with
  | None => s
  | Some a =>
      let s := if mtcWatch CFG_MTC_HTTP && mtcEnabled
               then set_http_sent s (http_sent s ++ map HMetric (HttpAgg.httpAggSendReport (HttpAgg.mkProc (procname g_proc) (pid g_proc) (hostname g_proc)) a))
               else s in
      set_agg s (Some (HttpAgg.httpAggReset a))
  end.

(** [initReporting], with the outcomes of its allocations. *)
Definition initReporting (search1 search2 agg1 agg2 match_ok chan_ok : bool) (net : option (list HttpMatch.net_info)) (extra : option T)
    (qlen : option (bool * Z)) (al : list bool) : hs :=
  mkHs (HttpMatch.httpMatchCreate match_ok net extra true qlen) (HttpMatch.channelStoreCreate chan_ok net extra true qlen)
    ∅ 1 (HttpAgg.httpAggCreate agg1 agg2) (StrSearch.searchComp search1 search2 (Some (bytes_of HTTP_STATUS))) [] al.

End HttpReport.
End HttpReport.
