(* ===== verification/HttpPairs.v ===== *)
(** * Requests and responses of HTTP/1 (src/report.c, src/httpmatch.c)

    A message is its start line and its headers.  The specification of the
    reports keeps, for every socket, the request that waits for its response; a
    request is reported once with its method, target, version and headers, a
    response with what is known of its request and with the time it took, and is
    handed to the aggregation.  The theorem is that [doHttp1Header], with its
    tokenizer, the store of [HttpMatch] and the aggregation of [HttpAgg], does the
    same for every sequence of well-formed messages on any number of sockets in
    which a socket has one request at a time and the responses are those that the
    process sends.  ([HttpGaps] shows what becomes of a second request, and of the
    responses that a client receives.) *)

From S2P Require Import Prelude Types StrSearch HttpState HttpMatch HttpAgg CJson CfgParse StateData State Report HttpReport.

Module HttpPairs.
Import StateData State Report HttpReport.

#[local] Open Scope Z_scope.

(** ** Messages *)

Definition header : Type := list Z * list Z.
Definition line_of (h : header) : list Z := h.1 ++ COLON :: SP :: h.2.
Definition crlf : list Z := [CR; LF].
Definition lines (hs : list header) : list Z := concat (map (fun h => line_of h ++ crlf) hs).

Record request := mkRequest { q_method : list Z; q_target : list Z; q_version : list Z; q_headers : list header }.
Record response := mkResponse { p_minor : Z; p_code : Z; p_reason : list Z; p_headers : list header }.

Definition request_start (q : request) : list Z :=
  q_method q ++ SP :: q_target q ++ SP :: bytes_of "HTTP/" ++ q_version q.
Definition request_bytes (q : request) : list Z := request_start q ++ crlf ++ lines (q_headers q).

Definition code_digits (c : Z) : list Z := [48 + c / 100; 48 + c / 10 mod 10; 48 + c mod 10].
Definition status_line (p : response) : list Z :=
  bytes_of "HTTP/1." ++ p_minor p :: SP :: code_digits (p_code p) ++ SP :: p_reason p.
Definition response_bytes (p : response) : list Z := status_line p ++ crlf ++ lines (p_headers p).

(** A byte of a line. *)
Definition plain (c : Z) : Prop := is_byte c /\ c <> 0 /\ c <> CR /\ c <> LF.
Definition word (l : list Z) : Prop := l <> [] /\ Forall (fun c => plain c /\ c <> SP) l.

Definition named (n : list Z) (k : string) : bool := bool_decide (lower (text n) +:+ ":" = lower k).
Definition special : list string := ["Host:"; "User-Agent:"; "X-Forwarded-For:"; "Content-Length:"; "x-appview:"].

(** A header of which no part is taken for another header's name. *)
Definition ok_header (h : header) : Prop :=
  Forall (fun c => plain c /\ c <> COLON) h.1 /\ Forall plain h.2 /\
  Forall (fun k => strcasestr (text (line_of h)) k = named h.1 k) special.

Definition ok_request (q : request) : Prop :=
  word (q_method q) /\ word (q_target q) /\ word (q_version q) /\ Forall ok_header (q_headers q).
(** The status line ends the block or has a text. *)
Definition ok_response (p : response) : Prop :=
  plain (p_minor p) /\ p_minor p <> SP /\ 100 <= p_code p <= 999 /\ Forall plain (p_reason p) /\
  (p_reason p <> [] \/ p_headers p <> []) /\ Forall ok_header (p_headers p).

Inductive message := Request (q : request) | Response (p : response).
Definition bytes_of_message (m : message) : list Z :=
  match m with Request q => request_bytes q | Response p => response_bytes p end.
Definition ok_message (m : message) : Prop :=
  match m with Request q => ok_request q | Response p => ok_response p end.

(** The block holds the text and its terminator. *)
Definition holds_text (block : list Z) (len : Z) (N : list Z) : Prop :=
  len = Z.of_nat (length N) + 1 /\ take (length N + 1) block = N ++ [0].

(** The event of a message, as the parser posts it. *)
Definition carries (proto : HttpState.protocol_info) (m : message) : Prop :=
  holds_text (HttpState.post_hdr (HttpState.proto_data proto)) (HttpState.proto_len proto) (bytes_of_message m) /\
  Z.of_nat (length (bytes_of_message m)) + 1 < 2 ^ 31 /\
  HttpState.ptype proto = match m with Request _ => HttpState.EVT_HREQ | Response _ => HttpState.EVT_HRES end.

Section Pairs.
Context `{E : Env} `{P : Proc} `{H : HttpEnv} `{Dbl : CJson.Double} {T : Type}.

(** ** The specification *)

(** The field of a header, by its name. *)
Definition spec_header (h : header) : list event_field_t :=
  let show name c := [strfield name (Some (text h.2)) c] in
  if named h.1 "Host:" then show "http_host" 1
  else if named h.1 "User-Agent:" then show "http_user_agent" 5
  else if named h.1 "X-Forwarded-For:" then show "http_client_ip" 5
  else if named h.1 "Content-Length:" then []
  else if named h.1 "x-appview:" then show "x-appview" 5
  else if existsb (fun re => headerMatch re (text (line_of h))) header_re then show (text h.1) 5
  else [].

(** The header that announces the length, the last of them counts. *)
Definition is_length (h : header) : bool := named h.1 "Content-Length:".
Definition length_of (v : list Z) : Z := let '(n, err) := strtoull0 v in if (n =? 0) || err then SIZE_MAX else n.
Definition spec_length (hs : list header) (clen : Z) : Z :=
  foldl (fun clen h => if is_length h then length_of h.2 else clen) clen hs.

Definition spec_fields (label : string) (hs : list header) : list event_field_t :=
  concat (map spec_header hs)
  ++ (if spec_length hs SIZE_MAX =? SIZE_MAX then [] else [numfield label (spec_length hs SIZE_MAX) EVENT_ONLY_ATTR]).

Definition scheme (proto : HttpState.protocol_info) : event_field_t :=
  strfield "http_scheme" (Some (if HttpState.ssl (HttpState.proto_data proto) then "https" else "http")) 1.
Definition spec_request (q : request) : list event_field_t :=
  [strfield "http_method" (Some (text (q_method q))) 1; strfield "http_target" (Some (text (q_target q))) 4].

Definition uid_of (proto : HttpState.protocol_info) : Z := hid_uid (HttpState.post_id (HttpState.proto_data proto)).

Definition request_event (proto : HttpState.protocol_info) (q : request) : http_out :=
  HFields (http_event "http.req" (HttpState.proto_len proto)
    (spec_request q ++ [strfield "http_flavor" (Some (text (q_version q))) 1; scheme proto]
     ++ spec_fields "http_request_content_length" (q_headers q) ++ httpFieldsInternal proto)) (uid_of proto).

Definition spec_duration (proto : HttpState.protocol_info) (waiting : option (request * Z)) : Z :=
  match waiting with
  | Some (_, start) => getDurationNow (HttpState.start_duration (HttpState.proto_data proto)) start / 1000000
  | None => 0
  end.

Definition response_fields (proto : HttpState.protocol_info) (p : response) (waiting : option (request * Z)) : list event_field_t :=
  match waiting with Some (q, _) => spec_request q ++ [scheme proto] | None => [] end
  ++ [strfield "http_flavor" (Some (text (bytes_of "1." ++ [p_minor p]))) 1;
      numfield "http_status_code" (p_code p) 1; strfield "http_status_text" (Some (text (p_reason p))) 1;
      numfield (duration_name (HttpState.isServer proto)) (spec_duration proto waiting) EVENT_ONLY_ATTR]
  ++ match waiting with Some (q, _) => spec_fields "http_request_content_length" (q_headers q) | None => [] end
  ++ spec_fields "http_response_content_length" (p_headers p)
  ++ httpFieldsInternal proto.
Definition response_event (proto : HttpState.protocol_info) (p : response) (waiting : option (request * Z)) : http_out :=
  HFields (http_event "http.resp" (HttpState.proto_len proto) (response_fields proto p waiting)) (uid_of proto).

(** What the aggregation is given for a response. *)
Definition response_metric (proto : HttpState.protocol_info) (p : response) (waiting : option (request * Z)) : HttpAgg.metric :=
  HttpAgg.mkMetric
    (int_event (duration_name (HttpState.isServer proto)) (spec_duration proto waiting) DELTA_MS
       (take (HTTP_MAX_FIELDS - 1) (response_fields proto p waiting)))
    (match waiting with Some (q, _) => spec_length (q_headers q) SIZE_MAX | None => SIZE_MAX end)
    (spec_length (p_headers p) SIZE_MAX).
Definition with_metric (a : HttpAgg.http_agg_t) (m : HttpAgg.metric) : HttpAgg.http_agg_t :=
  HttpAgg.httpAggAddMetric (HttpAgg.mkMem true true true) a (HttpAgg.m_event m) (HttpAgg.m_req m) (HttpAgg.m_resp m).

(** What happens to the reporting thread: an event of a message, a connection
    that was closed, the end of a period. *)
Inductive input :=
  | IMessage (now : Z) (proto : HttpState.protocol_info) (m : message)
  | IClosed (uid : Z)
  | IPeriod.
Definition ok_input (i : input) : Prop :=
  match i with
  | IMessage _ proto m => carries proto m /\ ok_message m /\ match m with Response _ => HttpState.isServer proto = true | Request _ => True end
  | _ => True
  end.

(** The sockets on which a request waits; one request at a time. *)
Definition busy (i : input) (b : gset Z) : gset Z :=
  match i with
  | IMessage _ proto (Request _) => {[uid_of proto]} ∪ b
  | IMessage _ proto (Response _) => b ∖ {[uid_of proto]}
  | IClosed uid => b ∖ {[uid]}
  | IPeriod => b
  end.
Definition in_turn (i : input) (b : gset Z) : Prop :=
  match i with IMessage _ proto (Request _) => uid_of proto ∉ b | _ => True end.
Fixpoint turns (l : list input) (b : gset Z) : Prop :=
  match l with [] => True | i :: l => in_turn i b /\ turns l (busy i b) end.

(** The requests that wait, and the aggregation. *)
Definition spec_state : Type := gmap Z (request * Z) * HttpAgg.http_agg_t.
Definition spec_input (i : input) (x : spec_state) : list http_out * spec_state :=
  let '(waiting, a) := x in
  match i with
  | IMessage _ proto (Request q) =>
      ([request_event proto q],
       (<[uid_of proto := (q, HttpState.start_duration (HttpState.proto_data proto))]> waiting, a))
  | IMessage _ proto (Response p) =>
      let w := waiting !! uid_of proto in
      ([response_event proto p w],
       (delete (uid_of proto) waiting, if mtcEnabled && mtcWatch CFG_MTC_HTTP then with_metric a (response_metric proto p w) else a))
  | IClosed uid => ([], (delete uid waiting, a))
  | IPeriod =>
      (if mtcWatch CFG_MTC_HTTP && mtcEnabled
       then map HMetric (HttpAgg.httpAggSendReport (HttpAgg.mkProc (procname g_proc) (pid g_proc) (hostname g_proc)) a) else [],
       (waiting, HttpAgg.httpAggReset a))
  end.
Fixpoint spec_inputs (l : list input) (x : spec_state) : list http_out :=
  match l with [] => [] | i :: l => let '(o, x) := spec_input i x in o ++ spec_inputs l x end.

Definition exec_input (i : input) (s : hs (T := T)) : ub hs :=
  match i with
  | IMessage now proto _ => doProtocolMetric now proto s
  | IClosed uid => Def (release uid s)
  | IPeriod => Def (doHttpAgg s)
  end.
Fixpoint exec_inputs (l : list input) (s : hs (T := T)) : ub hs :=
  match l with [] => Def s | i :: l => s ← exec_input i s; exec_inputs l s end.

(** ** The tokenizer *)

Lemma span_stop p a b : Forall (fun c => p c = true) a -> match b with [] => True | c :: _ => p c = false end ->
  span p (a ++ b) = (a, b).
Proof.
  intros Ha Hb. induction Ha as [|c a Hc _ IH]; simpl.
  - destruct b as [|c b]; simpl; [done|]. by rewrite Hb.
  - by rewrite Hc, IH.
Qed.
Lemma span_all p a : Forall (fun c => p c = true) a -> span p a = (a, []).
Proof. intros Ha. rewrite <- (app_nil_r a) at 1. by apply span_stop. Qed.

(** Separators, a token, a separator. *)
Lemma strtok_token sep skip tok c rest : Forall (fun x => sep x = true) skip -> tok <> [] ->
  Forall (fun x => sep x = false) tok -> sep c = true -> strtok sep (Some (skip ++ tok ++ c :: rest)) = Some (tok, Some rest).
Proof.
  intros Hs Hne Ht Hc. unfold strtok. rewrite span_stop; [|done|].
  - cbn [snd]. rewrite span_stop; [|by refine (List.Forall_impl _ _ Ht); intros x ->|simpl; by rewrite Hc]. by destruct tok.
  - destruct tok as [|x tok]; [done|]. by inversion Ht.
Qed.
Lemma strtok_first sep tok c rest : tok <> [] -> Forall (fun x => sep x = false) tok -> sep c = true ->
  strtok sep (Some (tok ++ c :: rest)) = Some (tok, Some rest).
Proof. by apply (strtok_token sep []). Qed.
Lemma strtok_last sep tok : tok <> [] -> Forall (fun x => sep x = false) tok -> strtok sep (Some tok) = Some (tok, None).
Proof.
  intros Hne Ht. unfold strtok. assert (span sep tok = ([], tok)) as ->.
  { change tok with ([] ++ tok) at 1. apply span_stop; [done|]. destruct tok; [done|by inversion Ht]. }
  cbn [snd]. rewrite span_all; [by destruct tok|]. refine (List.Forall_impl _ _ Ht). by intros x ->.
Qed.
Lemma strtok_none sep l : Forall (fun x => sep x = true) l -> strtok sep (Some l) = None.
Proof. intros Hl. unfold strtok. rewrite (span_all sep) by done. reflexivity. Qed.

Lemma block_string_holds block len N : holds_text block len N -> Forall (fun c => c <> 0) N -> block_string block len = Def N.
Proof.
  intros [-> Ht] HN. unfold block_string. replace (Z.to_nat (Z.of_nat (length N) + 1)) with (length N + 1)%nat by lia.
  rewrite Ht, span_stop; [done| |done]. refine (List.Forall_impl _ _ HN). intros c Hc. by apply negb_true_iff, Z.eqb_neq.
Qed.
Lemma block_string_at_holds block len N off : holds_text block len N -> Forall (fun c => c <> 0) N -> 0 <= off <= Z.of_nat (length N) ->
  block_string_at block len off = Def (drop (Z.to_nat off) N).
Proof.
  intros [-> Ht] HN Ho. unfold block_string_at. rewrite !(proj2 (Z.leb_le _ _)) by lia. cbn [andb].
  apply block_string_holds; [|by apply Forall_drop].
  split; [rewrite length_drop; lia|]. rewrite length_drop, <- drop_app_le by lia.
  rewrite <- Ht, take_drop_commute. f_equal. f_equal. lia.
Qed.

(** ** Lines *)

Lemma plain_line l : Forall plain l -> Forall (fun c => is_crlf c = false) l /\ Forall (fun c => c <> 0) l /\ is_bytes l.
Proof.
  intros Hl. repeat split; (refine (List.Forall_impl _ _ Hl)); intros c (? & ? & ? & ?); try done.
  unfold is_crlf. by apply orb_false_iff; split; apply Z.eqb_neq.
Qed.
Lemma plain_of_word l : word l -> Forall plain l.
Proof. intros [_ Hl]. refine (List.Forall_impl _ _ Hl). by intros c []. Qed.
Lemma plain_char c : is_byte c -> c <> 0 -> c <> CR -> c <> LF -> plain c.
Proof. done. Qed.
Lemma plain_line_of h : ok_header h -> Forall plain (line_of h).
Proof.
  intros (Hn & Hv & _). unfold line_of. apply Forall_app. split; [refine (List.Forall_impl _ _ Hn); by intros c []|].
  repeat constructor; done.
Qed.

Lemma known_ok h : ok_header h -> known_header (text (line_of h)) =
  if named h.1 "Host:" then Some ("http_host", 1) else if named h.1 "User-Agent:" then Some ("http_user_agent", 5)
  else if named h.1 "X-Forwarded-For:" then Some ("http_client_ip", 5) else None.
Proof. intros (_ & _ & Hk). unfold special in Hk. repeat (apply Forall_cons_iff in Hk as [? Hk]).
  unfold known_header. by repeat match goal with Hx : strcasestr _ _ = _ |- _ => rewrite Hx; clear Hx end.
Qed.

Lemma after_colon_ok h : ok_header h -> after_colon (line_of h) = Some (h.1, SP :: h.2).
Proof.
  intros (Hn & _ & _). unfold after_colon, line_of. rewrite span_stop; [done| |done].
  refine (List.Forall_impl _ _ Hn). intros c [_ Hc]. by apply negb_true_iff, Z.eqb_neq.
Qed.

Lemma length_alone h : is_length h = true ->
  named h.1 "Host:" = false /\ named h.1 "User-Agent:" = false /\ named h.1 "X-Forwarded-For:" = false /\ named h.1 "x-appview:" = false.
Proof.
  unfold is_length, named. intros Hl%bool_decide_eq_true. rewrite Hl. repeat split; by apply bool_decide_eq_false.
Qed.

Lemma header_line_ok padded h rest clen : ok_header h ->
  header_line padded (line_of h) rest clen = Def (spec_header h, if is_length h then length_of h.2 else clen).
Proof.
  intros Hh. pose proof (known_ok h Hh) as K. pose proof (after_colon_ok h Hh) as A.
  destruct Hh as (_ & _ & Hk). unfold special in Hk. repeat (apply Forall_cons_iff in Hk as [? Hk]).
  unfold header_line, spec_header, extracted, left_of, extracted. rewrite K, A.
  destruct (is_length h) eqn:L.
  - pose proof (length_alone h L) as (E1 & E2 & E3 & E4). unfold is_length in L. rewrite E1, E2, E3, L.
    assert (strcasestr (text (line_of h)) "Content-Length:" = true) as -> by congruence. cbn [shown_value].
    cbn [mbind ub_bind]. unfold length_of. by destruct (strtoull0 h.2).
  - unfold is_length in L. rewrite L.
    assert (strcasestr (text (line_of h)) "Content-Length:" = false) as -> by congruence.
    assert (strcasestr (text (line_of h)) "x-appview:" = named h.1 "x-appview:") as -> by congruence.
    destruct (named h.1 "Host:"); [done|]. destruct (named h.1 "User-Agent:"); [done|].
    destruct (named h.1 "X-Forwarded-For:"); [done|]. destruct (named h.1 "x-appview:"); [done|]. cbn [negb andb].
    by destruct (existsb _ header_re).
Qed.

Lemma header_lines_ok padded hs clen fuel : Forall ok_header hs -> (length hs < fuel)%nat ->
  header_lines fuel padded (Some (LF :: lines hs)) clen = Def (concat (map spec_header hs), spec_length hs clen).
Proof.
  intros Hh. revert clen fuel. induction Hh as [|h hs Hh _ IH]; intros clen [|fuel] Hf; try (simpl in Hf; lia); [done|].
  cbn [header_lines]. cbn [lines map concat].
  assert (strtok is_crlf (Some (LF :: (line_of h ++ crlf) ++ lines hs)) = Some (line_of h, Some (LF :: lines hs))) as Hs.
  { rewrite <- (app_assoc (line_of h)). change (LF :: line_of h ++ crlf ++ lines hs) with ([LF] ++ line_of h ++ CR :: LF :: lines hs).
    apply strtok_token; try done; [by repeat constructor|by unfold line_of; destruct h.1|].
    by apply plain_line, plain_line_of. }
  unfold lines in Hs. rewrite Hs, header_line_ok by done. cbn [mbind ub_bind]. rewrite IH by (simpl in Hf; lia). done.
Qed.

(** ** Blocks *)

Lemma lines_plain hs : Forall ok_header hs -> Forall (fun c => c <> 0 /\ is_byte c) (lines hs).
Proof.
  intros Hh. unfold lines. induction Hh as [|h hs Hh _ IH]; simpl; [done|]. apply Forall_app. split; [|done]. apply Forall_app. split.
  - refine (List.Forall_impl _ _ (plain_line_of h Hh)). by intros c (? & ? & _).
  - by repeat constructor.
Qed.
Lemma lines_many hs : (length hs <= length (lines hs))%nat.
Proof. unfold lines. induction hs as [|h hs IH]; simpl; [lia|]. rewrite !length_app. simpl. lia. Qed.

(** The start line of a block, cut off by the tokenizer. *)
Lemma strtok_start first hs : first <> [] -> Forall plain first ->
  strtok is_crlf (Some (first ++ crlf ++ lines hs)) = Some (first, Some (LF :: lines hs)).
Proof. intros Hne Hf. change (crlf ++ lines hs) with (CR :: LF :: lines hs). apply (strtok_token is_crlf []); try done. by apply plain_line. Qed.

Lemma httpFields_ok ptype block len first hs label : first <> [] -> Forall plain first -> Forall ok_header hs ->
  holds_text block len (first ++ crlf ++ lines hs) ->
  label = (if ptype =? HttpState.EVT_HREQ then "http_request_content_length"
           else if ptype =? HttpState.EVT_HRES then "http_response_content_length" else "content_length") ->
  httpFields ptype block len = Def (spec_fields label hs, spec_length hs SIZE_MAX).
Proof.
  intros Hne Hf Hh Ht ->. unfold httpFields. rewrite (block_string_holds _ _ _ Ht).
  - cbn [mbind ub_bind]. rewrite strtok_start by done. rewrite header_lines_ok; [done|done|].
    pose proof (lines_many hs). rewrite !length_app. simpl. lia.
  - apply Forall_app. split; [by apply plain_line|]. apply Forall_app. split; [by repeat constructor|].
    refine (List.Forall_impl _ _ (lines_plain hs Hh)). by intros c [].
Qed.

Lemma word_sep sep l : (forall c, sep c = true -> c = SP \/ c = CR \/ c = LF) -> word l -> Forall (fun c => sep c = false) l.
Proof.
  intros Hs [_ Hl]. refine (List.Forall_impl _ _ Hl). intros c [(_ & _ & ? & ?) ?]. destruct (sep c) eqn:Hc; [|done].
  by destruct (Hs c Hc) as [|[]].
Qed.

Lemma request_plain q : ok_request q -> request_start q <> [] /\ Forall plain (request_start q) /\ Forall (fun c => c <> 0) (request_bytes q).
Proof.
  intros (Hm & Ht & Hv & Hh).
  assert (Forall plain (request_start q)) as Hp.
  { unfold request_start. apply Forall_app. split; [by apply plain_of_word|]. constructor; [done|].
    apply Forall_app. split; [by apply plain_of_word|]. constructor; [done|]. apply Forall_app. split; [by repeat constructor|by apply plain_of_word]. }
  split_and!; [by unfold request_start; destruct (q_method q)|done|]. unfold request_bytes. apply Forall_app. split; [by apply plain_line|].
  apply Forall_app. split; [by repeat constructor|]. refine (List.Forall_impl _ _ (lines_plain _ Hh)). by intros c [].
Qed.

Lemma request_line_ok q ssl with_flavor hs : ok_request q ->
  request_line (request_start q ++ crlf ++ lines hs) ssl with_flavor =
  Some (spec_request q ++ (if with_flavor then [strfield "http_flavor" (Some (text (q_version q))) 1] else [])
        ++ [strfield "http_scheme" (Some (if ssl then "https" else "http")) 1]).
Proof.
  intros Hq. pose proof Hq as (Hm & Ht & Hv & _).
  assert (forall c, (c =? SP) = true -> c = SP \/ c = CR \/ c = LF) as Hsp by (intros c Hc%Z.eqb_eq; auto).
  assert (word (bytes_of "HTTP/" ++ q_version q)) as Hw.
  { split; [done|]. apply Forall_app. split; [by repeat constructor|apply Hv]. }
  unfold request_line. rewrite strtok_start by (by apply request_plain).
  unfold request_start.
  cbv beta zeta. rewrite (strtok_first _ (q_method q)) by (done || apply Hm || by apply word_sep).
  rewrite (strtok_first _ (q_target q)) by (done || apply Ht || by apply word_sep).
  rewrite strtok_last by (apply Hw || by apply word_sep).
  change (bytes_of "HTTP/" ++ q_version q) with (bytes_of "HTTP" ++ SLASH :: q_version q).
  rewrite strtok_first by (done || by repeat constructor).
  rewrite strtok_last; [done|apply Hv|]. apply word_sep; [|done]. intros c Hc%Z.eqb_eq. auto.
Qed.

(** ** The status line *)

Lemma digit_small x : 0 <= x <= 9 -> digit_of (48 + x) = x.
Proof. intros Hx. unfold digit_of. rewrite !(proj2 (Z.leb_le _ _)) by lia. simpl. lia. Qed.

Lemma number_digits a b d rest : 1 <= a <= 9 -> 0 <= b <= 9 -> 0 <= d <= 9 ->
  strtoull0 (SP :: 48 + a :: 48 + b :: 48 + d :: SP :: rest) = (100 * a + 10 * b + d, false).
Proof.
  intros Ha Hb Hd.
  assert (number_acc 10 0 (48 + a :: 48 + b :: 48 + d :: SP :: rest) = 100 * a + 10 * b + d) as Hn.
  { cbn [number_acc]. rewrite !digit_small by lia. rewrite !(proj2 (Z.ltb_lt _ 10)) by lia.
    change (digit_of SP <? 10) with false. cbn match. lia. }
  revert Hn. generalize (48 + b :: 48 + d :: SP :: rest). intros l Hn. set (v := 100 * a + 10 * b + d) in *.
  assert (a = 1 \/ a = 2 \/ a = 3 \/ a = 4 \/ a = 5 \/ a = 6 \/ a = 7 \/ a = 8 \/ a = 9) as Hc by lia.
  assert ((UINT64_MAX <? v) = false) as Hv by (apply Z.ltb_ge; unfold v, UINT64_MAX; lia).
  unfold strtoull0. destruct Hc as [-> | [-> | [-> | [-> | [-> | [-> | [-> | [-> | ->]]]]]]]];
    (match goal with |- context [span is_space ?s] => change (span is_space s).2 with (tail s) end); cbn [tail]; cbn zeta;
    (match goal with |- context [48 + ?x :: l] => let y := eval vm_compute in (48 + x) in change (48 + x) with y in *; cbn match end);
    rewrite Hn, Hv; reflexivity.
Qed.

Lemma code_split c : 100 <= c <= 999 -> 1 <= c / 100 <= 9 /\ 0 <= c / 10 mod 10 <= 9 /\ 0 <= c mod 10 <= 9 /\
  100 * (c / 100) + 10 * (c / 10 mod 10) + c mod 10 = c.
Proof. intros Hc. Z.to_euclidean_division_equations. lia. Qed.

Lemma status_plain p : ok_response p -> Forall plain (status_line p).
Proof.
  intros (Hm & _ & Hc & Hr & _). destruct (code_split _ Hc) as (Ha & Hb & Hd & _).
  assert (forall x, 0 <= x <= 9 -> plain (48 + x)) as Hx.
  { intros x ?. unfold plain, is_byte, CR, LF. lia. }
  unfold status_line, code_digits. apply Forall_app. split; [by repeat constructor|].
  constructor; [done|]. constructor; [done|]. apply Forall_app. split; [repeat constructor; apply Hx; lia|]. by constructor.
Qed.

Lemma response_flavor_ok p hs : ok_response p ->
  response_flavor (status_line p ++ crlf ++ lines hs) = Some (bytes_of "1." ++ [p_minor p]).
Proof.
  intros Hp. pose proof (status_plain p Hp) as Hs. destruct Hp as ((_ & _ & Hcr & Hlf) & Hsp & _).
  unfold response_flavor. cbv beta zeta. rewrite strtok_start by done. unfold status_line.
  change (bytes_of "HTTP/1." ++ p_minor p :: SP :: code_digits (p_code p) ++ SP :: p_reason p)
    with ((bytes_of "HTTP/1." ++ [p_minor p]) ++ SP :: code_digits (p_code p) ++ SP :: p_reason p).
  rewrite (strtok_first _ (bytes_of "HTTP/1." ++ [p_minor p])); [|done| |done].
  - change (bytes_of "HTTP/1." ++ [p_minor p]) with (bytes_of "HTTP" ++ SLASH :: bytes_of "1." ++ [p_minor p]).
    rewrite strtok_first by (done || by repeat constructor). rewrite strtok_last; [done|done|by repeat constructor].
  - repeat constructor. by apply Z.eqb_neq.
Qed.

Lemma status_text_ok p : ok_response p -> status_text (p_reason p ++ crlf ++ lines (p_headers p)) = Def (text (p_reason p)).
Proof.
  intros (_ & _ & _ & Hr & Hne & Hh). apply plain_line in Hr as [Hr _].
  assert (forall l : list Z, Forall (fun c => is_crlf c = false) l -> Forall (fun c => negb (is_crlf c) = true) l) as Hneg.
  { intros l Hl. refine (List.Forall_impl _ _ Hl). by intros c ->. }
  destruct (p_reason p) as [|c l].
  - destruct Hh as [|h hs Hh _]; [by destruct Hne|]. unfold status_text. cbn [app crlf lines map concat].
    assert (Forall plain (line_of h)) as Hl by (by apply plain_line_of). apply plain_line in Hl as [Hl _].
    assert (line_of h <> []) as Hn by (by unfold line_of; destruct h.1).
    destruct (line_of h) as [|x line] eqn:Hx; [done|]. inversion Hl as [|? ? Hc Hl']; subst.
    cbn [span]. change (is_crlf CR) with true. change (is_crlf LF) with true. cbn match. cbn [app span]. rewrite Hc. cbn [snd].
    cbn [span]. rewrite Hc. cbn [negb]. rewrite <- app_assoc. rewrite span_stop; [done|by apply Hneg|done].
  - inversion Hr as [|? ? Hc Hl]; subst. unfold status_text. cbn [app]. cbn [span]. rewrite Hc. cbn [snd span negb]. rewrite Hc. cbn [negb].
    change (crlf ++ lines (p_headers p)) with (CR :: LF :: lines (p_headers p)). rewrite span_stop; [done|by apply Hneg|done].
Qed.

Lemma leftmost_start needle hay hlen r : StrSearch.leftmost needle hay hlen r -> StrSearch.occurs_at needle hay hlen 0 -> r = 0.
Proof. intros [[_ Hn]|[Ho Hl]] H0; [by destruct (Hn 0)|]. destruct (decide (0 < r)); [by destruct (Hl 0)|]. destruct Ho. lia. Qed.

Lemma getHttpStatus_ok (s : hs (T := T)) p block len : ok_response p -> holds_text block len (response_bytes p) ->
  len < 2 ^ 31 -> g_http_status s = StrSearch.searchComp true true (Some (bytes_of HTTP_STATUS)) ->
  getHttpStatus s block len = Def (p_code p, Some 13).
Proof.
  intros Hp Ht Hlen Hs. pose proof (status_plain p Hp) as Hpl. apply plain_line in Hpl as (_ & Hnz & Hby).
  destruct Hp as (_ & _ & Hc & Hr & _ & Hh). pose proof Ht as [Hl Hb].
  assert (Forall (fun c => c <> 0) (response_bytes p) /\ is_bytes (response_bytes p)) as [Hz Hbytes].
  { unfold response_bytes. split; apply Forall_app; (split; [done|]); apply Forall_app; (split; [by repeat constructor|]);
      refine (List.Forall_impl _ _ (lines_plain _ Hh)); by intros ? []. }
  assert (StrSearch.searchExec (g_http_status s) (Some block) (i32 len) = 0) as Hix.
  { rewrite Hs. destruct (StrSearch.searchComp_compiled (bytes_of HTTP_STATUS) ltac:(by repeat constructor) ltac:(simpl; lia)) as (h & -> & Hcomp).
    rewrite i32_small by lia.
    assert (take (Z.to_nat len) block = response_bytes p ++ [0]) as Htake by (rewrite <- Hb; f_equal; lia).
    assert (length (take (Z.to_nat len) block) = Z.to_nat len) as Hlt by (rewrite Htake, length_app; cbn [length]; lia). rewrite length_take in Hlt.
    pose proof (StrSearch.searchExec_prefix (bytes_of HTTP_STATUS) h block len Hcomp) as L. rewrite Htake in L.
    eapply leftmost_start; [apply L; [|lia]|].
    - apply Forall_app. split; [done|by repeat constructor].
    - unfold StrSearch.occurs_at. split_and!; [lia| |done]. rewrite Hl. unfold response_bytes, status_line. rewrite !length_app. simpl. lia. }
  unfold getHttpStatus. rewrite Hix. change (Z.of_nat (String.length HTTP_STATUS)) with 7. cbn [Z.eqb]. change (0 =? -1) with false. cbn match.
  assert (9 <= Z.of_nat (length (response_bytes p))) as H9 by (unfold response_bytes, status_line; rewrite !length_app; simpl; lia).
  rewrite (proj2 (Z.ltb_ge _ _)) by lia. rewrite (block_string_at_holds _ _ _ _ Ht Hz) by lia. cbn [mbind ub_bind].
  destruct (code_split _ Hc) as (Ha & Hb' & Hd & Hcode).
  change (drop (Z.to_nat (0 + 7 + 1)) (response_bytes p))
    with (SP :: 48 + p_code p / 100 :: 48 + p_code p / 10 mod 10 :: 48 + p_code p mod 10 :: SP :: p_reason p ++ crlf ++ lines (p_headers p)).
  rewrite number_digits by lia. rewrite Hcode. cbn [orb]. rewrite (proj2 (Z.eqb_neq (p_code p) 0)) by lia. done.
Qed.

(** ** The store *)

Definition waits (o : option http_map) (w : option (request * Z)) : Prop :=
  match o, w with
  | Some m, Some (q, start) => start_time m = start /\ holds_text (req m) (req_len m) (request_bytes q) /\ ok_request q
  | None, None => True
  | _, _ => False
  end.

(** The globals of the thread hold the state of the specification, and there is
    memory. *)
Record ready (s : hs (T := T)) (x : spec_state) : Prop := mkReady {
  rd_al : hs_al s = [];
  rd_status : g_http_status s = StrSearch.searchComp true true (Some (bytes_of HTTP_STATUS));
  rd_agg : g_http_agg s = Some x.2;
  rd_store : exists st M, g_httpmatch s = Some st /\ HttpMatch.holds st M /\ forall uid, waits (M !! uid) (x.1 !! uid);
}.

Lemma alloc_ready s x : ready s x -> h_alloc s = (true, s).
Proof. intros [Ha _ _ _]. unfold h_alloc. rewrite Ha. destruct s. simpl in *. by subst. Qed.
Lemma get_ready s x uid : ready s x -> waits (HttpMatch.httpReqGet (g_httpmatch s) uid) (x.1 !! uid).
Proof. intros [_ _ _ (st & M & Hm & [_ Hg] & Hw)]. rewrite Hm. unfold HttpMatch.httpReqGet. rewrite Hg. apply Hw. Qed.

Lemma send_ready o s x : ready s x -> ready (send_http o s) x.
Proof. by intros []. Qed.

Lemma save_ready now proto q s w a : ready s (w, a) -> w !! uid_of proto = None ->
  holds_text (HttpState.post_hdr (HttpState.proto_data proto)) (HttpState.proto_len proto) (request_bytes q) -> ok_request q ->
  let m := mkHttpMap now (HttpState.start_duration (HttpState.proto_data proto)) (HttpState.post_id (HttpState.proto_data proto))
             (HttpState.post_hdr (HttpState.proto_data proto)) (HttpState.proto_len proto) in
  exists s', save_request now proto s = (Some m, s') /\ http_sent s' = http_sent s /\
    ready s' (<[uid_of proto := (q, HttpState.start_duration (HttpState.proto_data proto))]> w, a).
Proof.
  intros R Hn Ht Hq m. unfold save_request. rewrite (alloc_ready _ _ R). cbn [negb]. fold m. cbn zeta.
  pose proof R as [Ra Rs Rg (st & M & Hm & Hh & Hw)]. rewrite Hm. rewrite bool_decide_eq_true_2 by eauto. rewrite (alloc_ready _ _ R).
  destruct (HttpMatch.save_holds st M m (uid_of proto) (hid_sockfd (HttpState.post_id (HttpState.proto_data proto))) Hh) as (st' & Hsave & Hh').
  assert (M !! uid_of proto = None) as HM.
  { pose proof (Hw (uid_of proto)) as Hx. simpl in Hx. rewrite Hn in Hx. by destruct (M !! uid_of proto). }
  rewrite HM in Hsave, Hh'. rewrite bool_decide_eq_true_2 in Hsave by done.
  assert (HttpMatch.httpReqSave true (g_httpmatch s) (Some m) = (true, Some st')) as -> by (rewrite Hm; exact Hsave).
  eexists. split; [reflexivity|]. split; [done|]. constructor; [done..|]. exists st', (<[uid_of proto := m]> M). split_and!; [done..|].
  intros uid. simpl. destruct (decide (uid = uid_of proto)) as [->|Hne].
  - rewrite !lookup_insert_eq. done.
  - rewrite !lookup_insert_ne by done. apply Hw.
Qed.

Lemma delete_ready uid s w a : ready s (w, a) ->
  ready (let '(_, m, _) := HttpMatch.httpReqDelete (g_httpmatch s) uid in set_match s m) (delete uid w, a).
Proof.
  intros [Ra Rs Rg (st & M & Hm & Hh & Hw)]. unfold HttpMatch.httpReqDelete. rewrite Hm.
  destruct (HttpMatch.delete_holds st M uid Hh) as (st' & -> & Hh'). constructor; [done..|].
  exists st', (delete uid M). split_and!; [done..|]. intros id. simpl. destruct (decide (id = uid)) as [->|Hne].
  - by rewrite !lookup_delete_eq.
  - rewrite !lookup_delete_ne by done. apply Hw.
Qed.
Lemma delete_sent uid (s : hs (T := T)) :
  http_sent (let '(_, m, _) := HttpMatch.httpReqDelete (g_httpmatch s) uid in set_match s m) = http_sent s.
Proof. by destruct (HttpMatch.httpReqDelete _ _) as [[]]. Qed.

Lemma metric_ready name d fields rq rp s w a : ready s (w, a) ->
  ready (add_metric name d fields rq rp s) (w, with_metric a (HttpAgg.mkMetric (int_event name d DELTA_MS fields) rq rp)) /\
  http_sent (add_metric name d fields rq rp s) = http_sent s.
Proof. intros R. unfold add_metric. pose proof R as [Ra Rs Rg Rst]. rewrite Rg, !(alloc_ready _ _ R). done. Qed.

(** ** The steps *)

Definition stepped (s : hs (T := T)) (r : ub hs) (o : list http_out) (x : spec_state) : Prop :=
  exists s', r = Def s' /\ ready s' x /\ http_sent s' = http_sent s ++ o.

Lemma request_fields m q start proto s x : ready s x -> waits (Some m) (Some (q, start)) ->
  request_part (Some m) proto s =
  if HttpState.ptype proto =? HttpState.EVT_HREQ
  then Def (Some (spec_request q ++ [strfield "http_flavor" (Some (text (q_version q))) 1; scheme proto]),
            send_http (HFields (http_event "http.req" (HttpState.proto_len proto)
              ((spec_request q ++ [strfield "http_flavor" (Some (text (q_version q))) 1; scheme proto])
               ++ spec_fields "http_request_content_length" (q_headers q) ++ httpFieldsInternal proto)) (uid_of proto)) s)
  else Def (Some (spec_request q ++ [scheme proto]), s).
Proof.
  intros R (_ & Ht & Hq). unfold request_part. rewrite !(alloc_ready _ _ R). cbn [negb andb].
  destruct (request_plain q Hq) as (Hne & Hp & Hz).
  rewrite (block_string_holds _ _ _ Ht Hz). cbn [mbind ub_bind]. unfold request_bytes. rewrite request_line_ok by done.
  destruct (HttpState.ptype proto =? HttpState.EVT_HREQ); [|done].
  rewrite (httpFields_ok _ _ _ (request_start q) (q_headers q) "http_request_content_length") by (done || apply Hq). done.
Qed.

Lemma request_step now proto q s w a : ready s (w, a) -> w !! uid_of proto = None -> carries proto (Request q) -> ok_request q ->
  stepped s (doProtocolMetric now proto s) (spec_input (IMessage now proto (Request q)) (w, a)).1 (spec_input (IMessage now proto (Request q)) (w, a)).2.
Proof.
  intros R Hu (Ht & _ & Hty) Hq. unfold doProtocolMetric, doHttp1Header. rewrite Hty. change (_ || _) with true. cbn match. cbn zeta.
  rewrite Z.eqb_refl. pose proof (get_ready _ _ (uid_of proto) R) as Hw. simpl in Hw. rewrite Hu in Hw. unfold uid_of in Hw.
  cbn [spec_input]. destruct (HttpMatch.httpReqGet _ _) as [m|]; [done|].
  destruct (save_ready now proto q s w a R Hu Ht Hq) as (s' & -> & Hs & R'). cbn zeta.
  rewrite bool_decide_eq_true_2 by eauto. cbn [negb].
  rewrite (request_fields _ q (HttpState.start_duration (HttpState.proto_data proto)) _ _ _ R') by done. rewrite Hty, Z.eqb_refl. cbn [mbind ub_bind].
  change (HttpState.EVT_HREQ =? HttpState.EVT_HRES) with false. cbn match. eexists. split; [reflexivity|].
  split; [by apply send_ready|]. simpl. by rewrite Hs.
Qed.

(** What is known of the request that waits. *)
Lemma waiting_first map w proto s x : ready s x -> waits map w -> HttpState.ptype proto = HttpState.EVT_HRES ->
  request_part map proto s = Def (Some (match w with Some (q, _) => spec_request q ++ [scheme proto] | None => [] end), s).
Proof.
  intros R Hw Hty. destruct map as [m|], w as [[q0 t0]|]; try done. by rewrite (request_fields _ _ _ _ _ _ R Hw), Hty.
Qed.
Lemma waiting_headers map w : waits map w ->
  match map with Some map => httpFields HttpState.EVT_HREQ (req map) (req_len map) | None => Def ([], SIZE_MAX) end =
  Def (match w with Some (q, _) => spec_fields "http_request_content_length" (q_headers q) | None => [] end,
       match w with Some (q, _) => spec_length (q_headers q) SIZE_MAX | None => SIZE_MAX end).
Proof.
  intros Hw. destruct map as [m|], w as [[q0 t0]|]; try done. destruct Hw as (_ & Hq & Hok).
  destruct (request_plain q0 Hok) as (? & ? & _).
  by rewrite (httpFields_ok _ _ _ (request_start q0) (q_headers q0) "http_request_content_length") by (done || apply Hok).
Qed.
Lemma waiting_duration map w proto : waits map w ->
  match map with
  | Some map => getDurationNow (HttpState.start_duration (HttpState.proto_data proto)) (start_time map) / 1000000
  | None => 0
  end = spec_duration proto w.
Proof. intros Hw. destruct map as [m|], w as [[q0 t0]|]; try done. by destruct Hw as (<- & _). Qed.

(** What is read of the response. *)
Lemma response_nonzero p : ok_response p -> Forall (fun c => c <> 0) (response_bytes p).
Proof.
  intros Hp. unfold response_bytes. apply Forall_app. split; [by apply plain_line, status_plain|].
  apply Forall_app. split; [by repeat constructor|]. refine (List.Forall_impl _ _ (lines_plain _ _)); [by intros c []|apply Hp].
Qed.
Lemma reason_read p block len : ok_response p -> holds_text block len (response_bytes p) ->
  (rest ← block_string_at block len 13; status_text rest) = Def (text (p_reason p)).
Proof.
  intros Hp Ht. rewrite (block_string_at_holds _ _ _ 13 Ht (response_nonzero p Hp))
    by (unfold response_bytes, status_line; rewrite !length_app; simpl; lia).
  change (drop (Z.to_nat 13) (response_bytes p)) with (p_reason p ++ crlf ++ lines (p_headers p)). by apply status_text_ok.
Qed.

Lemma response_part_ok map proto p s w a : ready s (w, a) -> waits map (w !! uid_of proto) ->
  carries proto (Response p) -> ok_response p -> HttpState.isServer proto = true ->
  response_part map (match w !! uid_of proto with Some (q, _) => spec_request q ++ [scheme proto] | None => [] end) proto s =
  let s := send_http (response_event proto p (w !! uid_of proto)) s in
  let m := response_metric proto p (w !! uid_of proto) in
  let s := if mtcEnabled && mtcWatch CFG_MTC_HTTP
           then add_metric (duration_name (HttpState.isServer proto)) (spec_duration proto (w !! uid_of proto))
                  (take (HTTP_MAX_FIELDS - 1) (response_fields proto p (w !! uid_of proto))) (HttpAgg.m_req m) (HttpAgg.m_resp m) s
           else s in
  Def (match map with
       | Some _ => let '(_, m, _) := HttpMatch.httpReqDelete (g_httpmatch s) (uid_of proto) in set_match s m
       | None => s
       end).
Proof.
  intros R Hw (Ht & Hlen & Hty) Hp Hsv. unfold response_part. rewrite !(alloc_ready _ _ R). cbn [negb andb].
  pose proof Ht as [Hl _]. simpl in Ht, Hlen, Hl.
  rewrite (getHttpStatus_ok s p) by (done || lia || apply R). cbn [mbind ub_bind].
  rewrite (block_string_holds _ _ _ Ht (response_nonzero p Hp)). cbn [mbind ub_bind].
  pose proof (reason_read p _ _ Hp Ht) as Hr. cbn [mbind] in Hr. rewrite Hr. cbn [mbind ub_bind]. clear Hr.
  rewrite (waiting_headers _ _ Hw), (waiting_duration _ _ _ Hw). cbn [mbind ub_bind].
  rewrite (httpFields_ok _ _ _ (status_line p) (p_headers p) "http_response_content_length");
    [|done|by apply status_plain|apply Hp|done|done]. cbn [mbind ub_bind].
  unfold response_bytes. rewrite response_flavor_ok by done. unfold response_event, response_metric, response_fields, uid_of. rewrite Hsv.
  by destruct (w !! _) as [[q0 t0]|]; cbn [attrib app HttpAgg.m_req HttpAgg.m_resp]; rewrite <- ?app_assoc.
Qed.

Lemma response_step now proto p s w a : ready s (w, a) -> carries proto (Response p) -> ok_response p -> HttpState.isServer proto = true ->
  stepped s (doProtocolMetric now proto s) (spec_input (IMessage now proto (Response p)) (w, a)).1 (spec_input (IMessage now proto (Response p)) (w, a)).2.
Proof.
  intros R Hc Hp Hsv. pose proof Hc as (_ & _ & Hty). unfold doProtocolMetric, doHttp1Header. rewrite Hty. change (_ || _) with true. cbn match. cbn zeta.
  change (HttpState.EVT_HRES =? HttpState.EVT_HREQ) with false. cbn match. cbn [negb].
  pose proof (get_ready _ _ (uid_of proto) R) as Hw. simpl in Hw. change (hid_uid (HttpState.post_id (HttpState.proto_data proto))) with (uid_of proto).
  set (map := HttpMatch.httpReqGet _ _) in *. cbn [spec_input].
  rewrite (waiting_first _ _ _ _ _ R Hw Hty). cbn [mbind ub_bind]. change (HttpState.EVT_HRES =? HttpState.EVT_HRES) with true. cbn match.
  rewrite (response_part_ok _ _ _ _ _ a) by done. cbn zeta.
  set (s1 := send_http _ s). assert (ready s1 (w, a)) as R1 by (by apply send_ready).
  match goal with |- context [if ?b then ?x else s1] => set (s2 := if b then x else s1) end.
  set (a2 := if mtcEnabled && mtcWatch CFG_MTC_HTTP then with_metric _ _ else a).
  assert (ready s2 (w, a2) /\ http_sent s2 = http_sent s1) as [R2 S2].
  { subst s2 a2. destruct (mtcEnabled && _); [by apply metric_ready|done]. }
  clearbody s2. eexists. split; [reflexivity|].
  assert (http_sent s2 = http_sent s ++ [response_event proto p (w !! uid_of proto)]) as Hs2 by (by rewrite S2).
  destruct map as [m|], (w !! uid_of proto) as [[q0 t0]|] eqn:Hu; try done; cbn [fst snd].
  - split; [by apply delete_ready|]. by rewrite delete_sent.
  - by rewrite delete_id.
Qed.

(** One input, and all of them. *)
Lemma input_step i s w a : ready s (w, a) -> ok_input i -> in_turn i (dom w) -> stepped s (exec_input i s) (spec_input i (w, a)).1 (spec_input i (w, a)).2.
Proof.
  intros R Hi Ht. destruct i as [now proto [q|p]|uid|].
  - by apply request_step; [|apply not_elem_of_dom|apply Hi..].
  - by apply response_step; [|apply Hi..].
  - exists (release uid s). split; [done|]. unfold release.
    pose proof (delete_ready uid s w a R) as R'. pose proof (delete_sent uid s) as S'.
    destruct (HttpMatch.httpReqDelete _ _) as [[b m] f]. destruct (HttpMatch.channelDelete _ _) as [[b' c] freed].
    destruct R'. split; [by constructor|]. simpl. by rewrite app_nil_r.
  - exists (doHttpAgg s). split; [done|]. unfold doHttpAgg. pose proof R as [Ra Rs Rg Rst]. simpl in Rg. rewrite Rg.
    cbn [spec_input fst snd]. destruct (_ && _); (split; [by constructor|]); simpl; by rewrite ?app_nil_r.
Qed.

Lemma busy_dom i w a : dom (spec_input i (w, a)).2.1 = busy i (dom w).
Proof. destruct i as [now proto [q|p]|uid|]; simpl; rewrite ?dom_insert_L, ?dom_delete_L; done. Qed.

Lemma inputs_run l s w a : ready s (w, a) -> Forall ok_input l -> turns l (dom w) ->
  exists s', exec_inputs l s = Def s' /\ http_sent s' = http_sent s ++ spec_inputs l (w, a).
Proof.
  intros R Hl. revert s w a R. induction Hl as [|i l Hi _ IH]; intros s w a R Ht; cbn [exec_inputs spec_inputs].
  { exists s. by rewrite app_nil_r. }
  destruct Ht as [Ht Hts]. destruct (input_step i s w a R Hi Ht) as (s1 & -> & R1 & S1). cbn [mbind ub_bind].
  rewrite <- (busy_dom i w a) in Hts. destruct (spec_input i (w, a)) as [o [w1 a1]]. cbn [fst snd] in *.
  destruct (IH s1 w1 a1 R1 Hts) as (s' & H' & S'). exists s'. split; [done|]. by rewrite S', S1, app_assoc.
Qed.

Lemma init_ready net extra qlen : ready (initReporting true true true true true true (Some net) (Some extra) qlen [])
  (∅, HttpAgg.mkAgg [] HttpAgg.DEFAULT_TARGET_LEN).
Proof.
  constructor; [done..|]. destruct (HttpMatch.create_holds (D := http_map) net extra qlen) as (st & Hc & Hh & _).
  exists st, ∅. split_and!; [done..|]. intros uid. simpl. by rewrite !lookup_empty.
Qed.

(** For every sequence of well-formed HTTP/1 messages on any sockets - one request
    at a time on each, and the responses are sent by the process -, of closed
    connections and of periods, the reporting thread - started with memory - runs
    without undefined behaviour and sends what the specification says: each
    request once, with its method, target, version and headers; each response
    once, with its status, with the fields of the request that waits on its socket
    and with the time since that request; and in every period the aggregation of
    the responses. *)
Theorem http1_pairs_reported net extra qlen l : Forall ok_input l -> turns l ∅ ->
  exists s', exec_inputs l (initReporting true true true true true true (Some net) (Some extra) qlen []) = Def s' /\
    http_sent s' = spec_inputs l (∅, HttpAgg.mkAgg [] HttpAgg.DEFAULT_TARGET_LEN).
Proof. intros Hl Ht. apply (inputs_run l _ _ _ (init_ready net extra qlen) Hl). by rewrite dom_empty_L. Qed.

End Pairs.
End HttpPairs.
