(* ===== verification/HttpExchange.v ===== *)
(** * From the wire to the reports (src/httpstate.c, src/report.c)

    The parser of [HttpState] posts the header block of a message that arrives in
    any number of buffers; the reporting thread of [HttpReport] turns the event
    into a report.  Here the two are put together: what is reported of a message
    is what the specification of [HttpPairs] says of the bytes that were sent. *)

From S2P Require Import Prelude Types StrSearch HttpState HttpSafety HttpFrames HttpHeaders HttpMatch HttpAgg CJson CfgParse StateData State Report HttpReport HttpPairs Session.

Module HttpExchange.
Import StateData State Report HttpReport HttpPairs.

#[local] Open Scope Z_scope.

(** ** The block of a message *)

Lemma response_start p : HttpHeaders.is_response (response_bytes p) = true.
Proof. by apply bool_decide_eq_true. Qed.

(** A request is not taken for a response. *)
Lemma request_start_differs q : word (q_method q) -> take 5 (q_method q) <> HttpState.HTTP_START ->
  HttpHeaders.is_response (request_bytes q) = false.
Proof.
  intros [_ Hw] Hm. apply bool_decide_eq_false. unfold request_bytes, request_start. rewrite <- app_assoc. intros Ht.
  destruct (decide (5 <= length (q_method q))%nat) as [Hl|Hl]; [rewrite take_app_le in Ht by done; by destruct Hm|].
  apply (f_equal (.!! length (q_method q))) in Ht. rewrite lookup_take_lt, lookup_app_r, Nat.sub_diag in Ht by lia. cbn in Ht.
  destruct (length (q_method q)) as [|[|[|[|[|]]]]]; try discriminate Ht; lia.
Qed.

Lemma carried i m p : ok_message m -> HttpHeaders.header_event i (bytes_of_message m) p ->
  match m with Request q => take 5 (q_method q) <> HttpState.HTTP_START | Response _ => True end ->
  Z.of_nat (length (bytes_of_message m)) + 1 < 2 ^ 31 -> carries p m.
Proof.
  intros Hok [] Hm Hl. split; [by split|]. split; [done|]. rewrite he_ptype. destruct m as [q|r]; cbn [bytes_of_message].
  - by rewrite request_start_differs by (done || apply Hok).
  - by rewrite response_start.
Qed.

(** ** The blank line *)

(** Lines with their ends. *)
Definition ended (ls : list (list Z)) : list Z := concat (map (fun l => l ++ crlf) ls).

Lemma plain_not_crlf l i : Forall plain l -> l !! i <> Some CR /\ l !! i <> Some LF.
Proof. intros Hl. split; intros Hi; by destruct (Forall_lookup_1 _ _ _ _ Hl Hi) as (_ & _ & ? & ?). Qed.

Lemma ended_no_blank ls : Forall (fun l => l <> [] /\ Forall plain l) ls -> HttpHeaders.no_blank (ended ls).
Proof.
  intros Hls. induction Hls as [|l ls [Hne Hl] Hls IH]; intros a b.
  { by destruct a. }
  unfold ended. cbn [map concat]. fold (ended ls). rewrite <- app_assoc. intros Heq.
  destruct (decide (length l + 2 <= length a)%nat) as [Hla|Hla].
  - apply (IH (drop (length l + 2) a) b). rewrite <- (drop_app_le a) by done. rewrite <- Heq, app_assoc.
    replace (length l + 2)%nat with (length (l ++ crlf)) by (by rewrite length_app). by rewrite drop_app_length.
  - assert (forall i, (l ++ crlf ++ ended ls) !! (length a + i)%nat = (HttpState.CRLF ++ HttpState.CRLF ++ b) !! i) as Hx.
    { intros i. rewrite Heq, lookup_app_r by lia. f_equal. lia. }
    destruct (decide (length a < length l)%nat) as [Hlt|Hge].
    + specialize (Hx 0%nat). rewrite Nat.add_0_r, lookup_app_l in Hx by done. by destruct (plain_not_crlf l (length a) Hl).
    + destruct (decide (length a = length l)) as [Hal|Hal].
      * specialize (Hx 2%nat). rewrite Hal, lookup_app_r in Hx by lia. replace (length l + 2 - length l)%nat with 2%nat in Hx by lia.
        cbn in Hx. destruct Hls as [|l1 ls [Hn1 Hl1] _]; [done|]. destruct l1 as [|x l1]; [done|]. cbn in Hx.
        destruct (plain_not_crlf (x :: l1) 0 Hl1) as [Hc _]. by destruct Hc.
      * specialize (Hx 0%nat). rewrite lookup_app_r in Hx by lia. replace (length a + 0 - length l)%nat with 1%nat in Hx by lia. done.
Qed.

Lemma lines_ended hs : lines hs = ended (map line_of hs).
Proof. unfold lines, ended. by rewrite map_map. Qed.

Lemma message_no_blank m : ok_message m -> HttpHeaders.no_blank (bytes_of_message m).
Proof.
  assert (forall first hs, first <> [] -> Forall plain first -> Forall ok_header hs -> HttpHeaders.no_blank (first ++ crlf ++ lines hs)) as G.
  { intros first hs Hn Hf Hh. rewrite lines_ended. assert (first ++ crlf ++ ended (map line_of hs) = ended (first :: map line_of hs)) as ->.
    { unfold ended. cbn [map concat]. by rewrite <- app_assoc. }
    apply ended_no_blank. constructor; [done|]. apply Forall_map. refine (List.Forall_impl _ _ Hh). intros h Hk.
    split; [by unfold line_of; destruct h.1|by apply plain_line_of]. }
  destruct m as [q|p]; intros Hok; cbn [bytes_of_message].
  - destruct (request_plain q Hok) as (? & ? & _). apply G; [done..|apply Hok].
  - apply G; [done|by apply status_plain|apply Hok].
Qed.

(** ** The composition *)

Section Exchange.
Context `{E : Env} `{P : Proc} `{H : HttpEnv} `{Dbl : CJson.Double} {T : Type}.

Definition at_start (net : list HttpMatch.net_info) (extra : T) (qlen : option (bool * Z)) : hs (T := T) :=
  initReporting true true true true true true (Some net) (Some extra) qlen [].

Lemma turns_snoc l b i : turns l b -> in_turn i (foldl (fun b i => busy i b) b l) -> turns (l ++ [i]) b.
Proof. revert b. induction l as [|j l IH]; intros b; [done|]. intros [Hj Hl] Hi. split; [done|]. by apply IH. Qed.


End Exchange.

(** ** An exchange *)

Module Demo.

#[export] Existing Instance Session.Demo.env.
#[export] Existing Instance Session.Demo.proc.
#[export] Existing Instance CJson.integral.

(** No header is configured, no frame is decoded. *)
#[export] Instance http : HttpEnv := mkHttpEnv [] None None None unit tt (fun d _ => HError d).

Definition demo_id : httpId_t := mkHttpId 7 5 false HttpState.NETRX.
Definition block (m : message) : list Z := bytes_of_message m ++ [0].
Definition event_of (m : message) (at_ : Z) : HttpState.protocol_info :=
  HttpState.mkProto HttpState.EVT_PROTO (match m with Request _ => HttpState.EVT_HREQ | Response _ => HttpState.EVT_HRES end)
    true (Z.of_nat (length (block m))) 5 7 (HttpState.mkPost false at_ demo_id (block m)) 1 HttpState.ConnUnset HttpState.ConnUnset.

Definition head (n v : string) : header := (bytes_of n, bytes_of v).
Definition get : request := mkRequest (bytes_of "GET") (bytes_of "/a") (bytes_of "1.1") [head "Host" "h"; head "Content-Length" "3"].
Definition ok : response := mkResponse 49 200 (bytes_of "OK") [head "Content-Length" "12"].

Lemma get_well_formed : ok_request get.
Proof. repeat constructor; vm_compute; congruence. Qed.
Lemma ok_well_formed : ok_response ok.
Proof. repeat constructor; try (vm_compute; congruence). Qed.

(** The thread gets the request, the response and the end of a period. *)
Definition story : list input :=
  [IMessage 100 (event_of (Request get) 1000000000) (Request get);
   IMessage 101 (event_of (Response ok) 1012000000) (Response ok); IPeriod].

Lemma event_carries m t : Z.of_nat (length (bytes_of_message m)) + 1 < 2 ^ 31 -> carries (event_of m t) m.
Proof.
  intros Hl. split; [|by destruct m]. unfold holds_text, event_of, block. cbn [HttpState.proto_len HttpState.post_hdr HttpState.proto_data].
  rewrite length_app. split; [cbn [length]; lia|]. rewrite take_ge; [done|]. by rewrite length_app.
Qed.
Lemma story_ok : Forall ok_input story.
Proof.
  constructor; [split; [by apply event_carries|split; [apply get_well_formed|exact I]]|].
  constructor; [split; [by apply event_carries|split; [apply ok_well_formed|reflexivity]]|]. by repeat constructor.
Qed.

Lemma story_turns : turns story ∅.
Proof. split; [set_solver|done]. Qed.

(** What a run sent: the names of the events, and the values of a field. *)
Definition name_of (o : http_out) : string :=
  match o with HFields e _ | HData e _ _ | HMetric e => e_name e end.

Example http1_pairs_reported_witness :
  exists s' : hs (T := unit), exec_inputs story (at_start [] tt None) = Def s' /\
    http_sent s' = spec_inputs story (∅, HttpAgg.mkAgg [] HttpAgg.DEFAULT_TARGET_LEN) /\
    map name_of (http_sent s') = ["http.req"; "http.resp"; "http.req"; "http.duration.server"; "http.req.content_length"; "http.resp.content_length"].
Proof.
  destruct (http1_pairs_reported [] tt None story story_ok story_turns) as (s' & Hr & Hs). exists s'. split; [exact Hr|]. split; [exact Hs|].
  rewrite Hs. vm_compute. reflexivity.
Defined.


End Demo.

End HttpExchange.
