(* ===== verification/H2Pairs.v ===== *)
(** * Messages of HTTP/2 (src/report.c, src/httpmatch.c)

    A frame is given by its fields, and its bytes are what they encode to.  The
    specification of the reports keeps, for every stream of every connection, the
    headers that were seen on it: a request is reported with the members of its
    headers, a response also with the host, method, target and agent that were
    last seen on its stream and with the time since the request.  It says nothing
    of a response without a request and of texts and numbers that do not fit
    where they are kept.  The theorem is that [doHttp2Frame], with the store of
    channels, the streams in them and the document it builds, sends the same for
    every sequence of frames for which the specification says something. *)

From S2P Require Import Prelude Types StrSearch HttpState HttpMatch HttpAgg CJson EvtFormat StateData State Report HttpReport Session.

Module H2Pairs.
Import StateData State Report HttpReport.

#[local] Open Scope Z_scope.
#[local] Notation last := list_basics.list.last.
#[local] Notation filter := base.filter.

(** ** Frames *)

(** [Headers], [Promise] of a stream, and [Continued]. *)
Inductive kind := Headers | Promise (associated : Z) | Continued.
Record h2frame := mkFrame {
  fr_kind : kind;
  fr_stream : Z;                       (* the stream of the message *)
  fr_end_stream : bool;
  fr_end : bool;                       (* END_HEADERS *)
  fr_padding : option (list Z);
  fr_priority : option (list Z);
  fr_block : list Z;
}.

Definition is_promise (f : h2frame) : bool := match fr_kind f with Promise _ => true | _ => false end.
Definition type_of (f : h2frame) : Z := match fr_kind f with Headers => 1 | Promise _ => 5 | Continued => 9 end.
Definition flags_of (f : h2frame) : Z :=
  Z.b2z (fr_end_stream f) + 4 * Z.b2z (fr_end f) + 8 * Z.b2z (bool_decide (is_Some (fr_padding f)))
  + 32 * Z.b2z (bool_decide (is_Some (fr_priority f))).
Definition be4 (n : Z) : list Z := [n / 2 ^ 24; n / 2 ^ 16 mod 256; n / 2 ^ 8 mod 256; n mod 256].

(** What lies before the header block in the payload. *)
Definition before_block (f : h2frame) : list Z :=
  match fr_padding f with Some p => [Z.of_nat (length p)] | None => [] end
  ++ default [] (fr_priority f) ++ (if is_promise f then be4 (fr_stream f) else []).
Definition payload_of (f : h2frame) : list Z := before_block f ++ fr_block f ++ default [] (fr_padding f).
Definition stream_field (f : h2frame) : Z := match fr_kind f with Promise a => a | _ => fr_stream f end.
Definition frame_head (f : h2frame) : list Z :=
  let n := Z.of_nat (length (payload_of f)) in
  [n / 2 ^ 16; n / 2 ^ 8 mod 256; n mod 256; type_of f; flags_of f] ++ be4 (stream_field f).
Definition encode (f : h2frame) : list Z := frame_head f ++ payload_of f.

Definition is_stream (n : Z) : Prop := 0 <= n < 2 ^ 31.
Definition ok_frame (f : h2frame) : Prop :=
  is_stream (fr_stream f) /\ is_stream (stream_field f) /\ Z.of_nat (length (payload_of f)) < 2 ^ 24 /\
  match fr_priority f with Some p => length p = 5%nat /\ is_promise f = false | None => True end.

(** The event of a frame, as the parser posts it. *)
Definition carries_frame (proto : HttpState.protocol_info) (f : h2frame) : Prop :=
  HttpState.ptype proto = HttpState.EVT_H2FRAME /\
  HttpState.proto_len proto = Z.of_nat (length (encode f)) /\
  take (length (encode f)) (HttpState.post_hdr (HttpState.proto_data proto)) = encode f.

(** ** Reading a frame *)

Lemma bit_flags f : bit (flags_of f) 8 = bool_decide (is_Some (fr_padding f)) /\
  bit (flags_of f) 32 = bool_decide (is_Some (fr_priority f)) /\ bit (flags_of f) 4 = fr_end f.
Proof. unfold flags_of. by destruct (fr_end_stream f), (fr_end f), (bool_decide _), (bool_decide (is_Some (fr_priority f))). Qed.

Lemma load_nth l i x : l !! i = Some x -> load l (Z.of_nat i) = Def x.
Proof.
  intros Hi. pose proof (lookup_lt_Some _ _ _ Hi). unfold load. rewrite (proj2 (Z.leb_le _ _)) by lia.
  rewrite (proj2 (Z.ltb_lt _ _)) by lia. cbn [andb]. unfold byte_at. rewrite Nat2Z.id. by rewrite Hi.
Qed.
Lemma load4_be pre n post : is_stream n -> load4 (pre ++ be4 n ++ post) (Z.of_nat (length pre)) = Def n.
Proof.
  intros Hn. assert (forall i x, be4 n !! i = Some x -> load (pre ++ be4 n ++ post) (Z.of_nat (length pre + i)) = Def x) as L.
  { intros i x Hi. apply load_nth. rewrite lookup_app_r, Nat.add_comm, Nat.add_sub by lia. by apply lookup_app_l_Some. }
  unfold load4. replace (Z.of_nat (length pre) + 1) with (Z.of_nat (length pre + 1)) by lia.
  replace (Z.of_nat (length pre) + 2) with (Z.of_nat (length pre + 2)) by lia.
  replace (Z.of_nat (length pre) + 3) with (Z.of_nat (length pre + 3)) by lia.
  pose proof (L 0%nat _ eq_refl) as L0. rewrite Nat.add_0_r in L0. rewrite L0, (L 1%nat _ eq_refl), (L 2%nat _ eq_refl), (L 3%nat _ eq_refl).
  cbn [mbind ub_bind]. f_equal. change 127 with (Z.ones 7). rewrite Z.land_ones by lia. unfold is_stream in Hn.
  Z.to_euclidean_division_equations. lia.
Qed.

Lemma fragment_encoded f : ok_frame f ->
  h2_fragment (encode f) (Z.of_nat (length (payload_of f))) (type_of f) (flags_of f) = Def (fr_block f).
Proof.
  intros (_ & _ & _ & Hp). destruct (bit_flags f) as (B1 & B2 & _). unfold h2_fragment. rewrite B1, B2.
  set (pad := Z.of_nat (length (default [] (fr_padding f)))).
  assert ((if bool_decide (is_Some (fr_padding f)) then load (encode f) 9 else Def 0) = Def pad) as ->.
  { subst pad. destruct (fr_padding f) as [p|] eqn:Hpad; [|done]. rewrite bool_decide_eq_true_2 by eauto.
    change 9 with (Z.of_nat 9). apply load_nth. unfold encode, payload_of, before_block. by rewrite Hpad. }
  cbn [mbind ub_bind]. f_equal.
  assert (9 + (if bool_decide (is_Some (fr_padding f)) then 1 else 0) + (if bool_decide (is_Some (fr_priority f)) then 5 else 0)
          + (if type_of f =? 5 then 4 else 0) = 9 + Z.of_nat (length (before_block f))) as ->.
  { unfold before_block, type_of, is_promise in *. rewrite !length_app.
    destruct (fr_padding f), (fr_priority f) as [pr|], (fr_kind f); cbn [default length] in *; try destruct Hp as [-> ?]; try done;
      repeat (rewrite bool_decide_eq_true_2 by eauto); repeat (rewrite bool_decide_eq_false_2 by (by intros [? ?])); simpl; lia. }
  unfold encode. set (pre := frame_head f ++ before_block f).
  replace (Z.to_nat (9 + Z.of_nat (length (before_block f)))) with (length pre) by (subst pre; rewrite length_app; change (length (frame_head f)) with 9%nat; lia).
  unfold payload_of. rewrite !length_app. fold pad.
  match goal with |- take _ (drop _ ?l) = _ => replace l with (pre ++ fr_block f ++ default [] (fr_padding f)) by (subst pre; by rewrite <- !app_assoc) end.
  rewrite drop_app_length. rewrite take_app_length'; [done|]. subst pad. destruct (fr_padding f); cbn [default length]; lia.
Qed.

(** ** Headers *)

(** The part a header plays. *)
Inductive role := Method | Status | Authority | Path | Scheme | Agent | Appview | Forwarded | Length | Other.
#[export] Instance role_eq_dec : EqDecision role.
Proof. solve_decision. Defined.

Definition roles : list (string * role) :=
  [(":method", Method); (":status", Status); (":authority", Authority); (":path", Path); (":scheme", Scheme);
   ("user-agent", Agent); ("x-appview", Appview); ("x-forwarded-for", Forwarded); ("content-length", Length)].
Definition role_of (name : list Z) : role :=
  match List.find (fun x => strcaseeq x.1 (text name)) roles with Some (_, r) => r | None => Other end.

(** A header that was seen, with its time and the message it was part of: 1 a
    request, 2 a response. *)
Record entry := mkEntry {
  en_time : Z; en_message : Z; en_role : role; en_name : list Z; en_val : list Z;
  en_line : string;                    (* name and value, as the expressions see them *)
  en_end : Z;                          (* where the value ends in the output *)
}.

Definition number (e : entry) : option Z := match atoi (en_val e) with Def n => Some n | UB => None end.
Definition is_number (e : entry) : bool := bool_decide (is_Some (number e)).
Definition fits (n : nat) (e : entry) : bool := (length (en_val e) <? n)%nat.

(** The header fits the output, texts fit their arrays, numbers an int. *)
Definition ok_entry (e : entry) : bool :=
  (en_end e <? OUT_SIZE) &&
  match en_role e with
  | Method => fits METHOD_MAX e
  | Status => is_number e
  | Authority => fits HOST_MAX e
  | Path => fits TARGET_MAX e
  | Agent => fits AGENT_MAX e
  | Length => (en_message e =? 0) || is_number e
  | _ => true
  end.

(** The headers of a message, from what is known of it. *)
Fixpoint entries (time k : Z) (hs : list (list Z * list Z * string * Z)) : list entry :=
  match hs with
  | [] => []
  | (n, v, line, last) :: hs =>
      let r := role_of n in
      let k := match r with Method => 1 | Status => 2 | _ => k end in
      mkEntry time k r n v line last :: entries time k hs
  end.
Definition message_of (k : Z) (es : list entry) : Z := from_option en_message k (last es).

(** What was last seen. *)
Definition last_of (r : role) (past : list entry) : option entry := last (filter (fun e => en_role e = r) past).
Definition last_text (r : role) (past : list entry) : string := from_option (fun e => text (en_val e)) "" (last_of r past).
Definition requested (past : list entry) : Z := from_option en_time 0 (last_of Method past).
Definition last_status (past : list entry) : Z := default 0 (last_of Status past ≫= number).
Definition last_length (k : Z) (past : list entry) : Z :=
  default 0 (last (filter (fun e => en_role e = Length /\ en_message e = k) past) ≫= number).

Lemma last_filter_snoc (P : entry -> Prop) `{!forall e, Decision (P e)} past e :
  last (filter P (past ++ [e])) = if decide (P e) then Some e else last (filter P past).
Proof.
  rewrite list_basics.list.filter_app, list_basics.list.filter_cons. destruct (decide (P e)).
  - apply list_basics.list.last_snoc.
  - by rewrite app_nil_r.
Qed.

Section H2.
Context `{E : Env} `{P : Proc} `{H : HttpEnv} `{Dbl : CJson.Double} {T : Type}.

(** ** Members *)

Definition member : Type := list Z * CJson.cJSON.
Definition num_member (field : string) (n : Z) : list member :=
  if isHttp2FieldEnabled field (pretty (i32 n)) then [(bytes_of field, CJson.cJSON_CreateNumber (CJson.of_int (u32 n)))] else [].
Definition str_member (field value : string) : list member :=
  if isHttp2FieldEnabled field value then [(bytes_of field, CJson.cJSON_String (CJson.cstr (bytes_of value)))] else [].

Definition of_header (f : h2frame) (e : entry) : list member :=
  let v := text (en_val e) in
  let n := default 0 (number e) in
  match en_role e with
  | Method => num_member "http_stream" (fr_stream f) ++ str_member "http_method" v
              ++ match fr_kind f with
                 | Headers => str_member "http_frame" "HEADERS" | Promise _ => str_member "http_frame" "PUSH_PROMISE" | Continued => [] end
  | Status => num_member "http_stream" (fr_stream f) ++ num_member "http_status_code" n ++ str_member "http_status_text" (httpStatusCode2Text n)
  | Authority => str_member "http_host" v
  | Path => str_member "http_target" v
  | Scheme => str_member "http_scheme" v
  | Agent => str_member "http_user_agent" v
  | Appview => str_member "x-appview" v
  | Forwarded => str_member "http_client_ip" v
  | Length => if en_message e =? 1 then num_member "http_request_content_length" n
              else if en_message e =? 2 then num_member "http_response_content_length" n else []
  | Other => if existsb (fun re => headerMatch re (en_line e)) header_re
             then [(en_name e, CJson.cJSON_String (CJson.cstr (en_val e)))] else []
  end.

(** The headers of a block, as the decoder yields them. *)
Fixpoint decoded (fuel : nat) (d : lshpack_dec) (block : list Z) : list (list Z * list Z * string * Z) * lshpack_dec :=
  match fuel, block with
  | O, _ | _, [] => ([], d)
  | S fuel, _ =>
      match lshpack_dec_decode d block with
      | HError d => ([], d)
      | HHeader name gap val used d =>
          let '(hs, d) := decoded fuel d (drop (S used) block) in
          ((CJson.cstr name, CJson.cstr val, text (CJson.cstr (name ++ [COLON] ++ gap ++ val)), out_end name gap val) :: hs, d)
      end
  end.

(** ** The specification *)

Definition flavor : list member := [(bytes_of "http_flavor", CJson.cJSON_String (CJson.cstr (bytes_of "2.0")))].

Definition of_socket (proto : HttpState.protocol_info) : list member :=
  let lconn := conn_addr (HttpState.localConn proto) in
  let rconn := conn_addr (HttpState.remoteConn proto) in
  let type := HttpState.sock_type proto in
  if addrIsNetDomain lconn then
    (if (1 <=? type) && (type <=? 5) then str_member "net_transport" ("IP." +:+ getProtocol type) else [])
    ++ from_option (str_member "net_peer_ip") [] (h2_ntop rconn) ++ from_option (str_member "net_host_ip") [] (h2_ntop lconn)
    ++ num_member "net_peer_port" (sin_port rconn) ++ num_member "net_host_port" (sin_port lconn)
  else [].

(** A text of the stream, if there is one. *)
Definition of_last (field : string) (r : role) (past : list entry) : list member :=
  if bool_decide (last_text r past = "") then [] else str_member field (last_text r past).

Definition data_event (name : string) (proto : HttpState.protocol_info) (ms : list member) : list http_out :=
  if isHttp2NameEnabled name
  then [HData (mkEvent name (FMT_INT (i64 (HttpState.proto_len proto))) SET None CFG_SRC_METRIC None) (CJson.cJSON_Object ms) (HttpState.proto_uid proto)]
  else [].

Definition spec_metric (name : string) (duration : Z) (past : list entry) (a : HttpAgg.http_agg_t) : HttpAgg.http_agg_t :=
  let len n := if 0 <? n then n else SIZE_MAX in
  if mtcEnabled && mtcWatch CFG_MTC_HTTP then
    HttpAgg.httpAggAddMetric (HttpAgg.mkMem true true true) a
      (int_event name duration DELTA_MS
         [STRFIELD "http_target" (Some (last_text Path past)) 4 true; NUMFIELD "http_status_code" (last_status past) 1 true])
      (len (last_length 1 past)) (len (last_length 2 past))
  else a.

(** The end of a message of which the headers in [past] and the members [ms] are
    known; nothing is specified for a response without a request. *)
Definition spec_message (proto : HttpState.protocol_info) (past : list entry) (k : Z) (ms : list member) (a : HttpAgg.http_agg_t)
  : option (list http_out * HttpAgg.http_agg_t) :=
  let ms := ms ++ of_socket proto in
  if k =? 1 then Some (data_event "http.req" proto ms, a)
  else if k =? 2 then
    if requested past =? 0 then None else
    let duration := u32 (u64 (HttpState.start_duration (HttpState.proto_data proto) - requested past) / 1000000) in
    let name := duration_name (HttpState.isServer proto) in
    Some (data_event "http.resp" proto
            (ms ++ num_member name duration ++ of_last "http_host" Authority past ++ of_last "http_method" Method past
             ++ of_last "http_target" Path past ++ of_last "http_user_agent" Agent past),
          spec_metric name duration past a)
  else Some ([], a).

(** What was seen on a stream: the headers, and of a message that is not complete
    its type and its members. *)
Record seen := mkSeen { past : list entry; opened : option (Z * list member) }.
Definition new_seen : seen := mkSeen [] None.
Definition connection : Type := lshpack_dec * gmap Z seen.
Definition h2_state : Type := gmap Z connection * HttpAgg.http_agg_t.

Definition spec_frame (proto : HttpState.protocol_info) (f : h2frame) (x : h2_state) : option (list http_out * h2_state) :=
  let '(C, a) := x in
  let uid := HttpState.proto_uid proto in
  let '(d, ss) := default (lshpack_dec_init, ∅) (C !! uid) in
  let y := default new_seen (ss !! fr_stream f) in
  let '(k, ms) := default (0, flavor) (opened y) in
  let es := entries (HttpState.start_duration (HttpState.proto_data proto)) k (decoded (length (fr_block f)) d (fr_block f)).1 in
  let put y := <[uid := ((decoded (length (fr_block f)) d (fr_block f)).2, <[fr_stream f := y]> ss)]> C in
  let ms := ms ++ concat (map (of_header f) es) in
  if negb (forallb ok_entry es) then None else
  if fr_end f then
    '(o, a) ← spec_message proto (past y ++ es) (message_of k es) ms a;
    Some (o, (put (mkSeen (past y ++ es) None), a))
  else Some ([], (put (mkSeen (past y ++ es) (Some (message_of k es, ms))), a)).

Inductive h2_input :=
  | FFrame (proto : HttpState.protocol_info) (f : h2frame)
  | FClosed (uid : Z)
  | FPeriod.
Definition ok_h2 (i : h2_input) : Prop :=
  match i with FFrame proto f => carries_frame proto f /\ ok_frame f | _ => True end.

Definition spec_h2 (i : h2_input) (x : h2_state) : option (list http_out * h2_state) :=
  match i with
  | FFrame proto f => spec_frame proto f x
  | FClosed uid => Some ([], (delete uid x.1, x.2))
  | FPeriod =>
      Some (if mtcWatch CFG_MTC_HTTP && mtcEnabled
            then map HMetric (HttpAgg.httpAggSendReport (HttpAgg.mkProc (procname g_proc) (pid g_proc) (hostname g_proc)) x.2) else [],
            (x.1, HttpAgg.httpAggReset x.2))
  end.
Fixpoint spec_h2s (l : list h2_input) (x : h2_state) : option (list http_out) :=
  match l with
  | [] => Some []
  | i :: l => '(o, x) ← spec_h2 i x; os ← spec_h2s l x; Some (o ++ os)
  end.

Definition exec_h2 (i : h2_input) (s : hs (T := T)) : ub hs :=
  match i with
  | FFrame proto _ => doProtocolMetric 0 proto s
  | FClosed uid => Def (release uid s)
  | FPeriod => Def (doHttpAgg s)
  end.
Fixpoint exec_h2s (l : list h2_input) (s : hs (T := T)) : ub hs :=
  match l with [] => Def s | i :: l => s ← exec_h2 i s; exec_h2s l s end.

(** ** Building *)

Definition doc (ms : list member) : building := (CJson.cJSON_Object ms, []).

Lemma add_num f n ms : addHttp2NumField f n (doc ms) = doc (ms ++ num_member f n).
Proof. unfold addHttp2NumField, num_member. destruct (isHttp2FieldEnabled _ _); [done|by rewrite app_nil_r]. Qed.
Lemma add_str f v ms : addHttp2StrField f v (doc ms) = doc (ms ++ str_member f v).
Proof. unfold addHttp2StrField, str_member. destruct (isHttp2FieldEnabled _ _); [done|by rewrite app_nil_r]. Qed.
Lemma add_strLN f v ms : addHttp2StrFieldLN f v (doc ms) = doc (ms ++ str_member f v).
Proof. unfold addHttp2StrFieldLN, str_member. destruct (isHttp2FieldEnabled _ _); [done|by rewrite app_nil_r]. Qed.

(** The stream holds what was last seen on it. *)
Record stream_is (x : http2Stream_t) (past : list entry) : Prop := mkStreamIs {
  si_at : lastRequestAt x = requested past;
  si_status : lastStatus x = last_status past;
  si_host : lastHost x = last_text Authority past;
  si_method : lastMethod x = last_text Method past;
  si_target : lastTarget x = last_text Path past;
  si_agent : lastUserAgent x = last_text Agent past;
  si_req : lastReqLen x = last_length 1 past;
  si_resp : lastRespLen x = last_length 2 past;
}.

Lemma text_length l : String.length (text l) = length l.
Proof. unfold text. induction l as [|c l IH]; simpl; congruence. Qed.
Lemma cut_fits n e : fits n e = true -> cut n (text (en_val e)) = text (en_val e).
Proof.
  intros Hf%Nat.ltb_lt. rewrite <- (text_length (en_val e)) in Hf. unfold cut. revert Hf. generalize (text (en_val e)). intros v. revert n.
  induction v as [|c v IH]; intros [|n] Hn; simpl in *; try lia; [done|]. f_equal. apply IH. lia.
Qed.

(** What another header changes. *)
Ltac look := unfold requested, last_status, last_text, last_length, last_of; rewrite ?last_filter_snoc; cbn [en_role en_message].

Lemma other_keeps x past e : stream_is x past -> en_role e ∉ [Method; Status; Authority; Path; Agent; Length] -> stream_is x (past ++ [e]).
Proof.
  intros [] Hr. assert (forall r, r ∈ [Method; Status; Authority; Path; Agent; Length] -> en_role e <> r) as Hne by congruence.
  split; look; repeat (rewrite decide_False by (first [apply Hne|intros [Hl _]; revert Hl; apply Hne]; set_solver)); done.
Qed.

Lemma number_read e : is_number e = true -> exists n, atoi (en_val e) = Def n /\ number e = Some n.
Proof. unfold is_number, number. intros [m Hm]%bool_decide_eq_true. destruct (atoi (en_val e)) as [n|]; [by eauto|done]. Qed.

(** The entry of a header, after the type of the message is known. *)
Definition entry_of (start k : Z) (n v : list Z) (line : string) (last : Z) : entry :=
  mkEntry start (match role_of n with Method => 1 | Status => 2 | _ => k end) (role_of n) n v line last.

Ltac changed := split; look; simpl; repeat first [rewrite decide_True by done | rewrite decide_False by (by intros ?; first [discriminate|naive_solver])]; simpl; try done.

(** A header whose text is kept in an array, and one that is only reported. *)
Ltac array_header :=
  let Hf := fresh in let Hc := fresh in
  intros Hf; pose proof (cut_fits _ _ Hf) as Hc; cbn [en_val] in Hc; rewrite add_str, Hc; eexists; split; [reflexivity|]; split; [changed|done].
Ltac shown_header :=
  intros _; rewrite add_str; eexists; split; [reflexivity|]; split; [by apply other_keeps; [|set_solver]|done].

Lemma h2_header_ok f start n v line last x past ms :
  stream_is x past -> ok_entry (entry_of start (msgType x) n v line last) = true ->
  exists x', h2_header (type_of f) (fr_stream f) start n v line (x, doc ms) = Def (x', doc (ms ++ of_header f (entry_of start (msgType x) n v line last))) /\
    stream_is x' (past ++ [entry_of start (msgType x) n v line last]) /\ msgType x' = en_message (entry_of start (msgType x) n v line last) /\ jsonData x' = jsonData x.
Proof.
  intros Hs [_ Hok]%andb_true_iff. revert Hok. unfold h2_header, of_header, entry_of, role_of, roles. cbn [List.find fst].
  pose proof Hs as [S1 S2 S3 S4 S5 S6 S7 S8].
  destruct (strcaseeq ":method" (text n)).
  { cbn [en_role en_message en_val]. intros Hf. pose proof (cut_fits _ _ Hf) as Hc. cbn [en_val] in Hc.
    rewrite add_num, add_str, Hc. unfold type_of. eexists. split; [|split].
    - destruct (fr_kind f); cbn [Z.eqb Pos.eqb]; rewrite ?add_strLN, ?app_nil_r, <- !app_assoc; reflexivity.
    - changed.
    - done. }
  destruct (strcaseeq ":status" (text n)).
  { cbn [en_role en_message en_val]. intros (z & Ha & Hn)%number_read. cbn [en_val] in Ha. rewrite Ha, Hn. cbn [mbind ub_bind default].
    eexists. rewrite !add_num, add_str, <- !app_assoc. split; [reflexivity|]. split; [|done]. changed. by rewrite Hn. }
  destruct (strcaseeq ":authority" (text n)); [array_header|].
  destruct (strcaseeq ":path" (text n)); [array_header|].
  destruct (strcaseeq ":scheme" (text n)); [shown_header|].
  destruct (strcaseeq "user-agent" (text n)); [array_header|].
  destruct (strcaseeq "x-appview" (text n)); [shown_header|].
  destruct (strcaseeq "x-forwarded-for" (text n)); [shown_header|].
  destruct (strcaseeq "content-length" (text n)).
  { cbn [en_role en_message en_val]. destruct (msgType x =? 1) eqn:K1; [apply Z.eqb_eq in K1|destruct (msgType x =? 2) eqn:K2; [apply Z.eqb_eq in K2|]].
    - rewrite K1. intros (z & Ha & Hn)%number_read. cbn [en_val] in Ha. rewrite Ha, Hn. cbn [mbind ub_bind default]. rewrite add_num.
      eexists. split; [reflexivity|]. split; [|done]. changed. by rewrite Hn.
    - rewrite K2. intros (z & Ha & Hn)%number_read. cbn [en_val] in Ha. rewrite Ha, Hn. cbn [mbind ub_bind default]. rewrite add_num.
      eexists. split; [reflexivity|]. split; [|done]. changed. by rewrite Hn.
    - intros _. exists x. rewrite app_nil_r. split; [done|]. split; [|done]. apply Z.eqb_neq in K1, K2. changed. }
  intros _. exists x. split; [|split; [by apply other_keeps; [|set_solver]|done]].
  cbn [en_role en_line en_name en_val]. destruct (existsb _ _); [done|by rewrite app_nil_r].
Qed.

Lemma message_of_cons k e es : message_of k (e :: es) = message_of (en_message e) es.
Proof. unfold message_of. rewrite list_basics.list.last_cons. by destruct (last es). Qed.

(** A block of headers. *)
Lemma h2_block_ok f start fuel block d x past ms : stream_is x past -> (length block <= fuel)%nat ->
  let es := entries start (msgType x) (decoded fuel d block).1 in
  forallb ok_entry es = true ->
  exists x', h2_block fuel (type_of f) (fr_stream f) start block d (x, doc ms) =
      Def ((decoded fuel d block).2, (x', doc (ms ++ concat (map (of_header f) es)))) /\
    stream_is x' (past ++ es) /\ msgType x' = message_of (msgType x) es /\ jsonData x' = jsonData x.
Proof.
  revert block d x past ms. induction fuel as [|fuel IH]; intros block d x past ms Hs Hl; cbn zeta.
  { destruct block; [|simpl in Hl; lia]. intros _. exists x. by rewrite !app_nil_r. }
  destruct block as [|c block]; cbn [decoded h2_block]; [intros _; exists x; by rewrite !app_nil_r|].
  destruct (lshpack_dec_decode d (c :: block)) as [name gap val used d1|d1]; [|intros _; exists x; by rewrite !app_nil_r].
  destruct (decoded fuel d1 (drop (S used) (c :: block))) as [hs d2] eqn:Hd. cbn [fst snd entries]. cbn zeta.
  set (line := text (CJson.cstr (name ++ [COLON] ++ gap ++ val))). cbn [forallb map concat].
  fold (entry_of start (msgType x) (CJson.cstr name) (CJson.cstr val) line (out_end name gap val)). intros [Hok Hes]%andb_true_iff.
  assert ((OUT_SIZE <=? out_end name gap val) = false) as ->.
  { apply andb_true_iff in Hok as [Ho%Z.ltb_lt _]. by apply Z.leb_gt. }
  destruct (h2_header_ok f start _ _ line _ x past ms Hs Hok) as (x1 & -> & Hs1 & Hm1 & Hj1). cbn [mbind ub_bind].
  destruct (IH (drop (S used) (c :: block)) d1 x1 _ (ms ++ of_header f (entry_of start (msgType x) (CJson.cstr name) (CJson.cstr val) line (out_end name gap val))) Hs1)
    as (x2 & -> & Hs2 & Hm2 & Hj2); rewrite ?Hd, ?Hm1; cbn [fst snd]; [rewrite length_drop; simpl in *; lia|done|].
  exists x2. rewrite Hd, Hm1, <- !app_assoc in *. cbn [fst snd] in *. rewrite message_of_cons. split_and!; [done|exact Hs2|done|congruence].
Qed.

(** ** The end of a message *)

Lemma socket_ok proto ms : h2_socket proto (doc ms) = doc (ms ++ of_socket proto).
Proof.
  unfold h2_socket, of_socket. destruct (addrIsNetDomain _); [|by rewrite app_nil_r].
  assert (forall f v ms, opt_field f v (doc ms) = doc (ms ++ from_option (str_member f) [] v)) as O.
  { intros f [v|] l; [apply add_str|]. simpl. by rewrite app_nil_r. }
  destruct (_ && _); rewrite ?add_strLN, !O, !add_num, <- !app_assoc; [done|]. by rewrite app_nil_l.
Qed.

Lemma last_in (Q : entry -> Prop) `{!forall e, Decision (Q e)} l e : last (filter Q l) = Some e -> Q e /\ e ∈ l.
Proof. intros Hl%last_Some_elem_of. by apply list_elem_of_filter in Hl. Qed.

Lemma last_fits r n l : (forall e, en_role e = r -> ok_entry e = true -> fits n e = true) -> (0 < n)%nat -> forallb ok_entry l = true ->
  (String.length (last_text r l) < n)%nat.
Proof.
  intros Hr Hn Hl. unfold last_text, last_of. destruct (last _) as [e|] eqn:He; [|done]. apply last_in in He as [He Hin].
  cbn [from_option]. rewrite text_length. apply Nat.ltb_lt, Hr; [done|]. rewrite forallb_forall in Hl. by apply Hl, list_elem_of_In.
Qed.

Lemma array_member_ok f r n l ms : (String.length (last_text r l) < n)%nat ->
  known_field f n (last_text r l) (doc ms) = Def (doc (ms ++ of_last f r l)).
Proof.
  intros Hn. unfold known_field, of_last. destruct (bool_decide (last_text r l = "")); [by rewrite app_nil_r|].
  unfold cstr. rewrite (proj2 (Nat.ltb_lt _ _)) by done. cbn [mbind ub_bind]. rewrite add_str.
  destruct (headerMatch http_field_re f) eqn:Hf, http_value_re eqn:Hv; try done; cbn [andb]; try rewrite bool_decide_eq_false_2 by (by intros []);
    unfold str_member, isHttp2FieldEnabled; rewrite ?Hf, ?Hv; cbn [headerMatch andb]; rewrite ?app_nil_r; done.
Qed.

Definition after_message (s : hs (T := T)) (o : list http_out) (a : HttpAgg.http_agg_t) : hs :=
  set_agg (set_http_sent s (http_sent s ++ o)) (Some a).

Lemma send_ok name proto ms (s : hs (T := T)) : hs_al s = [] ->
  h2_send name (HttpState.proto_len proto) (HttpState.proto_uid proto) (doc ms) s = set_http_sent s (http_sent s ++ data_event name proto ms).
Proof.
  intros Ha. unfold h2_send, data_event. destruct s. simpl in *. subst. by destruct (isHttp2NameEnabled name); [|unfold set_http_sent; simpl; rewrite app_nil_r].
Qed.

Lemma response_ok proto x l ms a (s : hs (T := T)) : stream_is x l -> forallb ok_entry l = true ->
  hs_al s = [] -> g_http_agg s = Some a -> requested l <> 0 ->
  let duration := u32 (u64 (HttpState.start_duration (HttpState.proto_data proto) - requested l) / 1000000) in
  let name := duration_name (HttpState.isServer proto) in
  h2_response proto x (doc ms) s =
  Def (after_message s (data_event "http.resp" proto
         (ms ++ num_member name duration ++ of_last "http_host" Authority l ++ of_last "http_method" Method l
          ++ of_last "http_target" Path l ++ of_last "http_user_agent" Agent l)) (spec_metric name duration l a)).
Proof.
  intros [] Hl Ha Hg Hr. cbn zeta. unfold h2_response, h2_duration. rewrite si_at0, (proj2 (Z.eqb_neq _ _) Hr). cbn [negb]. cbn [mbind ub_bind].
  assert (forall r n, (forall e, en_role e = r -> ok_entry e = true -> fits n e = true) -> (0 < n)%nat -> (String.length (last_text r l) < n)%nat) as F
    by (intros; by apply last_fits).
  assert (String.length (last_text Path l) < TARGET_MAX)%nat as Ht by (apply F; [by intros e He [_ Hk]%andb_true_iff; rewrite He in Hk|by apply Nat.ltb_lt]).
  rewrite add_num, si_host0, si_method0, si_target0, si_agent0.
  rewrite array_member_ok by (apply F; [by intros e He [_ Hk]%andb_true_iff; rewrite He in Hk|by apply Nat.ltb_lt]). cbn [mbind ub_bind].
  rewrite array_member_ok by (apply F; [by intros e He [_ Hk]%andb_true_iff; rewrite He in Hk|by apply Nat.ltb_lt]). cbn [mbind ub_bind].
  rewrite array_member_ok by done. cbn [mbind ub_bind].
  rewrite array_member_ok by (apply F; [by intros e He [_ Hk]%andb_true_iff; rewrite He in Hk|by apply Nat.ltb_lt]). cbn [mbind ub_bind].
  rewrite send_ok by done. unfold cstr. rewrite (proj2 (Nat.ltb_lt _ _) Ht). cbn [mbind ub_bind]. rewrite <- !app_assoc, si_status0, si_req0, si_resp0.
  unfold spec_metric, after_message. destruct s. simpl in *. subst. by destruct (mtcEnabled && _).
Qed.

Lemma message_ok proto x l ms a o a' (s : hs (T := T)) : stream_is x l -> forallb ok_entry l = true ->
  hs_al s = [] -> g_http_agg s = Some a -> spec_message proto l (msgType x) ms a = Some (o, a') ->
  h2_message proto x (doc ms) s = Def (after_message s o a').
Proof.
  intros Hx Hl Ha Hg. unfold spec_message, h2_message. rewrite socket_ok. destruct (msgType x =? 1).
  { intros [= <- <-]. rewrite send_ok by done. unfold after_message. destruct s. simpl in *. by subst. }
  destruct (msgType x =? 2); [|intros [= <- <-]; unfold after_message; destruct s; simpl in *; subst; by rewrite app_nil_r].
  destruct (requested l =? 0) eqn:Hr; [done|]. apply Z.eqb_neq in Hr. intros [= <- <-].
  rewrite (response_ok _ _ l _ a) by done. by rewrite <- !app_assoc.
Qed.

(** ** The channels *)

Record stream_rep (x : http2Stream_t) (y : seen) : Prop := mkRep {
  sr_is : stream_is x (past y);
  sr_ok : forallb ok_entry (past y) = true;
  sr_type : msgType x = from_option fst 0 (opened y);
  sr_json : jsonData x = (fun o => CJson.cJSON_Object o.2) <$> opened y;
}.
Definition channel_rep (c : http2Channel_t) (x : connection) : Prop :=
  decoder c = x.1 /\ exists m, streams c = Some m /\ forall n, option_Forall2 stream_rep (m !! n) (x.2 !! n).

(** The address of a connection's channel. *)
Definition lives (s : hs (T := T)) (uid a : Z) : Prop := HttpMatch.channelGet (g_http2_channels s) uid = Some a.

Record h2_ready (s : hs (T := T)) (x : h2_state) : Prop := mkH2Ready {
  hr_al : hs_al s = [];
  hr_agg : g_http_agg s = Some x.2;
  hr_store : exists st A, g_http2_channels s = Some st /\ HttpMatch.holds st A /\
    (forall u v a, A !! u = Some a -> A !! v = Some a -> u = v) /\ (forall u a, A !! u = Some a -> a < channel_next s) /\
    forall u, option_Forall2 (fun a c => exists ch, channel_heap s !! a = Some ch /\ channel_rep ch c) (A !! u) (x.1 !! u);
}.

Lemma h2_alloc s x : h2_ready s x -> h_alloc s = (true, s).
Proof. intros [Ha _ _]. unfold h_alloc. rewrite Ha. destruct s. simpl in *. by subst. Qed.

Lemma rep_new : channel_rep (mkChannel lshpack_dec_init (Some ∅)) (lshpack_dec_init, ∅).
Proof. split; [done|]. exists ∅. split; [done|]. intros n. simpl. rewrite !lookup_empty. constructor. Qed.

(** The channel is there, or it is created. *)
Lemma get_channel_ok proto s C a : h2_ready s (C, a) -> exists p s' c, get_channel proto s = (Some p, s') /\
  c = default (lshpack_dec_init, ∅) (C !! HttpState.proto_uid proto) /\ lives s' (HttpState.proto_uid proto) p /\
  h2_ready s' (<[HttpState.proto_uid proto := c]> C, a) /\ http_sent s' = http_sent s.
Proof.
  intros R. pose proof R as [Ha Hg (st & A & Hst & Hh & Hinj & Hlt & Hch)]. cbn [fst snd] in *. set (uid := HttpState.proto_uid proto) in *.
  unfold get_channel. fold uid. rewrite Hst. unfold HttpMatch.channelGet. rewrite (proj2 Hh). pose proof (Hch uid) as Hu.
  destruct (A !! uid) as [p|] eqn:HA, (C !! uid) as [c|] eqn:HC; inversion Hu as [? ? (ch & Hp & Hr) | ]; subst.
  - exists p, s, c. split; [done|]. split; [done|]. split; [unfold lives, HttpMatch.channelGet; rewrite Hst; by rewrite (proj2 Hh)|].
    split; [|done]. rewrite insert_id by done. done.
  - rewrite !(h2_alloc _ _ R). cbn [negb]. rewrite Hst, bool_decide_eq_true_2 by eauto. rewrite ?(h2_alloc _ _ R).
    destruct (HttpMatch.save_holds st A (channel_next s) uid (HttpState.proto_fd proto) Hh) as (st' & Hsave & Hh').
    rewrite HA in Hsave, Hh'. rewrite bool_decide_eq_true_2 in Hsave by done. unfold HttpMatch.channelSave. rewrite Hst, Hsave.
    eexists _, _, _. split; [reflexivity|]. split; [reflexivity|].
    split; [change (HttpMatch.storeGet (Some st') uid = Some (channel_next s)); by rewrite (proj2 Hh'), lookup_insert_eq|].
    split; [|done]. constructor; [done..|]. exists st', (<[uid := channel_next s]> A). split_and!; [done|done| | |].
    + intros u v q. rewrite !lookup_insert_Some. intros [[<- <-]|[Hn Hq]] [[<- Hq']|[Hn' Hq']]; [done| | |by eapply Hinj].
      * apply Hlt in Hq'. lia.
      * subst. apply Hlt in Hq. lia.
    + intros u q. rewrite lookup_insert_Some. simpl. intros [[_ <-]|[_ Hq]]; [lia|]. apply Hlt in Hq. lia.
    + intros u. simpl. destruct (decide (u = uid)) as [->|Hn].
      * rewrite !lookup_insert_eq. constructor. exists (mkChannel lshpack_dec_init (Some ∅)). rewrite lookup_insert_eq. split; [done|apply rep_new].
      * rewrite !lookup_insert_ne by done. pose proof (Hch u) as Hcu. destruct (A !! u) as [q|] eqn:Hq; inversion Hcu as [? c (ch & Hp & Hr) | ]; subst; constructor.
        exists ch. rewrite lookup_insert_ne by (apply Hlt in Hq; lia). done.
Qed.

(** What is at the address, and another channel put there. *)
Lemma lives_rep s C a uid p : h2_ready s (C, a) -> lives s uid p -> exists ch c, channel_heap s !! p = Some ch /\ C !! uid = Some c /\ channel_rep ch c.
Proof.
  intros [_ _ (st & A & Hst & Hh & _ & _ & Hch)] Hl. unfold lives, HttpMatch.channelGet in Hl. rewrite Hst, (proj2 Hh) in Hl.
  pose proof (Hch uid) as Hu. rewrite Hl in Hu. inversion Hu as [? c (ch & Hp & Hr) Hx Hy| ]; subst. exists ch, c. done.
Qed.
Lemma put_rep s C a uid p ch c : h2_ready s (C, a) -> lives s uid p -> channel_rep ch c ->
  h2_ready (set_heap s (<[p := ch]> (channel_heap s)) (channel_next s)) (<[uid := c]> C, a).
Proof.
  intros [Ha Hg (st & A & Hst & Hh & Hinj & Hlt & Hch)] Hl Hr. constructor; [done..|]. exists st, A. split_and!; try done.
  unfold lives, HttpMatch.channelGet in Hl. rewrite Hst, (proj2 Hh) in Hl. intros u. simpl. destruct (decide (u = uid)) as [->|Hn].
  - rewrite Hl, lookup_insert_eq. constructor. exists ch. by rewrite lookup_insert_eq.
  - rewrite lookup_insert_ne by done. pose proof (Hch u) as Hu. destruct (A !! u) as [q|] eqn:Hq; inversion Hu as [? d (ch' & Hp & Hr') | ]; subst; constructor.
    exists ch'. rewrite lookup_insert_ne; [done|]. intros ->. by rewrite (Hinj _ _ _ Hq Hl) in Hn.
Qed.

(** ** The streams *)

Lemma rep_stream ch d ss d' n x y : channel_rep ch (d, ss) -> stream_rep x y ->
  channel_rep (mkChannel d' ((<[n := x]>) <$> streams ch)) (d', <[n := y]> ss).
Proof.
  intros [_ (m & -> & Hm)] Hx. split; [done|]. exists (<[n := x]> m). split; [done|]. intros i. simpl. destruct (decide (i = n)) as [->|Hn].
  - rewrite !lookup_insert_eq. by constructor.
  - rewrite !lookup_insert_ne by done. apply Hm.
Qed.
Lemma rep_fresh : stream_rep new_stream new_seen.
Proof. by constructor; [constructor|..]. Qed.

Lemma get_stream_ok s C a uid p d ss n : h2_ready s (C, a) -> lives s uid p -> C !! uid = Some (d, ss) ->
  exists x s' y, get_stream p n s = (Some x, s') /\ y = default new_seen (ss !! n) /\ stream_rep x y /\
    (exists ch, channel_heap s' !! p = Some ch /\ decoder ch = d) /\ lives s' uid p /\
    h2_ready s' (<[uid := (d, <[n := y]> ss)]> C, a) /\ http_sent s' = http_sent s.
Proof.
  intros R Hl HC. destruct (lives_rep _ _ _ _ _ R Hl) as (ch & c & Hp & Hc & Hr). assert (c = (d, ss)) as -> by (pose proof (eq_trans (eq_sym Hc) HC) as Hx; by injection Hx).
  unfold get_stream. rewrite Hp. pose proof Hr as [Hd (m & Hm & Hs)]. cbn [fst snd] in *. rewrite Hm. cbn [mbind option_bind].
  pose proof (Hs n) as Hn. destruct (m !! n) as [x|] eqn:Hx, (ss !! n) as [y|] eqn:Hy; inversion Hn as [? ? Hxy| ]; subst.
  - exists x, s, y. split_and!; try done; [by eauto|]. by rewrite (insert_id ss), insert_id.
  - rewrite !(h2_alloc _ _ R). cbn [negb]. eexists _, _, new_seen. split; [reflexivity|]. split; [done|]. split; [apply rep_fresh|].
    pose proof (rep_stream ch _ ss (decoder ch) n _ _ Hr rep_fresh) as Hr'. rewrite Hm in Hr'.
    split; [|split; [done|split; [by eapply put_rep|done]]]. eexists. split; [apply lookup_insert_eq|done].
Qed.

Lemma put_stream_ok s C a uid p d0 ss n d x y : h2_ready s (C, a) -> lives s uid p -> C !! uid = Some (d0, ss) -> stream_rep x y ->
  h2_ready (put_stream p n d x s) (<[uid := (d, <[n := y]> ss)]> C, a).
Proof.
  intros R Hl HC Hxy. destruct (lives_rep _ _ _ _ _ R Hl) as (ch & c & Hp & Hc & Hr). assert (c = (d0, ss)) as -> by (pose proof (eq_trans (eq_sym Hc) HC) as Hx; by injection Hx). unfold put_stream.
  replace (alter _ p (channel_heap s)) with (<[p := mkChannel d ((<[n := x]>) <$> streams ch)]> (channel_heap s)).
  - eapply put_rep; [done..|]. by eapply rep_stream.
  - apply map_eq. intros i. destruct (decide (i = p)) as [->|Hi]; [by rewrite lookup_insert_eq, lookup_alter_eq, Hp|].
    by rewrite lookup_insert_ne, lookup_alter_ne.
Qed.

(** ** The steps *)

Lemma frame_head_read f : ok_frame f -> load (encode f) 0 = Def (Z.of_nat (length (payload_of f)) / 2 ^ 16) /\
  load (encode f) 1 = Def (Z.of_nat (length (payload_of f)) / 2 ^ 8 mod 256) /\ load (encode f) 2 = Def (Z.of_nat (length (payload_of f)) mod 256) /\
  load (encode f) 3 = Def (type_of f) /\ load (encode f) 4 = Def (flags_of f) /\ load4 (encode f) 5 = Def (stream_field f).
Proof.
  intros (_ & Hs & _). split_and!; [by apply (load_nth _ 0)|by apply (load_nth _ 1)|by apply (load_nth _ 2)|by apply (load_nth _ 3)|by apply (load_nth _ 4)|].
  unfold encode, frame_head. cbn zeta. rewrite <- (app_assoc [_; _; _; _; _]). by apply (load4_be [_; _; _; _; _]).
Qed.

(** The stream of the message. *)
Lemma stream_read f : ok_frame f ->
  (if type_of f =? 5 then load4 (encode f) (if bit (flags_of f) 8 then 10 else 9) else Def (stream_field f)) = Def (fr_stream f).
Proof.
  intros (Hs & _ & _ & Hp). destruct (bit_flags f) as (-> & _ & _). unfold type_of. destruct (fr_kind f) as [|a|] eqn:Hk; unfold stream_field; rewrite Hk; try done.
  cbn [Z.eqb Pos.eqb]. unfold encode, payload_of, before_block, is_promise in *. rewrite Hk in *.
  destruct (fr_priority f) as [pr|]; [by destruct Hp|]. cbn [default app].
  destruct (fr_padding f) as [pad|].
  - rewrite bool_decide_eq_true_2 by eauto.
    match goal with |- load4 ?l _ = _ => replace l with ((frame_head f ++ [Z.of_nat (length pad)]) ++ be4 (fr_stream f) ++ fr_block f ++ pad) end.
    + by apply (load4_be (frame_head f ++ [_])).
    + by rewrite <- !app_assoc.
  - rewrite bool_decide_eq_false_2 by (by intros []). by apply (load4_be (frame_head f)).
Qed.

(** The frame is read as it was encoded. *)
Lemma frame_read proto f (s : hs (T := T)) : carries_frame proto f -> ok_frame f -> doHttp2Frame proto s =
  match get_channel proto s with
  | (None, s) => Def s
  | (Some a, s) =>
      match get_stream a (fr_stream f) s with
      | (None, s) => Def s
      | (Some stream, s) =>
          match get_json stream s with
          | (None, s) => Def s
          | (Some j, s) =>
              let d := match channel_heap s !! a with Some c => decoder c | None => lshpack_dec_init end in
              '(d, (stream, b)) ← h2_block (length (fr_block f)) (type_of f) (fr_stream f)
                 (HttpState.start_duration (HttpState.proto_data proto)) (fr_block f) d (stream, (j, hs_al s));
              if fr_end f then
                s ← h2_message proto stream b (set_al s b.2);
                Def (put_stream a (fr_stream f) d (set_json (set_type stream 0) None) s)
              else Def (put_stream a (fr_stream f) d (set_json stream (Some b.1)) (set_al s b.2))
          end
      end
  end.
Proof.
  intros (_ & Hlen & Hhdr) Hf. destruct (frame_head_read f Hf) as (L0 & L1 & L2 & L3 & L4 & L5). destruct (bit_flags f) as (_ & _ & Hend).
  pose proof (fragment_encoded f Hf) as Hfr. pose proof (stream_read f Hf) as Hst. destruct Hf as (_ & _ & Hn & _).
  assert (length (encode f) = 9 + length (payload_of f))%nat as Hle by (unfold encode; by rewrite length_app).
  unfold doHttp2Frame. rewrite Hlen, Nat2Z.id, Hhdr. rewrite (proj2 (Z.ltb_ge _ 9)) by lia. rewrite L0, L1, L2, L3, L4, L5. cbn [mbind ub_bind].
  assert (Z.of_nat (length (payload_of f)) / 2 ^ 16 * 2 ^ 16 + Z.of_nat (length (payload_of f)) / 2 ^ 8 mod 256 * 2 ^ 8
          + Z.of_nat (length (payload_of f)) mod 256 = Z.of_nat (length (payload_of f))) as ->.
  { Z.to_euclidean_division_equations. lia. }
  rewrite (proj2 (Z.eqb_eq _ _)) by lia. cbn [negb]. rewrite Hst. cbn [mbind ub_bind].
  assert ((type_of f =? 1) || (type_of f =? 5) || (type_of f =? 9) = true) as -> by (unfold type_of; by destruct (fr_kind f)). cbn [negb].
  destruct (get_channel proto s) as [[p|] s1]; [|done]. destruct (get_stream p (fr_stream f) s1) as [[x|] s2]; [|done].
  destruct (get_json x s2) as [[j|] s3]; [|done]. rewrite Hfr, Hend. done.
Qed.

Lemma get_json_ok x y (s : hs (T := T)) : stream_rep x y -> hs_al s = [] ->
  get_json x s = (Some (CJson.cJSON_Object (default (0, flavor) (opened y)).2), s) /\ msgType x = (default (0, flavor) (opened y)).1.
Proof.
  intros [_ _ Ht Hj] Ha. unfold get_json. rewrite Hj, Ht. destruct (opened y) as [[k ms]|]; [done|]. destruct s. simpl in *. by subst.
Qed.

(** The stream after a message, and after a part of one. *)
Lemma rep_ended x l : stream_is x l -> forallb ok_entry l = true -> stream_rep (set_json (set_type x 0) None) (mkSeen l None).
Proof. by intros [] Hl; constructor; [constructor|..]. Qed.
Lemma rep_open x l k ms : stream_is x l -> forallb ok_entry l = true -> msgType x = k ->
  stream_rep (set_json x (Some (CJson.cJSON_Object ms))) (mkSeen l (Some (k, ms))).
Proof. by intros [] Hl Hk; constructor; [constructor|..]. Qed.

Lemma message_ready s C a o a' : h2_ready s (C, a) -> h2_ready (after_message s o a') (C, a').
Proof. by intros []. Qed.
Lemma set_al_id (s : hs (T := T)) : hs_al s = [] -> set_al s [] = s.
Proof. intros Ha. destruct s. simpl in *. by subst. Qed.

Lemma put_again s C a uid p d0 ss n y0 d x y : h2_ready s (<[uid := (d0, <[n := y0]> ss)]> C, a) -> lives s uid p -> stream_rep x y ->
  h2_ready (put_stream p n d x s) (<[uid := (d, <[n := y]> ss)]> C, a).
Proof.
  intros R Hl Hxy. pose proof (put_stream_ok s _ a uid p d0 _ n d x y R Hl (lookup_insert_eq _ _ _) Hxy) as G.
  by rewrite !insert_insert_eq in G.
Qed.

Definition h2_stepped (s : hs (T := T)) (r : ub hs) (o : list http_out) (x : h2_state) : Prop :=
  exists s', r = Def s' /\ h2_ready s' x /\ http_sent s' = http_sent s ++ o.

Lemma frame_step proto f s x o x' : h2_ready s x -> carries_frame proto f -> ok_frame f -> spec_frame proto f x = Some (o, x') ->
  h2_stepped s (doProtocolMetric 0 proto s) o x'.
Proof.
  destruct x as [C a]. intros R Hc Hf. pose proof Hc as (Hty & _). unfold doProtocolMetric. rewrite Hty. change (_ || _) with false. cbn match.
  rewrite Z.eqb_refl, (frame_read _ f) by done. unfold spec_frame.
  destruct (get_channel_ok proto s C a R) as (p & s1 & [d ss] & -> & Hcc & Hl1 & R1 & S1). rewrite <- Hcc.
  destruct (get_stream_ok s1 _ a _ p d ss (fr_stream f) R1 Hl1 (lookup_insert_eq _ _ _)) as (x & s2 & y & -> & Hy & Hxy & (ch & Hp & Hd) & Hl2 & R2 & S2).
  rewrite <- Hy. pose proof (hr_al _ _ R2) as Ha. destruct (get_json_ok x y s2 Hxy Ha) as [-> Hm]. rewrite Hp, Hd, Ha. cbn zeta.
  destruct (default (0, flavor) (opened y)) as [k ms]. cbn [fst snd] in *. subst k.
  rewrite (insert_insert_eq C) in R2. pose proof Hxy as [Hx Hok _ _].
  set (es := entries _ _ _). destruct (forallb ok_entry es) eqn:Hes; [|done]. cbn [negb].
  destruct (h2_block_ok f (HttpState.start_duration (HttpState.proto_data proto)) (length (fr_block f)) (fr_block f) d x (past y) ms Hx ltac:(done) Hes)
    as (x2 & Hb & Hx2 & Hm2 & _). fold es in Hb, Hx2, Hm2.
  match goal with |- context [h2_block ?a1 ?a2 ?a3 ?a4 ?a5 ?a6 ?a7] => replace (h2_block a1 a2 a3 a4 a5 a6 a7) with (h2_block a1 a2 a3 a4 a5 a6 (x, doc ms)) by reflexivity end. rewrite Hb. cbn [mbind ub_bind snd fst].
  assert (forallb ok_entry (past y ++ es) = true) as Hok2 by (rewrite forallb_app; by apply andb_true_iff).
  destruct (fr_end f).
  - destruct (spec_message _ _ _ _ _) as [[o' a']|] eqn:Hsp; [|done]. cbn [mbind option_bind]. intros [= <- <-].
    rewrite <- Hm2 in Hsp. rewrite set_al_id by done.
    pose proof (message_ok proto x2 _ _ a o' a' s2 Hx2 Hok2 Ha (hr_agg _ _ R2) Hsp) as Hms. rewrite Hms. cbn [mbind ub_bind].
    eexists. split; [reflexivity|]. split; [|simpl; by rewrite S2, S1].
    eapply put_again; [by eapply message_ready|exact Hl2|by apply rep_ended].
  - intros [= <- <-]. rewrite set_al_id by done. eexists. split; [reflexivity|]. split; [|simpl; by rewrite S2, S1, app_nil_r].
    eapply put_again; [exact R2|exact Hl2|by apply rep_open].
Qed.

Lemma release_step uid s C a : h2_ready s (C, a) -> h2_ready (release uid s) (delete uid C, a) /\ http_sent (release uid s) = http_sent s.
Proof.
  intros [Ha Hg (st & A & Hst & Hh & Hinj & Hlt & Hch)]. unfold release. destruct (HttpMatch.httpReqDelete _ _) as [[b m] fr].
  rewrite Hst. unfold HttpMatch.channelDelete. destruct (HttpMatch.delete_holds st A uid Hh) as (st' & -> & Hh').
  split; [|done]. constructor; [done..|]. exists st', (delete uid A). split_and!; [done|done| | |].
  - intros u v q [_ Hu]%lookup_delete_Some [_ Hv]%lookup_delete_Some. by eapply Hinj.
  - intros u q [_ Hu]%lookup_delete_Some. by eapply Hlt.
  - intros u. simpl. destruct (decide (u = uid)) as [->|Hn]; [rewrite !lookup_delete_eq; constructor|]. rewrite !lookup_delete_ne by done.
    pose proof (Hch u) as Hu. cbn [fst] in Hu. destruct (A !! u) as [q|] eqn:Hq, (C !! u) as [c|]; inversion Hu as [? ? (ch & Hp & Hr)|]; subst; constructor.
    exists ch. split; [|done]. destruct (A !! uid) as [r|] eqn:HA; [|done]. simpl. rewrite lookup_delete_ne; [done|].
    intros ->. by rewrite (Hinj _ _ _ HA Hq) in Hn.
Qed.

(** One input, and all of them. *)
Lemma h2_step i s x o x' : h2_ready s x -> ok_h2 i -> spec_h2 i x = Some (o, x') -> h2_stepped s (exec_h2 i s) o x'.
Proof.
  intros R Hi. destruct i as [proto f|uid|]; cbn [spec_h2 exec_h2].
  - intros Hs. by eapply frame_step; [done|apply Hi..|].
  - intros [= <- <-]. destruct x as [C a]. exists (release uid s). split; [done|]. rewrite app_nil_r. by apply release_step.
  - intros [= <- <-]. exists (doHttpAgg s). split; [done|]. unfold doHttpAgg. pose proof R as [Ra Rg Rst]. rewrite Rg.
    destruct (_ && _); (split; [by constructor|]); simpl; by rewrite ?app_nil_r.
Qed.

Lemma h2_run l s x os : h2_ready s x -> Forall ok_h2 l -> spec_h2s l x = Some os ->
  exists s', exec_h2s l s = Def s' /\ http_sent s' = http_sent s ++ os.
Proof.
  intros R Hl. revert s x os R. induction Hl as [|i l Hi _ IH]; intros s x os R; cbn [exec_h2s spec_h2s].
  { intros [= <-]. exists s. by rewrite app_nil_r. }
  destruct (spec_h2 i x) as [[o x1]|] eqn:Hs; [|done]. cbn [mbind option_bind].
  destruct (spec_h2s l x1) as [os1|] eqn:Hs1; [|done]. cbn [mbind option_bind]. intros [= <-].
  destruct (h2_step i s x o x1 R Hi Hs) as (s1 & -> & R1 & S1). cbn [mbind ub_bind].
  destruct (IH s1 x1 os1 R1 Hs1) as (s' & He & S'). exists s'. split; [done|]. by rewrite S', S1, app_assoc.
Qed.

Lemma h2_init_ready net extra qlen : h2_ready (initReporting true true true true true true (Some net) (Some extra) qlen [])
  (∅, HttpAgg.mkAgg [] HttpAgg.DEFAULT_TARGET_LEN).
Proof.
  constructor; [done..|]. destruct (HttpMatch.create_holds (D := Z) net extra qlen) as (st & Hc & Hh & _).
  exists st, ∅. split_and!; [done|done| | |]; intros u; simpl; intros *; rewrite ?lookup_empty; try done. constructor.
Qed.


End H2.

(** ** An exchange *)

Module Demo.

#[local] Existing Instance Session.Demo.env.
#[local] Existing Instance Session.Demo.proc.
#[local] Existing Instance CJson.integral.

(** Every byte of a block is the index of a header. *)
Definition table : list (string * string) :=
  [(":method", "GET"); (":path", "/a"); (":authority", "h"); ("user-agent", "curl"); (":status", "200"); ("content-length", "12")].
Definition indexed (d : unit) (block : list Z) : hpack_result unit :=
  match block with
  | i :: _ => match table !! Z.to_nat i with
              | Some (n, v) => HHeader (bytes_of n) [SP] (bytes_of v) 0 d
              | None => HError d
              end
  | [] => HError d
  end.
#[local] Instance http : HttpEnv :=
  mkHttpEnv [] (Some (fun _ => true)) (Some (fun _ => true)) (Some (fun _ => true)) unit tt indexed.

Definition event_of (f : h2frame) (at_ : Z) : HttpState.protocol_info :=
  HttpState.mkProto HttpState.EVT_PROTO HttpState.EVT_H2FRAME true (Z.of_nat (length (encode f))) 5 7
    (HttpState.mkPost false at_ (mkHttpId 7 5 false HttpState.NETRX) (encode f)) 1 HttpState.ConnUnset HttpState.ConnUnset.
Definition input (f : h2frame) (at_ : Z) : h2_input := FFrame (event_of f at_) f.

(** A request in a padded frame and a continuation, a promise on another stream,
    the response to the request, and the end of a period. *)
Definition ask : h2frame := mkFrame Headers 1 true false (Some [0; 0]) (Some [0; 0; 0; 0; 16]) [0; 1].
Definition rest : h2frame := mkFrame Continued 1 false true None None [2; 3].
Definition promise : h2frame := mkFrame (Promise 1) 2 false true (Some [0]) None [0; 1; 2].
Definition answer : h2frame := mkFrame Headers 1 false true None None [4; 5].
Definition story : list h2_input :=
  [input ask 1000000000; input rest 1000000000; input promise 1001000000; input answer 1012000000; FPeriod; FClosed 7].

Lemma input_ok f t : ok_frame f -> ok_h2 (input f t).
Proof. intros Hf. split; [|done]. split; [done|]. split; [done|]. by rewrite take_ge. Qed.
Lemma frames_ok : Forall ok_h2 story.
Proof. repeat (constructor; [first [exact I|apply input_ok; vm_compute; repeat split; (congruence || done)]|]). constructor. Qed.

Definition name_of (o : http_out) : string := match o with HFields e _ | HMetric e | HData e _ _ => e_name e end.
Definition keys_of (o : http_out) : list string :=
  match o with HData _ (CJson.cJSON_Object l) _ => map (fun m => text m.1) l | _ => [] end.


End Demo.
End H2Pairs.
