(* ===== verification/HttpGaps.v ===== *)
(** * Where the reports of HTTP depart from what they mean (src/report.c)

    Inputs on which the code of [HttpReport] reads memory that is not its own or
    was never set, or reports a value that is not the header's. *)

From S2P Require Import Prelude Types HttpState HttpMatch HttpAgg CJson StateData State Report HttpReport HttpPairs Session.

Module HttpGaps.
Import StateData State Report HttpReport HttpPairs.

#[local] Open Scope Z_scope.

#[local] Existing Instance CJson.integral.
#[local] Existing Instance Session.Demo.proc.

(** The environment of the session, with an [inet_ntop] that shows the last byte
    of an IPv6 address. *)
#[local] Instance gap_env : Env :=
  mkEnv (fun _ => false) true (fun _ => true) false true 100 (fun n => 1000 * Z.of_nat n) 2500 true 0 false
    (fun _ => None) (mkStat 0 0 0) (fun _ => false) (fun _ => true) (fun _ => true) (fun _ => None) (fun _ => -1)
    (fun _ => None) (fun _ => None) (fun _ => None) (fun fam a => if fam =? AF_INET6 then Some (pretty (nth 23 a 0)) else None)
    (mkNotify false false false false [] [] [] [] []) 0 (fun _ => None).

(** A decoder whose headers take two bytes: an index and a terminator; a block
    that ends between them is an error. *)
Definition headers_of (i : Z) : string * string :=
  if i =? 1 then (":method", "PROPPATCH") else if i =? 2 then (":status", "200") else if i =? 3 then (":method", "GET") else ("user-agent", "curl").
Definition two_bytes (d : unit) (block : list Z) : hpack_result unit :=
  match block with
  | i :: _ :: _ => let '(n, v) := headers_of i in HHeader (bytes_of n) [SP] (bytes_of v) 1 d
  | _ => HError d
  end.
#[local] Instance gap_http : HttpEnv :=
  mkHttpEnv [] (Some (fun _ => true)) (Some (fun _ => true)) (Some (fun _ => true)) unit tt two_bytes.

Definition id_of (uid : Z) : httpId_t := mkHttpId uid 5 false HttpState.NETRX.
Definition posted_block (type : Z) (server : bool) (l : list Z) : HttpState.protocol_info :=
  HttpState.mkProto HttpState.EVT_PROTO type server (Z.of_nat (length l)) 5 7 (HttpState.mkPost false 1000 (id_of 7) l)
    1 HttpState.ConnUnset HttpState.ConnUnset.
Definition header_block (ls : list string) : list Z := concat (map (fun l => bytes_of l ++ crlf) ls) ++ [0].
Definition frame (type flags stream : Z) (payload : list Z) : list Z :=
  [0; 0; Z.of_nat (length payload); type; flags; 0; 0; 0; stream] ++ payload.

Definition at_boot : hs (T := unit) := initReporting true true true true true true (Some []) (Some tt) None [].
Definition one_frame (l : list Z) (s : hs (T := unit)) : ub hs := doProtocolMetric 0 (posted_block HttpState.EVT_H2FRAME true l) s.

Definition undefined {A} (r : ub A) : bool := match r with UB => true | Def _ => false end.

(** ** HTTP/1 *)

(** A header with the text of another's name in its value is taken for that
    header. *)
Example referer_taken_for_host :
  httpFields HttpState.EVT_HREQ (header_block ["GET / HTTP/1.1"; "Referer: http://localhost:8080/"]) 50 =
  Def ([strfield "http_host" (Some "http://localhost:8080/") 1], SIZE_MAX).
Proof. vm_compute. reflexivity. Qed.

(** A header without a value is reported with the line that follows. *)
Example empty_host_shows_next_line :
  httpFields HttpState.EVT_HREQ (header_block ["GET / HTTP/1.1"; "Host:"; "Accept: x"]) 35 =
  Def ([strfield "http_host" (Some (text [LF] +:+ "Accept: x")) 1], SIZE_MAX).
Proof. vm_compute. reflexivity. Qed.

(** A length with a leading zero is read as octal. *)
Example length_read_as_octal :
  httpFields HttpState.EVT_HRES (header_block ["HTTP/1.1 200 OK"; "Content-Length: 0100"]) 40 =
  Def ([numfield "http_response_content_length" 64 EVENT_ONLY_ATTR], 64).
Proof. vm_compute. reflexivity. Qed.

(** The text of the status is taken from a pointer that was not set when the
    version is not 1. *)
Example status_of_other_version_undefined :
  undefined (doProtocolMetric 0 (posted_block HttpState.EVT_HRES true (header_block ["HTTP/2 200 OK"; "A: b"])) at_boot) = true.
Proof. vm_compute. reflexivity. Qed.

(** The copy of the status text has no terminator: when no line follows an empty
    text the scan for its end leaves it. *)
Example status_text_overread :
  undefined (doProtocolMetric 0 (posted_block HttpState.EVT_HRES true (header_block ["HTTP/1.1 200 "])) at_boot) = true.
Proof. vm_compute. reflexivity. Qed.

(** A request that arrives before the response to another one on its socket is not
    reported. *)
Example pipelined_request_lost :
  let post l s := doProtocolMetric 0 (posted_block HttpState.EVT_HREQ true (header_block [l])) s in
  match (s ← post "GET /a HTTP/1.1" at_boot; post "GET /b HTTP/1.1" s) with
  | Def s => length (http_sent s) = 1%nat
  | UB => False
  end.
Proof. vm_compute. reflexivity. Qed.

(** The field of a response that a client received has the name of the server's
    duration. *)
Definition fields_of (o : http_out) : list string :=
  match o with HFields e _ => map f_name (default [] (e_fields e)) | _ => [] end.
Example client_duration_named_server :
  match doProtocolMetric 0 (posted_block HttpState.EVT_HRES false (header_block ["HTTP/1.1 200 OK"])) at_boot with
  | Def s => existsb (fun o => bool_decide ("http_server_duration" ∈ fields_of o)) (http_sent s) = true /\
             existsb (fun o => bool_decide ("http_client_duration" ∈ fields_of o)) (http_sent s) = false
  | UB => False
  end.
Proof. vm_compute. by split. Qed.

(** ** HTTP/2 *)

(** The array of the method has no room for the terminator of a method of eight
    bytes or more, and is read with the response. *)
Example long_method_overread :
  undefined (s ← one_frame (frame 1 4 1 [1; 0]) at_boot; one_frame (frame 1 4 1 [2; 0]) s) = true /\
  undefined (s ← one_frame (frame 1 4 1 [3; 0]) at_boot; one_frame (frame 1 4 1 [2; 0]) s) = false.
Proof. vm_compute. by split. Qed.

(** The duration is reported without having been set when no request was seen. *)
Example duration_of_unseen_request_undefined : undefined (one_frame (frame 1 4 1 [2; 0]) at_boot) = true.
Proof. vm_compute. reflexivity. Qed.

(** The length of the padding is read behind an empty frame, and so is the
    promised stream. *)
Example empty_padded_frame_overread : undefined (one_frame (frame 1 12 1 []) at_boot) = true.
Proof. vm_compute. reflexivity. Qed.
Example short_push_promise_overread : undefined (one_frame (frame 5 4 1 [0; 0]) at_boot) = true.
Proof. vm_compute. reflexivity. Qed.

(** The address of an IPv6 peer is read where an IPv4 address would be. *)
Definition v6_loopback : sockaddr := [10; 0; 0; 80; 0; 0; 0; 0] ++ replicate 15 0 ++ [1; 0; 0; 0; 0].
Example ipv6_address_misread :
  inet_ntop AF_INET6 v6_loopback = Some "1" /\ h2_ntop (with_family v6_loopback AF_INET6) <> Some "1".
Proof. vm_compute. split; [done|discriminate]. Qed.

(** The fragments of a header block are decoded one by one: a header that is cut
    by the end of a frame is lost, and so is what follows it. *)
Definition data_of (o : http_out) : list (list Z) :=
  match o with HData _ (CJson.cJSON_Object l) _ => map fst l | _ => [] end.
Definition names_sent (r : ub (hs (T := unit))) : list (list (list Z)) :=
  match r with Def s => map data_of (http_sent s) | UB => [] end.
Example split_header_lost :
  let whole := one_frame (frame 1 4 1 [3; 0; 4; 0]) at_boot in
  let cut := s ← one_frame (frame 1 0 1 [3; 0; 4]) at_boot; one_frame (frame 9 4 1 [0]) s in
  names_sent whole = map (map bytes_of) [["http_flavor"; "http_stream"; "http_method"; "http_frame"; "http_user_agent"]] /\
  names_sent cut = map (map bytes_of) [["http_flavor"; "http_stream"; "http_method"; "http_frame"]].
Proof. vm_compute. by split. Qed.

End HttpGaps.
